(* ===== verification/_CoqProject ===== *)
-Q . S2P
Prelude.v
GoStrings.v
Effects.v
NptPolicy.v
Alert.v
Notify.v
Tier.v
Health.v
HealthProps.v
HealthCycle.v
Rollback.v
WatchdogState.v
Watchdog.v
WatchdogRules.v
WatchdogProps.v
Observation.v
DeployStore.v
DeployProps.v
DeployEngine.v
DeployEngineProps.v
DeployDemo.v
DeployWatchdog.v
Intent.v
BgpConfig.v
WanState.v
WanStateProps.v
Readiness.v
ReadinessProps.v
Daemon.v
DaemonProps.v
ManagerDemo.v
ForwardingChanges.v
BgpFib.v
BgpSession.v
BgpSessionProps.v
BgpModule.v
BgpModuleProps.v
BgpDemo.v
NetWire.v
NetLink.v
NetConn.v
NetGraph.v
NetBgp.v
NetProvider.v
NetClaims.v
Firewall.v
FirewallProps.v
NetFirewall.v
NetDocument.v
NetProps.v
GatewayBgp.v
NetDemo.v
WanRoutes.v
WanRoutesProps.v
WanRoutesClaims.v
GatewayRoutes.v
WanRoutesDemo.v
Nftables.v
Steering.v
SteeringExec.v
SteeringProps.v
SteeringClaims.v
GatewaySteering.v
SteeringDemo.v
NatRules.v
NatExec.v
NatApply.v
BpfProgram.v
BpfProps.v
BpfPolicy.v
BpfClaims.v
BpfTranslator.v
BpfTranslatorProps.v
BpfEdge.v
NatReadiness.v
NptModule.v
NptModuleProps.v
NptClaims.v
GatewayNpt.v
NptDemo.v
