(* ===== verification/Prelude.v ===== *)
(** * A verification development for the mwan multi-WAN gateway

    ** The program

    mwan runs a gateway with several uplinks (WANs).  It is one Go binary with several
    roles.  On the gateway guest the interface manager ([mwan ifmgr],
    gateway/internal/ifmgr) probes every WAN, decides which ones are usable, steers
    traffic to the best tier of them and keeps the routes, the firewall and the NPTv6
    translation in step.  It is a daemon that runs a list of modules in passes over a
    shared store of live state (gateway/internal/wanstate), and it holds BGP sessions whose
    learned routes it installs in the kernel (gateway/internal/bgp).  On the hypervisor the watchdog (gateway/internal/watchdog)
    watches connectivity from outside, snapshots the guest while all is well, rolls it
    back when a recent change broke it, and otherwise moves the routes to a backup
    container.  A coordinated deploy (gateway/internal/deployoperation) arms an operation
    with a snapshot and a set of application checks before it changes the guest; a watch
    process observes the checks, and either the operation commits or the snapshot is
    restored, by the engine itself or by the watchdog on its behalf.

    The parts meet at a few places, each modelled on both sides: the health module writes
    the verdict file that tier selection reads, and pushes a status the watchdog reads;
    watchdog and deploy engine share the operation record and the hypervisor coordinator
    (a lock file); every alert goes through the notification manager; modules write the
    live state during a pass and the daemon derives from it the readiness that it publishes
    for every connection and on the readiness socket; writers of forwarding state bracket
    their changes with the guard of the accelerator.

    ** The files

    Shared:
    - [Prelude]: results ([res]) of fallible functions, wrap-around of 64-bit integers,
      Go's [time.Time] and [time.Duration] as counts of nanoseconds, tactics and hints.
    - [GoStrings]: the functions of [strings], [strconv] and [regexp] that the code calls.
    - [Effects]: the state monad [M], weakest preconditions [wp], and [sat], the
      relational specifications that composite programs inherit from their parts.

    Components, with the Go files under src/gateway/internal they translate:
    - [NptPolicy]: nptpolicy/policy.go, and the parts of [net/netip] it uses.
    - [Alert]: alert/limiter.go.   [Notify]: notify/{manager,notify,null}.go.
    - [Tier]: netif/{health,tier}.go and statuspush/statuspush.go.
    - [Health], [HealthProps], [HealthCycle]: ifmgr/modules/health, ifmgr/wanref.go and
      the wanstate types it publishes.  The class [HealthWorld] holds the probes, the
      clock and the file system.
    - [Rollback]: rollback/state.go.
    - [WatchdogState], [Watchdog], [WatchdogRules], [WatchdogProps]: watchdog/*.go,
      watchdogconfig, failovercheck and the interface of ops.  State is the record
      [watchdog]; the classes [SysOps] (hypervisor and guest), [Host] (clock, files, lock)
      and [DeployInspector] (the deploy operation) are the watchdog's world; every call is
      recorded with its result in a trace.
    - [Observation]: observation/{types,executor,cloudflare}.go and observation/contract.
    - [DeployStore], [DeployProps]: deployoperation/{state,manifest,watch}.go.
    - [DeployEngine], [DeployEngineProps]: deployoperation/{engine,recovery,identity}.go.
    - [DeployDemo]: one concrete operation, on which the deploy theorems are applied.
    - [DeployWatchdog]: the instance of [DeployInspector] by the deploy store and engine
      (watchdog/deploy_operation.go), with other processes interleaved.
    - [Intent]: interfaceintent/{intent,policy,routes}.go and connectionid, the
      configured connections that the interface manager works on.
    - [WanState], [WanStateProps]: wanstate/*.go and nptpolicy/equal.go.  State is the
      record [Store]; the clock and the copying of checks are the class [StoreWorld].
    - [Readiness], [ReadinessProps]: ifmgr/{path_readiness,family_readiness}.go.
    - [Daemon], [DaemonProps]: ifmgr/{daemon,module,roles,forwarding_failure}.go.  A module
      is any value of the record [IfModule], so the theorems hold for every set of modules;
      the lease store, the DHCP and router clients, the clock and the goroutines that write
      the live state between two reads of it are the class [DaemonWorld].
    - [ForwardingChanges]: ifmgr/forwarding_changes.go, as steps that interleave.
    - [ManagerDemo]: a store and a daemon on which the theorems of these files are applied.
    - [BgpConfig]: bgpsession/config.go.  [BgpFib]: bgp/{fib,fib_nexthop}.go, over a kernel
      that is the class [RouteWriter].  [BgpSession], [BgpSessionProps]:
      bgp/session*.go, over a server that is the class [BgpServer].
    - [BgpModule], [BgpModuleProps]: ifmgr/modules/bgpsessions, the module that owns the
      sessions, their journal and the sweep; its world is [ModuleWorld].
    - [BgpDemo]: a kernel, a server and a module on which these theorems are applied.
    - The network document (networkjson, interfaceintent, networkd/spec.go, config), from
      the decoded JSON to the configuration the daemon runs.  [NetWire]: the decoded
      records.  [NetLink]: links, PCI addresses, native bindings, tunnels.  [NetConn]:
      one connection, its families, leases and unit files.  [NetGraph]: identities, the
      parent and tunnel graph, [compileConnections].  [NetBgp]: BGP sessions and
      communities.  [NetProvider]: providers, translation, the checks over the set.
      [NetClaims]: the writers of shared resources.  [NetFirewall]: the firewall section.
      [NetDocument]: [build], and the plans of routes, defaults and policy rules.
      [NetProps]: its theorems; [NetDemo]: one document, loaded and checked.
    - [Firewall], [FirewallProps]: firewall/{config,plan,rules}.go and
      networkjson/firewall_plan.go.
    - [GatewayBgp]: the part of gateway/cmd/mwan that hands a loaded document to the BGP
      sessions module, and that the module can run what it gets.

    - [WanRoutes]: ifmgr/modules/wanroutes, the plan of a routing pass and the pass over the
      classes [RouteKernel], [RouteWriter] and [RoutesEnv].  [WanRoutesProps]: what each
      stage establishes; [WanRoutesClaims]: the module's promises; [GatewayRoutes]: the
      configuration cmd/mwan hands to it, for a loaded document; [WanRoutesDemo]: a pass
      over two providers.
    - [Nftables]: the nftables expressions the steering table uses and their documented
      meaning on a packet.  [Steering]: ifmgr/modules/steering, the rules of a pass, their
      expressions and the transaction, over the classes [NftConn], [NftKernel] and
      [SteeringEnv].  [SteeringExec]: what the committed chains do to packets.
      [SteeringProps], [SteeringClaims]: the marks of new flows, the guard and the split.
      [GatewaySteering]: the configuration cmd/mwan hands to it, and the two modules
      together; [SteeringDemo]: three providers.
    - The nat rules of prefix translation, ifmgr/modules/npt/{rules,applier,inspect}.go.
      [NatRules]: the rules of a set of WANs, their expressions and the reader of a listing,
      over the classes [NatConn], [NatReader] and [NatKernel].  [NatExec]: rules read back as
      written, and the documented meaning of the expressions on a packet; [NatApply]: the
      transaction.
    - The packet program, npt/bpf/npt.c and the values of translator.go it reads.
      [BpfProgram]: the program, its header walk and checksum arithmetic, and the policy map;
      [BpfProps], [BpfPolicy]: what each step does to the bytes of a packet, and what a policy
      value means; [BpfClaims]: the program against [NptPolicy].
    - The translator, npt/{translator,pins,edge_inspect,edge_stale_inspect}.go.
      [BpfTranslator]: a pass over the class [TcKernel]; [BpfTranslatorProps]: what a pass
      leaves attached and in the map; [BpfEdge]: when an edge address is unused.
    - The NPT module, npt/{npt,applied_policy,edge_release,ipv4_readiness}.go and
      [BeginNPTChange] of wanstate/npt.go.  [NatReadiness]: the IPv4 side; [NptModule]: the
      pass, over the classes [NPTAddressAuthority] and [NptHost]; [NptModuleProps]: its
      stages, under laws that keep the two kernels and the host apart; [NptClaims]: what it
      publishes, releases and spares.  [GatewayNpt]: the configuration cmd/mwan hands to it,
      and the module with the steering module and the packet program.  [NptDemo]: two lines,
      their packets, a pass, and the wiring.

    Definitions carry the names of the Go functions they translate.  A handler with early
    returns is split where the Go code defers or where a proof needs a name for its tail
    ([rollback], [rollback_locked], [rollback_marked], [rollback_finish]).

    ** What the theorems show

    - Watchdog.  A run is any number of iterations in any environment.  Routes are
      withdrawn from the gateway only after the backup was found ready and announces
      them; the guest is stopped only for a rollback that was pending, rolled back only
      when it is stopped, and then started again whatever the rollback's outcome; failover and rollback happen only after
      the connectivity timeout; failover is all or nothing; snapshots are taken only when
      the guest has settled and pruning keeps the rollback target; forced deletes and
      unlocks follow the evidence that justifies them; the rolling-back mark is cleared.
    - Deploy operations.  Every record that any processes can bring about is sound; its
      status follows the lifecycle; a lease is granted only inside the declared limits
      with fresh passing observations; recovery either restores the exact snapshot and
      identity or leaves the operation unrecovered, and deletes only the snapshots made
      after the target; the watch tolerates only declared interruptions; the watchdog
      never stops the guest while an operation claims it.
    - Health.  The hysteresis equals a closed form over the history of probe outcomes; the
      verdict file, the live state and the pushed status of a cycle agree; an alert is
      open exactly while its WAN is unhealthy; a failed write commits nothing.
    - Tiers, notifications, limiter, translation.  The active tier is the least usable
      one; the alert stream alternates as promised; alerts are spaced by their cooldown;
      NPTv6 translation keeps the checksum, lands in the target prefix and is undone by
      the reverse translation.
    - Round trips: the verdict file and the rollback state file are read back as written.
    - Live state.  Every history is a bounded, gap-free suffix of the transitions that
      happened, with identifiers that never repeat; recording an observation simulates the
      kernel it observes; the observer hears exactly the changes of the active tier.
    - Daemon.  Modules are initialised in role order and shut down in reverse, after
      readiness was withdrawn, however the run ends; a family is published as forwarding
      only when its modules, the routing of this very pass, its probes, its firewall and
      its links allow it, and otherwise the published reason names the first dependency
      that does not; a requested pass is served by the next turn of the loop that takes it.
    - Forwarding changes.  In every interleaving each guard call is released exactly once,
      a change holds its owner until it completes, and no owner is called after it was
      unregistered.
    - BGP sessions.  In every sequence of events an accepted prefix is desired by the
      installer with the accepted next hop, and the installer holds nothing but accepted and
      retained prefixes; every route written is allowed by an import rule; rejections stay
      bounded; a validated configuration is canonical and within the limits of the protocol.
    - BGP sessions module.  Every route in the kernel that belongs to a session is covered by
      the journal; the sweep spares the routes of running and retained sessions; shutdown
      keeps only journaled routes; a prefix is advertised exactly when its readiness allows.
    - Network document.  A document that loads has providers whose tables, marks,
      priorities, metrics and mapped addresses do not collide, each on an accepted
      connection; the search for parent cycles ends and refuses exactly the cyclic graphs;
      the claims are exactly the listed resources, each with one writer; the firewall always
      compiles, drops by default and forwards nothing between providers; published policy
      rules never compete; the BGP sessions it configures satisfy what the session and
      module theorems assume; community texts round-trip.

    - WAN routes module.  A family published as ready was installed by the pass that published
      it, route by route and rule by rule, with the default route read back; the published
      reason is empty exactly for a ready family and otherwise belongs to the one open
      dependency; a provider carries exactly when none that is ready has a lower tier.  The
      module accepts what a loaded document configures, and its rules are the published plan
      of policy rules, activated.

    - Steering module.  The committed chains do to every packet what the typed rules of the pass
      say; a new flow takes the mark of an enabled and eligible provider of the least tier;
      the guard drops exactly what would leave without an eligible provider; the split follows
      the weights within its bound and does not depend on the order of the providers.  With
      the routes module: traffic that leaves carries a mark whose rule and default route the
      routing pass installed.

    - Prefix translation.  The nat rules read back as written, and their expressions do to a
      packet what the typed rules say, one WAN's rules never touching another's traffic.  The
      packet program translates exactly as [NptPolicy] does, keeps the transport checksum
      valid, returns replies to the host that asked, and turns around traffic between two
      hosts behind the gateway.  A pass of the translator that succeeds leaves the intended
      programs attached, the intended values in the map and nothing stale.  The module
      publishes a line as translating only when a pair of the applied policy serves it on
      both sides, reports an edge address released only when no program, value or rule uses
      it any more, and spares the gateway's own addresses before it installs translation.
      With the steering module: traffic from inside a translated prefix that the guard lets
      out leaves from the published outside prefix.

    Thirteen theorems record places where the code parts from its comments or its intent:
    [deferred_shutdown_dropped], [forced_delete_limit_not_reset] and
    [rollback_reported_without_rollback] in [WatchdogProps], [disarm_after_granted_lease]
    in [DeployDemo], [info_alert_recovers_at_warn] in [Notify],
    [pattern_anywhere_is_managed] in [Rollback], [unusable_path_keeps_route] in
    [BgpSessionProps], [static_and_mapped_writers] and [set_names_may_clash] in [NetDemo],
    [loaded_but_refused] in [WanRoutesDemo], [weights_wrap] and [own_deletion_requests] in
    [SteeringDemo], and [masquerade_blocks_preparation] in [NptClaims].

    ** Bounds and fuel

    Go's [int] and [int64] are [Z] with [wrap64] where an operation could overflow;
    addresses are lists of bytes.  [run_loop] takes the number of iterations, so a theorem
    about [run] for every number holds for every prefix of a run that never ends; the
    source bounds a run itself by [MaxIterations].  Loops that poll under a context
    ([WaitForLease], [awaitRestored], [awaitWatch], [awaitWatchObservations],
    [watch_loop]) take the number of polls before the context expires and return the
    context's error when it is used up, as the code does.  [Run] of the daemon takes the
    sequence of select arms that become ready, so its theorems hold for every prefix of
    every run.  Counters of the store are modulo 2^64.  The packet program has the bounds of
    the C source: at most 16 extension headers, 64 pairs, 16 exceptions per pair, and the two
    folds of a checksum, which suffice for the sums it forms.  Every other loop is structural.

    ** What is not modelled

    Logging and the structured fields of notifications, the encoding of JSON and YAML, the
    parsing done by [net/netip], [regexp] and [uuid] where a class states what is used of
    it, goroutine scheduling inside one component (the two parallel pings are taken in
    order; calls behind a lock are a sequence in lock order; [ForwardingChanges] is the
    exception, its steps interleave) and everything that only drives the kernel or another
    daemon: netlink, nftables, the BGP and DHCP protocols, ICMP and HTTP probes, gRPC
    services and, apart from the wiring of the modules, the command line.  Of the modules of
    the interface manager the health, the BGP sessions, the WAN routes, the steering and the NPT
    modules are modelled, the others (addresses, native offload with its inspection of native
    programs, resolver) are not.  Nor are the
    shared BGP speaker, the distribution measurement of the observations, the lease store, the
    VPP policy and the canonical text of the network document, and the retry of hypervisor
    operations over their channels. *)

From stdpp Require Export base list gmap strings.
From Stdlib Require Export ZArith Lia.

#[export] Set Default Goal Selector "!".

Declare Scope go_scope.
Delimit Scope go_scope with go.

(** ** Results of fallible Go functions

    A Go function returning [(T, error)] is modelled by [res T]; [Err] carries
    the text the error renders to, because some callers inspect it. *)

Definition error := string.

Inductive res (A : Type) : Type :=
| Ok (a : A)
| Err (e : error).
Arguments Ok {A} a.
Arguments Err {A} e.

Definition is_ok {A} (r : res A) : bool :=
  match r with Ok _ => true | Err _ => false end.

Definition res_bind {A B} (r : res A) (f : A -> res B) : res B :=
  match r with Ok a => f a | Err e => Err e end.

Notation "x <-? r ;; k" := (res_bind r (fun x => k))
  (at level 100, r at next level, right associativity) : go_scope.
Notation "'check' r ;; k" := (res_bind r (fun _ => k))
  (at level 100, r at next level, right associativity) : go_scope.

Lemma res_bind_ok {A B} (r : res A) (f : A -> res B) b :
  res_bind r f = Ok b <-> exists a, r = Ok a /\ f a = Ok b.
Proof.
  destruct r as [a|e]; simpl; split.
  - intros H. by exists a.
  - by intros (a' & [= <-] & H).
  - done.
  - by intros (a' & ? & _).
Qed.

(** [if cond { return fmt.Errorf(msg) }], the guard of the Go validators. *)
Definition reject_if (cond : bool) (msg : error) : res unit :=
  if cond then Err msg else Ok tt.

Lemma reject_if_ok cond msg u : reject_if cond msg = Ok u <-> cond = false.
Proof. destruct cond, u; simpl; split; congruence. Qed.

(** The loop [for _, x := range xs { if err := f(x); err != nil { return err } }]. *)
Fixpoint check_all {A} (f : A -> res unit) (xs : list A) : res unit :=
  match xs with
  | [] => Ok tt
  | x :: xs => (check f x ;; check_all f xs)%go
  end.

Lemma check_all_ok {A} (f : A -> res unit) xs u :
  check_all f xs = Ok u <-> Forall (fun x => f x = Ok tt) xs.
Proof.
  destruct u. induction xs as [|x xs IH]; simpl.
  - split; [constructor|done].
  - rewrite res_bind_ok, Forall_cons, <- IH. split.
    + intros ([] & H1 & H2). done.
    + intros [H1 H2]. by exists tt.
Qed.

(** A loop that carries a value, and one that collects a result per element. *)
Fixpoint fold_res {A B} (f : B -> A -> res B) (b : B) (xs : list A) : res B :=
  match xs with
  | [] => Ok b
  | x :: xs => (b' <-? f b x ;; fold_res f b' xs)%go
  end.

Fixpoint map_res {A B} (f : A -> res B) (xs : list A) : res (list B) :=
  match xs with
  | [] => Ok []
  | x :: xs => (y <-? f x ;; ys <-? map_res f xs ;; Ok (y :: ys))%go
  end.

(** The rule for a carried value: an invariant of the elements done. *)
Lemma fold_res_ind {A B} (f : B -> A -> res B) (I : list A -> B -> Prop) xs b r :
  I [] b -> (forall dn x todo b b', xs = dn ++ x :: todo -> I dn b -> f b x = Ok b' -> I (dn ++ [x]) b') ->
  fold_res f b xs = Ok r -> I xs r.
Proof.
  intros H0 Hstep. cut (forall dn todo b, xs = dn ++ todo -> I dn b -> fold_res f b todo = Ok r -> I xs r).
  { intros H. by apply (H [] xs). }
  clear b H0. intros dn todo. revert dn. induction todo as [|x todo IH]; intros dn b Hxs HI; simpl.
  - rewrite app_nil_r in Hxs. subst xs. by intros [= <-].
  - intros (b' & Hb & H)%res_bind_ok. apply (IH (dn ++ [x]) b'); [by rewrite <- app_assoc|by eapply Hstep|done].
Qed.

Lemma map_res_ok {A B} (f : A -> res B) xs ys :
  map_res f xs = Ok ys <-> Forall2 (fun x y => f x = Ok y) xs ys.
Proof.
  revert ys. induction xs as [|x xs IH]; intros ys; simpl.
  - split; [intros [= <-]; constructor|by inversion 1].
  - rewrite res_bind_ok. setoid_rewrite res_bind_ok. setoid_rewrite IH. split.
    + intros (y & Hy & ys' & Hys & [= <-]). by constructor.
    + inversion 1; subst. naive_solver.
Qed.

(** ** Machine integers

    Go's [int] and [int64] are 64-bit two's complement words.  They are
    integers of [Z] kept in range by [wrap64]. *)

Definition int64_min : Z := - 2 ^ 63.
Definition int64_max : Z := 2 ^ 63 - 1.
Definition in_int64 (x : Z) : Prop := (int64_min <= x <= int64_max)%Z.

Definition wrap64 (x : Z) : Z := ((x + 2 ^ 63) mod 2 ^ 64 - 2 ^ 63)%Z.

Lemma wrap64_small x : in_int64 x -> wrap64 x = x.
Proof.
  unfold in_int64, int64_min, int64_max, wrap64. intros H.
  rewrite Z.mod_small; lia.
Qed.

Lemma wrap64_range x : in_int64 (wrap64 x).
Proof.
  unfold in_int64, int64_min, int64_max, wrap64.
  pose proof (Z.mod_pos_bound (x + 2 ^ 63) (2 ^ 64)). lia.
Qed.

(** [x++] on a Go [int]. *)
Definition incr (x : Z) : Z := wrap64 (x + 1).

Lemma incr_small x : (0 <= x < int64_max)%Z -> incr x = (x + 1)%Z.
Proof.
  intros H. apply wrap64_small. unfold in_int64, int64_min, int64_max in *. lia.
Qed.

(** ** Time

    A [time.Time] is its distance in nanoseconds from Go's zero time (January 1
    of year 1), so the zero value is [0]; a [time.Duration] is a 64-bit count of
    nanoseconds.  The monotonic clock reading a [time.Time] may carry is not
    modelled. *)

Abbreviation time := Z (only parsing).
Abbreviation duration := Z (only parsing).

Definition zero_time : Z := 0.
Definition is_zero (t : Z) : bool := (t =? zero_time)%Z.
Definition Second : Z := 1000000000.
Definition Minute : Z := 60 * Second.
Definition Hour : Z := 60 * Minute.

(** Seconds between the zero time and the Unix epoch. *)
Definition unix_epoch : Z := 62135596800.

(** [t.Unix()], [t.Before(u)], [t.After(u)], [t.Add(d)]. *)
Definition unix (t : Z) : Z := (t / Second - unix_epoch)%Z.
Definition before (t u : Z) : bool := (t <? u)%Z.
Definition after (t u : Z) : bool := (u <? t)%Z.
Definition add_time (t d : Z) : Z := (t + d)%Z.

(** [t.Sub(u)] saturates at the extreme durations. *)
Definition sub_time (t u : Z) : Z :=
  Z.max int64_min (Z.min int64_max (t - u)).

(** [time.Duration(n) * time.Second]. *)
Definition seconds (n : Z) : Z := wrap64 (n * Second).
Definition minutes (n : Z) : Z := wrap64 (n * Minute).

Lemma sub_time_ge t u d :
  in_int64 d -> (d <= sub_time t u <-> d <= t - u \/ d = int64_min)%Z.
Proof. unfold in_int64, sub_time, int64_min, int64_max. lia. Qed.

(** ** Tactics and hints *)

(** Case analysis on the boolean conditions of the goal and the hypotheses,
    keeping the arithmetic facts they stand for. *)
Ltac bool_cases :=
  repeat match goal with
  | |- context [if ?b then _ else _] =>
      lazymatch b with
      | context [if _ then _ else _] => fail
      | _ => let E := fresh "E" in destruct b eqn:E
      end
  | H : context [if ?b then _ else _] |- _ =>
      lazymatch b with
      | context [if _ then _ else _] => fail
      | _ => let E := fresh "E" in destruct b eqn:E
      end
  end.

(** Turn boolean facts into propositions. *)
Ltac bool_prop :=
  repeat match goal with
  | H : _ && _ = true |- _ => apply andb_true_iff in H as [? ?]
  | H : _ || _ = false |- _ => apply orb_false_iff in H as [? ?]
  | H : _ || _ = true |- _ => apply orb_true_iff in H
  | H : _ && _ = false |- _ => apply andb_false_iff in H
  | H : negb _ = true |- _ => apply negb_true_iff in H
  | H : negb _ = false |- _ => apply negb_false_iff in H
  | H : (_ <? _)%Z = true |- _ => apply Z.ltb_lt in H
  | H : (_ <? _)%Z = false |- _ => apply Z.ltb_ge in H
  | H : (_ <=? _)%Z = true |- _ => apply Z.leb_le in H
  | H : (_ <=? _)%Z = false |- _ => apply Z.leb_gt in H
  | H : (_ =? _)%Z = true |- _ => apply Z.eqb_eq in H
  | H : (_ =? _)%Z = false |- _ => apply Z.eqb_neq in H
  | H : bool_decide _ = true |- _ => apply bool_decide_eq_true in H
  | H : bool_decide _ = false |- _ => apply bool_decide_eq_false in H
  end.

(** [lia] with the equations of division and remainder. *)
Ltac div_lia := Z.to_euclidean_division_equations; lia.

Create HintDb go.
Create Rewrite HintDb go.
#[export] Hint Resolve wrap64_range : go.
#[export] Hint Rewrite @res_bind_ok @reject_if_ok @check_all_ok : go.

(** ** Generic list lemmas *)

Lemma fold_left_snoc {A B} (f : A -> B -> A) l x a :
  fold_left f (l ++ [x]) a = f (fold_left f l a) x.
Proof. by rewrite fold_left_app. Qed.

Lemma forallb_Forall {A} (f : A -> bool) l :
  forallb f l = true <-> Forall (fun x => f x = true) l.
Proof.
  rewrite Forall_forall, forallb_forall. split; intros H x Hx.
  - by apply H, list_elem_of_In.
  - by apply H, list_elem_of_In.
Qed.
