(* ===== verification/GoStrings.v ===== *)
(** * Strings, the way the Go code uses them

    The functions of Go's [strings], [strconv] and [regexp] packages that the
    modelled code calls, on byte strings.  White space is the ASCII white space
    that occurs in the files and command output the code reads; Go also treats
    the Unicode spaces as white space. *)

From S2P Require Import Prelude.
From Stdlib Require Import Ascii.

Local Open Scope string_scope.

#[global] Arguments String.append !s1 s2 : simpl nomatch.

Abbreviation byte := ascii (only parsing).

Definition byte_val (c : ascii) : Z := Z.of_N (N_of_ascii c).
Definition of_val (v : Z) : ascii := ascii_of_N (Z.to_N v).

Lemma byte_val_of_val v : (0 <= v < 256)%Z -> byte_val (of_val v) = v.
Proof.
  intros H. unfold byte_val, of_val. rewrite N_ascii_embedding; lia.
Qed.

Definition newline : ascii := of_val 10.

(** [unicode.IsSpace] on ASCII: tab, line feed, vertical tab, form feed,
    carriage return and space. *)
Definition is_space (c : ascii) : bool :=
  let v := byte_val c in ((9 <=? v) && (v <=? 13) || (v =? 32))%Z.

(** The class [\s] of Go's regular expressions, which leaves the vertical tab out. *)
Definition is_re_space (c : ascii) : bool :=
  let v := byte_val c in ((v =? 9) || (v =? 10) || (v =? 12) || (v =? 13) || (v =? 32))%Z.

Definition is_digit (c : ascii) : bool :=
  let v := byte_val c in ((48 <=? v) && (v <=? 57))%Z.

(** Every byte of [s] satisfies [f]. *)
Fixpoint all_chars (f : ascii -> bool) (s : string) : bool :=
  match s with
  | EmptyString => true
  | String c r => f c && all_chars f r
  end.

Definition neqc (c d : ascii) : bool := negb (Ascii.eqb c d).

(** [s] does not contain the byte [c]. *)
Definition lacks (c : ascii) (s : string) : bool := all_chars (neqc c) s.

Fixpoint concat_strings (l : list string) : string :=
  match l with [] => "" | s :: l => s ++ concat_strings l end.

(** [strings.HasPrefix(s, p)]. *)
Definition has_prefix (p s : string) : bool := String.prefix p s.

(** [strings.Contains(s, sub)]. *)
Fixpoint contains (sub s : string) : bool :=
  has_prefix sub s ||
  match s with
  | EmptyString => false
  | String _ r => contains sub r
  end.

Fixpoint drop_while (f : ascii -> bool) (s : string) : string :=
  match s with
  | EmptyString => ""
  | String c r => if f c then drop_while f r else s
  end.

Fixpoint take_while (f : ascii -> bool) (s : string) : string :=
  match s with
  | EmptyString => ""
  | String c r => if f c then String c (take_while f r) else ""
  end.

Fixpoint drop_while_end (f : ascii -> bool) (s : string) : string :=
  match s with
  | EmptyString => ""
  | String c r =>
      match drop_while_end f r with
      | EmptyString => if f c then "" else String c ""
      | r' => String c r'
      end
  end.

(** [strings.TrimSpace(s)] and [strings.TrimLeft(s, cutset)]. *)
Definition trim_space (s : string) : string :=
  drop_while_end is_space (drop_while is_space s).
Definition in_cutset (cutset : string) (c : ascii) : bool := negb (lacks c cutset).
Definition trim_left (cutset s : string) : string := drop_while (in_cutset cutset) s.

(** [strings.Split(s, sep)] for a one-byte separator. *)
Fixpoint split (sep : ascii) (s : string) : list string :=
  match s with
  | EmptyString => [""]
  | String c r =>
      if Ascii.eqb c sep then "" :: split sep r
      else match split sep r with
           | [] => [String c ""]
           | x :: l => String c x :: l
           end
  end.

(** [strings.Cut(s, sep)] and [strings.SplitN(s, sep, 2)]: the parts around the
    first separator, if there is one. *)
Fixpoint cut (sep : ascii) (s : string) : option (string * string) :=
  match s with
  | EmptyString => None
  | String c r =>
      if Ascii.eqb c sep then Some ("", r)
      else match cut sep r with
           | None => None
           | Some (x, y) => Some (String c x, y)
           end
  end.

(** [strings.Fields(s)]: the maximal runs of bytes that are not white space. *)
Fixpoint fields_aux (s word : string) : list string :=
  match s with
  | EmptyString => if bool_decide (word = "") then [] else [word]
  | String c r =>
      if is_space c
      then (if bool_decide (word = "") then [] else [word]) ++ fields_aux r ""
      else fields_aux r (word ++ String c "")
  end.
Definition fields (s : string) : list string := fields_aux s "".

(** ** Decimal integers *)

Definition digit (d : Z) : ascii := of_val (48 + d).

Fixpoint udec_aux (fuel : nat) (n : Z) (acc : string) : string :=
  match fuel with
  | O => acc
  | S fuel =>
      let acc := String (digit (n mod 10)) acc in
      if (n <? 10)%Z then acc else udec_aux fuel (n / 10) acc
  end.

(** One digit per factor of ten, so the binary logarithm bounds their number. *)
Definition udec (n : Z) : string := udec_aux (S (Z.to_nat (Z.log2 n))) n "".

(** [strconv.FormatInt(z, 10)], [strconv.Itoa] and the verb [%d]. *)
Definition itoa (z : Z) : string := if (z <? 0)%Z then "-" ++ udec (- z) else udec z.

Fixpoint digits_val (acc : Z) (s : string) : option Z :=
  match s with
  | EmptyString => Some acc
  | String c r => if is_digit c then digits_val (10 * acc + (byte_val c - 48)) r else None
  end.

(** [strconv.ParseInt(s, 10, 64)] and [strconv.Atoi(s)]: the value and whether
    the call reports no error.  A syntax error yields zero and a range error the
    nearest representable value. *)
Definition parse_int (s : string) : Z * bool :=
  let '(neg, body) :=
    match s with
    | String "+" r => (false, r)
    | String "-" r => (true, r)
    | _ => (false, s)
    end in
  if bool_decide (body = "") then (0%Z, false)
  else match digits_val 0 body with
       | None => (0%Z, false)
       | Some v =>
           let z := if neg : bool then (- v)%Z else v in
           if (z <? int64_min)%Z then (int64_min, false)
           else if (int64_max <? z)%Z then (int64_max, false)
           else (z, true)
       end.

(** [sort.Strings]. *)
Fixpoint insert_sorted (x : string) (l : list string) : list string :=
  match l with
  | [] => [x]
  | y :: l => if String.leb x y then x :: y :: l else y :: insert_sorted x l
  end.
Definition sort_strings (l : list string) : list string := foldr insert_sorted [] l.

Lemma insert_sorted_perm x l : insert_sorted x l ≡ₚ x :: l.
Proof.
  induction l as [|y l IH]; [done|]. cbn. destruct (String.leb x y); [done|]. rewrite IH. apply Permutation_swap.
Qed.

Lemma sort_strings_perm l : sort_strings l ≡ₚ l.
Proof. induction l as [|x l IH]; [done|]. cbn. by rewrite insert_sorted_perm, IH. Qed.

(** ** Lemmas *)

Lemma all_chars_app f a b : all_chars f (a ++ b) = all_chars f a && all_chars f b.
Proof. induction a as [|c a IH]; simpl; [done|]. by rewrite IH, andb_assoc. Qed.

Lemma all_chars_impl f g s :
  (forall c, f c = true -> g c = true) -> all_chars f s = true -> all_chars g s = true.
Proof.
  intros Hfg. induction s as [|c s IH]; simpl; [done|].
  rewrite !andb_true_iff. intros [? ?]. auto.
Qed.

Lemma neqc_sym_false c d : neqc c d = false <-> c = d.
Proof. unfold neqc. rewrite negb_false_iff. apply Ascii.eqb_eq. Qed.

Lemma eqb_lacks c d s : neqc c d && lacks c s = true -> Ascii.eqb d c = false /\ lacks c s = true.
Proof.
  rewrite andb_true_iff. unfold neqc. rewrite negb_true_iff, Ascii.eqb_sym. done.
Qed.

Lemma split_app sep a b :
  lacks sep a = true -> split sep (a ++ String sep b) = a :: split sep b.
Proof.
  induction a as [|c a IH]; simpl; intros H.
  - by rewrite Ascii.eqb_refl.
  - apply eqb_lacks in H as [-> H]. by rewrite IH.
Qed.

Lemma split_lacks sep a : lacks sep a = true -> split sep a = [a].
Proof.
  induction a as [|c a IH]; simpl; intros H; [done|].
  apply eqb_lacks in H as [-> H]. by rewrite IH.
Qed.

Lemma cut_app sep a b :
  lacks sep a = true -> cut sep (a ++ String sep b) = Some (a, b).
Proof.
  induction a as [|c a IH]; simpl; intros H.
  - by rewrite Ascii.eqb_refl.
  - apply eqb_lacks in H as [-> H]. by rewrite IH.
Qed.

Lemma append_assoc a b c : ((a ++ b) ++ c = a ++ (b ++ c))%string.
Proof. induction a; simpl; congruence. Qed.

Lemma append_nil_r a : a ++ "" = a.
Proof. induction a; simpl; congruence. Qed.

Lemma split_lines {A} (f : A -> string) (l : list A) :
  Forall (fun x => lacks newline (f x) = true) l ->
  split newline (concat_strings (map (fun x => f x ++ String newline "") l))
  = (map f l ++ [""])%list.
Proof.
  induction 1 as [|x l Hx Hl IH]; simpl; [done|].
  rewrite append_assoc. simpl. by rewrite split_app, IH.
Qed.

(** White space around text: a first byte that is kept stops [drop_while], a
    last byte that is kept stops [drop_while_end]. *)
Lemma drop_while_head f c r : f c = false -> drop_while f (String c r) = String c r.
Proof. simpl. by intros ->. Qed.

Lemma drop_while_end_snoc f s c :
  f c = false -> drop_while_end f (s ++ String c "") = s ++ String c "".
Proof.
  intros Hc. induction s as [|d s IH]; simpl.
  - by rewrite Hc.
  - rewrite IH. destruct s; done.
Qed.

Lemma drop_while_end_none f s :
  all_chars (fun c => negb (f c)) s = true -> drop_while_end f s = s.
Proof.
  induction s as [|c s IH]; simpl; [done|].
  rewrite andb_true_iff, negb_true_iff. intros [Hc Hs].
  rewrite IH by done. destruct s; [by rewrite Hc|done].
Qed.

Lemma drop_while_none f s :
  all_chars (fun c => negb (f c)) s = true -> drop_while f s = s.
Proof.
  destruct s as [|c s]; simpl; [done|].
  rewrite andb_true_iff, negb_true_iff. by intros [-> _].
Qed.

(** Text without white space is its own trimming. *)
Definition no_space (s : string) : bool := all_chars (fun c => negb (is_space c)) s.

Lemma trim_space_none s : no_space s = true -> trim_space s = s.
Proof.
  intros H. unfold trim_space.
  rewrite drop_while_none, drop_while_end_none; done.
Qed.

Lemma no_space_app a b : no_space (a ++ b) = no_space a && no_space b.
Proof. apply all_chars_app. Qed.

Lemma no_space_lacks_newline s : no_space s = true -> lacks newline s = true.
Proof.
  apply all_chars_impl. intros c Hc. destruct (neqc newline c) eqn:E; [done|].
  apply neqc_sym_false in E as <-. done.
Qed.

(** *** Decimal round trip *)

Lemma is_digit_digit d : (0 <= d < 10)%Z -> is_digit (digit d) = true.
Proof. intros H. unfold is_digit, digit. rewrite byte_val_of_val by lia. lia. Qed.

Lemma digits_val_udec_aux fuel n acc :
  (0 <= n < 2 ^ Z.of_nat fuel)%Z ->
  digits_val 0 (udec_aux fuel n acc) = digits_val n acc.
Proof.
  revert n acc. induction fuel as [|fuel IH]; intros n acc Hn.
  - change (2 ^ Z.of_nat 0)%Z with 1%Z in Hn. assert (n = 0%Z) as -> by lia. done.
  - assert (0 <= n mod 10 < 10)%Z as Hm by (apply Z.mod_pos_bound; lia).
    assert (forall b, digits_val b (String (digit (n mod 10)) acc)
                      = digits_val (10 * b + n mod 10) acc) as Hstep.
    { intros b. cbn [digits_val]. rewrite is_digit_digit by done.
      unfold digit. rewrite byte_val_of_val by lia. f_equal. lia. }
    cbn [udec_aux]. destruct (Z.ltb_spec n 10).
    + rewrite Hstep. f_equal. rewrite Z.mod_small; lia.
    + rewrite IH, Hstep.
      * f_equal. symmetry. apply Z.div_mod. lia.
      * rewrite Nat2Z.inj_succ, Z.pow_succ_r in Hn by lia.
        split; [apply Z.div_pos; lia|]. apply Z.div_lt_upper_bound; lia.
Qed.

Lemma digits_val_udec n : (0 <= n)%Z -> digits_val 0 (udec n) = Some n.
Proof.
  intros Hn. unfold udec. rewrite digits_val_udec_aux; [done|].
  split; [done|]. rewrite Nat2Z.inj_succ, Z2Nat.id by apply Z.log2_nonneg.
  destruct (Z.eq_dec n 0) as [->|]; [done|]. apply Z.log2_spec. lia.
Qed.

Lemma all_digits_udec_aux fuel n acc :
  all_chars is_digit acc = true -> all_chars is_digit (udec_aux fuel n acc) = true.
Proof.
  revert n acc. induction fuel as [|fuel IH]; intros n acc Hacc; [done|].
  assert (all_chars is_digit (String (digit (n mod 10)) acc) = true) as H.
  { cbn [all_chars]. rewrite Hacc, is_digit_digit; [done|]. apply Z.mod_pos_bound. lia. }
  cbn [udec_aux]. destruct (n <? 10)%Z; auto.
Qed.

Lemma all_digits_udec n : all_chars is_digit (udec n) = true.
Proof. by apply all_digits_udec_aux. Qed.

Lemma udec_nonempty n : udec n <> "".
Proof.
  unfold udec. cbn [udec_aux].
  assert (forall fuel m c acc, udec_aux fuel m (String c acc) <> "") as H.
  { induction fuel as [|fuel IH]; intros m c acc; cbn [udec_aux]; [done|].
    destruct (m <? 10)%Z; [done|apply IH]. }
  destruct (n <? 10)%Z; [done|apply H].
Qed.

Lemma digit_not_sign c : is_digit c = true -> c <> "+"%char /\ c <> "-"%char.
Proof. intros H. split; intros ->; done. Qed.

Lemma parse_int_itoa z : in_int64 z -> parse_int (itoa z) = (z, true).
Proof.
  intros Hz. unfold in_int64 in Hz. unfold parse_int, itoa.
  destruct (Z.ltb_spec z 0) as [Hneg|Hpos].
  - cbn [String.append]. rewrite bool_decide_false by apply udec_nonempty.
    rewrite digits_val_udec by lia. cbv beta iota.
    rewrite Z.opp_involutive.
    destruct (Z.ltb_spec z int64_min); [lia|]. destruct (Z.ltb_spec int64_max z); [lia|done].
  - pose proof (all_digits_udec z) as Hd. pose proof (udec_nonempty z) as Hne.
    pose proof (digits_val_udec z Hpos) as Hv. destruct (udec z) as [|c r]; [done|].
    cbn [all_chars] in Hd. apply andb_true_iff in Hd as [Hc _].
    apply digit_not_sign in Hc as [Hp Hm].
    assert ((match String c r with
             | String "+" r0 => (false, r0) | String "-" r0 => (true, r0)
             | _ => (false, String c r) end) = (false, String c r)) as ->.
    { destruct c as [[] [] [] [] [] [] [] []]; try done; exfalso; auto. }
    rewrite bool_decide_false by done. rewrite Hv. cbv beta iota.
    destruct (Z.ltb_spec z int64_min); [lia|]. destruct (Z.ltb_spec int64_max z); [lia|done].
Qed.

Lemma digit_not_space c : is_digit c = true -> negb (is_space c) = true.
Proof.
  unfold is_digit, is_space. rewrite andb_true_iff, !Z.leb_le. intros [? ?].
  apply negb_true_iff. lia.
Qed.

Lemma itoa_no_space z : no_space (itoa z) = true.
Proof.
  assert (forall n, no_space (udec n) = true) as H.
  { intros n. eapply all_chars_impl; [apply digit_not_space|apply all_digits_udec]. }
  unfold itoa. destruct (z <? 0)%Z; [|apply H].
  rewrite no_space_app. by rewrite H.
Qed.

#[export] Hint Resolve itoa_no_space no_space_lacks_newline : go.
