(* ===== verification/Effects.v ===== *)
(** * Stateful Go code

    Code that changes a receiver, calls the outside world and records what it did
    is a state transformer [M S A] over a state [S] that bundles the receiver, the
    world and a log of observable actions.  [wp] is the weakest precondition of
    such a transformer; the rules below let the proofs about a handler follow its
    text, one call at a time. *)

From S2P Require Import Prelude.

Definition M (S A : Type) : Type := S -> A * S.

#[global] Instance M_ret S : MRet (M S) := fun A a s => (a, s).
#[global] Instance M_bind S : MBind (M S) := fun A B f m s =>
  let '(a, s') := m s in f a s'.

Definition gets {S A} (f : S -> A) : M S A := fun s => (f s, s).
Definition modify {S} (f : S -> S) : M S unit := fun s => (tt, f s).

(** [if cond { body }]. *)
Definition whenM {S} (cond : bool) (body : M S unit) : M S unit :=
  if cond then body else mret tt.

(** A loop over a slice with the loop-carried variables [acc]. *)
Fixpoint foldM {S A B} (body : B -> A -> M S B) (acc : B) (xs : list A) : M S B :=
  match xs with
  | [] => mret acc
  | x :: xs => acc' ← body acc x; foldM body acc' xs
  end.

(** A loop over a slice with no loop-carried variables. *)
Definition forM {S A} (xs : list A) (body : A -> M S unit) : M S unit :=
  foldM (fun _ => body) tt xs.

(** A loop over a slice that returns the first error. *)
Fixpoint first_error {A} (f : A -> option error) (l : list A) : option error :=
  match l with [] => None | x :: l => match f x with Some e => Some e | None => first_error f l end end.

Lemma first_error_none {A} (f : A -> option error) l : first_error f l = None -> Forall (fun x => f x = None) l.
Proof. induction l as [|x l IH]; cbn; [constructor|]. destruct (f x) eqn:E; [done|]. constructor; [done|by apply IH]. Qed.

(** ** Weakest preconditions *)

Definition wp {S A} (m : M S A) (Q : A -> S -> Prop) (s : S) : Prop :=
  Q (m s).1 (m s).2.

Lemma wp_ret {S A} (a : A) Q (s : S) : wp (mret a) Q s <-> Q a s.
Proof. done. Qed.

Lemma wp_bind {S A B} (m : M S A) (f : A -> M S B) Q s :
  wp (m ≫= f) Q s <-> wp m (fun a => wp (f a) Q) s.
Proof. unfold wp, mbind, M_bind. by destruct (m s). Qed.

Lemma wp_gets {S A} (f : S -> A) Q s : wp (gets f) Q s <-> Q (f s) s.
Proof. done. Qed.

Lemma wp_modify {S} (f : S -> S) Q s : wp (modify f) Q s <-> Q tt (f s).
Proof. done. Qed.

Lemma wp_ret_intro {S A} (a : A) Q (s : S) : Q a s -> wp (mret a) Q s.
Proof. done. Qed.

Lemma wp_bind_intro {S A B} (m : M S A) (f : A -> M S B) Q s :
  wp m (fun a => wp (f a) Q) s -> wp (m ≫= f) Q s.
Proof. apply wp_bind. Qed.

Lemma wp_gets_intro {S A} (f : S -> A) Q s : Q (f s) s -> wp (gets f) Q s.
Proof. done. Qed.

Lemma wp_mono {S A} (m : M S A) (Q R : A -> S -> Prop) s :
  wp m Q s -> (forall a s', Q a s' -> R a s') -> wp m R s.
Proof. unfold wp. auto. Qed.

Lemma wp_if {S A} (b : bool) (m n : M S A) Q s :
  (b = true -> wp m Q s) -> (b = false -> wp n Q s) -> wp (if b then m else n) Q s.
Proof. destruct b; auto. Qed.

Lemma wp_whenM {S} b (m : M S unit) Q s :
  (b = true -> wp m Q s) -> (b = false -> Q tt s) -> wp (whenM b m) Q s.
Proof. destruct b; intros H1 H2; [by apply H1|by apply H2]. Qed.

(** The rule for a loop: an invariant of the elements done and to do. *)
Lemma wp_foldM {S A B} (body : B -> A -> M S B) (I : list A -> B -> S -> Prop) xs acc s :
  I [] acc s ->
  (forall done x todo acc s, xs = done ++ x :: todo -> I done acc s ->
     wp (body acc x) (I (done ++ [x])) s) ->
  wp (foldM body acc xs) (I xs) s.
Proof.
  intros H0 Hstep.
  cut (forall done todo acc s, xs = done ++ todo -> I done acc s ->
         wp (foldM body acc todo) (I xs) s).
  { intros H. by apply (H [] xs). }
  clear acc s H0. intros done todo. revert done.
  induction todo as [|x todo IH]; intros done acc s Hxs HI.
  - rewrite app_nil_r in Hxs. subst xs. done.
  - cbn [foldM]. apply wp_bind.
    eapply wp_mono; [by apply (Hstep done x todo)|].
    intros acc' s' HI'. apply (IH (done ++ [x])); [|done].
    by rewrite <- app_assoc.
Qed.

(** ** Relational specifications

    [sat m R] says that every run of [m] relates its initial and final states by
    [R].  For a preorder [R] the composite programs inherit it from their parts,
    so a property of a whole handler needs one argument per primitive action. *)

Definition sat {S A} (m : M S A) (R : S -> S -> Prop) : Prop :=
  forall s, R s (m s).2.

Section Preorder.
Context {S : Type} (R : S -> S -> Prop) `{!PreOrder R}.

Lemma sat_ret {A} (a : A) : sat (mret a) R.
Proof. intros s. reflexivity. Qed.

Lemma sat_gets {A} (f : S -> A) : sat (gets f) R.
Proof. intros s. reflexivity. Qed.

Lemma sat_bind {A B} (m : M S A) (f : A -> M S B) :
  sat m R -> (forall a, sat (f a) R) -> sat (m ≫= f) R.
Proof.
  intros Hm Hf s. unfold mbind, M_bind. specialize (Hm s).
  destruct (m s) as [a s']. etransitivity; [exact Hm|apply Hf].
Qed.

Lemma sat_if {A} (b : bool) (m n : M S A) : sat m R -> sat n R -> sat (if b then m else n) R.
Proof. by destruct b. Qed.

Lemma sat_whenM b (m : M S unit) : sat m R -> sat (whenM b m) R.
Proof. intros. apply sat_if; [done|apply sat_ret]. Qed.

Lemma sat_foldM {A B} (body : B -> A -> M S B) acc xs :
  (forall acc x, sat (body acc x) R) -> sat (foldM body acc xs) R.
Proof.
  intros H. revert acc. induction xs as [|x xs IH]; intros acc; cbn [foldM].
  - apply sat_ret.
  - apply sat_bind; [apply H|]. intros. apply IH.
Qed.

(** The body may use that its element is one of those looped over. *)
Lemma sat_foldM_in {A B} (body : B -> A -> M S B) acc xs :
  (forall acc x, x ∈ xs -> sat (body acc x) R) -> sat (foldM body acc xs) R.
Proof.
  revert acc. induction xs as [|x xs IH]; intros acc H; cbn [foldM].
  - apply sat_ret.
  - apply sat_bind; [apply H; by left|]. intros acc'. apply IH. intros acc'' y Hy. apply H. by right.
Qed.
End Preorder.

(** ** Results beside relations

    [yields R Q m]: every run of [m] returns a value in [Q] and relates its states by [R]. *)

Definition yields {S A} (R : S -> S -> Prop) (Q : A -> Prop) (m : M S A) : Prop :=
  forall s, Q (m s).1 /\ R s (m s).2.

Section Yields.
Context {S : Type} (R : S -> S -> Prop) `{!PreOrder R}.

Lemma yields_ret {A} (Q : A -> Prop) (a : A) : Q a -> yields R Q (mret a).
Proof. intros H s. split; [exact H|reflexivity]. Qed.

Lemma yields_sat {A} (m : M S A) : sat m R -> yields R (fun _ => True) m.
Proof. intros H s. split; [done|apply H]. Qed.

Lemma yields_bind {A B} (P : A -> Prop) (Q : B -> Prop) (m : M S A) (k : A -> M S B) :
  yields R P m -> (forall a, P a -> yields R Q (k a)) -> yields R Q (m ≫= k).
Proof.
  intros Hm Hk s. unfold mbind, M_bind. destruct (Hm s) as [HP HR]. destruct (m s) as [a s'].
  destruct (Hk a HP s') as [HQ HR']. split; [exact HQ|]. etransitivity; [exact HR|exact HR'].
Qed.

Lemma yields_foldM {A B} (Q : B -> Prop) (body : B -> A -> M S B) acc xs :
  Q acc -> (forall acc x, Q acc -> yields R Q (body acc x)) -> yields R Q (foldM body acc xs).
Proof.
  intros Hacc Hb. revert acc Hacc. induction xs as [|x xs IH]; intros acc Hacc; cbn [foldM].
  - by apply yields_ret.
  - eapply yields_bind; [by apply Hb|]. intros acc' Hacc'. by apply IH.
Qed.
End Yields.

Lemma wp_yields {S A} (m : M S A) (R : S -> S -> Prop) (P : A -> Prop) (Q : A -> S -> Prop) s :
  yields R P m -> (forall a s', P a -> R s s' -> Q a s') -> wp m Q s.
Proof. intros H HQ. destruct (H s). by apply HQ. Qed.

Lemma wp_sat {S A} (m : M S A) (R : S -> S -> Prop) (Q : A -> S -> Prop) s :
  sat m R -> wp m (fun a s' => R s s' -> Q a s') s -> wp m Q s.
Proof. unfold wp, sat. auto. Qed.

(** Walk through a program, splitting binds, conditionals and matches, and close
    the primitive actions with [tac]. *)
Ltac sat_steps tac :=
  repeat first
    [ progress intros
    | progress cbv zeta
    | solve [tac]
    | apply sat_ret; [typeclasses eauto..]
    | apply sat_gets; [typeclasses eauto..]
    | apply sat_bind; [typeclasses eauto..| |]
    | apply sat_whenM; [typeclasses eauto..|]
    | apply sat_foldM; [typeclasses eauto..|]
    | apply sat_if
    | lazymatch goal with
      | |- sat (match ?x with _ => _ end) _ => destruct x
      | |- sat (let '(_, _) := ?x in _) _ => destruct x
      end ].
