(* ===== verification/NptPolicy.v ===== *)
(** * NPTv6 address translation (gateway/internal/nptpolicy/policy.go)

    The RFC 6296 mapping between an internal and an external prefix: the
    validation of a prefix pair, the checksum adjustment and the translation of
    one address, with the parts of [net/netip] they use.  The theorems show that
    a translation keeps the one's complement checksum of the address, lands in
    the target prefix, and is undone by the translation in the other direction. *)

From S2P Require Import Prelude.

Local Open Scope Z_scope.

(** ** [net/netip] *)

(** A [netip.Addr]: the zero value, an IPv4 address (four bytes) or an IPv6
    address (sixteen bytes) with its zone. *)
Inductive Addr : Type :=
| AddrNone
| Addr4 (bytes : list Z)
| Addr6 (bytes : list Z) (zone : string).

#[export] Instance Addr_eq_dec : EqDecision Addr.
Proof. solve_decision. Defined.

(** A [netip.Prefix]; [pfx_bits] is [-1] in an invalid prefix. *)
Record Prefix := mkPrefix { pfx_addr : Addr; pfx_bits : Z }.

#[export] Instance Prefix_eq_dec : EqDecision Prefix.
Proof. solve_decision. Defined.

Definition byte_at (b : list Z) (i : nat) : Z := nth i b 0.

Definition BitLen (a : Addr) : Z :=
  match a with AddrNone => 0 | Addr4 _ => 32 | Addr6 _ _ => 128 end.
Definition addr_bytes (a : Addr) : list Z :=
  match a with AddrNone => [] | Addr4 b => b | Addr6 b _ => b end.
Definition Is4 (a : Addr) : bool := match a with Addr4 _ => true | _ => false end.
Definition Is6 (a : Addr) : bool := match a with Addr6 _ _ => true | _ => false end.
Definition has_zone (a : Addr) : bool :=
  match a with Addr6 _ z => negb (bool_decide (z = ""%string)) | _ => false end.
Definition without_zone (a : Addr) : Addr :=
  match a with Addr6 b _ => Addr6 b ""%string | _ => a end.

Definition v4_mapped_header : list Z := [0;0;0;0;0;0;0;0;0;0;255;255].
Definition Is4In6 (a : Addr) : bool :=
  match a with
  | Addr6 b _ => bool_decide (firstn 12 b = v4_mapped_header)
  | _ => false
  end.

(** [addr.As16()]; an IPv4 address becomes its IPv4-mapped form. *)
Definition As16 (a : Addr) : list Z :=
  match a with
  | AddrNone => repeat 0 16
  | Addr4 b => v4_mapped_header ++ b
  | Addr6 b _ => b
  end.
Definition AddrFrom16 (b : list Z) : Addr := Addr6 b ""%string.

(** The byte with its [k] leading bits set, [0 <= k <= 8]. *)
Definition mask (k : Z) : Z := 256 - 2 ^ (8 - k).
(** How many bits of byte [i] the first [bits] bits of an address reach. *)
Definition bits_in (bits : Z) (i : nat) : Z := Z.max 0 (Z.min 8 (bits - 8 * Z.of_nat i)).
Definition byte_mask (bits : Z) (i : nat) : Z := mask (bits_in bits i).

Definition mask_bytes (bits : Z) (b : list Z) : list Z :=
  imap (fun i x => Z.land x (byte_mask bits i)) b.

Definition IsValid (p : Prefix) : bool := 0 <=? pfx_bits p.

Definition PrefixFrom (a : Addr) (bits : Z) : Prefix :=
  if (0 <? BitLen a) && (0 <=? bits) && (bits <=? BitLen a)
  then mkPrefix (without_zone a) bits
  else mkPrefix (without_zone a) (-1).

(** [prefix.Masked()]: the zero prefix for an invalid one. *)
Definition Masked (p : Prefix) : Prefix :=
  if IsValid p
  then match pfx_addr p with
       | AddrNone => mkPrefix AddrNone (-1)
       | Addr4 b => mkPrefix (Addr4 (mask_bytes (pfx_bits p) b)) (pfx_bits p)
       | Addr6 b _ => mkPrefix (Addr6 (mask_bytes (pfx_bits p) b) ""%string) (pfx_bits p)
       end
  else mkPrefix AddrNone (-1).

Definition Contains (p : Prefix) (a : Addr) : bool :=
  IsValid p && negb (has_zone a) &&
  (0 <? BitLen a) && (BitLen (pfx_addr p) =? BitLen a) &&
  bool_decide (mask_bytes (pfx_bits p) (addr_bytes (pfx_addr p))
               = mask_bytes (pfx_bits p) (addr_bytes a)).

Definition IsGlobalUnicast (a : Addr) : bool :=
  match a with
  | AddrNone => false
  | Addr4 b =>
      negb (bool_decide (b = [0;0;0;0])) && negb (bool_decide (b = [255;255;255;255])) &&
      negb (byte_at b 0 =? 127) && negb (Z.land (byte_at b 0) 240 =? 224) &&
      negb ((byte_at b 0 =? 169) && (byte_at b 1 =? 254))
  | Addr6 b _ =>
      negb (bool_decide (b = repeat 0 16)) &&
      negb (bool_decide (b = repeat 0 15 ++ [1])) &&
      negb (byte_at b 0 =? 255) &&
      negb ((byte_at b 0 =? 254) && (Z.land (byte_at b 1) 192 =? 128))
  end.

(** ** The policy *)

Definition MaxExceptions : nat := 16.

Record PrefixPair := mkPair {
  ID : Z;
  Internal : Prefix;
  External : Prefix;
  SourceExceptions : list Addr;
  DestinationExceptions : list Addr;
}.

Definition prefix_rejected (p : Prefix) : bool :=
  negb (IsValid p) || negb (Is6 (pfx_addr p)) || Is4In6 (pfx_addr p) || (64 <? pfx_bits p)
  || negb (IsGlobalUnicast (pfx_addr p)) || negb (bool_decide (p = Masked p)).

Definition ValidatePair (pair : PrefixPair) : res unit :=
  (check check_all (fun p => reject_if (prefix_rejected p)
      "NPTv6 pair requires canonical IPv6 unicast prefixes at most /64")
      [Internal pair; External pair] ;;
   check reject_if (ID pair =? 0) "NPTv6 pair requires a nonzero identity" ;;
   check reject_if (bool_decide (MaxExceptions < length (SourceExceptions pair))%nat
                    || bool_decide (MaxExceptions < length (DestinationExceptions pair))%nat)
      "NPTv6 pair exceeds 16 exceptions per direction" ;;
   check_all (fun addrs => check_all (fun a =>
       reject_if (negb (Is6 a) || Is4In6 a) "NPTv6 pair exception is not IPv6") addrs)
     [SourceExceptions pair; DestinationExceptions pair])%go.

(** [for value > 0xffff { value = value&0xffff + value>>16 }] on a [uint32].  Two
    rounds bring any 32-bit value below 2^16 (lemma [fold_loop_spec]). *)
Fixpoint fold_loop (fuel : nat) (value : Z) : Z :=
  match fuel with
  | O => value
  | S fuel =>
      if 65535 <? value
      then fold_loop fuel (Z.land value 65535 + Z.shiftr value 16)
      else value
  end.
Definition fold (value : Z) : Z := fold_loop 2 value mod 2 ^ 16.

(** [binary.BigEndian.Uint16(b[w*2:w*2+2])] and [PutUint16]. *)
Definition word_at (b : list Z) (w : nat) : Z :=
  256 * byte_at b (2 * w) + byte_at b (2 * w + 1).
Definition put_word (b : list Z) (w : nat) (v : Z) : list Z :=
  <[(2 * w)%nat := v / 256]> (<[(2 * w + 1)%nat := v mod 256]> b).

(** The sums are [uint32]; four 16-bit words cannot overflow one. *)
Definition prefix_sum (b : list Z) : Z :=
  fold_left (fun s w => (s + word_at b w) mod 2 ^ 32) [0; 1; 2; 3]%nat 0.

Definition complement16 (x : Z) : Z := 65535 - x.

Definition Adjustment (from to : Prefix) : Z :=
  let source := prefix_sum (As16 (pfx_addr from)) in
  let target := prefix_sum (As16 (pfx_addr to)) in
  fold ((fold source + complement16 (fold target)) mod 2 ^ 32).

(** [for word < 8 && word_at result word == 0xffff { word++ }], started at 4;
    four rounds reach 8. *)
Fixpoint skip_full (fuel : nat) (b : list Z) (word : nat) : nat :=
  match fuel with
  | O => word
  | S fuel =>
      if bool_decide (word < 8)%nat && (word_at b word =? 65535)
      then skip_full fuel b (S word) else word
  end.

(** One round of [for bit := range bits]: copy one bit of the replacement. *)
Definition copy_bit (replacement result : list Z) (bit : nat) : list Z :=
  let m := 2 ^ (7 - Z.of_nat bit mod 8) in
  let i := (bit / 8)%nat in
  <[i := Z.lor (Z.ldiff (byte_at result i) m) (Z.land (byte_at replacement i) m)]> result.

Definition iid_zero (b : list Z) : bool :=
  fold_left (fun allZero i => allZero && (byte_at b i =? 0)) (seq 8 8) true.

Definition correction_word (bits : Z) (b : list Z) : res nat :=
  if 48 <? bits
  then if iid_zero b then Err "address uses the RFC 6296 excluded zero identifier"
       else Ok (skip_full 4 b 4)
  else Ok 3%nat.

Definition normalize (value : Z) : Z := if value =? 65535 then 0 else value.

Definition TranslateAddress (pair : PrefixPair) (address : Addr) (outbound : bool) : res Addr :=
  (check ValidatePair pair ;;
   let '(from, to) := if outbound then (Internal pair, External pair)
                      else (External pair, Internal pair) in
   let bits := Z.max (pfx_bits from) (pfx_bits to) in
   check reject_if (negb (Contains (PrefixFrom (pfx_addr from) bits) address))
     "address is outside the translatable part of the prefix" ;;
   let result := As16 address in
   let replacement := As16 (pfx_addr to) in
   word <-? correction_word bits result ;;
   check reject_if (bool_decide (word = 8%nat) || (word_at result word =? 65535))
     "address has no RFC 6296 correction word" ;;
   let result := fold_left (copy_bit replacement) (seq 0 (Z.to_nat bits)) result in
   let value := normalize (fold (word_at result word + Adjustment from to)) in
   Ok (AddrFrom16 (put_word result word value)))%go.

(** ** Well-formed values

    A [netip.Addr] has four or sixteen bytes, and a [netip.Prefix] keeps its
    length within the address and never carries a zone. *)

Definition is_byte (x : Z) : Prop := 0 <= x < 256.

Definition wf_addr (a : Addr) : Prop :=
  match a with
  | AddrNone => True
  | Addr4 b => length b = 4%nat /\ Forall is_byte b
  | Addr6 b _ => length b = 16%nat /\ Forall is_byte b
  end.

Definition wf_prefix (p : Prefix) : Prop :=
  wf_addr (pfx_addr p) /\ has_zone (pfx_addr p) = false /\
  -1 <= pfx_bits p <= BitLen (pfx_addr p).

Definition wf_pair (pair : PrefixPair) : Prop :=
  wf_prefix (Internal pair) /\ wf_prefix (External pair).

(** The checksum of an address: the sum of its eight 16-bit words, which one's
    complement arithmetic reads modulo 65535. *)
Definition word_sum (b : list Z) : Z :=
  fold_left (fun s w => s + word_at b w) (seq 0 8) 0.

(** ** Bit-level lemmas *)

(** Decide an equation between bitwise expressions bit by bit. *)
Ltac bits_solve :=
  apply Z.bits_inj'; intros ? ?;
  repeat first [rewrite Z.lor_spec | rewrite Z.land_spec | rewrite Z.ldiff_spec];
  repeat match goal with |- context [Z.testbit ?a ?i] => destruct (Z.testbit a i) end;
  done.

Lemma lor_disjoint a b m : Z.lor (Z.ldiff a m) (Z.land b m) = Z.ldiff a m + Z.land b m.
Proof.
  rewrite <- Z.add_lor_land.
  assert (Z.land (Z.ldiff a m) (Z.land b m) = 0) as ->; [|lia].
  apply Z.bits_inj'; intros i Hi.
  rewrite !Z.land_spec, Z.ldiff_spec, Z.bits_0.
  by destruct (Z.testbit a i), (Z.testbit b i), (Z.testbit m i).
Qed.

Lemma split_mask a m : a = Z.ldiff a m + Z.land a m.
Proof. rewrite <- lor_disjoint. symmetry. apply Z.lor_ldiff_and. Qed.

(** The byte an address has once its first bits are replaced. *)
Definition overlay (m r p : Z) : Z := Z.lor (Z.ldiff r m) (Z.land p m).

Lemma overlay_land m r p : Z.land (overlay m r p) m = Z.land p m.
Proof. unfold overlay. bits_solve. Qed.

Lemma overlay_ldiff m r p : Z.ldiff (overlay m r p) m = Z.ldiff r m.
Proof. unfold overlay. bits_solve. Qed.

Lemma overlay_overlay m r p q : overlay m (overlay m r p) q = overlay m r q.
Proof. unfold overlay. bits_solve. Qed.

Lemma overlay_same m r p : Z.land r m = Z.land p m -> overlay m r p = r.
Proof. intros H. unfold overlay. rewrite <- H. apply Z.lor_ldiff_and. Qed.

Lemma overlay_0 r p : overlay 0 r p = r.
Proof. unfold overlay. rewrite Z.ldiff_0_r, Z.land_0_r. apply Z.lor_0_r. Qed.

Lemma overlay_step m b r p :
  Z.lor (Z.ldiff (overlay m r p) b) (Z.land p b) = overlay (Z.lor m b) r p.
Proof. unfold overlay. bits_solve. Qed.

Lemma mask_succ k : 0 <= k < 8 -> Z.lor (mask k) (2 ^ (7 - k)) = mask (k + 1).
Proof.
  intros Hk.
  assert (k = 0 \/ k = 1 \/ k = 2 \/ k = 3 \/ k = 4 \/ k = 5 \/ k = 6 \/ k = 7) as H by lia.
  by repeat destruct H as [->|H]; [..|subst k].
Qed.

Lemma bits_in_le bits i : bits <= 8 * Z.of_nat i -> bits_in bits i = 0.
Proof. unfold bits_in. lia. Qed.

Lemma byte_mask_0 bits i : bits <= 8 * Z.of_nat i -> byte_mask bits i = 0.
Proof. intros H. unfold byte_mask. by rewrite bits_in_le. Qed.

Lemma byte_mask_succ n i :
  byte_mask (Z.of_nat (S n)) i
  = if bool_decide (i = n / 8)%nat
    then Z.lor (byte_mask (Z.of_nat n) i) (2 ^ (7 - Z.of_nat n mod 8))
    else byte_mask (Z.of_nat n) i.
Proof.
  pose proof (Nat.div_mod_eq n 8) as Hn.
  pose proof (Nat.mod_upper_bound n 8) as Hm.
  assert (Z.of_nat n mod 8 = Z.of_nat (n mod 8)) as Hz by (rewrite Nat2Z.inj_mod; done).
  unfold byte_mask. destruct (bool_decide_reflect (i = n / 8)%nat) as [->|Hne].
  - assert (bits_in (Z.of_nat n) (n / 8) = Z.of_nat (n mod 8)) as ->.
    { unfold bits_in. lia. }
    rewrite Hz, mask_succ by lia. f_equal. unfold bits_in. lia.
  - f_equal. unfold bits_in. lia.
Qed.

Lemma byte_at_insert (b : list Z) (i j : nat) v :
  (j < length b)%nat ->
  byte_at (<[j := v]> b) i = if bool_decide (i = j) then v else byte_at b i.
Proof.
  intros Hj. unfold byte_at. rewrite !nth_lookup.
  destruct (bool_decide_reflect (i = j)) as [->|Hne].
  - by rewrite list_lookup_insert_eq.
  - by rewrite list_lookup_insert_ne.
Qed.

(** The bit loop computes [overlay] on every byte. *)
Lemma copy_bits_spec replacement result n :
  (n <= 8 * length result)%nat ->
  length (fold_left (copy_bit replacement) (seq 0 n) result) = length result /\
  forall i, (i < length result)%nat ->
    byte_at (fold_left (copy_bit replacement) (seq 0 n) result) i
    = overlay (byte_mask (Z.of_nat n) i) (byte_at result i) (byte_at replacement i).
Proof.
  induction n as [|n IH]; intros Hn.
  - split; [done|]. intros i Hi. simpl.
    rewrite byte_mask_0 by lia. by rewrite overlay_0.
  - destruct IH as [Hlen IH]; [lia|].
    rewrite seq_S, fold_left_snoc, Nat.add_0_l.
    set (r := fold_left (copy_bit replacement) (seq 0 n) result) in *.
    assert (n / 8 < length result)%nat as Hin by (apply Nat.Div0.div_lt_upper_bound; lia).
    split; [unfold copy_bit; by rewrite length_insert|]. intros i Hi.
    unfold copy_bit at 1.
    rewrite byte_mask_succ, byte_at_insert by lia.
    destruct (bool_decide_reflect (i = n / 8)%nat) as [->|Hne].
    + rewrite <- overlay_step. by rewrite IH.
    + by apply IH.
Qed.

Lemma mask_bytes_eq bits a b :
  length a = length b ->
  mask_bytes bits a = mask_bytes bits b <->
  forall i, (i < length a)%nat ->
    Z.land (byte_at a i) (byte_mask bits i) = Z.land (byte_at b i) (byte_mask bits i).
Proof.
  intros Hlen. unfold mask_bytes, byte_at. split.
  - intros H i Hi.
    apply (f_equal (fun l => l !! i)) in H. rewrite !list_lookup_imap in H.
    rewrite !nth_lookup.
    destruct (lookup_lt_is_Some_2 a i) as [x Hx]; [lia|].
    destruct (lookup_lt_is_Some_2 b i) as [y Hy]; [lia|].
    rewrite Hx, Hy in *. simpl in *. congruence.
  - intros H. apply list_eq. intros i. rewrite !list_lookup_imap.
    destruct (decide (i < length a)%nat) as [Hi|Hi].
    + specialize (H i Hi). rewrite !nth_lookup in H.
      destruct (lookup_lt_is_Some_2 a i) as [x Hx]; [lia|].
      destruct (lookup_lt_is_Some_2 b i) as [y Hy]; [lia|].
      rewrite Hx, Hy in *. simpl in *. congruence.
    + rewrite !lookup_ge_None_2 by lia. done.
Qed.

(** ** One's complement folding *)

Lemma fold_step v : 0 <= v ->
  Z.land v 65535 + Z.shiftr v 16 = v mod 65536 + v / 65536.
Proof.
  intros Hv. change 65535 with (Z.ones 16).
  by rewrite Z.land_ones, Z.shiftr_div_pow2 by lia.
Qed.

(** Two rounds bring a 32-bit value into 16 bits and keep it modulo 65535. *)
Lemma fold_loop_spec v : 0 <= v < 2 ^ 32 ->
  0 <= fold_loop 2 v <= 65535 /\ exists k, fold_loop 2 v = v - 65535 * k.
Proof.
  change (2 ^ 32) with 4294967296. intros Hv. cbn [fold_loop].
  destruct (Z.ltb_spec 65535 v); [|split; [lia|exists 0; lia]].
  rewrite fold_step by lia. set (v1 := v mod 65536 + v / 65536).
  assert (0 <= v1 <= 131070 /\ v1 = v - 65535 * (v / 65536)) as [Hb Hv1]
    by (subst v1; div_lia).
  destruct (Z.ltb_spec 65535 v1); [|split; [lia|exists (v / 65536); lia]].
  rewrite fold_step by lia. split; [div_lia|].
  exists (v / 65536 + v1 / 65536). div_lia.
Qed.

Lemma fold_spec v : 0 <= v < 2 ^ 32 ->
  0 <= fold v <= 65535 /\ exists k, fold v = v - 65535 * k.
Proof.
  intros Hv. destruct (fold_loop_spec v Hv) as [Hb Hk]. unfold fold.
  rewrite Z.mod_small by lia. done.
Qed.

Lemma normalize_spec v : 0 <= v <= 65535 ->
  0 <= normalize v < 65535 /\ exists k, normalize v = v - 65535 * k.
Proof.
  intros Hv. unfold normalize. destruct (Z.eqb_spec v 65535).
  - split; [lia|]. exists 1. lia.
  - split; [lia|]. exists 0. lia.
Qed.

Lemma mod_unique_65535 x y k :
  0 <= x < 65535 -> 0 <= y < 65535 -> x = y - 65535 * k -> x = y.
Proof. intros Hx Hy ->. lia. Qed.

Definition wf_bytes (b : list Z) : Prop := length b = 16%nat /\ Forall is_byte b.

Lemma byte_at_range b i : Forall is_byte b -> 0 <= byte_at b i < 256.
Proof.
  intros Hb. unfold byte_at. rewrite nth_lookup.
  destruct (b !! i) as [x|] eqn:E; simpl; [|lia].
  by eapply Forall_lookup_1 in Hb; [|done].
Qed.

Lemma word_at_range b w : Forall is_byte b -> 0 <= word_at b w <= 65535.
Proof.
  intros Hb. unfold word_at.
  pose proof (byte_at_range b (2 * w) Hb). pose proof (byte_at_range b (2 * w + 1) Hb). lia.
Qed.

Lemma prefix_sum_spec b : Forall is_byte b ->
  prefix_sum b = word_at b 0 + word_at b 1 + word_at b 2 + word_at b 3.
Proof.
  intros Hb. unfold prefix_sum. cbn [fold_left].
  pose proof (word_at_range b 0 Hb). pose proof (word_at_range b 1 Hb).
  pose proof (word_at_range b 2 Hb). pose proof (word_at_range b 3 Hb).
  change (2 ^ 32) with 4294967296. div_lia.
Qed.

(** The adjustment is the difference of the prefix sums modulo 65535. *)
Lemma Adjustment_spec from to f t :
  pfx_addr from = Addr6 f ""%string -> pfx_addr to = Addr6 t ""%string ->
  Forall is_byte f -> Forall is_byte t ->
  0 <= Adjustment from to <= 65535 /\
  exists k, Adjustment from to = prefix_sum f - prefix_sum t + 65535 * k.
Proof.
  intros Ef Et Hf Ht. unfold Adjustment, complement16. rewrite Ef, Et. cbn [As16].
  assert (forall b, Forall is_byte b -> 0 <= prefix_sum b < 2 ^ 32) as Hs.
  { intros b Hb. rewrite prefix_sum_spec by done.
    pose proof (word_at_range b 0 Hb). pose proof (word_at_range b 1 Hb).
    pose proof (word_at_range b 2 Hb). pose proof (word_at_range b 3 Hb). lia. }
  destruct (fold_spec _ (Hs f Hf)) as [Hfr [kf Hfk]].
  destruct (fold_spec _ (Hs t Ht)) as [Htr [kt Htk]].
  rewrite Z.mod_small by lia.
  destruct (fold_spec (fold (prefix_sum f) + (65535 - fold (prefix_sum t)))) as [Hr [k Hk]]; [lia|].
  split; [done|]. exists (1 - kf + kt - k). lia.
Qed.

(** ** Inverting the validation *)

Lemma mask_mono k k' : 0 <= k <= k' -> k' <= 8 -> Z.land (mask k) (mask k') = mask k.
Proof.
  intros Hk Hk'.
  assert (k' = 0 \/ k' = 1 \/ k' = 2 \/ k' = 3 \/ k' = 4 \/ k' = 5 \/ k' = 6 \/ k' = 7 \/ k' = 8)
    as H' by lia.
  assert (k = 0 \/ k = 1 \/ k = 2 \/ k = 3 \/ k = 4 \/ k = 5 \/ k = 6 \/ k = 7 \/ k = 8)
    as H by lia.
  repeat destruct H' as [->|H']; try subst k';
    repeat destruct H as [->|H]; try subst k; try lia; reflexivity.
Qed.

(** The bytes [b] are zero beyond the first [bits] bits. *)
Definition masked_at (bits : Z) (b : list Z) : Prop :=
  forall i, (i < 16)%nat -> Z.land (byte_at b i) (byte_mask bits i) = byte_at b i.

Lemma masked_at_mono bits bits' b : bits <= bits' -> masked_at bits b -> masked_at bits' b.
Proof.
  intros Hle Hm i Hi. rewrite <- (Hm i Hi) at 1.
  rewrite <- Z.land_assoc. unfold byte_mask. rewrite mask_mono; [by apply Hm| |];
    unfold bits_in; lia.
Qed.

(** What [ValidatePair] establishes of each prefix. *)
Record canonical (p : Prefix) (b : list Z) : Prop := {
  can_addr : pfx_addr p = Addr6 b ""%string;
  can_bytes : wf_bytes b;
  can_bits : 0 <= pfx_bits p <= 64;
  can_masked : masked_at (pfx_bits p) b;
}.

Lemma canonical_of_accepted p :
  wf_prefix p -> prefix_rejected p = false -> exists b, canonical p b.
Proof.
  intros (Hwf & Hz & Hbits) H. unfold prefix_rejected in H.
  repeat (apply orb_false_iff in H as [H ?]). bool_prop.
  destruct (pfx_addr p) as [|b|b z] eqn:Ea; try done. exists b.
  assert (z = ""%string) as ->.
  { simpl in Hz. by apply negb_false_iff, bool_decide_eq_true in Hz. }
  assert (0 <= pfx_bits p <= 64) as Hb by (unfold IsValid in *; bool_prop; lia).
  split; try done.
  assert (p = Masked p) as Hp by done.
  unfold Masked, IsValid in Hp. rewrite Ea in Hp.
  destruct (Z.leb_spec 0 (pfx_bits p)); [|lia].
  apply (f_equal pfx_addr) in Hp. rewrite Ea in Hp. simpl in Hp.
  injection Hp as Hp. intros i Hi. destruct Hwf as [Hlen Hby].
  unfold byte_at. rewrite Hp at 2. rewrite !nth_lookup. unfold mask_bytes.
  rewrite list_lookup_imap.
  destruct (lookup_lt_is_Some_2 b i) as [x Hx]; [lia|]. by rewrite Hx.
Qed.

Lemma validated_prefixes pair u :
  wf_pair pair -> ValidatePair pair = Ok u ->
  exists i e, canonical (Internal pair) i /\ canonical (External pair) e.
Proof.
  intros [Hi He] H. unfold ValidatePair in H.
  apply res_bind_ok in H as (? & H & _). apply check_all_ok in H.
  rewrite !Forall_cons, !reject_if_ok in H. destruct H as (H1 & H2 & _).
  destruct (canonical_of_accepted _ Hi H1) as [i ?].
  destruct (canonical_of_accepted _ He H2) as [e ?]. eauto.
Qed.

(** ** The translation of the bytes *)

Lemma put_word_length b w v : length (put_word b w v) = length b.
Proof. unfold put_word. by rewrite !length_insert. Qed.

Lemma byte_at_put_word b w v i :
  length b = 16%nat -> (w < 8)%nat ->
  byte_at (put_word b w v) i
  = if bool_decide (i = 2 * w)%nat then v / 256
    else if bool_decide (i = 2 * w + 1)%nat then v mod 256 else byte_at b i.
Proof.
  intros Hb Hw. unfold put_word.
  rewrite byte_at_insert by (rewrite length_insert; lia).
  by rewrite byte_at_insert by lia.
Qed.

Lemma word_at_put_word b w v w' :
  length b = 16%nat -> (w < 8)%nat ->
  word_at (put_word b w v) w' = if bool_decide (w' = w) then v else word_at b w'.
Proof.
  intros Hb Hw. unfold word_at. rewrite !byte_at_put_word by done.
  repeat case_bool_decide; try lia. div_lia.
Qed.

Lemma put_word_same b w v :
  wf_bytes b -> (w < 8)%nat -> v = word_at b w -> put_word b w v = b.
Proof.
  intros [Hlen Hb] Hw ->. unfold put_word, word_at.
  pose proof (byte_at_range b (2 * w) Hb). pose proof (byte_at_range b (2 * w + 1) Hb).
  assert (forall i, (i < 16)%nat -> b !! i = Some (byte_at b i)) as Hl.
  { intros i Hi. unfold byte_at. rewrite nth_lookup.
    destruct (lookup_lt_is_Some_2 b i) as [x Hx]; [lia|]. by rewrite Hx. }
  rewrite (list_insert_id b (2 * w + 1)); [|rewrite Hl by lia; f_equal; div_lia].
  apply list_insert_id. rewrite Hl by lia. f_equal. div_lia.
Qed.

Lemma bytes_ext a b :
  length a = 16%nat -> length b = 16%nat ->
  (forall i, (i < 16)%nat -> byte_at a i = byte_at b i) -> a = b.
Proof.
  intros Ha Hb H. apply list_eq. intros i.
  destruct (decide (i < 16)%nat) as [Hi|Hi].
  - specialize (H i Hi). unfold byte_at in H. rewrite !nth_lookup in H.
    destruct (lookup_lt_is_Some_2 a i) as [x Hx]; [lia|].
    destruct (lookup_lt_is_Some_2 b i) as [y Hy]; [lia|].
    rewrite Hx, Hy in *. simpl in H. congruence.
  - rewrite !lookup_ge_None_2 by lia. done.
Qed.

(** A word that only meets bytes past the translated bits. *)
Definition free_word (bits : Z) (w : nat) : Prop := (w < 8)%nat /\ bits <= 16 * Z.of_nat w.

Lemma skip_full_spec fuel b word :
  let w := skip_full fuel b word in
  (word <= w)%nat /\ (forall j, (word <= j < w)%nat -> word_at b j = 65535) /\
  (w <= word + fuel)%nat /\ ((w < word + fuel)%nat -> (w < 8)%nat -> word_at b w <> 65535).
Proof.
  revert word. induction fuel as [|fuel IH]; intros word; simpl.
  - split; [lia|]. split; [lia|]. split; lia.
  - destruct (bool_decide (word < 8)%nat && (word_at b word =? 65535)) eqn:E; bool_prop.
    + destruct (IH (S word)) as (H1 & H2 & H3 & H4).
      split; [lia|]. split; [|split; [lia|intros; apply H4; lia]].
      intros j Hj. destruct (decide (j = word)) as [->|]; [done|]. apply H2. lia.
    + split; [lia|]. split; [lia|]. split; [lia|]. intros _ Hw Hf.
      destruct E as [E|E]; bool_prop; done.
Qed.

(** The chosen word depends only on the words past the prefix, and choosing it
    again in a translated address finds the same word. *)
Lemma correction_word_free bits b w :
  bits <= 64 -> correction_word bits b = Ok w -> w <> 8%nat -> free_word bits w.
Proof.
  unfold correction_word, free_word. intros Hb H Hw.
  destruct (Z.ltb_spec 48 bits).
  - destruct (iid_zero b); [done|]. injection H as <-.
    pose proof (skip_full_spec 4 b 4) as (H1 & _ & H3 & _). simpl in *. lia.
  - injection H as <-. lia.
Qed.

Lemma skip_full_agree fuel b b' word w v :
  v <> 65535 ->
  (forall j, (word <= j < 8)%nat -> word_at b' j = if bool_decide (j = w) then v else word_at b j) ->
  skip_full fuel b word = w -> (w < word + fuel)%nat -> (w < 8)%nat ->
  skip_full fuel b' word = w.
Proof.
  intros Hv. revert word. induction fuel as [|fuel IH]; intros word Hb'; simpl; [lia|].
  intros Hs Hlt Hw8. destruct (bool_decide_reflect (word < 8)%nat) as [H8|H8]; [|done].
  rewrite Hb' by lia. cbn [andb] in *.
  destruct (bool_decide_reflect (word = w)) as [->|Hne].
  - by destruct (Z.eqb_spec v 65535).
  - destruct (word_at b word =? 65535); [|done].
    apply IH; [|done|lia|done]. intros j Hj. apply Hb'. lia.
Qed.

(** What a successful translation of the bytes [r] to [r'] amounts to. *)
Record translated (f t : list Z) (adj bits : Z) (w : nat) (r r' : list Z) : Prop := {
  tr_free : free_word bits w;
  tr_outside : word_at r w <> 65535;
  tr_from : forall i, (i < 16)%nat ->
    Z.land (byte_at r i) (byte_mask bits i) = Z.land (byte_at f i) (byte_mask bits i);
  tr_result : r' = put_word (fold_left (copy_bit t) (seq 0 (Z.to_nat bits)) r) w
                     (normalize (fold (word_at r w + adj)));
}.

Lemma copied_bytes t bits r :
  length r = 16%nat -> 0 <= bits <= 64 ->
  let c := fold_left (copy_bit t) (seq 0 (Z.to_nat bits)) r in
  length c = 16%nat /\ forall i, (i < 16)%nat ->
    byte_at c i = overlay (byte_mask bits i) (byte_at r i) (byte_at t i).
Proof.
  intros Hr Hb. destruct (copy_bits_spec t r (Z.to_nat bits)) as [Hlen Hc]; [lia|].
  rewrite Z2Nat.id in Hc by lia. rewrite Hr in *. done.
Qed.

Lemma copied_word t bits r w :
  length r = 16%nat -> 0 <= bits <= 64 -> free_word bits w ->
  word_at (fold_left (copy_bit t) (seq 0 (Z.to_nat bits)) r) w = word_at r w.
Proof.
  intros Hr Hb [Hw Hf]. destruct (copied_bytes t bits r Hr Hb) as [_ Hc].
  unfold word_at. rewrite !Hc by lia. rewrite !byte_mask_0 by lia. by rewrite !overlay_0.
Qed.

Lemma overlay_add m r f t :
  Z.land r m = Z.land f m -> Z.land f m = f -> Z.land t m = t -> overlay m r t = r + t - f.
Proof.
  intros Hr Hf Ht. unfold overlay. rewrite lor_disjoint.
  pose proof (split_mask r m). lia.
Qed.

Lemma overlay_byte m r t :
  0 <= r < 256 -> 0 <= t < 256 -> 0 <= overlay m r t < 256.
Proof.
  intros Hr Ht.
  assert (forall x, 0 <= x < 256 -> Z.land x (Z.ones 8) = x) as H.
  { intros x Hx. rewrite Z.land_ones by lia. apply Z.mod_small. lia. }
  assert (Z.land (overlay m r t) (Z.ones 8) = overlay m r t) as Ho.
  { rewrite <- (H r Hr), <- (H t Ht). unfold overlay. bits_solve. }
  rewrite <- Ho, Z.land_ones by lia. apply Z.mod_pos_bound. lia.
Qed.

Lemma word_sum_eq b :
  word_sum b = word_at b 0 + word_at b 1 + word_at b 2 + word_at b 3
             + word_at b 4 + word_at b 5 + word_at b 6 + word_at b 7.
Proof. unfold word_sum. cbn [seq fold_left]. lia. Qed.

Lemma word_sum_put_word b w v :
  length b = 16%nat -> (w < 8)%nat ->
  word_sum (put_word b w v) = word_sum b - word_at b w + v.
Proof.
  intros Hb Hw. rewrite !word_sum_eq, !word_at_put_word by done.
  assert (w = 0 \/ w = 1 \/ w = 2 \/ w = 3 \/ w = 4 \/ w = 5 \/ w = 6 \/ w = 7)%nat as H by lia.
  repeat destruct H as [->|H]; try subst w; simpl; lia.
Qed.

Lemma masked_prefix_sum bits b :
  wf_bytes b -> bits <= 64 -> masked_at bits b -> word_sum b = prefix_sum b.
Proof.
  intros [Hl Hb] Hbits Hm. rewrite word_sum_eq, prefix_sum_spec by done.
  assert (forall i, (8 <= i < 16)%nat -> byte_at b i = 0) as Hz.
  { intros i Hi. rewrite <- Hm by lia. rewrite byte_mask_0 by lia. apply Z.land_0_r. }
  assert (forall w, (4 <= w < 8)%nat -> word_at b w = 0) as Hw.
  { intros w Hw. unfold word_at. by rewrite !Hz by lia. }
  rewrite (Hw 4%nat), (Hw 5%nat), (Hw 6%nat), (Hw 7%nat) by lia. lia.
Qed.

Section Translated.
Context (f t : list Z) (adj bits : Z) (w : nat) (r r' : list Z).
Context (Hf : wf_bytes f) (Ht : wf_bytes t) (Hr : wf_bytes r).
Context (Hbits : 0 <= bits <= 64).
Context (Hfm : masked_at bits f) (Htm : masked_at bits t).
Context (Hadj : 0 <= adj <= 65535).
Context (Htr : translated f t adj bits w r r').

Let c := fold_left (copy_bit t) (seq 0 (Z.to_nat bits)) r.
Let value := normalize (fold (word_at r w + adj)).

Lemma tr_copied i : (i < 16)%nat -> byte_at c i = byte_at r i + byte_at t i - byte_at f i.
Proof.
  intros Hi. destruct (copied_bytes t bits r) as [_ Hc]; [apply Hr|done|].
  unfold c. rewrite Hc by done.
  apply overlay_add; [by apply (tr_from _ _ _ _ _ _ _ Htr)|by apply Hfm|by apply Htm].
Qed.

Lemma tr_length : length c = 16%nat.
Proof. apply copied_bytes; [apply Hr|done]. Qed.

Lemma tr_value_range : 0 <= value < 65535.
Proof.
  pose proof (word_at_range r w (proj2 Hr)).
  destruct (fold_spec (word_at r w + adj)) as [Hv _]; [lia|]. by apply normalize_spec.
Qed.

Lemma tr_value_congr : exists k, value = word_at r w + adj - 65535 * k.
Proof.
  pose proof (word_at_range r w (proj2 Hr)).
  destruct (fold_spec (word_at r w + adj)) as [Hv [k1 Hk1]]; [lia|].
  destruct (normalize_spec _ Hv) as [_ [k2 Hk2]].
  exists (k1 + k2). unfold value. rewrite Hk2, Hk1. lia.
Qed.

(** The sum of the words changes by the target prefix, the source prefix and
    the correction. *)
Lemma tr_sum : word_sum r' = word_sum r + word_sum t - word_sum f - word_at r w + value.
Proof.
  destruct (tr_free _ _ _ _ _ _ _ Htr) as [Hw Hfree].
  rewrite (tr_result _ _ _ _ _ _ _ Htr). fold c value.
  rewrite word_sum_put_word by (apply tr_length || done).
  unfold c at 2. rewrite copied_word by (apply Hr || done).
  enough (word_sum c = word_sum r + word_sum t - word_sum f) by lia.
  rewrite !word_sum_eq. unfold word_at. rewrite !tr_copied by lia. lia.
Qed.

Lemma tr_word j : word_at r' j = if bool_decide (j = w) then value else word_at c j.
Proof.
  destruct (tr_free _ _ _ _ _ _ _ Htr) as [Hw _].
  rewrite (tr_result _ _ _ _ _ _ _ Htr). by apply word_at_put_word; [apply tr_length|].
Qed.

Lemma tr_byte i : (i < 16)%nat -> i <> (2 * w)%nat -> i <> (2 * w + 1)%nat ->
  byte_at r' i = overlay (byte_mask bits i) (byte_at r i) (byte_at t i).
Proof.
  intros Hi H1 H2. destruct (tr_free _ _ _ _ _ _ _ Htr) as [Hw _].
  rewrite (tr_result _ _ _ _ _ _ _ Htr).
  rewrite byte_at_put_word by (apply tr_length || done).
  rewrite !bool_decide_false by done. by apply copied_bytes; [apply Hr| |].
Qed.

(** The translated address carries the target prefix. *)
Lemma tr_in_target i : (i < 16)%nat ->
  Z.land (byte_at r' i) (byte_mask bits i) = Z.land (byte_at t i) (byte_mask bits i).
Proof.
  intros Hi. destruct (tr_free _ _ _ _ _ _ _ Htr) as [Hw Hfree].
  destruct (decide (i = 2 * w)%nat) as [->|H1].
  { by rewrite byte_mask_0, !Z.land_0_r by lia. }
  destruct (decide (i = 2 * w + 1)%nat) as [->|H2].
  { by rewrite byte_mask_0, !Z.land_0_r by lia. }
  rewrite tr_byte by done. apply overlay_land.
Qed.

Lemma tr_wf : wf_bytes r'.
Proof.
  destruct (tr_free _ _ _ _ _ _ _ Htr) as [Hw _].
  split.
  { rewrite (tr_result _ _ _ _ _ _ _ Htr), put_word_length. apply tr_length. }
  apply Forall_lookup_2. intros i x Hx.
  assert (i < 16)%nat as Hi.
  { apply lookup_lt_Some in Hx.
    rewrite (tr_result _ _ _ _ _ _ _ Htr), put_word_length in Hx. fold c in Hx.
    by rewrite tr_length in Hx. }
  assert (byte_at r' i = x) as <- by (unfold byte_at; by rewrite nth_lookup, Hx).
  pose proof tr_value_range as Hv.
  rewrite (tr_result _ _ _ _ _ _ _ Htr). fold c value.
  rewrite byte_at_put_word by (apply tr_length || done). unfold is_byte.
  repeat case_bool_decide; [div_lia|div_lia|].
  rewrite (proj2 (copied_bytes t bits r (proj1 Hr) Hbits)) by done.
  pose proof (byte_at_range r i (proj2 Hr)) as Hri.
  pose proof (byte_at_range t i (proj2 Ht)) as Hti. by apply overlay_byte.
Qed.

End Translated.

(** ** Inverting [TranslateAddress] *)

Definition direction (pair : PrefixPair) (outbound : bool) : Prefix * Prefix :=
  if outbound then (Internal pair, External pair) else (External pair, Internal pair).

Lemma contains_bytes p b bits a :
  canonical p b -> 0 <= bits <= 64 -> wf_addr a ->
  Contains (PrefixFrom (pfx_addr p) bits) a = true <->
  exists r, a = Addr6 r ""%string /\
    forall i, (i < 16)%nat ->
      Z.land (byte_at r i) (byte_mask bits i) = Z.land (byte_at b i) (byte_mask bits i).
Proof.
  intros Hp Hbits Hwf. unfold Contains, PrefixFrom, IsValid.
  rewrite (can_addr _ _ Hp). cbn [BitLen without_zone].
  destruct (Z.leb_spec 0 bits); [|lia]. destruct (Z.leb_spec bits 128); [|lia]. cbn.
  destruct (Z.leb_spec 0 bits); [|lia]. cbn [andb].
  destruct a as [|c|r z]; cbn [has_zone BitLen addr_bytes].
  - split; [by rewrite !andb_false_r|]. by intros (? & ? & _).
  - split; [done|]. by intros (? & ? & _).
  - rewrite negb_involutive. cbn. rewrite !andb_true_r, andb_true_iff, !bool_decide_eq_true.
    destruct Hwf as [Hlen _]. destruct (can_bytes _ _ Hp) as [Hlb _].
    fold (mask_bytes bits b). rewrite mask_bytes_eq by lia. rewrite Hlb. split.
    + intros [-> H']. exists r. split; [done|]. intros i Hi. by rewrite H'.
    + intros (r' & [= <- ->] & H'). split; [done|]. intros i Hi. by rewrite H'.
Qed.

(** A translation succeeds exactly when the pair is valid and the bytes are in
    the relation [translated]. *)
Lemma TranslateAddress_ok pair a out a' f t :
  wf_addr a ->
  canonical (direction pair out).1 f -> canonical (direction pair out).2 t ->
  let bits := Z.max (pfx_bits (direction pair out).1) (pfx_bits (direction pair out).2) in
  let adj := Adjustment (direction pair out).1 (direction pair out).2 in
  TranslateAddress pair a out = Ok a' <->
  ValidatePair pair = Ok tt /\
  exists r r' w, a = Addr6 r ""%string /\ a' = Addr6 r' ""%string /\
    correction_word bits r = Ok w /\ translated f t adj bits w r r'.
Proof.
  intros Hwf Hf Ht bits adj.
  assert (0 <= bits <= 64) as Hb.
  { pose proof (can_bits _ _ Hf). pose proof (can_bits _ _ Ht). lia. }
  unfold TranslateAddress. fold (direction pair out).
  destruct (direction pair out) as [from to] eqn:Ed. cbn [fst snd] in *. fold bits.
  rewrite res_bind_ok. setoid_rewrite res_bind_ok. setoid_rewrite reject_if_ok.
  setoid_rewrite negb_false_iff. setoid_rewrite contains_bytes; [|done..].
  setoid_rewrite res_bind_ok. setoid_rewrite res_bind_ok. setoid_rewrite reject_if_ok.
  rewrite (can_addr _ _ Ht). cbn [As16]. split.
  - intros (u & Hv & u' & (r & -> & Hr) & w & Hw & u'' & Hne & [= <-]).
    apply orb_false_iff in Hne as [Hw8 Hfull]. bool_prop. destruct u. split; [done|].
    cbn [As16] in *. assert (free_word bits w) as Hfree by (by eapply correction_word_free; [lia|..]).
    eexists r, _, w. split; [done|]. split; [done|]. split; [done|]. split; [done..|].
    rewrite copied_word; [done|apply Hwf|done|done].
  - intros (Hv & r & r' & w & -> & -> & Hw & Htr). exists tt. split; [done|].
    exists tt. split; [exists r; split; [done|apply Htr]|]. exists w. split; [done|].
    exists tt. destruct Htr as [[Hw8 Hfree] Hout Hfrom Hres]. split.
    + rewrite bool_decide_false by lia. by apply Z.eqb_neq.
    + rewrite Hres. cbn [As16]. rewrite copied_word; [done|apply Hwf|done|by split].
Qed.

Lemma canonical_directions pair out :
  wf_pair pair -> ValidatePair pair = Ok tt ->
  exists f t, canonical (direction pair out).1 f /\ canonical (direction pair out).2 t.
Proof.
  intros Hwf Hv. destruct (validated_prefixes pair tt Hwf Hv) as (i & e & Hi & He).
  destruct out; simpl; eauto.
Qed.

Lemma TranslateAddress_validates pair a out a' :
  TranslateAddress pair a out = Ok a' -> ValidatePair pair = Ok tt.
Proof.
  unfold TranslateAddress. rewrite res_bind_ok. by intros ([] & Hv & _).
Qed.

(** ** Properties *)

(** Translating back: the bytes and the correction word of [r] are recovered. *)
Lemma translated_inverse f t adj adj' bits w r r' :
  wf_bytes f -> wf_bytes t -> wf_bytes r -> 0 <= bits <= 64 ->
  masked_at bits f -> masked_at bits t -> 0 <= adj <= 65535 -> 0 <= adj' <= 65535 ->
  (exists k, adj + adj' = 65535 * k) ->
  translated f t adj bits w r r' -> translated t f adj' bits w r' r.
Proof.
  intros Hf Ht Hr Hb Hfm Htm Ha Ha' [k Hk] Htr.
  pose proof (tr_wf f t adj bits w r r' Ht Hr Hb Ha Htr) as Hr'.
  pose proof (tr_word f t adj bits w r r' Hr Hb Htr w) as Hw.
  rewrite bool_decide_true in Hw by done.
  pose proof (tr_value_range adj w r Hr Ha) as Hv.
  destruct (tr_value_congr adj w r Hr Ha) as [k1 Hk1]. rewrite <- Hw in Hv, Hk1.
  destruct (tr_free _ _ _ _ _ _ _ Htr) as [Hw8 Hfree].
  assert (normalize (fold (word_at r' w + adj')) = word_at r w) as Hval.
  { destruct (tr_value_congr adj' w r' Hr' Ha') as [k2 Hk2].
    pose proof (tr_value_range adj' w r' Hr' Ha') as Hv2.
    pose proof (word_at_range r w (proj2 Hr)). pose proof (tr_outside _ _ _ _ _ _ _ Htr).
    eapply mod_unique_65535 with (k := k1 + k2 - k); lia. }
  split; [done|lia|intros i Hi; by apply (tr_in_target f t adj bits w r r' Hr Hb Htr)|].
  rewrite Hval. destruct (copied_bytes f bits r' (proj1 Hr') Hb) as [Hcl Hc].
  apply bytes_ext; [apply Hr|by rewrite put_word_length|].
  intros i Hi. rewrite byte_at_put_word by done.
  pose proof (byte_at_range r (2 * w) (proj2 Hr)). pose proof (byte_at_range r (2 * w + 1) (proj2 Hr)).
  repeat case_bool_decide; subst; [unfold word_at; div_lia..|].
  rewrite Hc by done. rewrite (tr_byte f t adj bits w r r' Hr Hb Htr) by done.
  rewrite overlay_overlay, overlay_same; [done|]. by apply (tr_from _ _ _ _ _ _ _ Htr).
Qed.

Lemma correction_word_again f t adj bits w r r' :
  wf_bytes r -> 0 <= bits <= 64 -> 0 <= adj <= 65535 -> translated f t adj bits w r r' ->
  correction_word bits r = Ok w ->
  correction_word bits r'
  = if (48 <? bits) && iid_zero r'
    then Err "address uses the RFC 6296 excluded zero identifier" else Ok w.
Proof.
  intros Hr Hb Ha Htr. unfold correction_word.
  destruct (Z.ltb_spec 48 bits) as [H48|H48]; [|done]. cbn [andb].
  destruct (iid_zero r) eqn:Ez; [done|]. intros [= Hw]. destruct (iid_zero r'); [done|].
  f_equal. destruct (tr_free _ _ _ _ _ _ _ Htr) as [Hw8 _].
  eapply skip_full_agree with (b := r) (v := normalize (fold (word_at r w + adj))); [| |done|lia|done].
  - pose proof (tr_value_range adj w r Hr Ha). lia.
  - intros j Hj. rewrite (tr_word f t adj bits w r r' Hr Hb Htr).
    destruct (bool_decide_reflect (j = w)); [done|].
    apply copied_word; [apply Hr|done|split; lia].
Qed.

(** Everything a successful translation establishes, gathered once. *)
Record translation (pair : PrefixPair) (out : bool) (bits adj adj' : Z)
    (f t r r' : list Z) (w : nat) : Prop := {
  tl_from : canonical (direction pair out).1 f;
  tl_to : canonical (direction pair out).2 t;
  tl_bits_eq : bits = Z.max (pfx_bits (Internal pair)) (pfx_bits (External pair));
  tl_bits : 0 <= bits <= 64;
  tl_f : wf_bytes f;
  tl_t : wf_bytes t;
  tl_r : wf_bytes r;
  tl_fm : masked_at bits f;
  tl_tm : masked_at bits t;
  tl_adj_eq : adj = Adjustment (direction pair out).1 (direction pair out).2;
  tl_adj'_eq : adj' = Adjustment (direction pair out).2 (direction pair out).1;
  tl_adj : 0 <= adj <= 65535;
  tl_adj' : 0 <= adj' <= 65535;
  tl_congr : exists k, adj = prefix_sum f - prefix_sum t + 65535 * k;
  tl_congr' : exists k, adj + adj' = 65535 * k;
  tl_word : correction_word bits r = Ok w;
  tl_tr : translated f t adj bits w r r';
}.

Arguments tl_bits_eq {pair out bits adj adj' f t r r' w} _.
Arguments tl_bits {pair out bits adj adj' f t r r' w} _.
Arguments tl_f {pair out bits adj adj' f t r r' w} _.
Arguments tl_t {pair out bits adj adj' f t r r' w} _.
Arguments tl_r {pair out bits adj adj' f t r r' w} _.
Arguments tl_fm {pair out bits adj adj' f t r r' w} _.
Arguments tl_tm {pair out bits adj adj' f t r r' w} _.
Arguments tl_adj {pair out bits adj adj' f t r r' w} _.
Arguments tl_adj' {pair out bits adj adj' f t r r' w} _.
Arguments tl_congr {pair out bits adj adj' f t r r' w} _.
Arguments tl_congr' {pair out bits adj adj' f t r r' w} _.
Arguments tl_word {pair out bits adj adj' f t r r' w} _.
Arguments tl_tr {pair out bits adj adj' f t r r' w} _.

Lemma translation_of pair a out a' :
  wf_pair pair -> wf_addr a -> TranslateAddress pair a out = Ok a' ->
  exists bits adj adj' f t r r' w, a = Addr6 r "" /\ a' = Addr6 r' "" /\
    translation pair out bits adj adj' f t r r' w.
Proof.
  intros Hwf Ha H. pose proof (TranslateAddress_validates _ _ _ _ H) as Hv.
  destruct (canonical_directions pair out Hwf Hv) as (f & t & Hf & Ht).
  apply (TranslateAddress_ok pair a out a' f t Ha Hf Ht) in H as (_ & r & r' & w & -> & -> & Hw & Htr).
  pose proof (can_bits _ _ Hf) as Hbf. pose proof (can_bits _ _ Ht) as Hbt.
  pose proof (can_bytes _ _ Hf) as Hfb. pose proof (can_bytes _ _ Ht) as Htb.
  destruct (Adjustment_spec _ _ f t (can_addr _ _ Hf) (can_addr _ _ Ht) (proj2 Hfb) (proj2 Htb))
    as [Hadj [k Hk]].
  destruct (Adjustment_spec _ _ t f (can_addr _ _ Ht) (can_addr _ _ Hf) (proj2 Htb) (proj2 Hfb))
    as [Hadj' [k' Hk']].
  exists (Z.max (pfx_bits (direction pair out).1) (pfx_bits (direction pair out).2)),
    (Adjustment (direction pair out).1 (direction pair out).2),
    (Adjustment (direction pair out).2 (direction pair out).1), f, t, r, r', w.
  split; [done|]. split; [done|]. constructor; try done.
  - destruct out; simpl; lia.
  - lia.
  - eapply masked_at_mono; [|apply (can_masked _ _ Hf)]; lia.
  - eapply masked_at_mono; [|apply (can_masked _ _ Ht)]; lia.
  - by exists k.
  - exists (k + k'). lia.
Qed.

(** An address without a correction word is refused with the reason. *)
Lemma TranslateAddress_no_word pair r out f t e :
  wf_bytes r -> ValidatePair pair = Ok tt ->
  canonical (direction pair out).1 f -> canonical (direction pair out).2 t ->
  let bits := Z.max (pfx_bits (direction pair out).1) (pfx_bits (direction pair out).2) in
  (forall i, (i < 16)%nat ->
     Z.land (byte_at r i) (byte_mask bits i) = Z.land (byte_at f i) (byte_mask bits i)) ->
  correction_word bits r = Err e -> TranslateAddress pair (Addr6 r "") out = Err e.
Proof.
  intros Hr Hv Hf Ht bits Hin Hw. unfold TranslateAddress. rewrite Hv.
  fold (direction pair out). destruct (direction pair out) as [from to]. cbn [fst snd res_bind] in *.
  fold bits. pose proof (can_bits _ _ Hf). pose proof (can_bits _ _ Ht).
  assert (Contains (PrefixFrom (pfx_addr from) bits) (Addr6 r "") = true) as ->.
  { apply (contains_bytes from f); [done|lia|done|]. by exists r. }
  cbn [negb reject_if res_bind As16]. by rewrite Hw.
Qed.

(** A translated address has the checksum of the original: the sums of the
    eight 16-bit words agree modulo 65535, so the transport checksums that cover
    the address stay valid without touching the payload. *)
Lemma translate_checksum_neutral pair a out a' :
  wf_pair pair -> wf_addr a -> TranslateAddress pair a out = Ok a' ->
  word_sum (As16 a') mod 65535 = word_sum (As16 a) mod 65535.
Proof.
  intros Hwf Ha H.
  destruct (translation_of _ _ _ _ Hwf Ha H) as (bits & adj & adj' & f & t & r & r' & w & -> & -> & T).
  pose proof (tr_sum f t adj bits w r r' (tl_r T) (tl_bits T) (tl_fm T) (tl_tm T) (tl_tr T)) as Hs.
  destruct (tr_value_congr adj w r (tl_r T) (tl_adj T)) as [k2 Hk2].
  destruct (tl_congr T) as [k Hk].
  rewrite (masked_prefix_sum bits f), (masked_prefix_sum bits t) in Hs by apply T.
  cbn [As16]. rewrite Hs, Hk2.
  replace (_ - _ + _) with (word_sum r + (k - k2) * 65535) by lia. apply Z.mod_add. lia.
Qed.

Lemma translate_back pair a out a' :
  wf_pair pair -> wf_addr a -> TranslateAddress pair a out = Ok a' ->
  TranslateAddress pair a' (negb out)
  = if (48 <? Z.max (pfx_bits (Internal pair)) (pfx_bits (External pair))) && iid_zero (As16 a')
    then Err "address uses the RFC 6296 excluded zero identifier"
    else Ok a.
Proof.
  intros Hwf Ha H. pose proof (TranslateAddress_validates _ _ _ _ H) as Hv.
  destruct (translation_of _ _ _ _ Hwf Ha H) as (bits & adj & adj' & f & t & r & r' & w & -> & -> & T).
  pose proof (translated_inverse f t adj adj' bits w r r' (tl_f T) (tl_t T) (tl_r T) (tl_bits T)
                (tl_fm T) (tl_tm T) (tl_adj T) (tl_adj' T) (tl_congr' T) (tl_tr T)) as Hback.
  pose proof (correction_word_again f t adj bits w r r' (tl_r T) (tl_bits T) (tl_adj T)
                (tl_tr T) (tl_word T)) as Hcw.
  pose proof (tr_wf f t adj bits w r r' (tl_t T) (tl_r T) (tl_bits T) (tl_adj T) (tl_tr T)) as Hr'.
  assert (direction pair (negb out) = ((direction pair out).2, (direction pair out).1)) as Ed
    by (by destruct out).
  assert (canonical (direction pair (negb out)).1 t) as Ht by (rewrite Ed; apply T).
  assert (canonical (direction pair (negb out)).2 f) as Hf by (rewrite Ed; apply T).
  assert (Z.max (pfx_bits (direction pair (negb out)).1) (pfx_bits (direction pair (negb out)).2)
          = bits) as Eb by (rewrite (tl_bits_eq T); destruct out; simpl; lia).
  rewrite <- (tl_bits_eq T). cbn [As16]. destruct ((48 <? bits) && iid_zero r').
  - apply (TranslateAddress_no_word pair r' (negb out) t f); try done; rewrite Eb; [|done].
    apply (tr_from _ _ _ _ _ _ _ Hback).
  - apply (TranslateAddress_ok pair (Addr6 r' "") (negb out) (Addr6 r "") t f); [done..|].
    split; [done|]. exists r', r, w. rewrite Eb. split; [done|]. split; [done|]. split; [done|].
    rewrite Ed. cbn [fst snd]. rewrite <- (tl_adj'_eq _ _ _ _ _ _ _ _ _ _ T). exact Hback.
Qed.

(** C4. Translating a translated address back in the other direction returns the
    original address.  The one exception is a translation between prefixes longer
    than /48 that produced an all-zero interface identifier, which the reverse
    direction refuses as the identifier RFC 6296 excludes. *)
Theorem translate_roundtrip pair a out a' :
  wf_pair pair -> wf_addr a -> TranslateAddress pair a out = Ok a' ->
  TranslateAddress pair a' (negb out)
  = if (48 <? Z.max (pfx_bits (Internal pair)) (pfx_bits (External pair))) && iid_zero (As16 a')
    then Err "address uses the RFC 6296 excluded zero identifier"
    else Ok a.
Proof. apply translate_back. Qed.

(** A translation rewrites exactly the translated prefix bits and one
    correction word past them: the result lies in the target prefix at the longer
    of the two lengths, and every 16-bit word of the interface identifier but the
    correction word keeps its value. *)
Lemma translate_lands_in_target pair a out a' :
  wf_pair pair -> wf_addr a -> TranslateAddress pair a out = Ok a' ->
  let bits := Z.max (pfx_bits (Internal pair)) (pfx_bits (External pair)) in
  Contains (PrefixFrom (pfx_addr (direction pair out).2) bits) a' = true /\
  exists w, correction_word bits (As16 a) = Ok w /\ bits <= 16 * Z.of_nat w /\
    word_at (As16 a') w <> 65535 /\
    forall j, (4 <= j < 8)%nat -> j <> w -> word_at (As16 a') j = word_at (As16 a) j.
Proof.
  intros Hwf Ha H bits.
  destruct (translation_of _ _ _ _ Hwf Ha H) as (? & adj & adj' & f & t & r & r' & w & -> & -> & T).
  pose proof (tl_bits_eq T) as ->. fold bits in T.
  pose proof (tr_wf f t adj bits w r r' (tl_t T) (tl_r T) (tl_bits T) (tl_adj T) (tl_tr T)) as Hr'.
  pose proof (tr_word f t adj bits w r r' (tl_r T) (tl_bits T) (tl_tr T)) as Hword.
  destruct (tr_free _ _ _ _ _ _ _ (tl_tr T)) as [Hw8 Hfree]. pose proof (tl_bits T) as Hb.
  split.
  - apply (contains_bytes _ t); [apply T|done|done|]. exists r'. split; [done|].
    apply (tr_in_target f t adj bits w r r' (tl_r T) Hb (tl_tr T)).
  - exists w. split; [apply T|]. split; [done|]. cbn [As16]. split.
    + rewrite Hword, bool_decide_true by done.
      pose proof (tr_value_range adj w r (tl_r T) (tl_adj T)). lia.
    + intros j Hj Hne. rewrite Hword, bool_decide_false by done.
      apply copied_word; [apply T|done|split; lia].
Qed.

(** ** Witnesses

    The RFC 6296 example: [fd01:203:405::/48] inside, [2001:db8:1::/48] outside,
    and a /64 pair whose translation can produce the excluded identifier. *)

Definition rfc_pair : PrefixPair :=
  mkPair 1 (mkPrefix (Addr6 [253;1;2;3;4;5;0;0;0;0;0;0;0;0;0;0] "") 48)
    (mkPrefix (Addr6 [32;1;13;184;0;1;0;0;0;0;0;0;0;0;0;0] "") 48) [] [].
Definition rfc_inside : Addr := Addr6 [253;1;2;3;4;5;0;1;0;0;0;0;0;0;18;52] "".
Definition rfc_outside : Addr := Addr6 [32;1;13;184;0;1;213;80;0;0;0;0;0;0;18;52] "".
Definition long_pair : PrefixPair :=
  mkPair 2 (mkPrefix (Addr6 [253;0;0;0;0;0;0;1;0;0;0;0;0;0;0;0] "") 64)
    (mkPrefix (Addr6 [32;1;0;0;0;0;0;2;0;0;0;0;0;0;0;0] "") 64) [] [].
Definition long_inside : Addr := Addr6 [253;0;0;0;0;0;0;1;35;1;0;0;0;0;0;0] "".

Ltac wf_witness := repeat (constructor || done || lia).

Lemma rfc_pair_wf : wf_pair rfc_pair.
Proof. wf_witness. Qed.

Example rfc_example : TranslateAddress rfc_pair rfc_inside true = Ok rfc_outside.
Proof. vm_compute. reflexivity. Qed.

(** The exception of the round trip is reachable. *)
Example excluded_identifier :
  (x <-? TranslateAddress long_pair long_inside true ;; TranslateAddress long_pair x false)%go
  = Err "address uses the RFC 6296 excluded zero identifier".
Proof. vm_compute. reflexivity. Qed.

Lemma translate_roundtrip_witness :
  TranslateAddress rfc_pair rfc_outside false = Ok rfc_inside.
Proof.
  apply (translate_roundtrip rfc_pair rfc_inside true rfc_outside);
    [apply rfc_pair_wf|wf_witness|vm_compute; reflexivity].
Defined.

Lemma translate_lands_in_target_witness :
  Contains (PrefixFrom (pfx_addr (External rfc_pair)) 48) rfc_outside = true.
Proof.
  apply (translate_lands_in_target rfc_pair rfc_inside true rfc_outside);
    [apply rfc_pair_wf|wf_witness|vm_compute; reflexivity].
Defined.
