(* ===== verification/Alert.v ===== *)
(** * Alert limiter and rollback coordination (gateway/internal/alert/limiter.go)

    [Limiter] spaces the watchdog's alerts, one cooldown per severity; [Coord]
    holds a shutdown signal back while a rollback runs.  Both are shared between
    goroutines behind a lock, so a run is a sequence of calls in lock order. *)

From S2P Require Import Prelude.

Local Open Scope Z_scope.

(** ** Coord *)

Record Coord := mkCoord { rollingBack : bool; shutdownAfterRollback : bool }.

Definition Coord_zero : Coord := mkCoord false false.

Definition SetRollingBack (v : bool) (c : Coord) : Coord :=
  mkCoord v (shutdownAfterRollback c).
Definition IsRollingBack (c : Coord) : bool := rollingBack c.
Definition OnSignalDuringRollback (c : Coord) : Coord := mkCoord (rollingBack c) true.
Definition TakeShutdownAfterRollback (c : Coord) : bool * Coord :=
  (shutdownAfterRollback c, mkCoord (rollingBack c) false).

Inductive coord_call := CSet (v : bool) | CIs | CSignal | CTake.

(** One call under the lock; queries answer [Some]. *)
Definition coord_step (c : Coord) (call : coord_call) : option bool * Coord :=
  match call with
  | CSet v => (None, SetRollingBack v c)
  | CIs => (Some (IsRollingBack c), c)
  | CSignal => (None, OnSignalDuringRollback c)
  | CTake => let '(v, c) := TakeShutdownAfterRollback c in (Some v, c)
  end.

Definition coord_run (calls : list coord_call) : Coord :=
  fold_left (fun c call => (coord_step c call).2) calls Coord_zero.

(** What the history of calls says: the last mark set, and whether a signal
    arrived since the last time the record was taken. *)
Fixpoint marked_rolling (recent : list coord_call) : bool :=
  match recent with
  | [] => false
  | CSet v :: _ => v
  | _ :: recent => marked_rolling recent
  end.

Fixpoint pending_signal (recent : list coord_call) : bool :=
  match recent with
  | [] => false
  | CSignal :: _ => true
  | CTake :: _ => false
  | _ :: recent => pending_signal recent
  end.

(** Whatever calls the watchdog and the signal handler interleave, the
    coordinator answers from their history: a rollback is in progress when the
    last mark says so, and a taken shutdown was signalled after the previous
    take, so each deferred signal is consumed exactly once. *)
Lemma coord_refines_history calls :
  IsRollingBack (coord_run calls) = marked_rolling (rev calls) /\
  (TakeShutdownAfterRollback (coord_run calls)).1 = pending_signal (rev calls).
Proof.
  induction calls as [|call calls IH] using rev_ind; [done|].
  unfold coord_run in *. rewrite fold_left_snoc, rev_app_distr. simpl.
  destruct (fold_left _ calls Coord_zero) as [r s]. cbn in IH. destruct IH as [<- <-].
  by destruct call.
Qed.

(** ** Limiter *)

Record Limiter := mkLimiter {
  nextPartialSendAt : Z;
  nextTotalSendAt : Z;
  cooldown : Z;
}.

Definition NewLimiter (cooldownSec : Z) : Limiter :=
  mkLimiter zero_time zero_time (seconds cooldownSec).

Definition TrySendPartial (now : Z) (a : Limiter) : bool * Limiter :=
  if before now (nextPartialSendAt a) then (false, a)
  else (true, mkLimiter (add_time now (cooldown a)) (nextTotalSendAt a) (cooldown a)).

Definition TrySendTotal (now : Z) (a : Limiter) : bool * Limiter :=
  if before now (nextTotalSendAt a) then (false, a)
  else (true, mkLimiter (nextPartialSendAt a) (add_time now (cooldown a)) (cooldown a)).

Definition ResetCooldowns (a : Limiter) : Limiter :=
  mkLimiter zero_time zero_time (cooldown a).

Definition PartialCooldownRemaining (now : Z) (a : Limiter) : Z :=
  if before now (nextPartialSendAt a) then sub_time (nextPartialSendAt a) now else 0.

Definition TotalCooldownRemaining (now : Z) (a : Limiter) : Z :=
  if before now (nextTotalSendAt a) then sub_time (nextTotalSendAt a) now else 0.

Inductive limiter_call := LPartial (now : Z) | LTotal (now : Z) | LReset.

(** One call: the alert sent, if any, and the next limiter. *)
Definition limiter_step (a : Limiter) (call : limiter_call) : option limiter_call * Limiter :=
  match call with
  | LPartial now => let '(ok, a) := TrySendPartial now a in (if ok then Some call else None, a)
  | LTotal now => let '(ok, a) := TrySendTotal now a in (if ok then Some call else None, a)
  | LReset => (Some LReset, ResetCooldowns a)
  end.

(** The alerts a sequence of calls sends (with the resets), in order. *)
Fixpoint limiter_run (calls : list limiter_call) (a : Limiter) : list limiter_call :=
  match calls with
  | [] => []
  | call :: calls =>
      let '(out, a) := limiter_step a call in
      match out with
      | Some e => e :: limiter_run calls a
      | None => limiter_run calls a
      end
  end.

Definition is_total (c : limiter_call) : bool :=
  match c with LPartial _ => false | _ => true end.
Definition is_partial (c : limiter_call) : bool :=
  match c with LTotal _ => false | _ => true end.

(** Consecutive alerts of one severity are a cooldown apart unless the cooldowns
    were reset in between; [last] is the time of the previous one. *)
Fixpoint spaced (cooldown : Z) (last : option Z) (sent : list limiter_call) : Prop :=
  match sent with
  | [] => True
  | LReset :: sent => spaced cooldown None sent
  | (LPartial t | LTotal t) :: sent =>
      match last with Some t0 => t0 + cooldown <= t | None => True end
      /\ spaced cooldown (Some t) sent
  end.

Definition after_last (cooldown next : Z) (last : option Z) : Prop :=
  match last with Some t0 => next = t0 + cooldown | None => True end.

Lemma partial_spaced calls a last :
  after_last (cooldown a) (nextPartialSendAt a) last ->
  spaced (cooldown a) last (List.filter is_partial (limiter_run calls a)).
Proof.
  revert a last. induction calls as [|call calls IH]; intros a last Hlast; simpl; [done|].
  destruct call as [now|now|]; simpl; unfold TrySendPartial, TrySendTotal, before, add_time.
  - destruct (Z.ltb_spec now (nextPartialSendAt a)); simpl; [by apply IH|].
    split.
    + destruct last; simpl in *; [lia|done].
    + by apply (IH (mkLimiter _ _ _) (Some now)).
  - destruct (Z.ltb_spec now (nextTotalSendAt a)); simpl; [by apply IH|].
    by apply (IH (mkLimiter _ _ _) last).
  - by apply (IH (ResetCooldowns a) None).
Qed.

Lemma total_spaced calls a last :
  after_last (cooldown a) (nextTotalSendAt a) last ->
  spaced (cooldown a) last (List.filter is_total (limiter_run calls a)).
Proof.
  revert a last. induction calls as [|call calls IH]; intros a last Hlast; simpl; [done|].
  destruct call as [now|now|]; simpl; unfold TrySendPartial, TrySendTotal, before, add_time.
  - destruct (Z.ltb_spec now (nextPartialSendAt a)); simpl; [by apply IH|].
    by apply (IH (mkLimiter _ _ _) last).
  - destruct (Z.ltb_spec now (nextTotalSendAt a)); simpl; [by apply IH|].
    split.
    + destruct last; simpl in *; [lia|done].
    + by apply (IH (mkLimiter _ _ _) (Some now)).
  - by apply (IH (ResetCooldowns a) None).
Qed.

(** In any sequence of send attempts and resets, two alerts of the same
    severity sent with no reset between them are at least one cooldown apart. *)
Lemma alerts_spaced_by_cooldown calls cooldownSec :
  spaced (seconds cooldownSec) None
    (List.filter is_partial (limiter_run calls (NewLimiter cooldownSec))) /\
  spaced (seconds cooldownSec) None
    (List.filter is_total (limiter_run calls (NewLimiter cooldownSec))).
Proof.
  split; [by apply (partial_spaced calls (NewLimiter cooldownSec) None)
         |by apply (total_spaced calls (NewLimiter cooldownSec) None)].
Qed.

Lemma total_run_independent calls a b :
  nextTotalSendAt a = nextTotalSendAt b -> cooldown a = cooldown b ->
  List.filter is_total (limiter_run calls a)
  = limiter_run (List.filter is_total calls) b.
Proof.
  revert a b. induction calls as [|call calls IH]; intros a b Ht Hc; [done|].
  destruct call as [now|now|].
  - simpl. unfold TrySendPartial.
    destruct (before now (nextPartialSendAt a)); simpl; [by apply IH|].
    by apply IH.
  - simpl. unfold TrySendTotal. rewrite <- Ht, <- Hc.
    destruct (before now (nextTotalSendAt a)); simpl; [by apply IH|].
    f_equal. by apply IH.
  - simpl. f_equal. apply IH; simpl; congruence.
Qed.

(** Partial-loss alerts never suppress a total-loss alert: dropping every
    partial attempt from a sequence leaves the total-loss alerts it sends
    unchanged. *)
Lemma total_alerts_unaffected_by_partial calls cooldownSec :
  List.filter is_total (limiter_run calls (NewLimiter cooldownSec))
  = limiter_run (List.filter is_total calls) (NewLimiter cooldownSec).
Proof. by apply total_run_independent. Qed.

(** The remaining time the suppression line logs is positive exactly when the
    attempt is suppressed. *)
Lemma remaining_iff_suppressed now a :
  0 < PartialCooldownRemaining now a <-> (TrySendPartial now a).1 = false.
Proof.
  unfold PartialCooldownRemaining, TrySendPartial, before, sub_time, int64_min, int64_max.
  destruct (Z.ltb_spec now (nextPartialSendAt a)); simpl; [|lia].
  split; [done|]. lia.
Qed.
