(* ===== verification/Notify.v ===== *)
(** * Notification manager (gateway/internal/notify/manager.go, notify.go, null.go)

    Every alert leaves the program through a [Notifier].  [Manager] keeps one
    state per (kind, key): it emits on the transition into the bad state, repeats
    at the configured cadence and emits one recovery line.  The class [Notifier]
    is what the rest of the program depends on. *)

From S2P Require Import Prelude GoStrings.

Local Open Scope Z_scope.

(** [slog] levels. *)
Definition LevelDebug : Z := -4.
Definition LevelInfo : Z := 0.
Definition LevelWarn : Z := 4.
Definition LevelError : Z := 8.

Abbreviation attr := (string * string)%type (only parsing).

Record Event := mkEvent {
  ev_Now : Z;
  ev_Level : Z;
  ev_Kind : string;
  ev_Key : string;
  ev_Message : string;
  ev_Fields : list (string * string);
  ev_IsRecovery : bool;
}.

(** The cadence configuration. *)
Record Config := mkNotifyConfig { RepeatEvery : Z; PerKind : gmap string Z }.

Record alertState := mkAlertState { active : bool; lastEmit : Z; lastLevel : Z }.
Definition alertState_zero : alertState := mkAlertState false zero_time 0.

Record Manager := mkManager {
  m_cfg : Config;
  m_sink : bool;
  m_state : gmap string alertState;
}.

Definition newManager (cfg : Config) (sink : bool) : Manager := mkManager cfg sink ∅.

(** One emitted record: the level, the text and the attributes, the flags the
    manager computed, and whether the email sink received it too. *)
Record emission := mkEmission {
  e_level : Z;
  e_kind : string;
  e_key : string;
  e_msg : string;
  e_attrs : list (string * string);
  e_transition : bool;
  e_resolved : bool;
  e_mailed : bool;
}.

Definition show_bool (b : bool) : string := if b then "true" else "false".

Definition emit (m : Manager) (level : Z) (kind key msg : string)
    (transition resolved : bool) (fields : list (string * string)) : emission :=
  let attrs := [("alert_kind", kind); ("alert_key", key);
                if resolved then ("resolved", "true")
                else ("transition", show_bool transition)] ++ fields in
  mkEmission level kind key msg attrs transition resolved (m_sink m).

Definition alert_id (kind key : string) : string := (kind +:+ "|" +:+ key)%string.

Definition Active (kind key : string) (m : Manager) : bool :=
  match m_state m !! alert_id kind key with
  | Some st => active st
  | None => false
  end.

Definition repeat_for (cfg : Config) (kind : string) : Z :=
  match PerKind cfg !! kind with Some d => d | None => RepeatEvery cfg end.

Definition set_state (m : Manager) (id : string) (st : alertState) : Manager :=
  mkManager (m_cfg m) (m_sink m) (<[id := st]> (m_state m)).

Definition notifyAt (now level : Z) (kind key msg : string) (fields : list (string * string))
    (m : Manager) : list emission * Manager :=
  let id := alert_id kind key in
  let st := default alertState_zero (m_state m !! id) in
  let exists_ := bool_decide (is_Some (m_state m !! id)) in
  let shouldEmit := negb exists_ || negb (active st) in
  let repeatEvery := repeat_for (m_cfg m) kind in
  let shouldEmit :=
    if negb shouldEmit && (0 <? repeatEvery) && (repeatEvery <=? sub_time now (lastEmit st))
    then true else shouldEmit in
  let transition := negb exists_ || negb (active st) in
  let st := mkAlertState true (lastEmit st) (lastLevel st) in
  if shouldEmit
  then ([emit m level kind key msg transition false fields],
        set_state m id (mkAlertState (active st) now level))
  else ([], set_state m id st).

Definition recovered_msg (msg : string) : string :=
  if has_prefix "RECOVERED:" msg then msg else ("RECOVERED: " +:+ msg)%string.

(** The severity of the recovery line; level zero is replaced by a warning. *)
Definition recovery_level (lastLevel : Z) : Z :=
  if lastLevel =? 0 then LevelWarn else lastLevel.

Definition resolveAt (now : Z) (kind key msg : string) (fields : list (string * string))
    (m : Manager) : list emission * Manager :=
  let id := alert_id kind key in
  match m_state m !! id with
  | None => ([], m)
  | Some st =>
      if negb (active st) then ([], m)
      else ([emit m (recovery_level (lastLevel st)) kind key (recovered_msg msg) false true fields],
            set_state m id (mkAlertState false now (lastLevel st)))
  end.

(** [Notify]; [clock] is the manager's clock, read when the event has no time. *)
Definition Manager_Notify (clock : Z) (ev : Event) (m : Manager) : list emission * Manager :=
  let now := if is_zero (ev_Now ev) then clock else ev_Now ev in
  if ev_IsRecovery ev
  then resolveAt now (ev_Kind ev) (ev_Key ev) (ev_Message ev) (ev_Fields ev) m
  else notifyAt now (ev_Level ev) (ev_Kind ev) (ev_Key ev) (ev_Message ev) (ev_Fields ev) m.

Definition Manager_Resolve (clock : Z) (kind key msg : string) (fields : list (string * string))
    (m : Manager) : list emission * Manager :=
  resolveAt clock kind key msg fields m.

(** ** The interface *)

Class Notifier (N : Type) := {
  n_Notify : Z -> Event -> N -> list emission * N;
  n_Resolve : Z -> string -> string -> string -> list (string * string) -> N -> list emission * N;
  n_Active : string -> string -> N -> bool;
}.

(** What callers may rely on: a resolved alert is not active, resolving an
    inactive alert is silent, and raising an alert never closes one. *)
Class NotifierLaws (N : Type) `{Notifier N} := {
  active_after_resolve clock kind key msg fields n :
    n_Active kind key (n_Resolve clock kind key msg fields n).2 = false;
  resolve_inactive_silent clock kind key msg fields n :
    n_Active kind key n = false -> (n_Resolve clock kind key msg fields n).1 = [];
  notify_keeps_active clock ev kind key n :
    ev_IsRecovery ev = false -> n_Active kind key n = true ->
    n_Active kind key (n_Notify clock ev n).2 = true;
}.

#[export] Instance Manager_Notifier : Notifier Manager := {
  n_Notify := Manager_Notify;
  n_Resolve := Manager_Resolve;
  n_Active := Active;
}.

(** [NullNotifier] drops every alert. *)
#[export] Instance Null_Notifier : Notifier unit := {
  n_Notify := fun _ _ n => ([], n);
  n_Resolve := fun _ _ _ _ _ n => ([], n);
  n_Active := fun _ _ _ => false;
}.

(** ** Lemmas *)

Lemma notifyAt_state now level kind key msg fields m id :
  m_state (notifyAt now level kind key msg fields m).2 !! id
  = if bool_decide (id = alert_id kind key)
    then Some (match (notifyAt now level kind key msg fields m).1 with
               | [] => mkAlertState true
                         (lastEmit (default alertState_zero (m_state m !! alert_id kind key)))
                         (lastLevel (default alertState_zero (m_state m !! alert_id kind key)))
               | _ => mkAlertState true now level
               end)
    else m_state m !! id.
Proof.
  unfold notifyAt. destruct (bool_decide_reflect (id = alert_id kind key)) as [->|Hne];
    destruct (if _ && _ && _ then true else _); simpl; by simplify_map_eq.
Qed.

Lemma resolveAt_state now kind key msg fields m id :
  m_state (resolveAt now kind key msg fields m).2 !! id
  = if bool_decide (id = alert_id kind key)
    then match m_state m !! id with
         | Some st => Some (if active st then mkAlertState false now (lastLevel st) else st)
         | None => None
         end
    else m_state m !! id.
Proof.
  unfold resolveAt. destruct (bool_decide_reflect (id = alert_id kind key)) as [->|Hne].
  - destruct (m_state m !! alert_id kind key) as [st|] eqn:E; simpl; [|by rewrite E].
    destruct (active st); simpl; by simplify_map_eq.
  - destruct (m_state m !! alert_id kind key) as [st|] eqn:E; simpl; [|done].
    destruct (active st); simpl; by simplify_map_eq.
Qed.

#[export] Instance Manager_NotifierLaws : NotifierLaws Manager.
Proof.
  constructor; simpl.
  - intros. unfold Active, Manager_Resolve. rewrite resolveAt_state.
    rewrite bool_decide_true by done.
    destruct (m_state n !! alert_id kind key) as [st|]; [|done]. by destruct (active st) eqn:E.
  - intros clock kind key msg fields n. unfold Active, Manager_Resolve, resolveAt.
    destruct (m_state n !! alert_id kind key) as [st|]; [|done]. by intros ->.
  - intros clock ev kind key n Hr. unfold Active, Manager_Notify. rewrite Hr.
    rewrite notifyAt_state. case_bool_decide; [|done].
    by destruct (notifyAt _ _ _ _ _ _ n).1.
Qed.

#[export] Instance Null_NotifierLaws : NotifierLaws unit.
Proof. by constructor. Qed.

(** ** Runs of the manager *)

Inductive notify_call :=
| CallNotify (now level : Z) (kind key msg : string) (fields : list (string * string))
| CallResolve (now : Z) (kind key msg : string) (fields : list (string * string)).

Definition call_now (c : notify_call) : Z :=
  match c with CallNotify now _ _ _ _ _ => now | CallResolve now _ _ _ _ => now end.

Definition notify_step (m : Manager) (c : notify_call) : list emission * Manager :=
  match c with
  | CallNotify now level kind key msg fields => notifyAt now level kind key msg fields m
  | CallResolve now kind key msg fields => resolveAt now kind key msg fields m
  end.

(** The emissions of a sequence of calls, each with the time of its call. *)
Fixpoint notify_run (calls : list notify_call) (m : Manager) : list (Z * emission) :=
  match calls with
  | [] => []
  | c :: calls =>
      let '(out, m) := notify_step m c in
      map (fun e => (call_now c, e)) out ++ notify_run calls m
  end.

Definition has_id (id : string) (te : Z * emission) : bool :=
  bool_decide (alert_id (e_kind te.2) (e_key te.2) = id).

(** The protocol of one alert.  [open] is the time and level of the last
    emission while the alert is open. *)
Fixpoint alert_stream (cfg : Config) (open : option (Z * Z)) (l : list (Z * emission)) : Prop :=
  match l with
  | [] => True
  | (t, e) :: l =>
      if e_resolved e
      then (exists t0 level, open = Some (t0, level) /\ e_level e = recovery_level level)
           /\ alert_stream cfg None l
      else match open with
           | None => e_transition e = true
           | Some (t0, _) =>
               e_transition e = false /\ 0 < repeat_for cfg (e_kind e) <= sub_time t t0
           end /\ alert_stream cfg (Some (t, e_level e)) l
  end.

(** What the state map says of an alert. *)
Definition open_state (m : Manager) (id : string) : option (Z * Z) :=
  match m_state m !! id with
  | Some st => if active st then Some (lastEmit st, lastLevel st) else None
  | None => None
  end.

Lemma notify_step_cfg m c : m_cfg (notify_step m c).2 = m_cfg m.
Proof.
  destruct c; simpl; unfold notifyAt, resolveAt.
  - by destruct (if _ && _ && _ then true else _).
  - destruct (_ !! _) as [st|]; [|done]. by destruct (active st).
Qed.

Lemma open_state_notify now level kind key msg fields m id :
  open_state (notifyAt now level kind key msg fields m).2 id
  = if bool_decide (id = alert_id kind key)
    then match (notifyAt now level kind key msg fields m).1 with
         | [] => open_state m id
         | _ => Some (now, level)
         end
    else open_state m id.
Proof.
  unfold open_state at 1. rewrite notifyAt_state.
  destruct (bool_decide_reflect (id = alert_id kind key)) as [->|]; [|done].
  unfold open_state, notifyAt.
  destruct (m_state m !! alert_id kind key) as [[[] le ll]|]; simpl; [|done..].
  by destruct ((0 <? _) && _).
Qed.

Lemma alert_stream_run cfg calls m id :
  m_cfg m = cfg ->
  alert_stream cfg (open_state m id) (List.filter (has_id id) (notify_run calls m)).
Proof.
  revert m. induction calls as [|c calls IH]; intros m Hcfg; [done|].
  cbn [notify_run]. pose proof (notify_step_cfg m c) as Hc.
  specialize (IH (notify_step m c).2 ltac:(congruence)).
  destruct c as [now level kind key msg fields|now kind key msg fields];
    cbn [notify_step call_now] in *.
  - pose proof (open_state_notify now level kind key msg fields m id) as Ho.
    unfold notifyAt in *. set (e := emit _ _ _ _ _ _ _ _) in *.
    destruct (if _ && _ && _ then true else _) eqn:Ee; cbn [fst snd map app] in *.
    + rewrite Ho in IH. cbn [List.filter]. unfold has_id at 1. cbn [e_kind e_key emit snd].
      rewrite (bool_decide_ext _ (id = alert_id kind key)) by (subst e; simpl; naive_solver).
      destruct (bool_decide_reflect (id = alert_id kind key)) as [->|]; [|done].
      cbn [alert_stream e_resolved emit e_level]. split; [|done].
      unfold open_state. destruct (m_state m !! alert_id kind key) as [[[] le ll]|];
        simpl in *; try done. subst e. simpl.
      destruct ((0 <? _) && _) eqn:Er; [|done]. bool_prop. rewrite <- Hcfg. split; [done|lia].
    + rewrite Ho in IH. by case_bool_decide.
  - unfold open_state in IH. rewrite resolveAt_state in IH. fold (open_state m id) in IH.
    unfold resolveAt in *.
    destruct (m_state m !! alert_id kind key) as [st|] eqn:Es; cbn [fst snd map app] in *.
    + destruct (active st) eqn:Ea; cbn [fst snd map app negb] in *.
      * cbn [List.filter]. unfold has_id at 1. cbn [e_kind e_key emit snd].
        rewrite (bool_decide_ext _ (id = alert_id kind key)) by naive_solver.
        destruct (bool_decide_reflect (id = alert_id kind key)) as [->|]; [|done].
        rewrite Es, Ea in IH. cbn [alert_stream e_resolved emit e_level]. split; [|done].
        exists (lastEmit st), (lastLevel st). unfold open_state. rewrite Es, Ea. done.
      * destruct (bool_decide_reflect (id = alert_id kind key)) as [->|]; [|done].
        rewrite Es, Ea in IH. simpl in IH. rewrite Ea in IH. unfold open_state. rewrite Es, Ea. exact IH.
    + destruct (bool_decide_reflect (id = alert_id kind key)) as [->|]; [|done].
      rewrite Es in IH. unfold open_state. by rewrite Es.
Qed.

(** For every alert, whatever the interleaving of calls, the emitted records
    follow the protocol: a transition record opens the alert, repeats come no
    sooner than the kind's cadence after the previous record and only when the
    cadence is positive, and one recovery record closes it, at the severity of the
    last record (a warning when that was INFO); nothing is emitted for a resolve
    of an alert that is not open. *)
Lemma alert_stream_wellformed cfg sink calls id :
  alert_stream cfg None (List.filter (has_id id) (notify_run calls (newManager cfg sink))).
Proof.
  apply (alert_stream_run cfg calls (newManager cfg sink) id). done.
Qed.

(** A notification is suppressed exactly when its alert is already open and
    its cadence is disabled or has not elapsed since the last emission; either way
    the alert is open afterwards. *)
Lemma notify_suppressed_iff now level kind key msg fields m :
  Active kind key (notifyAt now level kind key msg fields m).2 = true /\
  ((notifyAt now level kind key msg fields m).1 = [] <->
   exists t0 lv, open_state m (alert_id kind key) = Some (t0, lv) /\
     (repeat_for (m_cfg m) kind <= 0 \/ sub_time now t0 < repeat_for (m_cfg m) kind)).
Proof.
  split.
  - unfold Active. rewrite notifyAt_state, bool_decide_true by done.
    by destruct (notifyAt _ _ _ _ _ _ m).1.
  - unfold notifyAt, open_state.
    destruct (m_state m !! alert_id kind key) as [[[] le ll]|]; simpl.
    + destruct ((0 <? repeat_for (m_cfg m) kind) && _) eqn:E; simpl; bool_prop.
      * split; [done|]. intros (? & ? & [= <- <-] & Hc). lia.
      * split; [|done]. intros _. exists le, ll. split; [done|].
        destruct E as [E|E]; bool_prop; lia.
    + split; [done|]. by intros (? & ? & ? & _).
    + split; [done|]. by intros (? & ? & ? & _).
Qed.

(** Resolving an INFO alert emits its recovery at WARN, because level zero
    reads as an unset level. *)
Lemma info_alert_recovers_at_warn cfg sink t1 t2 kind key msg :
  let '(out, m) := notifyAt t1 LevelInfo kind key msg [] (newManager cfg sink) in
  map e_level out = [LevelInfo] /\
  map e_level (resolveAt t2 kind key msg [] m).1 = [LevelWarn].
Proof.
  unfold notifyAt, newManager. cbn [m_state]. rewrite lookup_empty. simpl.
  split; [done|]. unfold resolveAt. simpl. by rewrite lookup_insert_eq.
Qed.
