(* ===== verification/Tier.v ===== *)
(** * Provider verdicts and preference tiers
      (gateway/internal/netif/health.go, tier.go, internal/statuspush/statuspush.go)

    The health state file the modules exchange, the selection of the active tier
    that routing and steering share, and the status the gateway pushes to the
    hypervisor watchdog. *)

From S2P Require Import Prelude GoStrings.
From Stdlib Require Import Ascii.

Local Open Scope string_scope.

Definition HealthStateHealthy : string := "healthy".
Definition HealthStateUnhealthy : string := "unhealthy".
Definition HealthStateUnknown : string := "unknown".

Abbreviation HealthStates := (gmap string string).

(** The longest line [bufio.Scanner] accepts is one byte short of its buffer. *)
Definition max_scan_token : nat := Z.to_nat 65536.

(** One scanned line of the state file: blank lines and lines without a colon
    are skipped, a later line for the same WAN replaces an earlier one. *)
Definition read_line (states : HealthStates) (raw : string) : HealthStates :=
  let line := trim_space raw in
  if bool_decide (line = "") then states
  else match cut ":"%char line with
       | None => states
       | Some (wanName, state) => <[trim_space wanName := trim_space state]> states
       end.

Fixpoint read_lines (states : HealthStates) (lines : list string) : res HealthStates :=
  match lines with
  | [] => Ok states
  | raw :: lines =>
      if bool_decide (max_scan_token <= String.length raw)%nat
      then Err "scan health state: bufio.Scanner: token too long"
      else read_lines (read_line states raw) lines
  end.

(** The outcome of opening the file. *)
Inductive file_read := FileData (contents : string) | FileNotExist | FileError (e : error).

Definition ReadHealthState (file : file_read) : res HealthStates :=
  match file with
  | FileNotExist => Ok ∅
  | FileError e => Err ("open health state: " ++ e)
  | FileData contents => read_lines ∅ (split newline contents)
  end.

Definition State (s : HealthStates) (wanName : string) : string :=
  match s !! wanName with Some state => state | None => HealthStateUnknown end.

Definition HealthIsHealthy (state : string) : bool :=
  negb (bool_decide (state = HealthStateUnhealthy)).

(** ** Tiers *)

Record TierMember := mkTierMember { tm_Name : string; tm_Tier : Z }.

Definition ActiveTier_step (health : HealthStates) (acc : Z * bool) (m : TierMember) : Z * bool :=
  let '(active, found) := acc in
  if negb (HealthIsHealthy (State health (tm_Name m))) then acc
  else if negb found || (tm_Tier m <? active)%Z then (tm_Tier m, true)
  else acc.

(** The lowest tier with a usable member, and whether there is one. *)
Definition ActiveTier (members : list TierMember) (health : HealthStates) : Z * bool :=
  fold_left (ActiveTier_step health) members (0%Z, false).

(** ** The pushed status *)

Record Status := mkStatus {
  SentAt : Z;
  st_ActiveTier : Z;
  Providers : HealthStates;
}.

Definition known_verdict (v : string) : string :=
  if bool_decide (v = HealthStateHealthy) || bool_decide (v = HealthStateUnhealthy)
     || bool_decide (v = HealthStateUnknown)
  then v else HealthStateUnknown.

Definition NewStatus (sentAt : Z) (members : list TierMember) (states : HealthStates) : Status :=
  let verdicts := fold_left (fun (vs : HealthStates) m =>
    <[tm_Name m := known_verdict (State states (tm_Name m))]> vs) members ∅ in
  mkStatus sentAt (ActiveTier members verdicts).1 verdicts.

(** ** Lemmas *)

Definition usable (health : HealthStates) (m : TierMember) : Prop :=
  HealthIsHealthy (State health (tm_Name m)) = true.

(** [t] is the least tier of a usable member. *)
Definition least_usable_tier (members : list TierMember) (health : HealthStates) (t : Z) : Prop :=
  (exists m, m ∈ members /\ usable health m /\ tm_Tier m = t) /\
  (forall m, m ∈ members -> usable health m -> (t <= tm_Tier m)%Z).

Lemma ActiveTier_snoc members m health :
  ActiveTier (members ++ [m])%list health
  = ActiveTier_step health (ActiveTier members health) m.
Proof. apply fold_left_snoc. Qed.

Lemma elem_of_snoc {A} (x y : A) l : x ∈ (l ++ [y])%list <-> x ∈ l \/ x = y.
Proof. rewrite elem_of_app, list_elem_of_singleton. done. Qed.

Lemma ActiveTier_spec members health :
  match ActiveTier members health with
  | (t, true) => least_usable_tier members health t
  | (t, false) => t = 0%Z /\ forall m, m ∈ members -> ~ usable health m
  end.
Proof.
  induction members as [|m members IH] using rev_ind.
  { simpl. split; [done|]. intros m Hm. by apply not_elem_of_nil in Hm. }
  rewrite ActiveTier_snoc. unfold ActiveTier_step.
  destruct (ActiveTier members health) as [t found].
  destruct (HealthIsHealthy (State health (tm_Name m))) eqn:Eh; simpl.
  - destruct found; simpl; [destruct (Z.ltb_spec (tm_Tier m) t)|].
    + split; [exists m; rewrite elem_of_snoc; auto|].
      intros m'. rewrite elem_of_snoc. intros [Hm'| ->] Hu; [|lia].
      apply (proj2 IH) in Hu; [lia|done].
    + destruct IH as [(m0 & H0 & Hu0 & <-) Hmin].
      split; [exists m0; rewrite elem_of_snoc; auto|].
      intros m'. rewrite elem_of_snoc. intros [Hm'| ->] Hu; [by apply Hmin|lia].
    + split; [exists m; rewrite elem_of_snoc; auto|].
      intros m'. rewrite elem_of_snoc. intros [Hm'| ->] Hu; [|lia].
      by apply (proj2 IH) in Hu.
  - destruct found; simpl.
    + destruct IH as [(m0 & H0 & Hu0 & <-) Hmin].
      split; [exists m0; rewrite elem_of_snoc; auto|].
      intros m'. rewrite elem_of_snoc. intros [Hm'| ->] Hu; [by apply Hmin|].
      unfold usable in Hu. congruence.
    + destruct IH as [-> Hnone]. split; [done|].
      intros m'. rewrite elem_of_snoc. intros [Hm'| ->] Hu; [by apply Hnone in Hu|].
      unfold usable in Hu. congruence.
Qed.

(** The active tier is the lowest-numbered tier that holds a member whose
    verdict is not unhealthy, and no tier is reported exactly when every member is
    unhealthy; an unknown verdict counts as usable. *)
Lemma active_tier_is_least_usable members health :
  (forall t, ActiveTier members health = (t, true) <-> least_usable_tier members health t) /\
  ((ActiveTier members health).2 = false <->
   forall m, m ∈ members -> State health (tm_Name m) = HealthStateUnhealthy).
Proof.
  assert (forall m, ~ usable health m <-> State health (tm_Name m) = HealthStateUnhealthy) as Hu.
  { intros m. unfold usable, HealthIsHealthy. case_bool_decide; simpl; split; done. }
  pose proof (ActiveTier_spec members health) as Hs.
  destruct (ActiveTier members health) as [t []]; split; simpl.
  - intros t'. split; [by intros [= <-]|]. intros [(m & Hm & Hum & <-) Hmin].
    destruct Hs as [(m0 & H0 & Hu0 & <-) Hmin0]. f_equal.
    apply Z.le_antisymm; [by apply Hmin0|by apply Hmin].
  - split; [done|]. intros H. destruct Hs as [(m & Hm & Hum & _) _].
    by apply H, Hu in Hm.
  - intros t'. split; [done|]. intros [(m & Hm & Hum & _) _]. by apply Hs in Hum.
  - split; [|done]. intros _ m Hm. by apply Hu, Hs.
Qed.

Lemma verdicts_lookup (states : HealthStates) members vs name :
  fold_left (fun (vs : HealthStates) m =>
    <[tm_Name m := known_verdict (State states (tm_Name m))]> vs) members vs !! name
  = if bool_decide (name ∈ map tm_Name members)
    then Some (known_verdict (State states name)) else vs !! name.
Proof.
  revert vs. induction members as [|m members IH]; intros vs; cbn [fold_left map].
  { by rewrite bool_decide_false by (apply not_elem_of_nil). }
  rewrite IH. destruct (decide (name = tm_Name m)) as [->|Hne].
  - rewrite (bool_decide_true (tm_Name m ∈ tm_Name m :: _)) by set_solver.
    case_bool_decide; [done|]. by simplify_map_eq.
  - rewrite lookup_insert_ne by done.
    rewrite (bool_decide_ext (name ∈ tm_Name m :: _) (name ∈ map tm_Name members));
      [done|set_solver].
Qed.

Lemma ActiveTier_agree members h1 h2 :
  (forall m, m ∈ members ->
     HealthIsHealthy (State h1 (tm_Name m)) = HealthIsHealthy (State h2 (tm_Name m))) ->
  ActiveTier members h1 = ActiveTier members h2.
Proof.
  induction members as [|m members IH] using rev_ind; intros H; [done|].
  rewrite !ActiveTier_snoc, IH.
  - unfold ActiveTier_step. rewrite (H m); [done|]. rewrite elem_of_snoc. auto.
  - intros m' Hm'. apply H. rewrite elem_of_snoc. auto.
Qed.

(** The pushed status lists every configured provider with one of the three
    known verdicts (an unrecognised state reads unknown), and the tier it reports
    is the tier routing and steering select from the same states. *)
Lemma pushed_status_agrees sentAt members states :
  let s := NewStatus sentAt members states in
  (forall name, Providers s !! name
     = if bool_decide (name ∈ map tm_Name members)
       then Some (known_verdict (State states name)) else None) /\
  (forall name v, Providers s !! name = Some v ->
     v = HealthStateHealthy \/ v = HealthStateUnhealthy \/ v = HealthStateUnknown) /\
  st_ActiveTier s = (ActiveTier members states).1.
Proof.
  assert (forall v, known_verdict v = HealthStateHealthy \/ known_verdict v = HealthStateUnhealthy
                    \/ known_verdict v = HealthStateUnknown) as Hk.
  { intros v. unfold known_verdict. repeat case_bool_decide; auto. }
  assert (forall v, HealthIsHealthy (known_verdict v) = HealthIsHealthy v) as Hh.
  { intros v. unfold known_verdict, HealthIsHealthy.
    destruct (bool_decide_reflect (v = HealthStateHealthy)); [done|].
    destruct (bool_decide_reflect (v = HealthStateUnhealthy)) as [->|]; [done|].
    destruct (bool_decide_reflect (v = HealthStateUnknown)) as [->|]; [done|].
    done. }
  assert (forall name, Providers (NewStatus sentAt members states) !! name
     = if bool_decide (name ∈ map tm_Name members)
       then Some (known_verdict (State states name)) else None) as Hl.
  { intros name. unfold NewStatus. cbn [Providers]. by rewrite verdicts_lookup, lookup_empty. }
  split; [done|]. split.
  - intros name v. simpl in Hl. rewrite Hl. case_bool_decide; [|done]. intros [= <-]. apply Hk.
  - simpl. f_equal. apply ActiveTier_agree. intros m Hm. unfold State at 1.
    rewrite verdicts_lookup, bool_decide_true; [apply Hh|].
    by apply list_elem_of_fmap_2.
Qed.
