(* ===== verification/Health.v ===== *)
(** * The health module
      (gateway/internal/ifmgr/modules/health/{health,config,state,family}.go,
       internal/ifmgr/wanref.go)

    Every cycle the module probes each WAN over the address families it carries,
    advances a hysteresis state per WAN and per family, writes the verdicts to the
    state file, publishes them to the live state and the hypervisor watchdog, and
    raises or resolves alerts.  The probes, the clock and the file system are the
    operations of a class over an abstract world; everything the module does to the
    outside is recorded, newest first, in a log of effects.  The model is of a
    module whose [Init] has run, so the injected clock is set. *)

From S2P Require Import Prelude GoStrings Effects NptPolicy Tier Notify.
From Stdlib Require Import Ascii.

Local Open Scope Z_scope.

(** ** Data *)

Abbreviation HState := string (only parsing).
Definition StateUnknown : HState := "unknown".
Definition StateHealthy : HState := "healthy".
Definition StateUnhealthy : HState := "unhealthy".

Definition Valid (s : HState) : bool :=
  bool_decide (s = StateUnknown) || bool_decide (s = StateHealthy)
  || bool_decide (s = StateUnhealthy).

Record WANRef := mkWANRef { ref_ID : string; ref_Name : string; ref_Iface : string }.

Definition Key (w : WANRef) : string :=
  if bool_decide (ref_ID w <> ""%string) then ref_ID w else ref_Name w.

(** A nil slice is [None]: for the target lists nil and empty differ. *)
Record WAN := mkWAN {
  wan_ref : WANRef;
  wan_Tier : Z;
  wan_TargetsV4 : option (list Addr);
  wan_TargetsV6 : option (list Addr);
  wan_HTTPURLs : list string;
  wan_PingCount : Z;
  wan_SuccessThreshold : Z;
  wan_FailureThreshold : Z;
  wan_RecoveryThreshold : Z;
  wan_CheckInterval : Z;
}.

Definition wan_key (w : WAN) : string := Key (wan_ref w).
Definition Iface (w : WAN) : string := ref_Iface (wan_ref w).

(** The result of the recurring observations' own validation stands for the
    settings, [None] for a nil pointer: the module only asks whether they are
    present and whether they validate. *)
Record Config := mkConfig {
  Observations : option (res unit);
  StateFile : string;
  TargetsV4 : list Addr;
  TargetsV6 : list Addr;
  HTTPURLs : list string;
  Timeout : Z;
  Interval : Z;
  PingCount : Z;
  SuccessThreshold : Z;
  FailureThreshold : Z;
  RecoveryThreshold : Z;
  StatusPushCID : Z;
  StatusPushPort : Z;
  WANs : list WAN;
}.

Definition targetsV4 (wan : WAN) (cfg : Config) : list Addr :=
  match wan_TargetsV4 wan with Some l => l | None => TargetsV4 cfg end.
Definition targetsV6 (wan : WAN) (cfg : Config) : list Addr :=
  match wan_TargetsV6 wan with Some l => l | None => TargetsV6 cfg end.
Definition httpURLs (wan : WAN) (cfg : Config) : list string :=
  match wan_HTTPURLs wan with [] => HTTPURLs cfg | l => l end.

(** An override of zero inherits the module-wide value. *)
Definition override (own inherited : Z) : Z := if own =? 0 then inherited else own.
Definition pingCount (wan : WAN) (cfg : Config) : Z :=
  override (wan_PingCount wan) (PingCount cfg).
Definition successThreshold (wan : WAN) (cfg : Config) : Z :=
  override (wan_SuccessThreshold wan) (SuccessThreshold cfg).
Definition failureThreshold (wan : WAN) (cfg : Config) : Z :=
  override (wan_FailureThreshold wan) (FailureThreshold cfg).
Definition recoveryThreshold (wan : WAN) (cfg : Config) : Z :=
  override (wan_RecoveryThreshold wan) (RecoveryThreshold cfg).

(** ** Configuration *)

Definition defaultStateFile : string := "/var/run/mwan-health.state".
Definition defaultTargetsV4 : list Addr := [Addr4 [1;1;1;1]; Addr4 [8;8;8;8]].
Definition defaultTargetsV6 : list Addr :=
  [Addr6 [38;6;71;0;71;0;0;0;0;0;0;0;0;0;17;17] "";
   Addr6 [32;1;72;96;72;96;0;0;0;0;0;0;0;0;136;136] ""].

Definition StateFilePath (cfg : Config) : string :=
  if bool_decide (StateFile cfg = ""%string) then defaultStateFile else StateFile cfg.

Definition TierMembers (cfg : Config) : list TierMember :=
  map (fun wan => mkTierMember (wan_key wan) (wan_Tier wan)) (WANs cfg).

Definition nonempty_or {A} (l default : list A) : list A :=
  match l with [] => default | _ => l end.

Definition applyDefaults (cfg : Config) : Config :=
  mkConfig (Observations cfg) (StateFilePath cfg)
    (nonempty_or (TargetsV4 cfg) defaultTargetsV4)
    (nonempty_or (TargetsV6 cfg) defaultTargetsV6)
    (HTTPURLs cfg)
    (override (Timeout cfg) (2 * Second))
    (override (Interval cfg) (10 * Second))
    (override (PingCount cfg) 3)
    (override (SuccessThreshold cfg) 2)
    (override (FailureThreshold cfg) 2)
    (override (RecoveryThreshold cfg) 2)
    (StatusPushCID cfg) (StatusPushPort cfg) (WANs cfg).

(** [errors.Join] of the faults found: nil exactly when there is none. *)
Inductive config_error :=
| ObservationsRejected (e : error)
| StateFileRequired | TargetsV6Required | TargetsV4Required
| TimeoutNotPositive | IntervalNotPositive | PingCountNotPositive
| SuccessThresholdNotPositive | SuccessThresholdExceedsTargets
| FailureThresholdNotPositive | RecoveryThresholdNotPositive
| WANIDRequired (i : nat) | WANIfaceRequired (i : nat)
| WANDuplicateID (i : nat) (id : string) | WANDuplicateIface (i : nat) (iface : string)
| WANSuccessThresholdNotPositive (i : nat) | WANTargetsRequired (i : nat)
| WANSuccessThresholdExceedsTargets (i : nat) | WANPingCountNotPositive (i : nat)
| WANFailureThresholdNotPositive (i : nat) | WANRecoveryThresholdNotPositive (i : nat).

Definition fault (cond : bool) (e : config_error) : list config_error :=
  if cond then [e] else [].

Definition len {A} (l : list A) : Z := Z.of_nat (length l).

Definition validateProbeConfig (cfg : Config) : list config_error :=
  fault (bool_decide (StateFile cfg = ""%string)) StateFileRequired ++
  fault (len (TargetsV6 cfg) =? 0) TargetsV6Required ++
  fault (len (TargetsV4 cfg) =? 0) TargetsV4Required ++
  fault (Timeout cfg <=? 0) TimeoutNotPositive ++
  fault (Interval cfg <=? 0) IntervalNotPositive ++
  fault (PingCount cfg <=? 0) PingCountNotPositive ++
  fault (SuccessThreshold cfg <=? 0) SuccessThresholdNotPositive ++
  fault ((len (TargetsV6 cfg) <? SuccessThreshold cfg)
         || (len (TargetsV4 cfg) <? SuccessThreshold cfg)) SuccessThresholdExceedsTargets ++
  fault (FailureThreshold cfg <=? 0) FailureThresholdNotPositive ++
  fault (RecoveryThreshold cfg <=? 0) RecoveryThresholdNotPositive.

(** One iteration of the loop of [validateWANs] over [seenIDs] and [seenIfaces]. *)
Definition validateWAN (cfg : Config) (i : nat) (seenIDs seenIfaces : gset string) (wan : WAN)
    : list config_error :=
  let threshold := successThreshold wan cfg in
  let n6 := len (targetsV6 wan cfg) in
  let n4 := len (targetsV4 wan cfg) in
  fault (bool_decide (wan_key wan = ""%string)) (WANIDRequired i) ++
  fault (bool_decide (Iface wan = ""%string)) (WANIfaceRequired i) ++
  fault (bool_decide (wan_key wan ∈ seenIDs)) (WANDuplicateID i (wan_key wan)) ++
  fault (bool_decide (Iface wan ∈ seenIfaces)) (WANDuplicateIface i (Iface wan)) ++
  fault (threshold <=? 0) (WANSuccessThresholdNotPositive i) ++
  fault ((n6 =? 0) && (n4 =? 0)) (WANTargetsRequired i) ++
  fault (((0 <? n6) && (n6 <? threshold)) || ((0 <? n4) && (n4 <? threshold)))
    (WANSuccessThresholdExceedsTargets i) ++
  fault (pingCount wan cfg <=? 0) (WANPingCountNotPositive i) ++
  fault (failureThreshold wan cfg <=? 0) (WANFailureThresholdNotPositive i) ++
  fault (recoveryThreshold wan cfg <=? 0) (WANRecoveryThresholdNotPositive i).

Fixpoint validateWANs_loop (cfg : Config) (i : nat) (seenIDs seenIfaces : gset string)
    (wans : list WAN) : list config_error :=
  match wans with
  | [] => []
  | wan :: wans =>
      validateWAN cfg i seenIDs seenIfaces wan ++
      validateWANs_loop cfg (S i) ({[wan_key wan]} ∪ seenIDs) ({[Iface wan]} ∪ seenIfaces) wans
  end.

Definition validateWANs (cfg : Config) : list config_error :=
  validateWANs_loop cfg 0 ∅ ∅ (WANs cfg).

Definition validateConfig (cfg : Config) : list config_error :=
  match Observations cfg with
  | Some (Err e) => [ObservationsRejected e]
  | obs =>
      if (len (WANs cfg) =? 0) && (match obs with Some _ => true | None => false end) then []
      else validateProbeConfig cfg ++ validateWANs cfg
  end.

(** ** Hysteresis *)

Record wanStatus := mkWanStatus { ws_State : HState; OKCount : Z; FailCount : Z }.
Definition wanStatus_zero : wanStatus := mkWanStatus "" 0 0.

#[global] Instance wanStatus_eq_dec : EqDecision wanStatus.
Proof. solve_decision. Defined.

Definition advanceHealth (current : wanStatus) (cyclePassed : bool)
    (failureThreshold recoveryThreshold : Z) : wanStatus * bool :=
  let next :=
    if cyclePassed then
      let ok := incr (OKCount current) in
      mkWanStatus
        (if bool_decide (ws_State current = StateUnknown) || (recoveryThreshold <=? ok)
         then StateHealthy else ws_State current) ok 0
    else
      let fail := incr (FailCount current) in
      mkWanStatus
        (if failureThreshold <=? fail then StateUnhealthy else ws_State current) 0 fail in
  (next, negb (bool_decide (ws_State next = ws_State current))).

Record familyStatuses := mkFamilyStatuses { fs_v4 : wanStatus; fs_v6 : wanStatus }.
Definition familyStatuses_zero : familyStatuses :=
  mkFamilyStatuses wanStatus_zero wanStatus_zero.

Definition advanceFamily (wan : WAN) (cfg : Config) (current : wanStatus) (probed passed : bool)
    : wanStatus * bool :=
  if negb probed then (current, false)
  else
    let current :=
      if Valid (ws_State current) then current
      else mkWanStatus StateUnknown (OKCount current) (FailCount current) in
    advanceHealth current passed (failureThreshold wan cfg) (recoveryThreshold wan cfg).

Record probeResult := mkProbeResult {
  Passed : bool;
  V6Probed : bool;
  V4Probed : bool;
  V6Passed : bool;
  V4Passed : bool;
  V6Successes : Z;
  V4Successes : Z;
  HTTP6Successes : Z;
  HTTP4Successes : Z;
}.

Record transition := mkTransition { tr_WAN : WAN; tr_From : HState; tr_To : HState }.

(** ** The live state's types (gateway/internal/wanstate) *)

Abbreviation wanHealth := string (only parsing).
Definition HealthUnknown : wanHealth := "unknown".
Definition HealthHealthy : wanHealth := "healthy".
Definition HealthUnhealthy : wanHealth := "unhealthy".
Abbreviation ProbeResult := string (only parsing).
Definition ProbeNone : ProbeResult := "none".
Definition ProbePass : ProbeResult := "pass".
Definition ProbeFail : ProbeResult := "fail".

Record MemberHealth := mkMemberHealth {
  Verdict : wanHealth;
  ConsecutiveFailures : Z;
  mh_LastTransition : Z;
  mh_V4 : ProbeResult;
  mh_V6 : ProbeResult;
  V4Verdict : wanHealth;
  V6Verdict : wanHealth;
}.

Definition verdictOf (state : HState) : wanHealth :=
  if bool_decide (state = StateHealthy) then HealthHealthy
  else if bool_decide (state = StateUnhealthy) then HealthUnhealthy
  else HealthUnknown.

Definition legResult (pingSuccesses httpSuccesses threshold : Z) : ProbeResult :=
  if (threshold <=? pingSuccesses) || (1 <=? httpSuccesses) then ProbePass else ProbeFail.

Definition MemberHealth_zero : MemberHealth := mkMemberHealth "" 0 zero_time "" "" "" "".

(** ** The module *)

(** The services of the daemon the module may find absent. *)
Record Env := mkEnv {
  has_VerifyDHCPv4 : bool;
  has_LiveState : bool;
  has_RequestReconcile : bool;
  has_Alerts : bool;
}.

Record Module := mkModule {
  m_cfg : Config;
  m_env : Env;
  m_pusher : bool;
  reconcilePending : bool;
  reconcileCycleRunning : bool;
  statuses : gmap string wanStatus;
  lastTransition : gmap string Z;
  families : gmap string familyStatuses;
}.

Definition with_statuses (ss : gmap string wanStatus) (m : Module) : Module :=
  mkModule (m_cfg m) (m_env m) (m_pusher m) (reconcilePending m) (reconcileCycleRunning m)
    ss (lastTransition m) (families m).
Definition with_lastTransition (lt : gmap string Z) (m : Module) : Module :=
  mkModule (m_cfg m) (m_env m) (m_pusher m) (reconcilePending m) (reconcileCycleRunning m)
    (statuses m) lt (families m).
Definition with_families (fs : gmap string familyStatuses) (m : Module) : Module :=
  mkModule (m_cfg m) (m_env m) (m_pusher m) (reconcilePending m) (reconcileCycleRunning m)
    (statuses m) (lastTransition m) fs.
Definition with_reconcile (pending running : bool) (m : Module) : Module :=
  mkModule (m_cfg m) (m_env m) (m_pusher m) pending running
    (statuses m) (lastTransition m) (families m).

(** What a cycle does to the rest of the system. *)
Inductive effect :=
| Pinged (v6 : bool) (iface : string) (target : Addr)
| Fetched (v6 : bool) (iface url : string)
| StateFileWritten (path contents : string)
| VerifyDHCPv4_Notify (iface : string)
| LiveState_SetHealth (members : gmap string MemberHealth)
| LiveState_NotifyHealthTransition (key : string) (from to : wanHealth)
| RequestReconcile (reason : string)
| Alerts_Notify (now level : Z) (kind key msg : string)
| Alerts_Resolve (now : Z) (kind key msg : string)
| Pusher_Send (status : Status).

(** The probes, the clock and the file system. *)
Class HealthWorld (W : Type) := {
  ping : bool -> string -> Addr -> Z -> W -> res Z * W;
  httpCheck : bool -> string -> string -> Z -> W -> res Z * W;
  clockNow : W -> Z * W;
  atomicWrite : string -> string -> W -> res unit * W;
}.

Record sys (W : Type) := mkSys { mod_ : Module; world : W; log_ : list effect }.
Arguments mkSys {W}.
Arguments mod_ {W}.
Arguments world {W}.
Arguments log_ {W}.

Section Cycle.
Context {W : Type} `{HealthWorld W}.

Abbreviation HM := (M (sys W)).

Definition emit_effect (e : effect) : HM unit :=
  modify (fun s => mkSys (mod_ s) (world s) (e :: log_ s)).
Definition set_mod (f : Module -> Module) : HM unit :=
  modify (fun s => mkSys (f (mod_ s)) (world s) (log_ s)).
Definition ask {A} (f : W -> A * W) : HM A :=
  fun s => let '(a, w) := f (world s) in (a, mkSys (mod_ s) w (log_ s)).
Definition cfgOf : HM Config := gets (fun s => m_cfg (mod_ s)).
Definition envOf (f : Env -> bool) : HM bool := gets (fun s => f (m_env (mod_ s))).

(** [initStatuses]. *)
Definition initStatuses (m : Module) : Module :=
  with_statuses (fold_left (fun ss wan =>
    <[wan_key wan := mkWanStatus StateUnknown 0 0]> ss) (WANs (m_cfg m)) ∅) m.

(** *** Probing *)

(** The attempts of [probeTargets] at one target: all of them are made. *)
Definition probeTarget (v6 : bool) (wan : WAN) (cfg : Config) (target : Addr) : HM bool :=
  foldM (fun reached (_ : nat) =>
    r ← ask (ping v6 (Iface wan) target (Timeout cfg));
    emit_effect (Pinged v6 (Iface wan) target) ;;
    mret (reached || is_ok r))
    false (seq 0 (Z.to_nat (pingCount wan cfg))).

Definition probeTargets (v6 : bool) (wan : WAN) (targets : list Addr) : HM Z :=
  cfg ← cfgOf;
  foldM (fun successes target =>
    reached ← probeTarget v6 wan cfg target;
    mret (if (reached : bool) then incr successes else successes)) 0 targets.

Definition probeHTTPURLs (v6 : bool) (wan : WAN) : HM Z :=
  cfg ← cfgOf;
  foldM (fun successes url =>
    r ← ask (httpCheck v6 (Iface wan) url (Timeout cfg));
    emit_effect (Fetched v6 (Iface wan) url) ;;
    mret (if is_ok r then incr successes else successes)) 0 (httpURLs wan cfg).

(** The two probes of one family, made only when the provider carries it. *)
Definition probeFamily (v6 : bool) (wan : WAN) (targets : list Addr) : HM (Z * Z) :=
  if 0 <? len targets then
    pings ← probeTargets v6 wan targets;
    fetches ← probeHTTPURLs v6 wan;
    mret (pings, fetches)
  else mret (0, 0).

Definition leg_passed (probed : bool) (counts : Z * Z) (threshold : Z) : bool :=
  probed && ((threshold <=? counts.1) || (1 <=? counts.2)).

Definition probeWAN (wan : WAN) : HM probeResult :=
  cfg ← cfgOf;
  let v6Targets := targetsV6 wan cfg in
  let v4Targets := targetsV4 wan cfg in
  let v6Probed := 0 <? len v6Targets in
  let v4Probed := 0 <? len v4Targets in
  c6 ← probeFamily true wan v6Targets;
  c4 ← probeFamily false wan v4Targets;
  let threshold := successThreshold wan cfg in
  let v6Passed := leg_passed v6Probed c6 threshold in
  let v4Passed := leg_passed v4Probed c4 threshold in
  mret (mkProbeResult (v6Passed || v4Passed) v6Probed v4Probed v6Passed v4Passed
          c6.1 c4.1 c6.2 c4.2).

(** *** The per-family hysteresis *)

Definition familiesOf (m : Module) (key : string) : familyStatuses :=
  default familyStatuses_zero (families m !! key).

Definition advanceFamilies (wan : WAN) (result : probeResult) : HM bool :=
  m ← gets mod_;
  let current := familiesOf m (wan_key wan) in
  let '(v4, v4Changed) :=
    advanceFamily wan (m_cfg m) (fs_v4 current) (V4Probed result) (V4Passed result) in
  let '(v6, v6Changed) :=
    advanceFamily wan (m_cfg m) (fs_v6 current) (V6Probed result) (V6Passed result) in
  whenM (v4Changed && bool_decide (ws_State v4 = StateUnhealthy) && has_VerifyDHCPv4 (m_env m))
    (emit_effect (VerifyDHCPv4_Notify (Iface wan))) ;;
  set_mod (fun m => with_families (<[wan_key wan := mkFamilyStatuses v4 v6]> (families m)) m) ;;
  mret (v4Changed || v6Changed).

(** *** State file *)

Definition valid_state (ss : gmap string wanStatus) (key : string) : HState :=
  match ss !! key with
  | Some status => if Valid (ws_State status) then ws_State status else StateUnknown
  | None => StateUnknown
  end.

Definition serialize_line (ss : gmap string wanStatus) (wan : WAN) : string :=
  (wan_key wan +:+ ":" +:+ valid_state ss (wan_key wan))%string.

Definition serializeState (cfg : Config) (ss : gmap string wanStatus) : string :=
  concat_strings (map (fun wan => (serialize_line ss wan +:+ String newline ""))%string (WANs cfg)).

Definition writeStateFile (ss : gmap string wanStatus) : HM (res unit) :=
  cfg ← cfgOf;
  let contents := serializeState cfg ss in
  r ← ask (atomicWrite (StateFile cfg) contents);
  match r with
  | Err e => mret (Err ("write runtime state: " +:+ e)%string)
  | Ok _ => emit_effect (StateFileWritten (StateFile cfg) contents) ;; mret (Ok tt)
  end.

(** *** Publication *)

Definition member_health (m : Module) (ss : gmap string wanStatus)
    (results : gmap string probeResult) (wan : WAN) : MemberHealth :=
  let key := wan_key wan in
  let status := default wanStatus_zero (ss !! key) in
  let threshold := successThreshold wan (m_cfg m) in
  mkMemberHealth
    (verdictOf (ws_State status))
    (if (0 <? FailCount status) && (FailCount status <=? 4294967295) then FailCount status else 0)
    (default zero_time (lastTransition m !! key))
    (match results !! key with
     | Some r => if V4Probed r then legResult (V4Successes r) (HTTP4Successes r) threshold
                 else ProbeNone
     | None => ProbeNone end)
    (match results !! key with
     | Some r => if V6Probed r then legResult (V6Successes r) (HTTP6Successes r) threshold
                 else ProbeNone
     | None => ProbeNone end)
    (verdictOf (ws_State (fs_v4 (familiesOf m key))))
    (verdictOf (ws_State (fs_v6 (familiesOf m key)))).

Definition live_members (m : Module) (ss : gmap string wanStatus)
    (results : gmap string probeResult) : gmap string MemberHealth :=
  fold_left (fun members wan => <[wan_key wan := member_health m ss results wan]> members)
    (WANs (m_cfg m)) ∅.

Definition publishLiveState (ss : gmap string wanStatus) (results : gmap string probeResult)
    : HM unit :=
  m ← gets mod_;
  whenM (has_LiveState (m_env m))
    (emit_effect (LiveState_SetHealth (live_members m ss results))).

Definition push_states (cfg : Config) (ss : gmap string wanStatus) : HealthStates :=
  fold_left (fun states wan => <[wan_key wan := valid_state ss (wan_key wan)]> states)
    (WANs cfg) ∅.

Definition pushStatus (ss : gmap string wanStatus) : HM unit :=
  m ← gets mod_;
  whenM (m_pusher m)
    (now ← ask clockNow;
     emit_effect (Pusher_Send
       (NewStatus now (TierMembers (m_cfg m)) (push_states (m_cfg m) ss)))).

Definition alertKindWANUnhealthy : string := "wan-health".

Definition emitTransition (event : transition) : HM unit :=
  env ← gets (fun s => m_env (mod_ s));
  let wan := tr_WAN event in
  whenM (has_LiveState env)
    (emit_effect (LiveState_NotifyHealthTransition (wan_key wan)
       (verdictOf (tr_From event)) (verdictOf (tr_To event)))) ;;
  whenM (has_RequestReconcile env)
    (emit_effect (RequestReconcile
       ("health " +:+ ref_Name (wan_ref wan) +:+ " " +:+ tr_From event +:+ "->" +:+ tr_To event)%string)) ;;
  whenM (has_Alerts env)
    (now ← ask clockNow;
     if bool_decide (tr_To event = StateUnhealthy) then
       emit_effect (Alerts_Notify now LevelWarn alertKindWANUnhealthy (wan_key wan)
         "health: WAN became unhealthy")
     else if bool_decide (tr_To event = StateHealthy)
             && negb (bool_decide (tr_From event = StateUnknown)) then
       emit_effect (Alerts_Resolve now alertKindWANUnhealthy (wan_key wan)
         "health: WAN recovered")
     else mret tt).

Definition emitTransitions (ts : list transition) : HM unit := forM ts emitTransition.

(** *** The cycle *)

(** The loop-carried variables of [runCycle]. *)
Record cycle := mkCycle {
  nextStatuses : gmap string wanStatus;
  transitions : list transition;
  results : gmap string probeResult;
  familyChanged : bool;
}.

Definition cycle_wan (c : cycle) (wan : WAN) : HM cycle :=
  result ← probeWAN wan;
  cfg ← cfgOf;
  let key := wan_key wan in
  let current := default wanStatus_zero (nextStatuses c !! key) in
  let '(next, changed) :=
    advanceHealth current (Passed result) (failureThreshold wan cfg) (recoveryThreshold wan cfg) in
  fc ← advanceFamilies wan result;
  let ts := if (changed : bool)
            then (transitions c ++ [mkTransition wan (ws_State current) (ws_State next)])%list
            else transitions c in
  whenM changed
    (now ← ask clockNow;
     set_mod (fun m => with_lastTransition (<[key := now]> (lastTransition m)) m)) ;;
  mret (mkCycle (<[key := next]> (nextStatuses c)) ts (<[key := result]> (results c))
          (fc || familyChanged c)).

Definition runCycle : HM (res unit) :=
  m ← gets mod_;
  c ← foldM cycle_wan (mkCycle (statuses m) [] ∅ false) (WANs (m_cfg m));
  r ← writeStateFile (nextStatuses c);
  match r with
  | Err e => mret (Err ("health: write state file: " +:+ e)%string)
  | Ok _ =>
      set_mod (with_statuses (nextStatuses c)) ;;
      publishLiveState (nextStatuses c) (results c) ;;
      emitTransitions (transitions c) ;;
      env ← gets (fun s => m_env (mod_ s));
      whenM (familyChanged c && has_RequestReconcile env)
        (emit_effect (RequestReconcile "health address family verdict changed")) ;;
      pushStatus (nextStatuses c) ;;
      mret (Ok tt)
  end.

(** *** Reconcile

    The goroutine a reconcile pass starts runs one cycle and then clears the
    running flag, asking for another cycle when this one failed.  The pass either
    sees the cycle's error or stops waiting for it; the two steps are separate
    because other passes may come in between. *)

Definition anyUnknown (m : Module) : bool :=
  existsb (fun kv => bool_decide (ws_State kv.2 = StateUnknown)) (map_to_list (statuses m)).

(** Whether this pass starts a cycle. *)
Definition Reconcile_start (m : Module) : bool * Module :=
  if (len (WANs (m_cfg m)) =? 0)
     || reconcileCycleRunning m || (negb (reconcilePending m) && negb (anyUnknown m))
  then (false, m)
  else (true, with_reconcile false true m).

Definition Reconcile_finish (cycleErr : res unit) (m : Module) : Module :=
  with_reconcile (negb (is_ok cycleErr) || reconcilePending m) false m.

Definition Reconcile_cycle : HM (res unit) :=
  cycleErr ← runCycle;
  set_mod (Reconcile_finish cycleErr) ;;
  mret cycleErr.

End Cycle.
