(* ===== verification/HealthProps.v ===== *)
(** * Properties of the health module's pure parts

    The hysteresis against the whole history of probe outcomes, the configuration that
    validation accepts, and the round trip of the state file. *)

From S2P Require Import Prelude GoStrings Effects NptPolicy Tier Notify Health.
From Stdlib Require Import Ascii.

Local Open Scope Z_scope.

(** ** Hysteresis against the history of cycles *)

(** The number of most recent cycles whose outcome was [b]. *)
Fixpoint leading (b : bool) (l : list bool) : nat :=
  match l with
  | [] => 0
  | x :: l => if bool_decide (x = b) then S (leading b l) else 0
  end.
Definition trailing (b : bool) (l : list bool) : nat := leading b (rev l).

(** The history [l] holds [n] consecutive cycles with outcome [b]. *)
Definition has_run (b : bool) (n : nat) (l : list bool) : Prop :=
  exists l1 l2, l = l1 ++ replicate n b ++ l2.

(** Some [failures] consecutive failed cycles were followed by no
    [recoveries] consecutive passed ones. *)
Definition down (failures recoveries : nat) (l : list bool) : Prop :=
  exists l1 l2, l = l1 ++ replicate failures false ++ l2 /\ ~ has_run true recoveries l2.

(** No cycle has decided: there was no pass yet and too few failures. *)
Definition undecided (failures : nat) (l : list bool) : Prop :=
  Forall (eq false) l /\ (length l < failures)%nat.

Definition health_after (failureThreshold recoveryThreshold : Z) (l : list bool) : wanStatus :=
  fold_left (fun s passed => (advanceHealth s passed failureThreshold recoveryThreshold).1)
    l (mkWanStatus StateUnknown 0 0).

Lemma trailing_snoc b l x :
  trailing b (l ++ [x]) = if bool_decide (x = b) then S (trailing b l) else 0%nat.
Proof. unfold trailing. by rewrite rev_unit. Qed.

Lemma trailing_length b l : (trailing b l <= length l)%nat.
Proof.
  induction l as [|x l IH] using rev_ind; [done|].
  rewrite trailing_snoc, length_app. simpl. case_bool_decide; lia.
Qed.

Lemma suffix_replicate_snoc n (b x : bool) l :
  replicate (S n) b `suffix_of` (l ++ [x]) <-> x = b /\ replicate n b `suffix_of` l.
Proof.
  rewrite replicate_S_end. split.
  - intros [k Hk]. rewrite app_assoc in Hk. apply app_inj_tail in Hk as [-> ->].
    split; [done|]. by exists k.
  - intros [-> [k ->]]. exists k. by rewrite app_assoc.
Qed.

Lemma trailing_suffix n b l : (n <= trailing b l)%nat <-> replicate n b `suffix_of` l.
Proof.
  revert n. induction l as [|x l IH] using rev_ind; intros n.
  - change (trailing b []) with 0%nat. split.
    + intros Hn. replace n with 0%nat by lia. done.
    + intros Hs. apply suffix_length in Hs. rewrite length_replicate in Hs. simpl in Hs. lia.
  - destruct n as [|n].
    { split; [intros _; apply suffix_nil|lia]. }
    rewrite suffix_replicate_snoc, trailing_snoc, <- IH.
    case_bool_decide; (split; [intros ?|intros [? ?]]); try done; try lia.
    split; [done|lia].
Qed.

Lemma has_run_snoc b n l x :
  has_run b n (l ++ [x]) <-> has_run b n l \/ replicate n b `suffix_of` (l ++ [x]).
Proof.
  split.
  - intros (l1 & l2 & Heq). destruct l2 as [|y l2 _] using rev_ind.
    + right. exists l1. by rewrite Heq, app_nil_r.
    + left. exists l1, l2. rewrite !app_assoc in Heq. apply app_inj_tail in Heq as [-> _].
      by rewrite app_assoc.
  - intros [(l1 & l2 & ->)|[k Hk]].
    + exists l1, (l2 ++ [x]). by rewrite !app_assoc.
    + exists k, []. by rewrite app_nil_r.
Qed.

(** After a failed cycle the trailing passes start afresh. *)
Lemma trailing_true_after l1 n l2 :
  trailing true (l1 ++ replicate (S n) false ++ l2) = trailing true l2.
Proof.
  induction l2 as [|x l2 IH] using rev_ind.
  - by rewrite app_nil_r, replicate_S_end, app_assoc, trailing_snoc.
  - rewrite !app_assoc, !trailing_snoc, <- app_assoc, IH. done.
Qed.

Lemma down_snoc_true F R l :
  (0 < F)%nat ->
  down F R (l ++ [true]) <-> down F R l /\ (trailing true (l ++ [true]) < R)%nat.
Proof.
  intros HF. destruct F as [|F]; [lia|]. split.
  - intros (l1 & l2 & Heq & Hno). destruct l2 as [|y l2 _] using rev_ind.
    { rewrite app_nil_r, replicate_S_end, app_assoc in Heq. apply app_inj_tail in Heq. by destruct Heq. }
    pose proof Heq as Heq'. rewrite !app_assoc in Heq'. apply app_inj_tail in Heq' as [-> <-].
    rewrite <- app_assoc in *. split.
    + exists l1, l2. split; [done|]. rewrite has_run_snoc in Hno. tauto.
    + rewrite <- !app_assoc, trailing_true_after.
      rewrite has_run_snoc, <- trailing_suffix in Hno. lia.
  - intros [(l1 & l2 & -> & Hno) Ht]. exists l1, (l2 ++ [true]).
    rewrite <- !app_assoc in *. split; [done|]. rewrite trailing_true_after in Ht.
    rewrite has_run_snoc, <- trailing_suffix. intros [?|?]; [done|lia].
Qed.

Lemma down_snoc_false F R l :
  (0 < R)%nat ->
  down F R (l ++ [false]) <-> down F R l \/ (F <= trailing false (l ++ [false]))%nat.
Proof.
  intros HR. destruct R as [|R]; [lia|]. split.
  - intros (l1 & l2 & Heq & Hno). destruct l2 as [|y l2 _] using rev_ind.
    { right. apply trailing_suffix. exists l1. by rewrite Heq, app_nil_r. }
    left. rewrite !app_assoc in Heq. apply app_inj_tail in Heq as [-> <-].
    exists l1, l2. split; [by rewrite app_assoc|]. rewrite has_run_snoc in Hno. tauto.
  - intros [(l1 & l2 & -> & Hno)|Ht].
    + exists l1, (l2 ++ [false]). split; [by rewrite !app_assoc|].
      rewrite has_run_snoc, suffix_replicate_snoc. intros [?|[? _]]; done.
    + apply trailing_suffix in Ht as [k ->]. exists k, []. rewrite app_nil_r. split; [done|].
      intros (l1 & l2 & Heq). destruct l1; simpl in Heq; discriminate.
Qed.

Lemma undecided_not_down F R l : (0 < F)%nat -> undecided F l -> ~ down F R l.
Proof.
  intros HF [_ Hlen] (l1 & l2 & -> & _).
  rewrite !length_app, length_replicate in Hlen. lia.
Qed.

Lemma trailing_all_false l : Forall (eq false) l -> trailing false l = length l.
Proof.
  induction l as [|x l IH] using rev_ind; intros Hl; [done|].
  apply Forall_app in Hl as [Hl Hx]. apply Forall_singleton in Hx as <-.
  rewrite trailing_snoc, length_app, IH by done. simpl. lia.
Qed.

Section Hysteresis.
Context (F R : nat).
Hypothesis HF : (0 < F)%nat.
Hypothesis HR : (0 < R)%nat.

Abbreviation after := (health_after (Z.of_nat F) (Z.of_nat R)).

Lemma health_after_snoc l x :
  after (l ++ [x]) = (advanceHealth (after l) x (Z.of_nat F) (Z.of_nat R)).1.
Proof. unfold health_after. by rewrite fold_left_snoc. Qed.

Lemma health_after_counts l :
  len l <= int64_max ->
  OKCount (after l) = Z.of_nat (trailing true l) /\
  FailCount (after l) = Z.of_nat (trailing false l).
Proof.
  unfold len. induction l as [|x l IH] using rev_ind; intros Hlen; [done|].
  rewrite length_app in Hlen. simpl in Hlen.
  destruct IH as [IHo IHf]; [lia|].
  pose proof (trailing_length true l). pose proof (trailing_length false l).
  rewrite health_after_snoc, !trailing_snoc. unfold advanceHealth.
  destruct x; cbn [fst OKCount FailCount]; rewrite ?IHo, ?IHf, incr_small by lia;
    repeat case_bool_decide; try done; lia.
Qed.

Lemma health_after_state l :
  len l <= int64_max ->
  (ws_State (after l) = StateUnknown /\ undecided F l) \/
  (ws_State (after l) = StateUnhealthy /\ down F R l) \/
  (ws_State (after l) = StateHealthy /\ ~ undecided F l /\ ~ down F R l).
Proof.
  unfold len. induction l as [|x l IH] using rev_ind; intros Hlen.
  { left. repeat split; simpl; auto. }
  rewrite length_app in Hlen. simpl in Hlen.
  destruct (health_after_counts (l ++ [x])) as [Hok Hfail].
  { unfold len. rewrite length_app. simpl. lia. }
  rewrite health_after_snoc in *. unfold advanceHealth in *.
  destruct x; cbn [fst OKCount FailCount ws_State] in *; rewrite ?Hok, ?Hfail.
  - assert (~ undecided F (l ++ [true])) as Hnu.
    { intros [Hall _]. apply Forall_app in Hall as [_ Hall].
      by inversion Hall. }
    destruct IH as [[-> Hu]|[[-> Hd]|(-> & _ & Hnd)]]; [lia| | |].
    + right; right. repeat split; [done|]. rewrite down_snoc_true by done.
      intros [? _]. by apply (undecided_not_down F R l).
    + change (bool_decide (StateUnhealthy = StateUnknown)) with false. simpl orb.
      destruct (Z.leb_spec (Z.of_nat R) (Z.of_nat (trailing true (l ++ [true])))).
      * right; right. repeat split; [done|]. rewrite down_snoc_true by done. lia.
      * right; left. split; [done|]. apply down_snoc_true; [done|]. split; [done|lia].
    + right; right. split; [by destruct (_ || _)|]. split; [done|].
      rewrite down_snoc_true by done. tauto.
  - destruct (Z.leb_spec (Z.of_nat F) (Z.of_nat (trailing false (l ++ [false])))).
    + right; left. split; [done|]. apply down_snoc_false; [done|]. right. lia.
    + destruct IH as [[-> [Hall Hl]]|[[-> Hd]|(-> & Hnu & Hnd)]]; [lia| | |].
      * left. split; [done|]. assert (Forall (eq false) (l ++ [false])) as Hall'.
        { by apply Forall_app_2; [|repeat constructor]. }
        split; [done|]. rewrite <- trailing_all_false by done. lia.
      * right; left. split; [done|]. apply down_snoc_false; auto.
      * right; right. split; [done|]. split.
        -- intros [[Hall _]%Forall_app Hl]. rewrite length_app in Hl. simpl in Hl.
           apply Hnu. split; [done|lia].
        -- rewrite down_snoc_false by done. intros [?|?]; [done|lia].
Qed.
End Hysteresis.

(** C12. The verdict after any history of probe cycles, from the counters the module
    keeps: a WAN is unhealthy exactly when some [failure_threshold] consecutive
    failed cycles were not yet followed by [recovery_threshold] consecutive passed
    ones; it is unknown exactly while no cycle has passed and fewer than
    [failure_threshold] have failed; otherwise it is healthy.  In particular
    shorter bursts of failures or recoveries never change a decided verdict. *)
Theorem hysteresis_closed_form (F R : nat) l :
  (0 < F)%nat -> (0 < R)%nat -> len l <= int64_max ->
  let state := ws_State (health_after (Z.of_nat F) (Z.of_nat R) l) in
  (state = StateUnhealthy <-> down F R l) /\
  (state = StateUnknown <-> undecided F l) /\
  (state = StateHealthy <-> ~ undecided F l /\ ~ down F R l).
Proof.
  intros HF HR Hlen. cbv zeta.
  pose proof (undecided_not_down F R l HF).
  destruct (health_after_state F R HF HR l Hlen) as [[-> ?]|[[-> ?]|(-> & ? & ?)]];
    (split; [|split]); split; intros; try done; try tauto.
Qed.

Lemma hysteresis_closed_form_witness :
  ws_State (health_after 2 2 [true; false; false; true]) = StateUnhealthy /\
  down 2 2 [true; false; false; true].
Proof.
  split; [reflexivity|].
  apply (hysteresis_closed_form 2 2 [true; false; false; true]); [lia|lia| |reflexivity].
  unfold len, int64_max. simpl. lia.
Defined.

(** ** Configuration *)

Record wan_sound (cfg : Config) (wan : WAN) : Prop := {
  ok_key : wan_key wan <> ""%string;
  ok_iface : Iface wan <> ""%string;
  ok_threshold : 0 < successThreshold wan cfg;
  ok_carries : targetsV6 wan cfg <> [] \/ targetsV4 wan cfg <> [];
  ok_reachable6 : targetsV6 wan cfg <> [] -> successThreshold wan cfg <= len (targetsV6 wan cfg);
  ok_reachable4 : targetsV4 wan cfg <> [] -> successThreshold wan cfg <= len (targetsV4 wan cfg);
  ok_pings : 0 < pingCount wan cfg;
  ok_failure : 0 < failureThreshold wan cfg;
  ok_recovery : 0 < recoveryThreshold wan cfg;
}.

Record config_sound (cfg : Config) : Prop := {
  ok_file : StateFile cfg <> ""%string;
  ok_timeout : 0 < Timeout cfg;
  ok_interval : 0 < Interval cfg;
  ok_cfg_pings : 0 < PingCount cfg;
  ok_cfg_threshold : 0 < SuccessThreshold cfg <= Z.min (len (TargetsV4 cfg)) (len (TargetsV6 cfg));
  ok_cfg_failure : 0 < FailureThreshold cfg;
  ok_cfg_recovery : 0 < RecoveryThreshold cfg;
  ok_keys : NoDup (map wan_key (WANs cfg));
  ok_ifaces : NoDup (map Iface (WANs cfg));
  ok_wans : Forall (wan_sound cfg) (WANs cfg);
}.

Lemma fault_nil b e : fault b e = [] <-> b = false.
Proof. destruct b; simpl; split; congruence. Qed.

Lemma app_nil_iff {A} (a b : list A) : a ++ b = [] <-> a = [] /\ b = [].
Proof. split; [apply app_nil|]. by intros [-> ->]. Qed.

Lemma len_zero {A} (l : list A) : len l = 0 <-> l = [].
Proof. unfold len. destruct l; simpl; split; (done || lia). Qed.

Lemma validateWAN_nil cfg i ids ifs wan :
  validateWAN cfg i ids ifs wan = [] <->
  (wan_key wan ∉ ids) /\ (Iface wan ∉ ifs) /\ wan_sound cfg wan.
Proof.
  unfold validateWAN. rewrite !app_nil_iff, !fault_nil, !bool_decide_eq_false,
    !Z.leb_gt, orb_false_iff, !andb_false_iff, !Z.eqb_neq, !Z.ltb_ge, !len_zero.
  assert (forall l : list Addr, len l <= 0 <-> l = []) as Hl.
  { intros l. rewrite <- len_zero. unfold len. lia. }
  rewrite !Hl. split.
  - intros (?&?&?&?&?&?&[? ?]&?&?&?). split; [done|]. split; [done|].
    split; tauto.
  - intros (?&?&[? ? ? ? H6 H4 ? ? ?]). repeat split; try done.
    + destruct (targetsV6 wan cfg); [by left|right; by apply H6].
    + destruct (targetsV4 wan cfg); [by left|right; by apply H4].
Qed.

Lemma validateWANs_loop_nil cfg i ids ifs wans :
  validateWANs_loop cfg i ids ifs wans = [] <->
  NoDup (map wan_key wans) /\ NoDup (map Iface wans) /\ Forall (wan_sound cfg) wans /\
  (forall w, w ∈ wans -> (wan_key w ∉ ids) /\ (Iface w ∉ ifs)).
Proof.
  revert i ids ifs. induction wans as [|wan wans IH]; intros i ids ifs; cbn [validateWANs_loop map].
  { split; [|done]. intros _. repeat split; try constructor; by apply not_elem_of_nil in H. }
  rewrite app_nil_iff, validateWAN_nil, IH, !NoDup_cons, Forall_cons.
  assert (forall (f : WAN -> string) x, x ∉ map f wans <-> forall w, w ∈ wans -> f w <> x) as Hmap.
  { intros f x. rewrite list_elem_of_fmap. split.
    - intros Hn w Hw <-. apply Hn. by exists w.
    - intros Hn (w & -> & Hw). by apply (Hn w). }
  rewrite !Hmap. setoid_rewrite elem_of_cons. setoid_rewrite not_elem_of_union.
  setoid_rewrite not_elem_of_singleton. split.
  - intros ((Hid & Hif & Hw) & Hk & Hi & Hs & Hall).
    split; [split; [intros w Hin; by apply Hall|done]|].
    split; [split; [intros w Hin; by apply Hall|done]|].
    split; [done|]. intros w [->|Hin]; [done|].
    destruct (Hall w Hin) as [[_ ?] [_ ?]]. done.
  - intros ((Hid & Hk) & (Hif & Hi) & (Hw & Hs) & Hall).
    destruct (Hall wan) as [? ?]; [by left|].
    do 4 (split; [done|]). intros w Hin. destruct (Hall w) as [? ?]; [by right|].
    split; (split; [auto|done]).
Qed.

(** Validation accepts a configuration exactly when every policy value is
    positive, the module-wide success threshold is reachable in both families, the
    connection identities and the interfaces are pairwise distinct and non-empty,
    and every WAN carries at least one address family and can reach its own
    thresholds in each family it carries. *)
Lemma validate_config_sound cfg :
  Observations cfg = None \/ WANs cfg <> [] /\ Observations cfg = Some (Ok tt) ->
  validateConfig cfg = [] <-> config_sound cfg.
Proof.
  intros Hobs.
  assert (validateConfig cfg = validateProbeConfig cfg ++ validateWANs cfg) as ->.
  { unfold validateConfig. destruct Hobs as [->|[Hne ->]]; rewrite ?andb_false_r; [done|].
    destruct (WANs cfg); done. }
  unfold validateProbeConfig, validateWANs. rewrite !app_nil_iff, validateWANs_loop_nil, !fault_nil,
    orb_false_iff, !bool_decide_eq_false, !Z.leb_gt, !Z.eqb_neq, !Z.ltb_ge.
  split.
  - intros ((?&?&?&?&?&?&?&?&?&?)&?&?&?&?). split; try done. lia.
  - intros []. repeat split; try done; try lia; set_solver.
Qed.

Definition example_wan (key iface : string) (v6 : option (list Addr)) : WAN :=
  mkWAN (mkWANRef key "" iface) 0 None v6 [] 0 0 0 0 0.
Definition example_config : Config :=
  applyDefaults (mkConfig None "" [] [] [] 0 0 0 0 0 0 0 0
    [example_wan "fiber" "wan0" None; example_wan "lte" "wan1" (Some [])]).

(** ** The state file *)

(** A key the line format can carry: no white space, no colon, within the
    scanner's line limit together with the longest verdict. *)
Definition key_ok (key : string) : bool :=
  no_space key && lacks ":"%char key && bool_decide (String.length key + 10 < max_scan_token)%nat.

Lemma valid_state_cases ss key :
  valid_state ss key = StateUnknown \/ valid_state ss key = StateHealthy \/
  valid_state ss key = StateUnhealthy.
Proof.
  unfold valid_state, Valid. destruct (ss !! key) as [st|]; [|auto].
  repeat case_bool_decide; simpl; auto.
Qed.

Lemma valid_state_facts ss key :
  no_space (valid_state ss key) = true /\ (String.length (valid_state ss key) <= 9)%nat.
Proof. destruct (valid_state_cases ss key) as [->|[->| ->]]; split; simpl; lia || done. Qed.

Lemma no_space_line ss wan :
  key_ok (wan_key wan) = true -> no_space (serialize_line ss wan) = true.
Proof.
  unfold key_ok, serialize_line. intros Hk. bool_prop.
  rewrite !no_space_app, (proj1 (valid_state_facts ss _)), !andb_true_iff. done.
Qed.

Lemma length_append a b : String.length (a +:+ b) = (String.length a + String.length b)%nat.
Proof. induction a as [|c a IH]; simpl; [done|]. by rewrite IH. Qed.

Lemma read_serialized_line states ss wan :
  key_ok (wan_key wan) = true ->
  (String.length (serialize_line ss wan) < max_scan_token)%nat /\
  read_line states (serialize_line ss wan)
  = <[wan_key wan := valid_state ss (wan_key wan)]> states.
Proof.
  intros Hk. pose proof (no_space_line ss wan Hk) as Hns.
  destruct (valid_state_facts ss (wan_key wan)) as [Hvs Hvl].
  unfold key_ok in Hk. bool_prop. unfold read_line. rewrite (trim_space_none _ Hns). split.
  - unfold serialize_line. rewrite !length_append. simpl String.length. lia.
  - rewrite bool_decide_false; [|by unfold serialize_line; destruct (wan_key wan)].
    unfold serialize_line. simpl (":" +:+ _)%string.
    rewrite cut_app by done. by rewrite !trim_space_none.
Qed.

Lemma read_serialized_lines ss wans states :
  Forall (fun wan => key_ok (wan_key wan) = true) wans ->
  read_lines states (map (serialize_line ss) wans ++ [""%string])
  = Ok (fold_left (fun states wan => <[wan_key wan := valid_state ss (wan_key wan)]> states)
          wans states).
Proof.
  intros Hall. revert states. induction Hall as [|wan wans Hk _ IH]; intros states; [done|].
  cbn [map app read_lines fold_left].
  destruct (read_serialized_line states ss wan Hk) as [Hlen ->].
  rewrite bool_decide_false by lia. apply IH.
Qed.

Lemma push_states_lookup cfg ss name :
  push_states cfg ss !! name
  = if bool_decide (name ∈ map wan_key (WANs cfg)) then Some (valid_state ss name) else None.
Proof.
  unfold push_states.
  assert (forall wans states, fold_left (fun (states : HealthStates) wan =>
            <[wan_key wan := valid_state ss (wan_key wan)]> states) wans states !! name
          = if bool_decide (name ∈ map wan_key wans) then Some (valid_state ss name)
            else states !! name) as Hgen; [|by rewrite Hgen, lookup_empty].
  induction wans as [|wan wans IH]; intros states; cbn [fold_left map].
  { by rewrite bool_decide_false by (apply not_elem_of_nil). }
  rewrite IH. destruct (decide (name = wan_key wan)) as [->|Hne].
  - rewrite (bool_decide_true (wan_key wan ∈ wan_key wan :: _)) by set_solver.
    case_bool_decide; [done|]. by simplify_map_eq.
  - rewrite lookup_insert_ne by done.
    rewrite (bool_decide_ext (name ∈ wan_key wan :: _) (name ∈ map wan_key wans));
      [done|set_solver].
Qed.

(** The state file round-trips: reading back what the module writes yields the
    very map of verdicts it pushes to the watchdog, which names every configured WAN
    and no other, each with its committed verdict, so the readers of the file and the
    watchdog always judge the same states. *)
Lemma state_file_roundtrip cfg ss :
  Forall (fun wan => key_ok (wan_key wan) = true) (WANs cfg) ->
  ReadHealthState (FileData (serializeState cfg ss)) = Ok (push_states cfg ss) /\
  (forall name, push_states cfg ss !! name
     = if bool_decide (name ∈ map wan_key (WANs cfg)) then Some (valid_state ss name) else None).
Proof.
  intros Hall. split; [|apply push_states_lookup].
  unfold ReadHealthState, serializeState.
  rewrite (split_lines (serialize_line ss)).
  - by apply read_serialized_lines.
  - eapply Forall_impl; [exact Hall|]. intros wan Hk.
    by apply no_space_lacks_newline, no_space_line.
Qed.
