(* ===== verification/HealthCycle.v ===== *)
(** * Properties of whole probe cycles of the health module

    A cycle is a program over the module's state, an abstract world and a log of effects.
    The first sections bound what each part of a cycle may log and how it changes the
    hysteresis states; the theorems then relate what a committed cycle publishes, and,
    by induction over any run from a fresh start, the open alerts and the verdicts. *)

From S2P Require Import Prelude GoStrings Effects NptPolicy Tier Notify Health.

Local Open Scope Z_scope.

Section Cycles.
Context {W : Type} `{HW : HealthWorld W}.
Implicit Types (s : sys W) (wan : WAN) (cfg : Config).

(** ** What a program may log *)

(** The module is left alone and only effects in [P] are added to the log. *)
Definition logs (P : effect -> Prop) s s' : Prop :=
  mod_ s' = mod_ s /\ exists new, log_ s' = new ++ log_ s /\ Forall P new.

#[local] Instance logs_preorder P : PreOrder (logs P).
Proof.
  split.
  - intros s. split; [done|]. by exists [].
  - intros s1 s2 s3 [Hm1 (n1 & Hl1 & HP1)] [Hm2 (n2 & Hl2 & HP2)]. split; [congruence|].
    exists (n2 ++ n1). rewrite Hl2, Hl1, <- app_assoc. split; [done|]. by apply Forall_app_2.
Qed.

Lemma logs_mono (P Q : effect -> Prop) s s' :
  (forall e, P e -> Q e) -> logs P s s' -> logs Q s s'.
Proof.
  intros HPQ [Hm (new & Hl & HP)]. split; [done|]. exists new. split; [done|].
  by eapply Forall_impl.
Qed.

Lemma sat_ask {A} (f : W -> A * W) P : sat (ask f) (logs P).
Proof.
  intros s. unfold ask. destruct (f (world s)). split; [done|]. by exists [].
Qed.

Lemma sat_emit_effect (P : effect -> Prop) e : P e -> sat (emit_effect (W:=W) e) (logs P).
Proof. intros He s. split; [done|]. exists [e]. split; [done|]. by constructor. Qed.

(** A probe of [wan] over the given family. *)
Definition probe_of (v6 : bool) wan (e : effect) : Prop :=
  match e with
  | Pinged f i _ | Fetched f i _ => f = v6 /\ i = Iface wan
  | _ => False
  end.

Lemma probeTarget_logs v6 wan cfg target :
  sat (probeTarget v6 wan cfg target) (logs (probe_of v6 wan)).
Proof.
  unfold probeTarget. sat_steps ltac:(first [apply sat_ask | by apply sat_emit_effect]).
Qed.

Lemma probeFamily_logs v6 wan targets :
  sat (probeFamily v6 wan targets) (logs (probe_of v6 wan)).
Proof.
  unfold probeFamily, probeTargets, probeHTTPURLs, cfgOf.
  sat_steps ltac:(first [apply sat_ask | by apply sat_emit_effect | apply probeTarget_logs]).
Qed.

(** The families a WAN carries are the ones it lists targets for. *)
Definition carries cfg (v6 : bool) wan : bool :=
  0 <? len (if v6 then targetsV6 wan cfg else targetsV4 wan cfg).

(** Each leg of a result follows from that family's own counts. *)
Definition coherent cfg wan (r : probeResult) : Prop :=
  V6Probed r = carries cfg true wan /\ V4Probed r = carries cfg false wan /\
  V6Passed r = leg_passed (V6Probed r) (V6Successes r, HTTP6Successes r) (successThreshold wan cfg) /\
  V4Passed r = leg_passed (V4Probed r) (V4Successes r, HTTP4Successes r) (successThreshold wan cfg) /\
  Passed r = V6Passed r || V4Passed r.

(** Only carried families are probed. *)
Definition allowed_probe cfg wan (e : effect) : Prop :=
  exists v6, carries cfg v6 wan = true /\ probe_of v6 wan e.

Lemma probeFamily_allowed cfg v6 wan s :
  logs (allowed_probe cfg wan) s
    (probeFamily v6 wan (if v6 then targetsV6 wan cfg else targetsV4 wan cfg) s).2.
Proof.
  destruct (carries cfg v6 wan) eqn:Hc.
  - eapply logs_mono; [|apply probeFamily_logs]. intros e He. by exists v6.
  - unfold probeFamily. unfold carries in Hc. rewrite Hc. simpl. reflexivity.
Qed.

Lemma probeWAN_spec wan s :
  let cfg := m_cfg (mod_ s) in
  wp (probeWAN wan) (fun r s' => coherent cfg wan r /\ logs (allowed_probe cfg wan) s s') s.
Proof.
  cbv zeta. set (cfg := m_cfg (mod_ s)). unfold probeWAN, cfgOf.
  rewrite wp_bind, wp_gets. fold cfg. rewrite wp_bind.
  eapply wp_mono; [exact (probeFamily_allowed cfg true wan s : wp _ (fun _ s' => _ s s') s)|].
  intros c6 s1 Hl1. rewrite wp_bind.
  eapply wp_mono; [exact (probeFamily_allowed cfg false wan s1 : wp _ (fun _ s' => _ s1 s') s1)|].
  intros c4 s2 Hl2. rewrite wp_ret. split; [|by transitivity s1].
  by destruct c6, c4.
Qed.

(** ** The hysteresis part of a cycle *)

Definition advanced cfg wan (old : wanStatus) (passed : bool) : wanStatus :=
  (advanceHealth old passed (failureThreshold wan cfg) (recoveryThreshold wan cfg)).1.

Definition advanced_families cfg wan (old : familyStatuses) (r : probeResult) : familyStatuses :=
  mkFamilyStatuses
    (advanceFamily wan cfg (fs_v4 old) (V4Probed r) (V4Passed r)).1
    (advanceFamily wan cfg (fs_v6 old) (V6Probed r) (V6Passed r)).1.

Definition status_of (ss : gmap string wanStatus) (key : string) : wanStatus :=
  default wanStatus_zero (ss !! key).

Lemma advanceFamilies_spec wan r s :
  wp (advanceFamilies wan r) (fun _ s' =>
    mod_ s' = with_families (<[wan_key wan :=
                advanced_families (m_cfg (mod_ s)) wan (familiesOf (mod_ s) (wan_key wan)) r]>
                (families (mod_ s))) (mod_ s) /\
    (log_ s' = log_ s \/ log_ s' = VerifyDHCPv4_Notify (Iface wan) :: log_ s)) s.
Proof.
  unfold advanceFamilies, advanced_families. rewrite wp_bind, wp_gets.
  destruct (advanceFamily wan _ (fs_v4 _) _ _) as [v4 c4].
  destruct (advanceFamily wan _ (fs_v6 _) _ _) as [v6 c6].
  rewrite wp_bind. apply wp_whenM; intros _; by (split; [|auto]).
Qed.

(** What the module keeps unchanged while it probes. *)
Definition frame (m : Module) :=
  (m_cfg m, m_env m, m_pusher m, reconcilePending m, reconcileCycleRunning m, statuses m).

(** The effects of the probing part of a cycle. *)
Definition cycle_effect cfg (e : effect) : Prop :=
  match e with
  | VerifyDHCPv4_Notify iface => exists wan, wan ∈ WANs cfg /\ iface = Iface wan
  | _ => exists wan, wan ∈ WANs cfg /\ allowed_probe cfg wan e
  end.

(** The transition of [wan] between two status maps. *)
Definition transition_of (old new : gmap string wanStatus) wan : list transition :=
  let from := ws_State (status_of old (wan_key wan)) in
  let to := ws_State (status_of new (wan_key wan)) in
  if bool_decide (to = from) then [] else [mkTransition wan from to].

Record loop_inv s0 (done : list WAN) (c : cycle) s : Prop := {
  li_frame : frame (mod_ s) = frame (mod_ s0);
  li_log : exists new, log_ s = new ++ log_ s0 /\ Forall (cycle_effect (m_cfg (mod_ s0))) new;
  li_done : forall w, w ∈ done -> exists r,
    results c !! wan_key w = Some r /\
    coherent (m_cfg (mod_ s0)) w r /\
    nextStatuses c !! wan_key w
    = Some (advanced (m_cfg (mod_ s0)) w (status_of (statuses (mod_ s0)) (wan_key w)) (Passed r)) /\
    families (mod_ s) !! wan_key w
    = Some (advanced_families (m_cfg (mod_ s0)) w (familiesOf (mod_ s0) (wan_key w)) r);
  li_todo : forall k, k ∉ map wan_key done ->
    nextStatuses c !! k = statuses (mod_ s0) !! k /\ families (mod_ s) !! k = families (mod_ s0) !! k;
  li_transitions : transitions c = flat_map (transition_of (statuses (mod_ s0)) (nextStatuses c)) done;
}.

Lemma transition_of_insert old new k st done :
  k ∉ map wan_key done ->
  flat_map (transition_of old (<[k := st]> new)) done = flat_map (transition_of old new) done.
Proof.
  intros Hk. induction done as [|w done IH]; [done|]. simpl.
  rewrite IH by set_solver. f_equal. unfold transition_of, status_of.
  by rewrite lookup_insert_ne by set_solver.
Qed.

Lemma frame_fields m m0 : frame m = frame m0 ->
  m_cfg m = m_cfg m0 /\ m_env m = m_env m0 /\ m_pusher m = m_pusher m0 /\
  reconcilePending m = reconcilePending m0 /\
  reconcileCycleRunning m = reconcileCycleRunning m0 /\ statuses m = statuses m0.
Proof. unfold frame. by intros [= -> -> -> -> -> ->]. Qed.

Lemma status_of_insert k st ss : status_of (<[k := st]> ss) k = st.
Proof. unfold status_of. by rewrite lookup_insert_eq. Qed.

Lemma stamp_spec changed key s :
  wp (whenM changed (now ← ask clockNow;
        set_mod (fun m => with_lastTransition (<[key := now]> (lastTransition m)) m)))
    (fun _ s' => (exists lt, mod_ s' = with_lastTransition lt (mod_ s)) /\ log_ s' = log_ s) s.
Proof.
  apply wp_whenM; intros _.
  - unfold wp, mbind, M_bind, ask. destruct (clockNow (world s)) as [now w].
    simpl. split; [by eexists|done].
  - split; [|done]. exists (lastTransition (mod_ s)). by destruct (mod_ s).
Qed.

Lemma cycle_effect_probe cfg wan e :
  wan ∈ WANs cfg -> allowed_probe cfg wan e -> cycle_effect cfg e.
Proof. intros Hw (v6 & Hc & He). destruct e; try done; exists wan; (split; [done|]); by exists v6. Qed.

(** One iteration advances the loop invariant by one WAN. *)
Lemma cycle_wan_step s0 done wan c s :
  wan ∈ WANs (m_cfg (mod_ s0)) -> wan_key wan ∉ map wan_key done ->
  loop_inv s0 done c s -> wp (cycle_wan c wan) (loop_inv s0 (done ++ [wan])) s.
Proof.
  intros Hin Hfresh [Hframe (new & Hlog & Hnew) Hdone Htodo Htr].
  destruct (frame_fields _ _ Hframe) as (Ecfg & Eenv & Epush & Ependp & Erun & Ess).
  unfold cycle_wan, cfgOf. rewrite wp_bind.
  eapply wp_mono; [apply probeWAN_spec|]. intros r s1 [Hcoh [Hm1 (n1 & Hl1 & Hn1)]].
  rewrite wp_bind, wp_gets, Hm1, Ecfg in *.
  destruct (Htodo _ Hfresh) as [Hns Hfam].
  change (default wanStatus_zero (nextStatuses c !! wan_key wan))
    with (status_of (nextStatuses c) (wan_key wan)).
  replace (status_of (nextStatuses c) (wan_key wan))
    with (status_of (statuses (mod_ s0)) (wan_key wan)) by (unfold status_of; by rewrite Hns).
  set (old := status_of (statuses (mod_ s0)) (wan_key wan)).
  destruct (advanceHealth old _ _ _) as [next changed] eqn:Ea.
  assert (next = advanced (m_cfg (mod_ s0)) wan old (Passed r)) as Hnext.
  { unfold advanced. by rewrite Ea. }
  assert (changed = negb (bool_decide (ws_State next = ws_State old))) as Hch.
  { unfold advanceHealth in Ea. by injection Ea as <- <-. }
  rewrite wp_bind. eapply wp_mono; [apply advanceFamilies_spec|]. intros fc s2 [Hm2 Hl2].
  rewrite wp_bind. eapply wp_mono; [apply stamp_spec|]. intros _ s3 [[lt Hm3] Hl3].
  rewrite wp_ret, Hm1, Ecfg in *. split.
  - rewrite Hm3, Hm2. exact Hframe.
  - destruct Hl2 as [Hl2|Hl2]; rewrite Hl3, Hl2, Hl1, Hlog; cbn [app].
    + exists (n1 ++ new). rewrite app_assoc. split; [done|]. apply Forall_app_2; [|done].
      eapply Forall_impl; [exact Hn1|]. intros e. by apply cycle_effect_probe.
    + exists (VerifyDHCPv4_Notify (Iface wan) :: n1 ++ new). rewrite app_assoc. split; [done|].
      constructor; [by exists wan|]. apply Forall_app_2; [|done].
      eapply Forall_impl; [exact Hn1|]. intros e. by apply cycle_effect_probe.
  - intros w. rewrite elem_of_app, list_elem_of_singleton. cbn [results nextStatuses].
    intros [Hw| ->].
    + assert (wan_key wan <> wan_key w) as Hne.
      { intros Heq. apply Hfresh. rewrite Heq. by apply list_elem_of_fmap_2. }
      rewrite Hm3, Hm2. cbn [families with_lastTransition with_families].
      rewrite !lookup_insert_ne by done. by apply Hdone.
    + exists r. rewrite Hm3, Hm2. cbn [families with_lastTransition with_families].
      rewrite !lookup_insert_eq, Hnext. unfold familiesOf. by rewrite Hfam.
  - intros k. rewrite map_app, elem_of_app. simpl. rewrite list_elem_of_singleton. intros Hk.
    rewrite Hm3, Hm2. cbn [families with_lastTransition with_families nextStatuses].
    rewrite !lookup_insert_ne by (intros <-; tauto). apply Htodo. tauto.
  - cbn [transitions nextStatuses]. rewrite flat_map_app, transition_of_insert by done.
    cbn [flat_map]. rewrite app_nil_r. unfold transition_of at 2.
    rewrite status_of_insert. fold old.
    rewrite Htr, Hch. case_bool_decide; simpl; [by rewrite app_nil_r|done].
Qed.

Lemma cycle_loop s0 :
  NoDup (map wan_key (WANs (m_cfg (mod_ s0)))) ->
  wp (foldM cycle_wan (mkCycle (statuses (mod_ s0)) [] ∅ false) (WANs (m_cfg (mod_ s0))))
    (loop_inv s0 (WANs (m_cfg (mod_ s0)))) s0.
Proof.
  intros Hnd. apply wp_foldM.
  - split; try done; [by exists []|]. intros w Hw. by apply not_elem_of_nil in Hw.
  - intros done w todo c s Heq Hinv. rewrite Heq, map_app, map_cons in Hnd.
    apply NoDup_app in Hnd as (_ & Hdis & _). apply cycle_wan_step; [|by intros Hk; apply (Hdis _ Hk); left|done].
    rewrite Heq. set_solver.
Qed.

(** ** Announcing transitions *)

(** The alert an effect raises ([true]) or resolves ([false]) for a WAN key. *)
Definition alert_of (key : string) (e : effect) : option bool :=
  match e with
  | Alerts_Notify _ _ kind k _ =>
      if bool_decide (kind = alertKindWANUnhealthy /\ k = key) then Some true else None
  | Alerts_Resolve _ kind k _ =>
      if bool_decide (kind = alertKindWANUnhealthy /\ k = key) then Some false else None
  | _ => None
  end.

(** Whether the log leaves the WAN's alert raised. *)
Fixpoint alert_open (key : string) (log : list effect) : bool :=
  match log with
  | [] => false
  | e :: log => match alert_of key e with Some b => b | None => alert_open key log end
  end.

Lemma alert_of_notify key now level k msg :
  alert_of key (Alerts_Notify now level alertKindWANUnhealthy k msg)
  = if bool_decide (k = key) then Some true else None.
Proof. unfold alert_of. by rewrite (bool_decide_ext _ (k = key)) by tauto. Qed.

Lemma alert_of_resolve key now k msg :
  alert_of key (Alerts_Resolve now alertKindWANUnhealthy k msg)
  = if bool_decide (k = key) then Some false else None.
Proof. unfold alert_of. by rewrite (bool_decide_ext _ (k = key)) by tauto. Qed.

Definition quiet (e : effect) : Prop := forall key, alert_of key e = None.

Lemma alert_open_quiet key new log :
  Forall quiet new -> alert_open key (new ++ log) = alert_open key log.
Proof. induction 1 as [|e new He _ IH]; [done|]. simpl. by rewrite He. Qed.

(** Announcements: neither verdict publications nor probes. *)
Definition notice (e : effect) : Prop :=
  match e with
  | LiveState_NotifyHealthTransition _ _ _ | RequestReconcile _
  | Alerts_Notify _ _ _ _ _ | Alerts_Resolve _ _ _ _ => True
  | _ => False
  end.

Definition alert_after (open : bool) (from to : string) : bool :=
  if bool_decide (to = StateUnhealthy) then true
  else if bool_decide (to = StateHealthy) && negb (bool_decide (from = StateUnknown)) then false
  else open.

Lemma emitTransition_spec t s :
  wp (emitTransition t) (fun _ s' => logs notice s s' /\ forall key,
    alert_open key (log_ s')
    = if has_Alerts (m_env (mod_ s)) && bool_decide (wan_key (tr_WAN t) = key)
      then alert_after (alert_open key (log_ s)) (tr_From t) (tr_To t)
      else alert_open key (log_ s)) s.
Proof.
  unfold wp. split.
  - revert s. change (sat (emitTransition t) (logs notice)). unfold emitTransition.
    sat_steps ltac:(first [apply sat_ask | by apply sat_emit_effect]).
  - intros key.
    unfold emitTransition, alert_after, mbind, M_bind, gets, whenM, ask, emit_effect, modify, mret, M_ret.
    destruct s as [m w log]. cbn [mod_ log_ world fst snd].
    destruct (has_LiveState (m_env m)), (has_RequestReconcile (m_env m)), (has_Alerts (m_env m));
      cbn [andb mod_ world log_ fst snd]; try done;
      destruct (clockNow w) as [now w'];
      (destruct (bool_decide (tr_To t = StateUnhealthy));
        [|destruct (bool_decide (tr_To t = StateHealthy) && _)]);
      cbn [mod_ world log_ fst snd alert_open];
      rewrite ?alert_of_notify, ?alert_of_resolve; cbn [alert_of]; by case_bool_decide.
Qed.

Definition transitions_done (old new : gmap string wanStatus) (wans : list WAN) s s' : Prop :=
  logs notice s s' /\ forall key,
    alert_open key (log_ s')
    = if has_Alerts (m_env (mod_ s)) && bool_decide (key ∈ map wan_key wans)
         && negb (bool_decide (ws_State (status_of new key) = ws_State (status_of old key)))
      then alert_after (alert_open key (log_ s))
             (ws_State (status_of old key)) (ws_State (status_of new key))
      else alert_open key (log_ s).

Lemma emitTransitions_spec old new wans s :
  NoDup (map wan_key wans) ->
  wp (emitTransitions (flat_map (transition_of old new) wans))
    (fun _ => transitions_done old new wans s) s.
Proof.
  unfold emitTransitions, forM. revert s. induction wans as [|w wans IH]; intros s Hnd.
  { split; [reflexivity|]. intros key. by rewrite bool_decide_false, andb_false_r by set_solver. }
  apply NoDup_cons in Hnd as [Hw Hnd]. cbn [flat_map]. unfold transition_of at 1.
  case_bool_decide as Heq; cbn [app].
  - eapply wp_mono; [by apply IH|]. intros _ s' [Hl Ha]. split; [done|]. intros key. rewrite Ha.
    destruct (decide (key = wan_key w)) as [->|Hne].
    + rewrite (bool_decide_true (_ = _)) by done. by rewrite !andb_false_r.
    + by rewrite (bool_decide_ext (key ∈ map wan_key (w :: wans)) (key ∈ map wan_key wans))
        by (cbn [map]; set_solver).
  - cbn [foldM]. rewrite wp_bind. eapply wp_mono; [apply emitTransition_spec|].
    intros [] s1 [Hl1 Ha1]. eapply wp_mono; [by apply IH|]. intros _ s' [Hl Ha].
    split; [by transitivity s1|]. intros key. rewrite Ha, !Ha1, (proj1 Hl1).
    cbn [tr_WAN tr_From tr_To]. destruct (decide (key = wan_key w)) as [->|Hne].
    + rewrite (bool_decide_false (wan_key w ∈ map wan_key wans)) by done.
      rewrite (bool_decide_true (wan_key w ∈ _)) by (cbn [map]; set_solver).
      rewrite (bool_decide_true (wan_key w = wan_key w)) by done.
      rewrite (bool_decide_false (_ = _)) by done.
      by rewrite !andb_false_r, !andb_true_r.
    + rewrite (bool_decide_false (wan_key w = key)) by congruence. rewrite andb_false_r.
      by rewrite (bool_decide_ext (key ∈ map wan_key (w :: wans)) (key ∈ map wan_key wans))
        by (cbn [map]; set_solver).
Qed.

(** ** The whole cycle *)

(** What a committed cycle leaves behind, newest first: the push, the family
    reconcile request, the announcements, the live state and the state file, on top
    of the log [log1] of the probing part. *)
Definition published s0 (c : cycle) s1 s' : Prop :=
  let env := m_env (mod_ s0) in
  let cfg := m_cfg (mod_ s0) in
  let next := nextStatuses c in
  let log2 := (if has_LiveState env
               then [LiveState_SetHealth (live_members (mod_ s') next (results c))] else [])
              ++ StateFileWritten (StateFile cfg) (serializeState cfg next) :: log_ s1 in
  mod_ s' = with_statuses next (mod_ s1) /\
  exists notes now,
    log_ s' = (if m_pusher (mod_ s0)
               then [Pusher_Send (NewStatus now (TierMembers cfg) (push_states cfg next))] else [])
              ++ (if familyChanged c && has_RequestReconcile env
                  then [RequestReconcile "health address family verdict changed"] else [])
              ++ notes ++ log2 /\
    Forall notice notes /\
    (forall key, alert_open key (notes ++ log2)
       = if has_Alerts env && bool_decide (key ∈ map wan_key (WANs cfg))
            && negb (bool_decide (ws_State (status_of next key)
                                  = ws_State (status_of (statuses (mod_ s0)) key)))
         then alert_after (alert_open key log2)
                (ws_State (status_of (statuses (mod_ s0)) key)) (ws_State (status_of next key))
         else alert_open key log2).

Lemma writeStateFile_spec ss s :
  wp (writeStateFile ss) (fun r s' => mod_ s' = mod_ s /\
    log_ s' = match r with
              | Ok _ => StateFileWritten (StateFile (m_cfg (mod_ s)))
                          (serializeState (m_cfg (mod_ s)) ss) :: log_ s
              | Err _ => log_ s
              end) s.
Proof.
  unfold wp, writeStateFile, cfgOf, mbind, M_bind, gets, ask.
  destruct s as [m w log]. cbn [mod_ world log_].
  by destruct (atomicWrite _ _ w) as [[[]|e] w'].
Qed.

Lemma pushStatus_spec ss s :
  wp (pushStatus ss) (fun _ s' => mod_ s' = mod_ s /\ exists now,
    log_ s' = (if m_pusher (mod_ s)
               then [Pusher_Send (NewStatus now (TierMembers (m_cfg (mod_ s)))
                       (push_states (m_cfg (mod_ s)) ss))] else []) ++ log_ s) s.
Proof.
  unfold wp, pushStatus, mbind, M_bind, gets, ask, whenM.
  destruct s as [m w log]. cbn [mod_ world log_]. destruct (m_pusher m).
  - unfold emit_effect, modify. cbn [world]. destruct (clockNow w) as [now w'].
    split; [done|]. by exists now.
  - split; [done|]. by exists zero_time.
Qed.

Lemma runCycle_spec s0 :
  NoDup (map wan_key (WANs (m_cfg (mod_ s0)))) ->
  wp runCycle (fun r s' => exists c s1,
    loop_inv s0 (WANs (m_cfg (mod_ s0))) c s1 /\
    match r with
    | Err _ => mod_ s' = mod_ s1 /\ log_ s' = log_ s1
    | Ok _ => published s0 c s1 s'
    end) s0.
Proof.
  intros Hnd. unfold runCycle. rewrite wp_bind, wp_gets, wp_bind.
  eapply wp_mono; [by apply cycle_loop|]. intros c s1 Hinv.
  destruct (frame_fields _ _ (li_frame _ _ _ _ Hinv)) as (Ecfg & Eenv & Epush & _ & _ & Ess).
  rewrite wp_bind. eapply wp_mono; [apply writeStateFile_spec|]. intros r s2 [Hm2 Hl2].
  destruct r as [[]|e]; [|by exists c, s1].
  rewrite Ecfg in Hl2.
  rewrite wp_bind. unfold set_mod. rewrite wp_modify, wp_bind.
  unfold publishLiveState. rewrite wp_bind, wp_gets. cbn [mod_].
  set (m3 := with_statuses (nextStatuses c) (mod_ s2)).
  assert (m_env m3 = m_env (mod_ s0)) as Hm3e by (unfold m3; cbn; by rewrite Hm2).
  rewrite Hm3e.
  set (log2 := (if has_LiveState (m_env (mod_ s0))
               then [LiveState_SetHealth (live_members m3 (nextStatuses c) (results c))] else [])
              ++ log_ s2).
  assert (forall Q, Q tt (mkSys m3 (world s2) log2) ->
    wp (whenM (has_LiveState (m_env (mod_ s0)))
        (emit_effect (LiveState_SetHealth (live_members m3 (nextStatuses c) (results c))))) Q
      (mkSys m3 (world s2) (log_ s2))) as Hwhen.
  { intros Q HQ. unfold log2 in HQ. by destruct (has_LiveState _). }
  apply Hwhen. rewrite wp_bind, (li_transitions _ _ _ _ Hinv).
  eapply wp_mono; [by apply emitTransitions_spec|].
  intros _ s4 [[Hm4 (notes & Hl4 & Hn)] Ha]. cbn [mod_ log_] in *.
  rewrite wp_bind, wp_gets, Hm4, Hm3e.
  rewrite wp_bind. 
  assert (forall Q, Q tt (mkSys (mod_ s4) (world s4)
            ((if familyChanged c && has_RequestReconcile (m_env (mod_ s0))
              then [RequestReconcile "health address family verdict changed"] else []) ++ log_ s4)) ->
    wp (whenM (familyChanged c && has_RequestReconcile (m_env (mod_ s0)))
         (emit_effect (RequestReconcile "health address family verdict changed"))) Q s4) as Hrr.
  { intros Q HQ. destruct (familyChanged c && _); destruct s4; done. }
  apply Hrr. rewrite wp_bind. eapply wp_mono; [apply pushStatus_spec|].
  intros _ s5 [Hm5 [now Hl5]]. rewrite wp_ret. cbn [mod_ log_] in *.
  exists c, s1. split; [done|].
  assert (mod_ s5 = m3) as Hs5 by congruence.
  split; [by rewrite Hs5; unfold m3; rewrite Hm2|].
  exists notes, now. rewrite Hs5.
  assert (m_cfg m3 = m_cfg (mod_ s0) /\ m_pusher m3 = m_pusher (mod_ s0)) as [Hc Hp]
    by (unfold m3; cbn; by rewrite Hm2).
  rewrite Hm4, Hc, Hp in Hl5. rewrite Hl4 in Hl5, Ha. unfold log2 in Hl5, Ha.
  rewrite Hl2 in Hl5, Ha. split; [exact Hl5|]. split; [done|].
  intros key. rewrite Ha, Hm3e. done.
Qed.

Lemma notice_not_probe v6 wan e : notice e -> ~ probe_of v6 wan e.
Proof. by destruct e; intros ? ?. Qed.

Lemma runCycle_log s0 :
  NoDup (map wan_key (WANs (m_cfg (mod_ s0)))) ->
  exists new, log_ (runCycle s0).2 = new ++ log_ s0 /\
    forall e, e ∈ new -> cycle_effect (m_cfg (mod_ s0)) e \/ forall v6 wan, ~ probe_of v6 wan e.
Proof.
  intros Hnd. pose proof (runCycle_spec s0 Hnd) as Hs. unfold wp in Hs.
  destruct (runCycle s0) as [r s']. cbn [fst snd] in *.
  destruct Hs as (c & s1 & Hinv & Hr). destruct (li_log _ _ _ _ Hinv) as (new & Hl1 & Hn).
  rewrite Forall_forall in Hn. destruct r as [u|e].
  - destruct Hr as (_ & notes & now & -> & Hnotes & _). rewrite Forall_forall in Hnotes.
    rewrite Hl1, app_comm_cons, !app_assoc. eexists. split; [reflexivity|].
    intros e. rewrite !elem_of_app, elem_of_cons.
    intros [[[[He|He]|He]|He]|[->|He]]; auto; right; intros v6 wan.
    + destruct (m_pusher _); [|by apply not_elem_of_nil in He].
      apply list_elem_of_singleton in He as ->. by intros [].
    + destruct (familyChanged c && _); [|by apply not_elem_of_nil in He].
      apply list_elem_of_singleton in He as ->. by intros [].
    + by apply notice_not_probe, Hnotes.
    + destruct (has_LiveState _); [|by apply not_elem_of_nil in He].
      apply list_elem_of_singleton in He as ->. by intros [].
  - destruct Hr as [_ ->]. exists new. auto.
Qed.

(** The status an address family holds. *)
Definition family_status (v6 : bool) (m : Module) (key : string) : wanStatus :=
  let fs := familiesOf m key in if v6 then fs_v6 fs else fs_v4 fs.

Lemma uncarried_status s0 c s1 v6 wan :
  loop_inv s0 (WANs (m_cfg (mod_ s0))) c s1 -> wan ∈ WANs (m_cfg (mod_ s0)) ->
  carries (m_cfg (mod_ s0)) v6 wan = false ->
  family_status v6 (mod_ s1) (wan_key wan) = family_status v6 (mod_ s0) (wan_key wan).
Proof.
  intros Hinv Hin Hc. destruct (li_done _ _ _ _ Hinv wan Hin) as (r & _ & Hcoh & _ & Hf).
  unfold family_status at 1, familiesOf. rewrite Hf. cbn [default].
  destruct Hcoh as (H6 & H4 & _). unfold advanced_families, advanceFamily. rewrite H6, H4.
  destruct v6; rewrite Hc; done.
Qed.

(** The two address families never vouch for each other: in a cycle no ping and
    no HTTP request goes out over a family the WAN lists no targets for, that
    family's hysteresis state stays as it was, and this holds whether or not the
    cycle commits. *)
Lemma uncarried_family_untouched s v6 wan :
  NoDup (map wan_key (WANs (m_cfg (mod_ s)))) ->
  NoDup (map Iface (WANs (m_cfg (mod_ s)))) ->
  wan ∈ WANs (m_cfg (mod_ s)) ->
  carries (m_cfg (mod_ s)) v6 wan = false ->
  let s' := (runCycle s).2 in
  (exists new, log_ s' = new ++ log_ s /\ forall e, e ∈ new -> ~ probe_of v6 wan e) /\
  family_status v6 (mod_ s') (wan_key wan) = family_status v6 (mod_ s) (wan_key wan).
Proof.
  intros Hk Hi Hin Hc. cbv zeta. split.
  - destruct (runCycle_log s Hk) as (new & Hl & Hnew). exists new. split; [done|].
    intros e He Hp. destruct (Hnew e He) as [Hce|Hno]; [|by eapply Hno].
    assert (exists w, w ∈ WANs (m_cfg (mod_ s)) /\ allowed_probe (m_cfg (mod_ s)) w e)
      as (w & Hw & v & Hcv & Hpv) by (by destruct e).
    assert (v = v6 /\ Iface w = Iface wan) as [-> Hif].
    { destruct e; try done; simpl in Hp, Hpv; destruct Hp, Hpv; split; congruence. }
    assert (w = wan) as ->; [|congruence].
    apply list_elem_of_lookup in Hw as [i Hw], Hin as [j Hj].
    assert (i = j) as ->; [|congruence].
    eapply (NoDup_lookup _ i j (Iface w) Hi).
    + by rewrite (list_lookup_fmap Iface), Hw.
    + by rewrite (list_lookup_fmap Iface), Hj, Hif.
  - pose proof (runCycle_spec s Hk) as Hs. unfold wp in Hs.
    destruct (runCycle s) as [r s']. cbn [fst snd] in *.
    destruct Hs as (c & s1 & Hinv & Hr). rewrite <- (uncarried_status s c s1 v6 wan Hinv Hin Hc).
    destruct r; [destruct Hr as [-> _]|destruct Hr as [-> _]]; done.
Qed.

(** A cycle that cannot write the state file commits nothing: the verdicts stay
    as they were, and apart from the probes themselves (and a DHCPv4 check they may
    have asked for) nothing is published, pushed, announced or alerted. *)
Lemma failed_write_commits_nothing s e :
  NoDup (map wan_key (WANs (m_cfg (mod_ s)))) ->
  (runCycle s).1 = Err e ->
  let s' := (runCycle s).2 in
  statuses (mod_ s') = statuses (mod_ s) /\
  exists new, log_ s' = new ++ log_ s /\ Forall (cycle_effect (m_cfg (mod_ s))) new.
Proof.
  intros Hk He. cbv zeta. pose proof (runCycle_spec s Hk) as Hs. unfold wp in Hs.
  rewrite He in Hs. destruct Hs as (c & s1 & Hinv & -> & ->).
  destruct (frame_fields _ _ (li_frame _ _ _ _ Hinv)) as (_ & _ & _ & _ & _ & ->).
  split; [done|]. apply Hinv.
Qed.

(** What each publication of a committed cycle must say about the verdicts [ss]. *)
Definition agrees cfg (ss : gmap string wanStatus) (e : effect) : Prop :=
  match e with
  | StateFileWritten path contents => path = StateFile cfg /\ contents = serializeState cfg ss
  | LiveState_SetHealth members => forall wan, wan ∈ WANs cfg -> exists mh,
      members !! wan_key wan = Some mh /\ Verdict mh = valid_state ss (wan_key wan) /\
      (mh_V4 mh = ProbeNone <-> carries cfg false wan = false) /\
      (mh_V6 mh = ProbeNone <-> carries cfg true wan = false)
  | Pusher_Send status => exists now,
      status = NewStatus now (TierMembers cfg) (push_states cfg ss)
  | _ => True
  end.

Lemma verdictOf_valid ss key : verdictOf (ws_State (status_of ss key)) = valid_state ss key.
Proof.
  unfold verdictOf, valid_state, status_of, Valid.
  destruct (ss !! key) as [st|]; cbn [default from_option id]; [|done].
  destruct (bool_decide_reflect (ws_State st = StateHealthy)) as [->|]; [done|].
  destruct (bool_decide_reflect (ws_State st = StateUnhealthy)) as [->|]; [done|].
  destruct (bool_decide_reflect (ws_State st = StateUnknown)) as [->|]; done.
Qed.

Lemma live_members_lookup m ss rs wan :
  NoDup (map wan_key (WANs (m_cfg m))) -> wan ∈ WANs (m_cfg m) ->
  live_members m ss rs !! wan_key wan = Some (member_health m ss rs wan).
Proof.
  unfold live_members. generalize (∅ : gmap string MemberHealth) as acc.
  induction (WANs (m_cfg m)) as [|w wans IH]; intros acc Hnd Hin.
  { by apply not_elem_of_nil in Hin. }
  cbn [map fold_left] in *. apply NoDup_cons in Hnd as [Hw Hnd].
  apply elem_of_cons in Hin as [->|Hin]; [|by apply IH].
  clear IH. rewrite <- (lookup_insert_eq acc (wan_key w) (member_health m ss rs w)).
  generalize (<[wan_key w := member_health m ss rs w]> acc) as acc'.
  induction wans as [|w' wans IH]; intros acc'; cbn [fold_left]; [done|].
  cbn [map] in Hw, Hnd. apply NoDup_cons in Hnd as [_ Hnd].
  apply not_elem_of_cons in Hw as [Hne Hw]. rewrite IH by done.
  by rewrite lookup_insert_ne by congruence.
Qed.

Lemma leg_result_none a b t : legResult a b t <> ProbeNone.
Proof. unfold legResult. by destruct (_ || _). Qed.

Lemma committed_member s0 c s1 s' wan :
  NoDup (map wan_key (WANs (m_cfg (mod_ s0)))) ->
  loop_inv s0 (WANs (m_cfg (mod_ s0))) c s1 ->
  m_cfg (mod_ s') = m_cfg (mod_ s0) -> wan ∈ WANs (m_cfg (mod_ s0)) ->
  exists mh,
    live_members (mod_ s') (nextStatuses c) (results c) !! wan_key wan = Some mh /\
    Verdict mh = valid_state (nextStatuses c) (wan_key wan) /\
    (mh_V4 mh = ProbeNone <-> carries (m_cfg (mod_ s0)) false wan = false) /\
    (mh_V6 mh = ProbeNone <-> carries (m_cfg (mod_ s0)) true wan = false).
Proof.
  intros Hnd Hinv Hcfg Hin. eexists. split; [apply live_members_lookup; by rewrite Hcfg|].
  destruct (li_done _ _ _ _ Hinv wan Hin) as (r & Hr & (H6 & H4 & _) & _).
  unfold member_health. rewrite Hr. cbn [Verdict mh_V4 mh_V6].
  split; [apply verdictOf_valid|]. rewrite H4, H6.
  split; [destruct (carries (m_cfg (mod_ s0)) false wan)|destruct (carries (m_cfg (mod_ s0)) true wan)];
    (split; [intros HN|intros ?]); try done; by apply leg_result_none in HN.
Qed.

(** Every surface a committed cycle publishes to tells the same story: the state
    file holds the serialised verdicts the module now keeps, the live state shows the
    same verdict for every WAN (and a family result exactly for the families the WAN
    carries), and the status pushed to the watchdog is built from the same verdicts. *)
Lemma cycle_outputs_agree s :
  NoDup (map wan_key (WANs (m_cfg (mod_ s)))) ->
  (runCycle s).1 = Ok tt ->
  let s' := (runCycle s).2 in
  let ss := statuses (mod_ s') in
  exists new, log_ s' = new ++ log_ s /\
    Forall (agrees (m_cfg (mod_ s)) ss) new /\
    StateFileWritten (StateFile (m_cfg (mod_ s))) (serializeState (m_cfg (mod_ s)) ss) ∈ new /\
    (m_pusher (mod_ s) = true -> exists st, Pusher_Send st ∈ new) /\
    (has_LiveState (m_env (mod_ s)) = true -> exists ms, LiveState_SetHealth ms ∈ new).
Proof.
  intros Hk Hok. cbv zeta. pose proof (runCycle_spec s Hk) as Hs. unfold wp in Hs.
  rewrite Hok in Hs. destruct Hs as (c & s1 & Hinv & Hm & notes & now & Hl & Hn & _).
  destruct (frame_fields _ _ (li_frame _ _ _ _ Hinv)) as (Ecfg & _).
  destruct (li_log _ _ _ _ Hinv) as (new & Hl1 & Hnew).
  rewrite Hl, Hm, Hl1, app_comm_cons, !app_assoc. cbn [statuses with_statuses].
  eexists. split; [reflexivity|]. repeat split.
  - repeat apply Forall_app_2.
    + destruct (m_pusher _); repeat constructor. by exists now.
    + destruct (familyChanged c && _); repeat constructor.
    + eapply Forall_impl; [exact Hn|]. by intros [].
    + destruct (has_LiveState _); repeat constructor. intros wan Hin.
      rewrite <- Hm. apply (committed_member s c s1); [done|done| |done].
      by rewrite Hm, <- Ecfg.
    + constructor; [done|]. eapply Forall_impl; [exact Hnew|]. intros []; try done; intros (? & _ & ? & _ & []).
  - rewrite elem_of_app. right. by left.
  - intros ->. eexists. rewrite !elem_of_app. do 4 left. by left.
  - intros ->. eexists. rewrite !elem_of_app. left. right. by left.
Qed.

(** ** Runs of the module *)

(** Cycles are serialised by a mutex; between them reconcile passes may start and
    finish. *)
Inductive hstep : sys W -> sys W -> Prop :=
| step_interval s : hstep s (runCycle s).2
| step_reconcile_start s :
    hstep s (mkSys (Reconcile_start (mod_ s)).2 (world s) (log_ s))
| step_reconcile_cycle s :
    reconcileCycleRunning (mod_ s) = true -> hstep s (Reconcile_cycle s).2.

(** A module whose [Init] has just seeded the statuses. *)
Definition initial s : Prop :=
  statuses (mod_ s) = statuses (initStatuses (mod_ s)) /\ log_ s = [].

Definition state_of (m : Module) wan : string := ws_State (status_of (statuses m) (wan_key wan)).

Record alert_inv (cfg : Config) (env : Env) s : Prop := {
  ai_cfg : m_cfg (mod_ s) = cfg;
  ai_env : m_env (mod_ s) = env;
  ai_valid : forall wan, wan ∈ WANs cfg -> Valid (state_of (mod_ s) wan) = true;
  ai_alert : has_Alerts env = true -> forall wan, wan ∈ WANs cfg ->
    alert_open (wan_key wan) (log_ s) = bool_decide (state_of (mod_ s) wan = StateUnhealthy);
}.

Lemma Valid_iff st :
  Valid st = true <-> st = StateUnknown \/ st = StateHealthy \/ st = StateUnhealthy.
Proof. unfold Valid. rewrite !orb_true_iff, !bool_decide_eq_true. tauto. Qed.

(** A hysteresis step from a valid state ends in a valid one and announces it the
    way the alert should stand. *)
Lemma advanced_alert cfg wan old passed :
  Valid (ws_State old) = true ->
  let to := ws_State (advanced cfg wan old passed) in
  Valid to = true /\
  (to <> ws_State old ->
   alert_after (bool_decide (ws_State old = StateUnhealthy)) (ws_State old) to
   = bool_decide (to = StateUnhealthy)).
Proof.
  intros Hv. unfold advanced, advanceHealth.
  apply Valid_iff in Hv as [E|[E|E]]; rewrite E; destruct passed; cbn [fst ws_State];
    rewrite ?E; match goal with |- context [if ?b then _ else _] => destruct b end;
    (split; [reflexivity|]); intros Hne; reflexivity || done.
Qed.

Lemma cycle_effect_quiet cfg e : cycle_effect cfg e -> quiet e.
Proof. destruct e; try done; intros (w & _ & v & _ & []). Qed.

Lemma alert_open_skip key (b : bool) e log :
  quiet e -> alert_open key ((if b then [e] else []) ++ log) = alert_open key log.
Proof. intros He. destruct b; [|done]. simpl. by rewrite He. Qed.

Lemma alert_inv_cycle cfg env s :
  NoDup (map wan_key (WANs cfg)) -> alert_inv cfg env s -> alert_inv cfg env (runCycle s).2.
Proof.
  intros Hk [Ecfg Eenv Hv Ha]. pose proof (runCycle_spec s) as Hs. unfold wp in Hs.
  rewrite Ecfg in Hs. specialize (Hs Hk). destruct (runCycle s) as [r s']. cbn [fst snd] in *.
  destruct Hs as (c & s1 & Hinv & Hr).
  destruct (frame_fields _ _ (li_frame _ _ _ _ Hinv)) as (Ec1 & Ee1 & _ & _ & _ & Ess).
  destruct (li_log _ _ _ _ Hinv) as (new & Hl1 & Hnew).
  assert (forall key, alert_open key (log_ s1) = alert_open key (log_ s)) as Hquiet.
  { intros key. rewrite Hl1. apply alert_open_quiet. eapply Forall_impl; [exact Hnew|].
    intros e. apply cycle_effect_quiet. }
  destruct r as [u|e].
  2:{ destruct Hr as [Hm Hl]. unfold state_of in *. split; unfold state_of; rewrite ?Hm, ?Hl, ?Ess; [congruence|congruence|exact Hv|].
      intros Hal wan Hin. rewrite Hquiet. by apply Ha. }
  assert (forall wan, wan ∈ WANs cfg -> exists passed,
    status_of (nextStatuses c) (wan_key wan)
    = advanced cfg wan (status_of (statuses (mod_ s)) (wan_key wan)) passed) as Hadv.
  { intros wan Hin. destruct (li_done _ _ _ _ Hinv wan Hin) as (r & _ & _ & Hn & _).
    exists (Passed r). unfold status_of at 1. rewrite Hn, Ecfg. done. }
  destruct Hr as (Hm & notes & now & Hl & _ & Halert). rewrite Eenv in Hl, Halert.
  split.
  - rewrite Hm. cbn [m_cfg with_statuses]. congruence.
  - rewrite Hm. cbn [m_env with_statuses]. congruence.
  - intros wan Hin. unfold state_of. rewrite Hm. cbn [statuses with_statuses].
    destruct (Hadv wan Hin) as [passed ->]. by apply advanced_alert, Hv.
  - intros Hal wan Hin. unfold state_of in *.
    rewrite Hl, !alert_open_skip, Halert, alert_open_skip by done.
    rewrite Hm. cbn [statuses with_statuses alert_open alert_of].
    rewrite Hal, Ecfg, (bool_decide_true (wan_key wan ∈ _)) by (by apply list_elem_of_fmap_2).
    destruct (Hadv wan Hin) as [passed Hst].
    rewrite Hst, Hquiet, Ha by done. cbn [andb].
    case_bool_decide as Heq; cbn [negb]; [by rewrite Heq|]. by apply advanced_alert; [apply Hv|].
Qed.

Lemma initial_status m wan :
  wan ∈ WANs (m_cfg m) ->
  status_of (statuses (initStatuses m)) (wan_key wan) = mkWanStatus StateUnknown 0 0.
Proof.
  unfold initStatuses. cbn [statuses with_statuses].
  generalize (∅ : gmap string wanStatus) as acc.
  induction (WANs (m_cfg m)) as [|w wans IH] using rev_ind; intros acc Hin.
  { by apply not_elem_of_nil in Hin. }
  rewrite fold_left_snoc. unfold status_of. destruct (decide (wan_key w = wan_key wan)) as [->|Hne].
  - by rewrite lookup_insert_eq.
  - rewrite lookup_insert_ne by done. apply IH.
    apply elem_of_app in Hin as [?|[->|[]%not_elem_of_nil]%elem_of_cons]; done.
Qed.

(** C13. In every run of the module from a fresh start, whatever the probes, the clock
    and the file system do, each WAN's alert is raised exactly while its committed
    verdict is unhealthy, and every committed verdict is a known one: no alert stays
    open after a recovery, none is resolved early, and a failed state-file write never
    leaves the alerts and the verdicts disagreeing. *)
Theorem alert_open_iff_unhealthy s0 s :
  NoDup (map wan_key (WANs (m_cfg (mod_ s0)))) ->
  has_Alerts (m_env (mod_ s0)) = true ->
  initial s0 -> rtc hstep s0 s ->
  forall wan, wan ∈ WANs (m_cfg (mod_ s0)) ->
    Valid (state_of (mod_ s) wan) = true /\
    alert_open (wan_key wan) (log_ s) = bool_decide (state_of (mod_ s) wan = StateUnhealthy).
Proof.
  intros Hk Hal [Hst Hlog] Hrun.
  cut (alert_inv (m_cfg (mod_ s0)) (m_env (mod_ s0)) s).
  { intros [] wan Hin. auto. }
  assert (alert_inv (m_cfg (mod_ s0)) (m_env (mod_ s0)) s0) as Hinit.
  { split; [done..| |]; unfold state_of; intros; rewrite Hst, ?Hlog, initial_status by done; done. }
  revert Hk Hinit. generalize (m_cfg (mod_ s0)), (m_env (mod_ s0)). intros cfg env Hk.
  clear Hal Hst Hlog. induction Hrun as [s|s1 s2 s3 Hstep _ IH]; [done|].
  intros Hinv. apply IH. destruct Hstep as [s|s|s Hr].
  - by apply alert_inv_cycle.
  - destruct Hinv. unfold Reconcile_start, state_of in *. by case_match; split.
  - pose proof (alert_inv_cycle cfg env s Hk Hinv) as Hc.
    unfold Reconcile_cycle, mbind, M_bind. destruct (runCycle s) as [r s']. by destruct Hc; split.
Qed.
End Cycles.

(** ** Witnesses *)

(** A world whose IPv4 probes fail and whose state file can be written or not. *)
#[local] Instance example_world : HealthWorld bool := {
  ping v6 _ _ _ w := (if v6 : bool then Ok 1 else Err "timeout", w);
  httpCheck _ _ _ _ w := (Err "refused", w);
  clockNow w := (unix_epoch * Second, w);
  atomicWrite _ _ w := (if w : bool then Ok tt else Err "read-only file system", w);
}.

Definition example_cfg : Config :=
  applyDefaults (mkConfig None "" [] [] [] 0 0 0 0 0 0 0 0
    [mkWAN (mkWANRef "fiber" "" "wan0") 0 None None [] 0 0 1 0 0;
     mkWAN (mkWANRef "lte" "" "wan1") 1 None (Some []) [] 0 0 1 0 0]).
Definition example_module : Module :=
  initStatuses (mkModule example_cfg (mkEnv true true true true) true true false ∅ ∅ ∅).
Definition example_sys (writable : bool) : sys bool := mkSys example_module writable [].

Lemma example_nodup {A} `{EqDecision A} (l : list A) : bool_decide (NoDup l) = true -> NoDup l.
Proof. apply bool_decide_eq_true. Qed.

Lemma uncarried_family_untouched_witness :
  let wan := mkWAN (mkWANRef "lte" "" "wan1") 1 None (Some []) [] 0 0 1 0 0 in
  let s' := (runCycle (example_sys true)).2 in
  (exists new, log_ s' = new ++ [] /\ forall e, e ∈ new -> ~ probe_of true wan e) /\
  family_status true (mod_ s') "lte" = wanStatus_zero.
Proof.
  apply (uncarried_family_untouched (example_sys true) true
    (mkWAN (mkWANRef "lte" "" "wan1") 1 None (Some []) [] 0 0 1 0 0)).
  - apply example_nodup. reflexivity.
  - apply example_nodup. reflexivity.
  - right. left.
  - reflexivity.
Defined.

Lemma failed_write_commits_nothing_witness :
  statuses (mod_ (runCycle (example_sys false)).2) = statuses example_module.
Proof.
  apply (failed_write_commits_nothing (example_sys false)
    "health: write state file: write runtime state: read-only file system").
  - apply example_nodup. reflexivity.
  - vm_compute. reflexivity.
Defined.

Lemma alert_open_iff_unhealthy_witness :
  alert_open "lte" (log_ (runCycle (example_sys true)).2) = true.
Proof.
  destruct (alert_open_iff_unhealthy (example_sys true) (runCycle (example_sys true)).2)
    with (wan := mkWAN (mkWANRef "lte" "" "wan1") 1 None (Some []) [] 0 0 1 0 0) as [_ H].
  - apply example_nodup. reflexivity.
  - reflexivity.
  - split; reflexivity.
  - apply rtc_once. apply step_interval.
  - right. left.
  - etransitivity; [exact H|]. vm_compute. reflexivity.
Defined.
