(* ===== verification/Rollback.v ===== *)
(** * Rollback state and snapshot listings (gateway/internal/rollback/state.go)

    The watchdog picks a rollback target from the text of [qm listsnapshot] and
    remembers finished rollbacks in a key-value file. *)

From S2P Require Import Prelude GoStrings Tier.
From Stdlib Require Import Ascii.

Local Open Scope string_scope.

(** ** Snapshot names in a listing *)

Definition not_re_space (c : ascii) : bool := negb (is_re_space c).

(** The text after a prefix. *)
Fixpoint after_prefix (p s : string) : option string :=
  match p, s with
  | EmptyString, _ => Some s
  | String a p, String b s => if Ascii.eqb a b then after_prefix p s else None
  | _, EmptyString => None
  end.

(** A match of [lit[^\s]+] at the start of the text: the longest run of
    non-space bytes after the literal, of which there must be one. *)
Definition match_here (lit s : string) : option (string * string) :=
  match after_prefix lit s with
  | Some (String c r) =>
      if is_re_space c then None
      else let run := take_while not_re_space (String c r) in
           Some (lit ++ run, drop_while not_re_space (String c r))
  | _ => None
  end.

(** [FindAllString(s, -1)]: leftmost matches, each starting after the last. *)
Fixpoint find_all (fuel : nat) (lit s : string) : list string :=
  match fuel with
  | O => []
  | S fuel =>
      match match_here lit s with
      | Some (m, rest) => m :: find_all fuel lit rest
      | None => match s with
                | EmptyString => []
                | String _ s => find_all fuel lit s
                end
      end
  end.

(** Every step consumes a byte, so the length of the text is fuel enough. *)
Definition FindAllString (lit s : string) : list string := find_all (S (String.length s)) lit s.
Definition MatchString (lit s : string) : bool :=
  match FindAllString lit s with [] => false | _ => true end.

Definition PreDeploySnapRE : string := "pre-deploy-".
Definition KnownGoodSnapRE : string := "known-good-".

Definition ExtractLatestSnapshot (qmOutput : string) : string :=
  match last (FindAllString PreDeploySnapRE qmOutput) with
  | Some name => name
  | None => match last (FindAllString KnownGoodSnapRE qmOutput) with
            | Some name => name
            | None => ""
            end
  end.

(** The first field of a listing line without its tree drawing. *)
Definition line_name (line : string) : option string :=
  match fields (trim_left " `->|" line) with
  | [] => None
  | name :: _ => Some name
  end.

Definition managed (name : string) : bool :=
  MatchString PreDeploySnapRE name || MatchString KnownGoodSnapRE name.

Definition snapshot_line (targetSnap : string) (acc : bool * list string) (line : string)
    : bool * list string :=
  let '(past, result) := acc in
  match line_name line with
  | None => acc
  | Some name =>
      if bool_decide (name = "current") then acc
      else if negb past then (bool_decide (name = targetSnap), result)
      else if managed name then (past, (result ++ [name])%list)
      else acc
  end.

Definition SnapshotsAfter (qmOutput targetSnap : string) : list string :=
  (fold_left (snapshot_line targetSnap) (split newline qmOutput) (false, [])).2.

(** ** The rollback state file *)

Definition kv_line (kv : gmap string string) (raw : string) : gmap string string :=
  let line := trim_space raw in
  if bool_decide (line = "") || has_prefix "#" line then kv
  else match cut "="%char line with
       | None => kv
       | Some (k, v) => <[trim_space k := trim_space v]> kv
       end.

Definition get (kv : gmap string string) (key : string) : string := default "" (kv !! key).

Record rollbackState := mkRollbackState {
  rs_deployTS : string;
  rs_status : string;
  rs_snapshot : string;
  rs_attempts : string;
}.

(** A read error is kept apart from a missing file, which the callers test for. *)
Definition parseRollbackStateFile (file : file_read) : res (option rollbackState) :=
  match file with
  | FileNotExist => Ok None
  | FileError e => Err ("read rollback state: " ++ e)
  | FileData data =>
      let kv := fold_left kv_line (split newline data) ∅ in
      let st := get kv "rollback_done" in
      Ok (Some (mkRollbackState (get kv "deploy_timestamp")
                  (if bool_decide (st = "true") then "done" else st)
                  (get kv "snapshot") (get kv "rollback_attempts")))
  end.

(** Whether the rollback finished and the attempts recorded; [Atoi] leaves the
    nearest representable value, or zero, when the text is not a number. *)
Definition AlreadyDone (file : file_read) (deployTS : Z) : res (bool * Z) :=
  match parseRollbackStateFile file with
  | Err e => Err e
  | Ok None => Ok (false, 0%Z)
  | Ok (Some st) =>
      if negb (bool_decide (rs_deployTS st = itoa deployTS)) then Ok (false, 0%Z)
      else Ok (bool_decide (rs_status st = "done") || bool_decide (rs_status st = "exhausted"),
               (parse_int (rs_attempts st)).1)
  end.

(** The contents [WriteState] writes. *)
Definition state_lines (deployTS : Z) (snapshot : string) (attempts : Z) (success : bool)
    (timestamp : Z) : list (string * string) :=
  [("deploy_timestamp", itoa deployTS);
   ("rollback_done", if success then "done" else "failed");
   ("rollback_timestamp", itoa (unix timestamp));
   ("snapshot", snapshot);
   ("rollback_attempts", itoa attempts)].

Definition render_kv (kv : string * string) : string := kv.1 ++ "=" ++ kv.2.

Definition WriteState_content (deployTS : Z) (snapshot : string) (attempts : Z) (success : bool)
    (timestamp : Z) : string :=
  concat_strings (map (fun kv => render_kv kv ++ String newline "")
    (state_lines deployTS snapshot attempts success timestamp)).

(** ** Lemmas *)

Lemma last_elem_of {A} (l : list A) x : last l = Some x -> x ∈ l.
Proof. intros H. apply last_Some in H as [l' ->]. set_solver. Qed.

(** What [SnapshotsAfter] promises of one listing: a prefix up to the target's
    line, then only managed names of later lines, in order. *)
Definition line_names (qmOutput : string) : list string :=
  omap line_name (split newline qmOutput).

Definition collected (names : list string) : list string :=
  List.filter (fun n => managed n && negb (bool_decide (n = "current"))) names.

Lemma snapshot_line_past target lines result :
  fold_left (snapshot_line target) lines (true, result)
  = (true, result ++ collected (omap line_name lines))%list.
Proof.
  revert result. induction lines as [|line lines IH]; intros result; cbn [fold_left omap list_omap].
  { cbn. by rewrite app_nil_r. }
  unfold snapshot_line at 2. destruct (line_name line) as [name|]; [|apply IH].
  unfold collected. cbn [List.filter]. fold (collected (omap line_name lines)).
  case_bool_decide; cbn [negb andb].
  - rewrite andb_false_r. apply IH.
  - rewrite andb_true_r. destruct (managed name); rewrite IH; [|done].
    by rewrite <- app_assoc.
Qed.

Lemma snapshot_line_before target lines :
  target <> "current" ->
  match fold_left (snapshot_line target) lines (false, []) with
  | (false, r) => r = [] /\ target ∉ omap line_name lines
  | (true, r) => exists l1 l2, omap line_name lines = (l1 ++ target :: l2)%list /\
                   target ∉ l1 /\ r = collected l2
  end.
Proof.
  intros Ht. induction lines as [|line lines IH].
  { split; [done|]. apply not_elem_of_nil. }
  cbn [fold_left omap list_omap]. unfold snapshot_line at 2.
  destruct (line_name line) as [name|]; [|exact IH].
  destruct (decide (name = target)) as [->|Hne].
  - rewrite bool_decide_false by done. cbn [negb]. rewrite bool_decide_true by done.
    rewrite snapshot_line_past. exists [], (omap line_name lines).
    split; [done|]. split; [apply not_elem_of_nil|done].
  - assert ((if bool_decide (name = "current") then (false, [])
             else if negb false then (bool_decide (name = target), [])
             else if managed name then (false, ([] ++ [name])%list) else (false, []))
            = (false, [] : list string)) as ->.
    { case_bool_decide; [done|]. cbn [negb]. by rewrite bool_decide_false. }
    destruct (fold_left _ lines _) as [[] r].
    + destruct IH as (l1 & l2 & -> & Hl1 & ->). exists (name :: l1), l2.
      split; [done|]. split; [|done]. by apply not_elem_of_cons.
    + destruct IH as [-> Hl]. split; [done|]. by apply not_elem_of_cons.
Qed.

(** Before a rollback only the target's descendants are deleted: what
    [SnapshotsAfter] returns are the managed names listed after the target's first
    line, in listing order, never the running state, and nothing at all when the
    target is not listed. *)
Lemma snapshots_after_target qmOutput target :
  target <> "current" ->
  (target ∉ line_names qmOutput /\ SnapshotsAfter qmOutput target = []) \/
  (exists l1 l2, line_names qmOutput = (l1 ++ target :: l2)%list /\ target ∉ l1 /\
     SnapshotsAfter qmOutput target
     = List.filter (fun n => managed n && negb (bool_decide (n = "current"))) l2).
Proof.
  intros Ht. unfold SnapshotsAfter, line_names.
  pose proof (snapshot_line_before target (split newline qmOutput) Ht) as H.
  destruct (fold_left _ _ _) as [[] r]; simpl.
  - right. destruct H as (l1 & l2 & ? & ? & ->). by exists l1, l2.
  - left. by destruct H.
Qed.

Definition example_listing : string :=
  "`-> pre-deploy-1  2024-01-01" ++ String newline "" ++
  " `-> known-good-2  2024-01-02" ++ String newline "" ++
  "  `-> my-known-good-3  2024-01-03" ++ String newline "" ++
  "   `-> current".

Lemma snapshots_after_target_witness :
  SnapshotsAfter example_listing "pre-deploy-1" = ["known-good-2"; "my-known-good-3"].
Proof.
  destruct (snapshots_after_target example_listing "pre-deploy-1") as [[H _]|(l1 & l2 & H1 & H2 & ->)].
  - done.
  - exfalso. apply H. vm_compute. left.
  - destruct l1 as [|x l1]; [|].
    + injection H1 as <-. reflexivity.
    + exfalso. apply H2. vm_compute in H1. injection H1 as <- _. left.
Defined.

Lemma after_prefix_app lit s : after_prefix lit (lit ++ s) = Some s.
Proof. induction lit as [|a lit IH]; [done|]. simpl. by rewrite Ascii.eqb_refl. Qed.

Lemma find_all_app fuel lit p s :
  match_here lit s <> None -> (String.length p < fuel)%nat -> find_all fuel lit (p ++ s) <> [].
Proof.
  intros Hm. revert fuel. induction p as [|a p IH]; intros fuel Hf.
  - destruct fuel as [|fuel]; [simpl in Hf; lia|]. simpl.
    by destruct (match_here lit s) as [[]|].
  - destruct fuel as [|fuel]; [simpl in Hf; lia|]. cbn [find_all String.append].
    destruct (match_here lit (String a (p ++ s))) as [[]|]; [done|].
    apply IH. simpl in Hf. lia.
Qed.

(** The naming patterns are not anchored: a snapshot counts as managed, and is
    deleted as a descendant before a rollback, whenever the watchdog's pattern occurs
    anywhere in its name, whoever named it. *)
Lemma pattern_anywhere_is_managed p c r :
  is_re_space c = false -> managed (p ++ KnownGoodSnapRE ++ String c r) = true.
Proof.
  intros Hc. unfold managed, MatchString, FindAllString. apply orb_true_iff. right.
  destruct (find_all _ KnownGoodSnapRE _) eqn:E; [|done]. exfalso. revert E.
  apply find_all_app.
  - unfold match_here. rewrite after_prefix_app, Hc. done.
  - apply Nat.lt_succ_r. clear. induction p as [|a p IH]; [apply Nat.le_0_l|]. by apply le_n_S.
Qed.

Lemma pattern_anywhere_is_managed_witness : managed "my-known-good-3" = true.
Proof. apply (pattern_anywhere_is_managed "my-" "3" ""). reflexivity. Defined.

(** ** The state file round trip *)

Lemma prefix_nil s : String.prefix "" s = true.
Proof. by destruct s. Qed.

Lemma comment_append k s : k <> "" -> has_prefix "#" (k ++ s) = has_prefix "#" k.
Proof.
  intros Hk. destruct k as [|a k]; [done|]. unfold has_prefix. cbn [String.append String.prefix].
  by rewrite !prefix_nil.
Qed.

Lemma kv_line_render kv k v :
  no_space k = true -> lacks "="%char k = true -> k <> "" -> has_prefix "#" k = false ->
  no_space v = true ->
  kv_line kv (render_kv (k, v)) = <[k := v]> kv.
Proof.
  intros Hk He Hne Hh Hv. unfold kv_line, render_kv. cbn [fst snd].
  rewrite trim_space_none by (rewrite !no_space_app, Hk, Hv; done).
  rewrite bool_decide_false by (by destruct k).
  rewrite comment_append, Hh by done.
  cbn [orb]. simpl ("=" ++ v). rewrite cut_app by done. by rewrite !trim_space_none.
Qed.

Lemma state_file_fields deployTS snapshot attempts success t :
  no_space snapshot = true ->
  parseRollbackStateFile (FileData (WriteState_content deployTS snapshot attempts success t))
  = Ok (Some (mkRollbackState (itoa deployTS) (if success then "done" else "failed")
                snapshot (itoa attempts))).
Proof.
  intros Hs. unfold parseRollbackStateFile, WriteState_content. rewrite split_lines.
  - cbn [state_lines map app fold_left].
    rewrite !kv_line_render; try done; try apply itoa_no_space; [|by destruct success].
    replace (kv_line _ "") with (<["rollback_attempts" := itoa attempts]> (<["snapshot" := snapshot]>
      (<["rollback_timestamp" := itoa (unix t)]> (<["rollback_done" := if success then "done" else "failed"]>
      (<["deploy_timestamp" := itoa deployTS]> (∅ : gmap string string)))))) by done.
    unfold get. simplify_map_eq. by destruct success.
  - assert (forall k v, no_space k = true -> no_space v = true ->
              lacks newline (render_kv (k, v)) = true) as Hl.
    { intros k v Hk Hv. apply no_space_lacks_newline. unfold render_kv. cbn [fst snd].
      by rewrite !no_space_app, Hk, Hv. }
    repeat constructor; apply Hl; try done; try apply itoa_no_space. by destruct success.
Qed.

(** The rollback ledger round-trips: after [WriteState] the watchdog reads back
    that the rollback of this deploy finished exactly when it succeeded, with the
    number of attempts written, and that a rollback for any other deploy has not been
    tried. *)
Lemma write_state_roundtrip deployTS snapshot attempts success t :
  no_space snapshot = true -> in_int64 attempts -> in_int64 deployTS ->
  let file := FileData (WriteState_content deployTS snapshot attempts success t) in
  AlreadyDone file deployTS = Ok (success, attempts) /\
  (forall other, in_int64 other -> other <> deployTS -> AlreadyDone file other = Ok (false, 0%Z)).
Proof.
  intros Hs Ha Hd. cbv zeta. unfold AlreadyDone. rewrite state_file_fields by done.
  cbn [rs_deployTS rs_status rs_attempts]. split.
  - rewrite bool_decide_true by done. rewrite parse_int_itoa by done. by destruct success.
  - intros other Ho Hne. rewrite bool_decide_false; [done|]. intros Heq.
    apply Hne. assert (parse_int (itoa deployTS) = parse_int (itoa other)) as Hp by (by rewrite Heq).
    rewrite !parse_int_itoa in Hp by done. by injection Hp.
Qed.
