(* ===== verification/WatchdogState.v ===== *)
(** * The watchdog's state and its environment
      (gateway/internal/watchdog/watchdog.go, internal/watchdogconfig/config.go,
       internal/failovercheck/failovercheck.go, internal/ops/ops.go)

    The watchdog runs on the hypervisor.  It probes connectivity, snapshots the
    gateway guest while it is healthy, rolls it back when a recent change broke
    connectivity, and moves the routes to a backup container otherwise.  Its
    operations on the hypervisor, the guest and the host's files form the classes
    [SysOps], [DeployInspector] and [Host] over an abstract world; every call and
    its result is recorded in a trace, newest first.  Logging is not modelled, nor
    are the structured fields of notifications. *)

From S2P Require Import Prelude GoStrings Effects Alert Tier Rollback.
From Stdlib Require Import Ascii.

Local Open Scope Z_scope.

(** ** Configuration *)

Record NetworkConfig := mkNetworkConfig {
  PingTargetIPv4 : string;
  PingTargetIPv6 : string;
  LastDeployPath : string;
  LastChangePath : string;
}.

Record WatchdogSection := mkWatchdogSection {
  DeployWindowMinutes : Z;
  ConnectivityTimeoutSeconds : Z;
  CheckIntervalHealthy : Z;
  CheckIntervalDegraded : Z;
  PostRollbackGraceSeconds : Z;
  DeployGracePeriodSeconds : Z;
  MaxRollbackAttempts : Z;
  MaxIterations : Z;
  SnapshotHealthyThreshold : Z;
  MaxKnownGoodSnapshots : Z;
  HashCheckEveryNHealthy : Z;
  MinSnapshotIntervalSeconds : Z;
  MaxTotalSnapshots : Z;
  VsockCID : Z;
  VsockPort : Z;
  MwanAgentTCPAddr : string;
  RollbackStateFile : string;
  RollbackLockFile : string;
}.

Definition HealthyInterval (ws : WatchdogSection) : Z := seconds (CheckIntervalHealthy ws).
Definition DegradedInterval (ws : WatchdogSection) : Z := seconds (CheckIntervalDegraded ws).
Definition PostRollbackGrace (ws : WatchdogSection) : Z := seconds (PostRollbackGraceSeconds ws).

Record FailoverSection := mkFailoverSection { LXCID : string; AgentTCPAddr : string }.

Definition GuestTypeQEMU : string := "qemu".
Definition GuestTypeLXC : string := "lxc".

Record Config := mkConfig {
  MwanVMID : string;
  GuestType : string;
  Network : NetworkConfig;
  Watchdog : WatchdogSection;
  Failover : FailoverSection;
}.

(** ** Failover preconditions *)

Inductive failover_error :=
| MissingLXCID | MissingVMID | SameGuest | MissingAgentAddr | BadAgentAddr (e : error)
| NoPrimaryEndpoint.

Definition isHostnameByte (c : ascii) : bool :=
  let v := byte_val c in
  ((97 <=? v) && (v <=? 122)) || ((65 <=? v) && (v <=? 90)) || ((48 <=? v) && (v <=? 57))
  || (v =? 45).

Fixpoint last_byte (s : string) : option ascii :=
  match s with
  | EmptyString => None
  | String c EmptyString => Some c
  | String _ s => last_byte s
  end.

Definition is_dash (c : option ascii) : bool := bool_decide (c = Some "-"%char).

Definition isHostnameLabel (label : string) : bool :=
  negb (bool_decide (label = ""%string))
  && (Z.of_nat (String.length label) <=? 63)
  && negb (is_dash (String.get 0 label)) && negb (is_dash (last_byte label))
  && all_chars isHostnameByte label.

Definition isAddressOrHostname (parsesAsAddr : string -> bool) (host : string) : bool :=
  parsesAsAddr host
  || ((Z.of_nat (String.length host) <=? 253) && forallb isHostnameLabel (split "."%char host)).

(** What the check reads of the standard library's address parsers, and the
    quotation of [%q]. *)
Record AddressParsers := mkAddressParsers {
  SplitHostPort : string -> res (string * string);
  ParsesAsAddr : string -> bool;
  ParsePort : string -> res Z;
  Quote : string -> string;
}.

Definition validateHostPort (p : AddressParsers) (address : string) : res unit :=
  match SplitHostPort p address with
  | Err e => Err ("split host and port: " +:+ e)%string
  | Ok (host, portText) =>
      if bool_decide (host = ""%string) then Err "host is empty"
      else if negb (isAddressOrHostname (ParsesAsAddr p) host)
      then Err "host is neither an ip address nor a dns hostname"
      else match ParsePort p portText with
           | Err e => Err ("port " +:+ Quote p portText +:+ ": " +:+ e)%string
           | Ok port => if port =? 0 then Err "port is zero" else Ok tt
           end
  end.

Definition fail_if (cond : bool) (e : failover_error) : list failover_error :=
  if cond then [e] else [].

(** [failovercheck.Check]: one error per failed precondition. *)
Definition Check (p : AddressParsers) (cfg : Config) : list failover_error :=
  let lxc := LXCID (Failover cfg) in
  fail_if (bool_decide (lxc = ""%string)) MissingLXCID ++
  fail_if (bool_decide (MwanVMID cfg = ""%string)) MissingVMID ++
  fail_if (negb (bool_decide (lxc = ""%string)) && bool_decide (lxc = MwanVMID cfg)) SameGuest ++
  (if bool_decide (AgentTCPAddr (Failover cfg) = ""%string) then [MissingAgentAddr]
   else match validateHostPort p (AgentTCPAddr (Failover cfg)) with
        | Ok _ => []
        | Err e => [BadAgentAddr e]
        end) ++
  fail_if ((VsockCID (Watchdog cfg) =? 0)
           && bool_decide (MwanAgentTCPAddr (Watchdog cfg) = ""%string)) NoPrimaryEndpoint.

Definition failover_error_text (p : AddressParsers) (cfg : Config) (e : failover_error) : error :=
  match e with
  | MissingLXCID => "[failover] lxc_id is required"
  | MissingVMID => "mwan_vmid is required"
  | SameGuest => "[failover] lxc_id and mwan_vmid must differ; both are " +:+ Quote p (MwanVMID cfg)
  | MissingAgentAddr => "[failover] agent_tcp_addr is required"
  | BadAgentAddr e => "[failover] agent_tcp_addr " +:+ Quote p (AgentTCPAddr (Failover cfg))
                      +:+ " is not a valid host:port: " +:+ e
  | NoPrimaryEndpoint => "no primary endpoint: set [watchdog] vsock_cid or mwan_agent_tcp_addr"
  end%string.

(** ** State *)

Record watchdog := mkWatchdog {
  wd_cfg : Config;
  requireCompleteBackup : bool;
  exitFn : bool;
  coord : Coord;
  limiter : Limiter;
  lastState : string;
  vmStoppedLogged : bool;
  recoveredFromRollback : bool;
  consecutiveTotalFails : Z;
  totalDownStartUnix : Z;
  lastHeartbeat : Z;
  probeLog : list string;
  lastConfigHash : string;
  lastManifest : gmap string string;
  hashChangeWindowStart : Z;
  consecutiveHealthy : Z;
  lastSnapshotAt : Z;
  healthyCyclesForHash : Z;
  consecutiveSnapshotFails : Z;
  snapshotBackoffUntil : Z;
  forcedDeletes : Z;
  postRollbackGraceUntil : Z;
  lastHashCheckOK : bool;
  totalFailStart : Z;
  failoverActive : bool;
  failoverStartedAt : Z;
  failoverReason : string;
}.

(** One setter per field the handlers assign. *)
Definition set_requireCompleteBackup (v : bool) (w : watchdog) : watchdog :=
  mkWatchdog (wd_cfg w) v (exitFn w) (coord w) (limiter w) (lastState w)
    (vmStoppedLogged w) (recoveredFromRollback w) (consecutiveTotalFails w)
    (totalDownStartUnix w) (lastHeartbeat w) (probeLog w) (lastConfigHash w)
    (lastManifest w) (hashChangeWindowStart w) (consecutiveHealthy w) (lastSnapshotAt w)
    (healthyCyclesForHash w) (consecutiveSnapshotFails w) (snapshotBackoffUntil w)
    (forcedDeletes w) (postRollbackGraceUntil w) (lastHashCheckOK w) (totalFailStart w)
    (failoverActive w) (failoverStartedAt w) (failoverReason w).
Definition set_coord (v : Coord) (w : watchdog) : watchdog :=
  mkWatchdog (wd_cfg w) (requireCompleteBackup w) (exitFn w) v (limiter w) (lastState w)
    (vmStoppedLogged w) (recoveredFromRollback w) (consecutiveTotalFails w)
    (totalDownStartUnix w) (lastHeartbeat w) (probeLog w) (lastConfigHash w)
    (lastManifest w) (hashChangeWindowStart w) (consecutiveHealthy w) (lastSnapshotAt w)
    (healthyCyclesForHash w) (consecutiveSnapshotFails w) (snapshotBackoffUntil w)
    (forcedDeletes w) (postRollbackGraceUntil w) (lastHashCheckOK w) (totalFailStart w)
    (failoverActive w) (failoverStartedAt w) (failoverReason w).
Definition set_limiter (v : Limiter) (w : watchdog) : watchdog :=
  mkWatchdog (wd_cfg w) (requireCompleteBackup w) (exitFn w) (coord w) v (lastState w)
    (vmStoppedLogged w) (recoveredFromRollback w) (consecutiveTotalFails w)
    (totalDownStartUnix w) (lastHeartbeat w) (probeLog w) (lastConfigHash w)
    (lastManifest w) (hashChangeWindowStart w) (consecutiveHealthy w) (lastSnapshotAt w)
    (healthyCyclesForHash w) (consecutiveSnapshotFails w) (snapshotBackoffUntil w)
    (forcedDeletes w) (postRollbackGraceUntil w) (lastHashCheckOK w) (totalFailStart w)
    (failoverActive w) (failoverStartedAt w) (failoverReason w).
Definition set_lastState (v : string) (w : watchdog) : watchdog :=
  mkWatchdog (wd_cfg w) (requireCompleteBackup w) (exitFn w) (coord w) (limiter w) v
    (vmStoppedLogged w) (recoveredFromRollback w) (consecutiveTotalFails w)
    (totalDownStartUnix w) (lastHeartbeat w) (probeLog w) (lastConfigHash w)
    (lastManifest w) (hashChangeWindowStart w) (consecutiveHealthy w) (lastSnapshotAt w)
    (healthyCyclesForHash w) (consecutiveSnapshotFails w) (snapshotBackoffUntil w)
    (forcedDeletes w) (postRollbackGraceUntil w) (lastHashCheckOK w) (totalFailStart w)
    (failoverActive w) (failoverStartedAt w) (failoverReason w).
Definition set_vmStoppedLogged (v : bool) (w : watchdog) : watchdog :=
  mkWatchdog (wd_cfg w) (requireCompleteBackup w) (exitFn w) (coord w) (limiter w)
    (lastState w) v (recoveredFromRollback w) (consecutiveTotalFails w)
    (totalDownStartUnix w) (lastHeartbeat w) (probeLog w) (lastConfigHash w)
    (lastManifest w) (hashChangeWindowStart w) (consecutiveHealthy w) (lastSnapshotAt w)
    (healthyCyclesForHash w) (consecutiveSnapshotFails w) (snapshotBackoffUntil w)
    (forcedDeletes w) (postRollbackGraceUntil w) (lastHashCheckOK w) (totalFailStart w)
    (failoverActive w) (failoverStartedAt w) (failoverReason w).
Definition set_recoveredFromRollback (v : bool) (w : watchdog) : watchdog :=
  mkWatchdog (wd_cfg w) (requireCompleteBackup w) (exitFn w) (coord w) (limiter w)
    (lastState w) (vmStoppedLogged w) v (consecutiveTotalFails w) (totalDownStartUnix w)
    (lastHeartbeat w) (probeLog w) (lastConfigHash w) (lastManifest w)
    (hashChangeWindowStart w) (consecutiveHealthy w) (lastSnapshotAt w)
    (healthyCyclesForHash w) (consecutiveSnapshotFails w) (snapshotBackoffUntil w)
    (forcedDeletes w) (postRollbackGraceUntil w) (lastHashCheckOK w) (totalFailStart w)
    (failoverActive w) (failoverStartedAt w) (failoverReason w).
Definition set_consecutiveTotalFails (v : Z) (w : watchdog) : watchdog :=
  mkWatchdog (wd_cfg w) (requireCompleteBackup w) (exitFn w) (coord w) (limiter w)
    (lastState w) (vmStoppedLogged w) (recoveredFromRollback w) v (totalDownStartUnix w)
    (lastHeartbeat w) (probeLog w) (lastConfigHash w) (lastManifest w)
    (hashChangeWindowStart w) (consecutiveHealthy w) (lastSnapshotAt w)
    (healthyCyclesForHash w) (consecutiveSnapshotFails w) (snapshotBackoffUntil w)
    (forcedDeletes w) (postRollbackGraceUntil w) (lastHashCheckOK w) (totalFailStart w)
    (failoverActive w) (failoverStartedAt w) (failoverReason w).
Definition set_totalDownStartUnix (v : Z) (w : watchdog) : watchdog :=
  mkWatchdog (wd_cfg w) (requireCompleteBackup w) (exitFn w) (coord w) (limiter w)
    (lastState w) (vmStoppedLogged w) (recoveredFromRollback w) (consecutiveTotalFails w) v
    (lastHeartbeat w) (probeLog w) (lastConfigHash w) (lastManifest w)
    (hashChangeWindowStart w) (consecutiveHealthy w) (lastSnapshotAt w)
    (healthyCyclesForHash w) (consecutiveSnapshotFails w) (snapshotBackoffUntil w)
    (forcedDeletes w) (postRollbackGraceUntil w) (lastHashCheckOK w) (totalFailStart w)
    (failoverActive w) (failoverStartedAt w) (failoverReason w).
Definition set_lastHeartbeat (v : Z) (w : watchdog) : watchdog :=
  mkWatchdog (wd_cfg w) (requireCompleteBackup w) (exitFn w) (coord w) (limiter w)
    (lastState w) (vmStoppedLogged w) (recoveredFromRollback w) (consecutiveTotalFails w)
    (totalDownStartUnix w) v (probeLog w) (lastConfigHash w) (lastManifest w)
    (hashChangeWindowStart w) (consecutiveHealthy w) (lastSnapshotAt w)
    (healthyCyclesForHash w) (consecutiveSnapshotFails w) (snapshotBackoffUntil w)
    (forcedDeletes w) (postRollbackGraceUntil w) (lastHashCheckOK w) (totalFailStart w)
    (failoverActive w) (failoverStartedAt w) (failoverReason w).
Definition set_probeLog (v : list string) (w : watchdog) : watchdog :=
  mkWatchdog (wd_cfg w) (requireCompleteBackup w) (exitFn w) (coord w) (limiter w)
    (lastState w) (vmStoppedLogged w) (recoveredFromRollback w) (consecutiveTotalFails w)
    (totalDownStartUnix w) (lastHeartbeat w) v (lastConfigHash w) (lastManifest w)
    (hashChangeWindowStart w) (consecutiveHealthy w) (lastSnapshotAt w)
    (healthyCyclesForHash w) (consecutiveSnapshotFails w) (snapshotBackoffUntil w)
    (forcedDeletes w) (postRollbackGraceUntil w) (lastHashCheckOK w) (totalFailStart w)
    (failoverActive w) (failoverStartedAt w) (failoverReason w).
Definition set_lastConfigHash (v : string) (w : watchdog) : watchdog :=
  mkWatchdog (wd_cfg w) (requireCompleteBackup w) (exitFn w) (coord w) (limiter w)
    (lastState w) (vmStoppedLogged w) (recoveredFromRollback w) (consecutiveTotalFails w)
    (totalDownStartUnix w) (lastHeartbeat w) (probeLog w) v (lastManifest w)
    (hashChangeWindowStart w) (consecutiveHealthy w) (lastSnapshotAt w)
    (healthyCyclesForHash w) (consecutiveSnapshotFails w) (snapshotBackoffUntil w)
    (forcedDeletes w) (postRollbackGraceUntil w) (lastHashCheckOK w) (totalFailStart w)
    (failoverActive w) (failoverStartedAt w) (failoverReason w).
Definition set_lastManifest (v : gmap string string) (w : watchdog) : watchdog :=
  mkWatchdog (wd_cfg w) (requireCompleteBackup w) (exitFn w) (coord w) (limiter w)
    (lastState w) (vmStoppedLogged w) (recoveredFromRollback w) (consecutiveTotalFails w)
    (totalDownStartUnix w) (lastHeartbeat w) (probeLog w) (lastConfigHash w) v
    (hashChangeWindowStart w) (consecutiveHealthy w) (lastSnapshotAt w)
    (healthyCyclesForHash w) (consecutiveSnapshotFails w) (snapshotBackoffUntil w)
    (forcedDeletes w) (postRollbackGraceUntil w) (lastHashCheckOK w) (totalFailStart w)
    (failoverActive w) (failoverStartedAt w) (failoverReason w).
Definition set_hashChangeWindowStart (v : Z) (w : watchdog) : watchdog :=
  mkWatchdog (wd_cfg w) (requireCompleteBackup w) (exitFn w) (coord w) (limiter w)
    (lastState w) (vmStoppedLogged w) (recoveredFromRollback w) (consecutiveTotalFails w)
    (totalDownStartUnix w) (lastHeartbeat w) (probeLog w) (lastConfigHash w)
    (lastManifest w) v (consecutiveHealthy w) (lastSnapshotAt w) (healthyCyclesForHash w)
    (consecutiveSnapshotFails w) (snapshotBackoffUntil w) (forcedDeletes w)
    (postRollbackGraceUntil w) (lastHashCheckOK w) (totalFailStart w) (failoverActive w)
    (failoverStartedAt w) (failoverReason w).
Definition set_consecutiveHealthy (v : Z) (w : watchdog) : watchdog :=
  mkWatchdog (wd_cfg w) (requireCompleteBackup w) (exitFn w) (coord w) (limiter w)
    (lastState w) (vmStoppedLogged w) (recoveredFromRollback w) (consecutiveTotalFails w)
    (totalDownStartUnix w) (lastHeartbeat w) (probeLog w) (lastConfigHash w)
    (lastManifest w) (hashChangeWindowStart w) v (lastSnapshotAt w) (healthyCyclesForHash w)
    (consecutiveSnapshotFails w) (snapshotBackoffUntil w) (forcedDeletes w)
    (postRollbackGraceUntil w) (lastHashCheckOK w) (totalFailStart w) (failoverActive w)
    (failoverStartedAt w) (failoverReason w).
Definition set_lastSnapshotAt (v : Z) (w : watchdog) : watchdog :=
  mkWatchdog (wd_cfg w) (requireCompleteBackup w) (exitFn w) (coord w) (limiter w)
    (lastState w) (vmStoppedLogged w) (recoveredFromRollback w) (consecutiveTotalFails w)
    (totalDownStartUnix w) (lastHeartbeat w) (probeLog w) (lastConfigHash w)
    (lastManifest w) (hashChangeWindowStart w) (consecutiveHealthy w) v
    (healthyCyclesForHash w) (consecutiveSnapshotFails w) (snapshotBackoffUntil w)
    (forcedDeletes w) (postRollbackGraceUntil w) (lastHashCheckOK w) (totalFailStart w)
    (failoverActive w) (failoverStartedAt w) (failoverReason w).
Definition set_healthyCyclesForHash (v : Z) (w : watchdog) : watchdog :=
  mkWatchdog (wd_cfg w) (requireCompleteBackup w) (exitFn w) (coord w) (limiter w)
    (lastState w) (vmStoppedLogged w) (recoveredFromRollback w) (consecutiveTotalFails w)
    (totalDownStartUnix w) (lastHeartbeat w) (probeLog w) (lastConfigHash w)
    (lastManifest w) (hashChangeWindowStart w) (consecutiveHealthy w) (lastSnapshotAt w) v
    (consecutiveSnapshotFails w) (snapshotBackoffUntil w) (forcedDeletes w)
    (postRollbackGraceUntil w) (lastHashCheckOK w) (totalFailStart w) (failoverActive w)
    (failoverStartedAt w) (failoverReason w).
Definition set_consecutiveSnapshotFails (v : Z) (w : watchdog) : watchdog :=
  mkWatchdog (wd_cfg w) (requireCompleteBackup w) (exitFn w) (coord w) (limiter w)
    (lastState w) (vmStoppedLogged w) (recoveredFromRollback w) (consecutiveTotalFails w)
    (totalDownStartUnix w) (lastHeartbeat w) (probeLog w) (lastConfigHash w)
    (lastManifest w) (hashChangeWindowStart w) (consecutiveHealthy w) (lastSnapshotAt w)
    (healthyCyclesForHash w) v (snapshotBackoffUntil w) (forcedDeletes w)
    (postRollbackGraceUntil w) (lastHashCheckOK w) (totalFailStart w) (failoverActive w)
    (failoverStartedAt w) (failoverReason w).
Definition set_snapshotBackoffUntil (v : Z) (w : watchdog) : watchdog :=
  mkWatchdog (wd_cfg w) (requireCompleteBackup w) (exitFn w) (coord w) (limiter w)
    (lastState w) (vmStoppedLogged w) (recoveredFromRollback w) (consecutiveTotalFails w)
    (totalDownStartUnix w) (lastHeartbeat w) (probeLog w) (lastConfigHash w)
    (lastManifest w) (hashChangeWindowStart w) (consecutiveHealthy w) (lastSnapshotAt w)
    (healthyCyclesForHash w) (consecutiveSnapshotFails w) v (forcedDeletes w)
    (postRollbackGraceUntil w) (lastHashCheckOK w) (totalFailStart w) (failoverActive w)
    (failoverStartedAt w) (failoverReason w).
Definition set_forcedDeletes (v : Z) (w : watchdog) : watchdog :=
  mkWatchdog (wd_cfg w) (requireCompleteBackup w) (exitFn w) (coord w) (limiter w)
    (lastState w) (vmStoppedLogged w) (recoveredFromRollback w) (consecutiveTotalFails w)
    (totalDownStartUnix w) (lastHeartbeat w) (probeLog w) (lastConfigHash w)
    (lastManifest w) (hashChangeWindowStart w) (consecutiveHealthy w) (lastSnapshotAt w)
    (healthyCyclesForHash w) (consecutiveSnapshotFails w) (snapshotBackoffUntil w) v
    (postRollbackGraceUntil w) (lastHashCheckOK w) (totalFailStart w) (failoverActive w)
    (failoverStartedAt w) (failoverReason w).
Definition set_postRollbackGraceUntil (v : Z) (w : watchdog) : watchdog :=
  mkWatchdog (wd_cfg w) (requireCompleteBackup w) (exitFn w) (coord w) (limiter w)
    (lastState w) (vmStoppedLogged w) (recoveredFromRollback w) (consecutiveTotalFails w)
    (totalDownStartUnix w) (lastHeartbeat w) (probeLog w) (lastConfigHash w)
    (lastManifest w) (hashChangeWindowStart w) (consecutiveHealthy w) (lastSnapshotAt w)
    (healthyCyclesForHash w) (consecutiveSnapshotFails w) (snapshotBackoffUntil w)
    (forcedDeletes w) v (lastHashCheckOK w) (totalFailStart w) (failoverActive w)
    (failoverStartedAt w) (failoverReason w).
Definition set_lastHashCheckOK (v : bool) (w : watchdog) : watchdog :=
  mkWatchdog (wd_cfg w) (requireCompleteBackup w) (exitFn w) (coord w) (limiter w)
    (lastState w) (vmStoppedLogged w) (recoveredFromRollback w) (consecutiveTotalFails w)
    (totalDownStartUnix w) (lastHeartbeat w) (probeLog w) (lastConfigHash w)
    (lastManifest w) (hashChangeWindowStart w) (consecutiveHealthy w) (lastSnapshotAt w)
    (healthyCyclesForHash w) (consecutiveSnapshotFails w) (snapshotBackoffUntil w)
    (forcedDeletes w) (postRollbackGraceUntil w) v (totalFailStart w) (failoverActive w)
    (failoverStartedAt w) (failoverReason w).
Definition set_totalFailStart (v : Z) (w : watchdog) : watchdog :=
  mkWatchdog (wd_cfg w) (requireCompleteBackup w) (exitFn w) (coord w) (limiter w)
    (lastState w) (vmStoppedLogged w) (recoveredFromRollback w) (consecutiveTotalFails w)
    (totalDownStartUnix w) (lastHeartbeat w) (probeLog w) (lastConfigHash w)
    (lastManifest w) (hashChangeWindowStart w) (consecutiveHealthy w) (lastSnapshotAt w)
    (healthyCyclesForHash w) (consecutiveSnapshotFails w) (snapshotBackoffUntil w)
    (forcedDeletes w) (postRollbackGraceUntil w) (lastHashCheckOK w) v (failoverActive w)
    (failoverStartedAt w) (failoverReason w).
Definition set_failoverActive (v : bool) (w : watchdog) : watchdog :=
  mkWatchdog (wd_cfg w) (requireCompleteBackup w) (exitFn w) (coord w) (limiter w)
    (lastState w) (vmStoppedLogged w) (recoveredFromRollback w) (consecutiveTotalFails w)
    (totalDownStartUnix w) (lastHeartbeat w) (probeLog w) (lastConfigHash w)
    (lastManifest w) (hashChangeWindowStart w) (consecutiveHealthy w) (lastSnapshotAt w)
    (healthyCyclesForHash w) (consecutiveSnapshotFails w) (snapshotBackoffUntil w)
    (forcedDeletes w) (postRollbackGraceUntil w) (lastHashCheckOK w) (totalFailStart w) v
    (failoverStartedAt w) (failoverReason w).
Definition set_failoverStartedAt (v : Z) (w : watchdog) : watchdog :=
  mkWatchdog (wd_cfg w) (requireCompleteBackup w) (exitFn w) (coord w) (limiter w)
    (lastState w) (vmStoppedLogged w) (recoveredFromRollback w) (consecutiveTotalFails w)
    (totalDownStartUnix w) (lastHeartbeat w) (probeLog w) (lastConfigHash w)
    (lastManifest w) (hashChangeWindowStart w) (consecutiveHealthy w) (lastSnapshotAt w)
    (healthyCyclesForHash w) (consecutiveSnapshotFails w) (snapshotBackoffUntil w)
    (forcedDeletes w) (postRollbackGraceUntil w) (lastHashCheckOK w) (totalFailStart w)
    (failoverActive w) v (failoverReason w).
Definition set_failoverReason (v : string) (w : watchdog) : watchdog :=
  mkWatchdog (wd_cfg w) (requireCompleteBackup w) (exitFn w) (coord w) (limiter w)
    (lastState w) (vmStoppedLogged w) (recoveredFromRollback w) (consecutiveTotalFails w)
    (totalDownStartUnix w) (lastHeartbeat w) (probeLog w) (lastConfigHash w)
    (lastManifest w) (hashChangeWindowStart w) (consecutiveHealthy w) (lastSnapshotAt w)
    (healthyCyclesForHash w) (consecutiveSnapshotFails w) (snapshotBackoffUntil w)
    (forcedDeletes w) (postRollbackGraceUntil w) (lastHashCheckOK w) (totalFailStart w)
    (failoverActive w) (failoverStartedAt w) v.

Definition stateUnknown : string := "unknown".
Definition stateHealthy : string := "healthy".
Definition statePartial : string := "partial".
Definition stateDown : string := "down".
Definition stateVMStopped : string := "vm_stopped".

(** [newWatchdog]; [exitFn] says whether the exit hook is set, which it is not. *)
Definition newWatchdog (cfg : Config) (alertCooldownSeconds : Z) : watchdog :=
  mkWatchdog cfg false false Coord_zero (NewLimiter alertCooldownSeconds) "" false false 0 0 zero_time
    [] "" ∅ 0 0 zero_time 0 0 zero_time 0 zero_time false zero_time false zero_time "".

(** ** The environment *)

Record GuestExecResult := mkGuestExecResult { ExitCode : Z; Stdout : string; Stderr : string }.

(** The fields of the agent's BGP status the watchdog reads; a nil response is
    [None] and its getters answer false. *)
Record BGPStatus := mkBGPStatus {
  AllEstablished : bool;
  Announcing : bool;
  AnnouncingIpv4 : bool;
  AnnouncingIpv6 : bool;
}.

Definition getter (f : BGPStatus -> bool) (s : option BGPStatus) : bool :=
  match s with Some s => f s | None => false end.

Record ConfigState := mkConfigState { ConfigHash : string; ConfigManifest : string }.

Inductive stat_result := StatOk | StatNotExist | StatError.

(** [ops.SysOps]. *)
Class SysOps (W : Type) := {
  VMStatus : string -> W -> res bool * W;
  VMStart : string -> W -> res unit * W;
  VMStop : string -> W -> res unit * W;
  VMSnapshots : string -> W -> res string * W;
  VMSnapshot : string -> string -> W -> res unit * W;
  VMDelSnapshot : string -> string -> W -> res unit * W;
  VMDelSnapshotForce : string -> string -> W -> res unit * W;
  VMRollback : string -> string -> W -> res unit * W;
  GuestExec : string -> list string -> W -> res GuestExecResult * W;
  Ping : string -> string -> W -> bool * W;
  GetConfigState : string -> W -> res (ConfigState * string) * W;
  GetBGPStatus : string -> W -> res (option BGPStatus) * W;
  AnnounceRoutes : string -> W -> res unit * W;
  WithdrawRoutes : string -> W -> res unit * W;
  VMLock : string -> W -> res string * W;
  VMUnlock : string -> W -> res unit * W;
  VMHasRunningTask : string -> W -> res bool * W;
  VMFSFreezeStatus : string -> W -> res string * W;
  VMFSFreezeThaw : string -> W -> res unit * W;
}.

(** Clock, cancellation, files and the cross-process recovery lock; [signalled]
    says whether the signal goroutine saw a shutdown signal while a rollback ran. *)
Class Host (W : Type) := {
  now : W -> Z * W;
  sleep : Z -> W -> bool * W;
  ctxDone : W -> bool * W;
  signalled : W -> bool * W;
  readFile : string -> W -> file_read * W;
  writeFile : string -> string -> W -> res unit * W;
  removeFile : string -> W -> res unit * W;
  statFile : string -> W -> stat_result * W;
  acquire : string -> Z -> W -> res unit * W;
  release : W -> unit * W;
  statusLatest : W -> option (Status * Z) * W;
  hasStatusSource : bool;
  addressParsers : AddressParsers;
  formatStamp : Z -> string;
  durationString : Z -> string;
}.

(** The deployment operation a coordinated deploy leaves for the watchdog: its
    stored record, the check of its watch process and its recovery
    (gateway/internal/deployoperation). *)
Inductive OpStatus := Armed | Recovering | Recovered | RecoveryFailed | Committed | Disarmed.

Record operation := mkOperation {
  op_VMID : string;
  op_Status : OpStatus;
  op_Deadline : Z;
}.

Inductive operation_read := OperationRecord (o : operation) | OperationNotExist | OperationError.

Class DeployInspector (W : Type) := {
  readOperation : string -> W -> operation_read * W;
  verifyWatch : W -> res unit * W;
  recoverCoordinated : W -> res unit * W;
  isRealOps : bool;
}.

(** ** The trace *)

Inductive event :=
| EvVMStatus (vm : string) (r : res bool)
| EvVMStart (vm : string) (r : res unit)
| EvVMStop (vm : string) (r : res unit)
| EvVMSnapshots (vm : string) (r : res string)
| EvVMSnapshot (vm name : string) (r : res unit)
| EvVMDelSnapshot (vm name : string) (r : res unit)
| EvVMDelSnapshotForce (vm name : string) (r : res unit)
| EvVMRollback (vm snap : string) (r : res unit)
| EvGuestExec (vm : string) (args : list string) (r : res GuestExecResult)
| EvPing (bin target : string) (ok : bool)
| EvGetConfigState (vm : string) (r : res (ConfigState * string))
| EvGetBGPStatus (vm : string) (r : res (option BGPStatus))
| EvAnnounceRoutes (vm : string) (r : res unit)
| EvWithdrawRoutes (vm : string) (r : res unit)
| EvVMLock (vm : string) (r : res string)
| EvVMUnlock (vm : string) (r : res unit)
| EvVMHasRunningTask (vm : string) (r : res bool)
| EvVMFSFreezeStatus (vm : string) (r : res string)
| EvVMFSFreezeThaw (vm : string) (r : res unit)
| EvReadFile (path : string) (r : file_read)
| EvWriteFile (path contents : string) (r : res unit)
| EvRemoveFile (path : string) (r : res unit)
| EvStatFile (path : string) (r : stat_result)
| EvAcquire (path : string) (r : res unit)
| EvRelease
| EvSleep (d : Z) (completed : bool)
| EvRollingBack (v : bool)
| EvExit
| EvReadOperation (r : operation_read)
| EvVerifyWatch (r : res unit)
| EvRecoverCoordinated (r : res unit)
| EvAlert (total : bool)
| EvNotify (level : Z) (kind key msg : string)
| EvResolve (kind key msg : string).

Record wsys (W : Type) := mkWsys { wd : watchdog; world : W; trace : list event }.
Arguments mkWsys {W}.
Arguments wd {W}.
Arguments world {W}.
Arguments trace {W}.
