(* ===== verification/Watchdog.v ===== *)
(** * The watchdog's handlers
      (gateway/internal/watchdog/{watchdog,failover,snapshot_recovery,freeze,startup,
       diagnosis,probe,confighash,deploy_operation}.go)

    Every handler is a program over the watchdog's state, its world and the trace, one
    definition per function of the source; a function with deferred work is split at the
    point the deferred work surrounds.  [run] is startup, the recovery of an interrupted
    rollback and the loop. *)

From S2P Require Import Prelude GoStrings Effects Notify Alert Tier Rollback WatchdogState.
From Stdlib Require Import Ascii.

Local Open Scope Z_scope.

(** ** Pure helpers *)

Definition heartbeatInterval : Z := 5 * Minute.
Definition snapshotFailureBackoffBase : Z := 5 * Minute.
Definition snapshotFailureBackoffCap : Z := Hour.
Definition snapshotFailureAlertThreshold : Z := 3.
Definition maxConsecutiveForcedDeletes : Z := 3.
Definition storageSnapshotMissingMarker : string := "could not find any snapshots to destroy".
Definition recoverableLocks : list string := ["snapshot"; "snapshot-delete"]%string.

Fixpoint backoff_loop (n : nat) (backoff : Z) : Z :=
  match n with
  | O => backoff
  | S n =>
      let backoff := wrap64 (backoff * 2) in
      if snapshotFailureBackoffCap <=? backoff then snapshotFailureBackoffCap
      else backoff_loop n backoff
  end.

Definition snapshotFailureBackoff (failures : Z) : Z :=
  if failures <=? 1 then snapshotFailureBackoffBase
  else backoff_loop (Z.to_nat (failures - 1)) snapshotFailureBackoffBase.

(** One line of a manifest in sha256sum(1) format. *)
Definition manifest_line (m : gmap string string) (raw : string) : gmap string string :=
  let line := trim_space raw in
  if bool_decide (line = ""%string) then m
  else if (Z.of_nat (String.length line) <? 66)
          || negb (bool_decide (String.get 64 line = Some " "%char))
          || negb (bool_decide (String.get 65 line = Some " "%char)) then m
  else
    let path := String.substring 66 (String.length line - 66) line in
    if bool_decide (path = ""%string) then m
    else <[path := String.substring 0 64 line]> m.

Definition parseManifest (raw : string) : gmap string string :=
  fold_left manifest_line (split newline raw) ∅.

Fixpoint join (sep : string) (l : list string) : string :=
  match l with
  | [] => ""
  | [x] => x
  | x :: l => (x +:+ sep +:+ join sep l)%string
  end.

(** [d.Round(unit)]: to the nearest multiple, halves away from zero. *)
Definition round_to (unit d : Z) : Z :=
  let r := Z.rem d unit in
  if 0 <=? d then (if r + r <? unit then d - r else wrap64 (d + (unit - r)))
  else (if - r - r <? unit then d - r else wrap64 (d - (unit + r))).

Section Watchdog.
Context {W : Type} `{!SysOps W, !Host W, !DeployInspector W}.

Abbreviation WM := (M (wsys W)).

(** ** Primitive actions *)

(** A call on the environment, recorded with its result. *)
Definition call {A} (f : W -> A * W) (ev : A -> event) : WM A :=
  fun s => let '(a, w') := f (world s) in (a, mkWsys (wd s) w' (ev a :: trace s)).

(** A look at the environment that is not recorded. *)
Definition peek {A} (f : W -> A * W) : WM A :=
  fun s => let '(a, w') := f (world s) in (a, mkWsys (wd s) w' (trace s)).

Definition record (e : event) : WM unit :=
  modify (fun s => mkWsys (wd s) (world s) (e :: trace s)).

Definition upd (f : watchdog -> watchdog) : WM unit :=
  modify (fun s => mkWsys (f (wd s)) (world s) (trace s)).

Definition field {A} (f : watchdog -> A) : WM A := gets (fun s => f (wd s)).
Definition cfgOf : WM Config := field wd_cfg.
Definition vmid : WM string := field (fun w => MwanVMID (wd_cfg w)).

Definition getNow : WM Z := peek now.
Definition since (start : Z) : WM Z := n ← getNow; mret (sub_time n start).

Definition vmStatus vm : WM (res bool) := call (VMStatus vm) (EvVMStatus vm).
Definition vmStart vm : WM (res unit) := call (VMStart vm) (EvVMStart vm).
Definition vmStop vm : WM (res unit) := call (VMStop vm) (EvVMStop vm).
Definition vmSnapshots vm : WM (res string) := call (VMSnapshots vm) (EvVMSnapshots vm).
Definition vmSnapshot vm name : WM (res unit) := call (VMSnapshot vm name) (EvVMSnapshot vm name).
Definition vmDelSnapshot vm name : WM (res unit) :=
  call (VMDelSnapshot vm name) (EvVMDelSnapshot vm name).
Definition vmDelSnapshotForce vm name : WM (res unit) :=
  call (VMDelSnapshotForce vm name) (EvVMDelSnapshotForce vm name).
Definition vmRollback vm snap : WM (res unit) := call (VMRollback vm snap) (EvVMRollback vm snap).
Definition guestExec vm args : WM (res GuestExecResult) :=
  call (GuestExec vm args) (EvGuestExec vm args).
Definition ping bin target : WM bool := call (Ping bin target) (EvPing bin target).
Definition getConfigState vm : WM (res (ConfigState * string)) :=
  call (GetConfigState vm) (EvGetConfigState vm).
Definition getBGPStatus vm : WM (res (option BGPStatus)) :=
  call (GetBGPStatus vm) (EvGetBGPStatus vm).
Definition announceRoutes vm : WM (res unit) := call (AnnounceRoutes vm) (EvAnnounceRoutes vm).
Definition withdrawRoutes vm : WM (res unit) := call (WithdrawRoutes vm) (EvWithdrawRoutes vm).
Definition vmLock vm : WM (res string) := call (VMLock vm) (EvVMLock vm).
Definition vmUnlock vm : WM (res unit) := call (VMUnlock vm) (EvVMUnlock vm).
Definition vmHasRunningTask vm : WM (res bool) :=
  call (VMHasRunningTask vm) (EvVMHasRunningTask vm).
Definition vmFreezeStatus vm : WM (res string) :=
  call (VMFSFreezeStatus vm) (EvVMFSFreezeStatus vm).
Definition vmFreezeThaw vm : WM (res unit) := call (VMFSFreezeThaw vm) (EvVMFSFreezeThaw vm).
Definition osReadFile path : WM file_read := call (readFile path) (EvReadFile path).
Definition osWriteFile path data : WM (res unit) :=
  call (writeFile path data) (EvWriteFile path data).
Definition osRemove path : WM (res unit) := call (removeFile path) (EvRemoveFile path).
Definition osStat path : WM stat_result := call (statFile path) (EvStatFile path).
Definition Acquire path poll : WM (res unit) := call (acquire path poll) (EvAcquire path).
Definition Release : WM unit := call release (fun _ => EvRelease).

Definition SetRollingBackM (v : bool) : WM unit :=
  upd (fun w => set_coord (SetRollingBack v (coord w)) w) ;; record (EvRollingBack v).

Definition notifyEvent (level : Z) (kind key msg : string) : WM unit :=
  record (EvNotify level kind key msg).
Definition resolveAlert (kind key msg : string) : WM unit := record (EvResolve kind key msg).

(** [sleepOrDone] and [sleepOrShutdown]: false when the context was cancelled. *)
Definition sleepOrDone (d : Z) : WM bool :=
  if d <=? 0 then mret true else call (sleep d) (EvSleep d).

Definition appendProbe (msg : string) : WM unit :=
  upd (fun w => set_probeLog (probeLog w ++ [msg])%list w).
Definition flushProbeLog : WM string :=
  s ← field (fun w => join (String newline "") (probeLog w));
  upd (set_probeLog []) ;;
  mret s.

(** ** Deployment operations (deploy_operation.go) *)

Definition operation_over (st : OpStatus) : bool :=
  match st with Committed | Recovered | Disarmed => true | _ => false end.

Definition is_armed (st : OpStatus) : bool := match st with Armed => true | _ => false end.

Definition inspectDeployOperation : WM bool :=
  cfg ← cfgOf;
  r ← call (readOperation (RollbackLockFile (Watchdog cfg) +:+ ".operation")%string) EvReadOperation;
  match r with
  | OperationNotExist => mret false
  | OperationError => mret true
  | OperationRecord rec =>
      if operation_over (op_Status rec) then mret false
      else if negb (bool_decide (op_VMID rec = MwanVMID cfg)) then mret true
      else
        watchError ← call verifyWatch EvVerifyWatch;
        t ← getNow;
        if is_armed (op_Status rec) && after (op_Deadline rec) t && is_ok watchError then mret true
        else if negb isRealOps then mret true
        else
          SetRollingBackM true ;;
          call recoverCoordinated EvRecoverCoordinated ;;
          SetRollingBackM false ;;
          mret true
  end.

Definition handleDeployOperation : WM bool :=
  cfg ← cfgOf;
  st ← osStat (RollbackLockFile (Watchdog cfg) +:+ ".operation")%string;
  match st with
  | StatNotExist => mret false
  | StatError => mret true
  | StatOk =>
      a ← Acquire (RollbackLockFile (Watchdog cfg)) (DegradedInterval (Watchdog cfg));
      match a with
      | Err _ => mret true
      | Ok _ => b ← inspectDeployOperation; Release ;; mret b
      end
  end.

(** ** Probes (probe.go) *)

Definition guestExecProbe (args : list string) : WM bool :=
  vm ← vmid;
  r ← guestExec vm args;
  match r with
  | Err _ => mret false
  | Ok parsed => mret (ExitCode parsed =? 0)
  end.

Definition ok_fail (b : bool) : string := if b then "OK" else "FAIL".

(** The two pings run in parallel and are joined before either result is read. *)
Definition probeConnectivity : WM (bool * bool) :=
  cfg ← cfgOf;
  let net := Network cfg in
  v4ok ← ping "ping" (PingTargetIPv4 net);
  v6ok ← ping "ping6" (PingTargetIPv6 net);
  appendProbe ("Host probe: IPv4 " +:+ PingTargetIPv4 net +:+ " (" +:+ ok_fail v4ok
    +:+ "), IPv6 " +:+ PingTargetIPv6 net +:+ " (" +:+ ok_fail v6ok +:+ ")")%string ;;
  mret (v4ok, v6ok).

Definition testVMConnectivity : WM bool :=
  cfg ← cfgOf;
  let vm := MwanVMID cfg in
  v6ok ← guestExecProbe ["ping6"; "-c"; "2"; "-W"; "3"; PingTargetIPv6 (Network cfg)]%string;
  if (v6ok : bool) then
    appendProbe ("VM " +:+ vm +:+ " default-route: IPv6 OK (Proxmox-side issue confirmed)")%string ;;
    mret true
  else
    v4ok ← guestExecProbe ["ping"; "-c"; "2"; "-W"; "3"; PingTargetIPv4 (Network cfg)]%string;
    if (v4ok : bool) then
      appendProbe ("VM " +:+ vm +:+ " default-route: IPv4 OK (Proxmox-side issue confirmed)")%string ;;
      mret true
    else
      appendProbe ("VM " +:+ vm +:+ " default-route: IPv4 FAIL, IPv6 FAIL")%string ;;
      mret false.

(** A unix timestamp in a guest file: [None] when it cannot be read. *)
Definition readGuestUnix (path : string) : WM (option Z) :=
  vm ← vmid;
  r ← guestExec vm ["cat"%string; path];
  match r with
  | Err _ => mret None
  | Ok parsed =>
      if negb (ExitCode parsed =? 0) then mret None
      else
        let raw := trim_space (Stdout parsed) in
        if bool_decide (raw = ""%string) || bool_decide (raw = "null"%string) then mret None
        else match parse_int raw with
             | (ts, true) => mret (Some ts)
             | (_, false) => mret None
             end
  end.

Definition option_list {A} (o : option A) : list A :=
  match o with Some a => [a] | None => [] end.

(** The newest change marker when it is inside the deploy window. *)
Definition checkDeploy : WM (option Z) :=
  cfg ← cfgOf;
  st ← vmStatus (MwanVMID cfg);
  match st with
  | Err _ | Ok false => mret None
  | Ok true =>
      deployTS ← readGuestUnix (LastDeployPath (Network cfg));
      changeTS ← readGuestUnix (LastChangePath (Network cfg));
      window ← field hashChangeWindowStart;
      let candidates := (option_list deployTS ++ option_list changeTS
                         ++ (if 0 <? window then [window] else []))%list in
      match candidates with
      | [] => mret None
      | c :: cs =>
          let effective := fold_left Z.max cs c in
          t ← getNow;
          let ageMin := Z.quot (wrap64 (unix t - effective)) 60 in
          if DeployWindowMinutes (Watchdog cfg) <? ageMin then mret None
          else mret (Some effective)
      end
  end.

(** ** Filesystem freeze guard (freeze.go) *)

Definition ensureGuestThawed : WM unit :=
  cfg ← cfgOf;
  if bool_decide (GuestType cfg = GuestTypeLXC) then mret tt
  else
    st ← vmFreezeStatus (MwanVMID cfg);
    match st with
    | Err _ => mret tt
    | Ok status =>
        if negb (contains "frozen" status) then mret tt
        else
          r ← vmFreezeThaw (MwanVMID cfg);
          match r with
          | Err _ => mret tt
          | Ok _ => vmFreezeStatus (MwanVMID cfg) ;; mret tt
          end
    end.

(** ** Configuration drift (confighash.go) *)

Definition routeChannelFallback (usedChannel : string) : WM unit :=
  cfg ← cfgOf;
  let key := (MwanVMID cfg +:+ ":" +:+ itoa (VsockPort (Watchdog cfg)))%string in
  if bool_decide (usedChannel = "tcp"%string) then
    notifyEvent LevelWarn "vsock-fallback" key "getConfigState: vsock unavailable, used TCP fallback"
  else whenM (bool_decide (usedChannel = "vsock"%string))
    (resolveAlert "vsock-fallback" key "getConfigState: vsock channel restored").

Definition checkConfigHash : WM unit :=
  vm ← vmid;
  r ← getConfigState vm;
  match r with
  | Err _ => upd (set_lastHashCheckOK false)
  | Ok (state, usedChannel) =>
      routeChannelFallback usedChannel ;;
      let h := trim_space (ConfigHash state) in
      if bool_decide (h = ""%string) then mret tt
      else
        w ← gets wd;
        (if negb (bool_decide (lastConfigHash w = ""%string))
            && negb (bool_decide (h = lastConfigHash w)) then
           t ← getNow;
           if negb (is_zero (postRollbackGraceUntil w)) && before t (postRollbackGraceUntil w)
           then mret tt
           else
             t' ← getNow;
             upd (set_hashChangeWindowStart (unix t'))
         else upd (set_lastHashCheckOK true)) ;;
        upd (fun w => set_lastManifest (parseManifest (ConfigManifest state)) (set_lastConfigHash h w))
  end.

(** ** Snapshots (snapshot_recovery.go) *)

Definition snapshotBackoffActive : WM bool :=
  until ← field snapshotBackoffUntil;
  if is_zero until then mret false
  else t ← getNow; mret (before t until).

Definition noteSnapshotFailure : WM unit :=
  upd (fun w => set_consecutiveSnapshotFails (incr (consecutiveSnapshotFails w)) w) ;;
  fails ← field consecutiveSnapshotFails;
  t ← getNow;
  upd (fun w => set_consecutiveHealthy 0
        (set_snapshotBackoffUntil (add_time t (snapshotFailureBackoff fails)) w)) ;;
  if fails <? snapshotFailureAlertThreshold then mret tt
  else
    vm ← vmid;
    getNow ;;
    notifyEvent LevelError "snapshot-failed" vm "known-good snapshots keep failing on this guest".

Definition noteSnapshotSuccess : WM unit :=
  fails ← field consecutiveSnapshotFails;
  if fails =? 0 then mret tt
  else
    upd (fun w => set_forcedDeletes 0
          (set_snapshotBackoffUntil zero_time (set_consecutiveSnapshotFails 0 w))) ;;
    vm ← vmid;
    resolveAlert "snapshot-failed" vm "known-good snapshot succeeded".

Definition clearStaleGuestLock : WM unit :=
  vm ← vmid;
  r ← vmLock vm;
  match r with
  | Err _ => mret tt
  | Ok lock =>
      if bool_decide (lock = ""%string) then mret tt
      else if negb (bool_decide (lock ∈ recoverableLocks)) then mret tt
      else
        t ← vmHasRunningTask vm;
        match t with
        | Err _ | Ok true => mret tt
        | Ok false =>
            u ← vmUnlock vm;
            match u with
            | Err _ => mret tt
            | Ok _ =>
                getNow ;;
                notifyEvent LevelWarn "guest-locked" vm
                  "cleared a guest lock left behind by a failed snapshot operation"
            end
        end
  end.

Definition canForceDelete (name : string) (cause : error) : WM bool :=
  if negb (MatchString KnownGoodSnapRE name) then mret false
  else if negb (contains storageSnapshotMissingMarker cause) then mret false
  else
    forced ← field forcedDeletes;
    if maxConsecutiveForcedDeletes <=? forced then mret false
    else
      vm ← vmid;
      t ← vmHasRunningTask vm;
      match t with
      | Err _ | Ok true => mret false
      | Ok false => mret true
      end.

Definition deleteSnapshot (name : string) : WM (res unit) :=
  vm ← vmid;
  r ← vmDelSnapshot vm name;
  match r with
  | Ok _ => mret (Ok tt)
  | Err e =>
      can ← canForceDelete name e;
      if negb can then mret (Err ("delete snapshot " +:+ name +:+ ": " +:+ e)%string)
      else
        upd (fun w => set_forcedDeletes (incr (forcedDeletes w)) w) ;;
        f ← vmDelSnapshotForce vm name;
        match f with
        | Err e' => mret (Err (e +:+ String newline "" +:+ e')%string)
        | Ok _ =>
            getNow ;;
            notifyEvent LevelWarn "snapshot-forced-delete" vm
              "removed a snapshot entry whose disk snapshot was already gone" ;;
            mret (Ok tt)
        end
  end.

(** The first error of a sequence of attempts. *)
Definition keep_first (first new : res unit) : res unit :=
  match first with Ok _ => new | Err e => Err e end.

(** Delete each name in turn, going on past failures. *)
Definition deleteEach (names : list string) (firstErr : res unit) : WM (res unit) :=
  foldM (fun firstErr name => r ← deleteSnapshot name; mret (keep_first firstErr r))
    firstErr names.

(** The loop of [prunePreDeploySnapshots], which stops once [excess] are gone. *)
Fixpoint prune_loop (names : list string) (excess deleted : Z) (resultErr : res unit)
    : WM (Z * res unit) :=
  match names with
  | [] => mret (deleted, resultErr)
  | name :: names =>
      if excess <=? deleted then mret (deleted, resultErr)
      else
        r ← deleteSnapshot name;
        match r with
        | Err e => prune_loop names excess deleted (keep_first resultErr (Err e))
        | Ok _ => prune_loop names excess (incr deleted) resultErr
        end
  end.

Definition prunePreDeploySnapshots (preDeploys : list string) (excess : Z) : WM (Z * res unit) :=
  prune_loop (removelast preDeploys) excess 0 (Ok tt).

Definition count {A} (l : list A) : Z := Z.of_nat (length l).

(** The part of [pruneSnapshots] after the known-good rotation. *)
Definition prune_total (cfg : Config) (knownGoods preDeploys : list string) (firstErr : res unit)
    : WM (res unit) :=
  let max := MaxTotalSnapshots (Watchdog cfg) in
  let total := count knownGoods + count preDeploys in
  if (max <=? 0) || (total <=? max) then mret firstErr
  else
    let excess := total - max in
    p ← prunePreDeploySnapshots preDeploys excess;
    let '(preDeploysDeleted, err) := (p : Z * res unit) in
    let excess := Z.min (excess - preDeploysDeleted) (count knownGoods) in
    deleteEach (firstn (Z.to_nat excess) knownGoods) (keep_first firstErr err).

Definition pruneSnapshots : WM (res unit) :=
  cfg ← cfgOf;
  r ← vmSnapshots (MwanVMID cfg);
  match r with
  | Err e => mret (Err ("list snapshots before prune: " +:+ e)%string)
  | Ok s =>
      let knownGoods := sort_strings (FindAllString KnownGoodSnapRE s) in
      let preDeploys := FindAllString PreDeploySnapRE s in
      let maxKG := MaxKnownGoodSnapshots (Watchdog cfg) in
      if (0 <? maxKG) && (maxKG <? count knownGoods) then
        firstErr ← deleteEach (firstn (Z.to_nat (count knownGoods - maxKG)) knownGoods) (Ok tt);
        r ← vmSnapshots (MwanVMID cfg);
        match r with
        | Err e => mret (Err ("list snapshots after known-good rotation: " +:+ e)%string)
        | Ok s => prune_total cfg (sort_strings (FindAllString KnownGoodSnapRE s))
                    (FindAllString PreDeploySnapRE s) firstErr
        end
      else prune_total cfg knownGoods preDeploys (Ok tt)
  end.

(** Whether a change or deploy is too recent for a known-good snapshot. *)
Definition in_change_window (windowSec start t : Z) : bool := wrap64 (unix t - start) <? windowSec.

Definition takeSnapshot : WM unit :=
  vm ← vmid;
  t ← getNow;
  let name := ("known-good-" +:+ formatStamp t)%string in
  snapErr ← vmSnapshot vm name;
  ensureGuestThawed ;;
  match snapErr with
  | Err _ => noteSnapshotFailure ;; clearStaleGuestLock
  | Ok _ =>
      t ← getNow;
      upd (fun w => set_consecutiveHealthy 0 (set_lastSnapshotAt t w)) ;;
      noteSnapshotSuccess ;;
      p ← pruneSnapshots;
      match p with Err _ => clearStaleGuestLock | Ok _ => mret tt end
  end.

Definition maybeSnapshot : WM unit :=
  w ← gets wd;
  let ws := Watchdog (wd_cfg w) in
  if SnapshotHealthyThreshold ws <=? 0 then mret tt
  else if consecutiveHealthy w <? SnapshotHealthyThreshold ws then mret tt
  else
    active ← snapshotBackoffActive;
    if (active : bool) then mret tt
    else
      let windowSec := wrap64 (DeployWindowMinutes ws * 60) in
      inHash ← (if 0 <? hashChangeWindowStart w
                then t ← getNow; mret (in_change_window windowSec (hashChangeWindowStart w) t)
                else mret false);
      if (inHash : bool) then mret tt
      else
        d ← readGuestUnix (LastDeployPath (Network (wd_cfg w)));
        inDeploy ← match d with
                   | Some deployTS => t ← getNow; mret (in_change_window windowSec deployTS t)
                   | None => mret false
                   end;
        if (inDeploy : bool) then mret tt
        else
          let minGap := seconds (MinSnapshotIntervalSeconds ws) in
          tooSoon ← (if is_zero (lastSnapshotAt w) then mret false
                     else gap ← since (lastSnapshotAt w); mret (gap <? minGap));
          if (tooSoon : bool) then mret tt
          else if (0 <? HashCheckEveryNHealthy ws) && negb (lastHashCheckOK w) then mret tt
          else takeSnapshot.

(** ** Failover (failover.go) *)

Definition triggerBGPFailover (reason : string) : WM (res unit) :=
  cfg ← cfgOf;
  requireComplete ← field requireCompleteBackup;
  let lxc := LXCID (Failover cfg) in
  let vm := MwanVMID cfg in
  start ← getNow;
  r ← getBGPStatus lxc;
  match r with
  | Err e => mret (Err ("BGP failover GetBGPStatus on LXC " +:+ lxc +:+ ": " +:+ e)%string)
  | Ok status =>
      announced ← (if getter AllEstablished status && getter Announcing status
                   then mret (Ok tt) else announceRoutes lxc);
      match announced with
      | Err e => mret (Err ("BGP failover AnnounceRoutes on LXC " +:+ lxc +:+ ": " +:+ e)%string)
      | Ok _ =>
          r ← getBGPStatus lxc;
          match r with
          | Err e => mret (Err ("BGP failover GetBGPStatus on LXC " +:+ lxc +:+ ": " +:+ e)%string)
          | Ok status =>
              if negb (getter AllEstablished status) then
                mret (Err ("BGP failover on LXC " +:+ lxc
                  +:+ ": cannot confirm that every BGP session is established")%string)
              else if negb (getter Announcing status || getter AnnouncingIpv4 status
                            || getter AnnouncingIpv6 status) then
                mret (Err ("BGP failover on LXC " +:+ lxc
                  +:+ ": LXC does not announce any configured address family")%string)
              else if requireComplete && negb (getter Announcing status) then
                mret (Err ("BGP failover on LXC " +:+ lxc
                  +:+ ": LXC does not announce every configured address family")%string)
              else
                notifyEvent LevelError "bgp-failover" vm
                  ("BGP FAILOVER: withdrawing routes from VM " +:+ vm +:+ ", announcing on LXC " +:+ lxc)%string ;;
                withdrawRoutes vm ;;
                since start ;;
                notifyEvent LevelError "bgp-failover-complete" vm
                  ("BGP FAILOVER COMPLETE: LXC " +:+ lxc +:+ " announcing")%string ;;
                t ← getNow;
                upd (fun w => set_failoverReason reason (set_failoverStartedAt t
                      (set_failoverActive true w))) ;;
                mret (Ok tt)
          end
      end
  end.

Definition triggerFailover (reason : string) : WM (res unit) :=
  cfg ← cfgOf;
  match Check addressParsers cfg with
  | [] => triggerBGPFailover reason
  | errs => mret (Err (join (String newline "") (map (failover_error_text addressParsers cfg) errs)))
  end.

Definition triggerBGPRecovery : WM (res unit) :=
  cfg ← cfgOf;
  let vm := MwanVMID cfg in
  getNow ;;
  v4ok ← guestExecProbe ["ping"; "-c"; "2"; "-W"; "3"; PingTargetIPv4 (Network cfg)]%string;
  v6ok ← guestExecProbe ["ping6"; "-c"; "2"; "-W"; "3"; PingTargetIPv6 (Network cfg)]%string;
  if negb v4ok && negb v6ok then
    mret (Err ("BGP recovery: primary VM " +:+ vm +:+ " still unreachable")%string)
  else
    r ← getBGPStatus vm;
    match r with
    | Err e => mret (Err ("BGP recovery: GetBGPStatus on primary VM " +:+ vm +:+ ": " +:+ e)%string)
    | Ok status =>
        if negb (getter AllEstablished status) then
          mret (Err ("BGP recovery: primary VM " +:+ vm +:+ " BGP not established")%string)
        else
          a ← announceRoutes vm;
          match a with
          | Err e =>
              mret (Err ("BGP recovery AnnounceRoutes on primary VM " +:+ vm +:+ ": " +:+ e)%string)
          | Ok _ =>
              let msg := ("BGP RECOVERED: primary VM " +:+ vm
                          +:+ " accepted the announcement; backup remains available")%string in
              resolveAlert "bgp-failover" vm msg ;;
              notifyEvent LevelError "bgp-recovered" vm msg ;;
              upd (fun w => set_failoverReason "" (set_failoverStartedAt zero_time
                    (set_failoverActive false w))) ;;
              mret (Ok tt)
          end
    end.

Definition exec_ok (r : res GuestExecResult) : bool :=
  match r with Ok parsed => ExitCode parsed =? 0 | Err _ => false end.

Definition tryFailover (reason : string) : WM bool :=
  cfg ← cfgOf;
  let lxc := LXCID (Failover cfg) in
  if bool_decide (lxc = ""%string) then mret false
  else
    resultV4 ← guestExec lxc ["ping"%string; PingTargetIPv4 (Network cfg)];
    resultV6 ← guestExec lxc ["ping6"%string; PingTargetIPv6 (Network cfg)];
    if negb (exec_ok resultV4) && negb (exec_ok resultV6) then mret false
    else r ← triggerFailover reason; mret (is_ok r).

Definition maybeTriggerRecovery : WM unit :=
  active ← field failoverActive;
  whenM active (triggerBGPRecovery ;; mret tt).

(** [FailoverRun], on a world nothing has been asked of yet. *)
Definition FailoverRun (cfg : Config) (alertCooldownSeconds : Z) (w0 : W) : res unit * wsys W :=
  triggerFailover "manual trigger via `mwan watchdog failover`"
    (mkWsys (set_requireCompleteBackup true (newWatchdog cfg alertCooldownSeconds)) w0 []).

(** ** Rollback (watchdog.go) *)

Definition findSnapshot : WM string :=
  vm ← vmid;
  r ← vmSnapshots vm;
  match r with
  | Err _ => mret ""%string
  | Ok out => mret (ExtractLatestSnapshot out)
  end.

Definition executeRollbackVM (snap : string) : WM (res unit) :=
  vm ← vmid;
  getNow ;;
  r ← vmStop vm;
  match r with
  | Err e => mret (Err ("stop VM before rollback: " +:+ e)%string)
  | Ok _ =>
      st ← vmStatus vm;
      match st with
      | Err e => mret (Err ("verify stopped VM before rollback: " +:+ e)%string)
      | Ok true => mret (Err "VM remains running after stop; rollback rejected")
      | Ok false =>
          l ← vmSnapshots vm;
          (match l with
           | Ok listOut => forM (rev (SnapshotsAfter listOut snap))
                             (fun child => vmDelSnapshot vm child ;; mret tt)
           | Err _ => mret tt
           end) ;;
          getNow ;;
          rollbackErr ← vmRollback vm snap;
          getNow ;;
          started ← vmStart vm;
          match started, rollbackErr with
          | Ok _, _ => mret rollbackErr
          | Err e, Ok _ => mret (Err ("start VM after rollback: " +:+ e)%string)
          | Err e, Err e' =>
              mret (Err (e' +:+ String newline "start VM after rollback: " +:+ e)%string)
          end
      end
  end.

Definition alreadyDone (deployTS : Z) : WM (res (bool * Z)) :=
  cfg ← cfgOf;
  f ← osReadFile (RollbackStateFile (Watchdog cfg));
  mret (AlreadyDone f deployTS).

Definition recordRollbackResult (deployTS : Z) (snap : string) (rollbackErr : res unit) : WM unit :=
  cfg ← cfgOf;
  whenM (is_ok rollbackErr) (osRemove (RollbackLockFile (Watchdog cfg)) ;; mret tt) ;;
  d ← alreadyDone deployTS;
  let attempts := match d with
                  | Ok (true, _) => 1
                  | Ok (false, att) => incr att
                  | Err _ => 1
                  end in
  t ← getNow;
  osWriteFile (RollbackStateFile (Watchdog cfg))
    (WriteState_content deployTS snap attempts (is_ok rollbackErr) t) ;;
  mret tt.

(** The end of a successful rollback: a shutdown signal that arrived meanwhile was
    recorded by the signal goroutine and is taken now. *)
Definition takeShutdown : WM unit :=
  sig ← peek signalled;
  whenM sig (upd (fun w => set_coord (OnSignalDuringRollback (coord w)) w)) ;;
  taken ← field (fun w => (TakeShutdownAfterRollback (coord w)).1);
  upd (fun w => set_coord (TakeShutdownAfterRollback (coord w)).2 w) ;;
  hook ← field exitFn;
  whenM (taken && hook) (record EvExit).

(** What [rollback] does once [executeRollbackVM] has returned. *)
Definition rollback_finish (deployTS : Z) (snap : string) (rollbackErr : res unit) : WM unit :=
  cfg ← cfgOf;
  recordRollbackResult deployTS snap rollbackErr ;;
  match rollbackErr with
  | Err _ => mret tt
  | Ok _ =>
      t ← getNow;
      upd (set_postRollbackGraceUntil
             (add_time t (minutes (DeployWindowMinutes (Watchdog cfg))))) ;;
      takeShutdown
  end.

(** The part of [rollback] between marking the rollback and clearing the mark. *)
Definition rollback_marked (deployTS : Z) (snap : string) : WM unit :=
  cfg ← cfgOf;
  flushProbeLog ;;
  t ← getNow;
  osWriteFile (RollbackLockFile (Watchdog cfg))
    ("deploy_ts=" +:+ itoa deployTS +:+ " snapshot=" +:+ snap +:+ " ts=" +:+ itoa (unix t)
     +:+ String newline "")%string ;;
  getNow ;;
  rollbackErr ← executeRollbackVM snap;
  rollback_finish deployTS snap rollbackErr.

(** The part of [rollback] under the coordination lock. *)
Definition rollback_locked (deployTS : Z) (snap : string) : WM unit :=
  busy ← inspectDeployOperation;
  if (busy : bool) then mret tt
  else
    d ← alreadyDone deployTS;
    match d with
    | Err _ | Ok (true, _) => mret tt
    | Ok (false, _) =>
        upd (set_hashChangeWindowStart 0) ;;
        SetRollingBackM true ;;
        upd (fun w => set_consecutiveHealthy 0 (set_totalFailStart zero_time w)) ;;
        rollback_marked deployTS snap ;;
        SetRollingBackM false
    end.

Definition rollback (deployTS : Z) (snap : string) : WM unit :=
  cfg ← cfgOf;
  a ← Acquire (RollbackLockFile (Watchdog cfg)) (DegradedInterval (Watchdog cfg));
  match a with
  | Err _ => mret tt
  | Ok _ => rollback_locked deployTS snap ;; Release
  end.

Definition recoverInterrupted : WM unit :=
  cfg ← cfgOf;
  let lock := RollbackLockFile (Watchdog cfg) in
  a ← Acquire lock (DegradedInterval (Watchdog cfg));
  match a with
  | Err _ => mret tt
  | Ok _ =>
      busy ← inspectDeployOperation;
      (if (busy : bool) then mret tt
       else
         data ← osReadFile lock;
         match data with
         | FileNotExist | FileError _ => mret tt
         | FileData _ =>
             st ← vmStatus (MwanVMID cfg);
             match st with
             | Err _ => mret tt
             | Ok true => osRemove lock ;; mret tt
             | Ok false =>
                 r ← vmStart (MwanVMID cfg);
                 match r with
                 | Err _ => mret tt
                 | Ok _ =>
                     osRemove lock ;;
                     upd (set_recoveredFromRollback true) ;;
                     sleepOrDone (PostRollbackGrace (Watchdog cfg)) ;;
                     mret tt
                 end
             end
         end) ;;
      Release
  end.

(** ** Diagnosis (diagnosis.go) *)

Definition sendPartialAlert : WM unit :=
  t ← getNow;
  sent ← field (fun w => (TrySendPartial t (limiter w)).1);
  upd (fun w => set_limiter (TrySendPartial t (limiter w)).2 w) ;;
  if (sent : bool) then record (EvAlert false) else getNow ;; mret tt.

Definition sendTotalAlert : WM unit :=
  t ← getNow;
  sent ← field (fun w => (TrySendTotal t (limiter w)).1);
  upd (fun w => set_limiter (TrySendTotal t (limiter w)).2 w) ;;
  if (sent : bool) then record (EvAlert true) else getNow ;; mret tt.

Definition status_line (status : Status) (age : Z) : string :=
  let verdicts := map (fun kv => (kv.1 +:+ "=" +:+ kv.2)%string)
    (map (fun name => (name, default ""%string (Providers status !! name)))
       (sort_strings (map fst (map_to_list (Providers status))))) in
  ("Gateway status (age " +:+ durationString age +:+ "): active tier "
   +:+ itoa (st_ActiveTier status) +:+ ", " +:+ join " " verdicts)%string.

Definition logPushedStatus : WM unit :=
  if negb hasStatusSource then appendProbe "Gateway status: no listener configured"
  else
    r ← peek statusLatest;
    match r with
    | None => appendProbe "Gateway status: none received"
    | Some (status, receivedAt) =>
        t ← getNow;
        appendProbe (status_line status (round_to Second (sub_time t receivedAt)))
    end.

Definition diagnoseNoRecentChange : WM bool :=
  cfg ← cfgOf;
  vmOK ← testVMConnectivity;
  logPushedStatus ;;
  if (vmOK : bool) then sendTotalAlert ;; mret false
  else
    failedOver ← (if bool_decide (LXCID (Failover cfg) = ""%string) then mret false
                  else tryFailover "Total connectivity loss on primary, no recent config change");
    if (failedOver : bool) then mret true else sendTotalAlert ;; mret false.

(** Rollback eligibility, snapshot choice and the rollback itself. *)
Definition attemptRollbackForDeploy (deployTS : Z) : WM bool :=
  cfg ← cfgOf;
  d ← alreadyDone deployTS;
  let '(already, attempts) := match d with Ok p => p | Err _ => (false, 0) end in
  let maxAttempts := MaxRollbackAttempts (Watchdog cfg) in
  if (already : bool) then mret false
  else if (0 <? maxAttempts) && (maxAttempts <=? attempts) then mret false
  else
    snap ← findSnapshot;
    if bool_decide (snap = ""%string) then sendTotalAlert ;; mret false
    else rollback deployTS snap ;; mret true.

Definition handleTimeoutExceeded : WM unit :=
  cfg ← cfgOf;
  let ws := Watchdog cfg in
  recent ← checkDeploy;
  match recent with
  | None => diagnoseNoRecentChange ;; sleepOrDone (60 * Second) ;; mret tt
  | Some deployTS =>
      remaining ← (if 0 <? DeployGracePeriodSeconds ws then
                     raw ← readGuestUnix (LastDeployPath (Network cfg));
                     match raw with
                     | None => mret None
                     | Some rawDeployTS =>
                         t ← getNow;
                         let deployAge := wrap64 (unix t - rawDeployTS) in
                         let grace := DeployGracePeriodSeconds ws in
                         if (0 <=? deployAge) && (deployAge <? grace)
                         then mret (Some (grace - deployAge)) else mret None
                     end
                   else mret None);
      match remaining with
      | Some r => sleepOrDone (seconds r) ;; mret tt
      | None =>
          done ← attemptRollbackForDeploy deployTS;
          sleepOrDone (if (done : bool) then PostRollbackGrace ws else 60 * Second) ;;
          mret tt
      end
  end.

(** ** The loop (watchdog.go) *)

Definition handleVMStopped : WM unit :=
  w ← gets wd;
  if vmStoppedLogged w then mret tt
  else
    upd (fun w => set_lastState stateVMStopped (set_vmStoppedLogged true w)) ;;
    st ← osStat (RollbackLockFile (Watchdog (wd_cfg w)));
    let rollbackInProgress := match st with StatOk => true | _ => recoveredFromRollback w end in
    if (rollbackInProgress : bool) then mret tt
    else vmStart (MwanVMID (wd_cfg w)) ;; mret tt.

Definition handleHealthyProbe : WM unit :=
  upd (fun w => set_healthyCyclesForHash (incr (healthyCyclesForHash w))
        (set_consecutiveHealthy (incr (consecutiveHealthy w)) w)) ;;
  w ← gets wd;
  let every := HashCheckEveryNHealthy (Watchdog (wd_cfg w)) in
  whenM ((0 <? every) && (every <=? healthyCyclesForHash w))
    (upd (set_healthyCyclesForHash 0) ;; checkConfigHash) ;;
  maybeSnapshot ;;
  w ← gets wd;
  (if negb (bool_decide (lastState w = stateHealthy)) then mret tt
   else
     age ← since (lastHeartbeat w);
     whenM (heartbeatInterval <=? age) (t ← getNow; upd (set_lastHeartbeat t))) ;;
  upd (fun w => set_probeLog [] (set_limiter (ResetCooldowns (limiter w))
        (set_totalDownStartUnix 0 (set_consecutiveTotalFails 0 (set_lastState stateHealthy w))))).

Definition handlePartialProbe : WM unit :=
  upd (fun w => set_totalDownStartUnix 0 (set_consecutiveTotalFails 0 (set_lastState statePartial w))) ;;
  sendPartialAlert.

Definition handleTotalLoss : WM bool :=
  upd (fun w => set_consecutiveTotalFails (incr (consecutiveTotalFails w)) w) ;;
  t ← getNow;
  let n := unix t in
  upd (fun w => if totalDownStartUnix w =? 0 then set_totalDownStartUnix n w else w) ;;
  upd (set_lastState stateDown) ;;
  w ← gets wd;
  let downDuration := wrap64 (n - totalDownStartUnix w) in
  mret (negb (downDuration <? ConnectivityTimeoutSeconds (Watchdog (wd_cfg w)))).

Definition runIteration : WM bool :=
  cfg ← cfgOf;
  let degraded := DegradedInterval (Watchdog cfg) in
  stop ← peek ctxDone;
  if (stop : bool) then mret false
  else
    deploying ← handleDeployOperation;
    if (deploying : bool) then sleepOrDone degraded
    else
      st ← vmStatus (MwanVMID cfg);
      match st with
      | Err _ => sleepOrDone degraded
      | Ok false => handleVMStopped ;; sleepOrDone degraded
      | Ok true =>
          upd (set_vmStoppedLogged false) ;;
          p ← probeConnectivity;
          let '(v4ok, v6ok) := (p : bool * bool) in
          whenM (negb v4ok || negb v6ok)
            (upd (fun w => set_healthyCyclesForHash 0 (set_consecutiveHealthy 0 w))) ;;
          if v4ok && v6ok then
            handleHealthyProbe ;; maybeTriggerRecovery ;; sleepOrDone (HealthyInterval (Watchdog cfg))
          else if v4ok || v6ok then handlePartialProbe ;; sleepOrDone degraded
          else
            timedOut ← handleTotalLoss;
            whenM timedOut handleTimeoutExceeded ;;
            sleepOrDone degraded
      end.

(** The loop of [run]: at most [fuel] iterations, as many as [MaxIterations] allows. *)
Fixpoint run_loop (fuel : nat) (iteration : Z) : WM unit :=
  match fuel with
  | O => mret tt
  | S fuel =>
      max ← field (fun w => MaxIterations (Watchdog (wd_cfg w)));
      if (max <=? 0) || (iteration <? max) then
        go ← runIteration;
        if (go : bool) then run_loop fuel (incr iteration) else mret tt
      else mret tt
  end.

Definition runStartupChecks : WM unit :=
  cfg ← cfgOf;
  deploying ← handleDeployOperation;
  if (deploying : bool) then mret tt
  else
    recoverInterrupted ;;
    ensureGuestThawed ;;
    vmSnapshots (MwanVMID cfg) ;;
    osReadFile (RollbackLockFile (Watchdog cfg)) ;;
    st ← vmStatus (MwanVMID cfg);
    match st with
    | Ok true => probeConnectivity ;; checkConfigHash
    | _ => mret tt
    end.

Definition run (fuel : nat) : WM unit :=
  runStartupChecks ;;
  upd (set_lastState stateUnknown) ;;
  t ← getNow;
  upd (set_lastHeartbeat t) ;;
  run_loop fuel 0.
End Watchdog.
