(* ===== verification/WatchdogRules.v ===== *)
(** * Safety rules of the watchdog

    Every operation with consequences is guarded by what the watchdog learnt just
    before it.  [rule] states the guard of each such event in terms of the events
    around it; [obeys] says that a program only extends the trace by events that
    satisfy their guards, keeps the constants and bounds the forced deletes.  It is
    a preorder, so each handler inherits it from the operations it is made of. *)

From S2P Require Import Prelude GoStrings Effects Notify Alert Tier Rollback WatchdogState Watchdog.

Local Open Scope Z_scope.

(** ** The rules *)

(** What never changes while the watchdog runs. *)
Definition consts (w : watchdog) : Config * bool * bool :=
  (wd_cfg w, requireCompleteBackup w, exitFn w).

(** The backup is fit to take over: every session is established and it announces a
    family, or every family when a complete backup is required. *)
Definition backup_ready (requireComplete : bool) (status : option BGPStatus) : Prop :=
  getter AllEstablished status = true /\
  (getter Announcing status || getter AnnouncingIpv4 status || getter AnnouncingIpv6 status) = true /\
  (requireComplete = true -> getter Announcing status = true).

(** A deletion of one of the target's descendants. *)
Definition deletes_descendant (vm snap listing : string) (e : event) : Prop :=
  exists name r, e = EvVMDelSnapshot vm name r /\ name ∈ SnapshotsAfter listing snap.

Definition preparation (vm snap : string) (dels : list event) (l : res string) : Prop :=
  match l with
  | Ok listing => Forall (deletes_descendant vm snap listing) dels
  | Err _ => dels = []
  end.

(** [newer] and [older] are the events after and before [e] in one run, both newest
    first. *)
Definition rule (k : Config * bool * bool) (newer : list event) (e : event) (older : list event)
    : Prop :=
  let '(cfg, requireComplete, hook) := k in
  let lock := RollbackLockFile (Watchdog cfg) in
  match e with
  | EvWithdrawRoutes vm _ =>
      vm = MwanVMID cfg /\ vm <> LXCID (Failover cfg) /\
      exists status level kind key msg rest,
        older = EvNotify level kind key msg
                  :: EvGetBGPStatus (LXCID (Failover cfg)) (Ok status) :: rest /\
        backup_ready requireComplete status
  | EvVMStop vm _ =>
      vm = MwanVMID cfg /\
      exists contents r file rest deployTS attempts,
        older = EvWriteFile lock contents r :: EvRollingBack true
                  :: EvReadFile (RollbackStateFile (Watchdog cfg)) file :: rest /\
        AlreadyDone file deployTS = Ok (false, attempts)
  | EvVMRollback vm snap _ =>
      vm = MwanVMID cfg /\
      (exists dels l rest,
         older = dels ++ EvVMSnapshots vm l :: EvVMStatus vm (Ok false)
                   :: EvVMStop vm (Ok tt) :: rest /\ preparation vm snap dels l) /\
      (exists r rest, newer = rest ++ [EvVMStart vm r])
  | EvVMUnlock vm _ =>
      exists held rest,
        older = EvVMHasRunningTask vm (Ok false) :: EvVMLock vm (Ok held) :: rest /\
        held ∈ recoverableLocks
  | EvVMDelSnapshotForce vm name _ =>
      exists err rest,
        older = EvVMHasRunningTask vm (Ok false) :: EvVMDelSnapshot vm name (Err err) :: rest /\
        contains storageSnapshotMissingMarker err = true /\
        MatchString KnownGoodSnapRE name = true
  | EvRecoverCoordinated _ =>
      exists r o rest,
        older = EvRollingBack true :: EvVerifyWatch r
                  :: EvReadOperation (OperationRecord o) :: rest /\
        op_VMID o = MwanVMID cfg /\ operation_over (op_Status o) = false
  | EvExit => hook = true
  | _ => True
  end.

Definition rules (k : Config * bool * bool) (new : list event) : Prop :=
  forall newer e older, new = newer ++ e :: older -> rule k newer e older.

Lemma rule_mono k newer e older n o :
  rule k newer e older -> rule k (n ++ newer) e (older ++ o).
Proof.
  destruct k as [[cfg rc] hook]. destruct e; simpl; try done.
  - intros (-> & c & r' & f & rest & ts & a & -> & ?). split; [done|].
    by exists c, r', f, (rest ++ o), ts, a.
  - intros (err & rest & -> & ? & ?). exists err, (rest ++ o). done.
  - intros (-> & (dels & l & rest & -> & Hp) & (r' & rest' & ->)). split; [done|]. split.
    + exists dels, l, (rest ++ o). by rewrite <- app_assoc.
    + exists r', (n ++ rest'). by rewrite app_assoc.
  - intros (-> & ? & st & a & b & c & d & rest & -> & ?). split; [done|]. split; [done|].
    by exists st, a, b, c, d, (rest ++ o).
  - intros (held & rest & -> & ?). exists held, (rest ++ o). done.
  - intros (r' & op & rest & -> & ? & ?). by exists r', op, (rest ++ o).
Qed.

Lemma rules_nil k : rules k [].
Proof. intros n e o H. by destruct n. Qed.

Lemma app_split {A} (l1 l2 n : list A) e o :
  l1 ++ l2 = n ++ e :: o ->
  (exists o', l1 = n ++ e :: o' /\ o = o' ++ l2) \/ (exists n', n = l1 ++ n' /\ l2 = n' ++ e :: o).
Proof.
  intros H. apply app_eq_inv in H as [(k & -> & Hk)|(k & -> & ->)].
  - destruct k as [|x k]; simpl in Hk.
    + right. exists []. split; [by rewrite !app_nil_r|done].
    + injection Hk as -> ->. left. by exists k.
  - right. by exists k.
Qed.

Lemma rules_app k l1 l2 : rules k l1 -> rules k l2 -> rules k (l1 ++ l2).
Proof.
  intros H1 H2 n e o H. apply app_split in H as [(o' & Hl & ->)|(n' & -> & Hl)].
  - apply (rule_mono _ n e o' []). by apply H1.
  - rewrite <- (app_nil_r o). apply rule_mono. by apply H2.
Qed.

Lemma rules_one k e : rule k [] e [] -> rules k [e].
Proof.
  intros H n e' o Heq. destruct n as [|? [|]]; simpl in Heq; try discriminate.
  by injection Heq as <- <-.
Qed.

(** ** The preorder *)

Definition forced_ok (w : watchdog) : Prop := 0 <= forcedDeletes w <= maxConsecutiveForcedDeletes.

Section Rules.
Context {W : Type} `{!SysOps W, !Host W, !DeployInspector W}.
Implicit Types s : wsys W.

(** The trace, constants and counters; without the rollback mark. *)
Definition extends s s' : Prop :=
  consts (wd s') = consts (wd s) /\
  (forced_ok (wd s) -> forced_ok (wd s')) /\
  exists new, trace s' = new ++ trace s /\ rules (consts (wd s)) new.

Definition obeys s s' : Prop :=
  extends s s' /\
  (rollingBack (coord (wd s')) = false \/
   rollingBack (coord (wd s')) = rollingBack (coord (wd s))).

#[global] Instance extends_preorder : PreOrder extends.
Proof.
  split.
  - intros s. split; [done|]. split; [done|]. exists []. split; [done|]. apply rules_nil.
  - intros s1 s2 s3 (Hc1 & Hf1 & n1 & Ht1 & Hr1) (Hc2 & Hf2 & n2 & Ht2 & Hr2).
    split; [congruence|]. split; [auto|]. exists (n2 ++ n1).
    rewrite Ht2, Ht1, app_assoc. split; [done|]. apply rules_app; [|done]. by rewrite <- Hc1.
Qed.

#[global] Instance obeys_preorder : PreOrder obeys.
Proof.
  split.
  - intros s. split; [reflexivity|]. auto.
  - intros s1 s2 s3 [H1 R1] [H2 R2]. split; [by transitivity s2|].
    destruct R2 as [R2|R2]; [auto|]. rewrite R2. done.
Qed.

(** Events without a guard. *)
Definition free (e : event) : Prop := forall k newer older, rule k newer e older.

Lemma sat_call {A} (f : W -> A * W) (ev : A -> event) : (forall a, free (ev a)) -> sat (call f ev) obeys.
Proof.
  intros Hfree s. unfold call. destruct (f (world s)) as [a w'].
  split; [|by right]. split; [done|]. split; [done|]. exists [ev a]. split; [done|].
  apply rules_one, Hfree.
Qed.

Lemma sat_record e : free e -> sat (record (W:=W) e) obeys.
Proof.
  intros Hfree s. split; [|by right]. split; [done|]. split; [done|].
  exists [e]. split; [done|]. apply rules_one, Hfree.
Qed.

Lemma sat_peek {A} (f : W -> A * W) : sat (peek f) obeys.
Proof.
  intros s. unfold peek. destruct (f (world s)). split; [|by right].
  split; [done|]. split; [done|]. exists []. split; [done|]. apply rules_nil.
Qed.

(** An assignment that leaves the constants, the forced deletes and the mark. *)
Definition harmless (f : watchdog -> watchdog) : Prop :=
  forall w, consts (f w) = consts w /\ (forced_ok w -> forced_ok (f w)) /\
    rollingBack (coord (f w)) = rollingBack (coord w).

Lemma sat_upd f : harmless f -> sat (upd (W:=W) f) obeys.
Proof.
  intros Hf s. destruct (Hf (wd s)) as (Hc & Hi & Hr). split; [|right; exact Hr].
  split; [done|]. split; [done|]. exists []. split; [done|]. apply rules_nil.
Qed.

(** ** Symbolic execution of single handlers *)

Lemma wp_call {A} (f : W -> A * W) ev (Q : A -> wsys W -> Prop) s :
  (forall a w', Q a (mkWsys (wd s) w' (ev a :: trace s))) -> wp (call f ev) Q s.
Proof. intros H. unfold wp, call. destruct (f (world s)). apply H. Qed.

Lemma wp_peek {A} (f : W -> A * W) (Q : A -> wsys W -> Prop) s :
  (forall a w', Q a (mkWsys (wd s) w' (trace s))) -> wp (peek f) Q s.
Proof. intros H. unfold wp, peek. destruct (f (world s)). apply H. Qed.

Lemma wp_record e (Q : unit -> wsys W -> Prop) s :
  Q tt (mkWsys (wd s) (world s) (e :: trace s)) -> wp (record e) Q s.
Proof. done. Qed.

Lemma wp_upd f (Q : unit -> wsys W -> Prop) s :
  Q tt (mkWsys (f (wd s)) (world s) (trace s)) -> wp (upd f) Q s.
Proof. done. Qed.

Lemma wp_field {A} (f : watchdog -> A) (Q : A -> wsys W -> Prop) s :
  Q (f (wd s)) s -> wp (field f) Q s.
Proof. done. Qed.

(** What is left to show when a handler has been run to its end. *)
Lemma obeys_intro s s' new :
  consts (wd s') = consts (wd s) -> (forced_ok (wd s) -> forced_ok (wd s')) ->
  rollingBack (coord (wd s')) = rollingBack (coord (wd s)) ->
  trace s' = new ++ trace s -> rules (consts (wd s)) new -> obeys s s'.
Proof. intros Hc Hf Hr Ht Hn. split; [|by right]. split; [done|]. split; [done|]. by exists new. Qed.
End Rules.

Lemma rules_cons k e l : rule k [] e l -> rules k l -> rules k (e :: l).
Proof.
  intros He Hl n e' o H. destruct n as [|x n]; simpl in H; injection H as -> ->; [done|].
  rewrite <- (app_nil_r o). apply (rule_mono k n e' o [x]). by apply Hl.
Qed.

(** Run a handler; conditionals and results split into cases. *)
Ltac wp_step :=
  lazymatch goal with
  | |- wp (mbind _ _) _ _ => apply wp_bind_intro
  | |- wp (mret _) _ _ => apply wp_ret_intro
  | |- wp (call _ _) _ _ => apply wp_call; intros ? ?
  | |- wp (peek _) _ _ => apply wp_peek; intros ? ?
  | |- wp (record _) _ _ => apply wp_record
  | |- wp (upd _) _ _ => apply wp_upd
  | |- wp (field _) _ _ => apply wp_field
  | |- wp (gets _) _ _ => apply wp_gets_intro
  | |- wp (whenM _ _) _ _ => apply wp_whenM; intros ?
  | |- wp (if ?b then _ else _) _ _ => first [is_var b; destruct b | apply wp_if; intros ?]
  | |- wp (match ?x with _ => _ end) _ _ => destruct x
  end.
Ltac wp_run := repeat wp_step; cbn [wd trace world] in *.

Ltac harmless_tac :=
  let w := fresh "w" in
  intros w; destruct w; cbn; repeat case_match; (split; [reflexivity|]); split; (done || auto).

Ltac free_tac :=
  intros; lazymatch goal with |- free _ => let k := fresh "k" in intros k ? ?; destruct k as [[? ?] ?]; exact I end.

Create HintDb watchdog.
#[export] Hint Resolve sat_peek : watchdog.
#[export] Hint Extern 2 (sat (call _ _) obeys) => apply sat_call; free_tac : watchdog.
#[export] Hint Extern 2 (sat (record _) obeys) => apply sat_record; free_tac : watchdog.
#[export] Hint Extern 2 (sat (upd _) obeys) => apply sat_upd; harmless_tac : watchdog.

Ltac wd_steps := sat_steps ltac:(eauto 2 with watchdog nocore).

Section Handlers.
Context {W : Type} `{!SysOps W, !Host W, !DeployInspector W}.
Implicit Types s : wsys W.

Abbreviation safe m := (sat m (obeys (W:=W))).

Lemma safe_getNow : safe getNow.
Proof. apply sat_peek. Qed.
Lemma safe_since t : safe (since t).
Proof. unfold since, getNow. wd_steps. Qed.
Lemma safe_sleepOrDone d : safe (sleepOrDone d).
Proof. unfold sleepOrDone. wd_steps. Qed.
Lemma safe_appendProbe m : safe (appendProbe m).
Proof. unfold appendProbe. wd_steps. Qed.
Lemma safe_flushProbeLog : safe flushProbeLog.
Proof. unfold flushProbeLog, field. wd_steps. Qed.
#[local] Hint Resolve safe_getNow safe_since safe_sleepOrDone safe_appendProbe safe_flushProbeLog : watchdog.

Lemma safe_guestExecProbe args : safe (guestExecProbe args).
Proof. unfold guestExecProbe, vmid, field, guestExec. wd_steps. Qed.
Lemma safe_readGuestUnix path : safe (readGuestUnix path).
Proof. unfold readGuestUnix, vmid, field, guestExec. wd_steps. Qed.
#[local] Hint Resolve safe_guestExecProbe safe_readGuestUnix : watchdog.

Lemma safe_probeConnectivity : safe probeConnectivity.
Proof. unfold probeConnectivity, cfgOf, field, ping. wd_steps. Qed.
Lemma safe_testVMConnectivity : safe testVMConnectivity.
Proof. unfold testVMConnectivity, cfgOf, field. wd_steps. Qed.
Lemma safe_checkDeploy : safe checkDeploy.
Proof. unfold checkDeploy, cfgOf, field, vmStatus. wd_steps. Qed.
Lemma safe_ensureGuestThawed : safe ensureGuestThawed.
Proof. unfold ensureGuestThawed, cfgOf, field, vmFreezeStatus, vmFreezeThaw. wd_steps. Qed.
Lemma safe_routeChannelFallback c : safe (routeChannelFallback c).
Proof. unfold routeChannelFallback, cfgOf, field, notifyEvent, resolveAlert. wd_steps. Qed.
#[local] Hint Resolve safe_probeConnectivity safe_testVMConnectivity safe_checkDeploy
  safe_ensureGuestThawed safe_routeChannelFallback : watchdog.

Lemma safe_checkConfigHash : safe checkConfigHash.
Proof. unfold checkConfigHash, vmid, field, getConfigState. wd_steps. Qed.
Lemma safe_snapshotBackoffActive : safe snapshotBackoffActive.
Proof. unfold snapshotBackoffActive, field. wd_steps. Qed.
Lemma safe_noteSnapshotFailure : safe noteSnapshotFailure.
Proof. unfold noteSnapshotFailure, vmid, field, notifyEvent. wd_steps. Qed.
Lemma safe_noteSnapshotSuccess : safe noteSnapshotSuccess.
Proof. unfold noteSnapshotSuccess, vmid, field, resolveAlert. wd_steps. Qed.
#[local] Hint Resolve safe_checkConfigHash safe_snapshotBackoffActive safe_noteSnapshotFailure
  safe_noteSnapshotSuccess : watchdog.

(** *** Guarded operations *)

Lemma safe_of_wp {A} (m : M (wsys W) A) :
  (forall s, wp m (fun _ s' => obeys s s') s) -> safe m.
Proof. intros H s. apply H. Qed.

(** Close a run whose new events are explicit and whose state is unchanged. *)
Ltac close_run :=
  match goal with
  | |- obeys ?s (mkWsys _ _ (?a :: ?b :: ?c :: ?d :: trace ?s)) =>
      apply (obeys_intro s _ [a; b; c; d])
  | |- obeys ?s (mkWsys _ _ (?a :: ?b :: ?c :: trace ?s)) => apply (obeys_intro s _ [a; b; c])
  | |- obeys ?s (mkWsys _ _ (?a :: ?b :: trace ?s)) => apply (obeys_intro s _ [a; b])
  | |- obeys ?s (mkWsys _ _ (?a :: trace ?s)) => apply (obeys_intro s _ [a])
  | |- obeys ?s (mkWsys _ _ (trace ?s)) => apply (obeys_intro s _ [])
  | |- obeys ?s ?s => reflexivity
  end; try done.

Ltac cons_rules :=
  repeat lazymatch goal with
  | |- rules _ (_ :: _) => apply rules_cons; [try exact I|]
  | |- rules _ [] => apply rules_nil
  end.

Lemma safe_clearStaleGuestLock : safe clearStaleGuestLock.
Proof.
  apply safe_of_wp. intros s. unfold clearStaleGuestLock, vmid, vmLock, vmHasRunningTask,
    vmUnlock, getNow, notifyEvent.
  wp_run; close_run; cons_rules.
  all: bool_prop; cbn; eexists _, _; split; [reflexivity|done].
Qed.

Lemma safe_canForceDelete name e : safe (canForceDelete name e).
Proof. unfold canForceDelete, vmid, field, vmHasRunningTask. wd_steps. Qed.

Lemma forced_incr w :
  (maxConsecutiveForcedDeletes <=? forcedDeletes w) = false ->
  forced_ok w -> forced_ok (set_forcedDeletes (incr (forcedDeletes w)) w).
Proof.
  unfold forced_ok, maxConsecutiveForcedDeletes. intros Hm Hf. cbn [forcedDeletes set_forcedDeletes].
  apply Z.leb_gt in Hm. rewrite incr_small; [lia|]. unfold int64_max. lia.
Qed.

Lemma safe_deleteSnapshot name : safe (deleteSnapshot name).
Proof.
  apply safe_of_wp. intros s. unfold deleteSnapshot, canForceDelete, vmid, vmDelSnapshot,
    vmDelSnapshotForce, vmHasRunningTask, getNow, notifyEvent.
  wp_run; try done; close_run; cons_rules; try by apply forced_incr.
  all: bool_prop; cbn; eexists _, _; split; [reflexivity|done].
Qed.
#[local] Hint Resolve safe_clearStaleGuestLock safe_canForceDelete safe_deleteSnapshot : watchdog.

Lemma safe_deleteEach names e : safe (deleteEach names e).
Proof. unfold deleteEach. wd_steps. Qed.
Lemma safe_prune_loop names excess deleted e : safe (prune_loop names excess deleted e).
Proof.
  revert deleted e. induction names as [|n names IH]; intros deleted e; cbn [prune_loop]; wd_steps.
  all: apply IH.
Qed.
#[local] Hint Resolve safe_deleteEach safe_prune_loop : watchdog.

Lemma safe_prune_total cfg kg pre e : safe (prune_total cfg kg pre e).
Proof. unfold prune_total, prunePreDeploySnapshots. wd_steps. Qed.
#[local] Hint Resolve safe_prune_total : watchdog.
Lemma safe_pruneSnapshots : safe pruneSnapshots.
Proof. unfold pruneSnapshots, cfgOf, field, vmSnapshots. wd_steps. Qed.
#[local] Hint Resolve safe_pruneSnapshots : watchdog.
Lemma safe_takeSnapshot : safe takeSnapshot.
Proof. unfold takeSnapshot, vmid, field, vmSnapshot. wd_steps. Qed.
#[local] Hint Resolve safe_takeSnapshot : watchdog.
Lemma safe_maybeSnapshot : safe maybeSnapshot.
Proof. unfold maybeSnapshot. wd_steps. Qed.
#[local] Hint Resolve safe_maybeSnapshot : watchdog.

(** *** Failover *)

Lemma triggerBGPFailover_obeys reason s :
  Check addressParsers (wd_cfg (wd s)) = [] -> obeys s (triggerBGPFailover reason s).2.
Proof.
  intros Hcheck.
  assert (MwanVMID (wd_cfg (wd s)) <> LXCID (Failover (wd_cfg (wd s)))) as Hne.
  { unfold Check, fail_if in Hcheck. intros Heq. rewrite <- Heq in Hcheck.
    destruct (bool_decide (MwanVMID (wd_cfg (wd s)) = ""%string)); [done|].
    rewrite (bool_decide_true (MwanVMID _ = MwanVMID _)) in Hcheck by done. discriminate. }
  change (wp (triggerBGPFailover reason) (fun _ s' => obeys s s') s).
  unfold triggerBGPFailover, cfgOf, getBGPStatus, announceRoutes, withdrawRoutes, notifyEvent,
    since, getNow.
  wp_run.
  all: match goal with
       | |- obeys ?s (mkWsys _ _ (?a :: ?b :: ?c :: ?d :: ?e :: ?f :: trace ?s)) =>
           apply (obeys_intro s _ [a; b; c; d; e; f]); try done
       | |- obeys ?s (mkWsys _ _ (?a :: ?b :: ?c :: ?d :: ?e :: trace ?s)) =>
           apply (obeys_intro s _ [a; b; c; d; e]); try done
       | _ => close_run
       end; cons_rules.
  all: bool_prop; cbn; split; [done|]; split; [done|];
    eexists _, _, _, _, _, _; split; [reflexivity|]; unfold backup_ready.
  all: split; [done|]; split; [by apply orb_true_iff|]; intros Hrc.
  all: match goal with
       | H : requireCompleteBackup _ = false \/ _ |- _ => destruct H; [congruence|by bool_prop]
       end.
Qed.

Lemma safe_triggerFailover reason : safe (triggerFailover reason).
Proof.
  intros s. unfold triggerFailover, cfgOf, field, mbind, M_bind, gets.
  destruct (Check addressParsers (wd_cfg (wd s))) eqn:E; [by apply triggerBGPFailover_obeys|].
  reflexivity.
Qed.
#[local] Hint Resolve safe_triggerFailover : watchdog.

Lemma safe_triggerBGPRecovery : safe triggerBGPRecovery.
Proof.
  unfold triggerBGPRecovery, cfgOf, field, getBGPStatus, announceRoutes, resolveAlert, notifyEvent.
  wd_steps.
Qed.
Lemma safe_tryFailover reason : safe (tryFailover reason).
Proof. unfold tryFailover, cfgOf, field, guestExec. wd_steps. Qed.
#[local] Hint Resolve safe_triggerBGPRecovery safe_tryFailover : watchdog.
Lemma safe_maybeTriggerRecovery : safe maybeTriggerRecovery.
Proof. unfold maybeTriggerRecovery, field. wd_steps. Qed.
#[local] Hint Resolve safe_maybeTriggerRecovery : watchdog.

(** *** Rollback *)

(** Rules for events that follow the events [base]. *)
Definition rules_after (k : Config * bool * bool) (base new : list event) : Prop :=
  forall newer e older, new = newer ++ e :: older -> rule k newer e (older ++ base).

Lemma rules_after_of k base new : rules k new -> rules_after k base new.
Proof. intros H n e o Heq. apply (rule_mono k n e o []). by apply H. Qed.

Lemma rules_after_app k base l1 l2 :
  rules_after k (l2 ++ base) l1 -> rules_after k base l2 -> rules_after k base (l1 ++ l2).
Proof.
  intros H1 H2 n e o H. apply app_split in H as [(o' & Hl & ->)|(n' & -> & Hl)].
  - rewrite <- app_assoc. by apply H1.
  - rewrite <- (app_nil_r (o ++ base)). apply rule_mono. by apply H2.
Qed.

Lemma rules_of_after k base new : rules_after k base new -> rules k base -> rules k (new ++ base).
Proof.
  intros H1 H2 n e o H. apply app_split in H as [(o' & Hl & ->)|(n' & -> & Hl)].
  - by apply H1.
  - rewrite <- (app_nil_r o). apply rule_mono. by apply H2.
Qed.

Lemma deletions_spec vm names s :
  wp (forM names (fun child => vmDelSnapshot vm child ;; mret tt)) (fun _ s' =>
    wd s' = wd s /\ exists dels, trace s' = dels ++ trace s /\
      Forall (fun e => exists name r, e = EvVMDelSnapshot vm name r /\ name ∈ names) dels) s.
Proof.
  apply (wp_foldM _ (fun _ _ s' => wd s' = wd s /\ exists dels, trace s' = dels ++ trace s /\
      Forall (fun e => exists name r, e = EvVMDelSnapshot vm name r /\ name ∈ names) dels)).
  - split; [done|]. by exists [].
  - intros done x todo [] s1 Heq [Hw (dels & Ht & Hd)]. rewrite wp_bind. apply wp_call.
    intros r w'. split; [done|]. exists (EvVMDelSnapshot vm x r :: dels). simpl. rewrite Ht.
    split; [done|]. constructor; [|done]. exists x, r. split; [done|]. rewrite Heq. set_solver.
Qed.

Lemma executeRollbackVM_spec snap s :
  let vm := MwanVMID (wd_cfg (wd s)) in
  wp (executeRollbackVM snap) (fun _ s' => wd s' = wd s /\ exists body stop,
    trace s' = body ++ EvVMStop vm stop :: trace s /\
    rules_after (consts (wd s)) [EvVMStop vm stop] body) s.
Proof.
  cbv zeta. unfold executeRollbackVM, vmid, vmStop, vmStatus, vmSnapshots, getNow.
  rewrite wp_bind. apply wp_field. rewrite wp_bind. apply wp_peek; intros t0 w0.
  rewrite wp_bind. apply wp_call; intros [[]|e] w1; cbn [wd trace world].
  2:{ split; [done|]. exists [], (Err e). split; [done|]. apply rules_after_of, rules_nil. }
  rewrite wp_bind. apply wp_call; intros st w2; cbn [wd trace world].
  destruct st as [[]|e]; try (rewrite wp_ret).
  1,3: split; [done|]; eexists [_], _; (split; [reflexivity|]); apply rules_after_of, rules_one; exact I.
  rewrite wp_bind. apply wp_call; intros l w3; cbn [wd trace world]. rewrite wp_bind.
  set (vm := MwanVMID (wd_cfg (wd s))).
  eapply (wp_mono _ (fun _ s' => wd s' = wd s /\ exists dels,
    trace s' = dels ++ EvVMSnapshots vm l :: EvVMStatus vm (Ok false) :: EvVMStop vm (Ok ()) :: trace s /\
    preparation vm snap dels l)).
  { destruct l as [listing|e]; [|split; [done|]; by exists []].
    eapply wp_mono; [apply deletions_spec|]. intros _ s1 [Hw (dels & Ht & Hd)]. split; [done|].
    exists dels. split; [done|]. eapply Forall_impl; [exact Hd|].
    intros e (name & r & -> & Hin). exists name, r. split; [done|].
    apply list_elem_of_In in Hin. apply in_rev in Hin. by apply list_elem_of_In. }
  intros _ s1 [Hw (dels & Ht & Hd)].
  rewrite wp_bind. apply wp_peek; intros t1 w4. rewrite wp_bind. apply wp_call; intros r1 w5.
  rewrite wp_bind. apply wp_peek; intros t2 w6. rewrite wp_bind. apply wp_call; intros r2 w7.
  cbn [wd trace world].
  apply (wp_mono _ (fun _ s' => s' = mkWsys (wd s1) w7
    (EvVMStart vm r2 :: EvVMRollback vm snap r1 :: trace s1))).
  { destruct r2, r1; by rewrite wp_ret. }
  intros _ s' ->. cbn [wd trace]. split; [done|].
  exists ([EvVMStart vm r2; EvVMRollback vm snap r1] ++ dels ++ [EvVMSnapshots vm l; EvVMStatus vm (Ok false)]), (Ok tt).
  rewrite Ht. split; [by rewrite <- !app_assoc|]. apply rules_after_app.
  - intros newer e older Heq. destruct newer as [|x [|y [|]]]; simpl in Heq; try discriminate.
    + injection Heq as <- <-. exact I.
    + injection Heq as <- <- <-. cbn. split; [done|]. split; [|by exists r2, []].
      exists dels, l, []. by rewrite <- app_assoc.
  - apply rules_after_of, rules_app; [|cons_rules].
    intros newer e older Heq. destruct l as [listing|er]; simpl in Hd.
    + rewrite Forall_forall in Hd. destruct (Hd e) as (name & r & -> & _); [|exact I].
      rewrite Heq. set_solver.
    + subst dels. by destruct newer.
Qed.

Lemma safe_alreadyDone ts : safe (alreadyDone ts).
Proof. unfold alreadyDone, cfgOf, field, osReadFile. wd_steps. Qed.
#[local] Hint Resolve safe_alreadyDone : watchdog.
Lemma safe_recordRollbackResult ts snap r : safe (recordRollbackResult ts snap r).
Proof. unfold recordRollbackResult, cfgOf, field, osRemove, osWriteFile. wd_steps. Qed.
#[local] Hint Resolve safe_recordRollbackResult : watchdog.

Lemma safe_takeShutdown : safe takeShutdown.
Proof.
  apply safe_of_wp. intros s. unfold takeShutdown. wp_run; close_run; cons_rules.
  all: match goal with H : _ && _ = true |- _ => apply andb_true_iff in H as [_ H]; exact H end.
Qed.
#[local] Hint Resolve safe_takeShutdown : watchdog.

Lemma safe_rollback_finish ts snap r : safe (rollback_finish ts snap r).
Proof. unfold rollback_finish, cfgOf, field. wd_steps. Qed.

Lemma rollback_marked_spec ts snap s :
  let vm := MwanVMID (wd_cfg (wd s)) in
  let lock := RollbackLockFile (Watchdog (wd_cfg (wd s))) in
  wp (rollback_marked ts snap) (fun _ s' =>
    consts (wd s') = consts (wd s) /\ (forced_ok (wd s) -> forced_ok (wd s')) /\
    exists body stop contents r,
      trace s' = body ++ EvVMStop vm stop :: EvWriteFile lock contents r :: trace s /\
      rules_after (consts (wd s)) [EvVMStop vm stop] body) s.
Proof.
  cbv zeta. unfold rollback_marked, cfgOf, flushProbeLog, getNow, osWriteFile.
  rewrite wp_bind. apply wp_field. rewrite wp_bind, wp_bind. apply wp_field.
  rewrite wp_bind. apply wp_upd. rewrite wp_ret.
  rewrite wp_bind. apply wp_peek; intros t w1. rewrite wp_bind. apply wp_call; intros r w2.
  rewrite wp_bind. apply wp_peek; intros t' w3. cbn [wd trace world].
  rewrite wp_bind. eapply wp_mono; [apply executeRollbackVM_spec|].
  cbn [wd trace world wd_cfg set_probeLog]. intros rb s1 [Hw (body & stop & Ht & Hr)].
  pose proof (safe_rollback_finish ts snap rb s1) as [(Hc & Hf & new & Hn & Hrules) _].
  unfold wp. rewrite Hw in *. split; [exact Hc|]. split.
  { intros Hok. apply Hf. exact Hok. }
  eexists (new ++ body), stop, _, r. rewrite Hn, Ht, <- app_assoc. split; [reflexivity|].
  apply rules_after_app; [|exact Hr]. by apply rules_after_of.
Qed.

Lemma obeys_marked_false s s' new :
  consts (wd s') = consts (wd s) -> (forced_ok (wd s) -> forced_ok (wd s')) ->
  rollingBack (coord (wd s')) = false ->
  trace s' = new ++ trace s -> rules (consts (wd s)) new -> obeys s s'.
Proof. intros Hc Hf Hr Ht Hn. split; [|by left]. split; [done|]. split; [done|]. by exists new. Qed.

Lemma safe_inspectDeployOperation : safe inspectDeployOperation.
Proof.
  apply safe_of_wp. intros s. unfold inspectDeployOperation, cfgOf, getNow, SetRollingBackM.
  wp_run; try (close_run; cons_rules).
  unfold upd, modify. cbn [fst snd wd trace world].
  match goal with
  | |- obeys ?s (mkWsys _ _ (?a :: ?b :: ?c :: ?d :: ?e :: trace ?s)) =>
      apply (obeys_marked_false s _ [a; b; c; d; e])
  end; try done.
  cons_rules. bool_prop. cbn. eexists _, _, _. split; [reflexivity|]. done.
Qed.
#[local] Hint Resolve safe_inspectDeployOperation : watchdog.

Lemma safe_handleDeployOperation : safe handleDeployOperation.
Proof. unfold handleDeployOperation, cfgOf, field, osStat, Acquire, Release. wd_steps. Qed.

Lemma safe_rollback_locked ts snap : safe (rollback_locked ts snap).
Proof.
  unfold rollback_locked. apply sat_bind; [apply _|apply safe_inspectDeployOperation|].
  intros [|]; [apply sat_ret, _|]. apply safe_of_wp. intros s.
  unfold alreadyDone, cfgOf, osReadFile. rewrite wp_bind, wp_bind. apply wp_field.
  rewrite wp_bind. apply wp_call; intros file w1. rewrite wp_ret.
  destruct (AlreadyDone file ts) as [[[] n]|e] eqn:Hdone; rewrite ?wp_ret.
  1,3: close_run; cons_rules.
  unfold SetRollingBackM. rewrite wp_bind. apply wp_upd. rewrite wp_bind, wp_bind. apply wp_upd.
  apply wp_record. rewrite wp_bind. apply wp_upd. rewrite wp_bind.
  eapply wp_mono; [apply rollback_marked_spec|]. cbn [wd trace world].
  intros _ s1 (Hc & Hf & body & stop & contents & r & Ht & Hr).
  rewrite wp_bind. apply wp_upd. apply wp_record. cbn [wd trace world].
  eapply (obeys_marked_false s _ (EvRollingBack false :: (body ++
    [EvVMStop (MwanVMID (wd_cfg (wd s))) stop]) ++
    [EvWriteFile (RollbackLockFile (Watchdog (wd_cfg (wd s)))) contents r; EvRollingBack true;
     EvReadFile (RollbackStateFile (Watchdog (wd_cfg (wd s)))) file])).
  - exact Hc.
  - intros Hok. apply Hf, Hok.
  - done.
  - rewrite Ht. simpl. by rewrite <- !app_assoc.
  - apply rules_cons; [exact I|]. rewrite <- app_assoc. apply rules_of_after.
    + intros newer e older Heq. rewrite app_assoc. apply (rule_mono _ newer e _ []).
      exact (Hr newer e older Heq).
    + cbn [app]. cons_rules. cbn. split; [done|]. by eexists _, _, _, [], ts, n.
Qed.
#[local] Hint Resolve safe_handleDeployOperation safe_rollback_locked : watchdog.

Lemma safe_rollback ts snap : safe (rollback ts snap).
Proof. unfold rollback, cfgOf, field, Acquire, Release. wd_steps. Qed.
#[local] Hint Resolve safe_rollback : watchdog.

Lemma safe_recoverInterrupted : safe recoverInterrupted.
Proof.
  unfold recoverInterrupted, cfgOf, field, Acquire, Release, osReadFile, osRemove, vmStatus, vmStart.
  wd_steps.
Qed.
#[local] Hint Resolve safe_recoverInterrupted : watchdog.

(** *** Diagnosis and the loop *)

Lemma TrySendPartial_harmless t : harmless (fun w => set_limiter (TrySendPartial t (limiter w)).2 w).
Proof. harmless_tac. Qed.
Lemma safe_sendPartialAlert : safe sendPartialAlert.
Proof. unfold sendPartialAlert, field. wd_steps. Qed.
Lemma safe_sendTotalAlert : safe sendTotalAlert.
Proof. unfold sendTotalAlert, field. wd_steps. Qed.
Lemma safe_logPushedStatus : safe logPushedStatus.
Proof. unfold logPushedStatus. wd_steps. Qed.
Lemma safe_findSnapshot : safe findSnapshot.
Proof. unfold findSnapshot, vmid, field, vmSnapshots. wd_steps. Qed.
#[local] Hint Resolve safe_sendPartialAlert safe_sendTotalAlert safe_logPushedStatus
  safe_findSnapshot : watchdog.

Lemma safe_diagnoseNoRecentChange : safe diagnoseNoRecentChange.
Proof. unfold diagnoseNoRecentChange, cfgOf, field. wd_steps. Qed.
Lemma safe_attemptRollbackForDeploy ts : safe (attemptRollbackForDeploy ts).
Proof. unfold attemptRollbackForDeploy, cfgOf, field. wd_steps. Qed.
#[local] Hint Resolve safe_diagnoseNoRecentChange safe_attemptRollbackForDeploy : watchdog.

Lemma safe_handleTimeoutExceeded : safe handleTimeoutExceeded.
Proof. unfold handleTimeoutExceeded, cfgOf, field. wd_steps. Qed.
Lemma safe_handleVMStopped : safe handleVMStopped.
Proof. unfold handleVMStopped, osStat, vmStart. wd_steps. Qed.
Lemma safe_handleHealthyProbe : safe handleHealthyProbe.
Proof. unfold handleHealthyProbe. wd_steps. Qed.
Lemma safe_handlePartialProbe : safe handlePartialProbe.
Proof. unfold handlePartialProbe. wd_steps. Qed.
Lemma safe_handleTotalLoss : safe handleTotalLoss.
Proof. unfold handleTotalLoss. wd_steps. Qed.
#[local] Hint Resolve safe_handleTimeoutExceeded safe_handleVMStopped safe_handleHealthyProbe
  safe_handlePartialProbe safe_handleTotalLoss : watchdog.

Lemma safe_runIteration : safe runIteration.
Proof. unfold runIteration, cfgOf, field, vmStatus. wd_steps. Qed.
#[local] Hint Resolve safe_runIteration : watchdog.

Lemma safe_run_loop fuel i : safe (run_loop fuel i).
Proof.
  revert i. induction fuel as [|fuel IH]; intros i; cbn [run_loop]; [apply sat_ret, _|].
  unfold field. wd_steps.
Qed.

Lemma safe_runStartupChecks : safe runStartupChecks.
Proof. unfold runStartupChecks, cfgOf, field, vmSnapshots, osReadFile, vmStatus. wd_steps. Qed.
#[local] Hint Resolve safe_run_loop safe_runStartupChecks : watchdog.

Lemma safe_run fuel : safe (run fuel).
Proof. unfold run. wd_steps. Qed.

(** Every event a safe handler adds to a fresh trace obeys its rule. *)
Lemma safe_rules {A} (m : M (wsys W) A) s newer e older :
  safe m -> trace s = [] -> trace (m s).2 = newer ++ e :: older ->
  rule (consts (wd s)) newer e older.
Proof.
  intros Hm Hs Ht. destruct (Hm s) as [(_ & _ & new & Hn & Hr) _].
  rewrite Hs, app_nil_r in Hn. apply Hr. congruence.
Qed.

Lemma run_rules fuel s newer e older :
  trace s = [] -> trace (run fuel s).2 = newer ++ e :: older ->
  rule (consts (wd s)) newer e older.
Proof. apply safe_rules, safe_run. Qed.
End Handlers.
