(* ===== verification/WatchdogProps.v ===== *)
(** * Properties of the watchdog

    Runs: what the safety rules of [WatchdogRules] say about every trace.  Single
    handlers: failover, recovery, snapshots and pruning, by symbolic execution.  One
    iteration: nothing drastic before the timeout.  The witnesses at the end apply the
    theorems to scripted environments. *)

From S2P Require Import Prelude GoStrings Effects Notify Alert Tier Rollback.
From S2P Require Import WatchdogState Watchdog WatchdogRules.

Local Open Scope Z_scope.

(** ** Pacing *)

Lemma backoff_loop_spec n b :
  0 < b < snapshotFailureBackoffCap ->
  backoff_loop n b = Z.min snapshotFailureBackoffCap (b * 2 ^ Z.of_nat n).
Proof.
  revert b. induction n as [|n IH]; intros b Hb.
  { simpl. rewrite Z.mul_1_r. lia. }
  cbn [backoff_loop]. rewrite wrap64_small.
  2:{ unfold in_int64, int64_min, int64_max, snapshotFailureBackoffCap, Hour, Minute, Second in *. lia. }
  rewrite Nat2Z.inj_succ, Z.pow_succ_r by lia.
  pose proof (Z.pow_pos_nonneg 2 (Z.of_nat n)) as Hp.
  destruct (Z.leb_spec snapshotFailureBackoffCap (b * 2)).
  - rewrite Z.min_l; [done|]. nia.
  - rewrite IH by lia. f_equal. lia.
Qed.

(** After [n] snapshot failures in a row the watchdog waits five minutes doubled
    [n - 1] times, capped at one hour; the 64-bit duration never overflows, whatever
    the count. *)
Lemma snapshot_backoff_closed_form failures :
  snapshotFailureBackoff failures
  = Z.min Hour (5 * Minute * 2 ^ Z.max 0 (failures - 1)).
Proof.
  unfold snapshotFailureBackoff. destruct (Z.leb_spec failures 1).
  - rewrite Z.max_l by lia. reflexivity.
  - rewrite backoff_loop_spec.
    + rewrite Z2Nat.id by lia. rewrite Z.max_r by lia. reflexivity.
    + unfold snapshotFailureBackoffBase, snapshotFailureBackoffCap, Hour, Minute, Second. lia.
Qed.

Section Props.
Context {W : Type} `{!SysOps W, !Host W, !DeployInspector W}.
Implicit Types s : wsys W.

(** ** Rules of whole runs *)

(** C1. The primary's routes are withdrawn only after the backup has been seen ready:
    in any run of the watchdog, from any state and whatever the environment answers,
    each withdrawal goes to the primary guest (never to the backup) and comes right
    after a status of the backup with every BGP session established and a family
    announced, every family when a complete backup is required; an announcement
    failure or an unconfirmed status therefore leaves the primary routes in place. *)
Theorem withdraw_only_to_ready_backup fuel s newer vm r older :
  trace s = [] ->
  trace (run fuel s).2 = newer ++ EvWithdrawRoutes vm r :: older ->
  vm = MwanVMID (wd_cfg (wd s)) /\ vm <> LXCID (Failover (wd_cfg (wd s))) /\
  exists status level kind key msg rest,
    older = EvNotify level kind key msg
              :: EvGetBGPStatus (LXCID (Failover (wd_cfg (wd s)))) (Ok status) :: rest /\
    backup_ready (requireCompleteBackup (wd s)) status.
Proof. intros Hs Ht. exact (run_rules fuel s newer _ older Hs Ht). Qed.


(** The watchdog stops the guest only for a rollback it has not finished yet: each
    stop comes right after the rollback marker was written, under the rolling-back mark
    that holds back shutdown, and after the rollback ledger was read and showed no
    finished rollback for some deploy. *)
Lemma stop_only_for_pending_rollback fuel s newer vm r older :
  trace s = [] ->
  trace (run fuel s).2 = newer ++ EvVMStop vm r :: older ->
  vm = MwanVMID (wd_cfg (wd s)) /\
  exists contents w file rest deployTS attempts,
    older = EvWriteFile (RollbackLockFile (Watchdog (wd_cfg (wd s)))) contents w
              :: EvRollingBack true
              :: EvReadFile (RollbackStateFile (Watchdog (wd_cfg (wd s)))) file :: rest /\
    AlreadyDone file deployTS = Ok (false, attempts).
Proof. intros Hs Ht. exact (run_rules fuel s newer _ older Hs Ht). Qed.

(** What must precede an escalation that could destroy another operation's work. *)
Definition escalation_guarded (e : event) (older : list event) : Prop :=
  match e with
  | EvVMUnlock vm _ => exists held rest,
      older = EvVMHasRunningTask vm (Ok false) :: EvVMLock vm (Ok held) :: rest /\
      held ∈ recoverableLocks
  | EvVMDelSnapshotForce vm name _ => exists err rest,
      older = EvVMHasRunningTask vm (Ok false) :: EvVMDelSnapshot vm name (Err err) :: rest /\
      contains storageSnapshotMissingMarker err = true /\
      MatchString KnownGoodSnapRE name = true
  | _ => True
  end.

(** The two escalations of the snapshot cycle are guarded in every run: a guest
    lock is cleared only if it is one the snapshot work takes and no task runs on the
    guest, and a delete is forced only on a known-good snapshot whose plain delete just
    failed because the disk snapshot is gone, again with no task running; and the
    counter of forced deletes stays within its limit of three. *)
Lemma escalations_guarded fuel s :
  trace s = [] -> forced_ok (wd s) ->
  (forall newer e older, trace (run fuel s).2 = newer ++ e :: older -> escalation_guarded e older) /\
  0 <= forcedDeletes (wd (run fuel s).2) <= 3.
Proof.
  intros Hs Hf. split.
  - intros newer e older Ht. pose proof (run_rules fuel s newer e older Hs Ht) as Hr.
    unfold consts in Hr. destruct e; try exact I; exact Hr.
  - destruct (safe_run fuel s) as [(_ & Hi & _) _]. by apply Hi.
Qed.

(** A rollback mark never outlives its rollback: whatever path a run takes, the
    coordinator does not report a rollback in progress at its end, so later shutdown
    signals are acted on. *)
Lemma rolling_back_mark_cleared fuel s :
  rollingBack (coord (wd s)) = false -> rollingBack (coord (wd (run fuel s).2)) = false.
Proof. intros Hr. destruct (safe_run fuel s) as [_ [H|H]]; congruence. Qed.

(** A shutdown signal deferred during a rollback is dropped: the constructor leaves
    the exit hook unset, so no run of a watchdog built by it ever exits on the deferred
    signal, and the end of a successful rollback clears the record of the signal. *)
Lemma deferred_shutdown_dropped fuel cfg cooldown w0 s :
  let s0 := mkWsys (newWatchdog cfg cooldown) w0 [] in
  EvExit ∉ trace (run fuel s0).2 /\
  shutdownAfterRollback (coord (wd (takeShutdown s).2)) = false.
Proof.
  cbv zeta. split.
  - intros Hin. apply list_elem_of_split in Hin as (newer & older & Ht).
    apply run_rules in Ht; [|done]. done.
  - change (wp takeShutdown (fun _ s' => shutdownAfterRollback (coord (wd s')) = false) s).
    unfold takeShutdown. wp_run; done.
Qed.

(** ** Failover and recovery *)

Lemma wp_guestExecProbe args (Q : bool -> wsys W -> Prop) s :
  (forall r w', Q (exec_ok r) (mkWsys (wd s) w'
     (EvGuestExec (MwanVMID (wd_cfg (wd s))) args r :: trace s))) ->
  wp (guestExecProbe args) Q s.
Proof.
  intros H. unfold guestExecProbe, vmid, guestExec. wp_run.
  - exact (H (Ok a) w').
  - exact (H (Err e) w').
Qed.

Definition no_withdraw (e : event) : Prop :=
  match e with EvWithdrawRoutes _ _ => False | _ => True end.

Lemma triggerFailover_outcome reason s :
  wp (triggerFailover reason) (fun r s' =>
    match r with
    | Ok _ => failoverActive (wd s') = true /\ failoverReason (wd s') = reason
    | Err _ => wd s' = wd s /\ exists new, trace s' = new ++ trace s /\ Forall no_withdraw new
    end) s.
Proof.
  unfold triggerFailover, cfgOf. rewrite wp_bind. apply wp_field.
  destruct (Check _ _); rewrite ?wp_ret; [|split; [done|]; by exists []].
  unfold triggerBGPFailover, cfgOf, getBGPStatus, announceRoutes, withdrawRoutes, notifyEvent,
    since, getNow.
  wp_run; try done.
  all: split; [done|].
  all: match goal with
       | |- exists new, ?a :: ?b :: ?c :: trace ?s = _ /\ _ => exists [a; b; c]
       | |- exists new, ?a :: ?b :: trace ?s = _ /\ _ => exists [a; b]
       | |- exists new, ?a :: trace ?s = _ /\ _ => exists [a]
       end; split; [done|]; repeat constructor.
Qed.

(** C38. Failover is all or nothing: when it reports an error the watchdog's state is
    exactly as before and no route was withdrawn; when it succeeds the failover is
    recorded as active with its reason. *)
Theorem failover_all_or_nothing reason s :
  wp (triggerFailover reason) (fun r s' =>
    match r with
    | Ok _ => failoverActive (wd s') = true /\ failoverReason (wd s') = reason
    | Err _ => wd s' = wd s /\ exists new, trace s' = new ++ trace s /\ Forall no_withdraw new
    end) s.
Proof. exact (triggerFailover_outcome reason s). Qed.

Lemma manual_rules cfg cooldown w0 newer e older :
  trace (FailoverRun cfg cooldown w0).2 = newer ++ e :: older ->
  rule (cfg, true, false) newer e older.
Proof.
  exact (safe_rules _ (mkWsys (set_requireCompleteBackup true (newWatchdog cfg cooldown)) w0 [])
    newer e older (safe_triggerFailover _) eq_refl).
Qed.

(** The manual failover command is stricter than the daemon: it withdraws the
    primary's routes only after the backup's last status announced every configured
    family with all sessions established, and it fails with every route in place
    otherwise. *)
Lemma manual_failover_needs_complete_backup cfg cooldown w0 newer vm r older :
  trace (FailoverRun cfg cooldown w0).2 = newer ++ EvWithdrawRoutes vm r :: older ->
  vm = MwanVMID cfg /\ is_ok (FailoverRun cfg cooldown w0).1 = true /\
  exists status level kind key msg rest,
    older = EvNotify level kind key msg :: EvGetBGPStatus (LXCID (Failover cfg)) (Ok (Some status)) :: rest /\
    AllEstablished status = true /\ Announcing status = true.
Proof.
  intros Ht. split; [|split].
  - destruct (manual_rules cfg cooldown w0 newer _ older Ht) as [-> _]. reflexivity.
  - pose proof (triggerFailover_outcome "manual trigger via `mwan watchdog failover`"
      (mkWsys (set_requireCompleteBackup true (newWatchdog cfg cooldown)) w0 [])) as H.
    unfold wp in H. fold (FailoverRun cfg cooldown w0) in H.
    destruct (FailoverRun cfg cooldown w0).1; [done|]. destruct H as [_ (new & Hn & Hall)].
    rewrite Ht, app_nil_r in Hn. subst new. apply Forall_app in Hall as [_ Hall].
    by apply Forall_inv in Hall.
  - destruct (manual_rules cfg cooldown w0 newer _ older Ht)
      as (_ & _ & [status|] & level & kind & key & msg & rest & Ho & Ha & _ & Hc); [|done].
    exists status, level, kind, key, msg, rest. split; [exact Ho|]. split; [exact Ha|by apply Hc].
Qed.

(** Recovery from failover is confirmed before it is recorded: it succeeds only
    after a probe through the primary passed, the primary's BGP sessions were all
    established and it accepted the announcement; then the failover is cleared, and in
    every other case the watchdog's state is unchanged, so recovery is retried on the
    next healthy cycle. *)
Lemma recovery_confirmed_or_unchanged s :
  let cfg := wd_cfg (wd s) in
  wp triggerBGPRecovery (fun r s' =>
    match r with
    | Ok _ => failoverActive (wd s') = false /\
        exists status n1 n2 r6 r4 rest,
          trace s' = n1 :: n2 :: EvAnnounceRoutes (MwanVMID cfg) (Ok tt)
            :: EvGetBGPStatus (MwanVMID cfg) (Ok status)
            :: EvGuestExec (MwanVMID cfg) ["ping6"; "-c"; "2"; "-W"; "3"; PingTargetIPv6 (Network cfg)]%string r6
            :: EvGuestExec (MwanVMID cfg) ["ping"; "-c"; "2"; "-W"; "3"; PingTargetIPv4 (Network cfg)]%string r4
            :: rest /\
          getter AllEstablished status = true /\ (exec_ok r4 || exec_ok r6) = true
    | Err _ => wd s' = wd s
    end) s.
Proof.
  cbv zeta. unfold triggerBGPRecovery, cfgOf, getBGPStatus,
    announceRoutes, notifyEvent, resolveAlert, getNow.
  do 4 wp_step. wp_step. apply wp_guestExecProbe; intros r4 w4.
  wp_step. apply wp_guestExecProbe; intros r6 w6. cbn [wd trace world].
  wp_run; try done.
  match goal with a : unit |- _ => destruct a end.
  split; [done|]. eexists _, _, _, _, _, _. split; [reflexivity|]. bool_prop.
  split; [done|]. apply orb_true_iff.
  match goal with H : _ \/ _ |- _ => destruct H; bool_prop; [by left|by right] end.
Qed.

(** ** Snapshots *)

(** Only events in [P] are added to the trace. *)
Definition adds (P : event -> Prop) s s' : Prop :=
  exists new, trace s' = new ++ trace s /\ Forall P new.

#[local] Instance adds_preorder P : PreOrder (adds P).
Proof.
  split.
  - intros s. by exists [].
  - intros s1 s2 s3 (n1 & H1 & P1) (n2 & H2 & P2). exists (n2 ++ n1).
    rewrite H2, H1, app_assoc. split; [done|]. by apply Forall_app_2.
Qed.

Lemma adds_call {A} (f : W -> A * W) ev (P : event -> Prop) :
  (forall a, P (ev a)) -> sat (call f ev) (adds P).
Proof. intros H s. unfold call. destruct (f (world s)) as [a w']. exists [ev a]. auto. Qed.
Lemma adds_peek {A} (f : W -> A * W) P : sat (peek f) (adds P).
Proof. intros s. unfold peek. destruct (f (world s)). by exists []. Qed.
Lemma adds_record (P : event -> Prop) e : P e -> sat (record (W:=W) e) (adds P).
Proof. intros H s. exists [e]. auto. Qed.
Lemma adds_upd f P : sat (upd (W:=W) f) (adds P).
Proof. intros s. by exists []. Qed.

Ltac adds_steps :=
  sat_steps ltac:(first [ apply adds_peek | apply adds_upd
                        | apply adds_call; intros; cbn; done
                        | apply adds_record; cbn; done | assumption ]).

(** Deletions go to the given names; any other operation is allowed. *)
Definition deletes_in (names : list string) (e : event) : Prop :=
  match e with
  | EvVMDelSnapshot _ n _ | EvVMDelSnapshotForce _ n _ => n ∈ names
  | EvVMSnapshot _ _ _ => False
  | _ => True
  end.

Lemma deleteSnapshot_adds name names :
  name ∈ names -> sat (deleteSnapshot name) (adds (deletes_in names)).
Proof.
  intros Hin. unfold deleteSnapshot, canForceDelete, vmid, field, vmDelSnapshot,
    vmDelSnapshotForce, vmHasRunningTask, getNow, notifyEvent. adds_steps.
Qed.

Lemma prune_loop_adds names all excess deleted e :
  (forall n, n ∈ names -> n ∈ all) ->
  sat (prune_loop names excess deleted e) (adds (deletes_in all)).
Proof.
  revert deleted e. induction names as [|n names IH]; intros deleted e Hsub; cbn [prune_loop].
  { apply sat_ret, _. }
  apply sat_if; [apply sat_ret, _|]. apply sat_bind; [apply _| |].
  - apply deleteSnapshot_adds, Hsub. left.
  - intros [|]; apply IH; intros; apply Hsub; by right.
Qed.

Lemma prune_loop_count names excess deleted e s :
  0 <= deleted -> deleted + Z.of_nat (length names) <= int64_max ->
  deleted <= ((prune_loop names excess deleted e s).1).1 <= Z.max deleted excess.
Proof.
  revert deleted e s. induction names as [|n names IH]; intros deleted e s Hd Hlen; cbn [prune_loop].
  { simpl. lia. }
  destruct (Z.leb_spec excess deleted); [simpl; lia|].
  unfold mbind, M_bind. destruct (deleteSnapshot n s) as [[u|e'] s1].
  - rewrite incr_small by (simpl in Hlen; lia).
    specialize (IH (deleted + 1) e s1). simpl in Hlen. lia.
  - apply IH; [lia|]. simpl in Hlen. lia.
Qed.

(** Pruning never endangers the next rollback: when the snapshots exceed their
    limit only pre-deploy snapshots before the last listed one are deleted (the last
    is the rollback target), at most as many as there are in excess, and no snapshot
    is taken meanwhile. *)
Lemma prune_keeps_rollback_target front target excess s :
  target ∉ front -> Z.of_nat (length front) <= int64_max -> 0 <= excess ->
  wp (prunePreDeploySnapshots (front ++ [target]) excess) (fun r s' =>
    0 <= r.1 <= excess /\
    exists new, trace s' = new ++ trace s /\
      Forall (fun e => deletes_in front e /\
                match e with
                | EvVMDelSnapshot _ n _ | EvVMDelSnapshotForce _ n _ => n <> target
                | _ => True
                end) new) s.
Proof.
  intros Ht Hlen He. unfold prunePreDeploySnapshots. rewrite removelast_last. unfold wp. split.
  - pose proof (prune_loop_count front excess 0 (Ok tt) s). lia.
  - destruct (prune_loop_adds front front excess 0 (Ok tt) (fun _ H => H) s) as (new & Hn & Hall).
    exists new. split; [done|]. eapply Forall_impl; [exact Hall|].
    intros [] Hin; (split; [exact Hin|]); try done; simpl in Hin; by intros ->.
Qed.

(** Operations after a snapshot attempt take no further snapshot. *)
Definition no_snapshot (e : event) : Prop :=
  match e with EvVMSnapshot _ _ _ => False | _ => True end.

Lemma deletes_no_snapshot names e : deletes_in names e -> no_snapshot e.
Proof. by destruct e. Qed.

Lemma adds_mono (P Q : event -> Prop) {A} (m : M (wsys W) A) :
  (forall e, P e -> Q e) -> sat m (adds P) -> sat m (adds Q).
Proof.
  intros H Hm s. destruct (Hm s) as (new & Hn & HP). exists new. split; [done|].
  by eapply Forall_impl.
Qed.

Lemma deleteSnapshot_quiet name : sat (deleteSnapshot name) (adds no_snapshot).
Proof.
  eapply adds_mono; [apply (deletes_no_snapshot [name])|]. apply deleteSnapshot_adds. left.
Qed.

Lemma pruneSnapshots_quiet : sat pruneSnapshots (adds no_snapshot).
Proof.
  assert (forall names e, sat (deleteEach names e) (adds no_snapshot)) as He.
  { intros names e. unfold deleteEach. apply sat_foldM; [apply _|]. intros acc x.
    apply sat_bind; [apply _|apply deleteSnapshot_quiet|]. intros. apply sat_ret, _. }
  assert (forall kg pre cfg e, sat (prune_total cfg kg pre e) (adds no_snapshot)) as Ht.
  { intros kg pre cfg e. unfold prune_total. apply sat_if; [apply sat_ret, _|].
    apply sat_bind; [apply _| |intros [? ?]; apply He].
    eapply adds_mono; [apply (deletes_no_snapshot (removelast pre))|]. by apply prune_loop_adds. }
  unfold pruneSnapshots, cfgOf, field, vmSnapshots.
  sat_steps ltac:(first [ apply He | apply Ht | apply adds_call; intros; cbn; done ]).
Qed.

Lemma clearStaleGuestLock_quiet : sat clearStaleGuestLock (adds no_snapshot).
Proof.
  unfold clearStaleGuestLock, vmid, field, vmLock, vmHasRunningTask, vmUnlock, getNow, notifyEvent.
  adds_steps.
Qed.

(** When a known-good snapshot may be taken, with the clock at [T]. *)
Record settled (w : watchdog) (T : Z) : Prop := {
  enough_healthy : 0 < SnapshotHealthyThreshold (Watchdog (wd_cfg w)) <= consecutiveHealthy w;
  backoff_over : snapshotBackoffUntil w = zero_time \/ snapshotBackoffUntil w <= T;
  no_drift : 0 < hashChangeWindowStart w ->
    wrap64 (DeployWindowMinutes (Watchdog (wd_cfg w)) * 60)
    <= wrap64 (unix T - hashChangeWindowStart w);
  spaced : lastSnapshotAt w = zero_time \/
    seconds (MinSnapshotIntervalSeconds (Watchdog (wd_cfg w))) <= sub_time T (lastSnapshotAt w);
  hash_checked : 0 < HashCheckEveryNHealthy (Watchdog (wd_cfg w)) -> lastHashCheckOK w = true;
}.

Lemma takeSnapshot_shape s :
  wp takeSnapshot (fun _ s' => exists rest r name,
    trace s' = rest ++ EvVMSnapshot (MwanVMID (wd_cfg (wd s))) name r :: trace s /\
    Forall no_snapshot rest /\
    (GuestType (wd_cfg (wd s)) <> GuestTypeLXC ->
     exists st rest', rest = rest' ++ [EvVMFSFreezeStatus (MwanVMID (wd_cfg (wd s))) st])) s.
Proof.
  unfold takeSnapshot, vmid, getNow, vmSnapshot. do 6 wp_step. cbn [wd trace world].
  wp_step.
  eapply (wp_mono _ (fun _ s1 => exists rest, trace s1 = rest ++ EvVMSnapshot
      (MwanVMID (wd_cfg (wd s))) ("known-good-" +:+ formatStamp a) a0 :: trace s /\
    Forall no_snapshot rest /\
    (GuestType (wd_cfg (wd s)) <> GuestTypeLXC ->
     exists st rest', rest = rest' ++ [EvVMFSFreezeStatus (MwanVMID (wd_cfg (wd s))) st]))).
  { unfold ensureGuestThawed, cfgOf, vmFreezeStatus, vmFreezeThaw. wp_run.
    { exists []. split; [done|]. split; [done|]. bool_prop. done. }
    all: match goal with
         | |- exists rest, ?a :: ?b :: ?c :: ?l = rest ++ ?l /\ _ => exists [a; b; c]
         | |- exists rest, ?a :: ?b :: ?l = rest ++ ?l /\ _ => exists [a; b]
         | |- exists rest, ?a :: ?l = rest ++ ?l /\ _ => exists [a]
         end.
    all: split; [done|]; split; [repeat constructor|]; intros _.
    all: match goal with
         | |- exists st rest', [?x] = _ => eexists _, []; reflexivity
         | |- exists st rest', [?y; ?x] = _ => eexists _, [y]; reflexivity
         | |- exists st rest', [?z; ?y; ?x] = _ => eexists _, [z; y]; reflexivity
         end. }
  intros _ s1 (rest & Ht & Hn & Hf).
  assert (forall A (m : M (wsys W) A), sat m (adds no_snapshot) -> wp m (fun _ s' => exists rest r name,
    trace s' = rest ++ EvVMSnapshot (MwanVMID (wd_cfg (wd s))) name r :: trace s /\
    Forall no_snapshot rest /\
    (GuestType (wd_cfg (wd s)) <> GuestTypeLXC ->
     exists st rest', rest = rest' ++ [EvVMFSFreezeStatus (MwanVMID (wd_cfg (wd s))) st])) s1) as Hmore.
  { intros A m Hm. destruct (Hm s1) as (new & Hnew & HP). unfold wp.
    exists (new ++ rest), a0, ("known-good-" +:+ formatStamp a)%string.
    rewrite Hnew, Ht, app_assoc. split; [done|]. split; [by apply Forall_app_2|].
    intros Hg. destruct (Hf Hg) as (st & rest' & ->). exists st, (new ++ rest'). by rewrite app_assoc. }
  apply Hmore. destruct a0 as [[]|e].
  - unfold noteSnapshotSuccess, vmid, field, getNow, resolveAlert.
    sat_steps ltac:(first [ apply pruneSnapshots_quiet | apply clearStaleGuestLock_quiet
                          | apply adds_peek | apply adds_upd | apply adds_record; cbn; done ]).
  - unfold noteSnapshotFailure, vmid, field, getNow, notifyEvent.
    sat_steps ltac:(first [ apply clearStaleGuestLock_quiet
                          | apply adds_peek | apply adds_upd | apply adds_record; cbn; done ]).
Qed.

Section Clock.
Context (T : Z) (Hclock : forall w : W, (now w).1 = T).

Lemma wp_getNow (Q : Z -> wsys W -> Prop) s :
  (forall w', Q T (mkWsys (wd s) w' (trace s))) -> wp getNow Q s.
Proof.
  intros H. unfold wp, getNow, peek. pose proof (Hclock (world s)) as Ht.
  destruct (now (world s)) as [t w']. simpl in *. rewrite Ht. apply H.
Qed.

(** A known-good snapshot is taken only of a settled guest: with the clock at [T]
    a cycle either leaves the watchdog as it was and takes no snapshot, or enough
    consecutive probes were healthy, the failure backoff is over, no configuration
    drift is inside its window, the last snapshot is old enough and the configuration
    hash was checked; it then takes exactly one snapshot and, on a guest that can be
    frozen, looks at the filesystem freeze right after it. *)
Lemma snapshot_only_when_settled s :
  wp maybeSnapshot (fun _ s' =>
    (wd s' = wd s /\ exists new, trace s' = new ++ trace s /\ Forall no_snapshot new) \/
    (settled (wd s) T /\ exists rest older name r,
       trace s' = rest ++ EvVMSnapshot (MwanVMID (wd_cfg (wd s))) name r :: older ++ trace s /\
       Forall no_snapshot rest /\ Forall no_snapshot older /\
       (GuestType (wd_cfg (wd s)) <> GuestTypeLXC ->
        exists st rest', rest = rest' ++ [EvVMFSFreezeStatus (MwanVMID (wd_cfg (wd s))) st]))) s.
Proof.
  unfold maybeSnapshot. wp_step. wp_step.
  wp_step; [by wp_step; left; split; [|exists []]|].
  wp_step; [by wp_step; left; split; [|exists []]|]. bool_prop.
  unfold snapshotBackoffActive. wp_step.
  apply (wp_mono _ (fun active s1 => wd s1 = wd s /\ trace s1 = trace s /\
    (active = false -> snapshotBackoffUntil (wd s) = zero_time \/ snapshotBackoffUntil (wd s) <= T))).
  { do 2 wp_step. wp_step; [wp_step; bool_prop; unfold is_zero in *; bool_prop; auto|].
    wp_step. apply wp_getNow; intros w1. wp_step. cbn [wd trace]. unfold before. intuition lia. }
  intros active s1 (Hw1 & Ht1 & Hb). wp_step; [wp_step; left; split; [done|]; by exists []|].
  wp_step.
  apply (wp_mono _ (fun inHash s2 => wd s2 = wd s /\ trace s2 = trace s /\
    (inHash = false -> 0 < hashChangeWindowStart (wd s) ->
     wrap64 (DeployWindowMinutes (Watchdog (wd_cfg (wd s))) * 60)
     <= wrap64 (unix T - hashChangeWindowStart (wd s))))).
  { wp_step; bool_prop.
    - wp_step. apply wp_getNow; intros w1. wp_step. cbn [wd trace]. unfold in_change_window. intuition lia.
    - wp_step. intuition lia. }
  intros inHash s2 (Hw2 & Ht2 & Hh). wp_step; [wp_step; left; split; [done|]; by exists []|].
  wp_step.
  apply (wp_mono _ (fun _ s3 => wd s3 = wd s /\ exists e, trace s3 = e :: trace s /\ no_snapshot e)).
  { unfold readGuestUnix, vmid, guestExec. wp_run; rewrite Ht2; split; try done; by eexists. }
  intros d s3 (Hw3 & e & Ht3 & He). wp_step.
  apply (wp_mono _ (fun _ s4 => wd s4 = wd s /\ trace s4 = e :: trace s)).
  { destruct d; [wp_step; apply wp_getNow; intros w1|]; by wp_step. }
  intros inDeploy s4 (Hw4 & Ht4).
  wp_step; [wp_step; left; split; [done|]; exists [e]; auto|].
  wp_step.
  apply (wp_mono _ (fun tooSoon s5 => wd s5 = wd s /\ trace s5 = e :: trace s /\
    (tooSoon = false -> lastSnapshotAt (wd s) = zero_time \/
     seconds (MinSnapshotIntervalSeconds (Watchdog (wd_cfg (wd s)))) <= sub_time T (lastSnapshotAt (wd s))))).
  { wp_step; [wp_step; unfold is_zero in *; bool_prop; auto|].
    wp_step. unfold since. wp_step. apply wp_getNow; intros w1. do 2 wp_step. cbn [wd trace]. intuition lia. }
  intros tooSoon s5 (Hw5 & Ht5 & Hs). wp_step; [wp_step; left; split; [done|]; exists [e]; auto|].
  wp_step; [wp_step; left; split; [done|]; exists [e]; auto|].
  eapply wp_mono; [apply takeSnapshot_shape|]. rewrite Hw5, Ht5.
  intros _ s6 (rest & r & name & Ht & Hn & Hf). right. bool_prop. split.
  - split; auto. intros Hev.
    match goal with H : _ \/ _ |- _ => destruct H; bool_prop; [lia|done] end.
  - exists rest, [e], name, r. auto.
Qed.

(** *** Nothing drastic before the timeout *)

Definition drastic (e : event) : Prop :=
  match e with
  | EvVMStop _ _ | EvVMRollback _ _ _ | EvWithdrawRoutes _ _ => True
  | _ => False
  end.
Definition mild (e : event) : Prop := ~ drastic e.

Ltac mild_steps :=
  sat_steps ltac:(first [ apply adds_peek | apply adds_upd
                        | apply adds_call; intros; by intros [] | apply adds_call; intros; intros H; exact H
                        | apply adds_record; intros H; exact H | assumption
                        | eauto 2 with mild nocore ]).

Create HintDb mild.

Lemma mild_deleteSnapshot name : sat (deleteSnapshot name) (adds mild).
Proof.
  unfold deleteSnapshot, canForceDelete, vmid, field, vmDelSnapshot, vmDelSnapshotForce,
    vmHasRunningTask, getNow, notifyEvent. mild_steps.
Qed.
#[local] Hint Resolve mild_deleteSnapshot : mild.
Lemma mild_prune_loop names excess deleted e : sat (prune_loop names excess deleted e) (adds mild).
Proof.
  revert deleted e. induction names as [|n names IH]; intros deleted e; cbn [prune_loop]; mild_steps.
  all: apply IH.
Qed.
Lemma mild_clearStaleGuestLock : sat clearStaleGuestLock (adds mild).
Proof.
  unfold clearStaleGuestLock, vmid, field, vmLock, vmHasRunningTask, vmUnlock, getNow, notifyEvent.
  mild_steps.
Qed.
#[local] Hint Resolve mild_prune_loop mild_clearStaleGuestLock : mild.
Lemma mild_pruneSnapshots : sat pruneSnapshots (adds mild).
Proof.
  unfold pruneSnapshots, prune_total, prunePreDeploySnapshots, deleteEach, cfgOf, field, vmSnapshots.
  mild_steps.
Qed.
Lemma mild_ensureGuestThawed : sat ensureGuestThawed (adds mild).
Proof. unfold ensureGuestThawed, cfgOf, field, vmFreezeStatus, vmFreezeThaw. mild_steps. Qed.
Lemma mild_readGuestUnix path : sat (readGuestUnix path) (adds mild).
Proof. unfold readGuestUnix, vmid, field, guestExec. mild_steps. Qed.
Lemma mild_guestExecProbe args : sat (guestExecProbe args) (adds mild).
Proof. unfold guestExecProbe, vmid, field, guestExec. mild_steps. Qed.
#[local] Hint Resolve mild_pruneSnapshots mild_ensureGuestThawed mild_readGuestUnix
  mild_guestExecProbe : mild.
Lemma mild_takeSnapshot : sat takeSnapshot (adds mild).
Proof.
  unfold takeSnapshot, noteSnapshotFailure, noteSnapshotSuccess, vmid, field, getNow, vmSnapshot,
    notifyEvent, resolveAlert. mild_steps.
Qed.
#[local] Hint Resolve mild_takeSnapshot : mild.
Lemma mild_maybeSnapshot : sat maybeSnapshot (adds mild).
Proof. unfold maybeSnapshot, snapshotBackoffActive, since, field, getNow. mild_steps. Qed.
Lemma mild_checkConfigHash : sat checkConfigHash (adds mild).
Proof.
  unfold checkConfigHash, routeChannelFallback, cfgOf, vmid, field, getConfigState, getNow,
    notifyEvent, resolveAlert. mild_steps.
Qed.
#[local] Hint Resolve mild_maybeSnapshot mild_checkConfigHash : mild.
Lemma mild_handleHealthyProbe : sat handleHealthyProbe (adds mild).
Proof. unfold handleHealthyProbe, since, getNow. mild_steps. Qed.
Lemma mild_maybeTriggerRecovery : sat maybeTriggerRecovery (adds mild).
Proof.
  unfold maybeTriggerRecovery, triggerBGPRecovery, cfgOf, field, getNow, getBGPStatus,
    announceRoutes, notifyEvent, resolveAlert. mild_steps.
Qed.
Lemma mild_handlePartialProbe : sat handlePartialProbe (adds mild).
Proof. unfold handlePartialProbe, sendPartialAlert, field, getNow. mild_steps. Qed.
Lemma mild_handleVMStopped : sat handleVMStopped (adds mild).
Proof. unfold handleVMStopped, osStat, vmStart. mild_steps. Qed.
Lemma mild_handleDeployOperation : sat handleDeployOperation (adds mild).
Proof.
  unfold handleDeployOperation, inspectDeployOperation, SetRollingBackM, cfgOf, field, osStat,
    Acquire, Release, getNow. mild_steps.
Qed.
Lemma mild_sleepOrDone d : sat (sleepOrDone d) (adds mild).
Proof. unfold sleepOrDone. mild_steps. Qed.

Lemma wp_mild {A} (m : M (wsys W) A) (Q : A -> wsys W -> Prop) s0 s :
  sat m (adds mild) -> adds mild s0 s -> (forall a s', adds mild s0 s' -> Q a s') -> wp m Q s.
Proof. intros Hm H0 HQ. unfold wp. apply HQ. etransitivity; [exact H0|apply Hm]. Qed.

Lemma handleDeployOperation_frame s :
  wp handleDeployOperation (fun _ s' => adds mild s s' /\ wd_cfg (wd s') = wd_cfg (wd s) /\
    totalDownStartUnix (wd s') = totalDownStartUnix (wd s)) s.
Proof.
  unfold wp. split; [apply mild_handleDeployOperation|].
  change (wp handleDeployOperation (fun _ s' => wd_cfg (wd s') = wd_cfg (wd s) /\
    totalDownStartUnix (wd s') = totalDownStartUnix (wd s)) s).
  unfold handleDeployOperation, inspectDeployOperation, SetRollingBackM, cfgOf, osStat, Acquire,
    Release, getNow. wp_run; done.
Qed.

(** When the outage began, as an iteration at time [T] sees it. *)
Definition down_since (w : watchdog) : Z :=
  if totalDownStartUnix w =? 0 then unix T else totalDownStartUnix w.

Lemma handleTotalLoss_spec s :
  wp handleTotalLoss (fun timedOut s' => trace s' = trace s /\
    (timedOut = true -> ConnectivityTimeoutSeconds (Watchdog (wd_cfg (wd s)))
                        <= wrap64 (unix T - down_since (wd s)))) s.
Proof.
  unfold handleTotalLoss. wp_step. wp_step. cbn [wd trace world]. wp_step. apply wp_getNow; intros w1.
  cbn [wd trace world]. wp_step. wp_step. cbn [wd trace world]. wp_step. wp_step. wp_step. wp_step.
  wp_step. cbn [wd trace world]. split; [done|]. intros Ht. bool_prop. revert Ht. unfold down_since.
  cbn [totalDownStartUnix set_consecutiveTotalFails].
  destruct (totalDownStartUnix (wd s) =? 0); done.
Qed.

Lemma probeConnectivity_spec s :
  let net := Network (wd_cfg (wd s)) in
  wp probeConnectivity (fun r s' =>
    trace s' = EvPing "ping6" (PingTargetIPv6 net) r.2 :: EvPing "ping" (PingTargetIPv4 net) r.1 :: trace s /\
    wd_cfg (wd s') = wd_cfg (wd s) /\ totalDownStartUnix (wd s') = totalDownStartUnix (wd s)) s.
Proof. cbv zeta. unfold probeConnectivity, cfgOf, appendProbe, ping. wp_run; done. Qed.

(** What an iteration from [s] must show for anything drastic it did. *)
Definition justified s s' : Prop :=
  let cfg := wd_cfg (wd s) in
  exists new, trace s' = new ++ trace s /\
    ((exists e, e ∈ new /\ drastic e) ->
     EvPing "ping" (PingTargetIPv4 (Network cfg)) false ∈ new /\
     EvPing "ping6" (PingTargetIPv6 (Network cfg)) false ∈ new /\
     ConnectivityTimeoutSeconds (Watchdog cfg) <= wrap64 (unix T - down_since (wd s))).

Lemma mild_justified s s' : adds mild s s' -> justified s s'.
Proof.
  intros (new & Hn & HP). exists new. split; [done|]. intros (e & He & Hd).
  rewrite Forall_forall in HP. by apply HP in He.
Qed.

(** A mild rest of the iteration. *)
Lemma wp_mild_rest {A} (m : M (wsys W) A) s0 s :
  sat m (adds mild) -> adds mild s0 s -> wp m (fun _ s' => justified s0 s') s.
Proof. intros Hm H0. apply (wp_mild _ _ s0); [done|done|]. intros _ s'. apply mild_justified. Qed.

(** The rest of an iteration whose two pings failed. *)
Lemma total_loss_justified s s4 new d :
  let cfg := wd_cfg (wd s) in
  trace s4 = EvPing "ping6" (PingTargetIPv6 (Network cfg)) false
    :: EvPing "ping" (PingTargetIPv4 (Network cfg)) false :: new ++ trace s ->
  Forall mild new -> wd_cfg (wd s4) = cfg ->
  totalDownStartUnix (wd s4) = totalDownStartUnix (wd s) ->
  wp (timedOut ← handleTotalLoss; whenM timedOut handleTimeoutExceeded ;; sleepOrDone d)
    (fun _ s' => justified s s') s4.
Proof.
  intros cfg Ht4 Hnew Hc4 Hd4. wp_step. eapply wp_mono; [apply handleTotalLoss_spec|].
  intros timedOut s5 [Ht5 Hto]. wp_step. wp_step.
  2:{ apply wp_mild_rest; [apply mild_sleepOrDone|]. eexists (_ :: _ :: new).
      rewrite Ht5. split; [exact Ht4|]. repeat constructor; try done; by intros []. }
  unfold wp.
  destruct (sat_bind obeys handleTimeoutExceeded (fun _ => sleepOrDone d)
    safe_handleTimeoutExceeded (fun _ => safe_sleepOrDone _) s5) as [(_ & _ & later & Hl & _) _].
  unfold mbind, M_bind in Hl. destruct (handleTimeoutExceeded s5) as [u s6]. cbn [fst snd] in *.
  exists (later ++ EvPing "ping6" (PingTargetIPv6 (Network cfg)) false
    :: EvPing "ping" (PingTargetIPv4 (Network cfg)) false :: new).
  fold cfg. rewrite Hl, Ht5, Ht4, <- app_assoc. split; [done|]. intros _.
  split; [set_solver|]. split; [set_solver|].
  rewrite <- Hc4. replace (down_since (wd s)) with (down_since (wd s4)); [by apply Hto|].
  unfold down_since. by rewrite Hd4.
Qed.

End Clock.

(** ** Two places where the code and its comments part *)

Definition leaves_guest_alone (e : event) : Prop :=
  match e with
  | EvVMStop _ _ | EvVMRollback _ _ _ | EvVMStart _ _ => False
  | _ => True
  end.

(** A rollback attempt is reported as executed whenever a target snapshot was
    found, even when the coordination lock could not be taken and the guest was not
    touched: the handler then answers true with no stop, rollback or start issued. *)
Lemma rollback_reported_without_rollback deployTS s :
  (forall path d w, is_ok (acquire path d w).1 = false) ->
  wp (attemptRollbackForDeploy deployTS) (fun reported s' =>
    exists new, trace s' = new ++ trace s /\ Forall leaves_guest_alone new /\
      (forall listing, EvVMSnapshots (MwanVMID (wd_cfg (wd s))) (Ok listing) ∈ new ->
         ExtractLatestSnapshot listing <> ""%string -> reported = true)) s.
Proof.
  intros Hacq.
  assert (forall path d Q s1, (forall e w', Q (Err e) (mkWsys (wd s1) w' (EvAcquire path (Err e) :: trace s1))) ->
    wp (Acquire path d) Q s1) as Hlock.
  { intros path d Q s1 HQ. unfold wp, Acquire, call. pose proof (Hacq path d (world s1)) as Hn.
    destruct (acquire path d (world s1)) as [[u|e] w']; [done|]. apply HQ. }
  unfold attemptRollbackForDeploy, alreadyDone, findSnapshot, sendTotalAlert, rollback, cfgOf, vmid,
    osReadFile, vmSnapshots, getNow.
  repeat (wp_step || (apply Hlock; intros ? ?)); cbn [wd trace world] in *.
  all: match goal with
       | |- exists new, ?a :: ?b :: ?c :: trace ?s = _ /\ _ => exists [a; b; c]
       | |- exists new, ?a :: ?b :: trace ?s = _ /\ _ => exists [a; b]
       | |- exists new, ?a :: trace ?s = _ /\ _ => exists [a]
       end; split; [done|]; split; [repeat constructor|].
  all: intros listing; rewrite !elem_of_cons; intros Hin Hne.
  all: repeat match goal with H : _ \/ _ |- _ => destruct H as [H|H] end; try done.
  all: try by apply not_elem_of_nil in Hin.
  all: try (injection Hin as ->); bool_prop; done.
Qed.

(** The forced-delete counter at its limit with no snapshot failure on record. *)
Definition exhausted (w : watchdog) : Prop :=
  forcedDeletes w = maxConsecutiveForcedDeletes /\ consecutiveSnapshotFails w = 0.
Definition stays_exhausted s s' : Prop := exhausted (wd s) -> exhausted (wd s').

#[local] Instance stays_exhausted_preorder : PreOrder stays_exhausted.
Proof. split; unfold stays_exhausted; [by intros s|auto]. Qed.

Lemma exhausted_call {A} (f : W -> A * W) ev : sat (call f ev) stays_exhausted.
Proof. intros s. unfold call, stays_exhausted. by destruct (f (world s)). Qed.
Lemma exhausted_peek {A} (f : W -> A * W) : sat (peek f) stays_exhausted.
Proof. intros s. unfold peek, stays_exhausted. by destruct (f (world s)). Qed.
Lemma exhausted_record e : sat (record (W:=W) e) stays_exhausted.
Proof. intros s H. exact H. Qed.
Lemma exhausted_upd f : (forall w, exhausted w -> exhausted (f w)) -> sat (upd (W:=W) f) stays_exhausted.
Proof. intros H s. exact (H (wd s)). Qed.

Ltac exhausted_steps :=
  sat_steps ltac:(first [ apply exhausted_call | apply exhausted_peek | apply exhausted_record
                        | apply exhausted_upd; intros w Hw; exact Hw | assumption ]).

Lemma exhausted_deleteSnapshot name : sat (deleteSnapshot name) stays_exhausted.
Proof.
  intros s Hex. change (wp (deleteSnapshot name) (fun _ s' => exhausted (wd s')) s).
  destruct Hex as [Hf Hn]. unfold deleteSnapshot, canForceDelete, vmid, vmDelSnapshot, vmHasRunningTask.
  wp_run; try done. all: bool_prop; rewrite Hf in *; lia.
Qed.

Lemma exhausted_pruneSnapshots : sat pruneSnapshots stays_exhausted.
Proof.
  assert (forall names excess deleted e,
    sat (prune_loop names excess deleted e) stays_exhausted) as Hp.
  { intros names excess. induction names as [|n names IH]; intros deleted e; cbn [prune_loop];
      sat_steps ltac:(first [apply exhausted_deleteSnapshot | apply IH]). }
  unfold pruneSnapshots, prune_total, prunePreDeploySnapshots, deleteEach, cfgOf, field, vmSnapshots.
  sat_steps ltac:(first [apply Hp | apply exhausted_deleteSnapshot | apply exhausted_call]).
Qed.

(** Once three deletes were forced, successful snapshots do not give the escalation
    back: a snapshot that succeeds with no failed snapshot on record leaves the counter
    at its limit, so every later forced delete is refused although no two of them need
    be in a row. *)
Lemma forced_delete_limit_not_reset s :
  (forall vm name w, is_ok (VMSnapshot vm name w).1 = true) ->
  exhausted (wd s) -> wp takeSnapshot (fun _ s' => exhausted (wd s')) s.
Proof.
  intros Hsnap Hex. unfold takeSnapshot, vmid, getNow. do 5 wp_step.
  unfold wp at 1, vmSnapshot, call.
  match goal with |- context [VMSnapshot ?v ?n ?w] =>
    pose proof (Hsnap v n w) as Hok; destruct (VMSnapshot v n w) as [[u|e] w2]; [|done] end.
  cbn [fst snd wd trace world]. wp_step.
  assert (forall A (m : M (wsys W) A) Q s1, exhausted (wd s1) -> sat m stays_exhausted ->
    (forall a s', exhausted (wd s') -> Q a s') -> wp m Q s1) as Hkeep.
  { intros A m Q s1 H1 Hm HQ. unfold wp. apply HQ, Hm, H1. }
  apply Hkeep; [exact Hex| |].
  { unfold ensureGuestThawed, cfgOf, field, vmFreezeStatus, vmFreezeThaw. exhausted_steps. }
  intros [] s1 H1. do 5 wp_step. unfold noteSnapshotSuccess. do 3 wp_step.
  2:{ bool_prop. exfalso. by apply H, H1. }
  wp_step. wp_step. apply Hkeep; [exact H1|apply exhausted_pruneSnapshots|].
  intros p s3 H3. destruct p; [by wp_step|]. apply Hkeep; [done| |auto].
  unfold clearStaleGuestLock, vmid, field, vmLock, vmHasRunningTask, vmUnlock, getNow, notifyEvent.
  exhausted_steps.
Qed.
End Props.

(** ** Witnesses *)

(** A site whose host and primary have lost connectivity while the backup has it.  A
    recent deploy, if any, is the guest's timestamp file. *)
Record demo := mkDemo { deployed : string; lockable : bool; stopped : bool }.

Definition demo_time : Z := (unix_epoch + 1700000000) * Second.

#[local] Instance demo_ops : SysOps demo := {
  VMStatus _ w := (Ok (negb (stopped w)), w);
  VMStart _ w := (Ok tt, mkDemo (deployed w) (lockable w) false);
  VMStop _ w := (Ok tt, mkDemo (deployed w) (lockable w) true);
  VMSnapshots _ w := (Ok "`-> pre-deploy-1"%string, w);
  VMSnapshot _ _ w := (Ok tt, w);
  VMDelSnapshot _ _ w := (Err storageSnapshotMissingMarker, w);
  VMDelSnapshotForce _ _ w := (Ok tt, w);
  VMRollback _ _ w := (Ok tt, w);
  GuestExec vm args w :=
    (Ok (match args with
         | "cat"%string :: _ => mkGuestExecResult 0 (deployed w) ""
         | _ => mkGuestExecResult (if bool_decide (vm = "900"%string) then 0 else 1) "" ""
         end), w);
  Ping _ _ w := (false, w);
  GetConfigState _ w := (Err "unavailable"%string, w);
  GetBGPStatus _ w := (Ok (Some (mkBGPStatus true true true true)), w);
  AnnounceRoutes _ w := (Ok tt, w);
  WithdrawRoutes _ w := (Ok tt, w);
  VMLock _ w := (Ok ""%string, w);
  VMUnlock _ w := (Ok tt, w);
  VMHasRunningTask _ w := (Ok false, w);
  VMFSFreezeStatus _ w := (Ok "thawed"%string, w);
  VMFSFreezeThaw _ w := (Ok tt, w);
}.

#[local] Instance demo_host : Host demo := {
  now w := (demo_time, w);
  sleep _ w := (true, w);
  ctxDone w := (false, w);
  signalled w := (true, w);
  readFile _ w := (FileNotExist, w);
  writeFile _ _ w := (Ok tt, w);
  removeFile _ w := (Ok tt, w);
  statFile _ w := (StatNotExist, w);
  acquire _ _ w := (if lockable w then Ok tt else Err "busy"%string, w);
  release w := (tt, w);
  statusLatest w := (None, w);
  hasStatusSource := false;
  addressParsers := mkAddressParsers (fun _ => Ok ("10.0.0.2"%string, "50052"%string))
                      (fun _ => true) (fun _ => Ok 50052) id;
  formatStamp _ := "20231114-221320"%string;
  durationString _ := ""%string;
}.

#[local] Instance demo_inspector : DeployInspector demo := {
  readOperation _ w := (OperationNotExist, w);
  verifyWatch w := (Ok tt, w);
  recoverCoordinated w := (Ok tt, w);
  isRealOps := false;
}.

Definition demo_config : Config :=
  mkConfig "100" GuestTypeQEMU
    (mkNetworkConfig "1.1.1.1" "2606:4700::1111" "/last-deploy" "/last-change")
    (mkWatchdogSection 30 0 5 5 60 0 3 1 2 3 0 0 5 3 50052 "" "/state" "/lock")
    (mkFailoverSection "900" "10.0.0.2:50052").

Definition demo_start (ts : string) (lockable : bool) : wsys demo :=
  mkWsys (newWatchdog demo_config 300) (mkDemo ts lockable false) [].

Lemma trace_split {A} (l : list A) i x : l !! i = Some x -> l = take i l ++ x :: drop (S i) l.
Proof. intros H. by rewrite take_drop_middle. Qed.

#[local] Notation demo_trace ts := (trace (run 1 (demo_start ts true)).2) (only parsing).

Lemma withdraw_only_to_ready_backup_witness :
  exists older, demo_trace "" = take 3 (demo_trace "") ++ EvWithdrawRoutes "100" (Ok tt) :: older /\
  exists status level kind key msg rest,
    older = EvNotify level kind key msg :: EvGetBGPStatus "900" (Ok status) :: rest /\
    backup_ready false status.
Proof.
  exists (drop 4 (demo_trace "")).
  assert (demo_trace "" = take 3 (demo_trace "") ++ EvWithdrawRoutes "100" (Ok tt)
          :: drop 4 (demo_trace "")) as Ht by (apply trace_split; vm_compute; reflexivity).
  split; [exact Ht|].
  exact (proj2 (proj2 (withdraw_only_to_ready_backup 1 (demo_start "" true) _ _ _ _ eq_refl Ht))).
Defined.

Lemma manual_failover_needs_complete_backup_witness :
  let result := FailoverRun demo_config 300 (mkDemo "" true false) in
  In (EvWithdrawRoutes "100" (Ok tt)) (trace result.2) /\ is_ok result.1 = true.
Proof.
  intros result.
  assert (trace result.2 !! 1%nat = Some (EvWithdrawRoutes "100" (Ok tt))) as Hi
    by (vm_compute; reflexivity).
  split; [by apply list_elem_of_In, (list_elem_of_lookup_2 _ 1)|].
  exact (proj1 (proj2 (manual_failover_needs_complete_backup demo_config 300 (mkDemo "" true false)
    _ _ _ _ (trace_split _ _ _ Hi)))).
Defined.


Lemma prune_keeps_rollback_target_witness :
  0 <= ((prunePreDeploySnapshots ["pre-deploy-1"; "pre-deploy-2"]%string 1) (demo_start "" true)).1.1 <= 1.
Proof.
  destruct (prune_keeps_rollback_target ["pre-deploy-1"%string] "pre-deploy-2" 1 (demo_start "" true))
    as [H _]; [set_solver|vm_compute; congruence|lia|exact H].
Defined.

(** The demonstration guest after enough healthy probes. *)
Definition demo_settled : wsys demo :=
  mkWsys (set_lastHashCheckOK true (set_consecutiveHealthy 5 (newWatchdog demo_config 300)))
    (mkDemo "" true false) [].


(** The same site while another process holds the coordination lock. *)
#[local] Instance locked_host : Host demo := {
  now w := (demo_time, w);
  sleep _ w := (true, w);
  ctxDone w := (false, w);
  signalled w := (false, w);
  readFile _ w := (FileNotExist, w);
  writeFile _ _ w := (Ok tt, w);
  removeFile _ w := (Ok tt, w);
  statFile _ w := (StatNotExist, w);
  acquire _ _ w := (Err "busy"%string, w);
  release w := (tt, w);
  statusLatest w := (None, w);
  hasStatusSource := false;
  addressParsers := mkAddressParsers (fun _ => Err ""%string) (fun _ => false) (fun _ => Err ""%string) id;
  formatStamp _ := ""%string;
  durationString _ := ""%string;
}.

Lemma rollback_reported_without_rollback_witness :
  let s' := attemptRollbackForDeploy (Host0:=locked_host) 1700000000 (demo_start "1700000000" true) in
  s'.1 = true /\ exists new, trace s'.2 = new /\ Forall leaves_guest_alone new.
Proof.
  destruct (rollback_reported_without_rollback (Host0:=locked_host) 1700000000
    (demo_start "1700000000" true) (fun _ _ _ => eq_refl)) as (new & Ht & Hall & Hrep).
  rewrite app_nil_r in Ht. split; [|by exists new].
  apply (Hrep "`-> pre-deploy-1"%string).
  - rewrite <- Ht, list_elem_of_In. vm_compute. tauto.
  - vm_compute. congruence.
Defined.

Lemma forced_delete_limit_not_reset_witness :
  let s := mkWsys (set_forcedDeletes 3 (newWatchdog demo_config 300)) (mkDemo "" true false) [] in
  forcedDeletes (wd (takeSnapshot (Host0:=demo_host) s).2) = 3.
Proof.
  intros s. apply (forced_delete_limit_not_reset (Host0:=demo_host) s);
    [intros; reflexivity|split; reflexivity].
Defined.
