(* ===== verification/Observation.v ===== *)
(** * Application observations
      (gateway/internal/observation/{types,executor,cloudflare}.go,
       gateway/internal/observation/contract)

    A check names a target, the machine that must observe it, the path and the reply
    it requires, and how old an observation may be.  [RequiredPassed] decides whether
    a result satisfies its check; the deploy operations accept nothing less.  The
    distribution measurement (distribution.go) and the per-operation half of the
    validation stay behind the class [ObservationOps]. *)

From S2P Require Import Prelude GoStrings NptPolicy.

Local Open Scope Z_scope.

(** ** Data

    The enumerations of the package are Go strings, which may hold any value. *)

Definition OperationHTTP : string := "http".
Definition OperationDNS : string := "dns".
Definition OperationPing : string := "ping".
Definition OperationPublicIP : string := "public_ip".
Definition OperationDistribution : string := "distribution".
Definition OperationCloudflarePool : string := "cloudflare_pool".
Definition OperationSSHBanner : string := "ssh_banner".
Definition DimensionDownstreamApplication : string := "downstream_application".
Definition DimensionInboundApplication : string := "inbound_application".
Definition DimensionConnectionDistribution : string := "connection_distribution".
Definition DimensionInboundPool : string := "inbound_pool".
Definition DimensionProviderEgress : string := "provider_egress".
Definition DimensionPingPath : string := "ping_path".
Definition DimensionPublicIP : string := "public_ip".
Definition FamilyIPv4 : string := "ipv4".
Definition FamilyIPv6 : string := "ipv6".
Definition EndpointLocal : string := "local".
Definition EndpointQEMU : string := "qemu".
Definition EndpointLXC : string := "lxc".
Definition AvailabilityComplete : string := "complete".
Definition AvailabilityMissing : string := "missing".
Definition AvailabilityStale : string := "stale".
Definition OutcomePass : string := "pass".
Definition OutcomeFail : string := "fail".
Definition OutcomeUnknown : string := "unknown".

Record Endpoint := mkEndpoint {
  ep_Kind : string;
  ep_VMID : Z;
  ep_MachineID : string;
  ep_HostMachineID : string;
}.

#[export] Instance Endpoint_eq_dec : EqDecision Endpoint.
Proof. solve_decision. Defined.

Record Path := mkPath {
  path_Source : Addr;
  path_NextHop : Addr;
  path_Interface : string;
  path_ConnectionID : string;
  path_Router : string;
}.

Record PoolOrigin := mkPoolOrigin { or_Name : string; or_Healthy : bool }.
Record PoolRegion := mkPoolRegion { reg_Healthy : bool; reg_Origins : list PoolOrigin }.
Record PoolHealth := mkPoolHealth { pool_ID : string; pool_Regions : list PoolRegion }.

(** The plan and the evidence of a distribution measurement. *)
Class DistributionTypes := { DistributionPlan : Type; DistributionEvidence : Type }.

Section Data.
Context `{DT : !DistributionTypes}.

Record CheckSpec := mkCheckSpec {
  spec_ID : string;
  spec_Dimension : string;
  spec_Operation : string;
  spec_Observer : Endpoint;
  spec_Family : string;
  spec_ConnectionID : string;
  spec_Router : string;
  spec_Interface : string;
  spec_Source : Addr;
  spec_Target : string;
  spec_TimeoutSeconds : Z;
  spec_MaxAgeSeconds : Z;
  spec_HTTPMethod : string;
  spec_ExpectedHTTPStatus : list Z;
  spec_ExpectedBody : string;
  spec_ExpectedNextHop : Addr;
  spec_DNSExpectedAddresses : list Addr;
  spec_DNSServer : string;
  spec_ExpectedSSHVersion : string;
  spec_CloudflarePoolID : string;
  spec_CloudflareExpectedOrigins : list string;
  spec_Distribution : option DistributionPlan;
  spec_PublicIPPolicy : string;
}.

Record Result := mkResult {
  out_CheckID : string;
  out_Dimension : string;
  out_Operation : string;
  out_Target : string;
  out_PublicIPPolicy : string;
  out_Family : string;
  out_Observer : Endpoint;
  out_ObservedAt : Z;
  out_Availability : string;
  out_Outcome : string;
  out_Reason : string;
  out_Path : Path;
  out_HTTPStatus : Z;
  out_ResponseBody : string;
  out_DNSAddresses : list Addr;
  out_SSHVersion : string;
  out_Distribution : option DistributionEvidence;
  out_CloudflarePool : option PoolHealth;
}.
End Data.

(** What is not modelled of the package. *)
Class ObservationOps `{!DistributionTypes} := {
  validateOperation : CheckSpec -> res unit;
  requiredDistributionPassed : CheckSpec -> Result -> Z -> bool;
}.

Section Observation.
Context `{DT : !DistributionTypes, OO : !ObservationOps}.
Implicit Types (spec : CheckSpec) (result : Result).

(** ** Replies *)

Definition valid_addr (a : Addr) : bool := match a with AddrNone => false | _ => true end.

Definition given (s : string) : bool := negb (bool_decide (s = ""%string)).

Definition requiredPathPassed spec result : bool :=
  let p := out_Path result in
  negb (given (spec_Router spec) && negb (bool_decide (path_Router p = spec_Router spec)))
  && negb (given (spec_ConnectionID spec)
           && negb (bool_decide (path_ConnectionID p = spec_ConnectionID spec)))
  && negb (valid_addr (spec_Source spec) && negb (bool_decide (path_Source p = spec_Source spec)))
  && negb (valid_addr (spec_ExpectedNextHop spec)
           && negb (bool_decide (path_NextHop p = spec_ExpectedNextHop spec)))
  && negb (given (spec_Interface spec)
           && negb (bool_decide (path_Interface p = spec_Interface spec))).

Definition region_has (ok : PoolOrigin -> bool) spec (region : PoolRegion) : bool :=
  forallb (fun expected =>
    existsb (fun o => bool_decide (or_Name o = expected) && ok o) (reg_Origins region))
    (spec_CloudflareExpectedOrigins spec).

Definition poolOriginsPresent spec (health : PoolHealth) : bool :=
  forallb (region_has (fun _ => true) spec) (pool_Regions health).

Definition poolHealthy spec (health : PoolHealth) : bool :=
  bool_decide (pool_ID health = spec_CloudflarePoolID spec)
  && negb (bool_decide (pool_Regions health = []))
  && forallb (fun region => reg_Healthy region && region_has or_Healthy spec region)
       (pool_Regions health).

Definition requiredReplyPassed spec result : bool :=
  let op := spec_Operation spec in
  if bool_decide (op = OperationCloudflarePool) then
    match out_CloudflarePool result with
    | Some pool => poolOriginsPresent spec pool && poolHealthy spec pool
    | None => false
    end
  else if (bool_decide (op = OperationHTTP) || bool_decide (op = OperationPublicIP))
          && (negb (bool_decide (out_HTTPStatus result ∈ spec_ExpectedHTTPStatus spec))
              || (given (spec_ExpectedBody spec)
                  && negb (bool_decide (out_ResponseBody result = spec_ExpectedBody spec)))) then false
  else if bool_decide (op = OperationSSHBanner)
          && negb (bool_decide (out_SSHVersion result = spec_ExpectedSSHVersion spec)) then false
  else if bool_decide (op = OperationDNS) then
    forallb (fun a => bool_decide (a ∈ out_DNSAddresses result)) (spec_DNSExpectedAddresses spec)
  else true.

(** The result is of this check: same identity, target, family and observer. *)
Definition same_check spec result : bool :=
  bool_decide (out_CheckID result = spec_ID spec)
  && bool_decide (out_Dimension result = spec_Dimension spec)
  && bool_decide (out_Operation result = spec_Operation spec)
  && bool_decide (out_Target result = spec_Target spec)
  && bool_decide (out_PublicIPPolicy result = spec_PublicIPPolicy spec)
  && bool_decide (out_Family result = spec_Family spec)
  && bool_decide (out_Observer result = spec_Observer spec).

Definition RequiredPassed spec result (now : Z) : bool :=
  if negb (same_check spec result) then false
  else if negb (bool_decide (out_Availability result = AvailabilityComplete))
          || negb (bool_decide (out_Outcome result = OutcomePass))
          || is_zero (out_ObservedAt result) || (spec_MaxAgeSeconds spec <=? 0) then false
  else
    let age := sub_time now (out_ObservedAt result) in
    if (age <? 0) || (seconds (spec_MaxAgeSeconds spec) <? age) then false
    else if bool_decide (spec_Operation spec = OperationDistribution)
    then requiredDistributionPassed spec result now
    else requiredPathPassed spec result && requiredReplyPassed spec result.

(** [contract.FreshResult]: the verdict served for an observation at [now]. *)
Definition with_verdict (a o r : string) result : Result :=
  mkResult (out_CheckID result) (out_Dimension result) (out_Operation result) (out_Target result)
    (out_PublicIPPolicy result) (out_Family result) (out_Observer result) (out_ObservedAt result)
    a o r (out_Path result) (out_HTTPStatus result) (out_ResponseBody result)
    (out_DNSAddresses result) (out_SSHVersion result) (out_Distribution result)
    (out_CloudflarePool result).

Definition FreshResult spec result (now : Z) : Result :=
  let age := sub_time now (out_ObservedAt result) in
  if is_zero (out_ObservedAt result)
  then with_verdict AvailabilityMissing OutcomeUnknown "observation has no timestamp" result
  else if (age <? 0) || (spec_MaxAgeSeconds spec <=? 0) || (seconds (spec_MaxAgeSeconds spec) <? age)
  then with_verdict AvailabilityStale OutcomeUnknown "observation freshness expired" result
  else result.

(** ** Validation *)


Definition known_dimensions : list string :=
  [DimensionDownstreamApplication; DimensionInboundApplication; DimensionConnectionDistribution;
   DimensionInboundPool; DimensionProviderEgress; DimensionPingPath; DimensionPublicIP].

Definition validateObserver (ep : Endpoint) : res unit :=
  if bool_decide (ep_Kind ep = EndpointLocal) then
    reject_if (negb (ep_VMID ep =? 0) || given (ep_HostMachineID ep))
      "local observer cannot specify a guest or host"
  else if bool_decide (ep_Kind ep = EndpointQEMU) || bool_decide (ep_Kind ep = EndpointLXC) then
    reject_if ((ep_VMID ep <=? 0) || negb (given (ep_HostMachineID ep)))
      "remote observer requires VMID and host machine ID"
  else Err "unsupported observer kind".

Definition Validate spec : res unit :=
  (check reject_if (negb (given (spec_ID spec)) || negb (given (spec_Target spec))
                    || negb (given (ep_MachineID (spec_Observer spec))))
     "check ID, target and observer machine ID are required" ;;
   check reject_if ((spec_TimeoutSeconds spec <=? 0) || (spec_MaxAgeSeconds spec <=? 0))
     "positive timeout and maximum age are required" ;;
   check reject_if (negb (bool_decide (spec_Family spec = FamilyIPv4))
                    && negb (bool_decide (spec_Family spec = FamilyIPv6)))
     "IPv4 or IPv6 family is required" ;;
   check reject_if (valid_addr (spec_Source spec)
                    && negb (Bool.eqb (Is4 (spec_Source spec)) (bool_decide (spec_Family spec = FamilyIPv4))))
     "source address does not match check family" ;;
   check validateObserver (spec_Observer spec) ;;
   check reject_if (negb (bool_decide (spec_Dimension spec ∈ known_dimensions)))
     "unsupported observation dimension" ;;
   validateOperation spec)%go.

(** ** Properties *)

(** A passing result is of its check, complete, and fresh at the time of the decision. *)
Lemma RequiredPassed_sound spec result now :
  RequiredPassed spec result now = true ->
  same_check spec result = true /\ out_Outcome result = OutcomePass /\
  0 <= sub_time now (out_ObservedAt result) <= seconds (spec_MaxAgeSeconds spec).
Proof.
  unfold RequiredPassed. cbv zeta. destruct (same_check spec result); [|done]. cbn [negb].
  destruct (_ || _ || _ || _) eqn:E; [done|]. bool_prop.
  destruct ((_ <? _) || (_ <? _)) eqn:Ea; [done|]. bool_prop. intros _. done.
Qed.

(** The two freshness rules agree: a passing result is served as it is. *)
Lemma RequiredPassed_fresh spec result now :
  RequiredPassed spec result now = true -> FreshResult spec result now = result.
Proof.
  unfold RequiredPassed, FreshResult. cbv zeta. destruct (same_check spec result); [|done]. cbn [negb].
  destruct (_ || _ || _ || _) eqn:E; [done|]. apply orb_false_iff in E as [E E4].
  apply orb_false_iff in E as [_ ->]. rewrite E4, orb_false_r.
  by destruct ((_ <? _) || (_ <? _)) eqn:Ea; [|].
Qed.
End Observation.
