(* ===== verification/DeployStore.v ===== *)
(** * Deploy operations: the record and its store
      (gateway/internal/deployoperation/{state,manifest,identity,watch}.go)

    A coordinated deploy arms an operation before it mutates the gateway guest.  The
    operation's record, one file under a file lock, says which snapshot restores the
    guest, which mutation is leased until when, and how the operation ended.  Every
    operation of the store runs under the lock, so the store is a state machine whose
    steps are whole operations, issued in any order by the deploy controller, the
    watch process and the watchdog. *)

From S2P Require Import Prelude GoStrings Effects NptPolicy Observation.
From S2P Require Import Rollback WatchdogState.
From Stdlib Require Import Ascii.

Local Open Scope Z_scope.

(** ** Data *)

Record Identity := mkIdentity {
  MachineID : string;
  BootID : string;
  ExecutableSHA256 : string;
  NetworkSHA256 : string;
  RuntimeSHA256 : string;
}.

#[export] Instance Identity_eq_dec : EqDecision Identity.
Proof. solve_decision. Defined.

Record Lease := mkLease {
  lease_ID : string;
  lease_Phase : string;
  lease_StartedAt : Z;
  lease_ExpiresAt : Z;
}.

Record Paths := mkPaths { path_Executable : string; path_Network : string; path_Runtime : string }.

Record ExpectedInterruption := mkExpectedInterruption {
  int_Phase : string;
  int_CheckIDs : list string;
  int_MaxSeconds : Z;
}.

Record WatchIdentity := mkWatchIdentity { Unit : string; InvocationID : string; PID : Z }.

#[export] Instance WatchIdentity_eq_dec : EqDecision WatchIdentity.
Proof. solve_decision. Defined.

#[export] Instance OpStatus_eq_dec : EqDecision OpStatus.
Proof. solve_decision. Defined.

Section Records.
Context `{DT : !DistributionTypes}.

(** Of the observation runtime configuration, only the two paths the validation reads. *)
Record Manifest := mkManifest {
  OperationID : string;
  Generation : string;
  VMID : string;
  Snapshot : string;
  Baseline : Identity;
  Target : Identity;
  ManifestPaths : Paths;
  Deadline : Z;
  WatchUnit : string;
  PollSeconds : Z;
  ObservationTimeoutSeconds : Z;
  RecoveryTimeoutSeconds : Z;
  FailureThreshold : Z;
  RequiredFamilies : list string;
  RequiredChecks : list CheckSpec;
  ExpectedInterruptions : list ExpectedInterruption;
  RestoredRequiredChecks : list CheckSpec;
  ObservationMachineIDPath : string;
  ObservationProbeBinary : string;
}.

Record OpRecord := mkOpRecord {
  RecManifest : Manifest;
  Status : OpStatus;
  RecLease : option Lease;
  Watch : WatchIdentity;
  Reason : string;
  UpdatedAt : Z;
  RestoredIdentity : option Identity;
  Results : list Result;
  ObservedAt : Z;
}.

Definition set_Status (v : OpStatus) (r : OpRecord) : OpRecord :=
  mkOpRecord (RecManifest r) v (RecLease r) (Watch r) (Reason r) (UpdatedAt r)
    (RestoredIdentity r) (Results r) (ObservedAt r).
Definition set_Lease (v : option Lease) (r : OpRecord) : OpRecord :=
  mkOpRecord (RecManifest r) (Status r) v (Watch r) (Reason r) (UpdatedAt r)
    (RestoredIdentity r) (Results r) (ObservedAt r).
Definition set_Watch (v : WatchIdentity) (r : OpRecord) : OpRecord :=
  mkOpRecord (RecManifest r) (Status r) (RecLease r) v (Reason r) (UpdatedAt r)
    (RestoredIdentity r) (Results r) (ObservedAt r).
Definition set_Reason (v : string) (r : OpRecord) : OpRecord :=
  mkOpRecord (RecManifest r) (Status r) (RecLease r) (Watch r) v (UpdatedAt r)
    (RestoredIdentity r) (Results r) (ObservedAt r).
Definition set_UpdatedAt (v : Z) (r : OpRecord) : OpRecord :=
  mkOpRecord (RecManifest r) (Status r) (RecLease r) (Watch r) (Reason r) v
    (RestoredIdentity r) (Results r) (ObservedAt r).
Definition set_RestoredIdentity (v : option Identity) (r : OpRecord) : OpRecord :=
  mkOpRecord (RecManifest r) (Status r) (RecLease r) (Watch r) (Reason r) (UpdatedAt r)
    v (Results r) (ObservedAt r).
Definition set_Results (v : list Result) (at_ : Z) (r : OpRecord) : OpRecord :=
  mkOpRecord (RecManifest r) (Status r) (RecLease r) (Watch r) (Reason r) (UpdatedAt r)
    (RestoredIdentity r) v at_.
End Records.

(** ** Validation *)

Definition is_hex (c : ascii) : bool :=
  let v := byte_val c in
  ((48 <=? v) && (v <=? 57)) || ((97 <=? v) && (v <=? 102)) || ((65 <=? v) && (v <=? 70)).

(** [hex.DecodeString] succeeds with [n] bytes. *)
Definition hex_bytes (n : nat) (s : string) : bool :=
  bool_decide (String.length s = (2 * n)%nat) && all_chars is_hex s.

Definition name_byte (c : ascii) : bool :=
  let v := byte_val c in
  ((97 <=? v) && (v <=? 122)) || ((65 <=? v) && (v <=? 90)) || ((48 <=? v) && (v <=? 57))
  || (v =? 45) || (v =? 95).

Definition validName (name : string) : bool :=
  negb (bool_decide (name = ""%string)) && all_chars name_byte name.

(** [filepath.IsAbs] on Unix. *)
Definition IsAbs (path : string) : bool := has_prefix "/" path.

(** [strings.CutSuffix]. *)
Definition cut_suffix (suffix s : string) : option string :=
  let n := (String.length s - String.length suffix)%nat in
  if bool_decide (String.length suffix <= String.length s)%nat
     && bool_decide (String.substring n (String.length suffix) s = suffix)
  then Some (String.substring 0 n s) else None.

(** The UUID package: the canonical text of what [uuid.Parse] accepts. *)
Class UUIDOps := { uuidParse : string -> res string }.

Section Validation.
Context `{UU : !UUIDOps}.

Definition Identity_validate (identity : Identity) : res unit :=
  (check check_all (fun digest => reject_if (negb (hex_bytes 32 digest)) "deploy identity requires SHA256 digests")
     [ExecutableSHA256 identity; NetworkSHA256 identity; RuntimeSHA256 identity] ;;
   check reject_if (negb (hex_bytes 16 (MachineID identity))) "deploy machine identity is invalid" ;;
   match uuidParse (BootID identity) with
   | Err e => Err ("deploy identity boot UUID is invalid: " +:+ e)%string
   | Ok boot => reject_if (negb (bool_decide (boot = BootID identity)))
                  "deploy boot identity requires the canonical UUID format"
   end)%go.

Definition same_recovery_pair (identity baseline : Identity) : bool :=
  bool_decide (MachineID identity = MachineID baseline)
  && bool_decide (ExecutableSHA256 identity = ExecutableSHA256 baseline)
  && bool_decide (NetworkSHA256 identity = NetworkSHA256 baseline)
  && bool_decide (RuntimeSHA256 identity = RuntimeSHA256 baseline).

Definition verifyRestored (identity baseline : Identity) : res unit :=
  (check Identity_validate identity ;;
   check reject_if (negb (same_recovery_pair identity baseline))
     "restored deploy identity does not match the baseline recovery pair" ;;
   reject_if (bool_decide (BootID identity = BootID baseline))
     "restored deploy VM has not booted after snapshot recovery")%go.

Context `{DT : !DistributionTypes, OO : !ObservationOps}.

(** The loop over the required families: they are IPv4 or IPv6 and distinct. *)
Fixpoint validate_families (seen : list string) (families : list string) : res (list string) :=
  match families with
  | [] => Ok seen
  | f :: fs =>
      if (negb (bool_decide (f = FamilyIPv4)) && negb (bool_decide (f = FamilyIPv6)))
         || bool_decide (f ∈ seen)
      then Err "deploy required families must contain unique IPv4 or IPv6 values"
      else validate_families (f :: seen) fs
  end.

Definition application_check (dimension family : string) (c : CheckSpec) : bool :=
  (bool_decide (spec_Operation c = OperationHTTP) || bool_decide (spec_Operation c = OperationSSHBanner))
  && bool_decide (spec_Dimension c = dimension) && bool_decide (spec_Family c = family).

Fixpoint validate_each_check (seen : list string) (checks : list CheckSpec) : res unit :=
  match checks with
  | [] => Ok tt
  | c :: cs =>
      match Validate c with
      | Err e => Err ("validate deploy check " +:+ spec_ID c +:+ ": " +:+ e)%string
      | Ok _ =>
          if bool_decide (spec_ID c ∈ seen)
          then Err ("deploy check ID " +:+ spec_ID c +:+ " is duplicated")%string
          else validate_each_check (spec_ID c :: seen) cs
      end
  end.

Definition validateChecks (m : Manifest) (checks : list CheckSpec) : res unit :=
  (families <-? validate_families [] (RequiredFamilies m) ;;
   check reject_if (bool_decide (families = [])) "deploy manifest requires configured IP families" ;;
   check reject_if (bool_decide (length checks = 0%nat))
     "deploy manifest requires active and restored application checks" ;;
   check validate_each_check [] checks ;;
   check_all (fun f => reject_if
     (negb (existsb (application_check DimensionInboundApplication f) checks)
      || negb (existsb (application_check DimensionDownstreamApplication f) checks))
     ("deploy checks require inbound and downstream application responses for " +:+ f)%string) families)%go.

(** The check a map from identifiers keeps: the last of the list with that one. *)
Definition check_named (checks : list CheckSpec) (id : string) : option CheckSpec :=
  List.find (fun c => bool_decide (spec_ID c = id)) (rev checks).

Fixpoint validate_check_ids (checks : list CheckSpec) (seen ids : list string) : res unit :=
  match ids with
  | [] => Ok tt
  | id :: ids =>
      let bad := match check_named checks id with
                 | None => true
                 | Some c => bool_decide (id ∈ seen)
                             || negb (bool_decide (spec_Dimension c = DimensionInboundApplication))
                 end in
      if bad then Err ("expected interruption check " +:+ id
                       +:+ " must identify a unique required inbound application check")%string
      else validate_check_ids checks (id :: seen) ids
  end.

Fixpoint validate_interruptions (checks : list CheckSpec) (phases : list string)
    (l : list ExpectedInterruption) : res unit :=
  match l with
  | [] => Ok tt
  | i :: l =>
      if bool_decide (trim_space (int_Phase i) = ""%string) || bool_decide (int_Phase i ∈ phases)
         || (int_MaxSeconds i <=? 0) || bool_decide (int_CheckIDs i = [])
      then Err "expected interruptions require unique nonempty phases, positive bounds and check IDs"
      else (check validate_check_ids checks [] (int_CheckIDs i) ;;
            validate_interruptions checks (int_Phase i :: phases) l)%go
  end.

Definition Manifest_validate (m : Manifest) : res unit :=
  (check reject_if (negb (validName (OperationID m)) || negb (validName (Generation m))
                    || negb (validName (Snapshot m)))
     "deploy manifest requires exact operation, generation and snapshot identities" ;;
   check reject_if (match cut_suffix ".service" (WatchUnit m) with
                    | Some unit => negb (validName unit)
                    | None => true
                    end) "deploy watch requires an exact systemd service unit" ;;
   check reject_if ((PollSeconds m <=? 0) || (ObservationTimeoutSeconds m <=? 0)
                    || (RecoveryTimeoutSeconds m <=? 0) || (FailureThreshold m <=? 0)
                    || is_zero (Deadline m))
     "deploy manifest requires positive polling, observation, recovery and failure limits" ;;
   check Identity_validate (Baseline m) ;;
   check Identity_validate (Target m) ;;
   check reject_if (negb (bool_decide (MachineID (Target m) = MachineID (Baseline m))))
     "deploy target machine must match the baseline machine" ;;
   check check_all (fun path => reject_if (negb (IsAbs path))
                      "deploy manifest requires absolute identity and observation paths")
     [path_Executable (ManifestPaths m); path_Network (ManifestPaths m);
      path_Runtime (ManifestPaths m); ObservationMachineIDPath m; ObservationProbeBinary m] ;;
   check check_all (validateChecks m) [RequiredChecks m; RestoredRequiredChecks m] ;;
   validate_interruptions (RequiredChecks m) [] (ExpectedInterruptions m))%go.

Definition lease_invalid (r : OpRecord) : bool :=
  match RecLease r with
  | None => false
  | Some l => bool_decide (lease_ID l = ""%string) || bool_decide (lease_Phase l = ""%string)
              || is_zero (lease_ExpiresAt l)
              || after (lease_ExpiresAt l) (Deadline (RecManifest r))
  end.

(** [record.validate]; a value of [OpStatus] is always one of the six statuses. *)
Definition Record_validate (r : OpRecord) : res unit :=
  let m := RecManifest r in
  (check Manifest_validate m ;;
   check reject_if (negb (validName (OperationID m)) || negb (validName (Generation m))
                    || negb (validName (Snapshot m)) || is_zero (Deadline m) || is_zero (UpdatedAt r))
     "deploy operation identity, snapshot and timestamps are required" ;;
   check reject_if (match parse_int (VMID m) with
                    | (vmid, true) => vmid <=? 0
                    | (_, false) => true
                    end) "deploy operation VMID must be positive" ;;
   check Identity_validate (Baseline m) ;;
   check match Status r, RestoredIdentity r with
         | Recovered, None => Err "recovered deploy operation requires actual restored identity"
         | Recovered, Some identity => verifyRestored identity (Baseline m)
         | _, _ => Ok tt
         end ;;
   reject_if (lease_invalid r) "deploy operation lease is invalid")%go.

(** [checksPassed]: one fresh passing result per check, in order. *)
Definition checksPassed (checks : list CheckSpec) (results : list Result) (now : Z) : bool :=
  if bool_decide (length checks = 0%nat) || negb (bool_decide (length checks = length results)) then false
  else forallb (fun cr => RequiredPassed cr.1 cr.2 now) (zip checks results).

Definition is_status (st : OpStatus) (r : OpRecord) : bool := bool_decide (Status r = st).

Definition MutationReady (r : OpRecord) (now : Z) : bool :=
  if negb (is_status Armed r) || (PID (Watch r) =? 0) || negb (after (Deadline (RecManifest r)) now)
  then false
  else checksPassed (RequiredChecks (RecManifest r)) (Results r) now.

Definition status_text (st : OpStatus) : string :=
  match st with
  | Armed => "armed" | Recovering => "recovering" | Recovered => "recovered"
  | RecoveryFailed => "recovery_failed" | Committed => "committed" | Disarmed => "disarmed"
  end.

(** [status.settled]. *)
Definition settled_status (st : OpStatus) : bool :=
  match st with Committed | Recovered | Disarmed => true | _ => false end.
End Validation.

(** ** The store *)

(** The record file, decoded: [renameio.WriteFile] replaces it as a whole. *)
Inductive stored `{!DistributionTypes} := Absent | Malformed | Stored (r : OpRecord).

(** The environment of the store and of the engine: clock, locks, file errors, the
    systemd view of the watch unit, and the probes. *)
Class DeployEnv `{!DistributionTypes} (W : Type) := {
  clockNow : W -> Z * W;
  lockRecord : W -> res unit * W;
  unlockRecord : W -> res unit * W;
  statRecord : W -> res unit * W;
  openRecord : W -> res unit * W;
  writeRecord : W -> res unit * W;
  writeArchive : W -> res unit * W;
  readWatch : string -> W -> res WatchIdentity * W;
  getpid : W -> Z * W;
  randText : W -> string * W;
  runCheck : CheckSpec -> Z -> W -> Result * W;
  startWatch : OpRecord -> W -> res unit * W;
  waitFor : Z -> W -> res unit * W;
  lockRollback : W -> res unit * W;
  unlockRollback : W -> res unit * W;
  notifyDeploy : string -> string -> W -> unit * W;
  resolveDeploy : string -> string -> W -> unit * W;
}.

Record StoreConfig := mkStoreConfig { StorePath : string; PollInterval : Z }.

Record dsys `{!DistributionTypes} (W : Type) := mkDsys {
  file : stored;
  archives : list OpRecord;
  dworld : W;
  dtrace : list event;
}.
Arguments mkDsys {_ W}.
Arguments file {_ W}.
Arguments archives {_ W}.
Arguments dworld {_ W}.
Arguments dtrace {_ W}.

Section Store.
Context `{UU : !UUIDOps, DT : !DistributionTypes, OO : !ObservationOps} {W : Type} `{DE : !DeployEnv W}.

Abbreviation DM := (M (dsys W)).

Definition env {A} (f : W -> A * W) : DM A :=
  fun s => let '(a, w') := f (dworld s) in (a, mkDsys (file s) (archives s) w' (dtrace s)).

Definition set_file (r : OpRecord) : DM unit :=
  modify (fun s => mkDsys (Stored r) (archives s) (dworld s) (dtrace s)).
Definition add_archive (r : OpRecord) : DM unit :=
  modify (fun s => mkDsys (file s) (r :: archives s) (dworld s) (dtrace s)).

(** [errors.Join] of two possible errors. *)
Definition join_err {A} (r : res A) (e : res unit) : res A :=
  match r, e with
  | Ok a, Ok _ => Ok a
  | Err x, Ok _ => Err x
  | Ok _, Err y => Err y
  | Err x, Err y => Err (x +:+ String newline y)%string
  end.

Definition locked {A} (st : StoreConfig) (operation : DM (res A)) : DM (res A) :=
  if negb (IsAbs (StorePath st)) then mret (Err "deploy operation path must be absolute")
  else
    l ← env lockRecord;
    match l with
    | Err e => mret (Err ("coordinate deployment record: " +:+ e)%string)
    | Ok _ => r ← operation; c ← env unlockRecord; mret (join_err r c)
    end.

Definition read : DM (res OpRecord) :=
  o ← env openRecord;
  match o with
  | Err e => mret (Err ("open deploy operation: " +:+ e)%string)
  | Ok _ =>
      f ← gets file;
      match f with
      | Absent => mret (Err "open deploy operation: file does not exist")
      | Malformed => mret (Err "decode deploy operation: malformed")
      | Stored r => match Record_validate r with
                    | Ok _ => mret (Ok r)
                    | Err e => mret (Err e)
                    end
      end
  end.

Definition write (r : OpRecord) : DM (res unit) :=
  match Record_validate r with
  | Err e => mret (Err e)
  | Ok _ =>
      w ← env writeRecord;
      match w with
      | Err e => mret (Err ("write deploy operation: " +:+ e)%string)
      | Ok _ => set_file r ;; mret (Ok tt)
      end
  end.

Definition archive (r : OpRecord) : DM (res unit) :=
  w ← env writeArchive;
  match w with
  | Err e => mret (Err ("archive terminal deploy operation: " +:+ e)%string)
  | Ok _ => add_archive r ;; mret (Ok tt)
  end.

Definition Read (st : StoreConfig) : DM (res OpRecord) := locked st read.

Definition identity_of (r : OpRecord) (operationID generation : string) : bool :=
  bool_decide (OperationID (RecManifest r) = operationID)
  && bool_decide (Generation (RecManifest r) = generation).

(** [store.change]; the update returns the changed record and a value. *)
Definition change {A} (st : StoreConfig) (operationID generation : string)
    (update : OpRecord -> DM (res (OpRecord * A))) : DM (res A) :=
  locked st (
    l ← read;
    match l with
    | Err e => mret (Err e)
    | Ok record =>
        if negb (identity_of record operationID generation)
        then mret (Err "deploy operation identity does not match")
        else
          u ← update record;
          match u with
          | Err e => mret (Err e)
          | Ok (record', a) =>
              t ← env clockNow;
              w ← write (set_UpdatedAt t record');
              match w with Err e => mret (Err e) | Ok _ => mret (Ok a) end
          end
    end).

(** A pure update with no result. *)
Definition accept (r : OpRecord) : DM (res (OpRecord * unit)) := mret (Ok (r, tt)).
Definition refuse {A} (e : error) : DM (res A) := mret (Err e).

(** The part of [Create] after the previous record is out of the way. *)
Definition create_new (r : OpRecord) : DM (res unit) :=
  if negb (is_status Armed r) || (match RecLease r with Some _ => true | None => false end)
     || bool_decide (Generation (RecManifest r) = ""%string)
  then refuse "new deploy operation must be armed without a lease"
  else
    t ← env clockNow;
    if negb (after (Deadline (RecManifest r)) t)
    then refuse "new deploy operation deadline has expired"
    else write (set_UpdatedAt t r).

Definition unresolved (st : OpStatus) : bool :=
  match st with Armed | Recovering | RecoveryFailed => true | _ => false end.

Definition Create (st : StoreConfig) (r : OpRecord) : DM (res unit) :=
  locked st (
    s ← env statRecord;
    match s with
    | Err e => refuse ("inspect deploy operation: " +:+ e)%string
    | Ok _ =>
        f ← gets file;
        match f with
        | Absent => create_new r
        | _ =>
            p ← read;
            match p with
            | Err e => refuse e
            | Ok previous =>
                if unresolved (Status previous)
                then refuse "an unresolved deploy operation already exists"
                else if bool_decide (OperationID (RecManifest previous) = OperationID (RecManifest r))
                        || bool_decide (Generation (RecManifest previous) = Generation (RecManifest r))
                then refuse "deploy operation identity cannot be reused"
                else
                  a ← archive previous;
                  match a with Err e => refuse e | Ok _ => create_new r end
            end
        end
    end).

(** [WatchIdentity.Verify]. *)
Definition Watch_Verify (identity : WatchIdentity) : DM (res unit) :=
  o ← env (readWatch (Unit identity));
  match o with
  | Err e => refuse e
  | Ok observed =>
      mret (reject_if (negb (bool_decide (observed = identity))) "deploy watch invocation or PID has changed")
  end.

Definition interruption_exceeded (r : OpRecord) (phase : string) (deadline now : Z) : bool :=
  existsb (fun i => bool_decide (int_Phase i = phase)
                    && after deadline (add_time now (seconds (int_MaxSeconds i))))
    (ExpectedInterruptions (RecManifest r)).

Definition Grant (st : StoreConfig) (operationID generation phase : string) (deadline : Z)
    : DM (res Lease) :=
  change st operationID generation (fun record =>
    now ← env clockNow;
    if negb (is_status Armed record) || negb (after (Deadline (RecManifest record)) now)
    then refuse "deploy operation does not permit mutations"
    else
      v ← Watch_Verify (Watch record);
      match v with
      | Err e => refuse ("mutation lease requires the active deploy watch: " +:+ e)%string
      | Ok _ =>
          if negb (MutationReady record now)
          then refuse "mutation lease requires fresh passing application observations"
          else match RecLease record with
          | Some _ => refuse "deploy operation already has an outstanding lease"
          | None =>
              if bool_decide (trim_space phase = ""%string) || negb (after deadline now)
                 || after deadline (Deadline (RecManifest record))
              then refuse "mutation lease requires a phase and deadline within the operation deadline"
              else if interruption_exceeded record phase deadline now
              then refuse ("mutation lease exceeds the expected interruption bound for phase " +:+ phase)%string
              else
                id ← env randText;
                let lease := mkLease id phase now deadline in
                mret (Ok (set_Lease (Some lease) record, lease))
          end
      end).

Definition RegisterWatch (st : StoreConfig) (operationID generation unitName : string) : DM (res unit) :=
  i ← env (readWatch unitName);
  match i with
  | Err e => refuse e
  | Ok identity =>
      pid ← env getpid;
      if negb (PID identity =? pid)
      then refuse "deploy watch PID does not match the registering process"
      else change st operationID generation (fun record =>
        if negb (is_status Armed record) || negb (PID (Watch record) =? 0)
        then refuse "deploy watch cannot register for this operation"
        else accept (set_Watch identity record))
  end.

Definition Release (st : StoreConfig) (operationID generation leaseID : string) : DM (res unit) :=
  change st operationID generation (fun record =>
    if negb (is_status Armed record) && negb (is_status Recovering record)
    then refuse "terminal deploy operation rejects lease release"
    else match RecLease record with
         | Some l => if bool_decide (lease_ID l = leaseID) then accept (set_Lease None record)
                     else refuse "mutation lease identity does not match"
         | None => refuse "mutation lease identity does not match"
         end).

Definition BeginRecovery (st : StoreConfig) (operationID generation reason : string) : DM (res unit) :=
  change st operationID generation (fun record =>
    if is_status Recovering record then accept record
    else if negb (is_status Armed record) && negb (is_status RecoveryFailed record)
    then refuse "terminal deploy operation rejects recovery"
    else if bool_decide (trim_space reason = ""%string)
    then refuse "deploy recovery requires a reason"
    else accept (set_Reason reason (set_Status Recovering record))).

Definition Disarm (st : StoreConfig) (operationID generation reason : string) : DM (res unit) :=
  change st operationID generation (fun record =>
    if negb (is_status Armed record)
    then refuse ("deploy operation with status " +:+ status_text (Status record) +:+ " cannot disarm")%string
    else match RecLease record with
    | Some _ => refuse "deploy operation with a mutation lease cannot disarm"
    | None =>
        if bool_decide (trim_space reason = ""%string) then refuse "deploy disarm requires a reason"
        else accept (set_Reason reason (set_Status Disarmed record))
    end).

Definition lease_running (r : OpRecord) (now : Z) : bool :=
  match RecLease r with Some l => after (lease_ExpiresAt l) now | None => false end.

Definition finishRecovery (st : StoreConfig) (operationID generation : string)
    (restored : option Identity) (reason : string) : DM (res unit) :=
  change st operationID generation (fun record =>
    if negb (is_status Recovering record) then refuse "deploy operation is not recovering"
    else match restored with
    | None => accept (set_Reason reason (set_RestoredIdentity None (set_Status RecoveryFailed record)))
    | Some identity =>
        held ← (match RecLease record with
                | Some _ => t ← env clockNow; mret (lease_running record t)
                | None => mret false
                end);
        if (held : bool)
        then refuse "deploy recovery cannot finish before mutation lease release or expiry"
        else match verifyRestored identity (Baseline (RecManifest record)) with
        | Err e => refuse e
        | Ok _ => accept (set_Reason reason (set_RestoredIdentity (Some identity)
                            (set_Lease None (set_Status Recovered record))))
        end
    end).

(** [Commit]: the failures found after the verification keep its results in the
    record; when the write fails as well, the model reports its error alone. *)
Definition Commit (st : StoreConfig) (operationID generation : string)
    (verify : OpRecord -> DM (res (list Result))) : DM (res unit) :=
  r ← change st operationID generation (fun record =>
    t0 ← env clockNow;
    if negb (is_status Armed record) || (match RecLease record with Some _ => true | None => false end)
       || negb (after (Deadline (RecManifest record)) t0)
    then refuse "deploy operation cannot commit with an outstanding lease or expired deadline"
    else
      v ← verify record;
      match v with
      | Err e => refuse e
      | Ok results =>
          t1 ← env clockNow;
          let record := set_Results results t1 record in
          t2 ← env clockNow;
          if negb (after (Deadline (RecManifest record)) t2)
          then mret (Ok (record, Err "deploy operation deadline expired during commit verification"))
          else
            w ← Watch_Verify (Watch record);
            match w with
            | Err e => mret (Ok (record, Err ("deploy commit requires the active deploy watch: " +:+ e)%string))
            | Ok _ =>
                t3 ← env clockNow;
                if negb (MutationReady record t3)
                then mret (Ok (record, Err "deploy commit requires fresh passing application observations"))
                else mret (Ok (set_Status Committed record, Ok tt))
            end
      end);
  match r with
  | Err e => mret (Err e)
  | Ok commitErr => mret commitErr
  end.

Definition observe (st : StoreConfig) (operationID generation : string) (results : list Result)
    : DM (res OpStatus) :=
  locked st (
    l ← read;
    match l with
    | Err e => refuse e
    | Ok record =>
        if negb (identity_of record operationID generation)
        then refuse "deploy operation identity does not match"
        else if settled_status (Status record) then mret (Ok (Status record))
        else if negb (is_status Armed record) && negb (is_status Recovering record)
        then refuse "terminal deploy operation rejects observations"
        else
          t ← env clockNow;
          t' ← env clockNow;
          w ← write (set_UpdatedAt t' (set_Results results t record));
          match w with Err e => refuse e | Ok _ => mret (Ok (Status record)) end
    end).
End Store.
