(* ===== verification/DeployProps.v ===== *)
(** * Properties of the deploy operation store

    [spec] describes a transaction by the file it finds and the file it leaves, for every
    answer of the environment.  Each operation of the store is shown to be a step of the
    record's lifecycle ([store_step]); the invariants of reachable states follow by
    induction over the operations any processes issue. *)

From S2P Require Import Prelude GoStrings Effects NptPolicy Observation.
From S2P Require Import Rollback WatchdogState DeployStore.

Local Open Scope Z_scope.

Section Spec.
Context `{UU : !UUIDOps, DT : !DistributionTypes, OO : !ObservationOps} {W : Type} `{DE : !DeployEnv W}.
Implicit Types (s : dsys W) (r : OpRecord) (st : StoreConfig).

(** ** Reasoning about the file

    [spec m f ar Q]: from any state whose file is [f] and whose archives are [ar],
    whatever the environment answers, [m] returns and leaves a file that satisfy [Q]. *)

Definition spec {A} (m : M (dsys W) A) (f : stored) (ar : list OpRecord)
    (Q : A -> stored -> list OpRecord -> Prop) : Prop :=
  forall s, file s = f -> archives s = ar -> Q (m s).1 (file (m s).2) (archives (m s).2).

Lemma spec_ret {A} (a : A) f ar (Q : A -> stored -> list OpRecord -> Prop) : Q a f ar -> spec (mret a) f ar Q.
Proof. intros H s <- <-. exact H. Qed.

Lemma spec_bind {A B} (m : M (dsys W) A) (k : A -> M (dsys W) B) f ar Q :
  spec m f ar (fun a f' ar' => spec (k a) f' ar' Q) -> spec (m ≫= k) f ar Q.
Proof.
  intros H s Hf Ha. specialize (H s Hf Ha). unfold mbind, M_bind.
  destruct (m s) as [a s']. by apply H.
Qed.

Lemma spec_env {A} (g : W -> A * W) f ar (Q : A -> stored -> list OpRecord -> Prop) :
  (forall a, (exists w w', g w = (a, w')) -> Q a f ar) -> spec (env g) f ar Q.
Proof.
  intros H s <- <-. unfold env. destruct (g (dworld s)) as [a w'] eqn:E. apply H. by exists (dworld s), w'.
Qed.

Lemma spec_gets {A} (g : dsys W -> A) f ar (Q : A -> stored -> list OpRecord -> Prop) :
  (forall s, file s = f -> archives s = ar -> Q (g s) f ar) -> spec (gets g) f ar Q.
Proof. intros H s Hf Ha. unfold gets. simpl. rewrite Hf, Ha. by apply H. Qed.

Lemma spec_mono {A} (m : M (dsys W) A) f ar (Q R : A -> stored -> list OpRecord -> Prop) :
  spec m f ar Q -> (forall a f' ar', Q a f' ar' -> R a f' ar') -> spec m f ar R.
Proof. intros H HQ s Hf Ha. by apply HQ, H. Qed.

Lemma spec_read f ar (Q : res OpRecord -> stored -> list OpRecord -> Prop) :
  (forall e, Q (Err e) f ar) ->
  (forall r, f = Stored r -> Record_validate r = Ok tt -> Q (Ok r) f ar) -> spec read f ar Q.
Proof.
  intros He Hr. unfold read. apply spec_bind, spec_env. intros [[]|e] _; [|by apply spec_ret].
  apply spec_bind, spec_gets. intros s -> _. destruct f as [| |r]; try by apply spec_ret.
  destruct (Record_validate r) as [[]|e] eqn:E; apply spec_ret; auto.
Qed.

Lemma spec_write r f ar (Q : res unit -> stored -> list OpRecord -> Prop) :
  (forall e, Q (Err e) f ar) ->
  (Record_validate r = Ok tt -> Q (Ok tt) (Stored r) ar) -> spec (write r) f ar Q.
Proof.
  intros He Hr. unfold write. destruct (Record_validate r) as [[]|e] eqn:E; [|by apply spec_ret].
  apply spec_bind, spec_env. intros [[]|e] _; [|by apply spec_ret].
  apply spec_bind. intros s Hf Ha. simpl. rewrite Ha. apply spec_ret. by apply Hr.
Qed.

Lemma spec_locked {A} st (m : M (dsys W) (res A)) f ar (Q : res A -> stored -> list OpRecord -> Prop) :
  (forall e, Q (Err e) f ar) ->
  spec m f ar (fun a f' ar' => Q a f' ar' /\ forall e, Q (Err e) f' ar') ->
  spec (locked st m) f ar Q.
Proof.
  intros He Hm. unfold locked. destruct (negb _); [by apply spec_ret|].
  apply spec_bind, spec_env. intros [[]|e] _; [|by apply spec_ret].
  apply spec_bind. eapply spec_mono; [exact Hm|]. intros a f' ar' [Ha Hall].
  apply spec_bind, spec_env. intros [[]|e] _; apply spec_ret; destruct a; simpl; auto.
Qed.

(** The rule for [change]: either nothing was written, or the file held a valid record
    of the named operation and now holds the update of it. *)
Lemma spec_change {A} st id gen (update : OpRecord -> M (dsys W) (res (OpRecord * A))) f ar
    (Q : res A -> stored -> list OpRecord -> Prop) :
  (forall e, Q (Err e) f ar) ->
  (forall r, f = Stored r -> Record_validate r = Ok tt -> identity_of r id gen = true ->
    spec (update r) f ar (fun u f' ar' => f' = f /\ ar' = ar /\
      match u with
      | Err _ => True
      | Ok (r', a) => forall t, Record_validate (set_UpdatedAt t r') = Ok tt ->
          Q (Ok a) (Stored (set_UpdatedAt t r')) ar /\
          forall e, Q (Err e) (Stored (set_UpdatedAt t r')) ar
      end)) ->
  spec (change st id gen update) f ar Q.
Proof.
  intros He Hu. unfold change. apply spec_locked; [done|]. apply spec_bind, spec_read.
  { intros e. apply spec_ret. auto. }
  intros r Hf Hv. destruct (identity_of r id gen) eqn:Hid; [|apply spec_ret; auto].
  cbn [negb]. apply spec_bind. eapply spec_mono; [by apply Hu|].
  intros [[r' a]|e] f' ar' (-> & -> & H); [|apply spec_ret; auto].
  apply spec_bind, spec_env. intros t _. apply spec_bind, spec_write.
  - intros e. apply spec_ret. auto.
  - intros Hv'. destruct (H t Hv') as [Hq Hq']. apply spec_ret. auto.
Qed.

End Spec.

(** Walk through an update. *)
Ltac spec_step :=
  cbv zeta;
  lazymatch goal with
  | |- spec (mret _) _ _ _ => apply spec_ret
  | |- spec (accept _) _ _ _ => apply spec_ret
  | |- spec (refuse _) _ _ _ => apply spec_ret
  | |- spec (env _) _ _ _ => apply spec_env; intros ? ?
  | |- spec (mbind _ _) _ _ _ => apply spec_bind
  | |- spec (Watch_Verify _) _ _ _ => unfold Watch_Verify
  | |- spec (match ?x with _ => _ end) _ _ _ => let E := fresh "E" in destruct x eqn:E
  end.

Section Store.
Context `{UU : !UUIDOps, DT : !DistributionTypes, OO : !ObservationOps} {W : Type} `{DE : !DeployEnv W}.
Implicit Types (s : dsys W) (r : OpRecord) (st : StoreConfig).

(** ** The lifecycle *)

(** A status that may follow another in one operation. *)
Definition lifecycle (a b : OpStatus) : bool :=
  match a, b with
  | Armed, (Armed | Recovering | Committed | Disarmed)
  | Recovering, (Recovering | Recovered | RecoveryFailed)
  | RecoveryFailed, Recovering => true
  | _, _ => false
  end.

(** What one operation of the store may do to a record. *)
Record evolves (r r' : OpRecord) : Prop := {
  ev_manifest : RecManifest r' = RecManifest r;
  ev_valid : Record_validate r' = Ok tt;
  ev_status : lifecycle (Status r) (Status r') = true;
  ev_lease : RecLease r' = RecLease r \/ RecLease r' = None \/
    (RecLease r = None /\ Status r = Armed /\ Status r' = Armed);
  ev_watch : Watch r' = Watch r \/ (PID (Watch r) = 0 /\ Status r = Armed);
  ev_settled : settled_status (Status r') = true -> RecLease r' = None;
  ev_committed : Status r' = Committed ->
    exists now, MutationReady (set_Status Armed r') now = true;
}.

Definition fresh r : Prop :=
  Status r = Armed /\ RecLease r = None /\ Record_validate r = Ok tt.

Definition different_operation (p r : OpRecord) : Prop :=
  OperationID (RecManifest p) <> OperationID (RecManifest r) /\
  Generation (RecManifest p) <> Generation (RecManifest r).

(** One operation of the store: nothing, an update of the record, or a new operation,
    before which a settled predecessor is archived. *)
Inductive store_step : stored -> list OpRecord -> stored -> list OpRecord -> Prop :=
| step_same f ar : store_step f ar f ar
| step_first r ar : fresh r -> store_step Absent ar (Stored r) ar
| step_archived p ar : settled_status (Status p) = true ->
    store_step (Stored p) ar (Stored p) (p :: ar)
| step_next p r ar : settled_status (Status p) = true -> fresh r -> different_operation p r ->
    store_step (Stored p) ar (Stored r) (p :: ar)
| step_update r r' ar : evolves r r' -> store_step (Stored r) ar (Stored r') ar.

(** A computation that leaves the file and the archives alone. *)
Definition quiet {A} (m : M (dsys W) A) : Prop :=
  forall s, file (m s).2 = file s /\ archives (m s).2 = archives s.

Lemma spec_quiet {A} (m : M (dsys W) A) f ar (Q : A -> stored -> list OpRecord -> Prop) :
  quiet m -> (forall a, Q a f ar) -> spec m f ar Q.
Proof. intros Hm HQ s Hf Ha. destruct (Hm s) as [-> ->]. rewrite Hf, Ha. apply HQ. Qed.

(** The operations of the store with their arguments. *)
Inductive store_op :=
| OpRead
| OpCreate (r : OpRecord)
| OpGrant (id gen phase : string) (deadline : Z)
| OpRegisterWatch (id gen unitName : string)
| OpRelease (id gen leaseID : string)
| OpBeginRecovery (id gen reason : string)
| OpDisarm (id gen reason : string)
| OpFinishRecovery (id gen : string) (restored : option Identity) (reason : string)
| OpCommit (id gen : string) (verify : OpRecord -> M (dsys W) (res (list Result)))
    (Hq : forall r, quiet (verify r))
| OpObserve (id gen : string) (results : list Result).

Definition run_op st (op : store_op) : M (dsys W) unit :=
  match op with
  | OpRead => Read st ;; mret tt
  | OpCreate r => Create st r ;; mret tt
  | OpGrant id gen phase deadline => Grant st id gen phase deadline ;; mret tt
  | OpRegisterWatch id gen unitName => RegisterWatch st id gen unitName ;; mret tt
  | OpRelease id gen leaseID => DeployStore.Release st id gen leaseID ;; mret tt
  | OpBeginRecovery id gen reason => BeginRecovery st id gen reason ;; mret tt
  | OpDisarm id gen reason => Disarm st id gen reason ;; mret tt
  | OpFinishRecovery id gen restored reason => finishRecovery st id gen restored reason ;; mret tt
  | OpCommit id gen verify _ => Commit st id gen verify ;; mret tt
  | OpObserve id gen results => observe st id gen results ;; mret tt
  end.

(** Any result, when the state is allowed. *)
Definition steps_from f ar {A} (_ : A) f' ar' : Prop := store_step f ar f' ar'.

Lemma spec_change_step {A} st id gen (update : OpRecord -> M (dsys W) (res (OpRecord * A))) f ar :
  (forall r, f = Stored r -> spec (update r) f ar (fun u f' ar' => f' = f /\ ar' = ar /\
      match u with
      | Err _ => True
      | Ok (r', _) => forall t, Record_validate (set_UpdatedAt t r') = Ok tt ->
          evolves r (set_UpdatedAt t r')
      end)) ->
  spec (change st id gen update) f ar (steps_from f ar).
Proof.
  intros Hu. apply spec_change; [intros; apply step_same|]. intros r Hr Hv0 Hid0.
  eapply spec_mono; [by apply Hu|]. intros [[r' a]|e] f' ar' (-> & -> & H); [|done].
  split; [done|]. split; [done|]. intros t Hv. rewrite Hr. split; [|intros e]; by apply step_update, H.
Qed.

Lemma is_status_true x r : is_status x r = true <-> Status r = x.
Proof. apply bool_decide_eq_true. Qed.

Ltac evolve :=
  bool_prop; intros t0 Hv;
  repeat match goal with H : _ \/ _ |- _ => destruct H; bool_prop end;
  rewrite ?is_status_true in *;
  constructor; simpl;
  try (repeat match goal with H : Status _ = _ |- _ => rewrite H; clear H end; done);
  try congruence; auto.

Lemma steps_Grant st id gen phase deadline f ar :
  spec (Grant st id gen phase deadline) f ar (steps_from f ar).
Proof.
  apply spec_change_step. intros r Hr. repeat spec_step; split_and!; try done. evolve.
Qed.

Lemma steps_RegisterWatch st id gen unitName f ar :
  spec (RegisterWatch st id gen unitName) f ar (steps_from f ar).
Proof.
  unfold RegisterWatch. repeat spec_step; try apply step_same.
  apply spec_change_step. intros r Hr. repeat spec_step; split_and!; try done. evolve.
Qed.

Lemma steps_Release st id gen leaseID f ar :
  spec (DeployStore.Release st id gen leaseID) f ar (steps_from f ar).
Proof.
  apply spec_change_step. intros r Hr. repeat spec_step; split_and!; try done. evolve.
Qed.

Lemma steps_BeginRecovery st id gen reason f ar :
  spec (BeginRecovery st id gen reason) f ar (steps_from f ar).
Proof.
  apply spec_change_step. intros r Hr. repeat spec_step; split_and!; try done; evolve.
Qed.

Lemma steps_Disarm st id gen reason f ar :
  spec (Disarm st id gen reason) f ar (steps_from f ar).
Proof.
  apply spec_change_step. intros r Hr. repeat spec_step; split_and!; try done; evolve.
Qed.

Lemma steps_finishRecovery st id gen restored reason f ar :
  spec (finishRecovery st id gen restored reason) f ar (steps_from f ar).
Proof.
  apply spec_change_step. intros r Hr. repeat spec_step; split_and!; try done; evolve.
Qed.

Lemma MutationReady_committed r now :
  MutationReady r now = true ->
  forall t, MutationReady (set_Status Armed (set_UpdatedAt t (set_Status Committed r))) now = true.
Proof.
  unfold MutationReady. intros H t. destruct (is_status Armed r) eqn:E; [|done].
  destruct r. exact H.
Qed.

Lemma steps_Commit st id gen verify f ar :
  (forall r, quiet (verify r)) ->
  spec (Commit st id gen verify) f ar (steps_from f ar).
Proof.
  intros Hq. unfold Commit. apply spec_bind. eapply spec_mono.
  { apply (spec_change_step st id gen _ f ar). intros r Hr.
    do 3 spec_step; [by spec_step|]. spec_step.
    apply (spec_quiet (verify r)); [apply Hq|]. intros v.
    repeat spec_step; split_and!; try done; evolve.
    all: try (intros _; by destruct (RecLease r)).
    intros _. eexists. by apply MutationReady_committed. }
  intros [u|e] f' ar' H; by apply spec_ret.
Qed.

Lemma steps_observe st id gen results f ar :
  spec (observe st id gen results) f ar (steps_from f ar).
Proof.
  unfold observe. apply spec_locked; [intros; apply step_same|].
  apply spec_bind, spec_read.
  { intros e. repeat spec_step. split; [|intros ?]; apply step_same. }
  intros r -> Hv0. repeat spec_step; try (split; [|intros ?]; apply step_same).
  apply spec_write.
  { intros e. spec_step. split; [|intros ?]; apply step_same. }
  intros Hv. spec_step. assert (evolves r (set_UpdatedAt a0 (set_Results results a r))) as Hev.
  { revert Hv. generalize a0. evolve. }
  split; [|intros ?]; by apply step_update.
Qed.

Lemma spec_create_new r f ar (Q : res unit -> stored -> list OpRecord -> Prop) :
  (forall e, Q (Err e) f ar) ->
  (forall t, fresh (set_UpdatedAt t r) -> Q (Ok tt) (Stored (set_UpdatedAt t r)) ar) ->
  spec (create_new r) f ar Q.
Proof.
  intros He Hf. unfold create_new. repeat spec_step; auto.
  apply spec_write; [done|]. intros Hv. apply Hf. bool_prop. rewrite is_status_true in *.
  split; [done|]. split; [simpl; by destruct (RecLease r)|done].
Qed.

Lemma steps_Create st r f ar : spec (Create st r) f ar (steps_from f ar).
Proof.
  unfold Create. apply spec_locked; [intros; apply step_same|].
  spec_step. spec_step. destruct a as [[]|e]; [|spec_step; split; [|intros ?]; apply step_same].
  apply spec_bind, spec_gets. intros s -> Ha.
  destruct f as [| |p].
  - apply spec_create_new; [intros e; split; [|intros ?]; apply step_same|].
    intros t Hf. split; [|intros ?]; by apply step_first.
  - apply spec_bind, spec_read; [|done]. intros e. spec_step. split; [|intros ?]; apply step_same.
  - apply spec_bind, spec_read; [intros e; spec_step; split; [|intros ?]; apply step_same|].
    intros ? [= <-] Hv. do 2 (spec_step; [spec_step; split; [|intros ?]; apply step_same|]).
    bool_prop. assert (settled_status (Status p) = true) as Hs by (by destruct (Status p)).
    spec_step. unfold archive. repeat spec_step; try (split; [|intros ?]; apply step_same).
    intros s' Hf' Ha'. cbn. rewrite Hf', Ha'.
    apply spec_ret. apply spec_create_new; [intros e; split; [|intros ?]; by apply step_archived|].
    intros t Hf. split; [|intros ?]; by apply step_next.
Qed.

(** Every operation is a step of the lifecycle. *)
Lemma run_op_step st op s :
  store_step (file s) (archives s) (file (run_op st op s).2) (archives (run_op st op s).2).
Proof.
  assert (forall A (m : M (dsys W) A), (forall f ar, spec m f ar (steps_from f ar)) ->
    let s' := (m ;; mret tt) s in store_step (file s) (archives s) (file s'.2) (archives s'.2)) as Hrun.
  { intros A m Hm. specialize (Hm _ _ s eq_refl eq_refl). cbv zeta. unfold mbind, M_bind.
    by destruct (m s). }
  destruct op; apply Hrun; intros f ar.
  - apply spec_locked; [intros; apply step_same|]. apply spec_read; intros; split; [|intros ?| |intros ?]; apply step_same.
  - apply steps_Create.
  - apply steps_Grant.
  - apply steps_RegisterWatch.
  - apply steps_Release.
  - apply steps_BeginRecovery.
  - apply steps_Disarm.
  - apply steps_finishRecovery.
  - by apply steps_Commit.
  - apply steps_observe.
Qed.
(** ** Theorems *)

(** States any processes can bring about from an empty store. *)
Inductive reachable st : dsys W -> Prop :=
| reach_start s : file s = Absent -> archives s = [] -> reachable st s
| reach_op s op : reachable st s -> reachable st (run_op st op s).2.

(** What a record in the store guarantees. *)
Record sound_record r : Prop := {
  sr_valid : Record_validate r = Ok tt;
  sr_lease_bounded : forall l, RecLease r = Some l ->
    lease_ExpiresAt l <= Deadline (RecManifest r);
  sr_settled_unleased : settled_status (Status r) = true -> RecLease r = None;
  sr_committed_verified : Status r = Committed -> exists now,
    PID (Watch r) <> 0 /\ now < Deadline (RecManifest r) /\
    checksPassed (RequiredChecks (RecManifest r)) (Results r) now = true;
  sr_recovered_restored : Status r = Recovered -> exists identity,
    RestoredIdentity r = Some identity /\
    same_recovery_pair identity (Baseline (RecManifest r)) = true /\
    BootID identity <> BootID (Baseline (RecManifest r));
}.

Lemma validate_lease r l :
  Record_validate r = Ok tt -> RecLease r = Some l -> lease_ExpiresAt l <= Deadline (RecManifest r).
Proof.
  unfold Record_validate. cbv zeta. autorewrite with go. intros H Hl.
  repeat (autorewrite with go in H; destruct H as (? & ? & H)). autorewrite with go in H.
  unfold lease_invalid in H. rewrite Hl in H. bool_prop. unfold after in *. bool_prop. lia.
Qed.

Lemma validate_recovered r :
  Record_validate r = Ok tt -> Status r = Recovered -> exists identity,
    RestoredIdentity r = Some identity /\
    same_recovery_pair identity (Baseline (RecManifest r)) = true /\
    BootID identity <> BootID (Baseline (RecManifest r)).
Proof.
  unfold Record_validate. cbv zeta. intros H Hs. rewrite Hs in H.
  repeat (autorewrite with go in H; destruct H as (? & ? & H)).
  destruct (RestoredIdentity r) as [i|]; [|done]. exists i. split; [done|].
  unfold verifyRestored in *.
  repeat match goal with Hx : res_bind _ _ = Ok _ |- _ =>
    apply res_bind_ok in Hx as (? & ? & Hx) end.
  repeat match goal with Hx : reject_if _ _ = Ok _ |- _ => apply reject_if_ok in Hx end.
  bool_prop. done.
Qed.

Lemma evolves_sound r r' : evolves r r' -> sound_record r'.
Proof.
  intros []. constructor; [done|intros l; by apply validate_lease|done| |by apply validate_recovered].
  intros Hc. destruct ev_committed0 as [now Hnow]; [done|]. exists now. revert Hnow.
  unfold MutationReady, after. simpl. destruct (_ || _) eqn:E; [done|]. bool_prop. done.
Qed.

Lemma fresh_sound r : fresh r -> sound_record r.
Proof.
  intros (Hs & Hl & Hv). constructor; try done; congruence.
Qed.

Definition sound_store (f : stored) (ar : list OpRecord) : Prop :=
  (forall r, f = Stored r -> sound_record r) /\ f <> Malformed /\
  Forall (fun r => sound_record r /\ settled_status (Status r) = true) ar.

Lemma store_step_sound f ar f' ar' :
  store_step f ar f' ar' -> sound_store f ar -> sound_store f' ar'.
Proof.
  intros Hstep (Hr & Hm & Ha). destruct Hstep as [|r ar Hfr|p ar Hs|p r ar Hs Hfr _|r r' ar Hev].
  - done.
  - split; [|done]. intros ? [= <-]. by apply fresh_sound.
  - split; [done|]. split; [done|]. constructor; auto.
  - split; [|split; [done|]]; [|constructor; auto]. intros ? [= <-]. by apply fresh_sound.
  - split; [|done]. intros ? [= <-]. by eapply evolves_sound.
Qed.

(** C10. Whatever the deploy controller, the watch and the watchdog do in whatever order,
    the record in the store keeps its promises: a mutation lease never outlives the
    operation's deadline, a settled operation holds no lease, a committed one had a
    registered watch and a fresh passing result for every required check before its
    deadline, and a recovered one records a guest with the baseline's machine,
    executable, network and runtime that has booted since; only settled records are
    archived. *)
Theorem reachable_records_sound st s :
  reachable st s ->
  (forall r, file s = Stored r -> sound_record r) /\ file s <> Malformed /\
  Forall (fun r => sound_record r /\ settled_status (Status r) = true) (archives s).
Proof.
  induction 1 as [s Hf Ha|s op Hreach IH].
  - rewrite Hf, Ha. split; [done|]. split; [done|constructor].
  - exact (store_step_sound _ _ _ _ (run_op_step st op s) IH).
Qed.

(** Operations move only along the lifecycle: one store operation either leaves the
    record as it was or updates an unsettled one, keeping its manifest, following the
    edges armed to recovering, committed or disarmed, recovering to recovered or
    failed, and failed to recovering again, and creating a lease only while armed; a
    settled record is never changed, only archived and replaced by a fresh armed one
    with a different operation and generation. *)
Lemma operation_lifecycle st op s r :
  file s = Stored r ->
  let s' := (run_op st op s).2 in
  file s' = Stored r \/
  (exists r', file s' = Stored r' /\ settled_status (Status r) = false /\ evolves r r') \/
  (exists r', file s' = Stored r' /\ settled_status (Status r) = true /\ fresh r' /\
     different_operation r r' /\ r ∈ archives s').
Proof.
  intros Hr. pose proof (run_op_step st op s) as Hstep. rewrite Hr in Hstep. cbv zeta. revert Hstep.
  generalize (file (run_op st op s).2) (archives (run_op st op s).2) (archives s). intros f' ar' ar.
  inversion 1 as [| |p ? Hs|p r0 ? Hs Hfr Hd|r0 r' ? Hev]; subst; auto.
  - right. right. exists r0. split_and!; try done. left.
  - right. left. exists r'. split; [done|]. split; [|done].
    destruct Hev as [_ _ Hl _ _ _ _]. by destruct (Status r).
Qed.

(** C15. A mutation is granted only under protection: a lease is issued only for an armed
    operation that has no lease, whose watch process is the registered one, whose
    required checks all have fresh passing results, and it ends within the operation's
    deadline and within the interruption bound the manifest declares for its phase; the
    lease is recorded before it is returned. *)
Theorem grant_is_fenced st id gen phase deadline s :
  wp (Grant st id gen phase deadline) (fun result s' =>
    match result with
    | Err _ => True
    | Ok lease => exists r now t,
        file s = Stored r /\ identity_of r id gen = true /\
        Status r = Armed /\ RecLease r = None /\
        (exists w w', readWatch (Unit (Watch r)) w = (Ok (Watch r), w')) /\
        MutationReady r now = true /\
        trim_space phase <> ""%string /\ lease_Phase lease = phase /\ lease_StartedAt lease = now /\
        now < lease_ExpiresAt lease <= Deadline (RecManifest r) /\
        Forall (fun i => int_Phase i = phase ->
                  lease_ExpiresAt lease <= now + seconds (int_MaxSeconds i))
          (ExpectedInterruptions (RecManifest r)) /\
        file s' = Stored (set_UpdatedAt t (set_Lease (Some lease) r))
    end) s.
Proof.
  cut (spec (Grant st id gen phase deadline) (file s) (archives s) (fun result f' _ =>
    match result with
    | Err _ => True
    | Ok lease => exists r now t,
        file s = Stored r /\ identity_of r id gen = true /\
        Status r = Armed /\ RecLease r = None /\
        (exists w w', readWatch (Unit (Watch r)) w = (Ok (Watch r), w')) /\
        MutationReady r now = true /\
        trim_space phase <> ""%string /\ lease_Phase lease = phase /\ lease_StartedAt lease = now /\
        now < lease_ExpiresAt lease <= Deadline (RecManifest r) /\
        Forall (fun i => int_Phase i = phase ->
                  lease_ExpiresAt lease <= now + seconds (int_MaxSeconds i))
          (ExpectedInterruptions (RecManifest r)) /\
        f' = Stored (set_UpdatedAt t (set_Lease (Some lease) r))
    end)).
  { intros H. by apply H. }
  apply spec_change; [done|]. intros r Hr Hv Hid. repeat spec_step; split_and!; try done.
  intros t Hv'. split; [|done]. exists r, a, t. bool_prop. rewrite is_status_true in *.
  unfold after in *. bool_prop. apply reject_if_ok in E1. bool_prop. subst.
  split_and!; try done. apply Forall_forall. intros i Hi Hph. simpl.
  unfold interruption_exceeded, after, add_time in E5.
  destruct (Z.leb_spec deadline (a + seconds (int_MaxSeconds i))) as [|Hlt]; [done|]. exfalso.
  assert (existsb (fun i => bool_decide (int_Phase i = phase) && (a + seconds (int_MaxSeconds i) <? deadline))
    (ExpectedInterruptions (RecManifest r)) = true) as Hx; [|congruence].
  apply existsb_exists. exists i. split; [by apply list_elem_of_In|].
  rewrite bool_decide_true by done. by apply Z.ltb_lt.
Qed.
End Store.
