(* ===== verification/DeployEngine.v ===== *)
(** * Deploy operations: the engine
      (gateway/internal/deployoperation/{engine,recovery,identity}.go)

    The engine arms an operation, watches the required application checks, commits it,
    or restores the snapshot.  Other processes use the same store meanwhile: before
    each transaction of its own the engine meets the effects of whatever operations
    the environment scheduled ([others]); arming, committing and finishing a recovery
    need the hypervisor coordinator, so a process that holds it never meets them.  A loop
    that polls ends when its context does: its fuel is the number of polls the context
    allows. *)

From S2P Require Import Prelude GoStrings Effects NptPolicy Observation.
From S2P Require Import Notify Rollback WatchdogState DeployStore.

Local Open Scope Z_scope.

(** An operation of another process on the store. *)
Inductive other `{!DistributionTypes} (W : Type) :=
| OtherCreate (r : OpRecord)
| OtherGrant (id gen phase : string) (deadline : Z)
| OtherRegisterWatch (id gen unitName : string)
| OtherRelease (id gen leaseID : string)
| OtherBeginRecovery (id gen reason : string)
| OtherDisarm (id gen reason : string)
| OtherFinishRecovery (id gen : string) (restored : option Identity) (reason : string)
| OtherCommit (id gen : string) (verify : OpRecord -> W -> res (list Result) * W)
| OtherObserve (id gen : string) (results : list Result).
Arguments OtherCreate {_ W}.
Arguments OtherGrant {_ W}.
Arguments OtherRegisterWatch {_ W}.
Arguments OtherRelease {_ W}.
Arguments OtherBeginRecovery {_ W}.
Arguments OtherDisarm {_ W}.
Arguments OtherFinishRecovery {_ W}.
Arguments OtherCommit {_ W}.
Arguments OtherObserve {_ W}.

(** Arming, committing and finishing a recovery happen under the hypervisor
    coordinator: [Arm], [Commit] and [Recover] acquire it first. *)
Definition needs_coordinator `{!DistributionTypes} {W} (o : other W) : bool :=
  match o with OtherCreate _ | OtherFinishRecovery _ _ _ _ | OtherCommit _ _ _ => true | _ => false end.

Class Interference `{!DistributionTypes} (W : Type) := { others : W -> list (other W) * W }.

(** ** Pure parts *)

(** [snapshotExists]: some line of the listing names the snapshot. *)
Definition snapshotExists (output name : string) : bool :=
  existsb (fun line => bool_decide (line_name line = Some name)) (split newline output).

Section Pure.
Context `{UU : !UUIDOps, DT : !DistributionTypes, OO : !ObservationOps}.
Implicit Types (r : OpRecord) (results : list Result).

Definition lease_matches (l p : Lease) (now : Z) : bool :=
  bool_decide (lease_ID l = lease_ID p) && bool_decide (lease_Phase l = lease_Phase p)
  && negb (is_zero (lease_StartedAt l)) && negb (after (lease_StartedAt l) now)
  && after (lease_ExpiresAt l) now.

Definition expectedInterruptionIDs (previous current : OpRecord) (now : Z) : list string :=
  match RecLease current, RecLease previous with
  | Some l, Some p =>
      if lease_matches l p now then
        match List.find (fun i => bool_decide (int_Phase i = lease_Phase l)
                && before now (add_time (lease_StartedAt l) (seconds (int_MaxSeconds i))))
                (ExpectedInterruptions (RecManifest current)) with
        | Some i => int_CheckIDs i
        | None => []
        end
      else []
  | _, _ => []
  end.

Definition interruptedObservationFresh (spec : CheckSpec) (result : Result) (startedAt now : Z) : bool :=
  if negb (bool_decide (spec_Dimension spec = DimensionInboundApplication))
     || negb (same_check spec result)
     || negb (bool_decide (out_Availability result = AvailabilityComplete))
     || negb (bool_decide (out_Outcome result = OutcomeFail))
     || is_zero (out_ObservedAt result) || before (out_ObservedAt result) startedAt
     || after (out_ObservedAt result) now
  then false
  else sub_time now (out_ObservedAt result) <=? seconds (spec_MaxAgeSeconds spec).

(** The start of the current lease; it is read only when a check is exempt, and then
    there is one. *)
Definition lease_start r : Z :=
  match RecLease r with Some l => lease_StartedAt l | None => zero_time end.

Definition watchObservationsAllowed (previous current : OpRecord) results (now : Z) : bool :=
  let checks := RequiredChecks (RecManifest current) in
  if negb (is_status Armed current) || negb (after (Deadline (RecManifest current)) now)
     || negb (bool_decide (length results = length checks))
  then false
  else
    let exemptIDs := expectedInterruptionIDs previous current now in
    forallb (fun cr =>
      RequiredPassed cr.1 cr.2 now
      || (bool_decide (spec_ID cr.1 ∈ exemptIDs)
          && interruptedObservationFresh cr.1 cr.2 (lease_start current) now))
      (zip checks results).

Definition observedAfter results (start : Z) : bool :=
  negb (bool_decide (length results = 0%nat))
  && forallb (fun result => after (out_ObservedAt result) start) results.
End Pure.

Section Engine.
Context `{UU : !UUIDOps, DT : !DistributionTypes, OO : !ObservationOps} {W : Type}
  `{DE : !DeployEnv W, SO : !SysOps W, IN : !Interference W}.

Abbreviation DM := (M (dsys W)).

(** ** Calls *)

(** A call on the guest or the hypervisor, recorded with its result. *)
Definition vm {A} (f : W -> A * W) (ev : A -> event) : DM A :=
  fun s => let '(a, w') := f (dworld s) in
           (a, mkDsys (file s) (archives s) w' (ev a :: dtrace s)).

Definition run_other (st : StoreConfig) (o : other W) : DM unit :=
  match o with
  | OtherCreate r => Create st r ;; mret tt
  | OtherGrant id gen phase deadline => Grant st id gen phase deadline ;; mret tt
  | OtherRegisterWatch id gen unitName => RegisterWatch st id gen unitName ;; mret tt
  | OtherRelease id gen leaseID => DeployStore.Release st id gen leaseID ;; mret tt
  | OtherBeginRecovery id gen reason => BeginRecovery st id gen reason ;; mret tt
  | OtherDisarm id gen reason => Disarm st id gen reason ;; mret tt
  | OtherFinishRecovery id gen restored reason => finishRecovery st id gen restored reason ;; mret tt
  | OtherCommit id gen verify => Commit st id gen (fun r => env (verify r)) ;; mret tt
  | OtherObserve id gen results => observe st id gen results ;; mret tt
  end.

(** What the other processes did since the last transaction; [held] says whether this
    process holds the coordinator, which keeps some operations out. *)
Definition interleave (held : bool) (st : StoreConfig) : DM unit :=
  l ← env others;
  forM (List.filter (fun o => negb (held && needs_coordinator o)) l) (run_other st).

Definition transact {A} (held : bool) (st : StoreConfig) (m : DM A) : DM A :=
  interleave held st ;; m.

(** ** The guest's identity *)

Definition guestText (vmid : string) (args : list string) : DM (res string) :=
  r ← vm (GuestExec vmid args) (EvGuestExec vmid args);
  let command := hd ""%string args in
  match r with
  | Err e => refuse ("read deploy identity with " +:+ command +:+ ": " +:+ e)%string
  | Ok response =>
      if negb (ExitCode response =? 0)
      then refuse ("deploy identity " +:+ command +:+ " exited " +:+ itoa (ExitCode response))%string
      else
        let result := trim_space (Stdout response) in
        if bool_decide (result = ""%string)
        then refuse ("deploy identity " +:+ command +:+ " returned no data")%string
        else mret (Ok result)
  end.

Definition guestDigest (vmid path : string) : DM (res string) :=
  r ← guestText vmid ["sha256sum"%string; "--"%string; path];
  match r with
  | Err e => refuse e
  | Ok output =>
      match fields output with
      | [digest; name] =>
          if bool_decide (String.length digest = 64%nat) && bool_decide (name = path)
          then mret (Ok digest) else refuse "deploy identity digest response is malformed"
      | _ => refuse "deploy identity digest response is malformed"
      end
  end.

(** Sequencing of calls that may fail. *)
Definition andThen {A B} (m : DM (res A)) (k : A -> DM (res B)) : DM (res B) :=
  r ← m; match r with Err e => refuse e | Ok a => k a end.

Definition ReadIdentity (vmid : string) (paths : Paths) : DM (res Identity) :=
  if negb (IsAbs (path_Executable paths)) || negb (IsAbs (path_Network paths))
     || negb (IsAbs (path_Runtime paths))
  then refuse "deploy identity requires absolute executable, network and runtime paths"
  else
    andThen (guestText vmid ["cat"; "/etc/machine-id"]%string) (fun machine =>
    andThen (guestText vmid ["cat"; "/proc/sys/kernel/random/boot_id"]%string) (fun boot =>
    andThen (guestDigest vmid (path_Executable paths)) (fun executable =>
    andThen (guestDigest vmid (path_Network paths)) (fun network =>
    andThen (guestDigest vmid (path_Runtime paths)) (fun runtime =>
      let identity := mkIdentity machine boot executable network runtime in
      match Identity_validate identity with
      | Err e => refuse ("validate guest deploy identity: " +:+ e)%string
      | Ok _ => mret (Ok identity)
      end))))).

(** [engine.check]: every check in order, each with the observation timeout. *)
Definition runChecks (m : Manifest) (checks : list CheckSpec) : DM (list Result) :=
  foldM (fun results c =>
    r ← env (runCheck c (seconds (ObservationTimeoutSeconds m))); mret (results ++ [r])%list)
    [] checks.

Definition exact (held : bool) (st : StoreConfig) (operationID generation : string) : DM (res OpRecord) :=
  andThen (transact held st (Read st)) (fun record =>
    if negb (identity_of record operationID generation)
    then refuse "deployment operation identity differs from the request"
    else mret (Ok record)).

(** [engine.transition]: a notification about the operation. *)
Definition transition (r : OpRecord) (kind : string) : DM unit :=
  env (notifyDeploy kind (OperationID (RecManifest r) +:+ "/" +:+ Generation (RecManifest r))%string).

(** ** Recovery *)

Fixpoint WaitForLease (fuel : nat) (st : StoreConfig) (operationID generation : string) : DM (res unit) :=
  andThen (transact true st (Read st)) (fun record =>
    if negb (identity_of record operationID generation) || negb (is_status Recovering record)
    then refuse "deploy recovery operation identity or state has changed"
    else
      drained ← (match RecLease record with
                 | None => mret true
                 | Some l => t ← env clockNow; mret (negb (after (lease_ExpiresAt l) t))
                 end);
      if (drained : bool) then mret (Ok tt)
      else
        t ← env clockNow;
        let remaining := match RecLease record with
                         | Some l => sub_time (lease_ExpiresAt l) t
                         | None => 0
                         end in
        match fuel with
        | O => refuse "deployment mutation lease wait interrupted"
        | S fuel =>
            andThen (env (waitFor (Z.min (PollInterval st) remaining)))
              (fun _ => WaitForLease fuel st operationID generation)
        end).

(** The loop over the descendants, newest first, which stops at the first failure. *)
Fixpoint delete_descendants (vmid : string) (names : list string) : DM (res unit) :=
  match names with
  | [] => mret (Ok tt)
  | name :: names =>
      r ← vm (VMDelSnapshot vmid name) (EvVMDelSnapshot vmid name);
      match r with
      | Err e => refuse ("remove deploy recovery snapshot descendant " +:+ name +:+ ": " +:+ e)%string
      | Ok _ => delete_descendants vmid names
      end
  end.

Definition Restore (record : OpRecord) (now : Z) : DM (res unit) :=
  let vmid := VMID (RecManifest record) in
  let snapshot := Snapshot (RecManifest record) in
  if negb (is_status Recovering record) || lease_running record now
  then refuse "snapshot restoration requires recovery state and an expired or released mutation lease"
  else
    l ← vm (VMSnapshots vmid) (EvVMSnapshots vmid);
    match l with
    | Err e => refuse ("verify deploy recovery snapshot: " +:+ e)%string
    | Ok snapshots =>
        if negb (snapshotExists snapshots snapshot)
        then refuse ("exact deploy recovery snapshot " +:+ snapshot +:+ " is absent")%string
        else
          r ← vm (VMStop vmid) (EvVMStop vmid);
          match r with
          | Err e => refuse ("stop VM for deploy recovery: " +:+ e)%string
          | Ok _ =>
              running ← vm (VMStatus vmid) (EvVMStatus vmid);
              match running with
              | Err e => refuse ("verify stopped deploy recovery VM: " +:+ e)%string
              | Ok true => refuse "deploy recovery VM remains running after stop"
              | Ok false =>
                  andThen (delete_descendants vmid (rev (SnapshotsAfter snapshots snapshot))) (fun _ =>
                    b ← vm (VMRollback vmid snapshot) (EvVMRollback vmid snapshot);
                    match b with
                    | Err e => refuse ("restore deploy recovery snapshot: " +:+ e)%string
                    | Ok _ =>
                        u ← vm (VMStart vmid) (EvVMStart vmid);
                        match u with
                        | Err e => refuse ("start restored deploy recovery VM: " +:+ e)%string
                        | Ok _ => mret (Ok tt)
                        end
                    end)
              end
          end
    end.

Fixpoint awaitRestored (fuel : nat) (st : StoreConfig) (record : OpRecord) : DM (res Identity) :=
  let m := RecManifest record in
  i ← ReadIdentity (VMID m) (ManifestPaths m);
  done ← (match i with
          | Ok identity =>
              if is_ok (verifyRestored identity (Baseline m)) then
                results ← runChecks m (RestoredRequiredChecks m);
                andThen (transact true st (observe st (OperationID m) (Generation m) results)) (fun status =>
                  if negb (bool_decide (status = Armed)) && negb (bool_decide (status = Recovering))
                  then refuse "terminal deploy operation rejects restoration observations"
                  else
                    t ← env clockNow;
                    mret (Ok (if checksPassed (RestoredRequiredChecks m) results t
                              then Some identity else None)))
              else mret (Ok None)
          | Err _ => mret (Ok None)
          end);
  match done with
  | Err e => refuse e
  | Ok (Some identity) => mret (Ok identity)
  | Ok None =>
      match fuel with
      | O => refuse "wait for restored deployment identity and applications: interrupted"
      | S fuel => andThen (env (waitFor (seconds (PollSeconds m))))
                    (fun _ => awaitRestored fuel st record)
      end
  end.

(** What [RecoverCoordinated] does between the begin and the end of a recovery. *)
Definition recover_body (fuel : nat) (st : StoreConfig) (operationID generation : string)
    : DM (res unit) :=
  andThen (WaitForLease fuel st operationID generation) (fun _ =>
  andThen (exact true st operationID generation) (fun record =>
    t ← env clockNow;
    andThen (Restore record t) (fun _ =>
    andThen (awaitRestored fuel st record) (fun identity =>
    andThen (transact true st (finishRecovery st operationID generation (Some identity)
               "baseline identity and application responses restored")) (fun _ =>
      forM ["deploy_operation_observation_failed"; "deploy_operation_watch_failed";
            "deploy_operation_recovery"; "deploy_operation_recovery_failed"]%string
        (fun kind => env (resolveDeploy kind (operationID +:+ "/" +:+ generation)%string)) ;;
      mret (Ok tt)))))).

Definition RecoverCoordinated (fuel : nat) (st : StoreConfig) (owns : bool)
    (operationID generation reason : string) : DM (res unit) :=
  if negb owns then refuse "deployment recovery requires the hypervisor coordinator"
  else
    andThen (exact true st operationID generation) (fun record =>
      if is_status Recovered record then mret (Ok tt)
      else
        andThen (transact true st (BeginRecovery st operationID generation reason)) (fun _ =>
          (if is_status Armed record then
             w ← Watch_Verify (Watch record);
             (if is_ok w then mret tt else transition record "deploy_operation_watch_failed")
           else mret tt) ;;
          transition record "deploy_operation_recovery" ;;
          r ← recover_body fuel st operationID generation;
          match r with
          | Ok _ => mret (Ok tt)
          | Err e =>
              f ← transact true st (finishRecovery st operationID generation None e);
              transition record "deploy_operation_recovery_failed" ;;
              mret (join_err (Err e) f)
          end)).

(** [engine.Recover] takes the coordinator first. *)
Definition coordinated {A} (what : string) (m : DM (res A)) : DM (res A) :=
  l ← env lockRollback;
  match l with
  | Err e => refuse (what +:+ e)%string
  | Ok _ => r ← m; c ← env unlockRollback; mret (join_err r c)
  end.

Definition Recover (fuel : nat) (st : StoreConfig) (operationID generation reason : string) : DM (res unit) :=
  coordinated "coordinate deployment recovery: " (RecoverCoordinated fuel st true operationID generation reason).

(** ** Commit *)

Fixpoint awaitWatchObservations (fuel : nat) (st : StoreConfig) (operationID generation : string)
    (start : Z) : DM (res unit) :=
  andThen (exact false st operationID generation) (fun record =>
    now ← env clockNow;
    if negb (is_status Armed record) || negb (after (Deadline (RecManifest record)) now)
    then refuse ("deploy operation is not armed or its deadline has expired (status "
                 +:+ status_text (Status record) +:+ ")")%string
    else
      w ← Watch_Verify (Watch record);
      match w with
      | Err e => refuse ("deploy commit requires the active deploy watch: " +:+ e)%string
      | Ok _ =>
          if MutationReady record now && observedAfter (Results record) start then mret (Ok tt)
          else match fuel with
               | O => refuse "wait for passing deploy watch observations: interrupted"
               | S fuel => andThen (env (waitFor (PollInterval st)))
                             (fun _ => awaitWatchObservations fuel st operationID generation start)
               end
      end).

(** The verification of a commit: the guest is the target and every check is run again. *)
Definition verifyTarget (record : OpRecord) : DM (res (list Result)) :=
  let m := RecManifest record in
  andThen (ReadIdentity (VMID m) (ManifestPaths m)) (fun identity =>
    if negb (same_recovery_pair identity (Target m))
    then refuse "actual deployment target identity differs from the manifest"
    else results ← runChecks m (RequiredChecks m); mret (Ok results)).

Definition Engine_Commit (fuel : nat) (st : StoreConfig) (operationID generation : string) : DM (res unit) :=
  start ← env clockNow;
  andThen (awaitWatchObservations fuel st operationID generation start) (fun _ =>
    coordinated "coordinate deployment commit: "
      (transact true st (Commit st operationID generation verifyTarget))).

(** ** Arming and watching *)

Fixpoint awaitWatch (fuel : nat) (st : StoreConfig) : DM (res unit) :=
  andThen (transact true st (Read st)) (fun registered =>
    if negb (is_status Armed registered)
    then refuse "deploy watch setup no longer permits mutations"
    else
      t ← env clockNow;
      ready ← (if MutationReady registered t
               then w ← Watch_Verify (Watch registered); mret (is_ok w)
               else mret false);
      if (ready : bool) then mret (Ok tt)
      else match fuel with
           | O => refuse "wait for exact deploy watch registration: interrupted"
           | S fuel => andThen (env (waitFor (PollInterval st))) (fun _ => awaitWatch fuel st)
           end).

(** The end of [Arm]: a watch that cannot be set up disarms the operation, or hands it
    to recovery when it can no longer be disarmed. *)
Definition arm_watch (fuel : nat) (st : StoreConfig) (record : OpRecord) : DM (res unit) :=
  let m := RecManifest record in
  r ← andThen (env (startWatch record)) (fun _ => awaitWatch fuel st);
  match r with
  | Ok _ => mret (Ok tt)
  | Err e =>
      d ← transact true st (Disarm st (OperationID m) (Generation m) "deploy watch setup failed");
      result ← (match d with
                | Ok _ => mret (Err e)
                | Err _ =>
                    b ← transact true st (BeginRecovery st (OperationID m) (Generation m) "deploy watch setup failed");
                    mret (join_err (join_err (Err e) d) b)
                end);
      transition record "deploy_operation_watch_failed" ;;
      mret result
  end.

Definition Arm (fuel : nat) (st : StoreConfig) (m : Manifest) : DM (res unit) :=
  match Manifest_validate m with
  | Err e => refuse e
  | Ok _ =>
      coordinated "coordinate deployment recovery: " (
        andThen (ReadIdentity (VMID m) (ManifestPaths m)) (fun identity =>
          if negb (bool_decide (identity = Baseline m))
          then refuse "actual deployment baseline identity differs from the manifest"
          else
            l ← vm (VMSnapshots (VMID m)) (EvVMSnapshots (VMID m));
            match l with
            | Err e => refuse ("read deployment baseline snapshots: " +:+ e)%string
            | Ok snapshots =>
                if negb (snapshotExists snapshots (Snapshot m))
                then refuse "exact deployment baseline snapshot is absent"
                else
                  results ← runChecks m (RequiredChecks m);
                  t ← env clockNow;
                  if negb (checksPassed (RequiredChecks m) results t)
                  then refuse "deployment baseline application checks did not pass"
                  else
                    t' ← env clockNow;
                    let record := mkOpRecord m Armed None (mkWatchIdentity "" "" 0) "" zero_time None
                                    results t' in
                    andThen (transact true st (Create st record)) (fun _ => arm_watch fuel st record)
            end))
  end.

(** The loop of [engine.Watch]. *)
Fixpoint watch_loop (fuel polls : nat) (st : StoreConfig) (operationID generation : string)
    (failures : Z) : DM (res unit) :=
  andThen (exact false st operationID generation) (fun record =>
    let m := RecManifest record in
    if settled_status (Status record) then mret (Ok tt)
    else
      expired ← (if is_status Armed record
                 then t ← env clockNow; mret (negb (after (Deadline m) t)) else mret true);
      if (expired : bool) then
        Recover polls st operationID generation
          "operation deadline or recovery state requires snapshot restoration"
      else
        results ← runChecks m (RequiredChecks m);
        andThen (transact false st (observe st operationID generation results)) (fun status =>
          if settled_status status then mret (Ok tt)
          else
            now ← env clockNow;
            (if checksPassed (RequiredChecks m) results now then mret tt
             else transition record "deploy_operation_observation_failed") ;;
            andThen (exact false st operationID generation) (fun current =>
              if settled_status (Status current) then mret (Ok tt)
              else
                t ← env clockNow;
                let failures := if watchObservationsAllowed record current results t
                                then 0 else incr failures in
                if FailureThreshold m <=? failures
                then Recover polls st operationID generation "required application observations failed"
                else match fuel with
                     | O => refuse "deployment operation wait interrupted"
                     | S fuel => andThen (env (waitFor (seconds (PollSeconds m))))
                                   (fun _ => watch_loop fuel polls st operationID generation failures)
                     end))).

Definition Engine_Watch (fuel polls : nat) (st : StoreConfig) (operationID generation : string)
    : DM (res unit) :=
  andThen (exact false st operationID generation) (fun record =>
  andThen (transact false st (RegisterWatch st operationID generation (WatchUnit (RecManifest record))))
    (fun _ => watch_loop fuel polls st operationID generation 0)).
End Engine.
