(* ===== verification/DeployEngineProps.v ===== *)
(** * Properties of the deploy operation engine

    [hspec] adds to [spec] the calls a program makes on the guest.  The rules [drules]
    say which call a recovery may make after which results; the recovery theorem holds
    under any interleaving with the processes that do not hold the coordinator. *)

From S2P Require Import Prelude GoStrings Effects NptPolicy Observation.
From S2P Require Import Rollback WatchdogState DeployStore DeployProps DeployEngine.

Local Open Scope Z_scope.

Section Engine.
Context `{UU : !UUIDOps, DT : !DistributionTypes, OO : !ObservationOps} {W : Type}
  `{DE : !DeployEnv W, SO : !SysOps W, IN : !Interference W}.
Implicit Types (s : dsys W) (r : OpRecord) (st : StoreConfig) (f : stored).

(** ** Reasoning about the file and the calls

    [hspec m f Q]: from a state whose file is [f], [m] returns, leaves a file and adds
    events (newest first) that satisfy [Q]. *)

Definition hspec {A} (m : M (dsys W) A) f (Q : A -> stored -> list event -> Prop) : Prop :=
  forall s, file s = f -> exists new,
    dtrace (m s).2 = new ++ dtrace s /\ Q (m s).1 (file (m s).2) new.

Lemma hspec_ret {A} (a : A) f (Q : A -> stored -> list event -> Prop) : Q a f [] -> hspec (mret a) f Q.
Proof. intros H s <-. by exists []. Qed.

Lemma hspec_bind {A B} (m : M (dsys W) A) (k : A -> M (dsys W) B) f Q :
  hspec m f (fun a f' n => hspec (k a) f' (fun b f'' n' => Q b f'' (n' ++ n))) ->
  hspec (m ≫= k) f Q.
Proof.
  intros H s Hf. destruct (H s Hf) as (n & Hn & Hk). unfold mbind, M_bind.
  destruct (m s) as [a s']. destruct (Hk s' eq_refl) as (n' & Hn' & HQ).
  exists (n' ++ n). split; [|done]. simpl in *. by rewrite Hn', Hn, app_assoc.
Qed.

Lemma hspec_mono {A} (m : M (dsys W) A) f (Q R : A -> stored -> list event -> Prop) :
  hspec m f Q -> (forall a f' n, Q a f' n -> R a f' n) -> hspec m f R.
Proof. intros H HQ s Hf. destruct (H s Hf) as (n & ? & ?). exists n. auto. Qed.

Lemma hspec_env {A} (g : W -> A * W) f (Q : A -> stored -> list event -> Prop) :
  (forall a, Q a f []) -> hspec (env g) f Q.
Proof. intros H s <-. exists []. unfold env. by destruct (g (dworld s)). Qed.

Lemma hspec_vm {A} (g : W -> A * W) ev f (Q : A -> stored -> list event -> Prop) :
  (forall a, Q a f [ev a]) -> hspec (vm g ev) f Q.
Proof.
  intros H s <-. unfold vm. destruct (g (dworld s)) as [a w']. exists [ev a]. split; [done|apply H].
Qed.

Lemma hspec_andThen {A B} (m : M (dsys W) (res A)) (k : A -> M (dsys W) (res B)) f Q :
  hspec m f (fun a f' n =>
    match a with
    | Err e => Q (Err e) f' n
    | Ok a => hspec (k a) f' (fun b f'' n' => Q b f'' (n' ++ n))
    end) ->
  hspec (andThen m k) f Q.
Proof.
  intros H. apply hspec_bind. eapply hspec_mono; [exact H|].
  intros [a|e] f' n; [done|]. intros Hq. by apply hspec_ret.
Qed.

(** Store operations add no events. *)
Definition mute s s' : Prop := dtrace s' = dtrace s.
#[local] Instance mute_preorder : PreOrder mute.
Proof. split; unfold mute; [done|congruence]. Qed.

Lemma mute_env {A} (g : W -> A * W) : sat (env g) mute.
Proof. intros s. unfold env. by destruct (g (dworld s)). Qed.
Lemma mute_set_file r : sat (set_file (W:=W) r) mute.
Proof. done. Qed.
Lemma mute_add_archive r : sat (add_archive (W:=W) r) mute.
Proof. done. Qed.

Ltac mute_steps :=
  sat_steps ltac:(first [ apply mute_env | apply mute_set_file | apply mute_add_archive | eauto 2 with mute nocore ]).
Create HintDb mute.

Lemma mute_read : sat (read (W:=W)) mute.
Proof. unfold read. mute_steps. Qed.
Lemma mute_write r : sat (write (W:=W) r) mute.
Proof. unfold write. mute_steps. Qed.
Lemma mute_locked {A} st (m : M (dsys W) (res A)) : sat m mute -> sat (locked st m) mute.
Proof. intros H. unfold locked. sat_steps ltac:(first [apply mute_env|exact H]). Qed.
#[local] Hint Resolve mute_read mute_write : mute.
Lemma mute_change {A} st id gen (u : OpRecord -> M (dsys W) (res (OpRecord * A))) :
  (forall r, sat (u r) mute) -> sat (change st id gen u) mute.
Proof. intros H. apply mute_locked. sat_steps ltac:(first [apply mute_env|apply H|eauto 2 with mute nocore]). Qed.
Lemma mute_Watch_Verify i : sat (Watch_Verify (W:=W) i) mute.
Proof. unfold Watch_Verify. mute_steps. Qed.
#[local] Hint Resolve mute_Watch_Verify : mute.

Lemma mute_observe st id gen results : sat (observe (W:=W) st id gen results) mute.
Proof. apply mute_locked. mute_steps. Qed.

Lemma mute_run_other st (o : other W) : sat (run_other st o) mute.
Proof.
  destruct o; cbn [run_other];
    (apply sat_bind; [apply _| |intros; apply sat_ret, _]).
  - unfold Create, create_new, archive. apply mute_locked. mute_steps.
  - apply mute_change. mute_steps.
  - unfold RegisterWatch. mute_steps.
  - apply mute_change. mute_steps.
  - apply mute_change. mute_steps.
  - apply mute_change. mute_steps.
  - apply mute_change. mute_steps.
  - unfold Commit. mute_steps.
  - apply mute_locked. mute_steps.
Qed.
Lemma hspec_store {A} (m : M (dsys W) A) f (Q : A -> stored -> list event -> Prop) :
  sat m mute -> (forall ar, spec m f ar (fun a f' _ => Q a f' [])) -> hspec m f Q.
Proof.
  intros Hm Hs s Hf. exists []. split; [apply Hm|]. exact (Hs (archives s) s Hf eq_refl).
Qed.

(** ** Interference during a recovery *)

(** The record of the operation is in status [x]; while the coordinator is held, other
    processes keep the manifest and the status of a recovering or recovered one. *)
Definition recorded (x : OpStatus) (mf : Manifest) f : Prop :=
  exists r, f = Stored r /\ RecManifest r = mf /\ Status r = x.

Lemma recorded_change {A} x mf st id gen (u : OpRecord -> M (dsys W) (res (OpRecord * A))) f ar :
  recorded x mf f ->
  (forall r, RecManifest r = mf -> Status r = x ->
    spec (u r) f ar (fun y f' ar' => f' = f /\ ar' = ar /\
      match y with
      | Err _ => True
      | Ok (r', _) => RecManifest r' = mf /\ Status r' = x
      end)) ->
  spec (change st id gen u) f ar (fun _ f' _ => recorded x mf f').
Proof.
  intros (r & Hf & Hm & Hs) Hu. apply spec_change; [intros; by exists r|].
  intros r0 Hr0 _ _. assert (r0 = r) as -> by congruence.
  eapply spec_mono; [by apply Hu|]. intros [[r' a]|e] f' ar' (-> & -> & H); [|done].
  split; [done|]. split; [done|]. intros t _. destruct H. split; [|intros _]; by eexists.
Qed.

Lemma observe_keeps x mf st id gen results f ar :
  recorded x mf f -> spec (observe (W:=W) st id gen results) f ar (fun _ f' _ => recorded x mf f').
Proof.
  intros (r & -> & Hm & Hs). assert (recorded x mf (Stored r)) as Hr by by exists r.
  apply spec_locked; [done|]. apply spec_bind, spec_read; [intros; by apply spec_ret|].
  intros ? [= <-] _. repeat spec_step; try done. apply spec_write; [intros; by apply spec_ret|].
  intros _. spec_step. split; [|intros _]; by eexists.
Qed.

Ltac same_status :=
  intros r Hm Hs; unfold is_status; rewrite Hs;
  match goal with H : _ = Recovering \/ _ |- _ => destruct H as [-> | ->] end;
  repeat spec_step; done.

Lemma other_keeps x mf st (o : other W) f ar :
  x = Recovering \/ x = Recovered -> needs_coordinator o = false -> recorded x mf f ->
  spec (run_other st o) f ar (fun _ f' _ => recorded x mf f').
Proof.
  intros Hx Hn Hf. destruct o; try discriminate; cbn [run_other]; apply spec_bind.
  all: eapply (spec_mono _ f ar (fun _ f' _ => recorded x mf f')); [|intros; by apply spec_ret].
  - apply recorded_change; [done|same_status].
  - unfold RegisterWatch. repeat spec_step; try done. apply recorded_change; [done|same_status].
  - apply recorded_change; [done|same_status].
  - apply recorded_change; [done|same_status].
  - apply recorded_change; [done|same_status].
  - by apply observe_keeps.
Qed.

(** ** Transactions during a recovery *)

Lemma interleave_recorded x mf st f (Q : unit -> stored -> list event -> Prop) :
  x = Recovering \/ x = Recovered ->
  recorded x mf f -> (forall f', recorded x mf f' -> Q tt f' []) -> hspec (interleave true st) f Q.
Proof.
  intros Hx Hf HQ. unfold interleave. apply hspec_bind, hspec_env. intros l.
  assert (Forall (fun o => needs_coordinator o = false)
    (List.filter (fun o => negb (true && needs_coordinator o)) l)) as Hl.
  { apply Forall_forall. intros o Ho. apply list_elem_of_In, filter_In in Ho as [_ Ho]. by destruct (needs_coordinator o). }
  revert f Hf. induction Hl as [|o l' Ho Hl IH]; intros f Hf; unfold forM; cbn [foldM].
  { apply hspec_ret. by apply HQ. }
  apply hspec_bind. apply (hspec_store _ f).
  { apply mute_run_other. }
  intros ar. eapply spec_mono; [by apply (other_keeps x mf)|]. intros [] f' ? Hf'.
  eapply hspec_mono; [by apply IH|]. intros [] f'' n. by rewrite !app_nil_r.
Qed.

Lemma transact_recorded {A} x mf st (m : M (dsys W) A) f (Q : A -> stored -> list event -> Prop) :
  x = Recovering \/ x = Recovered ->
  recorded x mf f ->
  (forall r, RecManifest r = mf -> Status r = x -> hspec m (Stored r) Q) ->
  hspec (transact true st m) f Q.
Proof.
  intros Hx Hf Hm. unfold transact. apply hspec_bind. apply (interleave_recorded x mf); [done|done|].
  intros f' (r & -> & Hmf & Hs). eapply hspec_mono; [by apply Hm|]. intros a f'' n. by rewrite app_nil_r.
Qed.

Lemma hspec_Read st f (Q : res OpRecord -> stored -> list event -> Prop) :
  (forall e, Q (Err e) f []) -> (forall r, f = Stored r -> Q (Ok r) f []) -> hspec (Read st) f Q.
Proof.
  intros He Hr. apply hspec_store; [apply mute_locked; eauto 2 with mute|]. intros ar.
  apply spec_locked; [done|]. apply spec_read; auto.
Qed.

Lemma exact_recorded x mf st id gen f (Q : res OpRecord -> stored -> list event -> Prop) :
  x = Recovering \/ x = Recovered ->
  recorded x mf f ->
  (forall e f', recorded x mf f' -> Q (Err e) f' []) ->
  (forall r, RecManifest r = mf -> Status r = x -> Q (Ok r) (Stored r) []) ->
  hspec (exact true st id gen) f Q.
Proof.
  intros Hx Hf He Hr. unfold exact. apply hspec_andThen. apply (transact_recorded x mf); [done|done|].
  intros r Hm Hs. apply hspec_Read.
  - intros e. apply He. by exists r.
  - intros ? [= <-]. destruct (negb _); apply hspec_ret; [|auto]. apply He. by exists r.
Qed.
(** ** What a recovery may do to the guest *)

Definition del_ok (v name : string) : event := EvVMDelSnapshot v name (Ok tt).

(** The guest was found stopped after a stop, which came after a listing. *)
Definition stopped_after (v listing : string) : list event :=
  [EvVMStatus v (Ok false); EvVMStop v (Ok tt); EvVMSnapshots v (Ok listing)].

(** [older] are the events before [e], newest first; a recovery issues no other calls. *)
Definition drule (mf : Manifest) (e : event) (older : list event) : Prop :=
  match e with
  | EvGuestExec v _ _ | EvVMSnapshots v _ => v = VMID mf
  | EvVMStop v _ => v = VMID mf /\ exists listing rest,
      older = EvVMSnapshots v (Ok listing) :: rest /\ snapshotExists listing (Snapshot mf) = true
  | EvVMStatus v _ => v = VMID mf /\ exists rest, older = EvVMStop v (Ok tt) :: rest
  | EvVMDelSnapshot v name _ => v = VMID mf /\ exists listing deleted rest,
      older = map (del_ok v) deleted ++ stopped_after v listing ++ rest /\
      name ∈ SnapshotsAfter listing (Snapshot mf)
  | EvVMRollback v snap _ => v = VMID mf /\ snap = Snapshot mf /\ exists listing rest,
      older = map (del_ok v) (SnapshotsAfter listing snap) ++ stopped_after v listing ++ rest
  | EvVMStart v _ => v = VMID mf /\ exists rest, older = EvVMRollback v (Snapshot mf) (Ok tt) :: rest
  | _ => False
  end.

Definition drules (mf : Manifest) (new : list event) : Prop :=
  forall newer e older, new = newer ++ e :: older -> drule mf e older.

Lemma drule_mono mf e older o : drule mf e older -> drule mf e (older ++ o).
Proof.
  destruct e; simpl; try done.
  - intros (-> & rest & ->). split; [done|]. by exists (rest ++ o).
  - intros (-> & rest & ->). split; [done|]. by exists (rest ++ o).
  - intros (-> & l & rest & -> & H). split; [done|]. by exists l, (rest ++ o).
  - intros (-> & l & d & rest & -> & H). split; [done|]. exists l, d, (rest ++ o).
    by rewrite <- app_assoc.
  - intros (-> & -> & l & rest & ->). split; [done|]. split; [done|]. exists l, (rest ++ o).
    by rewrite <- app_assoc.
Qed.

Lemma drules_nil mf : drules mf [].
Proof. intros n e o H. by destruct n. Qed.

Lemma drules_cons mf e n : drule mf e n -> drules mf n -> drules mf (e :: n).
Proof.
  intros He Hn [|x newer] e' older H; simpl in H; injection H as -> ->; [done|]. by eapply Hn.
Qed.

Lemma drules_app mf n1 n2 : drules mf n1 -> drules mf n2 -> drules mf (n1 ++ n2).
Proof.
  intros H1 H2. induction n1 as [|e n1 IH]; [done|]. simpl. apply drules_cons.
  - apply drule_mono. by apply (H1 [] e n1).
  - apply IH. intros newer e' older ->. by apply (H1 (e :: newer) e' older).
Qed.

Lemma delete_descendants_rules mf listing f names deleted :
  let v := VMID mf in
  Forall (fun x => x ∈ SnapshotsAfter listing (Snapshot mf)) names ->
  hspec (delete_descendants v names) f (fun result f' n => f' = f /\
    (drules mf (map (del_ok v) deleted ++ stopped_after v listing) ->
     drules mf (n ++ map (del_ok v) deleted ++ stopped_after v listing)) /\
    (is_ok result = true -> n = map (del_ok v) (rev names))).
Proof.
  intros v. revert deleted. induction names as [|x names IH]; intros deleted Hall; cbn [delete_descendants].
  { apply hspec_ret. split; [done|]. done. }
  apply Forall_cons in Hall as [Hx Hall].
  assert (forall u : res unit, drules mf (map (del_ok v) deleted ++ stopped_after v listing) ->
    drules mf (EvVMDelSnapshot v x u :: map (del_ok v) deleted ++ stopped_after v listing)) as Hd.
  { intros u H. apply drules_cons; [|done]. split; [done|]. exists listing, deleted, [].
    by rewrite app_nil_r. }
  apply hspec_bind, hspec_vm. intros [[]|e].
  - eapply hspec_mono; [apply (IH (x :: deleted)); done|]. intros a f' n (-> & Hr & Hok).
    split; [done|]. rewrite <- app_assoc. split; [intros H; by apply Hr, Hd|].
    intros Ha. rewrite (Hok Ha). cbn [rev map]. by rewrite map_app.
  - apply hspec_ret. split; [done|]. split; [intros H; by apply Hd|done].
Qed.

Lemma Restore_rules r now f :
  hspec (Restore r now) f (fun result f' n => f' = f /\ drules (RecManifest r) n /\
    (n <> [] -> Status r = Recovering /\ lease_running r now = false)).
Proof.
  set (mf := RecManifest r). unfold Restore. fold mf. cbv zeta.
  destruct (negb _ || _) eqn:E; [apply hspec_ret; split; [done|]; split; [apply drules_nil|done]|].
  bool_prop. apply is_status_true in H.
  assert (Status r = Recovering /\ lease_running r now = false) as Hn by done. clear H H0.
  apply hspec_bind, hspec_vm. intros [listing|e].
  2:{ apply hspec_ret. split; [done|]; split; [|auto]. apply drules_cons; [done|apply drules_nil]. }
  assert (drules mf [EvVMSnapshots (VMID mf) (Ok listing)]) as H1.
  { apply drules_cons; [done|apply drules_nil]. }
  destruct (snapshotExists listing (Snapshot mf)) eqn:Hex; [|apply hspec_ret; auto].
  cbn [negb]. apply hspec_bind, hspec_vm. intros [[]|e].
  2:{ apply hspec_ret. split; [done|]; split; [|auto]. apply drules_cons; [|done]. split; [done|]. by exists listing, []. }
  apply hspec_bind, hspec_vm. intros b.
  assert (drules mf [EvVMStop (VMID mf) (Ok tt); EvVMSnapshots (VMID mf) (Ok listing)]) as H2.
  { apply drules_cons; [|done]. split; [done|]. by exists listing, []. }
  assert (drules mf (EvVMStatus (VMID mf) b :: [EvVMStop (VMID mf) (Ok tt); EvVMSnapshots (VMID mf) (Ok listing)])) as H3.
  { apply drules_cons; [|done]. split; [done|]. by eexists. }
  destruct b as [[]|e]; [apply hspec_ret; auto| |apply hspec_ret; auto].
  apply hspec_andThen. eapply hspec_mono.
  { apply (delete_descendants_rules mf listing f _ []). apply Forall_rev, Forall_forall. done. }
  intros [[]|e] f' n (-> & Hd & Hok); [|rewrite <- !app_assoc; split; [done|]; split; [by apply Hd|auto]].
  rewrite (Hok eq_refl), rev_involutive in *. clear Hok n. specialize (Hd H3).
  apply hspec_bind, hspec_vm. intros b.
  assert (drules mf (EvVMRollback (VMID mf) (Snapshot mf) b
    :: map (del_ok (VMID mf)) (SnapshotsAfter listing (Snapshot mf)) ++ stopped_after (VMID mf) listing)) as H4.
  { apply drules_cons; [|done]. split; [done|]. split; [done|]. exists listing, []. by rewrite app_nil_r. }
  destruct b as [[]|e]; [|apply hspec_ret; rewrite <- !app_assoc; auto].
  apply hspec_bind, hspec_vm. intros u.
  assert (drules mf (EvVMStart (VMID mf) u :: EvVMRollback (VMID mf) (Snapshot mf) (Ok tt)
    :: map (del_ok (VMID mf)) (SnapshotsAfter listing (Snapshot mf)) ++ stopped_after (VMID mf) listing)) as H5.
  { apply drules_cons; [|done]. split; [done|]. by eexists. }
  destruct u; apply hspec_ret; rewrite <- !app_assoc; auto.
Qed.
(** *** The rest of a recovery only reads the guest *)

Definition guest_call (v : string) (e : event) : Prop :=
  match e with EvGuestExec v' _ _ => v' = v | _ => False end.

Definition reads_guest (v : string) s s' : Prop :=
  file s' = file s /\ exists new, dtrace s' = new ++ dtrace s /\ Forall (guest_call v) new.

#[local] Instance reads_guest_preorder v : PreOrder (reads_guest v).
Proof.
  split.
  - intros s. split; [done|]. by exists [].
  - intros s1 s2 s3 (H1 & n1 & Ht1 & Hn1) (H2 & n2 & Ht2 & Hn2). split; [congruence|].
    exists (n2 ++ n1). rewrite Ht2, Ht1, app_assoc. split; [done|]. by apply Forall_app.
Qed.

Lemma reads_env {A} (g : W -> A * W) v : sat (env g) (reads_guest v).
Proof. intros s. unfold env. destruct (g (dworld s)). split; [done|]. by exists []. Qed.

Lemma reads_vm {A} (g : W -> A * W) ev v : (forall a, guest_call v (ev a)) -> sat (vm g ev) (reads_guest v).
Proof.
  intros H s. unfold vm. destruct (g (dworld s)) as [a w']. split; [done|]. exists [ev a]. auto.
Qed.

Lemma reads_guestText v args : sat (guestText v args) (reads_guest v).
Proof. unfold guestText. sat_steps ltac:(first [apply reads_vm; intros ?; reflexivity]). Qed.

Lemma reads_ReadIdentity v paths : sat (ReadIdentity v paths) (reads_guest v).
Proof.
  assert (forall path, sat (guestDigest v path) (reads_guest v)) as Hd.
  { intros path. unfold guestDigest. sat_steps ltac:(first [apply reads_guestText]). }
  unfold ReadIdentity, andThen. sat_steps ltac:(first [apply Hd|apply reads_guestText]).
Qed.

Lemma reads_runChecks v mf checks : sat (runChecks mf checks) (reads_guest v).
Proof. unfold runChecks. sat_steps ltac:(first [apply reads_env]). Qed.

Lemma hspec_reads {A} v (m : M (dsys W) A) f (Q : A -> stored -> list event -> Prop) :
  sat m (reads_guest v) -> (forall a n, Forall (guest_call v) n -> Q a f n) -> hspec m f Q.
Proof.
  intros Hm HQ s Hf. destruct (Hm s) as (H1 & n & Ht & Hn). exists n. split; [done|].
  rewrite H1, Hf. by apply HQ.
Qed.

Lemma guest_calls_rules mf n : Forall (guest_call (VMID mf)) n -> drules mf n.
Proof.
  induction 1 as [|e n He _ IH]; [apply drules_nil|]. apply drules_cons; [|done]. by destruct e.
Qed.

Lemma awaitRestored_rules fuel st r mf f :
  RecManifest r = mf -> recorded Recovering mf f ->
  hspec (awaitRestored fuel st r) f (fun result f' n =>
    recorded Recovering mf f' /\ drules mf n).
Proof.
  intros Hr. revert f. induction fuel as [|fuel IH]; intros f Hf; cbn [awaitRestored]; rewrite Hr.
  all: apply hspec_bind, (hspec_reads (VMID mf)); [apply reads_ReadIdentity|]; intros i n Hn.
  all: apply guest_calls_rules in Hn; apply hspec_bind.
  all: apply (hspec_mono _ f (fun _ f' n => recorded Recovering mf f' /\ drules mf n)).
  2, 4: intros [[identity|]|e] f' n' [Hf' Hn'].
  all: try (apply hspec_ret; split; [done|]; cbn [app]; by apply drules_app).
  2:{ apply hspec_andThen, hspec_env. intros [u|e]; [|split; [done|]; by apply drules_app].
      eapply hspec_mono; [by apply IH|]. intros a f'' n'' [Hf'' Hn'']. split; [done|].
      repeat apply drules_app; try done. all: apply drules_nil. }
  all: destruct i as [identity|e]; [|apply hspec_ret; split; [done|apply drules_nil]].
  all: destruct (is_ok _); [|apply hspec_ret; split; [done|apply drules_nil]].
  all: apply hspec_bind, (hspec_reads (VMID mf)); [apply reads_runChecks|]; intros results n1 Hn1.
  all: apply guest_calls_rules in Hn1; apply hspec_andThen.
  all: apply (transact_recorded Recovering mf); [by left|done|]; intros r1 Hm1 Hs1.
  all: apply hspec_store; [apply (mute_observe st)|]; intros ar.
  all: eapply spec_mono; [apply (observe_keeps Recovering mf); by exists r1|].
  all: intros [status|e] f' ? Hf'; cbn beta iota; [|by split].
  all: destruct (_ && _); [by apply hspec_ret|].
  all: apply hspec_bind, hspec_env; intros t; by apply hspec_ret.
Qed.
Lemma WaitForLease_keeps fuel st id gen mf f :
  recorded Recovering mf f ->
  hspec (WaitForLease fuel st id gen) f (fun _ f' n => recorded Recovering mf f' /\ n = []).
Proof.
  revert f. induction fuel as [|fuel IH]; intros f Hf; cbn [WaitForLease].
  all: apply hspec_andThen, (transact_recorded Recovering mf); [by left|done|]; intros r Hm Hs.
  all: assert (recorded Recovering mf (Stored r)) as Hr by (by exists r).
  all: apply hspec_Read; [done|]; intros ? [= <-].
  all: destruct (_ || _); [by apply hspec_ret|]; apply hspec_bind.
  all: apply (hspec_mono _ (Stored r) (fun _ f' n => f' = Stored r /\ n = [])).
  1, 3: destruct (RecLease r); [apply hspec_bind, hspec_env; intros t|]; by apply hspec_ret.
  all: intros drained f' n [-> ->]; destruct drained; [by apply hspec_ret|].
  all: apply hspec_bind, hspec_env; intros t.
  { by apply hspec_ret. }
  apply hspec_andThen, hspec_env. intros [u|e]; [|done].
  eapply hspec_mono; [by apply IH|]. intros a f' n [Hf' ->]. done.
Qed.

(** A recovery that ends leaves its record in one of the three recovery statuses. *)
Definition recovery_ended (mf : Manifest) f : Prop :=
  recorded Recovering mf f \/ recorded RecoveryFailed mf f \/ recorded Recovered mf f.

Lemma mute_finishRecovery st id gen restored reason :
  sat (finishRecovery (W:=W) st id gen restored reason) mute.
Proof. apply mute_change. mute_steps. Qed.

Lemma finishRecovery_restored st id gen identity reason r mf :
  RecManifest r = mf -> Status r = Recovering ->
  hspec (finishRecovery st id gen (Some identity) reason) (Stored r) (fun result f' n => n = [] /\
    (recorded Recovering mf f' \/ recorded Recovered mf f') /\
    (is_ok result = true -> recorded Recovered mf f')).
Proof.
  intros Hm Hs. apply hspec_store; [apply mute_finishRecovery|]. intros ar.
  assert (recorded Recovering mf (Stored r)) as Hr by (by exists r).
  apply spec_change; [intros e; split; [done|]; split; [by left|done]|].
  intros r0 [= <-] _ _. repeat spec_step; split_and!; try done.
  all: intros t _; assert (recorded Recovered mf (Stored (set_UpdatedAt t (set_Reason reason
    (set_RestoredIdentity (Some identity) (set_Lease None (set_Status Recovered r))))))) as Hd
    by (by eexists).
  all: split; [|intros e]; (split; [done|]); (split; [by right|done]).
Qed.

Lemma finishRecovery_failed st id gen reason mf f x :
  recorded x mf f -> x = Recovering \/ x = Recovered ->
  hspec (finishRecovery st id gen None reason) f (fun _ f' n => n = [] /\ recovery_ended mf f').
Proof.
  intros (r & -> & Hm & Hs) Hx. apply hspec_store; [apply mute_finishRecovery|]. intros ar.
  assert (recovery_ended mf (Stored r)) as Hr.
  { destruct Hx as [-> | ->]; [left|right; right]; by exists r. }
  apply spec_change; [done|]. intros r0 [= <-] _ _. repeat spec_step; split_and!; try done.
  intros t _. split; [|intros e]; (split; [done|]); right; left; by eexists.
Qed.

Lemma recover_body_rules fuel st id gen mf f :
  recorded Recovering mf f ->
  hspec (recover_body fuel st id gen) f (fun result f' n => drules mf n /\
    (recorded Recovering mf f' \/ recorded Recovered mf f') /\
    (is_ok result = true -> recorded Recovered mf f')).
Proof.
  intros Hf. unfold recover_body. apply hspec_andThen. eapply hspec_mono; [by apply WaitForLease_keeps|].
  intros [u|e] f1 n1 [H1 ->]; [|split_and!; [apply drules_nil|by left|done]].
  apply hspec_andThen, (exact_recorded Recovering mf); [by left|done| |].
  { intros e f2 H2. split_and!; [apply drules_nil|by left|done]. }
  intros r Hm Hs. assert (recorded Recovering mf (Stored r)) as Hr by (by exists r).
  apply hspec_bind, hspec_env. intros t. apply hspec_andThen.
  eapply hspec_mono; [apply Restore_rules|]. rewrite Hm. intros [u2|e] f2 n2 (-> & H2 & _).
  2:{ rewrite !app_nil_r. split_and!; [done|by left|done]. }
  apply hspec_andThen. eapply hspec_mono; [by apply (awaitRestored_rules _ _ _ mf)|].
  intros [identity|e] f3 n3 [H3 Hn3].
  2:{ rewrite !app_nil_r. split_and!; [by apply drules_app|by left|done]. }
  apply hspec_andThen, (transact_recorded Recovering mf); [by left|done|]. intros r4 Hm4 Hs4.
  eapply hspec_mono; [by apply finishRecovery_restored|]. intros [u4|e] f4 n4 (-> & H4 & Hok).
  2:{ rewrite !app_nil_r. split_and!; [by apply drules_app|done|done]. }
  specialize (Hok eq_refl). apply hspec_bind.
  apply (hspec_mono _ f4 (fun _ f' n => f' = f4 /\ n = [])).
  { unfold forM. cbn [foldM].
    do 4 (apply hspec_bind, hspec_env; intros []). by apply hspec_ret. }
  intros [] f5 n5 [-> ->]. apply hspec_ret. rewrite !app_nil_r. split_and!; [by apply drules_app|by right|done].
Qed.
Lemma interleave_mute held st : sat (interleave (W:=W) held st) mute.
Proof.
  unfold interleave, forM. sat_steps ltac:(first [apply mute_env|apply mute_run_other]).
Qed.

Lemma transact_any {A} held st (m : M (dsys W) A) f (Q : A -> stored -> list event -> Prop) :
  (forall f', hspec m f' Q) -> hspec (transact held st m) f Q.
Proof.
  intros Hm. unfold transact. apply hspec_bind. intros s Hf. exists []. split; [apply interleave_mute|].
  eapply hspec_mono; [apply Hm|]. intros a f' n. by rewrite app_nil_r.
Qed.

Lemma exact_any held st id gen f (Q : res OpRecord -> stored -> list event -> Prop) :
  (forall e f', Q (Err e) f' []) ->
  (forall r, identity_of r id gen = true -> Q (Ok r) (Stored r) []) ->
  hspec (exact held st id gen) f Q.
Proof.
  intros He Hr. unfold exact. apply hspec_andThen, transact_any. intros f'.
  apply hspec_Read; [auto|]. intros r ->.
  destruct (identity_of r id gen) eqn:E; apply hspec_ret; cbn [app]; auto.
Qed.

(** The manifest names the operation. *)
Definition names_operation (mf : Manifest) (id gen : string) : Prop :=
  OperationID mf = id /\ Generation mf = gen.

Lemma identity_names r id gen : identity_of r id gen = true -> names_operation (RecManifest r) id gen.
Proof. unfold identity_of. intros H. bool_prop. done. Qed.

Lemma BeginRecovery_begins st id gen reason f :
  hspec (BeginRecovery st id gen reason) f (fun result f' n => n = [] /\
    (is_ok result = true -> exists mf, names_operation mf id gen /\ recorded Recovering mf f')).
Proof.
  apply hspec_store; [apply mute_change; mute_steps|]. intros ar.
  apply spec_change; [done|]. intros r Hr _ Hid. repeat spec_step; split_and!; try done.
  all: intros t _; split; [|done]; split; [done|]; intros _; exists (RecManifest r).
  all: split; [by apply identity_names|]; eexists; split; [done|]; split; [done|].
  all: bool_prop; by apply is_status_true.
Qed.

Definition same_store s s' : Prop := file s' = file s /\ archives s' = archives s.
#[local] Instance same_store_preorder : PreOrder same_store.
Proof. split; [done|]. intros s1 s2 s3 [] []. split; congruence. Qed.
Lemma same_env {A} (g : W -> A * W) : sat (env g) same_store.
Proof. intros s. unfold env. by destruct (g (dworld s)). Qed.

(** ** The watch *)

Lemma expectedInterruptionIDs_spec previous current now x :
  x ∈ expectedInterruptionIDs previous current now ->
  exists l p i, RecLease current = Some l /\ RecLease previous = Some p /\
    lease_ID l = lease_ID p /\ lease_StartedAt l <= now < lease_ExpiresAt l /\
    i ∈ ExpectedInterruptions (RecManifest current) /\ int_Phase i = lease_Phase l /\
    now < lease_StartedAt l + seconds (int_MaxSeconds i) /\ x ∈ int_CheckIDs i.
Proof.
  unfold expectedInterruptionIDs. destruct (RecLease current) as [l|]; [|by intros ?%not_elem_of_nil].
  destruct (RecLease previous) as [p|]; [|by intros ?%not_elem_of_nil].
  destruct (lease_matches l p now) eqn:El; [|by intros ?%not_elem_of_nil].
  destruct (List.find _ _) as [i|] eqn:Ef; [|by intros ?%not_elem_of_nil]. intros Hx.
  apply find_some in Ef as [Hi Hp]. apply list_elem_of_In in Hi.
  unfold lease_matches, after, before, add_time in *. bool_prop. exists l, p, i.
  split_and!; done || lia.
Qed.

(** The watch excuses a failing check only as the manifest declared: when it lets a
    round of observations pass, the operation is armed within its deadline and each
    required check either has a fresh passing result, or is an inbound application
    check listed for the phase of the lease that was outstanding before and after the
    round, within that phase's bound, whose failure was observed since the lease
    began. *)
Lemma watch_tolerates_only_declared previous current results now i c result :
  watchObservationsAllowed previous current results now = true ->
  RequiredChecks (RecManifest current) !! i = Some c -> results !! i = Some result ->
  Status current = Armed /\ now < Deadline (RecManifest current) /\
  (RequiredPassed c result now = true \/
   exists l p int, RecLease current = Some l /\ RecLease previous = Some p /\
     lease_ID l = lease_ID p /\ lease_StartedAt l <= now < lease_ExpiresAt l /\
     int ∈ ExpectedInterruptions (RecManifest current) /\ int_Phase int = lease_Phase l /\
     now < lease_StartedAt l + seconds (int_MaxSeconds int) /\ spec_ID c ∈ int_CheckIDs int /\
     spec_Dimension c = DimensionInboundApplication /\ same_check c result = true /\
     out_Outcome result = OutcomeFail /\ lease_StartedAt l <= out_ObservedAt result <= now).
Proof.
  unfold watchObservationsAllowed. cbv zeta. intros H Hc Hr.
  destruct (_ || _) eqn:E; [done|]. bool_prop. apply is_status_true in H0.
  unfold after in *. bool_prop. split; [done|]. split; [done|].
  apply forallb_Forall in H. rewrite Forall_lookup in H. specialize (H i (c, result)).
  assert (zip (RequiredChecks (RecManifest current)) results !! i = Some (c, result)) as Hz
    by (by apply lookup_zip_Some).
  specialize (H Hz). apply orb_true_iff in H as [H|H]; [by left|right].
  bool_prop. destruct (expectedInterruptionIDs_spec _ _ _ _ H)
    as (l & p & int & Hl & Hp & Hid & Ht & Hi & Hph & Hb & Hx).
  revert H3. unfold interruptedObservationFresh, lease_start. rewrite Hl. destruct (_ || _) eqn:E; [done|].
  intros _. unfold before, after in *. bool_prop. exists l, p, int. split_and!; done || lia.
Qed.
End Engine.
