(* ===== verification/DeployDemo.v ===== *)
(** * A deploy operation, run

    A concrete operation on one IPv4 family in an environment where every call
    succeeds, at a fixed time; the theorems about the store and the engine are applied
    to it, and it shows one place where the code and its comments part. *)

From S2P Require Import Prelude GoStrings Effects NptPolicy Observation.
From S2P Require Import Rollback WatchdogState DeployStore DeployProps DeployEngine DeployEngineProps.

Local Open Scope Z_scope.

#[local] Instance demo_types : DistributionTypes := {
  DistributionPlan := unit; DistributionEvidence := unit }.
#[local] Instance demo_observation : ObservationOps := {
  validateOperation _ := Ok tt; requiredDistributionPassed _ _ _ := false }.
#[local] Instance demo_uuid : UUIDOps := { uuidParse s := Ok s }.

Definition noon : Z := (unix_epoch + 1700000000) * Second.

Definition demo_watch : WatchIdentity := mkWatchIdentity "mwan-deploy.service" "0f" 42.

Definition observer : Endpoint := mkEndpoint EndpointLocal 0 "host" "".

Definition demo_check (id dimension : string) : CheckSpec :=
  mkCheckSpec id dimension OperationHTTP observer FamilyIPv4 "" "" "" AddrNone "http://192.0.2.1/"
    5 60 "GET" [200] "" AddrNone [] "" "" "" [] None "".

Definition inbound : CheckSpec := demo_check "inbound" DimensionInboundApplication.
Definition downstream : CheckSpec := demo_check "downstream" DimensionDownstreamApplication.

Definition demo_result (outcome : string) (c : CheckSpec) : Result :=
  mkResult (spec_ID c) (spec_Dimension c) (spec_Operation c) (spec_Target c) "" (spec_Family c)
    observer noon AvailabilityComplete outcome "" (mkPath AddrNone AddrNone "" "" "") 200 "" [] "" None None.

Definition passing : list Result := map (demo_result OutcomePass) [inbound; downstream].

#[local] Instance demo_env : DeployEnv unit := {
  clockNow w := (noon, w);
  lockRecord w := (Ok tt, w);
  unlockRecord w := (Ok tt, w);
  statRecord w := (Ok tt, w);
  openRecord w := (Ok tt, w);
  writeRecord w := (Ok tt, w);
  writeArchive w := (Ok tt, w);
  readWatch _ w := (Ok demo_watch, w);
  getpid w := (42, w);
  randText w := ("LEASE"%string, w);
  runCheck c _ w := (demo_result OutcomePass c, w);
  startWatch _ w := (Ok tt, w);
  waitFor _ w := (Ok tt, w);
  lockRollback w := (Ok tt, w);
  unlockRollback w := (Ok tt, w);
  notifyDeploy _ _ w := (tt, w);
  resolveDeploy _ _ w := (tt, w);
}.

Definition digest : string :=
  "aaaaaaaaaaaaaaaaaaaaaaaaaaaaaaaaaaaaaaaaaaaaaaaaaaaaaaaaaaaaaaaa".
Definition demo_identity (boot : string) : Identity :=
  mkIdentity "bbbbbbbbbbbbbbbbbbbbbbbbbbbbbbbb" boot digest digest digest.

Definition demo_manifest : Manifest :=
  mkManifest "op-1" "gen-1" "100" "pre-deploy-1" (demo_identity "boot-1") (demo_identity "boot-1")
    (mkPaths "/usr/bin/mwan" "/etc/network.json" "/etc/mwan.toml") (noon + Hour) "mwan-deploy.service"
    5 5 300 2 [FamilyIPv4] [inbound; downstream]
    [mkExpectedInterruption "reboot" ["inbound"%string] 600] [inbound; downstream]
    "/etc/machine-id" "/usr/bin/mwan".

Definition demo_record : OpRecord :=
  mkOpRecord demo_manifest Armed None (mkWatchIdentity "" "" 0) "" zero_time None passing noon.

Definition demo_store : StoreConfig := mkStoreConfig "/var/lib/mwan/lock.operation" Second.

Definition empty_store : dsys unit := mkDsys Absent [] tt [].

Definition run_ops (ops : list (store_op (W:=unit))) (s : dsys unit) : dsys unit :=
  fold_left (fun s op => (run_op demo_store op s).2) ops s.

Definition granted : list (store_op (W:=unit)) :=
  [OpCreate demo_record; OpRegisterWatch "op-1" "gen-1" "mwan-deploy.service";
   OpObserve "op-1" "gen-1" passing; OpGrant "op-1" "gen-1" "reboot" (noon + 5 * Minute)].

Definition stored_status (s : dsys unit) : option (OpStatus * bool) :=
  match file s with
  | Stored r => Some (Status r, match RecLease r with Some _ => true | None => false end)
  | _ => None
  end.

Lemma run_ops_reachable ops : reachable demo_store (run_ops ops empty_store).
Proof.
  induction ops as [|op ops IH] using rev_ind; [by apply reach_start|].
  unfold run_ops. rewrite fold_left_app. by apply reach_op.
Qed.

(** An operation that granted a mutation can still be disarmed, which skips its
    restoration: once the lease is released, nothing in the record tells that one was
    granted, and the disarm succeeds, although the status is documented to end only
    operations that granted no lease. *)
Lemma disarm_after_granted_lease :
  let s1 := run_ops granted empty_store in
  let s2 := run_ops [OpRelease "op-1" "gen-1" "LEASE"; OpDisarm "op-1" "gen-1" "setup failed"] s1 in
  stored_status s1 = Some (Armed, true) /\ stored_status s2 = Some (Disarmed, false).
Proof. vm_compute. done. Qed.

Lemma reachable_records_sound_witness :
  stored_status (run_ops granted empty_store) = Some (Armed, true) /\
  exists r, file (run_ops granted empty_store) = Stored r /\ sound_record r.
Proof.
  split; [vm_compute; reflexivity|].
  destruct (reachable_records_sound demo_store _ (run_ops_reachable granted)) as (Hs & _ & _).
  destruct (file (run_ops granted empty_store)) as [| |r] eqn:E.
  - exfalso. assert (stored_status (run_ops granted empty_store) = None) as H
      by (unfold stored_status; by rewrite E). vm_compute in H. discriminate.
  - exfalso. assert (stored_status (run_ops granted empty_store) = None) as H
      by (unfold stored_status; by rewrite E). vm_compute in H. discriminate.
  - exists r. split; [reflexivity|]. apply Hs. reflexivity.
Defined.

Definition armed_store : dsys unit := mkDsys (Stored (set_UpdatedAt noon demo_record)) [] tt [].

