(* ===== verification/DeployWatchdog.v ===== *)
(** * The watchdog beside the deploy engine
      (gateway/internal/watchdog/deploy_operation.go)

    The watchdog inspects the deploy operation through the class [DeployInspector].
    Here the class is implemented by the store and the engine, in a world where other
    processes use the store between the watchdog's calls.  The theorem is the mutual
    exclusion of the two recoveries: the watchdog stops the guest for a rollback of its
    own only when no deploy operation is unresolved. *)

From S2P Require Import Prelude GoStrings Effects NptPolicy Notify Alert Tier Observation.
From S2P Require Import Rollback WatchdogState Watchdog WatchdogRules WatchdogProps.
From S2P Require Import DeployStore DeployProps DeployEngine DeployEngineProps.

Local Open Scope Z_scope.

Section Combined.
Context `{UU : !UUIDOps, DT : !DistributionTypes, OO : !ObservationOps} {W : Type}
  `{DE : !DeployEnv W, SO : !SysOps W, HO : !Host W, IN : !Interference W}.
Context (st : StoreConfig) (polls : nat).

(** ** The shared world

    The watchdog's world is the store, whether the watchdog holds the coordinator, and
    a log of what the record file held each time the watchdog stopped the guest.  Other
    processes run operations on the store before every call of the watchdog, those that
    need the coordinator only while the watchdog does not hold it. *)

Record cworld := mkCworld {
  store : dsys W;
  held : bool;
  stops : list stored;
}.

Definition on_store {A} (m : M (dsys W) A) : M cworld A := fun c =>
  let '(a, d) := m (store c) in (a, mkCworld d (held c) (stops c)).

Definition beside {A} (g : W -> A * W) : M cworld A := fun c =>
  on_store (interleave (held c) st ;; env g) c.

Definition stop_guest (v : string) : M cworld (res unit) :=
  r ← beside (VMStop v);
  modify (fun c => mkCworld (store c) (held c) (file (store c) :: stops c)) ;;
  mret r.

Definition acquire_coordinator (path : string) (poll : Z) : M cworld (res unit) :=
  r ← beside (acquire path poll);
  modify (fun c => mkCworld (store c) (is_ok r) (stops c)) ;;
  mret r.

Definition release_coordinator : M cworld unit :=
  beside release ;;
  modify (fun c => mkCworld (store c) false (stops c)).

#[local] Instance combined_ops : SysOps cworld := {
  VMStatus v := beside (VMStatus v);
  VMStart v := beside (VMStart v);
  VMStop v := stop_guest v;
  VMSnapshots v := beside (VMSnapshots v);
  VMSnapshot v n := beside (VMSnapshot v n);
  VMDelSnapshot v n := beside (VMDelSnapshot v n);
  VMDelSnapshotForce v n := beside (VMDelSnapshotForce v n);
  VMRollback v n := beside (VMRollback v n);
  GuestExec v args := beside (GuestExec v args);
  Ping bin target := beside (Ping bin target);
  GetConfigState v := beside (GetConfigState v);
  GetBGPStatus v := beside (GetBGPStatus v);
  AnnounceRoutes v := beside (AnnounceRoutes v);
  WithdrawRoutes v := beside (WithdrawRoutes v);
  VMLock v := beside (VMLock v);
  VMUnlock v := beside (VMUnlock v);
  VMHasRunningTask v := beside (VMHasRunningTask v);
  VMFSFreezeStatus v := beside (VMFSFreezeStatus v);
  VMFSFreezeThaw v := beside (VMFSFreezeThaw v);
}.

#[local] Instance combined_host : Host cworld := {
  now := beside now;
  sleep d := beside (sleep d);
  ctxDone := beside ctxDone;
  signalled := beside signalled;
  readFile p := beside (readFile p);
  writeFile p c := beside (writeFile p c);
  removeFile p := beside (removeFile p);
  statFile p := beside (statFile p);
  acquire p d := acquire_coordinator p d;
  release := release_coordinator;
  statusLatest := beside statusLatest;
  hasStatusSource := hasStatusSource (W:=W);
  addressParsers := addressParsers (W:=W);
  formatStamp := formatStamp (W:=W);
  durationString := durationString (W:=W);
}.

(** [store.Read] as the watchdog classifies its result. *)
Definition inspect (path : string) : M (dsys W) operation_read :=
  interleave true st ;;
  if negb (IsAbs path) then mret OperationError
  else
    l ← env lockRecord;
    match l with
    | Err _ => mret OperationError
    | Ok _ =>
        o ← env openRecord;
        f ← gets file;
        u ← env unlockRecord;
        match o, f with
        | Err _, _ => mret OperationError
        | Ok _, Absent => mret OperationNotExist
        | Ok _, Malformed => mret OperationError
        | Ok _, Stored r =>
            if is_ok (Record_validate r) && is_ok u
            then mret (OperationRecord (mkOperation (VMID (RecManifest r)) (Status r) (Deadline (RecManifest r))))
            else mret OperationError
        end
    end.

Definition on_record {A} (none : A) (k : OpRecord -> M (dsys W) A) : M (dsys W) A :=
  f ← gets file;
  match f with Stored r => k r | _ => mret none end.

Definition recover_reason : string :=
  "deployment watch is absent, operation deadline expired or recovery already started".

(** The watchdog verifies the watch of the record it has just read, and recovers the
    operation of that record: no other process can have replaced it meanwhile. *)
#[local] Instance engine_inspector : DeployInspector cworld := {
  readOperation path := on_store (inspect path);
  verifyWatch := on_store (on_record (Err "no record"%string) (fun r => Watch_Verify (Watch r)));
  recoverCoordinated := on_store (on_record (Err "no record"%string) (fun r =>
    RecoverCoordinated polls st true (OperationID (RecManifest r)) (Generation (RecManifest r)) recover_reason));
  isRealOps := true;
}.

Implicit Types s : wsys cworld.

(** ** An operation that claims the guest *)

(** No deploy operation claims the guest: no record, or a settled one. *)
Definition unclaimed (f : stored) : Prop :=
  match f with
  | Absent => True
  | Malformed => False
  | Stored r => settled_status (Status r) = true
  end.

Lemma unclaimed_change {A} id gen (u : OpRecord -> M (dsys W) (res (OpRecord * A))) f ar :
  unclaimed f ->
  (forall r, settled_status (Status r) = true ->
    spec (u r) f ar (fun y f' ar' => f' = f /\ ar' = ar /\ is_ok y = false)) ->
  spec (change st id gen u) f ar (fun _ f' _ => unclaimed f').
Proof.
  intros Hf Hu. apply spec_change; [done|]. intros r -> _ _.
  eapply spec_mono; [by apply Hu|]. intros [[r' a]|e] f' ar' (-> & -> & H); done.
Qed.

Ltac refused := intros r Hr; unfold is_status; destruct (Status r); try discriminate; repeat spec_step; done.

(** Only arming an operation can claim the guest, and that needs the coordinator. *)
Lemma unclaimed_other (o : other W) f ar :
  needs_coordinator o = false -> unclaimed f ->
  spec (run_other st o) f ar (fun _ f' _ => unclaimed f').
Proof.
  intros Hn Hf. destruct o; try discriminate; cbn [run_other]; apply spec_bind.
  all: eapply (spec_mono _ f ar (fun _ f' _ => unclaimed f')); [|intros; by apply spec_ret].
  - apply unclaimed_change; [done|refused].
  - unfold RegisterWatch. repeat spec_step; try done. apply unclaimed_change; [done|refused].
  - apply unclaimed_change; [done|refused].
  - apply unclaimed_change; [done|refused].
  - apply unclaimed_change; [done|refused].
  - apply spec_locked; [done|]. apply spec_bind, spec_read; [intros; by apply spec_ret|].
    intros r -> _. simpl in Hf. unfold is_status. destruct (Status r) eqn:Hs; try discriminate;
      repeat spec_step; by simpl; rewrite ?Hs.
Qed.

Lemma unclaimed_interleave (d : dsys W) :
  unclaimed (file d) -> unclaimed (file (interleave true st d).2).
Proof.
  intros Hd. unfold interleave, mbind, M_bind, env. destruct (others (dworld d)) as [l w].
  match goal with |- context [forM ?l' _ ?d'] => set (d0 := d'); set (l0 := l') end.
  assert (Forall (fun o => needs_coordinator o = false) l0) as Hl.
  { apply Forall_forall. intros o Ho. apply list_elem_of_In, filter_In in Ho as [_ Ho]. by destruct (needs_coordinator o). }
  assert (unclaimed (file d0)) as Hd0 by done. clearbody d0 l0. clear Hd. revert d0 Hd0.
  induction Hl as [|o l' Ho Hl IH]; intros d0 Hd0; [done|]. unfold forM. cbn [foldM]. unfold mbind, M_bind.
  pose proof (unclaimed_other o (file d0) (archives d0) Ho Hd0 d0 eq_refl eq_refl) as H.
  destruct (run_other st o d0) as [[] d1]. by apply IH.
Qed.

(** ** The watchdog under the coordinator *)

Lemma inspect_classifies path (d : dsys W) :
  let '(o, d') := inspect path d in
  match o with
  | OperationNotExist => file d' = Absent
  | OperationRecord o => exists r, file d' = Stored r /\ op_Status o = Status r
  | OperationError => True
  end.
Proof.
  unfold inspect, mbind, M_bind. destruct (interleave true st d) as [[] d1].
  destruct (negb (IsAbs path)); [done|]. unfold env at 1.
  destruct (lockRecord (dworld d1)) as [[[]|e] w2]; [|done]. unfold env at 1. cbn [file dworld archives dtrace].
  destruct (openRecord w2) as [o w3]. unfold gets. cbn [file dworld archives dtrace].
  unfold env. cbn [file dworld archives dtrace]. destruct (unlockRecord w3) as [u w4].
  destruct o as [[]|e]; [|done]. destruct (file d1) as [| |r]; [done|done|].
  destruct (_ && _); [|done]. by exists r.
Qed.

(** The classification is that of the store's own [Read]: same calls, same state, and
    the record exactly when [Read] returns one. *)
Lemma inspect_is_Read path poll d :
  let x := Read (mkStoreConfig path poll) (interleave true st d).2 in
  (inspect path d).2 = x.2 /\
  match x.1 with
  | Ok r => (inspect path d).1
      = OperationRecord (mkOperation (VMID (RecManifest r)) (Status r) (Deadline (RecManifest r)))
  | Err _ => forall o, (inspect path d).1 <> OperationRecord o
  end.
Proof.
  unfold inspect, Read, locked, read, mbind, M_bind, mret, M_ret, gets, env.
  destruct (interleave true st d) as [[] d1]. cbn [fst snd StorePath].
  destruct (negb (IsAbs path)); [by split|].
  destruct (lockRecord (dworld d1)) as [[[]|e] w2]; [|by split]. cbn.
  destruct (openRecord w2) as [[[]|e] w3]; cbn; [|by destruct (unlockRecord w3) as [[[]|?] ?]; split].
  destruct (file d1) as [| |r]; cbn; try by destruct (unlockRecord w3) as [[[]|?] ?]; split.
  destruct (Record_validate r) as [[]|?]; cbn; by destruct (unlockRecord w3) as [[[]|?] ?]; split.
Qed.

(** What a program that does not stop the guest leaves alone. *)
Definition calm s s' : Prop :=
  held (world s') = held (world s) /\ stops (world s') = stops (world s).
#[local] Instance calm_preorder : PreOrder calm.
Proof. split; unfold calm; [done|]. intros s1 s2 s3 [] []. split; congruence. Qed.

Lemma calm_call {A} (m : M (dsys W) A) ev : sat (call (on_store m) ev) calm.
Proof. intros s. unfold call, on_store, calm. by destruct (m (store (world s))). Qed.
Lemma calm_peek {A} (g : W -> A * W) : sat (peek (beside g)) calm.
Proof. intros s. unfold peek, beside, on_store, calm. repeat case_match; by simplify_eq/=. Qed.

Lemma inspect_calm : sat inspectDeployOperation calm.
Proof.
  unfold inspectDeployOperation, cfgOf, field, SetRollingBackM, getNow, upd, record.
  sat_steps ltac:(first [apply calm_call | apply calm_peek | intros s; split; reflexivity]).
Qed.

Lemma wp_on_store {A} (m : M (dsys W) A) ev (Q : A -> wsys cworld -> Prop) s :
  (forall a d, m (store (world s)) = (a, d) ->
    Q a (mkWsys (wd s) (mkCworld d (held (world s)) (stops (world s))) (ev a :: trace s))) ->
  wp (call (on_store m) ev) Q s.
Proof. intros H. unfold wp, call, on_store. destruct (m (store (world s))) as [a d]. by apply H. Qed.

(** The inspection lets the watchdog proceed only if no operation claims the guest. *)
Lemma inspect_free s :
  wp inspectDeployOperation (fun busy s' => calm s s' /\
    (busy = false -> unclaimed (file (store (world s'))))) s.
Proof.
  split; [apply inspect_calm|]. change (wp inspectDeployOperation
    (fun busy s' => busy = false -> unclaimed (file (store (world s')))) s).
  unfold inspectDeployOperation, cfgOf, SetRollingBackM. wp_step. wp_step. wp_step.
  apply wp_on_store. intros o d' Ho.
  match type of Ho with inspect ?p ?d = _ => pose proof (inspect_classifies p d) as Hi end.
  rewrite Ho in Hi.
  destruct o as [o| |].
  - destruct Hi as (r & Hf & Hs). wp_step.
    { wp_step. cbn [world store]. intros _. rewrite Hf. simpl. rewrite <- Hs. by destruct (op_Status o). }
    unfold getNow. by wp_run.
  - wp_step. intros _. cbn [world store]. by rewrite Hi.
  - by wp_step.
Qed.

(** The coordinator is held and no operation claims the guest. *)
Definition guarded (c : cworld) : Prop := held c = true /\ unclaimed (file (store c)).

Definition stopped_unclaimed s s' : Prop :=
  exists new, stops (world s') = new ++ stops (world s) /\ Forall unclaimed new.

(** Once guarded, a program keeps it so and stops the guest only then. *)
Definition excludes s s' : Prop :=
  guarded (world s) -> guarded (world s') /\ stopped_unclaimed s s'.
#[local] Instance excludes_preorder : PreOrder excludes.
Proof.
  split; unfold excludes.
  - intros s Hg. split; [done|]. by exists [].
  - intros s1 s2 s3 H12 H23 Hg. destruct (H12 Hg) as [Hg2 (n1 & Hn1 & Hu1)].
    destruct (H23 Hg2) as [Hg3 (n2 & Hn2 & Hu2)]. split; [done|].
    exists (n2 ++ n1). rewrite Hn2, Hn1, app_assoc. split; [done|]. by apply Forall_app.
Qed.

Lemma guarded_beside {A} (g : W -> A * W) c :
  guarded c -> guarded (beside g c).2 /\ stops (beside g c).2 = stops c.
Proof.
  intros [Hh Hu]. unfold beside, on_store, mbind, M_bind, env. rewrite Hh.
  pose proof (unclaimed_interleave _ Hu) as Hi. destruct (interleave true st (store c)) as [[] d].
  destruct (g (dworld d)). done.
Qed.

Lemma excludes_of {A} (m : M cworld A) ev :
  (forall c, guarded c -> guarded (m c).2 /\ exists new, stops (m c).2 = new ++ stops c /\ Forall unclaimed new) ->
  sat (call m ev) excludes.
Proof. intros H s Hg. specialize (H _ Hg). unfold call, stopped_unclaimed. by destruct (m (world s)). Qed.

Lemma excludes_call {A} (g : W -> A * W) ev : sat (call (beside g) ev) excludes.
Proof.
  apply excludes_of. intros c Hg. destruct (guarded_beside g c Hg) as [Hg' ->]. split; [done|]. by exists [].
Qed.
Lemma excludes_stop v ev : sat (call (stop_guest v) ev) excludes.
Proof.
  apply excludes_of. intros c Hg. unfold stop_guest, mbind, M_bind.
  destruct (guarded_beside (VMStop v) c Hg) as [[Hh Hu] Hs].
  destruct (beside (VMStop v) c) as [r c']. cbn in *. rewrite Hs. split; [done|].
  exists [file (store c')]. split; [done|]. by constructor.
Qed.
Lemma excludes_peek {A} (g : W -> A * W) : sat (peek (beside g)) excludes.
Proof.
  intros s Hg. destruct (guarded_beside g _ Hg) as [Hg' Hs]. unfold peek, stopped_unclaimed.
  destruct (beside g (world s)) as [a c]. cbn in *. split; [done|]. rewrite Hs. by exists [].
Qed.
Lemma excludes_same (m : M (wsys cworld) unit) : (forall s, world (m s).2 = world s) -> sat m excludes.
Proof. intros H s Hg. unfold stopped_unclaimed. rewrite H. split; [done|]. by exists []. Qed.

Ltac excludes_steps :=
  sat_steps ltac:(first [ apply excludes_call | apply excludes_stop | apply excludes_peek | by apply excludes_same ]).

Lemma excludes_rollback_marked deployTS snap : sat (rollback_marked deployTS snap) excludes.
Proof.
  unfold rollback_marked, executeRollbackVM, rollback_finish, recordRollbackResult, takeShutdown,
    flushProbeLog, cfgOf, vmid, field, getNow, vmStop, vmStatus, vmSnapshots,
    vmDelSnapshot, vmRollback, vmStart, osWriteFile, osRemove, osReadFile.
  excludes_steps.
Qed.

Lemma excludes_rollback_locked deployTS snap s :
  held (world s) = true -> stopped_unclaimed s (rollback_locked deployTS snap s).2.
Proof.
  intros Hh. change (wp (rollback_locked deployTS snap) (fun _ s' => stopped_unclaimed s s') s).
  unfold rollback_locked. wp_step. eapply wp_mono; [apply inspect_free|].
  intros [|] s2 [[Hc Hs] Hb]; [wp_step; by exists []|]. specialize (Hb eq_refl).
  eapply wp_sat with (R := excludes).
  { unfold alreadyDone, SetRollingBackM, cfgOf, field, osReadFile.
    sat_steps ltac:(first [ apply excludes_rollback_marked | apply excludes_call | by apply excludes_same ]). }
  unfold wp. intros H. unfold stopped_unclaimed in *. rewrite <- Hs. apply H. split; [congruence|done].
Qed.

Lemma beside_stops {A} (g : W -> A * W) c : stops (beside g c).2 = stops c.
Proof. unfold beside, on_store. repeat case_match; by simplify_eq/=. Qed.

Lemma wp_acquire path poll ev (Q : res unit -> wsys cworld -> Prop) s :
  (forall r s', held (world s') = is_ok r -> stops (world s') = stops (world s) -> Q r s') ->
  wp (call (acquire_coordinator path poll) ev) Q s.
Proof.
  intros H. unfold wp, call, acquire_coordinator, mbind, M_bind.
  pose proof (beside_stops (acquire path poll) (world s)) as Hs.
  destruct (beside (acquire path poll) (world s)) as [r c]. by apply H.
Qed.

Lemma release_stops ev s : stops (world (call release_coordinator ev s).2) = stops (world s).
Proof.
  unfold call, release_coordinator, mbind, M_bind.
  pose proof (beside_stops release (world s)) as Hs. by destruct (beside release (world s)) as [[] c].
Qed.

(** C37. The watchdog and the deploy engine never recover the guest at the same time:
    whenever the watchdog's rollback, run against the real operation store beside any
    other processes, stops the guest, no deploy operation claims the guest at that
    moment: none is on file, or the one on file is settled.  While one is armed,
    recovering or failed, or its record cannot be read, the watchdog leaves the guest
    to it. *)
Theorem rollback_only_without_operation deployTS snap s :
  exists new,
    stops (world (rollback deployTS snap s).2) = new ++ stops (world s) /\
    Forall unclaimed new.
Proof.
  change (wp (rollback deployTS snap) (fun _ s' => stopped_unclaimed s s') s).
  unfold rollback, cfgOf, Acquire. do 3 wp_step.
  apply wp_acquire. intros [[]|e] s1 Hh Hs; [|wp_step; unfold stopped_unclaimed; rewrite Hs; by exists []].
  wp_step. destruct (excludes_rollback_locked deployTS snap s1 Hh) as (new & Hn & Hu).
  exists new. split; [|exact Hu]. rewrite <- Hs, <- Hn. apply release_stops.
Qed.
End Combined.
