(* ===== verification/Intent.v ===== *)
(** * Interface intent (gateway/internal/interfaceintent, internal/connectionid)

    The configured connections every module of the interface manager works from: who
    owns an interface, what it is for, how each address family is set up, and the policy
    rules a provider needs.  Optional Go pointers are [option]s; the enumerations of the
    package are Go strings. *)

From S2P Require Import Prelude GoStrings NptPolicy.

Local Open Scope Z_scope.

(** ** Identities and enumerations *)

Definition Resolve (explicit provider iface : string) : string :=
  if negb (bool_decide (explicit = ""%string)) then explicit
  else if negb (bool_decide (provider = ""%string)) then provider
  else iface.

Definition OwnerExternal : string := "external".
Definition OwnerNetworkd : string := "networkd".
Definition OwnerMWAN : string := "mwan".

(** [Role], a bit set of eight bits. *)
Definition RoleProvider : Z := 1.
Definition RoleParent : Z := 2.
Definition RoleInternal : Z := 4.
Definition RoleManagement : Z := 8.

Definition has_role (roles role : Z) : bool := negb (Z.land roles role =? 0).

Definition KindPhysical : string := "physical".
Definition KindVLAN : string := "vlan".
Definition KindBridge : string := "bridge".
Definition KindTunnel : string := "tunnel".

(** ** Connections *)

Record PCIAddress := mkPCIAddress { pci_Domain : Z; pci_Bus : Z; pci_Device : Z; pci_Function : Z }.

#[export] Instance PCIAddress_eq_dec : EqDecision PCIAddress.
Proof. solve_decision. Defined.

Record NativeOffloadController := mkNativeController {
  ctl_PCI : PCIAddress;
  ReceiverVF : Z;
  DataVF : Z;
  PhysicalMiss : bool;
}.

Record NativeOffloadBinding := mkNativeBinding {
  DataPCI : PCIAddress;
  DataMAC : list Z;
  Controller : option NativeOffloadController;
}.

Record VXLAN := mkVXLAN {
  vx_VNI : Z;
  SourcePortMin : Z;
  SourcePortMax : Z;
  DestinationPort : Z;
  vx_TOS : Z;
}.

Record Tunnel := mkTunnel {
  tun_Protocol : string;
  Underlay : string;
  tun_Remote : Addr;
  tun_Local : Addr;
  tun_TTL : option Z;
  tun_VXLAN : option VXLAN;
}.

Record Match := mkMatch { match_Driver : string; match_HardwareAddress : string }.
Record VLAN := mkVLAN { vlan_Parent : string; vlan_ID : Z }.

Record Link := mkLink {
  link_Kind : string;
  link_Match : Match;
  link_HardwareAddress : string;
  link_MTU : option Z;
  link_VLAN : option VLAN;
  BridgeMaster : string;
  link_Tunnel : option Tunnel;
  NativeOffload : option NativeOffloadBinding;
}.

Record Address := mkAddress { adr_Prefix : Prefix; adr_Purpose : string }.

Record RouteIntent := mkRouteIntent {
  ri_Destination : Prefix;
  ri_Gateway : Addr;
  ri_TableID : Z;
  ri_Metric : Z;
}.

Record Family := mkFamily {
  fam_Enabled : option bool;
  Forwarding : option bool;
  fam_Addresses : list Address;
  fam_DHCP : option bool;
  fam_Gateway : Addr;
  fam_RouteMetric : option Z;
  fam_Routes : list RouteIntent;
  fam_DNS : list Addr;
  SearchDomains : list string;
}.

Record DHCPv4 := mkDHCPv4 {
  d4_ClientID : string;
  d4_UseDNS : option bool;
  d4_UseRoutes : option bool;
}.

Record IPv4 := mkIPv4 {
  v4_Family : Family;
  SourceAddresses : list Addr;
  v4_DHCPv4 : option DHCPv4;
}.

Record DHCPv6 := mkDHCPv6 {
  d6_DUIDType : string;
  d6_DUID : string;
  IANAIAID : option Z;
  IAPDIAID : option Z;
  RequestAddress : option bool;
  RequestPrefix : option bool;
  d6_WithoutRA : string;
  d6_UseDNS : option bool;
}.

Record Delegation := mkDelegation {
  del_Hint : Prefix;
  del_DUIDType : string;
  del_DUID : string;
  del_WithoutRA : string;
  UseDelegatedPrefix : option bool;
  RouterLifetimeSeconds : option Z;
  del_IAID : option Z;
}.

Record ForwardingAddress := mkForwardingAddress { fwd_Address : Addr; fwd_Delivery : string }.

Record IPv6 := mkIPv6 {
  v6_Family : Family;
  AcceptRA : option bool;
  AutoConf : option bool;
  AcceptRADefaultRoute : option bool;
  UseRADNS : option bool;
  v6_Delegation : option Delegation;
  v6_DHCPv6 : option DHCPv6;
  ForwardingAddresses : list ForwardingAddress;
}.

Record UnitEntry := mkUnitEntry { ue_Index : Z; ue_Key : string; ue_Value : string }.
Record UnitSection := mkUnitSection { us_Index : Z; us_Name : string; us_Entries : list UnitEntry }.
Record UnitFile := mkUnitFile { uf_Kind : string; uf_Sections : list UnitSection }.

Record Connection := mkConnection {
  conn_ID : string;
  conn_Name : string;
  conn_Type : string;
  conn_Enabled : option bool;
  conn_Roles : Z;
  conn_Owner : string;
  conn_Link : option Link;
  conn_IPv4 : option IPv4;
  conn_IPv6 : option IPv6;
  LeaseStore : string;
  conn_Networkd : list UnitFile;
}.

Record Assignment := mkAssignment {
  as_ConnectionID : string;
  as_Family : string;
  as_Kind : string;
  as_Source : string;
  as_Purpose : string;
  as_Value : Prefix;
  as_Route : option RouteIntent;
  as_ClientID : string;
  as_DNS : list Addr;
  as_DUID : string;
  as_IAID : option Z;
  AcquiredAt : Z;
  RenewAt : option Z;
  RebindAt : option Z;
  PreferredUntil : option Z;
  ValidUntil : option Z;
  as_Valid : bool;
}.

(** [flag == nil || *flag] and [flag != nil && !*flag]. *)
Definition unless_false (flag : option bool) : bool := match flag with Some b => b | None => true end.
Definition is_false (flag : option bool) : bool := match flag with Some b => negb b | None => false end.

Lemma unless_false_negb flag : unless_false flag = negb (is_false flag).
Proof. by destruct flag as [[]|]. Qed.

(** ** Configured routes (routes.go)

    The messages leave out the values the code quotes in them. *)

Definition addr_valid (a : Addr) : bool := match a with AddrNone => false | _ => true end.
Definition IsUnspecified (a : Addr) : bool :=
  match a with
  | AddrNone => false
  | Addr4 b => bool_decide (b = repeat 0 4)
  | Addr6 b z => bool_decide (b = repeat 0 16 /\ z = ""%string)
  end.
Definition IsMulticast (a : Addr) : bool :=
  match a with
  | AddrNone => false
  | Addr4 b => Z.land (byte_at b 0) 240 =? 224
  | Addr6 b _ =>
      if Is4In6 a then Z.land (byte_at b 12) 240 =? 224 else byte_at b 0 =? 255
  end.

Definition main_table : Z := 254.

Definition route_destination_bad (family : string) (d : Prefix) : bool :=
  negb (IsValid d) || negb (bool_decide (d = Masked d)) || Is4In6 (pfx_addr d)
  || negb (Bool.eqb (Is4 (pfx_addr d)) (bool_decide (family = "ipv4"%string))).

Definition route_gateway_bad (family : string) (g : Addr) : bool :=
  addr_valid g &&
  (Is4In6 g || negb (Bool.eqb (Is4 g) (bool_decide (family = "ipv4"%string))) || IsUnspecified g
   || IsMulticast g || has_zone g).

(** One iteration of the loop; [seen] holds the destinations so far. *)
Definition validate_route (family : string) (defaultGateway : bool) (seen : list Prefix)
    (route : RouteIntent) : res unit :=
  let d := ri_Destination route in
  (check reject_if (route_destination_bad family d)
           (family +:+ " route destination must be a canonical same-family network prefix")%string ;;
   check reject_if (negb (ri_TableID route =? main_table))
           (family +:+ " configured routes require table-id 254")%string ;;
   check reject_if (bool_decide (d ∈ seen) || ((pfx_bits d =? 0) && defaultGateway))
           (family +:+ " route destination is configured twice")%string ;;
   reject_if (route_gateway_bad family (ri_Gateway route))
           (family +:+ " route has invalid same-family gateway")%string)%go.

Fixpoint validate_routes_from (family : string) (defaultGateway : bool) (seen : list Prefix)
    (routes : list RouteIntent) : res unit :=
  match routes with
  | [] => Ok tt
  | r :: rs => (check validate_route family defaultGateway seen r ;;
                validate_routes_from family defaultGateway (ri_Destination r :: seen) rs)%go
  end.

Definition ValidateConfiguredRoutes (family : string) (routes : list RouteIntent)
    (defaultGateway : bool) : res unit :=
  validate_routes_from family defaultGateway [] routes.

(** ** Policy rules (policy.go) *)

Definition PolicySourceNone : string := "none".
Definition PolicySourceConfigured : string := "configured".
Definition PolicySourceRuntime : string := "runtime".
Definition PolicyRuleFwmark : string := "fwmark".
Definition PolicyRuleSource : string := "source".
Definition PolicyConditionTranslation : string := "translation-ready".
Definition PolicyConditionGateway : string := "default-gateway-discovered".
Definition PolicyConditionHealth : string := "provider-healthy".
Definition PolicyConditionSourcePrefix : string := "translated-source-published".
Definition PolicyFamilyIPv4 : string := "ipv4".
Definition PolicyFamilyIPv6 : string := "ipv6".

Record PolicySource := mkPolicySource { ps_Kind : string; ps_Prefix : Prefix }.

Definition no_prefix : Prefix := mkPrefix AddrNone (-1).

(** [netip.ParseAddr] is the argument [parse]. *)
Definition IPv4PolicySource (parse : string -> option Addr) (address : string) : PolicySource :=
  if bool_decide (address = ""%string) then mkPolicySource PolicySourceNone no_prefix
  else mkPolicySource PolicySourceConfigured
         match parse address with Some a => PrefixFrom a (BitLen a) | None => no_prefix end.

Definition IPv6PolicySource (prefixTranslation externalConfigured : bool) (external : Prefix) : PolicySource :=
  if negb prefixTranslation then mkPolicySource PolicySourceNone no_prefix
  else if externalConfigured then mkPolicySource PolicySourceConfigured (Masked external)
  else mkPolicySource PolicySourceRuntime no_prefix.

Record PolicyProvider := mkPolicyProvider {
  pp_ConnectionID : string;
  pp_TableID : Z;
  pp_Mark : Z;
  MarkPriority : Z;
  SourcePriority : Z;
  pp_IPv4 : option PolicySource;
  pp_IPv6 : option PolicySource;
}.

Definition NewPolicyProvider (parse : string -> option Addr) (id : string)
    (tableID mark markPriority sourcePriority : Z) (ipv4Configured : bool) (ipv4Address : string)
    (ipv6Configured prefixTranslation externalConfigured : bool) (external : Prefix) : PolicyProvider :=
  mkPolicyProvider id tableID mark markPriority sourcePriority
    (if ipv4Configured then Some (IPv4PolicySource parse ipv4Address) else None)
    (if ipv6Configured then Some (IPv6PolicySource prefixTranslation externalConfigured external) else None).

Record PolicyRule := mkPolicyRule {
  pr_ConnectionID : string;
  pr_Family : string;
  pr_Kind : string;
  pr_Priority : Z;
  pr_TableID : Z;
  pr_Mark : Z;
  pr_Source : Prefix;
  pr_SourceKind : string;
  ActivationConditions : list string;
}.

Definition PolicyFamilyConditions : list string :=
  [PolicyConditionTranslation; PolicyConditionGateway; PolicyConditionHealth].

(** The rules of one family. *)
Definition family_policy_rules (p : PolicyProvider) (name : string) (source : option PolicySource) : list PolicyRule :=
  match source with
  | None => []
  | Some s =>
      mkPolicyRule (pp_ConnectionID p) name PolicyRuleFwmark (MarkPriority p) (pp_TableID p) (pp_Mark p)
        no_prefix PolicySourceNone PolicyFamilyConditions ::
      if bool_decide (ps_Kind s = PolicySourceConfigured) || bool_decide (ps_Kind s = PolicySourceRuntime) then
        [mkPolicyRule (pp_ConnectionID p) name PolicyRuleSource (SourcePriority p) (pp_TableID p) 0
           (if bool_decide (ps_Kind s = PolicySourceConfigured) then ps_Prefix s else no_prefix)
           (ps_Kind s)
           (PolicyFamilyConditions ++
            (if bool_decide (name = PolicyFamilyIPv6) then [PolicyConditionSourcePrefix] else []))]
      else []
  end.

Definition ConfiguredPolicyRules (p : PolicyProvider) : list PolicyRule :=
  family_policy_rules p PolicyFamilyIPv4 (pp_IPv4 p) ++
  family_policy_rules p PolicyFamilyIPv6 (pp_IPv6 p).

(** ** Masked prefixes *)

(** The prefixes [ParsePrefix] and [Masked] give. *)
Definition canon (p : Prefix) : Prop := IsValid p = true /\ Masked p = p.

Lemma mask_bytes_idem bits b : mask_bytes bits (mask_bytes bits b) = mask_bytes bits b.
Proof.
  unfold mask_bytes. apply list_eq. intros i. rewrite !list_lookup_imap. destruct (b !! i) as [x|]; cbn; [|done].
  by rewrite <- Z.land_assoc, Z.land_diag.
Qed.

Lemma Masked_canon p : IsValid p = true -> addr_valid (pfx_addr p) = true -> canon (Masked p).
Proof.
  destruct p as [[|b|b z] n]; unfold canon, Masked, IsValid; cbn; intros Hn Ha; [done|..];
    rewrite Hn; cbn; by rewrite ?Hn, ?mask_bytes_idem.
Qed.
