(* ===== verification/BgpConfig.v ===== *)
(** * External BGP sessions: configuration
      (gateway/internal/bgpsession/config.go, internal/bgp/session_state.go)

    The configuration of one external BGP session, its validation, and the snapshot a
    running session reports.  A Go [uint8], [uint16] or [uint32] is a [Z]; nothing here
    computes with one.  The messages of the validation leave out the values the code
    prints in them. *)

From S2P Require Import Prelude GoStrings NptPolicy Intent.

Local Open Scope Z_scope.

(** ** Data *)

Definition ExportAlways : Z := 1.
Definition ExportBackup : Z := 2.
Definition MinHoldSeconds : Z := 3.
Definition MinConnectRetrySeconds : Z := 2.
Definition MaxGracefulRestartSeconds : Z := 4095.
Definition KernelDefaultIPv6Metric : Z := 1024.
Definition maxIPv6PrefixLength : Z := 128.
Definition maxHoldSeconds : Z := 65535.

Definition ExportMode_String (m : Z) : string :=
  if m =? ExportAlways then "always" else if m =? ExportBackup then "backup" else "".

Definition ParseExportMode (text : string) : Z * bool :=
  match List.find (fun mode => bool_decide (ExportMode_String mode = text)) [ExportAlways; ExportBackup] with
  | Some mode => (mode, true)
  | None => (0, false)
  end.

Definition FamilyIPv6Unicast : Z := 1.
Definition familyIPv6UnicastText : string := "ipv6-unicast".
Definition Family_String (f : Z) : string :=
  if f =? FamilyIPv6Unicast then familyIPv6UnicastText else "".
Definition ParseFamily (text : string) : Z * bool :=
  if bool_decide (text = familyIPv6UnicastText) then (FamilyIPv6Unicast, true) else (0, false).

Record Community := mkCommunity { com_ASN : Z; com_Value : Z }.
Record LargeCommunity := mkLargeCommunity { GlobalAdmin : Z; LocalData1 : Z; LocalData2 : Z }.

Definition Community_String (c : Community) : string :=
  itoa (com_ASN c) +:+ ":" +:+ itoa (com_Value c).
Definition LargeCommunity_String (c : LargeCommunity) : string :=
  itoa (GlobalAdmin c) +:+ ":" +:+ itoa (LocalData1 c) +:+ ":" +:+ itoa (LocalData2 c).

Record ImportRule := mkImportRule { im_Prefix : Prefix; MinLength : Z; MaxLength : Z }.

Record ExportRule := mkExportRule {
  ex_Prefix : Prefix;
  ex_Mode : Z;
  LocalPreference : option Z;
  ex_MED : option Z;
  PrependCount : Z;
  Communities : list Community;
  LargeCommunities : list LargeCommunity;
  ex_NextHop : Addr;
}.

Record SessionConfig := mkSessionConfig {
  sc_Name : string;
  RouterID : Addr;
  Families : list Z;
  LocalASN : Z;
  RemoteASN : Z;
  PeerAddress : Addr;
  PeerPort : Z;
  LocalAddress : Addr;
  sc_Interface : string;
  MultihopTTL : Z;
  KeepaliveSeconds : Z;
  HoldSeconds : Z;
  ConnectRetrySeconds : Z;
  GracefulRestartSeconds : Z;
  Import_ : list ImportRule;
  Export_ : list ExportRule;
  Tables : list Z;
  RouteMetric : Z;
}.

Definition IsInternal (c : SessionConfig) : bool := LocalASN c =? RemoteASN c.

(** ** Validation *)

Definition ValidateRouterID (routerID : Addr) : res unit :=
  reject_if (negb (Is4 routerID) || IsUnspecified routerID) "router ID is not a usable IPv4 address".

Definition validateSessionIdentity (cfg : SessionConfig) : res unit :=
  (check reject_if (LocalASN cfg =? 0) "local ASN is required" ;;
   reject_if (RemoteASN cfg =? 0) "remote ASN is required")%go.

Definition has_tables (cfg : SessionConfig) : bool := negb (bool_decide (Tables cfg = [])).

Definition validateSessionTransport (cfg : SessionConfig) : res unit :=
  (check reject_if (negb (addr_valid (PeerAddress cfg)) || IsUnspecified (PeerAddress cfg))
           "peer address is not a usable address" ;;
   check reject_if (PeerPort cfg =? 0) "peer port is required" ;;
   check reject_if (addr_valid (LocalAddress cfg)
           && negb (Bool.eqb (Is4 (LocalAddress cfg)) (Is4 (PeerAddress cfg))))
           "local address and peer address use different address families" ;;
   check reject_if (KeepaliveSeconds cfg =? 0) "keepalive timer is required" ;;
   check reject_if ((HoldSeconds cfg <? MinHoldSeconds) || (maxHoldSeconds <? HoldSeconds cfg))
           "hold timer is outside the range" ;;
   check reject_if (HoldSeconds cfg <=? KeepaliveSeconds cfg)
           "keepalive timer must be shorter than hold timer" ;;
   check reject_if (negb (ConnectRetrySeconds cfg =? 0) && (ConnectRetrySeconds cfg <? MinConnectRetrySeconds))
           "connect retry timer is too short" ;;
   check reject_if (MaxGracefulRestartSeconds <? GracefulRestartSeconds cfg)
           "graceful restart time is too long" ;;
   check reject_if (has_tables cfg && bool_decide (sc_Interface cfg = ""%string))
           "interface is required when kernel tables are configured" ;;
   check reject_if (has_tables cfg
           && ((RouteMetric cfg =? 0) || (RouteMetric cfg =? KernelDefaultIPv6Metric)))
           "route metric collides with the kernel default metric" ;;
   check_all (fun tableID => reject_if (tableID <=? 0) "kernel table is not a valid table ID") (Tables cfg))%go.

Fixpoint validated_families_from (validated families : list Z) : res (list Z) :=
  match families with
  | [] => Ok validated
  | f :: fs =>
      if bool_decide (Family_String f = ""%string) then Err "address family is not supported"
      else if bool_decide (f ∈ validated) then Err "address family appears more than once"
      else validated_families_from (validated ++ [f]) fs
  end.

Definition validatedFamilies (families : list Z) : res (list Z) :=
  match families with
  | [] => Err "at least one address family is required"
  | _ => validated_families_from [] families
  end.

Definition validIPv6Prefix (p : Prefix) : bool :=
  IsValid p && Is6 (pfx_addr p) && negb (Is4In6 (pfx_addr p)).

Definition validated_import_rule (rule : ImportRule) : res ImportRule :=
  let p := im_Prefix rule in
  if negb (validIPv6Prefix p) then Err "import prefix is not an IPv6 prefix"
  else if (MinLength rule <? pfx_bits p) || (MaxLength rule <? MinLength rule)
          || (maxIPv6PrefixLength <? MaxLength rule)
  then Err "import prefix has inconsistent length bounds"
  else Ok (mkImportRule (Masked p) (MinLength rule) (MaxLength rule)).

Fixpoint validatedImportRules (rules : list ImportRule) : res (list ImportRule) :=
  match rules with
  | [] => Ok []
  | r :: rs => (r' <-? validated_import_rule r ;;
                rs' <-? validatedImportRules rs ;; Ok (r' :: rs'))%go
  end.

Definition with_prefix (p : Prefix) (r : ExportRule) : ExportRule :=
  mkExportRule p (ex_Mode r) (LocalPreference r) (ex_MED r) (PrependCount r) (Communities r)
    (LargeCommunities r) (ex_NextHop r).

Definition validated_export_rule (internal : bool) (seen : list Prefix) (rule : ExportRule) : res ExportRule :=
  if negb (validIPv6Prefix (ex_Prefix rule)) then Err "export prefix is not an IPv6 prefix"
  else
    let rule := with_prefix (Masked (ex_Prefix rule)) rule in
    if bool_decide (ex_Prefix rule ∈ seen) then Err "export prefix is configured more than once"
    else if negb (ex_Mode rule =? ExportAlways) && negb (ex_Mode rule =? ExportBackup)
    then Err "export prefix has no valid export mode"
    else if negb (Is6 (ex_NextHop rule)) || Is4In6 (ex_NextHop rule) || IsUnspecified (ex_NextHop rule)
    then Err "export prefix next hop is not an IPv6 address"
    else if internal && (0 <? PrependCount rule)
    then Err "export prefix prepends the local ASN on an iBGP session"
    else Ok rule.

Fixpoint validated_export_rules_from (internal : bool) (seen : list Prefix) (rules : list ExportRule) :
    res (list ExportRule) :=
  match rules with
  | [] => Ok []
  | r :: rs => (r' <-? validated_export_rule internal seen r ;;
                rs' <-? validated_export_rules_from internal (ex_Prefix r' :: seen) rs ;;
                Ok (r' :: rs'))%go
  end.

Definition validatedExportRules (rules : list ExportRule) (internal : bool) : res (list ExportRule) :=
  validated_export_rules_from internal [] rules.

Definition with_validated (families : list Z) (im : list ImportRule) (ex : list ExportRule)
    (c : SessionConfig) : SessionConfig :=
  mkSessionConfig (sc_Name c) (RouterID c) families (LocalASN c) (RemoteASN c) (PeerAddress c)
    (PeerPort c) (LocalAddress c) (sc_Interface c) (MultihopTTL c) (KeepaliveSeconds c)
    (HoldSeconds c) (ConnectRetrySeconds c) (GracefulRestartSeconds c) im ex (Tables c) (RouteMetric c).

Definition Validated (cfg : SessionConfig) : res SessionConfig :=
  (check reject_if (bool_decide (sc_Name cfg = ""%string)) "name is required" ;;
   check validateSessionIdentity cfg ;;
   check validateSessionTransport cfg ;;
   families <-? validatedFamilies (Families cfg) ;;
   im <-? validatedImportRules (Import_ cfg) ;;
   ex <-? validatedExportRules (Export_ cfg) (IsInternal cfg) ;;
   Ok (with_validated families im ex cfg))%go.

(** ** The reported state *)

Definition MaxSessionRejections : nat := 32.

Record Rejection := mkRejection { rej_Prefix : Prefix; rej_Reason : string }.

Record SessionState := mkSessionState {
  ss_Name : string;
  FSMState : string;
  Established : bool;
  UpSince : Z;
  Accepted : list Prefix;
  Advertised : list Prefix;
  Retained : list Prefix;
  Rejected : list Rejection;
}.

(** ** What validation establishes *)

Definition import_wf (rule : ImportRule) : Prop :=
  canon (im_Prefix rule) /\ Is6 (pfx_addr (im_Prefix rule)) = true /\
  pfx_bits (im_Prefix rule) <= MinLength rule <= MaxLength rule /\ MaxLength rule <= maxIPv6PrefixLength.

Definition export_wf (internal : bool) (rule : ExportRule) : Prop :=
  canon (ex_Prefix rule) /\ Is6 (pfx_addr (ex_Prefix rule)) = true /\
  (ex_Mode rule = ExportAlways \/ ex_Mode rule = ExportBackup) /\
  Is6 (ex_NextHop rule) = true /\ IsUnspecified (ex_NextHop rule) = false /\ (internal = true -> PrependCount rule <= 0).

Record session_wf (c : SessionConfig) : Prop := mkSessionWf {
  wf_name : sc_Name c <> ""%string;
  wf_asn : LocalASN c <> 0 /\ RemoteASN c <> 0;
  wf_peer : addr_valid (PeerAddress c) = true /\ IsUnspecified (PeerAddress c) = false /\ PeerPort c <> 0;
  wf_timers : 0 <> KeepaliveSeconds c /\ KeepaliveSeconds c < HoldSeconds c /\ MinHoldSeconds <= HoldSeconds c <= maxHoldSeconds;
  wf_restart : GracefulRestartSeconds c <= MaxGracefulRestartSeconds;
  wf_families : Families c = [FamilyIPv6Unicast];
  wf_import : Forall import_wf (Import_ c);
  wf_export : Forall (export_wf (IsInternal c)) (Export_ c) /\ NoDup (ex_Prefix <$> Export_ c);
  wf_tables : Forall (fun t => 0 < t) (Tables c) /\
    (Tables c <> [] -> sc_Interface c <> ""%string /\ RouteMetric c <> 0 /\ RouteMetric c <> KernelDefaultIPv6Metric);
}.

Lemma masked_v6 p : validIPv6Prefix p = true -> canon (Masked p) /\ Is6 (pfx_addr (Masked p)) = true /\ pfx_bits (Masked p) = pfx_bits p.
Proof.
  unfold validIPv6Prefix. rewrite !andb_true_iff. intros [[Hv H6] _]. split.
  - apply Masked_canon; [done|]. by destruct (pfx_addr p).
  - unfold Masked. rewrite Hv. by destruct (pfx_addr p).
Qed.

Lemma validated_families_wf done_ families l : validated_families_from done_ families = Ok l ->
  NoDup done_ -> (forall f, f ∈ done_ -> f = FamilyIPv6Unicast) ->
  NoDup l /\ (forall f, f ∈ l -> f = FamilyIPv6Unicast) /\ exists rest, l = done_ ++ rest /\ length rest = length families.
Proof.
  revert done_. induction families as [|f fs IH]; intros done_; cbn [validated_families_from].
  - intros [= <-] ? ?. split_and!; try done. exists []. by rewrite app_nil_r.
  - case_bool_decide as Hf; [done|]. case_bool_decide as Hin; [done|]. intros Hl Hd Hall. destruct (IH _ Hl) as (? & ? & rest & -> & Hlen).
    + apply NoDup_app. split_and!; [done|set_solver|apply NoDup_singleton].
    + intros g [Hg|Hg]%elem_of_app; [by apply Hall|]. apply list_elem_of_singleton in Hg as ->.
      unfold Family_String in Hf. destruct (f =? FamilyIPv6Unicast) eqn:E; [by apply Z.eqb_eq in E|done].
    + split_and!; try done. exists (f :: rest). rewrite <- app_assoc. cbn. by rewrite Hlen.
Qed.

Lemma validatedFamilies_wf families l : validatedFamilies families = Ok l -> l = [FamilyIPv6Unicast].
Proof.
  unfold validatedFamilies. destruct families as [|f fs]; [done|]. intros (Hd & Hall & rest & -> & Hlen)%validated_families_wf; [|constructor|set_solver].
  cbn in *. destruct rest as [|a [|b rest]]; [done|by rewrite (Hall a ltac:(set_solver))|].
  rewrite (Hall a ltac:(set_solver)), (Hall b ltac:(set_solver)) in Hd. apply NoDup_cons in Hd as [Hd _]. set_solver.
Qed.

Lemma validatedImportRules_wf rules l : validatedImportRules rules = Ok l -> Forall import_wf l.
Proof.
  revert l. induction rules as [|r rs IH]; intros l; cbn; [by intros [= <-]|].
  intros (r' & Hr & H)%res_bind_ok. apply res_bind_ok in H as (rs' & Hrs & [= <-]). constructor; [|by apply IH].
  unfold validated_import_rule in Hr. destruct (validIPv6Prefix (im_Prefix r)) eqn:Hv; [|done].
  destruct (masked_v6 _ Hv) as (Hc & H6 & Hb). cbn [negb] in Hr.
  destruct ((MinLength r <? _) || _ || _) eqn:Hlen; [done|]. injection Hr as <-. rewrite !orb_false_iff in Hlen.
  unfold import_wf. cbn. rewrite Hb. split_and!; [done..|lia|lia|lia].
Qed.

Lemma validatedExportRules_wf internal seen rules l : validated_export_rules_from internal seen rules = Ok l ->
  Forall (export_wf internal) l /\ NoDup (ex_Prefix <$> l) /\ (forall p, p ∈ ex_Prefix <$> l -> p ∉ seen).
Proof.
  revert seen l. induction rules as [|r rs IH]; intros seen l; cbn [validated_export_rules_from].
  { intros [= <-]. split_and!; [constructor|constructor|set_solver]. }
  intros (r' & Hr & H)%res_bind_ok. apply res_bind_ok in H as (rs' & Hrs & [= <-]). destruct (IH _ _ Hrs) as (Hwf & Hd & Hs).
  unfold validated_export_rule in Hr. destruct (validIPv6Prefix (ex_Prefix r)) eqn:Hv; [|done].
  destruct (masked_v6 _ Hv) as (Hc & H6 & Hb). cbn [negb] in Hr. set (q := with_prefix (Masked (ex_Prefix r)) r) in Hr. cbv zeta in Hr.
  case_bool_decide as Hin; [done|]. destruct (negb (ex_Mode q =? _) && _) eqn:Hm; [done|].
  destruct (negb (Is6 _) || _ || _) eqn:Hn; [done|]. destruct (internal && _) eqn:Hi; [done|]. injection Hr as <-. split_and!.
  - constructor; [|done]. unfold export_wf. rewrite !orb_false_iff, negb_false_iff in Hn. destruct Hn as [[Hn6 _] Hu]. split_and!; try done.
    + rewrite andb_false_iff, !negb_false_iff, !Z.eqb_eq in Hm. done.
    + intros ->. cbn [andb] in Hi. lia.
  - cbn. apply NoDup_cons. split; [|done]. intros Hx. by apply (Hs _ Hx); left.
  - cbn. intros p [->|Hp]%elem_of_cons; [done|]. intros Hx. by apply (Hs _ Hp); right.
Qed.

(** Turn a passed check into what it checked. *)
Ltac passed :=
  repeat match goal with
  | H : res_bind (reject_if _ _) _ = Ok _ |- _ => apply res_bind_ok in H as (? & ?%reject_if_ok & H)
  | H : reject_if _ _ = Ok _ |- _ => apply reject_if_ok in H
  | H : _ || _ = false |- _ => apply orb_false_iff in H as [? ?]
  | H : negb _ = false |- _ => apply negb_false_iff in H
  | H : bool_decide _ = false |- _ => apply bool_decide_eq_false in H
  end.

Lemma validateTransport_wf c u : validateSessionTransport c = Ok u ->
  (addr_valid (PeerAddress c) = true /\ IsUnspecified (PeerAddress c) = false /\ PeerPort c <> 0) /\
  (0 <> KeepaliveSeconds c /\ KeepaliveSeconds c < HoldSeconds c /\ MinHoldSeconds <= HoldSeconds c <= maxHoldSeconds) /\
  GracefulRestartSeconds c <= MaxGracefulRestartSeconds /\ Forall (fun t => 0 < t) (Tables c) /\
  (Tables c <> [] -> sc_Interface c <> ""%string /\ RouteMetric c <> 0 /\ RouteMetric c <> KernelDefaultIPv6Metric).
Proof.
  unfold validateSessionTransport. intros H. passed.
  assert (Forall (fun t => 0 < t) (Tables c)) as Ht.
  { apply check_all_ok in H. eapply Forall_impl; [exact H|]. intros t Ht%reject_if_ok. lia. }
  split_and!; try done; try lia. unfold has_tables in *. intros Hne.
  rewrite bool_decide_false in * by done. cbn [negb andb] in *. passed. split_and!; [done|lia|lia].
Qed.

(** A configuration that validation accepts is well formed: it names the session and both
    systems, its peer is a usable address and port, its keepalive timer is shorter than its
    hold timer and both are in range, its only family is IPv6 unicast, every import prefix is
    a masked IPv6 prefix with consistent length bounds, the exports are distinct masked IPv6
    prefixes with a mode and a usable next hop, and when it writes to kernel tables it has an
    interface and a metric that no kernel default collides with. *)
Lemma validated_session_wellformed cfg v : Validated cfg = Ok v -> session_wf v.
Proof.
  unfold Validated. intros H. passed. apply res_bind_ok in H as (u1 & Hid & H). apply res_bind_ok in H as (u2 & Htr & H).
  apply res_bind_ok in H as (fams & Hf & H). apply res_bind_ok in H as (im & Him & H). apply res_bind_ok in H as (ex & Hex & [= <-]).
  unfold validateSessionIdentity in Hid. passed. apply validateTransport_wf in Htr as (? & ? & ? & ? & ?).
  apply validatedExportRules_wf in Hex as (? & ? & _). split; cbn; try done.
  - lia.
  - by eapply validatedFamilies_wf.
  - by eapply validatedImportRules_wf.
Qed.

Lemma validated_fields cfg v : Validated cfg = Ok v ->
  RouteMetric v = RouteMetric cfg /\ Tables v = Tables cfg /\ GracefulRestartSeconds v = GracefulRestartSeconds cfg.
Proof.
  unfold Validated. intros H. passed. apply res_bind_ok in H as (u1 & _ & H). apply res_bind_ok in H as (u2 & _ & H).
  apply res_bind_ok in H as (fams & _ & H). apply res_bind_ok in H as (im & _ & H). by apply res_bind_ok in H as (ex & _ & [= <-]).
Qed.
