(* ===== verification/WanState.v ===== *)
(** * The live state of the interface manager
      (gateway/internal/wanstate/{wanstate,ownership,path,checks,npt,bgp_sessions}.go)

    Modules write what they just reconciled to the [Store]; the daemon and the management
    surface read snapshots of it.  Every write runs under the store's lock, so it is one
    transaction on the record [Store]; what the store does after it released the lock
    (logging a transition, calling the observer) follows the transaction in a log of
    effects.  The slices of a stored state are copied where they enter and leave the
    store, so they are plain lists.  A Go map is iterated in an unspecified order: an
    operation whose effects depend on that order takes the map as a list in the order of
    the iteration. *)

From S2P Require Import Prelude GoStrings Effects NptPolicy Intent Observation BgpConfig.
From S2P Require Import Tier Notify Health.

Local Open Scope Z_scope.

(** ** Kernel observations (gateway/internal/netif/state.go, monitor.go) *)

Record CurrentAddr := mkCurrentAddr {
  ca_CIDR : string;
  ca_Family : string;
  ca_Flags : Z;
  ca_Scope : Z;
  ca_PreferredLifetime : Z;
  ca_ValidLifetime : Z;
  ca_ObservedAt : Z;
  ca_Origin : string;
}.

Record RouteNextHop := mkRouteNextHop { nh_Via : string; nh_Dev : string; nh_LinkIndex : Z; nh_Weight : Z }.

#[export] Instance RouteNextHop_eq_dec : EqDecision RouteNextHop.
Proof. solve_decision. Defined.

Record CurrentRoute := mkCurrentRoute {
  cr_Family : string;
  cr_Dest : string;
  cr_Via : string;
  cr_Dev : string;
  cr_TableID : Z;
  cr_Protocol : Z;
  cr_Metric : Z;
  cr_Scope : Z;
  cr_Type : Z;
  cr_NextHops : list RouteNextHop;
}.

#[export] Instance CurrentRoute_eq_dec : EqDecision CurrentRoute.
Proof. solve_decision. Defined.

Inductive EventKind :=
| EvUnknown | EvRouteAdded | EvRouteDeleted | EvAddrAdded | EvAddrDeleted | EvLinkUp | EvLinkDown
| EvResync | EvObservationStale | EvObservationFailed | EvUplinkReturned.

#[export] Instance EventKind_eq_dec : EqDecision EventKind.
Proof. solve_decision. Defined.

Record KernelSnapshot := mkKernelSnapshot {
  ks_ConnectionID : string;
  ks_Iface : string;
  ks_ActualIface : string;
  ks_IfIndex : Z;
  ks_LinkUp : bool;
  ks_Addresses : list CurrentAddr;
  ks_Routes : list CurrentRoute;
  ks_ObservedAt : Z;
}.

Record KernelEvent := mkKernelEvent {
  ev_Kind : EventKind;
  ev_Family : string;
  ev_Iface : string;
  ev_ConnectionID : string;
  ev_ActualIface : string;
  ev_IfIndex : Z;
  ev_ObservedAt : Z;
  ev_Reason : string;
  SnapshotReplay : bool;
  ev_Dest : string;
  ev_Via : string;
  ev_Dev : string;
  ev_TableID : Z;
  ev_Protocol : Z;
  ev_Metric : Z;
  ev_Scope : Z;
  ev_Type : Z;
  ev_NextHops : list RouteNextHop;
  ev_CIDR : string;
  ev_Flags : Z;
  ev_PreferredLifetime : Z;
  ev_ValidLifetime : Z;
  ev_Origin : string;
  ev_Snapshot : option KernelSnapshot;
}.

(** ** Readiness of a path (path.go) *)

Definition PathHistoryLimit : nat := 16.
Definition PathStarting : string := "starting".
Definition PathReady : string := "ready".
Definition PathUnavailable : string := "unavailable".
Definition DependencyMet : string := "met".
Definition DependencyPending : string := "pending".
Definition DependencyUnmet : string := "unmet".
Definition DependencyNotEvaluated : string := "not-evaluated".

Record DependencyResult := mkDependency { dep_Name : string; dep_State : string; dep_Reason : string }.

Record PathVerdict := mkPathVerdict { pv_State : string; pv_Dependency : string; pv_Reason : string }.

#[export] Instance PathVerdict_eq_dec : EqDecision PathVerdict.
Proof. solve_decision. Defined.

Record PathTransition := mkPathTransition {
  pt_ID : string;
  pt_At : Z;
  pt_Previous : string;
  pt_Current : PathVerdict;
}.

Record PathReadiness := mkPathReadiness {
  path_Verdict : PathVerdict;
  Since : Z;
  History : list PathTransition;
}.

Definition noPath : PathReadiness := mkPathReadiness (mkPathVerdict "" "" "") zero_time [].

(** ** Connections (ownership.go) *)

Definition RecentTransitionLimit : nat := 32.

Record ApplyResult := mkApplyResult {
  ap_Operation : string;
  ap_Dependency : string;
  ap_Result : string;
  ap_Reason : string;
  ap_At : Z;
}.

Definition no_apply : ApplyResult := mkApplyResult "" "" "" "" zero_time.

Record PendingRemoval := mkPendingRemoval {
  rem_ConnectionID : string;
  rem_Name : string;
  rem_Family : string;
  rem_Apply : ApplyResult;
}.

Record Transition := mkStoreTransition {
  t_ID : string;
  t_At : Z;
  t_Family : string;
  t_Previous : string;
  t_Current : string;
  t_Operation : string;
  t_Dependency : string;
  t_Reason : string;
}.

Record FamilyState := mkFamilyState {
  fs_Acquisition : string;
  AssignmentValid : string;
  LeasePersistence : string;
  leasePersistenceReason : string;
  fs_Firewall : string;
  fs_Routing : string;
  routingReason : string;
  Readiness : string;
  fs_Path : PathReadiness;
  Assignments : list Assignment;
  fs_LastApply : ApplyResult;
  fs_Addresses : list CurrentAddr;
  fs_Routes : list CurrentRoute;
}.
Definition set_fs_Acquisition (v : string) (x : FamilyState) : FamilyState :=
    mkFamilyState v (AssignmentValid x) (LeasePersistence x) (leasePersistenceReason x)
    (fs_Firewall x) (fs_Routing x) (routingReason x) (Readiness x) (fs_Path x)
    (Assignments x) (fs_LastApply x) (fs_Addresses x) (fs_Routes x).
Definition set_AssignmentValid (v : string) (x : FamilyState) : FamilyState :=
    mkFamilyState (fs_Acquisition x) v (LeasePersistence x) (leasePersistenceReason x)
    (fs_Firewall x) (fs_Routing x) (routingReason x) (Readiness x) (fs_Path x)
    (Assignments x) (fs_LastApply x) (fs_Addresses x) (fs_Routes x).
Definition set_LeasePersistence (v : string) (x : FamilyState) : FamilyState :=
    mkFamilyState (fs_Acquisition x) (AssignmentValid x) v (leasePersistenceReason x)
    (fs_Firewall x) (fs_Routing x) (routingReason x) (Readiness x) (fs_Path x)
    (Assignments x) (fs_LastApply x) (fs_Addresses x) (fs_Routes x).
Definition set_leasePersistenceReason (v : string) (x : FamilyState) : FamilyState :=
    mkFamilyState (fs_Acquisition x) (AssignmentValid x) (LeasePersistence x) v
    (fs_Firewall x) (fs_Routing x) (routingReason x) (Readiness x) (fs_Path x)
    (Assignments x) (fs_LastApply x) (fs_Addresses x) (fs_Routes x).
Definition set_fs_Firewall (v : string) (x : FamilyState) : FamilyState :=
    mkFamilyState (fs_Acquisition x) (AssignmentValid x) (LeasePersistence x)
    (leasePersistenceReason x) v (fs_Routing x) (routingReason x) (Readiness x) (fs_Path x)
    (Assignments x) (fs_LastApply x) (fs_Addresses x) (fs_Routes x).
Definition set_fs_Routing (v : string) (x : FamilyState) : FamilyState :=
    mkFamilyState (fs_Acquisition x) (AssignmentValid x) (LeasePersistence x)
    (leasePersistenceReason x) (fs_Firewall x) v (routingReason x) (Readiness x)
    (fs_Path x) (Assignments x) (fs_LastApply x) (fs_Addresses x) (fs_Routes x).
Definition set_routingReason (v : string) (x : FamilyState) : FamilyState :=
    mkFamilyState (fs_Acquisition x) (AssignmentValid x) (LeasePersistence x)
    (leasePersistenceReason x) (fs_Firewall x) (fs_Routing x) v (Readiness x) (fs_Path x)
    (Assignments x) (fs_LastApply x) (fs_Addresses x) (fs_Routes x).
Definition set_Readiness (v : string) (x : FamilyState) : FamilyState :=
    mkFamilyState (fs_Acquisition x) (AssignmentValid x) (LeasePersistence x)
    (leasePersistenceReason x) (fs_Firewall x) (fs_Routing x) (routingReason x) v
    (fs_Path x) (Assignments x) (fs_LastApply x) (fs_Addresses x) (fs_Routes x).
Definition set_fs_Path (v : PathReadiness) (x : FamilyState) : FamilyState :=
    mkFamilyState (fs_Acquisition x) (AssignmentValid x) (LeasePersistence x)
    (leasePersistenceReason x) (fs_Firewall x) (fs_Routing x) (routingReason x)
    (Readiness x) v (Assignments x) (fs_LastApply x) (fs_Addresses x) (fs_Routes x).
Definition set_Assignments (v : list Assignment) (x : FamilyState) : FamilyState :=
    mkFamilyState (fs_Acquisition x) (AssignmentValid x) (LeasePersistence x)
    (leasePersistenceReason x) (fs_Firewall x) (fs_Routing x) (routingReason x)
    (Readiness x) (fs_Path x) v (fs_LastApply x) (fs_Addresses x) (fs_Routes x).
Definition set_fs_LastApply (v : ApplyResult) (x : FamilyState) : FamilyState :=
    mkFamilyState (fs_Acquisition x) (AssignmentValid x) (LeasePersistence x)
    (leasePersistenceReason x) (fs_Firewall x) (fs_Routing x) (routingReason x)
    (Readiness x) (fs_Path x) (Assignments x) v (fs_Addresses x) (fs_Routes x).
Definition set_fs_Addresses (v : list CurrentAddr) (x : FamilyState) : FamilyState :=
    mkFamilyState (fs_Acquisition x) (AssignmentValid x) (LeasePersistence x)
    (leasePersistenceReason x) (fs_Firewall x) (fs_Routing x) (routingReason x)
    (Readiness x) (fs_Path x) (Assignments x) (fs_LastApply x) v (fs_Routes x).
Definition set_fs_Routes (v : list CurrentRoute) (x : FamilyState) : FamilyState :=
    mkFamilyState (fs_Acquisition x) (AssignmentValid x) (LeasePersistence x)
    (leasePersistenceReason x) (fs_Firewall x) (fs_Routing x) (routingReason x)
    (Readiness x) (fs_Path x) (Assignments x) (fs_LastApply x) (fs_Addresses x) v.

Definition newFamilyState : FamilyState :=
  mkFamilyState "unknown" "unknown" "unknown" "" "unknown" "unknown" "" "unknown" noPath [] no_apply [] [].

Record ConnectionState := mkConnectionState {
  cs_ID : string;
  ConfiguredName : string;
  cs_Owner : string;
  ActualName : string;
  cs_IfIndex : Z;
  LinkState : string;
  cs_Observation : string;
  ObservationAt : Z;
  ObservationReason : string;
  cs_ObservedAt : Z;
  cs_LastApply : ApplyResult;
  cs_IPv4 : FamilyState;
  cs_IPv6 : FamilyState;
  Recent : list Transition;
}.
Definition set_LinkState (v : string) (x : ConnectionState) : ConnectionState :=
    mkConnectionState (cs_ID x) (ConfiguredName x) (cs_Owner x) (ActualName x)
    (cs_IfIndex x) v (cs_Observation x) (ObservationAt x) (ObservationReason x)
    (cs_ObservedAt x) (cs_LastApply x) (cs_IPv4 x) (cs_IPv6 x) (Recent x).
Definition set_cs_LastApply (v : ApplyResult) (x : ConnectionState) : ConnectionState :=
    mkConnectionState (cs_ID x) (ConfiguredName x) (cs_Owner x) (ActualName x)
    (cs_IfIndex x) (LinkState x) (cs_Observation x) (ObservationAt x) (ObservationReason x)
    (cs_ObservedAt x) v (cs_IPv4 x) (cs_IPv6 x) (Recent x).
Definition set_cs_IPv4 (v : FamilyState) (x : ConnectionState) : ConnectionState :=
    mkConnectionState (cs_ID x) (ConfiguredName x) (cs_Owner x) (ActualName x)
    (cs_IfIndex x) (LinkState x) (cs_Observation x) (ObservationAt x) (ObservationReason x)
    (cs_ObservedAt x) (cs_LastApply x) v (cs_IPv6 x) (Recent x).
Definition set_cs_IPv6 (v : FamilyState) (x : ConnectionState) : ConnectionState :=
    mkConnectionState (cs_ID x) (ConfiguredName x) (cs_Owner x) (ActualName x)
    (cs_IfIndex x) (LinkState x) (cs_Observation x) (ObservationAt x) (ObservationReason x)
    (cs_ObservedAt x) (cs_LastApply x) (cs_IPv4 x) v (Recent x).
Definition set_Recent (v : list Transition) (x : ConnectionState) : ConnectionState :=
    mkConnectionState (cs_ID x) (ConfiguredName x) (cs_Owner x) (ActualName x)
    (cs_IfIndex x) (LinkState x) (cs_Observation x) (ObservationAt x) (ObservationReason x)
    (cs_ObservedAt x) (cs_LastApply x) (cs_IPv4 x) (cs_IPv6 x) v.

(** ** The rest of the snapshot (wanstate.go, checks.go) *)

Record MemberRouting := mkMemberRouting {
  Carrying : bool;
  SelectionEnabled : bool;
  V4Ready : bool;
  V6Ready : bool;
  V4Reason : string;
  V6Reason : string;
  V4Dependencies : list DependencyResult;
  V6Dependencies : list DependencyResult;
  OwnedAddresses : list Addr;
}.

Definition MemberRouting_zero : MemberRouting := mkMemberRouting false false false false "" "" [] [] [].

Record FamilyTranslation := mkFamilyTranslation {
  ft_Mode : string;
  ft_Ready : bool;
  ft_Reason : string;
  InternalPrefix : Prefix;
  ExternalPrefix : Prefix;
}.

#[export] Instance FamilyTranslation_eq_dec : EqDecision FamilyTranslation.
Proof. solve_decision. Defined.

Record MemberTranslation := mkMemberTranslation { tr_V4 : FamilyTranslation; tr_V6 : FamilyTranslation }.

#[export] Instance MemberTranslation_eq_dec : EqDecision MemberTranslation.
Proof. solve_decision. Defined.

Record BGPPeer := mkBGPPeer { peer_Address : string; peer_Established : bool }.
Record BGP := mkBGP { Peers : list BGPPeer; ReadAt : Z; Reached : bool }.
Record OwnedRuleset := mkOwnedRuleset { or_Rules : string; or_Error : string }.

Section Store.
Context `{DT : !DistributionTypes}.

Record CheckTransition := mkCheckTransition { ct_ID : string; ct_Previous : string; ct_Result : Result }.

Record CheckState := mkCheckState {
  IntervalSeconds : Z;
  ck_Check : CheckSpec;
  ck_Result : Result;
  ck_Recent : list CheckTransition;
}.

(** The registered observer is known by a number of its own; [transitionLog] says
    whether a logger was set. *)
Record Store := mkStore {
  connections : gmap string ConnectionState;
  pendingRemovals : gmap string PendingRemoval;
  runID : string;
  transitionSequence : Z;
  transitionLog : bool;
  st_health : gmap string MemberHealth;
  st_checks : gmap string CheckState;
  st_routing : gmap string MemberRouting;
  st_translation : gmap string MemberTranslation;
  nptPolicies : gmap string PrefixPair;
  nptPolicyGeneration : Z;
  routingGeneration : Z;
  activeTier : Z;
  tierValid : bool;
  st_bgp : BGP;
  bgpSessions : gmap string (list SessionState);
  intendedRulesets : gmap string OwnedRuleset;
  observer : option Z;
  observerGeneration : Z;
}.
Definition set_connections (v : gmap string ConnectionState) (x : Store) : Store :=
    mkStore v (pendingRemovals x) (runID x) (transitionSequence x) (transitionLog x)
    (st_health x) (st_checks x) (st_routing x) (st_translation x) (nptPolicies x)
    (nptPolicyGeneration x) (routingGeneration x) (activeTier x) (tierValid x) (st_bgp x)
    (bgpSessions x) (intendedRulesets x) (observer x) (observerGeneration x).
Definition set_pendingRemovals (v : gmap string PendingRemoval) (x : Store) : Store :=
    mkStore (connections x) v (runID x) (transitionSequence x) (transitionLog x)
    (st_health x) (st_checks x) (st_routing x) (st_translation x) (nptPolicies x)
    (nptPolicyGeneration x) (routingGeneration x) (activeTier x) (tierValid x) (st_bgp x)
    (bgpSessions x) (intendedRulesets x) (observer x) (observerGeneration x).
Definition set_runID (v : string) (x : Store) : Store :=
    mkStore (connections x) (pendingRemovals x) v (transitionSequence x) (transitionLog x)
    (st_health x) (st_checks x) (st_routing x) (st_translation x) (nptPolicies x)
    (nptPolicyGeneration x) (routingGeneration x) (activeTier x) (tierValid x) (st_bgp x)
    (bgpSessions x) (intendedRulesets x) (observer x) (observerGeneration x).
Definition set_transitionSequence (v : Z) (x : Store) : Store :=
    mkStore (connections x) (pendingRemovals x) (runID x) v (transitionLog x) (st_health x)
    (st_checks x) (st_routing x) (st_translation x) (nptPolicies x) (nptPolicyGeneration x)
    (routingGeneration x) (activeTier x) (tierValid x) (st_bgp x) (bgpSessions x)
    (intendedRulesets x) (observer x) (observerGeneration x).
Definition set_transitionLog (v : bool) (x : Store) : Store :=
    mkStore (connections x) (pendingRemovals x) (runID x) (transitionSequence x) v
    (st_health x) (st_checks x) (st_routing x) (st_translation x) (nptPolicies x)
    (nptPolicyGeneration x) (routingGeneration x) (activeTier x) (tierValid x) (st_bgp x)
    (bgpSessions x) (intendedRulesets x) (observer x) (observerGeneration x).
Definition set_st_health (v : gmap string MemberHealth) (x : Store) : Store :=
    mkStore (connections x) (pendingRemovals x) (runID x) (transitionSequence x)
    (transitionLog x) v (st_checks x) (st_routing x) (st_translation x) (nptPolicies x)
    (nptPolicyGeneration x) (routingGeneration x) (activeTier x) (tierValid x) (st_bgp x)
    (bgpSessions x) (intendedRulesets x) (observer x) (observerGeneration x).
Definition set_st_checks (v : gmap string CheckState) (x : Store) : Store :=
    mkStore (connections x) (pendingRemovals x) (runID x) (transitionSequence x)
    (transitionLog x) (st_health x) v (st_routing x) (st_translation x) (nptPolicies x)
    (nptPolicyGeneration x) (routingGeneration x) (activeTier x) (tierValid x) (st_bgp x)
    (bgpSessions x) (intendedRulesets x) (observer x) (observerGeneration x).
Definition set_st_routing (v : gmap string MemberRouting) (x : Store) : Store :=
    mkStore (connections x) (pendingRemovals x) (runID x) (transitionSequence x)
    (transitionLog x) (st_health x) (st_checks x) v (st_translation x) (nptPolicies x)
    (nptPolicyGeneration x) (routingGeneration x) (activeTier x) (tierValid x) (st_bgp x)
    (bgpSessions x) (intendedRulesets x) (observer x) (observerGeneration x).
Definition set_st_translation (v : gmap string MemberTranslation) (x : Store) : Store :=
    mkStore (connections x) (pendingRemovals x) (runID x) (transitionSequence x)
    (transitionLog x) (st_health x) (st_checks x) (st_routing x) v (nptPolicies x)
    (nptPolicyGeneration x) (routingGeneration x) (activeTier x) (tierValid x) (st_bgp x)
    (bgpSessions x) (intendedRulesets x) (observer x) (observerGeneration x).
Definition set_nptPolicies (v : gmap string PrefixPair) (x : Store) : Store :=
    mkStore (connections x) (pendingRemovals x) (runID x) (transitionSequence x)
    (transitionLog x) (st_health x) (st_checks x) (st_routing x) (st_translation x) v
    (nptPolicyGeneration x) (routingGeneration x) (activeTier x) (tierValid x) (st_bgp x)
    (bgpSessions x) (intendedRulesets x) (observer x) (observerGeneration x).
Definition set_nptPolicyGeneration (v : Z) (x : Store) : Store :=
    mkStore (connections x) (pendingRemovals x) (runID x) (transitionSequence x)
    (transitionLog x) (st_health x) (st_checks x) (st_routing x) (st_translation x)
    (nptPolicies x) v (routingGeneration x) (activeTier x) (tierValid x) (st_bgp x)
    (bgpSessions x) (intendedRulesets x) (observer x) (observerGeneration x).
Definition set_routingGeneration (v : Z) (x : Store) : Store :=
    mkStore (connections x) (pendingRemovals x) (runID x) (transitionSequence x)
    (transitionLog x) (st_health x) (st_checks x) (st_routing x) (st_translation x)
    (nptPolicies x) (nptPolicyGeneration x) v (activeTier x) (tierValid x) (st_bgp x)
    (bgpSessions x) (intendedRulesets x) (observer x) (observerGeneration x).
Definition set_activeTier (v : Z) (x : Store) : Store :=
    mkStore (connections x) (pendingRemovals x) (runID x) (transitionSequence x)
    (transitionLog x) (st_health x) (st_checks x) (st_routing x) (st_translation x)
    (nptPolicies x) (nptPolicyGeneration x) (routingGeneration x) v (tierValid x)
    (st_bgp x) (bgpSessions x) (intendedRulesets x) (observer x) (observerGeneration x).
Definition set_tierValid (v : bool) (x : Store) : Store :=
    mkStore (connections x) (pendingRemovals x) (runID x) (transitionSequence x)
    (transitionLog x) (st_health x) (st_checks x) (st_routing x) (st_translation x)
    (nptPolicies x) (nptPolicyGeneration x) (routingGeneration x) (activeTier x) v
    (st_bgp x) (bgpSessions x) (intendedRulesets x) (observer x) (observerGeneration x).
Definition set_st_bgp (v : BGP) (x : Store) : Store :=
    mkStore (connections x) (pendingRemovals x) (runID x) (transitionSequence x)
    (transitionLog x) (st_health x) (st_checks x) (st_routing x) (st_translation x)
    (nptPolicies x) (nptPolicyGeneration x) (routingGeneration x) (activeTier x)
    (tierValid x) v (bgpSessions x) (intendedRulesets x) (observer x)
    (observerGeneration x).
Definition set_bgpSessions (v : gmap string (list SessionState)) (x : Store) : Store :=
    mkStore (connections x) (pendingRemovals x) (runID x) (transitionSequence x)
    (transitionLog x) (st_health x) (st_checks x) (st_routing x) (st_translation x)
    (nptPolicies x) (nptPolicyGeneration x) (routingGeneration x) (activeTier x)
    (tierValid x) (st_bgp x) v (intendedRulesets x) (observer x) (observerGeneration x).
Definition set_intendedRulesets (v : gmap string OwnedRuleset) (x : Store) : Store :=
    mkStore (connections x) (pendingRemovals x) (runID x) (transitionSequence x)
    (transitionLog x) (st_health x) (st_checks x) (st_routing x) (st_translation x)
    (nptPolicies x) (nptPolicyGeneration x) (routingGeneration x) (activeTier x)
    (tierValid x) (st_bgp x) (bgpSessions x) v (observer x) (observerGeneration x).
Definition set_observer (v : option Z) (x : Store) : Store :=
    mkStore (connections x) (pendingRemovals x) (runID x) (transitionSequence x)
    (transitionLog x) (st_health x) (st_checks x) (st_routing x) (st_translation x)
    (nptPolicies x) (nptPolicyGeneration x) (routingGeneration x) (activeTier x)
    (tierValid x) (st_bgp x) (bgpSessions x) (intendedRulesets x) v (observerGeneration x).
Definition set_observerGeneration (v : Z) (x : Store) : Store :=
    mkStore (connections x) (pendingRemovals x) (runID x) (transitionSequence x)
    (transitionLog x) (st_health x) (st_checks x) (st_routing x) (st_translation x)
    (nptPolicies x) (nptPolicyGeneration x) (routingGeneration x) (activeTier x)
    (tierValid x) (st_bgp x) (bgpSessions x) (intendedRulesets x) (observer x) v.

(** What the store tells others after a transaction. *)
Inductive store_effect :=
| LoggedTransition (id : string) (t : Transition)
| LoggedPath (id family : string) (t : PathTransition)
| LoggedCheck (id : string) (t : CheckTransition)
| ObservedHealth (observer : Z) (member : string) (from to : wanHealth)
| ObservedTier (observer : Z) (from to : Z).

Definition NewStore : Store :=
  mkStore ∅ ∅ "" 0 false ∅ ∅ ∅ ∅ ∅ 0 0 0 false (mkBGP [] zero_time false) ∅ ∅ None 0.

(** The wall clock and the copy of a check and a result through JSON. *)
Class StoreWorld (W : Type) := {
  wallNow : W -> Z * W;
  CloneCheck : CheckSpec -> res CheckSpec;
  CloneResult : Result -> res Result;
}.

Record ssys (W : Type) := mkSsys { store_ : Store; sworld : W; slog : list store_effect }.
Arguments mkSsys {W}.
Arguments store_ {W}.
Arguments sworld {W}.
Arguments slog {W}.

Section Operations.
Context {W : Type} `{SW : !StoreWorld W}.

Abbreviation SM := (M (ssys W)).

Definition getStore {A} (f : Store -> A) : SM A := gets (fun s => f (store_ s)).
Definition updStore (f : Store -> Store) : SM unit :=
  modify (fun s => mkSsys (f (store_ s)) (sworld s) (slog s)).
Definition clockNow : SM Z :=
  fun s => let '(t, w) := wallNow (sworld s) in (t, mkSsys (store_ s) w (slog s)).
Definition tell (e : store_effect) : SM unit :=
  modify (fun s => mkSsys (store_ s) (sworld s) (e :: slog s)).

(** A [uint64] counter. *)
Definition incr_u64 (x : Z) : Z := (x + 1) mod 2 ^ 64.

(** The last [n] elements of a history. *)
Definition keep_last {A} (n : nat) (l : list A) : list A := skipn (length l - n) l.

Definition nextTransitionID : SM string :=
  updStore (fun s => set_transitionSequence (incr_u64 (transitionSequence s)) s) ;;
  getStore (fun s => runID s +:+ ":" +:+ itoa (transitionSequence s))%string.

(** ** Connection transitions *)

Definition logOwnershipTransition (id : string) (t : option Transition) : SM unit :=
  l ← getStore transitionLog;
  match t with
  | Some t => whenM l (tell (LoggedTransition id t))
  | None => mret tt
  end.

Definition addTransitionLocked (current : ConnectionState)
    (family previous next operation dependency reason : string) (at_ : Z) :
    SM (ConnectionState * Transition) :=
  id ← nextTransitionID;
  let value := mkStoreTransition id at_ family previous next operation dependency reason in
  mret (set_Recent (keep_last RecentTransitionLimit (Recent current ++ [value])) current, value).

(** [addTransitionLocked] when [cond] holds. *)
Definition transition_if (cond : bool) (current : ConnectionState)
    (family previous next operation dependency reason : string) (at_ : SM Z) :
    SM (ConnectionState * option Transition) :=
  if cond then
    t ← at_;
    r ← addTransitionLocked current family previous next operation dependency reason t;
    mret (r.1, Some r.2)
  else mret (current, None).

Definition familyState (c : ConnectionState) (family : string) : option FamilyState :=
  if bool_decide (family = "ipv4"%string) then Some (cs_IPv4 c)
  else if bool_decide (family = "ipv6"%string) then Some (cs_IPv6 c)
  else None.

(** Write through the pointer [familyState] returned. *)
Definition set_familyState (family : string) (f : FamilyState) (c : ConnectionState) : ConnectionState :=
  if bool_decide (family = "ipv4"%string) then set_cs_IPv4 f c
  else if bool_decide (family = "ipv6"%string) then set_cs_IPv6 f c
  else c.

Definition putConnection (id : string) (c : ConnectionState) : SM unit :=
  updStore (fun s => set_connections (<[id := c]> (connections s)) s).

(** The shape of the setters: nothing happens for an unknown connection; otherwise the
    connection is updated, stored, and its transition logged. *)
Definition on_connection (id : string)
    (body : ConnectionState -> SM (ConnectionState * option Transition)) : SM unit :=
  c ← getStore (fun s => connections s !! id);
  match c with
  | None => mret tt
  | Some current =>
      r ← body current;
      putConnection id r.1 ;;
      logOwnershipTransition id r.2
  end.

(** The same for one address family; an unknown family changes nothing. *)
Definition on_family (id family : string)
    (body : ConnectionState -> FamilyState -> SM (ConnectionState * option Transition)) : SM unit :=
  c ← getStore (fun s => connections s !! id);
  match c with
  | None => mret tt
  | Some current =>
      match familyState current family with
      | None => mret tt
      | Some state =>
          r ← body current state;
          putConnection id r.1 ;;
          logOwnershipTransition id r.2
      end
  end.

Definition neqs (a b : string) : bool := negb (bool_decide (a = b)).

Definition SetLeasePersistence (id family result reason : string) : SM unit :=
  on_family id family (fun current state =>
    let previous := LeasePersistence state in
    let changed := neqs result previous || neqs reason (leasePersistenceReason state) in
    let state := set_leasePersistenceReason reason (set_LeasePersistence result state) in
    transition_if changed (set_familyState family state current) family previous result
      "persist-lease" "storage" reason clockNow).

(** [if result.At.IsZero() { result.At = s.clock.Now() }]. *)
Definition stamped (result : ApplyResult) : SM ApplyResult :=
  if is_zero (ap_At result) then
    t ← clockNow;
    mret (mkApplyResult (ap_Operation result) (ap_Dependency result) (ap_Result result) (ap_Reason result) t)
  else mret result.

Definition or_unknown (s : string) : string := if bool_decide (s = ""%string) then "unknown" else s.

Definition SetFamilyApplyResult (id family : string) (result : ApplyResult) : SM unit :=
  result ← stamped result;
  on_family id family (fun current state =>
    let previous := or_unknown (ap_Result (fs_LastApply state)) in
    let previousReason := ap_Reason (fs_LastApply state) in
    let state := set_fs_Routing (ap_Result result) (set_fs_LastApply result state) in
    transition_if (neqs (ap_Result result) previous || neqs (ap_Reason result) previousReason)
      (set_familyState family state current) family previous (ap_Result result)
      (ap_Operation result) (ap_Dependency result) (ap_Reason result) (mret (ap_At result))).

Definition SetApplyResult (id : string) (result : ApplyResult) : SM unit :=
  result ← stamped result;
  on_connection id (fun current =>
    let previous := or_unknown (ap_Result (cs_LastApply current)) in
    transition_if (neqs (ap_Result result) previous) (set_cs_LastApply result current)
      "link" previous (ap_Result result) (ap_Operation result) (ap_Dependency result)
      (ap_Reason result) (mret (ap_At result))).

Definition new_connection (connection : Connection) : ConnectionState :=
  mkConnectionState (conn_ID connection) (conn_Name connection) (conn_Owner connection) "" 0
    "unknown" "unknown" zero_time "" zero_time no_apply newFamilyState newFamilyState [].

Definition SetConnections (conns : list Connection) : SM unit :=
  updStore (fun s => set_connections
    (fold_left (fun m c => match m !! conn_ID c with
                           | Some _ => m
                           | None => <[conn_ID c := new_connection c]> m
                           end) conns (connections s)) s).

Definition SetAssignment (id family acquisition validity : string) (assignments : list Assignment) : SM unit :=
  on_family id family (fun current state =>
    let previous := (fs_Acquisition state +:+ "/" +:+ AssignmentValid state)%string in
    let next := (acquisition +:+ "/" +:+ validity)%string in
    let state := set_Assignments assignments
      (set_AssignmentValid validity (set_fs_Acquisition acquisition state)) in
    transition_if (neqs next previous) (set_familyState family state current) family previous next
      "acquire" "protocol" "assignment state changed" clockNow).

Definition applyReadinessLocked (current : ConnectionState) (state : FamilyState)
    (family readiness : string) : SM (ConnectionState * option Transition) :=
  let previous := Readiness state in
  let state := set_Readiness readiness state in
  transition_if (neqs previous readiness) (set_familyState family state current) family previous
    readiness "evaluate-forwarding" "routing" "forwarding readiness changed" clockNow.

Definition SetReadiness (id family readiness : string) : SM unit :=
  on_family id family (fun current state => applyReadinessLocked current state family readiness).

Definition SetFirewallProtection (id family verdict : string) : SM unit :=
  on_family id family (fun current state =>
    let previous := fs_Firewall state in
    transition_if (neqs previous verdict)
      (set_familyState family (set_fs_Firewall verdict state) current) family previous verdict
      "evaluate-firewall" "firewall" "firewall protection changed" clockNow).

Definition ReplacePendingRemovals (pending : list PendingRemoval) : SM unit :=
  next ← foldM (fun m value =>
    a ← stamped (rem_Apply value);
    let value := mkPendingRemoval (rem_ConnectionID value) (rem_Name value) (rem_Family value) a in
    mret (<[(rem_ConnectionID value +:+ "/" +:+ rem_Family value)%string := value]> m)) ∅ pending;
  updStore (set_pendingRemovals next).

Definition SetTransitionLogger (run : string) (logger : bool) : SM unit :=
  updStore (fun s => set_transitionLog logger (set_runID run s)).

(** ** Path readiness (path.go) *)

Definition applyPathLocked (state : FamilyState) (verdict : PathVerdict) :
    SM (FamilyState * option PathTransition) :=
  let path := fs_Path state in
  if bool_decide (path_Verdict path = verdict) then mret (state, None)
  else
    id ← nextTransitionID;
    at_ ← clockNow;
    let transition := mkPathTransition id at_ (pv_State (path_Verdict path)) verdict in
    let history := keep_last PathHistoryLimit (History path ++ [transition]) in
    let since := if neqs (pv_State (path_Verdict path)) (pv_State verdict) then at_ else Since path in
    mret (set_fs_Path (mkPathReadiness verdict since history) state, Some transition).

Definition logPathTransition (id family : string) (t : option PathTransition) : SM unit :=
  l ← getStore transitionLog;
  match t with
  | Some t => whenM l (tell (LoggedPath id family t))
  | None => mret tt
  end.

Definition SetPathReadiness (id family : string) (verdict : PathVerdict) : SM unit :=
  c ← getStore (fun s => connections s !! id);
  match c with
  | None => mret tt
  | Some current =>
      match familyState current family with
      | None => mret tt
      | Some state =>
          r ← applyPathLocked state verdict;
          putConnection id (set_familyState family r.1 current) ;;
          logPathTransition id family r.2
      end
  end.

(** The forwarding result and the path verdict in one write. *)
Definition SetFamilyReadiness (id family readiness : string) (verdict : PathVerdict) : SM unit :=
  c ← getStore (fun s => connections s !! id);
  match c with
  | None => mret tt
  | Some current =>
      match familyState current family with
      | None => mret tt
      | Some state =>
          f ← applyReadinessLocked current state family readiness;
          p ← applyPathLocked (set_Readiness readiness state) verdict;
          putConnection id (set_familyState family p.1 f.1) ;;
          logOwnershipTransition id f.2 ;;
          logPathTransition id family p.2
      end
  end.

(** ** Kernel observations (ownership.go) *)

Definition sameRoute (left right : CurrentRoute) : bool :=
  bool_decide (cr_Family left = cr_Family right) && bool_decide (cr_Dest left = cr_Dest right)
  && (cr_TableID left =? cr_TableID right) && (cr_Protocol left =? cr_Protocol right)
  && (cr_Metric left =? cr_Metric right) && (cr_Scope left =? cr_Scope right)
  && (cr_Type left =? cr_Type right) && bool_decide (cr_Via left = cr_Via right)
  && bool_decide (cr_Dev left = cr_Dev right) && bool_decide (cr_NextHops left = cr_NextHops right).

(** Replace the first element [same] as [value], or append it. *)
Fixpoint append_or_replace {A} (same : A -> bool) (value : A) (l : list A) : list A :=
  match l with
  | [] => [value]
  | x :: l => if same x then value :: l else x :: append_or_replace same value l
  end.

Definition appendOrReplaceAddress (addresses : list CurrentAddr) (value : CurrentAddr) : list CurrentAddr :=
  append_or_replace (fun a => bool_decide (ca_CIDR a = ca_CIDR value)) value addresses.
Definition removeAddress (addresses : list CurrentAddr) (cidr : string) : list CurrentAddr :=
  List.filter (fun a => neqs (ca_CIDR a) cidr) addresses.
Definition appendOrReplaceRoute (routes : list CurrentRoute) (value : CurrentRoute) : list CurrentRoute :=
  append_or_replace (fun r => sameRoute r value) value routes.
Definition removeRoute (routes : list CurrentRoute) (value : CurrentRoute) : list CurrentRoute :=
  List.filter (fun r => negb (sameRoute r value)) routes.

Definition routeFromEvent (e : KernelEvent) : CurrentRoute :=
  mkCurrentRoute (ev_Family e) (ev_Dest e) (ev_Via e) (ev_Dev e) (ev_TableID e) (ev_Protocol e)
    (ev_Metric e) (ev_Scope e) (ev_Type e) (ev_NextHops e).

Definition addressFromEvent (e : KernelEvent) : CurrentAddr :=
  mkCurrentAddr (ev_CIDR e) (ev_Family e) (ev_Flags e) (ev_Scope e) (ev_PreferredLifetime e)
    (ev_ValidLifetime e) (ev_ObservedAt e) (ev_Origin e).

Definition is_inet6 (family : string) : bool := bool_decide (family = "inet6"%string).

(** The link fields an observation replaces. *)
Definition set_observed (name : string) (index : Z) (link observation : string) (obsAt : Z)
    (reason : string) (observedAt : Z) (c : ConnectionState) : ConnectionState :=
  mkConnectionState (cs_ID c) (ConfiguredName c) (cs_Owner c) name index link observation obsAt
    reason observedAt (cs_LastApply c) (cs_IPv4 c) (cs_IPv6 c) (Recent c).

Definition observed_family (addresses : list CurrentAddr) (routes : list CurrentRoute) (f : FamilyState) :
    FamilyState := set_fs_Routes routes (set_fs_Addresses addresses f).

Definition applyObservedSnapshot (snapshot : KernelSnapshot) (current : ConnectionState) : ConnectionState :=
  let link := if 0 <? ks_IfIndex snapshot then (if ks_LinkUp snapshot then "up" else "down") else "absent" in
  let c := set_observed (ks_ActualIface snapshot) (ks_IfIndex snapshot) link "fresh"
             (ks_ObservedAt snapshot) "" (ks_ObservedAt snapshot) current in
  let part {A} (family : A -> string) (v6 : bool) (l : list A) :=
    List.filter (fun x => Bool.eqb (is_inet6 (family x)) v6) l in
  set_cs_IPv6 (observed_family (part ca_Family true (ks_Addresses snapshot))
                 (part cr_Family true (ks_Routes snapshot)) (cs_IPv6 c))
    (set_cs_IPv4 (observed_family (part ca_Family false (ks_Addresses snapshot))
                    (part cr_Family false (ks_Routes snapshot)) (cs_IPv4 c)) c).

Definition applyObservedDelta (e : KernelEvent) (current : ConnectionState) : ConnectionState :=
  let c := set_observed (ev_ActualIface e) (ev_IfIndex e) (LinkState current) (cs_Observation current)
             (ObservationAt current) (ObservationReason current) (ev_ObservedAt e) current in
  let family := if is_inet6 (ev_Family e) then "ipv6" else "ipv4" in
  let state := if is_inet6 (ev_Family e) then cs_IPv6 c else cs_IPv4 c in
  match ev_Kind e with
  | EvLinkUp => set_LinkState "up" c
  | EvLinkDown => set_LinkState "down" c
  | EvAddrAdded =>
      set_familyState family (set_fs_Addresses (appendOrReplaceAddress (fs_Addresses state) (addressFromEvent e)) state) c
  | EvAddrDeleted => set_familyState family (set_fs_Addresses (removeAddress (fs_Addresses state) (ev_CIDR e)) state) c
  | EvRouteAdded =>
      set_familyState family (set_fs_Routes (appendOrReplaceRoute (fs_Routes state) (routeFromEvent e)) state) c
  | EvRouteDeleted =>
      set_familyState family (set_fs_Routes (removeRoute (fs_Routes state) (routeFromEvent e)) state) c
  | EvUnknown | EvResync | EvObservationStale | EvObservationFailed | EvUplinkReturned => c
  end.

Definition bool_text (b : bool) : string := if b then "true" else "false".

Definition addressObservationState (a : CurrentAddr) : string :=
  "flags=" +:+ itoa (ca_Flags a) +:+ " preferred=" +:+ bool_text (0 <? ca_PreferredLifetime a)
  +:+ " valid=" +:+ bool_text (0 <? ca_ValidLifetime a).

Definition routeTransitionReason (r : CurrentRoute) (action : string) : string :=
  "kernel route " +:+ cr_Dest r +:+ " via " +:+ cr_Via r +:+ " on " +:+ cr_Dev r +:+ " in table "
  +:+ itoa (cr_TableID r) +:+ ", protocol " +:+ itoa (cr_Protocol r) +:+ ", metric "
  +:+ itoa (cr_Metric r) +:+ " " +:+ action.

(** The changes between two observations of a family: previous and next state, the
    operation and the reason of each transition, in the order they are recorded. *)
Definition same_cidr (a b : CurrentAddr) : bool := bool_decide (ca_CIDR a = ca_CIDR b).

Definition address_change (before : list CurrentAddr) (a : CurrentAddr) : list (string * string * string * string) :=
  match List.find (same_cidr a) before with
  | None => [("absent", "present", "observe-address", "kernel address " +:+ ca_CIDR a +:+ " added")]
  | Some old =>
      let b := addressObservationState old in
      let n := addressObservationState a in
      if neqs b n
      then [(b, n, "observe-address", "kernel address " +:+ ca_CIDR a +:+ " flags or validity changed")]
      else []
  end%string.

Definition family_changes (previous next : FamilyState) : list (string * string * string * string) :=
  (flat_map (fun a => if existsb (same_cidr a) (fs_Addresses next) then []
     else [("present", "absent", "observe-address", "kernel address " +:+ ca_CIDR a +:+ " removed")%string])
     (fs_Addresses previous)) ++
  flat_map (address_change (fs_Addresses previous)) (fs_Addresses next) ++
  (flat_map (fun r => if existsb (fun c => sameRoute c r) (fs_Routes next) then []
     else [("present", "absent", "observe-route", routeTransitionReason r "removed")%string])
     (fs_Routes previous)) ++
  (flat_map (fun r => if existsb (fun c => sameRoute c r) (fs_Routes previous) then []
     else [("absent", "present", "observe-route", routeTransitionReason r "added")%string])
     (fs_Routes next)).

(** Record [changes] of [family] as transitions, collecting them. *)
Definition add_changes (family : string) (changes : list (string * string * string * string))
    (acc : ConnectionState * list Transition) : SM (ConnectionState * list Transition) :=
  foldM (fun acc ch =>
    let '(p, n, op, reason) := ch in
    r ← addTransitionLocked acc.1 family p n op "kernel" reason (cs_ObservedAt acc.1);
    mret (r.1, acc.2 ++ [r.2])) acc changes.

Definition appendFamilyObservationTransitionsLocked (family : string) (previous next : FamilyState)
    (acc : ConnectionState * list Transition) : SM (ConnectionState * list Transition) :=
  add_changes family (family_changes previous next) acc.

Definition stale_kind (k : EventKind) : bool :=
  match k with EvObservationStale | EvObservationFailed => true | _ => false end.

Definition observe_transitions (previous current : ConnectionState) : SM (ConnectionState * list Transition) :=
  if bool_decide (cs_Observation previous = "unknown"%string) then mret (current, [])
  else
    acc ← (if neqs (LinkState previous) (LinkState current) then
             r ← addTransitionLocked current "link" (LinkState previous) (LinkState current)
                   "observe-link" "kernel" "kernel link state changed" (cs_ObservedAt current);
             mret (r.1, [r.2])
           else mret (current, []));
    acc ← appendFamilyObservationTransitionsLocked "ipv4" (cs_IPv4 previous) (cs_IPv4 current) acc;
    appendFamilyObservationTransitionsLocked "ipv6" (cs_IPv6 previous) (cs_IPv6 current) acc.

Definition store_observed (id : string) (previous current : ConnectionState) : SM unit :=
  r ← observe_transitions previous current;
  putConnection id r.1 ;;
  forM r.2 (fun t => logOwnershipTransition id (Some t)).

Definition RecordObservation (e : KernelEvent) : SM unit :=
  let id := ev_ConnectionID e in
  if bool_decide (id = ""%string) then mret tt
  else if stale_kind (ev_Kind e) then
    on_connection id (fun current =>
      let previous := cs_Observation current in
      let observation := if bool_decide (ev_Kind e = EvObservationFailed) then "failed" else "stale" in
      let current := set_observed (ActualName current) (cs_IfIndex current) (LinkState current)
                       observation (ev_ObservedAt e) (ev_Reason e) (cs_ObservedAt current) current in
      transition_if (neqs previous observation) current "link" previous observation "observe"
        "netlink" (ev_Reason e) (mret (ev_ObservedAt e)))
  else
    c ← getStore (fun s => connections s !! id);
    match c with
    | None => mret tt
    | Some current =>
        if neqs (cs_Observation current) "fresh" && negb (bool_decide (ev_Kind e = EvResync)) then mret tt
        else match (if bool_decide (ev_Kind e = EvResync) then ev_Snapshot e else None) with
             | Some snapshot => store_observed id current (applyObservedSnapshot snapshot current)
             | None => if SnapshotReplay e then mret tt
                       else store_observed id current (applyObservedDelta e current)
             end
    end.

(** ** Health, routing, translation (wanstate.go, npt.go) *)

Definition Observe (o : Z) : SM Z :=
  updStore (fun s => set_observer (Some o) (set_observerGeneration (incr_u64 (observerGeneration s)) s)) ;;
  getStore observerGeneration.

(** The function [Observe] returned with [generation]. *)
Definition Unobserve (generation : Z) : SM unit :=
  updStore (fun s => if observerGeneration s =? generation then set_observer None s else s).

Definition NotifyHealthTransition (member : string) (from to : wanHealth) : SM unit :=
  o ← getStore observer;
  match o with
  | Some o => tell (ObservedHealth o member from to)
  | None => mret tt
  end.

Definition SetHealth (members : gmap string MemberHealth) : SM unit := updStore (set_st_health members).

Definition ready_text (b : bool) : string := if b then "ready" else "not-ready".

(** The routing verdicts of one member, with a transition per family that changed. *)
Definition routing_change (family previous current previousReason reason : string)
    (acc : ConnectionState * list Transition) : SM (ConnectionState * list Transition) :=
  let unchanged := bool_decide (previous = current) && bool_decide (previousReason = reason) in
  if bool_decide (previous = "unknown"%string) || unchanged then mret acc
  else
    let reason := if bool_decide (reason = ""%string) then "routing readiness changed" else reason in
    t ← clockNow;
    r ← addTransitionLocked acc.1 family previous current "evaluate-routing" "wan-routes" reason t;
    mret (r.1, acc.2 ++ [r.2]).

Definition set_routing (ready : bool) (reason : string) (f : FamilyState) : FamilyState :=
  set_routingReason reason (set_fs_Routing (ready_text ready) f).

Definition route_member (m : MemberRouting) (c : ConnectionState) : SM (ConnectionState * list Transition) :=
  let old4 := cs_IPv4 c in
  let old6 := cs_IPv6 c in
  let c := set_cs_IPv6 (set_routing (V6Ready m) (V6Reason m) old6)
             (set_cs_IPv4 (set_routing (V4Ready m) (V4Reason m) old4) c) in
  acc ← routing_change "ipv4" (fs_Routing old4) (ready_text (V4Ready m)) (routingReason old4) (V4Reason m) (c, []);
  routing_change "ipv6" (fs_Routing old6) (ready_text (V6Ready m)) (routingReason old6) (V6Reason m) acc.

(** [members] lists the map in the order the loop visits it. *)
Definition SetRouting (tier : Z) (members : list (string * MemberRouting)) : SM unit :=
  previousTier ← getStore activeTier;
  previousValid ← getStore tierValid;
  updStore (fun s => set_st_routing (list_to_map members) (set_tierValid true (set_activeTier tier s))) ;;
  transitions ← foldM (fun acc im =>
    c ← getStore (fun s => connections s !! im.1);
    match c with
    | None => mret acc
    | Some connection =>
        r ← route_member im.2 connection;
        putConnection im.1 r.1 ;;
        mret (acc ++ map (fun t => (im.1, t)) r.2)
    end) [] members;
  updStore (fun s => set_routingGeneration (incr_u64 (routingGeneration s)) s) ;;
  o ← getStore observer;
  forM transitions (fun it => logOwnershipTransition it.1 (Some it.2)) ;;
  match o with
  | Some o => whenM (previousValid && negb (previousTier =? tier)) (tell (ObservedTier o previousTier tier))
  | None => mret tt
  end.

Definition SetTranslation (members : gmap string MemberTranslation) : SM bool :=
  old ← getStore st_translation;
  updStore (set_st_translation members) ;;
  mret (negb (bool_decide (old = members))).

Definition SetOwnedIntendedRuleset (owner text : string) (reconcileError : option string) : SM unit :=
  updStore (fun s => set_intendedRulesets
    (<[owner := mkOwnedRuleset text (default "" reconcileError)]> (intendedRulesets s)) s).
Definition SetIntendedRuleset (text : string) : SM unit := SetOwnedIntendedRuleset "npt" text None.

Definition SetBGP (b : BGP) : SM unit := updStore (set_st_bgp b).

Definition SetBGPSessions (connectionID : string) (sessions : list SessionState) : SM unit :=
  updStore (fun s => set_bgpSessions (<[connectionID := sessions]> (bgpSessions s)) s).

(** [equalExceptions] compares the sorted, compacted lists, that is, the two sets;
    [EqualPair] compares the mappings and the exception sets. *)
Definition equalExceptions (previous next : list Addr) : bool :=
  forallb (fun a => bool_decide (a ∈ next)) previous && forallb (fun a => bool_decide (a ∈ previous)) next.

Definition EqualPair (previous next : PrefixPair) : bool :=
  bool_decide (ID previous = ID next) && bool_decide (Internal previous = Internal next)
  && bool_decide (External previous = External next)
  && equalExceptions (SourceExceptions previous) (SourceExceptions next)
  && equalExceptions (DestinationExceptions previous) (DestinationExceptions next).

Definition policy_changed (previous next : gmap string PrefixPair) (id : string) : bool :=
  match previous !! id, next !! id with
  | Some p, Some n => negb (EqualPair p n)
  | None, None => false
  | _, _ => true
  end.

(** The changed identities; the code sorts them. *)
Definition changedNPTPolicies (previous next : gmap string PrefixPair) : list string :=
  List.filter (policy_changed previous next) (elements (dom previous ∪ dom next)).

Definition SetNPTTranslation (members : gmap string MemberTranslation) (pairs : gmap string PrefixPair) : SM bool :=
  s ← getStore (fun s => s);
  let policyChanged := negb (bool_decide (changedNPTPolicies (nptPolicies s) pairs = [])) in
  let changed := policyChanged || negb (bool_decide (st_translation s = members)) in
  updStore (fun s => set_nptPolicies pairs (set_st_translation members s)) ;;
  whenM policyChanged (updStore (fun s => set_nptPolicyGeneration (incr_u64 (nptPolicyGeneration s)) s)) ;;
  mret changed.

(** ** Application checks (checks.go) *)

Definition check_verdict (r : Result) : string := (out_Availability r +:+ "/" +:+ out_Outcome r)%string.

Definition empty_endpoint : Endpoint := mkEndpoint "" 0 "" "".
Definition empty_path : Path := mkPath AddrNone AddrNone "" "" "".
Definition empty_result : Result :=
  mkResult "" "" "" "" "" "" empty_endpoint zero_time "" "" "" empty_path 0 "" [] "" None None.

Definition initial_result (spec : CheckSpec) : Result :=
  mkResult (spec_ID spec) (spec_Dimension spec) (spec_Operation spec) (spec_Target spec) ""
    (spec_Family spec) (spec_Observer spec) zero_time AvailabilityMissing OutcomeUnknown
    "no observation completed" empty_path 0 "" [] "" None None.

Definition ConfigureCheck (spec : CheckSpec) (intervalSeconds : Z) : SM (res unit) :=
  match CloneCheck spec with
  | Err e => mret (Err ("copy configured observation: " +:+ e)%string)
  | Ok copied =>
      updStore (fun s => set_st_checks
        (<[spec_ID spec := mkCheckState intervalSeconds copied (initial_result spec) []]> (st_checks s)) s) ;;
      mret (Ok tt)
  end.

(** The stored check, or Go's zero value. *)
Definition empty_check (spec : CheckSpec) : CheckState := mkCheckState 0 spec empty_result [].

Definition last_verdict (c : CheckState) : string :=
  match last (ck_Recent c) with
  | Some t => check_verdict (ct_Result t)
  | None => check_verdict (ck_Result c)
  end.

Definition RecordCheck (spec : CheckSpec) (result : Result) : SM (res unit) :=
  match CloneCheck spec with
  | Err e => mret (Err ("copy check definition: " +:+ e)%string)
  | Ok check_ =>
      match CloneResult result with
      | Err e => mret (Err ("copy check result: " +:+ e)%string)
      | Ok copied =>
          current ← getStore (fun s => default (empty_check check_) (st_checks s !! spec_ID spec));
          let previous := last_verdict current in
          t ← (if neqs previous (check_verdict copied) then
                 id ← nextTransitionID; mret (Some (mkCheckTransition id previous copied))
               else mret None);
          let recent := match t with
                        | Some t => keep_last RecentTransitionLimit (ck_Recent current ++ [t])
                        | None => ck_Recent current
                        end in
          let stored := if neqs (out_Availability copied) AvailabilityStale
                           || is_zero (out_ObservedAt (ck_Result current))
                        then copied else ck_Result current in
          updStore (fun s => set_st_checks
            (<[spec_ID spec := mkCheckState (IntervalSeconds current) check_ stored recent]> (st_checks s)) s) ;;
          l ← getStore transitionLog;
          match t with
          | Some t => whenM l (tell (LoggedCheck (spec_ID spec) t))
          | None => mret tt
          end ;;
          mret (Ok tt)
      end
  end.

(** ** Snapshots *)

Record Snapshot := mkSnapshot {
  Connections : gmap string ConnectionState;
  PendingRemovals : gmap string PendingRemoval;
  Health_ : gmap string MemberHealth;
  Routing : gmap string MemberRouting;
  RoutingGeneration : Z;
  Translation : gmap string MemberTranslation;
  NPTPolicies : gmap string PrefixPair;
  NPTPolicyGeneration : Z;
  ActiveTier_ : Z;
  TierValid : bool;
  BGP_ : BGP;
  BGPSessions : gmap string (list SessionState);
  IntendedByOwner : gmap string OwnedRuleset;
}.

(** [Snapshot], without the application checks and the rendered rules. *)
Definition TakeSnapshot : SM Snapshot :=
  getStore (fun s => mkSnapshot (connections s) (pendingRemovals s) (st_health s) (st_routing s)
    (routingGeneration s) (st_translation s) (nptPolicies s) (nptPolicyGeneration s) (activeTier s)
    (tierValid s) (st_bgp s) (bgpSessions s) (intendedRulesets s)).

(** The check a snapshot serves at [now]. *)
Definition served_check `{!ObservationOps} (now : Z) (c : CheckState) : CheckState :=
  mkCheckState (IntervalSeconds c) (ck_Check c) (FreshResult (ck_Check c) (ck_Result c) now) (ck_Recent c).

Definition ForwardingGenerations : SM (Z * Z) :=
  getStore (fun s => (routingGeneration s, nptPolicyGeneration s)).
End Operations.
End Store.

Arguments mkSsys {DT W}.
Arguments store_ {DT W}.
Arguments sworld {DT W}.
Arguments slog {DT W}.
