(* ===== verification/WanStateProps.v ===== *)
(** * Properties of the live state

    The bounded histories the store keeps stay well formed under every operation, in any
    order; the observed addresses refine a map keyed by prefix; a tier change is reported
    exactly when it happens. *)

From S2P Require Import Prelude GoStrings Effects NptPolicy Intent Observation BgpConfig.
From S2P Require Import Tier Notify Health WanState.

Local Open Scope Z_scope.

(** ** Histories *)

(** Each transition starts where the one before it ended, and changes something. *)
Definition linked (h : list PathTransition) : Prop :=
  forall i a b, h !! i = Some a -> h !! S i = Some b ->
    pt_Previous b = pv_State (pt_Current a) /\ pt_Current b <> pt_Current a.

Definition changes_state (t : PathTransition) : bool := neqs (pt_Previous t) (pv_State (pt_Current t)).

Record wf_path (p : PathReadiness) : Prop := {
  wp_bound : (length (History p) <= PathHistoryLimit)%nat;
  wp_linked : linked (History p);
  wp_current : match last (History p) with
               | Some t => pt_Current t = path_Verdict p
               | None => path_Verdict p = path_Verdict noPath
               end;
  wp_since : match last (List.filter changes_state (History p)) with
             | Some t => Since p = pt_At t
             | None => True
             end;
}.

Record wf_connection (c : ConnectionState) : Prop := {
  wc_recent : (length (Recent c) <= RecentTransitionLimit)%nat;
  wc_v4 : wf_path (fs_Path (cs_IPv4 c));
  wc_v6 : wf_path (fs_Path (cs_IPv6 c));
}.

Lemma length_keep_last {A} n (l : list A) : (length (keep_last n l) <= n)%nat.
Proof. unfold keep_last. rewrite length_skipn. lia. Qed.

Lemma last_keep_last {A} n (l : list A) x : (0 < n)%nat -> last (keep_last n (l ++ [x])) = Some x.
Proof.
  intros Hn. unfold keep_last. rewrite length_app. simpl. rewrite skipn_app.
  replace (length l + 1 - n - length l)%nat with 0%nat by lia. simpl. by rewrite last_snoc.
Qed.

Lemma linked_drop n h : linked h -> linked (skipn n h).
Proof.
  intros H i a b Ha Hb. change (drop n h !! i = Some a) in Ha. change (drop n h !! S i = Some b) in Hb.
  rewrite lookup_drop in Ha, Hb. apply (H (n + i)%nat); [done|]. by rewrite Nat.add_succ_r in Hb.
Qed.

Lemma linked_snoc h t :
  linked h ->
  match last h with
  | Some a => pt_Previous t = pv_State (pt_Current a) /\ pt_Current t <> pt_Current a
  | None => True
  end -> linked (h ++ [t]).
Proof.
  intros Hh Ht i a b Ha Hb. destruct (decide (S i < length h)%nat) as [Hi|Hi].
  - rewrite lookup_app_l in Ha, Hb by lia. by apply (Hh i).
  - assert (S i = length h) as Hl.
    { apply lookup_lt_Some in Hb. rewrite length_app in Hb. simpl in Hb. lia. }
    rewrite lookup_app_l in Ha by lia. rewrite Hl in Hb. rewrite list_lookup_middle in Hb by done.
    injection Hb as <-. rewrite last_lookup in Ht. by replace (pred (length h)) with i in Ht by lia;
      rewrite Ha in Ht.
Qed.

Lemma last_filter_drop {A} (f : A -> bool) n l x :
  last (List.filter f (skipn n l)) = Some x -> last (List.filter f l) = Some x.
Proof.
  intros H. rewrite <- (firstn_skipn n l) at 1. rewrite List.filter_app, last_app. by rewrite H.
Qed.

Lemma wf_noPath : wf_path noPath.
Proof. split; simpl; [unfold PathHistoryLimit; lia| |done|done]. intros i a b Ha. by rewrite lookup_nil in Ha. Qed.

Section Invariant.
Context `{DT : !DistributionTypes} {W : Type} `{SW : !StoreWorld W}.
Implicit Types (s : ssys W) (c : ConnectionState).

Lemma wf_new_connection connection : wf_connection (new_connection connection).
Proof. split; [simpl; unfold RecentTransitionLimit; lia|apply wf_noPath|apply wf_noPath]. Qed.

(** A new verdict extends the history by one linked transition. *)
Lemma wf_path_extend p id at_ verdict :
  wf_path p -> path_Verdict p <> verdict ->
  let t := mkPathTransition id at_ (pv_State (path_Verdict p)) verdict in
  wf_path (mkPathReadiness verdict
    (if neqs (pv_State (path_Verdict p)) (pv_State verdict) then at_ else Since p)
    (keep_last PathHistoryLimit (History p ++ [t]))).
Proof.
  intros [Hb Hl Hc Hs] Hne t. split; cbn [History path_Verdict Since].
  - apply length_keep_last.
  - apply linked_drop, linked_snoc; [done|]. destruct (last (History p)) as [a|]; [|done].
    subst t. cbn. rewrite Hc. split; [done|congruence].
  - rewrite last_keep_last; [done|]. unfold PathHistoryLimit. lia.
  - destruct (last (List.filter changes_state (keep_last _ _))) as [u|] eqn:Hu; [|done].
    apply last_filter_drop in Hu. rewrite List.filter_app in Hu.
    assert (changes_state t = neqs (pv_State (path_Verdict p)) (pv_State verdict)) as Ht by done.
    cbn [List.filter] in Hu. rewrite Ht in Hu. destruct (neqs _ _).
    + rewrite last_snoc in Hu. by injection Hu as <-.
    + rewrite app_nil_r in Hu. by rewrite Hu in Hs.
Qed.

(** *** The store's invariant *)

Definition wf_store (st : Store) : Prop :=
  (forall id c, connections st !! id = Some c -> wf_connection c) /\
  (forall id k, st_checks st !! id = Some k -> (length (ck_Recent k) <= RecentTransitionLimit)%nat).

(** A program that keeps the invariant. *)
Definition keeps_wf s s' : Prop := wf_store (store_ s) -> wf_store (store_ s').
#[local] Instance keeps_wf_preorder : PreOrder keeps_wf.
Proof. split; unfold keeps_wf; auto. Qed.

Lemma keeps_clock : sat (clockNow (W:=W)) keeps_wf.
Proof. intros s. unfold clockNow, keeps_wf. by destruct (wallNow (sworld s)). Qed.
Lemma keeps_tell e : sat (tell (W:=W) e) keeps_wf.
Proof. by intros s Hs. Qed.
Lemma keeps_upd f :
  (forall st, connections (f st) = connections st /\ st_checks (f st) = st_checks st) ->
  sat (updStore (W:=W) f) keeps_wf.
Proof. intros H s [H1 H2]. destruct (H (store_ s)) as [E1 E2]. unfold wf_store. cbn. by rewrite E1, E2. Qed.

(** [returns Q m]: from a well-formed store, [m] returns a value in [Q] and keeps it so. *)
Definition returns {A} (Q : A -> Prop) (m : M (ssys W) A) : Prop :=
  forall s, wf_store (store_ s) -> wp m (fun a s' => Q a /\ wf_store (store_ s')) s.

Lemma returns_ret {A} (Q : A -> Prop) a : Q a -> returns Q (mret a).
Proof. by intros HQ s Hs. Qed.
Lemma returns_bind {A B} (P : A -> Prop) (Q : B -> Prop) (m : M (ssys W) A) (k : A -> M (ssys W) B) :
  returns P m -> (forall a, P a -> returns Q (k a)) -> returns Q (m ≫= k).
Proof.
  intros Hm Hk s Hs. apply wp_bind. eapply wp_mono; [by apply Hm|]. intros a s' [Ha Hs']. by apply Hk.
Qed.
Lemma returns_sat {A} (m : M (ssys W) A) : sat m keeps_wf -> returns (fun _ => True) m.
Proof. intros H s Hs. split; [done|]. by apply H. Qed.
Lemma returns_weaken {A} (P Q : A -> Prop) (m : M (ssys W) A) :
  returns P m -> (forall a, P a -> Q a) -> returns Q m.
Proof. intros H HQ s Hs. eapply wp_mono; [by apply H|]. intros a s' [Ha Hs']. auto. Qed.
Lemma sat_of_returns {A} (Q : A -> Prop) (m : M (ssys W) A) : returns Q m -> sat m keeps_wf.
Proof. intros H s Hs. by apply H. Qed.

Lemma keeps_nextID : sat (nextTransitionID (W:=W)) keeps_wf.
Proof.
  unfold nextTransitionID. apply sat_bind; [apply _|by apply keeps_upd|]. intros. apply sat_gets, _.
Qed.

Lemma returns_connection id :
  returns (fun o => forall c, o = Some c -> wf_connection c) (getStore (W:=W) (fun st => connections st !! id)).
Proof. intros s [H1 H2]. split; [|done]. apply H1. Qed.

Lemma returns_put id c : wf_connection c -> sat (putConnection (W:=W) id c) keeps_wf.
Proof.
  intros Hc s [H1 H2]. split; [|exact H2]. cbn. intros id' c' Hl.
  destruct (decide (id = id')) as [->|Hne].
  - rewrite lookup_insert_eq in Hl. by injection Hl as <-.
  - rewrite lookup_insert_ne in Hl by done. by eapply H1.
Qed.

Lemma keeps_logOwnership id t : sat (logOwnershipTransition (W:=W) id t) keeps_wf.
Proof. unfold logOwnershipTransition. sat_steps ltac:(apply keeps_tell). Qed.
Lemma keeps_logPath id family t : sat (logPathTransition (W:=W) id family t) keeps_wf.
Proof. unfold logPathTransition. sat_steps ltac:(apply keeps_tell). Qed.

(** *** Building blocks of the setters *)

Lemma returns_addTransition c family p n op dep reason at_ :
  wf_connection c ->
  returns (fun r => wf_connection r.1) (addTransitionLocked (W:=W) c family p n op dep reason at_).
Proof.
  intros [H1 H2 H3]. unfold addTransitionLocked. eapply returns_bind; [apply returns_sat, keeps_nextID|].
  intros id _. apply returns_ret. split; cbn; [apply length_keep_last|done|done].
Qed.

Lemma returns_transition_if b c family p n op dep reason at_ :
  wf_connection c -> sat at_ keeps_wf ->
  returns (fun r => wf_connection r.1) (transition_if (W:=W) b c family p n op dep reason at_).
Proof.
  intros Hc Ha. unfold transition_if. destruct b; [|by apply returns_ret].
  eapply returns_bind; [by apply returns_sat|]. intros t _.
  eapply returns_bind; [by apply returns_addTransition|]. intros r Hr. by apply returns_ret.
Qed.

Lemma keeps_on_connection id body :
  (forall c, wf_connection c -> returns (fun r => wf_connection r.1) (body c)) ->
  sat (on_connection (W:=W) id body) keeps_wf.
Proof.
  intros Hb. apply (sat_of_returns (fun _ => True)). unfold on_connection.
  eapply returns_bind; [apply returns_connection|]. intros [c|] Hc; [|by apply returns_ret].
  eapply returns_bind; [by apply Hb, Hc|]. intros r Hr.
  eapply returns_bind; [by apply returns_sat, returns_put|]. intros [] _.
  apply returns_sat, keeps_logOwnership.
Qed.

Definition keeps_path (f f' : FamilyState) : Prop := fs_Path f' = fs_Path f.

Lemma wf_set_family family f f' c :
  wf_connection c -> familyState c family = Some f -> (wf_path (fs_Path f) -> wf_path (fs_Path f')) ->
  wf_connection (set_familyState family f' c).
Proof.
  unfold familyState, set_familyState. intros [H1 H2 H3] Hf Hp.
  destruct (bool_decide _); [injection Hf as <-; split; cbn; auto|].
  destruct (bool_decide _); [injection Hf as <-; split; cbn; auto|done].
Qed.

Lemma wf_family family f c : wf_connection c -> familyState c family = Some f -> wf_path (fs_Path f).
Proof.
  unfold familyState. intros [H1 H2 H3] Hf. destruct (bool_decide _); [by injection Hf as <-|].
  destruct (bool_decide _); [by injection Hf as <-|done].
Qed.

Lemma keeps_on_family id family body :
  (forall c f, wf_connection c -> familyState c family = Some f ->
     returns (fun r => wf_connection r.1) (body c f)) ->
  sat (on_family (W:=W) id family body) keeps_wf.
Proof.
  intros Hb. apply (sat_of_returns (fun _ => True)). unfold on_family.
  eapply returns_bind; [apply returns_connection|]. intros [c|] Hc; [|by apply returns_ret].
  destruct (familyState c family) as [f|] eqn:Hf; [|by apply returns_ret].
  eapply returns_bind; [by apply Hb; [apply Hc|]|]. intros r Hr.
  eapply returns_bind; [by apply returns_sat, returns_put|]. intros [] _.
  apply returns_sat, keeps_logOwnership.
Qed.

Lemma keeps_stamped r : sat (stamped (W:=W) r) keeps_wf.
Proof. unfold stamped. sat_steps ltac:(apply keeps_clock). Qed.

(** *** The setters *)

(** Close the body of a setter that leaves the paths alone. *)
Ltac setter :=
  intros; cbv zeta; apply returns_transition_if;
  [first [ by eapply wf_set_family | match goal with H : wf_connection _ |- _ => by destruct H; split end ]
  |first [ apply keeps_clock | apply sat_ret, _ ]].

Lemma keeps_SetLeasePersistence id family result reason :
  sat (SetLeasePersistence (W:=W) id family result reason) keeps_wf.
Proof. apply keeps_on_family. setter. Qed.
Lemma keeps_SetFamilyApplyResult id family r : sat (SetFamilyApplyResult (W:=W) id family r) keeps_wf.
Proof.
  apply sat_bind; [apply _|apply keeps_stamped|]. intros. apply keeps_on_family. setter.
Qed.
Lemma keeps_SetApplyResult id r : sat (SetApplyResult (W:=W) id r) keeps_wf.
Proof.
  apply sat_bind; [apply _|apply keeps_stamped|]. intros. apply keeps_on_connection. setter.
Qed.
Lemma keeps_SetAssignment id family a v l : sat (SetAssignment (W:=W) id family a v l) keeps_wf.
Proof. apply keeps_on_family. setter. Qed.
Lemma returns_applyReadiness c f family r :
  wf_connection c -> familyState c family = Some f ->
  returns (fun x => wf_connection x.1) (applyReadinessLocked (W:=W) c f family r).
Proof. setter. Qed.
Lemma keeps_SetReadiness id family r : sat (SetReadiness (W:=W) id family r) keeps_wf.
Proof. apply keeps_on_family. intros. by apply returns_applyReadiness. Qed.
Lemma keeps_SetFirewallProtection id family v : sat (SetFirewallProtection (W:=W) id family v) keeps_wf.
Proof. apply keeps_on_family. setter. Qed.

Lemma keeps_SetConnections conns : sat (SetConnections (W:=W) conns) keeps_wf.
Proof.
  intros s [H1 H2]. split; [|exact H2]. cbn. revert H1. generalize (connections (store_ s)) as m.
  induction conns as [|c conns IH]; intros m Hm; [exact Hm|]. cbn [fold_left]. apply IH.
  intros id c' Hl. destruct (m !! conn_ID c) eqn:E; [by eapply Hm|].
  destruct (decide (conn_ID c = id)) as [<-|Hne].
  - rewrite lookup_insert_eq in Hl. injection Hl as <-. apply wf_new_connection.
  - rewrite lookup_insert_ne in Hl by done. by eapply Hm.
Qed.

Lemma keeps_ReplacePendingRemovals l : sat (ReplacePendingRemovals (W:=W) l) keeps_wf.
Proof.
  unfold ReplacePendingRemovals.
  sat_steps ltac:(first [apply keeps_stamped|by apply keeps_upd]).
Qed.

(** *** Paths *)

Lemma returns_applyPath f verdict :
  wf_path (fs_Path f) -> returns (fun r => wf_path (fs_Path r.1)) (applyPathLocked (W:=W) f verdict).
Proof.
  intros Hp. unfold applyPathLocked. case_bool_decide as Hne; [by apply returns_ret|].
  eapply returns_bind; [apply returns_sat, keeps_nextID|]. intros id _.
  eapply returns_bind; [apply returns_sat, keeps_clock|]. intros t _.
  apply returns_ret. cbn [fst fs_Path set_fs_Path]. by apply wf_path_extend.
Qed.

Lemma keeps_SetPathReadiness id family v : sat (SetPathReadiness (W:=W) id family v) keeps_wf.
Proof.
  apply (sat_of_returns (fun _ => True)). unfold SetPathReadiness.
  eapply returns_bind; [apply returns_connection|]. intros [c|] Hc; [|by apply returns_ret].
  destruct (familyState c family) as [f|] eqn:Hf; [|by apply returns_ret]. specialize (Hc c eq_refl).
  eapply returns_bind; [apply returns_applyPath; by eapply wf_family|]. intros r Hr.
  eapply returns_bind; [apply returns_sat, returns_put; by eapply wf_set_family|]. intros [] _.
  apply returns_sat, keeps_logPath.
Qed.

Lemma familyState_shape c c' family f :
  familyState c family = Some f -> exists f', familyState c' family = Some f'.
Proof. unfold familyState. repeat case_bool_decide; intros; by eauto. Qed.

Lemma keeps_SetFamilyReadiness id family r v : sat (SetFamilyReadiness (W:=W) id family r v) keeps_wf.
Proof.
  apply (sat_of_returns (fun _ => True)). unfold SetFamilyReadiness.
  eapply returns_bind; [apply returns_connection|]. intros [c|] Hc; [|by apply returns_ret].
  destruct (familyState c family) as [f|] eqn:Hf; [|by apply returns_ret]. specialize (Hc c eq_refl).
  eapply returns_bind; [by apply returns_applyReadiness|]. intros x Hx.
  eapply returns_bind; [apply returns_applyPath; by eapply (wf_family family f c)|]. intros p Hp.
  eapply returns_bind.
  { apply returns_sat, returns_put. destruct (familyState_shape c x.1 family f Hf) as [f' Hf'].
    by eapply wf_set_family. }
  intros [] _. eapply returns_bind; [apply returns_sat, keeps_logOwnership|]. intros [] _.
  apply returns_sat, keeps_logPath.
Qed.

(** *** Observations and routing *)

Definition wf_acc (acc : ConnectionState * list Transition) : Prop := wf_connection acc.1.

Lemma returns_foldM {A B} (Q : B -> Prop) (body : B -> A -> M (ssys W) B) acc xs :
  Q acc -> (forall acc x, Q acc -> returns Q (body acc x)) -> returns Q (foldM body acc xs).
Proof.
  intros Hacc Hb. revert acc Hacc. induction xs as [|x xs IH]; intros acc Hacc; cbn [foldM].
  - by apply returns_ret.
  - eapply returns_bind; [by apply Hb|]. intros acc' Hacc'. by apply IH.
Qed.

Lemma returns_add_one acc family p n op dep reason t :
  wf_acc acc -> returns wf_acc (r ← addTransitionLocked (W:=W) acc.1 family p n op dep reason t;
                                mret (r.1, acc.2 ++ [r.2])).
Proof. intros H. eapply returns_bind; [by apply returns_addTransition|]. intros r Hr. by apply returns_ret. Qed.

Lemma returns_add_changes family changes acc :
  wf_acc acc -> returns wf_acc (add_changes (W:=W) family changes acc).
Proof.
  intros H. apply returns_foldM; [done|]. intros a [[[p n] op] reason] Ha. by apply returns_add_one.
Qed.

Lemma returns_observe_transitions p c : wf_connection c -> returns wf_acc (observe_transitions (W:=W) p c).
Proof.
  intros Hc. unfold observe_transitions. destruct (bool_decide _); [by apply returns_ret|].
  eapply (returns_bind wf_acc).
  { destruct (neqs _ _); [|by apply returns_ret]. apply (returns_add_one (c, [])). exact Hc. }
  intros acc Hacc. eapply returns_bind; [by apply returns_add_changes|]. intros acc' Hacc'.
  by apply returns_add_changes.
Qed.

Lemma keeps_store_observed id p c : wf_connection c -> sat (store_observed (W:=W) id p c) keeps_wf.
Proof.
  intros Hc. apply (sat_of_returns (fun _ => True)). unfold store_observed.
  eapply returns_bind; [by apply returns_observe_transitions|]. intros r Hr.
  eapply returns_bind; [by apply returns_sat, returns_put|]. intros [] _.
  apply returns_sat. unfold forM. sat_steps ltac:(apply keeps_logOwnership).
Qed.

Lemma wf_applyObservedDelta e c : wf_connection c -> wf_connection (applyObservedDelta e c).
Proof.
  intros [H1 H2 H3]. unfold applyObservedDelta, set_familyState. cbv zeta.
  destruct (ev_Kind e), (is_inet6 (ev_Family e)); by split.
Qed.

Lemma keeps_RecordObservation e : sat (RecordObservation (W:=W) e) keeps_wf.
Proof.
  unfold RecordObservation. cbv zeta. destruct (bool_decide _); [apply sat_ret, _|].
  destruct (stale_kind _); [apply keeps_on_connection; setter|].
  apply (sat_of_returns (fun _ => True)). eapply returns_bind; [apply returns_connection|].
  intros [c|] Hc; [|by apply returns_ret]. specialize (Hc c eq_refl).
  destruct (_ && _); [by apply returns_ret|].
  destruct (if bool_decide _ then _ else _) as [k|].
  - apply returns_sat, keeps_store_observed. by destruct Hc; split.
  - destruct (SnapshotReplay e); [by apply returns_ret|].
    by apply returns_sat, keeps_store_observed, wf_applyObservedDelta.
Qed.

Lemma returns_routing_change family p n pr r acc :
  wf_acc acc -> returns wf_acc (routing_change (W:=W) family p n pr r acc).
Proof.
  intros Ha. unfold routing_change. cbv zeta. destruct (_ || _); [by apply returns_ret|].
  eapply returns_bind; [apply returns_sat, keeps_clock|]. intros t _. by apply returns_add_one.
Qed.

Lemma returns_route_member m c : wf_connection c -> returns wf_acc (route_member (W:=W) m c).
Proof.
  intros [H1 H2 H3]. unfold route_member. cbv zeta.
  eapply returns_bind; [by apply returns_routing_change; split|]. intros acc Hacc.
  by apply returns_routing_change.
Qed.

Lemma keeps_SetRouting tier members : sat (SetRouting (W:=W) tier members) keeps_wf.
Proof.
  unfold SetRouting. apply sat_bind; [apply _|apply sat_gets, _|]. intros pt.
  apply sat_bind; [apply _|apply sat_gets, _|]. intros pv.
  apply sat_bind; [apply _|by apply keeps_upd|]. intros [].
  apply sat_bind; [apply _| |].
  { apply (sat_of_returns (fun _ => True)). apply returns_foldM; [done|]. intros acc [id m] _.
    eapply returns_bind; [apply returns_connection|]. intros [c|] Hc; [|by apply returns_ret].
    eapply returns_bind; [by apply returns_route_member, Hc|]. intros r Hr.
    eapply returns_bind; [by apply returns_sat, returns_put|]. intros [] _. by apply returns_ret. }
  intros ts. unfold forM.
  sat_steps ltac:(first [by apply keeps_upd|apply keeps_logOwnership|apply keeps_tell]).
Qed.

(** *** Checks *)

Lemma keeps_set_check id k :
  (length (ck_Recent k) <= RecentTransitionLimit)%nat ->
  sat (updStore (W:=W) (fun st => set_st_checks (<[id := k]> (st_checks st)) st)) keeps_wf.
Proof.
  intros Hk s [H1 H2]. split; [exact H1|]. cbn. intros id' k' Hl.
  destruct (decide (id = id')) as [->|Hne].
  - rewrite lookup_insert_eq in Hl. by injection Hl as <-.
  - rewrite lookup_insert_ne in Hl by done. by eapply H2.
Qed.

Lemma keeps_ConfigureCheck spec n : sat (ConfigureCheck (W:=W) spec n) keeps_wf.
Proof.
  unfold ConfigureCheck. destruct (CloneCheck spec); [|apply sat_ret, _].
  apply sat_bind; [apply _|apply keeps_set_check; simpl; unfold RecentTransitionLimit; lia|].
  intros. apply sat_ret, _.
Qed.

Lemma keeps_RecordCheck spec result : sat (RecordCheck (W:=W) spec result) keeps_wf.
Proof.
  unfold RecordCheck. destruct (CloneCheck spec) as [k|]; [|apply sat_ret, _].
  destruct (CloneResult result) as [r|]; [|apply sat_ret, _].
  apply (sat_of_returns (fun _ => True)).
  apply (returns_bind (fun k : CheckState => length (ck_Recent k) <= RecentTransitionLimit)%nat).
  { intros s [H1 H2]. split; [|done]. cbn.
    destruct (st_checks (store_ s) !! spec_ID spec) eqn:E; cbn; [by eapply H2|unfold RecentTransitionLimit; lia]. }
  intros cur Hc. cbv zeta. eapply returns_bind.
  { apply returns_sat. sat_steps ltac:(apply keeps_nextID). }
  intros t _. eapply returns_bind.
  { apply returns_sat, keeps_set_check. cbn. destruct t; [apply length_keep_last|done]. }
  intros [] _. apply returns_sat. sat_steps ltac:(apply keeps_tell).
Qed.

(** ** Runs of the store *)

Inductive store_op :=
| OpSetConnections (conns : list Connection)
| OpSetAssignment (id family acquisition validity : string) (l : list Assignment)
| OpSetReadiness (id family readiness : string)
| OpSetApplyResult (id : string) (r : ApplyResult)
| OpSetFamilyApplyResult (id family : string) (r : ApplyResult)
| OpSetLeasePersistence (id family result reason : string)
| OpSetFirewallProtection (id family verdict : string)
| OpReplacePendingRemovals (l : list PendingRemoval)
| OpRecordObservation (e : KernelEvent)
| OpSetPathReadiness (id family : string) (v : PathVerdict)
| OpSetFamilyReadiness (id family readiness : string) (v : PathVerdict)
| OpSetTransitionLogger (run : string) (logger : bool)
| OpObserve (o : Z)
| OpUnobserve (generation : Z)
| OpNotifyHealthTransition (member : string) (from to : wanHealth)
| OpSetHealth (members : gmap string MemberHealth)
| OpSetRouting (tier : Z) (members : list (string * MemberRouting))
| OpSetTranslation (members : gmap string MemberTranslation)
| OpSetNPTTranslation (members : gmap string MemberTranslation) (pairs : gmap string PrefixPair)
| OpSetOwnedIntendedRuleset (owner text : string) (e : option string)
| OpSetBGP (b : BGP)
| OpSetBGPSessions (id : string) (l : list SessionState)
| OpConfigureCheck (spec : CheckSpec) (n : Z)
| OpRecordCheck (spec : CheckSpec) (r : Result).

Definition void {A} (m : M (ssys W) A) : M (ssys W) unit := m ;; mret tt.

Definition run_store_op (op : store_op) : M (ssys W) unit :=
  match op with
  | OpSetConnections conns => SetConnections conns
  | OpSetAssignment id family a v l => SetAssignment id family a v l
  | OpSetReadiness id family r => SetReadiness id family r
  | OpSetApplyResult id r => SetApplyResult id r
  | OpSetFamilyApplyResult id family r => SetFamilyApplyResult id family r
  | OpSetLeasePersistence id family r reason => SetLeasePersistence id family r reason
  | OpSetFirewallProtection id family v => SetFirewallProtection id family v
  | OpReplacePendingRemovals l => ReplacePendingRemovals l
  | OpRecordObservation e => RecordObservation e
  | OpSetPathReadiness id family v => SetPathReadiness id family v
  | OpSetFamilyReadiness id family r v => SetFamilyReadiness id family r v
  | OpSetTransitionLogger run l => SetTransitionLogger run l
  | OpObserve o => void (Observe o)
  | OpUnobserve g => Unobserve g
  | OpNotifyHealthTransition m from to => NotifyHealthTransition m from to
  | OpSetHealth m => SetHealth m
  | OpSetRouting tier m => SetRouting tier m
  | OpSetTranslation m => void (SetTranslation m)
  | OpSetNPTTranslation m p => void (SetNPTTranslation m p)
  | OpSetOwnedIntendedRuleset o t e => SetOwnedIntendedRuleset o t e
  | OpSetBGP b => SetBGP b
  | OpSetBGPSessions id l => SetBGPSessions id l
  | OpConfigureCheck spec n => void (ConfigureCheck spec n)
  | OpRecordCheck spec r => void (RecordCheck spec r)
  end.

Ltac upd_only :=
  unfold void, Observe, Unobserve, NotifyHealthTransition, SetHealth, SetTranslation, SetNPTTranslation,
    SetOwnedIntendedRuleset, SetBGP, SetBGPSessions, SetTransitionLogger, getStore;
  sat_steps ltac:(first [ apply keeps_tell | by apply keeps_upd
    | apply keeps_upd; intros; case_match; by split
    | apply keeps_ConfigureCheck | apply keeps_RecordCheck ]).

Lemma keeps_run_store_op op : sat (run_store_op op) keeps_wf.
Proof.
  destruct op; cbn [run_store_op];
    first [ apply keeps_SetConnections | apply keeps_SetAssignment | apply keeps_SetReadiness
          | apply keeps_SetApplyResult | apply keeps_SetFamilyApplyResult | apply keeps_SetLeasePersistence
          | apply keeps_SetFirewallProtection | apply keeps_ReplacePendingRemovals
          | apply keeps_RecordObservation | apply keeps_SetPathReadiness | apply keeps_SetFamilyReadiness
          | apply keeps_SetRouting | upd_only ].
Qed.

Inductive store_reachable : ssys W -> Prop :=
| store_start s : store_ s = NewStore -> store_reachable s
| store_next s op : store_reachable s -> store_reachable (run_store_op op s).2.

(** However the modules, the daemon and the kernel monitor interleave their writes,
    the histories the store serves are sound: a connection keeps at most 32 transitions
    and a check at most 32; a path keeps at most 16, each of which starts in the state
    the one before it ended in and changes the verdict; the last one led to the verdict
    now served, and the served start of the current state is the time of the last
    transition that changed the state. *)
Lemma histories_wellformed s :
  store_reachable s ->
  (forall id c, connections (store_ s) !! id = Some c -> wf_connection c) /\
  (forall id k, st_checks (store_ s) !! id = Some k -> (length (ck_Recent k) <= RecentTransitionLimit)%nat).
Proof.
  intros Hr. change (wf_store (store_ s)). induction Hr as [s Hs|s op Hr IH].
  - rewrite Hs. split; intros ? ? Hl; cbn in Hl; by rewrite lookup_empty in Hl.
  - by apply keeps_run_store_op.
Qed.
End Invariant.

(** ** Observed addresses

    What the monitor has told the store about the addresses of a connection, as two maps
    keyed by prefix; [None] while the observation has lost continuity. *)

Definition addr_view (l : list CurrentAddr) : gmap string CurrentAddr :=
  list_to_map ((fun a => (ca_CIDR a, a)) <$> l).

Definition distinct (l : list CurrentAddr) : Prop := NoDup (ca_CIDR <$> l).

Definition kernel_view : Type := option (gmap string CurrentAddr * gmap string CurrentAddr).

Definition kernel_delta (e : KernelEvent) (m : gmap string CurrentAddr) : gmap string CurrentAddr :=
  match ev_Kind e with
  | EvAddrAdded => <[ev_CIDR e := addressFromEvent e]> m
  | EvAddrDeleted => delete (ev_CIDR e) m
  | _ => m
  end.

Definition family_part (v6 : bool) (l : list CurrentAddr) : list CurrentAddr :=
  List.filter (fun a => Bool.eqb (is_inet6 (ca_Family a)) v6) l.

Definition kernel_step (e : KernelEvent) (v : kernel_view) : kernel_view :=
  if stale_kind (ev_Kind e) then None
  else match (if bool_decide (ev_Kind e = EvResync) then ev_Snapshot e else None) with
       | Some k => Some (addr_view (family_part false (ks_Addresses k)), addr_view (family_part true (ks_Addresses k)))
       | None => if SnapshotReplay e then v
                 else match v with
                      | Some (m4, m6) => if is_inet6 (ev_Family e) then Some (m4, kernel_delta e m6)
                                         else Some (kernel_delta e m4, m6)
                      | None => None
                      end
       end.

(** The stored connection and the view agree. *)
Definition represents (c : ConnectionState) (v : kernel_view) : Prop :=
  match v with
  | None => cs_Observation c <> "fresh"%string
  | Some (m4, m6) =>
      cs_Observation c = "fresh"%string /\
      distinct (fs_Addresses (cs_IPv4 c)) /\ addr_view (fs_Addresses (cs_IPv4 c)) = m4 /\
      distinct (fs_Addresses (cs_IPv6 c)) /\ addr_view (fs_Addresses (cs_IPv6 c)) = m6
  end.

(** *** The list operations on the view *)

Lemma addr_view_fresh l cidr : cidr ∉ ca_CIDR <$> l -> addr_view l !! cidr = None.
Proof.
  intros H. apply not_elem_of_list_to_map_1. rewrite <- list_fmap_compose. exact H.
Qed.

Lemma appendOrReplaceAddress_view l a :
  distinct l -> distinct (appendOrReplaceAddress l a) /\
  addr_view (appendOrReplaceAddress l a) = <[ca_CIDR a := a]> (addr_view l).
Proof.
  unfold distinct, appendOrReplaceAddress. induction l as [|x l IH]; cbn; intros Hd.
  - split; [repeat constructor; apply not_elem_of_nil|done].
  - apply NoDup_cons in Hd as [Hx Hl]. case_bool_decide as E; cbn.
    + rewrite E in *. split; [by apply NoDup_cons|]. unfold addr_view. cbn. by rewrite ?E, insert_insert_eq.
    + destruct (IH Hl) as [Hd' Hv]. split.
      * apply NoDup_cons. split; [|exact Hd'].
        assert (forall l, ca_CIDR x ∉ ca_CIDR <$> l ->
          ca_CIDR x ∉ ca_CIDR <$> append_or_replace (fun b => bool_decide (ca_CIDR b = ca_CIDR a)) a l) as Hn.
        { clear -E. induction l as [|y l IHl]; cbn; [set_solver|]. case_bool_decide; cbn; set_solver. }
        by apply Hn.
      * unfold addr_view in *. cbn. rewrite Hv. by rewrite insert_insert_ne.
Qed.

Lemma removeAddress_view l cidr :
  distinct l -> distinct (removeAddress l cidr) /\ addr_view (removeAddress l cidr) = delete cidr (addr_view l).
Proof.
  unfold distinct, removeAddress, neqs. induction l as [|x l IH]; cbn; intros Hd.
  - split; [done|]. unfold addr_view. cbn. by rewrite delete_empty.
  - apply NoDup_cons in Hd as [Hx Hl]. destruct (IH Hl) as [Hd' Hv]. case_bool_decide as E; cbn.
    + split; [done|]. unfold addr_view in *. cbn in *. by rewrite ?E, delete_insert_eq, Hv.
    + split.
      * apply NoDup_cons. split; [|done]. intros Hin. apply Hx. apply list_elem_of_fmap in Hin as (y & Hy & Hin).
        rewrite Hy. apply list_elem_of_In, filter_In in Hin as [Hin _]. by apply list_elem_of_fmap_2, list_elem_of_In.
      * unfold addr_view in *. cbn. rewrite Hv. by rewrite delete_insert_ne.
Qed.

(** *** The simulation *)

Section Simulation.
Context `{DT : !DistributionTypes} {W : Type} `{SW : !StoreWorld W}.
Implicit Types (s : ssys W) (c : ConnectionState).

(** The connections of the store are untouched. *)
Definition same_connections s s' : Prop := connections (store_ s') = connections (store_ s).
#[local] Instance same_connections_preorder : PreOrder same_connections.
Proof. split; unfold same_connections; [done|congruence]. Qed.

(** Equal but for the recorded transitions. *)
Definition but_recent c c' : Prop := c' = set_Recent (Recent c') c.

Lemma but_recent_refl c : but_recent c c.
Proof. by destruct c. Qed.
Lemma but_recent_recorded c c' l : but_recent c c' -> but_recent c (set_Recent l c').
Proof. intros ->. by destruct c. Qed.

Lemma same_nextID : sat (nextTransitionID (W:=W)) same_connections.
Proof. done. Qed.
Lemma same_clock : sat (clockNow (W:=W)) same_connections.
Proof. intros s. unfold clockNow, same_connections. by destruct (wallNow (sworld s)). Qed.
Lemma same_log id t : sat (logOwnershipTransition (W:=W) id t) same_connections.
Proof. unfold logOwnershipTransition. sat_steps ltac:(by intros s). Qed.

Lemma yields_addTransition c c0 family p n op dep reason at_ :
  but_recent c0 c ->
  yields same_connections (fun r => but_recent c0 r.1) (addTransitionLocked (W:=W) c family p n op dep reason at_).
Proof.
  intros H. unfold addTransitionLocked. eapply yields_bind; [apply _|apply yields_sat, same_nextID|].
  intros id _. apply yields_ret; [apply _|]. by apply but_recent_recorded.
Qed.

Lemma yields_add_changes c0 family changes acc :
  but_recent c0 acc.1 ->
  yields same_connections (fun r => but_recent c0 r.1) (add_changes (W:=W) family changes acc).
Proof.
  intros H. apply yields_foldM; [apply _|done|]. intros a [[[p n] op] reason] Ha.
  eapply yields_bind; [apply _|by apply yields_addTransition|]. intros r Hr. by apply yields_ret; [apply _|].
Qed.

Lemma yields_observe_transitions p c :
  yields same_connections (fun r => but_recent c r.1) (observe_transitions (W:=W) p c).
Proof.
  unfold observe_transitions. destruct (bool_decide _); [apply yields_ret; [apply _|apply but_recent_refl]|].
  eapply (yields_bind _ (fun r => but_recent c r.1)).
  { destruct (neqs _ _); [|apply yields_ret; [apply _|apply but_recent_refl]].
    eapply yields_bind; [apply _|apply yields_addTransition, but_recent_refl|]. intros r Hr.
    by apply yields_ret; [apply _|]. }
  intros acc Hacc. eapply yields_bind; [apply _|by apply yields_add_changes|]. intros acc' Hacc'.
  by apply yields_add_changes.
Qed.

(** The connection is stored with its new transitions; the others stay. *)
Definition stores id c s s' : Prop :=
  exists c', but_recent c c' /\ connections (store_ s') = <[id := c']> (connections (store_ s)).

Lemma store_observed_stores id p c s : stores id c s (store_observed (W:=W) id p c s).2.
Proof.
  change (wp (store_observed id p c) (fun _ s' => stores id c s s') s).
  unfold store_observed. apply wp_bind. eapply wp_yields; [apply yields_observe_transitions|].
  intros r s1 Hr H1. apply wp_bind. unfold wp, putConnection, updStore, modify. cbn [fst snd].
  exists r.1. split; [done|]. etransitivity.
  { apply (sat_foldM same_connections). intros [] t. apply same_log. }
  cbn. by rewrite H1.
Qed.

Lemma represents_but_recent c c' v : but_recent c c' -> represents c v -> represents c' v.
Proof. intros ->. by destruct c. Qed.

Lemma represents_delta e c v :
  stale_kind (ev_Kind e) = false -> represents c v -> SnapshotReplay e = false ->
  (if bool_decide (ev_Kind e = EvResync) then ev_Snapshot e else None) = None ->
  represents (applyObservedDelta e c) (kernel_step e v).
Proof.
  intros Hk Hr Hsr Hsn. unfold kernel_step. rewrite Hk, Hsn, Hsr.
  unfold applyObservedDelta, set_familyState, kernel_delta. cbv zeta.
  destruct v as [[m4 m6]|].
  - destruct Hr as (Hf & H4 & <- & H6 & <-).
    pose proof (appendOrReplaceAddress_view _ (addressFromEvent e) H4) as [A4 B4].
    pose proof (appendOrReplaceAddress_view _ (addressFromEvent e) H6) as [A6 B6].
    pose proof (removeAddress_view _ (ev_CIDR e) H4) as [C4 D4].
    pose proof (removeAddress_view _ (ev_CIDR e) H6) as [C6 D6].
    destruct (is_inet6 (ev_Family e)), (ev_Kind e); try discriminate; by repeat split.
  - destruct (is_inet6 (ev_Family e)), (ev_Kind e); try discriminate; exact Hr.
Qed.

Lemma represents_snapshot k c :
  distinct (family_part false (ks_Addresses k)) -> distinct (family_part true (ks_Addresses k)) ->
  represents (applyObservedSnapshot k c)
    (Some (addr_view (family_part false (ks_Addresses k)), addr_view (family_part true (ks_Addresses k)))).
Proof. intros H4 H6. by repeat split. Qed.

(** What the kernel guarantees of a snapshot: no address twice. *)
Definition sound_event (e : KernelEvent) : Prop :=
  match ev_Snapshot e with
  | Some k => distinct (family_part false (ks_Addresses k)) /\ distinct (family_part true (ks_Addresses k))
  | None => True
  end.

Lemma stale_stores id (body : ConnectionState -> ConnectionState) (b : ConnectionState -> bool)
    (p : ConnectionState -> string) family n op dep reason at_ c s :
  connections (store_ s) !! id = Some c ->
  stores id (body c) s (on_connection (W:=W) id
    (fun c => transition_if (b c) (body c) family (p c) n op dep reason (mret at_)) s).2.
Proof.
  intros Hc. change (wp (on_connection id (fun c => transition_if (b c) (body c) family (p c) n op dep reason (mret at_)))
    (fun _ s' => stores id (body c) s s') s).
  unfold on_connection. apply wp_bind, wp_gets. rewrite Hc. apply wp_bind.
  eapply (wp_yields _ same_connections (fun r => but_recent (body c) r.1)).
  { unfold transition_if. destruct (b c); [|apply yields_ret; [apply _|apply but_recent_refl]].
    eapply yields_bind; [apply _|by apply (yields_ret _ (fun _ => True))|]. intros t _.
    eapply yields_bind; [apply _|apply yields_addTransition, but_recent_refl|]. intros r Hr.
    by apply yields_ret; [apply _|]. }
  intros r s1 Hr H1. apply wp_bind. unfold wp, putConnection, updStore, modify. cbn [fst snd].
  exists r.1. split; [done|]. etransitivity; [apply same_log|]. cbn. by rewrite H1.
Qed.

(** C36. The store follows the kernel: whatever the monitor reports next about a connection,
    if the stored addresses represent what the kernel was known to hold, they represent
    it after the event too.  A snapshot replaces everything, an address event inserts,
    replaces or deletes one prefix of its family, a lost observation makes the stored
    state stale until the next snapshot, and a replayed event changes nothing; no other
    connection is touched. *)
Theorem observation_simulates e s c v :
  ev_ConnectionID e <> ""%string -> sound_event e ->
  connections (store_ s) !! ev_ConnectionID e = Some c -> represents c v ->
  exists c', represents c' (kernel_step e v) /\
    connections (store_ (RecordObservation e s).2) = <[ev_ConnectionID e := c']> (connections (store_ s)).
Proof.
  intros Hid Hsnd Hc Hr. unfold RecordObservation. cbv zeta. rewrite bool_decide_eq_false_2 by done.
  assert (forall c1, represents c1 (kernel_step e v) -> forall s', stores (ev_ConnectionID e) c1 s s' ->
    exists c', represents c' (kernel_step e v) /\
      connections (store_ s') = <[ev_ConnectionID e := c']> (connections (store_ s))) as Hst.
  { intros c1 H1 s' (c' & Hb & Hs'). exists c'. split; [by eapply represents_but_recent|done]. }
  destruct (stale_kind (ev_Kind e)) eqn:Hk.
  - eapply Hst; cycle 1; [by eapply stale_stores|].
    unfold kernel_step. rewrite Hk. simpl. by case_bool_decide.
  - unfold mbind, M_bind, getStore, gets. rewrite Hc.
    assert (forall w, represents w v -> kernel_step e v = v -> exists c', represents c' (kernel_step e v) /\
      connections (store_ s) = <[ev_ConnectionID e := c']> (connections (store_ s))) as Hsame.
    { intros w _ Hv. exists c. rewrite Hv. split; [done|]. by rewrite insert_id. }
    destruct (_ && _) eqn:Hcond.
    + apply (Hsame c Hr). unfold kernel_step. rewrite Hk. bool_prop. rewrite bool_decide_eq_false_2 by done.
      destruct v as [[m4 m6]|]; [|by destruct (SnapshotReplay e)].
      destruct Hr as [Hf _]. unfold neqs in *. bool_prop. done.
    + destruct (if bool_decide _ then _ else _) as [k|] eqn:Hsn.
      * eapply Hst; [|apply store_observed_stores]. unfold kernel_step. rewrite Hk, Hsn.
        unfold sound_event in Hsnd. destruct (bool_decide _); [|done]. rewrite Hsn in Hsnd.
        destruct Hsnd. by apply represents_snapshot.
      * destruct (SnapshotReplay e) eqn:Hsr.
        { apply (Hsame c Hr). unfold kernel_step. by rewrite Hk, Hsn, Hsr. }
        eapply Hst; [|apply store_observed_stores]. by apply represents_delta.
Qed.
End Simulation.

(** ** Tier changes *)

Section Tiers.
Context `{DT : !DistributionTypes} {W : Type} `{SW : !StoreWorld W}.
Implicit Types (s : ssys W) (c : ConnectionState).

(** What the per-connection part of a routing write leaves alone. *)
Definition routing_part s :=
  (activeTier (store_ s), tierValid (store_ s), st_routing (store_ s), routingGeneration (store_ s),
   observer (store_ s), slog s).
Definition same_routing s s' : Prop := routing_part s' = routing_part s.
#[local] Instance same_routing_preorder : PreOrder same_routing.
Proof. split; unfold same_routing; [done|congruence]. Qed.

Lemma same_routing_member m c : sat (route_member (W:=W) m c) same_routing.
Proof.
  unfold route_member, routing_change, addTransitionLocked, nextTransitionID. cbv zeta.
  sat_steps ltac:(first [ by intros s | intros s; unfold clockNow, same_routing; by destruct (wallNow (sworld s)) ]).
Qed.

(** A program that only logs transitions. *)
Definition is_log (e : store_effect) : Prop := match e with LoggedTransition _ _ => True | _ => False end.
Definition only_logs s s' : Prop :=
  store_ s' = store_ s /\ exists new, slog s' = new ++ slog s /\ Forall is_log new.
#[local] Instance only_logs_preorder : PreOrder only_logs.
Proof.
  split.
  - intros s. split; [done|]. by exists [].
  - intros s1 s2 s3 (E1 & n1 & H1 & F1) (E2 & n2 & H2 & F2). split; [congruence|].
    exists (n2 ++ n1). rewrite H2, H1, app_assoc. split; [done|]. by apply Forall_app.
Qed.
Lemma only_logs_one id t : sat (logOwnershipTransition (W:=W) id (Some t)) only_logs.
Proof.
  unfold logOwnershipTransition. sat_steps ltac:(intros s; split; [done|exists [LoggedTransition id t]; by repeat constructor]).
Qed.

(** The part of [SetRouting] after the connections: the generation, the log and the
    observer. *)
Lemma routing_tail pv pt tier ts s :
  wp (updStore (fun st => set_routingGeneration (incr_u64 (routingGeneration st)) st) ;;
      o ← getStore observer;
      forM ts (fun it => logOwnershipTransition it.1 (Some it.2)) ;;
      match o with
      | Some o => whenM (pv && negb (pt =? tier)) (tell (ObservedTier o pt tier))
      | None => mret tt
      end)
    (fun _ s' => store_ s' = set_routingGeneration (incr_u64 (routingGeneration (store_ s))) (store_ s) /\
      exists new, slog s' = new ++ slog s /\ forall o a b, ObservedTier o a b ∈ new <->
        observer (store_ s) = Some o /\ pv = true /\ a = pt /\ b = tier /\ a <> b) s.
Proof.
  apply wp_bind, wp_modify. apply wp_bind, wp_gets. apply wp_bind. unfold forM.
  eapply wp_sat; [apply (sat_foldM only_logs); intros [] it; apply only_logs_one|].
  unfold wp at 1. intros [Hst (new & Hn & HF)]. set (s2 := (foldM _ _ _ _).2) in *. clearbody s2. cbn in Hn, Hst.
  assert (forall o a b, ObservedTier o a b ∈ new -> False) as Hno.
  { intros o a b Hin. rewrite Forall_forall in HF. by apply HF in Hin. }
  match goal with |- context [observer ?x] => change (observer x) with (observer (store_ s)) end.
  destruct (observer (store_ s)) as [o|].
  - apply wp_whenM; intros Hcond; unfold wp; cbn; (split; [exact Hst|]).
    + exists (ObservedTier o pt tier :: new). rewrite Hn. split; [done|].
      bool_prop. intros o' a b. rewrite elem_of_cons. split.
      * intros [[= -> -> ->]|Hin]; [by split_and!|]. exfalso. by eapply Hno.
      * intros ([= ->] & _ & -> & -> & _). by left.
    + exists new. rewrite Hn. split; [done|]. intros o' a b. split; [intros Hin; exfalso; by eapply Hno|].
      intros (_ & -> & -> & -> & Hne). exfalso. simpl in Hcond. bool_prop. done.
  - apply wp_ret. split; [exact Hst|]. exists new. rewrite Hn. split; [done|].
    intros o a b. split; [intros Hin; exfalso; by eapply Hno|]. by intros [? _].
Qed.

(** A routing write is reported as a tier change exactly when it is one: the store takes
    the new tier, the members' decisions and the next generation, and the observer hears
    of a change from the old tier to the new one if and only if an earlier write had
    established a tier and the new one differs; the first write only sets the baseline. *)
Lemma tier_change_reported tier members s :
  let s' := (SetRouting tier members s).2 in
  activeTier (store_ s') = tier /\ tierValid (store_ s') = true /\
  st_routing (store_ s') = list_to_map members /\
  routingGeneration (store_ s') = incr_u64 (routingGeneration (store_ s)) /\
  exists new, slog s' = new ++ slog s /\
    forall o a b, ObservedTier o a b ∈ new <->
      observer (store_ s) = Some o /\ tierValid (store_ s) = true /\
      a = activeTier (store_ s) /\ b = tier /\ a <> b.
Proof.
  cbv zeta.
  change (wp (SetRouting tier members) (fun _ s' =>
    activeTier (store_ s') = tier /\ tierValid (store_ s') = true /\
    st_routing (store_ s') = list_to_map members /\
    routingGeneration (store_ s') = incr_u64 (routingGeneration (store_ s)) /\
    exists new, slog s' = new ++ slog s /\ forall o a b, ObservedTier o a b ∈ new <->
      observer (store_ s) = Some o /\ tierValid (store_ s) = true /\
      a = activeTier (store_ s) /\ b = tier /\ a <> b) s).
  unfold SetRouting. do 2 apply wp_bind, wp_gets. apply wp_bind, wp_modify. apply wp_bind.
  eapply wp_sat; [apply (sat_foldM same_routing)|].
  { intros acc im. sat_steps ltac:(first [ apply same_routing_member | by intros s' ]). }
  unfold wp at 1. intros Hp. unfold same_routing, routing_part in Hp. cbn in Hp.
  set (s1 := (foldM _ _ _ _).2) in *. injection Hp as Ht Hv Hr Hg Ho Hl.
  eapply wp_mono; [apply routing_tail|]. intros _ s' [Hst (new & Hn & Hspec)].
  rewrite Hst. cbn. rewrite Ht, Hv, Hr, Hg. split_and!; try done.
  exists new. rewrite Hn, Hl. split; [done|]. by rewrite <- Ho.
Qed.
End Tiers.
