(* ===== verification/Readiness.v ===== *)
(** * Readiness of provider paths
      (gateway/internal/ifmgr/{path_readiness,family_readiness,module}.go,
       internal/forwardingready/forwardingready.go)

    After a pass the daemon decides, for every connection and address family, whether it
    forwards traffic, and names the dependency that keeps it from doing so.  The decision
    and the explanation are computed from the same inputs by different code: [ready] is a
    conjunction, [dependencies] a list that [pathVerdict] searches.  The theorems relate
    the two. *)

From S2P Require Import Prelude GoStrings NptPolicy Intent.
From S2P Require Import Effects Observation BgpConfig Tier Notify Health WanState.

Local Open Scope Z_scope.

(** [forwardingready.State]. *)
Record FState := mkFState { rdy_IPv4 : bool; rdy_IPv6 : bool }.

Definition not_forwarding : FState := mkFState false false.

(** ** Dependencies *)

Definition pathDependencyStartup : string := "startup".
Definition pathDependencyFamilyEnabled : string := "family-enabled".
Definition pathDependencyRouting : string := "routing".
Definition pathDependencyForwardingProbe : string := "forwarding-probe".
Definition pathDependencyFirewall : string := "firewall".
Definition pathDependencyInternalLink : string := "internal-link".
Definition pathDependencyReconcile : string := "reconcile".
Definition pathDependencyForwarding : string := "forwarding".
Definition firewallUnknown : string := "unknown".
Definition firewallReady : string := "ready".
Definition roleWAN : string := "wan".
Definition familyNameIPv4 : string := "ipv4".
Definition familyNameIPv6 : string := "ipv6".

Inductive routingState := routingPublished | routingFailed | routingNotPublished | routingMemberAbsent.

#[export] Instance routingState_eq_dec : EqDecision routingState.
Proof. solve_decision. Defined.

Record routingEvaluation := mkRoutingEvaluation { re_state : routingState; re_failure : option string }.

Definition newRoutingEvaluation (published : bool) (failure : option string) : routingEvaluation :=
  if published then mkRoutingEvaluation routingPublished None
  else match failure with
       | Some e => mkRoutingEvaluation routingFailed (Some e)
       | None => mkRoutingEvaluation routingNotPublished None
       end.

Definition forMember (evaluation : routingEvaluation) (memberPublished : bool) : routingEvaluation :=
  if bool_decide (re_state evaluation = routingPublished) && negb memberPublished
  then mkRoutingEvaluation routingMemberAbsent (re_failure evaluation)
  else evaluation.

Inductive probeState := probeNotConfigured | probePending | probeFailed | probePassed.

#[export] Instance probeState_eq_dec : EqDecision probeState.
Proof. solve_decision. Defined.

(** The lookup in [memberStates]. *)
Definition memberState (h : wanHealth) : option probeState :=
  if bool_decide (h = HealthHealthy) then Some probePassed
  else if bool_decide (h = HealthUnhealthy) then Some probeFailed
  else None.

Definition familyProbeState (probed : bool) (member : wanHealth) (result : ProbeResult) (family : wanHealth) :
    probeState :=
  let familyProbed := bool_decide (result = ProbePass) || bool_decide (result = ProbeFail) in
  if negb probed then probeNotConfigured
  else match memberState member with
       | None => probePending
       | Some m =>
           if bool_decide (m = probeFailed) || negb familyProbed then m
           else match memberState family with
                | None => probePending
                | Some f => f
                end
       end.

Definition met (name : string) : DependencyResult := mkDependency name DependencyMet "".
Definition pending (name reason : string) : DependencyResult := mkDependency name DependencyPending reason.
Definition unmet (name reason : string) : DependencyResult := mkDependency name DependencyUnmet reason.

Definition enabledResult (enabled : bool) : DependencyResult :=
  if enabled then met pathDependencyFamilyEnabled
  else unmet pathDependencyFamilyEnabled "address family disabled".

Definition routingResult (e : routingEvaluation) : DependencyResult :=
  match re_state e with
  | routingPublished => met pathDependencyRouting
  | routingFailed => unmet pathDependencyRouting ("routing evaluation failed: " +:+ default "" (re_failure e))
  | routingNotPublished => pending pathDependencyRouting "routing evaluation not published"
  | routingMemberAbsent => unmet pathDependencyRouting "routing evaluation has no result for the provider"
  end.

Definition probeResult_ (state : probeState) : DependencyResult :=
  match state with
  | probeNotConfigured | probePassed => met pathDependencyForwardingProbe
  | probePending => pending pathDependencyForwardingProbe "probe pending"
  | probeFailed => unmet pathDependencyForwardingProbe "probe failed"
  end.

Definition firewallResult (protection : string) : DependencyResult :=
  if bool_decide (protection = firewallReady) then met pathDependencyFirewall
  else if bool_decide (protection = firewallUnknown) then pending pathDependencyFirewall "firewall not evaluated"
  else unmet pathDependencyFirewall "firewall protection not ready".

Definition flagResult (name reason : string) (satisfied : bool) : DependencyResult :=
  if satisfied then met name else unmet name reason.

(** The first dependency that is pending or unmet decides. *)
Fixpoint first_open (dependencies : list DependencyResult) : PathVerdict :=
  match dependencies with
  | [] => mkPathVerdict PathUnavailable pathDependencyForwarding "forwarding not ready"
  | d :: ds =>
      if bool_decide (dep_State d = DependencyPending)
      then mkPathVerdict PathStarting (dep_Name d) (dep_Reason d)
      else if bool_decide (dep_State d = DependencyUnmet)
      then mkPathVerdict PathUnavailable (dep_Name d) (dep_Reason d)
      else first_open ds
  end.

Definition pathVerdict (ready : bool) (dependencies : list DependencyResult) : PathVerdict :=
  if ready then mkPathVerdict PathReady "" "" else first_open dependencies.

(** ** One family *)

Definition permitsForwarding (state : probeState) : bool :=
  bool_decide (state = probeNotConfigured) || bool_decide (state = probePassed).

Definition memberProbeStates (health : MemberHealth) (known : bool) : probeState * probeState :=
  (familyProbeState known (Verdict health) (mh_V4 health) (V4Verdict health),
   familyProbeState known (Verdict health) (mh_V6 health) (V6Verdict health)).

Definition memberForwardingReadiness (routing : MemberRouting) (health : MemberHealth) (known : bool) : FState :=
  let '(ipv4, ipv6) := memberProbeStates health known in
  mkFState (V4Ready routing && permitsForwarding ipv4) (V6Ready routing && permitsForwarding ipv6).

Record familyEvaluation := mkFamilyEvaluation {
  fe_name : string;
  fe_enabled : bool;
  fe_forwarding : bool;
  fe_firewall : string;
  fe_routing : list DependencyResult;
  fe_probe : probeState;
  fe_internalReady : bool;
  fe_moduleFailed : bool;
}.

Definition ready (f : familyEvaluation) (e : routingEvaluation) : bool :=
  fe_forwarding f && negb (bool_decide (re_state e = routingFailed))
  && negb (bool_decide (re_state e = routingNotPublished)) && fe_internalReady f
  && negb (fe_moduleFailed f) && bool_decide (fe_firewall f = firewallReady) && fe_enabled f.

Definition dependencies (f : familyEvaluation) (e : routingEvaluation) : list DependencyResult :=
  [enabledResult (fe_enabled f); routingResult e] ++ fe_routing f ++
  [probeResult_ (fe_probe f); firewallResult (fe_firewall f);
   flagResult pathDependencyInternalLink "internal link not ready" (fe_internalReady f);
   flagResult pathDependencyReconcile "module reconcile failed" (negb (fe_moduleFailed f))].

Definition forwardingFamilyEnabled (connection : Connection) (family : Family) : bool :=
  if is_false (conn_Enabled connection) then false
  else if is_false (fam_Enabled family) then false
  else unless_false (Forwarding family).

Definition readinessVerdict (r : bool) : string := if r then "ready" else "not-ready".

(** ** All families of a snapshot *)

Definition or_state (a b : FState) : FState := mkFState (rdy_IPv4 a || rdy_IPv4 b) (rdy_IPv6 a || rdy_IPv6 b).
Definition and_state (a b : FState) : FState := mkFState (rdy_IPv4 a && rdy_IPv4 b) (rdy_IPv6 a && rdy_IPv6 b).
Definition neg_state (a : FState) : FState := mkFState (negb (rdy_IPv4 a)) (negb (rdy_IPv6 a)).

Definition member_health_of (snapshot : Snapshot) (id : string) : MemberHealth * bool :=
  match Health_ snapshot !! id with
  | Some h => (h, true)
  | None => (MemberHealth_zero, false)
  end.

(** The readiness of one selectable member of the snapshot. *)
Definition member_state (snapshot : Snapshot) (name : string) (routing : MemberRouting) : FState :=
  if SelectionEnabled routing then
    let '(health, known) := member_health_of snapshot name in
    memberForwardingReadiness routing health known
  else not_forwarding.

Definition forwardingReadiness (snapshot : Snapshot) : FState :=
  map_fold (fun name routing acc => or_state (member_state snapshot name routing) acc) not_forwarding
    (Routing snapshot).

(** What the daemon reads of the environment the modules share: the results of the links
    module and of the addresses module; [None] is a nil pointer. *)
Definition OwnedLinkReady : string := "ready".

Record shared_results := mkShared {
  owned_links : option (gmap string string);
  owned_families : option (gmap string (gmap string bool));
}.

Definition link_ready (r : shared_results) (id : string) : bool :=
  match owned_links r with
  | Some results => bool_decide (results !! id = Some OwnedLinkReady)
  | None => false
  end.

Definition FamilyReady (families : gmap string (gmap string bool)) (id family : string) : bool :=
  default false (families !! id ≫= fun m => m !! family).

Definition SetFamilyReady (id family : string) (families : gmap string (gmap string bool)) :
    gmap string (gmap string bool) :=
  <[id := <[family := true]> (default ∅ (families !! id))]> families.

Definition internal_family_ready (r : shared_results) (id family : string) (settings : Family) : bool :=
  if is_false (Forwarding settings) then false
  else link_ready r id &&
       match owned_families r with
       | Some families => FamilyReady families id family
       | None => false
       end.

Definition internal_owned (c : Connection) : bool :=
  bool_decide (conn_Owner c = OwnerMWAN) && has_role (conn_Roles c) RoleInternal
  && negb (is_false (conn_Enabled c)).

Definition internalForwardingReadiness (conns : list Connection) (r : shared_results) (state : FState) : FState :=
  fold_left (fun state c =>
    if negb (internal_owned c) then state
    else mkFState
      (match conn_IPv4 c with
       | Some v4 => rdy_IPv4 state && internal_family_ready r (conn_ID c) familyNameIPv4 (v4_Family v4)
       | None => rdy_IPv4 state
       end)
      (match conn_IPv6 c with
       | Some v6 => rdy_IPv6 state && internal_family_ready r (conn_ID c) familyNameIPv6 (v6_Family v6)
       | None => rdy_IPv6 state
       end)) conns state.

(** *** Publication *)

Definition is_provider (c : Connection) : bool := has_role (conn_Roles c) RoleProvider.

(** Whether a connection's families are evaluated, and their forwarding state. *)
Definition connection_forwarding (snapshot : Snapshot) (c : Connection) : option FState :=
  let routing := default MemberRouting_zero (Routing snapshot !! conn_ID c) in
  let '(health, probed) := member_health_of snapshot (conn_ID c) in
  if is_provider c then Some (memberForwardingReadiness routing health probed)
  else if has_role (conn_Roles c) RoleInternal && bool_decide (conn_Owner c = OwnerMWAN)
  then Some (forwardingReadiness snapshot)
  else None.

Definition zero_family : FamilyState :=
  mkFamilyState "" "" "" "" "" "" "" "" noPath [] no_apply [] [].

Definition family_evaluations (snapshot : Snapshot) (internal failed : FState) (ready_ : FState) (c : Connection) :
    list familyEvaluation :=
  let routing := default MemberRouting_zero (Routing snapshot !! conn_ID c) in
  let '(health, probed) := member_health_of snapshot (conn_ID c) in
  let '(probeV4, probeV6) := memberProbeStates health probed in
  let state4 := from_option cs_IPv4 zero_family (Connections snapshot !! conn_ID c) in
  let state6 := from_option cs_IPv6 zero_family (Connections snapshot !! conn_ID c) in
  (match conn_IPv4 c with
   | Some v4 => [mkFamilyEvaluation familyNameIPv4 (forwardingFamilyEnabled c (v4_Family v4)) (rdy_IPv4 ready_)
                   (fs_Firewall state4) (V4Dependencies routing) probeV4 (rdy_IPv4 internal) (rdy_IPv4 failed)]
   | None => []
   end) ++
  (match conn_IPv6 c with
   | Some v6 => [mkFamilyEvaluation familyNameIPv6 (forwardingFamilyEnabled c (v6_Family v6)) (rdy_IPv6 ready_)
                   (fs_Firewall state6) (V6Dependencies routing) probeV6 (rdy_IPv6 internal) (rdy_IPv6 failed)]
   | None => []
   end).

Section Publish.
Context `{DT : !DistributionTypes} {W : Type} `{SW : !StoreWorld W}.

Abbreviation SM := (M (ssys W)).

Definition publish_family (provider : bool) (id : string) (e : routingEvaluation) (f : familyEvaluation) : SM unit :=
  let familyReady := ready f e in
  if provider
  then SetFamilyReadiness id (fe_name f) (readinessVerdict familyReady) (pathVerdict familyReady (dependencies f e))
  else SetReadiness id (fe_name f) (readinessVerdict familyReady).

Definition publish_connection (snapshot : Snapshot) (evaluation : routingEvaluation) (internal failed : FState)
    (c : Connection) : SM unit :=
  match connection_forwarding snapshot c with
  | None => mret tt
  | Some ready_ =>
      let memberPublished := match Routing snapshot !! conn_ID c with Some _ => true | None => false end in
      let e := forMember evaluation (memberPublished || negb (is_provider c)) in
      forM (family_evaluations snapshot internal failed ready_ c) (publish_family (is_provider c) (conn_ID c) e)
  end.

Definition publishFamilyReadiness (conns : list Connection) (r : shared_results) (snapshot : Snapshot)
    (evaluation : routingEvaluation) (failed : FState) : SM unit :=
  let internal := internalForwardingReadiness conns r (mkFState true true) in
  forM conns (publish_connection snapshot evaluation internal failed).

(** Before the first pass every provider path is starting; [live] says whether there is a
    store to publish to. *)
Definition starting_verdict : PathVerdict :=
  mkPathVerdict PathStarting pathDependencyStartup "first evaluation not complete".

Definition publishStartingPaths (role : string) (live : bool) (conns : list Connection) : SM unit :=
  if negb (bool_decide (role = roleWAN)) || negb live then mret tt
  else forM conns (fun c =>
    if negb (is_provider c) then mret tt
    else
      (match conn_IPv4 c with Some _ => SetPathReadiness (conn_ID c) familyNameIPv4 starting_verdict | None => mret tt end) ;;
      (match conn_IPv6 c with Some _ => SetPathReadiness (conn_ID c) familyNameIPv6 starting_verdict | None => mret tt end)).
End Publish.
