(* ===== verification/ReadinessProps.v ===== *)
(** * Properties of path readiness

    The decision agrees with its explanation, the explanation names the first open
    dependency, and after a pass the live state holds exactly the decision and the
    explanation of every evaluated family. *)

From S2P Require Import Prelude GoStrings NptPolicy Intent.
From S2P Require Import Effects Observation BgpConfig Tier Notify Health WanState WanStateProps Readiness.

Local Open Scope Z_scope.

(** ** The verdict *)

Definition is_open (d : DependencyResult) : Prop :=
  dep_State d = DependencyPending \/ dep_State d = DependencyUnmet.

Definition open_verdict (d : DependencyResult) : PathVerdict :=
  mkPathVerdict (if bool_decide (dep_State d = DependencyPending) then PathStarting else PathUnavailable)
    (dep_Name d) (dep_Reason d).

(** The verdict of a list of dependencies, declaratively. *)
Inductive explains : list DependencyResult -> PathVerdict -> Prop :=
| explains_first pre d post :
    Forall (fun x => ~ is_open x) pre -> is_open d -> explains (pre ++ d :: post) (open_verdict d)
| explains_none deps :
    Forall (fun x => ~ is_open x) deps ->
    explains deps (mkPathVerdict PathUnavailable pathDependencyForwarding "forwarding not ready").

Lemma first_open_explains deps : explains deps (first_open deps).
Proof.
  induction deps as [|d ds IH]; [by apply explains_none|]. cbn [first_open].
  case_bool_decide as Hp.
  { change (explains ([] ++ d :: ds) (mkPathVerdict PathStarting (dep_Name d) (dep_Reason d))).
    replace (mkPathVerdict PathStarting _ _) with (open_verdict d).
    - apply explains_first; [done|by left].
    - unfold open_verdict. by rewrite bool_decide_eq_true_2. }
  case_bool_decide as Hu.
  { change (explains ([] ++ d :: ds) (mkPathVerdict PathUnavailable (dep_Name d) (dep_Reason d))).
    replace (mkPathVerdict PathUnavailable _ _) with (open_verdict d).
    - apply explains_first; [done|by right].
    - unfold open_verdict. by rewrite bool_decide_eq_false_2. }
  assert (~ is_open d) as Hd by (intros [?|?]; done).
  inversion IH as [pre x post Hpre Hx Heq Hv|deps Hall Heq Hv].
  - apply (explains_first (d :: pre) x post); [by constructor|done].
  - apply explains_none. by constructor.
Qed.

(** The dependencies the daemon evaluates itself, without the routing module's. *)
Definition own_dependencies (f : familyEvaluation) (e : routingEvaluation) : list DependencyResult :=
  [enabledResult (fe_enabled f); routingResult e; probeResult_ (fe_probe f); firewallResult (fe_firewall f);
   flagResult pathDependencyInternalLink "internal link not ready" (fe_internalReady f);
   flagResult pathDependencyReconcile "module reconcile failed" (negb (fe_moduleFailed f))].

Definition is_met (d : DependencyResult) : bool := bool_decide (dep_State d = DependencyMet).

Lemma permits_met p : permitsForwarding p = is_met (probeResult_ p).
Proof. by destruct p. Qed.
Lemma firewall_met p : bool_decide (p = firewallReady) = is_met (firewallResult p).
Proof. unfold firewallResult, is_met. by repeat case_bool_decide. Qed.
Lemma flag_met n r b : b = is_met (flagResult n r b).
Proof. by destruct b. Qed.
Lemma enabled_met b : b = is_met (enabledResult b).
Proof. by destruct b. Qed.

(** *** A provider's evaluation *)

(** The evaluation of one family of a provider, as the daemon builds it. *)
Record provider_family (routed : bool) (reachable_ : bool) (ev : routingEvaluation) (f : familyEvaluation)
    (e : routingEvaluation) : Prop := {
  pf_forwarding : fe_forwarding f = reachable_ && permitsForwarding (fe_probe f);
  pf_absent : routed = false -> reachable_ = false;
  pf_evaluation : e = forMember ev routed;
  pf_fresh : re_state ev <> routingMemberAbsent;
}.

Lemma ready_iff_met routed up ev f e :
  provider_family routed up ev f e ->
  ready f e = up && forallb is_met (own_dependencies f e).
Proof.
  intros [Hf Ha -> Hne]. unfold ready, own_dependencies. cbn [forallb].
  rewrite <- permits_met, <- firewall_met, <- flag_met, <- flag_met, <- enabled_met, Hf.
  assert (negb (bool_decide (re_state (forMember ev routed) = routingFailed))
          && negb (bool_decide (re_state (forMember ev routed) = routingNotPublished)) && up
          = up && is_met (routingResult (forMember ev routed))) as Hr.
  { destruct routed.
    - unfold forMember. rewrite andb_false_r. destruct (re_state ev) eqn:E; unfold routingResult, is_met; rewrite E;
        cbn; by rewrite ?andb_true_r, ?andb_false_r.
    - rewrite (Ha eq_refl). by rewrite andb_false_r. }
  revert Hr. generalize (negb (bool_decide (re_state (forMember ev routed) = routingFailed))) as a.
  generalize (negb (bool_decide (re_state (forMember ev routed) = routingNotPublished))) as b.
  generalize (is_met (routingResult (forMember ev routed))) as m.
  destruct up, (permitsForwarding (fe_probe f)), (fe_enabled f), (fe_internalReady f), (fe_moduleFailed f),
    (bool_decide (fe_firewall f = firewallReady)); intros [] [] []; by cbn.
Qed.

Definition member_ready (name : string) (m : MemberRouting) : bool :=
  if bool_decide (name = familyNameIPv4) then V4Ready m else V6Ready m.

Lemma evaluations_provider snapshot internal failed c st f ev :
  is_provider c = true -> connection_forwarding snapshot c = Some st ->
  re_state ev <> routingMemberAbsent ->
  f ∈ family_evaluations snapshot internal failed st c ->
  let routed := match Routing snapshot !! conn_ID c with Some _ => true | None => false end in
  let m := default MemberRouting_zero (Routing snapshot !! conn_ID c) in
  provider_family routed (member_ready (fe_name f) m) ev f (forMember ev (routed || negb (is_provider c))).
Proof.
  intros Hp Hc Hne Hin. cbv zeta. rewrite Hp. cbn [negb]. rewrite orb_false_r.
  unfold connection_forwarding in Hc. rewrite Hp in Hc.
  unfold family_evaluations in Hin. destruct (member_health_of snapshot (conn_ID c)) as [h k].
  injection Hc as <-. unfold memberForwardingReadiness in Hin. cbn [memberProbeStates] in Hin.
  destruct (memberProbeStates h k) as [p4 p6] eqn:Hps.
  split; [| |done|done].
  - destruct (conn_IPv4 c), (conn_IPv6 c); set_solver.
  - destruct (Routing snapshot !! conn_ID c); [done|]. intros _. unfold member_ready. by destruct (bool_decide _).
Qed.

(** ** Publication *)

Section Publish.
Context `{DT : !DistributionTypes} {W : Type} `{SW : !StoreWorld W}.
Implicit Types (s : ssys W) (cs : ConnectionState).

(** The connection under [id] became [cs'], the others stayed. *)
Definition writes id cs' s s' : Prop := connections (store_ s') = <[id := cs']> (connections (store_ s)).

Lemma familyState_set family f cs :
  familyState cs family <> None -> familyState (set_familyState family f cs) family = Some f.
Proof. unfold familyState, set_familyState. by repeat case_bool_decide. Qed.
Lemma familyState_set_other family family' f cs :
  family <> family' -> familyState (set_familyState family f cs) family' = familyState cs family'.
Proof. intros H. unfold familyState, set_familyState. repeat case_bool_decide; subst; done. Qed.
Lemma familyState_recent l cs family : familyState (set_Recent l cs) family = familyState cs family.
Proof. done. Qed.
Lemma familyState_but_recent cs cs' family : but_recent cs cs' -> familyState cs' family = familyState cs family.
Proof. intros ->. done. Qed.

#[local] Instance same_connections_pre : PreOrder (same_connections (W:=W)).
Proof. split; unfold same_connections; [done|congruence]. Qed.

Lemma yields_applyReadiness cs f family r :
  yields same_connections (fun x => but_recent (set_familyState family (set_Readiness r f) cs) x.1)
    (applyReadinessLocked (W:=W) cs f family r).
Proof.
  unfold applyReadinessLocked, transition_if. cbv zeta.
  destruct (neqs _ _); [|apply yields_ret; [apply _|apply but_recent_refl]].
  eapply yields_bind; [apply _|apply yields_sat, same_clock|]. intros t _.
  eapply yields_bind; [apply _|apply yields_addTransition, but_recent_refl|]. intros x Hx.
  by apply yields_ret; [apply _|].
Qed.

Lemma yields_applyPath f v :
  yields same_connections (fun r => path_Verdict (fs_Path r.1) = v /\ Readiness r.1 = Readiness f)
    (applyPathLocked (W:=W) f v).
Proof.
  unfold applyPathLocked. cbv zeta. case_bool_decide as E; [by apply yields_ret; [apply _|]|].
  eapply yields_bind; [apply _|apply yields_sat, same_nextID|]. intros id _.
  eapply yields_bind; [apply _|apply yields_sat, same_clock|]. intros t _.
  by apply yields_ret; [apply _|].
Qed.

Lemma same_logPath id family t : sat (logPathTransition (W:=W) id family t) same_connections.
Proof. unfold logPathTransition. sat_steps ltac:(by intros s). Qed.

(** The effect of the two setters on the store. *)
Definition decided (provider : bool) (name readiness : string) (v : PathVerdict) cs : Prop :=
  exists f, familyState cs name = Some f /\ Readiness f = readiness /\
    (provider = true -> path_Verdict (fs_Path f) = v).

Definition keeps_other_family name cs cs' : Prop :=
  forall other, other <> name -> familyState cs' other = familyState cs other.

Lemma SetFamilyReadiness_spec id family readiness v s cs :
  connections (store_ s) !! id = Some cs -> familyState cs family <> None ->
  wp (SetFamilyReadiness id family readiness v) (fun _ s' => exists cs', writes id cs' s s' /\
    decided true family readiness v cs' /\ keeps_other_family family cs cs') s.
Proof.
  intros Hc Hf. unfold SetFamilyReadiness. apply wp_bind, wp_gets. rewrite Hc.
  destruct (familyState cs family) as [f|] eqn:Ef; [|done]. apply wp_bind.
  eapply wp_yields; [apply yields_applyReadiness|]. intros x s1 Hx H1. apply wp_bind.
  eapply wp_yields; [apply yields_applyPath|]. intros p s2 [Hv Hr] H2. apply wp_bind.
  unfold wp at 1, putConnection, updStore, modify. cbn [fst snd]. apply wp_bind.
  eapply wp_sat; [apply same_log|]. unfold wp at 1. intros H3.
  eapply wp_sat; [apply same_logPath|]. unfold wp. intros H4.
  exists (set_familyState family p.1 x.1). split; [|split].
  - unfold writes. rewrite H4, H3. cbn. by rewrite H2, H1.
  - exists p.1. split; [|done]. apply familyState_set. rewrite (familyState_but_recent _ _ _ Hx).
    rewrite familyState_set; [done|]. by rewrite Ef.
  - intros o Ho. rewrite familyState_set_other by done. rewrite (familyState_but_recent _ _ _ Hx).
    by rewrite familyState_set_other.
Qed.

Lemma SetReadiness_spec id family readiness v s cs :
  connections (store_ s) !! id = Some cs -> familyState cs family <> None ->
  wp (SetReadiness id family readiness) (fun _ s' => exists cs', writes id cs' s s' /\
    decided false family readiness v cs' /\ keeps_other_family family cs cs') s.
Proof.
  intros Hc Hf. unfold SetReadiness, on_family. apply wp_bind, wp_gets. rewrite Hc.
  destruct (familyState cs family) as [f|] eqn:Ef; [|done]. apply wp_bind.
  eapply wp_yields; [apply yields_applyReadiness|]. intros x s1 Hx H1. apply wp_bind.
  unfold wp at 1, putConnection, updStore, modify. cbn [fst snd].
  eapply wp_sat; [apply same_log|]. unfold wp. intros H3.
  exists x.1. split; [|split].
  - unfold writes. rewrite H3. cbn. by rewrite H1.
  - exists (set_Readiness readiness f). rewrite (familyState_but_recent _ _ _ Hx).
    rewrite familyState_set; [done|]. by rewrite Ef.
  - intros o Ho. rewrite (familyState_but_recent _ _ _ Hx). by rewrite familyState_set_other.
Qed.

(** A family name of the store. *)
Definition known_family (name : string) : Prop := name = familyNameIPv4 \/ name = familyNameIPv6.
Lemma known_family_state name cs : known_family name -> familyState cs name <> None.
Proof. by intros [-> | ->]. Qed.

Definition decided_by (provider : bool) e (f : familyEvaluation) cs : Prop :=
  decided provider (fe_name f) (readinessVerdict (ready f e)) (pathVerdict (ready f e) (dependencies f e)) cs.

Lemma publish_family_spec provider id e f s cs :
  connections (store_ s) !! id = Some cs -> known_family (fe_name f) ->
  wp (publish_family provider id e f) (fun _ s' => exists cs', writes id cs' s s' /\
    decided_by provider e f cs' /\ keeps_other_family (fe_name f) cs cs') s.
Proof.
  intros Hc Hk. unfold publish_family, decided_by. cbv zeta.
  destruct provider; [apply SetFamilyReadiness_spec|apply SetReadiness_spec]; by try apply known_family_state.
Qed.

(** All families of one connection. *)
Lemma publish_families_spec provider id e fs s cs :
  connections (store_ s) !! id = Some cs -> Forall (fun f => known_family (fe_name f)) fs -> NoDup (fe_name <$> fs) ->
  wp (forM fs (publish_family provider id e)) (fun _ s' => exists cs', writes id cs' s s' /\
    Forall (fun f => decided_by provider e f cs') fs /\
    forall o, o ∉ fe_name <$> fs -> familyState cs' o = familyState cs o) s.
Proof.
  unfold forM. intros Hc Hk Hd. revert s cs Hc. induction fs as [|f fs IH]; intros s cs Hc; cbn [foldM].
  { apply wp_ret. exists cs. split; [|by split]. unfold writes. by rewrite insert_id. }
  apply Forall_cons in Hk as [Hk Hks]. cbn in Hd. apply NoDup_cons in Hd as [Hn Hd].
  apply wp_bind. eapply wp_mono; [by eapply publish_family_spec|].
  intros [] s1 (cs1 & Hw1 & Hd1 & Ho1). eapply wp_mono.
  { apply (IH Hks Hd). rewrite Hw1. apply lookup_insert_eq. }
  intros [] s2 (cs2 & Hw2 & Hd2 & Ho2). exists cs2. split; [|split].
  - unfold writes in *. rewrite Hw2, Hw1. apply insert_insert_eq.
  - constructor; [|exact Hd2]. destruct Hd1 as (g & Hg & Hrest). exists g. split; [|exact Hrest]. by rewrite Ho2.
  - intros o Hn'. cbn in Hn'. apply not_elem_of_cons in Hn' as [Hne Hn']. rewrite Ho2 by done. by apply Ho1.
Qed.

Lemma evaluations_families snapshot internal failed st c :
  let fs := family_evaluations snapshot internal failed st c in
  Forall (fun f => known_family (fe_name f)) fs /\ NoDup (fe_name <$> fs).
Proof.
  cbv zeta. unfold family_evaluations. destruct (member_health_of _ _) as [h k].
  destruct (memberProbeStates h k) as [p4 p6]. unfold known_family.
  destruct (conn_IPv4 c), (conn_IPv6 c); cbn;
    (split; [repeat first [apply List.Forall_nil | apply List.Forall_cons; [by auto|]]|]).
  - apply NoDup_cons. split; [set_solver|]. apply NoDup_singleton.
  - apply NoDup_singleton.
  - apply NoDup_singleton.
  - constructor.
Qed.

(** What a pass leaves in the store for one connection. *)
Definition published snapshot ev internal failed (c : Connection) cs : Prop :=
  forall st, connection_forwarding snapshot c = Some st ->
  let routed := match Routing snapshot !! conn_ID c with Some _ => true | None => false end in
  let e := forMember ev (routed || negb (is_provider c)) in
  Forall (fun f => decided_by (is_provider c) e f cs) (family_evaluations snapshot internal failed st c).

Lemma publish_connection_spec snapshot ev internal failed c s cs :
  connections (store_ s) !! conn_ID c = Some cs ->
  wp (publish_connection snapshot ev internal failed c) (fun _ s' => exists cs', writes (conn_ID c) cs' s s' /\
    published snapshot ev internal failed c cs') s.
Proof.
  intros Hc. unfold publish_connection. destruct (connection_forwarding snapshot c) as [st|] eqn:Hst.
  - cbv zeta. destruct (evaluations_families snapshot internal failed st c) as [Hk Hd].
    eapply wp_mono; [by eapply publish_families_spec|]. intros [] s' (cs' & Hw & Hall & _).
    exists cs'. split; [done|]. intros st' Hst'. rewrite Hst in Hst'. injection Hst' as <-. exact Hall.
  - apply wp_ret. exists cs. split; [unfold writes; by rewrite insert_id|]. intros st' Hst'.
    by rewrite Hst in Hst'.
Qed.

Lemma publish_loop_spec snapshot ev internal failed conns s :
  NoDup (conn_ID <$> conns) ->
  (forall c, c ∈ conns -> connections (store_ s) !! conn_ID c <> None) ->
  wp (forM conns (publish_connection snapshot ev internal failed)) (fun _ s' =>
    (forall c, c ∈ conns -> exists cs, connections (store_ s') !! conn_ID c = Some cs /\
       published snapshot ev internal failed c cs) /\
    forall id, id ∉ conn_ID <$> conns -> connections (store_ s') !! id = connections (store_ s) !! id) s.
Proof.
  unfold forM. intros Hd. revert s. induction conns as [|c conns IH]; intros s Hk; cbn [foldM].
  { apply wp_ret. split; [set_solver|done]. }
  cbn in Hd. apply NoDup_cons in Hd as [Hn Hd].
  destruct (connections (store_ s) !! conn_ID c) as [cs|] eqn:Ec; [|by destruct (Hk c (list_elem_of_here _ _))].
  apply wp_bind. eapply wp_mono; [by eapply publish_connection_spec|].
  intros [] s1 (cs1 & Hw & Hp). eapply wp_mono.
  { apply (IH Hd). intros c' Hc'. rewrite Hw. destruct (decide (conn_ID c = conn_ID c')) as [->|Hne].
    - by rewrite lookup_insert_eq.
    - rewrite lookup_insert_ne by done. apply Hk. by right. }
  intros [] s2 [Hall Hother]. split.
  - intros c' Hc'. apply elem_of_cons in Hc' as [->|Hc']; [|by apply Hall].
    exists cs1. split; [|done]. rewrite Hother by done. rewrite Hw. apply lookup_insert_eq.
  - intros id Hid. cbn in Hid. apply not_elem_of_cons in Hid as [Hne Hid]. rewrite Hother by done.
    rewrite Hw. by rewrite lookup_insert_ne.
Qed.

Lemma explains_not_ready deps v : explains deps v -> pv_State v <> PathReady.
Proof. intros [pre d post _ _|]; cbn; [unfold open_verdict; by destruct (bool_decide _)|done]. Qed.

Lemma new_evaluation_fresh published failure : re_state (newRoutingEvaluation published failure) <> routingMemberAbsent.
Proof. by destruct published, failure. Qed.

(** After a pass the live state tells the truth about every provider path, and why.  For
    each configured family of each provider, the stored forwarding result is "ready"
    exactly when the stored path is ready, which is exactly when the routing module
    reported the member ready and every dependency the daemon evaluates is met (the
    family is enabled, the routing evaluation is published and has the member, the probe
    permits forwarding, the firewall protects it, the internal links are ready and no
    module failed for the family); otherwise the stored path names the first dependency
    that is pending (then it is starting) or unmet (then it is unavailable). *)
Lemma published_readiness_explained conns results snapshot publication failure failed s c st f :
  let ev := newRoutingEvaluation publication failure in
  let internal := internalForwardingReadiness conns results (mkFState true true) in
  let member := Routing snapshot !! conn_ID c in
  let e := forMember ev (match member with Some _ => true | None => false end) in
  NoDup (conn_ID <$> conns) ->
  (forall c, c ∈ conns -> connections (store_ s) !! conn_ID c <> None) ->
  c ∈ conns -> is_provider c = true -> connection_forwarding snapshot c = Some st ->
  f ∈ family_evaluations snapshot internal failed st c ->
  exists cs fs,
    connections (store_ (publishFamilyReadiness conns results snapshot ev failed s).2) !! conn_ID c = Some cs /\
    familyState cs (fe_name f) = Some fs /\
    (Readiness fs = "ready"%string <-> pv_State (path_Verdict (fs_Path fs)) = PathReady) /\
    (pv_State (path_Verdict (fs_Path fs)) = PathReady <->
      member_ready (fe_name f) (default MemberRouting_zero member) = true /\
      Forall (fun d => dep_State d = DependencyMet) (own_dependencies f e)) /\
    (pv_State (path_Verdict (fs_Path fs)) <> PathReady ->
      explains (dependencies f e) (path_Verdict (fs_Path fs))).
Proof.
  intros ev internal member e Hd Hk Hc Hp Hst Hf.
  destruct (publish_loop_spec snapshot ev internal failed conns s Hd Hk) as [Hall _].
  destruct (Hall c Hc) as (cs & Hcs & Hpub). specialize (Hpub st Hst). cbv zeta in Hpub.
  rewrite Forall_forall in Hpub. specialize (Hpub f Hf). rewrite Hp in Hpub. cbn [negb] in Hpub.
  rewrite orb_false_r in Hpub. fold member e in Hpub. destruct Hpub as (fs & Hfs & Hr & Hv). specialize (Hv eq_refl).
  pose proof (evaluations_provider snapshot internal failed c st f ev Hp Hst (new_evaluation_fresh _ _) Hf) as Hpf.
  cbv zeta in Hpf. rewrite Hp in Hpf. cbn [negb] in Hpf. rewrite orb_false_r in Hpf.
  apply ready_iff_met in Hpf. fold member e in Hpf.
  exists cs, fs. split; [exact Hcs|]. split; [exact Hfs|]. rewrite Hr, Hv. clear Hr Hv.
  assert (ready f e = true <-> member_ready (fe_name f) (default MemberRouting_zero member) = true /\
      Forall (fun d => dep_State d = DependencyMet) (own_dependencies f e)) as Hiff.
  { rewrite Hpf, andb_true_iff, forallb_Forall. unfold is_met. by setoid_rewrite bool_decide_eq_true. }
  destruct (ready f e) eqn:Hrd; cbn [readinessVerdict pathVerdict pv_State].
  - split; [done|]. split; [|done]. split; [intros _; by apply Hiff|done].
  - pose proof (first_open_explains (dependencies f e)) as Hex.
    pose proof (explains_not_ready _ _ Hex) as Hnr. split_and!; [|split|].
    + split; [done|intros H; by contradict Hnr].
    + intros H; by contradict Hnr.
    + intros H. apply Hiff in H. done.
    + done.
Qed.
End Publish.
