(* ===== verification/Daemon.v ===== *)
(** * The interface manager daemon
      (gateway/internal/ifmgr/{daemon,roles,module,forwarding_failure,errors}.go,
       lease types of internal/netif/dhcp.go)

    One daemon serves one role.  It builds the role's modules from the registry, calls
    [Init] on each, reconciles them on a tick, on request and after a resynchronisation,
    passes kernel events and leases on to them, publishes whether the gateway forwards,
    and shuts every module down that it tried to start.

    A module is a record of state transformers on what the daemon lets it touch, [menv]:
    the live state, the results modules share, and the requests for a pass it makes.  Its
    own fields, and what its workers do while the daemon runs the call, are part of the
    world.  The select of the main loop takes its arms in an order the scheduler chooses:
    [runLoop] runs over such an order, and an arm that is not ready in the state it
    reaches does not fire. *)

From S2P Require Import Prelude GoStrings Effects NptPolicy Intent Observation BgpConfig.
From S2P Require Import Tier Notify Health WanState Readiness.

Local Open Scope Z_scope.

(** ** Leases *)

Inductive LeaseState :=
| LeaseInit | LeaseSelecting | LeaseRequesting | LeaseBound | LeaseRenewing | LeaseRebinding | LeaseExpired.

#[export] Instance LeaseState_eq_dec : EqDecision LeaseState.
Proof. solve_decision. Defined.

Record LeaseRoute := mkLeaseRoute { lr_Destination : option Prefix; lr_Gateway : list Z }.

Record LeaseInfo := mkLeaseInfo {
  li_State : LeaseState;
  li_LinkIndex : Z;
  li_LinkHardwareAddr : list Z;
  li_InvalidationEpoch : Z;
  li_IP : list Z;
  li_PrefixLen : Z;
  li_Gateway : list Z;
  li_Routes : list LeaseRoute;
  li_DNS : list Addr;
  li_Server : list Z;
  li_LeaseTime : Z;
  li_AcquiredAt : Z;
  li_RenewAt : Z;
  li_RebindAt : Z;
  li_ExpiresAt : Z;
  li_Err : option error;
}.

(** ** Roles *)

Definition roleModules : list (string * list string) := [
  ("router", ["vpp"]);
  ("oob", ["policy_rules"; "host_ipv6_policy"; "oobv6"; "oobv4"; "ra_lost"; "cloudflared_tap"; "health"]);
  ("host", ["policy_rules"; "host_ipv6_policy"; "health"]);
  ("failover", ["slaac_health"; "bridge_probe"; "connectivity_probe"; "ra_lost"; "mainv4"]);
  ("wan", ["links"; "autoconfiguration"; "addresses"; "resolver"; "health"; "firewall"; "npt"; "wan.routes";
           "bgp_sessions"; "steering"; "nativeoffload"])]%string.

Definition modulesForRole (role : string) : res (list string) :=
  match (list_to_map roleModules : gmap string (list string)) !! role with
  | Some names => Ok names
  | None => Err ("unknown ifmgr role " +:+ role)
  end.

Section Daemon.
Context `{DT : !DistributionTypes} {W : Type} `{SW : !StoreWorld W}.

(** ** Modules *)

Record menv := mkMenv {
  me_live : ssys W;
  me_results : shared_results;
  me_requests : list string;
}.

Inductive init_result := InitOk | InitDisabled (e : error) | InitErr (e : error).

(** The [Module] interface; the optional extensions are [option]s. *)
Record IfModule := mkIfModule {
  mod_Name : string;
  mod_Init : M menv init_result;
  mod_Reconcile : M menv (option error);
  mod_OnKernelEvent : KernelEvent -> M menv (option error);
  mod_OnDHCPLease : LeaseInfo -> M menv (option error);
  mod_EvaluateAlerts : Z -> M menv unit;
  mod_Shutdown : option (M menv (option error));
  mod_Wait : option (M menv unit);
  mod_ForwardingFailureImpact : option (menv -> FState);
  mod_ForwardingReadiness : option (menv -> FState);
  mod_OnFamilyReadiness : option (M menv unit);
}.

Context {ModuleConfig : Type}.

(** A nil configuration is [None]. *)
Definition Constructor : Type := option ModuleConfig -> res IfModule.
Definition registry : Type := gmap string Constructor.

Definition Register (name : string) (ctor : Constructor) (r : registry) : registry :=
  match r !! name with
  | Some _ => r
  | None => <[name := ctor]> r
  end.

Definition Lookup (r : registry) (name : string) : option Constructor := r !! name.

(** ** The daemon *)

Record DaemonConfig := mkDaemonConfig {
  dc_Role : string;
  dc_Iface : string;
  dc_Connections : list Connection;
  dc_ReconcileInterval : Z;
  dc_LeaseDirectory : string;
  dc_EnableDHCP : bool;
  dc_EnableRA : bool;
  dc_ModuleConfigs : gmap string ModuleConfig;
  dc_LiveState : bool;
  dc_ForwardingReadySocket : string;
}.

Definition set_ReconcileInterval (v : Z) (c : DaemonConfig) : DaemonConfig :=
  mkDaemonConfig (dc_Role c) (dc_Iface c) (dc_Connections c) v (dc_LeaseDirectory c) (dc_EnableDHCP c)
    (dc_EnableRA c) (dc_ModuleConfigs c) (dc_LiveState c) (dc_ForwardingReadySocket c).

Record Daemon := mkDaemon {
  d_cfg : DaemonConfig;
  d_role : string;
  d_modules : list IfModule;
  attemptedModules : list IfModule;
  primaryConnection : option Connection;
  reconcileReq : bool;
  startedAt : Z;
  forwardingState : FState;
}.

Definition set_modules (v : list IfModule) (d : Daemon) : Daemon :=
  mkDaemon (d_cfg d) (d_role d) v (attemptedModules d) (primaryConnection d) (reconcileReq d) (startedAt d)
    (forwardingState d).
Definition set_attempted (v : list IfModule) (d : Daemon) : Daemon :=
  mkDaemon (d_cfg d) (d_role d) (d_modules d) v (primaryConnection d) (reconcileReq d) (startedAt d)
    (forwardingState d).
Definition set_req (v : bool) (d : Daemon) : Daemon :=
  mkDaemon (d_cfg d) (d_role d) (d_modules d) (attemptedModules d) (primaryConnection d) v (startedAt d)
    (forwardingState d).
Definition set_startedAt (v : Z) (d : Daemon) : Daemon :=
  mkDaemon (d_cfg d) (d_role d) (d_modules d) (attemptedModules d) (primaryConnection d) (reconcileReq d) v
    (forwardingState d).
Definition set_forwardingState (v : FState) (d : Daemon) : Daemon :=
  mkDaemon (d_cfg d) (d_role d) (d_modules d) (attemptedModules d) (primaryConnection d) (reconcileReq d)
    (startedAt d) v.

(** The connections on the daemon's interface. *)
Definition on_iface (cfg : DaemonConfig) : list Connection :=
  filter (fun c => conn_Name c = dc_Iface cfg) (dc_Connections cfg).

Fixpoint construct (r : registry) (cfg : DaemonConfig) (names : list string) : res (list IfModule) :=
  match names with
  | [] => Ok []
  | name :: names =>
      match Lookup r name with
      | None => Err ("ifmgr: role " +:+ dc_Role cfg +:+ " references module " +:+ name +:+ " which is not registered")
      | Some ctor =>
          match ctor (dc_ModuleConfigs cfg !! name) with
          | Err e => Err ("construct module " +:+ name +:+ ": " +:+ e)
          | Ok built => (rest <-? construct r cfg names ;; Ok (built :: rest))%go
          end
      end
  end.

Definition NewDaemon (r : registry) (log_given : bool) (cfg : DaemonConfig) : res Daemon :=
  if negb log_given then Err "ifmgr.NewDaemon: log is required"
  else if bool_decide (dc_Role cfg = ""%string) then Err "ifmgr.NewDaemon: cfg.Role is required"
  else if bool_decide (dc_Iface cfg = ""%string) then Err "ifmgr.NewDaemon: cfg.Iface is required"
  else
    match on_iface cfg with
    | _ :: _ :: _ => Err ("ifmgr.NewDaemon: multiple connections use interface " +:+ dc_Iface cfg)
    | candidates =>
        let primary := head candidates ≫= fun c => match conn_Link c with Some _ => Some c | None => None end in
        let cfg := if dc_ReconcileInterval cfg =? 0 then set_ReconcileInterval (60 * Second) cfg else cfg in
        (names <-? modulesForRole (dc_Role cfg) ;;
         modules <-? construct r cfg names ;;
         Ok (mkDaemon cfg (dc_Role cfg) modules [] primary false zero_time not_forwarding))%go
    end.

(** ** Running state *)

(** What the daemon does, oldest first; a [Reconcile] with the families its failure takes
    down. *)
Inductive dcall :=
| InitCalled (m : string) (r : init_result)
| ReconcileCalled (m : string) (r : option error) (impact : FState)
| EventCalled (m : string) (ev : KernelEvent)
| LeaseCalled (m : string) (lease : LeaseInfo)
| AlertsCalled (m : string) (now : Z)
| ReadinessObserved (m : string)
| ShutdownCalled (m : string)
| WaitCalled (m : string)
| ReadyPublished (st : FState)
| ServerStarted
| ServerStopped
| LeaseSaved (id : string)
| LeaseDeleted (id : string)
| DHCPStarted (recovering : bool)
| DHCPVerify
| DHCPLinkDown
| DHCPLinkChanged
| RAOpened
| RAClosed.

Record dsys := mkDsys { dd : Daemon; denv : menv; dtrace : list dcall }.

Abbreviation DM := (M dsys).

(** The DHCP client, the saved leases, the router solicitation client and the clock; and
    what other goroutines do to the live state between two reads of it. *)
Inductive delete_result := Deleted | DeleteNotExist | DeleteErr (e : error).

Class DaemonWorld := {
  openLeaseStore : string -> W -> option error * W;
  leaseHas : string -> W -> res bool * W;
  leaseSave : string -> LeaseInfo -> W -> option error * W;
  leaseDelete : string -> W -> delete_result * W;
  startDHCPClient : bool -> W -> unit * W;
  dhcpVerifyLease : W -> unit * W;
  dhcpLinkDown : W -> unit * W;
  dhcpLinkChanged : W -> unit * W;
  openRA : W -> bool * W;
  closeRA : W -> unit * W;
  clockOf : W -> Z * W;
  background : M (ssys W) unit;
}.
Context `{DW : !DaemonWorld}.

Definition getD {A} (f : Daemon -> A) : DM A := gets (fun s => f (dd s)).
Definition setD (f : Daemon -> Daemon) : DM unit := modify (fun s => mkDsys (f (dd s)) (denv s) (dtrace s)).
Definition record (c : dcall) : DM unit := modify (fun s => mkDsys (dd s) (denv s) (dtrace s ++ [c])).

Definition onLive {A} (m : M (ssys W) A) : DM A := fun s =>
  let e := denv s in
  let '(a, l) := m (me_live e) in (a, mkDsys (dd s) (mkMenv l (me_results e) (me_requests e)) (dtrace s)).

Definition onWorld {A} (f : W -> A * W) : DM A :=
  onLive (fun s => let '(a, w) := f (sworld s) in (a, mkSsys (store_ s) w (slog s))).

(** The send never blocks: the channel holds one request. *)
Definition requestReconcile (reason : string) : DM unit :=
  queued ← getD reconcileReq;
  if queued : bool then mret tt else setD (set_req true).

(** Calling a module: the requests it makes during the call reach the channel, which the
    main loop does not receive from meanwhile. *)
Definition callModule {A} (m : M menv A) : DM A :=
  a ← (fun s => let '(a, e) := m (mkMenv (me_live (denv s)) (me_results (denv s)) []) in (a, mkDsys (dd s) e (dtrace s)));
  reasons ← gets (fun s => me_requests (denv s));
  forM reasons requestReconcile ;;
  mret a.

Definition setForwardingReadiness (st : FState) : DM unit :=
  setD (set_forwardingState st) ;; record (ReadyPublished st).

(** ** Initialisation and shutdown *)

Fixpoint initLoop (todo enabled : list IfModule) : DM (res (list IfModule)) :=
  match todo with
  | [] => mret (Ok enabled)
  | m :: todo =>
      setD (fun d => set_attempted (attemptedModules d ++ [m]) d) ;;
      r ← callModule (mod_Init m);
      record (InitCalled (mod_Name m) r) ;;
      match r with
      | InitDisabled _ => initLoop todo enabled
      | InitErr e => mret (Err ("module " +:+ mod_Name m +:+ " Init: " +:+ e))
      | InitOk => initLoop todo (enabled ++ [m])
      end
  end.

Definition initModules : DM (option error) :=
  modules ← getD d_modules;
  r ← initLoop modules [];
  match r with
  | Err e => mret (Some e)
  | Ok enabled => setD (set_modules enabled) ;; mret None
  end.

Definition shutdown_one (failures : list error) (m : IfModule) : DM (list error) :=
  match mod_Shutdown m with
  | None => mret failures
  | Some close =>
      r ← callModule close;
      record (ShutdownCalled (mod_Name m)) ;;
      match r with
      | Some e => mret (failures ++ ["module " +:+ mod_Name m +:+ " Shutdown: " +:+ e])
      | None => mret failures
      end
  end.

Definition wait_one (m : IfModule) : DM unit :=
  match mod_Wait m with
  | None => mret tt
  | Some wait => callModule wait ;; record (WaitCalled (mod_Name m))
  end.

(** [errors.Join]: the failures in order, nil when there is none. *)
Definition shutdownModules : DM (list error) :=
  attempted ← getD attemptedModules;
  failures ← foldM shutdown_one [] (rev attempted);
  forM (rev attempted) wait_one ;;
  mret failures.

(** ** One pass *)

Definition forwardingFailureImpact (e : menv) (m : IfModule) : FState :=
  match mod_ForwardingFailureImpact m with
  | Some impact => impact e
  | None => mkFState true true
  end.

Definition wanRoutes : string := "wan.routes".

(** The loop carries [failed] and [routingFailure]. *)
Definition reconcile_one (acc : FState * option error) (m : IfModule) : DM (FState * option error) :=
  r ← callModule (mod_Reconcile m);
  let '(failed, routingFailure) := acc in
  match r with
  | None => record (ReconcileCalled (mod_Name m) r not_forwarding) ;; mret acc
  | Some e =>
      if bool_decide (mod_Name m = wanRoutes)
      then record (ReconcileCalled (mod_Name m) r not_forwarding) ;; mret (failed, Some e)
      else impact ← gets (fun s => forwardingFailureImpact (denv s) m);
           record (ReconcileCalled (mod_Name m) r impact) ;;
           mret (or_state failed impact, routingFailure)
  end.

Fixpoint first_reporter (modules : list IfModule) (e : menv) : FState :=
  match modules with
  | [] => not_forwarding
  | m :: ms => match mod_ForwardingReadiness m with Some report => report e | None => first_reporter ms e end
  end.

Definition reportedForwardingReadiness : DM FState :=
  modules ← getD d_modules; gets (fun s => first_reporter modules (denv s)).

Definition observe_one (m : IfModule) : DM unit :=
  match mod_OnFamilyReadiness m with
  | None => mret tt
  | Some observe => callModule observe ;; record (ReadinessObserved (mod_Name m))
  end.

Definition readSnapshot : DM Snapshot := onLive (background ;; TakeSnapshot).

(** What the pass publishes about the connections, when there is a store. *)
Definition publishPass (generation : Z) (failed : FState) (routingFailure : option error) : DM unit :=
  cfg ← getD d_cfg;
  snapshot ← readSnapshot;
  let evaluation := newRoutingEvaluation (negb (RoutingGeneration snapshot =? generation)) routingFailure in
  results ← gets (fun s => me_results (denv s));
  onLive (publishFamilyReadiness (dc_Connections cfg) results snapshot evaluation failed) ;;
  modules ← getD d_modules;
  forM modules observe_one.

(** What the pass publishes on the readiness socket of the wan role. *)
Definition publishForwarding (generation : Z) (failed : FState) : DM unit :=
  cfg ← getD d_cfg;
  if bool_decide (dc_ForwardingReadySocket cfg = ""%string) then mret tt
  else if negb (dc_LiveState cfg) then setForwardingReadiness not_forwarding
  else
    snapshot ← readSnapshot;
    if RoutingGeneration snapshot =? generation then setForwardingReadiness not_forwarding
    else
      results ← gets (fun s => me_results (denv s));
      let st := internalForwardingReadiness (dc_Connections cfg) results (forwardingReadiness snapshot) in
      setForwardingReadiness (and_state st (neg_state failed)).

Definition reconcileAll : DM unit :=
  cfg ← getD d_cfg;
  generation ← (if dc_LiveState cfg then snapshot ← readSnapshot; mret (RoutingGeneration snapshot) else mret 0);
  modules ← getD d_modules;
  '(failed, routingFailure) ← foldM reconcile_one (not_forwarding, None) modules;
  role ← getD d_role;
  if negb (bool_decide (role = roleWAN)) then
    whenM (negb (bool_decide (dc_ForwardingReadySocket cfg = ""%string)))
      (st ← reportedForwardingReadiness; setForwardingReadiness st)
  else
    whenM (dc_LiveState cfg) (publishPass generation failed routingFailure) ;;
    publishForwarding generation failed.

(** ** Fan-out *)

Definition dispatchEvent (ev : KernelEvent) : DM unit :=
  modules ← getD d_modules;
  forM modules (fun m => callModule (mod_OnKernelEvent m ev) ;; record (EventCalled (mod_Name m) ev)).

Definition dispatchLease (lease : LeaseInfo) : DM unit :=
  modules ← getD d_modules;
  forM modules (fun m => callModule (mod_OnDHCPLease m lease) ;; record (LeaseCalled (mod_Name m) lease)).

Definition evaluateAlertsAll (now : Z) : DM unit :=
  modules ← getD d_modules;
  forM modules (fun m => callModule (mod_EvaluateAlerts m now) ;; record (AlertsCalled (mod_Name m) now)).

(** [false]: the event has no snapshot where the code dereferences it. *)
Definition signalDHCPClient (client : bool) (ev : KernelEvent) : DM bool :=
  if negb client then mret true
  else match ev_Kind ev with
  | EvUplinkReturned => onWorld dhcpVerifyLease ;; record DHCPVerify ;; mret true
  | EvLinkUp => onWorld dhcpLinkChanged ;; record DHCPLinkChanged ;; mret true
  | EvLinkDown =>
      onWorld dhcpLinkDown ;; record DHCPLinkDown ;; onWorld dhcpLinkChanged ;; record DHCPLinkChanged ;; mret true
  | EvResync =>
      match ev_Snapshot ev with
      | None => mret false
      | Some snapshot =>
          whenM (negb (ks_LinkUp snapshot)) (onWorld dhcpLinkDown ;; record DHCPLinkDown) ;;
          onWorld dhcpLinkChanged ;; record DHCPLinkChanged ;; mret true
      end
  | _ => mret true
  end.

Definition persistDHCPLease (store : bool) (id : string) (lease : LeaseInfo) : DM unit :=
  if negb store then mret tt
  else match li_State lease with
  | LeaseBound => onWorld (leaseSave id lease) ;; record (LeaseSaved id)
  | LeaseExpired => onWorld (leaseDelete id) ;; record (LeaseDeleted id)
  | _ => mret tt
  end.

(** ** DHCP startup *)

Record dhcpStartup := mkDhcpStartup {
  ds_client : bool;
  ds_store : bool;
  ds_connectionID : string;
  ds_cached : bool;
}.

Definition empty_startup : dhcpStartup := mkDhcpStartup false false "" false.

Definition role_lease_id (d : Daemon) : string := d_role d +:+ "/" +:+ dc_Iface (d_cfg d).
Definition lease_dir (cfg : DaemonConfig) : string := dc_LeaseDirectory cfg +:+ "/roles".

Definition retireDisabledDHCPLease : DM (option error) :=
  d ← getD id;
  if bool_decide (dc_LeaseDirectory (d_cfg d) = ""%string) then mret None
  else
    opened ← onWorld (openLeaseStore (lease_dir (d_cfg d)));
    match opened with
    | Some e => mret (Some ("configure DHCP lease recovery: " +:+ e))
    | None => onWorld (leaseDelete (role_lease_id d)) ;; record (LeaseDeleted (role_lease_id d)) ;; mret None
    end.

(** The startup state and whether there is a lease to recover. *)
Definition prepareRoleDHCPRecovery : DM (res dhcpStartup) :=
  d ← getD id;
  if bool_decide (dc_LeaseDirectory (d_cfg d) = ""%string) then mret (Ok empty_startup)
  else
    opened ← onWorld (openLeaseStore (lease_dir (d_cfg d)));
    match opened with
    | Some e => mret (Err ("configure DHCP lease recovery: " +:+ e))
    | None =>
        has ← onWorld (leaseHas (role_lease_id d));
        mret (Ok (mkDhcpStartup false true (role_lease_id d) (match has with Ok b => b | Err _ => false end)))
    end.

Definition startDHCP : DM (res dhcpStartup) :=
  cfg ← getD d_cfg;
  if negb (dc_EnableDHCP cfg) then
    r ← retireDisabledDHCPLease;
    mret (match r with Some e => Err e | None => Ok empty_startup end)
  else
    r ← prepareRoleDHCPRecovery;
    match r with
    | Err e => mret (Err e)
    | Ok st =>
        onWorld (startDHCPClient (ds_cached st)) ;; record (DHCPStarted (ds_cached st)) ;;
        mret (Ok (mkDhcpStartup true (ds_store st) (ds_connectionID st) (ds_cached st)))
    end.

(** ** The main loop *)

Inductive arm :=
| ArmReadinessDone (failure : option error)
| ArmCtxDone
| ArmEvent (ev : KernelEvent)
| ArmMonitorClosed
| ArmLease (lease : LeaseInfo)
| ArmDHCPClosed
| ArmTick
| ArmRequested
| ArmWorkers (work : M menv unit).

Inductive exit := Returned (e : option error) | Panicked.

Record loop_env := mkLoopEnv {
  lp_dhcp : dhcpStartup;
  lp_ra : bool;
  lp_serving : bool;
}.

Definition passWithAlerts : DM unit :=
  reconcileAll ;; now ← onWorld clockOf; evaluateAlertsAll now.

(** One arm: whether the readiness server is still waited for, and the exit. *)
Definition loopStep (l : loop_env) (serving : bool) (a : arm) : DM (bool * option exit) :=
  match a with
  | ArmReadinessDone failure =>
      if negb serving then mret (serving, None)
      else match failure with
           | Some e => mret (serving, Some (Returned (Some ("forwarding readiness socket: " +:+ e))))
           | None => mret (false, None)
           end
  | ArmCtxDone =>
      whenM (lp_ra l) (onWorld closeRA ;; record RAClosed) ;; mret (serving, Some (Returned None))
  | ArmEvent ev =>
      dispatchEvent ev ;;
      ok ← signalDHCPClient (ds_client (lp_dhcp l)) ev;
      if negb ok then mret (serving, Some Panicked)
      else whenM (bool_decide (ev_Kind ev = EvResync)) reconcileAll ;; mret (serving, None)
  | ArmMonitorClosed | ArmDHCPClosed => mret (serving, None)
  | ArmLease lease =>
      if negb (ds_client (lp_dhcp l)) then mret (serving, None)
      else persistDHCPLease (ds_store (lp_dhcp l)) (ds_connectionID (lp_dhcp l)) lease ;;
           dispatchLease lease ;; mret (serving, None)
  | ArmTick => passWithAlerts ;; mret (serving, None)
  | ArmRequested =>
      queued ← getD reconcileReq;
      if negb queued then mret (serving, None)
      else setD (set_req false) ;; passWithAlerts ;; mret (serving, None)
  | ArmWorkers work => callModule work ;; mret (serving, None)
  end.

(** [None]: the loop still runs after the arms. *)
Fixpoint loopArms (l : loop_env) (serving : bool) (arms : list arm) : DM (option exit) :=
  match arms with
  | [] => mret None
  | a :: arms =>
      '(serving, ended) ← loopStep l serving a;
      match ended with
      | Some x => mret (Some x)
      | None => loopArms l serving arms
      end
  end.

Definition runLoop (l : loop_env) (arms : list arm) : DM (option exit) :=
  reconcileAll ;; loopArms l (lp_serving l) arms.

(** ** Run *)

(** Everything before the deferred calls. *)
Definition runBody (arms : list arm) : DM (option exit) :=
  cfg ← getD d_cfg;
  now ← onWorld clockOf;
  setD (set_startedAt now) ;;
  let serving := negb (bool_decide (dc_ForwardingReadySocket cfg = ""%string)) in
  whenM serving (record ServerStarted) ;;
  started ← startDHCP;
  match started with
  | Err e => mret (Some (Returned (Some e)))
  | Ok dhcp =>
      ra ← (if dc_EnableRA cfg then
              opened ← onWorld openRA; whenM opened (record RAOpened) ;; mret opened
            else mret false);
      modify (fun s => mkDsys (dd s) (mkMenv (me_live (denv s)) (mkShared None None) []) (dtrace s)) ;;
      role ← getD d_role;
      onLive (publishStartingPaths role (dc_LiveState cfg) (dc_Connections cfg)) ;;
      failed ← initModules;
      match failed with
      | Some e => mret (Some (Returned (Some e)))
      | None => runLoop (mkLoopEnv dhcp ra serving) arms
      end
  end.

(** The deferred calls, last deferred first: readiness is withdrawn and its server stopped,
    then the modules are shut down. *)
Definition runDeferred : DM (list error) :=
  cfg ← getD d_cfg;
  whenM (negb (bool_decide (dc_ForwardingReadySocket cfg = ""%string)))
    (setForwardingReadiness not_forwarding ;; record ServerStopped) ;;
  shutdownModules.

(** [None]: still running after the arms.  Otherwise the exit of the body and the shutdown
    failures joined to it. *)
Definition Run (arms : list arm) : DM (option (exit * list error)) :=
  setD (set_attempted []) ;;
  r ← runBody arms;
  match r with
  | None => mret None
  | Some x => failures ← runDeferred; mret (Some (x, failures))
  end.
End Daemon.

Arguments menv {DT} W.
Arguments IfModule {DT} W.
Arguments arm {DT} W.
