(* ===== verification/DaemonProps.v ===== *)
(** * The daemon's promises to its modules and to the readiness socket

    [run_lifecycle] is about the calls a module sees from the start of [Run] to its end,
    [pass_readiness] about what a pass publishes, and [requests_served] about requests for a
    pass.  The modules are arbitrary throughout. *)

From S2P Require Import Prelude GoStrings Effects NptPolicy Intent Observation BgpConfig.
From S2P Require Import Tier Notify Health WanState Readiness Daemon.

Local Open Scope Z_scope.

Section Props.
Context `{DT : !DistributionTypes} {W : Type} `{SW : !StoreWorld W}.
Context {ModuleConfig : Type}.
Abbreviation dsys := (Daemon.dsys (W := W) (ModuleConfig := ModuleConfig)).
Context `{DW : !DaemonWorld (W := W)}.
Implicit Types s : dsys.
Implicit Types m : IfModule W.

(** ** What a call changes *)

(** The daemon up to the queued request, and also up to when it started and what it last
    published. *)
Definition settled (d : Daemon (W := W) (ModuleConfig := ModuleConfig)) := set_req false d.
Definition shape (d : Daemon (W := W) (ModuleConfig := ModuleConfig)) :=
  set_startedAt 0 (set_forwardingState not_forwarding (set_req false d)).

Definition quiet s s' : Prop := dtrace s' = dtrace s /\ settled (dd s') = settled (dd s).

#[local] Instance quiet_preorder : PreOrder quiet.
Proof. split; [done|]. intros s1 s2 s3 [H1 H2] [H3 H4]. split; by etransitivity. Qed.

Lemma quiet_shape s s' : quiet s s' -> shape (dd s') = shape (dd s).
Proof. intros [_ H]. exact (f_equal (set_startedAt 0 ∘ set_forwardingState not_forwarding) H). Qed.

Lemma shape_fields (d d' : Daemon (W := W) (ModuleConfig := ModuleConfig)) : shape d' = shape d ->
  d_cfg d' = d_cfg d /\ d_role d' = d_role d /\ d_modules d' = d_modules d /\
  attemptedModules d' = attemptedModules d.
Proof. destruct d, d'. unfold shape. cbn. intros H. by simplify_eq. Qed.

Lemma settled_fields (d d' : Daemon (W := W) (ModuleConfig := ModuleConfig)) : settled d' = settled d ->
  d_cfg d' = d_cfg d /\ d_role d' = d_role d /\ d_modules d' = d_modules d /\
  attemptedModules d' = attemptedModules d /\ forwardingState d' = forwardingState d.
Proof. destruct d, d'. unfold settled. cbn. intros H. by simplify_eq. Qed.

Lemma quiet_onLive {A} (f : M (ssys W) A) : sat (onLive (ModuleConfig := ModuleConfig) f) quiet.
Proof. intros s. unfold onLive. by destruct (f _). Qed.

Lemma quiet_onWorld {A} (f : W -> A * W) : sat (onWorld (ModuleConfig := ModuleConfig) f) quiet.
Proof. apply quiet_onLive. Qed.

Lemma quiet_request reason : sat (requestReconcile (W:=W) (ModuleConfig := ModuleConfig) reason) quiet.
Proof. intros s. unfold requestReconcile, mbind, M_bind, getD, gets. by destruct (reconcileReq (dd s)). Qed.

Lemma quiet_callModule {A} (f : M (menv W) A) : sat (callModule (ModuleConfig := ModuleConfig) f) quiet.
Proof.
  unfold callModule. apply sat_bind; [typeclasses eauto|intros s; by destruct (f _)|]. intros a.
  sat_steps ltac:(apply quiet_request).
Qed.

(** ** Traces *)

(** The calls the loop may make when the modules in it are called [ns]. *)
Definition concerns (ns : list string) (c : dcall) : Prop :=
  match c with
  | ReconcileCalled m _ _ | EventCalled m _ | LeaseCalled m _ | AlertsCalled m _ | ReadinessObserved m => m ∈ ns
  | InitCalled _ _ | ShutdownCalled _ | WaitCalled _ | ServerStarted | ServerStopped | DHCPStarted _ | RAOpened => False
  | ReadyPublished _ | LeaseSaved _ | LeaseDeleted _ | DHCPVerify | DHCPLinkDown | DHCPLinkChanged | RAClosed => True
  end.

Definition grows (P : dcall -> Prop) s s' : Prop :=
  shape (dd s') = shape (dd s) /\ exists l, dtrace s' = dtrace s ++ l /\ Forall P l.

#[local] Instance grows_preorder P : PreOrder (grows P).
Proof.
  split.
  - intros s. split; [done|]. exists []. by rewrite app_nil_r.
  - intros s1 s2 s3 [H1 (l & Hl & Pl)] [H2 (l' & Hl' & Pl')]. split; [by etransitivity|].
    exists (l ++ l'). rewrite Hl', Hl, app_assoc. split; [done|]. by apply Forall_app.
Qed.

Lemma quiet_grows P s s' : quiet s s' -> grows P s s'.
Proof. intros H. split; [by apply quiet_shape|]. destruct H as [-> _]. exists []. by rewrite app_nil_r. Qed.

Lemma sat_quiet_grows {A} (f : M dsys A) P : sat f quiet -> sat f (grows P).
Proof. intros H s. apply quiet_grows, H. Qed.

Lemma grows_record (P : dcall -> Prop) c : P c -> sat (record (W:=W) (ModuleConfig := ModuleConfig) c) (grows P).
Proof. intros H s. split; [done|]. exists [c]. split; [done|]. by constructor. Qed.

Lemma grows_mono (P Q : dcall -> Prop) s s' : (forall c, P c -> Q c) -> grows P s s' -> grows Q s s'.
Proof. intros H [Hs (l & Hl & HP)]. split; [done|]. exists l. split; [done|]. by eapply Forall_impl. Qed.

Lemma grows_ready (P : dcall -> Prop) st : P (ReadyPublished st) ->
  sat (setForwardingReadiness (W:=W) (ModuleConfig := ModuleConfig) st) (grows P).
Proof. intros H s. split; [done|]. exists [ReadyPublished st]. split; [done|]. by constructor. Qed.

(** The relation of the loop: it calls only the modules of the daemon. *)
Definition during s s' : Prop := grows (concerns (mod_Name <$> d_modules (dd s))) s s'.

#[local] Instance during_preorder : PreOrder during.
Proof.
  split; [intros s; unfold during; reflexivity|]. intros s1 s2 s3 H1 H2. unfold during in *.
  etransitivity; [exact H1|]. destruct H1 as [H1 _]. apply shape_fields in H1 as (_ & _ & H1 & _). by rewrite <- H1.
Qed.

Lemma during_quiet {A} (f : M dsys A) : sat f quiet -> sat f during.
Proof. intros H s. apply quiet_grows, H. Qed.

Lemma during_record c : concerns [] c -> sat (record (W:=W) (ModuleConfig := ModuleConfig) c) during.
Proof. intros H s. apply grows_record. destruct c; cbn in *; try done; by apply not_elem_of_nil in H. Qed.

(** A loop over the daemon's modules. *)
Lemma during_modules {B} (body : B -> IfModule W -> M dsys B) (acc : list (IfModule W) -> B) :
  (forall b m, sat (body b m) (grows (concerns [mod_Name m]))) ->
  sat (modules ← getD d_modules; foldM body (acc modules) modules) during.
Proof.
  intros Hb s. unfold mbind, M_bind, getD, gets, during. set (ms := d_modules (dd s)).
  assert (forall b s0, grows (concerns (mod_Name <$> ms)) s0 (foldM body b ms s0).2) as H.
  { assert (forall ms', ms' ⊆ ms -> forall b s0, grows (concerns (mod_Name <$> ms)) s0 (foldM body b ms' s0).2) as H.
    { intros ms'. induction ms' as [|m ms' IH]; intros Hsub b s0; [reflexivity|]. cbn [foldM].
      unfold mbind, M_bind. specialize (Hb b m s0). destruct (body b m s0) as [b' s1]. cbn in Hb.
      etransitivity; [|apply IH; set_solver]. eapply grows_mono; [|exact Hb].
      intros c. assert (mod_Name m ∈ mod_Name <$> ms) as Hin by (apply list_elem_of_fmap_2, Hsub; set_solver).
      destruct c; cbn; set_solver. }
    by apply H. }
  apply H.
Qed.

Lemma grows_callModule {A} (f : M (menv W) A) P : sat (callModule (ModuleConfig := ModuleConfig) f) (grows P).
Proof. apply sat_quiet_grows, quiet_callModule. Qed.

Create HintDb daemon discriminated.
#[local] Hint Resolve quiet_onLive quiet_onWorld quiet_request quiet_callModule grows_callModule : daemon.

Ltac calls := sat_steps ltac:(first
  [ apply grows_record; cbn; set_solver | apply grows_ready; exact I
  | solve [apply sat_quiet_grows; eauto 2 with daemon nocore] | solve [eauto 2 with daemon nocore] ]).
Ltac loop_calls := sat_steps ltac:(first
  [ apply during_record; exact I | solve [apply during_quiet; eauto 2 with daemon nocore]
  | eauto 2 with daemon nocore ]).

Lemma during_ready st : sat (setForwardingReadiness (W:=W) (ModuleConfig := ModuleConfig) st) during.
Proof. intros s. by apply grows_ready. Qed.
#[local] Hint Resolve during_ready : daemon.

Lemma during_reconcile acc : sat (modules ← getD d_modules; foldM (reconcile_one (W:=W)) acc modules) during.
Proof.
  apply (during_modules _ (fun _ => acc)). intros [failed rf] m. unfold reconcile_one. calls.
Qed.

Lemma during_each (f : IfModule W -> M dsys unit) :
  (forall m, sat (f m) (grows (concerns [mod_Name m]))) ->
  sat (modules ← getD d_modules; forM modules f) during.
Proof. intros H. apply (during_modules (fun _ => f) (fun _ => tt)). auto. Qed.

Lemma during_observe : sat (modules ← getD (W:=W) (ModuleConfig:=ModuleConfig) d_modules; forM modules observe_one) during.
Proof. apply during_each. intros m. unfold observe_one. calls. Qed.
#[local] Hint Resolve during_observe : daemon.

Lemma during_publishPass g failed rf : sat (publishPass (W:=W) (ModuleConfig := ModuleConfig) g failed rf) during.
Proof.
  unfold publishPass, readSnapshot. loop_calls.
Qed.

Lemma during_publishForwarding g failed : sat (publishForwarding (W:=W) (ModuleConfig := ModuleConfig) g failed) during.
Proof. unfold publishForwarding, readSnapshot. loop_calls. Qed.
#[local] Hint Resolve during_publishPass during_publishForwarding : daemon.

Lemma sat_assoc {S A B C} R (m : M S A) (f : A -> M S B) (g : B -> M S C) :
  sat ((a ← m; f a) ≫= g) R -> sat (a ← m; b ← f a; g b) R.
Proof. intros H s. specialize (H s). unfold mbind, M_bind in *. destruct (m s). by destruct (f a s0). Qed.

Lemma during_reconcileAll : sat (reconcileAll (W:=W) (ModuleConfig := ModuleConfig)) during.
Proof.
  unfold reconcileAll. apply sat_bind; [typeclasses eauto|loop_calls|]. intros cfg.
  apply sat_bind; [typeclasses eauto|unfold readSnapshot; loop_calls|]. intros g.
  apply sat_assoc, sat_bind; [typeclasses eauto|apply during_reconcile|]. intros [failed rf].
  unfold reportedForwardingReadiness. loop_calls.
Qed.

Lemma during_dispatchEvent ev : sat (dispatchEvent (W:=W) (ModuleConfig := ModuleConfig) ev) during.
Proof. apply during_each. intros m. calls. Qed.
Lemma during_dispatchLease l : sat (dispatchLease (W:=W) (ModuleConfig := ModuleConfig) l) during.
Proof. apply during_each. intros m. calls. Qed.
Lemma during_evaluateAlerts now : sat (evaluateAlertsAll (W:=W) (ModuleConfig := ModuleConfig) now) during.
Proof. apply during_each. intros m. calls. Qed.
Lemma during_signal client ev : sat (signalDHCPClient (W:=W) (ModuleConfig := ModuleConfig) client ev) during.
Proof. unfold signalDHCPClient. loop_calls. Qed.
Lemma during_persist st id l : sat (persistDHCPLease (W:=W) (ModuleConfig := ModuleConfig) st id l) during.
Proof. unfold persistDHCPLease. loop_calls. Qed.
#[local] Hint Resolve during_reconcileAll during_dispatchEvent during_dispatchLease during_evaluateAlerts
  during_signal during_persist : daemon.

Lemma during_take_request : sat (setD (W:=W) (ModuleConfig := ModuleConfig) (set_req false)) during.
Proof. intros s. by apply quiet_grows. Qed.
#[local] Hint Resolve during_take_request : daemon.

Lemma during_step l serving a : sat (loopStep (W:=W) (ModuleConfig := ModuleConfig) l serving a) during.
Proof. unfold loopStep, passWithAlerts. loop_calls. Qed.

Lemma during_arms l arms : forall serving, sat (loopArms (W:=W) (ModuleConfig := ModuleConfig) l serving arms) during.
Proof.
  induction arms as [|a arms IH]; intros serving; cbn [loopArms].
  - apply sat_ret. typeclasses eauto.
  - apply sat_bind; [typeclasses eauto|apply during_step|]. intros [serving' [x|]]; [apply sat_ret; typeclasses eauto|apply IH].
Qed.

Lemma during_runLoop l arms : sat (runLoop (W:=W) (ModuleConfig := ModuleConfig) l arms) during.
Proof. apply sat_bind; [typeclasses eauto|apply during_reconcileAll|]. intros _. apply during_arms. Qed.

(** ** Initialisation *)

Definition init_calls (rs : list (IfModule W * init_result)) : list dcall :=
  (fun p => InitCalled (mod_Name p.1) p.2) <$> rs.

Definition init_failed (r : init_result) : bool := match r with InitErr _ => true | _ => false end.

(** The modules that stay in the dispatch list. *)
Definition kept (rs : list (IfModule W * init_result)) : list (IfModule W) :=
  (filter (fun p => match p.2 with InitOk => true | _ => false end = true) rs).*1.

(** The calls of [Init] over a prefix of the modules, and what each returned: the loop stops
    at the first failure. *)
Definition init_run (todo : list (IfModule W)) (rs : list (IfModule W * init_result)) (failed : bool) : Prop :=
  if failed then exists rs' m e rest, rs = rs' ++ [(m, InitErr e)] /\ todo = rs.*1 ++ rest /\
                   Forall (fun p => init_failed p.2 = false) rs'
  else todo = rs.*1 /\ Forall (fun p => init_failed p.2 = false) rs.

Definition initialised (todo : list (IfModule W)) (rs : list (IfModule W * init_result)) (failed : bool) s s' : Prop :=
  dtrace s' = dtrace s ++ init_calls rs /\ attemptedModules (dd s') = attemptedModules (dd s) ++ rs.*1 /\
  d_modules (dd s') = d_modules (dd s) /\ d_cfg (dd s') = d_cfg (dd s) /\ init_run todo rs failed.

Lemma init_run_cons m r todo rs failed :
  init_failed r = false -> init_run todo rs failed -> init_run (m :: todo) ((m, r) :: rs) failed.
Proof.
  intros Hr. destruct failed; cbn.
  - intros (rs' & m' & e & rest & -> & -> & HF). exists ((m, r) :: rs'), m', e, rest. split_and!; [done|done|by constructor].
  - intros [-> HF]. split; [done|by constructor].
Qed.

Lemma kept_cons m r rs : kept ((m, r) :: rs) = match r with InitOk => [m] | _ => [] end ++ kept rs.
Proof. unfold kept. rewrite filter_cons. destruct r; by case_decide. Qed.

(** One turn of the loop. *)
Lemma init_turn m s :
  let '(r, s') := (setD (fun d => set_attempted (attemptedModules d ++ [m]) d) ;;
                   r ← callModule (mod_Init m); record (InitCalled (mod_Name m) r) ;; mret r) s in
  dtrace s' = dtrace s ++ [InitCalled (mod_Name m) r] /\ attemptedModules (dd s') = attemptedModules (dd s) ++ [m] /\
  d_modules (dd s') = d_modules (dd s) /\ d_cfg (dd s') = d_cfg (dd s).
Proof.
  unfold mbind, M_bind, setD, modify, record. set (s0 := mkDsys _ _ _).
  pose proof (quiet_callModule (mod_Init m) s0) as [Ht Hs]. destruct (callModule (mod_Init m) s0) as [r s1].
  apply settled_fields in Hs as (Hc & _ & Hm & Ha & _). cbn in *. by rewrite Ht, Ha, Hm, Hc.
Qed.

Lemma initLoop_spec todo : forall enabled s,
  let '(r, s') := initLoop todo enabled s in
  exists rs failed, initialised todo rs failed s s' /\
    match r with Ok ms => failed = false /\ ms = enabled ++ kept rs | Err _ => failed = true end.
Proof.
  induction todo as [|m todo IH]; intros enabled s; cbn [initLoop].
  - exists [], false. cbn. rewrite !app_nil_r. unfold initialised. cbn. rewrite !app_nil_r. done.
  - pose proof (init_turn m s) as Hturn. unfold mbind, M_bind, mret, M_ret in *. cbn [setD modify] in *.
    set (s0 := mkDsys _ _ _) in *. destruct (callModule (mod_Init m) s0) as [r s1]. cbn [record modify] in *.
    set (s2 := mkDsys (dd s1) _ _) in *. destruct Hturn as (Ht & Ha & Hm & Hc).
    assert (forall rs failed s', init_failed r = false -> initialised todo rs failed s2 s' ->
              initialised (m :: todo) ((m, r) :: rs) failed s s') as Hcons.
    { intros rs failed s' Hr (Ht' & Ha' & Hm' & Hc' & Hrun). unfold initialised. rewrite Ht', Ha', Hm', Hc', Ht, Ha, Hm, Hc.
      rewrite <- !app_assoc. split_and!; try done. by apply init_run_cons. }
    destruct r as [|e|e].
    + specialize (IH (enabled ++ [m]) s2). destruct (initLoop todo (enabled ++ [m]) s2) as [r s'].
      destruct IH as (rs & failed & Hi & Hr). exists ((m, InitOk) :: rs), failed. split; [by apply Hcons|].
      destruct r; [|done]. destruct Hr as [-> ->]. by rewrite kept_cons, <- app_assoc.
    + specialize (IH enabled s2). destruct (initLoop todo enabled s2) as [r s'].
      destruct IH as (rs & failed & Hi & Hr). exists ((m, InitDisabled e) :: rs), failed. split; [by apply Hcons|].
      destruct r; [|done]. by rewrite kept_cons.
    + exists [(m, InitErr e)], true. split; [|done]. unfold initialised. split_and!; try done.
      by exists [], m, e, todo.
Qed.

Lemma initModules_spec s :
  let '(r, s') := initModules s in
  exists rs failed, dtrace s' = dtrace s ++ init_calls rs /\
    attemptedModules (dd s') = attemptedModules (dd s) ++ rs.*1 /\ d_cfg (dd s') = d_cfg (dd s) /\
    init_run (d_modules (dd s)) rs failed /\
    (if failed then is_Some r else r = None /\ d_modules (dd s') = kept rs).
Proof.
  unfold initModules. unfold mbind, M_bind, getD, gets.
  pose proof (initLoop_spec (d_modules (dd s)) [] s) as H. destruct (initLoop _ _ s) as [[ms|e] s'].
  - destruct H as (rs & failed & (Ht & Ha & Hm & Hc & Hr) & -> & ->). exists rs, false. cbn. done.
  - destruct H as (rs & failed & (Ht & Ha & Hm & Hc & Hr) & ->). exists rs, true. cbn. done.
Qed.

(** ** Shutdown *)

Definition closers (ms : list (IfModule W)) : list (IfModule W) := filter (fun m => is_Some (mod_Shutdown m)) ms.
Definition workers (ms : list (IfModule W)) : list (IfModule W) := filter (fun m => is_Some (mod_Wait m)) ms.

(** A loop over modules that makes at most one recorded call for each. *)
Lemma once_each {B} (body : B -> IfModule W -> M dsys B) (call : IfModule W -> dcall) (P : IfModule W -> Prop)
    `{!forall m, Decision (P m)} :
  (forall b m s, let s' := (body b m s).2 in settled (dd s') = settled (dd s) /\
     dtrace s' = dtrace s ++ (if decide (P m) then [call m] else [])) ->
  forall ms b s, let s' := (foldM body b ms s).2 in
    settled (dd s') = settled (dd s) /\ dtrace s' = dtrace s ++ (call <$> filter P ms).
Proof.
  intros Hb ms. induction ms as [|m ms IH]; intros b s; cbn [foldM].
  - cbn. by rewrite app_nil_r.
  - unfold mbind, M_bind. specialize (Hb b m s). destruct (body b m s) as [b' s1]. cbn in Hb.
    destruct Hb as [Hs Ht]. specialize (IH b' s1). destruct (foldM body b' ms s1) as [b'' s2]. cbn [fst snd] in *.
    destruct IH as [Hs' Ht']. split; [by etransitivity|]. rewrite Ht', Ht, <- app_assoc, filter_cons.
    by destruct (decide (P m)).
Qed.

Lemma shutdown_one_calls failures m s : let s' := (shutdown_one failures m s).2 in
  settled (dd s') = settled (dd s) /\
  dtrace s' = dtrace s ++ (if decide (is_Some (mod_Shutdown m)) then [ShutdownCalled (mod_Name m)] else []).
Proof.
  unfold shutdown_one. destruct (mod_Shutdown m) as [close|]; case_decide as Hd; cbn; [| |by destruct Hd|].
  - unfold mbind, M_bind. pose proof (quiet_callModule close s) as [Ht Hs].
    destruct (callModule close s) as [[e|] s1]; cbn in *; by rewrite Ht.
  - by destruct Hd.
  - by rewrite app_nil_r.
Qed.

Lemma wait_one_calls (b : unit) m s : let s' := (wait_one m s).2 in
  settled (dd s') = settled (dd s) /\
  dtrace s' = dtrace s ++ (if decide (is_Some (mod_Wait m)) then [WaitCalled (mod_Name m)] else []).
Proof.
  unfold wait_one. destruct (mod_Wait m) as [wait|]; case_decide as Hd; cbn; [| |by destruct Hd|].
  - unfold mbind, M_bind. pose proof (quiet_callModule wait s) as [Ht Hs].
    destruct (callModule wait s) as [u s1]; cbn in *; by rewrite Ht.
  - by destruct Hd.
  - by rewrite app_nil_r.
Qed.

Definition shutdown_calls (attempted : list (IfModule W)) : list dcall :=
  (ShutdownCalled ∘ mod_Name <$> closers (rev attempted)) ++ (WaitCalled ∘ mod_Name <$> workers (rev attempted)).

Lemma shutdownModules_spec s : let s' := (shutdownModules s).2 in
  settled (dd s') = settled (dd s) /\ dtrace s' = dtrace s ++ shutdown_calls (attemptedModules (dd s)).
Proof.
  unfold shutdownModules. unfold mbind, M_bind, getD, gets.
  pose proof (once_each shutdown_one (ShutdownCalled ∘ mod_Name) _ shutdown_one_calls
                (rev (attemptedModules (dd s))) [] s) as H1.
  destruct (foldM shutdown_one [] _ s) as [fs s1]. cbn in H1. destruct H1 as [H1 T1].
  pose proof (once_each (fun _ => wait_one) (WaitCalled ∘ mod_Name) _ wait_one_calls
                (rev (attemptedModules (dd s))) tt s1) as H2.
  unfold forM. destruct (foldM _ tt _ s1) as [u s2]. cbn in *. destruct H2 as [H2 T2].
  split; [by etransitivity|]. by rewrite T2, T1, <- app_assoc.
Qed.

(** ** A whole run *)

Definition startup_call (c : dcall) : Prop :=
  match c with ServerStarted | LeaseDeleted _ | DHCPStarted _ | RAOpened => True | _ => False end.

Lemma wp_grows {A B} P (f : M dsys A) (k : A -> M dsys B) Q s0 s :
  grows P s0 s -> sat f (grows P) -> (forall a s', grows P s0 s' -> wp (k a) Q s') -> wp (f ≫= k) Q s.
Proof.
  intros Hs Hf Hk. apply wp_bind. specialize (Hf s). unfold wp. destruct (f s) as [a s']. apply Hk.
  by etransitivity.
Qed.

Lemma startup_dhcp : sat (startDHCP (W:=W) (ModuleConfig := ModuleConfig)) (grows startup_call).
Proof. unfold startDHCP, retireDisabledDHCPLease, prepareRoleDHCPRecovery. calls. Qed.

(** The body of [Run] from [s] to [s']: startup, [Init] over a prefix of the modules, then,
    when none failed, work that concerns only the modules kept. *)
Definition body_run s s' (starts : list dcall) (rs : list (IfModule W * init_result)) (work : list dcall) : Prop :=
  dtrace s' = dtrace s ++ starts ++ init_calls rs ++ work /\
  attemptedModules (dd s') = attemptedModules (dd s) ++ rs.*1 /\ d_cfg (dd s') = d_cfg (dd s) /\
  rs.*1 `prefix_of` d_modules (dd s) /\ Forall startup_call starts /\
  Forall (concerns (mod_Name <$> kept rs)) work /\
  (init_run (d_modules (dd s)) rs false \/ work = []).

Lemma started_body s s' starts : shape (dd s') = shape (dd s) -> dtrace s' = dtrace s ++ starts ->
  Forall startup_call starts -> body_run s s' starts [] [].
Proof.
  intros Hs Ht HF. apply shape_fields in Hs as (Hc & _ & _ & Ha). unfold body_run. cbn. rewrite !app_nil_r.
  split_and!; first [done|apply prefix_nil|constructor; done|by right].
Qed.

Lemma init_run_prefix todo rs failed : init_run todo rs failed -> rs.*1 `prefix_of` todo.
Proof. destruct failed; cbn; [intros (? & ? & ? & rest & _ & -> & _); by exists rest|intros [-> _]; done]. Qed.

Lemma wp_init_loop s0 s l arms :
  grows startup_call s0 s ->
  wp (failed ← initModules;
      match failed with Some e => mret (Some (Returned (Some e))) | None => runLoop l arms end)
     (fun _ s' => exists starts rs work, body_run s0 s' starts rs work) s.
Proof.
  intros [Hsh (starts & Hst & HF)]. apply shape_fields in Hsh as (Hc & _ & Hm & Ha).
  apply wp_bind. pose proof (initModules_spec s) as Hi. unfold wp. destruct (initModules s) as [r s1]. cbn [fst snd].
  destruct Hi as (rs & failed & Ht & Ha1 & Hc1 & Hrun & Hr). rewrite Hm in Hrun.
  assert (forall work s', shape (dd s') = shape (dd s1) -> dtrace s' = dtrace s1 ++ work ->
            Forall (concerns (mod_Name <$> kept rs)) work -> (init_run (d_modules (dd s0)) rs false \/ work = []) ->
            body_run s0 s' starts rs work) as Hbody.
  { intros work s' Hs Htr HP Hw. apply shape_fields in Hs as (Hc' & _ & _ & Ha'). unfold body_run.
    rewrite Htr, Ht, Hst, Ha', Ha1, Ha, Hc', Hc1, Hc, <- !app_assoc. split_and!; try done.
    by eapply init_run_prefix. }
  exists starts, rs. destruct failed.
  - destruct Hr as [e ->]. exists []. apply Hbody; [done|by rewrite app_nil_r|constructor|by right].
  - destruct Hr as [-> Hk]. destruct (during_runLoop l arms s1) as [Hs (work & Hw & HP)]. exists work.
    rewrite Hk in HP. apply Hbody; auto.
Qed.

Lemma runBody_spec arms s : exists starts rs work, body_run s (runBody arms s).2 starts rs work.
Proof.
  assert (wp (runBody arms) (fun _ s' => exists starts rs work, body_run s s' starts rs work) s) as H; [|exact H].
  unfold runBody. eapply (wp_grows startup_call); [reflexivity|calls|]. intros cfg s1 G.
  eapply (wp_grows startup_call); [exact G|calls|]. clear G. intros now s2 G.
  eapply (wp_grows startup_call); [exact G|intros s3; split; [done|exists []; by rewrite app_nil_r]|]. clear G. intros _ s3 G. cbv zeta.
  eapply (wp_grows startup_call); [exact G|calls|]. clear G. intros _ s4 G.
  eapply (wp_grows startup_call); [exact G|apply startup_dhcp|]. clear G. intros [dhcp|e] s5 G.
  - eapply (wp_grows startup_call); [exact G|calls|]. clear G. intros ra s6 G.
    eapply (wp_grows startup_call); [exact G|intros s7; by apply quiet_grows|]. clear G. intros _ s7 G.
    eapply (wp_grows startup_call); [exact G|calls|]. clear G. intros role s8 G.
    eapply (wp_grows startup_call); [exact G|calls|]. clear G. intros _ s9 G. by apply wp_init_loop.
  - destruct G as [Hs (starts & Ht & HF)]. exists starts, [], []. by apply started_body.
Qed.

Definition withdrawal (cfg : DaemonConfig (ModuleConfig := ModuleConfig)) : list dcall :=
  if bool_decide (dc_ForwardingReadySocket cfg = ""%string) then [] else [ReadyPublished not_forwarding; ServerStopped].

Lemma runDeferred_spec s : let s' := (runDeferred s).2 in
  dtrace s' = dtrace s ++ withdrawal (d_cfg (dd s)) ++ shutdown_calls (attemptedModules (dd s)) /\
  (dc_ForwardingReadySocket (d_cfg (dd s)) <> ""%string -> forwardingState (dd s') = not_forwarding).
Proof.
  unfold runDeferred, withdrawal, whenM. generalize shutdownModules_spec. generalize (shutdownModules (W := W) (ModuleConfig := ModuleConfig)).
  intros f Hf. unfold mbind, M_bind, getD, gets. case_bool_decide; cbn.
  - by destruct (Hf s) as [_ ->].
  - unfold setForwardingReadiness, record, setD, modify, mbind, M_bind. cbn.
    match goal with |- context [f ?s0] => destruct (Hf s0) as [Hs ->] end. cbn in *.
    split; [by rewrite <- !app_assoc|]. intros _. by apply settled_fields in Hs as (_ & _ & _ & _ & Hs).
Qed.


(** ** What a pass publishes *)

Definition fwd (v6 : bool) (st : FState) : bool := if v6 then rdy_IPv6 st else rdy_IPv4 st.

(** A selectable member of the snapshot carries the family. *)
Definition carried (v6 : bool) (snapshot : Snapshot) : Prop :=
  exists name routing, Routing snapshot !! name = Some routing /\ SelectionEnabled routing = true /\
    fwd v6 (memberForwardingReadiness routing (member_health_of snapshot name).1 (member_health_of snapshot name).2) = true.

Definition family_of (v6 : bool) (c : Connection) : option Family :=
  if v6 then v6_Family <$> conn_IPv6 c else v4_Family <$> conn_IPv4 c.

(** The internal link of the connection is ready for the family, where it has it. *)
Definition internal_ok (v6 : bool) (results : shared_results) (c : Connection) : Prop :=
  internal_owned c = true -> forall settings, family_of v6 c = Some settings ->
  internal_family_ready results (conn_ID c) (if v6 then familyNameIPv6 else familyNameIPv4) settings = true.

Definition impacts (v6 : bool) (c : dcall) : bool :=
  match c with ReconcileCalled _ _ impact => fwd v6 impact | _ => false end.

Definition reconciled : list dcall -> list string :=
  omap (fun c => match c with ReconcileCalled m _ _ => Some m | _ => None end).

Lemma fwd_or v6 a b : fwd v6 (or_state a b) = fwd v6 a || fwd v6 b.
Proof. by destruct v6. Qed.
Lemma fwd_and v6 a b : fwd v6 (and_state a b) = fwd v6 a && fwd v6 b.
Proof. by destruct v6. Qed.
Lemma fwd_neg v6 a : fwd v6 (neg_state a) = negb (fwd v6 a).
Proof. by destruct v6. Qed.
Lemma fwd_none v6 : fwd v6 not_forwarding = false.
Proof. by destruct v6. Qed.

Lemma member_state_fwd v6 snapshot name routing : fwd v6 (member_state snapshot name routing) = true <->
  SelectionEnabled routing = true /\
  fwd v6 (memberForwardingReadiness routing (member_health_of snapshot name).1 (member_health_of snapshot name).2) = true.
Proof.
  unfold member_state. destruct (SelectionEnabled routing).
  - destruct (member_health_of snapshot name). cbn. intuition.
  - rewrite fwd_none. intuition done.
Qed.

Lemma forwardingReadiness_carried v6 snapshot : fwd v6 (forwardingReadiness snapshot) = true <-> carried v6 snapshot.
Proof.
  unfold forwardingReadiness, carried. setoid_rewrite <- member_state_fwd.
  apply (map_fold_weak_ind (fun st R => fwd v6 st = true <->
    exists name routing, R !! name = Some routing /\ fwd v6 (member_state snapshot name routing) = true)).
  - rewrite fwd_none. split; [done|]. intros (n & r & H & _). by rewrite lookup_empty in H.
  - intros n r R st Hn IH. rewrite fwd_or, orb_true_iff, IH. split.
    + intros [H|(n' & r' & H & H')]; [exists n, r; by rewrite lookup_insert_eq|].
      exists n', r'. rewrite lookup_insert_ne by congruence. done.
    + intros (n' & r' & H & H'). apply lookup_insert_Some in H as [[-> ->]|[Hne H]]; [by left|right; by exists n', r'].
Qed.

Lemma internal_fold v6 conns results : forall st,
  fwd v6 (internalForwardingReadiness conns results st) = true <->
  fwd v6 st = true /\ forall c, c ∈ conns -> internal_ok v6 results c.
Proof.
  induction conns as [|c conns IH]; intros st; unfold internalForwardingReadiness in *; cbn [fold_left].
  - split; [intros H; split; [done|]; intros c Hc; by apply not_elem_of_nil in Hc|tauto].
  - rewrite IH. setoid_rewrite elem_of_cons.
    assert (forall b, (b = true <-> fwd v6 st = true /\ internal_ok v6 results c) ->
      b = true /\ (forall c, c ∈ conns -> internal_ok v6 results c) <->
      fwd v6 st = true /\ (forall c', c' = c \/ c' ∈ conns -> internal_ok v6 results c')) as Hgen.
    { intros b ->. naive_solver. }
    apply Hgen. unfold internal_ok, family_of. destruct (internal_owned c); [|split; [done|tauto]]. cbn [negb].
    destruct v6; cbn [fwd rdy_IPv4 rdy_IPv6].
    + destruct (conn_IPv6 c) as [f|]; cbn; [rewrite andb_true_iff|]; naive_solver.
    + destruct (conn_IPv4 c) as [f|]; cbn; [rewrite andb_true_iff|]; naive_solver.
Qed.

(** The loop of a pass: one call for every module, and the families their failures take
    down. *)
Lemma reconcile_loop v6 ms : forall acc s,
  let '((failed, _), s') := foldM reconcile_one acc ms s in
  exists l, settled (dd s') = settled (dd s) /\ dtrace s' = dtrace s ++ l /\
    reconciled l = mod_Name <$> ms /\ fwd v6 failed = fwd v6 acc.1 || existsb (impacts v6) l.
Proof.
  induction ms as [|m ms IH]; intros [failed rf] s; cbn [foldM].
  - exists []. cbn. by rewrite app_nil_r, orb_false_r.
  - assert (exists impact rf' s1, reconcile_one (failed, rf) m s = ((or_state failed impact, rf'), s1) /\
      settled (dd s1) = settled (dd s) /\ exists r, dtrace s1 = dtrace s ++ [ReconcileCalled (mod_Name m) r impact])
      as (impact & rf' & s1 & Heq & Hs & r & Ht).
    { unfold reconcile_one. unfold mbind, M_bind. pose proof (quiet_callModule (mod_Reconcile m) s) as [Ht Hs].
      destruct (callModule (mod_Reconcile m) s) as [[e|] s1]; cbn in *.
      - case_bool_decide; cbn.
        + exists not_forwarding. unfold or_state. cbn. rewrite !orb_false_r. destruct failed. rewrite Ht. by eauto 10.
        + eexists _, _, _. split; [done|]. cbn. rewrite Ht. by eauto.
      - exists not_forwarding. unfold or_state. cbn. rewrite !orb_false_r. destruct failed. rewrite Ht. by eauto 10. }
    unfold mbind, M_bind. rewrite Heq. specialize (IH (or_state failed impact, rf') s1).
    destruct (foldM reconcile_one _ ms s1) as [[failed' rf''] s2]. destruct IH as (l & Hs' & Ht' & Hn & Hf).
    exists (ReconcileCalled (mod_Name m) r impact :: l). split; [by etransitivity|].
    rewrite Ht', Ht, <- app_assoc. split; [done|]. cbn [reconciled omap list_omap fmap list_fmap existsb impacts fst] in *.
    split; [by f_equal|]. by rewrite Hf, fwd_or, orb_assoc.
Qed.

(** Calls of a pass other than those of [Reconcile]. *)
Definition publishing (c : dcall) : Prop :=
  match c with ReadyPublished _ | ReadinessObserved _ => True | _ => False end.

Lemma grows_publishing (f : M dsys unit) s : sat f (grows publishing) -> exists l, dtrace (f s).2 = dtrace s ++ l /\
  shape (dd (f s).2) = shape (dd s) /\ reconciled l = [] /\ forall v6, existsb (impacts v6) l = false.
Proof.
  intros H. destruct (H s) as [Hs (l & Ht & HF)]. exists l. split; [done|]. split; [done|].
  clear -HF. induction HF as [|c l Hc HF [IHr IHe]]; [done|]. destruct c; try done.
Qed.

Lemma publishing_pass g failed rf : sat (publishPass (W:=W) (ModuleConfig := ModuleConfig) g failed rf) (grows publishing).
Proof. unfold publishPass, readSnapshot, observe_one. calls. Qed.

(** [s0] is where the pass started, [s1] after the modules ran. *)
Definition published_right (v6 : bool) (generation : Z) (failed : FState) s1 s' : Prop :=
  let cfg := d_cfg (dd s1) in
  let after := (TakeSnapshot (me_live (denv s'))).1 in
  exists l, dtrace s' = dtrace s1 ++ l /\ reconciled l = [] /\ existsb (impacts v6) l = false /\
  d_cfg (dd s') = cfg /\
  (dc_ForwardingReadySocket cfg <> ""%string ->
   fwd v6 (forwardingState (dd s')) = true <->
   dc_LiveState cfg = true /\ RoutingGeneration after <> generation /\ fwd v6 failed = false /\ carried v6 after /\
   forall c, c ∈ dc_Connections cfg -> internal_ok v6 (me_results (denv s')) c).

Lemma ready_published st s : forwardingState (dd (setForwardingReadiness st s).2) = st.
Proof. done. Qed.

Lemma publishForwarding_right v6 g failed s : published_right v6 g failed s (publishForwarding g failed s).2.
Proof.
  unfold published_right, publishForwarding. unfold mbind, M_bind, getD, gets. case_bool_decide as Hsock.
  { exists []. cbn. rewrite app_nil_r. split_and!; try done. }
  destruct (dc_LiveState (d_cfg (dd s))) eqn:Hlive; cbn [negb].
  2:{ exists [ReadyPublished not_forwarding]. cbn. split_and!; try done. intros _. rewrite fwd_none. intuition done. }
  unfold readSnapshot, onLive. unfold mbind, M_bind. destruct (background (me_live (denv s))) as [u live].
  unfold TakeSnapshot, getStore, gets. cbn [fst snd dd denv dtrace me_live].
  match goal with |- context [if RoutingGeneration ?x =? g then _ else _] => set (snapshot := x) end.
  destruct (RoutingGeneration snapshot =? g) eqn:Hgen.
  - exists [ReadyPublished not_forwarding]. cbn. split_and!; try done. intros _. rewrite fwd_none.
    apply Z.eqb_eq in Hgen. split; [done|]. intros (_ & H & _). by contradict H.
  - eexists [ReadyPublished _]. cbn [fst snd dd denv dtrace me_live]. split; [done|]. split; [done|]. split; [done|].
    split; [done|]. intros _. rewrite ready_published, fwd_and, fwd_neg, andb_true_iff, negb_true_iff, internal_fold, forwardingReadiness_carried.
    apply Z.eqb_neq in Hgen. cbn. unfold snapshot in *. cbn in *. tauto.
Qed.

(** The routing generation the pass compares with; it is read only when there is a store. *)
Lemma generation_read s :
  let cfg := d_cfg (dd s) in
  let '(g, s1) := (if dc_LiveState cfg then snapshot ← readSnapshot; mret (RoutingGeneration snapshot) else mret 0) s in
  quiet s s1 /\ (dc_LiveState cfg = true -> g = RoutingGeneration ((background ;; TakeSnapshot) (me_live (denv s))).1).
Proof.
  cbv zeta. destruct (dc_LiveState (d_cfg (dd s))); [|cbn; split; [reflexivity|discriminate]]. unfold readSnapshot, onLive. unfold mbind, M_bind.
  destruct (background (me_live (denv s))) as [u live]. done.
Qed.

Definition pass_published v6 s s' : Prop :=
  let cfg := d_cfg (dd s) in
  let before := ((background ;; TakeSnapshot) (me_live (denv s))).1 in
  let after := (TakeSnapshot (me_live (denv s'))).1 in
  exists calls, dtrace s' = dtrace s ++ calls /\ reconciled calls = mod_Name <$> d_modules (dd s) /\
    (fwd v6 (forwardingState (dd s')) = true <->
     dc_LiveState cfg = true /\ RoutingGeneration after <> RoutingGeneration before /\
     existsb (impacts v6) calls = false /\ carried v6 after /\
     forall c, c ∈ dc_Connections cfg -> internal_ok v6 (me_results (denv s')) c).

(** The second half of the pass: what was gathered is published. *)
Lemma wp_publish v6 s s2 g failed rf l :
  d_cfg (dd s2) = d_cfg (dd s) -> dc_ForwardingReadySocket (d_cfg (dd s)) <> ""%string ->
  (dc_LiveState (d_cfg (dd s)) = true -> g = RoutingGeneration ((background ;; TakeSnapshot) (me_live (denv s))).1) ->
  dtrace s2 = dtrace s ++ l -> reconciled l = mod_Name <$> d_modules (dd s) -> fwd v6 failed = existsb (impacts v6) l ->
  wp (whenM (dc_LiveState (d_cfg (dd s))) (publishPass g failed rf) ;; publishForwarding g failed)
     (fun _ s' => pass_published v6 s s') s2.
Proof.
  intros Hc2 Hsock Hg Ht2 Hn Hf. apply wp_bind.
  edestruct (grows_publishing (whenM (dc_LiveState (d_cfg (dd s))) (publishPass g failed rf)) s2) as (l' & Ht3 & Hsh & Hn3 & Hi3).
  { apply sat_whenM; [typeclasses eauto|apply publishing_pass]. }
  apply shape_fields in Hsh as (Hc3 & _). unfold wp at 1. destruct (whenM _ _ s2) as [u s3]. cbn [fst snd] in *.
  pose proof (publishForwarding_right v6 g failed s3) as (l'' & Ht4 & Hn4 & Hi4 & _ & Hiff). unfold wp, pass_published.
  rewrite Hc3, Hc2 in Hiff. exists (l ++ l' ++ l''). split; [by rewrite Ht4, Ht3, Ht2, <- !app_assoc|].
  split; [unfold reconciled in *; by rewrite !omap_app, Hn3, Hn4, !app_nil_r|].
  rewrite (Hiff Hsock), !existsb_app, Hi3, Hi4, orb_false_r, <- Hf.
  destruct (dc_LiveState (d_cfg (dd s))); [rewrite (Hg eq_refl)|]; intuition done.
Qed.


(** ** Requests for a pass *)

(** A queued request stays queued. *)
Definition keeps s s' : Prop := reconcileReq (dd s) = true -> reconcileReq (dd s') = true.

#[local] Instance keeps_preorder : PreOrder keeps.
Proof. split; unfold keeps; [intros s; done|intros s1 s2 s3; auto]. Qed.

Lemma keeps_onLive {A} (f : M (ssys W) A) : sat (onLive (ModuleConfig := ModuleConfig) f) keeps.
Proof. intros s H. unfold onLive. by destruct (f _). Qed.
Lemma keeps_onWorld {A} (f : W -> A * W) : sat (onWorld (ModuleConfig := ModuleConfig) f) keeps.
Proof. apply keeps_onLive. Qed.
Lemma keeps_request reason : sat (requestReconcile (W:=W) (ModuleConfig := ModuleConfig) reason) keeps.
Proof. intros s. unfold requestReconcile, keeps, mbind, M_bind, getD, gets. by destruct (reconcileReq (dd s)) eqn:?. Qed.
Lemma keeps_record c : sat (record (W:=W) (ModuleConfig := ModuleConfig) c) keeps.
Proof. by intros s H. Qed.
Lemma keeps_ready st : sat (setForwardingReadiness (W:=W) (ModuleConfig := ModuleConfig) st) keeps.
Proof. by intros s H. Qed.
#[local] Hint Resolve keeps_onLive keeps_onWorld keeps_request keeps_record keeps_ready : keeping.

Ltac keep_steps := sat_steps ltac:(solve [eauto 2 with keeping nocore]).

Lemma keeps_callModule {A} (f : M (menv W) A) : sat (callModule (ModuleConfig := ModuleConfig) f) keeps.
Proof.
  unfold callModule. apply sat_bind; [typeclasses eauto|intros s H; by destruct (f _)|]. intros a. keep_steps.
Qed.
#[local] Hint Resolve keeps_callModule : keeping.

Lemma keeps_reconcileAll : sat (reconcileAll (W:=W) (ModuleConfig := ModuleConfig)) keeps.
Proof.
  unfold reconcileAll, reconcile_one, reportedForwardingReadiness, publishPass, publishForwarding, readSnapshot, observe_one.
  keep_steps.
Qed.
#[local] Hint Resolve keeps_reconcileAll : keeping.

Lemma keeps_step l serving a :
  match a with ArmRequested => True | _ => sat (loopStep (W:=W) (ModuleConfig := ModuleConfig) l serving a) keeps end.
Proof.
  destruct a; [..|done|]; unfold loopStep, dispatchEvent, dispatchLease, signalDHCPClient, persistDHCPLease, passWithAlerts,
    evaluateAlertsAll; keep_steps.
Qed.

(** A module that asks during a call has its request queued. *)
Lemma callModule_queues {A} (f : M (menv W) A) s :
  me_requests (f (mkMenv (me_live (denv s)) (me_results (denv s)) [])).2 <> [] ->
  reconcileReq (dd (callModule f s).2) = true.
Proof.
  unfold callModule. unfold mbind, M_bind, gets, mret, M_ret. destruct (f _) as [a e]. cbn [fst snd denv].
  destruct (me_requests e) as [|reason reasons]; [done|]. intros _. unfold forM. cbn [foldM]. unfold mbind, M_bind.
  set (s1 := mkDsys _ _ _). assert (reconcileReq (dd (requestReconcile reason s1).2) = true) as H.
  { unfold requestReconcile, mbind, M_bind, getD, gets. by destruct (reconcileReq (dd s1)) eqn:?. }
  destruct (requestReconcile reason s1) as [u s2]. cbn [fst snd] in H.
  assert (sat (foldM (fun _ : unit => requestReconcile (W:=W) (ModuleConfig := ModuleConfig)) u reasons) keeps) as Hk by keep_steps.
  specialize (Hk s2 H). by destruct (foldM _ u reasons s2).
Qed.

Lemma reconcileAll_all s : exists l, dtrace (reconcileAll s).2 = dtrace s ++ l /\
  (mod_Name <$> d_modules (dd s)) `sublist_of` reconciled l.
Proof.
  assert (wp reconcileAll (fun _ s' => exists l, dtrace s' = dtrace s ++ l /\
    (mod_Name <$> d_modules (dd s)) `sublist_of` reconciled l) s) as H; [|exact H].
  unfold reconcileAll. apply wp_bind, wp_gets, wp_bind. pose proof (generation_read s) as Hg. cbv zeta in Hg. unfold wp at 1.
  match type of Hg with match ?t with _ => _ end => destruct t as [g s1] end. destruct Hg as [[Ht1 Hs1] _].
  apply settled_fields in Hs1 as (_ & _ & Hm & _). cbn [fst snd]. apply wp_bind, wp_gets, wp_bind. rewrite Hm.
  pose proof (reconcile_loop false (d_modules (dd s)) (not_forwarding, None) s1) as Hl. unfold wp at 1.
  destruct (foldM reconcile_one _ _ s1) as [[failed rf] s2]. cbn [fst snd]. destruct Hl as (l & _ & Ht2 & Hn & _).
  apply (wp_sat _ during); [unfold reportedForwardingReadiness; loop_calls|].
  intros [_ (l' & Ht & _)]. exists (l ++ l'). rewrite Ht, Ht2, Ht1, <- app_assoc. split; [done|].
  unfold reconciled in *. rewrite omap_app, Hn. by apply sublist_inserts_r.
Qed.

Lemma requested_step l serving s : reconcileReq (dd s) = true ->
  exists s' calls, loopStep l serving ArmRequested s = ((serving, None), s') /\ dtrace s' = dtrace s ++ calls /\
    (mod_Name <$> d_modules (dd s)) `sublist_of` reconciled calls.
Proof.
  intros Hq. cbn [loopStep]. unfold mbind at 1, M_bind at 1, getD, gets. rewrite Hq. cbn [negb].
  unfold mbind, M_bind, setD, modify. set (s0 := mkDsys _ _ _). unfold passWithAlerts. unfold mbind, M_bind.
  destruct (reconcileAll_all s0) as (c1 & H1 & Hsub). destruct (reconcileAll s0) as [u s1].
  destruct (quiet_onWorld clockOf s1) as [H2 _]. destruct (onWorld clockOf s1) as [now s2].
  destruct (during_evaluateAlerts now s2) as [_ (c3 & H3 & _)]. destruct (evaluateAlertsAll now s2) as [u' s3].
  cbn [fst snd] in *. exists s3, (c1 ++ c3). split; [done|]. rewrite H3, H2, H1, <- app_assoc. split; [done|].
  unfold reconciled in *. rewrite omap_app. by apply sublist_inserts_r.
Qed.

End Props.
