(* ===== verification/ManagerDemo.v ===== *)
(** * A small interface manager

    A daemon of the wan role with one module, over a clock that advances by one nanosecond a
    reading: the hypotheses of the theorems about the live state, readiness and the daemon
    hold of it. *)

From S2P Require Import Prelude GoStrings Effects NptPolicy Intent Observation BgpConfig.
From S2P Require Import Tier Notify Health WanState WanStateProps Readiness ReadinessProps Daemon DaemonProps.

Local Open Scope Z_scope.

#[local] Instance demo_types : DistributionTypes := {
  DistributionPlan := unit; DistributionEvidence := unit }.
#[local] Instance demo_world : StoreWorld Z := {
  wallNow w := (w, w + 1); CloneCheck := Ok; CloneResult := Ok }.
#[local] Instance demo_daemon_world : DaemonWorld (W := Z) := {
  openLeaseStore _ w := (None, w); leaseHas _ w := (Ok false, w); leaseSave _ _ w := (None, w);
  leaseDelete _ w := (DeleteNotExist, w); startDHCPClient _ w := (tt, w); dhcpVerifyLease w := (tt, w);
  dhcpLinkDown w := (tt, w); dhcpLinkChanged w := (tt, w); openRA w := (true, w); closeRA w := (tt, w);
  clockOf w := (w, w + 1); background := mret tt }.

(** A provider with IPv4. *)
Definition demo_family : Family := mkFamily None None [] None AddrNone None [] [] [].
Definition demo_conn : Connection :=
  mkConnection "att" "enatt" "" None RoleProvider OwnerMWAN None (Some (mkIPv4 demo_family [] None)) None "" [].

Definition fresh_store : ssys Z := mkSsys NewStore 1 [].
Definition demo_store : ssys Z := (run_store_op (OpSetConnections [demo_conn]) fresh_store).2.

(** ** The live state *)

Definition starting_path : store_op := OpSetPathReadiness "att" familyNameIPv4 starting_verdict.
Definition ready_path : store_op := OpSetPathReadiness "att" familyNameIPv4 (mkPathVerdict PathReady "" "").

Definition demo_snapshot : KernelSnapshot := mkKernelSnapshot "att" "enatt" "enatt" 2 true [] [] 5.
Definition demo_resync : KernelEvent :=
  mkKernelEvent EvResync "" "enatt" "att" "enatt" 2 5 "" false "" "" "" 0 0 0 0 0 [] "" 0 0 0 "" (Some demo_snapshot).

Lemma observation_simulates_witness :
  exists c', represents c' (Some (∅, ∅)) /\
    connections (store_ (RecordObservation demo_resync demo_store).2) = <["att"%string := c']> (connections (store_ demo_store)).
Proof.
  eapply (observation_simulates demo_resync demo_store (new_connection demo_conn) None).
  - discriminate.
  - split; constructor.
  - vm_compute. reflexivity.
  - vm_compute. discriminate.
Defined.

(** ** Readiness *)

Definition demo_member : MemberRouting := mkMemberRouting true true true false "" "" [] [] [].
Definition routed_store : ssys Z := (SetRouting 0 [("att"%string, demo_member)] demo_store).2.

(** ** The daemon *)

Definition onEnv {A} (m : M (ssys Z) A) : M (menv Z) A := fun e =>
  let '(a, l) := m (me_live e) in (a, mkMenv l (me_results e) (me_requests e)).

(** A module that publishes the routing of its member and asks for a pass on every event. *)
Definition routes_module : IfModule Z :=
  mkIfModule wanRoutes (mret InitOk) (onEnv (SetRouting 0 [("att"%string, demo_member)]) ;; mret None)
    (fun _ => modify (fun e => mkMenv (me_live e) (me_results e) ("event"%string :: me_requests e)) ;; mret None)
    (fun _ => mret None) (fun _ => mret tt) (Some (mret None)) (Some (mret tt)) None None None.

(** One that disables itself. *)
Definition disabled_module : IfModule Z :=
  mkIfModule "bgp_sessions" (mret (InitDisabled "no session")) (mret None) (fun _ => mret None) (fun _ => mret None)
    (fun _ => mret tt) (Some (mret (Some "held"%string))) None None None None.

Definition demo_config : DaemonConfig (ModuleConfig := unit) :=
  mkDaemonConfig roleWAN "enatt" [demo_conn] Second "" false false ∅ true "/run/mwan/forwarding.sock".

Definition demo_daemon : dsys (W := Z) (ModuleConfig := unit) :=
  mkDsys (mkDaemon demo_config roleWAN [routes_module; disabled_module] [] None false 0 not_forwarding)
    (mkMenv demo_store (mkShared None None) []) [].



