(* ===== verification/ForwardingChanges.v ===== *)
(** * Forwarding changes (gateway/internal/ifmgr/forwarding_changes.go)

    A module that writes to the kernel's forwarding state brackets the change with [Begin]
    and the completion it returns; the owner of an acceleration path registers a guard that
    retires the acceleration first.  The registry is shared by goroutines: [Register] and
    the unregistration take the write lock of a [sync.RWMutex], a change holds the read lock
    from [Begin] to the end of its completion.

    The model is the registry with the phase of every call of [Begin]; an action is what one
    goroutine does between two points where others can run, and [fstep] is [None] when the
    goroutine would block on the lock.  A schedule is a list of actions. *)

From S2P Require Import Prelude Effects.

(** Calls of [Begin], owners and reconcile passes are numbered. *)
Abbreviation change := nat.
Abbreviation owner := nat.

(** A call that took the lock: while the guard runs; holding; completing; done.  It carries
    the registration it read. *)
Inductive phase :=
| Preparing (reg : option owner)
| Holding (reg : option owner)
| Releasing (reg : option owner)
| Finished (reg : option owner)
| Rejected (reg : option owner).

Inductive fevent :=
| GuardCalled (m : change) (r : owner)
| GuardReleased (m : change) (r : owner)
| OwnerSet (r : owner)
| OwnerCleared (r : owner)
| ReconcileAsked (m : change).

Record ForwardingChanges := mkForwardingChanges {
  registration : option owner;
  phases : gmap change phase;
  passOf : gmap change nat;
  activePasses : gset nat;
  owners : gset owner;
  unregistered : gset owner;
  ftrace : list fevent;
}.

Definition no_changes : ForwardingChanges := mkForwardingChanges None ∅ ∅ ∅ ∅ ∅ [].

Definition set_registration (v : option owner) (s : ForwardingChanges) : ForwardingChanges :=
  mkForwardingChanges v (phases s) (passOf s) (activePasses s) (owners s) (unregistered s) (ftrace s).
Definition set_phase (m : change) (p : phase) (s : ForwardingChanges) : ForwardingChanges :=
  mkForwardingChanges (registration s) (<[m := p]> (phases s)) (passOf s) (activePasses s) (owners s) (unregistered s)
    (ftrace s).
Definition set_passOf (m : change) (pass : option nat) (s : ForwardingChanges) : ForwardingChanges :=
  mkForwardingChanges (registration s) (phases s) (partial_alter (fun _ => pass) m (passOf s)) (activePasses s)
    (owners s) (unregistered s) (ftrace s).
Definition set_passes (v : gset nat) (s : ForwardingChanges) : ForwardingChanges :=
  mkForwardingChanges (registration s) (phases s) (passOf s) v (owners s) (unregistered s) (ftrace s).
Definition add_owner (r : owner) (s : ForwardingChanges) : ForwardingChanges :=
  mkForwardingChanges (registration s) (phases s) (passOf s) (activePasses s) ({[r]} ∪ owners s) (unregistered s) (ftrace s).
Definition add_unregistered (r : owner) (s : ForwardingChanges) : ForwardingChanges :=
  mkForwardingChanges (registration s) (phases s) (passOf s) (activePasses s) (owners s) ({[r]} ∪ unregistered s) (ftrace s).
Definition log_event (e : fevent) (s : ForwardingChanges) : ForwardingChanges :=
  mkForwardingChanges (registration s) (phases s) (passOf s) (activePasses s) (owners s) (unregistered s) (ftrace s ++ [e]).

(** ** The lock *)

Definition reads (p : phase) : bool :=
  match p with Preparing _ | Holding _ | Releasing _ => true | Finished _ | Rejected _ => false end.

Definition reg_of (p : phase) : option owner :=
  match p with Preparing r | Holding r | Releasing r | Finished r | Rejected r => r end.

(** [Lock] goes through when no change holds the read lock. *)
Definition write_free (s : ForwardingChanges) : Prop := map_Forall (fun _ p => reads p = false) (phases s).
#[export] Instance write_free_dec s : Decision (write_free s).
Proof. unfold write_free. apply _. Defined.

(** [mutation.active]: the change is in progress. *)
Definition active (s : ForwardingChanges) (m : change) : bool :=
  match phases s !! m with Some (Holding _) => true | _ => false end.

(** ** Actions *)

(** What the guard returned: its error and whether it returned a release function. *)
Record guard_outcome := mkGuardOutcome { go_err : bool; go_release : bool }.

Record begin_ctx := mkBeginCtx {
  bc_err : bool;
  bc_mutation : option change;
  bc_pass : option nat;
}.

Inductive faction :=
| ARegister (r : owner) (guard_given : bool)
| AUnregister (r : owner)
| ABegin (m : change) (ctx : begin_ctx)
| AGuardReturn (m : change) (g : guard_outcome) (ctx_err : bool)
| AComplete (m : change)
| ACompleteEnd (m : change)
| APassStart (p : nat)
| APassEnd (p : nat).

(** [Register]: the identity of the registration is new. *)
Definition Register (r : owner) (guard_given : bool) (s : ForwardingChanges) : option ForwardingChanges :=
  if negb guard_given then Some s
  else if bool_decide (write_free s) then
    match registration s with
    | Some _ => Some s
    | None =>
        if bool_decide (r ∈ owners s) then None
        else Some (log_event (OwnerSet r) (add_owner r (set_registration (Some r) s)))
    end
  else None.

(** The function [Register] returned; [once] makes later calls do nothing. *)
Definition unregister (r : owner) (s : ForwardingChanges) : option ForwardingChanges :=
  if bool_decide (r ∈ unregistered s) then Some s
  else if negb (bool_decide (r ∈ owners s)) then None
  else if bool_decide (write_free s) then
    let s := add_unregistered r s in
    Some (if bool_decide (registration s = Some r) then log_event (OwnerCleared r) (set_registration None s) else s)
  else None.

(** [Begin] up to the call of the guard: a cancelled context is refused, a context that
    carries a change in progress is nested in it, and otherwise the read lock is taken and
    the registration read. *)
Definition Begin (m : change) (ctx : begin_ctx) (s : ForwardingChanges) : option ForwardingChanges :=
  if bc_err ctx then Some s
  else if match bc_mutation ctx with Some m' => active s m' | None => false end then Some s
  else match phases s !! m with
  | Some _ => None
  | None =>
      let s' := set_passOf m (bc_pass ctx) (set_phase m (Preparing (registration s)) s) in
      Some (match registration s with Some r => log_event (GuardCalled m r) s' | None => s' end)
  end.

(** The release function, if there is one. *)
Definition release_if (b : bool) (m : change) (reg : option owner) (s : ForwardingChanges) : ForwardingChanges :=
  match reg with Some r => if b then log_event (GuardReleased m r) s else s | None => s end.

(** [Begin] from the return of the guard on. *)
Definition guard_return (m : change) (g : guard_outcome) (ctx_err : bool) (s : ForwardingChanges) :
    option ForwardingChanges :=
  match phases s !! m with
  | Some (Preparing reg) =>
      Some (
        if match reg with Some _ => go_err g | None => false end
        then set_phase m (Rejected reg) (release_if (go_release g) m reg s)
        else if match reg with Some _ => negb (go_release g) | None => false end
        then set_phase m (Rejected reg) s
        else if ctx_err then set_phase m (Rejected reg) (release_if true m reg s)
        else set_phase m (Holding reg) s)
  | _ => None
  end.

(** The completion: the change is no longer active and the guard is released ... *)
Definition complete (m : change) (s : ForwardingChanges) : option ForwardingChanges :=
  match phases s !! m with
  | Some (Holding reg) => Some (release_if true m reg (set_phase m (Releasing reg) s))
  | Some (Finished _) => Some s
  | _ => None
  end.

(** ... then a pass is requested, unless the change is part of one, and the lock released. *)
Definition complete_end (m : change) (s : ForwardingChanges) : option ForwardingChanges :=
  match phases s !! m with
  | Some (Releasing reg) =>
      let in_pass := match passOf s !! m with Some p => bool_decide (p ∈ activePasses s) | None => false end in
      let s' := match reg with Some _ => if in_pass then s else log_event (ReconcileAsked m) s | None => s end in
      Some (set_phase m (Finished reg) s')
  | _ => None
  end.

Definition fstep (a : faction) (s : ForwardingChanges) : option ForwardingChanges :=
  match a with
  | ARegister r given => Register r given s
  | AUnregister r => unregister r s
  | ABegin m ctx => Begin m ctx s
  | AGuardReturn m g e => guard_return m g e s
  | AComplete m => complete m s
  | ACompleteEnd m => complete_end m s
  | APassStart p => Some (set_passes ({[p]} ∪ activePasses s) s)
  | APassEnd p => Some (set_passes (activePasses s ∖ {[p]}) s)
  end.

Inductive freachable : ForwardingChanges -> Prop :=
| freach_init : freachable no_changes
| freach_step a s s' : freachable s -> fstep a s = Some s' -> freachable s'.

(** ** Invariant *)

Definition is_call (m : change) (e : fevent) : bool :=
  match e with GuardCalled m' _ => bool_decide (m' = m) | _ => false end.
Definition is_release (m : change) (e : fevent) : bool :=
  match e with GuardReleased m' _ => bool_decide (m' = m) | _ => false end.

(** How often the guard was called and released for [m]. *)
Definition calls_of (m : change) (l : list fevent) : nat := length (List.filter (is_call m) l).
Definition releases_of (m : change) (l : list fevent) : nat := length (List.filter (is_release m) l).

#[global] Arguments calls_of : simpl never.
#[global] Arguments releases_of : simpl never.

(** The events that involve the guard of [r]. *)
Definition of_owner (r : owner) (e : fevent) : Prop :=
  match e with GuardCalled _ r' | GuardReleased _ r' => r' = r | _ => False end.

(** What the guard has seen of a change in phase [p]. *)
Definition balanced (p : phase) (calls releases : nat) : Prop :=
  match reg_of p with
  | None => calls = 0 /\ releases = 0
  | Some _ =>
      calls = 1 /\
      match p with
      | Preparing _ | Holding _ => releases = 0
      | Releasing _ | Finished _ => releases = 1
      | Rejected _ => releases <= 1
      end
  end.

Definition seen (s : ForwardingChanges) (m : change) : Prop :=
  match phases s !! m with
  | Some p => balanced p (calls_of m (ftrace s)) (releases_of m (ftrace s))
  | None => calls_of m (ftrace s) = 0 /\ releases_of m (ftrace s) = 0
  end.

Record finv (s : ForwardingChanges) : Prop := mkFinv {
  inv_stable : forall m p, phases s !! m = Some p -> reads p = true -> reg_of p = registration s;
  inv_live : forall r, registration s = Some r -> r ∈ owners s /\ r ∉ unregistered s;
  inv_owners : unregistered s ⊆ owners s;
  inv_cleared : forall r, OwnerCleared r ∈ ftrace s -> r ∈ unregistered s;
  inv_seen : forall m, seen s m;
  inv_quiet : forall l1 l2 r, ftrace s = l1 ++ OwnerCleared r :: l2 -> Forall (fun e => ~ of_owner r e) l2;
}.

Lemma calls_app m l e : calls_of m (l ++ [e]) = calls_of m l + (if is_call m e then 1 else 0).
Proof. unfold calls_of. rewrite List.filter_app, length_app. cbn. by destruct (is_call m e). Qed.
Lemma releases_app m l e : releases_of m (l ++ [e]) = releases_of m l + (if is_release m e then 1 else 0).
Proof. unfold releases_of. rewrite List.filter_app, length_app. cbn. by destruct (is_release m e). Qed.

Lemma quiet_snoc l e :
  (forall l1 l2 r, l = l1 ++ OwnerCleared r :: l2 -> Forall (fun e => ~ of_owner r e) l2) ->
  (forall r, OwnerCleared r ∈ l -> ~ of_owner r e) ->
  forall l1 l2 r, l ++ [e] = l1 ++ OwnerCleared r :: l2 -> Forall (fun e => ~ of_owner r e) l2.
Proof.
  intros Hl He l1 l2 r. destruct l2 as [|x l2 _] using rev_ind; [constructor|].
  rewrite app_comm_cons, app_assoc. intros [Heq ->]%app_inj_tail. apply Forall_app. split; [by eapply Hl|].
  constructor; [|constructor]. apply He. rewrite Heq. set_solver.
Qed.

Lemma elem_snoc (l : list fevent) e x : x ∈ l ++ [e] <-> x ∈ l \/ x = e.
Proof. set_solver. Qed.

Lemma finv_init : finv no_changes.
Proof.
  split; cbn; try done; try set_solver.
  intros l1 l2 r H. by destruct l1.
Qed.

(** The events a step of [m] may log: its guard's, which is the registered one, or the
    request for a pass. *)
Definition step_event (s : ForwardingChanges) (m : change) (e : fevent) : Prop :=
  e = ReconcileAsked m \/ exists r, registration s = Some r /\ (e = GuardCalled m r \/ e = GuardReleased m r).

Lemma step_event_other s m e m' : step_event s m e -> m' <> m -> is_call m' e = false /\ is_release m' e = false.
Proof. intros [->|(r & _ & [->| ->])] Hne; cbn; split; try done; by apply bool_decide_eq_false. Qed.

Lemma finv_phase s m p (eo : option fevent) pass :
  let l := ftrace s ++ option_list eo in
  finv s -> (reads p = true -> reg_of p = registration s) -> from_option (step_event s m) True eo ->
  balanced p (calls_of m l) (releases_of m l) ->
  finv (mkForwardingChanges (registration s) (<[m := p]> (phases s)) pass (activePasses s) (owners s) (unregistered s) l).
Proof.
  cbv zeta. intros [Hst Hli Hun Hcl Hse Hqu] Hp He Hb. split; cbn; try done.
  - intros m' p' [[<- <-]|[_ H]]%lookup_insert_Some; [done|by apply (Hst m')].
  - intros r Hr. apply Hcl. destruct eo as [e|]; cbn in *; [|by rewrite app_nil_r in Hr].
    apply elem_snoc in Hr as [Hr|Hr]; [done|]. subst e. by destruct He as [H|(r' & _ & [H|H])].
  - intros m'. unfold seen. cbn. destruct (decide (m' = m)) as [->|Hne]; [by rewrite lookup_insert_eq|].
    rewrite lookup_insert_ne by congruence. specialize (Hse m'). unfold seen in Hse.
    destruct eo as [e|]; cbn; [|by rewrite app_nil_r]. destruct (step_event_other _ _ _ _ He Hne) as [H1 H2].
    by rewrite calls_app, releases_app, H1, H2, !Nat.add_0_r.
  - destruct eo as [e|]; cbn; [|by rewrite app_nil_r]. apply quiet_snoc; [done|]. intros r Hr Hof.
    apply Hcl in Hr. destruct He as [->|(r' & Hreg & [->| ->])]; cbn in Hof; [done|subst r'..]; by apply Hli in Hreg as [_ H].
Qed.

(** Logging the event [e] changes the counts of [m]. *)
Lemma finv_owner s reg e owners' unregistered' :
  finv s -> write_free s ->
  (forall r, reg = Some r -> r ∈ owners' /\ r ∉ unregistered') -> unregistered' ⊆ owners' ->
  unregistered s ⊆ unregistered' ->
  match e with Some (OwnerSet _) | None => True | Some (OwnerCleared r) => r ∈ unregistered' | _ => False end ->
  finv (mkForwardingChanges reg (phases s) (passOf s) (activePasses s) owners' unregistered' (ftrace s ++ option_list e)).
Proof.
  intros [Hst Hli Hun Hcl Hse Hqu] Hfree Hreg Hsub Hgrow He. split; cbn; try done.
  - intros m p Hm Hr. rewrite (Hfree m p Hm) in Hr. done.
  - intros r Hr. destruct e as [e|]; cbn in Hr; [|rewrite app_nil_r in Hr; set_solver].
    apply elem_snoc in Hr as [Hr|<-]; [set_solver|done].
  - intros m. specialize (Hse m). unfold seen in *. cbn. destruct e as [e|]; cbn; [|by rewrite app_nil_r].
    rewrite calls_app, releases_app. by destruct e; cbn; rewrite ?Nat.add_0_r.
  - destruct e as [e|]; cbn; [|by rewrite app_nil_r]. apply quiet_snoc; [done|]. intros r Hr Hof.
    by destruct e.
Qed.

Lemma finv_register r given s s' : finv s -> Register r given s = Some s' -> finv s'.
Proof.
  intros Hi. unfold Register. destruct given; cbn [negb]; [|by intros [= <-]].
  case_bool_decide as Hf; [|done]. destruct (registration s) as [r'|] eqn:Hreg; [by intros [= <-]|].
  case_bool_decide as Hr; [done|]. intros [= <-]. apply (finv_owner s (Some r) (Some (OwnerSet r))); try done.
  - intros r' [= <-]. split; [set_solver|]. pose proof (inv_owners s Hi). set_solver.
  - pose proof (inv_owners s Hi). set_solver.
Qed.

Lemma finv_unregister r s s' : finv s -> unregister r s = Some s' -> finv s'.
Proof.
  intros Hi. unfold unregister. case_bool_decide as Hu; [by intros [= <-]|].
  case_bool_decide as Ho; cbn [negb]; [|done]. case_bool_decide as Hf; [|done]. cbv zeta. intros [= <-].
  pose proof (inv_owners s Hi) as Hsub. cbn [add_unregistered registration].
  case_bool_decide as Hreg.
  - apply (finv_owner s None (Some (OwnerCleared r))); try done; set_solver.
  - assert (finv (mkForwardingChanges (registration s) (phases s) (passOf s) (activePasses s) (owners s)
      ({[r]} ∪ unregistered s) (ftrace s ++ option_list None))) as H; [|by rewrite app_nil_r in H].
    apply finv_owner; try done; try set_solver. intros r' Hr'. destruct (inv_live s Hi r' Hr'). set_solver.
Qed.

Lemma finv_no_event s m p pass : finv s -> (reads p = true -> reg_of p = registration s) ->
  balanced p (calls_of m (ftrace s)) (releases_of m (ftrace s)) ->
  finv (mkForwardingChanges (registration s) (<[m := p]> (phases s)) pass (activePasses s) (owners s) (unregistered s) (ftrace s)).
Proof. intros Hi Hp Hb. pose proof (finv_phase s m p None pass) as H. cbn in H. rewrite app_nil_r in H. by apply H. Qed.

Lemma finv_begin m ctx s s' : finv s -> Begin m ctx s = Some s' -> finv s'.
Proof.
  intros Hi. unfold Begin. destruct (bc_err ctx); [by intros [= <-]|].
  destruct (match bc_mutation ctx with Some m' => active s m' | None => false end); [by intros [= <-]|].
  pose proof (inv_seen s Hi m) as Hse. unfold seen in Hse. destruct (phases s !! m); [done|]. intros [= <-].
  destruct Hse as [Hc Hr]. destruct (registration s) as [r|] eqn:Hreg.
  - apply (finv_phase s m (Preparing (Some r)) (Some (GuardCalled m r))); [done|done|right; by exists r; eauto|].
    cbn. rewrite calls_app, releases_app, Hc, Hr. cbn. by rewrite bool_decide_true.
  - apply (finv_no_event s m (Preparing None)); [done|done|]. cbn. done.
Qed.

(** The step of a change in progress: what its guard has seen, and that its guard is the
    registered one. *)
Lemma finv_in_progress s m p : finv s -> phases s !! m = Some p -> reads p = true ->
  reg_of p = registration s /\ balanced p (calls_of m (ftrace s)) (releases_of m (ftrace s)).
Proof.
  intros Hi Hm Hr. split; [by apply (inv_stable s Hi m)|]. pose proof (inv_seen s Hi m) as H. unfold seen in H.
  by rewrite Hm in H.
Qed.

(** Moving to [p] with the guard released, when the change has one. *)
Lemma finv_released s m reg p : finv s -> registration s = reg -> reg_of p = reg ->
  balanced (Preparing reg) (calls_of m (ftrace s)) (releases_of m (ftrace s)) ->
  (exists r, p = Releasing r \/ p = Rejected r) ->
  finv (set_phase m p (release_if true m reg s)) /\ finv (release_if true m reg (set_phase m p s)).
Proof.
  intros Hi Hreg Hp Hb Hpp. destruct reg as [r|]; cbn in *.
  - assert (finv (set_phase m p (log_event (GuardReleased m r) s))) as H; [|by split].
    apply (finv_phase s m p (Some (GuardReleased m r))); [done|by rewrite Hreg, Hp|right; by exists r; eauto|].
    cbn. rewrite calls_app, releases_app. cbn. rewrite bool_decide_true by done. destruct Hb as [-> ->].
    destruct Hpp as (r' & [->| ->]); cbn in *; subst r'; cbn; lia.
  - assert (finv (set_phase m p s)) as H; [|by split]. apply (finv_no_event s m p); [done|by rewrite Hreg, Hp|].
    destruct Hpp as (r' & [->| ->]); cbn in *; by subst r'.
Qed.

Lemma finv_guard_return m g e s s' : finv s -> guard_return m g e s = Some s' -> finv s'.
Proof.
  intros Hi. unfold guard_return. destruct (phases s !! m) as [[reg| | | |]|] eqn:Hm; try done. intros [= <-].
  destruct (finv_in_progress s m _ Hi Hm eq_refl) as [Hreg Hb]. cbn in Hreg. symmetry in Hreg.
  assert (finv (set_phase m (Rejected reg) s)) as Hrej.
  { apply (finv_no_event s m (Rejected reg)); [done|done|]. destruct reg; cbn in *; [destruct Hb as [-> ->]; lia|done]. }
  assert (finv (set_phase m (Holding reg) s)) as Hhold.
  { apply (finv_no_event s m (Holding reg)); [done|done|]. by destruct reg. }
  destruct (finv_released s m reg (Rejected reg) Hi Hreg eq_refl Hb ltac:(by eauto)) as [Hrel _].
  destruct reg as [r|]; cbn in *; destruct (go_err g), (go_release g), e; done.
Qed.

Lemma finv_complete m s s' : finv s -> complete m s = Some s' -> finv s'.
Proof.
  intros Hi. unfold complete. destruct (phases s !! m) as [[|reg| | |]|] eqn:Hm; try done; intros [= <-]; [|done].
  destruct (finv_in_progress s m _ Hi Hm eq_refl) as [Hreg Hb].
  eapply (finv_released s m reg (Releasing reg)); [done|by symmetry|done|by destruct reg|by eauto].
Qed.

Lemma finv_complete_end m s s' : finv s -> complete_end m s = Some s' -> finv s'.
Proof.
  intros Hi. unfold complete_end. destruct (phases s !! m) as [[| |reg| |]|] eqn:Hm; try done. cbv zeta. intros [= <-].
  destruct (finv_in_progress s m _ Hi Hm eq_refl) as [Hreg Hb].
  assert (finv (set_phase m (Finished reg) s)) as Hq by (apply (finv_no_event s m (Finished reg)); [done|done|by destruct reg]).
  destruct reg as [r|]; [|done]. destruct (match passOf s !! m with Some p => _ | None => false end); [done|].
  apply (finv_phase s m (Finished (Some r)) (Some (ReconcileAsked m))); [done|done|by left|].
  cbn in *. by rewrite calls_app, releases_app, !Nat.add_0_r.
Qed.

Lemma finv_step a s s' : finv s -> fstep a s = Some s' -> finv s'.
Proof.
  intros Hi. destruct a; cbn [fstep].
  - by apply finv_register.
  - by apply finv_unregister.
  - by apply finv_begin.
  - by apply finv_guard_return.
  - by apply finv_complete.
  - by apply finv_complete_end.
  - intros [= <-]. by destruct Hi.
  - intros [= <-]. by destruct Hi.
Qed.

Lemma freachable_finv s : freachable s -> finv s.
Proof. induction 1; [apply finv_init|by eapply finv_step]. Qed.

(** C17. However goroutines interleave their calls on the registry: a change that holds the
    lock was prepared by the owner that is still registered, and that owner is not
    unregistered; the guard was called once for every change that has one, and released not
    at all while the change is in progress, exactly once when it completed, and at most once
    when it was rejected; and after an owner is cleared its guard is neither called nor
    released again. *)
Theorem guard_brackets_changes s : freachable s ->
  (forall m p, phases s !! m = Some p -> reads p = true ->
     reg_of p = registration s /\ forall r, reg_of p = Some r -> r ∉ unregistered s) /\
  (forall m p, phases s !! m = Some p -> balanced p (calls_of m (ftrace s)) (releases_of m (ftrace s))) /\
  (forall l1 l2 r, ftrace s = l1 ++ OwnerCleared r :: l2 -> Forall (fun e => ~ of_owner r e) l2).
Proof.
  intros Hi%freachable_finv. split_and!.
  - intros m p Hm Hr. pose proof (inv_stable s Hi m p Hm Hr) as Hreg. split; [done|]. intros r Hp.
    apply (inv_live s Hi). congruence.
  - intros m p Hm. pose proof (inv_seen s Hi m) as H. unfold seen in H. by rewrite Hm in H.
  - apply (inv_quiet s Hi).
Qed.

(** A schedule: an owner registers, a change is prepared, completed twice and the owner
    leaves. *)
Definition fc_schedule : list faction :=
  [ARegister 7 true; ABegin 1 (mkBeginCtx false None None); AGuardReturn 1 (mkGuardOutcome false true) false;
   ABegin 2 (mkBeginCtx false (Some 1) None); AComplete 1; ACompleteEnd 1; AComplete 1; AUnregister 7; AUnregister 7].

Fixpoint fsteps (l : list faction) (s : ForwardingChanges) : option ForwardingChanges :=
  match l with [] => Some s | a :: l => s' ← fstep a s; fsteps l s' end.

Lemma fsteps_reachable l : forall s s', freachable s -> fsteps l s = Some s' -> freachable s'.
Proof.
  induction l as [|a l IH]; intros s s' Hs; cbn; [by intros [= <-]|].
  destruct (fstep a s) as [s1|] eqn:Ha; cbn; [|done]. apply IH. by eapply freach_step.
Qed.

Lemma guard_brackets_changes_witness :
  exists s, fsteps fc_schedule no_changes = Some s /\
    ftrace s = [OwnerSet 7; GuardCalled 1 7; GuardReleased 1 7; ReconcileAsked 1; OwnerCleared 7] /\
    balanced (Finished (Some 7)) (calls_of 1 (ftrace s)) (releases_of 1 (ftrace s)).
Proof.
  eexists. split; [vm_compute; reflexivity|]. split; [reflexivity|].
  eapply (guard_brackets_changes _ (fsteps_reachable fc_schedule no_changes _ freach_init ltac:(vm_compute; reflexivity))).
  reflexivity.
Defined.
