(* ===== verification/BgpFib.v ===== *)
(** * Learned routes in the kernel (gateway/internal/bgp/{fib,fib_nexthop}.go)

    A [FIB] keeps the best paths a BGP peer announced and the gateway each was installed
    with, and writes them to the kernel's routing tables.  The kernel is behind the
    interface [RouteWriter]; every write is recorded.  A method holds the mutex from its
    first to its last access, so it is one transaction.  The keys of the map are the
    texts of prefixes, as in the source. *)

From S2P Require Import Prelude GoStrings Effects NptPolicy Intent Observation BgpConfig.
From S2P Require Import Tier Notify Health WanState.

Local Open Scope Z_scope.

(** ** Keys *)

Definition addr_code (a : Addr) : nat * list Z * string :=
  match a with AddrNone => (0%nat, [], ""%string) | Addr4 b => (1%nat, b, ""%string) | Addr6 b z => (2%nat, b, z) end.
Definition addr_decode (c : nat * list Z * string) : Addr :=
  match c with (0%nat, _, _) => AddrNone | (1%nat, b, _) => Addr4 b | (_, b, z) => Addr6 b z end.

#[export] Instance Addr_countable : Countable Addr.
Proof. apply (inj_countable' addr_code addr_decode). by intros []. Defined.

#[export] Instance Prefix_countable : Countable Prefix.
Proof. apply (inj_countable' (fun p => (pfx_addr p, pfx_bits p)) (fun c => mkPrefix c.1 c.2)). by intros []. Defined.

(** The texts of [net/netip]: [String] of an address and a prefix, and [ParsePrefix], which
    accepts only valid prefixes and reads the text of a masked one back. *)
Class PrefixText := {
  addr_String : Addr -> string;
  prefix_String : Prefix -> string;
  ParsePrefix : string -> option Prefix;
  parse_prefix_String p : IsValid p = true -> Masked p = p -> ParsePrefix (prefix_String p) = Some p;
  parse_prefix_valid text p : ParsePrefix text = Some p -> IsValid p = true /\ addr_valid (pfx_addr p) = true;
}.

(** A map is iterated in an order the runtime chooses, here the world. *)
Class MapOrder (W : Type) := {
  range_order : forall A, W -> list A -> list A;
  range_perm A w (l : list A) : range_order A w l ≡ₚ l;
}.

(** ** The kernel *)

Definition RTPROT_BGP : Z := 186.
Definition RTPROT_KERNEL : Z := 2.
Definition RT_TABLE_MAIN : Z := 254.
Definition TunnelEndpointRouteProtocol : Z := 147.
Definition listedDefaultRoute : string := "default".
Definition ipv4DefaultPrefix : string := "0.0.0.0/0".
Definition ipv6DefaultPrefix : string := "::/0".
Definition ipv4RouteFamily : string := "inet".
Definition ipv6RouteFamily : string := "inet6".

Record RouteSpec := mkRouteSpec {
  rs_Family : string;
  rs_Dest : string;
  rs_Via : string;
  rs_Dev : string;
  rs_TableID : Z;
  rs_Metric : Z;
  rs_Protocol : Z;
}.

(** An error of the kernel, and whether it is one of EHOSTUNREACH, ENETUNREACH, EINVAL. *)
Record kerr := mkKerr { ke_text : error; ke_unreachable : bool }.

(** [errors.Is] looks into a joined error. *)
Definition kernelRejected (errs : list kerr) : bool := existsb ke_unreachable errs.

Class RouteWriter (W : Type) := {
  ReconcileTableRoute : RouteSpec -> W -> option kerr * W;
  DeleteTableRoute : RouteSpec -> W -> option kerr * W;
  ListProtocolRoutes : string -> Z -> Z -> W -> (list CurrentRoute + kerr) * W;
  RouteMatch : string -> string -> string -> W -> (option CurrentRoute + kerr) * W;
}.

Record FIBConfig := mkFIBConfig {
  fc_Tables : list Z;
  fc_InternalIface : string;
  fc_Metric : Z;
  fc_ResolveNextHop : bool;
}.

Record PathEvent := mkPathEvent { pe_Peer : string; pe_Prefix : Prefix; pe_NextHop : Addr; pe_Withdrawn : bool }.

Record desiredRoute := mkDesired { dr_peer : string; dr_nextHop : Addr; dr_gateway : string }.

Record FIB := mkFIB { fib_cfg : FIBConfig; desired : gmap string desiredRoute; armed : bool }.

Definition newFIB (cfg : FIBConfig) : FIB := mkFIB cfg ∅ false.

(** What the installer asked of the kernel, and whether it succeeded. *)
Inductive kop := KWrote (r : RouteSpec) (ok : bool) | KDeleted (r : RouteSpec) (ok : bool).

Record fsys (W : Type) := mkFsys { fib : FIB; fworld : W; fops : list kop }.
Arguments mkFsys {W}.
Arguments fib {W}.
Arguments fworld {W}.
Arguments fops {W}.

Definition defaultPrefix (family : string) : string :=
  if bool_decide (family = ipv4RouteFamily) then ipv4DefaultPrefix else ipv6DefaultPrefix.

Definition prefixFamily (p : Prefix) : string :=
  if Is4 (pfx_addr p) then ipv4RouteFamily else ipv6RouteFamily.

Definition pathPrefix (p : Prefix) : res Prefix :=
  if IsValid p then Ok (Masked p) else Err "invalid BGP path prefix".

Section Operations.
Context {W : Type} `{PT : !PrefixText} `{RW : !RouteWriter W} `{MO : !MapOrder W}.

Abbreviation FM := (M (fsys W)).

Definition getFib {A} (f : FIB -> A) : FM A := gets (fun s => f (fib s)).
Definition setDesired (f : gmap string desiredRoute -> gmap string desiredRoute) : FM unit :=
  modify (fun s => mkFsys (mkFIB (fib_cfg (fib s)) (f (desired (fib s))) (armed (fib s))) (fworld s) (fops s)).
Definition readKernel {A} (f : W -> A * W) : FM A :=
  fun s => let '(a, w) := f (fworld s) in (a, mkFsys (fib s) w (fops s)).
Definition ordered {A} (l : list A) : FM (list A) := gets (fun s => range_order A (fworld s) l).

Definition writeRoute (r : RouteSpec) : FM (list kerr) := fun s =>
  let '(e, w) := ReconcileTableRoute r (fworld s) in
  (option_list e, mkFsys (fib s) w (fops s ++ [KWrote r (bool_decide (e = None))])).
Definition deleteTableRoute (r : RouteSpec) : FM (list kerr) := fun s =>
  let '(e, w) := DeleteTableRoute r (fworld s) in
  (option_list e, mkFsys (fib s) w (fops s ++ [KDeleted r (bool_decide (e = None))])).

Definition ArmSweep : FM unit :=
  modify (fun s => mkFsys (mkFIB (fib_cfg (fib s)) (desired (fib s)) true) (fworld s) (fops s)).

(** The error of a refused call that never reached the kernel. *)
Definition refusal (e : error) : kerr := mkKerr e false.

Definition route (cfg : FIBConfig) (prefix : Prefix) (nextHop : Addr) (tableID : Z) : RouteSpec :=
  mkRouteSpec (prefixFamily prefix) (prefix_String prefix)
    (if addr_valid nextHop then addr_String nextHop else "")
    (fc_InternalIface cfg) tableID (fc_Metric cfg) RTPROT_BGP.

Definition with_via (via : string) (r : RouteSpec) : RouteSpec :=
  mkRouteSpec (rs_Family r) (rs_Dest r) via (rs_Dev r) (rs_TableID r) (rs_Metric r) (rs_Protocol r).

Definition deleteRoute (tableID : Z) (family : string) (dest via dev : string) (metric : Z) : FM (list kerr) :=
  deleteTableRoute (mkRouteSpec family dest via dev tableID metric RTPROT_BGP).

Definition deletePrefix (prefix : Prefix) : FM (list kerr) :=
  cfg ← getFib fib_cfg;
  foldM (fun errs tableID =>
    let r := route cfg prefix AddrNone tableID in
    e ← deleteRoute tableID (rs_Family r) (rs_Dest r) (rs_Via r) (rs_Dev r) (rs_Metric r);
    mret (errs ++ e)) [] (fc_Tables cfg).

(** *** Next hops *)

Record nextHopMatch := mkNextHopMatch { nm_result : option CurrentRoute + kerr }.

(** The gateway of a path, with the cache of the lookups. *)
Definition gateway (prefix : Prefix) (nextHop : Addr) (matches : gmap Addr nextHopMatch) :
    FM ((string + kerr) * gmap Addr nextHopMatch) :=
  cfg ← getFib fib_cfg;
  if negb (fc_ResolveNextHop cfg) then mret (inl (addr_String nextHop), matches)
  else
    found ← match matches !! nextHop with
            | Some m => mret m
            | None =>
                r ← readKernel (RouteMatch (prefixFamily prefix) (addr_String nextHop) (fc_InternalIface cfg));
                mret (mkNextHopMatch r)
            end;
    let matches := <[nextHop := found]> matches in
    match nm_result found with
    | inr e => mret (inr e, matches)
    | inl None => mret (inl (addr_String nextHop), matches)
    | inl (Some r) =>
        if bool_decide (cr_Via r = ""%string) then mret (inl (addr_String nextHop), matches)
        else
          let destination := if bool_decide (cr_Dest r = listedDefaultRoute) then defaultPrefix (prefixFamily prefix)
                             else cr_Dest r in
          installed ← getFib (fun f => from_option dr_gateway ""%string (desired f !! prefix_String prefix));
          let own := bool_decide (destination = prefix_String prefix) && (cr_Metric r =? fc_Metric cfg)
                     && (cr_Protocol r =? RTPROT_BGP) in
          if own && negb (bool_decide (installed = ""%string)) then mret (inl installed, matches)
          else mret (inl (cr_Via r), matches)
    end.

(** *** Installation *)

Definition set_gateway (g : string) (d : desiredRoute) : desiredRoute := mkDesired (dr_peer d) (dr_nextHop d) g.

Definition installGateway (prefix : Prefix) (nextHop : Addr) (g : string) : FM (list kerr) :=
  cfg ← getFib fib_cfg;
  errs ← foldM (fun errs tableID =>
           e ← writeRoute (with_via g (route cfg prefix nextHop tableID)); mret (errs ++ e)) [] (fc_Tables cfg);
  (if bool_decide (length errs = 0%nat) then setDesired (alter (set_gateway g) (prefix_String prefix)) else mret tt) ;;
  mret errs.

Definition installPrefix (prefix : Prefix) (nextHop : Addr) : FM (list kerr) :=
  '(g, _) ← gateway prefix nextHop ∅;
  match g with
  | inr e => mret [e]
  | inl g => installGateway prefix nextHop g
  end.

(** The routes of [peer] inside [prefix]. *)
Definition covered_by (peer : string) (prefix : Prefix) (entry : string * desiredRoute) : option Prefix :=
  let '(text, d) := entry in
  if negb (bool_decide (dr_peer d = peer)) then None
  else match ParsePrefix text with
       | None => None
       | Some p =>
           if negb (Contains prefix (pfx_addr p)) || (pfx_bits p <? pfx_bits prefix) then None else Some p
       end.

Definition withdraw (peer : string) (prefix : Prefix) : FM (list kerr) :=
  entries ← getFib (fun f => map_to_list (desired f));
  entries ← ordered entries;
  match omap (covered_by peer prefix) entries with
  | [] => deletePrefix prefix
  | matched =>
      foldM (fun errs p =>
        setDesired (delete (prefix_String p)) ;;
        e ← deletePrefix p;
        mret (errs ++ e)) [] matched
  end.

Definition Apply (event : PathEvent) : FM (list kerr) :=
  match pathPrefix (pe_Prefix event) with
  | Err e => mret [refusal e]
  | Ok prefix =>
      if negb (pe_Withdrawn event) && negb (addr_valid (pe_NextHop event))
      then mret [refusal "BGP path has an invalid next hop"]
      else if pe_Withdrawn event then withdraw (pe_Peer event) prefix
      else
        setDesired (insert (prefix_String prefix) (mkDesired (pe_Peer event) (pe_NextHop event) "")) ;;
        installPrefix prefix (pe_NextHop event)
  end.

Definition WithdrawExact (peer : string) (prefix : Prefix) : FM (list kerr) :=
  match pathPrefix prefix with
  | Err e => mret [refusal e]
  | Ok masked => setDesired (delete (prefix_String masked)) ;; deletePrefix masked
  end.

Definition WithdrawPeer (peer : string) : FM (list kerr) :=
  entries ← getFib (fun f => map_to_list (desired f));
  entries ← ordered entries;
  foldM (fun errs '(text, d) =>
    if negb (bool_decide (dr_peer d = peer)) then mret errs
    else match ParsePrefix text with
         | None => mret errs
         | Some p => setDesired (delete text) ;; e ← deletePrefix p; mret (errs ++ e)
         end) [] entries.

(** *** Sweeping *)

Definition families : list string := [ipv4RouteFamily; ipv6RouteFamily].

Definition listed_dest (family : string) (r : CurrentRoute) : string :=
  if bool_decide (cr_Dest r = listedDefaultRoute) then defaultPrefix family else cr_Dest r.

Definition sweepFamily (tableID : Z) (family : string) : FM (list kerr) :=
  cfg ← getFib fib_cfg;
  listed ← readKernel (ListProtocolRoutes family tableID RTPROT_BGP);
  match listed with
  | inr e => mret [e]
  | inl routes =>
      foldM (fun errs r =>
        if negb (bool_decide (cr_Dev r = fc_InternalIface cfg)) then mret errs
        else
          d ← getFib desired;
          match d !! listed_dest family r with
          | Some _ => mret errs
          | None =>
              e ← deleteRoute tableID family (listed_dest family r) (cr_Via r) (cr_Dev r) (cr_Metric r);
              mret (errs ++ e)
          end) [] routes
  end.

Definition SweepStale : FM (list kerr) :=
  isArmed ← getFib armed;
  if negb isArmed then mret []
  else
    cfg ← getFib fib_cfg;
    foldM (fun errs tableID =>
      foldM (fun errs family => e ← sweepFamily tableID family; mret (errs ++ e)) errs families) [] (fc_Tables cfg).

Fixpoint connected_in (iface : string) (masked : Prefix) (routes : list CurrentRoute) : bool :=
  match routes with
  | [] => false
  | r :: rs =>
      if negb (bool_decide (cr_Dev r = iface)) then connected_in iface masked rs
      else match ParsePrefix (cr_Dest r) with
           | None => connected_in iface masked rs
           | Some connected =>
               if (pfx_bits masked <=? pfx_bits connected) && Contains masked (pfx_addr connected) then true
               else connected_in iface masked rs
           end
  end.

Definition coversConnected (prefix : Prefix) : FM (bool + kerr) :=
  match pathPrefix prefix with
  | Err e => mret (inr (refusal e))
  | Ok masked =>
      cfg ← getFib fib_cfg;
      listed ← readKernel (ListProtocolRoutes (prefixFamily masked) RT_TABLE_MAIN RTPROT_KERNEL);
      mret (match listed with
            | inr e => inr e
            | inl routes => inl (connected_in (fc_InternalIface cfg) masked routes)
            end)
  end.

(** *** Refresh *)

Definition own_route (cfg : FIBConfig) (r : CurrentRoute) : bool :=
  bool_decide (cr_Dev r = fc_InternalIface cfg) && (cr_Metric r =? fc_Metric cfg).

(** The counts of one listing, added to the counts so far. *)
Definition count_routes (cfg : FIBConfig) (family : string) (counts : gmap string Z) (routes : list CurrentRoute) :
    gmap string Z :=
  fold_left (fun counts r =>
    if own_route cfg r then
      let dest := listed_dest family r in <[dest := default 0 (counts !! dest) + 1]> counts
    else counts) routes counts.

Fixpoint count_listings (cfg : FIBConfig) (listings : list (Z * string)) (counts : gmap string Z) :
    FM (gmap string Z + kerr) :=
  match listings with
  | [] => mret (inl counts)
  | (tableID, family) :: listings =>
      listed ← readKernel (ListProtocolRoutes family tableID RTPROT_BGP);
      match listed with
      | inr e => mret (inr e)
      | inl routes => count_listings cfg listings (count_routes cfg family counts routes)
      end
  end.

Definition table_families (cfg : FIBConfig) : list (Z * string) :=
  t ← fc_Tables cfg; (fun family => (t, family)) <$> families.

Definition installedCounts : FM (gmap string Z + kerr) :=
  cfg ← getFib fib_cfg; count_listings cfg (table_families cfg) ∅.

(** The prefixes, in the order of the keys rather than sorted. *)
Definition Installed : FM (list Prefix + kerr) :=
  counts ← installedCounts;
  mret (match counts with
        | inr e => inr e
        | inl counts => inl (omap (fun '(dest, _) => Masked <$> ParsePrefix dest) (map_to_list counts))
        end).

Record refresh_acc := mkRefreshAcc {
  ra_matches : gmap Addr nextHopMatch;
  ra_rejected : gmap Prefix (list kerr);
  ra_errs : list kerr;
}.

Definition refresh_one (cfg : FIBConfig) (installed : gmap string Z) (acc : refresh_acc)
    (entry : string * desiredRoute) : FM refresh_acc :=
  let '(key, d) := entry in
  match ParsePrefix key with
  | None => mret acc
  | Some prefix =>
      '(g, matches) ← gateway prefix (dr_nextHop d) (ra_matches acc);
      match g with
      | inr e => mret (mkRefreshAcc matches (ra_rejected acc) (ra_errs acc ++ [e]))
      | inl g =>
          if bool_decide (g = dr_gateway d) && (default 0 (installed !! key) =? Z.of_nat (length (fc_Tables cfg)))
          then mret (mkRefreshAcc matches (ra_rejected acc) (ra_errs acc))
          else
            errs ← installGateway prefix (dr_nextHop d) g;
            mret (if bool_decide (length errs = 0%nat) then mkRefreshAcc matches (ra_rejected acc) (ra_errs acc)
                  else if kernelRejected errs
                  then mkRefreshAcc matches (<[prefix := errs]> (ra_rejected acc)) (ra_errs acc)
                  else mkRefreshAcc matches (ra_rejected acc) (ra_errs acc ++ errs))
      end
  end.

(** The prefixes the kernel rejected, and the other errors. *)
Definition Refresh : FM (gmap Prefix (list kerr) * list kerr) :=
  cfg ← getFib fib_cfg;
  known ← getFib desired;
  if negb (fc_ResolveNextHop cfg) || bool_decide (known = ∅) then mret (∅, [])
  else
    counts ← installedCounts;
    match counts with
    | inr e => mret (∅, [e])
    | inl installed =>
        entries ← ordered (map_to_list known);
        acc ← foldM (refresh_one cfg installed) (mkRefreshAcc ∅ ∅ []) entries;
        mret (ra_rejected acc, ra_errs acc)
    end.
End Operations.
