(* ===== verification/BgpSession.v ===== *)
(** * External BGP sessions
      (gateway/internal/bgp/{session,session_state,session_paths,session_policy,
       session_refresh,session_retained,session_restart,session_advertise}.go,
       bestPathNextHop of speaker.go)

    One session runs one peer in a GoBGP server of its own.  It installs the best paths its
    import rules allow through its [FIB], keeps the paths whose installation failed to try
    again, advertises its export prefixes, and around a restart keeps the kernel routes of
    the process before it.  Every handler holds the mutex of the session, so it is one
    transaction on the record [Session] and its installer.

    GoBGP is a library outside the sources: its server, its path objects and its state
    machine are the interface [GoBGP]. *)

From stdpp Require Import sorting.
From S2P Require Import Prelude GoStrings Effects NptPolicy Intent Observation BgpConfig.
From S2P Require Import Tier Notify Health WanState BgpFib.

Local Open Scope Z_scope.

(** ** GoBGP *)

Class GoBGP (W : Type) := {
  FsmState : Type;
  fsm_eq_dec :: EqDecision FsmState;
  BGP_FSM_IDLE : FsmState;
  BGP_FSM_ESTABLISHED : FsmState;
  fsm_String : FsmState -> string;
  NLRI : Type;
  nlri_String : NLRI -> string;
  NewIPAddrPrefix : Prefix -> res NLRI;
  NewMpReachNLRI : NLRI -> Addr -> res unit;
}.

(** The attributes the sources build or read. *)
Inductive attribute {W} `{!GoBGP W} :=
| OriginIGP
| MpReachNLRI (nlri : list NLRI) (nexthop : Addr)
| NextHopAttr (value : Addr)
| AsPath (sequence : list Z)
| MultiExitDisc (med : Z)
| LocalPref (preference : Z)
| CommunitiesAttr (communities : list Z)
| LargeCommunitiesAttr (communities : list LargeCommunity)
| OtherAttr.

(** [apiutil.Path]; the family is RF_IPv6_UC or another. *)
Record Path {W} `{!GoBGP W} := mkBgpPath {
  p_IPv6Unicast : bool;
  p_Nlri : option NLRI;
  p_PeerAddress : Addr;
  p_Withdrawal : bool;
  p_Stale : bool;
  p_Best : bool;
  p_Attrs : list attribute;
}.

Arguments mkBgpPath {W _}.

(** [apipb.Peer], the fields the session sets. *)
Record Peer := mkPeer {
  peer_NeighborAddress : string;
  peer_ASN : Z;
  peer_Families : list Z;
  peer_ConnectRetry : Z;
  peer_Keepalive : Z;
  peer_HoldTime : Z;
  peer_RemotePort : Z;
  peer_BindInterface : string;
  peer_LocalAddress : string;
  peer_MultihopTTL : option Z;
  peer_GracefulRestart : option (Z * Z * bool);
}.

Class BgpServer (W : Type) `{!GoBGP W} := {
  StartBgp : Z -> string -> Z -> W -> option error * W;
  WatchEvent : bool -> W -> option error * W;
  AddPeer : Peer -> W -> option error * W;
  AddPath : Path -> W -> option error * W;
  DeletePath : Path -> W -> option error * W;
  ListPath : W -> res (list (option Path)) * W;
  StopServer : W -> unit * W;
  StopBgpGraceful : W -> option error * W;
  sessionNow : W -> Z * W;
}.

Section Session.
Context {W : Type} `{PT : !PrefixText} `{RW : !RouteWriter W} `{MO : !MapOrder W} `{GB : !GoBGP W} `{BS : !BgpServer W}.

Record Session := mkSession {
  s_cfg : SessionConfig;
  peerKey : string;
  s_started : bool;
  connected : bool;
  fsmState : FsmState;
  established : bool;
  upSince : Z;
  accepted : gmap Prefix Addr;
  unresolved : gmap Prefix Addr;
  advertised : gset Prefix;
  rejected : list Rejection;
  gracefulRestart : bool;
  retaining : bool;
  retained : gset Prefix;
  retainTimer : bool;
  retainGeneration : Z;
  pending_states : list SessionState;
  delivering : bool;
}.
Definition set_s_started (v : bool) (x : Session) : Session :=
    mkSession (s_cfg x) (peerKey x) v (connected x) (fsmState x) (established x)
    (upSince x) (accepted x) (unresolved x) (advertised x) (rejected x) (gracefulRestart x)
    (retaining x) (retained x) (retainTimer x) (retainGeneration x) (pending_states x)
    (delivering x).
Definition set_connected (v : bool) (x : Session) : Session :=
    mkSession (s_cfg x) (peerKey x) (s_started x) v (fsmState x) (established x)
    (upSince x) (accepted x) (unresolved x) (advertised x) (rejected x) (gracefulRestart x)
    (retaining x) (retained x) (retainTimer x) (retainGeneration x) (pending_states x)
    (delivering x).
Definition set_fsmState (v : FsmState) (x : Session) : Session :=
    mkSession (s_cfg x) (peerKey x) (s_started x) (connected x) v (established x)
    (upSince x) (accepted x) (unresolved x) (advertised x) (rejected x) (gracefulRestart x)
    (retaining x) (retained x) (retainTimer x) (retainGeneration x) (pending_states x)
    (delivering x).
Definition set_established (v : bool) (x : Session) : Session :=
    mkSession (s_cfg x) (peerKey x) (s_started x) (connected x) (fsmState x) v (upSince x)
    (accepted x) (unresolved x) (advertised x) (rejected x) (gracefulRestart x)
    (retaining x) (retained x) (retainTimer x) (retainGeneration x) (pending_states x)
    (delivering x).
Definition set_upSince (v : Z) (x : Session) : Session :=
    mkSession (s_cfg x) (peerKey x) (s_started x) (connected x) (fsmState x)
    (established x) v (accepted x) (unresolved x) (advertised x) (rejected x)
    (gracefulRestart x) (retaining x) (retained x) (retainTimer x) (retainGeneration x)
    (pending_states x) (delivering x).
Definition set_accepted (v : gmap Prefix Addr) (x : Session) : Session :=
    mkSession (s_cfg x) (peerKey x) (s_started x) (connected x) (fsmState x)
    (established x) (upSince x) v (unresolved x) (advertised x) (rejected x)
    (gracefulRestart x) (retaining x) (retained x) (retainTimer x) (retainGeneration x)
    (pending_states x) (delivering x).
Definition set_unresolved (v : gmap Prefix Addr) (x : Session) : Session :=
    mkSession (s_cfg x) (peerKey x) (s_started x) (connected x) (fsmState x)
    (established x) (upSince x) (accepted x) v (advertised x) (rejected x)
    (gracefulRestart x) (retaining x) (retained x) (retainTimer x) (retainGeneration x)
    (pending_states x) (delivering x).
Definition set_advertised (v : gset Prefix) (x : Session) : Session :=
    mkSession (s_cfg x) (peerKey x) (s_started x) (connected x) (fsmState x)
    (established x) (upSince x) (accepted x) (unresolved x) v (rejected x)
    (gracefulRestart x) (retaining x) (retained x) (retainTimer x) (retainGeneration x)
    (pending_states x) (delivering x).
Definition set_rejected (v : list Rejection) (x : Session) : Session :=
    mkSession (s_cfg x) (peerKey x) (s_started x) (connected x) (fsmState x)
    (established x) (upSince x) (accepted x) (unresolved x) (advertised x) v
    (gracefulRestart x) (retaining x) (retained x) (retainTimer x) (retainGeneration x)
    (pending_states x) (delivering x).
Definition set_gracefulRestart (v : bool) (x : Session) : Session :=
    mkSession (s_cfg x) (peerKey x) (s_started x) (connected x) (fsmState x)
    (established x) (upSince x) (accepted x) (unresolved x) (advertised x) (rejected x) v
    (retaining x) (retained x) (retainTimer x) (retainGeneration x) (pending_states x)
    (delivering x).
Definition set_retaining (v : bool) (x : Session) : Session :=
    mkSession (s_cfg x) (peerKey x) (s_started x) (connected x) (fsmState x)
    (established x) (upSince x) (accepted x) (unresolved x) (advertised x) (rejected x)
    (gracefulRestart x) v (retained x) (retainTimer x) (retainGeneration x)
    (pending_states x) (delivering x).
Definition set_retained (v : gset Prefix) (x : Session) : Session :=
    mkSession (s_cfg x) (peerKey x) (s_started x) (connected x) (fsmState x)
    (established x) (upSince x) (accepted x) (unresolved x) (advertised x) (rejected x)
    (gracefulRestart x) (retaining x) v (retainTimer x) (retainGeneration x)
    (pending_states x) (delivering x).
Definition set_retainTimer (v : bool) (x : Session) : Session :=
    mkSession (s_cfg x) (peerKey x) (s_started x) (connected x) (fsmState x)
    (established x) (upSince x) (accepted x) (unresolved x) (advertised x) (rejected x)
    (gracefulRestart x) (retaining x) (retained x) v (retainGeneration x)
    (pending_states x) (delivering x).
Definition set_retainGeneration (v : Z) (x : Session) : Session :=
    mkSession (s_cfg x) (peerKey x) (s_started x) (connected x) (fsmState x)
    (established x) (upSince x) (accepted x) (unresolved x) (advertised x) (rejected x)
    (gracefulRestart x) (retaining x) (retained x) (retainTimer x) v (pending_states x)
    (delivering x).
Definition set_pending_states (v : list SessionState) (x : Session) : Session :=
    mkSession (s_cfg x) (peerKey x) (s_started x) (connected x) (fsmState x)
    (established x) (upSince x) (accepted x) (unresolved x) (advertised x) (rejected x)
    (gracefulRestart x) (retaining x) (retained x) (retainTimer x) (retainGeneration x) v
    (delivering x).
Definition set_delivering (v : bool) (x : Session) : Session :=
    mkSession (s_cfg x) (peerKey x) (s_started x) (connected x) (fsmState x)
    (established x) (upSince x) (accepted x) (unresolved x) (advertised x) (rejected x)
    (gracefulRestart x) (retaining x) (retained x) (retainTimer x) (retainGeneration x)
    (pending_states x) v.

(** What the session did that others see. *)
Inductive bgp_event :=
| PathAdded (prefix : Prefix) (attrs : list attribute) (ok : bool)
| PathRemoved (prefix : Prefix) (ok : bool)
| PeerAdded (peer : Peer) (ok : bool)
| ServerStopped (graceful : bool)
| StateDelivered (st : SessionState).

Record bsys := mkBsys { sess : Session; bfib : fsys W; blog : list bgp_event }.

Abbreviation BM := (M bsys).

Definition getS {A} (f : Session -> A) : BM A := gets (fun s => f (sess s)).
Definition setS (f : Session -> Session) : BM unit := modify (fun s => mkBsys (f (sess s)) (bfib s) (blog s)).
Definition onFib {A} (m : M (fsys W) A) : BM A :=
  fun s => let '(a, f) := m (bfib s) in (a, mkBsys (sess s) f (blog s)).
Definition onServer {A} (f : W -> A * W) : BM A := onFib (readKernel f).
Definition emit (e : bgp_event) : BM unit := modify (fun s => mkBsys (sess s) (bfib s) (blog s ++ [e])).

(** ** The reported state (session_state.go) *)

(** [netip.Prefix.Compare]: validity, address family, masked address, length, address. *)
Definition prefix_key (p : Prefix) : list Z :=
  (if IsValid p then 1 else 0) :: BitLen (pfx_addr p) ::
  addr_bytes (pfx_addr (Masked p)) ++ pfx_bits p :: addr_bytes (pfx_addr p).

Fixpoint lex_le (a b : list Z) : bool :=
  match a, b with
  | [], _ => true
  | _ :: _, [] => false
  | x :: a, y :: b => (x <? y) || ((x =? y) && lex_le a b)
  end.

Definition prefix_le (p q : Prefix) : Prop := lex_le (prefix_key p) (prefix_key q) = true.
#[export] Instance prefix_le_dec : RelDecision prefix_le.
Proof. intros p q. unfold prefix_le. apply _. Defined.

Definition sortedPrefixes (prefixes : list Prefix) : list Prefix := merge_sort prefix_le prefixes.

Definition snapshotLocked : BM SessionState :=
  getS (fun s => mkSessionState (sc_Name (s_cfg s)) (fsm_String (fsmState s)) (established s) (upSince s)
    (sortedPrefixes (map_to_list (accepted s)).*1) (sortedPrefixes (elements (advertised s)))
    (sortedPrefixes (elements (retained s))) (rejected s)).

Definition enqueueChangeLocked : BM unit :=
  st ← snapshotLocked; setS (fun s => set_pending_states (pending_states s ++ [st]) s).

(** The listeners receive the queued states in order; a caller that finds a delivery in
    progress leaves its states to it. *)
Definition deliverChanges : BM unit :=
  busy ← getS delivering;
  if busy : bool then mret tt
  else
    setS (set_delivering true) ;;
    queued ← getS pending_states;
    forM queued (fun st => setS (fun s => set_pending_states (tail (pending_states s)) s) ;; emit (StateDelivered st)) ;;
    setS (set_delivering false).

(** ** Policy (session_policy.go) *)

Definition rejectedNoRule : string := "no import rule covers the prefix".
Definition rejectedExported : string := "the session exports the prefix".
Definition rejectedNoNextHop : string := "the path has no valid next hop".
Definition rejectedNotInstall : string := "kernel route installation failed".

(** The loop over the import rules; the reason is that of the last rule that covers the
    prefix. *)
Fixpoint import_reason (prefix : Prefix) (reason : string) (rules : list ImportRule) : string :=
  match rules with
  | [] => reason
  | rule :: rules =>
      if (pfx_bits prefix <? pfx_bits (im_Prefix rule)) || negb (Contains (im_Prefix rule) (pfx_addr prefix))
      then import_reason prefix reason rules
      else if (MinLength rule <=? pfx_bits prefix) && (pfx_bits prefix <=? MaxLength rule) then ""
      else import_reason prefix
             ("prefix length " +:+ itoa (pfx_bits prefix) +:+ " is outside the bounds " +:+ itoa (MinLength rule)
              +:+ " to " +:+ itoa (MaxLength rule) +:+ " of import rule " +:+ prefix_String (im_Prefix rule)) rules
  end.

Definition importRejection (cfg : SessionConfig) (prefix : Prefix) : string :=
  if existsb (fun rule => bool_decide (ex_Prefix rule = prefix)) (Export_ cfg) then rejectedExported
  else import_reason prefix rejectedNoRule (Import_ cfg).

Definition exportAdvertised (mode : Z) (eligible backupActive : bool) : bool :=
  if negb eligible then false else (mode =? ExportAlways) || backupActive.

Definition communityASNShift : Z := 16.
Definition encode_community (c : Community) : Z :=
  Z.lor (Z.shiftl (com_ASN c) communityASNShift mod 2 ^ 32) (com_Value c).

Definition exportPath (cfg : SessionConfig) (rule : ExportRule) : res Path :=
  (nlri <-? NewIPAddrPrefix (ex_Prefix rule) ;;
   check NewMpReachNLRI nlri (ex_NextHop rule) ;;
   Ok (mkBgpPath true (Some nlri) AddrNone false false false
     ([OriginIGP; MpReachNLRI [nlri] (ex_NextHop rule)]
      ++ (if 0 <? PrependCount rule then [AsPath (repeat (LocalASN cfg) (Z.to_nat (PrependCount rule)))] else [])
      ++ (match ex_MED rule with Some med => [MultiExitDisc med] | None => [] end)
      ++ (match LocalPreference rule with
          | Some p => if IsInternal cfg then [LocalPref p] else []
          | None => []
          end)
      ++ (match Communities rule with [] => [] | cs => [CommunitiesAttr (encode_community <$> cs)] end)
      ++ (match LargeCommunities rule with [] => [] | cs => [LargeCommunitiesAttr cs] end))))%go.

Definition withdrawalPath (prefix : Prefix) : res Path :=
  (nlri <-? NewIPAddrPrefix prefix ;; Ok (mkBgpPath true (Some nlri) AddrNone true false false []))%go.

(** ** Advertisement (session_advertise.go) *)

Definition reconcileExportLocked (rule : ExportRule) (wanted : bool) : BM (option error) :=
  cfg ← getS s_cfg;
  if negb wanted then
    match withdrawalPath (ex_Prefix rule) with
    | Err e => mret (Some e)
    | Ok path =>
        r ← onServer (DeletePath path);
        emit (PathRemoved (ex_Prefix rule) (bool_decide (r = None))) ;;
        match r with
        | Some e => mret (Some ("withdraw: " +:+ e))
        | None => setS (fun s => set_advertised (advertised s ∖ {[ex_Prefix rule]}) s) ;; mret None
        end
    end
  else
    match exportPath cfg rule with
    | Err e => mret (Some e)
    | Ok path =>
        r ← onServer (AddPath path);
        emit (PathAdded (ex_Prefix rule) (p_Attrs path) (bool_decide (r = None))) ;;
        match r with
        | Some e => mret (Some ("advertise: " +:+ e))
        | None => setS (fun s => set_advertised ({[ex_Prefix rule]} ∪ advertised s) s) ;; mret None
        end
    end.

(** The joined errors. *)
Definition SetAdvertisement (eligible : bool) (backupActive : gmap Prefix bool) : BM (list error) :=
  up ← getS s_started;
  if negb up then mret ["bgp session is not started"%string]
  else
    rules ← getS (fun s => Export_ (s_cfg s));
    foldM (fun errs rule =>
      let wanted := exportAdvertised (ex_Mode rule) eligible (default false (backupActive !! ex_Prefix rule)) in
      isAdvertised ← getS (fun s => bool_decide (ex_Prefix rule ∈ advertised s));
      if Bool.eqb wanted isAdvertised then mret errs
      else e ← reconcileExportLocked rule wanted; mret (errs ++ option_list e)) [] rules.

Definition withdrawExportsLocked : BM unit :=
  rules ← getS (fun s => Export_ (s_cfg s));
  forM rules (fun rule =>
    isAdvertised ← getS (fun s => bool_decide (ex_Prefix rule ∈ advertised s));
    if negb isAdvertised then mret tt
    else reconcileExportLocked rule false ;; mret tt).

(** ** Learned paths (session_paths.go, session_refresh.go) *)

Definition without_rejection (prefix : Prefix) (l : list Rejection) : list Rejection :=
  filter (fun r => rej_Prefix r <> prefix) l.

(** The newest rejections are kept. *)
Definition bound_rejections (l : list Rejection) : list Rejection :=
  drop (length l - MaxSessionRejections) l.

Definition rejectLocked (prefix : Prefix) (reason : string) : BM unit :=
  setS (fun s => set_rejected (bound_rejections (without_rejection prefix (rejected s) ++ [mkRejection prefix reason])) s).

Definition removeAcceptedLocked (prefix : Prefix) : BM unit :=
  setS (fun s => set_accepted (delete prefix (accepted s)) s) ;;
  key ← getS peerKey;
  onFib (WithdrawExact key prefix) ;; mret tt.

Definition withdrawAcceptedLocked (prefix : Prefix) : BM bool :=
  known ← getS (fun s => bool_decide (is_Some (accepted s !! prefix)));
  if negb known then mret false else removeAcceptedLocked prefix ;; mret true.

(** The text of a joined error has its parts on lines of their own. *)
Definition joined_text (errs : list kerr) : string :=
  String.concat (String (Ascii.ascii_of_nat 10) EmptyString) (ke_text <$> errs).

Definition failInstallLocked (prefix : Prefix) (nextHop : Addr) (errs : list kerr) : BM unit :=
  removeAcceptedLocked prefix ;;
  rejectLocked prefix (rejectedNotInstall +:+ ": " +:+ joined_text errs) ;;
  setS (fun s => set_unresolved (<[prefix := nextHop]> (unresolved s)) s).

Definition acceptLocked (prefix : Prefix) (nextHop : Addr) : BM unit :=
  setS (fun s => set_rejected (without_rejection prefix (rejected s))
    (set_accepted (<[prefix := nextHop]> (accepted s))
      (set_retained (retained s ∖ {[prefix]}) (set_unresolved (delete prefix (unresolved s)) s)))).

Definition applyPath (prefix : Prefix) (nextHop : Addr) : BM (list kerr) :=
  key ← getS peerKey;
  onFib (Apply (mkPathEvent key prefix nextHop false)).

Definition installLocked (prefix : Prefix) (nextHop : Addr) : BM bool :=
  errs ← applyPath prefix nextHop;
  if negb (bool_decide (length errs = 0%nat)) then failInstallLocked prefix nextHop errs ;; mret true
  else
    previous ← getS (fun s => accepted s !! prefix);
    acceptLocked prefix nextHop ;;
    mret (negb (bool_decide (previous = Some nextHop))).

Definition withdrawRetainedLocked (prefix : Prefix) : BM bool :=
  isRetained ← getS (fun s => bool_decide (prefix ∈ retained s));
  if negb isRetained then mret false
  else
    key ← getS peerKey;
    errs ← onFib (WithdrawExact key prefix);
    if negb (bool_decide (length errs = 0%nat)) then mret false
    else setS (fun s => set_retained (retained s ∖ {[prefix]}) s) ;; mret true.

Fixpoint bestPathNextHop (attrs : list attribute) : option Addr :=
  match attrs with
  | [] => None
  | MpReachNLRI _ nexthop :: rest => if addr_valid nexthop then Some nexthop else bestPathNextHop rest
  | NextHopAttr value :: rest => if addr_valid value then Some value else bestPathNextHop rest
  | _ :: rest => bestPathNextHop rest
  end.

(** Whether the accepted or rejected prefixes changed. *)
Definition applyBestPathLocked (path : option Path) : BM bool :=
  match path with
  | None => mret false
  | Some path =>
      match p_Nlri path with
      | None => mret false
      | Some nlri =>
          if negb (p_IPv6Unicast path) then mret false
          else if negb (addr_valid (p_PeerAddress path)) then mret false
          else match ParsePrefix (nlri_String nlri) with
          | None => mret false
          | Some parsed =>
              let prefix := Masked parsed in
              if p_Withdrawal path then
                setS (fun s => set_unresolved (delete prefix (unresolved s)) s) ;;
                done ← withdrawRetainedLocked prefix;
                if done : bool then mret true else withdrawAcceptedLocked prefix
              else if p_Stale path then mret false
              else
                cfg ← getS s_cfg;
                let reason := importRejection cfg prefix in
                if negb (bool_decide (reason = ""%string)) then rejectLocked prefix reason ;; mret true
                else match bestPathNextHop (p_Attrs path) with
                     | None => rejectLocked prefix rejectedNoNextHop ;; mret true
                     | Some nextHop => installLocked prefix nextHop
                     end
          end
      end
  end.

Definition applyBestPaths (paths : list (option Path)) : BM bool :=
  foldM (fun changed path => c ← applyBestPathLocked path; mret (changed || c)) false paths.

Definition handleBestPaths (paths : list (option Path)) : BM unit :=
  up ← getS s_started;
  if negb up then mret tt
  else
    changed ← applyBestPaths paths;
    whenM changed enqueueChangeLocked ;;
    deliverChanges.

(** *** Retained routes (session_retained.go) *)

Definition stopRetainTimerLocked : BM unit := setS (set_retainTimer false).

Definition dropRetainedLocked : BM unit :=
  setS (set_retaining false) ;;
  stopRetainTimerLocked ;;
  prefixes ← getS (fun s => elements (retained s));
  prefixes ← onFib (ordered prefixes);
  key ← getS peerKey;
  forM prefixes (fun prefix =>
    errs ← onFib (WithdrawExact key prefix);
    if negb (bool_decide (length errs = 0%nat)) then mret tt
    else setS (fun s => set_retained (retained s ∖ {[prefix]}) s)).

Definition endRetentionLocked : BM bool :=
  on ← getS retaining;
  if negb on then mret false else dropRetainedLocked ;; mret true.

(** The best paths of the server's table that are neither stale nor withdrawn. *)
Definition current_best (path : option Path) : bool :=
  match path with Some p => p_Best p && negb (p_Stale p) && negb (p_Withdrawal p) | None => false end.

Definition reapplyBestPathsLocked : BM (res bool) :=
  listed ← onServer ListPath;
  match listed with
  | Err e => mret (Err e)
  | Ok paths => changed ← applyBestPaths (filter (fun p => current_best p = true) paths); mret (Ok changed)
  end.

Definition handleEndOfRIB (ipv6 : bool) : BM unit :=
  if negb ipv6 then mret tt
  else
    up ← getS s_started;
    if negb up then mret tt
    else
      r ← reapplyBestPathsLocked;
      changed ← match r with
                | Err _ => mret false
                | Ok changed => ended ← endRetentionLocked; mret (changed || ended)
                end;
      whenM changed enqueueChangeLocked ;;
      deliverChanges.

Definition endRetention (generation : Z) : BM unit :=
  on ← getS retaining;
  current ← getS retainGeneration;
  if negb on || negb (current =? generation) then mret tt
  else
    up ← getS s_started;
    whenM up (reapplyBestPathsLocked ;; mret tt) ;;
    endRetentionLocked ;;
    enqueueChangeLocked ;;
    deliverChanges.

(** *** Refresh *)

Definition RefreshRoutes : BM unit :=
  up ← getS s_started;
  if negb up then mret tt
  else
    on ← getS retaining;
    before ← getS (fun s => size (retained s));
    dropped ← (if negb on && bool_decide (0 < before)%nat then
                 dropRetainedLocked ;; after ← getS (fun s => size (retained s)); mret (negb (bool_decide (after = before)))
               else mret false);
    entries ← getS (fun s => map_to_list (unresolved s));
    entries ← onFib (ordered entries);
    retried ← foldM (fun changed '(prefix, nextHop) =>
                errs ← applyPath prefix nextHop;
                if negb (bool_decide (length errs = 0%nat)) then removeAcceptedLocked prefix ;; mret changed
                else acceptLocked prefix nextHop ;; mret true) dropped entries;
    '(rejections, _) ← onFib Refresh;
    causes ← onFib (ordered (map_to_list rejections));
    changed ← foldM (fun changed '(prefix, cause) =>
                known ← getS (fun s => accepted s !! prefix);
                match known with
                | None => mret changed
                | Some nextHop => failInstallLocked prefix nextHop cause ;; mret true
                end) retried causes;
    whenM changed enqueueChangeLocked ;;
    deliverChanges.

(** ** The peer (session_paths.go) *)

(** A peer event: the state it reports and whether the peer offered graceful restart for
    IPv6 unicast. *)
Definition handlePeerEvent (is_state : bool) (state : FsmState) (offers_restart : bool) (timestamp : Z) : BM unit :=
  if negb is_state then mret tt
  else
    let up := bool_decide (state = BGP_FSM_ESTABLISHED) in
    running ← getS s_started;
    if negb running then mret tt
    else
      wasEstablished ← getS established;
      setS (set_fsmState state) ;;
      setS (set_established up) ;;
      whenM (up && negb wasEstablished)
        (setS (fun s => set_gracefulRestart ((0 <? GracefulRestartSeconds (s_cfg s)) && offers_restart)
                          (set_upSince timestamp s))) ;;
      whenM (negb up && wasEstablished)
        (setS (fun s => set_unresolved ∅ (set_accepted ∅ (set_gracefulRestart false (set_upSince zero_time s)))) ;;
         dropRetainedLocked ;;
         withdrawExportsLocked ;;
         key ← getS peerKey;
         onFib (WithdrawPeer key) ;; mret tt) ;;
      whenM (negb (Bool.eqb up wasEstablished)) enqueueChangeLocked ;;
      deliverChanges.

(** ** Lifecycle (session.go, session_restart.go) *)

Definition new_session (cfg : SessionConfig) : Session :=
  mkSession cfg (addr_String (PeerAddress cfg)) false false BGP_FSM_IDLE false zero_time ∅ ∅ ∅ [] false false ∅ false 0 [] false.

Definition NewSession (cfg : SessionConfig) : res (Session * FIB) :=
  (validated <-? Validated cfg ;;
   check ValidateRouterID (RouterID cfg) ;;
   Ok (new_session validated,
       newFIB (mkFIBConfig (Tables validated) (sc_Interface validated) (RouteMetric validated) true)))%go.

Definition sessionListenPort : Z := -1.

Definition peer (s : Session) : res Peer :=
  let cfg := s_cfg s in
  if existsb (fun f => negb (f =? FamilyIPv6Unicast)) (Families cfg) then Err "bgp session family has no GoBGP mapping"
  else Ok (mkPeer (peerKey s) (RemoteASN cfg) (Families cfg) (ConnectRetrySeconds cfg) (KeepaliveSeconds cfg)
    (HoldSeconds cfg) (PeerPort cfg) (sc_Interface cfg)
    (if addr_valid (LocalAddress cfg) then addr_String (LocalAddress cfg) else "")
    (if 0 <? MultihopTTL cfg then Some (MultihopTTL cfg) else None)
    (if 0 <? GracefulRestartSeconds cfg
     then Some (GracefulRestartSeconds cfg, GracefulRestartSeconds cfg, retaining s) else None)).

Definition addPeer : BM (option error) :=
  built ← getS peer;
  match built with
  | Err e => mret (Some ("build bgp session peer: " +:+ e))
  | Ok p =>
      r ← onServer (AddPeer p);
      emit (PeerAdded p (bool_decide (r = None))) ;;
      mret (match r with Some e => Some ("add bgp session peer: " +:+ e) | None => None end)
  end.

Definition configureServer (connect : bool) : BM (option error) :=
  cfg ← getS s_cfg;
  r ← onServer (StartBgp (LocalASN cfg) (addr_String (RouterID cfg)) sessionListenPort);
  match r with
  | Some e => mret (Some ("start bgp session: " +:+ e))
  | None =>
      r ← onServer (WatchEvent (0 <? GracefulRestartSeconds cfg));
      match r with
      | Some e => mret (Some ("watch bgp session events: " +:+ e))
      | None => if negb connect then mret None else addPeer
      end
  end.

Definition startServerLocked (connect : bool) : BM (option error) :=
  r ← configureServer connect;
  match r with
  | Some e => onServer StopServer ;; emit (ServerStopped false) ;; mret (Some e)
  | None =>
      onFib ArmSweep ;;
      setS (fun s => set_connected connect (set_s_started true s)) ;;
      mret None
  end.

Definition Start : BM (option error) :=
  up ← getS s_started;
  if up : bool then mret None
  else on ← getS retaining; startServerLocked (negb on).

Definition Connect : BM (option error) :=
  up ← getS s_started;
  if negb up then mret (Some "bgp session is not started"%string)
  else
    already ← getS connected;
    if already : bool then mret None
    else
      r ← addPeer;
      match r with
      | Some e => mret (Some e)
      | None => setS (set_connected true) ;; mret None
      end.

(** The queued states and the rejections stay. *)
Definition resetStoppedLocked : BM unit :=
  setS (fun s => mkSession (s_cfg s) (peerKey s) false false BGP_FSM_IDLE false zero_time ∅ ∅ ∅ (rejected s) false
    false ∅ (retainTimer s) (retainGeneration s) (pending_states s) (delivering s)).

Definition Stop : BM (list kerr) :=
  up ← getS s_started;
  if negb up then mret []
  else
    onServer StopServer ;; emit (ServerStopped false) ;;
    changed ← getS (fun s => established s || negb (bool_decide (retained s = ∅)));
    dropRetainedLocked ;;
    key ← getS peerKey;
    errs ← onFib (WithdrawPeer key);
    resetStoppedLocked ;;
    whenM changed enqueueChangeLocked ;;
    deliverChanges ;;
    mret errs.

Definition StopRetaining : BM (option error) :=
  cfg ← getS s_cfg;
  if GracefulRestartSeconds cfg =? 0 then mret (Some "bgp session has no graceful restart time"%string)
  else
    up ← getS s_started;
    if negb up then mret None
    else
      stopRetainTimerLocked ;;
      r ← onServer StopBgpGraceful;
      emit (ServerStopped true) ;;
      wasEstablished ← getS established;
      resetStoppedLocked ;;
      whenM wasEstablished enqueueChangeLocked ;;
      deliverChanges ;;
      mret r.

(** The timer that calls [endRetention] with the new generation is started. *)
Definition KeepRoutes (deadline : Z) : BM (option error) :=
  cfg ← getS s_cfg;
  if GracefulRestartSeconds cfg =? 0 then mret (Some "bgp session has no graceful restart time"%string)
  else
    installed ← onFib Installed;
    match installed with
    | inr e => mret (Some ("read bgp session retained routes: " +:+ ke_text e))
    | inl prefixes =>
        up ← getS s_started;
        on ← getS retaining;
        if up || on then mret (Some "bgp session already started or already retains routes"%string)
        else
          setS (fun s => set_retainTimer true (set_retainGeneration ((retainGeneration s + 1) mod 2 ^ 64)
            (set_retained (list_to_set prefixes ∪ retained s) (set_retaining true s)))) ;;
          enqueueChangeLocked ;;
          deliverChanges ;;
          mret None
    end.

Definition GracefulRestartNegotiated : BM bool := getS (fun s => established s && gracefulRestart s).

Definition Session_SweepStale : BM (list kerr) := onFib SweepStale.
End Session.
