(* ===== verification/BgpSessionProps.v ===== *)
(** * What a session installs and keeps

    [session_installs_accepted] relates the accepted prefixes, the installer's paths and the
    configuration in every state a session can reach; [session_writes_importable] is about
    every write the session ever asks of the kernel. *)

From S2P Require Import Prelude GoStrings Effects NptPolicy Intent Observation BgpConfig.
From S2P Require Import Tier Notify Health WanState BgpFib BgpSession.

Local Open Scope Z_scope.

(** ** The installer *)

Lemma pathPrefix_canon p : canon p -> pathPrefix p = Ok p.
Proof. intros [Hv Hm]. unfold pathPrefix. by rewrite Hv, Hm. Qed.

Section Installer.
Context {W : Type} `{PT : !PrefixText} `{RW : !RouteWriter W} `{MO : !MapOrder W}.

Lemma prefix_String_inj p q : canon p -> canon q -> prefix_String p = prefix_String q -> p = q.
Proof. intros [Hp Mp] [Hq Mq] H. apply (f_equal ParsePrefix) in H. rewrite !parse_prefix_String in H by done. by simplify_eq. Qed.

(** A kernel operation of the installer: on its own device and tables, as a BGP route, a
    write also with its own metric and to a destination in [D]. *)
Definition op_ok (cfg : FIBConfig) (D : string -> Prop) (op : kop) : Prop :=
  match op with
  | KWrote r _ => rs_Dev r = fc_InternalIface cfg /\ rs_TableID r ∈ fc_Tables cfg /\ rs_Metric r = fc_Metric cfg /\
                  rs_Protocol r = RTPROT_BGP /\ D (rs_Dest r)
  | KDeleted r _ => rs_Dev r = fc_InternalIface cfg /\ rs_TableID r ∈ fc_Tables cfg /\ rs_Protocol r = RTPROT_BGP
  end.

(** From [s] to [s'] the paths change by [Q] and the kernel is asked only for such operations. *)
Definition fib_rel (cfg : FIBConfig) (D : string -> Prop) (Q : relation (gmap string desiredRoute)) (s s' : fsys W) : Prop :=
  fib_cfg (fib s) = cfg ->
  fib_cfg (fib s') = cfg /\ Q (desired (fib s)) (desired (fib s')) /\
  exists l, fops s' = fops s ++ l /\ Forall (op_ok cfg D) l.

#[global] Instance fib_rel_preorder cfg D Q : PreOrder Q -> PreOrder (fib_rel cfg D Q).
Proof.
  intros HQ. split.
  - intros s Hc. split_and!; [done|reflexivity|]. exists []. by rewrite app_nil_r.
  - intros s1 s2 s3 H1 H2 Hc. destruct (H1 Hc) as (Hc' & HQ1 & l & Hl & HF). destruct (H2 Hc') as (Hc'' & HQ2 & l' & Hl' & HF').
    split_and!; [done|by etransitivity|]. exists (l ++ l'). rewrite Hl', Hl, app_assoc. split; [done|by apply Forall_app].
Qed.

Lemma fib_rel_weaken cfg (D D' : string -> Prop) (Q Q' : relation (gmap string desiredRoute)) s s' :
  (forall x, D x -> D' x) -> (forall a b, Q a b -> Q' a b) -> fib_rel cfg D Q s s' -> fib_rel cfg D' Q' s s'.
Proof.
  intros HD HQ H Hc. destruct (H Hc) as (Hc' & Hq & l & Hl & HF). split_and!; [done|by apply HQ|]. exists l. split; [done|].
  eapply Forall_impl; [exact HF|]. intros [r ok|r ok]; cbn; [|done]. intros (? & ? & ? & ? & ?). by auto 10.
Qed.

(** What is left unchanged of the paths: which there are, from whom, over which next hop. *)
Definition same_paths (d d' : gmap string desiredRoute) : Prop :=
  (fun e => (dr_peer e, dr_nextHop e)) <$> d = (fun e => (dr_peer e, dr_nextHop e)) <$> d'.

#[global] Instance same_paths_preorder : PreOrder same_paths.
Proof. split; [done|]. intros a b c. unfold same_paths. congruence. Qed.

Lemma sat_fib_cfg {A} cfg D Q (k : FIBConfig -> M (fsys W) A) :
  sat (k cfg) (fib_rel cfg D Q) -> sat (getFib fib_cfg ≫= k) (fib_rel cfg D Q).
Proof. intros H s Hc. unfold mbind, M_bind, getFib, gets. rewrite Hc. by apply H. Qed.

Lemma sat_getFib {A B} cfg D Q (f : FIB -> A) (k : A -> M (fsys W) B) :
  (forall a, sat (k a) (fib_rel cfg D Q)) -> sat (getFib f ≫= k) (fib_rel cfg D Q).
Proof. intros H s Hc. unfold mbind, M_bind, getFib, gets. by apply H. Qed.

Lemma bind_getFib {A B} (f : FIB -> A) (k : A -> M (fsys W) B) s : (getFib f ≫= k) s = k (f (fib s)) s.
Proof. done. Qed.

Section Eq.
Context (cfg : FIBConfig) (D : string -> Prop) (Q : relation (gmap string desiredRoute)) `{!PreOrder Q}.
Abbreviation R := (fib_rel cfg D Q).

Lemma fib_readKernel {A} (f : W -> A * W) : sat (readKernel f) R.
Proof. intros s Hc. unfold readKernel. destruct (f _). cbn. split_and!; [done|reflexivity|]. exists []. by rewrite app_nil_r. Qed.

Lemma fib_ordered {A} (l : list A) : sat (ordered l) R.
Proof. intros s Hc. cbn. split_and!; [done|reflexivity|]. exists []. by rewrite app_nil_r. Qed.

Lemma fib_write r : (forall ok, op_ok cfg D (KWrote r ok)) -> sat (writeRoute r) R.
Proof.
  intros H s Hc. unfold writeRoute. destruct (ReconcileTableRoute r _). cbn. split_and!; [done|reflexivity|].
  eexists. split; [done|]. constructor; [apply H|constructor].
Qed.

Lemma fib_delete r : (forall ok, op_ok cfg D (KDeleted r ok)) -> sat (deleteTableRoute r) R.
Proof.
  intros H s Hc. unfold deleteTableRoute. destruct (DeleteTableRoute r _). cbn. split_and!; [done|reflexivity|].
  eexists. split; [done|]. constructor; [apply H|constructor].
Qed.

Lemma fib_deletePrefix p : sat (deletePrefix p) R.
Proof.
  unfold deletePrefix. apply sat_fib_cfg, sat_foldM_in; [typeclasses eauto|]. intros errs t Ht. cbv zeta.
  apply sat_bind; [typeclasses eauto|by apply fib_delete|]. intros e. apply sat_ret. typeclasses eauto.
Qed.

Lemma fib_gateway p nh m : sat (gateway p nh m) R.
Proof.
  unfold gateway. sat_steps ltac:(first [apply fib_readKernel | fail]).
  all: try (apply sat_gets; typeclasses eauto).
Qed.
End Eq.

Lemma same_paths_alter g k d : same_paths d (alter (set_gateway g) k d).
Proof.
  unfold same_paths. apply map_eq. intros k'. rewrite !lookup_fmap. destruct (decide (k' = k)) as [->|Hne].
  - rewrite lookup_alter_eq. by destruct (d !! k).
  - by rewrite lookup_alter_ne by congruence.
Qed.

Lemma fib_setDesired cfg D (Q : relation (gmap string desiredRoute)) f :
  (forall d, Q d (f d)) -> sat (setDesired (W:=W) f) (fib_rel cfg D Q).
Proof. intros H s Hc. cbn. split_and!; [done|apply H|]. exists []. by rewrite app_nil_r. Qed.

Lemma fib_installGateway cfg (D : string -> Prop) p nh g : D (prefix_String p) ->
  sat (installGateway p nh g) (fib_rel cfg D same_paths).
Proof.
  intros HD. unfold installGateway. apply sat_fib_cfg, sat_bind; [typeclasses eauto| |].
  - apply sat_foldM_in; [typeclasses eauto|]. intros errs t Ht. apply sat_bind; [typeclasses eauto| |].
    + apply fib_write; [typeclasses eauto|]. intros ok. cbn. done.
    + intros e. apply sat_ret. typeclasses eauto.
  - intros errs. apply sat_bind; [typeclasses eauto| |intros _; apply sat_ret; typeclasses eauto].
    apply sat_if; [|apply sat_ret; typeclasses eauto]. apply fib_setDesired. intros d. apply same_paths_alter.
Qed.

Lemma fib_installPrefix cfg (D : string -> Prop) p nh : D (prefix_String p) ->
  sat (installPrefix p nh) (fib_rel cfg D same_paths).
Proof.
  intros HD. unfold installPrefix. apply sat_bind; [typeclasses eauto|apply fib_gateway; typeclasses eauto|].
  intros [[g|e] m]; [by apply fib_installGateway|apply sat_ret; typeclasses eauto].
Qed.

Lemma fib_installedCounts cfg D Q `{!PreOrder Q} : sat (installedCounts (W:=W)) (fib_rel cfg D Q).
Proof.
  unfold installedCounts. apply sat_fib_cfg. generalize (table_families cfg), (∅ : gmap string Z). intros l.
  induction l as [|[t f] l IH]; intros counts; cbn [count_listings]; [apply sat_ret; typeclasses eauto|].
  apply sat_bind; [typeclasses eauto|by apply fib_readKernel|]. intros [routes|e]; [apply IH|apply sat_ret; typeclasses eauto].
Qed.

Lemma fib_Installed cfg D Q `{!PreOrder Q} : sat (Installed (W:=W)) (fib_rel cfg D Q).
Proof.
  unfold Installed. apply sat_bind; [typeclasses eauto|by apply fib_installedCounts|]. intros c. apply sat_ret. typeclasses eauto.
Qed.

Lemma fib_sweepFamily cfg D Q `{!PreOrder Q} t family : t ∈ fc_Tables cfg ->
  sat (sweepFamily (W:=W) t family) (fib_rel cfg D Q).
Proof.
  intros Ht. unfold sweepFamily. apply sat_fib_cfg, sat_bind; [typeclasses eauto|by apply fib_readKernel|].
  intros [routes|e]; [|apply sat_ret; typeclasses eauto]. apply sat_foldM; [typeclasses eauto|]. intros errs r.
  case_bool_decide as Hdev; cbn [negb]; [|apply sat_ret; typeclasses eauto]. apply sat_getFib. intros d.
  destruct (d !! listed_dest family r); [apply sat_ret; typeclasses eauto|].
  apply sat_bind; [typeclasses eauto|apply fib_delete; [done|]; intros ok; cbn; done|]. intros e. apply sat_ret. typeclasses eauto.
Qed.

Lemma fib_SweepStale cfg D Q `{!PreOrder Q} : sat (SweepStale (W:=W)) (fib_rel cfg D Q).
Proof.
  unfold SweepStale. apply sat_getFib. intros [|]; cbn [negb]; [|apply sat_ret; typeclasses eauto].
  apply sat_fib_cfg, sat_foldM_in; [typeclasses eauto|]. intros errs t Ht. apply sat_foldM; [typeclasses eauto|]. intros errs' f.
  apply sat_bind; [typeclasses eauto|by apply fib_sweepFamily|]. intros e. apply sat_ret. typeclasses eauto.
Qed.

(** *** The effect of each method on the paths *)

Lemma fib_rel_trans cfg D (Q1 Q2 Q : relation (gmap string desiredRoute)) s1 s2 s3 :
  fib_rel cfg D Q1 s1 s2 -> fib_rel cfg D Q2 s2 s3 -> (forall a b c, Q1 a b -> Q2 b c -> Q a c) -> fib_rel cfg D Q s1 s3.
Proof.
  intros H1 H2 HQ Hc. destruct (H1 Hc) as (Hc' & HQ1 & l & Hl & HF). destruct (H2 Hc') as (Hc'' & HQ2 & l' & Hl' & HF').
  split_and!; [done|by eapply HQ|]. exists (l ++ l'). rewrite Hl', Hl, app_assoc. split; [done|by apply Forall_app].
Qed.

Lemma fib_WithdrawExact cfg D peer p : canon p ->
  sat (WithdrawExact (W:=W) peer p) (fib_rel cfg D (fun d d' => d' = delete (prefix_String p) d)).
Proof.
  intros Hp s. unfold WithdrawExact. rewrite pathPrefix_canon by done. unfold mbind, M_bind.
  assert (sat (setDesired (W:=W) (delete (prefix_String p))) (fib_rel cfg D (fun d d' => d' = delete (prefix_String p) d))) as H1
    by (apply fib_setDesired; done).
  specialize (H1 s). destruct (setDesired _ s) as [u s1].
  eapply fib_rel_trans; [exact H1|apply (fib_deletePrefix cfg D eq)|]. intros a b c -> <-. done.
Qed.

(** A path with a valid next hop is recorded, whatever becomes of its installation. *)
Lemma fib_Apply cfg (D : string -> Prop) peer p nh : canon p -> D (prefix_String p) -> addr_valid nh = true ->
  sat (Apply (W:=W) (mkPathEvent peer p nh false))
    (fib_rel cfg D (fun d d' => exists g, same_paths (<[prefix_String p := mkDesired peer nh g]> d) d')).
Proof.
  intros Hp HD Hnh s. unfold Apply. cbn [pe_Prefix pe_Withdrawn pe_NextHop pe_Peer]. rewrite pathPrefix_canon by done.
  rewrite Hnh. cbn [negb andb]. unfold mbind, M_bind.
  assert (sat (setDesired (W:=W) (insert (prefix_String p) (mkDesired peer nh "")))
    (fib_rel cfg D (fun d d' => d' = <[prefix_String p := mkDesired peer nh ""]> d))) as H1 by (apply fib_setDesired; done).
  specialize (H1 s). destruct (setDesired _ s) as [u s1].
  eapply fib_rel_trans; [exact H1|by apply (fib_installPrefix cfg D)|]. intros a b c -> H. by exists ""%string.
Qed.

Lemma elem_of_ordered {A} w (l : list A) x : x ∈ range_order A (w : W) l <-> x ∈ l.
Proof. by rewrite range_perm. Qed.

Lemma sat_ordered {A B} (R : relation (fsys W)) (l : list A) (k : list A -> M (fsys W) B) :
  (forall l', (forall x, x ∈ l' -> x ∈ l) -> sat (k l') R) -> sat (ordered l ≫= k) R.
Proof. intros H s. unfold mbind, M_bind, ordered, gets. apply H. intros x. by rewrite elem_of_ordered. Qed.

Lemma fib_refresh_one cfg (D : string -> Prop) installed acc key d :
  (forall p, ParsePrefix key = Some p -> D (prefix_String p)) ->
  sat (refresh_one (W:=W) cfg installed acc (key, d)) (fib_rel cfg D same_paths).
Proof.
  intros HD. unfold refresh_one. destruct (ParsePrefix key) as [p|]; [|apply sat_ret; typeclasses eauto].
  apply sat_bind; [typeclasses eauto|apply fib_gateway; typeclasses eauto|].
  intros [[g|e] m]; [|apply sat_ret; typeclasses eauto]. apply sat_if; [apply sat_ret; typeclasses eauto|].
  apply sat_bind; [typeclasses eauto|apply fib_installGateway, HD; done|]. intros errs. apply sat_ret. typeclasses eauto.
Qed.

(** The keys of the installer's paths are texts of masked prefixes. *)
Definition canon_keys (d : gmap string desiredRoute) : Prop :=
  forall k e, d !! k = Some e -> exists p, canon p /\ k = prefix_String p.

Lemma fib_Refresh cfg s : canon_keys (desired (fib s)) ->
  fib_rel cfg (fun dest => is_Some (desired (fib s) !! dest)) same_paths s (Refresh s).2.
Proof.
  intros Hk Hc. unfold Refresh. rewrite !bind_getFib, Hc.
  set (known := desired (fib s)) in *. set (D := fun dest => is_Some (known !! dest)).
  match goal with |- context [(if ?b then ?m1 else ?m2) s] =>
    assert (sat (if b then m1 else m2) (fib_rel cfg D same_paths)) as H; [|exact (H s Hc)] end.
  apply sat_if; [apply sat_ret; typeclasses eauto|].
  apply sat_bind; [typeclasses eauto|apply fib_installedCounts; typeclasses eauto|].
  intros [installed|e]; [|apply sat_ret; typeclasses eauto]. apply sat_ordered. intros entries Hin.
  apply sat_bind; [typeclasses eauto| |intros acc; apply sat_ret; typeclasses eauto].
  apply sat_foldM_in; [typeclasses eauto|]. intros acc [key e] He. apply fib_refresh_one. intros p Hp.
  apply Hin, elem_of_map_to_list in He. destruct (Hk key e He) as (q & [Hq Mq] & ->).
  rewrite parse_prefix_String in Hp by done. injection Hp as <-. by eexists.
Qed.

(** Withdrawing the only peer leaves nothing. *)
Lemma fib_WithdrawPeer cfg D peer s : canon_keys (desired (fib s)) ->
  (forall k e, desired (fib s) !! k = Some e -> dr_peer e = peer) ->
  fib_rel cfg D (fun _ d' => d' = ∅) s (WithdrawPeer peer s).2.
Proof.
  intros Hk Hp. unfold WithdrawPeer. rewrite bind_getFib. unfold mbind at 1, M_bind at 1, ordered, gets.
  set (l := range_order _ _ _). assert (forall k e, desired (fib s) !! k = Some e -> (k, e) ∈ l) as Hin.
  { intros k e He. apply elem_of_ordered. by apply elem_of_map_to_list. }
  assert (forall k e, (k, e) ∈ l -> dr_peer e = peer /\ exists p, ParsePrefix k = Some p) as Hl.
  { intros k e He. apply elem_of_ordered, elem_of_map_to_list in He. split; [by eapply Hp|].
    destruct (Hk k e He) as (p & [Hv Hm] & ->). exists p. by apply parse_prefix_String. }
  match goal with |- fib_rel _ _ _ _ (foldM ?b _ _ _).2 => set (body := b) end.
  clearbody l. assert (forall errs s0, (forall k e, (k, e) ∈ l -> dr_peer e = peer /\ exists p, ParsePrefix k = Some p) ->
    fib_rel cfg D (fun d d' => d' = filter (fun kv => kv.1 ∉ l.*1) d) s0 (foldM body errs l s0).2) as H.
  { clear -MO PT. induction l as [|[k e] l IH]; intros errs s0 Hl.
    - intros Hc. cbn. split_and!; [done| |exists []; by rewrite app_nil_r]. symmetry. apply map_filter_id. intros. set_solver.
    - cbn [foldM]. unfold mbind at 1, M_bind at 1. assert (exists s1 errs', body errs (k, e) s0 = (errs', s1) /\
        fib_rel cfg D (fun d d' => d' = delete k d) s0 s1) as (s1 & errs' & -> & H1).
      { destruct (Hl k e) as [Hpe (p & Hpp)]; [by left|]. unfold body. rewrite bool_decide_true by done. cbn [negb]. rewrite Hpp.
        unfold mbind, M_bind. assert (sat (setDesired (W:=W) (delete k)) (fib_rel cfg D (fun d d' => d' = delete k d))) as H1
          by (apply fib_setDesired; done). specialize (H1 s0). destruct (setDesired _ s0) as [u s1].
        pose proof (fib_deletePrefix cfg D eq p s1) as H2. destruct (deletePrefix p s1) as [e' s2]. exists s2, (errs ++ e'). split; [done|].
        eapply fib_rel_trans; [exact H1|exact H2|]. by intros a b c -> <-. }
      eapply fib_rel_trans; [exact H1|apply IH; intros; apply Hl; by right|]. cbn. intros a b c -> ->.
      apply map_eq. intros k'. apply option_eq. intros x. rewrite !map_lookup_filter_Some, lookup_delete_Some. cbn.
      rewrite not_elem_of_cons. naive_solver. }
  intros Hc. destruct (H [] s Hl Hc) as (Hc' & Hd & Hops). split_and!; [done| |done]. rewrite Hd.
  apply map_empty. intros k. apply map_lookup_filter_None. right. intros e He Hne. cbn in Hne. apply Hne.
  apply list_elem_of_fmap. exists (k, e). split; [done|by apply Hin].
Qed.
End Installer.

(** ** The session *)

Section Session.
Context {W : Type} `{PT : !PrefixText} `{RW : !RouteWriter W} `{MO : !MapOrder W} `{GB : !GoBGP W} `{BS : !BgpServer W}.
Implicit Types s : bsys (W := W).

Definition fib_config (cfg : SessionConfig) : FIBConfig := mkFIBConfig (Tables cfg) (sc_Interface cfg) (RouteMetric cfg) true.

(** The prefixes the configuration lets the session install. *)
Definition importable (cfg : SessionConfig) (p : Prefix) : Prop := canon p /\ importRejection cfg p = ""%string.

Definition importable_dest (cfg : SessionConfig) (dest : string) : Prop :=
  exists p, importable cfg p /\ dest = prefix_String p.

Definition paths s : gmap string desiredRoute := desired (fib (bfib s)).

(** What holds of the session itself. *)
Record sess_ok (x : Session) : Prop := mkSessOk {
  i_accepted : forall p nh, accepted x !! p = Some nh -> importable (s_cfg x) p /\ addr_valid nh = true;
  i_unresolved : forall p nh, unresolved x !! p = Some nh -> importable (s_cfg x) p /\ addr_valid nh = true;
  i_retry : accepted x ##ₘ unresolved x;
  i_retained : forall p, p ∈ retained x -> canon p /\ accepted x !! p = None;
  i_rejected : NoDup (rej_Prefix <$> rejected x) /\ (length (rejected x) <= MaxSessionRejections)%nat;
  i_advertised : advertised x ⊆ list_to_set (ex_Prefix <$> Export_ (s_cfg x));
  i_stopped : s_started x = false ->
    accepted x = ∅ /\ unresolved x = ∅ /\ advertised x = ∅ /\ established x = false /\ connected x = false;
}.

(** What links it to its installer, except that the installer's paths for the prefixes in
    [P] need not agree with the accepted prefixes. *)
Record linked (P : Prefix -> Prop) (x : Session) (f : fsys W) : Prop := mkLinked {
  l_cfg : fib_cfg (fib f) = fib_config (s_cfg x);
  l_keys : forall k e, desired (fib f) !! k = Some e -> dr_peer e = peerKey x /\ importable_dest (s_cfg x) k;
  l_match : forall p, canon p -> ~ P p -> dr_nextHop <$> desired (fib f) !! prefix_String p = accepted x !! p;
  l_ops : Forall (op_ok (fib_config (s_cfg x)) (importable_dest (s_cfg x))) (fops f);
}.

Definition sinv_but (P : Prefix -> Prop) s : Prop := sess_ok (sess s) /\ linked P (sess s) (bfib s).
Definition nowhere (p : Prefix) : Prop := False.
Lemma not_nowhere p : ~ nowhere p.
Proof. by intros []. Qed.
Definition everywhere (p : Prefix) : Prop := True.
Definition sinv : bsys -> Prop := sinv_but nowhere.

Lemma linked_weaken (P Q : Prefix -> Prop) x f : (forall p, P p -> Q p) -> linked P x f -> linked Q x f.
Proof. intros HPQ []. split; auto. Qed.

Lemma linked_ext P x x' f : s_cfg x' = s_cfg x -> peerKey x' = peerKey x -> accepted x' = accepted x ->
  linked P x f -> linked P x' f.
Proof. intros H1 H2 H3 []. split; by rewrite ?H1, ?H2, ?H3. Qed.

Lemma linked_canon_keys P x f : linked P x f -> canon_keys (desired (fib f)).
Proof. intros Hi k e He. destruct (l_keys P x f Hi k e He) as (_ & p & [Hc _] & ->). eauto. Qed.

(** A method of the installer that changes the paths by [Q]. *)
Lemma linked_fib P P' x x' f f' D Q :
  linked P x f -> fib_rel (fib_config (s_cfg x)) D Q f f' -> (forall dest, D dest -> importable_dest (s_cfg x) dest) ->
  s_cfg x' = s_cfg x ->
  (forall d', Q (desired (fib f)) d' ->
    (forall k e, d' !! k = Some e -> dr_peer e = peerKey x' /\ importable_dest (s_cfg x') k) /\
    (forall p, canon p -> ~ P' p -> dr_nextHop <$> d' !! prefix_String p = accepted x' !! p)) ->
  linked P' x' f'.
Proof.
  intros Hi Hf HD Hcfg Hpaths. destruct (Hf (l_cfg P x f Hi)) as (Hc & HQ & l & Hl & HF).
  destruct (Hpaths _ HQ) as [Hk Hm]. split; [by rewrite Hcfg|exact Hk|exact Hm|].
  rewrite Hl, Hcfg. apply Forall_app. split; [apply (l_ops P x f Hi)|].
  eapply Forall_impl; [exact HF|]. intros [r ok|r ok]; cbn; [|done]. intros (? & ? & ? & ? & ?). by auto 10.
Qed.

Lemma same_paths_lookup d d' k : same_paths d d' ->
  (fun e => (dr_peer e, dr_nextHop e)) <$> d !! k = (fun e => (dr_peer e, dr_nextHop e)) <$> d' !! k.
Proof. unfold same_paths. intros H. by rewrite <- !lookup_fmap, H. Qed.

Lemma same_paths_nextHop d d' k : same_paths d d' -> dr_nextHop <$> d !! k = dr_nextHop <$> d' !! k.
Proof. intros H%(same_paths_lookup _ _ k). destruct (d !! k), (d' !! k); cbn in *; congruence. Qed.

Lemma same_paths_Some d d' k e' : same_paths d d' -> d' !! k = Some e' ->
  exists e, d !! k = Some e /\ dr_peer e = dr_peer e'.
Proof. intros H%(same_paths_lookup _ _ k) He. rewrite He in H. destruct (d !! k) as [e|]; cbn in H; [|done].
  exists e. split; [done|]. congruence.
Qed.

Lemma linked_same P x f f' D : linked P x f -> fib_rel (fib_config (s_cfg x)) D same_paths f f' ->
  (forall dest, D dest -> importable_dest (s_cfg x) dest) -> linked P x f'.
Proof.
  intros Hi Hf HD. eapply linked_fib; [done|exact Hf|done|done|]. intros d' Hd. split.
  - intros k e' He'. destruct (same_paths_Some _ _ _ _ Hd He') as (e & He & <-). by eapply l_keys.
  - intros p Hp HP. rewrite <- (same_paths_nextHop _ _ _ Hd). by apply (l_match P).
Qed.

(** Withdrawing [p] settles it, once it is not accepted. *)
Lemma linked_withdrawn (P : Prefix -> Prop) x f f' p D : canon p ->
  linked (fun q => P q \/ q = p) x f ->
  fib_rel (fib_config (s_cfg x)) D (fun d d' => d' = delete (prefix_String p) d) f f' ->
  (forall dest, D dest -> importable_dest (s_cfg x) dest) ->
  accepted x !! p = None -> linked P x f'.
Proof.
  intros Hp Hi Hf HD Hacc. eapply linked_fib; [done|exact Hf|done|done|]. intros d' ->. split.
  - intros k e [_ He]%lookup_delete_Some. by eapply l_keys.
  - intros q Hq HP. destruct (decide (q = p)) as [->|Hne]; [by rewrite lookup_delete_eq|].
    rewrite lookup_delete_ne; [|intros H; by apply Hne, prefix_String_inj]. apply (l_match _ x f Hi q Hq). naive_solver.
Qed.

(** Applying a path for [p] leaves [p] to be settled, or accepted with that next hop. *)
Lemma linked_applied (P : Prefix -> Prop) x f f' p nh : importable (s_cfg x) p -> linked P x f ->
  fib_rel (fib_config (s_cfg x)) (importable_dest (s_cfg x))
    (fun d d' => exists g, same_paths (<[prefix_String p := mkDesired (peerKey x) nh g]> d) d') f f' ->
  linked (fun q => P q \/ q = p) x f' /\
  forall x', s_cfg x' = s_cfg x -> peerKey x' = peerKey x -> accepted x' = <[p := nh]> (accepted x) -> linked P x' f'.
Proof.
  intros Himp Hi Hf.
  assert (forall (P' : Prefix -> Prop) x', s_cfg x' = s_cfg x -> peerKey x' = peerKey x ->
    (P' p \/ accepted x' !! p = Some nh) -> (forall q, q <> p -> accepted x' !! q = accepted x !! q) ->
    (forall q, q <> p -> P q -> P' q) -> linked P' x' f') as Hgen.
  { intros P' x' Hcfg Hkey Hp Hother HP. eapply linked_fib; [done|exact Hf|done|done|]. intros d' (g & Hd). split.
    - intros k e' He'. destruct (same_paths_Some _ _ _ _ Hd He') as (e & He & <-). rewrite Hcfg, Hkey.
      apply lookup_insert_Some in He as [[<- <-]|[_ He]]; [split; [done|by exists p]|by eapply l_keys].
    - intros q Hq HPq. rewrite <- (same_paths_nextHop _ _ _ Hd). destruct (decide (q = p)) as [->|Hne].
      + rewrite lookup_insert_eq. cbn. by destruct Hp as [?| ->].
      + rewrite lookup_insert_ne; [|intros H; destruct Himp as [Hc _]; by apply Hne; symmetry; apply prefix_String_inj].
        rewrite Hother by done. apply (l_match _ x f Hi q Hq). naive_solver. }
  split; [apply Hgen; naive_solver|]. intros x' H1 H2 H3. apply Hgen; [done|done|right; by rewrite H3, lookup_insert_eq| |naive_solver].
  intros q Hne. by rewrite H3, lookup_insert_ne.
Qed.

(** *** Relations of the session's methods *)

Section Methods.
Context (cfg : SessionConfig) (key : string).

(** The configuration never changes. *)
Definition is_session (x : Session) : Prop := s_cfg x = cfg /\ peerKey x = key.

(** The invariant is kept and the session is neither started nor stopped. *)
Definition good (b : bool) (P : Prefix -> Prop) s s' : Prop :=
  is_session (sess s) -> s_started (sess s) = b -> sinv_but P s ->
  sinv_but P s' /\ is_session (sess s') /\ s_started (sess s') = b.

(** The same, and the accepted prefixes, which are [acc], stay. *)
Definition calm (b : bool) (P : Prefix -> Prop) (acc : gmap Prefix Addr) s s' : Prop :=
  is_session (sess s) -> s_started (sess s) = b -> accepted (sess s) = acc -> sinv_but P s ->
  sinv_but P s' /\ is_session (sess s') /\ s_started (sess s') = b /\ accepted (sess s') = acc.

#[local] Instance good_preorder b P : PreOrder (good b P).
Proof.
  split; [by intros s Hc Hb Hi|]. intros s1 s2 s3 H1 H2 Hc Hb Hi. destruct (H1 Hc Hb Hi) as (Hi2 & Hc2 & Hb2). by apply H2.
Qed.

#[local] Instance calm_preorder b P acc : PreOrder (calm b P acc).
Proof.
  split; [by intros s Hc Hb Ha Hi|]. intros s1 s2 s3 H1 H2 Hc Hb Ha Hi.
  destruct (H1 Hc Hb Ha Hi) as (Hi2 & Hc2 & Hb2 & Ha2). by apply H2.
Qed.

Lemma calm_good {A} b P (m : M (bsys (W:=W)) A) : (forall acc, sat m (calm b P acc)) -> sat m (good b P).
Proof. intros H s Hc Hb Hi. destruct (H _ s Hc Hb eq_refl Hi) as (? & ? & ? & _). done. Qed.

(** A change of the session that keeps what holds of it and the accepted prefixes. *)
Definition harmless (b : bool) (f : Session -> Session) : Prop :=
  forall x, s_cfg x = cfg -> s_started x = b -> sess_ok x ->
    sess_ok (f x) /\ s_started (f x) = s_started x /\ s_cfg (f x) = s_cfg x /\ peerKey (f x) = peerKey x /\
    accepted (f x) = accepted x.

Lemma calm_setS b P acc f : harmless b f -> sat (setS f) (calm b P acc).
Proof.
  intros H s [Hc Hk] Hb Ha [Hs Hl]. destruct (H _ Hc Hb Hs) as (Hs' & H1 & H2 & H3 & H4). cbn.
  split_and!; [split; [done|by eapply linked_ext]|split; cbn; congruence|by rewrite H1|by rewrite H4].
Qed.

Lemma calm_emit b P acc e : sat (emit e) (calm b P acc).
Proof. by intros s Hc Hb Ha [Hs Hl]. Qed.

Lemma calm_onFib {A} b P acc (m : M (fsys W) A) :
  (forall cfg D, sat m (fib_rel cfg D same_paths)) -> sat (onFib m) (calm b P acc).
Proof.
  intros H s Hc Hb Ha [Hs Hl]. unfold onFib. specialize (H (fib_config (s_cfg (sess s))) (importable_dest (s_cfg (sess s))) (bfib s)).
  destruct (m (bfib s)) as [a f]. cbn in *. split_and!; try done. split; [done|]. by eapply linked_same.
Qed.

Lemma calm_onServer {A} b P acc (f : W -> A * W) : sat (onServer f) (calm b P acc).
Proof. apply calm_onFib. intros c D. apply fib_readKernel. typeclasses eauto. Qed.

Lemma bind_getS {A B} (f : Session -> A) (k : A -> M (bsys (W:=W)) B) s : (getS f ≫= k) s = k (f (sess s)) s.
Proof. done. Qed.

(** Reading the configuration. *)
Lemma sat_cfg {A B} b P acc (f : SessionConfig -> A) (k : A -> M (bsys (W:=W)) B) :
  sat (k (f cfg)) (calm b P acc) -> sat (getS (fun x => f (s_cfg x)) ≫= k) (calm b P acc).
Proof. intros H s Hc. unfold mbind, M_bind, getS, gets. rewrite (proj1 Hc). by apply H. Qed.

Create HintDb session discriminated.
#[local] Hint Resolve calm_emit calm_onServer : session.

Ltac plain_set := apply calm_setS; intros ? ? ? []; split_and!; try done; split; cbn; try done; congruence.
Ltac calm_steps := sat_steps ltac:(first
  [ solve [eauto 2 with session nocore]
  | solve [plain_set]
  | solve [apply calm_good; intros ?; plain_set]
  | solve [apply calm_good; intros acc; eauto 2 with session nocore] ]).

(** *** Rejections *)

Lemma without_NoDup p l : NoDup (rej_Prefix <$> l) -> NoDup (rej_Prefix <$> without_rejection p l).
Proof. intros Hd. eapply sublist_NoDup; [exact Hd|]. apply fmap_sublist, sublist_filter. Qed.

Lemma without_length p l : (length (without_rejection p l) <= length l)%nat.
Proof. apply length_filter. Qed.

Lemma rejected_bounded p reason l : NoDup (rej_Prefix <$> l) ->
  NoDup (rej_Prefix <$> bound_rejections (without_rejection p l ++ [mkRejection p reason])) /\
  (length (bound_rejections (without_rejection p l ++ [mkRejection p reason])) <= MaxSessionRejections)%nat.
Proof.
  intros Hd. unfold bound_rejections. split; [|rewrite length_drop; lia].
  eapply sublist_NoDup; [|apply fmap_sublist, sublist_drop]. rewrite fmap_app. apply NoDup_app. split_and!.
  - by apply without_NoDup.
  - intros q Hq. unfold without_rejection in Hq. apply list_elem_of_fmap in Hq as (r & -> & [Hr _]%list_elem_of_filter). set_solver.
  - apply NoDup_singleton.
Qed.

Lemma calm_reject b P acc p reason : sat (rejectLocked p reason) (calm b P acc).
Proof.
  apply calm_setS. intros x _ _ Hx. split_and!; try done. destruct Hx. split; try done. cbn. apply rejected_bounded. by destruct i_rejected0.
Qed.
#[local] Hint Resolve calm_reject : session.

(** *** Advertisement *)

Lemma calm_unadvertise b P acc p : sat (setS (fun x => set_advertised (advertised x ∖ {[p]}) x)) (calm b P acc).
Proof.
  apply calm_setS. intros x _ _ Hx. split_and!; try done. destruct Hx. split; try done; cbn; [set_solver|].
  intros Hst. destruct (i_stopped0 Hst) as (? & ? & Hadv & ? & ?). split_and!; try done. rewrite Hadv. set_solver.
Qed.

Lemma calm_advertise P acc p : p ∈ ex_Prefix <$> Export_ cfg ->
  sat (setS (fun x => set_advertised ({[p]} ∪ advertised x) x)) (calm true P acc).
Proof.
  intros Hp s Hc Hb Ha [Hs Hl]. cbn. split_and!; try done. split; [|by apply (linked_ext _ (sess s))]. destruct Hs. split; try done; cbn.
  - destruct Hc as [Hc _]. rewrite Hc in *. set_solver.
  - congruence.
Qed.
#[local] Hint Resolve calm_unadvertise : session.

Lemma calm_withdraw_export b P acc rule : sat (reconcileExportLocked rule false) (calm b P acc).
Proof. unfold reconcileExportLocked. cbn [negb]. calm_steps. Qed.

Lemma calm_export P acc rule wanted : rule ∈ Export_ cfg -> sat (reconcileExportLocked rule wanted) (calm true P acc).
Proof.
  intros Hr. assert (ex_Prefix rule ∈ ex_Prefix <$> Export_ cfg) as Hp by (by apply list_elem_of_fmap_2).
  pose proof (calm_advertise P acc _ Hp). unfold reconcileExportLocked. calm_steps.
Qed.

Lemma calm_withdrawExports b P acc : sat withdrawExportsLocked (calm b P acc).
Proof.
  pose proof (calm_withdraw_export b P acc). unfold withdrawExportsLocked.
  apply (sat_cfg b P acc Export_). calm_steps.
Qed.

Lemma calm_SetAdvertisement P acc eligible backup : sat (SetAdvertisement eligible backup) (calm true P acc).
Proof.
  unfold SetAdvertisement. apply sat_bind; [typeclasses eauto|calm_steps|]. intros up. apply sat_if; [calm_steps|].
  apply (sat_cfg true P acc Export_). apply sat_foldM_in; [typeclasses eauto|]. intros errs rule Hr. cbv zeta.
  pose proof (fun w => calm_export P acc rule w Hr). calm_steps.
Qed.

(** *** Retained routes *)

(** Withdrawing a prefix that is not accepted. *)
Lemma calm_withdrawExact b P acc k p : canon p -> acc !! p = None -> sat (onFib (WithdrawExact k p)) (calm b P acc).
Proof.
  intros Hp Hacc s Hc Hb Ha [Hs Hl]. unfold onFib.
  pose proof (fib_WithdrawExact (fib_config (s_cfg (sess s))) (importable_dest (s_cfg (sess s))) k p Hp (bfib s)) as Hf.
  destruct (WithdrawExact k p (bfib s)) as [a f]. cbn in *. split_and!; try done. split; [done|].
  eapply (linked_withdrawn P (sess s)); [exact Hp| |exact Hf|done|by rewrite Ha]. eapply linked_weaken; [|exact Hl]. by left.
Qed.

Lemma calm_forget_retained b P acc p : sat (setS (fun x => set_retained (retained x ∖ {[p]}) x)) (calm b P acc).
Proof. apply calm_setS. intros x _ _ Hx. split_and!; try done. destruct Hx. split; try done. cbn.
  intros q [Hq _]%elem_of_difference. by apply i_retained0. Qed.
#[local] Hint Resolve calm_forget_retained : session.

(** The retained prefixes are masked and not accepted. *)
Lemma sat_retained {A} b P acc (k : list Prefix -> M (bsys (W:=W)) A) :
  (forall l, (forall p, p ∈ l -> canon p /\ acc !! p = None) -> sat (k l) (calm b P acc)) ->
  sat (getS (fun x => elements (retained x)) ≫= k) (calm b P acc).
Proof.
  intros H s Hc Hb Ha Hi. unfold mbind, M_bind, getS, gets. apply H; [|done..]. intros p Hp%elem_of_elements.
  rewrite <- Ha. by apply i_retained, Hp; destruct Hi.
Qed.

Lemma sat_onFib_ordered {A B} b P acc (l : list A) (k : list A -> M (bsys (W:=W)) B) :
  (forall l', (forall x, x ∈ l' -> x ∈ l) -> sat (k l') (calm b P acc)) ->
  sat (onFib (ordered l) ≫= k) (calm b P acc).
Proof.
  intros H s. unfold mbind, M_bind, onFib, ordered, gets. cbn. destruct s as [x f log]. cbn. apply H.
  intros y. by rewrite elem_of_ordered.
Qed.

Lemma calm_dropRetained b P acc : sat dropRetainedLocked (calm b P acc).
Proof.
  unfold dropRetainedLocked, stopRetainTimerLocked.
  apply sat_bind; [typeclasses eauto|calm_steps|]. intros _. apply sat_bind; [typeclasses eauto|calm_steps|]. intros _.
  apply sat_retained. intros l Hl. apply sat_onFib_ordered. intros l' Hl'.
  apply sat_bind; [typeclasses eauto|calm_steps|]. intros k. apply sat_foldM_in; [typeclasses eauto|]. intros _ p Hp.
  destruct (Hl p (Hl' p Hp)) as [Hcan Hacc]. pose proof (calm_withdrawExact b P acc k p Hcan Hacc). calm_steps.
Qed.
#[local] Hint Resolve calm_dropRetained calm_withdrawExports : session.

Lemma calm_endRetention b P acc : sat endRetentionLocked (calm b P acc).
Proof. unfold endRetentionLocked. calm_steps. Qed.
#[local] Hint Resolve calm_endRetention : session.

Lemma calm_enqueue b P acc : sat enqueueChangeLocked (calm b P acc).
Proof. unfold enqueueChangeLocked, snapshotLocked. calm_steps. Qed.
Lemma calm_deliver b P acc : sat deliverChanges (calm b P acc).
Proof. unfold deliverChanges. calm_steps. Qed.
#[local] Hint Resolve calm_enqueue calm_deliver : session.

(** *** Installation *)

Lemma sess_ok_unaccept x p : sess_ok x -> sess_ok (set_accepted (delete p (accepted x)) x).
Proof.
  intros []. split; cbn; try done.
  - intros q nh [_ Hq]%lookup_delete_Some. by eapply i_accepted0.
  - by apply map_disjoint_delete_l.
  - intros q Hq. destruct (i_retained0 q Hq) as [? Hn]. split; [done|]. by apply lookup_delete_None; right.
  - intros Hst. destruct (i_stopped0 Hst) as (-> & ?). by rewrite delete_empty.
Qed.

(** [p] is withdrawn: the installer's path for it, which may be anything before, is gone. *)
Lemma removeAccepted_settles b (P : Prefix -> Prop) p s : canon p -> is_session (sess s) -> s_started (sess s) = b ->
  sinv_but (fun q => P q \/ q = p) s ->
  let s' := (removeAcceptedLocked p s).2 in
  sinv_but P s' /\ is_session (sess s') /\ s_started (sess s') = b /\ accepted (sess s') !! p = None.
Proof.
  intros Hp Hc Hb [Hs Hl]. unfold removeAcceptedLocked. unfold mbind, M_bind, setS, modify, getS, gets, onFib. cbn [sess bfib blog].
  set (x := set_accepted (delete p (accepted (sess s))) (sess s)).
  pose proof (fib_WithdrawExact (fib_config (s_cfg x)) (importable_dest (s_cfg x)) (peerKey x) p Hp (bfib s)) as Hf.
  destruct (WithdrawExact (peerKey x) p (bfib s)) as [a f]. cbn [fst snd sess bfib] in *.
  assert (accepted x !! p = None) as Hn by apply lookup_delete_eq.
  split_and!; [split; [by apply sess_ok_unaccept|]|done|done|done].
  eapply linked_withdrawn; [exact Hp| |exact Hf|done|done]. destruct Hl as [l1 l2 l3 l4]. split; try done.
  intros q Hq Hnq. rewrite l3 by done. symmetry. apply lookup_delete_ne. naive_solver.
Qed.

Lemma failInstall_good P p nh errs s : importable cfg p -> addr_valid nh = true ->
  is_session (sess s) -> s_started (sess s) = true -> sinv_but (fun q => P q \/ q = p) s ->
  let s' := (failInstallLocked p nh errs s).2 in
  sinv_but P s' /\ is_session (sess s') /\ s_started (sess s') = true.
Proof.
  intros Himp Hnh Hc Hb Hi. unfold failInstallLocked. unfold mbind, M_bind.
  pose proof (removeAccepted_settles true P p s (proj1 Himp) Hc Hb Hi) as H. destruct (removeAcceptedLocked p s) as [u s1].
  cbn [fst snd] in H. destruct H as (Hi1 & Hc1 & Hb1 & Hn1).
  pose proof (calm_reject true P (accepted (sess s1)) p (rejectedNotInstall +:+ ": " +:+ joined_text errs) s1 Hc1 Hb1 eq_refl Hi1) as H.
  destruct (rejectLocked _ _ s1) as [u' s2]. cbn [fst snd] in H. destruct H as (Hi2 & Hc2 & Hb2 & Ha2). cbn.
  split_and!; [|done|done]. destruct Hi2 as [Hs2 Hl2]. split; [|by apply (linked_ext _ (sess s2))]. destruct Hs2. split; cbn; try done.
  - intros q nh' [[<- <-]|[_ Hq]]%lookup_insert_Some; [destruct Hc2 as [-> _]; done|by eapply i_unresolved0].
  - apply map_disjoint_insert_r_2; [|done]. by rewrite Ha2.
  - congruence.
Qed.

Lemma sess_ok_accept x p nh : s_started x = true -> importable (s_cfg x) p -> addr_valid nh = true -> sess_ok x ->
  sess_ok (set_rejected (without_rejection p (rejected x)) (set_accepted (<[p := nh]> (accepted x))
    (set_retained (retained x ∖ {[p]}) (set_unresolved (delete p (unresolved x)) x)))).
Proof.
  intros Hb Himp Hnh []. split; cbn; try done.
  - intros q nh' [[<- <-]|[_ Hq]]%lookup_insert_Some; [done|by eapply i_accepted0].
  - intros q nh' [_ Hq]%lookup_delete_Some. by eapply i_unresolved0.
  - apply map_disjoint_insert_l_2; [apply lookup_delete_eq|]. by apply map_disjoint_delete_r.
  - intros q [Hq Hne]%elem_of_difference. destruct (i_retained0 q Hq). split; [done|]. rewrite lookup_insert_ne by set_solver. done.
  - destruct i_rejected0. split; [by apply without_NoDup|]. pose proof (without_length p (rejected x)). lia.
  - congruence.
Qed.

(** A path is applied: either it is then accepted, or it is left to be settled. *)
Lemma applied (P : Prefix -> Prop) p nh s : importable cfg p -> addr_valid nh = true ->
  is_session (sess s) -> s_started (sess s) = true -> sinv_but P s ->
  let s' := (applyPath p nh s).2 in
  sess s' = sess s /\ sinv_but (fun q => P q \/ q = p) s' /\
  let s'' := (acceptLocked p nh s').2 in sinv_but P s'' /\ is_session (sess s'') /\ s_started (sess s'') = true.
Proof.
  intros Himp Hnh Hc Hb [Hs Hl]. unfold applyPath. unfold mbind, M_bind, getS, gets, onFib.
  assert (importable (s_cfg (sess s)) p) as Himp' by by destruct Hc as [-> _].
  pose proof (fib_Apply (fib_config (s_cfg (sess s))) (importable_dest (s_cfg (sess s))) (peerKey (sess s)) p nh
    (proj1 Himp) ltac:(by exists p) Hnh (bfib s)) as Hf.
  destruct (Apply _ (bfib s)) as [errs f]. cbn [fst snd sess bfib] in *.
  destruct (linked_applied P (sess s) (bfib s) f p nh Himp' Hl Hf) as [Hl1 Hl2].
  split; [done|]. split; [by split|]. cbn. split; [|done]. split; [by apply sess_ok_accept|by apply Hl2].
Qed.

(** What a method of a running session guarantees. *)
Definition running P s : Prop := sinv_but P s /\ is_session (sess s) /\ s_started (sess s) = true.

Lemma good_wp {A} P (m : M (bsys (W:=W)) A) : (forall s, running P s -> wp m (fun _ => running P) s) -> sat m (good true P).
Proof. intros H s Hc Hb Hi. by apply H. Qed.

Lemma wp_good {A} P (m : M (bsys (W:=W)) A) s : sat m (good true P) -> running P s -> wp m (fun _ => running P) s.
Proof. intros H (Hi & Hc & Hb). by apply H. Qed.

Lemma good_install P p nh : importable cfg p -> addr_valid nh = true -> sat (installLocked p nh) (good true P).
Proof.
  intros Himp Hnh. apply good_wp. intros s (Hi & Hc & Hb). unfold installLocked. apply wp_bind.
  destruct (applied P p nh s Himp Hnh Hc Hb Hi) as (Hx & Hbut & Hacc). unfold wp at 1. destruct (applyPath p nh s) as [errs s1].
  cbn [fst snd] in *. case_bool_decide; cbn [negb].
  - apply wp_bind, wp_gets, wp_bind. unfold wp at 1. destruct (acceptLocked p nh s1). exact Hacc.
  - rewrite <- Hx in Hc, Hb. apply wp_bind. exact (failInstall_good P p nh errs s1 Himp Hnh Hc Hb Hbut).
Qed.

Lemma good_removeAccepted P p : canon p -> sat (removeAcceptedLocked p) (good true P).
Proof.
  intros Hp s Hc Hb [Hs Hl]. destruct (removeAccepted_settles true P p s Hp Hc Hb) as (? & ? & ? & _); [|done].
  split; [done|]. eapply linked_weaken; [|exact Hl]. by left.
Qed.

Lemma good_withdrawRetained P p : sat (withdrawRetainedLocked p) (good true P).
Proof.
  apply calm_good. intros acc s Hc Hb Ha Hi. assert (p ∈ retained (sess s) -> canon p /\ acc !! p = None) as Hr.
  { intros Hp. rewrite <- Ha. by apply i_retained, Hp; destruct Hi. }
  unfold withdrawRetainedLocked. rewrite bind_getS. case_bool_decide as Hp; cbn [negb]; [|done].
  destruct (Hr Hp) as [Hcan Hn].
  assert (forall k, sat (onFib (WithdrawExact k p)) (calm true P acc)) as Hw by (intros k; by apply calm_withdrawExact).
  match goal with |- context [(?m s).2] => assert (sat m (calm true P acc)) as H; [|by apply H] end. calm_steps.
Qed.

Lemma bestPathNextHop_valid attrs nh : bestPathNextHop attrs = Some nh -> addr_valid nh = true.
Proof.
  induction attrs as [|a attrs IH]; cbn; [done|]. destruct a; try exact IH.
  all: match goal with |- (if addr_valid ?x then _ else _) = _ -> _ => destruct (addr_valid x) eqn:Hv end; [|exact IH].
  all: intros [= <-]; exact Hv.
Qed.

Lemma good_cfg {A B} b P (f : SessionConfig -> A) (k : A -> M (bsys (W:=W)) B) :
  sat (k (f cfg)) (good b P) -> sat (getS (fun x => f (s_cfg x)) ≫= k) (good b P).
Proof. intros H s Hc. unfold mbind, M_bind, getS, gets. rewrite (proj1 Hc). by apply H. Qed.

Lemma calm_forget_unresolved b P acc p : sat (setS (fun x => set_unresolved (delete p (unresolved x)) x)) (calm b P acc).
Proof.
  apply calm_setS. intros x _ _ Hx. split_and!; try done. destruct Hx. split; cbn; try done.
  - intros q nh [_ Hp]%lookup_delete_Some. by eapply i_unresolved0.
  - by apply map_disjoint_delete_r.
  - intros Hst. destruct (i_stopped0 Hst) as (? & -> & ? & ? & ?). by rewrite delete_empty.
Qed.
#[local] Hint Resolve calm_forget_unresolved : session.

Lemma good_applyBestPath P path : sat (applyBestPathLocked path) (good true P).
Proof.
  unfold applyBestPathLocked. destruct path as [path|]; [|apply sat_ret; typeclasses eauto].
  destruct (p_Nlri path) as [nlri|]; [|apply sat_ret; typeclasses eauto].
  repeat (apply sat_if; [apply sat_ret; typeclasses eauto|]).
  destruct (ParsePrefix (nlri_String nlri)) as [q|] eqn:Hq; [|apply sat_ret; typeclasses eauto]. cbv zeta.
  apply parse_prefix_valid in Hq as [Hv Ha]. assert (canon (Masked q)) as Hcan by by apply Masked_canon.
  apply sat_if.
  - unfold withdrawAcceptedLocked. pose proof (good_removeAccepted P _ Hcan). pose proof (good_withdrawRetained P (Masked q)). calm_steps.
  - apply sat_if; [apply sat_ret; typeclasses eauto|]. apply (good_cfg _ _ id). unfold id. case_bool_decide as Hr; cbn [negb]; [|calm_steps].
    destruct (bestPathNextHop (p_Attrs path)) as [nh|] eqn:Hnh; [|calm_steps].
    apply good_install; [done|by eapply bestPathNextHop_valid].
Qed.

Lemma good_applyBestPaths P paths : sat (applyBestPaths paths) (good true P).
Proof. pose proof (good_applyBestPath P). unfold applyBestPaths. calm_steps. Qed.
#[local] Hint Resolve good_applyBestPaths : session.

Lemma good_reapply P : sat reapplyBestPathsLocked (good true P).
Proof. unfold reapplyBestPathsLocked. calm_steps. Qed.
#[local] Hint Resolve good_reapply : session.

(** *** Refresh *)

Lemma good_refresh_fib : sat (onFib Refresh) (good true nowhere).
Proof.
  intros s Hc Hb [Hs Hl]. unfold onFib. pose proof (fib_Refresh (fib_config (s_cfg (sess s))) (bfib s) (linked_canon_keys _ _ _ Hl)) as Hf.
  destruct (Refresh (bfib s)) as [a f]. cbn in *. split_and!; try done. split; [done|]. eapply linked_same; [exact Hl|exact Hf|].
  intros dest [e He]. by eapply l_keys.
Qed.

Lemma good_retry changed p nh : importable cfg p -> addr_valid nh = true ->
  sat (errs ← applyPath p nh;
       if negb (bool_decide (length errs = 0%nat)) then removeAcceptedLocked p ;; mret changed
       else acceptLocked p nh ;; mret true) (good true nowhere).
Proof.
  intros Himp Hnh. apply good_wp. intros s (Hi & Hc & Hb). apply wp_bind.
  destruct (applied nowhere p nh s Himp Hnh Hc Hb Hi) as (Hx & Hbut & Hacc). unfold wp at 1. destruct (applyPath p nh s) as [errs s1].
  cbn [fst snd] in *. rewrite <- Hx in Hc, Hb. case_bool_decide; cbn [negb]; apply wp_bind.
  - exact Hacc.
  - unfold wp at 1. destruct (removeAccepted_settles true nowhere p s1 (proj1 Himp) Hc Hb Hbut) as (? & ? & ? & _). done.
Qed.

Lemma good_cause changed p cause :
  sat (known ← getS (fun x => accepted x !! p);
       match known with None => mret changed | Some nh => failInstallLocked p nh cause ;; mret true end) (good true nowhere).
Proof.
  apply good_wp. intros s (Hi & Hc & Hb). apply wp_bind, wp_gets. destruct (accepted (sess s) !! p) as [nh|] eqn:Hp; [|done].
  apply wp_bind. destruct (i_accepted _ (proj1 Hi) p nh Hp) as [Himp Hnh]. destruct Hc as [Hc Hk]. rewrite Hc in Himp.
  apply (failInstall_good nowhere p nh cause s Himp Hnh (conj Hc Hk) Hb). destruct Hi as [Hs Hl]. split; [done|].
  eapply linked_weaken; [|exact Hl]. by left.
Qed.

(** The paths to retry are importable. *)
Lemma good_unresolved {A} (k : list (Prefix * Addr) -> M (bsys (W:=W)) A) :
  (forall l, (forall p nh, (p, nh) ∈ l -> importable cfg p /\ addr_valid nh = true) -> sat (k l) (good true nowhere)) ->
  sat (entries ← getS (fun x => map_to_list (unresolved x)); entries ← onFib (ordered entries); k entries) (good true nowhere).
Proof.
  intros H s Hc Hb Hi. rewrite bind_getS. unfold mbind, M_bind, onFib, ordered, gets. cbn. destruct s as [x f log]. cbn in *.
  apply H; [|done..]. intros p nh Hp. rewrite elem_of_ordered, elem_of_map_to_list in Hp.
  destruct Hc as [Hc _]. cbn in Hc. rewrite <- Hc. by eapply i_unresolved; [destruct Hi|].
Qed.

Lemma good_ordered {A B} b P (l : list A) (k : list A -> M (bsys (W:=W)) B) :
  (forall l', sat (k l') (good b P)) -> sat (onFib (ordered l) ≫= k) (good b P).
Proof. intros H s. unfold mbind, M_bind, onFib, ordered, gets. cbn. destruct s as [x f log]. cbn. apply H. Qed.

Lemma good_RefreshRoutes : sat RefreshRoutes (good true nowhere).
Proof.
  unfold RefreshRoutes. apply sat_bind; [typeclasses eauto|calm_steps|]. intros up. apply sat_if; [calm_steps|].
  apply sat_bind; [typeclasses eauto|calm_steps|]. intros on. apply sat_bind; [typeclasses eauto|calm_steps|]. intros before.
  apply sat_bind; [typeclasses eauto|calm_steps|]. intros dropped. apply good_unresolved. intros entries Hin.
  apply sat_bind; [typeclasses eauto| |].
  { apply sat_foldM_in; [typeclasses eauto|]. intros changed [p nh] Hp. destruct (Hin p nh Hp). by apply good_retry. }
  intros retried. apply sat_bind; [typeclasses eauto|apply good_refresh_fib|]. intros [rejections errs]. apply good_ordered. intros causes.
  apply sat_bind; [typeclasses eauto| |intros changed; calm_steps].
  apply sat_foldM; [typeclasses eauto|]. intros changed [p cause]. apply good_cause.
Qed.

(** *** Handlers *)

(** A handler that does nothing unless the session runs. *)
Definition keeps (s s' : bsys (W := W)) : Prop := is_session (sess s) -> sinv s -> sinv s' /\ is_session (sess s').

#[local] Instance keeps_preorder : PreOrder keeps.
Proof. split; [by intros s Hc Hi|]. intros s1 s2 s3 H1 H2 Hc Hi. destruct (H1 Hc Hi). by apply H2. Qed.

Lemma keeps_good {A} (m : M (bsys (W:=W)) A) : (forall b, sat m (good b nowhere)) -> sat m keeps.
Proof. intros H s Hc Hi. destruct (H _ s Hc eq_refl Hi) as (? & ? & _). done. Qed.

Lemma keeps_if_started {A} (a : A) (m : M (bsys (W:=W)) A) : sat m (good true nowhere) ->
  sat (up ← getS s_started; if negb up then mret a else m) keeps.
Proof.
  intros H s Hc Hi. rewrite bind_getS. destruct (s_started (sess s)) eqn:Hb; cbn [negb]; [|done].
  destruct (H s Hc Hb Hi) as (? & ? & _). done.
Qed.

Lemma keeps_handleBestPaths paths : sat (handleBestPaths paths) keeps.
Proof. apply keeps_if_started. calm_steps. Qed.

Lemma keeps_handleEndOfRIB ipv6 : sat (handleEndOfRIB ipv6) keeps.
Proof.
  unfold handleEndOfRIB. apply sat_if; [apply sat_ret; typeclasses eauto|]. apply keeps_if_started. calm_steps.
Qed.

Lemma keeps_RefreshRoutes : sat RefreshRoutes keeps.
Proof.
  intros s Hc Hi. destruct (s_started (sess s)) eqn:Hb.
  - destruct (good_RefreshRoutes s Hc Hb Hi) as (? & ? & _). done.
  - unfold RefreshRoutes. rewrite bind_getS, Hb. done.
Qed.

Lemma keeps_SetAdvertisement eligible backup : sat (SetAdvertisement eligible backup) keeps.
Proof.
  intros s Hc Hi. destruct (s_started (sess s)) eqn:Hb.
  - destruct (calm_SetAdvertisement nowhere _ eligible backup s Hc Hb eq_refl Hi) as (? & ? & _). done.
  - unfold SetAdvertisement. rewrite bind_getS, Hb. done.
Qed.

Lemma keeps_endRetention generation : sat (endRetention generation) keeps.
Proof.
  unfold endRetention. intros s Hc Hi. rewrite !bind_getS.
  destruct (negb (retaining (sess s)) || _); [done|]. rewrite bind_getS.
  match goal with |- context [(?m s).2] => assert (sat m (good (s_started (sess s)) nowhere)) as H; [|by destruct (H s Hc eq_refl Hi) as (? & ? & _)] end.
  apply sat_bind; [typeclasses eauto| |calm_steps]. destruct (s_started (sess s)); cbn [whenM]; calm_steps.
Qed.

(** The peer is lost: everything learned is forgotten and withdrawn. *)
Lemma cleared_linked x f : linked nowhere x f ->
  linked everywhere (set_unresolved ∅ (set_accepted ∅ (set_gracefulRestart false (set_upSince zero_time x)))) f.
Proof. by intros []. Qed.

Lemma cleared_ok x : sess_ok x ->
  sess_ok (set_unresolved ∅ (set_accepted ∅ (set_gracefulRestart false (set_upSince zero_time x)))).
Proof.
  intros []. split; cbn; try done.
  - intros p Hp. destruct (i_retained0 p Hp). split; [done|apply lookup_empty].
  - intros Hst. destruct (i_stopped0 Hst) as (_ & _ & ? & ? & ?). done.
Qed.

Lemma withdrawPeer_empties P s : is_session (sess s) -> sinv_but P s ->
  let s' := (onFib (WithdrawPeer (peerKey (sess s))) s).2 in
  sess s' = sess s /\ linked everywhere (sess s) (bfib s') /\ desired (fib (bfib s')) = ∅.
Proof.
  intros _ [Hs Hl]. unfold onFib.
  pose proof (fib_WithdrawPeer (fib_config (s_cfg (sess s))) (importable_dest (s_cfg (sess s))) (peerKey (sess s)) (bfib s)
    (linked_canon_keys _ _ _ Hl)) as Hf.
  destruct (WithdrawPeer (peerKey (sess s)) (bfib s)) as [a f]. cbn [fst snd sess bfib] in *.
  assert (fib_rel (fib_config (s_cfg (sess s))) (importable_dest (s_cfg (sess s))) (fun _ d' => d' = ∅) (bfib s) f) as Hf'.
  { apply Hf. intros k e He. by eapply l_keys. }
  split; [done|]. split; [|by destruct (Hf' (l_cfg _ _ _ Hl)) as (_ & ? & _)].
  eapply (linked_fib P everywhere (sess s) (sess s)); [exact Hl|exact Hf'|done|done|]. intros d' ->.
  split; [intros k e; by rewrite lookup_empty|]. intros p _ H. by destruct H.
Qed.

(** Without paths and without accepted prefixes the session and its installer agree. *)
Lemma emptied_linked P x x' f : linked P x f -> desired (fib f) = ∅ ->
  s_cfg x' = s_cfg x -> peerKey x' = peerKey x -> accepted x' = ∅ -> linked nowhere x' f.
Proof.
  intros [] Hd Hc Hk Ha. split; rewrite ?Hc, ?Hk, ?Ha; try done. intros p _ _. by rewrite Hd, !lookup_empty.
Qed.

(** A state the calm methods move within. *)
Definition calmly (b : bool) P acc s : Prop :=
  is_session (sess s) /\ s_started (sess s) = b /\ accepted (sess s) = acc /\ sinv_but P s.

Lemma wp_calm {A B} b P acc (m : M (bsys (W:=W)) A) (k : A -> M (bsys (W:=W)) B) Q s :
  sat m (calm b P acc) -> calmly b P acc s -> (forall a s', calmly b P acc s' -> wp (k a) Q s') -> wp (m ≫= k) Q s.
Proof.
  intros Hm (Hc & Hb & Ha & Hi) Hk. apply wp_bind. destruct (Hm s Hc Hb Ha Hi) as (? & ? & ? & ?). unfold wp in *.
  destruct (m s) as [a s']. by apply Hk.
Qed.

Definition forget_learned (x : Session) : Session :=
  set_unresolved ∅ (set_accepted ∅ (set_gracefulRestart false (set_upSince zero_time x))).

Lemma good_peer_lost :
  sat (setS forget_learned ;;
       dropRetainedLocked ;; withdrawExportsLocked ;; k ← getS peerKey; onFib (WithdrawPeer k) ;; mret tt) (good true nowhere).
Proof.
  apply good_wp. intros s (Hi & Hc & Hb). apply wp_bind, wp_modify.
  assert (calmly true everywhere ∅ (mkBsys (forget_learned (sess s)) (bfib s) (blog s))) as H.
  { destruct Hi as [Hs Hl]. split_and!; try done. split; [by apply cleared_ok|by apply cleared_linked]. }
  eapply wp_calm; [apply calm_dropRetained|exact H|]. clear dependent s. intros _ s H.
  eapply wp_calm; [apply calm_withdrawExports|exact H|]. clear dependent s. intros _ s (Hc & Hb & Ha & Hi).
  apply wp_bind, wp_gets, wp_bind. destruct (withdrawPeer_empties _ s Hc Hi) as (Hx & Hl & Hd). unfold wp at 1.
  destruct (onFib _ s) as [e s']. cbn [fst snd] in *. apply wp_ret. unfold running, sinv_but. rewrite Hx. split; [|done].
  split; [apply Hi|by eapply emptied_linked].
Qed.

Lemma keeps_handlePeerEvent is_state state offers t : sat (handlePeerEvent is_state state offers t) keeps.
Proof.
  unfold handlePeerEvent. apply sat_if; [apply sat_ret; typeclasses eauto|]. apply keeps_if_started.
  pose proof good_peer_lost as Hlost. unfold forget_learned in Hlost. calm_steps.
Qed.

(** *** Lifecycle *)

Lemma calm_addPeer b P acc : sat addPeer (calm b P acc).
Proof. unfold addPeer. calm_steps. Qed.
#[local] Hint Resolve calm_addPeer : session.

Lemma calm_ArmSweep b P acc : sat (onFib ArmSweep) (calm b P acc).
Proof. apply calm_onFib. intros c D s Hc. cbn. split_and!; [done|reflexivity|]. exists []. by rewrite app_nil_r. Qed.
#[local] Hint Resolve calm_ArmSweep : session.

Lemma calm_configureServer b P acc connect : sat (configureServer connect) (calm b P acc).
Proof. unfold configureServer. calm_steps. Qed.

Lemma keeps_Start : sat Start keeps.
Proof.
  unfold Start. intros s Hc Hi. rewrite bind_getS. destruct (s_started (sess s)) eqn:Hb; [done|].
  rewrite bind_getS. generalize (negb (retaining (sess s))). intros connect.
  change (wp (startServerLocked connect) (fun _ s' => sinv s' /\ is_session (sess s')) s). unfold startServerLocked.
  eapply wp_calm; [apply calm_configureServer|exact (conj Hc (conj Hb (conj eq_refl Hi)))|].
  intros [e|] s1 H; (eapply wp_calm; [|exact H|]; [solve [eauto 2 with session nocore]|]); intros _ s2 (Hc2 & Hb2 & Ha2 & Hi2).
  - done.
  - apply wp_bind, wp_modify, wp_ret. destruct Hi2 as [Hs2 Hl2]. split; [|done]. split; [|by apply (linked_ext _ (sess s2))].
    destruct Hs2. by split.
Qed.

Lemma keeps_Connect : sat Connect keeps.
Proof. unfold Connect. apply keeps_if_started. calm_steps. Qed.

(** Stopping forgets everything but the rejections and the queued states. *)
Lemma reset_ok x : sess_ok x ->
  sess_ok (mkSession (s_cfg x) (peerKey x) false false BGP_FSM_IDLE false zero_time ∅ ∅ ∅ (rejected x) false
    false ∅ (retainTimer x) (retainGeneration x) (pending_states x) (delivering x)).
Proof. intros []. by split. Qed.

Lemma keeps_reset P s : sess_ok (sess s) -> linked P (sess s) (bfib s) -> desired (fib (bfib s)) = ∅ -> is_session (sess s) ->
  let s' := (resetStoppedLocked s).2 in sinv s' /\ is_session (sess s') /\ s_started (sess s') = false.
Proof. intros Hs Hl Hd Hc. cbn. split; [|done]. split; [by apply reset_ok|by eapply emptied_linked]. Qed.

Lemma wp_keeps_after {A} b (m : M (bsys (W:=W)) A) s : sat m (good b nowhere) ->
  sinv s -> is_session (sess s) -> s_started (sess s) = b -> wp m (fun _ s' => sinv s' /\ is_session (sess s')) s.
Proof. intros H Hi Hc Hb. destruct (H s Hc Hb Hi) as (? & ? & _). done. Qed.

Lemma keeps_Stop : sat Stop keeps.
Proof.
  unfold Stop. intros s Hc Hi. rewrite bind_getS. destruct (s_started (sess s)) eqn:Hb; cbn [negb]; [|done].
  match goal with |- context [(?m s).2] => change (wp m (fun _ s' => sinv s' /\ is_session (sess s')) s) end.
  assert (calmly true nowhere (accepted (sess s)) s) as H by exact (conj Hc (conj Hb (conj eq_refl Hi))).
  eapply wp_calm; [apply calm_onServer|exact H|]. clear H. intros _ s1 H.
  eapply wp_calm; [apply calm_emit|exact H|]. clear dependent s1. intros _ s1 H.
  apply wp_bind, wp_gets. eapply wp_calm; [apply calm_dropRetained|exact H|].
  match goal with |- forall a s', _ -> wp (_ ← _; errs ← _; _ ;; whenM ?c _ ;; _) _ _ => generalize c end.
  intros changed _ s2 (Hc2 & Hb2 & Ha2 & Hi2). apply wp_bind, wp_gets, wp_bind.
  destruct (withdrawPeer_empties _ s2 Hc2 Hi2) as (Hx & Hl & Hd). unfold wp at 1. destruct (onFib _ s2) as [errs s3]. cbn [fst snd] in *.
  apply wp_bind. rewrite <- Hx in Hl. destruct (keeps_reset everywhere s3) as (Hi4 & Hc4 & Hb4); [rewrite Hx; apply Hi2|done|done|by rewrite Hx|].
  unfold wp at 1. destruct (resetStoppedLocked s3) as [u s4]. cbn [fst snd] in *.
  eapply wp_keeps_after; [|done|done|exact Hb4]. calm_steps.
Qed.

(** Routes already installed are read as masked prefixes. *)
Lemma Installed_canon (f : fsys W) l : (Installed f).1 = inl l -> forall p, p ∈ l -> canon p.
Proof.
  unfold Installed. unfold mbind, M_bind. destruct (installedCounts f) as [[counts|e] f1]; cbn; [|done]. intros [= <-] p Hp.
  apply list_elem_of_omap in Hp as ([dest n] & _ & Hd). destruct (ParsePrefix dest) as [q|] eqn:Hq; [|done].
  cbn in Hd. injection Hd as <-. apply parse_prefix_valid in Hq as [Hv Ha]. by apply Masked_canon.
Qed.

Lemma keeps_KeepRoutes deadline : sat (KeepRoutes deadline) keeps.
Proof.
  unfold KeepRoutes. intros s Hc Hi. rewrite bind_getS. destruct (GracefulRestartSeconds _ =? 0); [done|].
  match goal with |- context [(?m s).2] => change (wp m (fun _ s' => sinv s' /\ is_session (sess s')) s) end. apply wp_bind. unfold wp at 1.
  pose proof (calm_onFib (s_started (sess s)) nowhere (accepted (sess s)) Installed
    ltac:(intros c D; apply fib_Installed; typeclasses eauto) s Hc eq_refl eq_refl Hi) as H.
  pose proof (Installed_canon (bfib s)) as Hcan. unfold onFib in *. destruct (Installed (bfib s)) as [[l|e] f]; cbn [fst snd] in *;
    destruct H as (Hi1 & Hc1 & Hb1 & Ha1); [|exact (conj Hi1 Hc1)].
  apply wp_bind, wp_gets, wp_bind, wp_gets. cbn [sess] in *.
  destruct (s_started (sess s)) eqn:Hb; [apply wp_ret; by split|]. destruct (retaining (sess s)); [apply wp_ret; by split|].
  cbn [orb]. apply wp_bind, wp_modify. eapply wp_keeps_after; [calm_steps| |done|exact Hb].
  destruct Hi1 as [Hs Hl]. split; [|by apply (linked_ext _ (sess s))]. cbn [sess] in *. destruct Hs. split; try done. cbn.
  intros p [Hp|Hp]%elem_of_union; [|by apply i_retained0]. destruct (i_stopped0 Hb) as (-> & _). split; [|apply lookup_empty].
  apply (Hcan l eq_refl). by apply elem_of_list_to_set in Hp.
Qed.
End Methods.

(** ** Reachable states *)

(** What can happen to a session: its callers, GoBGP's callbacks, the retention timer, and
    changes of the world outside. *)
Inductive session_op :=
| OpStart
| OpConnect
| OpStop
| OpKeepRoutes (deadline : Z)
| OpDeadline (generation : Z)
| OpBestPaths (paths : list (option Path))
| OpEndOfRIB (ipv6 : bool)
| OpPeerEvent (is_state : bool) (state : FsmState) (offers_restart : bool) (timestamp : Z)
| OpRefresh
| OpAdvertise (eligible : bool) (backupActive : gmap Prefix bool)
| OpSweep
| OpOutside (change : W -> W).

Definition run_op (op : session_op) : M bsys unit :=
  match op with
  | OpStart => Start ;; mret tt
  | OpConnect => Connect ;; mret tt
  | OpStop => Stop ;; mret tt
  | OpKeepRoutes deadline => KeepRoutes deadline ;; mret tt
  | OpDeadline generation => endRetention generation
  | OpBestPaths paths => handleBestPaths paths
  | OpEndOfRIB ipv6 => handleEndOfRIB ipv6
  | OpPeerEvent is_state state offers timestamp => handlePeerEvent is_state state offers timestamp
  | OpRefresh => RefreshRoutes
  | OpAdvertise eligible backup => SetAdvertisement eligible backup ;; mret tt
  | OpSweep => Session_SweepStale ;; mret tt
  | OpOutside change => onServer (fun w => (tt, change w))
  end.

Definition run_ops (ops : list session_op) : M bsys unit := forM ops run_op.

(** A new session over the world [w]. *)
Definition initial (x : Session) (f : FIB) (w : W) : bsys := mkBsys x (mkFsys f w []) [].

Lemma keeps_op cfg key op : sat (run_op op) (keeps cfg key).
Proof.
  pose proof (keeps_Start cfg key). pose proof (keeps_Connect cfg key). pose proof (keeps_Stop cfg key).
  pose proof (keeps_KeepRoutes cfg key). pose proof (keeps_SetAdvertisement cfg key).
  destruct op; cbn [run_op].
  1,2,3,4,10: apply sat_bind; [apply keeps_preorder|auto|intros _; apply sat_ret, keeps_preorder].
  - apply keeps_endRetention.
  - apply keeps_handleBestPaths.
  - apply keeps_handleEndOfRIB.
  - apply keeps_handlePeerEvent.
  - apply keeps_RefreshRoutes.
  - apply sat_bind; [apply keeps_preorder| |intros _; apply sat_ret, keeps_preorder].
    apply keeps_good. intros b. apply calm_good. intros acc. apply calm_onFib. intros c D. apply fib_SweepStale. typeclasses eauto.
  - apply keeps_good. intros b. apply calm_good. intros acc. apply calm_onServer.
Qed.

Lemma new_session_inv cfg x f w : NewSession cfg = Ok (x, f) -> sinv (initial x f w) /\ is_session (s_cfg x) (peerKey x) x.
Proof.
  unfold NewSession. intros (v & _ & H)%res_bind_ok. apply res_bind_ok in H as (u & _ & [= <- <-]). split; [|done]. split; split; cbn; try done.
  - split; [constructor|unfold MaxSessionRejections; lia].
Qed.

Lemma reachable_sinv cfg x f w ops : NewSession cfg = Ok (x, f) ->
  let s := (run_ops ops (initial x f w)).2 in sinv s /\ s_cfg (sess s) = s_cfg x /\ peerKey (sess s) = peerKey x.
Proof.
  intros [Hi Hc]%(new_session_inv _ _ _ w). cbv zeta.
  assert (sat (run_ops ops) (keeps (s_cfg x) (peerKey x))) as H.
  { apply sat_foldM; [apply keeps_preorder|]. intros _ op. apply keeps_op. }
  by apply H.
Qed.

(** *** The import policy *)

(** The prefix lies in an import rule, within its bounds, and is not one the session
    originates. *)
Definition policy_allows (cfg : SessionConfig) (p : Prefix) : Prop :=
  (forall rule, rule ∈ Export_ cfg -> ex_Prefix rule <> p) /\
  exists rule, rule ∈ Import_ cfg /\ pfx_bits (im_Prefix rule) <= pfx_bits p /\
    Contains (im_Prefix rule) (pfx_addr p) = true /\ MinLength rule <= pfx_bits p <= MaxLength rule.

Lemma import_reason_allows p reason rules : reason <> ""%string -> import_reason p reason rules = ""%string ->
  exists rule, rule ∈ rules /\ pfx_bits (im_Prefix rule) <= pfx_bits p /\
    Contains (im_Prefix rule) (pfx_addr p) = true /\ MinLength rule <= pfx_bits p <= MaxLength rule.
Proof.
  revert reason. induction rules as [|rule rules IH]; intros reason Hne; cbn [import_reason]; [done|].
  assert (forall reason, reason <> ""%string -> import_reason p reason rules = ""%string ->
    exists rule', rule' ∈ rule :: rules /\ pfx_bits (im_Prefix rule') <= pfx_bits p /\
      Contains (im_Prefix rule') (pfx_addr p) = true /\ MinLength rule' <= pfx_bits p <= MaxLength rule') as Hrest.
  { intros r Hr H. destruct (IH r Hr H) as (rule' & Hin & ?). exists rule'. split; [by right|done]. }
  destruct ((pfx_bits p <? _) || _) eqn:Hcov; [by apply Hrest|].
  destruct ((MinLength rule <=? _) && _) eqn:Hlen; [|by apply Hrest]. intros _. exists rule. split; [by left|].
  apply orb_false_iff in Hcov as [Hb Hc]. apply negb_false_iff in Hc. apply andb_true_iff in Hlen as [? ?]. split_and!; [lia|done|lia|lia].
Qed.

Lemma importRejection_allows cfg p : importRejection cfg p = ""%string -> policy_allows cfg p.
Proof.
  unfold importRejection. destruct (existsb _ _) eqn:He; [done|]. intros H. split; [|by apply import_reason_allows in H].
  intros rule Hr Heq. apply not_true_iff_false in He. apply He, existsb_exists. exists rule.
  split; [by apply list_elem_of_In|]. by apply bool_decide_eq_true.
Qed.


(** Every operation a session ever asks of the kernel, over its whole life, is on the
    session's interface and in one of its tables, as a BGP route; and every route it writes
    has the session's metric and a destination its import rules allow. *)
Lemma session_writes_importable cfg x f w ops op :
  NewSession cfg = Ok (x, f) -> op ∈ fops (bfib (run_ops ops (initial x f w)).2) ->
  match op with
  | KWrote r _ =>
      rs_Dev r = sc_Interface (s_cfg x) /\ rs_TableID r ∈ Tables (s_cfg x) /\ rs_Metric r = RouteMetric (s_cfg x) /\
      rs_Protocol r = RTPROT_BGP /\ exists p, canon p /\ rs_Dest r = prefix_String p /\ policy_allows (s_cfg x) p
  | KDeleted r _ =>
      rs_Dev r = sc_Interface (s_cfg x) /\ rs_TableID r ∈ Tables (s_cfg x) /\ rs_Protocol r = RTPROT_BGP
  end.
Proof.
  intros H Hop. destruct (reachable_sinv cfg x f w ops H) as ([Hs Hl] & Hc & Hk).
  pose proof (l_ops _ _ _ Hl) as HF. rewrite Forall_forall in HF. specialize (HF op Hop). rewrite Hc in HF.
  destruct op as [r ok|r ok]; cbn in HF; [|done]. destruct HF as (? & ? & ? & ? & p & [Hcan Himp] & ?). split_and!; try done.
  exists p. split_and!; [done|done|by apply importRejection_allows].
Qed.

(** However many prefixes a peer announces that the session refuses, it reports each at
    most once and at most [MaxSessionRejections] of them. *)
Lemma rejections_bounded cfg x f w ops :
  NewSession cfg = Ok (x, f) ->
  let l := rejected (sess (run_ops ops (initial x f w)).2) in
  NoDup (rej_Prefix <$> l) /\ (length l <= MaxSessionRejections)%nat.
Proof. intros H. destruct (reachable_sinv cfg x f w ops H) as ([Hs _] & _). apply (i_rejected _ Hs). Qed.

(** A best path without a usable next hop replaces the path a prefix was accepted with, but
    the prefix stays accepted and installed over the next hop the peer no longer announces;
    it is then reported both as accepted and as rejected. *)
Lemma unusable_path_keeps_route path nlri q nh s :
  p_Nlri path = Some nlri -> p_IPv6Unicast path = true -> addr_valid (p_PeerAddress path) = true ->
  p_Withdrawal path = false -> p_Stale path = false -> ParsePrefix (nlri_String nlri) = Some q ->
  importRejection (s_cfg (sess s)) (Masked q) = ""%string -> bestPathNextHop (p_Attrs path) = None ->
  accepted (sess s) !! Masked q = Some nh ->
  let s' := (applyBestPathLocked (Some path) s).2 in
  accepted (sess s') !! Masked q = Some nh /\ bfib s' = bfib s /\
  (exists reason, mkRejection (Masked q) reason ∈ rejected (sess s')).
Proof.
  intros Hn Hu Hp Hw Hst Hq Hi Hb Ha. unfold applyBestPathLocked. rewrite Hn, Hu, Hp, Hq, Hw, Hst. cbn [negb]. cbv zeta.
  rewrite bind_getS, Hi, Hb. split_and!; [done|done|]. exists rejectedNoNextHop.
  change (mkRejection (Masked q) rejectedNoNextHop ∈
    bound_rejections (without_rejection (Masked q) (rejected (sess s)) ++ [mkRejection (Masked q) rejectedNoNextHop])). unfold bound_rejections.
  rewrite drop_app_le; [set_solver|]. rewrite length_app. cbn. unfold MaxSessionRejections. lia.
Qed.
End Session.
