(* ===== verification/BgpModule.v ===== *)
(** * The module that runs the BGP sessions (ifmgr/modules/bgpsessions)

    The module starts and stops one [BgpSession.Session] per configured session, keeps a
    journal of the interfaces and metrics its sessions install routes with, sweeps what an
    earlier process left behind, and keeps routes across a restart of the daemon while the
    peer does.  GoBGP's callbacks and the retention timers of the sessions run beside the
    module: [others] is whatever they do before the module's next call into a session or
    read of the kernel. *)

From S2P Require Import Prelude GoStrings Effects NptPolicy Intent Observation BgpConfig.
From S2P Require Import Tier Notify Health WanState Readiness Daemon BgpFib BgpSession.

Local Open Scope Z_scope.

(** ** Data *)

Record routeOwner := mkOwner { own_Interface : string; own_Metric : Z }.
#[export] Instance routeOwner_eq_dec : EqDecision routeOwner.
Proof. solve_decision. Defined.

Record retention := mkRetention { ret_owner : routeOwner; ret_Deadline : Z }.

Record journalDocument := mkJournal { Owners : list routeOwner; Retaining : list retention }.
Definition empty_journal : journalDocument := mkJournal [] [].

(** What reading and decoding the journal gives. *)
Inductive journal_file := JournalAbsent | JournalUnreadable (e : error) | JournalDecoded (d : journalDocument).

Definition loadJournal (file : journal_file) : journalDocument * option error :=
  match file with
  | JournalAbsent => (empty_journal, None)
  | JournalUnreadable e => (empty_journal, Some e)
  | JournalDecoded d => (d, None)
  end.

Record SessionEntry := mkSessionEntry {
  se_ref : WANRef;
  se_Config : SessionConfig;
  BackupFor : gmap Prefix (list string);
  EndpointDest : string;
  EndpointTable : Z;
}.

Record ConfiguredRoute := mkConfiguredRoute {
  cfr_Interface : string;
  cfr_Dest : string;
  cfr_Via : string;
  cfr_Metric : Z;
}.

Record ModuleConfig := mkModuleConfig {
  mc_Sessions : list SessionEntry;
  StateFile : string;
  ConfiguredRoutes : list ConfiguredRoute;
}.

Definition sessionOwner (cfg : SessionEntry) : routeOwner :=
  mkOwner (ref_Iface (se_ref cfg)) (RouteMetric (se_Config cfg)).

Definition familyV4 : string := "inet".
Definition familyV6 : string := "inet6".
Definition readinessReady : string := "ready".

(** The session of [cfg] runs on the connection's interface, in the main table. *)
Definition session_config (cfg : SessionEntry) : SessionConfig :=
  let c := se_Config cfg in
  mkSessionConfig (sc_Name c) (RouterID c) (Families c) (LocalASN c) (RemoteASN c) (PeerAddress c) (PeerPort c)
    (LocalAddress c) (ref_Iface (se_ref cfg)) (MultihopTTL c) (KeepaliveSeconds c) (HoldSeconds c) (ConnectRetrySeconds c)
    (GracefulRestartSeconds c) (Import_ c) (Export_ c) [RT_TABLE_MAIN] (RouteMetric c).

Definition with_dest (dest : string) (r : CurrentRoute) : CurrentRoute :=
  mkCurrentRoute (cr_Family r) dest (cr_Via r) (cr_Dev r) (cr_TableID r) (cr_Protocol r) (cr_Metric r) (cr_Scope r)
    (cr_Type r) (cr_NextHops r).

Section Module.
Context `{DT : !DistributionTypes} {W : Type} `{SW : !StoreWorld W}.
Context `{PT : !PrefixText} `{RW : !RouteWriter W} `{MO : !MapOrder W} `{GB : !GoBGP W} `{BS : !BgpServer W}.

(** The session with its installer, what the installer asked of the kernel, and what the
    session's listener saw last. *)
Record managedSession := mkManaged {
  ms_cfg : SessionEntry;
  ms_sess : Session;
  ms_fib : FIB;
  ms_seen : option SessionState;
  ms_running : bool;
  ms_transport : string;
  connectBy : Z;
}.

Definition set_run (run : bool) (transport : string) (by_ : Z) (e : managedSession) : managedSession :=
  mkManaged (ms_cfg e) (ms_sess e) (ms_fib e) (ms_seen e) run transport by_.
Definition set_seen (st : SessionState) (e : managedSession) : managedSession :=
  mkManaged (ms_cfg e) (ms_sess e) (ms_fib e) (Some st) (ms_running e) (ms_transport e) (connectBy e).
Definition set_session (x : Session) (f : FIB) (e : managedSession) : managedSession :=
  mkManaged (ms_cfg e) x f (ms_seen e) (ms_running e) (ms_transport e) (connectBy e).

Record Module := mkModule {
  m_cfg : ModuleConfig;
  m_live : bool;
  m_sessions : list managedSession;
  m_owners : list routeOwner;
  m_retaining : list retention;
  m_stopped : bool;
}.

Definition set_sessions (v : list managedSession) (m : Module) : Module :=
  mkModule (m_cfg m) (m_live m) v (m_owners m) (m_retaining m) (m_stopped m).
Definition set_journal (d : journalDocument) (m : Module) : Module :=
  mkModule (m_cfg m) (m_live m) (m_sessions m) (Owners d) (Retaining d) (m_stopped m).
Definition set_stopped (m : Module) : Module :=
  mkModule (m_cfg m) (m_live m) (m_sessions m) (m_owners m) (m_retaining m) true.

(** What the module does, oldest first: a session is about to stop with its routes kept
    ([SessionRetained]); a sweep deletion comes with the states of the sessions that were
    asked whether they accept the route. *)
Inductive mevent :=
| JournalLoaded (d : journalDocument)
| JournalWrote (d : journalDocument) (ok : bool)
| SessionRoute (i : nat) (op : kop)
| SessionUp (i : nat)
| SessionDown (i : nat)
| SessionRetained (i : nat) (now : Z)
| Swept (r : RouteSpec) (now : Z) (asked : list (nat * SessionState)) (ok : bool).

Record msys := mkMsys { mm : Module; mlive : ssys W; mrequests : list string; mtrace : list mevent }.

Abbreviation MM := (M msys).

(** What a callback of GoBGP or a timer of a session does. *)
Inductive callback :=
| CbBestPaths (paths : list (option Path))
| CbEndOfRIB (ipv6 : bool)
| CbPeerEvent (is_state : bool) (state : FsmState) (offers_restart : bool) (timestamp : Z)
| CbDeadline (generation : Z).

Definition run_callback (cb : callback) : M bsys unit :=
  match cb with
  | CbBestPaths paths => handleBestPaths paths
  | CbEndOfRIB ipv6 => handleEndOfRIB ipv6
  | CbPeerEvent is_state state offers timestamp => handlePeerEvent is_state state offers timestamp
  | CbDeadline generation => endRetention generation
  end.

Class ModuleWorld := {
  readJournal : string -> W -> journal_file * W;
  writeJournal : string -> journalDocument -> W -> option error * W;
  InterfaceByName : string -> W -> option Z * W;
  moduleNow : W -> Z * W;
  callbacks : W -> list (nat * callback) * W;
}.
Context `{MW : !ModuleWorld}.

Definition getM {A} (f : Module -> A) : MM A := gets (fun s => f (mm s)).
Definition setM (f : Module -> Module) : MM unit :=
  modify (fun s => mkMsys (f (mm s)) (mlive s) (mrequests s) (mtrace s)).
Definition note (e : mevent) : MM unit :=
  modify (fun s => mkMsys (mm s) (mlive s) (mrequests s) (mtrace s ++ [e])).
Definition onStore {A} (m : M (ssys W) A) : MM A := fun s =>
  let '(a, l) := m (mlive s) in (a, mkMsys (mm s) l (mrequests s) (mtrace s)).
Definition onOutside {A} (f : W -> A * W) : MM A :=
  onStore (fun s => let '(a, w) := f (sworld s) in (a, mkSsys (store_ s) w (slog s))).
Definition RequestReconcile (reason : string) : MM unit :=
  modify (fun s => mkMsys (mm s) (mlive s) (mrequests s ++ [reason]) (mtrace s)).

Definition updEntry (i : nat) (f : managedSession -> managedSession) : MM unit :=
  setM (fun m => set_sessions (alter f i (m_sessions m)) m).

(** ** Publication (advertise.go) *)

(** [Session.State] *)
Definition stateOf (w : W) (e : managedSession) : SessionState :=
  (snapshotLocked (mkBsys (ms_sess e) (mkFsys (ms_fib e) w []) [])).1.

Definition publish (connectionID : string) : MM unit :=
  live ← getM m_live;
  if negb live then mret tt
  else
    states ← gets (fun s => stateOf (sworld (mlive s)) <$>
      filter (fun e => Key (se_ref (ms_cfg e)) = connectionID) (m_sessions (mm s)));
    onStore (SetBGPSessions connectionID states).

Definition state_changed (previous : option SessionState) (st : SessionState) : bool :=
  match previous with
  | None => Established st || negb (bool_decide (Accepted st = [])) || negb (bool_decide (Retained st = []))
  | Some p =>
      negb (Bool.eqb (Established st) (Established p)) || negb (bool_decide (Accepted st = Accepted p))
      || negb (bool_decide (Retained st = Retained p))
  end.

Definition listener (i : nat) (st : SessionState) : MM unit :=
  e ← getM (fun m => m_sessions m !! i);
  match e with
  | None => mret tt
  | Some e =>
      publish (Key (se_ref (ms_cfg e))) ;;
      updEntry i (set_seen st) ;;
      whenM (state_changed (ms_seen e) st)
        (RequestReconcile ("bgp session " +:+ sc_Name (se_Config (ms_cfg e)) +:+ " changed"))
  end.

(** ** Calling a session *)

(** A method of session [i] runs with the session's mutex; its listener hears the states it
    delivers. *)
Definition onSession {A} (none : A) (i : nat) (m : M bsys A) : MM A := fun s =>
  match m_sessions (mm s) !! i with
  | None => (none, s)
  | Some e =>
      let '(a, b) := m (mkBsys (ms_sess e) (mkFsys (ms_fib e) (sworld (mlive s)) []) []) in
      let s := mkMsys (set_sessions (<[i := set_session (sess b) (fib (bfib b)) e]> (m_sessions (mm s))) (mm s))
                 (mkSsys (store_ (mlive s)) (fworld (bfib b)) (slog (mlive s))) (mrequests s)
                 (mtrace s ++ (SessionRoute i <$> fops (bfib b))) in
      let delivered := omap (fun ev => match ev with StateDelivered st => Some st | _ => None end) (blog b) in
      (forM delivered (listener i) ;; mret a) s
  end.

Definition others : MM unit :=
  cbs ← onOutside callbacks;
  forM cbs (fun '(i, cb) => onSession tt i (run_callback cb)).

Definition call {A} (none : A) (i : nat) (m : M bsys A) : MM A := others ;; onSession none i m.

(** [entry.session.State()], nil when there is no such session. *)
Definition readState (i : nat) : MM (option SessionState) :=
  others ;; gets (fun s => stateOf (sworld (mlive s)) <$> m_sessions (mm s) !! i).

(** ** The journal (journal.go) *)

Definition persistJournal (d : journalDocument) : MM (option error) :=
  cfg ← getM m_cfg;
  r ← onOutside (writeJournal (StateFile cfg) d);
  note (JournalWrote d (bool_decide (r = None))) ;;
  match r with
  | Some e => mret (Some ("write the session route journal: " +:+ e))
  | None => setM (set_journal d) ;; mret None
  end.

Definition persistOwners (owners : list routeOwner) : MM (option error) :=
  retaining ← getM m_retaining; persistJournal (mkJournal owners retaining).

Definition persistRetaining (retaining : list retention) : MM (option error) :=
  owners ← getM m_owners; persistJournal (mkJournal owners retaining).

Definition recordOwner (o : routeOwner) : MM (option error) :=
  owners ← getM m_owners;
  if bool_decide (o ∈ owners) then mret None else persistOwners (owners ++ [o]).

Definition configured_owners (m : Module) : list routeOwner := (fun e => sessionOwner (ms_cfg e)) <$> m_sessions m.

Definition releaseRemovedOwners : MM (option error) :=
  configured ← getM configured_owners;
  owners ← getM m_owners;
  let kept := filter (fun o => o ∈ configured) owners in
  if bool_decide (length kept = length owners) then mret None else persistOwners kept.

(** ** Restart (restart.go) *)

Definition deadline_in (records : list retention) (o : routeOwner) (now : Z) : option Z :=
  ret_Deadline <$> List.find (fun r => bool_decide (ret_owner r = o) && (now <? ret_Deadline r)) records.

Definition retentionDeadline (records : list retention) (cfg : SessionEntry) (now : Z) : option Z :=
  if GracefulRestartSeconds (se_Config cfg) =? 0 then None else deadline_in records (sessionOwner cfg) now.

Definition retainedOwner (records : list retention) (o : routeOwner) (now : Z) : bool :=
  existsb (fun r => bool_decide (ret_owner r = o) && (now <? ret_Deadline r)) records.

(** The record of one session that stops at [now]. *)
Definition shutdown_record (now : Z) (records : list retention) (i : nat) : MM (list retention) :=
  e ← getM (fun m => m_sessions m !! i);
  match e with
  | None => mret records
  | Some e =>
      let cfg := ms_cfg e in
      let restart := GracefulRestartSeconds (se_Config cfg) in
      if restart =? 0 then mret records
      else
        up ← (if ms_running e then st ← readState i; mret (from_option Established false st) else mret false);
        if up : bool then
          negotiated ← call false i GracefulRestartNegotiated;
          mret (if negotiated : bool then records ++ [mkRetention (sessionOwner cfg) (now + restart * Second)] else records)
        else
          journal ← getM m_retaining;
          mret (match retentionDeadline journal cfg now with
                | Some deadline => records ++ [mkRetention (sessionOwner cfg) deadline]
                | None => records
                end)
  end.

Definition indices (m : Module) : list nat := seq 0 (length (m_sessions m)).

Definition persistShutdownRetention (now : Z) : MM (list routeOwner) :=
  ixs ← getM indices;
  records ← foldM (shutdown_record now) [] ixs;
  journal ← getM m_retaining;
  if bool_decide (length records = 0%nat) && bool_decide (length journal = 0%nat) then mret []
  else
    r ← persistRetaining records;
    match r with
    | Some _ => mret []
    | None => mret (ret_owner <$> records)
    end.

(** Whether the deadline still protects routes: the first session of that owner decides. *)
Fixpoint protects (record : retention) (ixs : list nat) : MM bool :=
  match ixs with
  | [] => mret false
  | i :: ixs =>
      e ← getM (fun m => m_sessions m !! i);
      match e with
      | None => protects record ixs
      | Some e =>
          if bool_decide (sessionOwner (ms_cfg e) <> ret_owner record)
             || (GracefulRestartSeconds (se_Config (ms_cfg e)) =? 0)
          then protects record ixs
          else if negb (ms_running e) then mret true
          else st ← readState i; mret (negb (bool_decide (from_option Retained [] st = [])))
      end
  end.

Definition pruneRetention (now : Z) : MM (option error) :=
  records ← getM m_retaining;
  ixs ← getM indices;
  kept ← foldM (fun kept record =>
           keep ← (if now <? ret_Deadline record then protects record ixs else mret false);
           mret (if keep : bool then kept ++ [record] else kept)) [] records;
  if bool_decide (length kept = length records) then mret None else persistRetaining kept.

Definition retainRoutes (i : nat) (now : Z) : MM unit :=
  e ← getM (fun m => m_sessions m !! i);
  journal ← getM m_retaining;
  match e with
  | None => mret tt
  | Some e =>
      match retentionDeadline journal (ms_cfg e) now with
      | None => mret tt
      | Some deadline =>
          r ← call None i (KeepRoutes deadline);
          match r with
          | Some _ => mret tt
          | None => updEntry i (fun e => set_run (ms_running e) (ms_transport e)
                      (deadline - HoldSeconds (se_Config (ms_cfg e)) * Second) e)
          end
      end
  end.

Definition clearConnectBy (e : managedSession) : managedSession := set_run (ms_running e) (ms_transport e) zero_time e.

Definition connectLocked (i : nat) : MM (option error) :=
  r ← call None i Connect;
  match r with
  | Some e => mret (Some ("connect bgp session to its peer: " +:+ e))
  | None => updEntry i clearConnectBy ;; mret None
  end.

Definition connectWhenDue (i : nat) (now : Z) : MM (option error) :=
  by_ ← getM (fun m => from_option connectBy zero_time (m_sessions m !! i));
  if is_zero by_ || (now <? by_) then mret None else connectLocked i.

Definition down (e : managedSession) : managedSession := set_run false "" zero_time e.

Definition stopRetainingLocked (i : nat) (now : Z) : MM unit :=
  note (SessionRetained i now) ;; call None i StopRetaining ;; updEntry i down ;; note (SessionDown i).

Definition ipv6PathEvaluated (snapshot : Snapshot) (id : string) : bool :=
  match Connections snapshot !! id with
  | Some c => let state := pv_State (path_Verdict (fs_Path (cs_IPv6 c))) in
              bool_decide (state = PathReady) || bool_decide (state = PathUnavailable)
  | None => false
  end.

(** ** Reconciliation (reconcile.go) *)

Definition stopLocked (i : nat) : MM unit :=
  up ← getM (fun m => from_option ms_running false (m_sessions m !! i));
  if negb up then mret tt
  else call [] i Stop ;; updEntry i down ;; note (SessionDown i).

(** The empty text: the session cannot run. *)
Definition sessionTransport (cfg : SessionEntry) : MM (res string) :=
  link ← onOutside (InterfaceByName (ref_Iface (se_ref cfg)));
  match link with
  | None => mret (Ok "")
  | Some index =>
      if bool_decide (EndpointDest cfg = ""%string) then mret (Ok ("index=" +:+ itoa index))
      else
        listed ← onOutside (ListProtocolRoutes familyV4 (EndpointTable cfg) TunnelEndpointRouteProtocol);
        match listed with
        | inr e => mret (Err ("read tunnel endpoint routes: " +:+ ke_text e))
        | inl routes =>
            mret (Ok (match List.find (fun r => bool_decide (cr_Dest r = EndpointDest cfg)) routes with
                      | Some r => "index=" +:+ itoa index +:+ " endpoint=" +:+ cr_Dev r +:+ " via " +:+ cr_Via r
                      | None => ""
                      end))
        end
  end.

Definition reconcileSession (i : nat) (now : Z) : MM (option error) :=
  e ← getM (fun m => m_sessions m !! i);
  match e with
  | None => mret None
  | Some e =>
      t ← sessionTransport (ms_cfg e);
      match t with
      | Err err => mret (Some err)
      | Ok transport =>
          whenM (ms_running e && negb (bool_decide (transport = ms_transport e))) (stopLocked i) ;;
          running ← getM (fun m => from_option ms_running false (m_sessions m !! i));
          if running : bool then
            connectErr ← connectWhenDue i now;
            call tt i RefreshRoutes ;;
            mret connectErr
          else if bool_decide (transport = ""%string) then mret None
          else
            r ← recordOwner (sessionOwner (ms_cfg e));
            match r with
            | Some err => mret (Some err)
            | None =>
                r ← call None i Start;
                match r with
                | Some err => mret (Some ("start bgp session " +:+ sc_Name (se_Config (ms_cfg e)) +:+ ": " +:+ err))
                | None =>
                    updEntry i (fun e => set_run true transport (connectBy e) e) ;;
                    note (SessionUp i) ;;
                    connectWhenDue i now
                end
            end
      end
  end.

Definition configured (cfg : ModuleConfig) (route : CurrentRoute) : bool :=
  existsb (fun c => bool_decide (cfr_Interface c = cr_Dev route) && (cfr_Metric c =? cr_Metric route)
    && bool_decide (cfr_Dest c = cr_Dest route) && (bool_decide (cfr_Via c = ""%string) || bool_decide (cfr_Via c = cr_Via route)))
    (ConfiguredRoutes cfg).

(** The first running session of the route's interface and metric that accepts it; the
    states read on the way are returned. *)
Fixpoint accepting (prefix : Prefix) (route : CurrentRoute) (asked : list (nat * SessionState)) (ixs : list nat) :
    MM (bool * list (nat * SessionState)) :=
  match ixs with
  | [] => mret (false, asked)
  | i :: ixs =>
      e ← getM (fun m => m_sessions m !! i);
      match e with
      | None => accepting prefix route asked ixs
      | Some e =>
          if negb (ms_running e) || bool_decide (ref_Iface (se_ref (ms_cfg e)) <> cr_Dev route)
             || negb (RouteMetric (se_Config (ms_cfg e)) =? cr_Metric route)
          then accepting prefix route asked ixs
          else
            st ← readState i;
            match st with
            | None => accepting prefix route asked ixs
            | Some st =>
                if bool_decide (Masked prefix ∈ Accepted st) then mret (true, asked ++ [(i, st)])
                else accepting prefix route (asked ++ [(i, st)]) ixs
            end
      end
  end.

Definition accepts (route : CurrentRoute) : MM (bool * list (nat * SessionState)) :=
  match ParsePrefix (cr_Dest route) with
  | None => mret (false, [])
  | Some prefix => ixs ← getM indices; accepting prefix route [] ixs
  end.

Definition sweep_route (now : Z) (errs : list error) (listed : CurrentRoute) : MM (list error) :=
  m ← getM id;
  let owner := mkOwner (cr_Dev listed) (cr_Metric listed) in
  if negb (bool_decide (owner ∈ m_owners m)) || retainedOwner (m_retaining m) owner now then mret errs
  else
    let route := with_dest (listed_dest familyV6 listed) listed in
    a ← accepts route;
    if fst a || configured (m_cfg m) route then mret errs
    else
      let stale := mkRouteSpec familyV6 (cr_Dest route) (cr_Via route) (cr_Dev route) RT_TABLE_MAIN
                     (cr_Metric route) RTPROT_BGP in
      r ← onOutside (DeleteTableRoute stale);
      note (Swept stale now (snd a) (match r with None => true | Some _ => false end)) ;;
      mret (match r with
            | Some e => errs ++ ["remove stale BGP route " +:+ cr_Dest route +:+ " on " +:+ cr_Dev route +:+ ": " +:+ ke_text e]
            | None => errs
            end).

Definition sweepStaleRoutes (now : Z) : MM (list error) :=
  owners ← getM m_owners;
  if bool_decide (length owners = 0%nat) then mret []
  else
    listed ← onOutside (ListProtocolRoutes familyV6 RT_TABLE_MAIN RTPROT_BGP);
    match listed with
    | inr e => mret ["read main-table BGP routes: " +:+ ke_text e]%string
    | inl routes =>
        errs ← foldM (sweep_route now) [] routes;
        if bool_decide (length errs = 0%nat) then r ← releaseRemovedOwners; mret (option_list r) else mret errs
    end.

Definition Reconcile : MM (list error) :=
  stopped ← getM m_stopped;
  if stopped : bool then mret []
  else
    now ← onOutside moduleNow;
    ixs ← getM indices;
    errs ← foldM (fun errs i => r ← reconcileSession i now; mret (errs ++ option_list r)) [] ixs;
    pruned ← pruneRetention now;
    swept ← sweepStaleRoutes now;
    keys ← getM (fun m => (fun e => Key (se_ref (ms_cfg e))) <$> m_sessions m);
    forM keys publish ;;
    mret (errs ++ option_list pruned ++ swept).

(** ** Readiness (advertise.go) *)

Definition ipv6Ready (snapshot : Snapshot) (id : string) : bool :=
  match Connections snapshot !! id with
  | Some c => bool_decide (Readiness (cs_IPv6 c) = readinessReady)
  | None => false
  end.

Definition backupActive (snapshot : Snapshot) (backup : gmap Prefix (list string)) : gmap Prefix bool :=
  (fun ids => negb (existsb (ipv6Ready snapshot) ids)) <$> backup.

Definition advertise_one (snapshot : Snapshot) (i : nat) : MM unit :=
  e ← getM (fun m => m_sessions m !! i);
  match e with
  | None => mret tt
  | Some e =>
      if negb (ms_running e) then mret tt
      else
        let key := Key (se_ref (ms_cfg e)) in
        errs ← call [] i (SetAdvertisement (ipv6Ready snapshot key) (backupActive snapshot (BackupFor (ms_cfg e))));
        whenM (bool_decide (length errs = 0%nat) && negb (is_zero (connectBy e)) && ipv6PathEvaluated snapshot key)
          (connectLocked i ;; mret tt) ;;
        publish key
  end.

Definition OnFamilyReadiness : MM unit :=
  live ← getM m_live;
  if negb live then mret tt
  else
    snapshot ← onStore TakeSnapshot;
    ixs ← getM indices;
    forM ixs (advertise_one snapshot).

(** ** Start and shutdown (module.go) *)

Fixpoint newSessions (cfgs : list SessionEntry) : MM (option error) :=
  match cfgs with
  | [] => mret None
  | cfg :: cfgs =>
      match NewSession (session_config cfg) with
      | Err e => mret (Some ("bgp_sessions: connection " +:+ Key (se_ref cfg) +:+ ": " +:+ e))
      | Ok (x, f) =>
          setM (fun m => set_sessions (m_sessions m ++ [mkManaged cfg x f None false "" zero_time]) m) ;;
          newSessions cfgs
      end
  end.

Definition Init : MM init_result :=
  cfg ← getM m_cfg;
  if bool_decide (StateFile cfg = ""%string) then
    mret (match mc_Sessions cfg with
          | _ :: _ => InitErr "bgp_sessions: a configured bgp-session requires [ifmgr.modules.bgp_sessions] state_file"
          | [] => InitDisabled "bgp_sessions: no session and no state_file"
          end)
  else
    file ← onOutside (readJournal (StateFile cfg));
    let d := (loadJournal file).1 in
    note (JournalLoaded d) ;;
    setM (set_journal d) ;;
    r ← newSessions (mc_Sessions cfg);
    match r with
    | Some e => mret (InitErr e)
    | None =>
        now ← onOutside moduleNow;
        ixs ← getM indices;
        forM ixs (fun i =>
          retainRoutes i now ;;
          key ← getM (fun m => from_option (fun e => Key (se_ref (ms_cfg e))) ""%string (m_sessions m !! i));
          publish key) ;;
        mret InitOk
    end.

Definition stopOnShutdown : MM unit :=
  setM set_stopped ;;
  now ← onOutside moduleNow;
  retained ← persistShutdownRetention now;
  ixs ← getM indices;
  forM ixs (fun i =>
    e ← getM (fun m => m_sessions m !! i);
    match e with
    | None => mret tt
    | Some e => if ms_running e && bool_decide (sessionOwner (ms_cfg e) ∈ retained)
                then stopRetainingLocked i now else stopLocked i
    end).

Definition ForwardingFailureImpact : FState := not_forwarding.

(** [New] with the configuration of this module, or none. *)
Definition New (cfg : option ModuleConfig) (live : bool) : Module :=
  mkModule (default (mkModuleConfig [] "" []) cfg) live [] [] [] false.
End Module.
