(* ===== verification/BgpModuleProps.v ===== *)
(** * The journal and the routes of the BGP sessions

    In every interleaving of the module's operations with the callbacks of its sessions: a
    route is written only under an owner the journal already holds, so a process that starts
    after a crash finds the owner of every route left behind; a sweep deletes only routes
    nobody vouches for; and a session stops with its routes in the kernel only when the
    journal protects them. *)

From S2P Require Import Prelude GoStrings Effects NptPolicy Intent Observation BgpConfig.
From S2P Require Import Tier Notify Health WanState Readiness Daemon BgpFib BgpSession BgpSessionProps BgpModule.

Local Open Scope Z_scope.

(** ** What a stopped session does *)

Section Session.
Context {W : Type} `{PT : !PrefixText} `{RW : !RouteWriter W} `{MO : !MapOrder W} `{GB : !GoBGP W} `{BS : !BgpServer W}.

Definition deletes (op : kop) : Prop := match op with KDeleted _ _ => True | KWrote _ _ => False end.

(** The installer asks the kernel for deletions only. *)
Definition prunes (f f' : fsys W) : Prop := exists l, fops f' = fops f ++ l /\ Forall deletes l.

#[global] Instance prunes_preorder : PreOrder prunes.
Proof.
  split; [intros f; exists []; by rewrite app_nil_r|]. intros f1 f2 f3 (l & H1 & F1) (l' & H2 & F2).
  exists (l ++ l'). rewrite H2, H1, app_assoc. split; [done|by apply Forall_app].
Qed.

Lemma prunes_same f f' : fops f' = fops f -> prunes f f'.
Proof. intros H. exists []. by rewrite app_nil_r. Qed.

Lemma prunes_readKernel {A} (f : W -> A * W) : sat (readKernel f) prunes.
Proof. intros s. apply prunes_same. unfold readKernel. by destruct (f _). Qed.
Lemma prunes_ordered {A} (l : list A) : sat (ordered l) prunes.
Proof. intros s. by apply prunes_same. Qed.
Lemma prunes_setDesired f : sat (setDesired f) prunes.
Proof. intros s. by apply prunes_same. Qed.
Lemma prunes_delete r : sat (deleteTableRoute r) prunes.
Proof. intros s. unfold deleteTableRoute. destruct (DeleteTableRoute r _). eexists. split; [done|]. by repeat constructor. Qed.
Lemma prunes_getFib {A} (f : FIB -> A) : sat (getFib f) prunes.
Proof. intros s. by apply prunes_same. Qed.

Ltac prune_steps := sat_steps ltac:(first
  [apply prunes_readKernel | apply prunes_ordered | apply prunes_setDesired | apply prunes_delete | apply prunes_getFib]).

Lemma prunes_deletePrefix p : sat (deletePrefix p) prunes.
Proof. unfold deletePrefix, deleteRoute. prune_steps. Qed.
Lemma prunes_WithdrawExact peer p : sat (WithdrawExact peer p) prunes.
Proof. unfold WithdrawExact. sat_steps ltac:(first [apply prunes_setDesired|apply prunes_deletePrefix]). Qed.
Lemma prunes_count cfg listings counts : sat (count_listings cfg listings counts) prunes.
Proof.
  revert counts. induction listings as [|[t f] l IH]; intros counts; cbn [count_listings]; [apply sat_ret; typeclasses eauto|].
  apply sat_bind; [typeclasses eauto|apply prunes_readKernel|]. intros [routes|e]; [apply IH|apply sat_ret; typeclasses eauto].
Qed.
Lemma prunes_Installed : sat Installed prunes.
Proof. unfold Installed, installedCounts. sat_steps ltac:(first [apply prunes_count|apply prunes_getFib]). Qed.

(** A session that is not started stays so, and only deletes routes. *)
Definition idle (s s' : bsys) : Prop :=
  s_started (sess s) = false -> s_started (sess s') = false /\ prunes (bfib s) (bfib s').

#[global] Instance idle_preorder : PreOrder idle.
Proof.
  split; [by intros s H|]. intros s1 s2 s3 H12 H23 H1. destruct (H12 H1) as [H2 P2]. destruct (H23 H2) as [H3 P3].
  split; [done|by etransitivity].
Qed.

Lemma idle_setS f : (forall x, s_started (f x) = s_started x) -> sat (setS f) idle.
Proof. intros Hf s Hs. cbn. by rewrite Hf. Qed.
Lemma idle_emit e : sat (emit e) idle.
Proof. by intros s Hs. Qed.
Lemma idle_onFib {A} (m : M (fsys W) A) : sat m prunes -> sat (onFib m) idle.
Proof. intros Hm s Hs. specialize (Hm (bfib s)). unfold onFib. by destruct (m (bfib s)). Qed.

Lemma idle_started {A} (a : A) (m : M bsys A) : sat (up ← getS s_started; if negb up then mret a else m) idle.
Proof. intros s Hs. by rewrite bind_getS, Hs. Qed.

Ltac idle_steps := sat_steps ltac:(first
  [ apply idle_setS; done | apply idle_emit
  | apply idle_onFib; first [apply prunes_readKernel|apply prunes_ordered|apply prunes_WithdrawExact|apply prunes_Installed] ]).

Lemma idle_enqueue : sat enqueueChangeLocked idle.
Proof. unfold enqueueChangeLocked, snapshotLocked, getS. idle_steps. Qed.
Lemma idle_deliver : sat deliverChanges idle.
Proof. unfold deliverChanges, getS. idle_steps. Qed.
Lemma idle_dropRetained : sat dropRetainedLocked idle.
Proof. unfold dropRetainedLocked, stopRetainTimerLocked, getS. idle_steps. Qed.

Lemma idle_endRetention generation : sat (endRetention generation) idle.
Proof.
  unfold endRetention. intros s Hs. rewrite !bind_getS. destruct (negb _ || _); [done|]. rewrite bind_getS, Hs. cbn [whenM].
  match goal with |- context [(?m s).2] => enough (sat m idle) as H by (apply H, Hs) end.
  unfold endRetentionLocked, getS. sat_steps ltac:(first [apply idle_enqueue|apply idle_deliver|apply idle_dropRetained]).
Qed.

Lemma idle_KeepRoutes deadline : sat (KeepRoutes deadline) idle.
Proof.
  unfold KeepRoutes, getS.
  sat_steps ltac:(first [apply idle_enqueue|apply idle_deliver|apply idle_setS; done|apply idle_onFib, prunes_Installed]).
Qed.

(** ** A session between two calls of the module *)

(** The interface and metric a session of this configuration writes with. *)
Definition own_of (c : SessionConfig) : routeOwner := mkOwner (sc_Interface c) (RouteMetric c).

Definition op_of (o : routeOwner) (op : kop) : Prop :=
  match op with KWrote r _ => mkOwner (rs_Dev r) (rs_Metric r) = o | KDeleted _ _ => True end.

(** The session of configuration [c] keeps its invariant; or, if [kept], it was stopped with
    its routes left in the kernel. *)
Definition binv (c : SessionConfig) (kept : Prop) (b : bsys) : Prop :=
  s_cfg (sess b) = c /\ (sinv b \/ kept /\ s_started (sess b) = false /\ retaining (sess b) = false).

(** What the module may rely on when it calls a method. *)
Definition tame {A} (kept : Prop) (m : M bsys A) : Prop :=
  forall c b, binv c kept b -> fops (bfib b) = [] ->
    let b' := (m b).2 in
    binv c kept b' /\ Forall (op_of (own_of c)) (fops (bfib b')) /\
    (s_started (sess b) = false -> s_started (sess b') = false /\ Forall deletes (fops (bfib b'))).

Lemma sinv_ops (b : bsys) : sinv b -> Forall (op_of (own_of (s_cfg (sess b)))) (fops (bfib b)).
Proof.
  intros [_ Hl]. eapply Forall_impl; [exact (l_ops _ _ _ Hl)|]. intros [r ok|r ok]; cbn; [|done].
  intros (-> & _ & -> & _). done.
Qed.

Lemma sinv_fresh (b : bsys) w : sinv b -> sinv (mkBsys (sess b) (mkFsys (fib (bfib b)) w []) []).
Proof. intros [Hs []]. split; [done|]. by split. Qed.

Lemma binv_fresh c kept (b : bsys) w : binv c kept b -> binv c kept (mkBsys (sess b) (mkFsys (fib (bfib b)) w []) []).
Proof. intros [Hc [Hi|Hi]]; (split; [done|]); [left; by apply sinv_fresh|by right]. Qed.

Lemma sinv_stopped (b : bsys) : sinv b -> s_started (sess b) = false -> desired (fib (bfib b)) = ∅.
Proof.
  intros [Hs Hl] Hst. destruct (i_stopped _ Hs Hst) as (Ha & _). apply map_empty. intros k.
  destruct (desired (fib (bfib b)) !! k) as [e|] eqn:He; [|done]. destruct (l_keys _ _ _ Hl k e He) as (_ & p & [Hcan _] & ->).
  pose proof (l_match _ _ _ Hl p Hcan (not_nowhere p)) as H. rewrite He, Ha, lookup_empty in H. done.
Qed.

Lemma tame_keeps {A} kept (m : M bsys A) :
  (forall c key, sat m (keeps c key)) -> sat m idle ->
  (kept -> forall b, s_started (sess b) = false -> retaining (sess b) = false -> (m b).2 = b) -> tame kept m.
Proof.
  intros Hk Hidle Hret c b [Hc Hi] Hops. cbv zeta.
  assert (s_started (sess b) = false -> s_started (sess (m b).2) = false /\ Forall deletes (fops (bfib (m b).2))) as Hquiet.
  { intros Hst. destruct (Hidle b Hst) as (? & l & Hl & HF). split; [done|]. by rewrite Hl, Hops. }
  destruct Hi as [Hi|(HK & Hst & Hr)].
  - destruct (Hk c (peerKey (sess b)) b) as [Hi' [Hc' _]]; [done|done|]. split_and!; [by split; [|left]| |done].
    rewrite <- Hc'. by apply sinv_ops.
  - rewrite (Hret HK b Hst Hr) in *. split_and!; [by split; [|right]| |done]. by rewrite Hops.
Qed.

Lemma tame_started {A} kept (a : A) (m : M bsys A) :
  (forall c key, sat (up ← getS s_started; if negb up then mret a else m) (keeps c key)) ->
  tame kept (up ← getS s_started; if negb up then mret a else m).
Proof. intros H. apply tame_keeps; [done|apply idle_started|]. intros _ b Hst _. by rewrite bind_getS, Hst. Qed.

Lemma tame_Connect kept : tame kept Connect.
Proof. apply tame_started. intros. apply keeps_Connect. Qed.
Lemma tame_Stop kept : tame kept Stop.
Proof. apply tame_started. intros. apply keeps_Stop. Qed.
Lemma tame_Refresh kept : tame kept RefreshRoutes.
Proof. apply tame_started. intros. apply keeps_RefreshRoutes. Qed.
Lemma tame_SetAdvertisement kept eligible backup : tame kept (SetAdvertisement eligible backup).
Proof. apply tame_started. intros. apply keeps_SetAdvertisement. Qed.

Lemma tame_gets {A} kept (f : bsys -> A) : tame kept (gets f).
Proof.
  apply tame_keeps; [|intros s Hs; by split|done]. intros c key s. by intros.
Qed.

Lemma tame_callback kept cb : tame kept (run_callback cb).
Proof.
  destruct cb as [paths|ipv6|is_state state offers t|generation]; cbn [run_callback].
  - apply tame_started. intros. apply keeps_handleBestPaths.
  - apply tame_keeps; [intros; apply keeps_handleEndOfRIB| |].
    + unfold handleEndOfRIB. apply sat_if; [apply sat_ret; typeclasses eauto|apply idle_started].
    + intros _ b Hst _. unfold handleEndOfRIB. destruct (negb ipv6); [done|]. by rewrite bind_getS, Hst.
  - apply tame_keeps; [intros; apply keeps_handlePeerEvent| |].
    + unfold handlePeerEvent. apply sat_if; [apply sat_ret; typeclasses eauto|apply idle_started].
    + intros _ b Hst _. unfold handlePeerEvent. destruct (negb is_state); [done|]. by rewrite bind_getS, Hst.
  - apply tame_keeps; [intros; apply keeps_endRetention|apply idle_endRetention|].
    intros _ b _ Hr. unfold endRetention. by rewrite !bind_getS, Hr.
Qed.

Lemma tame_KeepRoutes (kept : Prop) deadline : ~ kept -> tame kept (KeepRoutes deadline).
Proof. intros Hn. apply tame_keeps; [intros; apply keeps_KeepRoutes|apply idle_KeepRoutes|done]. Qed.

(** Starting writes no route; it fails only on a session that stays stopped. *)
Lemma Start_spec c (b : bsys) : binv c False b -> fops (bfib b) = [] ->
  let r := Start b in
  binv c False r.2 /\ fops (bfib r.2) = [] /\ (r.1 <> None -> s_started (sess r.2) = false).
Proof.
  intros [Hc [Hi|[[] _]]] Hops. cbv zeta. destruct (keeps_Start c (peerKey (sess b)) b) as [Hi' [Hc' _]]; [done|done|].
  split; [by split; [|left]|]. unfold Start. rewrite bind_getS. destruct (s_started (sess b)) eqn:Hb; [done|].
  rewrite bind_getS. generalize (negb (retaining (sess b))). intros connect.
  assert (sat (configureServer connect) (fun s s' => fops (bfib s') = fops (bfib s) /\ s_started (sess s') = s_started (sess s))) as Hconf.
  { unfold configureServer, addPeer, onServer, getS.
    assert (PreOrder (fun s s' : bsys => fops (bfib s') = fops (bfib s) /\ s_started (sess s') = s_started (sess s)))
      by (split; [done|intros s1 s2 s3 [? ?] [? ?]; split; congruence]).
    assert (forall B (f : W -> B * W), sat (onFib (readKernel f))
      (fun s s' : bsys => fops (bfib s') = fops (bfib s) /\ s_started (sess s') = s_started (sess s))) as Hread
      by (intros B f s; unfold onFib, readKernel; by destruct (f _)).
    sat_steps ltac:(first [apply Hread|by intros s]). }
  change (wp (startServerLocked connect) (fun r s => fops (bfib s) = [] /\ (r <> None -> s_started (sess s) = false)) b).
  unfold startServerLocked. apply wp_bind. unfold wp at 1. specialize (Hconf b). destruct (configureServer connect b) as [[e|] b1];
    cbn [fst snd] in *; destruct Hconf as [Hf Hs]; apply wp_bind; unfold wp at 1.
  - unfold onServer, onFib, readKernel. destruct (StopServer _). apply wp_bind, wp_modify, wp_ret. cbn. by rewrite Hf, Hs.
  - apply wp_bind, wp_modify, wp_ret. cbn. split; [by rewrite Hf|done].
Qed.

Lemma wp_skip {A B} (m : M bsys A) (k : A -> M bsys B) Q s : (forall a s', wp (k a) Q s') -> wp (m ≫= k) Q s.
Proof. intros H. apply wp_bind. unfold wp at 1. apply H. Qed.

(** What remains after the session was reset. *)
Lemma reset_idle {A} (m : M bsys A) s : sat m idle -> wp (resetStoppedLocked ;; m) (fun _ s => s_started (sess s) = false) s.
Proof. intros Hm. apply wp_bind, wp_modify. unfold wp. by apply Hm. Qed.

Lemma Stop_stops (b : bsys) : s_started (sess (Stop b).2) = false.
Proof.
  unfold Stop. rewrite bind_getS. destruct (s_started (sess b)) eqn:Hb; cbn [negb]; [|done].
  match goal with |- context [(?m b).2] => change (wp m (fun _ s => s_started (sess s) = false) b) end.
  do 6 (apply wp_skip; intros ? ?). apply reset_idle.
  sat_steps ltac:(first [apply idle_enqueue|apply idle_deliver]).
Qed.

(** A session with graceful restart stops without touching the kernel. *)
Lemma StopRetaining_spec c kept (b : bsys) : binv c kept b -> fops (bfib b) = [] -> GracefulRestartSeconds c <> 0 ->
  let b' := (StopRetaining b).2 in
  binv c True b' /\ fops (bfib b') = [] /\ s_started (sess b') = false.
Proof.
  intros [Hc Hi] Hops Hg. cbv zeta. unfold StopRetaining. rewrite bind_getS, Hc. replace (_ =? 0) with false by lia.
  rewrite bind_getS. destruct (s_started (sess b)) eqn:Hb; cbn [negb].
  2: { cbn. split_and!; [|done|done]. split; [done|]. destruct Hi as [Hi|(_ & _ & Hi)]; [by left|by right]. }
  match goal with |- context [(?m b).2] => set (prog := m) end.
  assert (wp prog (fun _ s => s_cfg (sess s) = c /\ fops (bfib s) = [] /\ s_started (sess s) = false /\ retaining (sess s) = false) b) as (? & ? & ? & ?).
  2: { split_and!; [|done|done]. split; [done|]. right. done. }
  subst prog. apply wp_bind, wp_modify, wp_bind. unfold wp at 1, onServer, onFib, readKernel. destruct (StopBgpGraceful _) as [r w].
  cbn [fst snd]. apply wp_bind, wp_modify, wp_bind, wp_gets, wp_bind, wp_modify. cbn [sess].
  set (same := fun s s' : bsys => fops (bfib s') = fops (bfib s) /\ s_cfg (sess s') = s_cfg (sess s) /\
    s_started (sess s') = s_started (sess s) /\ retaining (sess s') = retaining (sess s)).
  assert (PreOrder same) by (split; [done|intros s1 s2 s3 (?&?&?&?) (?&?&?&?); split_and!; congruence]).
  assert (sat enqueueChangeLocked same) as He by (unfold enqueueChangeLocked, snapshotLocked, getS; sat_steps ltac:(intros s; unfold same; cbn; done)).
  assert (sat deliverChanges same) as Hd by (unfold deliverChanges, getS; sat_steps ltac:(intros s; unfold same; cbn; done)).
  match goal with |- wp ?m _ ?s => assert (sat m same) as Hs by (sat_steps ltac:(first [apply He|apply Hd])); destruct (Hs s) as (Hf & Hc' & Hst & Hr) end.
  unfold wp. rewrite Hf, Hc', Hst, Hr. done.
Qed.

(** *** What is advertised *)

Definition adv (s : bsys) : gset Prefix := advertised (sess s).

(** One export: an error changes nothing, success makes its prefix, and no other, as wanted. *)
Lemma reconcileExport_spec rule wanted s :
  wp (reconcileExportLocked rule wanted) (fun r s' => s_cfg (sess s') = s_cfg (sess s) /\
    adv s' = match r with
             | Some _ => adv s
             | None => if wanted then {[ex_Prefix rule]} ∪ adv s else adv s ∖ {[ex_Prefix rule]}
             end) s.
Proof.
  unfold reconcileExportLocked. apply wp_bind, wp_gets.
  destruct wanted; cbn [negb]; [destruct (exportPath _ _)|destruct (withdrawalPath _)]; try (by apply wp_ret);
    apply wp_bind; unfold wp at 1, onServer, onFib, readKernel;
    match goal with |- context [fst ?x] => destruct x as [[e|] w] eqn:Hw end; cbn [fst snd];
    match type of Hw with (let '(_, _) := (let '(_, _) := ?x in _) in _) = _ => destruct x; injection Hw as -> <- end;
    apply wp_bind, wp_modify; [by apply wp_ret|by apply wp_bind, wp_modify, wp_ret|by apply wp_ret|by apply wp_bind, wp_modify, wp_ret].
Qed.

(** Without an error, exactly the wanted exports are advertised. *)
Lemma SetAdvertisement_exact eligible backup s : NoDup (ex_Prefix <$> Export_ (s_cfg (sess s))) ->
  adv s ⊆ list_to_set (ex_Prefix <$> Export_ (s_cfg (sess s))) ->
  wp (SetAdvertisement eligible backup) (fun errs s' => errs = [] -> forall p, p ∈ adv s' <->
    exists rule, rule ∈ Export_ (s_cfg (sess s)) /\ ex_Prefix rule = p /\
      exportAdvertised (ex_Mode rule) eligible (default false (backup !! p)) = true) s.
Proof.
  intros Hnd Hsub. unfold SetAdvertisement. apply wp_bind, wp_gets. destruct (negb _); [by apply wp_ret|]. apply wp_bind, wp_gets.
  set (rules := Export_ (s_cfg (sess s))) in *. set (want := fun rule => exportAdvertised (ex_Mode rule) eligible (default false (backup !! ex_Prefix rule))).
  eapply wp_mono; [apply (wp_foldM _ (fun dn errs s' => adv s' ⊆ list_to_set (ex_Prefix <$> rules) /\
    (errs = [] -> forall rule, rule ∈ dn -> ex_Prefix rule ∈ adv s' <-> want rule = true)))|].
  - split; [done|]. set_solver.
  - intros dn rule todo errs s1 Hrules [Hs1 Hd]. cbv zeta. apply wp_bind, wp_gets. fold (want rule).
    assert (Hold : forall r, r ∈ dn -> ex_Prefix r <> ex_Prefix rule).
    { intros r Hr Heq. rewrite Hrules, fmap_app in Hnd. apply NoDup_app in Hnd as (_ & Hx & _). apply (Hx (ex_Prefix r)).
      - by apply list_elem_of_fmap_2.
      - rewrite Heq. cbn. set_solver. }
    destruct (Bool.eqb _ _) eqn:Heq.
    + apply wp_ret. split; [done|]. intros He r [Hr|Hr%list_elem_of_singleton]%elem_of_app; [by apply Hd|subst r].
      apply eqb_prop in Heq. rewrite Heq. fold (adv s1). by rewrite bool_decide_eq_true.
    + apply wp_bind. eapply wp_mono; [apply reconcileExport_spec|]. intros r s2 [_ Hadv]. apply wp_ret.
      assert (ex_Prefix rule ∈ ex_Prefix <$> rules) as Hin by (apply list_elem_of_fmap_2; rewrite Hrules; set_solver).
      split; [rewrite Hadv; destruct r, (want rule); set_solver|]. intros [-> Hr]%app_nil. destruct r; [done|].
      intros q [Hq|Hq%list_elem_of_singleton]%elem_of_app; rewrite Hadv.
      * rewrite <- (Hd eq_refl q Hq). specialize (Hold q Hq). destruct (want rule); set_solver.
      * subst q. destruct (want rule); set_solver.
  - intros errs s' [Hs' Hd] He p. split.
    + intros Hp. pose proof (Hs' p Hp) as (rule & -> & Hr)%elem_of_list_to_set%list_elem_of_fmap. exists rule. split_and!; [done|done|]. by apply (Hd He).
    + intros (rule & Hr & <- & Hw). by apply (Hd He).
Qed.
End Session.

(** ** The trace *)

Section Module.
Context `{DT : !DistributionTypes} {W : Type} `{SW : !StoreWorld W}.
Context `{PT : !PrefixText} `{RW : !RouteWriter W} `{MO : !MapOrder W} `{GB : !GoBGP W} `{BS : !BgpServer W} `{MW : !ModuleWorld (W:=W)}.

(** What the journal file holds after the trace: what was loaded, or last written.  A write
    that fails leaves the file as it was. *)
Definition durable_step (d : journalDocument) (ev : mevent) : journalDocument :=
  match ev with
  | JournalLoaded d' => d'
  | JournalWrote d' true => d'
  | _ => d
  end.
Definition durable (tr : list mevent) : journalDocument := fold_left durable_step tr empty_journal.

(** Whether session [i] is up after the trace. *)
Definition up_step (i : nat) (up : bool) (ev : mevent) : bool :=
  match ev with
  | SessionUp j => if bool_decide (j = i) then true else up
  | SessionDown j => if bool_decide (j = i) then false else up
  | _ => up
  end.
Definition up_in (tr : list mevent) (i : nat) : bool := fold_left (up_step i) tr false.

(** Whether session [i] was stopped with its routes left in the kernel. *)
Definition kept_session (tr : list mevent) (i : nat) : Prop := exists now, SessionRetained i now ∈ tr.

(** What holds of an event, given the trace before it. *)
Definition event_ok (cfg : ModuleConfig) (pre : list mevent) (ev : mevent) : Prop :=
  match ev with
  | SessionRoute i (KWrote r _) =>
      up_in pre i = true /\ mkOwner (rs_Dev r) (rs_Metric r) ∈ Owners (durable pre)
  | Swept r now asked _ =>
      let o := mkOwner (rs_Dev r) (rs_Metric r) in
      o ∈ Owners (durable pre) /\ retainedOwner (Retaining (durable pre)) o now = false /\
      (forall c, c ∈ ConfiguredRoutes cfg -> cfr_Interface c = rs_Dev r -> cfr_Metric c = rs_Metric r ->
         cfr_Dest c = rs_Dest r -> cfr_Via c <> ""%string /\ cfr_Via c <> rs_Via r) /\
      (forall i entry p, up_in pre i = true -> mc_Sessions cfg !! i = Some entry -> sessionOwner entry = o ->
         ParsePrefix (rs_Dest r) = Some p -> exists st, (i, st) ∈ asked /\ Masked p ∉ Accepted st)
  | SessionRetained i now =>
      exists entry, mc_Sessions cfg !! i = Some entry /\
        retainedOwner (Retaining (durable pre)) (sessionOwner entry) now = true
  | JournalLoaded _ | JournalWrote _ _ => forall i, ~ kept_session pre i
  | _ => True
  end.

Definition trace_ok (cfg : ModuleConfig) (tr : list mevent) : Prop :=
  forall pre ev post, tr = pre ++ ev :: post -> event_ok cfg pre ev.

Lemma trace_ok_snoc cfg tr ev : trace_ok cfg tr -> event_ok cfg tr ev -> trace_ok cfg (tr ++ [ev]).
Proof.
  intros Ht He pre ev' post Heq. destruct post as [|x post _] using rev_ind.
  - apply app_inj_tail in Heq as [<- <-]. done.
  - rewrite app_comm_cons, app_assoc in Heq. apply app_inj_tail in Heq as [Heq _]. by apply (Ht _ _ post).
Qed.

Lemma durable_app tr l : durable (tr ++ l) = fold_left durable_step l (durable tr).
Proof. apply fold_left_app. Qed.
Lemma up_in_app tr l i : up_in (tr ++ l) i = fold_left (up_step i) l (up_in tr i).
Proof. apply fold_left_app. Qed.

Lemma routes_silent i ops tr : durable (tr ++ (SessionRoute i <$> ops)) = durable tr /\
  forall j, up_in (tr ++ (SessionRoute i <$> ops)) j = up_in tr j.
Proof.
  setoid_rewrite up_in_app. rewrite durable_app. induction ops as [|op ops IH]; [done|exact IH].
Qed.

Lemma trace_ok_routes cfg i ops tr : trace_ok cfg tr ->
  (forall r ok, KWrote r ok ∈ ops -> up_in tr i = true /\ mkOwner (rs_Dev r) (rs_Metric r) ∈ Owners (durable tr)) ->
  trace_ok cfg (tr ++ (SessionRoute i <$> ops)).
Proof.
  intros Ht. induction ops as [|op ops IH] using rev_ind; intros Hops; [by rewrite app_nil_r|].
  rewrite fmap_app, app_assoc. apply trace_ok_snoc.
  - apply IH. intros r ok Hin. apply (Hops r ok). set_solver.
  - destruct (routes_silent i ops tr) as [Hd Hu]. destruct op as [r ok|r ok]; cbn; [|done]. rewrite Hd, Hu. apply (Hops r ok). set_solver.
Qed.

(** ** The invariant *)

Definition entry_ok (tr : list mevent) (i : nat) (e : managedSession) : Prop :=
  exists c, Validated (session_config (ms_cfg e)) = Ok c /\
    forall w, binv c (kept_session tr i) (mkBsys (ms_sess e) (mkFsys (ms_fib e) w []) []).

(** [P]: the sessions that may be started before they are marked as running. *)
Record minv (P : nat -> Prop) (s : msys) : Prop := mkMinv {
  mi_entries : forall i e, m_sessions (mm s) !! i = Some e -> entry_ok (mtrace s) i e;
  mi_cfg : (ms_cfg <$> m_sessions (mm s)) `prefix_of` mc_Sessions (m_cfg (mm s));
  mi_owner : forall i e, m_sessions (mm s) !! i = Some e -> s_started (ms_sess e) = true ->
    sessionOwner (ms_cfg e) ∈ m_owners (mm s);
  mi_running : forall i e, m_sessions (mm s) !! i = Some e -> ~ P i -> s_started (ms_sess e) = true -> ms_running e = true;
  mi_up : forall i, up_in (mtrace s) i = from_option ms_running false (m_sessions (mm s) !! i);
  mi_durable : durable (mtrace s) = mkJournal (m_owners (mm s)) (m_retaining (mm s));
  mi_trace : trace_ok (m_cfg (mm s)) (mtrace s);
  mi_kept : forall i, kept_session (mtrace s) i -> m_stopped (mm s) = true;
}.

Definition none (i : nat) : Prop := False.
Lemma not_none i : ~ none i.
Proof. by intros []. Qed.

(** ** Steps that leave the sessions alone *)

Definition core (e : managedSession) := (ms_cfg e, ms_sess e, ms_fib e, ms_running e).

Definition same_core (s s' : msys) : Prop :=
  core <$> m_sessions (mm s') = core <$> m_sessions (mm s) /\ m_cfg (mm s') = m_cfg (mm s) /\
  m_owners (mm s') = m_owners (mm s) /\ m_retaining (mm s') = m_retaining (mm s) /\
  m_stopped (mm s') = m_stopped (mm s) /\ mtrace s' = mtrace s.

#[local] Instance same_core_preorder : PreOrder same_core.
Proof. split; [done|]. intros s1 s2 s3 (?&?&?&?&?&?) (?&?&?&?&?&?). split_and!; congruence. Qed.

Lemma core_lookup (l l' : list managedSession) i e' : core <$> l' = core <$> l -> l' !! i = Some e' ->
  exists e, l !! i = Some e /\ core e = core e'.
Proof.
  intros H He. apply (f_equal (fun x => x !! i)) in H. rewrite !list_lookup_fmap, He in H.
  destruct (l !! i) as [e|]; [|done]. exists e. split; [done|]. cbn in H. congruence.
Qed.

Lemma core_fmap {B} (f : _ -> B) (l l' : list managedSession) : core <$> l' = core <$> l ->
  (fun e => f (core e)) <$> l' = (fun e => f (core e)) <$> l.
Proof. intros H. apply (f_equal (fmap f)) in H. by rewrite <- !list_fmap_compose in H. Qed.

Lemma minv_same P s s' : same_core s s' -> minv P s -> minv P s'.
Proof.
  intros (Hs & Hc & Ho & Hr & Hst & Ht) [H1 H2 H3 H4 H5 H6 H7 H8]. split; rewrite ?Ht, ?Hc, ?Ho, ?Hr, ?Hst; try done.
  - intros i e' (e & He & Heq)%(core_lookup _ _ _ _ Hs). injection Heq as Hcf Hx Hf _. unfold entry_ok. rewrite <- Hcf, <- Hx, <- Hf. by apply H1.
  - pose proof (core_fmap (fun x => x.1.1.1) _ _ Hs) as H. cbn in H. change (ms_cfg <$> m_sessions (mm s')) with ((fun e : managedSession => ms_cfg e) <$> m_sessions (mm s')). rewrite H. exact H2.
  - intros i e' (e & He & Heq)%(core_lookup _ _ _ _ Hs) Hst'. injection Heq as Hcf Hx _ _. rewrite <- Hcf. apply (H3 i e He). by rewrite Hx.
  - intros i e' (e & He & Heq)%(core_lookup _ _ _ _ Hs) HP Hst'. injection Heq as _ Hx _ <-. apply (H4 i e He HP). by rewrite Hx.
  - intros i. rewrite H5. apply (f_equal (fun x => x !! i)) in Hs. rewrite !list_lookup_fmap in Hs.
    destruct (m_sessions (mm s') !! i), (m_sessions (mm s) !! i); unfold core in *; cbn in *; congruence.
Qed.

Lemma same_getM {A} (f : Module -> A) : sat (getM f) same_core.
Proof. by intros s. Qed.
Lemma same_onStore {A} (m : M (ssys W) A) : sat (onStore m) same_core.
Proof. intros s. unfold onStore. by destruct (m _). Qed.
Lemma same_onOutside {A} (f : W -> A * W) : sat (onOutside f) same_core.
Proof. apply same_onStore. Qed.
Lemma fmap_alter_same {B} (f : managedSession -> B) g i (l : list managedSession) : (forall e, f (g e) = f e) ->
  f <$> alter g i l = f <$> l.
Proof.
  intros Hf. apply list_eq. intros j. rewrite !list_lookup_fmap.
  destruct (decide (j = i)) as [->|Hne]; [rewrite list_lookup_alter_eq|by rewrite list_lookup_alter_ne by congruence].
  destruct (l !! i) as [e|]; cbn; [|done]. by rewrite Hf.
Qed.
Lemma same_updEntry i f : (forall e, core (f e) = core e) -> sat (updEntry i f) same_core.
Proof.
  intros Hf s. split_and!; try done. by apply fmap_alter_same.
Qed.

Lemma same_publish key : sat (publish key) same_core.
Proof. unfold publish. sat_steps ltac:(first [apply same_getM|apply same_onStore]). Qed.
Lemma same_listener i st : sat (listener i st) same_core.
Proof.
  unfold listener. sat_steps ltac:(first [apply same_getM|apply same_publish|by apply same_updEntry|by intros s]).
Qed.

(** ** Steps that leave the journal and the running flags alone *)

Definition flags (m : Module) := (fun e => (ms_cfg e, ms_running e)) <$> m_sessions m.

Definition stable (s s' : msys) : Prop :=
  m_cfg (mm s') = m_cfg (mm s) /\ m_owners (mm s') = m_owners (mm s) /\ m_retaining (mm s') = m_retaining (mm s) /\
  m_stopped (mm s') = m_stopped (mm s) /\ flags (mm s') = flags (mm s) /\
  exists l, mtrace s' = mtrace s ++ l /\ forall i now, SessionRetained i now ∉ l.

Definition steady (s s' : msys) : Prop := minv none s -> minv none s' /\ stable s s'.

Lemma stable_trans s1 s2 s3 : stable s1 s2 -> stable s2 s3 -> stable s1 s3.
Proof.
  intros (?&?&?&?&?&l&Hl&Hk) (?&?&?&?&?&l'&Hl'&Hk'). split_and!; try congruence. exists (l ++ l'). rewrite Hl', Hl, app_assoc. split; [done|].
  intros i now Hin. apply elem_of_app in Hin as [Hin|Hin]; [by apply (Hk i now)|by apply (Hk' i now)].
Qed.
Lemma stable_kept s s' : stable s s' -> forall i, kept_session (mtrace s') i -> kept_session (mtrace s) i.
Proof.
  intros (_&_&_&_&_&l&->&Hk) i (now & [Hin|Hin]%elem_of_app); [by exists now|]. by destruct (Hk i now).
Qed.
Lemma stable_refl s : stable s s.
Proof. split_and!; try done. exists []. rewrite app_nil_r. split; [done|]. intros i now. apply not_elem_of_nil. Qed.

#[local] Instance steady_preorder : PreOrder steady.
Proof.
  split; [intros s Hi; split; [done|apply stable_refl]|]. intros s1 s2 s3 H12 H23 H1.
  destruct (H12 H1) as [Hi2 ?]. destruct (H23 Hi2). split; [done|by eapply stable_trans].
Qed.

Lemma same_stable s s' : same_core s s' -> stable s s'.
Proof.
  intros (Hs&?&?&?&?&Ht). split_and!; try done; [|exists []; rewrite app_nil_r; split; [done|intros i now; apply not_elem_of_nil]].
  exact (core_fmap (fun x => (x.1.1.1, x.2)) _ _ Hs).
Qed.
Lemma steady_same s s' : same_core s s' -> steady s s'.
Proof. intros H Hi. split; [by eapply minv_same|by apply same_stable]. Qed.
Lemma sat_steady_same {A} (m : M msys A) : sat m same_core -> sat m steady.
Proof. intros H s. by apply steady_same. Qed.

(** *** Calls into a session *)

Definition call_state (e : managedSession) (s : msys) : bsys := mkBsys (ms_sess e) (mkFsys (ms_fib e) (sworld (mlive s)) []) [].

(** The module after session [i] ran to [b], before its listener is told. *)
Definition after_call (i : nat) (e : managedSession) (b : bsys) (s : msys) : msys :=
  mkMsys (set_sessions (<[i := set_session (sess b) (fib (bfib b)) e]> (m_sessions (mm s))) (mm s))
    (mkSsys (store_ (mlive s)) (fworld (bfib b)) (slog (mlive s))) (mrequests s) (mtrace s ++ (SessionRoute i <$> fops (bfib b))).

Lemma onSession_spec {A} (a : A) i (m : M bsys A) s e : m_sessions (mm s) !! i = Some e ->
  let b := m (call_state e s) in
  (onSession a i m s).1 = b.1 /\ same_core (after_call i e b.2 s) (onSession a i m s).2.
Proof.
  intros He. cbv zeta. unfold onSession. rewrite He. unfold call_state. destruct (m _) as [r b]. cbn [fst snd].
  change (mkMsys _ _ _ _) with (after_call i e b s). unfold mbind, M_bind.
  match goal with |- context [forM ?l ?f] => assert (sat (forM l f) same_core) as Hl
    by (apply sat_foldM; [typeclasses eauto|intros _ st; apply same_listener]); specialize (Hl (after_call i e b s)) end.
  destruct (forM _ _ _) as [u s']. done.
Qed.

Lemma lookup_set_session (l : list managedSession) i e e' j x : l !! i = Some e ->
  <[i := e']> l !! j = Some x -> (j = i /\ x = e') \/ (j <> i /\ l !! j = Some x).
Proof.
  intros He Hx. destruct (decide (j = i)) as [->|Hne].
  - rewrite list_lookup_insert_eq in Hx by (by eapply lookup_lt_Some). left. split; congruence.
  - rewrite list_lookup_insert_ne in Hx by congruence. by right.
Qed.

Lemma after_call_stable i e b s : m_sessions (mm s) !! i = Some e -> stable s (after_call i e b s).
Proof.
  intros He. split_and!; try done; [|eexists; split; [done|]; intros j now Hin; by apply list_elem_of_fmap in Hin as (op & Heq & _)]. unfold flags. cbn. rewrite list_fmap_insert. cbn.
  by rewrite list_insert_id by (by rewrite list_lookup_fmap, He).
Qed.

Lemma owner_validated entry c : Validated (session_config entry) = Ok c ->
  own_of c = sessionOwner entry /\ GracefulRestartSeconds c = GracefulRestartSeconds (se_Config entry).
Proof.
  unfold Validated. intros H. passed. repeat apply res_bind_ok in H as (? & _ & H). by injection H as <-.
Qed.

Lemma kept_more tr l i : kept_session tr i -> kept_session (tr ++ l) i.
Proof. intros (now & H). exists now. set_solver. Qed.

Lemma kept_routes tr ops j i : kept_session (tr ++ (SessionRoute j <$> ops)) i -> kept_session tr i.
Proof.
  intros (now & [H|H]%elem_of_app); [by exists now|]. apply list_elem_of_fmap in H as (op & Heq & _). done.
Qed.

Lemma binv_iff c (k k' : Prop) b : (k -> k') -> binv c k b -> binv c k' b.
Proof. intros Hk [Hc [Hi|(HK & Hi)]]; (split; [done|]); [by left|]. right. split; [auto|done]. Qed.

Lemma entry_ok_more tr l i e : entry_ok tr i e -> entry_ok (tr ++ l) i e.
Proof. intros (c & Hc & Hb). exists c. split; [done|]. intros w. eapply binv_iff; [apply kept_more|apply Hb]. Qed.

(** A session ran to [b]: the invariant is kept if the session's is, if it wrote only routes
    of its own, and if it started only under a recorded owner. *)
Lemma minv_after_call (P P' : nat -> Prop) i e c b s : minv P s -> m_sessions (mm s) !! i = Some e ->
  Validated (session_config (ms_cfg e)) = Ok c -> binv c (kept_session (mtrace s) i) b ->
  (forall r ok, KWrote r ok ∈ fops (bfib b) -> ms_running e = true /\ mkOwner (rs_Dev r) (rs_Metric r) ∈ m_owners (mm s)) ->
  (s_started (sess b) = true -> sessionOwner (ms_cfg e) ∈ m_owners (mm s)) ->
  (s_started (sess b) = true -> ~ P' i -> ms_running e = true) -> (forall j, j <> i -> P j -> P' j) ->
  minv P' (after_call i e b s) .
Proof.
  intros [H1 H2 H3 H4 H5 H6 H7 H8] He Hc Hb Hw Ho Hr HP. pose proof (routes_silent i (fops (bfib b)) (mtrace s)) as [Hd Hu].
  assert (forall j, up_in (mtrace s) j = from_option ms_running false (<[i := set_session (sess b) (fib (bfib b)) e]> (m_sessions (mm s)) !! j)) as Hup.
  { intros j. rewrite H5. destruct (decide (j = i)) as [->|Hne]; [|by rewrite list_lookup_insert_ne by congruence].
    rewrite list_lookup_insert_eq by (by eapply lookup_lt_Some). by rewrite He. }
  split; cbn [after_call mm mtrace m_sessions set_sessions m_cfg m_owners m_retaining m_stopped]; rewrite ?Hd.
  - intros j x Hx. destruct (lookup_set_session _ _ _ _ _ _ He Hx) as [[-> ->]|[_ Hj]]; [|by apply entry_ok_more, H1].
    exists c. split; [done|]. intros w. eapply binv_iff; [apply kept_more|]. exact (binv_fresh _ _ b w Hb).
  - rewrite list_fmap_insert. cbn. rewrite list_insert_id; [done|]. by rewrite list_lookup_fmap, He.
  - intros j x Hx. destruct (lookup_set_session _ _ _ _ _ _ He Hx) as [[-> ->]|[_ Hj]]; [done|by eapply H3].
  - intros j x Hx HPj. destruct (lookup_set_session _ _ _ _ _ _ He Hx) as [[-> ->]|[Hne Hj]]; [intros Hst; by apply Hr|].
    apply (H4 j x Hj). intros HPj'. by apply HPj, HP.
  - intros j. by rewrite Hu.
  - done.
  - apply trace_ok_routes; [done|]. intros r ok Hin. destruct (Hw r ok Hin) as [Hrun Hown]. rewrite H5, He, H6. done.
  - intros j Hj%kept_routes. by eapply H8.
Qed.

Lemma onSession_steady {A} (a : A) i (m : M bsys A) s : tame (kept_session (mtrace s) i) m -> steady s (onSession a i m s).2.
Proof.
  intros Hm Hi. destruct (m_sessions (mm s) !! i) as [e|] eqn:He.
  2: { unfold onSession. rewrite He. split; [done|apply stable_refl]. }
  destruct (onSession_spec a i m s e He) as [_ Hsame]. set (b := (m (call_state e s)).2) in *.
  destruct (mi_entries _ _ Hi i e He) as (c & Hc & Hb). destruct (owner_validated _ _ Hc) as [Hown _].
  destruct (Hm c (call_state e s) (Hb _) eq_refl) as (Hb' & Hops & Hquiet). fold b in Hb', Hops, Hquiet.
  assert (s_started (sess b) = true -> s_started (ms_sess e) = true) as Hst.
  { intros Hs. destruct (s_started (ms_sess e)) eqn:E; [done|]. destruct (Hquiet E). congruence. }
  assert (minv none (after_call i e b s)) as Hi'.
  { apply (minv_after_call none none i e c b s); try done.
    - intros r ok Hin. assert (s_started (ms_sess e) = true) as E.
      { destruct (s_started (ms_sess e)) eqn:E; [done|]. destruct (Hquiet E) as [_ Hd]. rewrite Forall_forall in Hd. by destruct (Hd _ Hin). }
      split; [by apply (mi_running _ _ Hi i e He (not_none i))|]. rewrite Forall_forall in Hops. specialize (Hops _ Hin). cbn in Hops.
      rewrite Hops, Hown. by apply (mi_owner _ _ Hi i e He).
    - intros Hs. by apply (mi_owner _ _ Hi i e He), Hst.
    - intros Hs _. by apply (mi_running _ _ Hi i e He (not_none i)), Hst. }
  destruct (steady_same _ _ Hsame Hi') as (?&?). split; [done|]. eapply stable_trans; [by apply after_call_stable|done].
Qed.

Lemma steady_onSession {A} (a : A) i (m : M bsys A) : (forall kept, tame kept m) -> sat (onSession a i m) steady.
Proof. intros Hm s. by apply onSession_steady. Qed.

Lemma steady_others : sat others steady.
Proof.
  unfold others. apply sat_bind; [typeclasses eauto|apply sat_steady_same, same_onOutside|]. intros cbs.
  apply sat_foldM; [typeclasses eauto|]. intros _ [i cb]. apply steady_onSession. intros kept. apply tame_callback.
Qed.

Lemma steady_call {A} (a : A) i (m : M bsys A) : (forall kept, tame kept m) -> sat (call a i m) steady.
Proof. intros Hm. apply sat_bind; [typeclasses eauto|apply steady_others|]. intros _. by apply steady_onSession. Qed.

Lemma steady_readState i : sat (readState i) steady.
Proof. apply sat_bind; [typeclasses eauto|apply steady_others|]. intros _. apply sat_gets. typeclasses eauto. Qed.

Lemma wp_steady {A} (m : M msys A) (Q : A -> msys -> Prop) s : sat m steady -> minv none s ->
  (forall a s', minv none s' -> stable s s' -> Q a s') -> wp m Q s.
Proof. intros Hm Hi HQ. destruct (Hm s Hi). by apply HQ. Qed.

Lemma wp_same {A} (m : M msys A) (Q : A -> msys -> Prop) s : sat m same_core -> (forall a s', same_core s s' -> Q a s') -> wp m Q s.
Proof. intros Hm HQ. by apply HQ. Qed.

(** *** Steps that may change the journal and the running flags *)

Definition loose (s s' : msys) : Prop :=
  m_cfg (mm s') = m_cfg (mm s) /\ ms_cfg <$> m_sessions (mm s') = ms_cfg <$> m_sessions (mm s) /\
  m_stopped (mm s') = m_stopped (mm s) /\ exists l, mtrace s' = mtrace s ++ l.

Definition sound (s s' : msys) : Prop := minv none s -> minv none s' /\ loose s s'.

#[local] Instance loose_preorder : PreOrder loose.
Proof.
  split; [intros s; split_and!; try done; exists []; by rewrite app_nil_r|].
  intros s1 s2 s3 (?&?&?&l&Hl) (?&?&?&l'&Hl'). split_and!; try congruence. exists (l ++ l'). by rewrite Hl', Hl, app_assoc.
Qed.

#[local] Instance sound_preorder : PreOrder sound.
Proof.
  split; [by intros s Hi|]. intros s1 s2 s3 H12 H23 H1. destruct (H12 H1) as [Hi2 ?]. destruct (H23 Hi2). split; [done|by etransitivity].
Qed.

Lemma flags_cfg (m m' : Module) : flags m' = flags m -> ms_cfg <$> m_sessions m' = ms_cfg <$> m_sessions m.
Proof. intros H. apply (f_equal (fmap fst)) in H. unfold flags in H. by rewrite <- !list_fmap_compose in H. Qed.

Lemma stable_loose s s' : stable s s' -> loose s s'.
Proof. intros (?&?&?&?&Hf&l&Hl&_). split_and!; try done; [by apply flags_cfg|by exists l]. Qed.
Lemma sat_sound_steady {A} (m : M msys A) : sat m steady -> sat m sound.
Proof. intros H s Hi. destruct (H s Hi). split; [done|by apply stable_loose]. Qed.
Lemma sat_sound_wp {A} (m : M msys A) : (forall s, minv none s -> wp m (fun _ s' => minv none s' /\ loose s s') s) -> sat m sound.
Proof. intros H s Hi. by apply H. Qed.

(** What the operations of a module that was not shut down keep. *)
Definition running_sound (s s' : msys) : Prop := m_stopped (mm s) = false -> sound s s'.

#[local] Instance running_sound_preorder : PreOrder running_sound.
Proof.
  split; [by intros s _ Hi|]. intros s1 s2 s3 H12 H23 Hst Hi. destruct (H12 Hst Hi) as [Hi2 Hl].
  destruct (H23 ltac:(by destruct Hl as (_&_&->&_)) Hi2). split; [done|by etransitivity].
Qed.

Lemma sat_running {A} (m : M msys A) : sat m sound -> sat m running_sound.
Proof. intros H s _. apply H. Qed.

Lemma running_sound_wp {A} (m : M msys A) :
  (forall s, minv none s -> m_stopped (mm s) = false -> wp m (fun _ s' => minv none s' /\ loose s s') s) -> sat m running_sound.
Proof. intros H s Hst Hi. by apply H. Qed.
Lemma running_kept s i : minv none s -> m_stopped (mm s) = false -> ~ kept_session (mtrace s) i.
Proof. intros Hi Hst Hk. by rewrite (mi_kept _ _ Hi i Hk) in Hst. Qed.

(** **** The journal *)

Lemma minv_note s ev : minv none s -> event_ok (m_cfg (mm s)) (mtrace s) ev ->
  match ev with JournalLoaded _ | JournalWrote _ true | SessionUp _ | SessionDown _ | SessionRetained _ _ => False | _ => True end ->
  minv none (mkMsys (mm s) (mlive s) (mrequests s) (mtrace s ++ [ev])).
Proof.
  intros [H1 H2 H3 H4 H5 H6 H7 H8] He Hev. split; cbn [mm mtrace]; try done.
  - intros i e Hi. by apply entry_ok_more, H1.
  - intros i. rewrite up_in_app, <- H5. by destruct ev as [| ? []| | | | |].
  - rewrite durable_app, <- H6. by destruct ev as [| ? []| | | | |].
  - by apply trace_ok_snoc.
  - intros i (now & [Hin|Hin]%elem_of_app); [apply (H8 i); by exists now|]. apply list_elem_of_singleton in Hin as <-. done.
Qed.

Lemma minv_journal P s d : minv P s -> (forall i, ~ kept_session (mtrace s) i) ->
  (forall i e, m_sessions (mm s) !! i = Some e -> s_started (ms_sess e) = true -> sessionOwner (ms_cfg e) ∈ Owners d) ->
  minv P (mkMsys (set_journal d (mm s)) (mlive s) (mrequests s) (mtrace s ++ [JournalWrote d true])).
Proof.
  intros [H1 H2 H3 H4 H5 H6 H7 H8] Hno Hd. split; cbn [mm mtrace set_journal m_sessions m_cfg m_owners m_retaining m_stopped]; try done.
  - intros i e Hi. by apply entry_ok_more, H1.
  - intros i. by rewrite up_in_app, <- H5.
  - rewrite durable_app. by destruct d.
  - by apply trace_ok_snoc.
  - intros i (now & [Hin|Hin]%elem_of_app); [apply (H8 i); by exists now|]. by apply list_elem_of_singleton in Hin.
Qed.

Lemma wp_persistJournal d s : minv none s -> (forall i, ~ kept_session (mtrace s) i) ->
  (forall i e, m_sessions (mm s) !! i = Some e -> s_started (ms_sess e) = true -> sessionOwner (ms_cfg e) ∈ Owners d) ->
  wp (persistJournal d) (fun r s' => minv none s' /\ loose s s' /\ flags (mm s') = flags (mm s) /\
    match r with
    | None => m_owners (mm s') = Owners d /\ m_retaining (mm s') = Retaining d
    | Some _ => m_owners (mm s') = m_owners (mm s) /\ m_retaining (mm s') = m_retaining (mm s)
    end) s.
Proof.
  intros Hi Hno Hd. unfold persistJournal. apply wp_bind, wp_gets, wp_bind. unfold wp at 1, onOutside, onStore.
  destruct (writeJournal _ d _) as [r w]. cbn [fst snd]. apply wp_bind, wp_modify.
  set (s1 := mkMsys (mm s) (mkSsys (store_ (mlive s)) w (slog (mlive s))) (mrequests s) (mtrace s)).
  assert (minv none s1) as Hi1 by (by eapply minv_same; [|exact Hi]). destruct r as [e|].
  - rewrite bool_decide_false by done. apply wp_ret.
    split; [exact (minv_note s1 (JournalWrote d false) Hi1 Hno I)|]. split; [|done]. split_and!; [done..|by eexists].
  - rewrite bool_decide_true by done. apply wp_bind, wp_modify, wp_ret.
    split; [exact (minv_journal none s1 d Hi1 Hno Hd)|]. split; [|done]. split_and!; [done..|by eexists].
Qed.

Lemma started_owned s d : minv none s -> (forall o, o ∈ m_owners (mm s) -> o ∈ configured_owners (mm s) -> o ∈ Owners d) ->
  forall i e, m_sessions (mm s) !! i = Some e -> s_started (ms_sess e) = true -> sessionOwner (ms_cfg e) ∈ Owners d.
Proof.
  intros Hi Hd i e He Hst. apply Hd; [by apply (mi_owner _ _ Hi i e)|]. apply list_elem_of_fmap. exists e. split; [done|].
  by eapply list_elem_of_lookup_2.
Qed.

Lemma wp_recordOwner o s : minv none s -> (forall i, ~ kept_session (mtrace s) i) -> wp (recordOwner o) (fun r s' => minv none s' /\ loose s s' /\
  flags (mm s') = flags (mm s) /\ (r = None -> o ∈ m_owners (mm s'))) s.
Proof.
  intros Hi Hno. unfold recordOwner. apply wp_bind, wp_gets. case_bool_decide as Ho; [apply wp_ret; split; [done|]; split; [reflexivity|done]|].
  unfold persistOwners. apply wp_bind, wp_gets. eapply wp_mono; [apply wp_persistJournal; [done|done|]|].
  - apply started_owned; [done|]. cbn. intros o' Ho' _. set_solver.
  - cbn. intros [e|] s' (?&?&?&Hj); split_and!; try done. intros _. destruct Hj as [-> _]. set_solver.
Qed.

Lemma sound_persistRetaining l : sat (persistRetaining l) running_sound.
Proof.
  apply running_sound_wp. intros s Hi Hst. unfold persistRetaining. apply wp_bind, wp_gets.
  eapply wp_mono; [apply wp_persistJournal; [done|by intros; apply running_kept|]|by intros r s' (?&?&_)]. by apply (mi_owner _ _ Hi).
Qed.

Lemma sound_release : sat releaseRemovedOwners running_sound.
Proof.
  apply running_sound_wp. intros s Hi Hst. unfold releaseRemovedOwners. apply wp_bind, wp_gets, wp_bind, wp_gets.
  case_bool_decide; [apply wp_ret; split; [done|reflexivity]|]. unfold persistOwners. apply wp_bind, wp_gets.
  eapply wp_mono; [apply wp_persistJournal; [done|by intros; apply running_kept|]|by intros r s' (?&?&_)].
  apply started_owned; [done|]. cbn. intros o Ho Hc. by apply list_elem_of_filter.
Qed.

(** **** Starting and stopping *)

#[local] Hint Resolve tame_Connect tame_Stop tame_Refresh tame_SetAdvertisement tame_gets : tame.

Lemma steady_connectLocked i : sat (connectLocked i) steady.
Proof.
  unfold connectLocked. apply sat_bind; [typeclasses eauto|apply steady_call; eauto with tame|]. intros [e|].
  - apply sat_ret. typeclasses eauto.
  - apply sat_bind; [typeclasses eauto|by apply sat_steady_same, same_updEntry|]. intros _. apply sat_ret. typeclasses eauto.
Qed.

Lemma steady_connectWhenDue i now : sat (connectWhenDue i now) steady.
Proof.
  unfold connectWhenDue. apply sat_bind; [typeclasses eauto|apply sat_steady_same, same_getM|]. intros by_.
  apply sat_if; [apply sat_ret; typeclasses eauto|apply steady_connectLocked].
Qed.

(** Session [i] is marked as running or not. *)
Lemma minv_mark (P : nat -> Prop) i (up : bool) transport by_ s : minv P s -> (forall j, j <> i -> ~ P j) ->
  (forall e, m_sessions (mm s) !! i = Some e -> up = false -> s_started (ms_sess e) = false) ->
  (m_sessions (mm s) !! i = None -> up = false) ->
  minv none (mkMsys (set_sessions (alter (set_run up transport by_) i (m_sessions (mm s))) (mm s)) (mlive s) (mrequests s)
    (mtrace s ++ [if up then SessionUp i else SessionDown i])).
Proof.
  intros [H1 H2 H3 H4 H5 H6 H7 H8] HP Hst Hnone.
  assert (forall j x, alter (set_run up transport by_) i (m_sessions (mm s)) !! j = Some x ->
    exists e, m_sessions (mm s) !! j = Some e /\ ms_cfg x = ms_cfg e /\ ms_sess x = ms_sess e /\ ms_fib x = ms_fib e /\
      ms_running x = (if decide (j = i) then up else ms_running e)) as Hl.
  { intros j x Hx. destruct (decide (j = i)) as [->|Hne].
    - rewrite list_lookup_alter_eq in Hx. destruct (m_sessions (mm s) !! i) as [e|]; [|done]. cbn in Hx. injection Hx as <-. by exists e.
    - rewrite list_lookup_alter_ne in Hx by congruence. by exists x. }
  split; cbn [mm mtrace m_sessions set_sessions m_cfg m_owners m_retaining m_stopped].
  - intros j x (e & He & Hc & Hx & Hf & _)%Hl. unfold entry_ok. rewrite Hc, Hx, Hf. by apply entry_ok_more, H1.
  - by rewrite fmap_alter_same.
  - intros j x (e & He & Hc & Hx & _)%Hl. rewrite Hc, Hx. by eapply H3.
  - intros j x (e & He & _ & Hx & _ & Hr)%Hl _. rewrite Hx, Hr. intros Hs. destruct (decide (j = i)) as [->|Hne].
    + destruct up; [done|]. by rewrite (Hst e He eq_refl) in Hs.
    + by apply (H4 j e He (HP j Hne)).
  - intros j. rewrite up_in_app. destruct (decide (j = i)) as [->|Hne].
    + rewrite list_lookup_alter_eq. destruct (m_sessions (mm s) !! i) as [e|]; cbn.
      * by destruct up; cbn; rewrite bool_decide_true by done.
      * rewrite (Hnone eq_refl). cbn. by rewrite bool_decide_true by done.
    + rewrite list_lookup_alter_ne by congruence. rewrite <- H5. by destruct up; cbn; rewrite bool_decide_false by congruence.
  - rewrite durable_app, <- H6. by destruct up.
  - apply trace_ok_snoc; [done|]. by destruct up.
  - intros j (now & [Hin|Hin]%elem_of_app); [apply (H8 j); by exists now|]. apply list_elem_of_singleton in Hin. by destruct up.
Qed.

Definition run_at (s : msys) (i : nat) : bool := from_option ms_running false (m_sessions (mm s) !! i).

Lemma flags_run s s' i : flags (mm s') = flags (mm s) -> run_at s' i = run_at s i.
Proof.
  intros H. apply (f_equal (fun l => l !! i)) in H. unfold flags in H. rewrite !list_lookup_fmap in H. unfold run_at.
  destruct (m_sessions (mm s') !! i), (m_sessions (mm s) !! i); cbn in *; congruence.
Qed.

Lemma cfg_lookup s s' i e : ms_cfg <$> m_sessions (mm s') = ms_cfg <$> m_sessions (mm s) -> m_sessions (mm s) !! i = Some e ->
  exists e', m_sessions (mm s') !! i = Some e' /\ ms_cfg e' = ms_cfg e.
Proof.
  intros H He. apply (f_equal (fun l => l !! i)) in H. rewrite !list_lookup_fmap, He in H.
  destruct (m_sessions (mm s') !! i) as [e'|]; [|done]. exists e'. cbn in H. split; congruence.
Qed.

(** Only session [i] stops. *)
Definition stops (i : nat) (s s' : msys) : Prop :=
  loose s s' /\ m_owners (mm s') = m_owners (mm s) /\ m_retaining (mm s') = m_retaining (mm s) /\
  forall j, run_at s' j = if decide (j = i) then false else run_at s j.

(** The end of [stopLocked] and [stopRetainingLocked]. *)
Lemma wp_mark_down i s0 s : minv none s -> stable s0 s ->
  (forall e, m_sessions (mm s) !! i = Some e -> s_started (ms_sess e) = false) ->
  wp (updEntry i down ;; note (SessionDown i)) (fun _ s' => minv none s' /\ stops i s0 s') s.
Proof.
  intros Hi Hs Hst. apply wp_bind, wp_modify, wp_modify. split.
  - apply (minv_mark none i false "" zero_time s Hi); [intros j _; apply not_none|auto|done].
  - destruct Hs as (H1&H2&H3&H4&Hf&l&Hl&_). split_and!; cbn; try done.
    + split_and!; cbn; try done; [by rewrite fmap_alter_same, (flags_cfg _ _ Hf)|]. rewrite Hl, <- app_assoc. by eexists.
    + intros j. unfold run_at. cbn. destruct (decide (j = i)) as [->|Hne].
      * rewrite list_lookup_alter_eq. by destruct (m_sessions (mm s) !! i).
      * rewrite list_lookup_alter_ne by congruence. exact (flags_run s0 s j Hf).
Qed.

Lemma wp_onSession_entry {A} (a : A) i (m : M bsys A) (Q : bsys -> Prop) s :
  (forall e, m_sessions (mm s) !! i = Some e -> Q (m (call_state e s)).2) ->
  wp (onSession a i m) (fun _ s' => forall e', m_sessions (mm s') !! i = Some e' -> exists b, Q b /\ ms_sess e' = sess b /\ ms_fib e' = fib (bfib b)) s.
Proof.
  intros HQ. unfold wp. intros e' He'. destruct (m_sessions (mm s) !! i) as [e|] eqn:He.
  - destruct (onSession_spec a i m s e He) as [_ (Hs & _)]. destruct (core_lookup _ _ _ _ Hs He') as (e1 & He1 & Heq). cbn in He1.
    rewrite list_lookup_insert_eq in He1 by (by eapply lookup_lt_Some). injection He1 as <-. injection Heq as _ Hx Hf _.
    exists (m (call_state e s)).2. split_and!; [by apply HQ|by rewrite <- Hx|by rewrite <- Hf].
  - unfold onSession in He'. rewrite He in He'. cbn in He'. congruence.
Qed.

Lemma wp_conj {S A} (m : M S A) (Q R : A -> S -> Prop) s : wp m Q s -> wp m R s -> wp m (fun a s' => Q a s' /\ R a s') s.
Proof. done. Qed.

Lemma wp_stopLocked i s : minv none s -> wp (stopLocked i) (fun _ s' => minv none s' /\ stops i s s') s.
Proof.
  intros Hi. unfold stopLocked. apply wp_bind, wp_gets. change (from_option ms_running false _) with (run_at s i).
  destruct (run_at s i) eqn:Hr; cbn [negb].
  2: { apply wp_ret. split; [done|]. split; [reflexivity|]. split_and!; try done. intros j. by destruct (decide (j = i)) as [->|]. }
  unfold call. apply wp_bind. apply wp_bind. eapply wp_steady; [apply steady_others|done|]. intros _ s1 Hi1 Hs1.
  eapply wp_mono; [apply wp_conj|].
  - exact (wp_onSession_entry [] i Stop (fun b => s_started (sess b) = false) s1 (fun e _ => Stop_stops _)).
  - eapply wp_steady; [apply steady_onSession; eauto with tame|exact Hi1|]. intros a s2 Hi2 Hs2. exact (conj Hi2 Hs2).
  - intros _ s2 (Hst & Hi2 & Hs2). apply wp_mark_down; [done|by eapply stable_trans|].
    intros e He. destruct (Hst e He) as (b & Hb & -> & _). done.
Qed.

Lemma wp_Start i s : minv none s -> m_stopped (mm s) = false ->
  (forall e, m_sessions (mm s) !! i = Some e -> sessionOwner (ms_cfg e) ∈ m_owners (mm s)) ->
  wp (onSession None i Start) (fun r s' => minv (fun j => j = i) s' /\ stable s s' /\ (r <> None -> minv none s')) s.
Proof.
  intros Hi Hst Ho. destruct (m_sessions (mm s) !! i) as [e|] eqn:He.
  2: { unfold wp, onSession. rewrite He. cbn. split_and!; [|apply stable_refl|done]. destruct Hi. split; try done. intros j x Hx Hne. eauto using not_none. }
  destruct (onSession_spec None i Start s e He) as [Hr Hsame]. unfold wp. rewrite Hr.
  destruct (mi_entries _ _ Hi i e He) as (c & Hc & Hb).
  assert (binv c False (call_state e s)) as Hb0.
  { eapply binv_iff; [|apply Hb]. intros Hk. by rewrite (mi_kept _ _ Hi i Hk) in Hst. }
  destruct (Start_spec c _ Hb0 eq_refl) as (Hb' & Hops & Herr). set (r := Start (call_state e s)) in *.
  assert (forall P' : nat -> Prop, (s_started (sess r.2) = true -> ~ P' i -> ms_running e = true) -> minv P' (after_call i e r.2 s)) as Hafter.
  { intros P' HP'. apply (minv_after_call none P' i e c r.2 s); try done.
    - eapply binv_iff; [|exact Hb']. done.
    - rewrite Hops. set_solver.
    - intros _. by apply Ho. }
  split_and!.
  - eapply minv_same; [exact Hsame|]. apply Hafter. done.
  - eapply stable_trans; [by apply after_call_stable|by apply same_stable].
  - intros Hne. eapply minv_same; [exact Hsame|]. apply Hafter. intros Hs. by rewrite Herr in Hs.
Qed.

Lemma same_sessionTransport cfg : sat (sessionTransport cfg) same_core.
Proof. unfold sessionTransport. sat_steps ltac:(apply same_onOutside). Qed.

Lemma sound_steady_after {A} (m : M msys A) s0 s : sat m steady -> minv none s -> loose s0 s ->
  wp m (fun _ s' => minv none s' /\ loose s0 s') s.
Proof.
  intros Hm Hi Hl. eapply wp_steady; [done|done|]. intros a s' Hi' Hs'. split; [done|]. etransitivity; [done|by apply stable_loose].
Qed.

Lemma started_session i e s0 s transport now : minv none s -> loose s0 s -> m_stopped (mm s0) = false -> m_sessions (mm s0) !! i = Some e ->
  wp (r ← recordOwner (sessionOwner (ms_cfg e));
      match r with
      | Some err => mret (Some err)
      | None =>
          r ← call None i Start;
          match r with
          | Some err => mret (Some ("start bgp session " +:+ sc_Name (se_Config (ms_cfg e)) +:+ ": " +:+ err)%string)
          | None =>
              updEntry i (fun e => set_run true transport (connectBy e) e) ;;
              note (SessionUp i) ;;
              connectWhenDue i now
          end
      end) (fun _ s' => minv none s' /\ loose s0 s') s.
Proof.
  intros Hi Hl0 Hst He. apply wp_bind. eapply wp_mono; [apply wp_recordOwner; [done|]; intros j; apply running_kept; [done|by destruct Hl0 as (_&_&->&_)]|]. intros [err|] s1 (Hi1 & Hl1 & _ & Ho).
  { apply wp_ret. split; [done|by etransitivity]. }
  assert (loose s0 s1) as Hl by (by etransitivity). apply wp_bind, wp_bind.
  eapply wp_steady; [apply steady_others|done|]. intros _ s2 Hi2 Hs2. pose proof (stable_loose _ _ Hs2) as Hl2.
  eapply wp_mono; [apply wp_Start; [done| |]|].
  - destruct Hl2 as (_&_&->&_), Hl as (_&_&->&_). done.
  - intros e' He'. assert (loose s0 s2) as (_ & Hcf & _) by (by etransitivity). destruct (cfg_lookup _ _ _ _ Hcf He) as (e2 & He2 & Hcfg).
    rewrite He' in He2. injection He2 as <-. rewrite Hcfg. destruct Hs2 as (_ & -> & _). by apply Ho.
  - intros [err|] s3 (Hi3 & Hs3 & Hok).
    + apply wp_ret. split; [by apply Hok|]. etransitivity; [exact Hl|]. etransitivity; [exact Hl2|by apply stable_loose].
    + assert (loose s0 s3) as Hl3 by (etransitivity; [exact Hl|]; etransitivity; [exact Hl2|by apply stable_loose]).
      apply wp_bind, wp_modify, wp_bind, wp_modify. apply sound_steady_after; [apply steady_connectWhenDue| |].
      * destruct Hl3 as (_ & Hcf & _). destruct (cfg_lookup _ _ _ _ Hcf He) as (e3 & He3 & _).
        eapply minv_same; [|apply (minv_mark (fun j => j = i) i true transport (connectBy e3) s3 Hi3); [done|done|by rewrite He3]].
        split_and!; try done. cbn. apply list_eq. intros j. rewrite !list_lookup_fmap. destruct (decide (j = i)) as [->|Hne].
        { rewrite !list_lookup_alter_eq, He3. done. }
        { by rewrite !list_lookup_alter_ne by congruence. }
      * destruct Hl3 as (?&Hcf&?&l&Hl'). split_and!; cbn; try done; [by rewrite fmap_alter_same|]. rewrite Hl', <- app_assoc. by eexists.
Qed.

Lemma sound_reconcileSession i now : sat (reconcileSession i now) running_sound.
Proof.
  intros s Hst Hi. change (wp (reconcileSession i now) (fun _ s' => minv none s' /\ loose s s') s). unfold reconcileSession.
  apply wp_bind, wp_gets. destruct (m_sessions (mm s) !! i) as [e|] eqn:He; [|apply wp_ret; split; [done|reflexivity]].
  apply wp_bind. eapply wp_steady; [apply sat_steady_same, same_sessionTransport|done|]. intros [transport|err] s1 Hi1 Hs1.
  2: { apply wp_ret. split; [done|by apply stable_loose]. }
  apply stable_loose in Hs1. apply wp_bind.
  assert (wp (whenM (ms_running e && negb (bool_decide (transport = ms_transport e))) (stopLocked i))
    (fun _ s' => minv none s' /\ loose s s') s1) as Hstop.
  { apply wp_whenM; [|by split]. intros _. eapply wp_mono; [by apply wp_stopLocked|]. intros _ s' (? & (? & _)). split; [done|by etransitivity]. }
  eapply wp_mono; [exact Hstop|]. intros _ s2 (Hi2 & Hl2). apply wp_bind, wp_gets. destruct (from_option ms_running false _).
  - apply wp_bind. eapply wp_mono; [apply sound_steady_after; [apply steady_connectWhenDue|exact Hi2|exact Hl2]|]. intros cerr s3 (Hi3 & Hl3).
    apply sound_steady_after; [|done|done]. apply sat_bind; [typeclasses eauto|apply steady_call; eauto with tame|].
    intros _. apply sat_ret. typeclasses eauto.
  - clear Hstop. case_bool_decide; [apply wp_ret; split; [exact Hi2|exact Hl2]|]. by apply started_session.
Qed.

(** **** Pruning and sweeping *)

Lemma steady_protects record ixs : sat (protects record ixs) steady.
Proof.
  induction ixs as [|i ixs IH]; cbn [protects]; [apply sat_ret; typeclasses eauto|].
  sat_steps ltac:(first [exact IH|apply sat_steady_same, same_getM|apply steady_readState]).
Qed.

Lemma sound_pruneRetention now : sat (pruneRetention now) running_sound.
Proof.
  unfold pruneRetention.
  sat_steps ltac:(first [apply sound_persistRetaining|apply sat_running, sat_sound_steady; first [apply steady_protects|apply sat_steady_same, same_getM]]).
Qed.

(** The running sessions that write with [o]. *)
Definition speaks_for (o : routeOwner) (f : SessionEntry * bool) : Prop := f.2 = true /\ sessionOwner f.1 = o.

Lemma flags_lookup s i e : m_sessions (mm s) !! i = Some e -> flags (mm s) !! i = Some (ms_cfg e, ms_running e).
Proof. intros He. unfold flags. by rewrite list_lookup_fmap, He. Qed.

Lemma wp_readState i s e : minv none s -> m_sessions (mm s) !! i = Some e ->
  wp (readState i) (fun r s' => minv none s' /\ stable s s' /\ exists st, r = Some st) s.
Proof.
  intros Hi He. unfold readState. apply wp_bind. eapply wp_steady; [apply steady_others|done|]. intros _ s1 Hi1 Hs1.
  apply wp_gets. split_and!; [done|done|]. destruct (stable_loose _ _ Hs1) as (_ & Hc & _).
  destruct (cfg_lookup _ _ _ _ Hc He) as (e1 & -> & _). by eexists.
Qed.

Lemma accepting_spec p route ixs asked s : minv none s ->
  wp (accepting p route asked ixs) (fun r s' => minv none s' /\ stable s s' /\ (forall x, x ∈ asked -> x ∈ r.2) /\
    (r.1 = false -> forall i f, i ∈ ixs -> flags (mm s) !! i = Some f -> speaks_for (mkOwner (cr_Dev route) (cr_Metric route)) f ->
      exists st, (i, st) ∈ r.2 /\ Masked p ∉ Accepted st)) s.
Proof.
  revert asked s. induction ixs as [|i ixs IH]; intros asked s Hi; cbn [accepting].
  { apply wp_ret. split_and!; [done|apply stable_refl|done|]. set_solver. }
  assert (forall asked' s1, minv none s1 -> stable s s1 -> (forall x, x ∈ asked -> x ∈ asked') ->
    (forall f, flags (mm s) !! i = Some f -> speaks_for (mkOwner (cr_Dev route) (cr_Metric route)) f ->
       exists st, (i, st) ∈ asked' /\ Masked p ∉ Accepted st) ->
    wp (accepting p route asked' ixs) (fun r s' => minv none s' /\ stable s s' /\ (forall x, x ∈ asked -> x ∈ r.2) /\
    (r.1 = false -> forall j f, j ∈ i :: ixs -> flags (mm s) !! j = Some f -> speaks_for (mkOwner (cr_Dev route) (cr_Metric route)) f ->
      exists st, (j, st) ∈ r.2 /\ Masked p ∉ Accepted st)) s1) as Hnext.
  { intros asked' s1 Hi1 Hs1 Hsub Hhere. eapply wp_mono; [by apply IH|]. intros r s' (Hi' & Hs' & Hsub' & Hr). split_and!; [done|by eapply stable_trans|auto|].
    intros Hf j f [->|Hj]%elem_of_cons Hflag Hspeak; [|apply (Hr Hf j f Hj); [|done]; by destruct Hs1 as (_&_&_&_&->&_)].
    destruct (Hhere f Hflag Hspeak) as (st & Hst & Hp). exists st. split; [by apply Hsub'|done]. }
  apply wp_bind, wp_gets. destruct (m_sessions (mm s) !! i) as [e|] eqn:He.
  2: { apply Hnext; [done|apply stable_refl|done|]. intros f Hf. unfold flags in Hf. rewrite list_lookup_fmap, He in Hf. done. }
  destruct (negb (ms_running e) || _ || _) eqn:Hskip.
  { apply Hnext; [done|apply stable_refl|done|]. intros f Hf [Hrun Hown]. exfalso. rewrite (flags_lookup s i e He) in Hf. injection Hf as <-. cbn in *.
    rewrite Hrun in Hskip. unfold sessionOwner in Hown. injection Hown as Hdev Hmet. rewrite Hdev, Hmet, Z.eqb_refl in Hskip.
    rewrite bool_decide_false in Hskip by auto. done. }
  apply wp_bind. eapply wp_mono; [by eapply wp_readState|]. intros r s1 (Hi1 & Hs1 & st & ->). clear Hskip. case_bool_decide as Hin.
  - apply wp_ret. split; [exact Hi1|]. split; [exact Hs1|]. split; [cbn; set_solver|intros [=]].
  - apply Hnext; [done|done|set_solver|]. intros f _ _. exists st. split; [set_solver|done].
Qed.

Lemma wp_accepts route s : minv none s ->
  wp (accepts route) (fun r s' => minv none s' /\ stable s s' /\
    (r.1 = false -> forall i f p, ParsePrefix (cr_Dest route) = Some p -> flags (mm s) !! i = Some f ->
      speaks_for (mkOwner (cr_Dev route) (cr_Metric route)) f -> exists st, (i, st) ∈ r.2 /\ Masked p ∉ Accepted st)) s.
Proof.
  intros Hi. unfold accepts. destruct (ParsePrefix (cr_Dest route)) as [q|]; [|apply wp_ret; split_and!; [done|apply stable_refl|done]].
  apply wp_bind, wp_gets. eapply wp_mono; [by apply accepting_spec|]. intros r s' (? & ? & _ & Hr). split_and!; [done|done|].
  intros Hf i f p [= <-] Hflag. apply (Hr Hf); [|done]. unfold indices. apply elem_of_seq. split; [lia|]. cbn.
  apply lookup_lt_Some in Hflag. unfold flags in Hflag. by rewrite length_fmap in Hflag.
Qed.

Lemma configured_none cfg route : configured cfg route = false -> forall c, c ∈ ConfiguredRoutes cfg ->
  cfr_Interface c = cr_Dev route -> cfr_Metric c = cr_Metric route -> cfr_Dest c = cr_Dest route ->
  cfr_Via c <> ""%string /\ cfr_Via c <> cr_Via route.
Proof.
  unfold configured. intros H c Hc H1 H2 H3. apply not_true_iff_false in H. rewrite existsb_exists in H. split; intros Hv; apply H; exists c;
    (split; [by apply list_elem_of_In|]); rewrite H2, Z.eqb_refl, !andb_true_iff, orb_true_iff, !bool_decide_eq_true; auto.
Qed.

Lemma up_flags s i entry : minv none s -> up_in (mtrace s) i = true -> mc_Sessions (m_cfg (mm s)) !! i = Some entry ->
  flags (mm s) !! i = Some (entry, true).
Proof.
  intros Hi Hup Hcfg. rewrite (mi_up _ _ Hi) in Hup. destruct (m_sessions (mm s) !! i) as [e|] eqn:He; [|done]. cbn in Hup.
  rewrite (flags_lookup s i e He), Hup. pose proof (mi_cfg _ _ Hi) as [l Hl]. do 2 f_equal.
  apply (f_equal (fun x => x !! i)) in Hl. rewrite Hcfg, lookup_app_l, list_lookup_fmap, He in Hl by (rewrite length_fmap; by eapply lookup_lt_Some).
  cbn in Hl. congruence.
Qed.

Lemma sound_sweep_route now errs route : sat (sweep_route now errs route) sound.
Proof.
  apply sat_sound_wp. intros s Hi. unfold sweep_route. apply wp_bind, wp_gets. cbn [id].
  destruct (negb (bool_decide _) || _) eqn:Hskip; [apply wp_ret; split; [done|reflexivity]|].
  apply orb_false_iff in Hskip as [Hown Hret]. apply negb_false_iff, bool_decide_eq_true in Hown. cbv zeta.
  set (dest := with_dest (listed_dest familyV6 route) route). apply wp_bind. eapply wp_mono; [by apply wp_accepts|].
  intros [acc asked] s1 (Hi1 & Hs1 & Hacc). cbn [fst snd] in *. destruct (acc || configured _ dest) eqn:Hkeep.
  { apply wp_ret. split; [done|by apply stable_loose]. }
  apply orb_false_iff in Hkeep as [-> Hconf]. apply wp_bind.
  eapply wp_steady; [apply sat_steady_same, same_onOutside|done|]. intros r s2 Hi2 Hs2. apply wp_bind, wp_modify, wp_ret.
  assert (stable s s2) as (Hm & Ho & Hr & Hst & Hf & l & Hl & _) by (by eapply stable_trans). split.
  - apply minv_note; [done| |done]. cbn. rewrite (mi_durable _ _ Hi2). cbn. rewrite Ho, Hr, Hm. split_and!; [done|done| |].
    + intros c Hc. exact (configured_none _ _ Hconf c Hc).
    + intros i entry p Hup Hentry Hsp Hp. pose proof (up_flags s2 i entry Hi2 Hup ltac:(by rewrite Hm)) as Hflag. rewrite Hf in Hflag.
      by apply (Hacc eq_refl i (entry, true) p Hp Hflag).
  - split_and!; cbn; try done; [by apply flags_cfg|]. rewrite Hl, <- app_assoc. by eexists.
Qed.

Lemma sound_sweepStaleRoutes now : sat (sweepStaleRoutes now) running_sound.
Proof.
  unfold sweepStaleRoutes. sat_steps ltac:(first [apply sat_running, sound_sweep_route|apply sound_release
    |apply sat_running, sat_sound_steady, sat_steady_same; first [apply same_getM|apply same_onOutside]]).
Qed.

Lemma sound_Reconcile : sat Reconcile sound.
Proof.
  unfold Reconcile. intros s Hi. change (wp Reconcile (fun _ s' => minv none s' /\ loose s s') s). unfold Reconcile.
  apply wp_bind, wp_gets. destruct (m_stopped (mm s)) eqn:Hst; [apply wp_ret; split; [done|reflexivity]|].
  match goal with |- wp ?m _ _ => enough (sat m running_sound) as H by (by apply H) end.
  sat_steps ltac:(first [apply sound_reconcileSession|apply sound_pruneRetention|apply sound_sweepStaleRoutes
    |apply sat_running; first [apply sat_sound_steady, sat_steady_same; first [apply same_getM|apply same_onOutside|apply same_publish]]]).
Qed.

Lemma steady_OnFamilyReadiness : sat OnFamilyReadiness steady.
Proof.
  unfold OnFamilyReadiness, advertise_one.
  sat_steps ltac:(first [apply steady_connectLocked|apply steady_call; eauto with tame
    |apply sat_steady_same; first [apply same_getM|apply same_onStore|apply same_publish]]).
Qed.

(** ** The first process *)

Lemma minv_add s cfg x f : minv none s -> NewSession (session_config cfg) = Ok (x, f) -> up_in (mtrace s) (length (m_sessions (mm s))) = false ->
  (forall i, ~ kept_session (mtrace s) i) -> (ms_cfg <$> m_sessions (mm s)) ++ [cfg] `prefix_of` mc_Sessions (m_cfg (mm s)) ->
  minv none (mkMsys (set_sessions (m_sessions (mm s) ++ [mkManaged cfg x f None false "" zero_time]) (mm s)) (mlive s) (mrequests s) (mtrace s)).
Proof.
  intros [H1 H2 H3 H4 H5 H6 H7 H8] Hnew Hup Hkept Hpre.
  assert (exists c, Validated (session_config cfg) = Ok c /\ s_cfg x = c /\ s_started x = false) as (c & Hc & Hx & Hst).
  { unfold NewSession in Hnew. apply res_bind_ok in Hnew as (c & Hc & Hnew). apply res_bind_ok in Hnew as (_ & _ & [= <- <-]). by exists c. }
  split; cbn [mm mtrace m_sessions set_sessions m_cfg m_owners m_retaining m_stopped]; try done.
  - intros i e [He|[_ He]]%lookup_app_Some; [by apply H1|]. apply list_lookup_singleton_Some in He as [_ <-]. exists c. split; [done|].
    intros w. split; [done|]. left. by apply (new_session_inv _ _ _ w Hnew).
  - by rewrite fmap_app.
  - intros i e [He|[_ He]]%lookup_app_Some; [by apply (H3 i e)|]. apply list_lookup_singleton_Some in He as [_ <-]. cbn. by rewrite Hst.
  - intros i e [He|[_ He]]%lookup_app_Some; [by apply (H4 i e)|]. apply list_lookup_singleton_Some in He as [_ <-]. cbn. by rewrite Hst.
  - intros i. destruct (decide (i < length (m_sessions (mm s)))%nat) as [Hlt|Hge]; [by rewrite lookup_app_l|].
    rewrite lookup_app_r by lia. rewrite H5, (lookup_ge_None_2 (m_sessions (mm s)) i) by lia. cbn.
    destruct (i - length (m_sessions (mm s)))%nat as [|n]; [done|]. by destruct n.
Qed.

(** During [Init] no session runs and none was kept. *)
Definition fresh (s : msys) : Prop := minv none s /\ m_stopped (mm s) = false.

Lemma fresh_kept s i : fresh s -> ~ kept_session (mtrace s) i.
Proof. intros [Hi Hst] Hk. by rewrite (mi_kept _ _ Hi i Hk) in Hst. Qed.

Lemma wp_newSessions cfgs s : fresh s -> (ms_cfg <$> m_sessions (mm s)) ++ cfgs `prefix_of` mc_Sessions (m_cfg (mm s)) ->
  wp (newSessions cfgs) (fun _ s' => fresh s' /\ m_cfg (mm s') = m_cfg (mm s)) s.
Proof.
  revert s. induction cfgs as [|cfg cfgs IH]; intros s Hf Hpre; cbn [newSessions]; [by apply wp_ret|].
  destruct (NewSession (session_config cfg)) as [[x f]|e] eqn:Hnew; [|by apply wp_ret]. apply wp_bind, wp_modify.
  change (cfg :: cfgs) with ([cfg] ++ cfgs) in Hpre. rewrite app_assoc in Hpre. eapply wp_mono; [apply IH|].
  - split; [|apply Hf]. apply minv_add; [apply Hf|done| |by intros i; apply fresh_kept|by eapply prefix_app_l].
    destruct Hf as [Hi _]. rewrite (mi_up _ _ Hi), (lookup_ge_None_2 (m_sessions (mm s))); done.
  - cbn. rewrite fmap_app. exact Hpre.
  - intros r s' (Hf' & Hc). by split.
Qed.

Lemma minv_loaded s d : minv none s -> (forall i, ~ kept_session (mtrace s) i) -> m_sessions (mm s) = [] -> minv none
  (mkMsys (set_journal d (mm s)) (mlive s) (mrequests s) (mtrace s ++ [JournalLoaded d])).
Proof.
  intros [H1 H2 H3 H4 H5 H6 H7 H8] Hno Hnil. split; cbn [mm mtrace set_journal m_sessions m_cfg m_owners m_retaining m_stopped]; try done.
  - intros i e. by rewrite Hnil.
  - intros i e. by rewrite Hnil.
  - intros i. by rewrite up_in_app, <- H5.
  - rewrite durable_app. by destruct d.
  - by apply trace_ok_snoc.
  - intros i (now & [Hin|Hin]%elem_of_app); [apply (H8 i); by exists now|]. by apply list_elem_of_singleton in Hin.
Qed.

(** Sessions may start retaining while the module is not stopped. *)
Definition running_steady (s s' : msys) : Prop := m_stopped (mm s) = false -> steady s s'.
#[local] Instance running_steady_preorder : PreOrder running_steady.
Proof.
  split; [intros s _; reflexivity|]. intros s1 s2 s3 H12 H23 Hst Hi. destruct (H12 Hst Hi) as [Hi2 Hs].
  destruct (H23 ltac:(by destruct Hs as (_&_&_&->&_)) Hi2). split; [done|by eapply stable_trans].
Qed.

Lemma steady_retainRoutes i now : sat (retainRoutes i now) running_steady.
Proof.
  assert (forall A (m : M msys A), sat m steady -> sat m running_steady) as Hrun by (intros A m H s _; apply H).
  assert (forall d, sat (call None i (KeepRoutes d)) running_steady) as Hkeep.
  { intros d. apply sat_bind; [typeclasses eauto|apply Hrun, steady_others|]. intros _ s Hst Hi. apply onSession_steady; [|done].
    apply tame_KeepRoutes. by apply fresh_kept. }
  unfold retainRoutes. sat_steps ltac:(first [apply Hkeep|apply Hrun, sat_steady_same; first [apply same_getM|by apply same_updEntry]]).
Qed.

Definition boot (cfg : ModuleConfig) (live : bool) (l : ssys W) : msys := mkMsys (New (Some cfg) live) l [] [].

Lemma boot_minv cfg live l : minv none (boot cfg live l).
Proof.
  split; cbn; try done.
  - apply prefix_nil.
  - intros pre ev post H. by destruct pre.
  - intros i (now & H). by apply not_elem_of_nil in H.
Qed.

Lemma wp_Init cfg live l : wp Init (fun _ s => fresh s /\ m_cfg (mm s) = cfg) (boot cfg live l).
Proof.
  pose proof (boot_minv cfg live l) as Hi. unfold Init. apply wp_bind, wp_gets. case_bool_decide.
  { by apply wp_ret. }
  apply wp_bind. eapply wp_same; [apply same_onOutside|]. intros file s1 Hs1. apply wp_bind, wp_modify, wp_bind, wp_modify. cbv zeta.
  set (d := (loadJournal file).1).
  pose proof (minv_loaded s1 d ltac:(by eapply minv_same)
    ltac:(intros i (now & Hin); destruct Hs1 as (_&_&_&_&_&Ht); rewrite Ht in Hin; by apply not_elem_of_nil in Hin) ltac:(by destruct Hs1 as (H1 & _); apply fmap_nil_inv in H1)) as Hi2.
  match goal with |- wp _ _ ?s => set (s2 := s) end. change (minv none s2) in Hi2.
  assert (fresh s2 /\ m_cfg (mm s2) = cfg) as [Hf2 Hc2].
  { destruct Hs1 as (_ & Hc & _ & _ & Hst & _). split; [split; [done|exact Hst]|exact Hc]. }
  apply wp_bind. eapply wp_mono; [apply wp_newSessions; [done|]|].
  { assert (m_sessions (mm s2) = []) as -> by (destruct Hs1 as (H1 & _); by apply fmap_nil_inv in H1). by rewrite Hc2. }
  intros [e|] s3 (Hf3 & Hc3); [apply wp_ret; split; congruence|].
  match goal with |- wp ?m _ _ => assert (sat m running_steady) as Hm end.
  { assert (forall A (m : M msys A), sat m same_core -> sat m running_steady) as Hrun by (intros A m Hsame s _; by apply steady_same).
    apply sat_bind; [typeclasses eauto|apply Hrun, same_onOutside|]. intros now.
    apply sat_bind; [typeclasses eauto|apply Hrun, same_getM|]. intros ixs.
    apply sat_bind; [typeclasses eauto| |intros _; apply sat_ret; typeclasses eauto].
    apply sat_foldM; [typeclasses eauto|]. intros _ i. apply sat_bind; [typeclasses eauto|apply steady_retainRoutes|]. intros _.
    apply sat_bind; [typeclasses eauto|apply Hrun, same_getM|]. intros key. apply Hrun, same_publish. }
  destruct Hf3 as [Hi3 Hst3]. destruct (Hm s3 Hst3 Hi3) as (Hi4 & Hc4 & _ & _ & Hst4 & _). split; [split|]; congruence.
Qed.

(** ** Runs *)

(** What happens to a module after [Init] and before its shutdown. *)
Inductive module_step := StepReconcile | StepReadiness | StepCallbacks.

Definition run_step (st : module_step) : M msys unit :=
  match st with
  | StepReconcile => Reconcile ;; mret tt
  | StepReadiness => OnFamilyReadiness
  | StepCallbacks => others
  end.

Definition run_module (steps : list module_step) : M msys unit := Init ;; forM steps run_step.

Lemma sound_run_step st : sat (run_step st) sound.
Proof.
  destruct st; cbn [run_step].
  - apply sat_bind; [typeclasses eauto|apply sound_Reconcile|]. intros _. apply sat_ret. typeclasses eauto.
  - apply sat_sound_steady, steady_OnFamilyReadiness.
  - apply sat_sound_steady, steady_others.
Qed.

Lemma reachable_module cfg live l steps : let s := (run_module steps (boot cfg live l)).2 in fresh s /\ m_cfg (mm s) = cfg.
Proof.
  cbv zeta. change (wp (run_module steps) (fun _ s => fresh s /\ m_cfg (mm s) = cfg) (boot cfg live l)). unfold run_module.
  apply wp_bind. eapply wp_mono; [apply wp_Init|]. intros r s [[Hi Hst] Hc].
  assert (sat (forM steps run_step) sound) as Hm by (apply sat_foldM; [typeclasses eauto|]; intros _ st; apply sound_run_step).
  destruct (Hm s Hi) as (Hi' & Hc' & _ & Hst' & _). split; [split|]; congruence.
Qed.

(** ** Shutdown *)

(** The records hold future deadlines of sessions with graceful restart. *)
Definition records_ok (cfg : ModuleConfig) (now : Z) (records : list retention) : Prop :=
  Forall (fun r => now < ret_Deadline r /\ exists entry, entry ∈ mc_Sessions cfg /\ sessionOwner entry = ret_owner r /\
    GracefulRestartSeconds (se_Config entry) <> 0) records.

Lemma entry_configured s i e : minv none s -> m_sessions (mm s) !! i = Some e -> mc_Sessions (m_cfg (mm s)) !! i = Some (ms_cfg e).
Proof.
  intros Hi He. destruct (mi_cfg _ _ Hi) as [l Hl]. rewrite Hl, lookup_app_l, list_lookup_fmap, He; [done|].
  rewrite length_fmap. by eapply lookup_lt_Some.
Qed.

Lemma deadline_in_after records o now d : deadline_in records o now = Some d -> now < d.
Proof.
  unfold deadline_in. destruct (List.find _ records) as [r|] eqn:Hf; [|done]. intros [= <-]. apply find_some in Hf as [_ Hf].
  apply andb_true_iff in Hf as [_ Hf]. lia.
Qed.

Lemma wp_shutdown_record cfg now records i s : minv none s -> m_cfg (mm s) = cfg -> records_ok cfg now records ->
  Forall (fun entry => 0 <= GracefulRestartSeconds (se_Config entry)) (mc_Sessions cfg) ->
  wp (shutdown_record now records i) (fun r s' => minv none s' /\ stable s s' /\ records_ok cfg now r) s.
Proof.
  intros Hi Hcfg Hrec Hnn. unfold shutdown_record. apply wp_bind, wp_gets.
  destruct (m_sessions (mm s) !! i) as [e|] eqn:He; [|apply wp_ret; split_and!; [done|apply stable_refl|done]]. cbv zeta.
  destruct (Z.eqb_spec (GracefulRestartSeconds (se_Config (ms_cfg e))) 0) as [|Hg]; [apply wp_ret; split_and!; [done|apply stable_refl|done]|].
  pose proof (entry_configured s i e Hi He) as Hin. rewrite Hcfg in Hin. apply list_elem_of_lookup_2 in Hin.
  assert (forall d, now < d -> records_ok cfg now (records ++ [mkRetention (sessionOwner (ms_cfg e)) d])) as Hadd.
  { intros d Hd. apply Forall_app. split; [done|]. constructor; [|constructor]. split; [done|]. by exists (ms_cfg e). }
  rewrite Forall_forall in Hnn. specialize (Hnn _ Hin). cbn in Hnn. apply wp_bind.
  assert (sat (if ms_running e then st ← readState i; mret (from_option Established false st) else mret false) steady) as Hup.
  { apply sat_if; [|apply sat_ret; typeclasses eauto]. apply sat_bind; [typeclasses eauto|apply steady_readState|].
    intros st. apply sat_ret. typeclasses eauto. }
  eapply wp_steady; [exact Hup|done|]. clear Hup. intros [] s1 Hi1 Hs1; apply wp_bind.
  - eapply wp_steady; [apply steady_call; intros kept; apply tame_gets|done|]. intros negotiated s2 Hi2 Hs2. apply wp_ret.
    split_and!; [done|by eapply stable_trans|]. destruct negotiated; [|done]. apply Hadd. unfold Second. lia.
  - apply wp_gets, wp_ret. split_and!; [done|done|]. unfold retentionDeadline. destruct (_ =? 0); [done|].
    destruct (deadline_in _ _ _) as [d|] eqn:Hd; [|done]. by eapply Hadd, deadline_in_after.
Qed.

Lemma wp_persistShutdown cfg now s : minv none s -> (forall i, ~ kept_session (mtrace s) i) -> m_cfg (mm s) = cfg ->
  Forall (fun entry => 0 <= GracefulRestartSeconds (se_Config entry)) (mc_Sessions cfg) ->
  wp (persistShutdownRetention now) (fun owners s' => minv none s' /\ loose s s' /\ flags (mm s') = flags (mm s) /\
    Forall (fun o => retainedOwner (m_retaining (mm s')) o now = true /\ exists entry, entry ∈ mc_Sessions cfg /\
      sessionOwner entry = o /\ GracefulRestartSeconds (se_Config entry) <> 0) owners) s.
Proof.
  intros Hi Hno Hcfg Hnn. unfold persistShutdownRetention. apply wp_bind, wp_gets, wp_bind.
  eapply wp_mono; [apply (wp_foldM _ (fun _ records s' => minv none s' /\ stable s s' /\ records_ok cfg now records))|].
  - split_and!; [done|apply stable_refl|constructor].
  - intros dn i todo records s1 _ (Hi1 & Hs1 & Hr1). eapply wp_mono; [apply (wp_shutdown_record cfg); [done|by destruct Hs1 as (->&_)|done|done]|].
    intros r s2 (Hi2 & Hs2 & Hr2). split_and!; [done|by eapply stable_trans|done].
  - intros records s1 (Hi1 & Hs1 & Hr1). pose proof (stable_kept _ _ Hs1) as Hk1. pose proof Hs1 as (_&_&_&_&Hf1&_). apply stable_loose in Hs1. apply wp_bind, wp_gets.
    destruct (bool_decide (length records = 0%nat) && _); [apply wp_ret; split_and!; [done|done|done|constructor]|].
    apply wp_bind. unfold persistRetaining. apply wp_bind, wp_gets.
    eapply wp_mono; [apply wp_persistJournal; [done|intros i Hk; by apply (Hno i), Hk1|by apply (mi_owner _ _ Hi1)]|]. intros [err|] s2 (Hi2 & Hl2 & Hf2 & Hj); apply wp_ret.
    + split_and!; [done|by etransitivity|congruence|constructor].
    + split_and!; [done|by etransitivity|congruence|]. destruct Hj as [_ ->]. apply Forall_fmap, Forall_forall. intros r Hr.
      unfold records_ok in Hr1. rewrite Forall_forall in Hr1. destruct (Hr1 r Hr) as [Hd Hentry]. split; [|done]. cbn.
      apply existsb_exists. exists r. split; [by apply list_elem_of_In|]. rewrite bool_decide_true by done. cbn. lia.
Qed.

Lemma minv_note_kept s i now : minv none s -> m_stopped (mm s) = true -> event_ok (m_cfg (mm s)) (mtrace s) (SessionRetained i now) ->
  minv none (mkMsys (mm s) (mlive s) (mrequests s) (mtrace s ++ [SessionRetained i now])).
Proof.
  intros [H1 H2 H3 H4 H5 H6 H7 H8] Hst He. split; cbn [mm mtrace]; try done.
  - intros j e Hj. by apply entry_ok_more, H1.
  - intros j. by rewrite up_in_app, <- H5.
  - by rewrite durable_app, <- H6.
  - by apply trace_ok_snoc.
Qed.

Lemma wp_stopRetaining i now s e : minv none s -> m_stopped (mm s) = true -> m_sessions (mm s) !! i = Some e ->
  GracefulRestartSeconds (se_Config (ms_cfg e)) <> 0 -> retainedOwner (m_retaining (mm s)) (sessionOwner (ms_cfg e)) now = true ->
  wp (stopRetainingLocked i now) (fun _ s' => minv none s' /\ stops i s s' /\ SessionRetained i now ∈ mtrace s') s.
Proof.
  intros Hi Hst He Hg Hret. unfold stopRetainingLocked. apply wp_bind, wp_modify.
  set (s1 := mkMsys (mm s) (mlive s) (mrequests s) (mtrace s ++ [SessionRetained i now])).
  assert (minv none s1) as Hi1.
  { apply minv_note_kept; [done|done|]. exists (ms_cfg e). split; [by apply entry_configured|]. by rewrite (mi_durable _ _ Hi). }
  assert (loose s s1) as Hs1 by (split_and!; [done..|by eexists]).
  assert (SessionRetained i now ∈ mtrace s1) as Hin1 by (cbn; set_solver).
  unfold call. apply wp_bind, wp_bind. eapply wp_steady; [apply steady_others|done|]. intros _ s2 Hi2 Hs2.
  destruct (stable_loose _ _ Hs2) as (_ & Hcf & _ & l2 & Hl2). destruct (cfg_lookup _ _ _ _ Hcf He) as (e2 & He2 & Hcfg2).
  assert (kept_session (mtrace s2) i) as Hkept by (exists now; rewrite Hl2; set_solver).
  destruct (mi_entries _ _ Hi2 i e2 He2) as (c & Hc & Hb). destruct (owner_validated _ _ Hc) as [_ Hgc].
  destruct (StopRetaining_spec c _ (call_state e2 s2) (Hb _) eq_refl) as (Hb' & Hops & Hdown); [by rewrite Hgc, Hcfg2|].
  destruct (onSession_spec None i StopRetaining s2 e2 He2) as [_ Hsame]. set (b := (StopRetaining (call_state e2 s2)).2) in *.
  assert (minv none (after_call i e2 b s2)) as Hi3.
  { apply (minv_after_call none none i e2 c b s2); try done.
    - eapply binv_iff; [|exact Hb']. done.
    - rewrite Hops. set_solver.
    - by rewrite Hdown.
    - by rewrite Hdown. }
  unfold wp at 1. destruct (onSession None i StopRetaining s2) as [r s3]. cbn [fst snd] in *.
  eapply wp_mono; [apply (wp_mark_down i s1)|].
  - by eapply minv_same.
  - eapply stable_trans; [exact Hs2|]. eapply stable_trans; [by apply after_call_stable|by apply same_stable].
  - intros e3 He3. destruct Hsame as (Hcore & _). destruct (core_lookup _ _ _ _ Hcore He3) as (e4 & He4 & Heq). cbn in He4.
    rewrite list_lookup_insert_eq in He4 by (by eapply lookup_lt_Some). injection He4 as <-. injection Heq as _ <- _ _. exact Hdown.
  - intros _ s4 [Hi4 (Hl4 & Ho4 & Hr4 & Hrun4)]. split_and!; [done| |].
    + split_and!; [|done|done|exact Hrun4]. etransitivity; [exact Hs1|exact Hl4].
    + destruct Hl4 as (_&_&_&l4&->). set_solver.
Qed.

(** The journal is not written again once a session was stopped with its routes kept. *)
Lemma durable_after_kept cfg pre post i : trace_ok cfg (pre ++ post) -> kept_session pre i -> durable (pre ++ post) = durable pre.
Proof.
  intros Ht Hk. induction post as [|ev post IH] using rev_ind; [by rewrite app_nil_r|].
  rewrite app_assoc in *. rewrite durable_app, IH.
  - assert (event_ok cfg (pre ++ post) ev) as He by (by apply (Ht _ _ [])).
    destruct ev; try done; cbn in He; by destruct (He i); apply kept_more.
  - intros pre' ev' post' Heq. apply (Ht _ _ (post' ++ [ev])). by rewrite Heq, <- app_assoc.
Qed.

Lemma kept_protected s i e now : minv none s -> m_sessions (mm s) !! i = Some e -> SessionRetained i now ∈ mtrace s ->
  retainedOwner (Retaining (durable (mtrace s))) (sessionOwner (ms_cfg e)) now = true.
Proof.
  intros Hi He Hin. pose proof (mi_trace _ _ Hi) as Ht. apply list_elem_of_split in Hin as (pre & post & Heq).
  destruct (Ht _ _ _ Heq) as (entry & Hentry & Hret). rewrite (entry_configured s i e Hi He) in Hentry. injection Hentry as <-.
  rewrite Heq in Ht |- *. rewrite cons_middle, app_assoc in Ht |- *. rewrite (durable_after_kept _ _ _ i Ht); [|exists now; set_solver].
  by rewrite durable_app.
Qed.

Lemma wp_stop_each cfg now retained s : minv none s -> m_stopped (mm s) = true -> m_cfg (mm s) = cfg ->
  NoDup (sessionOwner <$> mc_Sessions cfg) ->
  Forall (fun o => retainedOwner (m_retaining (mm s)) o now = true /\ exists entry, entry ∈ mc_Sessions cfg /\
      sessionOwner entry = o /\ GracefulRestartSeconds (se_Config entry) <> 0) retained ->
  wp (forM (indices (mm s)) (fun i =>
    e ← getM (fun m => m_sessions m !! i);
    match e with
    | None => mret tt
    | Some e => if ms_running e && bool_decide (sessionOwner (ms_cfg e) ∈ retained)
                then stopRetainingLocked i now else stopLocked i
    end)) (fun _ s' => minv none s' /\ loose s s' /\ m_owners (mm s') = m_owners (mm s) /\ m_retaining (mm s') = m_retaining (mm s) /\
      forall i, i ∈ indices (mm s) -> run_at s' i = false) s.
Proof.
  intros Hi Hst Hcfg Hnd Hret. rewrite Forall_forall in Hret.
  apply (wp_foldM _ (fun dn _ s' => minv none s' /\ loose s s' /\ m_owners (mm s') = m_owners (mm s) /\ m_retaining (mm s') = m_retaining (mm s) /\
    forall i, i ∈ dn -> run_at s' i = false)).
  { split_and!; [done|reflexivity|done|done|]. set_solver. }
  intros dn i todo _ s1 _ (Hi1 & Hl1 & Ho1 & Hr1 & Hdn). apply wp_bind, wp_gets.
  assert (forall s', minv none s' -> stops i s1 s' -> minv none s' /\ loose s s' /\ m_owners (mm s') = m_owners (mm s) /\
    m_retaining (mm s') = m_retaining (mm s) /\ forall j, j ∈ dn ++ [i] -> run_at s' j = false) as Hstop.
  { intros s' Hi' (Hl & Ho & Hr & Hrun). split_and!; [done|by etransitivity|congruence|congruence|].
    intros j Hj. rewrite Hrun. destruct (decide (j = i)) as [->|Hne]; [done|]. apply Hdn. set_solver. }
  destruct (m_sessions (mm s1) !! i) as [e|] eqn:He.
  2: { apply wp_ret. split_and!; [done..|]. intros j [Hj|Hj]%elem_of_app; [by apply Hdn|]. apply list_elem_of_singleton in Hj as ->.
       unfold run_at. by rewrite He. }
  destruct (ms_running e && _) eqn:Hk.
  - apply andb_true_iff in Hk as [_ Hk%bool_decide_eq_true]. destruct (Hret _ Hk) as (Hdl & entry & Hentry & Hown & Hg).
    assert (entry = ms_cfg e) as ->.
    { pose proof (entry_configured s1 i e Hi1 He) as Hc. destruct Hl1 as (Hm & _). rewrite Hm, Hcfg in Hc.
      apply list_elem_of_lookup_1 in Hentry as [j Hj]. assert (j = i) as ->; [|congruence].
      apply (NoDup_lookup _ j i (sessionOwner (ms_cfg e)) Hnd); rewrite list_lookup_fmap; [rewrite Hj|rewrite Hc]; cbn; [by rewrite Hown|done]. }
    eapply wp_mono; [apply (wp_stopRetaining i now s1 e); [done| |done|done|by rewrite Hr1]|].
    + destruct Hl1 as (_&_&->&_). done.
    + intros _ s' (Hi' & Hs' & _). by apply Hstop.
  - eapply wp_mono; [by apply wp_stopLocked|]. intros _ s' (Hi' & Hs'). by apply Hstop.
Qed.

(** ** Theorems *)


(** Every route the sweep deletes has an owner in the journal whose restart deadline, if
    any, has passed; it is no configured route; and every session that is up and writes with
    this interface and metric was asked for its state and does not accept the prefix. *)
Lemma sweep_spares_wanted cfg live l steps pre r now asked ok post :
  mtrace (run_module steps (boot cfg live l)).2 = pre ++ Swept r now asked ok :: post ->
  let o := mkOwner (rs_Dev r) (rs_Metric r) in
  o ∈ Owners (durable pre) /\ retainedOwner (Retaining (durable pre)) o now = false /\
  (forall c, c ∈ ConfiguredRoutes cfg -> cfr_Interface c = rs_Dev r -> cfr_Metric c = rs_Metric r ->
     cfr_Dest c = rs_Dest r -> cfr_Via c <> ""%string /\ cfr_Via c <> rs_Via r) /\
  (forall i entry p, up_in pre i = true -> mc_Sessions cfg !! i = Some entry -> sessionOwner entry = o ->
     ParsePrefix (rs_Dest r) = Some p -> exists st, (i, st) ∈ asked /\ Masked p ∉ Accepted st).
Proof.
  destruct (reachable_module cfg live l steps) as [[Hi _] Hc]. intros Htr. pose proof (mi_trace _ _ Hi _ _ _ Htr) as H. rewrite Hc in H. exact H.
Qed.

(** When the daemon shuts the module down, every session ends: it is stopped, and either
    its installer holds no route any more or the journal on disk names a restart deadline in
    the future for its interface and metric.  The sessions must differ in interface or
    metric, and restart times are not negative. *)
Lemma shutdown_keeps_only_journaled cfg live l steps :
  NoDup (sessionOwner <$> mc_Sessions cfg) ->
  Forall (fun entry => 0 <= GracefulRestartSeconds (se_Config entry)) (mc_Sessions cfg) ->
  let s := (stopOnShutdown (run_module steps (boot cfg live l)).2).2 in
  forall i e, m_sessions (mm s) !! i = Some e ->
    ms_running e = false /\ s_started (ms_sess e) = false /\
    (desired (ms_fib e) = ∅ \/
     exists now, SessionRetained i now ∈ mtrace s /\ retainedOwner (Retaining (durable (mtrace s))) (sessionOwner (ms_cfg e)) now = true).
Proof.
  intros Hnd Hnn. destruct (reachable_module cfg live l steps) as [[Hi Hst] Hc]. cbv zeta.
  set (s0 := (run_module steps (boot cfg live l)).2) in *.
  match goal with |- forall i e, ?P => change (wp stopOnShutdown (fun _ s => forall i e, m_sessions (mm s) !! i = Some e ->
    ms_running e = false /\ s_started (ms_sess e) = false /\ (desired (ms_fib e) = ∅ \/ exists now, SessionRetained i now ∈ mtrace s /\
      retainedOwner (Retaining (durable (mtrace s))) (sessionOwner (ms_cfg e)) now = true)) s0) end.
  unfold stopOnShutdown. apply wp_bind, wp_modify.
  assert (minv none (mkMsys (set_stopped (mm s0)) (mlive s0) (mrequests s0) (mtrace s0))) as Hi0 by (by destruct Hi; split).
  apply wp_bind. eapply wp_same; [apply same_onOutside|]. intros now s1 Hs1.
  assert (minv none s1) as Hi1 by (by eapply minv_same). destruct Hs1 as (_&Hc1&_&_&Hst1&Ht1). cbn in Hc1, Hst1, Ht1.
  apply wp_bind. eapply wp_mono; [apply (wp_persistShutdown cfg); [done|rewrite Ht1; by intros; apply running_kept|congruence|done]|]. intros retained s2 (Hi2 & Hl2 & _ & Hret).
  apply wp_bind, wp_gets. pose proof Hl2 as (Hc2 & _ & Hst2 & _).
  eapply wp_mono; [apply (wp_stop_each cfg now retained); [done|congruence|congruence|done|done]|].
  intros _ s3 (Hi3 & Hl3 & Ho3 & Hr3 & Hrun) i e He.
  assert (ms_running e = false) as Hdown.
  { specialize (Hrun i). unfold run_at in Hrun. rewrite He in Hrun. apply Hrun. unfold indices. apply elem_of_seq. split; [lia|]. cbn.
    apply lookup_lt_Some in He. destruct Hl3 as (_ & Hcf & _). apply (f_equal length) in Hcf. rewrite !length_fmap in Hcf. lia. }
  assert (s_started (ms_sess e) = false) as Hs.
  { destruct (s_started (ms_sess e)) eqn:E; [|done]. by rewrite (mi_running _ _ Hi3 i e He (not_none i) E) in Hdown. }
  split_and!; [done|done|]. destruct (mi_entries _ _ Hi3 i e He) as (c & _ & Hb). destruct (Hb (sworld (mlive s3))) as [_ [Hok|(Hk & _)]].
  - left. exact (sinv_stopped _ Hok Hs).
  - right. destruct Hk as (now' & Hin). exists now'. split; [done|]. by apply (kept_protected _ i).
Qed.

Lemma exports_validated entry c : Validated (session_config entry) = Ok c -> NoDup (ex_Prefix <$> Export_ c).
Proof.
  unfold Validated. intros H. passed. repeat apply res_bind_ok in H as (? & ? & H). injection H as <-. cbn.
  match goal with H : validatedExportRules _ _ = Ok _ |- _ => by apply validatedExportRules_wf in H as (_ & ? & _) end.
Qed.

Lemma backupActive_true snapshot backup p : default false (backupActive snapshot backup !! p) = true <->
  exists ids, backup !! p = Some ids /\ forall id, id ∈ ids -> ipv6Ready snapshot id = false.
Proof.
  unfold backupActive. rewrite lookup_fmap. destruct (backup !! p) as [ids|]; cbn; [|by split; [|intros (?&?&_)]].
  rewrite negb_true_iff. split.
  - intros H. exists ids. split; [done|]. intros id Hid. destruct (ipv6Ready snapshot id) eqn:E; [|done].
    rewrite <- H. symmetry. apply existsb_exists. exists id. by rewrite <- list_elem_of_In.
  - intros (? & [= <-] & H). apply not_true_is_false. intros (id & Hid%list_elem_of_In & E)%existsb_exists. by rewrite H in E.
Qed.

(** When a session of a running module takes a new advertisement without an error, it
    advertises exactly the export prefixes it should: none unless its own connection is ready
    for IPv6, and then those exported always and the backup prefixes none of whose primary
    connections is ready. *)
Lemma advertises_when_ready cfg live l steps snapshot i e s' :
  let s := (run_module steps (boot cfg live l)).2 in
  let key := Key (se_ref (ms_cfg e)) in
  m_sessions (mm s) !! i = Some e ->
  onSession [] i (SetAdvertisement (ipv6Ready snapshot key) (backupActive snapshot (BackupFor (ms_cfg e)))) s = ([], s') ->
  exists e', m_sessions (mm s') !! i = Some e' /\ forall p, p ∈ advertised (ms_sess e') <->
    ipv6Ready snapshot key = true /\ exists rule, rule ∈ Export_ (s_cfg (ms_sess e)) /\ ex_Prefix rule = p /\
      (ex_Mode rule = ExportAlways \/
       exists ids, BackupFor (ms_cfg e) !! p = Some ids /\ forall id, id ∈ ids -> ipv6Ready snapshot id = false).
Proof.
  intros s key He Hcall. destruct (reachable_module cfg live l steps) as [Hf _]. fold s in Hf. destruct Hf as [Hi Hst].
  destruct (mi_entries _ _ Hi i e He) as (c & Hv & Hb). destruct (Hb (sworld (mlive s))) as [Hc [[Hs _]|(Hk & _)]];
    [|by destruct (running_kept s i Hi Hst)]. cbn in Hc, Hs.
  match type of Hcall with onSession _ _ ?m _ = _ => pose proof (onSession_spec [] i m s e He) as [Hr (Hcore & _)];
    pose proof (SetAdvertisement_exact (ipv6Ready snapshot key) (backupActive snapshot (BackupFor (ms_cfg e))) (call_state e s)) as Hex end.
  rewrite Hcall in Hr, Hcore. cbn [fst snd] in Hr, Hcore. unfold wp in Hex. rewrite <- Hr in Hex.
  specialize (Hex ltac:(cbn; rewrite Hc; by eapply exports_validated) (i_advertised _ Hs) eq_refl).
  assert (exists e', m_sessions (mm s') !! i = Some e') as [e' He'].
  { apply lookup_lt_is_Some. apply (f_equal length) in Hcore. rewrite !length_fmap in Hcore. rewrite Hcore. cbn. rewrite length_insert. by eapply lookup_lt_Some. }
  exists e'. split; [done|]. destruct (core_lookup _ _ _ _ Hcore He') as (e1 & He1 & Heq). cbn in He1.
  rewrite list_lookup_insert_eq in He1 by (by eapply lookup_lt_Some). injection He1 as <-. injection Heq as _ <- _ _.
  intros p. cbn. unfold adv in Hex. rewrite Hex. cbn. setoid_rewrite <- backupActive_true.
  unfold exportAdvertised. destruct (ipv6Ready snapshot key); cbn; [|split; [by intros (?&_&_&?)|by intros [? _]]].
  setoid_rewrite orb_true_iff. setoid_rewrite Z.eqb_eq. naive_solver.
Qed.
End Module.
