(* ===== verification/BgpDemo.v ===== *)
(** * A session with one peer, and a module that runs it

    Concrete texts for prefixes, a kernel that accepts every route and a server that accepts
    every request: the hypotheses of the theorems about sessions hold of them. *)

From Stdlib Require Import Ascii.
From S2P Require Import Prelude GoStrings Effects NptPolicy Notify Tier Health Observation Intent BgpConfig WanState Readiness Daemon BgpFib BgpSession BgpSessionProps BgpModule BgpModuleProps.

Local Open Scope Z_scope.

(** ** Texts

    The length in unary, then the bytes of the address. *)

Definition byte_text (b : list Z) : string :=
  String.string_of_list_ascii ((fun x => Ascii.ascii_of_N (Z.to_N x)) <$> b).
Definition text_bytes (s : string) : list Z :=
  (fun a => Z.of_N (Ascii.N_of_ascii a)) <$> String.list_ascii_of_string s.

Fixpoint unary (n : nat) (rest : string) : string :=
  match n with O => String "/"%char rest | S n => String "1"%char (unary n rest) end.
Fixpoint parse_unary (s : string) : option (Z * string) :=
  match s with
  | String "1"%char s => '(n, rest) ← parse_unary s; Some (n + 1, rest)
  | String "/"%char rest => Some (0, rest)
  | _ => None
  end.

Definition demo_prefix_String (p : Prefix) : string :=
  match pfx_addr p with
  | AddrNone => ""
  | Addr4 b => String "4"%char (unary (Z.to_nat (pfx_bits p)) (byte_text b))
  | Addr6 b _ => String "6"%char (unary (Z.to_nat (pfx_bits p)) (byte_text b))
  end.

Definition demo_ParsePrefix (s : string) : option Prefix :=
  match s with
  | String "4"%char s => '(n, rest) ← parse_unary s; Some (mkPrefix (Addr4 (text_bytes rest)) n)
  | String "6"%char s => '(n, rest) ← parse_unary s; Some (mkPrefix (Addr6 (text_bytes rest) "") n)
  | _ => None
  end.

Lemma parse_unary_ok n rest : parse_unary (unary n rest) = Some (Z.of_nat n, rest).
Proof. induction n as [|n IH]; [done|]. cbn [unary parse_unary]. rewrite IH. cbn. f_equal. f_equal. lia. Qed.

Lemma parse_unary_nonneg s : forall n rest, parse_unary s = Some (n, rest) -> 0 <= n.
Proof.
  induction s as [|a s IH]; intros n rest; cbn [parse_unary]; [done|].
  destruct a as [[] [] [] [] [] [] [] []]; cbn; try done; try (intros [= <- <-]; lia).
  destruct (parse_unary s) as [[m r]|] eqn:E; cbn; [|done]. intros [= <- <-]. specialize (IH m r eq_refl). lia.
Qed.

(** The bytes of a masked prefix are bytes. *)
Lemma masked_bytes bits b : 0 <= bits -> mask_bytes bits b = b -> Forall (fun x => 0 <= x < 256) b.
Proof.
  intros _ H. apply Forall_lookup. intros i x Hx. pose proof Hx as Hx'. rewrite <- H in Hx'. unfold mask_bytes in Hx'.
  rewrite list_lookup_imap, Hx in Hx'. cbn in Hx'. injection Hx' as Hx'.
  assert (0 <= byte_mask bits i < 256) as Hm.
  { unfold byte_mask, mask, bits_in. assert (0 < 2 ^ (8 - Z.max 0 (Z.min 8 (bits - 8 * Z.of_nat i))) <= 2 ^ 8); [|lia].
    split; [apply Z.pow_pos_nonneg; lia|apply Z.pow_le_mono_r; lia]. }
  rewrite <- Hx'. replace (byte_mask bits i) with (Z.land (byte_mask bits i) (Z.ones 8))
    by (rewrite Z.land_ones by lia; apply Z.mod_small; lia).
  rewrite Z.land_assoc, Z.land_ones by lia. apply Z.mod_pos_bound. lia.
Qed.

Lemma text_bytes_ok b : Forall (fun x => 0 <= x < 256) b -> text_bytes (byte_text b) = b.
Proof.
  unfold text_bytes, byte_text. rewrite String.list_ascii_of_string_of_list_ascii. induction 1 as [|x b Hx Hb IH]; [done|].
  cbn. f_equal; [|done]. rewrite Ascii.N_ascii_embedding by lia. lia.
Qed.

Lemma demo_parse_String p : IsValid p = true -> Masked p = p -> demo_ParsePrefix (demo_prefix_String p) = Some p.
Proof.
  destruct p as [[|b|b z] n]; unfold IsValid, Masked, IsValid; cbn [pfx_addr pfx_bits]; intros Hv; rewrite Hv; [by intros [= <-]|..]; intros Hm;
    unfold demo_prefix_String; cbn [pfx_addr pfx_bits demo_ParsePrefix]; rewrite parse_unary_ok; cbn;
    injection Hm as Hm; subst; (rewrite text_bytes_ok by (eapply masked_bytes; [|exact Hm]; lia)); do 2 f_equal; lia.
Qed.

Lemma demo_parse_valid s p : demo_ParsePrefix s = Some p -> IsValid p = true /\ addr_valid (pfx_addr p) = true.
Proof.
  unfold demo_ParsePrefix. destruct s as [|a s]; [done|]. destruct a as [[] [] [] [] [] [] [] []]; cbn; try done.
  all: destruct (parse_unary s) as [[n rest]|] eqn:E; cbn; [|done]; intros [= <-]; apply parse_unary_nonneg in E;
    unfold IsValid; cbn; (split; [lia|done]).
Qed.

#[local] Instance demo_text : PrefixText := {|
  addr_String a := byte_text (addr_bytes a);
  prefix_String := demo_prefix_String;
  ParsePrefix := demo_ParsePrefix;
  parse_prefix_String := demo_parse_String;
  parse_prefix_valid := demo_parse_valid |}.

(** ** The world *)

#[local] Instance demo_writer : RouteWriter unit := {
  ReconcileTableRoute _ w := (None, w); DeleteTableRoute _ w := (None, w);
  ListProtocolRoutes _ _ _ w := (inl [], w); RouteMatch _ _ _ w := (inl None, w) }.

Lemma demo_range_perm A (w : unit) (l : list A) : l ≡ₚ l.
Proof. done. Qed.

#[local] Instance demo_order : MapOrder unit := {| range_order A _ l := l; range_perm := demo_range_perm |}.

#[local] Instance demo_gobgp : GoBGP unit := {
  FsmState := bool; BGP_FSM_IDLE := false; BGP_FSM_ESTABLISHED := true;
  fsm_String b := if b then "established" else "idle";
  NLRI := Prefix; nlri_String := demo_prefix_String; NewIPAddrPrefix := Ok; NewMpReachNLRI _ _ := Ok tt }.

#[local] Instance demo_server : BgpServer unit := {
  StartBgp _ _ _ w := (None, w); WatchEvent _ w := (None, w); AddPeer _ w := (None, w); AddPath _ w := (None, w);
  DeletePath _ w := (None, w); ListPath w := (Ok [], w); StopServer w := (tt, w); StopBgpGraceful w := (None, w);
  sessionNow w := (0, w) }.

(** ** The session *)

(** 2001:db8:[x]::1 and its network. *)
Definition db8 (x : Z) (host : Z) : Addr := Addr6 ([32; 1; 13; 184; 0; x] ++ repeat 0 9 ++ [host]) "".
Definition net48 (x : Z) : Prefix := mkPrefix (db8 x 0) 48.

Definition demo_config : SessionConfig :=
  mkSessionConfig "transit" (Addr4 [192; 0; 2; 1]) [FamilyIPv6Unicast] 64512 64513 (db8 0 1) 179 AddrNone "wgtransit" 0
    30 90 0 0 [mkImportRule (mkPrefix (db8 0 0) 40) 44 64] [mkExportRule (net48 9) ExportAlways None None 0 [] [] (db8 0 2)]
    [RT_TABLE_MAIN] 200.

Definition demo_parts : Session * FIB :=
  match NewSession demo_config with Ok p => p | Err _ => (new_session demo_config, newFIB (mkFIBConfig [] "" 0 false)) end.

Lemma demo_new : NewSession demo_config = Ok (demo_parts.1, demo_parts.2).
Proof. vm_compute. reflexivity. Qed.

Definition announce (p : Prefix) (nexthop : Addr) : option Path :=
  Some (mkBgpPath true (Some p) (db8 0 1) false false true [MpReachNLRI [p] nexthop]).

(** The peer announces a prefix, one outside the import rule and one the session exports. *)
Definition demo_ops : list (session_op (W := unit)) :=
  [OpStart; OpPeerEvent true true false 7;
   OpBestPaths [announce (net48 3) (db8 0 1); announce (mkPrefix (db8 0 0) 32) (db8 0 1); announce (net48 9) (db8 0 1)];
   OpAdvertise true ∅; OpRefresh].



(** ** A module with one session

    A session that a peer comes up on, one stale route from an earlier process, and a
    shutdown: the hypotheses of the theorems about the module hold of this run. *)

(** ** The world

    It counts how often the module asked for what the sessions did meanwhile. *)

#[local] Existing Instance demo_text.
#[local] Instance mod_types : DistributionTypes := { DistributionPlan := unit; DistributionEvidence := unit }.
#[local] Instance mod_store : StoreWorld nat := { wallNow w := (Z.of_nat w, w); CloneCheck := Ok; CloneResult := Ok }.

Definition stale_route : CurrentRoute :=
  mkCurrentRoute "inet6" (demo_prefix_String (net48 5)) "fe80::1" "wgtransit" RT_TABLE_MAIN RTPROT_BGP 200 0 1 [].

#[local] Instance mod_writer : RouteWriter nat := {
  ReconcileTableRoute _ w := (None, w); DeleteTableRoute _ w := (None, w);
  ListProtocolRoutes _ _ _ w := (inl [stale_route], w); RouteMatch _ _ _ w := (inl None, w) }.
#[local] Instance mod_order : MapOrder nat := {| range_order A _ l := l; range_perm A w l := reflexivity l |}.
#[local] Instance mod_gobgp : GoBGP nat := {
  FsmState := bool; BGP_FSM_IDLE := false; BGP_FSM_ESTABLISHED := true;
  fsm_String b := if b then "established" else "idle";
  NLRI := Prefix; nlri_String := demo_prefix_String; NewIPAddrPrefix := Ok; NewMpReachNLRI _ _ := Ok tt }.
#[local] Instance mod_server : BgpServer nat := {
  StartBgp _ _ _ w := (None, w); WatchEvent _ w := (None, w); AddPeer _ w := (None, w); AddPath _ w := (None, w);
  DeletePath _ w := (None, w); ListPath w := (Ok [], w); StopServer w := (tt, w); StopBgpGraceful w := (None, w);
  sessionNow w := (Z.of_nat w, w) }.

(** The peer of the first session comes up and announces a prefix. *)
Definition peer_comes_up : list (nat * callback (W := nat)) :=
  [(0%nat, CbPeerEvent true true true 7);
   (0%nat, CbBestPaths [Some (mkBgpPath true (Some (net48 3)) (db8 0 1) false false true [MpReachNLRI [net48 3] (db8 0 1)])])].

#[local] Instance mod_world : ModuleWorld (W := nat) := {
  readJournal _ w := (JournalAbsent, w);
  writeJournal _ _ w := (None, w);
  InterfaceByName _ w := (Some 4, w);
  moduleNow w := (Z.of_nat w * Second, w);
  callbacks w := (if bool_decide (w = 3%nat) then peer_comes_up else [], S w) }.

Definition demo_session : SessionConfig :=
  mkSessionConfig "transit" (Addr4 [192; 0; 2; 1]) [FamilyIPv6Unicast] 64512 64513 (db8 0 1) 179 AddrNone "" 0
    30 90 0 120 [mkImportRule (mkPrefix (db8 0 0) 40) 44 64] [mkExportRule (net48 9) ExportAlways None None 0 [] [] (db8 0 2)]
    [] 200.

Definition demo_entry : SessionEntry := mkSessionEntry (mkWANRef "transit" "transit" "wgtransit") demo_session ∅ "" 0.

Definition demo_module : ModuleConfig :=
  mkModuleConfig [demo_entry] "/state" [].

Definition demo_live : ssys nat := mkSsys NewStore 0%nat [].

(** The session starts and the sweep runs; the peer comes up before the second pass. *)
Definition demo_steps : list module_step := [StepReconcile; StepCallbacks; StepReconcile].

Abbreviation demo_run := ((run_module demo_steps (boot demo_module true demo_live)).2) (only parsing).

(** ** Witnesses *)

Definition learned_route : RouteSpec :=
  mkRouteSpec ipv6RouteFamily (demo_prefix_String (net48 3)) (byte_text (addr_bytes (db8 0 1))) "wgtransit" RT_TABLE_MAIN 200 RTPROT_BGP.
Definition swept_route : RouteSpec :=
  mkRouteSpec familyV6 (demo_prefix_String (net48 5)) "fe80::1" "wgtransit" RT_TABLE_MAIN 200 RTPROT_BGP.


(** The store the sessions publish to: no connection is ready. *)
Definition unready_snapshot : Snapshot := (TakeSnapshot demo_live).1.

Lemma split_result {A B} (p : A * B) a : p.1 = a -> p = (a, p.2).
Proof. by destruct p; cbn; intros ->. Qed.

