(* ===== verification/NetWire.v ===== *)
(** * The network document (gateway/internal/networkjson)

    The records the JSON document decodes to, and the texts its leaves are parsed with.  An
    optional leaf is an [option], an absent string the empty one; the decoder keeps every
    number in the width of its Go type. *)

From Stdlib Require Import Ascii.
From S2P Require Import Prelude GoStrings NptPolicy Intent BgpConfig BgpFib.

Local Open Scope Z_scope.

(** ** Links *)

Record nativeControllerWire := mkNativeControllerWire {
  ncw_PCI : string;
  ncw_ReceiverVF : option Z;
  ncw_DataVF : option Z;
  ncw_PhysicalMiss : option bool;
}.

Record nativeOffloadWire := mkNativeOffloadWire {
  now_DataPCI : string;
  now_DataMAC : string;
  now_Controller : option nativeControllerWire;
}.

Record linkVXLAN := mkLinkVXLAN {
  lv_VNI : option Z;
  lv_SourcePortMin : option Z;
  lv_SourcePortMax : option Z;
  lv_DestinationPort : option Z;
  lv_TOS : option Z;
}.

Record linkTunnel := mkLinkTunnel {
  lt_Protocol : string;
  lt_Underlay : string;
  lt_RemoteAddress : string;
  lt_LocalAddress : string;
  lt_TTL : option Z;
  lt_VXLAN : option linkVXLAN;
}.

Record linkMatch := mkLinkMatch { lm_Driver : string; lm_HardwareAddress : string }.
Record linkVLAN := mkLinkVLAN { lvl_Parent : string; lvl_ID : option Z }.

Record linkIdentity := mkLinkIdentity {
  li_Match : option linkMatch;
  li_HardwareAddress : string;
  li_MTU : option Z;
  li_VLAN : option linkVLAN;
  li_BridgeMaster : string;
  li_Tunnel : option linkTunnel;
  li_NativeOffload : option nativeOffloadWire;
}.

Record networkdEntry := mkNetworkdEntry { ne_Index : option Z; ne_Key : string; ne_Value : string }.
Record networkdSection := mkNetworkdSection { ns_Index : option Z; ns_Name : string; ns_Entries : list networkdEntry }.
Record networkdFile := mkNetworkdFile { nf_Kind : string; nf_Sections : list networkdSection }.
Record networkdContainer := mkNetworkdContainer { nc_Files : list networkdFile }.

(** ** Families *)

Record ipAddress := mkIpAddress { ia_IP : string; ia_PrefixLength : option Z }.

Record routeWire := mkRouteWire {
  rw_Destination : string;
  rw_Gateway : string;
  rw_TableID : option Z;
  rw_Metric : Z;
}.

Record resolver := mkResolver { rs_DNSServers : list string; rs_SearchDomains : list string }.

Record staticMapping := mkStaticMappingWire { smw_External : string; smw_Internal : string; smw_Delivery : string }.

Record nptTranslation := mkNptTranslation {
  nt_InternalPrefix : string;
  nt_ExternalSource : string;
  nt_ExternalPrefix : string;
  nt_ExpectedPrefix : string;
}.

Record familyTranslation := mkFamilyTranslation {
  ft_Mode : string;
  ft_StaticMappings : list staticMapping;
  ft_NPT : option nptTranslation;
}.

Record familyWire := mkFamilyWire {
  fw_Enabled : option bool;
  fw_Forwarding : option bool;
  fw_Address : list ipAddress;
  fw_DHCP : option bool;
  fw_Gateway : string;
  fw_RouteMetric : option Z;
  fw_Routes : list routeWire;
  fw_Resolver : option resolver;
  fw_Translation : option familyTranslation;
}.

Record dhcpv4 := mkDhcpv4Wire { d4w_ClientID : string; d4w_UseDNS : option bool; d4w_UseRoutes : option bool }.

Record familyV4 := mkFamilyV4 {
  f4_wire : familyWire;
  f4_SourceAddresses : list string;
  f4_DHCPv4 : option dhcpv4;
}.

Record forwardingAddress := mkForwardingAddressWire { faw_Address : string; faw_Delivery : string }.

Record dhcpv6 := mkDhcpv6Wire {
  d6w_DUIDType : string;
  d6w_DUID : string;
  d6w_IANAIAID : option Z;
  d6w_IAPDIAID : option Z;
  d6w_RequestAddress : option bool;
  d6w_RequestPrefix : option bool;
  d6w_WithoutRA : string;
  d6w_UseDNS : option bool;
}.

Record delegation := mkDelegationWire {
  dw_Hint : string;
  dw_DUIDType : string;
  dw_DUID : string;
  dw_WithoutRA : string;
  dw_UseDelegatedPrefix : option bool;
  dw_RouterLifetimeSeconds : option Z;
  dw_IAID : option Z;
}.

Record familyV6 := mkFamilyV6 {
  f6_wire : familyWire;
  f6_AcceptRA : option bool;
  f6_AutoConf : option bool;
  f6_AcceptRADefaultRoute : option bool;
  f6_UseRADNS : option bool;
  f6_Delegation : option delegation;
  f6_DHCPv6 : option dhcpv6;
  f6_ForwardingAddresses : list forwardingAddress;
}.

(** ** Providers *)

Record bgpImportWire := mkBgpImportWire { biw_Prefix : string; biw_MinLength : option Z; biw_MaxLength : option Z }.

Record bgpExportWire := mkBgpExportWire {
  bew_Prefix : string;
  bew_Mode : string;
  bew_BackupFor : list string;
  bew_NextHop : string;
  bew_MED : option Z;
  bew_LocalPreference : option Z;
  bew_PrependCount : Z;
  bew_Communities : list string;
  bew_LargeCommunities : list string;
}.

Record bgpSessionWire := mkBgpSessionWire {
  bw_Name : string;
  bw_PeerAddress : string;
  bw_PeerPort : option Z;
  bw_LocalAddress : string;
  bw_LocalAS : option Z;
  bw_RemoteAS : option Z;
  bw_Families : list string;
  bw_MultihopTTL : option Z;
  bw_Keepalive : option Z;
  bw_Hold : option Z;
  bw_ConnectRetry : option Z;
  bw_GracefulRestartTime : option Z;
  bw_RouteMetric : option Z;
  bw_Import : list bgpImportWire;
  bw_Export : list bgpExportWire;
}.

Record health := mkHealthWire {
  hw_Enabled : option bool;
  hw_PingCount : option Z;
  hw_SuccessThreshold : option Z;
  hw_FailureThreshold : option Z;
  hw_RecoveryThreshold : option Z;
  hw_CheckInterval : option Z;
  hw_TargetsV4 : list string;
  hw_TargetsV6 : list string;
  hw_HTTPURLs : list string;
}.

Record wan := mkWanWire {
  ww_Name : string;
  ww_TableID : option Z;
  ww_FwMark : option Z;
  ww_FwMarkPrio : option Z;
  ww_FromPrio : option Z;
  ww_V4Source : string;
  ww_ForcedDSCP : option Z;
  ww_Health : option health;
  ww_BGPSessions : list bgpSessionWire;
}.

Record steering := mkSteering { st_Enabled : option bool; st_Tier : option Z; st_Weight : option Z }.

(** ** The document *)

Record ifaceEntry := mkIfaceEntry {
  e_Name : string;
  e_Type : string;
  e_Enabled : option bool;
  e_ConnectionID : string;
  e_Owner : string;
  e_LinkFiles : string;
  e_LeaseStore : string;
  e_Link : option linkIdentity;
  e_Networkd : option networkdContainer;
  e_IPv4 : option familyV4;
  e_IPv6 : option familyV6;
  e_WAN : option wan;
  e_Steering : option steering;
}.

Definition linkFilesRendered : string := "rendered".
Definition linkFilesHandAuthored : string := "hand-authored".

(** ** Texts

    The parsers of [netip] and [net], and the DHCP library's check of a DUID. *)
Class NetText `{PT : !PrefixText} := {
  ParseAddr : string -> option Addr;
  ParseMAC : string -> option (list Z);
  DUIDFromBytes : list Z -> bool;
  parse_addr_valid text a : ParseAddr text = Some a -> addr_valid a = true;
}.

Definition hex_digit (c : ascii) : option Z :=
  let v := byte_val c in
  if (48 <=? v) && (v <=? 57) then Some (v - 48)
  else if (97 <=? v) && (v <=? 102) then Some (v - 87)
  else if (65 <=? v) && (v <=? 70) then Some (v - 55)
  else None.

(** [hex.DecodeString] *)
Fixpoint hex_decode (s : string) : option (list Z) :=
  match s with
  | EmptyString => Some []
  | String a (String b rest) =>
      match hex_digit a, hex_digit b, hex_decode rest with
      | Some x, Some y, Some bytes => Some (16 * x + y :: bytes)
      | _, _, _ => None
      end
  | String _ EmptyString => None
  end.

(** [strconv.ParseUint(s, 16, bits)] on a text that is not empty. *)
Fixpoint hex_from (acc : Z) (s : string) : option Z :=
  match s with
  | EmptyString => Some acc
  | String c s => match hex_digit c with Some d => hex_from (16 * acc + d) s | None => None end
  end.
Definition ParseUint16 (s : string) (bits : Z) : option Z :=
  if bool_decide (s = ""%string) then None
  else match hex_from 0 s with
       | Some v => if v <? 2 ^ bits then Some v else None
       | None => None
       end.

(** [strings.ReplaceAll(s, c, "")] and [strings.ContainsAny]. *)
Fixpoint remove_char (c : ascii) (s : string) : string :=
  match s with
  | EmptyString => EmptyString
  | String d s => if Ascii.eqb c d then remove_char c s else String d (remove_char c s)
  end.
Definition contains_any (s chars : string) : bool := negb (all_chars (fun c => lacks c chars) s).

Definition is_empty (s : string) : bool := bool_decide (s = ""%string).
Definition is_some {A} (o : option A) : bool := match o with Some _ => true | None => false end.
Definition is_none {A} (o : option A) : bool := negb (is_some o).
Definition nonempty {A} (l : list A) : bool := match l with [] => false | _ => true end.

Lemma is_empty_true s : is_empty s = true <-> s = ""%string.
Proof. apply bool_decide_eq_true. Qed.
Lemma is_empty_false s : is_empty s = false <-> s <> ""%string.
Proof. apply bool_decide_eq_false. Qed.
Lemma is_some_true {A} (o : option A) : is_some o = true <-> exists a, o = Some a.
Proof. destruct o; cbn; naive_solver. Qed.
#[export] Hint Rewrite is_empty_true is_empty_false @is_some_true : go.

(** [flag != nil && *flag] *)
Definition is_set (flag : option bool) : bool := match flag with Some b => b | None => false end.

Section Text.
Context `{NT : NetText}.

(** The errors of this package quote values the messages here leave out. *)
Definition parseAddress (label leaf raw : string) : res Addr :=
  match ParseAddr raw with
  | Some a => Ok a
  | None => Err (label +:+ ": " +:+ leaf)
  end.
End Text.
