(* ===== verification/NetLink.v ===== *)
(** * Links of the network document (networkjson/{tunnel,vxlan,native,intent}.go,
      interfaceintent/native.go)

    PCI addresses and native offload bindings, tunnels, and how the link of one interface
    entry is built or refused. *)

From Stdlib Require Import Ascii.
From S2P Require Import Prelude GoStrings NptPolicy Intent BgpConfig BgpFib NetWire.

Local Open Scope Z_scope.

(** ** PCI addresses (interfaceintent/native.go) *)

Definition hex_char (d : Z) : ascii := of_val (if d <? 10 then 48 + d else 87 + d).

(** [%0{width}x] of a number below [16 ^ width]. *)
Fixpoint hex_pad (width : nat) (v : Z) : string :=
  match width with
  | O => ""
  | S w => hex_pad w (v / 16) +:+ String (hex_char (v mod 16)) ""
  end.

Definition PCIAddress_String (a : PCIAddress) : string :=
  hex_pad 4 (pci_Domain a) +:+ ":" +:+ hex_pad 2 (pci_Bus a) +:+ ":" +:+ hex_pad 2 (pci_Device a) +:+ "."
  +:+ hex_pad (if pci_Function a <? 16 then 1 else 2) (pci_Function a).

Definition char_at (s : string) (n : nat) : ascii := default zero (String.get n s).

Definition ParsePCIAddress (text : string) : res PCIAddress :=
  (check reject_if (negb (String.length text =? 12)%nat || neqc (char_at text 4) ":" || neqc (char_at text 7) ":"
                    || neqc (char_at text 10) ".") "PCI address requires dddd:bb:dd.f" ;;
   match ParseUint16 (String.substring 0 4 text) 16, ParseUint16 (String.substring 5 2 text) 8,
         ParseUint16 (String.substring 8 2 text) 8, ParseUint16 (String.substring 11 1 text) 8 with
   | Some domain, Some bus, Some device, Some function =>
       let a := mkPCIAddress domain bus device function in
       if (31 <? device) || (7 <? function) || negb (bool_decide (PCIAddress_String a = text))
       then Err "PCI address requires canonical dddd:bb:dd.f with device <= 31 and function <= 7"
       else Ok a
   | _, _, _, _ => Err "PCI address does not parse"
   end)%go.

(** ** Native bindings (networkjson/native.go, interfaceintent/native.go) *)

(** A MAC the kernel would use: six bytes, not multicast, not zero. *)
Definition unicast_mac (mac : list Z) : bool :=
  (length mac =? 6)%nat && (Z.land (byte_at mac 0) 1 =? 0) && negb (bool_decide (mac = repeat 0 6)).

Section Link.
Context `{NT : NetText}.

Definition buildNativeController (wire : nativeControllerWire) : res NativeOffloadController :=
  match ncw_ReceiverVF wire, ncw_DataVF wire, ncw_PhysicalMiss wire with
  | Some receiver, Some data, Some miss =>
      (pci <-? ParsePCIAddress (ncw_PCI wire) ;; Ok (mkNativeController pci receiver data miss))%go
  | _, _, _ => Err "native-offload/controller requires receiver-vf, data-vf and physical-miss"
  end.

Definition buildNativeOffloadBinding (wire : option nativeOffloadWire) : res (option NativeOffloadBinding) :=
  match wire with
  | None => Ok None
  | Some wire =>
      (pci <-? ParsePCIAddress (now_DataPCI wire) ;;
       mac <-? (match ParseMAC (now_DataMAC wire) with Some mac => Ok mac | None => Err "native-offload/data-mac" end) ;;
       check reject_if (negb (unicast_mac mac)) "native-offload/data-mac requires a nonzero six-byte unicast address" ;;
       match now_Controller wire with
       | None => Ok (Some (mkNativeBinding pci mac None))
       | Some c => (controller <-? buildNativeController c ;; Ok (Some (mkNativeBinding pci mac (Some controller))))
       end)%go
  end.

Definition validateNativeBinding (link : Link) (binding : NativeOffloadBinding) : res unit :=
  (check reject_if (negb (bool_decide (link_Kind link = KindPhysical)) || is_some (link_VLAN link) || is_some (link_Tunnel link)
                    || negb (is_empty (BridgeMaster link)))
           "native offload requires an untagged physical link outside a bridge" ;;
   check ParsePCIAddress (PCIAddress_String (DataPCI binding)) ;;
   check reject_if (bool_decide (DataMAC binding = repeat 0 6) || negb (Z.land (byte_at (DataMAC binding) 0) 1 =? 0))
           "native DATA MAC must be a nonzero unicast address" ;;
   match Controller binding with
   | None => Ok tt
   | Some c =>
       (check ParsePCIAddress (PCIAddress_String (ctl_PCI c)) ;;
        reject_if (ReceiverVF c =? DataVF c) "native receiver and DATA VF overlap")
   end)%go.

Definition nativeReceiverMAC (link : Link) : res (list Z) :=
  let mac := if is_empty (link_HardwareAddress link) then match_HardwareAddress (link_Match link) else link_HardwareAddress link in
  if is_empty mac then Ok (repeat 0 6)
  else match ParseMAC mac with
       | None => Err "receiver MAC"
       | Some receiver =>
           (check reject_if (negb (unicast_mac receiver)) "receiver MAC requires a nonzero six-byte unicast address" ;;
            Ok receiver)%go
       end.

(** One connection's two addresses under its controller; [seen] are the earlier ones. *)
Definition mac_roles (seen : list (PCIAddress * list Z)) (connection : Connection) : res (list (PCIAddress * list Z)) :=
  match conn_Link connection with
  | Some link =>
      match NativeOffload link with
      | Some binding =>
          match Controller binding with
          | Some c =>
              (receiver <-? nativeReceiverMAC link ;;
               fold_res (fun seen address =>
                 if bool_decide (address = repeat 0 6) then Ok seen
                 else if bool_decide ((ctl_PCI c, address) ∈ seen) then Err "native controller has overlapping MAC roles"
                 else Ok ((ctl_PCI c, address) :: seen)) seen [DataMAC binding; receiver])%go
          | None => Ok seen
          end
      | None => Ok seen
      end
  | None => Ok seen
  end.

Definition validateNativeMACRoles (connections : list Connection) : res unit :=
  (check fold_res mac_roles [] connections ;; Ok tt)%go.

(** What the loop over the bindings collects: the DATA devices, the controllers with the
    number of their physical-miss receivers, and the functions in use. *)
Record native_graph := mkNativeGraph {
  ng_data : list PCIAddress;
  ng_controllers : list (PCIAddress * Z);
  ng_roles : list (PCIAddress * Z);
}.

Definition count_miss (pci : PCIAddress) (miss : bool) (l : list (PCIAddress * Z)) : list (PCIAddress * Z) :=
  let l := if bool_decide (pci ∈ l.*1) then l else (pci, 0) :: l in
  if miss then (fun '(p, n) => if bool_decide (p = pci) then (p, n + 1) else (p, n)) <$> l else l.

Definition native_binding_step (g : native_graph) (connection : Connection) : res native_graph :=
  match conn_Link connection with
  | Some link =>
      match NativeOffload link with
      | Some binding =>
          (check validateNativeBinding link binding ;;
           check reject_if (bool_decide (DataPCI binding ∈ ng_data g)) "native DATA PCI is shared" ;;
           let data := DataPCI binding :: ng_data g in
           match Controller binding with
           | None => Ok (mkNativeGraph data (ng_controllers g) (ng_roles g))
           | Some c =>
               (roles <-? fold_res (fun roles vf =>
                  if bool_decide ((ctl_PCI c, vf) ∈ roles) then Err "native controller VF overlaps roles"
                  else Ok ((ctl_PCI c, vf) :: roles)) (ng_roles g) [ReceiverVF c; DataVF c] ;;
                Ok (mkNativeGraph data (count_miss (ctl_PCI c) (PhysicalMiss c) (ng_controllers g)) roles))
           end)%go
      | None => Ok g
      end
  | None => Ok g
  end.

Definition ValidateNativeBindings (connections : list Connection) : res unit :=
  (g <-? fold_res native_binding_step (mkNativeGraph [] [] []) connections ;;
   match ng_data g, ng_controllers g with
   | [], _ => Ok tt
   | _, [(controller, misses)] =>
       (check reject_if (bool_decide (controller ∈ ng_data g)) "native controller PCI also identifies a DATA device" ;;
        check reject_if (negb (misses =? 1)) "native controller requires exactly one physical-miss receiver" ;;
        validateNativeMACRoles connections)
   | _, _ => Err "native bindings require exactly one physical controller"
   end)%go.

(** ** Tunnels (tunnel.go, vxlan.go) *)

Definition TunnelProtocol6in4 : string := "6in4".
Definition TunnelProtocolVXLAN : string := "vxlan".
Definition IPv6MinimumMTU : Z := 1280.
Definition Tunnel6in4Overhead : Z := 20.
Definition TunnelVXLANOverhead : Z := 50.
Definition MaximumVXLANVNI : Z := 16777215.
Definition typeBridge : string := "iana-if-type:bridge".

Definition tunnelOverhead (protocol : string) : Z :=
  if bool_decide (protocol = TunnelProtocolVXLAN) then TunnelVXLANOverhead else Tunnel6in4Overhead.

Definition buildTunnelVXLAN (name : string) (wire : linkTunnel) : res (option VXLAN) :=
  if bool_decide (lt_Protocol wire = TunnelProtocol6in4) then
    (check reject_if (is_some (lt_VXLAN wire)) (name +:+ ": link/tunnel/vxlan requires protocol vxlan") ;; Ok None)%go
  else if bool_decide (lt_Protocol wire = TunnelProtocolVXLAN) then
    match lt_VXLAN wire with
    | None => Err (name +:+ ": link/tunnel/vxlan is required")
    | Some s =>
        match lv_VNI s, lv_SourcePortMin s, lv_SourcePortMax s, lv_DestinationPort s, lv_TOS s with
        | Some vni, Some min, Some max, Some port, Some tos =>
            (check reject_if ((MaximumVXLANVNI <? vni) || (min =? 0) || (port =? 0))
                     (name +:+ ": link/tunnel/vxlan requires a 24-bit VNI and nonzero UDP ports") ;;
             check reject_if (max <=? min) (name +:+ ": link/tunnel/vxlan requires source-port-min less than source-port-max") ;;
             Ok (Some (mkVXLAN vni min max port tos)))%go
        | _, _, _, _, _ => Err (name +:+ ": link/tunnel/vxlan requires vni, source-port-min, source-port-max, destination-port and tos")
        end
    end
  else Err (name +:+ ": link/tunnel/protocol is not supported").

Definition rejectTunnelLinkLeaves (entry : ifaceEntry) (link : linkIdentity) : res unit :=
  (check reject_if (bool_decide (e_Type entry = typeBridge)) "bridge link cannot include a tunnel" ;;
   check reject_if (is_some (li_VLAN link)) "link cannot include both a tunnel and a vlan" ;;
   check reject_if (negb (is_empty (li_BridgeMaster link))) "link cannot include both a tunnel and a bridge-master" ;;
   check reject_if (is_some (li_Match link)) "tunnel link cannot include a device match" ;;
   reject_if (negb (is_empty (li_HardwareAddress link))) "tunnel link cannot include a hardware-address")%go.

Definition rejectTunnelIPv4 (entry : ifaceEntry) : res unit :=
  match e_IPv4 entry with
  | None => Ok tt
  | Some family =>
      let w := f4_wire family in
      reject_if (nonempty (fw_Address w) || is_set (fw_DHCP w) || is_some (f4_DHCPv4 family) || negb (is_empty (fw_Gateway w))
                 || nonempty (fw_Routes w) || nonempty (f4_SourceAddresses family))
        "a 6in4 tunnel transports only IPv6 and cannot include ipv4 addresses, DHCP, a gateway, or routes"
  end.

Definition tunnelDefaultGateway (family : familyWire) : bool :=
  negb (is_empty (fw_Gateway family)) ||
  existsb (fun route => match ParsePrefix (rw_Destination route) with
                        | Some destination => (pfx_bits destination =? 0) && negb (is_empty (rw_Gateway route))
                        | None => false
                        end) (fw_Routes family).

Definition validateTunnelProvider (entry : ifaceEntry) (provider : wan) : res unit :=
  (check reject_if (is_some (e_IPv4 entry)) "a 6in4 tunnel provider cannot include an ipv4 family" ;;
   match e_IPv6 entry with
   | None => Err "a 6in4 tunnel provider requires an ipv6 family"
   | Some ipv6 =>
       (check reject_if (negb (nonempty (ww_BGPSessions provider)) && negb (tunnelDefaultGateway (f6_wire ipv6)))
                "a 6in4 tunnel provider requires an ipv6 default route with an explicit gateway" ;;
        match ww_Health provider with
        | Some probe =>
            (check reject_if (negb (is_set (hw_Enabled probe)) || negb (nonempty (hw_TargetsV6 probe)))
                     "a 6in4 tunnel provider requires an enabled health probe with targets-v6" ;;
             reject_if (nonempty (hw_TargetsV4 probe)) "a 6in4 tunnel provider cannot probe targets-v4")
        | None => Err "a 6in4 tunnel provider requires an enabled health probe with targets-v6"
        end)
   end)%go.

(** 0.0.0.0/8, 127.0.0.0/8 and 224.0.0.0/3. *)
Definition reserved_v4 : list Prefix :=
  [mkPrefix (Addr4 [0; 0; 0; 0]) 8; mkPrefix (Addr4 [127; 0; 0; 0]) 8; mkPrefix (Addr4 [224; 0; 0; 0]) 3].

Definition parseTunnelEndpoint (name leaf raw : string) : res Addr :=
  (address <-? parseAddress ("interface " +:+ name) ("link/tunnel/" +:+ leaf) raw ;;
   check reject_if (negb (Is4 address) || existsb (fun reserved => Contains reserved address) reserved_v4)
           (leaf +:+ " must be a unicast IPv4 address") ;;
   Ok address)%go.

Definition buildIntentTunnel (entry : ifaceEntry) (link : linkIdentity) (wire : linkTunnel) : res Tunnel :=
  (check reject_if (negb (bool_decide (e_Owner entry = OwnerMWAN))) "tunnel link requires owner mwan" ;;
   check rejectTunnelLinkLeaves entry link ;;
   vxlan <-? buildTunnelVXLAN (e_Name entry) wire ;;
   check reject_if (is_empty (lt_Underlay wire)) "link/tunnel/underlay is required" ;;
   check reject_if (is_empty (lt_RemoteAddress wire)) "link/tunnel/remote-address is required" ;;
   remote <-? parseTunnelEndpoint (e_Name entry) "remote-address" (lt_RemoteAddress wire) ;;
   local <-? (if is_empty (lt_LocalAddress wire) then Ok AddrNone
              else parseTunnelEndpoint (e_Name entry) "local-address" (lt_LocalAddress wire)) ;;
   check reject_if (match lt_TTL wire with Some ttl => ttl =? 0 | None => false end) "link/tunnel/ttl must be between 1 and 255" ;;
   check reject_if (match li_MTU link with Some mtu => mtu <? IPv6MinimumMTU | None => false end)
           "tunnel mtu is below the IPv6 minimum" ;;
   check (if bool_decide (lt_Protocol wire = TunnelProtocol6in4) then
            (check rejectTunnelIPv4 entry ;;
             match e_WAN entry with Some provider => validateTunnelProvider entry provider | None => Ok tt end)
          else Ok tt) ;;
   Ok (mkTunnel (lt_Protocol wire) (lt_Underlay wire) remote local (lt_TTL wire) vxlan))%go.

(** ** Links (intent.go) *)

Definition buildIntentLink (entry : ifaceEntry) (wire : linkIdentity) : res Link :=
  (binding <-? buildNativeOffloadBinding (li_NativeOffload wire) ;;
   check reject_if (is_some binding && (is_some (li_VLAN wire) || is_some (li_Tunnel wire) || negb (is_empty (li_BridgeMaster wire))
                                        || bool_decide (e_Type entry = typeBridge)))
           "native offload requires an untagged physical link outside a bridge" ;;
   match li_Tunnel wire with
   | Some t =>
       (tunnel <-? buildIntentTunnel entry wire t ;;
        Ok (mkLink KindTunnel (mkMatch "" "") (li_HardwareAddress wire) (li_MTU wire) None (li_BridgeMaster wire) (Some tunnel) binding))
   | None =>
       let kind := if bool_decide (e_Type entry = typeBridge) then KindBridge else KindPhysical in
       let m := match li_Match wire with Some m => mkMatch (lm_Driver m) (lm_HardwareAddress m) | None => mkMatch "" "" end in
       let identities := (if is_empty (match_Driver m) then 0 else 1) + (if is_empty (match_HardwareAddress m) then 0 else 1) in
       vlan <-? (match li_VLAN wire with
                 | None => Ok None
                 | Some v =>
                     (check reject_if (bool_decide (kind = KindBridge) && bool_decide (e_Owner entry = OwnerMWAN))
                              "bridge link cannot include a vlan" ;;
                      match lvl_ID v with
                      | None => Err "link/vlan/id is required"
                      | Some id => Ok (Some (mkVLAN (lvl_Parent v) id))
                      end)
                 end) ;;
       let identities := identities + (if is_some vlan then 1 else 0) in
       let kind := if is_some vlan then KindVLAN else kind in
       check (if bool_decide (e_LinkFiles entry = linkFilesRendered) || bool_decide (e_Owner entry = OwnerMWAN) then
                if bool_decide (kind = KindBridge)
                then reject_if (negb (identities =? 0)) "bridge link cannot include a device match or vlan"
                else reject_if (negb (identities =? 1)) "link requires exactly one identity (driver, hardware-address, or vlan)"
              else Ok tt) ;;
       check reject_if (bool_decide (e_Owner entry = OwnerMWAN) && bool_decide (kind = KindPhysical)
                        && is_empty (match_HardwareAddress m)) "mwan physical link requires a hardware-address match" ;;
       Ok (mkLink kind m (li_HardwareAddress wire) (li_MTU wire) vlan (li_BridgeMaster wire) None binding)
   end)%go.
End Link.
