(* ===== verification/NetConn.v ===== *)
(** * Connections of the network document (networkjson/{intent,routes,dhcpv6,translation}.go,
      networkd/spec.go)

    How one interface entry becomes a connection: its owner, its families, its free-form
    unit files and the rules that refuse a combination the owner cannot serve. *)

From Stdlib Require Import Ascii.
From S2P Require Import Prelude GoStrings NptPolicy Intent BgpConfig BgpFib NetWire NetLink.

Local Open Scope Z_scope.

(** ** Typed networkd settings (networkd/spec.go) *)

Record placement := mkPlacement { pl_File : string; pl_Section : string; pl_Key : string }.
#[export] Instance placement_eq_dec : EqDecision placement.
Proof. solve_decision. Defined.

Definition FileLink : string := "link".
Definition FileNetwork : string := "network".
Definition FileNetdev : string := "netdev".

Definition placements : list (string * placement) :=
  [("match.driver", mkPlacement FileLink "Match" "Driver");
   ("match.hardware-address", mkPlacement FileLink "Match" "MACAddress");
   ("name", mkPlacement FileLink "Link" "Name");
   ("hardware-address", mkPlacement FileLink "Link" "MACAddress");
   ("mtu", mkPlacement FileLink "Link" "MTUBytes");
   ("vlan.id", mkPlacement FileNetdev "VLAN" "Id");
   ("bridge-master", mkPlacement FileNetwork "Network" "Bridge");
   ("ipv4.address", mkPlacement FileNetwork "Network" "Address");
   ("ipv6.address", mkPlacement FileNetwork "Network" "Address");
   ("ipv4.dns", mkPlacement FileNetwork "Network" "DNS");
   ("ipv6.dns", mkPlacement FileNetwork "Network" "DNS");
   ("ipv4.search", mkPlacement FileNetwork "Network" "Domains");
   ("ipv6.search", mkPlacement FileNetwork "Network" "Domains");
   ("ipv4.dhcp", mkPlacement FileNetwork "Network" "DHCP");
   ("ipv6.dhcp", mkPlacement FileNetwork "Network" "DHCP");
   ("ipv6.accept-ra", mkPlacement FileNetwork "Network" "IPv6AcceptRA");
   ("ipv4.forwarding", mkPlacement FileNetwork "Network" "IPv4Forwarding");
   ("ipv6.forwarding", mkPlacement FileNetwork "Network" "IPv6Forwarding");
   ("ipv4.route-metric", mkPlacement FileNetwork "DHCPv4" "RouteMetric");
   ("ipv6.route-metric", mkPlacement FileNetwork "IPv6AcceptRA" "RouteMetric");
   ("route.destination", mkPlacement FileNetwork "Route" "Destination");
   ("route.gateway", mkPlacement FileNetwork "Route" "Gateway");
   ("route.table", mkPlacement FileNetwork "Route" "Table");
   ("route.metric", mkPlacement FileNetwork "Route" "Metric");
   ("delegation.duid-type", mkPlacement FileNetwork "DHCPv6" "DUIDType");
   ("delegation.duid", mkPlacement FileNetwork "DHCPv6" "DUIDRawData");
   ("delegation.hint", mkPlacement FileNetwork "DHCPv6" "PrefixDelegationHint");
   ("delegation.without-ra", mkPlacement FileNetwork "DHCPv6" "WithoutRA");
   ("delegation.use-delegated-prefix", mkPlacement FileNetwork "DHCPv6" "UseDelegatedPrefix");
   ("delegation.router-lifetime-seconds", mkPlacement FileNetwork "IPv6PrefixDelegation" "RouterLifetimeSec")].

(** A leaf the table does not hold maps to the zero placement. *)
Definition placement_of (leaf : string) : placement :=
  match List.find (fun p => bool_decide (p.1 = leaf)) placements with Some p => p.2 | None => mkPlacement "" "" "" end.

Definition leasesMetric (family : Family) : bool := is_some (fam_RouteMetric family) && negb (addr_valid (fam_Gateway family)).

Definition leaf_if (b : bool) (leaf : string) : list string := if b then [leaf] else [].

Definition familyLeaves (name : string) (family : Family) : list string :=
  (if nonempty (fam_Routes family) then
     ["route.destination"; "route.table"; "route.metric"]%string
     ++ leaf_if (existsb (fun route => addr_valid (ri_Gateway route)) (fam_Routes family)) "route.gateway"
   else [])
  ++ leaf_if (is_some (Forwarding family)) (name +:+ ".forwarding")
  ++ leaf_if (nonempty (fam_Addresses family)) (name +:+ ".address")
  ++ leaf_if (nonempty (fam_DNS family)) (name +:+ ".dns")
  ++ leaf_if (nonempty (SearchDomains family)) (name +:+ ".search")
  ++ leaf_if (is_some (fam_DHCP family)) (name +:+ ".dhcp")
  ++ leaf_if (leasesMetric family) (name +:+ ".route-metric").

Definition delegationLeaves (d : Delegation) : list string :=
  leaf_if (IsValid (del_Hint d)) "delegation.hint"
  ++ leaf_if (negb (is_empty (del_DUIDType d))) "delegation.duid-type"
  ++ leaf_if (negb (is_empty (del_DUID d))) "delegation.duid"
  ++ leaf_if (negb (is_empty (del_WithoutRA d))) "delegation.without-ra"
  ++ leaf_if (is_some (UseDelegatedPrefix d)) "delegation.use-delegated-prefix"
  ++ leaf_if (is_some (RouterLifetimeSeconds d)) "delegation.router-lifetime-seconds".

Definition typedLeaves (connection : Connection) : list string :=
  ["name"%string] ++
  match conn_Link connection with
  | None => []
  | Some link =>
      leaf_if (negb (is_empty (match_Driver (link_Match link)))) "match.driver"
      ++ leaf_if (negb (is_empty (match_HardwareAddress (link_Match link)))) "match.hardware-address"
      ++ leaf_if (negb (is_empty (link_HardwareAddress link))) "hardware-address"
      ++ leaf_if (is_some (link_MTU link)) "mtu"
      ++ leaf_if (is_some (link_VLAN link)) "vlan.id"
      ++ leaf_if (negb (is_empty (BridgeMaster link))) "bridge-master"
      ++ (match conn_IPv4 connection with Some ipv4 => familyLeaves "ipv4" (v4_Family ipv4) | None => [] end)
      ++ (match conn_IPv6 connection with
          | Some ipv6 =>
              familyLeaves "ipv6" (v6_Family ipv6) ++ leaf_if (is_some (AcceptRA ipv6)) "ipv6.accept-ra"
              ++ match v6_Delegation ipv6 with Some d => delegationLeaves d | None => [] end
          | None => []
          end)
  end.

(** The keys the unit files set, in order. *)
Definition file_placements (files : list UnitFile) : list placement :=
  f ← files; s ← uf_Sections f; e ← us_Entries s; [mkPlacement (uf_Kind f) (us_Name s) (ue_Key e)].

Definition networkd_Validate (connection : Connection) : res unit :=
  let occupied := placement_of <$> typedLeaves connection in
  check_all (fun key => reject_if (bool_decide (key ∈ occupied)) "networkd section key is set by a typed leaf; remove one")
    (file_placements (conn_Networkd connection)).

(** ** DHCPv6 (dhcpv6.go) *)

Definition first_text (a b : string) : string := if is_empty a then b else a.

Definition dhcpv6WithoutRA (intent : IPv6) : string :=
  match v6_DHCPv6 intent with
  | Some client => if is_empty (d6_WithoutRA client)
                   then from_option del_WithoutRA ""%string (v6_Delegation intent) else d6_WithoutRA client
  | None => from_option del_WithoutRA ""%string (v6_Delegation intent)
  end.

Definition no_client : DHCPv6 := mkDHCPv6 "" "" None None None None "" None.

Section Connections.
Context `{NT : NetText}.

Definition ValidateOwnedDHCPv6 (intent : option IPv6) : res unit :=
  match intent with
  | Some intent =>
      if negb (is_set (fam_DHCP (v6_Family intent))) then Err "DHCPv6 acquisition requires ipv6/dhcp true"
      else
        let delegation := v6_Delegation intent in
        let client := default no_client (v6_DHCPv6 intent) in
        let requestAddress := default false (RequestAddress client) in
        let requestPrefix := default (is_some delegation) (RequestPrefix client) in
        let withoutRA := dhcpv6WithoutRA intent in
        let duid := first_text (d6_DUID client) (from_option del_DUID ""%string delegation) in
        let addressIAID := IANAIAID client in
        let prefixIAID := match IAPDIAID client with Some iaid => Some iaid | None => d ← delegation; del_IAID d end in
        (check reject_if (negb requestAddress && negb requestPrefix) "DHCPv6 client must request an address or prefix" ;;
         check reject_if (is_some delegation && negb requestPrefix) "DHCPv6 delegation requires a prefix request" ;;
         check reject_if (bool_decide (withoutRA = "information-request"%string))
                 "without-ra information-request cannot acquire an IA_NA address or IA_PD prefix" ;;
         check reject_if (negb (bool_decide (withoutRA = "solicit"%string)) && negb (bool_decide (withoutRA = "no"%string)))
                 "DHCPv6 acquisition requires without-ra no or solicit" ;;
         check reject_if (is_empty duid) "DHCPv6 acquisition requires a configured DUID" ;;
         check reject_if (requestAddress && is_none addressIAID) "DHCPv6 address request requires address IAID" ;;
         check reject_if (requestPrefix && is_none prefixIAID) "DHCPv6 prefix request requires prefix IAID" ;;
         match hex_decode (remove_char ":" duid) with
         | None => Err "invalid DHCPv6 DUID"
         | Some decoded => reject_if (negb (DUIDFromBytes decoded)) "invalid DHCPv6 DUID"
         end)%go
  | None => Err "DHCPv6 acquisition requires ipv6/dhcp true"
  end.

(** [DecodeDHCPv4ClientID], the option 61 payload. *)
Definition DecodeDHCPv4ClientID (value : string) : res (list Z) :=
  if is_empty value then Ok []
  else if negb (has_prefix "hex:" value) then Err "expected hex: followed by 2 to 255 bytes"
  else match hex_decode (String.substring 4 (String.length value - 4) value) with
       | Some decoded => if (length decoded <? 2)%nat || (255 <? length decoded)%nat
                         then Err "expected hex: followed by 2 to 255 bytes" else Ok decoded
       | None => Err "expected hex: followed by 2 to 255 bytes"
       end.

(** ** Routes (routes.go) *)

Definition build_route (name family : string) (route : routeWire) : res RouteIntent :=
  match ParsePrefix (rw_Destination route) with
  | None => Err (name +:+ ": " +:+ family +:+ " route destination must be a canonical same-family network prefix")
  | Some destination =>
      let table := default main_table (rw_TableID route) in
      if is_empty (rw_Gateway route) then Ok (mkRouteIntent destination AddrNone table (rw_Metric route))
      else match ParseAddr (rw_Gateway route) with
           | None => Err (name +:+ ": " +:+ family +:+ " route has invalid same-family gateway")
           | Some gateway => Ok (mkRouteIntent destination gateway table (rw_Metric route))
           end
  end.

Definition buildIntentRoutes (name family : string) (routes : list routeWire) (defaultGateway : bool) : res (list RouteIntent) :=
  (built <-? map_res (build_route name family) routes ;;
   check ValidateConfiguredRoutes family built defaultGateway ;;
   Ok built)%go.

(** ** Families (intent.go) *)

Definition PurposeLocal : string := "local".

Definition build_address (name family : string) (address : ipAddress) : res Address :=
  (ip <-? parseAddress ("interface " +:+ name) (family +:+ "/address") (ia_IP address) ;;
   match ia_PrefixLength address with
   | None => Err (name +:+ ": " +:+ family +:+ "/address has no prefix-length")
   | Some length => Ok (mkAddress (PrefixFrom ip length) PurposeLocal)
   end)%go.

Definition buildIntentFamily (name family : string) (wire : familyWire) : res Family :=
  (addresses <-? map_res (build_address name family) (fw_Address wire) ;;
   gateway <-? (if is_empty (fw_Gateway wire) then Ok AddrNone
                else parseAddress ("interface " +:+ name) (family +:+ "/gateway") (fw_Gateway wire)) ;;
   routes <-? buildIntentRoutes name family (fw_Routes wire) (addr_valid gateway) ;;
   dns <-? (match fw_Resolver wire with
            | Some r => map_res (parseAddress ("interface " +:+ name) (family +:+ "/resolver/dns")) (rs_DNSServers r)
            | None => Ok []
            end) ;;
   Ok (mkFamily (fw_Enabled wire) (fw_Forwarding wire) addresses (fw_DHCP wire) gateway (fw_RouteMetric wire) routes dns
         (from_option rs_SearchDomains [] (fw_Resolver wire))))%go.

Definition buildIntentV4 (name : string) (wire : familyV4) : res IPv4 :=
  (shared <-? buildIntentFamily name "ipv4" (f4_wire wire) ;;
   sources <-? map_res (parseAddress ("interface " +:+ name) "ipv4/source-addresses") (f4_SourceAddresses wire) ;;
   Ok (mkIPv4 shared sources ((fun d => mkDHCPv4 (d4w_ClientID d) (d4w_UseDNS d) (d4w_UseRoutes d)) <$> f4_DHCPv4 wire)))%go.

Definition conflict (a b : string) : bool := negb (is_empty a) && negb (is_empty b) && negb (bool_decide (a = b)).

Definition validateDelegationClient (name : string) (d : Delegation) (client : DHCPv6) : res unit :=
  (check reject_if (conflict (del_DUIDType d) (d6_DUIDType client)) (name +:+ ": delegation and dhcpv6-client duid-type conflict") ;;
   check reject_if (conflict (del_DUID d) (d6_DUID client)) (name +:+ ": delegation and dhcpv6-client duid conflict") ;;
   check reject_if (conflict (del_WithoutRA d) (d6_WithoutRA client)) (name +:+ ": delegation and dhcpv6-client without-ra conflict") ;;
   reject_if (match del_IAID d, IAPDIAID client with Some a, Some b => negb (a =? b) | _, _ => false end)
     (name +:+ ": delegation and dhcpv6-client ia-pd-iaid conflict"))%go.

Definition build_delegation (name : string) (w : delegation) : res Delegation :=
  (hint <-? (if is_empty (dw_Hint w) then Ok no_prefix
             else match ParsePrefix (dw_Hint w) with Some hint => Ok hint | None => Err (name +:+ ": ipv6/delegation/hint") end) ;;
   Ok (mkDelegation hint (dw_DUIDType w) (dw_DUID w) (dw_WithoutRA w) (dw_UseDelegatedPrefix w) (dw_RouterLifetimeSeconds w)
         (dw_IAID w)))%go.

Definition build_client (w : dhcpv6) : DHCPv6 :=
  mkDHCPv6 (d6w_DUIDType w) (d6w_DUID w) (d6w_IANAIAID w) (d6w_IAPDIAID w) (d6w_RequestAddress w) (d6w_RequestPrefix w)
    (d6w_WithoutRA w) (d6w_UseDNS w).

Definition buildIntentV6 (name : string) (wire : familyV6) : res IPv6 :=
  (shared <-? buildIntentFamily name "ipv6" (f6_wire wire) ;;
   delegation <-? (match f6_Delegation wire with
                   | Some w => (d <-? build_delegation name w ;; Ok (Some d))
                   | None => Ok None
                   end) ;;
   let client := build_client <$> f6_DHCPv6 wire in
   check (match client, delegation with Some c, Some d => validateDelegationClient name d c | _, _ => Ok tt end) ;;
   forwarding <-? map_res (fun raw =>
       (address <-? parseAddress ("interface " +:+ name) "ipv6/forwarding-address" (faw_Address raw) ;;
        Ok (mkForwardingAddress address (faw_Delivery raw)))) (f6_ForwardingAddresses wire) ;;
   Ok (mkIPv6 shared (f6_AcceptRA wire) (f6_AutoConf wire) (f6_AcceptRADefaultRoute wire) (f6_UseRADNS wire) delegation client forwarding))%go.

Definition build_entry (kind section : string) (e : networkdEntry) : res UnitEntry :=
  match ne_Index e with
  | None => Err ("networkd file " +:+ kind +:+ " section " +:+ section +:+ " has an entry with no index")
  | Some index => Ok (mkUnitEntry index (ne_Key e) (ne_Value e))
  end.

Definition build_section (kind : string) (s : networkdSection) : res UnitSection :=
  match ns_Index s with
  | None => Err ("networkd file " +:+ kind +:+ " has a section with no index")
  | Some index => (entries <-? map_res (build_entry kind (ns_Name s)) (ns_Entries s) ;; Ok (mkUnitSection index (ns_Name s) entries))%go
  end.

Definition buildIntentFiles (container : networkdContainer) : res (list UnitFile) :=
  map_res (fun file => (sections <-? map_res (build_section (nf_Kind file)) (nf_Sections file) ;;
                        Ok (mkUnitFile (nf_Kind file) sections))%go) (nc_Files container).

(** ** Owners (intent.go, translation.go) *)

Definition handAuthoredAddressing (entry : ifaceEntry) : bool :=
  (match e_IPv4 entry with
   | Some family =>
       let w := f4_wire family in
       is_some (fw_Forwarding w) || nonempty (fw_Address w) || is_some (fw_DHCP w) || negb (is_empty (fw_Gateway w))
       || is_some (fw_RouteMetric w) || nonempty (fw_Routes w) || nonempty (f4_SourceAddresses family)
       || is_some (f4_DHCPv4 family) || is_some (fw_Resolver w)
   | None => false
   end) ||
  (match e_IPv6 entry with
   | Some family =>
       let w := f6_wire family in
       is_some (fw_Forwarding w) || nonempty (fw_Address w) || (is_some (fw_DHCP w) && is_none (f6_Delegation family))
       || negb (is_empty (fw_Gateway w)) || is_some (fw_RouteMetric w) || nonempty (fw_Routes w) || is_some (f6_AcceptRA family)
       || is_some (f6_AutoConf family) || is_some (f6_AcceptRADefaultRoute family) || is_some (f6_UseRADNS family)
       || is_some (f6_DHCPv6 family) || is_some (fw_Resolver w) || nonempty (f6_ForwardingAddresses family)
   | None => false
   end).

Definition link_name_char (c : ascii) : bool :=
  let v := byte_val c in
  (97 <=? v) && (v <=? 122) || (65 <=? v) && (v <=? 90) || (48 <=? v) && (v <=? 57)
  || Ascii.eqb c "_" || Ascii.eqb c "-" || Ascii.eqb c ".".

Definition validateOwnedLinkName (name : string) : res unit :=
  (check reject_if ((String.length name =? 0)%nat || (15 <? String.length name)%nat) "mwan link name must contain 1 to 15 ASCII characters" ;;
   check reject_if (negb (all_chars link_name_char name)) "mwan link name contains an invalid character" ;;
   reject_if (bool_decide (name = "."%string) || bool_decide (name = ".."%string)) "mwan link name cannot be . or ..")%go.

Definition validateMWANFamily (name family : string) (wire : option familyWire) (provider : bool) : res unit :=
  match wire with
  | None => Ok tt
  | Some w =>
      let dhcpv4 := bool_decide (family = "ipv4"%string) && is_set (fw_DHCP w) in
      let raMetric := bool_decide (family = "ipv6"%string) && is_empty (fw_Gateway w) && is_some (fw_RouteMetric w) in
      reject_if (is_false (fw_Enabled w) || (is_some (fw_Translation w) && negb provider)
                 || (is_some (fw_RouteMetric w) && is_empty (fw_Gateway w) && negb dhcpv4 && negb raMetric))
        (if bool_decide (family = "ipv4"%string)
         then name +:+ ": mwan ipv4 supports local addresses, forwarding, DHCPv4, and an optional gateway or DHCP route metric only"
         else name +:+ ": mwan " +:+ family +:+ " supports static local addresses and an optional gateway with route metric only")
  end.

Definition DeliveryLocal : string := "local".
Definition DeliveryRouted : string := "routed".

Definition validateMWANProvider (entry : ifaceEntry) : res unit :=
  (check reject_if (is_none (e_IPv4 entry) && is_none (e_IPv6 entry)) "mwan provider requires an address family" ;;
   check_all (fun mapping => reject_if (negb (bool_decide (smw_Delivery mapping = DeliveryLocal))
                                        && negb (bool_decide (smw_Delivery mapping = DeliveryRouted)))
                               "mwan provider mapping requires delivery local or routed")
     (match e_IPv4 entry with
      | Some family => from_option ft_StaticMappings [] (fw_Translation (f4_wire family))
      | None => []
      end))%go.

Definition validateMWANOwner (entry : ifaceEntry) : res unit :=
  (check validateOwnedLinkName (e_Name entry) ;;
   check reject_if (is_empty (e_ConnectionID entry)) "mwan owner requires connection-id" ;;
   check reject_if (is_none (e_Link entry)) "mwan owner requires a link" ;;
   check reject_if (negb (is_empty (e_LinkFiles entry)) || is_some (e_Networkd entry) || negb (is_empty (e_LeaseStore entry))
                    || (is_none (e_WAN entry) && is_some (e_Steering entry)))
           "mwan owner cannot use networkd files, a lease store, or steering without a provider" ;;
   check validateMWANFamily (e_Name entry) "ipv4" (f4_wire <$> e_IPv4 entry) (is_some (e_WAN entry)) ;;
   check validateMWANFamily (e_Name entry) "ipv6" (f6_wire <$> e_IPv6 entry) (is_some (e_WAN entry)) ;;
   if is_some (e_WAN entry) then validateMWANProvider entry else Ok tt)%go.

Definition validatedOwner (entry : ifaceEntry) : res string :=
  let owner := if is_empty (e_Owner entry)
               then if is_empty (e_LinkFiles entry) then OwnerExternal else OwnerNetworkd
               else e_Owner entry in
  if bool_decide (owner = OwnerMWAN) then (check validateMWANOwner entry ;; Ok owner)%go
  else
    (check reject_if (negb (bool_decide (owner = OwnerNetworkd)) && negb (bool_decide (owner = OwnerExternal))) "unknown owner" ;;
     check reject_if (bool_decide (owner = OwnerExternal) && negb (is_empty (e_LinkFiles entry))) "external owner cannot set link-files" ;;
     check reject_if (bool_decide (owner = OwnerNetworkd) && is_empty (e_LinkFiles entry)) "networkd owner requires link-files" ;;
     check reject_if (negb (is_empty (e_LeaseStore entry)) && negb (has_prefix "/" (e_LeaseStore entry))) "lease-store must be an absolute path" ;;
     check reject_if (bool_decide (e_LinkFiles entry = linkFilesHandAuthored)
                      && (is_some (e_Link entry) || is_some (e_Networkd entry) || handAuthoredAddressing entry))
             "hand-authored files cannot include a renderable link or address intent" ;;
     check reject_if (negb (is_empty (e_LinkFiles entry)) && negb (bool_decide (e_LinkFiles entry = linkFilesRendered))
                      && negb (bool_decide (e_LinkFiles entry = linkFilesHandAuthored))) "invalid link-files" ;;
     check reject_if (bool_decide (e_LinkFiles entry = linkFilesRendered) && is_none (e_Link entry))
             "rendered link requires a link container" ;;
     Ok owner)%go.

Definition validateMWANStaticFamily (name family : string) (intent : Family) : res unit :=
  let v4 := bool_decide (family = "ipv4"%string) in
  (check reject_if (addr_valid (fam_Gateway intent) && negb (Bool.eqb (Is4 (fam_Gateway intent)) v4))
           (name +:+ ": " +:+ family +:+ " gateway has wrong address family") ;;
   check_all (fun address =>
     let p := adr_Prefix address in
     reject_if (negb (IsValid p) || negb (Bool.eqb (Is4 (pfx_addr p)) v4) || IsMulticast (pfx_addr p) || IsUnspecified (pfx_addr p))
       (name +:+ ": " +:+ family +:+ " has invalid local address")) (fam_Addresses intent))%go.

Definition validateMWANDHCPv4 (name : string) (family : familyV4) : res unit :=
  let w := f4_wire family in
  let dhcp := is_set (fw_DHCP w) in
  let routesEnabled := match f4_DHCPv4 family with Some d => unless_false (d4w_UseRoutes d) | None => true end in
  (check reject_if (dhcp && negb (is_empty (fw_Gateway w)) && routesEnabled) (name +:+ ": ipv4 cannot combine a static gateway with DHCP routes") ;;
   check reject_if (is_some (f4_DHCPv4 family) && negb dhcp) (name +:+ ": ipv4/dhcpv4 requires ipv4/dhcp true") ;;
   check (match f4_DHCPv4 family with
          | Some d => (check DecodeDHCPv4ClientID (d4w_ClientID d) ;; Ok tt)
          | None => Ok tt
          end) ;;
   reject_if (dhcp && routesEnabled && is_none (fw_RouteMetric w)) (name +:+ ": ipv4 DHCP routes require route-metric"))%go.

Definition validateMWANIPv6 (name : string) (wire : familyV6) (intent : IPv6) : res unit :=
  let w := f6_wire wire in
  let acceptsRA := is_set (f6_AcceptRA wire) in
  (check reject_if (nonempty (f6_ForwardingAddresses wire)) (name +:+ ": mwan ipv6 does not support forwarding addresses") ;;
   check (if is_set (fw_DHCP w) || is_some (f6_Delegation wire) || is_some (f6_DHCPv6 wire)
          then ValidateOwnedDHCPv6 (Some intent) else Ok tt) ;;
   check reject_if (negb acceptsRA && (is_set (f6_AutoConf wire) || is_set (f6_AcceptRADefaultRoute wire) || is_set (f6_UseRADNS wire)))
           (name +:+ ": ipv6 autoconf, RA default route and RA DNS require accept-ra") ;;
   check (match fw_RouteMetric w with
          | Some metric =>
              if is_empty (fw_Gateway w) then
                (check reject_if (negb acceptsRA || is_false (f6_AcceptRADefaultRoute wire))
                         (name +:+ ": ipv6 RA route metric requires an accepted RA default route") ;;
                 reject_if (metric =? 0) (name +:+ ": ipv6 RA route metric must be greater than zero"))
              else Ok tt
          | None => Ok tt
          end) ;;
   validateMWANStaticFamily name "ipv6" (v6_Family intent))%go.

Definition validateMWANConnection (entry : ifaceEntry) (connection : Connection) : res unit :=
  (check (match e_IPv4 entry, conn_IPv4 connection with
          | Some family, Some intent =>
              (check reject_if (nonempty (f4_SourceAddresses family)) "mwan ipv4 does not support source addresses" ;;
               check validateMWANDHCPv4 (e_Name entry) family ;;
               validateMWANStaticFamily (e_Name entry) "ipv4" (v4_Family intent))
          | _, _ => Ok tt
          end) ;;
   match e_IPv6 entry, conn_IPv6 connection with
   | Some family, Some intent => validateMWANIPv6 (e_Name entry) family intent
   | _, _ => Ok tt
   end)%go.

(** ** Rendered connections (intent.go) *)

Definition unsupportedNetworkdIntent (connection : Connection) : res unit :=
  (check reject_if (is_false (conn_Enabled connection)) "networkd renderer does not support disabled interfaces" ;;
   check reject_if (match conn_Link connection with Some link => bool_decide (link_Kind link = KindBridge) | None => false end)
           "networkd renderer does not support bridge creation" ;;
   check reject_if (negb (is_empty (LeaseStore connection))) "networkd owner does not support lease-store" ;;
   check (match conn_IPv4 connection with
          | Some ipv4 =>
              (check reject_if (is_false (fam_Enabled (v4_Family ipv4))) "networkd renderer does not support disabled ipv4" ;;
               reject_if (is_some (v4_DHCPv4 ipv4)) "networkd renderer does not support typed ipv4 client options")
          | None => Ok tt
          end) ;;
   match conn_IPv6 connection with
   | Some ipv6 =>
       (check reject_if (is_false (fam_Enabled (v6_Family ipv6))) "networkd renderer does not support disabled ipv6" ;;
        check reject_if (is_some (d ← v6_Delegation ipv6; del_IAID d)) "networkd renderer does not support delegation iaid" ;;
        reject_if (is_some (v6_DHCPv6 ipv6) || is_some (AutoConf ipv6) || is_some (AcceptRADefaultRoute ipv6) || is_some (UseRADNS ipv6)
                   || nonempty (ForwardingAddresses ipv6))
          "networkd renderer does not support typed ipv6 client, router, or forwarding options")
   | None => Ok tt
   end)%go.

Definition validateRenderedConnection (entry : ifaceEntry) (connection : Connection) : res unit :=
  if negb (bool_decide (e_LinkFiles entry = linkFilesRendered)) then Ok tt
  else
    (check (if is_some (e_WAN entry) then
              (check reject_if (match conn_IPv4 connection with Some ipv4 => is_none (fam_DHCP (v4_Family ipv4)) | None => false end)
                       "ipv4/dhcp is required" ;;
               reject_if (match conn_IPv6 connection with Some ipv6 => is_none (fam_DHCP (v6_Family ipv6)) | None => false end)
                 "ipv6/dhcp is required")
            else Ok tt) ;;
     check unsupportedNetworkdIntent connection ;;
     networkd_Validate connection)%go.

(** ** One connection *)

Definition opt_res {A B} (f : A -> res B) (o : option A) : res (option B) :=
  match o with Some a => (b <-? f a ;; Ok (Some b))%go | None => Ok None end.

Definition buildConnection (entry : ifaceEntry) (id : string) : res Connection :=
  let roles := if is_some (e_WAN entry) then RoleProvider else 0 in
  (owner <-? validatedOwner entry ;;
   link <-? opt_res (buildIntentLink entry) (e_Link entry) ;;
   ipv4 <-? opt_res (buildIntentV4 (e_Name entry)) (e_IPv4 entry) ;;
   ipv6 <-? opt_res (buildIntentV6 (e_Name entry)) (e_IPv6 entry) ;;
   files <-? (match e_Networkd entry with Some c => buildIntentFiles c | None => Ok [] end) ;;
   let connection := mkConnection id (e_Name entry) (e_Type entry) (e_Enabled entry) roles owner link ipv4 ipv6
                       (e_LeaseStore entry) files in
   check (if bool_decide (owner = OwnerMWAN) then validateMWANConnection entry connection else Ok tt) ;;
   check validateRenderedConnection entry connection ;;
   Ok connection)%go.
End Connections.
