(* ===== verification/NetGraph.v ===== *)
(** * The set of connections (networkjson/{intent,tunnel,vxlan,identity}.go)

    What holds between connections: identities, devices, tunnels over an underlay, parents,
    and the search that refuses a cycle of parents.  The search ends, and it refuses exactly
    the sets whose parents form a cycle. *)

From stdpp Require Import relations.
From S2P Require Import Prelude GoStrings NptPolicy Intent BgpConfig BgpFib NetWire NetLink NetConn.

Local Open Scope Z_scope.

(** ** Identities (identity.go) *)

Record id_maps := mkIdMaps { im_ids : gmap string string; im_explicit : gmap string string; im_seen : list string }.

Definition invalid_id (id : string) : bool :=
  is_empty id || negb (bool_decide (trim_space id = id))
  || contains_any id ("'" +:+ String (of_val 34) "[]/:" +:+ String (of_val 13) (String (of_val 10) "")).

Definition normalize_entry (m : id_maps) (entry : ifaceEntry) : res id_maps :=
  let id := Resolve (e_ConnectionID entry) (from_option ww_Name ""%string (e_WAN entry)) (e_Name entry) in
  (check reject_if (invalid_id id) "interface has invalid connection-id" ;;
   check reject_if (bool_decide (id ∈ im_seen m)) "connection-id is shared by interfaces" ;;
   Ok (mkIdMaps (<[e_Name entry := id]> (im_ids m))
         (if is_empty (e_ConnectionID entry) then im_explicit m else <[e_Name entry := id]> (im_explicit m))
         (id :: im_seen m)))%go.

Definition normalizeConnectionIDs (entries : list ifaceEntry) : res (gmap string string * gmap string string) :=
  (m <-? fold_res normalize_entry (mkIdMaps ∅ ∅ []) entries ;; Ok (im_ids m, im_explicit m))%go.

(** ** Devices and roles (intent.go) *)

Definition to_lower_char (c : Ascii.ascii) : Ascii.ascii :=
  let v := byte_val c in if (65 <=? v) && (v <=? 90) then of_val (v + 32) else c.
Fixpoint ToLower (s : string) : string :=
  match s with EmptyString => EmptyString | String c s => String (to_lower_char c) (ToLower s) end.

Definition device_keys (link : Link) : list string :=
  leaf_if (negb (is_empty (match_Driver (link_Match link)))) ("driver:" +:+ match_Driver (link_Match link))
  ++ leaf_if (negb (is_empty (match_HardwareAddress (link_Match link)))) ("mac:" +:+ ToLower (match_HardwareAddress (link_Match link))).

Definition take_key {K} `{EqDecision K} (msg : error) (taken : list K) (key : K) : res (list K) :=
  (check reject_if (bool_decide (key ∈ taken)) msg ;; Ok (key :: taken))%go.

Definition validateConnectionDevices (connections : list Connection) : res unit :=
  (check fold_res (take_key "interfaces match the same device") []
           (c ← connections; from_option device_keys [] (conn_Link c)) ;;
   Ok tt)%go.

Definition index_map (connections : list Connection) : gmap string nat :=
  fold_left (fun m '(i, c) => <[conn_Name c := i]> m) (imap pair connections) ∅.

(** [management]: the management interface of the firewall container, if there is one. *)
Definition validateRequiredRoles (indexes : gmap string nat) (internal : string) (management : option string) : res unit :=
  (check reject_if (is_none (indexes !! internal)) "internal interface was rejected" ;;
   reject_if (match management with Some m => negb (is_empty m) && is_none (indexes !! m) | None => false end)
     "management interface was rejected")%go.

Definition vlanParent (link : Link) : string := from_option vlan_Parent ""%string (link_VLAN link).
Definition tunnelUnderlay (link : Link) : string := from_option Underlay ""%string (link_Tunnel link).
Definition linkDependencies (link : Link) : list string := [vlanParent link; BridgeMaster link; tunnelUnderlay link].

(** [connections[indexes[name]]]: a name that is not indexed has index zero. *)
Definition conn_at (connections : list Connection) (indexes : gmap string nat) (name : string) : option Connection :=
  connections !! default 0%nat (indexes !! name).

(** ** Tunnels (tunnel.go, vxlan.go) *)

Record tunnelEndpoints := mkEndpoints {
  te_protocol : string;
  te_underlay : string;
  te_local : Addr;
  te_remote : Addr;
  te_vni : Z;
  te_sourcePortMin : Z;
  te_sourcePortMax : Z;
  te_destinationPort : Z;
}.
#[export] Instance tunnelEndpoints_eq_dec : EqDecision tunnelEndpoints.
Proof. solve_decision. Defined.

Record tunnel_owners := mkTunnelOwners { to_owners : list tunnelEndpoints; to_receivers : list (Z * Z) }.

Definition validateVXLANReceiver (settings : option VXLAN) (receivers : list (Z * Z)) : res (list (Z * Z)) :=
  match settings with
  | None => Ok receivers
  | Some s => take_key "interfaces share VXLAN receiver VNI and destination UDP port" receivers (vx_VNI s, DestinationPort s)
  end.

Definition endpoints (tunnel : Tunnel) : tunnelEndpoints :=
  match tun_VXLAN tunnel with
  | None => mkEndpoints (tun_Protocol tunnel) (Underlay tunnel) (tun_Local tunnel) (tun_Remote tunnel) 0 0 0 0
  | Some v => mkEndpoints (tun_Protocol tunnel) (Underlay tunnel) (tun_Local tunnel) (tun_Remote tunnel) (vx_VNI v)
                (SourcePortMin v) (SourcePortMax v) (DestinationPort v)
  end.

Definition validateTunnelIdentity (tunnel : Tunnel) (t : tunnel_owners) : res tunnel_owners :=
  (owners <-? take_key "interfaces configure the same tunnel" (to_owners t) (endpoints tunnel) ;;
   receivers <-? validateVXLANReceiver (tun_VXLAN tunnel) (to_receivers t) ;;
   Ok (mkTunnelOwners owners receivers))%go.

Definition mtu_exceeds (connection underlay : Link) (overhead : Z) : bool :=
  match link_MTU underlay, link_MTU connection with
  | Some outer, Some inner => outer <? inner + overhead
  | _, _ => false
  end.

Definition validate_tunnel (connections : list Connection) (declared : list string) (indexes : gmap string nat)
    (t : tunnel_owners) (connection : Connection) : res tunnel_owners :=
  match conn_Link connection with
  | Some link =>
      match link_Tunnel link with
      | Some tunnel =>
          (check reject_if (bool_decide (Underlay tunnel = conn_Name connection)) "tunnel underlay must be another interface" ;;
           check reject_if (negb (bool_decide (Underlay tunnel ∈ declared))) "tunnel underlay is not declared" ;;
           match indexes !! Underlay tunnel, conn_at connections indexes (Underlay tunnel) with
           | Some _, Some underlay =>
               (check reject_if (match conn_Link underlay with Some l => bool_decide (link_Kind l = KindTunnel) | None => false end)
                        "tunnel underlay is a tunnel" ;;
                check (if has_role (conn_Roles connection) RoleProvider then
                         (check reject_if (negb (has_role (conn_Roles underlay) RoleProvider)) "tunnel provider underlay is not a provider" ;;
                          reject_if (is_none (conn_IPv4 underlay)) "tunnel provider underlay has no ipv4 family")
                       else Ok tt) ;;
                check reject_if (match conn_Link underlay with
                                 | Some l => mtu_exceeds link l (tunnelOverhead (tun_Protocol tunnel))
                                 | None => false
                                 end) "tunnel mtu exceeds underlay mtu less the outer header" ;;
                validateTunnelIdentity tunnel t)
           | _, _ => Err "tunnel underlay was rejected"
           end)%go
      | None => Ok t
      end
  | None => Ok t
  end.

Definition validateTunnels (connections : list Connection) (declared : list string) (indexes : gmap string nat) : res unit :=
  (check fold_res (validate_tunnel connections declared indexes) (mkTunnelOwners [] []) connections ;; Ok tt)%go.

(** ** Parents (intent.go) *)

Definition add_roles (roles : Z) (c : Connection) : Connection :=
  mkConnection (conn_ID c) (conn_Name c) (conn_Type c) (conn_Enabled c) (Z.lor (conn_Roles c) roles)
    (conn_Owner c) (conn_Link c) (conn_IPv4 c) (conn_IPv6 c) (LeaseStore c) (conn_Networkd c).

Definition mark_parent (i : nat) (connections : list Connection) : list Connection := alter (add_roles RoleParent) i connections.

(** One parent of one connection; [cs] carries the roles marked so far. *)
Definition claim_parent (declared : list string) (indexes : gmap string nat) (cs : list Connection) (parent : string) : res (list Connection) :=
  if is_empty parent then Ok cs
  else if negb (bool_decide (parent ∈ declared)) then Err "parent is not declared"
  else match indexes !! parent with
       | None => Err "parent was rejected"
       | Some i => Ok (mark_parent i cs)
       end.

Definition claim_parents (declared : list string) (indexes : gmap string nat) (cs : list Connection) (connection : Connection) : res (list Connection) :=
  match conn_Link connection with
  | None => Ok cs
  | Some link => fold_res (claim_parent declared indexes) cs [vlanParent link; BridgeMaster link]
  end.

(** The search for a cycle: 1 marks a name on the path, 2 a name whose parents are done.
    [None]: out of fuel. *)
Section Cycle.
Context (parents : string -> list string).

Fixpoint visit_all (visit : string -> gmap string Z -> option (res (gmap string Z))) (names : list string)
    (state : gmap string Z) : option (res (gmap string Z)) :=
  match names with
  | [] => Some (Ok state)
  | p :: ps =>
      match visit p state with
      | Some (Ok state) => visit_all visit ps state
      | r => r
      end
  end.

Fixpoint parent_cycle (fuel : nat) (name : string) (state : gmap string Z) : option (res (gmap string Z)) :=
  match fuel with
  | O => None
  | S fuel =>
      if bool_decide (state !! name = Some 2) then Some (Ok state)
      else if bool_decide (state !! name = Some 1) then Some (Err ("interface " +:+ name +:+ ": parent cycle"))
      else match visit_all (parent_cycle fuel) (parents name) (<[name := 1]> state) with
           | Some (Ok state) => Some (Ok (<[name := 2]> state))
           | r => r
           end
  end.
End Cycle.

Definition parents_of (connections : list Connection) (indexes : gmap string nat) (name : string) : list string :=
  match conn_at connections indexes name with
  | Some c => filter (fun p => p <> ""%string) (from_option linkDependencies [] (conn_Link c))
  | None => []
  end.

Definition checkParentCycle (connections : list Connection) (indexes : gmap string nat) :=
  parent_cycle (parents_of connections indexes).

(** The loop over the connections; one round per connection and one more is enough fuel. *)
Definition checkParentCycles (connections : list Connection) (indexes : gmap string nat) : option (res (gmap string Z)) :=
  visit_all (checkParentCycle connections indexes (S (length connections))) (conn_Name <$> connections) ∅.

Definition validate_vlan_parent (connections : list Connection) (indexes : gmap string nat) (connection : Connection) : res unit :=
  match conn_Link connection with
  | Some link =>
      match link_VLAN link with
      | Some vlan =>
          if negb (bool_decide (conn_Owner connection = OwnerNetworkd)) then Ok tt
          else match conn_at connections indexes (vlan_Parent vlan) with
               | Some parent => reject_if (negb (bool_decide (conn_Owner parent = OwnerNetworkd)) || is_none (conn_Link parent))
                                  "vlan parent needs a rendered networkd link"
               | None => Ok tt
               end
      | None => Ok tt
      end
  | None => Ok tt
  end.

Definition validateConnectionDependencies (connections : list Connection) (declared : list string) (internal : string)
    (management : option string) : res (list Connection) :=
  let indexes := index_map connections in
  (check validateConnectionDevices connections ;;
   check validateRequiredRoles indexes internal management ;;
   check validateTunnels connections declared indexes ;;
   cs <-? fold_res (claim_parents declared indexes) connections connections ;;
   check (match checkParentCycles cs indexes with Some (Ok _) => Ok tt | Some (Err e) => Err e | None => Err "out of fuel" end) ;;
   check check_all (validate_vlan_parent cs indexes) cs ;;
   Ok cs)%go.

Definition validateActiveDependencies `{NT : NetText} (connections : list Connection) : res unit :=
  (check ValidateNativeBindings connections ;;
   check_all (fun connection =>
     match conn_Link connection with
     | None => Ok tt
     | Some link => check_all (fun parent => reject_if (negb (is_empty parent) && negb (bool_decide (parent ∈ conn_Name <$> connections)))
                                               "interface requires rejected parent") (linkDependencies link)
     end) connections)%go.

(** ** The connections of a document (intent.go) *)

Record Rejected := mkRejected { rj_Interface : string; rj_Provider : string; rj_Err : error }.

Definition rejectEntry (entry : ifaceEntry) (err : error) : Rejected :=
  mkRejected (e_Name entry) (from_option ww_Name ""%string (e_WAN entry)) err.

(** An entry without a provider, or that this gateway owns or offloads, must be valid; the
    others are left out. *)
Definition must_build (entry : ifaceEntry) : bool :=
  is_none (e_WAN entry) || bool_decide (e_Owner entry = OwnerMWAN)
  || match e_Link entry with Some link => is_some (li_NativeOffload link) | None => false end.

Definition compile_entry `{NT : NetText} (ids : gmap string string) (internal : string) (management : option string)
    (acc : list Connection * list Rejected) (entry : ifaceEntry) : res (list Connection * list Rejected) :=
  match buildConnection entry (default ""%string (ids !! e_Name entry)) with
  | Err err => if must_build entry then Err err else Ok (acc.1, acc.2 ++ [rejectEntry entry err])
  | Ok c =>
      let c := if bool_decide (e_Name entry = internal) then add_roles RoleInternal c else c in
      let c := if bool_decide (Some (e_Name entry) = management) then add_roles RoleManagement c else c in
      Ok (acc.1 ++ [c], acc.2)
  end.

Definition compileConnections `{NT : NetText} (entries : list ifaceEntry) (ids : gmap string string) (internal : string)
    (management : option string) : res (list Connection * list Rejected) :=
  let declared := e_Name <$> entries in
  (check reject_if (negb (is_empty internal) && negb (bool_decide (internal ∈ declared))) "internal interface is not declared" ;;
   check reject_if (match management with
                    | Some m => negb (is_empty m) && negb (bool_decide (m ∈ declared))
                    | None => false
                    end) "management interface is not declared" ;;
   acc <-? fold_res (compile_entry ids internal management) ([], []) entries ;;
   connections <-? validateConnectionDependencies acc.1 declared internal management ;;
   Ok (connections, acc.2))%go.

(** ** The search for a cycle *)

Section Search.
Context (parents : string -> list string) (names : gset string).

(** [n] needs [p]. *)
Definition needs (n p : string) : Prop := p ∈ parents n.

(** Nothing below [n] goes on for ever. *)
Definition grounded (n : string) : Prop := Acc (flip needs) n.

Lemma grounded_acyclic n : grounded n -> ~ tc needs n n.
Proof.
  intros Hn. induction Hn as [n _ IH]. intros Hc. inversion Hc as [? ? H|? m ? H Hm]; subst.
  - by apply (IH n H).
  - apply (IH m H). eapply tc_r; [exact Hm|exact H].
Qed.

Context (Hclosed : forall n p, n ∈ names -> p ∈ parents n -> p ∈ names).

(** The finished names are grounded, and [path] holds the names being visited. *)
Definition search_ok (path : gset string) (state : gmap string Z) : Prop :=
  (forall n, state !! n = Some 2 -> grounded n) /\ (forall n, state !! n = Some 1 <-> n ∈ path).

Definition finishes (path : gset string) (ps : list string) (state : gmap string Z) (r : option (res (gmap string Z))) : Prop :=
  match r with
  | None => False
  | Some (Ok state') => search_ok path state' /\ (forall p, p ∈ ps -> state' !! p = Some 2) /\
      (forall n, state !! n = Some 2 -> state' !! n = Some 2)
  | Some (Err _) => exists n, n ∈ names /\ tc needs n n
  end.

Lemma visit_all_finishes visit path ps state :
  (forall p state, p ∈ ps -> search_ok path state -> finishes path [p] state (visit p state)) ->
  search_ok path state -> finishes path ps state (visit_all visit ps state).
Proof.
  revert state. induction ps as [|p ps IH]; intros state Hv Hs; cbn [visit_all].
  - split_and!; [done|intros p Hp; by apply not_elem_of_nil in Hp|done].
  - pose proof (Hv p state ltac:(by left) Hs) as Hp. destruct (visit p state) as [[state1|e]|]; [|exact Hp|exact Hp].
    destruct Hp as (Hs1 & Hdone & Hkeep). specialize (IH state1 ltac:(intros q st' Hq; apply Hv; by right) Hs1).
    destruct (visit_all visit ps state1) as [[state2|e]|]; [|exact IH|exact IH].
    destruct IH as (Hs2 & Hdone2 & Hkeep2). split_and!; [done| |by intros n Hn; apply Hkeep2, Hkeep].
    intros q [->|Hq]%elem_of_cons; [apply Hkeep2, Hdone; by left|by apply Hdone2].
Qed.

Lemma parent_cycle_finishes fuel path name state : name ∈ names -> (size (names ∖ path) < fuel)%nat -> search_ok path state ->
  (forall g, g ∈ path -> g ∈ names /\ tc needs g name) -> finishes path [name] state (parent_cycle parents fuel name state).
Proof.
  revert path name state. induction fuel as [|fuel IH]; intros path name state Hn Hfuel Hs Hpath; [lia|]. cbn [parent_cycle].
  case_bool_decide as H2; [split_and!; [done|set_solver|done]|].
  case_bool_decide as H1; [apply Hs in H1; exists name; by apply Hpath|].
  assert (name ∉ path) as Hfresh by (intros H; by apply H1, Hs).
  assert (search_ok ({[name]} ∪ path) (<[name := 1]> state)) as Hs1.
  { destruct Hs as [Hg Hp]. split; intros n; destruct (decide (n = name)) as [->|Hne]; rewrite ?lookup_insert_eq, ?lookup_insert_ne by done.
    - done.
    - apply Hg.
    - set_solver +.
    - rewrite Hp. set_solver +Hne. }
  assert (finishes ({[name]} ∪ path) (parents name) (<[name := 1]> state)
    (visit_all (parent_cycle parents fuel) (parents name) (<[name := 1]> state))) as Hall.
  { apply visit_all_finishes; [|done]. intros p st' Hp Hst. apply IH; [by eapply Hclosed| |done|].
    - assert (size (names ∖ ({[name]} ∪ path)) < size (names ∖ path))%nat; [|lia]. apply subset_size.
      split; [set_solver +|]. intros Hsub. assert (name ∈ names ∖ ({[name]} ∪ path)) as Hin by (apply Hsub; set_solver +Hn Hfresh). set_solver +Hin.
    - intros g [->%elem_of_singleton|Hg]%elem_of_union; [split; [done|by apply tc_once]|].
      destruct (Hpath g Hg). split; [done|]. by eapply tc_r. }
  destruct (visit_all _ _ _) as [[state2|e]|]; [|exact Hall|exact Hall].
  destruct Hall as ([Hg2 Hp2] & Hdone & Hkeep).
  assert (grounded name) as Hground by (constructor; intros p Hp; by apply Hg2, Hdone).
  split; [split|split]; intros n.
  - destruct (decide (n = name)) as [->|Hne]; [done|]. rewrite lookup_insert_ne by done. apply Hg2.
  - destruct (decide (n = name)) as [->|Hne]; [rewrite lookup_insert_eq; set_solver +Hfresh|].
    rewrite lookup_insert_ne, Hp2 by done. set_solver +Hne.
  - intros ->%list_elem_of_singleton. apply lookup_insert_eq.
  - intros Hstate. destruct (decide (n = name)) as [->|Hne]; [apply lookup_insert_eq|]. rewrite lookup_insert_ne by done.
    apply Hkeep. by rewrite lookup_insert_ne.
Qed.

Lemma parents_search_finishes fuel todo : (forall n, n ∈ todo -> n ∈ names) -> (size names < fuel)%nat ->
  finishes ∅ todo ∅ (visit_all (parent_cycle parents fuel) todo ∅).
Proof.
  intros Htodo Hfuel. apply visit_all_finishes.
  - intros p state Hp Hs. apply parent_cycle_finishes; [by apply Htodo| |done|set_solver]. rewrite difference_empty_L. lia.
  - split; [done|]. set_solver.
Qed.
End Search.

(** ** Indexes *)

Definition index_names (l : list string) : gmap string nat := fold_left (fun m '(i, n) => <[n := i]> m) (imap pair l) ∅.

Lemma index_map_names cs : index_map cs = index_names (conn_Name <$> cs).
Proof.
  unfold index_map, index_names. induction cs as [|c cs IH] using rev_ind; [done|].
  rewrite fmap_app, !imap_app, !fold_left_app, IH, length_fmap. done.
Qed.

Lemma index_names_lookup l n i : index_names l !! n = Some i -> l !! i = Some n.
Proof.
  unfold index_names. induction l as [|x l IH] using rev_ind; [done|]. rewrite imap_app, fold_left_app. cbn [imap fold_left].
  destruct (decide (n = x)) as [->|Hne].
  - rewrite lookup_insert_eq. intros [= <-]. by rewrite lookup_app_r, Nat.add_0_r, Nat.sub_diag by lia.
  - rewrite lookup_insert_ne by done. intros Hi%IH. by apply lookup_app_l_Some.
Qed.

Lemma index_names_some l n : is_Some (index_names l !! n) <-> n ∈ l.
Proof.
  split; [intros [i Hi]; apply index_names_lookup in Hi; by eapply list_elem_of_lookup_2|].
  unfold index_names. induction l as [|x l IH] using rev_ind; [by intros ?%not_elem_of_nil|]. rewrite imap_app, fold_left_app. cbn [imap fold_left].
  intros Hn. destruct (decide (n = x)) as [->|Hne]; [by rewrite lookup_insert_eq|]. rewrite lookup_insert_ne by done. apply IH. set_solver +Hn Hne.
Qed.

Lemma conn_at_name cs n c : n ∈ conn_Name <$> cs -> conn_at cs (index_map cs) n = Some c -> conn_Name c = n /\ c ∈ cs.
Proof.
  unfold conn_at. rewrite index_map_names. intros [i Hi]%index_names_some. rewrite Hi. cbn. apply index_names_lookup in Hi.
  rewrite list_lookup_fmap in Hi. intros Hc. rewrite Hc in Hi. cbn in Hi. split; [congruence|by eapply list_elem_of_lookup_2].
Qed.

Lemma conn_at_some cs n : n ∈ conn_Name <$> cs -> exists c, conn_at cs (index_map cs) n = Some c.
Proof.
  unfold conn_at. rewrite index_map_names. intros [i Hi]%index_names_some. rewrite Hi. cbn. apply index_names_lookup in Hi.
  rewrite list_lookup_fmap in Hi. destruct (cs !! i) as [c|]; [by exists c|done].
Qed.

(** ** Accepted sets *)

(** Every parent a link names is a connection of the set. *)
Definition parents_present (cs : list Connection) : Prop :=
  forall c link p, c ∈ cs -> conn_Link c = Some link -> p ∈ linkDependencies link -> p <> ""%string -> p ∈ conn_Name <$> cs.

Abbreviation requires cs := (needs (parents_of cs (index_map cs))).

Lemma requires_link cs n p : requires cs n p -> exists c link, c ∈ cs /\ conn_Link c = Some link /\ p ∈ linkDependencies link /\ p <> ""%string.
Proof.
  unfold needs, parents_of, conn_at. destruct (cs !! _) as [c|] eqn:Hc; [|by intros ?%not_elem_of_nil].
  intros [Hp Hin]%list_elem_of_filter. destruct (conn_Link c) as [link|] eqn:Hl; [|by apply not_elem_of_nil in Hin].
  exists c, link. split_and!; [by eapply list_elem_of_lookup_2|done|done|done].
Qed.

Lemma requires_present cs n p : parents_present cs -> requires cs n p -> p ∈ conn_Name <$> cs.
Proof. intros Hp (c & link & Hc & Hl & Hin & Hne)%requires_link. by eapply Hp. Qed.

Lemma size_names (l : list string) : (size (list_to_set l : gset string) <= length l)%nat.
Proof.
  induction l as [|x l IH]; [done|]. rewrite list_to_set_cons. cbn [length]. pose proof (size_union_alt {[x]} (list_to_set l : gset string)) as H.
  pose proof (subseteq_size (list_to_set l ∖ {[x]}) (list_to_set l : gset string) ltac:(set_solver)). rewrite size_singleton in H. cbn in *. lia.
Qed.

Lemma search_result cs : parents_present cs ->
  finishes (parents_of cs (index_map cs)) (list_to_set (conn_Name <$> cs)) ∅ (conn_Name <$> cs) ∅ (checkParentCycles cs (index_map cs)).
Proof.
  intros Hp. apply parents_search_finishes.
  - intros n p _ Hin. apply elem_of_list_to_set. by eapply requires_present.
  - intros n. by rewrite elem_of_list_to_set.
  - pose proof (size_names (conn_Name <$> cs)) as H. rewrite length_fmap in H. lia.
Qed.

Lemma take_keys_ok {K} `{EqDecision K} msg (keys taken r : list K) : NoDup taken -> fold_res (take_key msg) taken keys = Ok r ->
  NoDup r /\ r = reverse keys ++ taken.
Proof.
  intros Hnd. apply (fold_res_ind _ (fun dn r => NoDup r /\ r = reverse dn ++ taken)); [done|].
  intros dn x todo b b' _ [Hb ->] H. unfold take_key in H. apply res_bind_ok in H as (? & H%reject_if_ok & [= <-]).
  apply bool_decide_eq_false in H. split; [by constructor|]. by rewrite reverse_app.
Qed.

Lemma take_keys_nodup {K} `{EqDecision K} msg (keys r : list K) : fold_res (take_key msg) [] keys = Ok r -> NoDup keys.
Proof.
  intros [Hr ->]%take_keys_ok; [|constructor]. rewrite app_nil_r in Hr. by rewrite reverse_Permutation in Hr.
Qed.

(** What the checks see of a connection; marking parents does not change it. *)
Definition view (c : Connection) := (conn_Name c, conn_Link c, conn_IPv4 c, has_role (conn_Roles c) RoleProvider).

Lemma view_parent c : view (add_roles RoleParent c) = view c.
Proof.
  unfold view, has_role. cbn. by rewrite Z.land_lor_distr_l, Z.lor_0_r.
Qed.

Lemma view_mark i cs : view <$> mark_parent i cs = view <$> cs.
Proof.
  unfold mark_parent. apply list_eq. intros j. rewrite !list_lookup_fmap. destruct (decide (i = j)) as [->|Hne].
  - rewrite list_lookup_alter_eq. destruct (cs !! j) as [c|]; cbn; [|done]. by rewrite view_parent.
  - by rewrite list_lookup_alter_ne.
Qed.

Lemma claim_parents_ok declared indexes cs c cs' : claim_parents declared indexes cs c = Ok cs' ->
  view <$> cs' = view <$> cs /\ forall link p, conn_Link c = Some link -> p ∈ [vlanParent link; BridgeMaster link] -> p <> ""%string -> is_Some (indexes !! p).
Proof.
  unfold claim_parents. destruct (conn_Link c) as [link|]; [|by intros [= <-]]. intros H.
  apply (fold_res_ind _ (fun dn r => view <$> r = view <$> cs /\ forall p, p ∈ dn -> p <> ""%string -> is_Some (indexes !! p))) in H.
  - destruct H as [Hv H]. split; [done|]. intros link' p [= <-]. apply H.
  - split; [done|]. by intros p ?%not_elem_of_nil.
  - intros dn x todo b b' _ [Hv Hd] Hx. unfold claim_parent in Hx. destruct (is_empty x) eqn:He.
    + injection Hx as <-. split; [done|]. intros p [Hp| ->%list_elem_of_singleton]%elem_of_app Hne; [by apply Hd|]. by apply is_empty_true in He.
    + destruct (negb _); [done|]. destruct (indexes !! x) as [i|] eqn:Hi; [|done]. injection Hx as <-. split; [by rewrite view_mark|].
      intros p [Hp| ->%list_elem_of_singleton]%elem_of_app Hne; [by apply Hd|by eexists].
Qed.

Lemma claim_all_ok declared indexes connections cs : fold_res (claim_parents declared indexes) connections connections = Ok cs ->
  view <$> cs = view <$> connections /\ forall c link p, c ∈ connections -> conn_Link c = Some link ->
    p ∈ [vlanParent link; BridgeMaster link] -> p <> ""%string -> is_Some (indexes !! p).
Proof.
  apply (fold_res_ind _ (fun dn r => view <$> r = view <$> connections /\ forall c link p, c ∈ dn -> conn_Link c = Some link ->
    p ∈ [vlanParent link; BridgeMaster link] -> p <> ""%string -> is_Some (indexes !! p))).
  - split; [done|]. by intros c link p ?%not_elem_of_nil.
  - intros dn x todo b b' _ [Hv Hd] [Hv' Hx]%claim_parents_ok. split; [congruence|].
    intros c link p [Hc| ->%list_elem_of_singleton]%elem_of_app; [by eapply Hd|by apply Hx].
Qed.

(** The tunnels of a set, and the receivers of its VXLAN tunnels. *)
Definition tunnels_of (cs : list Connection) : list Tunnel := omap (fun c => link ← conn_Link c; link_Tunnel link) cs.
Definition receiver (t : Tunnel) : option (Z * Z) := (fun v => (vx_VNI v, DestinationPort v)) <$> tun_VXLAN t.

(** The underlay of a tunnel: another connection of the set, itself no tunnel, that leaves
    room for the outer header, and for a provider a provider with IPv4. *)
Definition carried (cs : list Connection) (c : Connection) (link : Link) (t : Tunnel) : Prop :=
  exists u, u ∈ cs /\ conn_Name u = Underlay t /\ conn_Name u <> conn_Name c /\
    (forall ul, conn_Link u = Some ul -> link_Kind ul <> KindTunnel /\
       forall outer inner, link_MTU ul = Some outer -> link_MTU link = Some inner -> inner + tunnelOverhead (tun_Protocol t) <= outer) /\
    (has_role (conn_Roles c) RoleProvider = true -> has_role (conn_Roles u) RoleProvider = true /\ is_Some (conn_IPv4 u)).

Definition tunnel_fold (connections done_ : list Connection) (t : tunnel_owners) : Prop :=
  NoDup (to_owners t) /\ to_owners t = reverse (endpoints <$> tunnels_of done_) /\
  NoDup (to_receivers t) /\ to_receivers t = reverse (omap receiver (tunnels_of done_)) /\
  forall c link tun, c ∈ done_ -> conn_Link c = Some link -> link_Tunnel link = Some tun -> carried connections c link tun.

Lemma tunnels_snoc l c : tunnels_of (l ++ [c]) = tunnels_of l ++ option_list (link ← conn_Link c; link_Tunnel link).
Proof. unfold tunnels_of. rewrite omap_app. cbn. by destruct (conn_Link c) as [link|]; cbn; [destruct (link_Tunnel link)|]. Qed.

Lemma validate_identity_ok tunnel t t' : validateTunnelIdentity tunnel t = Ok t' -> NoDup (to_owners t) -> NoDup (to_receivers t) ->
  NoDup (to_owners t') /\ to_owners t' = endpoints tunnel :: to_owners t /\
  NoDup (to_receivers t') /\ to_receivers t' = option_list (receiver tunnel) ++ to_receivers t.
Proof.
  unfold validateTunnelIdentity, take_key. intros (o & Ho & H)%res_bind_ok. apply res_bind_ok in H as (r & Hr & [= <-]). intros Hnd Hnr.
  apply res_bind_ok in Ho as (? & Hin%reject_if_ok & [= <-]). apply bool_decide_eq_false in Hin. cbn. split_and!; [by constructor|done|..];
  unfold validateVXLANReceiver, receiver, take_key in *; destruct (tun_VXLAN tunnel); cbn; try (by injection Hr as <-);
  apply res_bind_ok in Hr as (? & Hv%reject_if_ok & [= <-]); [|done]. apply bool_decide_eq_false in Hv. by constructor.
Qed.

Lemma validate_tunnel_ok connections declared dn c t t' :
  tunnel_fold connections dn t -> validate_tunnel connections declared (index_map connections) t c = Ok t' ->
  tunnel_fold connections (dn ++ [c]) t'.
Proof.
  intros (Ho & Heo & Hr & Her & Hc) H. unfold validate_tunnel in H.
  assert (forall link, conn_Link c = Some link -> link_Tunnel link = None \/ exists tun, link_Tunnel link = Some tun /\ carried connections c link tun) as Hcar.
  { intros link Hl. rewrite Hl in H. destruct (link_Tunnel link) as [tun|] eqn:Ht; [right|by left]. exists tun. split; [done|].
    apply res_bind_ok in H as (? & Hself%reject_if_ok & H). apply res_bind_ok in H as (? & _ & H). apply bool_decide_eq_false in Hself.
    destruct (_ !! Underlay tun) as [i|] eqn:Hi; [|done]. destruct (conn_at _ _ _) as [u|] eqn:Hu; [|done].
    rewrite index_map_names in Hi. assert (Underlay tun ∈ conn_Name <$> connections) as Hin by (apply index_names_some; by eexists).
    destruct (conn_at_name _ _ _ Hin Hu) as [Hname Hu'].
    apply res_bind_ok in H as (? & Hkind%reject_if_ok & H). apply res_bind_ok in H as (? & Hrole & H). apply res_bind_ok in H as (? & Hmtu%reject_if_ok & _).
    exists u. split_and!; [done|done|congruence| |].
    - intros ul Hul. rewrite Hul in Hkind, Hmtu. split; [by apply bool_decide_eq_false in Hkind|]. intros outer inner E1 E2.
      unfold mtu_exceeds in Hmtu. rewrite E1, E2 in Hmtu. lia.
    - intros Hp. rewrite Hp in Hrole. apply res_bind_ok in Hrole as (? & Hur%reject_if_ok & Hv4%reject_if_ok). apply negb_false_iff in Hur. split; [done|].
      destruct (conn_IPv4 u); [by eexists|done]. }
  unfold tunnel_fold. rewrite tunnels_snoc, fmap_app, omap_app, !reverse_app, <- Heo, <- Her.
  assert (match (link ← conn_Link c; link_Tunnel link) with
          | Some tun => validateTunnelIdentity tun t = Ok t'
          | None => t' = t end) as Hid.
  { destruct (conn_Link c) as [link|]; cbn; [|congruence]. destruct (link_Tunnel link) as [tun|]; [|congruence].
    apply res_bind_ok in H as (? & _ & H). apply res_bind_ok in H as (? & _ & H). destruct (_ !! _); [|done]. destruct (conn_at _ _ _); [|done].
    apply res_bind_ok in H as (? & _ & H). apply res_bind_ok in H as (? & _ & H). by apply res_bind_ok in H as (? & _ & H). }
  assert (forall c0 link tun, c0 ∈ dn ++ [c] -> conn_Link c0 = Some link -> link_Tunnel link = Some tun -> carried connections c0 link tun) as Hall.
  { intros c0 link tun [Hc0| ->%list_elem_of_singleton]%elem_of_app Hl Ht; [by eapply Hc|].
    destruct (Hcar link Hl) as [Hn|(tun' & Ht' & Hcarried)]; congruence. }
  destruct (link ← conn_Link c; link_Tunnel link) as [tun|]; cbn.
  - destruct (validate_identity_ok _ _ _ Hid Ho Hr) as (H1 & E1 & H3 & E3). rewrite E1, E3 in *. split_and!; try done. by destruct (receiver tun).
  - subst t'. split_and!; done.
Qed.

Lemma validateTunnels_ok connections declared u : validateTunnels connections declared (index_map connections) = Ok u ->
  NoDup (endpoints <$> tunnels_of connections) /\ NoDup (omap receiver (tunnels_of connections)) /\
  forall c link tun, c ∈ connections -> conn_Link c = Some link -> link_Tunnel link = Some tun -> carried connections c link tun.
Proof.
  unfold validateTunnels. intros (t & Ht & _)%res_bind_ok.
  apply (fold_res_ind _ (tunnel_fold connections)) in Ht.
  - destruct Ht as (H1 & E1 & H2 & E2 & H3). rewrite E1, reverse_Permutation in H1. rewrite E2, reverse_Permutation in H2. done.
  - split_and!; try constructor. by intros c link tun ?%not_elem_of_nil.
  - intros dn x todo b b' _. apply validate_tunnel_ok.
Qed.

(** *** What depends on the views only *)

Section Views.
Context (cs cs' : list Connection) (Hv : view <$> cs' = view <$> cs).

Lemma view_elem c' : c' ∈ cs' -> exists c, c ∈ cs /\ view c = view c'.
Proof.
  intros Hc. assert (view c' ∈ view <$> cs') as Hin by (by apply list_elem_of_fmap_2). rewrite Hv in Hin.
  apply list_elem_of_fmap in Hin as (c & -> & Hc'). by exists c.
Qed.

Lemma view_fmap {B} (f : _ -> B) : (fun c => f (view c)) <$> cs' = (fun c => f (view c)) <$> cs.
Proof. apply (f_equal (fmap f)) in Hv. by rewrite <- !list_fmap_compose in Hv. Qed.

Lemma view_names : conn_Name <$> cs' = conn_Name <$> cs.
Proof. exact (view_fmap (fun v => v.1.1.1)). Qed.

Lemma view_links : conn_Link <$> cs' = conn_Link <$> cs.
Proof. exact (view_fmap (fun v => v.1.1.2)). Qed.
End Views.

Lemma carried_view cs cs' c c' link t : view <$> cs' = view <$> cs -> view c' = view c -> carried cs c link t -> carried cs' c' link t.
Proof.
  intros Hv Hc (u & Hu & Hn & Hne & Hl & Hr). destruct (view_elem cs' cs (eq_sym Hv) u Hu) as (u' & Hu' & E).
  injection Hc as Hcn _ _ Hcr. injection E as En El Ei Er. exists u'. rewrite En, El, Ei, Er, Hcn, Hcr. done.
Qed.

Record set_ok (cs : list Connection) : Prop := mkSetOk {
  so_parents : parents_present cs;
  so_grounded : forall c, c ∈ cs -> grounded (parents_of cs (index_map cs)) (conn_Name c);
  so_devices : NoDup (c ← cs; from_option device_keys [] (conn_Link c));
  so_tunnels : NoDup (endpoints <$> tunnels_of cs) /\ NoDup (omap receiver (tunnels_of cs));
  so_carried : forall c link t, c ∈ cs -> conn_Link c = Some link -> link_Tunnel link = Some t -> carried cs c link t;
}.

Lemma tunnels_links cs : tunnels_of cs = omap (fun l => link ← l; link_Tunnel link) (conn_Link <$> cs).
Proof. unfold tunnels_of. induction cs as [|c cs IH]; [done|]. cbn. by rewrite IH. Qed.
Lemma devices_links cs : (c ← cs; from_option device_keys [] (conn_Link c)) = (l ← conn_Link <$> cs; from_option device_keys [] l).
Proof. induction cs as [|c cs IH]; [done|]. cbn. by rewrite IH. Qed.

Lemma validated_parents connections declared cs u : view <$> cs = view <$> connections ->
  validateTunnels connections declared (index_map connections) = Ok u ->
  (forall c link p, c ∈ connections -> conn_Link c = Some link -> p ∈ [vlanParent link; BridgeMaster link] -> p <> ""%string ->
     is_Some (index_map connections !! p)) -> parents_present cs.
Proof.
  intros Hv Ht Hp c' link p Hc Hl Hin Hne. destruct (view_elem _ _ Hv c' Hc) as (c & Hc0 & E). injection E as _ El _ _. rewrite Hl in El.
  rewrite (view_names _ _ Hv). apply validateTunnels_ok in Ht as (_ & _ & Ht). unfold linkDependencies in Hin.
  rewrite !elem_of_cons in Hin. destruct Hin as [Hin|[Hin|[Hin|[]%not_elem_of_nil] ] ].
  1, 2: apply index_names_some; rewrite <- index_map_names; apply (Hp c link p); [done|done|set_solver +Hin|done].
  unfold tunnelUnderlay in Hin. destruct (link_Tunnel link) as [t|] eqn:E; [|done]. destruct (Ht c link t Hc0 El E) as (v & Hu & Hn & _).
  cbn in Hin. rewrite Hin, <- Hn. by apply list_elem_of_fmap_2.
Qed.

(** ** Theorems *)

(** C35. The search for a cycle of parents ends: with one round of recursion per connection,
    and one more, it never runs out, whatever order the parents are visited in.  When every
    parent is a connection of the set, it refuses the set exactly when the parents of some
    connection lead back to it. *)
Theorem parent_search_decides cs : parents_present cs ->
  exists r, checkParentCycles cs (index_map cs) = Some r /\
    (is_ok r = true <-> forall n, ~ tc (requires cs) n n).
Proof.
  intros Hp. pose proof (search_result cs Hp) as H. destruct (checkParentCycles _ _) as [r|]; [|done]. exists r. split; [done|].
  destruct r as [state|e]; cbn in H |- *; split; [intros _ n Hn|done|done|].
  - destruct H as ([Hg _] & Hdone & _). apply (grounded_acyclic (parents_of cs (index_map cs)) n); [|done].
    apply Hg, Hdone. clear - Hp Hn. induction Hn as [x y H|x y z _ _ IH]; [by eapply requires_present|done].
  - intros Hn. destruct H as (n & _ & Hc). by destruct (Hn n).
Qed.

(** What the loader's checks of a set of connections establish. *)
Lemma accepted_set_ok connections declared internal management cs :
  validateConnectionDependencies connections declared internal management = Ok cs ->
  set_ok cs /\ internal ∈ conn_Name <$> cs.
Proof.
  unfold validateConnectionDependencies. intros (? & Hdev & H)%res_bind_ok. apply res_bind_ok in H as (? & Hroles & H).
  apply res_bind_ok in H as (? & Htun & H). apply res_bind_ok in H as (cs' & Hclaim & H). apply res_bind_ok in H as (? & Hcycle & H).
  apply res_bind_ok in H as (? & _ & [= <-]). apply claim_all_ok in Hclaim as [Hv Hparents].
  pose proof (validated_parents _ _ _ _ Hv Htun Hparents) as Hpresent.
  assert (index_map cs' = index_map connections) as Hidx by (by rewrite !index_map_names, (view_names _ _ Hv)).
  pose proof (search_result cs' Hpresent) as Hsearch. rewrite Hidx in Hsearch. split; [split|].
  - done.
  - intros c Hc. rewrite Hidx. destruct (checkParentCycles _ _) as [[state|e]|]; [|done|done]. destruct Hsearch as ([Hg _] & Hdone & _).
    apply Hg, Hdone. by apply list_elem_of_fmap_2.
  - rewrite devices_links, (view_links _ _ Hv), <- devices_links. unfold validateConnectionDevices in Hdev.
    by apply res_bind_ok in Hdev as (? & Hdev%take_keys_nodup & _).
  - rewrite tunnels_links, (view_links _ _ Hv), <- tunnels_links. by apply validateTunnels_ok in Htun as (? & ? & _).
  - intros c link t Hc Hl Ht. destruct (view_elem _ _ Hv c Hc) as (c0 & Hc0 & E). apply validateTunnels_ok in Htun as (_ & _ & Hcar).
    apply (carried_view connections cs' c0 c); [done|done|]. apply Hcar; [done| |done]. injection E as _ El _ _. congruence.
  - unfold validateRequiredRoles in Hroles. apply res_bind_ok in Hroles as (? & Hin%reject_if_ok & _). rewrite (view_names _ _ Hv).
    apply index_names_some. rewrite <- index_map_names. destruct (index_map connections !! internal); [by eexists|done].
Qed.

(** A set of connections that the loader accepts is sound: every parent a link names was
    accepted too and following parents always ends, no two links match the same device, no
    two tunnels have the same endpoints or the same VXLAN receiver, and the underlay of a
    tunnel is another connection that is no tunnel, leaves room for the outer header, and
    for a provider is a provider with IPv4. *)
Lemma accepted_set_sound connections declared internal management cs :
  validateConnectionDependencies connections declared internal management = Ok cs ->
  set_ok cs /\ internal ∈ conn_Name <$> cs.
Proof. apply accepted_set_ok. Qed.
