(* ===== verification/NetBgp.v ===== *)
(** * BGP sessions of the network document (networkjson/{bgp_session,bgp_session_rules}.go)

    How a provider's [bgp-session] list becomes the configurations the sessions module runs.
    [slog] calls are left out.  A session that is built has passed [BgpConfig.Validated]; its
    communities are read back from their own text. *)

From S2P Require Import Prelude GoStrings NptPolicy Intent BgpConfig BgpFib NetWire.

Local Open Scope Z_scope.

(** ** Communities (bgpsession/config.go)

    [fmt.Sscanf] reads the numbers of a text that is one canonical community; any other text
    fails the comparison with the canonical text. *)

(** [%d] into an unsigned integer of that many bits. *)
Definition scan_uint (bits : Z) (s : string) : option Z :=
  if is_empty s then None
  else match digits_val 0 s with
       | Some v => if v <? 2 ^ bits then Some v else None
       | None => None
       end.

Definition ParseCommunity (text : string) : option Community :=
  match split (of_val 58) text with
  | [a; b] =>
      match scan_uint 16 a, scan_uint 16 b with
      | Some asn, Some value =>
          let community := mkCommunity asn value in
          if bool_decide (Community_String community = text) then Some community else None
      | _, _ => None
      end
  | _ => None
  end.

Definition ParseLargeCommunity (text : string) : option LargeCommunity :=
  match split (of_val 58) text with
  | [a; b; c] =>
      match scan_uint 32 a, scan_uint 32 b, scan_uint 32 c with
      | Some admin, Some data1, Some data2 =>
          let community := mkLargeCommunity admin data1 data2 in
          if bool_decide (LargeCommunity_String community = text) then Some community else None
      | _, _, _ => None
      end
  | _ => None
  end.

Record BGPSession := mkBGPSession { bs_Session : SessionConfig; bs_BackupFor : gmap Prefix (list string) }.

Definition defaultBGPPeerPort : Z := 179.

Definition blank_session (name : string) : SessionConfig :=
  mkSessionConfig name AddrNone [] 0 0 AddrNone defaultBGPPeerPort AddrNone "" 0 0 0 0 0 [] [] [] 0.

Definition set_peers (peer : Addr) (port : Z) (local : Addr) (localAS remoteAS ttl : Z) (c : SessionConfig) : SessionConfig :=
  mkSessionConfig (sc_Name c) (RouterID c) (Families c) localAS remoteAS peer port local (sc_Interface c) ttl
    (KeepaliveSeconds c) (HoldSeconds c) (ConnectRetrySeconds c) (GracefulRestartSeconds c) (Import_ c) (Export_ c)
    (Tables c) (RouteMetric c).

Definition set_timers (keepalive hold retry restart : Z) (c : SessionConfig) : SessionConfig :=
  mkSessionConfig (sc_Name c) (RouterID c) (Families c) (LocalASN c) (RemoteASN c) (PeerAddress c) (PeerPort c)
    (LocalAddress c) (sc_Interface c) (MultihopTTL c) keepalive hold retry restart (Import_ c) (Export_ c)
    (Tables c) (RouteMetric c).

Definition set_rules (families : list Z) (metric : Z) (imports : list ImportRule) (exports : list ExportRule)
    (c : SessionConfig) : SessionConfig :=
  mkSessionConfig (sc_Name c) (RouterID c) families (LocalASN c) (RemoteASN c) (PeerAddress c) (PeerPort c)
    (LocalAddress c) (sc_Interface c) (MultihopTTL c) (KeepaliveSeconds c) (HoldSeconds c) (ConnectRetrySeconds c)
    (GracefulRestartSeconds c) imports exports (Tables c) metric.

(** *** Families and timers *)

Definition build_bgp_family (label raw : string) : res Z :=
  match ParseFamily raw with
  | (family, true) => Ok family
  | (_, false) => Err (label +:+ ": family must be " +:+ familyIPv6UnicastText)
  end.

Definition buildBGPFamilies (label : string) (raws : list string) : res (list Z) :=
  match raws with
  | [] => Ok [FamilyIPv6Unicast]
  | _ => map_res (build_bgp_family label) raws
  end.

Definition setBGPSessionTimers (label : string) (wire : bgpSessionWire) (session : SessionConfig) : res SessionConfig :=
  match bw_Hold wire, bw_Keepalive wire with
  | None, _ => Err (label +:+ ": hold is required")
  | Some _, None => Err (label +:+ ": keepalive is required")
  | Some hold, Some keepalive =>
      (check reject_if (negb (hold =? 0) && (hold <? MinHoldSeconds)) (label +:+ ": hold must be 0 or between 3 and 65535") ;;
       check reject_if (hold =? 0) (label +:+ ": hold 0 disables the hold timer, and the embedded speaker cannot disable it") ;;
       check reject_if (hold <=? keepalive) (label +:+ ": keepalive must be below hold") ;;
       check reject_if (match bw_ConnectRetry wire with Some retry => retry <? MinConnectRetrySeconds | None => false end)
               (label +:+ ": connect-retry is too short") ;;
       check reject_if (match bw_GracefulRestartTime wire with
                        | Some restart => (restart =? 0) || (MaxGracefulRestartSeconds <? restart)
                        | None => false
                        end) (label +:+ ": graceful-restart-time must be between 1 and 4095") ;;
       Ok (set_timers keepalive hold (default 0 (bw_ConnectRetry wire)) (default 0 (bw_GracefulRestartTime wire)) session))%go
  end.

Section Sessions.
Context `{NT : NetText}.

(** *** Peers *)

Definition required_asn (label leaf : string) (value : option Z) : res Z :=
  match value with
  | None => Err (label +:+ ": " +:+ leaf +:+ " is required")
  | Some n => if n =? 0 then Err (label +:+ ": " +:+ leaf +:+ " must not be 0") else Ok n
  end.

Definition setBGPSessionPeers (label : string) (wire : bgpSessionWire) (session : SessionConfig) : res SessionConfig :=
  (check reject_if (is_empty (bw_PeerAddress wire)) (label +:+ ": peer-address is required") ;;
   peer <-? parseAddress label "peer-address" (bw_PeerAddress wire) ;;
   let port := default (PeerPort session) (bw_PeerPort wire) in
   local <-? (if is_empty (bw_LocalAddress wire) then Ok (LocalAddress session)
              else (local <-? parseAddress label "local-address" (bw_LocalAddress wire) ;;
                    check reject_if (negb (Bool.eqb (Is4 local) (Is4 peer)))
                            (label +:+ ": local-address and peer-address use different address families") ;;
                    Ok local)) ;;
   localAS <-? required_asn label "local-as" (bw_LocalAS wire) ;;
   remoteAS <-? required_asn label "remote-as" (bw_RemoteAS wire) ;;
   check reject_if (match bw_MultihopTTL wire with Some ttl => ttl =? 0 | None => false end)
           (label +:+ ": multihop-ttl must be between 1 and 255") ;;
   Ok (set_peers peer port local localAS remoteAS (default (MultihopTTL session) (bw_MultihopTTL wire)) session))%go.

(** *** Rules *)

Definition parseBGPPrefix (label leaf raw : string) : res Prefix :=
  match ParsePrefix raw with
  | None => Err (label +:+ ": " +:+ leaf)
  | Some prefix =>
      if negb (Is6 (pfx_addr prefix)) || Is4In6 (pfx_addr prefix)
      then Err (label +:+ ": " +:+ leaf +:+ " is not an IPv6 prefix") else Ok prefix
  end.

Definition build_bgp_import (label : string) (wire : bgpImportWire) : res ImportRule :=
  (prefix <-? parseBGPPrefix label "import prefix" (biw_Prefix wire) ;;
   match biw_MinLength wire, biw_MaxLength wire with
   | Some min, Some max => Ok (mkImportRule prefix min max)
   | _, _ => Err (label +:+ ": import requires min-length and max-length")
   end)%go.

Definition buildBGPImports (label : string) (wires : list bgpImportWire) : res (list ImportRule) :=
  map_res (build_bgp_import label) wires.

Definition parse_community (label raw : string) : res Community :=
  match ParseCommunity raw with
  | Some community => Ok community
  | None => Err (label +:+ ": community is not ASN:value with two 16-bit decimal numbers")
  end.
Definition parseCommunities (label : string) (raws : list string) : res (list Community) :=
  map_res (parse_community label) raws.

Definition parse_large_community (label raw : string) : res LargeCommunity :=
  match ParseLargeCommunity raw with
  | Some community => Ok community
  | None => Err (label +:+ ": large-community is not three 32-bit decimal numbers separated by colons")
  end.
Definition parseLargeCommunities (label : string) (raws : list string) : res (list LargeCommunity) :=
  map_res (parse_large_community label) raws.

(** [backupFor[p] = append(backupFor[p], ids...)]; a loop over no identifier leaves the map. *)
Definition append_backup (p : Prefix) (ids : list string) (m : gmap Prefix (list string)) : gmap Prefix (list string) :=
  fold_left (fun m id => <[p := default [] (m !! p) ++ [id]]> m) ids m.

Definition build_bgp_export (label : string) (acc : list ExportRule * gmap Prefix (list string)) (wire : bgpExportWire) :
    res (list ExportRule * gmap Prefix (list string)) :=
  (prefix <-? parseBGPPrefix label "export prefix" (bew_Prefix wire) ;;
   let exportLabel := label +:+ " export " +:+ prefix_String prefix in
   let '(mode, known) := ParseExportMode (bew_Mode wire) in
   check reject_if (negb known) (exportLabel +:+ ": mode is not always or backup") ;;
   let backup := mode =? ExportBackup in
   check reject_if (backup && negb (nonempty (bew_BackupFor wire))) (exportLabel +:+ ": mode backup requires backup-for") ;;
   check reject_if (negb backup && nonempty (bew_BackupFor wire)) (exportLabel +:+ ": backup-for requires mode backup") ;;
   let backupFor := append_backup (Masked prefix) (bew_BackupFor wire) acc.2 in
   check reject_if (is_empty (bew_NextHop wire)) (exportLabel +:+ ": next-hop is required") ;;
   nextHop <-? parseAddress exportLabel "next-hop" (bew_NextHop wire) ;;
   communities <-? parseCommunities exportLabel (bew_Communities wire) ;;
   large <-? parseLargeCommunities exportLabel (bew_LargeCommunities wire) ;;
   Ok (acc.1 ++ [mkExportRule prefix mode (bew_LocalPreference wire) (bew_MED wire) (bew_PrependCount wire) communities
                   large nextHop], backupFor))%go.

Definition buildBGPExports (label : string) (wires : list bgpExportWire) :
    res (list ExportRule * gmap Prefix (list string)) :=
  fold_res (build_bgp_export label) ([], ∅) wires.

(** ** Sessions *)

Definition metric_bad (metric : Z) : bool := (metric =? 0) || (metric =? KernelDefaultIPv6Metric).

Definition buildBGPSession (label : string) (wire : bgpSessionWire) : res BGPSession :=
  (session <-? setBGPSessionPeers label wire (blank_session (bw_Name wire)) ;;
   families <-? buildBGPFamilies label (bw_Families wire) ;;
   session <-? setBGPSessionTimers label wire session ;;
   match bw_RouteMetric wire with
   | None => Err (label +:+ ": route-metric is required")
   | Some metric =>
       (check reject_if (metric_bad metric) (label +:+ ": route-metric collides with the kernel default metric") ;;
        imports <-? buildBGPImports label (bw_Import wire) ;;
        exports <-? buildBGPExports label (bw_Export wire) ;;
        match Validated (set_rules families metric imports exports.1 session) with
        | Err e => Err (label +:+ ": " +:+ e)
        | Ok validated => Ok (mkBGPSession validated exports.2)
        end)
   end)%go.

(** One round of the loop; [acc] holds the names so far and the sessions built. *)
Definition build_bgp_session_step (label : string) (acc : list string * list BGPSession) (wire : bgpSessionWire) :
    res (list string * list BGPSession) :=
  (check reject_if (is_empty (bw_Name wire)) (label +:+ ": bgp-session name is required") ;;
   check reject_if (bool_decide (bw_Name wire ∈ acc.1)) (label +:+ ": bgp-session name is duplicated") ;;
   session <-? buildBGPSession (label +:+ " bgp-session " +:+ bw_Name wire) wire ;;
   Ok (bw_Name wire :: acc.1, acc.2 ++ [session]))%go.

Definition buildBGPSessions (label : string) (entry : ifaceEntry) (provider : wan) : res (list BGPSession) :=
  match ww_BGPSessions provider with
  | [] => Ok []
  | wires =>
      (check reject_if (is_none (e_IPv6 entry)) (label +:+ ": a bgp-session requires an ipv6 family") ;;
       acc <-? fold_res (build_bgp_session_step label) ([], []) wires ;;
       Ok acc.2)%go
  end.
End Sessions.
