(* ===== verification/NetProvider.v ===== *)
(** * Providers of the network document (networkjson/{networkjson,translation,identity,bgp_session_set}.go)

    How one provider entry becomes the daemon's routing entry, and the checks over the whole
    set of providers: every routing number, static mapping and session metric has one owner. *)

From S2P Require Import Prelude GoStrings NptPolicy Intent BgpConfig BgpFib NetWire NetLink NetConn NetGraph NetBgp.

Local Open Scope Z_scope.

(** ** The daemon's data (config/ifmgr_modules.go) *)

Definition TranslationNative : string := "native".
Definition TranslationNAPT44 : string := "ietf-nat:napt44".
Definition TranslationNPTv6 : string := "ietf-nat:nptv6".
Definition TranslationMasquerade : string := "masquerade".
Definition PrefixConfigured : string := "configured".
Definition PrefixDelegated : string := "delegated".

Record StaticMapping := mkStaticMapping { sm_External : Addr; sm_Internal : Addr; sm_Delivery : string }.
Record IPv4Translation := mkIPv4Translation { t4_Mode : string; t4_StaticMappings : list StaticMapping }.
Record NPTv6Translation := mkNPTv6Translation {
  npt_InternalPrefix : Prefix;
  npt_ExternalSource : string;
  npt_ExternalPrefix : Prefix;
  npt_ExpectedPrefix : Prefix;
}.
Record IPv6Translation := mkIPv6Translation { t6_Mode : string; t6_NPT : option NPTv6Translation }.

Record IfMgrWANEntry := mkWANEntry {
  we_SelectionEnabled : option bool;
  we_ProviderName : string;
  we_Iface : string;
  we_TableID : Z;
  we_FwMark : Z;
  we_FwMarkPrio : Z;
  we_FromPrio : Z;
  we_TranslationV4 : option IPv4Translation;
  we_TranslationV6 : option IPv6Translation;
  we_V4Source : string;
  we_LinkFiles : string;
  we_ForcedDSCP : Z;
  we_Tier : Z;
  we_Weight : Z;
  we_BGPSessions : list BGPSession;
}.

Record IfMgrHealthWANSection := mkHealthWANSection {
  hs_Enabled : bool;
  hs_PingCount : option Z;
  hs_SuccessThreshold : option Z;
  hs_CheckIntervalSeconds : option Z;
  hs_FailureThreshold : option Z;
  hs_RecoveryThreshold : option Z;
  hs_TargetsV4 : list string;
  hs_TargetsV6 : list string;
  hs_HTTPURLs : list string;
}.

(** The values callers pass to [NewPolicyProvider]. *)
Definition IPv6Translation_PolicySource (t : option IPv6Translation) : bool * bool * Prefix :=
  match t with
  | Some t =>
      match t6_NPT t with
      | Some npt => if bool_decide (t6_Mode t = TranslationNPTv6)
                    then (true, bool_decide (npt_ExternalSource npt = PrefixConfigured), npt_ExternalPrefix npt)
                    else (false, false, no_prefix)
      | None => (false, false, no_prefix)
      end
  | None => (false, false, no_prefix)
  end.

(** ** Translation (translation.go) *)

Definition IFNAMSIZ : nat := 16.

Definition bad_name_chars : string :=
  "/: " +:+ String (of_val 9) (String (of_val 10) (String (of_val 11) (String (of_val 12) (String (of_val 13) "")))).

Definition unusable_name (name : string) : bool :=
  is_empty name || bool_decide (name = "."%string) || bool_decide (name = ".."%string)
  || (IFNAMSIZ <=? String.length name)%nat || contains_any name bad_name_chars.

Definition translationInterface (label name mode : string) : res unit :=
  reject_if (negb (bool_decide (mode = TranslationNative)) && unusable_name name)
    (label +:+ ": translated family requires a usable outgoing interface").

Section Providers.
Context `{NT : NetText}.

Definition translationPrefix (label leaf value : string) : res Prefix :=
  match ParsePrefix value with
  | None => Err (label +:+ ": NPTv6 " +:+ leaf +:+ " requires an IPv6 prefix")
  | Some prefix =>
      (check reject_if (negb (Is6 (pfx_addr prefix)) || Is4In6 (pfx_addr prefix))
               (label +:+ ": NPTv6 " +:+ leaf +:+ " requires an IPv6 prefix") ;;
       check reject_if (negb (bool_decide (prefix = Masked prefix))) (label +:+ ": NPTv6 " +:+ leaf +:+ " has host bits set") ;;
       check reject_if (64 <? pfx_bits prefix) (label +:+ ": NPTv6 " +:+ leaf +:+ " must be /64 or shorter") ;;
       Ok prefix)%go
  end.

Definition build_static_mapping (label : string) (mappings : list StaticMapping) (entry : staticMapping) : res (list StaticMapping) :=
  match ParseAddr (smw_External entry), ParseAddr (smw_Internal entry) with
  | None, _ => Err (label +:+ ": static-mapping external")
  | Some _, None => Err (label +:+ ": static-mapping internal")
  | Some external, Some internal =>
      (check reject_if (negb (Is4 external) || negb (Is4 internal)) (label +:+ ": static-mapping requires IPv4 addresses") ;;
       check reject_if (existsb (fun existing => bool_decide (sm_External existing = external)) mappings)
               (label +:+ ": static-mapping external is duplicated") ;;
       Ok (mappings ++ [mkStaticMapping external internal (smw_Delivery entry)]))%go
  end.

Definition buildStaticMappings (label : string) (entries : list staticMapping) : res (list StaticMapping) :=
  fold_res (build_static_mapping label) [] entries.

Definition buildTranslationV4 (label : string) (entry : ifaceEntry) : res (option IPv4Translation) :=
  match e_IPv4 entry with
  | None => Ok None
  | Some family =>
      match fw_Translation (f4_wire family) with
      | None => Err (label +:+ ": translation policy is required")
      | Some policy =>
          (check reject_if (negb (bool_decide (ft_Mode policy = TranslationNative)) && negb (bool_decide (ft_Mode policy = TranslationNAPT44)))
                   (label +:+ ": translation mode is not supported") ;;
           check translationInterface label (e_Name entry) (ft_Mode policy) ;;
           check reject_if (is_some (ft_NPT policy)) (label +:+ ": nptv6 data is not valid for IPv4") ;;
           check reject_if (bool_decide (ft_Mode policy = TranslationNative) && nonempty (ft_StaticMappings policy))
                   (label +:+ ": static mappings require NAPT44") ;;
           mappings <-? buildStaticMappings label (ft_StaticMappings policy) ;;
           Ok (Some (mkIPv4Translation (ft_Mode policy) mappings)))%go
      end
  end.

Definition build_npt (label : string) (family : familyV6) (w : nptTranslation) : res NPTv6Translation :=
  (internal <-? translationPrefix label "internal-prefix" (nt_InternalPrefix w) ;;
   if bool_decide (nt_ExternalSource w = PrefixConfigured) then
     (external <-? translationPrefix label "external-prefix" (nt_ExternalPrefix w) ;;
      check reject_if (negb (is_empty (nt_ExpectedPrefix w))) (label +:+ ": expected-prefix requires a delegated source") ;;
      Ok (mkNPTv6Translation internal (nt_ExternalSource w) external no_prefix))
   else if bool_decide (nt_ExternalSource w = PrefixDelegated) then
     (check reject_if (is_none (f6_Delegation family) || negb (is_set (fw_DHCP (f6_wire family))))
              (label +:+ ": delegated NPTv6 requires DHCPv6 delegation configuration") ;;
      check reject_if (negb (is_empty (nt_ExternalPrefix w))) (label +:+ ": delegated source cannot configure external-prefix") ;;
      expected <-? (if is_empty (nt_ExpectedPrefix w) then Ok no_prefix
                    else translationPrefix label "expected-prefix" (nt_ExpectedPrefix w)) ;;
      Ok (mkNPTv6Translation internal (nt_ExternalSource w) no_prefix expected))
   else Err (label +:+ ": NPTv6 external-source must be configured or delegated"))%go.

Definition buildTranslationV6 (label : string) (entry : ifaceEntry) : res (option IPv6Translation) :=
  match e_IPv6 entry with
  | None => Ok None
  | Some family =>
      match fw_Translation (f6_wire family) with
      | None => Err (label +:+ ": translation policy is required")
      | Some policy =>
          let mode := ft_Mode policy in
          (check reject_if (negb (bool_decide (mode = TranslationNative)) && negb (bool_decide (mode = TranslationNPTv6))
                            && negb (bool_decide (mode = TranslationMasquerade))) (label +:+ ": translation mode is not supported") ;;
           check translationInterface label (e_Name entry) mode ;;
           check reject_if (nonempty (ft_StaticMappings policy)) (label +:+ ": IPv4 static mappings are not valid for IPv6") ;;
           if bool_decide (mode = TranslationNative) || bool_decide (mode = TranslationMasquerade) then
             (check reject_if (is_some (ft_NPT policy)) (label +:+ ": mode cannot configure NPTv6") ;;
              Ok (Some (mkIPv6Translation mode None)))
           else
             match ft_NPT policy with
             | None => Err (label +:+ ": NPTv6 prefix data is required")
             | Some w => (npt <-? build_npt label family w ;; Ok (Some (mkIPv6Translation mode (Some npt))))
             end)%go
      end
  end.

(** ** One provider (networkjson.go) *)

Definition buildSteering (label : string) (member : option steering) : res (Z * Z) :=
  match member with
  | None => Err (label +:+ ": steering is required")
  | Some m =>
      match st_Tier m, st_Weight m with
      | None, _ => Err (label +:+ ": steering/tier is required")
      | Some _, None => Err (label +:+ ": steering/weight is required")
      | Some tier, Some weight =>
          if (tier <? 0) || (255 <? tier) then Err (label +:+ ": steering/tier is outside 0 to 255") else Ok (tier, weight)
      end
  end.

Definition required_number (label : string) (number : string * option Z) : res unit :=
  reject_if (is_none number.2) (label +:+ ": " +:+ number.1 +:+ " is required").

Definition buildHealth (label : string) (probe : health) : res IfMgrHealthWANSection :=
  match hw_Enabled probe with
  | None => Err (label +:+ ": health/enabled is required")
  | Some enabled =>
      let section := mkHealthWANSection enabled (hw_PingCount probe) (hw_SuccessThreshold probe) (hw_CheckInterval probe)
                       (hw_FailureThreshold probe) (hw_RecoveryThreshold probe) (hw_TargetsV4 probe) (hw_TargetsV6 probe)
                       (hw_HTTPURLs probe) in
      if negb enabled then Ok section
      else
        (check check_all (fun count => required_number label ("health/" +:+ count.1, count.2))
                 [("ping-count"%string, hw_PingCount probe); ("success-threshold"%string, hw_SuccessThreshold probe);
                  ("failure-threshold"%string, hw_FailureThreshold probe); ("recovery-threshold"%string, hw_RecoveryThreshold probe);
                  ("check-interval"%string, hw_CheckInterval probe)] ;;
         Ok section)%go
  end.

Definition buildProvider (entry : ifaceEntry) (provider : wan) : res (IfMgrWANEntry * option IfMgrHealthWANSection) :=
  if is_empty (ww_Name provider) then Err "interface carries a provider with no name"
  else
    let label := "wan " +:+ ww_Name provider in
    (check check_all (required_number label)
             [("table-id"%string, ww_TableID provider); ("fw-mark"%string, ww_FwMark provider);
              ("fw-mark-prio"%string, ww_FwMarkPrio provider); ("from-prio"%string, ww_FromPrio provider)] ;;
     check reject_if (negb (is_empty (ww_V4Source provider)))
             (label +:+ ": v4-source is derived from the link's static ipv4 address and must not be typed") ;;
     member <-? buildSteering label (e_Steering entry) ;;
     policyV4 <-? buildTranslationV4 (label +:+ " ipv4") entry ;;
     policyV6 <-? buildTranslationV6 (label +:+ " ipv6") entry ;;
     sessions <-? buildBGPSessions label entry provider ;;
     let routing := mkWANEntry (s ← e_Steering entry; st_Enabled s) (ww_Name provider) (e_Name entry)
                      (default 0 (ww_TableID provider)) (default 0 (ww_FwMark provider)) (default 0 (ww_FwMarkPrio provider))
                      (default 0 (ww_FromPrio provider)) policyV4 policyV6 "" (e_LinkFiles entry)
                      (default 0 (ww_ForcedDSCP provider)) member.1 member.2 sessions in
     match ww_Health provider with
     | None => Ok (routing, None)
     | Some probe => (section <-? buildHealth label probe ;; Ok (routing, Some section))
     end)%go.
End Providers.

(** ** Projection of the accepted providers *)

Definition with_source (source name : string) (e : IfMgrWANEntry) : IfMgrWANEntry :=
  mkWANEntry (we_SelectionEnabled e) name (we_Iface e) (we_TableID e) (we_FwMark e) (we_FwMarkPrio e) (we_FromPrio e)
    (we_TranslationV4 e) (we_TranslationV6 e) source (we_LinkFiles e) (we_ForcedDSCP e) (we_Tier e) (we_Weight e)
    (we_BGPSessions e).

Record projections := mkProjections {
  pj_WAN : gmap string IfMgrWANEntry;
  pj_Health : gmap string IfMgrHealthWANSection;
  pj_Rejected : list Rejected;
  pj_dscpOwners : list Z;
}.

(** A later connection of the same name replaces an earlier one. *)
Definition by_name (connections : list Connection) : gmap string Connection :=
  fold_left (fun m c => <[conn_Name c := c]> m) connections ∅.

Section Projection.
Context `{NT : NetText}.

Definition staticV4Source (connection : Connection) : string :=
  match conn_IPv4 connection with
  | Some ipv4 => match fam_Addresses (v4_Family ipv4) with a :: _ => addr_String (pfx_addr (adr_Prefix a)) | [] => ""%string end
  | None => ""%string
  end.

Definition compile_provider (ids : gmap string string) (byName : gmap string Connection) (p : projections) (entry : ifaceEntry) :
    res projections :=
  match e_WAN entry, byName !! e_Name entry with
  | Some provider, Some connection =>
      let id := default ""%string (ids !! e_Name entry) in
      match buildProvider entry provider with
      | Err err =>
          if bool_decide (e_Owner entry = OwnerMWAN) then Err ("interface " +:+ e_Name entry +:+ ": " +:+ err)
          else Ok (mkProjections (pj_WAN p) (pj_Health p) (pj_Rejected p ++ [rejectEntry entry err]) (pj_dscpOwners p))
      | Ok (routing, probe) =>
          (owners <-? (match ww_ForcedDSCP provider with
                       | Some value => take_key "forced-dscp is already taken" (pj_dscpOwners p) value
                       | None => Ok (pj_dscpOwners p)
                       end) ;;
           Ok (mkProjections (<[id := with_source (staticV4Source connection) (ww_Name provider) routing]> (pj_WAN p))
                 (match probe with Some section => <[id := section]> (pj_Health p) | None => pj_Health p end)
                 (pj_Rejected p) owners))%go
      end
  | _, _ => Ok p
  end.

Definition compileProviderProjections (entries : list ifaceEntry) (connections : list Connection) (ids : gmap string string)
    (rejected : list Rejected) : res projections :=
  (check ValidateNativeBindings connections ;;
   fold_res (compile_provider ids (by_name connections)) (mkProjections ∅ ∅ rejected []) entries)%go.
End Projection.

(** ** The whole set of providers *)

Definition kernelReservedTables : list Z := [0; 253; 254; 255].

Definition sorted_wans (WAN : gmap string IfMgrWANEntry) : list (string * IfMgrWANEntry) :=
  omap (fun name => pair name <$> WAN !! name) (sort_strings (map_to_list WAN).*1).

Definition unique_keys {K} `{EqDecision K} (msg : error) (keys : list K) : res unit :=
  (check fold_res (take_key msg) [] keys ;; Ok tt)%go.

Definition entry_priorities (e : IfMgrWANEntry) : list Z := [we_FwMarkPrio e; we_FromPrio e].
Definition entry_externals (e : IfMgrWANEntry) : list Addr :=
  match we_TranslationV4 e with Some t => sm_External <$> t4_StaticMappings t | None => [] end.

Definition checkMappedExternals (entries : list (string * IfMgrWANEntry)) : res unit :=
  unique_keys "static-mapping external is already mapped" (e ← entries; entry_externals e.2).

Definition mainRouteMetric (family : string) (metric : Z) : Z :=
  if bool_decide (family = "ipv6"%string) && (metric =? 0) then 1024 else metric.

Definition ipv6_route_metrics (connection : Connection) : list Z :=
  match conn_IPv6 connection with
  | None => []
  | Some ipv6 =>
      let family := v6_Family ipv6 in
      (match fam_RouteMetric family with
       | Some metric => [mainRouteMetric "ipv6" metric]
       | None => if addr_valid (fam_Gateway family) then [mainRouteMetric "ipv6" 0] else []
       end)
      ++ ((fun route => mainRouteMetric "ipv6" (ri_Metric route)) <$> fam_Routes family)
  end.
Definition configuredIPv6RouteMetrics (connections : list Connection) : list Z := c ← connections; ipv6_route_metrics c.

(** [known]: the connection identifiers; a map of backups is walked in some order. *)
Definition check_backup (name : string) (known : list string) (id : string) : res unit :=
  (check reject_if (bool_decide (id = name)) "backup-for is the session's own connection" ;;
   reject_if (negb (bool_decide (id ∈ known))) "backup-for is not a connection ID")%go.

Definition check_bgp_session (known : list string) (taken : list Z) (s : string * BGPSession) : res (list Z) :=
  (taken' <-? take_key "route-metric is already taken" taken (RouteMetric (bs_Session s.2)) ;;
   check check_all (fun b => check_all (check_backup s.1 known) b.2) (map_to_list (bs_BackupFor s.2)) ;;
   Ok taken')%go.

Definition named_sessions (entries : list (string * IfMgrWANEntry)) : list (string * BGPSession) :=
  e ← entries; pair e.1 <$> we_BGPSessions e.2.

Definition checkBGPSessionSet (connections : list Connection) (entries : list (string * IfMgrWANEntry)) : res unit :=
  (check fold_res (check_bgp_session (conn_ID <$> connections)) (configuredIPv6RouteMetrics connections) (named_sessions entries) ;;
   Ok tt)%go.

Definition check_table_and_weight (reserved : list Z) (e : string * IfMgrWANEntry) : res unit :=
  (check reject_if (bool_decide (we_TableID e.2 ∈ reserved)) "table-id is reserved" ;;
   reject_if (we_Weight e.2 <? 1) "steering/weight must be at least 1")%go.

Definition checkProviderSet (reservedTables : list Z) (connections : list Connection) (WAN : gmap string IfMgrWANEntry) : res unit :=
  let entries := sorted_wans WAN in
  (check unique_keys "table-id is already taken" (we_TableID <$> entries.*2) ;;
   check unique_keys "fw-mark is already taken" (we_FwMark <$> entries.*2) ;;
   check unique_keys "priority is already taken" (e ← entries; entry_priorities e.2) ;;
   check checkMappedExternals entries ;;
   check checkBGPSessionSet connections entries ;;
   check_all (check_table_and_weight (kernelReservedTables ++ reservedTables)) entries)%go.

(** ** What the checks over the set establish *)

Lemma fresh_keys {A K} (f : list K -> A -> res (list K)) (key : A -> K) xs taken r :
  (forall t x t', f t x = Ok t' -> key x ∉ t /\ t' = key x :: t) -> fold_res f taken xs = Ok r ->
  NoDup (key <$> xs) /\ (forall k, k ∈ key <$> xs -> k ∉ taken) /\ r = reverse (key <$> xs) ++ taken.
Proof.
  intros Hf. apply (fold_res_ind _ (fun dn r => NoDup (key <$> dn) /\ (forall k, k ∈ key <$> dn -> k ∉ taken) /\ r = reverse (key <$> dn) ++ taken)).
  - split_and!; [constructor|by intros k ?%not_elem_of_nil|done].
  - intros dn x todo b b' _ (Hnd & Hfresh & ->) Hx. apply Hf in Hx as [Hx ->]. rewrite not_elem_of_app, elem_of_reverse in Hx.
    destruct Hx as [Hx1 Hx2]. rewrite fmap_app, reverse_app. split_and!; [|intros k [Hk| ->%list_elem_of_singleton]%elem_of_app; [by apply Hfresh|done]|done].
    apply NoDup_app. split_and!; [done|intros k Hk ->%list_elem_of_singleton; done|apply NoDup_singleton].
Qed.

Lemma unique_keys_ok {K} `{EqDecision K} msg (keys : list K) u : unique_keys msg keys = Ok u -> NoDup keys.
Proof. unfold unique_keys. by intros (r & Hr%take_keys_nodup & _)%res_bind_ok. Qed.

Lemma sorted_wans_perm WAN : sorted_wans WAN ≡ₚ map_to_list WAN.
Proof.
  unfold sorted_wans. rewrite (sort_strings_perm (map_to_list WAN).*1).
  assert (forall l, (forall e, e ∈ l -> WAN !! e.1 = Some e.2) -> omap (fun name => pair name <$> WAN !! name) l.*1 = l) as H.
  { induction l as [|[n e] l IH]; intros Hl; [done|]. cbn. pose proof (Hl (n, e) ltac:(by left)) as Hn. cbn in Hn. rewrite Hn. cbn. f_equal. apply IH. intros e' He. apply Hl. by right. }
  rewrite H; [done|]. intros [n e] He. by apply elem_of_map_to_list in He.
Qed.

Lemma sorted_wans_in WAN n e : (n, e) ∈ sorted_wans WAN <-> WAN !! n = Some e.
Proof. rewrite sorted_wans_perm. apply elem_of_map_to_list. Qed.

Lemma sorted_wans_nodup WAN : NoDup (sorted_wans WAN).
Proof. rewrite sorted_wans_perm. apply NoDup_map_to_list. Qed.

(** A key that two elements of a list share makes them the same element. *)
Lemma NoDup_bind_shared {A K} (f : A -> list K) (l : list A) i j x y k :
  NoDup (x ← l; f x) -> l !! i = Some x -> l !! j = Some y -> k ∈ f x -> k ∈ f y -> i = j.
Proof.
  revert i j. induction l as [|a l IH]; intros i j Hnd Hi Hj Hx Hy; [done|]. cbn in Hnd. apply NoDup_app in Hnd as (_ & Hdisj & Hnd).
  destruct i as [|i], j as [|j]; cbn in *; [done|injection Hi as ->|injection Hj as ->|f_equal; by eapply IH].
  - destruct (Hdisj k Hx). apply list_elem_of_bind. exists y. split; [done|]. by eapply list_elem_of_lookup_2.
  - destruct (Hdisj k Hy). apply list_elem_of_bind. exists x. split; [done|]. by eapply list_elem_of_lookup_2.
Qed.

Lemma NoDup_bind_elem {A K} (f : A -> list K) (l : list A) x : NoDup (x ← l; f x) -> x ∈ l -> NoDup (f x).
Proof.
  induction l as [|a l IH]; [by intros _ ?%not_elem_of_nil|]. cbn. intros (Ha & _ & Hl)%NoDup_app [->|Hx]%elem_of_cons; [done|by apply IH].
Qed.

Lemma fmap_as_bind {A K} (f : A -> K) (l : list A) : f <$> l = (x ← l; [f x]).
Proof. induction l as [|x l IH]; [done|]. cbn. by rewrite <- IH. Qed.

(** One owner per key: two providers that share a key are the same provider. *)
Definition one_owner {K} (keys : IfMgrWANEntry -> list K) (WAN : gmap string IfMgrWANEntry) : Prop :=
  forall i j a b k, WAN !! i = Some a -> WAN !! j = Some b -> k ∈ keys a -> k ∈ keys b -> i = j.

Lemma one_owner_nodup {K} (keys : IfMgrWANEntry -> list K) WAN :
  NoDup (e ← sorted_wans WAN; keys e.2) -> one_owner keys WAN /\ forall i a, WAN !! i = Some a -> NoDup (keys a).
Proof.
  intros Hnd. split.
  - intros i j a b k Hi Hj Ha Hb. rewrite <- sorted_wans_in in Hi, Hj.
    apply list_elem_of_lookup_1 in Hi as (m & Hm). apply list_elem_of_lookup_1 in Hj as (n & Hn).
    assert (m = n) as -> by (by eapply (NoDup_bind_shared (fun e : string * IfMgrWANEntry => keys e.2))). congruence.
  - intros i a Hi. rewrite <- sorted_wans_in in Hi. exact (NoDup_bind_elem (fun e : string * IfMgrWANEntry => keys e.2) _ _ Hnd Hi).
Qed.

Record provider_set_ok (reservedTables : list Z) (connections : list Connection) (WAN : gmap string IfMgrWANEntry) : Prop := mkProviderSetOk {
  ps_tables : one_owner (fun e => [we_TableID e]) WAN;
  ps_marks : one_owner (fun e => [we_FwMark e]) WAN;
  ps_priorities : one_owner entry_priorities WAN /\ forall i a, WAN !! i = Some a -> we_FwMarkPrio a <> we_FromPrio a;
  ps_externals : one_owner entry_externals WAN;
  ps_free : forall i a, WAN !! i = Some a -> we_TableID a ∉ kernelReservedTables ++ reservedTables /\ 1 <= we_Weight a;
  ps_metrics : NoDup ((fun s => RouteMetric (bs_Session s.2)) <$> named_sessions (sorted_wans WAN));
  ps_sessions : forall i a s, WAN !! i = Some a -> s ∈ we_BGPSessions a ->
    RouteMetric (bs_Session s) ∉ configuredIPv6RouteMetrics connections /\
    forall prefix ids id, bs_BackupFor s !! prefix = Some ids -> id ∈ ids -> id <> i /\ id ∈ conn_ID <$> connections;
}.

Lemma check_bgp_session_fresh known t x t' : check_bgp_session known t x = Ok t' ->
  RouteMetric (bs_Session x.2) ∉ t /\ t' = RouteMetric (bs_Session x.2) :: t.
Proof.
  unfold check_bgp_session, take_key. intros (t1 & H1 & H)%res_bind_ok. apply res_bind_ok in H as (? & _ & [= <-]).
  apply res_bind_ok in H1 as (? & H1%reject_if_ok & [= <-]). by apply bool_decide_eq_false in H1.
Qed.

Lemma bgp_set_ok connections entries u : checkBGPSessionSet connections entries = Ok u ->
  NoDup ((fun s => RouteMetric (bs_Session s.2)) <$> named_sessions entries) /\
  forall s, s ∈ named_sessions entries -> RouteMetric (bs_Session s.2) ∉ configuredIPv6RouteMetrics connections /\
    forall prefix ids id, bs_BackupFor s.2 !! prefix = Some ids -> id ∈ ids -> id <> s.1 /\ id ∈ conn_ID <$> connections.
Proof.
  unfold checkBGPSessionSet. intros (r & Hr & _)%res_bind_ok.
  assert (forall s, s ∈ named_sessions entries -> check_all (fun b => check_all (check_backup s.1 (conn_ID <$> connections)) b.2) (map_to_list (bs_BackupFor s.2)) = Ok tt) as Hb.
  { intros s Hs. revert Hr. generalize (configuredIPv6RouteMetrics connections). revert Hs. induction (named_sessions entries) as [|x l IH]; [by intros ?%not_elem_of_nil|].
    intros [->|Hs]%elem_of_cons taken (t & Ht & H)%res_bind_ok; [|by eapply IH]. unfold check_bgp_session in Ht.
    apply res_bind_ok in Ht as (? & _ & Ht). by apply res_bind_ok in Ht as ([] & ? & _). }
  destruct (fresh_keys _ (fun s => RouteMetric (bs_Session s.2)) _ _ _ (check_bgp_session_fresh _) Hr) as (Hnd & Hfresh & _).
  split; [done|]. intros s Hs. split; [apply Hfresh; by apply (list_elem_of_fmap_2 (fun s => RouteMetric (bs_Session s.2)))|].
  intros prefix ids id Hp Hid. specialize (Hb s Hs). rewrite check_all_ok, Forall_forall in Hb.
  specialize (Hb (prefix, ids) ltac:(by apply elem_of_map_to_list)). rewrite check_all_ok, Forall_forall in Hb. specialize (Hb id Hid).
  unfold check_backup in Hb. apply res_bind_ok in Hb as (? & H1%reject_if_ok & H2%reject_if_ok).
  apply bool_decide_eq_false in H1. apply negb_false_iff, bool_decide_eq_true in H2. done.
Qed.

Lemma named_sessions_in WAN i a s : WAN !! i = Some a -> s ∈ we_BGPSessions a -> (i, s) ∈ named_sessions (sorted_wans WAN).
Proof.
  intros Hi Hs. unfold named_sessions. apply list_elem_of_bind. exists (i, a). split; [by apply (list_elem_of_fmap_2 (pair i))|by apply sorted_wans_in].
Qed.

Lemma provider_set_checked reservedTables connections WAN u : checkProviderSet reservedTables connections WAN = Ok u ->
  provider_set_ok reservedTables connections WAN.
Proof.
  unfold checkProviderSet. intros (? & Ht%unique_keys_ok & H)%res_bind_ok. apply res_bind_ok in H as (? & Hm%unique_keys_ok & H).
  apply res_bind_ok in H as (? & Hp%unique_keys_ok & H). apply res_bind_ok in H as (? & Hx%unique_keys_ok & H).
  apply res_bind_ok in H as (? & Hs%bgp_set_ok & H). rewrite fmap_as_bind in Ht, Hm. destruct Hs as [Hmet Hsess].
  assert (forall (f : IfMgrWANEntry -> Z) l, (e ← l.*2; [f e]) = (e ← l; [f (e : string * IfMgrWANEntry).2])) as E
    by (intros f l; induction l as [|y l IH]; [done|]; cbn; by rewrite IH).
  rewrite E in Ht, Hm. destruct (one_owner_nodup _ _ Hp) as [Hp1 Hp2]. split.
  - by apply (one_owner_nodup (fun e => [we_TableID e])).
  - by apply (one_owner_nodup (fun e => [we_FwMark e])).
  - split; [done|]. intros i a Hi. specialize (Hp2 i a Hi). apply NoDup_cons in Hp2 as [Hp2 _]. by intros Heq; apply Hp2; rewrite Heq; left.
  - by apply (one_owner_nodup entry_externals).
  - intros i a Hi. apply sorted_wans_in in Hi. rewrite check_all_ok, Forall_forall in H. specialize (H _ Hi). unfold check_table_and_weight in H.
    apply res_bind_ok in H as (? & H1%reject_if_ok & H2%reject_if_ok). apply bool_decide_eq_false in H1. cbn in *. split; [done|lia].
  - done.
  - intros i a s Hi Hs. apply (Hsess (i, s)). by eapply named_sessions_in.
Qed.
