(* ===== verification/NetClaims.v ===== *)
(** * Claims on network resources (networkjson/{intent,routes}.go)

    Every accepted connection claims the links, addresses, routes, clients, rules and tables
    that something writes for it; the document is refused when two claims name the same
    resource.  The loop over a connection's two families runs in a fixed order here; the code
    walks a map, so which of several errors is reported may differ. *)

From S2P Require Import Prelude GoStrings NptPolicy Intent BgpConfig BgpFib NetWire NetLink NetConn NetGraph NetBgp NetProvider.

Local Open Scope Z_scope.

(** ** Data (interfaceintent/intent.go) *)

Definition ResourceLink : string := "link".
Definition ResourceStaticAddress : string := "static-address".
Definition ResourceAcquiredAddress : string := "acquired-address".
Definition ResourceMappedAddress : string := "mapped-address".
Definition ResourceNPTExternalAddress : string := "npt-external-address".
Definition ResourceMainRoute : string := "main-route".
Definition ResourceProviderRoute : string := "provider-route".
Definition ResourcePolicyRule : string := "policy-rule".
Definition ResourceDHCPv4 : string := "dhcpv4".
Definition ResourceDHCPv6 : string := "dhcpv6".
Definition ResourceRASLAAC : string := "ra-slaac".

Definition WriterExternal : string := "external".
Definition WriterNetworkd : string := "networkd".
Definition WriterMWANLink : string := "mwan-link".
Definition WriterMWANAddress : string := "mwan-address".
Definition WriterMWANProtocol : string := "mwan-protocol".
Definition WriterMWANRoute : string := "mwan-route".
Definition WriterWANRoutes : string := "wan-routes".
Definition WriterNPT : string := "npt".
Definition WriterKernel : string := "kernel".

Record Claim := mkClaim {
  cl_ConnectionID : string;
  cl_Kind : string;
  cl_Family : string;
  cl_Key : string;
  cl_Writer : string;
}.

(** ** Gateways (routes.go) *)

Definition routeClaimFamilies (connection : Connection) : list (string * Family) :=
  (match conn_IPv4 connection with Some f => [("ipv4"%string, v4_Family f)] | None => [] end)
  ++ (match conn_IPv6 connection with Some f => [("ipv6"%string, v6_Family f)] | None => [] end).

Definition default_slot (name : string) (metric : Z) : string :=
  name +:+ "/main/default/" +:+ itoa (mainRouteMetric name metric).

Definition gatewayRouteSlots (connections : list Connection) : list string :=
  c ← connections; f ← routeClaimFamilies c;
  if addr_valid (fam_Gateway f.2) then [default_slot f.1 (default 0 (fam_RouteMetric f.2))] else [].

Definition validateConfiguredGatewayClaims (connections : list Connection) : res unit :=
  let gateways := gatewayRouteSlots connections in
  check_all (fun slot => reject_if (bool_decide (slot ∈ gateways)) "configured route conflicts with gateway")
    (c ← connections; f ← routeClaimFamilies c; r ← fam_Routes f.2;
     if pfx_bits (ri_Destination r) =? 0 then [default_slot f.1 (ri_Metric r)] else []).

(** ** Collecting claims (intent.go) *)

Record claim_state := mkClaimState { cs_claims : list Claim; cs_owners : list string; cs_addresses : list string }.

Definition claim_resource (c : Claim) : string := cl_Kind c +:+ "/" +:+ cl_Family c +:+ "/" +:+ cl_Key c.

(** [strings.TrimPrefix] *)
Definition trim_prefix (p s : string) : string :=
  if has_prefix p s then String.substring (String.length p) (String.length s - String.length p) s else s.

Definition mappingUsesStaticAddress (connection : Connection) (external : Addr) : bool :=
  match conn_IPv4 connection with
  | None => false
  | Some ipv4 => existsb (fun a => bool_decide (adr_Purpose a = PurposeLocal) && bool_decide (pfx_addr (adr_Prefix a) = external))
                   (fam_Addresses (v4_Family ipv4))
  end.

Definition mappingNeedsAddressClaim (connection : Connection) (mapping : StaticMapping) : bool :=
  if bool_decide (sm_Delivery mapping = DeliveryRouted) then false
  else if bool_decide (sm_Delivery mapping = DeliveryLocal) then negb (mappingUsesStaticAddress connection (sm_External mapping))
  else match conn_IPv4 connection with
       | None => false
       | Some ipv4 =>
           existsb (fun a => negb (negb (bool_decide (adr_Purpose a = PurposeLocal))
                                   || bool_decide (pfx_addr (adr_Prefix a) = sm_External mapping))
                             && ((pfx_bits (adr_Prefix a) <? 32) && Contains (Masked (adr_Prefix a)) (sm_External mapping)))
             (fam_Addresses (v4_Family ipv4))
       end.

Definition uses_dhcp_routes (connection : Connection) : bool :=
  match conn_IPv4 connection with
  | Some ipv4 => match v4_DHCPv4 ipv4 with Some d => unless_false (d4_UseRoutes d) | None => true end
  | None => true
  end.

Section Claims.
Context `{NT : NetText}.

Definition claimedAddressKey (claim : Claim) (name : string) : string :=
  if bool_decide (cl_Kind claim = ResourceStaticAddress) then
    match ParsePrefix (trim_prefix (name +:+ "/") (cl_Key claim)) with
    | Some prefix => cl_Family claim +:+ "/" +:+ name +:+ "/" +:+ prefix_String prefix
    | None => ""%string
    end
  else if bool_decide (cl_Kind claim = ResourceMappedAddress) then cl_Family claim +:+ "/" +:+ name +:+ "/" +:+ cl_Key claim
  else ""%string.

(** The closure [add]; [names] maps a connection's identifier to its name. *)
Definition add_claim (names : gmap string string) (s : claim_state) (claim : Claim) : res claim_state :=
  let key := claim_resource claim in
  let addressKey := claimedAddressKey claim (default ""%string (names !! cl_ConnectionID claim)) in
  (check reject_if (bool_decide (key ∈ cs_owners s)) "resource has two writers" ;;
   check reject_if (negb (is_empty addressKey) && bool_decide (addressKey ∈ cs_addresses s)) "address has two writers" ;;
   Ok (mkClaimState (cs_claims s ++ [claim]) (key :: cs_owners s)
         (if is_empty addressKey then cs_addresses s else addressKey :: cs_addresses s)))%go.

Definition connection_writer (owner : string) : string :=
  if bool_decide (owner = OwnerNetworkd) then WriterNetworkd
  else if bool_decide (owner = OwnerMWAN) then WriterMWANLink else WriterExternal.

(** [own mwan other]: the writer a gateway-owned connection has, or the other. *)
Definition owned_writer (connection : Connection) (mwan other : string) : string :=
  if bool_decide (conn_Owner connection = OwnerMWAN) then mwan else other.

Section Adding.
Context (names : gmap string string).

Definition claimDHCPResources (connection : Connection) (name : string) (family : Family) (writer : string) (s : claim_state) :
    res claim_state :=
  let id := conn_ID connection in
  (s <-? (if bool_decide (conn_Owner connection = OwnerMWAN) && bool_decide (name = "ipv4"%string) && uses_dhcp_routes connection then
            match fam_RouteMetric family with
            | None => Err "DHCPv4 route metric is absent"
            | Some metric => add_claim names s (mkClaim id ResourceMainRoute name ("main/default/" +:+ itoa metric) WriterMWANRoute)
            end
          else Ok s) ;;
   fold_res (add_claim names) s
     [mkClaim id (if bool_decide (name = "ipv6"%string) then ResourceDHCPv6 else ResourceDHCPv4) name (conn_Name connection)
        (owned_writer connection WriterMWANProtocol writer);
      mkClaim id ResourceAcquiredAddress name (conn_Name connection) (owned_writer connection WriterMWANAddress writer)])%go.

Definition route_key (name : string) (route : RouteIntent) : string :=
  "main/" +:+ (if pfx_bits (ri_Destination route) =? 0 then "default"%string else prefix_String (ri_Destination route)) +:+ "/"
  +:+ itoa (mainRouteMetric name (ri_Metric route)).

Definition gateway_key (connection : Connection) (name : string) (family : Family) : string :=
  if bool_decide (conn_Owner connection = OwnerMWAN)
  then "main/default/" +:+ itoa (mainRouteMetric name (default 0 (fam_RouteMetric family)))
  else conn_Name connection +:+ "/" +:+ addr_String (fam_Gateway family).

Definition claimFamilyResources (connection : Connection) (writer : string) (s : claim_state) (f : string * Family) : res claim_state :=
  let '(name, family) := f in
  let id := conn_ID connection in
  let addressWriter := owned_writer connection WriterMWANAddress writer in
  let routeWriter := owned_writer connection WriterMWANRoute writer in
  (s <-? fold_res (add_claim names) s
           (((fun a => mkClaim id ResourceStaticAddress name (conn_Name connection +:+ "/" +:+ prefix_String (adr_Prefix a)) addressWriter)
               <$> fam_Addresses family)
            ++ (if addr_valid (fam_Gateway family)
                then [mkClaim id ResourceMainRoute name (gateway_key connection name family) routeWriter] else [])
            ++ ((fun r => mkClaim id ResourceMainRoute name (route_key name r) routeWriter) <$> fam_Routes family)) ;;
   if is_set (fam_DHCP family) then claimDHCPResources connection name family writer s else Ok s)%go.

Definition claimConnectionResources (connection : Connection) (s : claim_state) : res claim_state :=
  let writer := connection_writer (conn_Owner connection) in
  let id := conn_ID connection in
  (s <-? (if is_some (conn_Link connection) then add_claim names s (mkClaim id ResourceLink "" (conn_Name connection) writer) else Ok s) ;;
   s <-? fold_res (claimFamilyResources connection writer) s (routeClaimFamilies connection) ;;
   match conn_IPv6 connection with
   | Some ipv6 =>
       if is_set (AcceptRA ipv6) || is_set (AutoConf ipv6)
       then add_claim names s (mkClaim id ResourceRASLAAC "ipv6" (conn_Name connection) WriterKernel) else Ok s
   | None => Ok s
   end)%go.

Definition npt_key (connection : Connection) (npt : NPTv6Translation) : string :=
  (if IsValid (npt_ExternalPrefix npt) then prefix_String (npt_ExternalPrefix npt) else conn_Name connection +:+ "/dynamic-prefix")
  +:+ "/::1/128".

Definition claimProviderResources (connection : Connection) (provider : IfMgrWANEntry) (s : claim_state) : res claim_state :=
  let id := conn_ID connection in
  let addressWriter := if bool_decide (conn_Owner connection = OwnerExternal) then WriterExternal else WriterMWANAddress in
  let nptWriter := owned_writer connection WriterMWANAddress WriterNPT in
  fold_res (add_claim names) s
    ([mkClaim id ResourceProviderRoute "ipv4+ipv6" (itoa (we_TableID provider)) WriterWANRoutes]
     ++ ((fun priority => mkClaim id ResourcePolicyRule "ipv4+ipv6" (itoa priority) WriterWANRoutes) <$> entry_priorities provider)
     ++ (match we_TranslationV4 provider with
         | Some t => (fun m => mkClaim id ResourceMappedAddress "ipv4" (addr_String (sm_External m)) addressWriter)
                       <$> filter (fun m => mappingNeedsAddressClaim connection m = true) (t4_StaticMappings t)
         | None => []
         end)
     ++ (match we_TranslationV6 provider with
         | Some t => match t6_NPT t with
                     | Some npt => [mkClaim id ResourceNPTExternalAddress "ipv6" (npt_key connection npt) nptWriter]
                     | None => []
                     end
         | None => []
         end)).

Definition claim_connection (WAN : gmap string IfMgrWANEntry) (s : claim_state) (connection : Connection) : res claim_state :=
  (s <-? claimConnectionResources connection s ;;
   match WAN !! conn_ID connection with
   | Some provider => claimProviderResources connection provider s
   | None => Ok s
   end)%go.
End Adding.

Definition connection_names (connections : list Connection) : gmap string string :=
  fold_left (fun m c => <[conn_ID c := conn_Name c]> m) connections ∅.

Definition compileClaims (connections : list Connection) (WAN : gmap string IfMgrWANEntry) : res (list Claim) :=
  (check validateConfiguredGatewayClaims connections ;;
   s <-? fold_res (claim_connection (connection_names connections) WAN) (mkClaimState [] [] []) connections ;;
   Ok (cs_claims s))%go.
End Claims.

(** ** What is claimed

    The claims of a connection as a list, and the two namespaces that must stay unique. *)

Section Spec.
Context `{NT : NetText}.

Definition dhcp_route_claimed (connection : Connection) (f : string * Family) : bool :=
  bool_decide (conn_Owner connection = OwnerMWAN) && bool_decide (f.1 = "ipv4"%string) && uses_dhcp_routes connection.

(** A leased default route has a metric. *)
Definition metric_present (connection : Connection) (f : string * Family) : Prop :=
  is_set (fam_DHCP f.2) = true -> dhcp_route_claimed connection f = true -> is_Some (fam_RouteMetric f.2).

Definition dhcp_claims (connection : Connection) (f : string * Family) : list Claim :=
  let id := conn_ID connection in
  let writer := connection_writer (conn_Owner connection) in
  (if dhcp_route_claimed connection f
   then (fun metric => mkClaim id ResourceMainRoute f.1 ("main/default/" +:+ itoa metric) WriterMWANRoute) <$> option_list (fam_RouteMetric f.2)
   else [])
  ++ [mkClaim id (if bool_decide (f.1 = "ipv6"%string) then ResourceDHCPv6 else ResourceDHCPv4) f.1 (conn_Name connection)
        (owned_writer connection WriterMWANProtocol writer);
      mkClaim id ResourceAcquiredAddress f.1 (conn_Name connection) (owned_writer connection WriterMWANAddress writer)].

Definition family_claims (connection : Connection) (f : string * Family) : list Claim :=
  let id := conn_ID connection in
  let writer := connection_writer (conn_Owner connection) in
  let addressWriter := owned_writer connection WriterMWANAddress writer in
  let routeWriter := owned_writer connection WriterMWANRoute writer in
  (((fun a => mkClaim id ResourceStaticAddress f.1 (conn_Name connection +:+ "/" +:+ prefix_String (adr_Prefix a)) addressWriter)
      <$> fam_Addresses f.2)
   ++ (if addr_valid (fam_Gateway f.2)
       then [mkClaim id ResourceMainRoute f.1 (gateway_key connection f.1 f.2) routeWriter] else [])
   ++ ((fun r => mkClaim id ResourceMainRoute f.1 (route_key f.1 r) routeWriter) <$> fam_Routes f.2))
  ++ (if is_set (fam_DHCP f.2) then dhcp_claims connection f else []).

Definition connection_claims (connection : Connection) : list Claim :=
  let id := conn_ID connection in
  (if is_some (conn_Link connection)
   then [mkClaim id ResourceLink "" (conn_Name connection) (connection_writer (conn_Owner connection))] else [])
  ++ (f ← routeClaimFamilies connection; family_claims connection f)
  ++ (match conn_IPv6 connection with
      | Some ipv6 => if is_set (AcceptRA ipv6) || is_set (AutoConf ipv6)
                     then [mkClaim id ResourceRASLAAC "ipv6" (conn_Name connection) WriterKernel] else []
      | None => []
      end).

Definition provider_claims (connection : Connection) (provider : IfMgrWANEntry) : list Claim :=
  let id := conn_ID connection in
  [mkClaim id ResourceProviderRoute "ipv4+ipv6" (itoa (we_TableID provider)) WriterWANRoutes;
   mkClaim id ResourcePolicyRule "ipv4+ipv6" (itoa (we_FwMarkPrio provider)) WriterWANRoutes;
   mkClaim id ResourcePolicyRule "ipv4+ipv6" (itoa (we_FromPrio provider)) WriterWANRoutes]
  ++ (match we_TranslationV4 provider with
      | Some t => (fun m => mkClaim id ResourceMappedAddress "ipv4" (addr_String (sm_External m))
                              (if bool_decide (conn_Owner connection = OwnerExternal) then WriterExternal else WriterMWANAddress))
                    <$> filter (fun m => mappingNeedsAddressClaim connection m = true) (t4_StaticMappings t)
      | None => []
      end)
  ++ ((fun npt => mkClaim id ResourceNPTExternalAddress "ipv6" (npt_key connection npt)
                    (owned_writer connection WriterMWANAddress WriterNPT))
        <$> option_list (t ← we_TranslationV6 provider; t6_NPT t)).

Definition all_claims (WAN : gmap string IfMgrWANEntry) (connections : list Connection) : list Claim :=
  c ← connections; connection_claims c ++ (p ← option_list (WAN !! conn_ID c); provider_claims c p).

(** The address a claim is about, on its interface. *)
Definition claim_address (names : gmap string string) (c : Claim) : option string :=
  let key := claimedAddressKey c (default ""%string (names !! cl_ConnectionID c)) in
  if is_empty key then None else Some key.

(** ** Folding claims *)

Section Fold.
Context (names : gmap string string).

Definition extend (s : claim_state) (xs : list Claim) : claim_state :=
  mkClaimState (cs_claims s ++ xs) (reverse (claim_resource <$> xs) ++ cs_owners s)
    (reverse (omap (claim_address names) xs) ++ cs_addresses s).

Definition distinct (s : claim_state) : Prop := NoDup (cs_owners s) /\ NoDup (cs_addresses s).

Lemma extend_app s xs ys : extend s (xs ++ ys) = extend (extend s xs) ys.
Proof. unfold extend. cbn. by rewrite fmap_app, omap_app, !reverse_app, <- !app_assoc. Qed.

Lemma extend_nil s : extend s [] = s.
Proof. destruct s. unfold extend. cbn. by rewrite app_nil_r. Qed.

Lemma distinct_prefix s xs : distinct (extend s xs) -> distinct s.
Proof. intros [H1 H2]. split; [by apply NoDup_app in H1 as (_ & _ & ?)|by apply NoDup_app in H2 as (_ & _ & ?)]. Qed.

(** A step that claims [xs] whenever [P] holds and nothing clashes, and fails otherwise. *)
Definition claims_step (f : claim_state -> res claim_state) (P : Prop) (xs : list Claim) : Prop :=
  forall s s', distinct s -> (f s = Ok s' <-> P /\ s' = extend s xs /\ distinct s').

Lemma step_none : claims_step Ok True [].
Proof. intros s s' Hs. rewrite extend_nil. split; [intros [= <-]; done|intros (_ & -> & _); done]. Qed.

Lemma step_claim c : claims_step (fun s => add_claim names s c) True [c].
Proof.
  intros s s' [Ho Ha]. unfold add_claim, extend, distinct, claim_address. rewrite res_bind_ok. setoid_rewrite res_bind_ok. cbn.
  set (key := claimedAddressKey _ _). split.
  - intros (u & Hk%reject_if_ok & u' & Hadr%reject_if_ok & [= <-]). apply bool_decide_eq_false in Hk. cbn. split; [done|].
    destruct (is_empty key) eqn:E; cbn in *; [split; [done|split; [by constructor|done]]|]. apply bool_decide_eq_false in Hadr.
    split; [done|split; by constructor].
  - intros (_ & -> & [H1 H2]). cbn in *. apply NoDup_cons in H1 as [H1 _]. exists tt. split; [by apply reject_if_ok, bool_decide_eq_false|].
    exists tt. destruct (is_empty key) eqn:E; cbn in *; [done|]. apply NoDup_cons in H2 as [H2 _].
    by rewrite bool_decide_false.
Qed.

Lemma step_seq f g P Q xs ys : claims_step f P xs -> claims_step g Q ys ->
  claims_step (fun s => res_bind (f s) g) (P /\ Q) (xs ++ ys).
Proof.
  intros Hf Hg s s' Hs. rewrite res_bind_ok, extend_app. split.
  - intros (t & Ht & H). apply (Hf s t Hs) in Ht as (HP & -> & Ht). by apply (Hg _ s' Ht) in H as (HQ & -> & H).
  - intros ([HP HQ] & -> & H). pose proof (distinct_prefix _ _ H) as Ht. exists (extend s xs). split; [by apply Hf|by apply Hg].
Qed.

Lemma step_iff f P Q xs ys : claims_step f P xs -> (P <-> Q) -> xs = ys -> claims_step f Q ys.
Proof. intros H HP -> s s' Hs. rewrite <- HP. by apply H. Qed.

Lemma step_fold {A} (f : claim_state -> A -> res claim_state) (P : A -> Prop) (xs : A -> list Claim) (l : list A) :
  (forall a, a ∈ l -> claims_step (fun s => f s a) (P a) (xs a)) ->
  claims_step (fun s => fold_res f s l) (Forall P l) (a ← l; xs a).
Proof.
  induction l as [|a l IH]; intros H; cbn.
  - eapply step_iff; [exact step_none| |done]. split; [constructor|done].
  - eapply step_iff; [apply step_seq; [apply H; by left|apply IH; intros b Hb; apply H; by right]| |done]. by rewrite Forall_cons.
Qed.

Lemma step_claims l : claims_step (fun s => fold_res (add_claim names) s l) True l.
Proof.
  eapply step_iff; [apply (step_fold _ (fun _ => True) (fun c => [c])); intros; apply step_claim| |].
  - split; [done|]. intros _. by apply Forall_true.
  - induction l as [|c l IH]; [done|]. cbn. by rewrite IH.
Qed.

Lemma step_if (b : bool) f P xs : claims_step f P xs -> claims_step (fun s => if b then f s else Ok s) (b = true -> P) (if b then xs else []).
Proof. destruct b; intros H; eapply step_iff; [exact H|naive_solver|done|exact step_none|naive_solver|done]. Qed.

Lemma step_dhcp connection f : is_set (fam_DHCP f.2) = true ->
  claims_step (claimDHCPResources names connection f.1 f.2 (connection_writer (conn_Owner connection)))
    (metric_present connection f) (dhcp_claims connection f).
Proof.
  intros Hd. unfold claimDHCPResources, dhcp_claims. cbv zeta. 
  eapply step_iff; [apply (step_seq _ _ (dhcp_route_claimed connection f = true -> is_Some (fam_RouteMetric f.2)) True); [|apply step_claims]| |reflexivity].
  - fold (dhcp_route_claimed connection f).
    apply step_if. destruct (fam_RouteMetric f.2) as [m|]; cbn.
    + eapply step_iff; [apply step_claim| |done]. naive_solver.
    + intros s s' _. split; [done|]. by intros ([? ?] & _).
  - unfold metric_present. naive_solver.
Qed.

Lemma step_family connection f :
  claims_step (fun s => claimFamilyResources names connection (connection_writer (conn_Owner connection)) s f)
    (metric_present connection f) (family_claims connection f).
Proof.
  destruct f as [name family]. unfold claimFamilyResources, family_claims.
  eapply step_iff; [apply (step_seq _ _ True (metric_present connection (name, family))); [apply step_claims|]| |reflexivity].
  - destruct (is_set (fam_DHCP (name, family).2)) eqn:E; cbn [snd] in E |- *; rewrite E.
    + apply (step_dhcp connection (name, family)). done.
    + eapply step_iff; [exact step_none| |done]. unfold metric_present. cbn. rewrite E. naive_solver.
  - naive_solver.
Qed.

Lemma step_connection connection :
  claims_step (claimConnectionResources names connection) (Forall (metric_present connection) (routeClaimFamilies connection))
    (connection_claims connection).
Proof.
  unfold claimConnectionResources, connection_claims. cbv zeta.
  eapply step_iff; [apply step_seq; [apply step_if, step_claim|apply (step_seq _ _ (Forall (metric_present connection) (routeClaimFamilies connection)) True); [apply step_fold; intros; apply step_family|]]| |reflexivity].
  - destruct (conn_IPv6 connection) as [ipv6|]; [|exact step_none].
    destruct (is_set (AcceptRA ipv6) || is_set (AutoConf ipv6)); [apply step_claim|exact step_none].
  - naive_solver.
Qed.

Lemma step_provider connection provider :
  claims_step (claimProviderResources names connection provider) True (provider_claims connection provider).
Proof.
  unfold claimProviderResources, provider_claims. cbv zeta. eapply step_iff; [apply step_claims|done|]. cbn.
  by destruct (we_TranslationV6 provider) as [[m [npt|]]|].
Qed.
End Fold.

Lemma step_all names WAN connections :
  claims_step names (fun s => fold_res (claim_connection names WAN) s connections)
    (Forall (fun c => Forall (metric_present c) (routeClaimFamilies c)) connections) (all_claims WAN connections).
Proof.
  apply step_fold. intros c _. unfold claim_connection. 
  eapply step_iff; [apply (step_seq names _ _ (Forall (metric_present c) (routeClaimFamilies c)) True); [apply step_connection|]| |reflexivity].
  - destruct (WAN !! conn_ID c) as [p|]; cbn; [|exact (step_none names)].
    rewrite app_nil_r. apply step_provider.
  - naive_solver.
Qed.

(** ** Theorems *)

End Spec.
