(* ===== verification/Firewall.v ===== *)
(** * Firewall rules (gateway/internal/firewall/{config,plan,rules}.go)

    The configuration of the gateway's nftables tables, its validation, and its compilation
    into chains and sets.  An expression is the text handed to nft.  [slog] calls are left
    out, and errors leave out the values the code quotes in them.  [strconv.Quote] keeps a
    byte above 127, as it does for the bytes of a printable character. *)

From Stdlib Require Import Ascii.
From S2P Require Import Prelude GoStrings NptPolicy Intent BgpConfig BgpFib NetWire.

Local Open Scope Z_scope.

(** ** Text *)

Definition dquote : ascii := of_val 34.
Definition backslash : ascii := of_val 92.

Definition hex_lower (d : Z) : ascii := if d <? 10 then of_val (48 + d) else of_val (87 + d).

Definition quote_char (c : ascii) : string :=
  let v := byte_val c in
  let esc (d : ascii) := String backslash (String d "") in
  if (v =? 34) || (v =? 92) then esc c
  else if v =? 7 then esc (of_val 97) else if v =? 8 then esc (of_val 98) else if v =? 12 then esc (of_val 102)
  else if v =? 10 then esc (of_val 110) else if v =? 13 then esc (of_val 114) else if v =? 9 then esc (of_val 116) else if v =? 11 then esc (of_val 118)
  else if (v <? 32) || (v =? 127) then String backslash (String (of_val 120) (String (hex_lower (v / 16)) (String (hex_lower (v mod 16)) "")))
  else String c "".

Fixpoint quote_chars (s : string) : string :=
  match s with EmptyString => ""%string | String c s => quote_char c +:+ quote_chars s end.

(** [strconv.Quote] *)
Definition Quote (s : string) : string := String dquote (quote_chars s +:+ String dquote "").

(** [strings.ReplaceAll] of one character, and [strings.Join]. *)
Fixpoint replace_char (c : ascii) (r s : string) : string :=
  match s with
  | EmptyString => ""%string
  | String d s => if Ascii.eqb c d then r +:+ replace_char c r s else String d (replace_char c r s)
  end.

Fixpoint join (sep : string) (l : list string) : string :=
  match l with
  | [] => ""%string
  | [s] => s
  | s :: l => s +:+ sep +:+ join sep l
  end.

(** ** Configuration (config.go) *)

Definition ipv4 : string := "ipv4".
Definition ipv6 : string := "ipv6".
Definition ProtocolIPv6InIPv4 : string := "41".

Record TransportPermit := mkPermit {
  tp_InputInterface : string;
  tp_Family : string;
  tp_Source : Prefix;
  tp_Destination : Prefix;
  tp_Protocol : string;
  tp_SourcePort : Z;
  tp_DestinationPort : Z;
}.

Record ForwardingPath := mkPath {
  fp_InternalInterface : string;
  fp_ExternalInterface : string;
  fp_IPv4 : bool;
  fp_IPv6 : bool;
}.

Record Mapping := mkMapping { mp_External : Addr; mp_Internal : Addr }.

Record Provider := mkProvider {
  fpr_Interface : string;
  fpr_Mark : Z;
  fpr_ForcedDSCP : Z;
  fpr_MasqueradeIPv4 : bool;
  fpr_StaticMappings : list Mapping;
  fpr_ReducedMTU : bool;
}.

Record Service := mkService { sv_Protocol : string; sv_Port : Z; sv_Sources : list Prefix }.

Inductive ManagementPolicy := ManagementRequired | ManagementOptional.

Definition Absent (p : ManagementPolicy) (managementInterface : string) : bool :=
  match p with ManagementOptional => is_empty managementInterface | ManagementRequired => false end.

Record FirewallConfig := mkFirewallConfig {
  fc_Enabled : bool;
  fc_ManagementPolicy : ManagementPolicy;
  fc_InternalInterface : string;
  fc_InternalNetworkIPv4 : Prefix;
  fc_ManagementInterface : string;
  fc_ManagementServices : list Service;
  fc_KnownInterfaces : list string;
  fc_LocalPermits : list TransportPermit;
  fc_Paths : list ForwardingPath;
  fc_Providers : list Provider;
  fc_PinnedProvider : string;
  fc_PinnedSourceIPv4 : Addr;
  fc_PinnedSourceIPv6 : Addr;
  fc_PinnedSourcePort : Z;
  fc_PinnedDestinationPort : Z;
  fc_PinnedIPv4 : list Prefix;
  fc_PinnedIPv6 : list Prefix;
  fc_PinnedSetV4Name : string;
  fc_PinnedSetV6Name : string;
}.

Record BaselineConfig := mkBaseline {
  bl_ManagementPolicy : ManagementPolicy;
  bl_ManagementInterface : string;
  bl_ManagementServices : list Service;
  bl_InternalInterface : string;
  bl_ProviderInterfaces : list string;
  bl_LocalPermits : list TransportPermit;
}.

(** ** Validation (config.go) *)

Definition bad_interface_chars : string :=
  String (of_val 32) (String (of_val 9) (String (of_val 10) (String (of_val 13) (String dquote (String backslash ";{}"))))).

Definition validInterface (name : string) : res unit :=
  reject_if (is_empty name || (15 <? String.length name)%nat || contains_any name bad_interface_chars
             || bool_decide (name ∈ ["."; ".."]%string)) "invalid interface name".

Definition set_name_char (c : ascii) : bool :=
  let v := byte_val c in
  ((97 <=? v) && (v <=? 122)) || ((65 <=? v) && (v <=? 90)) || ((48 <=? v) && (v <=? 57)) || (v =? 95).

Definition validSetName (name : string) : res unit :=
  reject_if (is_empty name || (64 <? String.length name)%nat || negb (all_chars set_name_char name)) "invalid set name".

Definition familyOf (prefix : Prefix) : string := if Is4 (pfx_addr prefix) then ipv4 else ipv6.

Definition is_tcp_udp (protocol : string) : bool := bool_decide (protocol ∈ ["tcp"; "udp"]%string).

Definition validatePermit (permit : TransportPermit) : res unit :=
  let protocol := tp_Protocol permit in
  (check validInterface (tp_InputInterface permit) ;;
   check reject_if (negb (bool_decide (tp_Family permit ∈ [ipv4; ipv6]))) "local permit has invalid family" ;;
   check reject_if (IsValid (tp_Source permit) && negb (bool_decide (familyOf (tp_Source permit) = tp_Family permit)))
           "local permit source has the wrong family" ;;
   check reject_if (IsValid (tp_Destination permit) && negb (bool_decide (familyOf (tp_Destination permit) = tp_Family permit)))
           "local permit destination has the wrong family" ;;
   check reject_if (negb (bool_decide (protocol ∈ ["tcp"; "udp"; "icmp"; "icmpv6"; "gre"; "ipip"; ProtocolIPv6InIPv4]%string)))
           "local permit protocol is unsupported" ;;
   check reject_if (bool_decide (protocol = ProtocolIPv6InIPv4) && negb (bool_decide (tp_Family permit = ipv4)))
           "local permit protocol requires the IPv4 family" ;;
   check reject_if (negb (is_tcp_udp protocol) && (negb (tp_SourcePort permit =? 0) || negb (tp_DestinationPort permit =? 0)))
           "local permit cannot use ports" ;;
   reject_if ((bool_decide (protocol = "icmp"%string) && negb (bool_decide (tp_Family permit = ipv4)))
              || (bool_decide (protocol = "icmpv6"%string) && negb (bool_decide (tp_Family permit = ipv6))))
     "local permit ICMP family does not match")%go.

Definition validateManagementServiceCount (managementAbsent : bool) (count : nat) : res unit :=
  if managementAbsent then reject_if (negb (count =? 0)%nat) "management services require a management interface"
  else reject_if (count =? 0)%nat "at least one management service is required".

Definition validate_service (service : Service) : res unit :=
  (check reject_if (negb (is_tcp_udp (sv_Protocol service)) || (sv_Port service =? 0)) "invalid management service" ;;
   check_all (fun source => reject_if (negb (IsValid source)) "management service has an invalid source prefix") (sv_Sources service))%go.

Definition validate_full_service (service : Service) : res unit :=
  (check reject_if (negb (is_tcp_udp (sv_Protocol service))) "management service protocol is not TCP or UDP" ;;
   check reject_if (sv_Port service =? 0) "management service has no destination port" ;;
   check_all (fun source => reject_if (negb (IsValid source)) "management service has an invalid source prefix") (sv_Sources service))%go.

Definition BaselineConfig_Validate (c : BaselineConfig) : res unit :=
  let managementAbsent := Absent (bl_ManagementPolicy c) (bl_ManagementInterface c) in
  (check (if managementAbsent then Ok tt else validInterface (bl_ManagementInterface c)) ;;
   check validInterface (bl_InternalInterface c) ;;
   check validateManagementServiceCount managementAbsent (length (bl_ManagementServices c)) ;;
   check check_all validate_service (bl_ManagementServices c) ;;
   check check_all validInterface (bl_ProviderInterfaces c) ;;
   check_all (fun permit =>
     check validatePermit permit ;;
     reject_if (negb (bool_decide (tp_InputInterface permit = bl_ManagementInterface c)
                      || bool_decide (tp_InputInterface permit = bl_InternalInterface c)
                      || bool_decide (tp_InputInterface permit ∈ bl_ProviderInterfaces c)))
       "local permit interface is not declared") (bl_LocalPermits c))%go.

Record provider_names := mkProviderNames { pn_names : list string; pn_marks : list Z }.

Definition validate_provider (seen : provider_names) (provider : Provider) : res provider_names :=
  (check validInterface (fpr_Interface provider) ;;
   check reject_if (bool_decide (fpr_Interface provider ∈ pn_names seen)) "provider interface is duplicated" ;;
   check reject_if ((fpr_Mark provider =? 0) || bool_decide (fpr_Mark provider ∈ pn_marks seen)) "provider has a zero or duplicated mark" ;;
   check reject_if (63 <? fpr_ForcedDSCP provider) "provider has DSCP above 63" ;;
   check check_all (fun m => reject_if (negb (fpr_MasqueradeIPv4 provider) || negb (Is4 (mp_External m)) || negb (Is4 (mp_Internal m)))
                      "provider has a mapping outside IPv4 NAPT") (fpr_StaticMappings provider) ;;
   Ok (mkProviderNames (fpr_Interface provider :: pn_names seen) (fpr_Mark provider :: pn_marks seen)))%go.

Definition validateProviders (c : FirewallConfig) : res (list string) :=
  (check reject_if (negb (nonempty (fc_Providers c))) "at least one provider is required" ;;
   seen <-? fold_res validate_provider (mkProviderNames [] []) (fc_Providers c) ;;
   Ok (pn_names seen))%go.

Definition validatePinSettings (c : FirewallConfig) (providerNames : list string) : res unit :=
  (check reject_if (is_empty (fc_PinnedSetV4Name c) || is_empty (fc_PinnedSetV6Name c)) "pinned destination set names are required" ;;
   check validSetName (fc_PinnedSetV4Name c) ;;
   check validSetName (fc_PinnedSetV6Name c) ;;
   check reject_if (negb (bool_decide (fc_PinnedProvider c ∈ providerNames))) "pinned provider interface is not configured" ;;
   check reject_if (negb (Is4 (fc_PinnedSourceIPv4 c)) || negb (Is6 (fc_PinnedSourceIPv6 c)))
           "pinned source addresses must include IPv4 and IPv6" ;;
   reject_if ((fc_PinnedSourcePort c =? 0) || (fc_PinnedDestinationPort c =? 0)) "pinned UDP ports are required")%go.

Definition validatePin (c : FirewallConfig) (providerNames : list string) : res unit :=
  (check (if is_empty (fc_PinnedProvider c) then Ok tt else validatePinSettings c providerNames) ;;
   check check_all (fun p => reject_if (negb (IsValid p) || negb (Is4 (pfx_addr p))) "pinned IPv4 set contains an invalid prefix") (fc_PinnedIPv4 c) ;;
   check_all (fun p => reject_if (negb (IsValid p) || negb (Is6 (pfx_addr p))) "pinned IPv6 set contains an invalid prefix") (fc_PinnedIPv6 c))%go.

Definition validate_path (known : list string) (path : ForwardingPath) : res unit :=
  (check validInterface (fp_InternalInterface path) ;;
   check validInterface (fp_ExternalInterface path) ;;
   check reject_if (negb (fp_IPv4 path) && negb (fp_IPv6 path)) "forwarding path enables no family" ;;
   reject_if (negb (bool_decide (fp_InternalInterface path ∈ known)) || negb (bool_decide (fp_ExternalInterface path ∈ known)))
     "forwarding path has an undeclared interface")%go.

Definition validateReferences (c : FirewallConfig) : res unit :=
  let known := fc_KnownInterfaces c in
  (check check_all validInterface known ;;
   check check_all (fun p => reject_if (negb (bool_decide (fpr_Interface p ∈ known))) "provider interface is not declared") (fc_Providers c) ;;
   check reject_if ((negb (Absent (fc_ManagementPolicy c) (fc_ManagementInterface c)) && negb (bool_decide (fc_ManagementInterface c ∈ known)))
                    || negb (bool_decide (fc_InternalInterface c ∈ known))) "management or internal interface is not declared" ;;
   check check_all (fun permit =>
           check validatePermit permit ;;
           reject_if (negb (bool_decide (tp_InputInterface permit ∈ known))) "local permit interface is not declared") (fc_LocalPermits c) ;;
   check_all (validate_path known) (fc_Paths c))%go.

Definition FirewallConfig_Validate (c : FirewallConfig) : res unit :=
  if negb (fc_Enabled c) then Ok tt
  else
    let managementAbsent := Absent (fc_ManagementPolicy c) (fc_ManagementInterface c) in
    (check validInterface (fc_InternalInterface c) ;;
     check (if managementAbsent then Ok tt else validInterface (fc_ManagementInterface c)) ;;
     check reject_if (negb (IsValid (fc_InternalNetworkIPv4 c)) || negb (Is4 (pfx_addr (fc_InternalNetworkIPv4 c))))
             "internal IPv4 network is required" ;;
     check validateManagementServiceCount managementAbsent (length (fc_ManagementServices c)) ;;
     check check_all validate_full_service (fc_ManagementServices c) ;;
     providerNames <-? validateProviders c ;;
     check validatePin c providerNames ;;
     validateReferences c)%go.

(** ** Rules (plan.go) *)

Definition PurposeEstablished : string := "established".
Definition PurposeLoopback : string := "loopback".
Definition PurposeICMP : string := "icmp".
Definition PurposeManagementService : string := "management-service".
Definition PurposeLocalPermit : string := "local-permit".
Definition PurposeDropLog : string := "drop-log".
Definition PurposeInternalClassForward : string := "internal-class-forward".
Definition PurposeForwardOutbound : string := "forward-outbound".
Definition PurposeForwardInbound : string := "forward-inbound".
Definition PurposePinnedSourceMark : string := "pinned-source-mark".
Definition PurposeStaticMappingDNAT : string := "static-mapping-dnat".
Definition PurposeStaticMappingSNAT : string := "static-mapping-snat".
Definition PurposeMasquerade : string := "masquerade".
Definition PurposeInternalClassUnmark : string := "internal-class-unmark".
Definition PurposeProviderMark : string := "provider-mark".
Definition PurposePinnedDestinationMark : string := "pinned-destination-mark".
Definition PurposeForcedDSCPMark : string := "forced-dscp-mark".
Definition PurposeRestoreMark : string := "restore-mark".
Definition PurposeKeepRelatedMark : string := "keep-related-mark".
Definition PurposeSaveMark : string := "save-mark".

Inductive RuleAction :=
| ActionAccept | ActionDrop | ActionReturn | ActionMark | ActionSaveMark | ActionDNAT | ActionSNAT | ActionMasquerade.
#[export] Instance RuleAction_eq_dec : EqDecision RuleAction.
Proof. solve_decision. Defined.

Definition scopeAll : string := "all".
Definition scopeSeparator : string := ",".
Definition occurrenceSeparator : string := "#".

Record Rule := mkRule {
  ru_Purpose : string;
  ru_Scope : string;
  ru_Action : RuleAction;
  ru_Expression : string;
  ru_Interface : string;
  ru_OutputInterface : string;
  ru_Source : Prefix;
  ru_Destination : Prefix;
  ru_Mark : option Z;
}.

Definition newRule (purpose scope : string) (action : RuleAction) (expression : string) : Rule :=
  mkRule purpose scope action expression "" "" no_prefix no_prefix None.

Definition rule_in (iface : string) (r : Rule) : Rule :=
  mkRule (ru_Purpose r) (ru_Scope r) (ru_Action r) (ru_Expression r) iface (ru_OutputInterface r) (ru_Source r) (ru_Destination r) (ru_Mark r).
Definition rule_out (iface : string) (r : Rule) : Rule :=
  mkRule (ru_Purpose r) (ru_Scope r) (ru_Action r) (ru_Expression r) (ru_Interface r) iface (ru_Source r) (ru_Destination r) (ru_Mark r).
Definition rule_from (source : Prefix) (r : Rule) : Rule :=
  mkRule (ru_Purpose r) (ru_Scope r) (ru_Action r) (ru_Expression r) (ru_Interface r) (ru_OutputInterface r) source (ru_Destination r) (ru_Mark r).
Definition rule_to (destination : Prefix) (r : Rule) : Rule :=
  mkRule (ru_Purpose r) (ru_Scope r) (ru_Action r) (ru_Expression r) (ru_Interface r) (ru_OutputInterface r) (ru_Source r) destination (ru_Mark r).
Definition rule_marked (mark : Z) (r : Rule) : Rule :=
  mkRule (ru_Purpose r) (ru_Scope r) (ru_Action r) (ru_Expression r) (ru_Interface r) (ru_OutputInterface r) (ru_Source r) (ru_Destination r) (Some mark).
Definition with_scope (scope : string) (r : Rule) : Rule :=
  mkRule (ru_Purpose r) scope (ru_Action r) (ru_Expression r) (ru_Interface r) (ru_OutputInterface r) (ru_Source r) (ru_Destination r) (ru_Mark r).

Definition hostPrefix (address : Addr) : Prefix := PrefixFrom address (BitLen address).

Definition escape_scope (part : string) : string :=
  replace_char (of_val 35) "%23" (replace_char (of_val 44) "%2C" (replace_char (of_val 37) "%25" part)).

Definition ruleScope (parts : list string) : string := join scopeSeparator (escape_scope <$> parts).

Definition rule_identity (r : Rule) : string * string := (ru_Purpose r, ru_Scope r).

(** One pass over the chain; [seen] counts the identities so far. *)
Fixpoint disambiguate_from (seen : gmap (string * string) Z) (rules : list Rule) : list Rule :=
  match rules with
  | [] => []
  | r :: rules =>
      let occurrence := default 0 (seen !! rule_identity r) + 1 in
      (if 1 <? occurrence then with_scope (ru_Scope r +:+ occurrenceSeparator +:+ itoa occurrence) r else r)
      :: disambiguate_from (<[rule_identity r := occurrence]> seen) rules
  end.
Definition disambiguate (rules : list Rule) : list Rule := disambiguate_from ∅ rules.

(** ** Compilation (rules.go) *)

Record Table := mkTable { tb_Family : string; tb_Name : string }.

Record Chain := mkChain {
  ch_Table : Table;
  ch_Name : string;
  ch_Type : string;
  ch_Hook : string;
  ch_Priority : string;
  ch_Policy : string;
  ch_Rules : list Rule;
}.

Record FwSet := mkFwSet { fs_Table : Table; fs_Name : string; fs_KeyType : string; fs_Elements : list Prefix }.

Record Ruleset := mkRuleset { rs_Chains : list Chain; rs_Sets : list FwSet }.

Definition loopbackInterface : string := "lo".
Definition classMatch : string := "meta priority & 0xffff0000 == 0x4e500000".
Definition filterTable : Table := mkTable "inet" "filter".
Definition natTable : Table := mkTable "ip" "nat".
Definition mangleTable : Table := mkTable "inet" "mangle".

Definition with_rules (f : list Rule -> list Rule) (c : Chain) : Chain :=
  mkChain (ch_Table c) (ch_Name c) (ch_Type c) (ch_Hook c) (ch_Priority c) (ch_Policy c) (f (ch_Rules c)).
Definition finishRuleset (rules : Ruleset) : Ruleset :=
  mkRuleset (with_rules disambiguate <$> rs_Chains rules) (rs_Sets rules).

Definition establishedRule : Rule := newRule PurposeEstablished scopeAll ActionAccept "ct state established,related accept".
Definition dropLogRule (chain : string) : Rule :=
  newRule PurposeDropLog scopeAll ActionDrop
    ("limit rate 1/second log prefix " +:+ String dquote ("nftables " +:+ chain +:+ " drop: " +:+ String dquote " drop")).

Definition forwardsIPv4 (c : FirewallConfig) (providerInterface : string) : bool :=
  let paths := filter (fun p => fp_ExternalInterface p = providerInterface) (fc_Paths c) in
  existsb fp_IPv4 paths || negb (nonempty paths).

Section Compile.
Context `{PT : PrefixText}.

Definition addressToken (prefix : Prefix) (source : bool) : string :=
  (if Is4 (pfx_addr prefix) then "ip" else "ip6") +:+ " " +:+ (if source then "saddr" else "daddr") +:+ " " +:+ prefix_String prefix.

Definition text_if (b : bool) (s : string) : string := if b then s else ""%string.

Definition permitRule (purpose scope : string) (permit : TransportPermit) : Rule :=
  let line := "iifname " +:+ Quote (tp_InputInterface permit) +:+ " meta nfproto " +:+ tp_Family permit +:+ " meta l4proto " +:+ tp_Protocol permit
    +:+ text_if (IsValid (tp_Source permit)) (" " +:+ addressToken (tp_Source permit) true)
    +:+ text_if (IsValid (tp_Destination permit)) (" " +:+ addressToken (tp_Destination permit) false)
    +:+ text_if (negb (tp_SourcePort permit =? 0)) (" " +:+ tp_Protocol permit +:+ " sport " +:+ itoa (tp_SourcePort permit))
    +:+ text_if (negb (tp_DestinationPort permit =? 0)) (" " +:+ tp_Protocol permit +:+ " dport " +:+ itoa (tp_DestinationPort permit)) in
  rule_to (tp_Destination permit) (rule_from (tp_Source permit) (rule_in (tp_InputInterface permit)
    (newRule purpose scope ActionAccept (line +:+ " accept")))).

Definition localPermitScope (permit : TransportPermit) : string :=
  ruleScope ([tp_InputInterface permit; tp_Family permit; tp_Protocol permit; itoa (tp_SourcePort permit); itoa (tp_DestinationPort permit)]
    ++ (if IsValid (tp_Source permit) || IsValid (tp_Destination permit)
        then [text_if (IsValid (tp_Source permit)) (prefix_String (tp_Source permit));
              text_if (IsValid (tp_Destination permit)) (prefix_String (tp_Destination permit))] else [])).

Definition service_rules (iface : string) (service : Service) : list Rule :=
  let port := itoa (sv_Port service) in
  match sv_Sources service with
  | [] => (fun family => permitRule PurposeManagementService (ruleScope [sv_Protocol service; port; family])
                           (mkPermit iface family no_prefix no_prefix (sv_Protocol service) 0 (sv_Port service))) <$> [ipv4; ipv6]
  | sources => (fun source => permitRule PurposeManagementService (ruleScope [sv_Protocol service; port; prefix_String source])
                                (mkPermit iface (familyOf source) source no_prefix (sv_Protocol service) 0 (sv_Port service))) <$> sources
  end.
Definition managementRules (iface : string) (services : list Service) : list Rule := s ← services; service_rules iface s.

Definition inputRules (managementInterface : string) (services : list Service) (permits : list TransportPermit) : list Rule :=
  [establishedRule;
   rule_in loopbackInterface (newRule PurposeLoopback scopeAll ActionAccept ("iifname " +:+ Quote loopbackInterface +:+ " accept"));
   newRule PurposeICMP ipv4 ActionAccept "ip protocol icmp accept";
   newRule PurposeICMP ipv6 ActionAccept "ip6 nexthdr icmpv6 accept"]
  ++ managementRules managementInterface services
  ++ ((fun permit => permitRule PurposeLocalPermit (localPermitScope permit) permit) <$> permits)
  ++ [dropLogRule "input"].

Definition path_family_rules (path : ForwardingPath) (family : bool * string) : list Rule :=
  if negb family.1 then []
  else
    let internal := fp_InternalInterface path in
    let external := fp_ExternalInterface path in
    let scope := ruleScope [external; family.2] in
    [rule_out external (rule_in internal (newRule PurposeForwardOutbound scope ActionAccept
       ("iifname " +:+ Quote internal +:+ " oifname " +:+ Quote external +:+ " meta nfproto " +:+ family.2 +:+ " accept")));
     rule_out internal (rule_in external (newRule PurposeForwardInbound scope ActionAccept
       ("iifname " +:+ Quote external +:+ " oifname " +:+ Quote internal +:+ " meta nfproto " +:+ family.2 +:+ " accept")))].

Definition forwardRules (config : FirewallConfig) : list Rule :=
  let internal := fc_InternalInterface config in
  [establishedRule;
   rule_out internal (rule_in internal (newRule PurposeInternalClassForward scopeAll ActionAccept
     ("iifname " +:+ Quote internal +:+ " oifname " +:+ Quote internal +:+ " " +:+ classMatch +:+ " accept")))]
  ++ (path ← fc_Paths config; family ← [(fp_IPv4 path, ipv4); (fp_IPv6 path, ipv6)]; path_family_rules path family)
  ++ [dropLogRule "forward"].

Definition mapping_dnat (provider : Provider) (m : Mapping) : Rule :=
  rule_to (hostPrefix (mp_External m)) (rule_in (fpr_Interface provider)
    (newRule PurposeStaticMappingDNAT (ruleScope [fpr_Interface provider; addr_String (mp_External m)]) ActionDNAT
       ("iifname " +:+ Quote (fpr_Interface provider) +:+ " ip daddr " +:+ addr_String (mp_External m) +:+ " dnat to " +:+ addr_String (mp_Internal m)))).

Definition mapping_snat (provider : Provider) (m : Mapping) : Rule :=
  rule_from (hostPrefix (mp_Internal m)) (rule_out (fpr_Interface provider)
    (newRule PurposeStaticMappingSNAT (ruleScope [fpr_Interface provider; addr_String (mp_External m)]) ActionSNAT
       ("oifname " +:+ Quote (fpr_Interface provider) +:+ " ip saddr " +:+ addr_String (mp_Internal m) +:+ " snat to " +:+ addr_String (mp_External m)))).

Definition provider_mark (provider : Provider) : Rule :=
  rule_marked (fpr_Mark provider) (rule_in (fpr_Interface provider)
    (newRule PurposeProviderMark (ruleScope [fpr_Interface provider]) ActionMark
       ("iifname " +:+ Quote (fpr_Interface provider) +:+ " ct state new meta mark set " +:+ itoa (fpr_Mark provider)))).

Definition masquerade (config : FirewallConfig) (provider : Provider) : Rule :=
  rule_from (fc_InternalNetworkIPv4 config) (rule_out (fpr_Interface provider)
    (newRule PurposeMasquerade (ruleScope [fpr_Interface provider]) ActionMasquerade
       ("oifname " +:+ Quote (fpr_Interface provider) +:+ " ip saddr " +:+ prefix_String (fc_InternalNetworkIPv4 config) +:+ " masquerade"))).

Definition dscp_rule (config : FirewallConfig) (provider : Provider) (family header : string) : Rule :=
  rule_marked (fpr_Mark provider) (rule_in (fc_InternalInterface config)
    (newRule PurposeForcedDSCPMark (ruleScope [fpr_Interface provider; family]) ActionMark
       ("iifname " +:+ Quote (fc_InternalInterface config) +:+ " " +:+ header +:+ " dscp " +:+ itoa (fpr_ForcedDSCP provider)
        +:+ " ct state new meta mark set " +:+ itoa (fpr_Mark provider)))).

Definition provider_dscp_rules (config : FirewallConfig) (provider : Provider) : list Rule :=
  if fpr_ForcedDSCP provider =? 0 then []
  else (if forwardsIPv4 config (fpr_Interface provider) then [dscp_rule config provider ipv4 "ip"] else [])
       ++ [dscp_rule config provider ipv6 "ip6"].
Definition forcedDSCPRules (config : FirewallConfig) : list Rule := p ← fc_Providers config; provider_dscp_rules config p.

Definition pin_mark (config : FirewallConfig) : Z :=
  fold_left (fun mark p => if bool_decide (fpr_Interface p = fc_PinnedProvider config) then fpr_Mark p else mark) (fc_Providers config) 0.
Definition is_pinned (config : FirewallConfig) : bool := negb (is_empty (fc_PinnedProvider config)).
Definition pin_ipv4 (config : FirewallConfig) : bool := is_pinned config && forwardsIPv4 config (fc_PinnedProvider config).
Definition pin_ports (config : FirewallConfig) : string :=
  "udp sport " +:+ itoa (fc_PinnedSourcePort config) +:+ " udp dport " +:+ itoa (fc_PinnedDestinationPort config).
Definition rules_if (b : bool) (rules : list Rule) : list Rule := if b then rules else [].

Definition preNATRules (config : FirewallConfig) : list Rule :=
  rules_if (pin_ipv4 config)
    [rule_marked (pin_mark config) (rule_from (hostPrefix (fc_PinnedSourceIPv4 config)) (rule_in (fc_InternalInterface config)
       (newRule PurposePinnedSourceMark ipv4 ActionMark
          ("iifname " +:+ Quote (fc_InternalInterface config) +:+ " ip saddr " +:+ addr_String (fc_PinnedSourceIPv4 config) +:+ " "
           +:+ pin_ports config +:+ " ct state new meta mark set " +:+ itoa (pin_mark config)))))]
  ++ (p ← fc_Providers config; mapping_dnat p <$> fpr_StaticMappings p).

Definition postNATRules (config : FirewallConfig) : list Rule :=
  (p ← fc_Providers config; mapping_snat p <$> fpr_StaticMappings p)
  ++ (p ← fc_Providers config; rules_if (fpr_MasqueradeIPv4 p) [masquerade config p]).

Definition preMangleRules (config : FirewallConfig) : list Rule :=
  let mark := itoa (pin_mark config) in
  [rule_marked 0 (rule_in (fc_InternalInterface config) (newRule PurposeInternalClassUnmark scopeAll ActionReturn
     ("iifname " +:+ Quote (fc_InternalInterface config) +:+ " " +:+ classMatch +:+ " meta mark set 0 return")))]
  ++ (provider_mark <$> fc_Providers config)
  ++ rules_if (pin_ipv4 config)
       [rule_marked (pin_mark config) (newRule PurposePinnedDestinationMark ipv4 ActionMark
          ("ip daddr @" +:+ fc_PinnedSetV4Name config +:+ " meta mark set " +:+ mark))]
  ++ rules_if (is_pinned config)
       [rule_marked (pin_mark config) (newRule PurposePinnedDestinationMark ipv6 ActionMark
          ("ip6 daddr @" +:+ fc_PinnedSetV6Name config +:+ " meta mark set " +:+ mark));
        rule_marked (pin_mark config) (rule_from (hostPrefix (fc_PinnedSourceIPv6 config)) (newRule PurposePinnedSourceMark ipv6 ActionMark
          ("ip6 saddr " +:+ addr_String (fc_PinnedSourceIPv6 config) +:+ "/128 " +:+ pin_ports config +:+ " ct state new meta mark set " +:+ mark)))]
  ++ forcedDSCPRules config
  ++ [newRule PurposeRestoreMark "new" ActionMark "ct state new ct mark != 0x00000000 meta mark set ct mark";
      newRule PurposeRestoreMark "established" ActionMark "ct state established,related meta mark set ct mark"].

Definition postMangleRules (config : FirewallConfig) : list Rule :=
  rules_if (existsb fpr_ReducedMTU (fc_Providers config))
    [rule_marked 0 (newRule PurposeKeepRelatedMark scopeAll ActionReturn "ct state related meta mark 0x00000000 return")]
  ++ [newRule PurposeSaveMark scopeAll ActionSaveMark "ct mark set meta mark"].

Definition input_chain (rules : list Rule) : Chain := mkChain filterTable "input" "filter" "input" "filter" "drop" rules.
Definition forward_chain (rules : list Rule) : Chain := mkChain filterTable "forward" "filter" "forward" "filter" "drop" rules.
Definition output_chain : Chain := mkChain filterTable "output" "filter" "output" "filter" "accept" [].

Definition CompileBaseline (config : BaselineConfig) : res Ruleset :=
  (check BaselineConfig_Validate config ;;
   Ok (finishRuleset (mkRuleset
     [input_chain (inputRules (bl_ManagementInterface config) (bl_ManagementServices config) (bl_LocalPermits config));
      forward_chain [establishedRule; dropLogRule "forward"]; output_chain] [])))%go.

Definition Compile (config : FirewallConfig) : res Ruleset :=
  (check FirewallConfig_Validate config ;;
   Ok (if negb (fc_Enabled config) then mkRuleset [] []
       else finishRuleset (mkRuleset
         [input_chain (inputRules (fc_ManagementInterface config) (fc_ManagementServices config) (fc_LocalPermits config));
          forward_chain (forwardRules config); output_chain;
          mkChain natTable "prerouting" "nat" "prerouting" "dstnat" "accept" (preNATRules config);
          mkChain natTable "postrouting" "nat" "postrouting" "srcnat" "accept" (postNATRules config);
          mkChain mangleTable "prerouting" "filter" "prerouting" "mangle" "accept" (preMangleRules config);
          mkChain mangleTable "postrouting" "filter" "postrouting" "mangle" "accept" (postMangleRules config)]
         (if is_pinned config
          then [mkFwSet mangleTable (fc_PinnedSetV4Name config) "ipv4_addr" (fc_PinnedIPv4 config);
                mkFwSet mangleTable (fc_PinnedSetV6Name config) "ipv6_addr" (fc_PinnedIPv6 config)] else []))))%go.

(** ** The published plan (networkjson/firewall_plan.go) *)

Definition chain_key (c : Chain) : string * string * string := (tb_Family (ch_Table c), tb_Name (ch_Table c), ch_Name c).
Definition rule_key (c : Chain) (r : Rule) : string * string * string * (string * string) := (chain_key c, rule_identity r).
Definition set_key (s : FwSet) : string * string * string := (tb_Family (fs_Table s), tb_Name (fs_Table s), fs_Name s).

Record FirewallPlan := mkFirewallPlan {
  pl_Chains : gmap (string * string * string) (Chain * list (string * string * string * (string * string)));
  pl_Rules : gmap (string * string * string * (string * string)) Rule;
  pl_Sets : gmap (string * string * string) FwSet;
}.

Definition plan_insert {K V} `{Countable K} (msg : error) (m : gmap K V) (kv : K * V) : res (gmap K V) :=
  (check reject_if (is_some (m !! kv.1)) msg ;; Ok (<[kv.1 := kv.2]> m))%go.

Definition plan_chain (plan : FirewallPlan) (chain : Chain) : res FirewallPlan :=
  (check reject_if (is_some (pl_Chains plan !! chain_key chain)) "firewall chain is compiled twice" ;;
   rules <-? fold_res (plan_insert "firewall rule is compiled twice") (pl_Rules plan)
               ((fun r => (rule_key chain r, r)) <$> ch_Rules chain) ;;
   Ok (mkFirewallPlan (<[chain_key chain := (chain, rule_key chain <$> ch_Rules chain)]> (pl_Chains plan)) rules (pl_Sets plan)))%go.

Definition compile_plan (config : FirewallConfig) : res FirewallPlan :=
  (compiled <-? Compile config ;;
   plan <-? fold_res plan_chain (mkFirewallPlan ∅ ∅ ∅) (rs_Chains compiled) ;;
   sets <-? fold_res (plan_insert "firewall set is compiled twice") (pl_Sets plan) ((fun s => (set_key s, s)) <$> rs_Sets compiled) ;;
   Ok (mkFirewallPlan (pl_Chains plan) (pl_Rules plan) sets))%go.
End Compile.
