(* ===== verification/FirewallProps.v ===== *)
(** * What the compiled firewall guarantees

    Rule identities are unique, so the published plan is complete; chains that guard the
    gateway drop by default, and translation rules come in the order the kernel needs. *)

From Stdlib Require Import Ascii.
From S2P Require Import Prelude GoStrings NptPolicy Intent BgpConfig BgpFib NetWire Firewall.

Local Open Scope Z_scope.

(** ** Scopes *)

Definition hash : ascii := of_val 35.

Lemma replace_lacks_new c r s : lacks c r = true -> lacks c (replace_char c r s) = true.
Proof.
  intros Hr. unfold lacks in *. induction s as [|d s IH]; cbn; [done|]. destruct (Ascii.eqb c d) eqn:E.
  - by rewrite all_chars_app, Hr, IH.
  - cbn. unfold neqc at 1. by rewrite E, IH.
Qed.

Lemma escape_lacks part : lacks hash (escape_scope part) = true.
Proof. by apply replace_lacks_new. Qed.

Lemma join_lacks sep l : lacks hash sep = true -> Forall (fun s => lacks hash s = true) l -> lacks hash (join sep l) = true.
Proof.
  intros Hs. unfold lacks in *. induction l as [|s l IH]; [done|]. intros [H1 H2]%Forall_cons. destruct l as [|t l]; [done|].
  change (join sep (s :: t :: l)) with (s +:+ sep +:+ join sep (t :: l)). by rewrite !all_chars_app, H1, Hs, IH.
Qed.

Lemma ruleScope_lacks parts : lacks hash (ruleScope parts) = true.
Proof. apply join_lacks; [done|]. apply Forall_fmap, Forall_true. intros. apply escape_lacks. Qed.

(** ** Occurrences *)

(** The identity of each rule with its number among the rules of that identity. *)
Fixpoint occurrences (seen : gmap (string * string) Z) (rules : list Rule) : list ((string * string) * Z) :=
  match rules with
  | [] => []
  | r :: rules =>
      let n := default 0 (seen !! rule_identity r) + 1 in
      (rule_identity r, n) :: occurrences (<[rule_identity r := n]> seen) rules
  end.

Definition tagged (o : (string * string) * Z) : string * string :=
  let '((purpose, scope), n) := o in (purpose, if 1 <? n then scope +:+ occurrenceSeparator +:+ itoa n else scope).

Lemma disambiguate_tagged seen rules : rule_identity <$> disambiguate_from seen rules = tagged <$> occurrences seen rules.
Proof.
  revert seen. induction rules as [|r rules IH]; intros seen; [done|]. cbn. rewrite IH. f_equal. unfold rule_identity. by destruct (1 <? _).
Qed.

Lemma occurrences_after seen rules id n : (forall k m, seen !! k = Some m -> 0 <= m) ->
  (id, n) ∈ occurrences seen rules -> default 0 (seen !! id) < n /\ 1 <= n /\ exists r, r ∈ rules /\ rule_identity r = id.
Proof.
  revert seen. induction rules as [|r rules IH]; intros seen Hpos; [by intros ?%not_elem_of_nil|]. cbn.
  assert (0 <= default 0 (seen !! rule_identity r)) as H0 by (destruct (seen !! rule_identity r) eqn:E; cbn; [by eapply Hpos|done]).
  intros [[= -> ->]|H]%elem_of_cons; [split; [lia|split; [lia|exists r; split; [by left|done]]]|].
  apply IH in H as (H1 & H2 & r' & Hr & Hid).
  - destruct (decide (rule_identity r = id)) as [<-|Hne]; [rewrite lookup_insert_eq in H1; cbn in H1|rewrite lookup_insert_ne in H1 by done].
    all: split; [lia|split; [done|exists r'; split; [by right|done]]].
  - intros k m. rewrite lookup_insert_Some. intros [[_ <-]|[_ Hk]]; [lia|by eapply Hpos].
Qed.

Lemma occurrences_nodup seen rules : (forall k m, seen !! k = Some m -> 0 <= m) -> NoDup (occurrences seen rules).
Proof.
  revert seen. induction rules as [|r rules IH]; intros seen Hpos; cbn; [constructor|].
  assert (0 <= default 0 (seen !! rule_identity r)) as H0 by (destruct (seen !! rule_identity r) eqn:E; cbn; [by eapply Hpos|done]).
  assert (forall k m, <[rule_identity r := default 0 (seen !! rule_identity r) + 1]> seen !! k = Some m -> 0 <= m) as Hpos'.
  { intros k m. rewrite lookup_insert_Some. intros [[_ <-]|[_ Hk]]; [lia|by eapply Hpos]. }
  constructor; [|by apply IH]. intros (H & _)%occurrences_after; [|done]. rewrite lookup_insert_eq in H. cbn in H. lia.
Qed.

Lemma itoa_inj m n : 0 <= m -> 0 <= n -> itoa m = itoa n -> m = n.
Proof.
  intros Hm Hn. unfold itoa. rewrite (proj2 (Z.ltb_ge m 0)), (proj2 (Z.ltb_ge n 0)) by done. intros E.
  pose proof (digits_val_udec m Hm) as H1. rewrite E, digits_val_udec in H1 by done. by injection H1.
Qed.

Lemma tagged_inj p s n p' s' n' : lacks hash s = true -> lacks hash s' = true -> 1 <= n -> 1 <= n' ->
  tagged ((p, s), n) = tagged ((p', s'), n') -> ((p, s), n) = ((p', s'), n').
Proof.
  intros Hs Hs' Hn Hn'. unfold tagged. intros H. assert (p = p') as <- by congruence. apply (f_equal snd) in H. cbn [snd] in H. rename H into E.
  assert (forall t m, t +:+ occurrenceSeparator +:+ itoa m = t +:+ String hash (itoa m)) as Hsep by done. rewrite !Hsep in E.
  assert (forall t m, lacks hash t = true -> cut hash (t +:+ String hash (itoa m)) = Some (t, itoa m)) as Hcut by (intros; by apply cut_app).
  assert (forall t, lacks hash t = true -> cut hash t = None) as Hnone.
  { induction t as [|c t IH]; [done|]. intros H. change (neqc hash c && lacks hash t = true) in H. apply eqb_lacks in H as [E1 H]. cbn [cut]. by rewrite E1, IH. }
  destruct (1 <? n) eqn:E1, (1 <? n') eqn:E2.
  - apply (f_equal (cut hash)) in E. rewrite !Hcut in E by done. injection E as <- E. f_equal. apply itoa_inj; [lia|lia|done].
  - apply (f_equal (cut hash)) in E. rewrite Hcut, Hnone in E by done. done.
  - apply (f_equal (cut hash)) in E. rewrite Hcut, Hnone in E by done. done.
  - subst s'. f_equal. lia.
Qed.

Lemma disambiguate_unique rules : Forall (fun r => lacks hash (ru_Scope r) = true) rules -> NoDup (rule_identity <$> disambiguate rules).
Proof.
  intros Hl. unfold disambiguate. rewrite disambiguate_tagged.
  assert (forall k m, (∅ : gmap (string * string) Z) !! k = Some m -> 0 <= m) as H0 by (intros k m; by rewrite lookup_empty).
  apply NoDup_fmap_2_strong; [|by apply occurrences_nodup]. intros [[p s] n] [[p' s'] n'] Hx Hy.
  apply occurrences_after in Hx as (_ & Hn & r & Hr & [= <- <-]); [|done]. apply occurrences_after in Hy as (_ & Hn' & r' & Hr' & [= <- <-]); [|done].
  rewrite Forall_forall in Hl. apply tagged_inj; [by apply Hl|by apply Hl|done|done].
Qed.

(** ** Chains *)

Section Chains.
Context `{PT : PrefixText}.

#[local] Arguments ruleScope : simpl never.

Definition scope_ok (r : Rule) : Prop := lacks hash (ru_Scope r) = true.

Lemma Forall_bind {A B} (P : B -> Prop) (f : A -> list B) l : (forall a, Forall P (f a)) -> Forall P (a ← l; f a).
Proof. intros H. induction l as [|a l IH]; cbn; [constructor|]. by apply Forall_app. Qed.

Ltac scopes :=
  repeat match goal with
  | |- Forall _ (_ ++ _) => apply Forall_app; split
  | |- Forall _ (_ :: _) => constructor
  | |- Forall _ [] => constructor
  | |- Forall _ (rules_if ?b _) => destruct b; cbn [rules_if]
  | |- Forall _ (_ <$> _) => apply Forall_fmap, Forall_true; intros ?; cbn
  | |- Forall _ (mbind _ _) => apply Forall_bind; intros ?
  | |- Forall _ (if ?b then _ else _) => destruct b
  | |- scope_ok _ => unfold scope_ok; cbn; first [reflexivity | apply ruleScope_lacks]
  | |- _ => apply ruleScope_lacks
  end.

Lemma input_scopes m s p : Forall scope_ok (inputRules m s p).
Proof.
  unfold inputRules. scopes.
  - unfold managementRules. apply Forall_bind. intros [protocol port [|source sources]]; unfold service_rules; cbn [sv_Sources]; scopes.
Qed.

Lemma forward_scopes c : Forall scope_ok (forwardRules c).
Proof. unfold forwardRules. scopes. unfold path_family_rules. scopes. Qed.

Lemma pre_nat_scopes c : Forall scope_ok (preNATRules c).
Proof. unfold preNATRules. scopes. Qed.
Lemma post_nat_scopes c : Forall scope_ok (postNATRules c).
Proof. unfold postNATRules. scopes. Qed.
Lemma pre_mangle_scopes c : Forall scope_ok (preMangleRules c).
Proof. unfold preMangleRules, forcedDSCPRules. scopes; unfold provider_dscp_rules; scopes. Qed.
Lemma post_mangle_scopes c : Forall scope_ok (postMangleRules c).
Proof. unfold postMangleRules. scopes. Qed.

Lemma compiled_identities config rules chain : Compile config = Ok rules -> chain ∈ rs_Chains rules -> NoDup (rule_identity <$> ch_Rules chain).
Proof.
  unfold Compile. intros (? & _ & [= <-])%res_bind_ok. destruct (negb (fc_Enabled config)); [by intros ?%not_elem_of_nil|].
  unfold finishRuleset. cbn [rs_Chains]. intros (c & -> & Hc)%list_elem_of_fmap. cbn [with_rules ch_Rules]. apply disambiguate_unique.
  rewrite !elem_of_cons in Hc. destruct Hc as [->|[->|[->|[->|[->|[->|[->|[]%not_elem_of_nil] ] ] ] ] ] ].
  - apply input_scopes.
  - apply forward_scopes.
  - constructor.
  - apply pre_nat_scopes.
  - apply post_nat_scopes.
  - apply pre_mangle_scopes.
  - apply post_mangle_scopes.
Qed.

(** ** The plan *)

Lemma plan_inserts {K V} `{Countable K} msg (m : gmap K V) (kvs : list (K * V)) :
  NoDup kvs.*1 -> (forall kv, kv ∈ kvs -> m !! kv.1 = None) ->
  exists m', fold_res (plan_insert msg) m kvs = Ok m' /\ (forall kv, kv ∈ kvs -> m' !! kv.1 = Some kv.2) /\
    (forall k, k ∉ kvs.*1 -> m' !! k = m !! k).
Proof.
  revert m. induction kvs as [|[k v] kvs IH]; intros m Hnd Hfresh; cbn.
  - exists m. split_and!; [done|by intros kv ?%not_elem_of_nil|done].
  - cbn in Hnd. apply NoDup_cons in Hnd as [Hk Hnd]. unfold plan_insert at 1. cbn.
    pose proof (Hfresh (k, v) ltac:(by left)) as Hkv. cbn in Hkv. rewrite Hkv. cbn.
    destruct (IH (<[k := v]> m) Hnd) as (m' & Hm' & Hin & Hout).
    + intros [k' v'] Hkv'. cbn. rewrite lookup_insert_ne; [by apply (Hfresh (k', v')); right|]. intros ->. apply Hk. by apply (list_elem_of_fmap_2 fst _ (k', v')).
    + exists m'. split_and!; [done| |].
      * intros kv [->|Hkv']%elem_of_cons; [|by apply Hin]. cbn. rewrite Hout by done. by rewrite lookup_insert_eq.
      * intros k' Hk'. rewrite not_elem_of_cons in Hk'. destruct Hk' as [Hne Hk']. rewrite Hout by done. by rewrite lookup_insert_ne.
Qed.

Lemma plan_twice {K V} `{Countable K} msg (m : gmap K V) k v w kvs : fold_res (plan_insert msg) m ((k, v) :: (k, w) :: kvs) = Err msg.
Proof.
  cbn. unfold plan_insert at 1. cbn. destruct (m !! k); cbn; [done|]. unfold plan_insert. cbn. by rewrite lookup_insert_eq.
Qed.

(** What the plan holds for a chain. *)
Definition chain_published (plan : FirewallPlan) (c : Chain) : Prop :=
  pl_Chains plan !! chain_key c = Some (c, rule_key c <$> ch_Rules c) /\ forall r, r ∈ ch_Rules c -> pl_Rules plan !! rule_key c r = Some r.

Lemma plan_chain_ok plan c : NoDup (rule_identity <$> ch_Rules c) ->
  pl_Chains plan !! chain_key c = None -> (forall id, pl_Rules plan !! (chain_key c, id) = None) ->
  exists plan', plan_chain plan c = Ok plan' /\ pl_Sets plan' = pl_Sets plan /\ chain_published plan' c /\
    forall k, k <> chain_key c -> pl_Chains plan' !! k = pl_Chains plan !! k /\ forall id, pl_Rules plan' !! (k, id) = pl_Rules plan !! (k, id).
Proof.
  intros Hid Hc Hr. unfold plan_chain. rewrite Hc. cbn.
  destruct (plan_inserts "firewall rule is compiled twice" (pl_Rules plan) ((fun r => (rule_key c r, r)) <$> ch_Rules c)) as (m' & Hm' & Hin & Hout).
  - rewrite <- list_fmap_compose. unfold rule_key, compose. cbn. clear -Hid. induction (ch_Rules c) as [|r l IH]; cbn in *; [constructor|].
    apply NoDup_cons in Hid as [Hr Hid]. constructor; [|by apply IH]. intros (r' & [= E1 E2] & Hr')%list_elem_of_fmap.
    apply Hr. assert (rule_identity r = rule_identity r') as -> by (unfold rule_identity; congruence). by apply list_elem_of_fmap_2.
  - intros kv (r & -> & _)%list_elem_of_fmap. apply Hr.
  - rewrite Hm'. cbn. eexists. split; [reflexivity|]. split; [done|]. split.
    + split; cbn; [by rewrite lookup_insert_eq|]. intros r Hr'. by apply (Hin (rule_key c r, r)), (list_elem_of_fmap_2 (fun r => (rule_key c r, r))).
    + intros k Hk. cbn. rewrite lookup_insert_ne by done. split; [done|]. intros id. apply Hout.
      intros (kv & E & (r & -> & _)%list_elem_of_fmap)%list_elem_of_fmap. cbn in E. unfold rule_key in E. congruence.
Qed.

Lemma plan_chains_ok chains plan : NoDup (chain_key <$> chains) -> Forall (fun c => NoDup (rule_identity <$> ch_Rules c)) chains ->
  (forall k, k ∈ chain_key <$> chains -> pl_Chains plan !! k = None /\ forall id, pl_Rules plan !! (k, id) = None) ->
  exists plan', fold_res plan_chain plan chains = Ok plan' /\ pl_Sets plan' = pl_Sets plan /\ Forall (chain_published plan') chains /\
    forall k, k ∉ chain_key <$> chains -> pl_Chains plan' !! k = pl_Chains plan !! k /\ forall id, pl_Rules plan' !! (k, id) = pl_Rules plan !! (k, id).
Proof.
  revert plan. induction chains as [|c chains IH]; intros plan; cbn.
  { intros. exists plan. split_and!; try done. }
  intros [Hc Hnd]%NoDup_cons [Hid Hids]%Forall_cons Hfresh. destruct (Hfresh (chain_key c) ltac:(by left)) as [H1 H2].
  destruct (plan_chain_ok plan c Hid H1 H2) as (p1 & -> & Hs1 & Hp1 & Hf1). cbn.
  destruct (IH p1 Hnd Hids) as (p2 & -> & Hs2 & Hp2 & Hf2).
  { intros k Hk. destruct (Hf1 k ltac:(by intros ->)) as [E1 E2]. destruct (Hfresh k ltac:(by right)) as [F1 F2].
    rewrite E1. split; [done|]. intros id. by rewrite E2. }
  exists p2. split_and!; [done|congruence| |].
  - constructor; [|done]. destruct (Hf2 _ Hc) as [E1 E2]. destruct Hp1 as [P1 P2]. split; [by rewrite E1|]. intros r Hr. unfold rule_key. rewrite E2. by apply P2.
  - intros k [Hne Hk]%not_elem_of_cons. destruct (Hf2 k Hk) as [E1 E2]. destruct (Hf1 k Hne) as [F1 F2]. rewrite E1, F1. split; [done|]. intros id. by rewrite E2, F2.
Qed.

Lemma compiled_chains config rules : Compile config = Ok rules -> NoDup (chain_key <$> rs_Chains rules).
Proof.
  unfold Compile. intros (? & _ & [= <-])%res_bind_ok. destruct (negb (fc_Enabled config)); [constructor|].
  apply (bool_decide_unpack (NoDup _)). lazy. exact I.
Qed.

(** The two destination sets of a pinned configuration have one key. *)
Definition sets_clash (config : FirewallConfig) : Prop :=
  fc_Enabled config = true /\ is_pinned config = true /\ fc_PinnedSetV4Name config = fc_PinnedSetV6Name config.
#[export] Instance sets_clash_dec config : Decision (sets_clash config).
Proof. unfold sets_clash. apply _. Defined.

Lemma compiled_sets config rules : Compile config = Ok rules ->
  (~ sets_clash config -> NoDup (set_key <$> rs_Sets rules)) /\
  (sets_clash config -> exists v w k, (fun s => (set_key s, s)) <$> rs_Sets rules = [(k, v); (k, w)]).
Proof.
  unfold Compile, sets_clash. intros (? & _ & [= <-])%res_bind_ok. destruct (fc_Enabled config); cbn; [|split; [intros _; constructor|by intros (? & _)]].
  destruct (is_pinned config); cbn; [|split; [intros _; constructor|by intros (_ & ? & _)]]. split.
  - intros Hc. constructor; [|apply NoDup_singleton]. intros Hin%list_elem_of_singleton. apply Hc. unfold set_key in Hin. cbn in Hin.
    split_and!; try done. congruence.
  - intros (_ & _ & E). unfold set_key. cbn. rewrite E. by do 3 eexists.
Qed.

(** ** What numbering keeps *)

Lemma disambiguate_core seen rules : with_scope "" <$> disambiguate_from seen rules = with_scope "" <$> rules.
Proof. revert seen. induction rules as [|r rules IH]; intros seen; [done|]. cbn. rewrite IH. f_equal. by destruct (1 <? _). Qed.

(** A rule of a numbered chain is a rule of the chain, up to its scope. *)
Lemma disambiguate_lookup rules i r : disambiguate rules !! i = Some r -> exists r0, rules !! i = Some r0 /\ with_scope "" r = with_scope "" r0.
Proof.
  intros H. pose proof (disambiguate_core ∅ rules) as Hc. apply (f_equal (lookup i)) in Hc. rewrite !list_lookup_fmap in Hc.
  unfold disambiguate in H. rewrite H in Hc. destruct (rules !! i) as [r0|] eqn:E; [|done]. exists r0. split; [done|]. exact (Some_inj _ _ Hc).
Qed.

Lemma disambiguate_in rules r : r ∈ disambiguate rules -> exists r0, r0 ∈ rules /\ with_scope "" r = with_scope "" r0.
Proof. intros (i & H)%list_elem_of_lookup. apply disambiguate_lookup in H as (r0 & H & E). exists r0. split; [by eapply list_elem_of_lookup_2|done]. Qed.

Lemma disambiguate_keeps rules r0 : r0 ∈ rules -> exists r, r ∈ disambiguate rules /\ with_scope "" r = with_scope "" r0.
Proof.
  intros (i & Hi)%list_elem_of_lookup. pose proof (disambiguate_core ∅ rules) as Hc. apply (f_equal (lookup i)) in Hc.
  rewrite !list_lookup_fmap, Hi in Hc. fold (disambiguate rules) in Hc. destruct (disambiguate rules !! i) as [r|] eqn:E; [|done].
  exists r. split; [by eapply list_elem_of_lookup_2|exact (Some_inj _ _ Hc)].
Qed.

Lemma disambiguate_last rules r : last rules = Some r -> exists r1, last (disambiguate rules) = Some r1 /\ with_scope "" r1 = with_scope "" r.
Proof.
  intros H. pose proof (disambiguate_core ∅ rules) as Hc. apply (f_equal last) in Hc. rewrite !fmap_last, H in Hc.
  fold (disambiguate rules) in Hc. destruct (last (disambiguate rules)) as [r1|]; [|done]. exists r1. split; [done|]. exact (Some_inj _ _ Hc).
Qed.

(** A chain that lets through only what one of its rules accepts. *)
Definition drops_by_default (c : Chain) : Prop :=
  ch_Policy c = "drop"%string /\ exists r, last (ch_Rules c) = Some r /\ ru_Action r = ActionDrop.

Definition touches (iface : string) (r : Rule) : Prop := ru_Interface r = iface \/ ru_OutputInterface r = iface.

Lemma forward_touches config r : Forall (fun p => fp_InternalInterface p = fc_InternalInterface config) (fc_Paths config) ->
  r ∈ forwardRules config -> ru_Action r = ActionAccept -> r = establishedRule \/ touches (fc_InternalInterface config) r.
Proof.
  intros Hp. unfold forwardRules. rewrite !elem_of_app, !elem_of_cons. intros [[->|[->|[]%not_elem_of_nil]]|[Hr|[->|[]%not_elem_of_nil]]] Ha.
  - by left.
  - right. by left.
  - right. apply list_elem_of_bind in Hr as (path & Hr & Hpath). rewrite Forall_forall in Hp. specialize (Hp _ Hpath). cbn beta in Hp. rewrite <- Hp.
    apply list_elem_of_bind in Hr as (family & Hr & _). unfold path_family_rules in Hr. destruct (negb family.1); [by apply not_elem_of_nil in Hr|].
    rewrite !elem_of_cons in Hr. destruct Hr as [->|[->|[]%not_elem_of_nil]]; [by left|by right].
  - done.
Qed.

Lemma compiled_enabled config rules : Compile config = Ok rules -> fc_Enabled config = true -> rs_Chains rules =
  with_rules disambiguate <$>
    [input_chain (inputRules (fc_ManagementInterface config) (fc_ManagementServices config) (fc_LocalPermits config));
     forward_chain (forwardRules config); output_chain;
     mkChain natTable "prerouting" "nat" "prerouting" "dstnat" "accept" (preNATRules config);
     mkChain natTable "postrouting" "nat" "postrouting" "srcnat" "accept" (postNATRules config);
     mkChain mangleTable "prerouting" "filter" "prerouting" "mangle" "accept" (preMangleRules config);
     mkChain mangleTable "postrouting" "filter" "postrouting" "mangle" "accept" (postMangleRules config)].
Proof. unfold Compile. intros (? & _ & [= <-])%res_bind_ok He. by rewrite He. Qed.

(** ** Theorems *)

(** An enabled firewall denies by default, and forwards nothing that does not touch the
    internal interface when its paths start there. *)
Lemma compiled_denies config rules : Compile config = Ok rules -> fc_Enabled config = true ->
  Forall (fun p => fp_InternalInterface p = fc_InternalInterface config) (fc_Paths config) ->
  (forall c, c ∈ rs_Chains rules -> ch_Hook c = "input"%string \/ ch_Hook c = "forward"%string -> drops_by_default c) /\
  (forall c r, c ∈ rs_Chains rules -> ch_Hook c = "forward"%string -> r ∈ ch_Rules c -> ru_Action r = ActionAccept ->
     ru_Purpose r = PurposeEstablished \/ touches (fc_InternalInterface config) r).
Proof.
  intros Hc He Hp. rewrite (compiled_enabled _ _ Hc He).
  assert (forall rules r, last rules = Some r -> ru_Action r = ActionDrop -> exists r1, last (disambiguate rules) = Some r1 /\ ru_Action r1 = ActionDrop) as Hlast.
  { intros l r Hl Ha. destruct (disambiguate_last _ _ Hl) as (r1 & -> & E). exists r1. split; [done|]. apply (f_equal ru_Action) in E. cbn in E. congruence. }
  split.
  - intros c (c0 & -> & Hin)%list_elem_of_fmap Hh. rewrite !elem_of_cons in Hin.
    destruct Hin as [->|[->|[->|[->|[->|[->|[->|[]%not_elem_of_nil] ] ] ] ] ] ]; cbn in Hh; try (by destruct Hh).
    + split; [done|]. cbn [with_rules ch_Rules input_chain]. apply (Hlast _ (dropLogRule "input")); [|done]. unfold inputRules. by rewrite !last_app.
    + split; [done|]. cbn [with_rules ch_Rules forward_chain]. apply (Hlast _ (dropLogRule "forward")); [|done]. unfold forwardRules. by rewrite !last_app.
  - intros c r (c0 & -> & Hin)%list_elem_of_fmap Hh. rewrite !elem_of_cons in Hin.
    destruct Hin as [->|[->|[->|[->|[->|[->|[->|[]%not_elem_of_nil] ] ] ] ] ] ]; cbn in Hh; try done.
    cbn [with_rules ch_Rules forward_chain]. intros (r0 & Hr0 & E)%disambiguate_in Ha.
    assert (ru_Action r0 = ActionAccept) as Ha0 by (apply (f_equal ru_Action) in E; cbn in E; congruence).
    unfold touches. pose proof (f_equal ru_Purpose E) as E1. pose proof (f_equal ru_Interface E) as E2. pose proof (f_equal ru_OutputInterface E) as E3.
    cbn in E1, E2, E3. rewrite E1, E2, E3. destruct (forward_touches config r0 Hp Hr0 Ha0) as [->|H]; [by left|by right].
Qed.

(** Static mappings come first: in the chain that rewrites sources, the rule of a mapping
    always stands before every masquerading rule.  Each mapping of a provider has a rule that
    sends its external address to the internal one on arrival, and one that rewrites the
    internal address to the external one on departure. *)
Lemma static_mappings_first config rules c : Compile config = Ok rules -> c ∈ rs_Chains rules ->
  ch_Table c = natTable -> ch_Hook c = "postrouting"%string ->
  (forall i j r s, ch_Rules c !! i = Some r -> ch_Rules c !! j = Some s ->
     ru_Action r = ActionSNAT -> ru_Action s = ActionMasquerade -> (i < j)%nat) /\
  (forall p m, p ∈ fc_Providers config -> m ∈ fpr_StaticMappings p ->
     let iface := Quote (fpr_Interface p) in let external := addr_String (mp_External m) in let internal := addr_String (mp_Internal m) in
     (exists r, r ∈ ch_Rules c /\ ru_Expression r = "oifname " +:+ iface +:+ " ip saddr " +:+ internal +:+ " snat to " +:+ external) /\
     exists c' r, c' ∈ rs_Chains rules /\ ch_Table c' = natTable /\ ch_Hook c' = "prerouting"%string /\ r ∈ ch_Rules c' /\
       ru_Expression r = "iifname " +:+ iface +:+ " ip daddr " +:+ external +:+ " dnat to " +:+ internal).
Proof.
  intros Hc. destruct (fc_Enabled config) eqn:He.
  2:{ unfold Compile in Hc. apply res_bind_ok in Hc as (? & _ & [= <-]). rewrite He. by intros ?%not_elem_of_nil. }
  rewrite (compiled_enabled _ _ Hc He). intros (c0 & -> & Hin)%list_elem_of_fmap. rewrite !elem_of_cons in Hin.
  destruct Hin as [->|[->|[->|[->|[->|[->|[->|[]%not_elem_of_nil] ] ] ] ] ] ]; cbn [with_rules ch_Table ch_Hook ch_Rules]; try done. intros _ _.
  set (snats := p ← fc_Providers config; mapping_snat p <$> fpr_StaticMappings p).
  set (masqs := p ← fc_Providers config; rules_if (fpr_MasqueradeIPv4 p) [masquerade config p]).
  assert (Forall (fun r => ru_Action r = ActionSNAT) snats) as Hs by (apply Forall_bind; intros p; apply Forall_fmap, Forall_true; done).
  assert (Forall (fun r => ru_Action r = ActionMasquerade) masqs) as Hm.
  { apply Forall_bind. intros p. destruct (fpr_MasqueradeIPv4 p); repeat constructor. }
  split.
  - intros i j r s Hi Hj Hr Hj'. apply disambiguate_lookup in Hi as (r0 & Hi & Er). apply disambiguate_lookup in Hj as (s0 & Hj & Es).
    apply (f_equal ru_Action) in Er, Es. cbn in Er, Es. unfold postNATRules in Hi, Hj. fold snats masqs in Hi, Hj.
    rewrite lookup_app_Some in Hi, Hj. rewrite Forall_forall in Hs, Hm.
    destruct Hi as [Hi|[_ Hi]]; [|apply list_elem_of_lookup_2, Hm in Hi; congruence].
    destruct Hj as [Hj|[Hj _]]; [apply list_elem_of_lookup_2, Hs in Hj; congruence|]. apply lookup_lt_Some in Hi. lia.
  - intros p m Hp Hpm. split.
    + destruct (disambiguate_keeps (postNATRules config) (mapping_snat p m)) as (r & Hr & E).
      * unfold postNATRules. apply elem_of_app. left. apply list_elem_of_bind. exists p. split; [by apply list_elem_of_fmap_2|done].
      * exists r. split; [done|]. exact (f_equal ru_Expression E).
    + destruct (disambiguate_keeps (preNATRules config) (mapping_dnat p m)) as (r & Hr & E).
      * unfold preNATRules. apply elem_of_app. right. apply list_elem_of_bind. exists p. split; [by apply list_elem_of_fmap_2|done].
      * eexists _, r. split; [do 3 right; left|]. split_and!; [done|done|done|]. exact (f_equal ru_Expression E).
Qed.

(** Every configuration that compiles can be published, except when the two destination
    sets have one name: within a chain no two rules share purpose and scope, so the plan
    holds each chain under its key with the keys of its rules in order, and each rule and
    set under its own key. *)
Lemma plan_complete config rules : Compile config = Ok rules ->
  if decide (sets_clash config) then compile_plan config = Err "firewall set is compiled twice"
  else exists plan, compile_plan config = Ok plan /\ Forall (chain_published plan) (rs_Chains rules) /\
    forall s, s ∈ rs_Sets rules -> pl_Sets plan !! set_key s = Some s.
Proof.
  intros Hc. pose proof (compiled_chains _ _ Hc) as Hk. destruct (compiled_sets _ _ Hc) as [Hsets Hclash].
  destruct (plan_chains_ok (rs_Chains rules) (mkFirewallPlan ∅ ∅ ∅) Hk) as (p & Hp & Hps & Hpub & _).
  { apply Forall_forall. intros c Hin. by eapply compiled_identities. }
  { intros k _. cbn. split; [apply lookup_empty|]. intros id. apply lookup_empty. }
  unfold compile_plan. rewrite Hc. cbn [res_bind]. rewrite Hp. cbn [res_bind]. rewrite Hps. cbn [pl_Sets]. destruct (decide (sets_clash config)) as [Hcl|Hcl].
  - destruct (Hclash Hcl) as (v & w & k & ->). by rewrite plan_twice.
  - destruct (plan_inserts "firewall set is compiled twice" ∅ ((fun s => (set_key s, s)) <$> rs_Sets rules)) as (m & -> & Hin & _).
    + rewrite <- list_fmap_compose. by apply Hsets.
    + intros kv _. apply lookup_empty.
    + cbn. eexists. split; [reflexivity|]. split.
      * eapply Forall_impl; [exact Hpub|]. intros c [H1 H2]. by split.
      * intros s Hs. cbn. by apply (Hin (set_key s, s)), (list_elem_of_fmap_2 (fun s => (set_key s, s))).
Qed.
End Chains.
