(* ===== verification/NetFirewall.v ===== *)
(** * The firewall of the network document (networkjson/firewall.go)

    The steering group's wire records, the baseline the gateway installs before the document
    is validated, and the full configuration built from the accepted providers.  Reading and
    decoding the file is not modelled: a document arrives decoded.  Errors leave out quoted
    values and the context a caller adds. *)

From S2P Require Import Prelude GoStrings NptPolicy Intent BgpConfig BgpFib NetWire NetLink NetConn NetGraph NetBgp NetProvider Firewall.

Local Open Scope Z_scope.

(** ** Wire records *)

Record managementServiceWire := mkServiceWire { msw_Protocol : string; msw_Port : option Z; msw_AllowedSource : list string }.

Record firewallWire := mkFirewallWire {
  fww_ManagementInterface : string;
  fww_ManagementServices : list managementServiceWire;
  fww_PinnedProvider : string;
  fww_PinnedConnectionID : string;
  fww_PinnedSourceV4 : string;
  fww_PinnedSourcePort : option Z;
  fww_PinnedDestinationPort : option Z;
  fww_PinnedSetV4Name : string;
  fww_PinnedSetV6Name : string;
  fww_PinnedV4 : list string;
  fww_PinnedV6 : list string;
}.

Record translation := mkTranslation { tr_InternalPrefix : string; tr_OpnsenseEdgeV6 : string; tr_MwanbrEdgeV6 : string }.
Record routes := mkRoutes { ro_InternalIface : string; ro_InternalNetV4 : string }.

Record steeringGroup := mkSteeringGroup {
  sg_HashMode : string;
  sg_ReservedTables : list Z;
  sg_Translation : translation;
  sg_Routes : routes;
  sg_Firewall : option firewallWire;
  sg_ProbeTimeout : option Z;
}.

Record document := mkDocument { doc_GuestType : string; doc_Interface : list ifaceEntry; doc_SteeringGroup : steeringGroup }.

Definition pinnedConnectionID (w : option firewallWire) : string := from_option fww_PinnedConnectionID ""%string w.

(** ** Guests *)

Definition GuestTypeQEMU : string := "qemu".
Definition GuestTypeLXC : string := "lxc".

Definition resolveGuestType (raw : string) : res string :=
  if is_empty raw || bool_decide (raw = GuestTypeQEMU) then Ok GuestTypeQEMU
  else if bool_decide (raw = GuestTypeLXC) then Ok GuestTypeLXC else Err "guest-type is not qemu or lxc".

Definition managementPolicy (guestType : string) : ManagementPolicy :=
  if bool_decide (guestType = GuestTypeLXC) then ManagementOptional else ManagementRequired.

(** ** The baseline *)

Definition newPermit (iface family protocol : string) (sourcePort destinationPort : Z) : TransportPermit :=
  mkPermit iface family no_prefix no_prefix protocol sourcePort destinationPort.

Record baselineProvider := mkBaselineProvider { bp_name : string; bp_tunnel : bool }.

Definition baseline_provider (acc : list string * list TransportPermit) (provider : baselineProvider) :
    res (list string * list TransportPermit) :=
  let name := bp_name provider in
  (check reject_if (bool_decide (name ∈ acc.1)) "provider interface appears twice" ;;
   Ok (acc.1 ++ [name],
       acc.2 ++ (if bp_tunnel provider then [] else [newPermit name ipv4 "udp" 67 68; newPermit name ipv6 "udp" 547 546])))%go.

Definition internal_permits (iface : string) : list TransportPermit :=
  family ← [ipv4; ipv6]; [newPermit iface family "tcp" 0 179; newPermit iface family "udp" 0 3784; newPermit iface family "udp" 0 3785].

Section Building.
Context `{NT : NetText}.

Definition build_source (raw : string) : res Prefix :=
  match ParsePrefix raw with Some prefix => Ok prefix | None => Err "firewall management-service allowed-source" end.

Definition build_service (acc : list (string * Z) * list Service) (entry : managementServiceWire) : res (list (string * Z) * list Service) :=
  match msw_Port entry with
  | None => Err "firewall management-service has no port"
  | Some port =>
      (seen <-? take_key "firewall management-service is duplicated" acc.1 (msw_Protocol entry, port) ;;
       sources <-? map_res build_source (msw_AllowedSource entry) ;;
       Ok (seen, acc.2 ++ [mkService (msw_Protocol entry) port sources]))%go
  end.

Definition buildManagementServices (entries : list managementServiceWire) : res (list Service) :=
  (acc <-? fold_res build_service ([], []) entries ;; Ok acc.2)%go.

Definition buildBaseline (managementInterface : string) (managementServices : list managementServiceWire) (guestType internalInterface : string)
    (declared : list string) (providers : list baselineProvider) : res BaselineConfig :=
  (services <-? buildManagementServices managementServices ;;
   acc <-? fold_res baseline_provider ([], []) providers ;;
   let baseline := mkBaseline (managementPolicy guestType) managementInterface services internalInterface acc.1
                     (acc.2 ++ internal_permits internalInterface) in
   check BaselineConfig_Validate baseline ;;
   check unique_keys "interface appears twice" declared ;;
   check reject_if ((negb (Absent (bl_ManagementPolicy baseline) managementInterface) && negb (bool_decide (managementInterface ∈ declared)))
                    || negb (bool_decide (internalInterface ∈ declared))) "firewall management or internal interface is not declared" ;;
   Ok baseline)%go.

(** ** The full configuration *)

Definition conn_tunnel (c : Connection) : option Tunnel := link ← conn_Link c; link_Tunnel link.

Definition tunnelLinks (connections : list Connection) : gmap string Tunnel :=
  fold_left (fun m c => match conn_tunnel c with Some t => <[conn_Name c := t]> m | None => m end) connections ∅.

Definition tunnelPermit (tunnel : Tunnel) : TransportPermit :=
  mkPermit (Underlay tunnel) ipv4 (PrefixFrom (tun_Remote tunnel) (BitLen (tun_Remote tunnel))) no_prefix ProtocolIPv6InIPv4 0 0.

Record provider_acc := mkProviderAcc {
  pa_Providers : list Provider;
  pa_Paths : list ForwardingPath;
  pa_Permits : list TransportPermit;
  pa_Pinned : string;
  pa_matches : nat;
}.

Definition is_pin (w : firewallWire) (id : string) (provider : wan) : bool :=
  (negb (is_empty (fww_PinnedConnectionID w)) && bool_decide (id = fww_PinnedConnectionID w))
  || (negb (is_empty (fww_PinnedProvider w)) && bool_decide (ww_Name provider = fww_PinnedProvider w)).

Definition firewall_provider (entry : IfMgrWANEntry) (tunnel : option Tunnel) : Provider :=
  let masquerade := match we_TranslationV4 entry with Some t => bool_decide (t4_Mode t = TranslationNAPT44) | None => false end in
  mkProvider (we_Iface entry) (we_FwMark entry) (we_ForcedDSCP entry) masquerade
    (if masquerade then match we_TranslationV4 entry with
                        | Some t => (fun m => mkMapping (sm_External m) (sm_Internal m)) <$> t4_StaticMappings t
                        | None => []
                        end
     else []) (is_some tunnel).

Definition populate_provider (internal : string) (w : firewallWire) (ids : gmap string string) (WAN : gmap string IfMgrWANEntry)
    (tunnels : gmap string Tunnel) (acc : provider_acc) (entry : ifaceEntry) : res provider_acc :=
  match e_WAN entry with
  | None => Ok acc
  | Some provider =>
      let id := default ""%string (ids !! e_Name entry) in
      match WAN !! id with
      | None => Ok acc
      | Some routing =>
          let tunnel := tunnels !! e_Name entry in
          let pinned := is_pin w id provider in
          (check reject_if ((we_FwMark routing <? 0) || (2 ^ 32 - 1 <? we_FwMark routing)) "firewall provider has invalid mark" ;;
           check reject_if ((we_ForcedDSCP routing <? 0) || (63 <? we_ForcedDSCP routing)) "firewall provider has invalid DSCP" ;;
           check reject_if (pinned && is_some tunnel) "firewall pin target has no ipv4 family" ;;
           Ok (mkProviderAcc (pa_Providers acc ++ [firewall_provider routing tunnel])
                 (pa_Paths acc ++ [mkPath internal (we_Iface routing) (is_none tunnel) true])
                 (pa_Permits acc ++ match tunnel with Some t => [tunnelPermit t] | None => [] end)
                 (if pinned then we_Iface routing else pa_Pinned acc)
                 (if pinned then S (pa_matches acc) else pa_matches acc)))%go
      end
  end.

Definition populateFirewallProviders (entries : list ifaceEntry) (connections : list Connection) (ids : gmap string string)
    (WAN : gmap string IfMgrWANEntry) (w : firewallWire) (internal : string) (permits : list TransportPermit) : res provider_acc :=
  (check reject_if (negb (is_empty (fww_PinnedProvider w)) && negb (is_empty (fww_PinnedConnectionID w)))
           "firewall must select one of pinned-provider or pinned-connection-id" ;;
   acc <-? fold_res (populate_provider internal w ids WAN (tunnelLinks connections)) (mkProviderAcc [] [] permits "" 0) entries ;;
   check reject_if (1 <? pa_matches acc)%nat "firewall pinned-provider matches multiple connections; use pinned-connection-id" ;;
   Ok acc)%go.

Record pin_settings := mkPin { pin_SourceIPv4 : Addr; pin_SourceIPv6 : Addr; pin_SourcePort : Z; pin_DestinationPort : Z }.

Definition pin_target (w : firewallWire) : bool := negb (is_empty (fww_PinnedProvider w)) || negb (is_empty (fww_PinnedConnectionID w)).

Definition build_pin (w : firewallWire) (pinned opnsenseEdgeV6 : string) : res pin_settings :=
  if negb (pin_target w) then Ok (mkPin AddrNone AddrNone 0 0)
  else
    (check reject_if (is_empty pinned) "firewall pin target is not an accepted connection" ;;
     match ParseAddr (fww_PinnedSourceV4 w), ParseAddr opnsenseEdgeV6 with
     | None, _ => Err "firewall pinned-source-v4"
     | Some _, None => Err "firewall opnsense-edge-v6"
     | Some v4, Some v6 =>
         match fww_PinnedSourcePort w, fww_PinnedDestinationPort w with
         | Some sport, Some dport => Ok (mkPin v4 v6 sport dport)
         | _, _ => Err "firewall pinned UDP ports are required"
         end
     end)%go.

Definition build_pinned_prefix (msg : error) (raw : string) : res Prefix :=
  match ParsePrefix raw with Some prefix => Ok prefix | None => Err msg end.

Definition zero_firewall : FirewallConfig :=
  mkFirewallConfig false ManagementRequired "" no_prefix "" [] [] [] [] [] "" AddrNone AddrNone 0 0 [] [] "" "".

Definition document_providers (entries : list ifaceEntry) : list baselineProvider :=
  omap (fun entry => if is_some (e_WAN entry)
                     then Some (mkBaselineProvider (e_Name entry) (is_some (link ← e_Link entry; li_Tunnel link))) else None) entries.

Definition buildFirewall (doc : document) (guestType : string) (ids : gmap string string) (connections : list Connection)
    (WAN : gmap string IfMgrWANEntry) : res FirewallConfig :=
  let group := doc_SteeringGroup doc in
  match sg_Firewall group with
  | None => Ok zero_firewall
  | Some w =>
      let declared := e_Name <$> doc_Interface doc in
      (baseline <-? buildBaseline (fww_ManagementInterface w) (fww_ManagementServices w) guestType (ro_InternalIface (sg_Routes group))
                      declared (document_providers (doc_Interface doc)) ;;
       network <-? build_pinned_prefix "firewall internal-net-v4" (ro_InternalNetV4 (sg_Routes group)) ;;
       acc <-? populateFirewallProviders (doc_Interface doc) connections ids WAN w (bl_InternalInterface baseline) (bl_LocalPermits baseline) ;;
       pin <-? build_pin w (pa_Pinned acc) (tr_OpnsenseEdgeV6 (sg_Translation group)) ;;
       pinnedV4 <-? map_res (build_pinned_prefix "firewall pinned-v4") (fww_PinnedV4 w) ;;
       pinnedV6 <-? map_res (build_pinned_prefix "firewall pinned-v6") (fww_PinnedV6 w) ;;
       let cfg := mkFirewallConfig true (bl_ManagementPolicy baseline) (bl_InternalInterface baseline) network (bl_ManagementInterface baseline)
                    (bl_ManagementServices baseline) declared (pa_Permits acc) (pa_Paths acc) (pa_Providers acc) (pa_Pinned acc)
                    (pin_SourceIPv4 pin) (pin_SourceIPv6 pin) (pin_SourcePort pin) (pin_DestinationPort pin) pinnedV4 pinnedV6
                    (fww_PinnedSetV4Name w) (fww_PinnedSetV6Name w) in
       check FirewallConfig_Validate cfg ;;
       Ok cfg)%go
  end.

(** What [LoadBaseline] makes of a decoded document: nothing when the gateway does not own a
    firewall. *)
Definition load_baseline (doc : document) : res (option BaselineConfig) :=
  let group := doc_SteeringGroup doc in
  match sg_Firewall group with
  | None => Ok None
  | Some w =>
      (guestType <-? resolveGuestType (doc_GuestType doc) ;;
       baseline <-? buildBaseline (fww_ManagementInterface w) (fww_ManagementServices w) guestType (ro_InternalIface (sg_Routes group))
                      (e_Name <$> doc_Interface doc) (document_providers (doc_Interface doc)) ;;
       Ok (Some baseline))%go
  end.
End Building.
