(* ===== verification/NetDocument.v ===== *)
(** * The network document as a whole (networkjson/{networkjson,plan,policy_plan}.go)

    [build] composes the loader: identities, connections, providers, the checks over the set,
    claims and the firewall.  A document with a VPP section takes another path that is not
    modelled here.  The projections are what the management surface publishes of it. *)

From S2P Require Import Prelude GoStrings NptPolicy Intent BgpConfig BgpFib NetWire NetLink NetConn NetGraph NetBgp NetProvider NetClaims.
From S2P Require Import Firewall FirewallProps NetFirewall.

Local Open Scope Z_scope.

Record Config := mkConfig {
  cfg_GuestType : string;
  cfg_Firewall : FirewallConfig;
  cfg_PinnedConnectionID : string;
  cfg_InternalPrefix : string;
  cfg_OpnsenseEdgeV6 : string;
  cfg_MwanbrEdgeV6 : string;
  cfg_InternalIface : string;
  cfg_InternalNetV4 : string;
  cfg_HashMode : string;
  cfg_ReservedTables : list Z;
  cfg_ProbeTimeoutMillis : Z;
  cfg_WAN : gmap string IfMgrWANEntry;
  cfg_Health : gmap string IfMgrHealthWANSection;
  cfg_ConnectionIDs : gmap string string;
  cfg_ExplicitConnectionIDs : gmap string string;
  cfg_Connections : list Connection;
  cfg_Claims : list Claim;
  cfg_Rejected : list Rejected;
}.

Definition newWANNetworkConfig (doc : document) : res Config :=
  let group := doc_SteeringGroup doc in
  (guestType <-? resolveGuestType (doc_GuestType doc) ;;
   Ok (mkConfig guestType zero_firewall (pinnedConnectionID (sg_Firewall group)) (tr_InternalPrefix (sg_Translation group))
         (tr_OpnsenseEdgeV6 (sg_Translation group)) (tr_MwanbrEdgeV6 (sg_Translation group)) (ro_InternalIface (sg_Routes group))
         (ro_InternalNetV4 (sg_Routes group)) (sg_HashMode group) (sg_ReservedTables group) 0 ∅ ∅ ∅ ∅ [] [] []))%go.

Definition required_leaves (loaded : Config) : list (string * string) :=
  [("steering-group/translation/internal-prefix"%string, cfg_InternalPrefix loaded);
   ("steering-group/translation/opnsense-edge-v6"%string, cfg_OpnsenseEdgeV6 loaded);
   ("steering-group/translation/mwanbr-edge-v6"%string, cfg_MwanbrEdgeV6 loaded);
   ("steering-group/routes/internal-iface"%string, cfg_InternalIface loaded);
   ("steering-group/routes/internal-net-v4"%string, cfg_InternalNetV4 loaded);
   ("steering-group/hash-mode"%string, cfg_HashMode loaded)].

(** A provider whose entry was refused is left out. *)
Definition is_active (WAN : gmap string IfMgrWANEntry) (c : Connection) : bool :=
  negb (has_role (conn_Roles c) RoleProvider) || is_some (WAN !! conn_ID c).

Definition check_any_provider (WAN : gmap string IfMgrWANEntry) (rejected : list Rejected) : res unit :=
  if bool_decide (WAN = ∅) then
    Err (match rejected with
         | r :: _ => "every provider entry was rejected; the first: " +:+ rj_Err r
         | [] => "no interface declares a provider"
         end)
  else Ok tt.

Section Document.
Context `{NT : NetText}.

Definition build (doc : document) : res Config :=
  let group := doc_SteeringGroup doc in
  let entries := doc_Interface doc in
  (loaded <-? newWANNetworkConfig doc ;;
   check check_all (fun leaf => reject_if (is_empty leaf.2) (leaf.1 +:+ " is required")) (required_leaves loaded) ;;
   match sg_ProbeTimeout group with
   | None => Err "steering-group/health/probe-timeout is required"
   | Some probeTimeout =>
       (ids <-? normalizeConnectionIDs entries ;;
        built <-? compileConnections entries ids.1 (cfg_InternalIface loaded) (fww_ManagementInterface <$> sg_Firewall group) ;;
        projected <-? compileProviderProjections entries built.1 ids.1 built.2 ;;
        let WAN := pj_WAN projected in
        let active := List.filter (is_active WAN) built.1 in
        check validateActiveDependencies active ;;
        check check_any_provider WAN (pj_Rejected projected) ;;
        check checkProviderSet (cfg_ReservedTables loaded) active WAN ;;
        claims <-? compileClaims active WAN ;;
        firewall <-? buildFirewall doc (cfg_GuestType loaded) ids.1 active WAN ;;
        Ok (mkConfig (cfg_GuestType loaded) firewall (cfg_PinnedConnectionID loaded) (cfg_InternalPrefix loaded) (cfg_OpnsenseEdgeV6 loaded)
              (cfg_MwanbrEdgeV6 loaded) (cfg_InternalIface loaded) (cfg_InternalNetV4 loaded) (cfg_HashMode loaded) (cfg_ReservedTables loaded)
              probeTimeout WAN (pj_Health projected) ids.1 ids.2 active claims (pj_Rejected projected)))
   end)%go.

(** ** Projections (plan.go, policy_plan.go) *)

Definition RouteSourceRoute : string := "route".
Definition RouteSourceGateway : string := "gateway".
Definition max_uint32 : Z := 2 ^ 32 - 1.

(** A key: interface, family and destination. *)
Definition RouteKey : Type := string * string * Prefix.
Record PlannedRoute := mkPlannedRoute { plr_intent : RouteIntent; plr_Source : string }.

Definition family_default (family : string) : Prefix :=
  if bool_decide (family = "ipv4"%string) then PrefixFrom (Addr4 (repeat 0 4)) 0 else PrefixFrom (Addr6 (repeat 0 16) "") 0.

Definition addFamilyRoutes (routes : gmap RouteKey PlannedRoute) (iface name : string) (family : Family) : gmap RouteKey PlannedRoute :=
  let routes :=
    if addr_valid (fam_Gateway family)
    then <[(iface, name, family_default name) :=
             mkPlannedRoute (mkRouteIntent (family_default name) (fam_Gateway family) main_table (default 0 (fam_RouteMetric family))) RouteSourceGateway]> routes
    else routes in
  fold_left (fun m r => <[(iface, name, ri_Destination r) := mkPlannedRoute r RouteSourceRoute]> m) (fam_Routes family) routes.

Definition Config_ConfiguredRoutes (c : Config) : gmap RouteKey PlannedRoute :=
  fold_left (fun m connection => fold_left (fun m f => addFamilyRoutes m (conn_Name connection) f.1 f.2) (routeClaimFamilies connection) m)
    (cfg_Connections c) ∅.

Definition ProviderDefaultKey : Type := string * string * Z.
Record ProviderDefault := mkProviderDefault {
  pd_Interface : string;
  pd_Family : string;
  pd_TableID : Z;
  pd_InternalDestination : Prefix;
  pd_InternalInterface : string;
}.

Definition internalDestination (c : Config) (family : string) : res Prefix :=
  if bool_decide (family = "ipv4"%string) then
    match ParsePrefix (cfg_InternalNetV4 c) with Some p => Ok p | None => Err "steering-group/routes/internal-net-v4" end
  else match ParseAddr (cfg_OpnsenseEdgeV6 c) with
       | Some edge => Ok (PrefixFrom edge (BitLen edge))
       | None => Err "steering-group/translation/opnsense-edge-v6"
       end.

Definition provider_families (provider : IfMgrWANEntry) : list string :=
  (if is_some (we_TranslationV4 provider) then ["ipv4"%string] else []) ++ (if is_some (we_TranslationV6 provider) then ["ipv6"%string] else []).

Definition add_provider_default (c : Config) (id : string) (provider : IfMgrWANEntry) (defaults : gmap ProviderDefaultKey ProviderDefault)
    (family : string) : res (gmap ProviderDefaultKey ProviderDefault) :=
  (destination <-? internalDestination c family ;;
   Ok (<[(id, family, we_TableID provider) :=
           mkProviderDefault (we_Iface provider) family (we_TableID provider) destination (cfg_InternalIface c)]> defaults))%go.

Definition add_provider_defaults (c : Config) (defaults : gmap ProviderDefaultKey ProviderDefault) (e : string * IfMgrWANEntry) :
    res (gmap ProviderDefaultKey ProviderDefault) :=
  (check reject_if ((we_TableID e.2 <? 0) || (max_uint32 <? we_TableID e.2)) "table-id is outside 0 to 4294967295" ;;
   fold_res (add_provider_default c e.1 e.2) defaults (provider_families e.2))%go.

(** The code walks a map, so which of several errors is reported may differ. *)
Definition ProviderDefaults (c : Config) : res (gmap ProviderDefaultKey ProviderDefault) :=
  fold_res (add_provider_defaults c) ∅ (map_to_list (cfg_WAN c)).

Definition routingNumber (leaf : string) (value : Z) : res Z :=
  if (value <? 0) || (max_uint32 <? value) then Err (leaf +:+ " is outside 0 to 4294967295") else Ok value.

Definition PolicyRuleKey : Type := string * string * string.

Definition provider_policy (id : string) (entry : IfMgrWANEntry) (mark : Z) : PolicyProvider :=
  let '(prefixTranslation, externalConfigured, external) := IPv6Translation_PolicySource (we_TranslationV6 entry) in
  NewPolicyProvider ParseAddr id (we_TableID entry) mark (we_FwMarkPrio entry) (we_FromPrio entry) (is_some (we_TranslationV4 entry))
    (we_V4Source entry) (is_some (we_TranslationV6 entry)) prefixTranslation externalConfigured external.

Definition add_policy_rule (rules : gmap PolicyRuleKey PolicyRule) (rule : PolicyRule) : res (gmap PolicyRuleKey PolicyRule) :=
  (check reject_if (bool_decide (pr_SourceKind rule = PolicySourceConfigured) && negb (IsValid (pr_Source rule)))
           "source rule has no configured prefix" ;;
   Ok (<[(pr_ConnectionID rule, pr_Family rule, pr_Kind rule) := rule]> rules))%go.

Definition add_policy_rules (rules : gmap PolicyRuleKey PolicyRule) (e : string * IfMgrWANEntry) : res (gmap PolicyRuleKey PolicyRule) :=
  (check routingNumber "table-id" (we_TableID e.2) ;;
   mark <-? routingNumber "fw-mark" (we_FwMark e.2) ;;
   check routingNumber "fw-mark-prio" (we_FwMarkPrio e.2) ;;
   check routingNumber "from-prio" (we_FromPrio e.2) ;;
   fold_res add_policy_rule rules (ConfiguredPolicyRules (provider_policy e.1 e.2 mark)))%go.

Definition PolicyRules (c : Config) : res (gmap PolicyRuleKey PolicyRule) :=
  fold_res add_policy_rules ∅ (map_to_list (cfg_WAN c)).
End Document.
