(* ===== verification/NetProps.v ===== *)
(** * What a loaded document guarantees

    Theorems about [build] as a whole, from the lemmas of its parts. *)

From S2P Require Import Prelude GoStrings NptPolicy Intent BgpConfig BgpFib NetWire NetLink NetConn NetGraph NetBgp NetProvider NetClaims.
From S2P Require Import Firewall FirewallProps NetFirewall NetDocument.

Local Open Scope Z_scope.

Section Props.
Context `{NT : NetText}.

(** ** Identifiers of connections *)

Lemma buildConnection_id entry id c : buildConnection entry id = Ok c -> conn_ID c = id /\ conn_Name c = e_Name entry.
Proof.
  unfold buildConnection. intros (owner & _ & H)%res_bind_ok. apply res_bind_ok in H as (link & _ & H). apply res_bind_ok in H as (v4 & _ & H).
  apply res_bind_ok in H as (v6 & _ & H). apply res_bind_ok in H as (files & _ & H). apply res_bind_ok in H as (? & _ & H).
  by apply res_bind_ok in H as (? & _ & [= <-]).
Qed.

(** A connection's identifier is the one its name was given. *)
Definition identified (ids : gmap string string) (c : Connection) : Prop := conn_ID c = default ""%string (ids !! conn_Name c).

Lemma compile_entry_identified ids internal management acc entry acc' :
  Forall (identified ids) acc.1 -> compile_entry ids internal management acc entry = Ok acc' -> Forall (identified ids) acc'.1.
Proof.
  intros Hacc. unfold compile_entry. destruct (buildConnection _ _) as [c|e] eqn:Hb.
  - intros [= <-]. cbn. apply Forall_app. split; [done|]. constructor; [|constructor]. apply buildConnection_id in Hb as [Hid Hn].
    unfold identified. by repeat case_bool_decide; cbn; rewrite Hid, Hn.
  - destruct (must_build entry); [done|]. by intros [= <-].
Qed.

Lemma claim_parents_keep {B} (f : Connection -> B) declared indexes cs c cs' : (forall c, f (add_roles RoleParent c) = f c) ->
  claim_parents declared indexes cs c = Ok cs' -> f <$> cs' = f <$> cs.
Proof.
  intros Hf. unfold claim_parents. destruct (conn_Link c) as [link|]; [|by intros [= <-]].
  apply (fold_res_ind _ (fun _ r => f <$> r = f <$> cs)); [done|]. intros dn x todo b b' _ Hb. unfold claim_parent.
  destruct (is_empty x); [by intros [= <-]|]. destruct (negb _); [done|]. destruct (indexes !! x) as [i|]; [|done]. intros [= <-].
  rewrite <- Hb. unfold mark_parent. apply list_eq. intros j. rewrite !list_lookup_fmap. destruct (decide (i = j)) as [->|Hne].
  - rewrite list_lookup_alter_eq. destruct (b !! j) as [c0|]; cbn; [|done]. by rewrite Hf.
  - by rewrite list_lookup_alter_ne.
Qed.

Lemma dependencies_keep {B} (f : Connection -> B) connections declared internal management cs : (forall c, f (add_roles RoleParent c) = f c) ->
  validateConnectionDependencies connections declared internal management = Ok cs -> f <$> cs = f <$> connections.
Proof.
  intros Hf. unfold validateConnectionDependencies. intros (? & _ & H)%res_bind_ok. apply res_bind_ok in H as (? & _ & H).
  apply res_bind_ok in H as (? & _ & H). apply res_bind_ok in H as (cs' & Hclaim & H). apply res_bind_ok in H as (? & _ & H).
  apply res_bind_ok in H as (? & _ & [= <-]). revert Hclaim. apply (fold_res_ind _ (fun _ r => f <$> r = f <$> connections)); [done|].
  intros dn y todo b b' _ Hb Hc. rewrite <- Hb. by eapply claim_parents_keep.
Qed.

Lemma compileConnections_identified entries ids internal management r :
  compileConnections entries ids internal management = Ok r -> Forall (identified ids) r.1.
Proof.
  unfold compileConnections. intros (? & _ & H)%res_bind_ok. apply res_bind_ok in H as (? & _ & H). apply res_bind_ok in H as (acc & Hacc & H).
  apply res_bind_ok in H as (cs & Hcs & [= <-]). cbn.
  assert (Forall (identified ids) acc.1) as Hid.
  { revert Hacc. apply (fold_res_ind _ (fun _ acc => Forall (identified ids) acc.1)); [constructor|]. intros. by eapply compile_entry_identified. }
  apply (dependencies_keep (fun c => (conn_ID c, conn_Name c))) in Hcs; [|done].
  rewrite Forall_forall in *. intros c Hc. assert ((conn_ID c, conn_Name c) ∈ (fun c => (conn_ID c, conn_Name c)) <$> cs) as Hin
    by (by apply (list_elem_of_fmap_2 (fun c => (conn_ID c, conn_Name c)))).
  rewrite Hcs in Hin. apply list_elem_of_fmap in Hin as (c0 & [= E1 E2] & Hc0). unfold identified. rewrite E1, E2. by apply Hid.
Qed.

(** ** Projected providers *)

Lemma by_name_in cs n c : by_name cs !! n = Some c -> c ∈ cs /\ conn_Name c = n.
Proof.
  unfold by_name. assert (forall m : gmap string Connection, (forall n c, m !! n = Some c -> c ∈ cs /\ conn_Name c = n) ->
    forall l, (forall c, c ∈ l -> c ∈ cs) -> forall n c, fold_left (fun m c => <[conn_Name c := c]> m) l m !! n = Some c -> c ∈ cs /\ conn_Name c = n) as H.
  { intros m Hm l. revert m Hm. induction l as [|x l IH]; intros m Hm Hl n0 c0; cbn; [apply Hm|]. apply IH; [|intros; apply Hl; by right].
    intros n1 c1. rewrite lookup_insert_Some. intros [[<- <-]|[_ H]]; [split; [apply Hl; by left|done]|by apply Hm]. }
  apply (H ∅); [intros n0 c0; by rewrite lookup_empty|done].
Qed.

Lemma buildProvider_iface entry w r : buildProvider entry w = Ok r -> we_Iface r.1 = e_Name entry.
Proof.
  unfold buildProvider. destruct (is_empty _); [done|]. intros (? & _ & H)%res_bind_ok. apply res_bind_ok in H as (? & _ & H).
  apply res_bind_ok in H as (? & _ & H). apply res_bind_ok in H as (? & _ & H). apply res_bind_ok in H as (? & _ & H). apply res_bind_ok in H as (? & _ & H).
  destruct (ww_Health w); [|by injection H as <-]. by apply res_bind_ok in H as (? & _ & [= <-]).
Qed.

(** Every projected provider stands on a compiled connection of its name. *)
Definition grounded_provider (ids : gmap string string) (connections : list Connection) (WAN : gmap string IfMgrWANEntry) : Prop :=
  forall id a, WAN !! id = Some a -> exists c, c ∈ connections /\ conn_Name c = we_Iface a /\ id = default ""%string (ids !! we_Iface a).

Lemma projections_grounded entries connections ids rejected p :
  compileProviderProjections entries connections ids rejected = Ok p -> grounded_provider ids connections (pj_WAN p).
Proof.
  unfold compileProviderProjections. intros (? & _ & H)%res_bind_ok. revert H.
  apply (fold_res_ind _ (fun _ p => grounded_provider ids connections (pj_WAN p))); [intros id a; cbn; by rewrite lookup_empty|].
  intros dn entry todo b b' _ Hb. unfold compile_provider. destruct (e_WAN entry) as [w|]; [|by intros [= <-]].
  destruct (by_name connections !! e_Name entry) as [c|] eqn:Hc; [|by intros [= <-]]. apply by_name_in in Hc as [Hc Hn].
  destruct (buildProvider entry w) as [[routing probe]|e] eqn:Hp.
  - intros (owners & _ & [= <-])%res_bind_ok. cbn. intros id a. rewrite lookup_insert_Some. intros [[<- <-]|[_ H]]; [|by apply Hb].
    apply buildProvider_iface in Hp. cbn in Hp |- *. exists c. by rewrite Hp.
  - case_bool_decide; [done|]. by intros [= <-].
Qed.

(** ** The firewall of the document *)

(** What a local permit of the document allows: DHCP replies on a provider that is no tunnel,
    the routing daemons on the internal interface, and a tunnel's packets from its remote. *)
Definition permit_expected (doc : document) (connections : list Connection) (permit : TransportPermit) : Prop :=
  (exists entry, entry ∈ doc_Interface doc /\ is_Some (e_WAN entry) /\ (link ← e_Link entry; li_Tunnel link) = None /\
     (permit = newPermit (e_Name entry) ipv4 "udp" 67 68 \/ permit = newPermit (e_Name entry) ipv6 "udp" 547 546)) \/
  (tp_InputInterface permit = ro_InternalIface (sg_Routes (doc_SteeringGroup doc)) /\
     (tp_Protocol permit, tp_DestinationPort permit) ∈ [("tcp", 179); ("udp", 3784); ("udp", 3785)]%string) \/
  (exists conn link t, conn ∈ connections /\ conn_Link conn = Some link /\ link_Tunnel link = Some t /\ permit = tunnelPermit t).

Lemma baseline_permits entries r : fold_res baseline_provider ([], []) (document_providers entries) = Ok r ->
  forall permit, permit ∈ r.2 -> exists entry, entry ∈ entries /\ is_Some (e_WAN entry) /\ (link ← e_Link entry; li_Tunnel link) = None /\
     (permit = newPermit (e_Name entry) ipv4 "udp" 67 68 \/ permit = newPermit (e_Name entry) ipv6 "udp" 547 546).
Proof.
  apply (fold_res_ind _ (fun _ r => forall permit, permit ∈ r.2 -> exists entry, entry ∈ entries /\ is_Some (e_WAN entry) /\
    (link ← e_Link entry; li_Tunnel link) = None /\
    (permit = newPermit (e_Name entry) ipv4 "udp" 67 68 \/ permit = newPermit (e_Name entry) ipv6 "udp" 547 546))); [by intros permit ?%not_elem_of_nil|].
  intros dn x todo b b' Hxs Hb (? & _ & [= <-])%res_bind_ok permit. cbn. rewrite elem_of_app. intros [Hin|Hin]; [by apply Hb|].
  assert (x ∈ document_providers entries) as Hx by (rewrite Hxs; apply elem_of_app; right; by left). unfold document_providers in Hx.
  apply list_elem_of_omap in Hx as (entry & Hentry & E). destruct (is_some (e_WAN entry)) eqn:Ew; [|done]. injection E as <-. cbn in Hin.
  destruct (link ← e_Link entry; li_Tunnel link) as [t|] eqn:Et; cbn in Hin; [by apply not_elem_of_nil in Hin|].
  exists entry. split; [done|]. apply is_some_true in Ew as [w ->]. split; [by eexists|]. split; [done|].
  rewrite !elem_of_cons in Hin. destruct Hin as [->|[->|[]%not_elem_of_nil]]; [by left|by right].
Qed.

Lemma tunnelLinks_in connections n t : tunnelLinks connections !! n = Some t ->
  exists conn link, conn ∈ connections /\ conn_Link conn = Some link /\ link_Tunnel link = Some t.
Proof.
  unfold tunnelLinks. cut (forall l (m : gmap string Tunnel), (forall c, c ∈ l -> c ∈ connections) ->
    (forall n t, m !! n = Some t -> exists conn link, conn ∈ connections /\ conn_Link conn = Some link /\ link_Tunnel link = Some t) ->
    forall n t, fold_left (fun m c => match conn_tunnel c with Some t => <[conn_Name c := t]> m | None => m end) l m !! n = Some t ->
    exists conn link, conn ∈ connections /\ conn_Link conn = Some link /\ link_Tunnel link = Some t).
  { intros H. apply (H connections ∅); [done|]. intros n0 t0. by rewrite lookup_empty. }
  induction l as [|c l IH]; intros m Hl Hm n0 t0; cbn; [apply Hm|]. apply IH; [intros; apply Hl; by right|].
  intros n1 t1. unfold conn_tunnel. destruct (conn_Link c) as [link|] eqn:El; cbn; [|apply Hm]. destruct (link_Tunnel link) as [t2|] eqn:Et; [|apply Hm].
  rewrite lookup_insert_Some. intros [[<- <-]|[_ H]]; [|by eapply Hm]. exists c, link. split; [apply Hl; by left|done].
Qed.

Lemma populated internal w ids WAN connections entries permits acc :
  fold_res (populate_provider internal w ids WAN (tunnelLinks connections)) (mkProviderAcc [] [] permits "" 0) entries = Ok acc ->
  Forall (fun p => fp_InternalInterface p = internal) (pa_Paths acc) /\
  forall permit, permit ∈ pa_Permits acc -> permit ∈ permits \/
    exists conn link t, conn ∈ connections /\ conn_Link conn = Some link /\ link_Tunnel link = Some t /\ permit = tunnelPermit t.
Proof.
  apply (fold_res_ind _ (fun _ acc => Forall (fun p => fp_InternalInterface p = internal) (pa_Paths acc) /\
    forall permit, permit ∈ pa_Permits acc -> permit ∈ permits \/
      exists conn link t, conn ∈ connections /\ conn_Link conn = Some link /\ link_Tunnel link = Some t /\ permit = tunnelPermit t)).
  { split; [constructor|]. intros permit H. by left. }
  intros dn entry todo b b' _ [Hp Hl]. unfold populate_provider. destruct (e_WAN entry) as [provider|]; [|by intros [= <-]].
  destruct (WAN !! _) as [routing|]; [|by intros [= <-]]. intros (? & _ & H)%res_bind_ok. apply res_bind_ok in H as (? & _ & H).
  apply res_bind_ok in H as (? & _ & [= <-]). cbn. split; [apply Forall_app; split; [done|by repeat constructor]|].
  intros permit [Hin|Hin]%elem_of_app; [by apply Hl|]. destruct (tunnelLinks connections !! e_Name entry) as [t|] eqn:Et; [|by apply not_elem_of_nil in Hin].
  apply list_elem_of_singleton in Hin as ->. right. apply tunnelLinks_in in Et as (conn & link & ? & ? & ?). by exists conn, link, t.
Qed.

Lemma built_firewall doc guestType ids connections WAN fw : buildFirewall doc guestType ids connections WAN = Ok fw ->
  FirewallConfig_Validate fw = Ok tt /\ (fc_Enabled fw = true <-> is_Some (sg_Firewall (doc_SteeringGroup doc))) /\
  Forall (fun p => fp_InternalInterface p = fc_InternalInterface fw) (fc_Paths fw) /\
  forall permit, permit ∈ fc_LocalPermits fw -> permit_expected doc connections permit.
Proof.
  unfold buildFirewall. destruct (sg_Firewall (doc_SteeringGroup doc)) as [w|].
  2:{ intros [= <-]. cbn. split_and!; [done|split; [done|by intros [? ?]]|constructor|by intros permit ?%not_elem_of_nil]. }
  intros (bl & Hbl & H)%res_bind_ok. apply res_bind_ok in H as (network & _ & H). apply res_bind_ok in H as (acc & Hacc & H).
  apply res_bind_ok in H as (pin & _ & H). apply res_bind_ok in H as (v4 & _ & H). apply res_bind_ok in H as (v6 & _ & H).
  apply res_bind_ok in H as ([] & Hv & [= <-]). split; [done|]. cbn [fc_Enabled fc_Paths fc_InternalInterface fc_LocalPermits]. split; [split; [by eexists|done]|].
  unfold populateFirewallProviders in Hacc. apply res_bind_ok in Hacc as (? & _ & Hacc). apply res_bind_ok in Hacc as (acc' & Hpop & Hacc).
  apply res_bind_ok in Hacc as (? & _ & [= <-]). apply populated in Hpop as [Hpaths Hpermits]. split; [done|].
  unfold buildBaseline in Hbl. apply res_bind_ok in Hbl as (services & _ & Hbl). apply res_bind_ok in Hbl as (r & Hr & Hbl).
  apply res_bind_ok in Hbl as (? & _ & Hbl). apply res_bind_ok in Hbl as (? & _ & Hbl). apply res_bind_ok in Hbl as (? & _ & [= <-]). cbn in Hpermits.
  intros permit Hin. destruct (Hpermits permit Hin) as [[Hin'|Hin']%elem_of_app|Ht]; [left; by eapply baseline_permits| |by right; right].
  right. left. rewrite !elem_of_cons in Hin'.
  destruct Hin' as [->|[->|[->|[->|[->|[->|[]%not_elem_of_nil] ] ] ] ] ]; (split; [done|]; rewrite !elem_of_cons; cbn; auto).
Qed.

(** ** Policy rules *)

Lemma family_rule_shape p name source r : r ∈ family_policy_rules p name source ->
  pr_ConnectionID r = pp_ConnectionID p /\ pr_Family r = name /\
  (pr_Kind r = PolicyRuleFwmark /\ pr_Priority r = MarkPriority p \/ pr_Kind r = PolicyRuleSource /\ pr_Priority r = SourcePriority p).
Proof.
  unfold family_policy_rules. destruct source as [s|]; [|by intros ?%not_elem_of_nil]. intros [->|Hr]%elem_of_cons; [naive_solver|].
  destruct (_ || _); [|by apply not_elem_of_nil in Hr]. apply list_elem_of_singleton in Hr as ->. naive_solver.
Qed.

Definition policy_rule_of (WAN : gmap string IfMgrWANEntry) (k : PolicyRuleKey) (r : PolicyRule) : Prop :=
  k = (pr_ConnectionID r, pr_Family r, pr_Kind r) /\ exists a, WAN !! pr_ConnectionID r = Some a /\
  (pr_Kind r = PolicyRuleFwmark /\ pr_Priority r = we_FwMarkPrio a \/ pr_Kind r = PolicyRuleSource /\ pr_Priority r = we_FromPrio a).

Lemma priority_of r a : (pr_Kind r = PolicyRuleFwmark /\ pr_Priority r = we_FwMarkPrio a \/ pr_Kind r = PolicyRuleSource /\ pr_Priority r = we_FromPrio a) ->
  pr_Priority r ∈ entry_priorities a.
Proof. unfold entry_priorities. intros [[_ ->]|[_ ->]]; rewrite !elem_of_cons; auto. Qed.

Lemma provider_rule_shape id e mark r : r ∈ ConfiguredPolicyRules (provider_policy id e mark) ->
  pr_ConnectionID r = id /\
  (pr_Kind r = PolicyRuleFwmark /\ pr_Priority r = we_FwMarkPrio e \/ pr_Kind r = PolicyRuleSource /\ pr_Priority r = we_FromPrio e).
Proof.
  unfold ConfiguredPolicyRules, provider_policy. destruct (IPv6Translation_PolicySource _) as [[pt ec] ext].
  rewrite elem_of_app. by intros [(H1 & _ & H3)%family_rule_shape|(H1 & _ & H3)%family_rule_shape].
Qed.

Lemma policy_rules_shape c rules : PolicyRules c = Ok rules -> forall k r, rules !! k = Some r -> policy_rule_of (cfg_WAN c) k r.
Proof.
  unfold PolicyRules. apply (fold_res_ind _ (fun _ rules => forall k r, rules !! k = Some r -> policy_rule_of (cfg_WAN c) k r)).
  { intros k r. by rewrite lookup_empty. }
  intros dn [id e] todo b b' Hl Hb. assert (cfg_WAN c !! id = Some e) as He by (apply elem_of_map_to_list; rewrite Hl; apply elem_of_app; right; by left).
  unfold add_policy_rules. cbn [fst snd]. intros (? & _ & H)%res_bind_ok. apply res_bind_ok in H as (mark & _ & H). apply res_bind_ok in H as (? & _ & H).
  apply res_bind_ok in H as (? & _ & H). revert H. apply (fold_res_ind _ (fun _ rules => forall k r, rules !! k = Some r -> policy_rule_of (cfg_WAN c) k r)); [done|].
  intros dn' rule todo' b1 b2 Hrules Hb1. unfold add_policy_rule. intros (? & _ & [= <-])%res_bind_ok k r.
  rewrite lookup_insert_Some. intros [[<- <-]|[_ H]]; [|by apply Hb1]. split; [done|].
  destruct (provider_rule_shape id e mark rule) as [-> Hs]; [rewrite Hrules; apply elem_of_app; right; by left|]. by exists e.
Qed.

Lemma build_providers doc c : build doc = Ok c ->
  provider_set_ok (cfg_ReservedTables c) (cfg_Connections c) (cfg_WAN c) /\ cfg_WAN c <> ∅ /\
  exists ids connections, Forall (identified ids) connections /\ grounded_provider ids connections (cfg_WAN c) /\
    cfg_Connections c = List.filter (is_active (cfg_WAN c)) connections.
Proof.
  unfold build. intros (loaded & _ & H)%res_bind_ok. apply res_bind_ok in H as (? & _ & H). destruct (sg_ProbeTimeout _); [|done].
  apply res_bind_ok in H as (ids & _ & H). apply res_bind_ok in H as (built & Hbuilt%compileConnections_identified & H).
  apply res_bind_ok in H as (p & Hp%projections_grounded & H). apply res_bind_ok in H as (? & _ & H). apply res_bind_ok in H as (? & Hany & H).
  apply res_bind_ok in H as (? & Hset%provider_set_checked & H). apply res_bind_ok in H as (claims & _ & H). apply res_bind_ok in H as (fw & _ & [= <-]).
  cbn. split_and!; [done|unfold check_any_provider in Hany; by case_bool_decide|]. by exists ids.1, built.1.
Qed.

(** ** Theorems *)

(** C20. A loaded document has at least one provider, and its providers do not collide: no two
    share a routing table, a firewall mark, a rule priority or the external address of a
    static mapping, a provider's own two priorities differ, no table is one of the kernel's or
    a reserved one, every weight is at least one, the metrics of all BGP sessions differ from
    each other and from every configured IPv6 route, and a session backs up only other known
    connections.  Every provider stands on an accepted connection with its identifier and
    interface, and every accepted connection with the provider role has its entry. *)
Theorem loaded_providers_sound doc c : build doc = Ok c ->
  cfg_WAN c <> ∅ /\ provider_set_ok (cfg_ReservedTables c) (cfg_Connections c) (cfg_WAN c) /\
  (forall id a, cfg_WAN c !! id = Some a -> exists conn, conn ∈ cfg_Connections c /\ conn_ID conn = id /\ conn_Name conn = we_Iface a) /\
  (forall conn, conn ∈ cfg_Connections c -> has_role (conn_Roles conn) RoleProvider = true -> is_Some (cfg_WAN c !! conn_ID conn)).
Proof.
  intros (Hset & Hne & ids & cs & Hid & Hp & E)%build_providers. split; [done|]. split; [done|]. rewrite E. split.
  - intros id a Ha. destruct (Hp id a Ha) as (conn & Hc & Hn & Hi). rewrite Forall_forall in Hid. pose proof (Hid _ Hc) as Hi'. unfold identified in Hi'.
    rewrite Hn, <- Hi in Hi'. exists conn. split_and!; [|done|done]. apply list_elem_of_In, filter_In. split; [by apply list_elem_of_In|].
    unfold is_active. by rewrite Hi', Ha, orb_true_r.
  - intros conn [_ Ha]%list_elem_of_In%filter_In Hr. unfold is_active in Ha. rewrite Hr in Ha. cbn in Ha. by apply is_some_true in Ha as [a ->].
Qed.


(** The policy rules published for a loaded document never compete: two rules of one
    address family that have the same priority are the same rule. *)
Lemma policy_rules_distinct doc c rules : build doc = Ok c -> PolicyRules c = Ok rules ->
  forall k1 k2 r1 r2, rules !! k1 = Some r1 -> rules !! k2 = Some r2 ->
    pr_Family r1 = pr_Family r2 -> pr_Priority r1 = pr_Priority r2 -> k1 = k2.
Proof.
  intros Hc Hr k1 k2 r1 r2 H1 H2 Hf Hp.
  destruct (policy_rules_shape c rules Hr k1 r1 H1) as (-> & a & Ha & Hka). destruct (policy_rules_shape c rules Hr k2 r2 H2) as (-> & b & Hb & Hkb).
  destruct (build_providers doc c Hc) as [[ ? ? [Hone Hown] ? ? ? ? ] _].
  assert (pr_ConnectionID r1 = pr_ConnectionID r2) as Hid.
  { apply (Hone _ _ a b (pr_Priority r1) Ha Hb); [by eapply priority_of|rewrite Hp; by eapply priority_of]. }
  rewrite Hid in Ha. assert (a = b) as <- by congruence. pose proof (Hown _ _ Ha) as Hne.
  rewrite Hid, Hf. destruct Hka as [[K1 E1]|[K1 E1]], Hkb as [[K2 E2]|[K2 E2]]; rewrite K1, K2; congruence.
Qed.
End Props.
