(* ===== verification/GatewayBgp.v ===== *)
(** * From the loaded document to the BGP sessions module
      (cmd/mwan/{ifmgr_module_configs,ifmgr_bgp_sessions}.go, networkjson.go)

    The part of the command that turns the loaded network configuration into the modules'
    shared provider list, and that list into the configuration of the sessions module. *)

From S2P Require Import Prelude GoStrings NptPolicy Health Intent BgpConfig BgpFib BgpModule NetWire NetLink NetConn NetGraph NetBgp NetProvider NetClaims Firewall NetFirewall NetDocument.
From S2P Require Import NetProps.

Local Open Scope Z_scope.

(** The routes section of the WAN module: the internal link and network. *)
Record WANRoutesSection := mkRoutesSection { wr_InternalIface : string; wr_InternalNetV4 : string; wr_HealthStateFile : string }.

(** What the builders read of the daemon's interface manager section. *)
Record IfMgrSection := mkIfMgrSection {
  im_WAN : gmap string IfMgrWANEntry;
  im_Connections : list Connection;
  im_InternalPrefix : string;
  im_OpnsenseEdgeV6 : string;
  im_MwanbrEdgeV6 : string;
  im_Routes : option WANRoutesSection;
}.

(** [Config.Apply], on that part: the paths stay what they were. *)
Definition Apply_network (c : Config) (section : IfMgrSection) : IfMgrSection :=
  mkIfMgrSection (cfg_WAN c) (cfg_Connections c) (cfg_InternalPrefix c) (cfg_OpnsenseEdgeV6 c) (cfg_MwanbrEdgeV6 c)
    (Some (mkRoutesSection (cfg_InternalIface c) (cfg_InternalNetV4 c) (from_option wr_HealthStateFile ""%string (im_Routes section)))).

Record sharedWAN := mkSharedWAN {
  sw_SelectionEnabled : option bool;
  sw_ref : WANRef;
  sw_Owned : bool;
  sw_TableID : Z;
  sw_FwMark : Z;
  sw_FwMarkPrio : Z;
  sw_FromPrio : Z;
  sw_TranslationV4 : option IPv4Translation;
  sw_TranslationV6 : option IPv6Translation;
  sw_V4Source : string;
  sw_Tier : Z;
  sw_Weight : Z;
  sw_Tunnel : option Tunnel;
  sw_BGPSessions : list BGPSession;
}.

Record sharedWANInputs := mkSharedWANInputs {
  si_InternalIface : string;
  si_InternalNetV4 : string;
  si_WANs : list sharedWAN;
  si_InternalPrefix : string;
  si_OpnsenseEdgeV6 : string;
  si_MwanbrEdgeV6 : string;
}.

(** A later connection of the same identifier replaces an earlier one. *)
Definition owned_ids (connections : list Connection) : gmap string bool :=
  fold_left (fun m c => <[conn_ID c := bool_decide (conn_Owner c = OwnerMWAN)]> m) connections ∅.
Definition tunnel_ids (connections : list Connection) : gmap string Tunnel :=
  fold_left (fun m c => match conn_tunnel c with Some t => <[conn_ID c := t]> m | None => m end) connections ∅.

Definition shared_wan (connections : list Connection) (e : string * IfMgrWANEntry) : sharedWAN :=
  let '(name, entry) := e in
  mkSharedWAN (we_SelectionEnabled entry)
    (mkWANRef name (if is_empty (we_ProviderName entry) then name else we_ProviderName entry) (we_Iface entry))
    (default false (owned_ids connections !! name)) (we_TableID entry) (we_FwMark entry) (we_FwMarkPrio entry) (we_FromPrio entry)
    (we_TranslationV4 entry) (we_TranslationV6 entry) (we_V4Source entry) (we_Tier entry) (we_Weight entry)
    (tunnel_ids connections !! name) (we_BGPSessions entry).

Definition buildWANRefs (ifmgrCfg : IfMgrSection) : sharedWANInputs :=
  mkSharedWANInputs (from_option wr_InternalIface ""%string (im_Routes ifmgrCfg)) (from_option wr_InternalNetV4 ""%string (im_Routes ifmgrCfg))
    (shared_wan (im_Connections ifmgrCfg) <$> sorted_wans (im_WAN ifmgrCfg))
    (im_InternalPrefix ifmgrCfg) (im_OpnsenseEdgeV6 ifmgrCfg) (im_MwanbrEdgeV6 ifmgrCfg).

(** [wanFwMark]: a mark is an unsigned 32-bit number. *)
Definition wanFwMark (w : sharedWAN) : res Z :=
  (check reject_if (sw_FwMark w <? 0) "fw-mark must be >= 0" ;;
   check reject_if (max_uint32 <? sw_FwMark w) "fw-mark exceeds uint32" ;;
   Ok (sw_FwMark w))%go.

(** ** The sessions module (ifmgr_bgp_sessions.go) *)

Definition ipv6MainMetric (metric : Z) : Z := if metric =? 0 then 1024 else metric.

Section Gateway.
Context `{NT : NetText}.

Definition via_text (gateway : Addr) : string := if addr_valid gateway then addr_String gateway else ""%string.

Definition connection_ipv6_routes (connection : Connection) : list ConfiguredRoute :=
  match conn_IPv6 connection with
  | None => []
  | Some ipv6 =>
      let family := v6_Family ipv6 in
      (if addr_valid (fam_Gateway family) || is_some (fam_RouteMetric family)
       then [mkConfiguredRoute (conn_Name connection) (prefix_String (family_default "ipv6")) (via_text (fam_Gateway family))
               (ipv6MainMetric (default 0 (fam_RouteMetric family)))] else [])
      ++ ((fun r => mkConfiguredRoute (conn_Name connection) (prefix_String (Masked (ri_Destination r))) (via_text (ri_Gateway r))
                      (ipv6MainMetric (ri_Metric r))) <$> fam_Routes family)
  end.

Definition configuredIPv6Routes (connections : list Connection) : list ConfiguredRoute := c ← connections; connection_ipv6_routes c.

Definition interface_tables (wans : list sharedWAN) : gmap string Z :=
  fold_left (fun m w => <[ref_Iface (sw_ref w) := sw_TableID w]> m) wans ∅.

Definition session_entry (tables : gmap string Z) (w : sharedWAN) (configured : BGPSession) : SessionEntry :=
  match sw_Tunnel w with
  | Some t => mkSessionEntry (sw_ref w) (bs_Session configured) (bs_BackupFor configured)
                (prefix_String (PrefixFrom (tun_Remote t) (BitLen (tun_Remote t)))) (default 0 (tables !! Underlay t))
  | None => mkSessionEntry (sw_ref w) (bs_Session configured) (bs_BackupFor configured) "" 0
  end.

(** [stateFile]: of the module's own section, when there is one. *)
Definition buildBGPSessionsConfig (shared : sharedWANInputs) (stateFile : option string) (connections : list Connection) : ModuleConfig :=
  let tables := interface_tables (si_WANs shared) in
  mkModuleConfig (w ← si_WANs shared; session_entry tables w <$> sw_BGPSessions w) (default ""%string stateFile)
    (configuredIPv6Routes connections).

Definition set_router_id (routerID : Addr) (entry : SessionEntry) : SessionEntry :=
  let c := se_Config entry in
  mkSessionEntry (se_ref entry)
    (mkSessionConfig (sc_Name c) routerID (Families c) (LocalASN c) (RemoteASN c) (PeerAddress c) (PeerPort c) (LocalAddress c)
       (sc_Interface c) (MultihopTTL c) (KeepaliveSeconds c) (HoldSeconds c) (ConnectRetrySeconds c) (GracefulRestartSeconds c)
       (Import_ c) (Export_ c) (Tables c) (RouteMetric c))
    (BackupFor entry) (EndpointDest entry) (EndpointTable entry).

Definition withSessionRouterID (settings : ModuleConfig) (routerIDText : string) : res ModuleConfig :=
  match mc_Sessions settings with
  | [] => Ok settings
  | sessions =>
      match ParseAddr routerIDText with
      | None => Err "invalid [bgp] router_id for external bgp sessions"
      | Some routerID =>
          (check ValidateRouterID routerID ;;
           Ok (mkModuleConfig (set_router_id routerID <$> sessions) (StateFile settings) (ConfiguredRoutes settings)))%go
      end
  end.

Definition bgpRouteMetrics (sessions : list BGPSession) : list Z := (fun s => RouteMetric (bs_Session s)) <$> sessions.
End Gateway.

(** ** The sessions of a loaded document

    What [build] accepts satisfies what the sessions module needs: the sessions it runs are
    well formed and no two of them own the same routes. *)

(** ** Communities *)

Lemma scan_udec bits n : 0 <= n < 2 ^ bits -> scan_uint bits (udec n) = Some n.
Proof.
  intros Hn. unfold scan_uint. rewrite (proj2 (is_empty_false _)) by apply udec_nonempty. rewrite digits_val_udec by lia.
  by rewrite (proj2 (Z.ltb_lt _ _)) by lia.
Qed.

Lemma scan_range bits s n : scan_uint bits s = Some n -> n < 2 ^ bits.
Proof. unfold scan_uint. destruct (is_empty s); [done|]. destruct (digits_val 0 s) as [v|]; [|done]. destruct (v <? 2 ^ bits) eqn:E; [|done]. intros [= <-]. lia. Qed.

Lemma udec_lacks_colon n : lacks (of_val 58) (udec n) = true.
Proof. eapply all_chars_impl; [|apply all_digits_udec]. intros c Hc. unfold neqc. destruct (Ascii.eqb_spec (of_val 58) c) as [<-|]; [done|done]. Qed.

Lemma udec_nonneg n : 0 <= n -> itoa n = udec n.
Proof. intros Hn. unfold itoa. by rewrite (proj2 (Z.ltb_ge n 0)). Qed.

Lemma digits_val_nonneg acc s v : 0 <= acc -> digits_val acc s = Some v -> 0 <= v.
Proof.
  revert acc. induction s as [|c s IH]; intros acc Ha; cbn; [by intros [= <-]|]. destruct (is_digit c) eqn:E; [|done]. apply IH.
  unfold is_digit in E. apply andb_true_iff in E as [E _]. lia.
Qed.

Lemma scan_nonneg bits s n : scan_uint bits s = Some n -> 0 <= n < 2 ^ bits.
Proof.
  intros H. split; [|by eapply scan_range]. unfold scan_uint in H. destruct (is_empty s); [done|]. destruct (digits_val 0 s) as [v|] eqn:E; [|done].
  apply digits_val_nonneg in E; [|done]. destruct (v <? 2 ^ bits); [|done]. by injection H as <-.
Qed.

Lemma split_colon n rest : split (of_val 58) (udec n +:+ ":" +:+ rest) = udec n :: split (of_val 58) rest.
Proof. apply (split_app (of_val 58)), udec_lacks_colon. Qed.

Lemma split_last n : split (of_val 58) (udec n) = [udec n].
Proof. apply split_lacks, udec_lacks_colon. Qed.

Section Sessions.
Context `{NT : NetText}.

(** ** One session *)

Definition session_sound (s : BGPSession) : Prop :=
  session_wf (bs_Session s) /\ Tables (bs_Session s) = [] /\
  RouteMetric (bs_Session s) <> 0 /\ RouteMetric (bs_Session s) <> KernelDefaultIPv6Metric.

(** The decoder gives an unsigned restart time. *)
Definition restart_decoded (w : bgpSessionWire) : Prop := forall restart, bw_GracefulRestartTime w = Some restart -> 0 <= restart.

Lemma timers_restart label w c c' : setBGPSessionTimers label w c = Ok c' ->
  GracefulRestartSeconds c' = default 0 (bw_GracefulRestartTime w) /\ Tables c' = Tables c.
Proof.
  unfold setBGPSessionTimers. destruct (bw_Hold w); [|done]. destruct (bw_Keepalive w); [|done].
  intros (? & _ & H)%res_bind_ok. repeat (apply res_bind_ok in H as (? & _ & H)). by injection H as <-.
Qed.

Lemma peers_tables label w c c' : setBGPSessionPeers label w c = Ok c' -> Tables c' = Tables c.
Proof. unfold setBGPSessionPeers. intros (? & _ & H)%res_bind_ok. repeat (apply res_bind_ok in H as (? & _ & H)). by injection H as <-. Qed.

Lemma built_session label w s : buildBGPSession label w = Ok s ->
  session_sound s /\ (restart_decoded w -> 0 <= GracefulRestartSeconds (bs_Session s)).
Proof.
  unfold buildBGPSession. intros (c1 & H1%peers_tables & H)%res_bind_ok. apply res_bind_ok in H as (fams & _ & H).
  apply res_bind_ok in H as (c2 & [Hr Ht]%timers_restart & H). destruct (bw_RouteMetric w) as [metric|]; [|done].
  apply res_bind_ok in H as (? & Hm%reject_if_ok & H). apply res_bind_ok in H as (im & _ & H). apply res_bind_ok in H as (ex & _ & H).
  destruct (Validated _) as [v|] eqn:Hv; [|done]. injection H as <-. unfold session_sound. cbn.
  destruct (validated_fields _ _ Hv) as (E1 & E2 & E3). cbn in E1, E2, E3. rewrite E1, E2, E3, Ht, H1. unfold metric_bad in Hm.
  apply orb_false_iff in Hm as [M1 M2]. split; [split_and!; [by eapply validated_session_wellformed|done|lia|lia]|].
  intros Hd. rewrite Hr. unfold restart_decoded in Hd. destruct (bw_GracefulRestartTime w); cbn; [by apply Hd|done].
Qed.

(** ** All sessions of the document *)

Section All.
Context (P : BGPSession -> Prop).

Lemma built_sessions label entry provider l :
  (forall w label s, w ∈ ww_BGPSessions provider -> buildBGPSession label w = Ok s -> P s) ->
  buildBGPSessions label entry provider = Ok l -> Forall P l.
Proof.
  intros HP. unfold buildBGPSessions. destruct (ww_BGPSessions provider) as [|w0 ws] eqn:E; [intros [= <-]; constructor|].
  intros (? & _ & H)%res_bind_ok. apply res_bind_ok in H as (acc & Hacc & [= <-]). revert Hacc.
  apply (fold_res_ind _ (fun _ acc => Forall P acc.2)); [constructor|]. intros dn w todo b b' Hl Hb. unfold build_bgp_session_step.
  intros (? & _ & H)%res_bind_ok. apply res_bind_ok in H as (? & _ & H). apply res_bind_ok in H as (s & Hs & [= <-]). cbn.
  apply Forall_app. split; [done|]. constructor; [|constructor]. eapply HP; [|exact Hs]. rewrite Hl. apply elem_of_app. right. by left.
Qed.

Lemma provider_sessions entry provider r :
  (forall w label s, w ∈ ww_BGPSessions provider -> buildBGPSession label w = Ok s -> P s) ->
  buildProvider entry provider = Ok r -> Forall P (we_BGPSessions r.1).
Proof.
  intros HP. unfold buildProvider. destruct (is_empty _); [done|]. intros (? & _ & H)%res_bind_ok. apply res_bind_ok in H as (? & _ & H).
  apply res_bind_ok in H as (? & _ & H). apply res_bind_ok in H as (? & _ & H). apply res_bind_ok in H as (? & _ & H).
  apply res_bind_ok in H as (l & Hl & H). apply built_sessions in Hl; [|done]. destruct (ww_Health provider); [|by injection H as <-].
  by apply res_bind_ok in H as (? & _ & [= <-]).
Qed.

Definition all_wires (doc : document) (Q : bgpSessionWire -> Prop) : Prop :=
  forall entry provider w, entry ∈ doc_Interface doc -> e_WAN entry = Some provider -> w ∈ ww_BGPSessions provider -> Q w.

Lemma loaded_sessions doc c : all_wires doc (fun w => forall label s, buildBGPSession label w = Ok s -> P s) -> build doc = Ok c ->
  forall id a, cfg_WAN c !! id = Some a -> Forall P (we_BGPSessions a).
Proof.
  intros HP. unfold build. intros (loaded & _ & H)%res_bind_ok. apply res_bind_ok in H as (? & _ & H). destruct (sg_ProbeTimeout _); [|done].
  apply res_bind_ok in H as (ids & _ & H). apply res_bind_ok in H as (built & _ & H).
  apply res_bind_ok in H as (p & Hp & H). apply res_bind_ok in H as (? & _ & H). apply res_bind_ok in H as (? & _ & H).
  apply res_bind_ok in H as (? & _ & H). apply res_bind_ok in H as (claims & _ & H). apply res_bind_ok in H as (fw & _ & [= <-]). cbn.
  unfold compileProviderProjections in Hp. apply res_bind_ok in Hp as (? & _ & Hp). revert Hp.
  apply (fold_res_ind _ (fun _ p => forall id a, pj_WAN p !! id = Some a -> Forall P (we_BGPSessions a))); [intros id a; cbn; by rewrite lookup_empty|].
  intros dn entry todo b b' Hl Hb. unfold compile_provider. destruct (e_WAN entry) as [w|] eqn:Ew; [|by intros [= <-]].
  destruct (by_name _ !! _) as [conn|]; [|by intros [= <-]]. destruct (buildProvider entry w) as [[routing probe]|e] eqn:Hpr.
  - intros (owners & _ & [= <-])%res_bind_ok. cbn. intros id a. rewrite lookup_insert_Some. intros [[<- <-]|[_ H]]; [|by eapply Hb].
    apply provider_sessions in Hpr; [done|]. intros wire label s Hw Hs. apply (HP entry w wire) with label; [|done|done|done].
    rewrite Hl. apply elem_of_app. right. by left.
  - case_bool_decide; [done|]. by intros [= <-].
Qed.
End All.

(** ** The module's configuration *)

Abbreviation module_config c section stateFile :=
  (buildBGPSessionsConfig (buildWANRefs (Apply_network c section)) stateFile (cfg_Connections c)).

Lemma module_sessions_in c section stateFile e : e ∈ mc_Sessions (module_config c section stateFile) ->
  exists id a s, cfg_WAN c !! id = Some a /\ s ∈ we_BGPSessions a /\ se_Config e = bs_Session s.
Proof.
  cbn. intros (w & He & Hw)%list_elem_of_bind. apply list_elem_of_fmap in Hw as ([id a] & -> & Ha). apply sorted_wans_in in Ha.
  apply list_elem_of_fmap in He as (s & -> & Hs). exists id, a, s. split_and!; [done|done|]. unfold session_entry. by destruct (sw_Tunnel _).
Qed.

Lemma module_metrics c section stateFile :
  (fun e => RouteMetric (se_Config e)) <$> mc_Sessions (module_config c section stateFile) =
  (fun s => RouteMetric (bs_Session s.2)) <$> named_sessions (sorted_wans (cfg_WAN c)).
Proof.
  unfold buildBGPSessionsConfig. cbn [mc_Sessions]. generalize (interface_tables (si_WANs (buildWANRefs (Apply_network c section)))) as tables.
  intros tables. cbn. unfold named_sessions. induction (sorted_wans (cfg_WAN c)) as [|[id a] l IH]; [done|].
  cbn. rewrite !fmap_app, IH. f_equal. rewrite <- !list_fmap_compose. apply list_fmap_ext. intros i s _. cbn. unfold session_entry. by destruct (sw_Tunnel _).
Qed.

Lemma ipv6_metric_main metric : ipv6MainMetric metric = mainRouteMetric "ipv6" metric.
Proof. unfold ipv6MainMetric, mainRouteMetric. by destruct (metric =? 0). Qed.

(** The command and the loader agree on the metrics of the configured routes. *)
Lemma configured_metrics connections : cfr_Metric <$> configuredIPv6Routes connections = configuredIPv6RouteMetrics connections.
Proof.
  unfold configuredIPv6Routes, configuredIPv6RouteMetrics. induction connections as [|c l IH]; [done|]. cbn. rewrite fmap_app, IH. f_equal.
  unfold connection_ipv6_routes, ipv6_route_metrics. destruct (conn_IPv6 c) as [v6|]; [|done]. rewrite fmap_app. f_equal.
  - destruct (fam_RouteMetric (v6_Family v6)), (addr_valid (fam_Gateway (v6_Family v6))); cbn; by rewrite ?ipv6_metric_main.
  - rewrite <- list_fmap_compose. apply list_fmap_ext. intros i r _. apply ipv6_metric_main.
Qed.

Lemma session_config_wf e s : se_Config e = bs_Session s -> session_sound s -> ref_Iface (se_ref e) <> ""%string -> session_wf (session_config e).
Proof.
  intros E (Hwf & _ & Hm) Hi. destruct Hwf. unfold session_config. rewrite E. split; cbn; try done.
  split; [by repeat constructor|]. done.
Qed.

Lemma router_id_keeps settings text m : withSessionRouterID settings text = Ok m ->
  ConfiguredRoutes m = ConfiguredRoutes settings /\
  exists f, (forall e, se_ref (f e) = se_ref e /\ RouteMetric (se_Config (f e)) = RouteMetric (se_Config e) /\
               GracefulRestartSeconds (se_Config (f e)) = GracefulRestartSeconds (se_Config e) /\
               (session_wf (session_config e) -> session_wf (session_config (f e)))) /\ mc_Sessions m = f <$> mc_Sessions settings.
Proof.
  unfold withSessionRouterID. destruct (mc_Sessions settings) as [|e l] eqn:E.
  { intros [= <-]. split; [done|]. exists id. by rewrite E. }
  destruct (ParseAddr text) as [a|]; [|done]. intros (? & _ & [= <-])%res_bind_ok. split; [done|]. exists (set_router_id a). split; [|done].
  intros y. split_and!; try done. intros []. by split.
Qed.

(** ** Theorems *)


(** A community is read back from its own text and from no other: the texts that
    configure a community are exactly those the session prints for it, with each number in
    its field. *)
Lemma communities_roundtrip :
  (forall text community, ParseCommunity text = Some community <->
     text = Community_String community /\ 0 <= com_ASN community < 2 ^ 16 /\ 0 <= com_Value community < 2 ^ 16) /\
  (forall text community, ParseLargeCommunity text = Some community <->
     text = LargeCommunity_String community /\ 0 <= GlobalAdmin community < 2 ^ 32 /\ 0 <= LocalData1 community < 2 ^ 32 /\
     0 <= LocalData2 community < 2 ^ 32).
Proof.
  split; [intros text [asn value]|intros text [admin data1 data2] ].
  - unfold ParseCommunity. cbn [com_ASN com_Value]. split.
    + destruct (split _ text) as [|a [|b [|]]]; try done. destruct (scan_uint 16 a) eqn:Ea; [|done]. destruct (scan_uint 16 b) eqn:Eb; [|done].
      cbv zeta. case_bool_decide as E; [|done]. intros [= -> ->]. split_and!; [done|by eapply scan_nonneg..].
    + intros (-> & Ha & Hb). unfold Community_String. cbn [com_ASN com_Value]. rewrite !udec_nonneg by lia.
      rewrite split_colon, split_last, !scan_udec by done. unfold Community_String. cbn. rewrite !udec_nonneg by lia. by rewrite bool_decide_true.
  - unfold ParseLargeCommunity. cbn [GlobalAdmin LocalData1 LocalData2]. split.
    + destruct (split _ text) as [|a [|b [|d [|]]]]; try done. destruct (scan_uint 32 a) eqn:Ea; [|done]. destruct (scan_uint 32 b) eqn:Eb; [|done].
      destruct (scan_uint 32 d) eqn:Ed; [|done]. cbv zeta. case_bool_decide as E; [|done]. intros [= -> -> ->]. split_and!; [done|by eapply scan_nonneg..].
    + intros (-> & Ha & Hb & Hd). unfold LargeCommunity_String. cbn [GlobalAdmin LocalData1 LocalData2]. rewrite !udec_nonneg by lia.
      rewrite !split_colon, split_last, !scan_udec by done. unfold LargeCommunity_String. cbn. rewrite !udec_nonneg by lia. by rewrite bool_decide_true.
Qed.
End Sessions.
