(* ===== verification/NetDemo.v ===== *)
(** * A document with two providers

    A gateway with an internal and a management link, a wired provider with a static mapping,
    and a 6in4 tunnel over it that runs a BGP session: the hypotheses of the theorems about
    the network document hold of it. *)

From S2P Require Import Prelude GoStrings NptPolicy Intent BgpConfig BgpFib BgpDemo Health BgpModule.
From S2P Require Import NetWire NetLink NetConn NetGraph NetBgp NetProvider NetClaims Firewall FirewallProps.
From S2P Require Import NetFirewall NetDocument NetProps GatewayBgp.

Local Open Scope Z_scope.

(** ** Texts: an address is its bytes. *)

#[local] Existing Instance demo_text.

Definition net_ParseAddr (s : string) : option Addr :=
  let b := text_bytes s in
  if (length b =? 4)%nat then Some (Addr4 b) else if (length b =? 16)%nat then Some (Addr6 b "") else None.

Lemma net_parse_valid s a : net_ParseAddr s = Some a -> addr_valid a = true.
Proof. unfold net_ParseAddr. destruct (_ =? 4)%nat; [by intros [= <-]|]. destruct (_ =? 16)%nat; [by intros [= <-]|done]. Qed.

#[local] Instance net_text : NetText := {|
  ParseAddr := net_ParseAddr;
  ParseMAC s := Some (text_bytes s);
  DUIDFromBytes b := (2 <? length b)%nat;
  parse_addr_valid := net_parse_valid |}.

Abbreviation v4 a b c d := (byte_text [a; b; c; d]).
Definition v6_bytes (host : Z) : list Z := [32; 1; 13; 184] ++ repeat 0 11 ++ [host].
Abbreviation v6 host := (byte_text (v6_bytes host)).
Definition prefix4 (a b c d bits : Z) : string := demo_prefix_String (mkPrefix (Addr4 [a; b; c; d]) bits).
Definition prefix6 (b : list Z) (bits : Z) : string := demo_prefix_String (mkPrefix (Addr6 b "") bits).

(** ** Interfaces *)

Definition plain_family (translation : option familyTranslation) (addresses : list ipAddress) (gateway : string) (metric : option Z) : familyWire :=
  mkFamilyWire None None addresses None gateway metric [] None translation.

Definition plain_entry (name : string) : ifaceEntry :=
  mkIfaceEntry name "" None "" "" "" "" None None None None None None.

Definition native : option familyTranslation := Some (mkFamilyTranslation TranslationNative [] None).

Definition wired_translation : option familyTranslation :=
  Some (mkFamilyTranslation TranslationNAPT44 [mkStaticMappingWire (v4 203 0 113 3) (v4 10 0 0 9) ""] None).

Definition wired : ifaceEntry :=
  mkIfaceEntry "wan0" "" None "" "" "" "" (Some (mkLinkIdentity None "" (Some 1500) None "" None None)) None
    (Some (mkFamilyV4 (plain_family wired_translation [mkIpAddress (v4 203 0 113 2) (Some 24)] (v4 203 0 113 1) (Some 100)) [] None))
    (Some (mkFamilyV6 (plain_family native [] "" None) (Some true) None None None None None []))
    (Some (mkWanWire "fiber" (Some 101) (Some 1) (Some 10001) (Some 11001) "" (Some 10) None []))
    (Some (mkSteering None (Some 0) (Some 2))).

Definition peer : bgpSessionWire :=
  mkBgpSessionWire "transit" (v6 1) None (v6 2) (Some 64512) (Some 64513) [] (Some 2) (Some 10) (Some 30) None (Some 120) (Some 512)
    [mkBgpImportWire (prefix6 (repeat 0 16) 0) (Some 0) (Some 48)]
    [mkBgpExportWire (prefix6 (v6_bytes 0) 48) "backup" ["fiber"%string] (v6 2) None None 0 ["64512:100"%string] []].

Definition probe : health := mkHealthWire (Some true) (Some 3) (Some 2) (Some 3) (Some 3) (Some 5) [] [v6 99] [].

Definition tunnelled : ifaceEntry :=
  mkIfaceEntry "tun0" "" None "he" OwnerMWAN "" ""
    (Some (mkLinkIdentity None "" (Some 1480) None "" (Some (mkLinkTunnel TunnelProtocol6in4 "wan0" (v4 198 51 100 7) "" None None)) None)) None None
    (Some (mkFamilyV6 (plain_family native [mkIpAddress (v6 2) (Some 64)] (v6 1) (Some 300)) None None None None None None []))
    (Some (mkWanWire "he" (Some 102) (Some 2) (Some 10002) (Some 11002) "" None (Some probe) [peer]))
    (Some (mkSteering None (Some 1) (Some 1))).

Definition demo_firewall : firewallWire :=
  mkFirewallWire "mgmt0" [mkServiceWire "tcp" (Some 22) [prefix4 10 0 1 0 24]] "" "fiber" (v4 10 0 0 1) (Some 4500) (Some 4501)
    "pins_v4" "pins_v6" [prefix4 192 0 2 0 24] [].

Definition demo_document : document :=
  mkDocument "" [plain_entry "lan0"; plain_entry "mgmt0"; wired; tunnelled]
    (mkSteeringGroup "l4" [200] (mkTranslation (prefix6 (v6_bytes 0) 48) (v6 5) (v6 6)) (mkRoutes "lan0" (prefix4 10 0 0 0 24))
       (Some demo_firewall) (Some 2000)).

(** ** The document loads *)

Ltac loaded c E :=
  let H := fresh in assert (is_ok (build demo_document) = true) as H by (vm_compute; reflexivity);
  destruct (build demo_document) as [c|?] eqn:E; [clear H|discriminate H].

Lemma loaded_providers_sound_witness : exists c, build demo_document = Ok c /\ cfg_WAN c <> ∅ /\
  provider_set_ok (cfg_ReservedTables c) (cfg_Connections c) (cfg_WAN c).
Proof.
  loaded c E. exists c. split; [reflexivity|]. destruct (loaded_providers_sound demo_document c E) as (H1 & H2 & _). exact (conj H1 H2).
Defined.


Definition no_section : IfMgrSection := mkIfMgrSection ∅ [] "" "" "" None.
Definition module_of (c : Config) : res ModuleConfig :=
  withSessionRouterID (buildBGPSessionsConfig (buildWANRefs (Apply_network c no_section)) None (cfg_Connections c)) (v4 10 0 0 1).

Lemma demo_restarts : all_wires demo_document restart_decoded.
Proof.
  intros entry provider w He Hp Hw. unfold demo_document in He. cbn [doc_Interface] in He. rewrite !elem_of_cons in He.
  destruct He as [->|[->|[->|[->|[]%not_elem_of_nil] ] ] ]; try discriminate Hp; injection Hp as <-; cbn in Hw;
    [by apply not_elem_of_nil in Hw|apply list_elem_of_singleton in Hw as ->]. intros restart [= <-]. lia.
Qed.


(** ** The firewall of the document *)

Definition demo_config : FirewallConfig :=
  mkFirewallConfig true ManagementRequired "lan0" (mkPrefix (Addr4 [10; 0; 0; 0]) 24) "mgmt0" [mkService "tcp" 22 []]
    ["lan0"; "mgmt0"; "wan0"]%string [newPermit "wan0" ipv4 "udp" 67 68] [mkPath "lan0" "wan0" true true]
    [mkProvider "wan0" 1 10 true [mkMapping (Addr4 [203; 0; 113; 3]) (Addr4 [10; 0; 0; 9])] false] "wan0"
    (Addr4 [10; 0; 0; 1]) (Addr6 (v6_bytes 5) "") 4500 4501 [] [] "pins_v4" "pins_v6".

Definition demo_nat : Chain :=
  with_rules disambiguate (mkChain natTable "postrouting" "nat" "postrouting" "srcnat" "accept" (postNATRules demo_config)).

Lemma demo_mappings_first : exists rules c, Compile demo_config = Ok rules /\ c ∈ rs_Chains rules /\
  forall i j r s, ch_Rules c !! i = Some r -> ch_Rules c !! j = Some s -> ru_Action r = ActionSNAT -> ru_Action s = ActionMasquerade -> (i < j)%nat.
Proof.
  assert (is_ok (Compile demo_config) = true) as H by (vm_compute; reflexivity).
  destruct (Compile demo_config) as [rules|?] eqn:E; [|discriminate H]. pose proof (compiled_enabled demo_config rules E eq_refl) as Hc.
  assert (demo_nat ∈ rs_Chains rules) as Hin by (rewrite Hc; do 4 right; left).
  exists rules, demo_nat. split; [reflexivity|]. split; [exact Hin|].
  exact (proj1 (static_mappings_first demo_config rules demo_nat E Hin eq_refl eq_refl)).
Qed.

(** A configuration whose two destination sets have one name is accepted and compiles, but
    its plan cannot be published. *)
Definition clash_config : FirewallConfig :=
  mkFirewallConfig true ManagementRequired "lan0" (mkPrefix (Addr4 [10; 0; 0; 0]) 24) "mgmt0" [mkService "tcp" 22 []]
    ["lan0"; "mgmt0"; "wan0"]%string [] [mkPath "lan0" "wan0" true true] [mkProvider "wan0" 1 10 true [] false] "wan0"
    (Addr4 [10; 0; 0; 1]) (Addr6 (v6_bytes 5) "") 4500 4501 [] [] "pins" "pins".

Lemma set_names_may_clash : FirewallConfig_Validate clash_config = Ok tt /\ is_ok (Compile clash_config) = true /\
  compile_plan clash_config = Err "firewall set is compiled twice".
Proof. split_and!; vm_compute; reflexivity. Qed.

(** ** Connections *)

Definition conn (id name : string) (roles : Z) (link : option Link) : Connection :=
  mkConnection id name "" None roles OwnerMWAN link (Some (mkIPv4 (mkFamily None None [] None AddrNone None [] [] []) [] None)) None "" [].

Definition demo_connections : list Connection :=
  [conn "lan" "lan0" RoleInternal None;
   conn "fiber" "wan0" RoleProvider (Some (mkLink KindPhysical (mkMatch "" "aa:bb") "" (Some 1500) None "" None None));
   conn "v" "wan0.7" 0 (Some (mkLink KindVLAN (mkMatch "" "") "" None (Some (mkVLAN "wan0" 7)) "" None None))].

Lemma demo_parents : parents_present demo_connections.
Proof.
  intros c link p Hc Hl Hp Hne. unfold demo_connections in Hc. rewrite !elem_of_cons in Hc.
  destruct Hc as [->|[->|[->|[]%not_elem_of_nil] ] ]; [discriminate Hl|..]; injection Hl as <-; unfold linkDependencies in Hp; rewrite !elem_of_cons in Hp;
    destruct Hp as [->|[->|[->|[]%not_elem_of_nil] ] ]; try done. by right; left.
Qed.

Lemma parent_search_decides_witness : exists r, checkParentCycles demo_connections (index_map demo_connections) = Some r /\ is_ok r = true.
Proof.
  destruct (parent_search_decides demo_connections demo_parents) as (r & Hr & _). exists r. split; [exact Hr|].
  assert (checkParentCycles demo_connections (index_map demo_connections) = Some (Ok (list_to_map [("lan0", 2); ("wan0", 2); ("wan0.7", 2)]%string)))
    as Hv by (vm_compute; reflexivity). rewrite Hv in Hr. injection Hr as <-. reflexivity.
Defined.

(** ** An address with two writers

    A static mapping to the second of two static addresses of one network claims that address
    again, for another writer: the two kinds of claims never have the same key. *)

Definition two_addresses : Connection :=
  mkConnection "fiber" "wan0" "" None RoleProvider OwnerNetworkd None
    (Some (mkIPv4 (mkFamily None None [mkAddress (mkPrefix (Addr4 [203; 0; 113; 2]) 24) PurposeLocal;
                                       mkAddress (mkPrefix (Addr4 [203; 0; 113; 3]) 24) PurposeLocal] None AddrNone None [] [] []) [] None))
    None "" [].

Definition mapped_provider : IfMgrWANEntry :=
  mkWANEntry None "fiber" "wan0" 101 1 10001 11001
    (Some (mkIPv4Translation TranslationNAPT44 [mkStaticMapping (Addr4 [203; 0; 113; 3]) (Addr4 [10; 0; 0; 9]) ""])) None "" "" 0 0 1 [].

Lemma static_and_mapped_writers : exists claims, compileClaims [two_addresses] {[ "fiber"%string := mapped_provider ]} = Ok claims /\
  mkClaim "fiber" ResourceStaticAddress "ipv4" ("wan0/" +:+ prefix4 203 0 113 3 24) WriterNetworkd ∈ claims /\
  mkClaim "fiber" ResourceMappedAddress "ipv4" (v4 203 0 113 3) WriterMWANAddress ∈ claims.
Proof.
  eexists. split; [vm_compute; reflexivity|]. split; [do 1 right; left|do 5 right; left].
Qed.
