(* ===== verification/WanRoutes.v ===== *)
(** * Provider routes and policy rules (gateway/internal/ifmgr/modules/wanroutes)

    One pass reads the gateway of every provider, decides which families of which providers
    can carry traffic, and brings each provider's table, its policy rules and the fallback
    rule in line.  A step that fails for a provider's family takes that family out of the
    pass, so that what is published at the end holds only what was installed.  The first half
    of this file is the plan a pass follows, a function of what it has read; the second half
    is the pass itself, over the services of [netif] ([RouteKernel], [RouteWriter]) and of the
    daemon ([RoutesEnv]), with a log of every call and its outcome. *)

From S2P Require Import Prelude GoStrings Effects NptPolicy Intent Observation BgpConfig Tier Notify Health.
From S2P Require Import BgpFib NetWire NetLink NetProvider WanState.

Local Open Scope Z_scope.

Definition familyV4 : string := "inet".
Definition familyV6 : string := "inet6".
Definition families : list string := [familyV4; familyV6].
Definition catchAllPriority : Z := 50.
Definition nextHopAlertThreshold : Z := 2.
Definition alertKindNextHopUnresolved : string := "wan_routes_next_hop_unresolved".
Definition hostPrefixBitsV4 : Z := 32.

(** ** Policy rules of the kernel (netif/rules.go) *)

Record DesiredRule := mkDesiredRule {
  dru_Family : string;
  dru_Priority : Z;
  dru_From : string;
  dru_Mark : Z;
  dru_IifName : string;
  dru_UIDRange : string;
  dru_Table : string;
  dru_TableID : Z;
}.

#[export] Instance DesiredRule_eq_dec : EqDecision DesiredRule.
Proof. solve_decision. Defined.

(** ** Configuration *)

Record WAN := mkRouteWAN {
  wn_ref : WANRef;
  wn_SelectionEnabled : option bool;
  wn_Owned : bool;
  wn_TableID : Z;
  wn_FwMark : Z;
  wn_FwMarkPrio : Z;
  wn_FromPrio : Z;
  wn_TranslationV4 : option IPv4Translation;
  wn_TranslationV6 : option IPv6Translation;
  wn_V4Source : string;
  wn_Tier : Z;
  wn_Weight : Z;
  wn_MappedExternals : list Addr;
  wn_LocalMappedExternals : list Addr;
  wn_Tunnel : option Tunnel;
  wn_BGPRouteMetrics : list Z;
}.

Definition wan_key (w : WAN) : string := Key (wn_ref w).
Definition wan_iface (w : WAN) : string := ref_Iface (wn_ref w).

Record RoutesConfig := mkRoutesConfig {
  rc_InternalIface : string;
  rc_OpnsenseEdgeV6 : string;
  rc_InternalNetV4 : string;
  rc_HealthStateFile : string;
  rc_WANs : list WAN;
}.

(** ** Gateways: what a family needs to leave through a provider *)

Record gatewaySet := mkGatewaySet { gs_V4 : string; gs_V6 : string; gs_V6Routed : bool }.
Definition no_gateways : gatewaySet := mkGatewaySet "" "" false.
Abbreviation gateways := (gmap string gatewaySet).

(** A Go map reads as the zero value where it has no entry. *)
Definition gateways_of (current : gateways) (key : string) : gatewaySet := default no_gateways (current !! key).

Definition withoutV4 (g : gatewaySet) : gatewaySet := mkGatewaySet "" (gs_V6 g) (gs_V6Routed g).
Definition withoutV6 (g : gatewaySet) : gatewaySet := mkGatewaySet (gs_V4 g) "" false.
Definition without_family (family : string) (g : gatewaySet) : gatewaySet :=
  if bool_decide (family = familyV4) then withoutV4 g else withoutV6 g.

Definition gateway_known (family : string) (g : gatewaySet) : bool :=
  if bool_decide (family = familyV6) then negb (is_empty (gs_V6 g)) || gs_V6Routed g else negb (is_empty (gs_V4 g)).

Definition requiresBGP (w : WAN) : bool := (0 <? length (wn_BGPRouteMetrics w))%nat.

(** [excludeRouteFamily]: every provider with this table. *)
Definition excludeRouteFamily (wans : list WAN) (tableID : Z) (family : string) (current : gateways) : gateways :=
  fold_left (fun c w => if wn_TableID w =? tableID then <[wan_key w := without_family family (gateways_of c (wan_key w))]> c else c)
    wans current.

(** ** Readiness of a family *)

Definition no_translation : FamilyTranslation := mkFamilyTranslation "" false "" no_prefix no_prefix.
Definition MemberTranslation_zero : MemberTranslation := mkMemberTranslation no_translation no_translation.
Abbreviation translations := (gmap string MemberTranslation).
Definition translation_of (t : translations) (key : string) : MemberTranslation := default MemberTranslation_zero (t !! key).
Definition translation_ready (family : string) (t : MemberTranslation) : bool :=
  if bool_decide (family = familyV6) then ft_Ready (tr_V6 t) else ft_Ready (tr_V4 t).

Definition familyConfigured (w : WAN) (family : string) : bool :=
  if bool_decide (family = familyV4) then is_some (wn_TranslationV4 w) else is_some (wn_TranslationV6 w).

Definition ConnectionSelectionEnabled (enabled : option bool) : bool := default true enabled.
Definition selection_enabled (w : WAN) : bool := ConnectionSelectionEnabled (wn_SelectionEnabled w).

Section Plan.
Context `{PT : !PrefixText} `{NT : !NetText}.

Definition sourcePrefixV6 (w : WAN) (t : MemberTranslation) : string :=
  match wn_TranslationV6 w with
  | Some policy =>
      if negb (bool_decide (t6_Mode policy = TranslationNPTv6)) || is_none (t6_NPT policy) then ""%string
      else if IsValid (ExternalPrefix (tr_V6 t)) then prefix_String (ExternalPrefix (tr_V6 t)) else ""%string
  | None => ""%string
  end.

Definition condition_met (w : WAN) (g : gatewaySet) (health : HealthStates) (t : MemberTranslation) (family condition : string) : bool :=
  if bool_decide (condition = PolicyConditionTranslation) then translation_ready family t
  else if bool_decide (condition = PolicyConditionGateway) then gateway_known family g
  else if bool_decide (condition = PolicyConditionHealth) then HealthIsHealthy (State health (wan_key w))
  else if bool_decide (condition = PolicyConditionSourcePrefix) then negb (is_empty (sourcePrefixV6 w t))
  else false.

Definition conditionsMet (conditions : list string) (w : WAN) (g : gatewaySet) (health : HealthStates) (t : MemberTranslation)
    (family : string) : bool := forallb (condition_met w g health t family) conditions.

Definition familyReady (w : WAN) (g : gatewaySet) (health : HealthStates) (t : MemberTranslation) (family : string) : bool :=
  familyConfigured w family && conditionsMet PolicyFamilyConditions w g health t family.

Definition family_ready_in (current : gateways) (health : HealthStates) (t : translations) (family : string) (w : WAN) : bool :=
  familyReady w (gateways_of current (wan_key w)) health (translation_of t (wan_key w)) family.

Definition familyMembers (wans : list WAN) (current : gateways) (health : HealthStates) (t : translations) (family : string) : list TierMember :=
  omap (fun w => if selection_enabled w && family_ready_in current health t family w
                 then Some (mkTierMember (wan_key w) (wn_Tier w)) else None) wans.

(** ** Desired routes and rules *)

Definition default_route (family via : string) (w : WAN) : RouteSpec :=
  mkRouteSpec family "default" via (wan_iface w) (wn_TableID w) 0 0.

Definition family_gateway (family : string) (g : gatewaySet) : string :=
  if bool_decide (family = familyV6) then gs_V6 g else gs_V4 g.

Definition wanDefaultRoutes (w : WAN) (g : gatewaySet) (health : HealthStates) (t : MemberTranslation) : list RouteSpec :=
  (fun family => default_route family (if familyReady w g health t family then family_gateway family g else ""%string) w) <$> families.

(** A slash anywhere means that the value is a prefix already. *)
Definition withPrefix (value prefix : string) : string :=
  if contains_any value "/" then value else value +:+ "/" +:+ prefix.

Definition wanInternalRoutes (cfg : RoutesConfig) (w : WAN) : list RouteSpec :=
  (if is_some (wn_TranslationV4 w)
   then [mkRouteSpec familyV4 (rc_InternalNetV4 cfg) "" (rc_InternalIface cfg) (wn_TableID w) 0 0] else []) ++
  (if is_some (wn_TranslationV6 w)
   then [mkRouteSpec familyV6 (withPrefix (rc_OpnsenseEdgeV6 cfg) "128") "" (rc_InternalIface cfg) (wn_TableID w) 0 0] else []).

Definition policy_provider (w : WAN) : PolicyProvider :=
  let '(prefixTranslation, externalConfigured, external) := IPv6Translation_PolicySource (wn_TranslationV6 w) in
  NewPolicyProvider ParseAddr (wan_key w) (wn_TableID w) (wn_FwMark w) (wn_FwMarkPrio w) (wn_FromPrio w)
    (is_some (wn_TranslationV4 w)) (wn_V4Source w) (is_some (wn_TranslationV6 w)) prefixTranslation externalConfigured external.

Definition kernel_family (family : string) : string := if bool_decide (family = PolicyFamilyIPv6) then familyV6 else familyV4.

Definition wan_rule (w : WAN) (g : gatewaySet) (health : HealthStates) (t : MemberTranslation) (intent : PolicyRule) : option DesiredRule :=
  let family := kernel_family (pr_Family intent) in
  if negb (conditionsMet (ActivationConditions intent) w g health t family) then None
  else
    let from := if bool_decide (pr_Kind intent = PolicyRuleSource)
                then (if bool_decide (family = familyV6) then sourcePrefixV6 w t else wn_V4Source w) else ""%string in
    Some (mkDesiredRule family (pr_Priority intent) from (pr_Mark intent) "" "" "" (pr_TableID intent)).

Definition wanRules (w : WAN) (g : gatewaySet) (health : HealthStates) (t : MemberTranslation) : list DesiredRule :=
  omap (wan_rule w g health t) (ConfiguredPolicyRules (policy_provider w)).

(** The lowest tier configured for the family, no higher than [tier]. *)
Definition lowest_tier (wans : list WAN) (family : string) (tier : Z) : Z :=
  fold_left (fun lowest w => if familyConfigured w family && (wn_Tier w <? lowest) then wn_Tier w else lowest) wans tier.

Definition catchAllCarrier (wans : list WAN) (current : gateways) (health : HealthStates) (t : translations) (family : string) : option WAN :=
  let '(tier, available) := ActiveTier (familyMembers wans current health t family) health in
  if negb available then None
  else if tier =? lowest_tier wans family tier then None
  else match List.filter (fun w => selection_enabled w && (wn_Tier w =? tier) && family_ready_in current health t family w) wans with
       | [w] => Some w
       | _ => None
       end.

Definition catch_all_rule (cfg : RoutesConfig) (family : string) (w : WAN) : DesiredRule :=
  mkDesiredRule family catchAllPriority "" 0 (rc_InternalIface cfg) "" "" (wn_TableID w).

Definition wan_state {A} (plan : WAN -> gatewaySet -> HealthStates -> MemberTranslation -> list A) (current : gateways)
    (health : HealthStates) (t : translations) (w : WAN) : list A :=
  plan w (gateways_of current (wan_key w)) health (translation_of t (wan_key w)).

Definition desiredRules (cfg : RoutesConfig) (current : gateways) (health : HealthStates) (t : translations) : list DesiredRule :=
  (w ← rc_WANs cfg; wan_state wanRules current health t w) ++
  omap (fun family => catch_all_rule cfg family <$> catchAllCarrier (rc_WANs cfg) current health t family) families.

Definition desiredRoutes (cfg : RoutesConfig) (current : gateways) (health : HealthStates) (t : translations) : list RouteSpec :=
  w ← rc_WANs cfg; wan_state wanDefaultRoutes current health t w ++ wanInternalRoutes cfg w.

Definition desiredState (cfg : RoutesConfig) (current : gateways) (health : HealthStates) (t : translations) : list DesiredRule * list RouteSpec :=
  (desiredRules cfg current health t, desiredRoutes cfg current health t).
End Plan.

(** ** Rule slots *)

Abbreviation ruleSlot := (string * Z)%type.

Definition rule_slot (r : DesiredRule) : ruleSlot := (dru_Family r, dru_Priority r).

Definition wanRuleSlots (w : WAN) : list ruleSlot :=
  [(familyV4, wn_FwMarkPrio w); (familyV6, wn_FwMarkPrio w); (familyV4, wn_FromPrio w); (familyV6, wn_FromPrio w)].

Definition append_new {A} `{EqDecision A} (slots : list A) (slot : A) : list A :=
  if bool_decide (slot ∈ slots) then slots else slots ++ [slot].

Definition ownedRuleSlots (cfg : RoutesConfig) : list ruleSlot :=
  fold_left append_new ([(familyV4, catchAllPriority); (familyV6, catchAllPriority)] ++ (w ← rc_WANs cfg; wanRuleSlots w)) [].

Definition watchedIfaces (cfg : RoutesConfig) : list string :=
  fold_left (fun ifaces iface => if is_empty iface then ifaces else append_new ifaces iface)
    (rc_InternalIface cfg :: (wan_iface <$> rc_WANs cfg)) [].

(** ** Validation *)

Definition tunnelUnderlay (wans : list WAN) (w : WAN) : option WAN :=
  tunnel ← wn_Tunnel w; List.find (fun candidate => bool_decide (wan_iface candidate = Underlay tunnel)) wans.

Definition validateTunnelWAN (wans : list WAN) (w : WAN) : res unit :=
  match wn_Tunnel w with
  | None => Ok tt
  | Some tunnel =>
      (check reject_if (negb (Is4 (tun_Remote tunnel))) "tunnel remote address must be IPv4" ;;
       check reject_if (is_some (wn_TranslationV4 w)) "tunnel provider cannot include an IPv4 family" ;;
       match tunnelUnderlay wans w with
       | Some underlay => reject_if (is_some (wn_Tunnel underlay) || is_none (wn_TranslationV4 underlay))
                            "tunnel underlay must be a provider with an IPv4 family"
       | None => Err "tunnel underlay must be a provider with an IPv4 family"
       end)%go
  end.

Definition validateWAN (w : WAN) : res unit :=
  (check reject_if (is_empty (wan_key w)) "connection ID is required" ;;
   check reject_if (is_empty (wan_iface w)) "iface is required" ;;
   check reject_if (wn_TableID w <=? 0) "table_id must be > 0" ;;
   check reject_if (wn_FwMark w =? 0) "fw_mark must be > 0" ;;
   check reject_if (wn_FwMarkPrio w <=? 0) "fw_mark_prio must be > 0" ;;
   check reject_if (wn_FromPrio w <=? 0) "from_prio must be > 0" ;;
   reject_if ((wn_FwMarkPrio w =? catchAllPriority) || (wn_FromPrio w =? catchAllPriority))
     "rule priorities must not equal the catch-all priority 50")%go.

Definition take_slot (seen : list ruleSlot) (slot : ruleSlot) : res (list ruleSlot) :=
  (check reject_if (bool_decide (slot ∈ seen)) "duplicate rule slot" ;; Ok (slot :: seen))%go.

Definition validate_wan (wans : list WAN) (seen : list string * list ruleSlot) (w : WAN) : res (list string * list ruleSlot) :=
  (check validateWAN w ;;
   check validateTunnelWAN wans w ;;
   check reject_if (bool_decide (wan_key w ∈ seen.1)) "duplicate connection ID" ;;
   slots <-? fold_res take_slot seen.2 (wanRuleSlots w) ;;
   Ok (wan_key w :: seen.1, slots))%go.

Definition validateConfig (cfg : RoutesConfig) : res unit :=
  (check reject_if (is_empty (rc_InternalIface cfg)) "wan.routes: internal_iface is required" ;;
   check reject_if (is_empty (rc_OpnsenseEdgeV6 cfg)) "wan.routes: opnsense_edge_v6 is required" ;;
   check reject_if (is_empty (rc_InternalNetV4 cfg)) "wan.routes: internal_net_v4 is required" ;;
   check fold_res (validate_wan (rc_WANs cfg)) ([], []) (rc_WANs cfg) ;;
   Ok tt)%go.

(** ** Reasons and dependencies *)

Definition reasonTunnelLinkAbsent : string := "tunnel link absent".
Definition reasonUnderlayNotReady : string := "underlay not ready".
Definition reasonEndpointRouteAbsent : string := "endpoint route absent".
Definition reasonProbePending : string := "probe pending".
Definition reasonProbeFailed : string := "probe failed".
Definition reasonTranslationNotReady : string := "translation not ready".
Definition reasonGatewayUnavailable : string := "gateway unavailable".
Definition reasonBGPNotEstablished : string := "bgp session not established".
Definition reasonBGPNoAcceptedRoute : string := "bgp no accepted route".
Definition reasonFamilyNotRouted : string := "address family has no routing configuration".

Definition session_route_count (s : SessionState) : nat := (length (Accepted s) + length (Retained s))%nat.

Definition bgpReason (sessions : list SessionState) : string :=
  match sessions with
  | [] => reasonBGPNotEstablished
  | _ =>
      if existsb (fun s => negb (Established s) && (length (Retained s) =? 0)%nat) sessions then reasonBGPNotEstablished
      else if (sum_list (session_route_count <$> sessions) =? 0)%nat then reasonBGPNoAcceptedRoute
      else ""%string
  end.

Definition familyProbeReason (result verdict : string) : string :=
  if negb (bool_decide (result = ProbePass)) && negb (bool_decide (result = ProbeFail)) then ""%string
  else if bool_decide (verdict = HealthHealthy) then ""%string
  else if bool_decide (verdict = HealthUnhealthy) then reasonProbeFailed
  else reasonProbePending.

Record familyProbeReasons := mkProbeReasons { fp_v4 : string; fp_v6 : string }.
Definition no_probe_reasons : familyProbeReasons := mkProbeReasons "" "".

Definition probe_reasons (m : MemberHealth) : familyProbeReasons :=
  mkProbeReasons (familyProbeReason (mh_V4 m) (V4Verdict m)) (familyProbeReason (mh_V6 m) (V6Verdict m)).

Definition probeExclusions (wans : list WAN) (health : gmap string MemberHealth) : gmap string familyProbeReasons :=
  fold_left (fun m w => <[wan_key w := probe_reasons (default MemberHealth_zero (health !! wan_key w))]> m) wans ∅.

Definition excluded_gateways (reasons : familyProbeReasons) (g : gatewaySet) : gatewaySet :=
  let g := if is_empty (fp_v4 reasons) then g else withoutV4 g in
  if is_empty (fp_v6 reasons) then g else withoutV6 g.

Definition withoutExcludedFamilies (current : gateways) (exclusions : gmap string familyProbeReasons) : gateways :=
  map_imap (fun key g => Some (excluded_gateways (default no_probe_reasons (exclusions !! key)) g)) current.

Definition tunnelProbeReason (state : string) : string :=
  if bool_decide (state = HealthStateUnhealthy) then reasonProbeFailed
  else if negb (bool_decide (state = HealthStateHealthy)) then reasonProbePending
  else ""%string.

Definition familyReason (w : WAN) (g : gatewaySet) (health : HealthStates) (t : MemberTranslation) (family tunnelReason : string) : string :=
  if negb (familyConfigured w family) then ""%string
  else if bool_decide (family = familyV6) && negb (is_empty tunnelReason) then tunnelReason
  else if negb (HealthIsHealthy (State health (wan_key w))) then reasonProbeFailed
  else if negb (translation_ready family t) then reasonTranslationNotReady
  else if negb (gateway_known family g) then reasonGatewayUnavailable
  else ""%string.

Record dependencyRule := mkDependencyRule {
  du_name : string;
  du_applies : WAN -> string -> bool;
  du_states : list (string * string);
}.

Definition appliesAlways (w : WAN) (family : string) : bool := true.
Definition appliesV6Tunnel (w : WAN) (family : string) : bool := bool_decide (family = familyV6) && is_some (wn_Tunnel w).
Definition appliesV6BGP (w : WAN) (family : string) : bool := bool_decide (family = familyV6) && requiresBGP w.
Definition unmetBy (reason : string) : list (string * string) := [(reason, DependencyUnmet)].

Definition dependencyRules : list dependencyRule := [
  mkDependencyRule "tunnel" appliesV6Tunnel (unmetBy reasonTunnelLinkAbsent);
  mkDependencyRule "underlay" appliesV6Tunnel (unmetBy reasonUnderlayNotReady);
  mkDependencyRule "endpoint-route" appliesV6Tunnel (unmetBy reasonEndpointRouteAbsent);
  mkDependencyRule "bgp-session" appliesV6BGP (unmetBy reasonBGPNotEstablished);
  mkDependencyRule "bgp-route" appliesV6BGP (unmetBy reasonBGPNoAcceptedRoute);
  mkDependencyRule "probe" appliesAlways [(reasonProbePending, DependencyPending); (reasonProbeFailed, DependencyUnmet)];
  mkDependencyRule "translation" appliesAlways (unmetBy reasonTranslationNotReady);
  mkDependencyRule "gateway" appliesAlways (unmetBy reasonGatewayUnavailable)].

Definition reported_state (rule : dependencyRule) (reason : string) : option string :=
  snd <$> List.find (fun s => bool_decide (s.1 = reason)) (du_states rule).

Definition dependency_step (w : WAN) (family reason : string) (acc : list DependencyResult * string) (rule : dependencyRule)
    : list DependencyResult * string :=
  let '(results, following) := acc in
  if negb (du_applies rule w family) then acc
  else match reported_state rule reason with
       | Some state =>
           if bool_decide (following = DependencyMet)
           then (results ++ [mkDependency (du_name rule) state reason], DependencyNotEvaluated)
           else (results ++ [mkDependency (du_name rule) following ""], following)
       | None => (results ++ [mkDependency (du_name rule) following ""], following)
       end.

Definition familyDependencies (w : WAN) (family reason : string) : list DependencyResult :=
  if negb (familyConfigured w family) then [mkDependency "configuration" DependencyUnmet reasonFamilyNotRouted]
  else (fold_left (dependency_step w family reason) dependencyRules ([mkDependency "configuration" DependencyMet ""], DependencyMet)).1.

(** ** Tunnel endpoints *)

Section Endpoints.
Context `{PT : !PrefixText}.

Definition endpointDestination (t : Tunnel) : string := prefix_String (PrefixFrom (tun_Remote t) (BitLen (tun_Remote t))).

Definition endpoint_route (wans : list WAN) (current : gateways) (w : WAN) : option RouteSpec :=
  tunnel ← wn_Tunnel w;
  underlay ← tunnelUnderlay wans w;
  let gateway := gs_V4 (gateways_of current (wan_key underlay)) in
  if is_empty gateway then None
  else Some (mkRouteSpec familyV4 (endpointDestination tunnel) gateway (wan_iface underlay) (wn_TableID underlay) 0 TunnelEndpointRouteProtocol).

Definition endpointRoutes_plan (wans : list WAN) (current : gateways) : gmap string RouteSpec :=
  fold_left (fun m w => match endpoint_route wans current w with Some r => <[wan_key w := r]> m | None => m end) wans ∅.
End Endpoints.

(** ** The services a pass uses *)

(** An error of a netlink call, and whether it says that the object does not exist. *)
Record nlerr := mkNlerr { nl_text : error; nl_absent : bool }.

(** [netif] and, for the unreachable routes, the netlink library. *)
Class RouteKernel (W : Type) := {
  IfaceDefaultGateway : string -> string -> W -> (string + nlerr) * W;
  ReconcileTableDefault : RouteSpec -> W -> option error * W;
  ListTableRoutes : string -> Z -> W -> res (list CurrentRoute) * W;
  ReconcileRules : list DesiredRule -> W -> option error * W;
  RemoveRuleAtPriority : string -> Z -> W -> option error * W;
  UnreachableReplace : Z -> string -> W -> option nlerr * W;
  UnreachableDel : Z -> string -> W -> option nlerr * W;
  NextHopResolves : string -> string -> W -> res bool * W;
}.

(** The daemon's environment; what it says may change between any two reads. *)
Class RoutesEnv (W : Type) := {
  StartRuleMonitor : W -> option error * W;
  BeginForwardingChange : W -> option error * W;
  FinishForwardingChange : W -> W;
  OpenHealthState : string -> W -> file_read * W;
  LiveTranslation : W -> gmap string MemberTranslation * W;
  LiveHealth : W -> gmap string MemberHealth * W;
  LiveBGPSessions : string -> W -> list SessionState * W;
  HasOwnedAddress : string -> string -> W -> bool * W;
  FamilyRoutable : string -> string -> W -> bool * W;
  GetOwnedLink : string -> W -> option string * W;
  EnsureTunnelEndpointRoute : string -> RouteSpec -> W -> option error * W;
  ReleaseTunnelEndpointRoutes : list string -> W -> option error * W;
}.

(** Which of the daemon's services exist, and the connections it runs. *)
Record routesEnv := mkRoutesEnv {
  en_Connections : list Connection;
  en_LiveState : bool;
  en_OwnedAddresses : bool;
  en_OwnedLinks : bool;
  en_EndpointJournal : bool;
  en_Alerts : bool;
  en_RequestReconcile : bool;
}.

Definition OwnedLinkReady : string := "ready".

Record routesModule := mkRoutesModule {
  rm_cfg : RoutesConfig;
  rm_env : routesEnv;
  nextHopMisses : Z;
  ownedAddresses : gmap string (list Addr);
  endpointRoutes : gmap string RouteSpec;
  endpointWatch : gmap string RouteSpec;
  tunnelReasons : gmap string string;
  probeReasons : gmap string familyProbeReasons;
}.

Definition DefaultHealthStatePath : string := "/var/run/mwan-health.state".

(** [New]: the module before its first pass. *)
Definition New (cfg : RoutesConfig) (env : routesEnv) : routesModule :=
  let file := if is_empty (rc_HealthStateFile cfg) && nonempty (rc_WANs cfg) then DefaultHealthStatePath else rc_HealthStateFile cfg in
  mkRoutesModule (mkRoutesConfig (rc_InternalIface cfg) (rc_OpnsenseEdgeV6 cfg) (rc_InternalNetV4 cfg) file (rc_WANs cfg)) env
    0 ∅ ∅ ∅ ∅ ∅.

Inductive init_outcome := Initialised | InitDisabled (e : error) | InitFailed (e : error).

(** What a pass asked of the outside, and the answer. *)
Inductive revent :=
| RBegin (e : option error)
| RFinish
| RDefault (r : RouteSpec) (e : option error)
| RReadBack (family : string) (table : Z) (routes : res (list CurrentRoute))
| RRoute (r : RouteSpec) (e : option kerr)
| RDelete (r : RouteSpec) (e : option kerr)
| RUnreachable (table : Z) (half : string) (wanted : bool) (e : option nlerr)
| RRule (rule : DesiredRule) (e : option error)
| RRemoveRule (family : string) (priority : Z) (e : option error)
| REndpoint (key : string) (r : RouteSpec) (e : option error)
| RRelease (keep : list string) (e : option error)
| RPublish (tier : Z) (members : gmap string MemberRouting)
| RNotify (kind key : string)
| RResolve (kind key : string)
| RRequest (reason : string).

Record rsys (W : Type) := mkRsys { rmod : routesModule; rworld : W; rlog : list revent }.
Arguments mkRsys {W}.
Arguments rmod {W}.
Arguments rworld {W}.
Arguments rlog {W}.

(** ** The pass *)

Definition unreachableHalves : list string := ["::/1"; "8000::/1"].

Definition bgpTableRouteKey (r : CurrentRoute) : string :=
  cr_Dest r +:+ " metric " +:+ itoa (cr_Metric r) +:+ " via " +:+ cr_Via r.

Definition bgp_spec (table : Z) (r : CurrentRoute) : RouteSpec :=
  mkRouteSpec familyV6 (cr_Dest r) (cr_Via r) (cr_Dev r) table (cr_Metric r) RTPROT_BGP.

Definition RTN_UNREACHABLE : Z := 7.
Definition RTPROT_BOOT : Z := 3.

Section Pass.
Context {W : Type} `{PT : !PrefixText} `{NT : !NetText} `{RW : !RouteWriter W} `{MO : !MapOrder W}
  `{RK : !RouteKernel W} `{RE : !RoutesEnv W}.

Abbreviation RM := (M (rsys W)).

Definition getM {A} (f : routesModule -> A) : RM A := gets (fun s => f (rmod s)).
Definition setM (f : routesModule -> routesModule) : RM unit := modify (fun s => mkRsys (f (rmod s)) (rworld s) (rlog s)).
Definition ask {A} (f : W -> A * W) : RM A := fun s => let '(a, w) := f (rworld s) in (a, mkRsys (rmod s) w (rlog s)).
Definition act {A} (f : W -> A * W) (event : A -> revent) : RM A := fun s =>
  let '(a, w) := f (rworld s) in (a, mkRsys (rmod s) w (rlog s ++ [event a])).
Definition emit (event : revent) : RM unit := modify (fun s => mkRsys (rmod s) (rworld s) (rlog s ++ [event])).

Definition wans : RM (list WAN) := getM (fun m => rc_WANs (rm_cfg m)).

Definition set_probeReasons (v : gmap string familyProbeReasons) (m : routesModule) : routesModule :=
  mkRoutesModule (rm_cfg m) (rm_env m) (nextHopMisses m) (ownedAddresses m) (endpointRoutes m) (endpointWatch m) (tunnelReasons m) v.
Definition set_tunnelReasons (v : gmap string string) (m : routesModule) : routesModule :=
  mkRoutesModule (rm_cfg m) (rm_env m) (nextHopMisses m) (ownedAddresses m) (endpointRoutes m) (endpointWatch m) v (probeReasons m).
Definition set_endpoints (installed watched : gmap string RouteSpec) (m : routesModule) : routesModule :=
  mkRoutesModule (rm_cfg m) (rm_env m) (nextHopMisses m) (ownedAddresses m) installed watched (tunnelReasons m) (probeReasons m).
Definition set_ownedAddresses (v : gmap string (list Addr)) (m : routesModule) : routesModule :=
  mkRoutesModule (rm_cfg m) (rm_env m) (nextHopMisses m) v (endpointRoutes m) (endpointWatch m) (tunnelReasons m) (probeReasons m).
Definition set_nextHopMisses (v : Z) (m : routesModule) : routesModule :=
  mkRoutesModule (rm_cfg m) (rm_env m) v (ownedAddresses m) (endpointRoutes m) (endpointWatch m) (tunnelReasons m) (probeReasons m).

(** *** Reads *)

(** A service that is absent answers with [none]. *)
Definition service {A} (present : routesEnv -> bool) (none : A) (f : W -> A * W) : RM A :=
  here ← getM (fun m => present (rm_env m)); if negb here then mret none else ask f.

Definition translationState : RM translations := service en_LiveState ∅ LiveTranslation.
Definition familyHealth : RM (gmap string MemberHealth) := service en_LiveState ∅ LiveHealth.
Definition bgpSessionStates (w : WAN) : RM (list SessionState) := service en_LiveState [] (LiveBGPSessions (wan_key w)).

Definition external (connections : list Connection) (key : string) : bool :=
  existsb (fun c => bool_decide (conn_ID c = key) && bool_decide (conn_Owner c = OwnerExternal)) connections.

Definition own_address (key : string) (owned : gmap string (list Addr)) (address : Addr) : RM (gmap string (list Addr)) :=
  has ← service en_OwnedAddresses false (HasOwnedAddress key (prefix_String (PrefixFrom address hostPrefixBitsV4)));
  mret (if negb has then owned else <[key := default [] (owned !! key) ++ [address]]> owned).

Definition own_wan (owned : gmap string (list Addr)) (w : WAN) : RM (gmap string (list Addr)) :=
  connections ← getM (fun m => en_Connections (rm_env m));
  if external connections (wan_key w) then mret owned
  else foldM (own_address (wan_key w)) owned (wn_MappedExternals w ++ wn_LocalMappedExternals w).

Definition ownMappedAddressesLocked : RM unit :=
  ws ← wans; owned ← foldM own_wan ∅ ws; setM (set_ownedAddresses owned).

(** Gateways found, errors of missing links, other errors. *)
Record discovery := mkDiscovery { di_gateways : gateways; di_missing : list error; di_failed : list error }.

Definition set_family_gateway (family gateway : string) (g : gatewaySet) : gatewaySet :=
  if bool_decide (family = familyV4) then mkGatewaySet gateway (gs_V6 g) (gs_V6Routed g)
  else mkGatewaySet (gs_V4 g) gateway (gs_V6Routed g).

Definition discover_family (w : WAN) (acc : gatewaySet * list error * list error) (family : string) : RM (gatewaySet * list error * list error) :=
  let '(g, missing, failed) := acc in
  if negb (familyConfigured w family) then mret acc
  else
    answer ← ask (IfaceDefaultGateway family (wan_iface w));
    mret match answer with
         | inl gateway => (set_family_gateway family gateway g, missing, failed)
         | inr e => if nl_absent e then (g, missing ++ [nl_text e], failed) else (g, missing, failed ++ [nl_text e])
         end.

Definition discover_wan (d : discovery) (w : WAN) : RM discovery :=
  routed ← (if requiresBGP w then (sessions ← bgpSessionStates w; mret (is_empty (bgpReason sessions))) else mret false);
  '(g, missing, failed) ← foldM (discover_family w) (mkGatewaySet "" "" routed, di_missing d, di_failed d) families;
  mret (mkDiscovery (<[wan_key w := g]> (di_gateways d)) missing failed).

Definition discoverGateways : RM discovery := ws ← wans; foldM discover_wan (mkDiscovery ∅ [] []) ws.

Definition exclude_owned (current : gateways) (w : WAN) : RM gateways :=
  if negb (wn_Owned w) then mret current
  else
    v4 ← service en_OwnedAddresses false (FamilyRoutable (wan_key w) "ipv4");
    v6 ← service en_OwnedAddresses false (FamilyRoutable (wan_key w) "ipv6");
    let g := gateways_of current (wan_key w) in
    let g := if negb v4 then withoutV4 g else g in
    mret (<[wan_key w := (if negb v6 then withoutV6 g else g)]> current).

Definition excludeUnreadyOwnedFamilies (current : gateways) : RM gateways := ws ← wans; foldM exclude_owned current ws.

(** *** Tunnels *)

Definition tunnelLinkApplied (w : WAN) : RM bool :=
  status ← service en_OwnedLinks None (GetOwnedLink (wan_key w)); mret (bool_decide (status = Some OwnedLinkReady)).

Definition endpointRouteInstalled (w : WAN) : RM bool := getM (fun m => is_some (endpointRoutes m !! wan_key w)).

Definition underlay_ready (ws : list WAN) (current : gateways) (health : HealthStates) (t : translations) (w : WAN) : bool :=
  match tunnelUnderlay ws w with
  | Some underlay => family_ready_in current health t familyV4 underlay
  | None => false
  end.

Definition tunnelPathReason (current : gateways) (health : HealthStates) (t : translations) (w : WAN) : RM string :=
  if is_none (wn_Tunnel w) then mret ""%string
  else
    applied ← tunnelLinkApplied w;
    ws ← wans;
    installed ← endpointRouteInstalled w;
    mret (if negb applied then reasonTunnelLinkAbsent
          else if negb (underlay_ready ws current health t w) then reasonUnderlayNotReady
          else if negb installed then reasonEndpointRouteAbsent
          else ""%string).

Definition unready_reason (current : gateways) (health : HealthStates) (t : translations) (w : WAN) : RM string :=
  path ← tunnelPathReason current health t w;
  reason ← (if is_empty path && requiresBGP w then (sessions ← bgpSessionStates w; mret (bgpReason sessions)) else mret path);
  mret (if is_empty reason && is_some (wn_Tunnel w) then tunnelProbeReason (State health (wan_key w)) else reason).

Definition exclude_tunnel (health : HealthStates) (t : translations) (acc : gmap string string * gateways) (w : WAN)
    : RM (gmap string string * gateways) :=
  let '(reasons, current) := acc in
  if is_none (wn_Tunnel w) && negb (requiresBGP w) then mret acc
  else
    reason ← unready_reason current health t w;
    mret (if is_empty reason then acc
          else (<[wan_key w := reason]> reasons, <[wan_key w := withoutV6 (gateways_of current (wan_key w))]> current)).

Definition excludeUnreadyTunnelFamilies (current : gateways) (health : HealthStates) (t : translations) : RM (gmap string string * gateways) :=
  ws ← wans; foldM (exclude_tunnel health t) (∅, current) ws.

Definition desiredStateForPass (current : gateways) (health : HealthStates) (t : translations)
    : RM (gateways * (list DesiredRule * list RouteSpec)) :=
  '(reasons, current) ← excludeUnreadyTunnelFamilies current health t;
  setM (set_tunnelReasons reasons) ;;
  cfg ← getM rm_cfg;
  mret (current, desiredState cfg current health t).

Definition ensure_endpoint (previous : gmap string RouteSpec) (acc : (gmap string RouteSpec * gmap string RouteSpec) * list error)
    (e : string * RouteSpec) : RM ((gmap string RouteSpec * gmap string RouteSpec) * list error) :=
  let '((installed, watched), errs) := acc in
  let '(key, want) := e in
  failed ← act (EnsureTunnelEndpointRoute key want) (REndpoint key want);
  mret match failed with
       | Some err => ((installed, match previous !! key with Some last => <[key := last]> watched | None => watched end), errs ++ [err])
       | None => ((<[key := want]> installed, <[key := want]> watched), errs)
       end.

Definition ordered {A} (l : list A) : RM (list A) := gets (fun s => range_order A (rworld s) l).

Definition reconcileEndpointRoutes (current : gateways) : RM (list error) :=
  ws ← wans;
  let desired := endpointRoutes_plan ws current in
  previous ← getM endpointWatch;
  setM (set_endpoints ∅ ∅) ;;
  journal ← getM (fun m => en_EndpointJournal (rm_env m));
  if negb journal then
    mret (if bool_decide (desired = ∅) then [] else ["tunnel endpoint routes require the address ownership journal"%string])
  else
    entries ← ordered (map_to_list desired);
    '((installed, watched), errs) ← foldM (ensure_endpoint previous) ((∅, ∅), []) entries;
    setM (set_endpoints installed watched) ;;
    released ← act (ReleaseTunnelEndpointRoutes entries.*1) (RRelease entries.*1);
    mret (errs ++ option_list released).

(** *** Routes *)

Definition readback_error (desired : RouteSpec) (routes : list CurrentRoute) : option error :=
  let defaults := List.filter (fun r => bool_decide (cr_Dest r = "default"%string)) routes in
  if is_empty (rs_Via desired) then
    if nonempty defaults then Some "default route still present after removal"%string else None
  else if existsb (fun r => negb (bool_decide (cr_Via r = rs_Via desired)) || negb (bool_decide (cr_Dev r = rs_Dev desired))) defaults
       then Some "default route differs after reconciliation"%string
  else if nonempty defaults then None else Some "default route missing after reconciliation"%string.

Definition reconcileTableDefault (desired : RouteSpec) : RM (option error) :=
  failed ← act (ReconcileTableDefault desired) (RDefault desired);
  match failed with
  | Some e => mret (Some ("reconcile table default: " +:+ e)%string)
  | None =>
      routes ← act (ListTableRoutes (rs_Family desired) (rs_TableID desired)) (RReadBack (rs_Family desired) (rs_TableID desired));
      mret match routes with
           | Err e => Some ("read back default route: " +:+ e)%string
           | Ok routes => readback_error desired routes
           end
  end.

Definition is_default (r : RouteSpec) : bool := bool_decide (rs_Dest r = "default"%string).

Definition reconcile_route (acc : gateways * list error) (r : RouteSpec) : RM (gateways * list error) :=
  let '(current, errs) := acc in
  ws ← wans;
  failed ← (if is_default r then reconcileTableDefault r
            else (e ← act (ReconcileTableRoute r) (RRoute r); mret (ke_text <$> e)));
  mret match failed with
       | Some e => (excludeRouteFamily ws (rs_TableID r) (rs_Family r) current, errs ++ [e])
       | None => acc
       end.

(** *** Routes learned by BGP *)

Definition learned_for (w : WAN) (r : CurrentRoute) : bool :=
  bool_decide (cr_Dev r = wan_iface w) && negb (bool_decide (cr_Dest r = "default"%string)) && bool_decide (cr_Metric r ∈ wn_BGPRouteMetrics w).

(** Copies the learned routes until one fails; returns the keys copied. *)
Fixpoint copy_learned (w : WAN) (learned : list CurrentRoute) (copied : list string) : RM (list string + error) :=
  match learned with
  | [] => mret (inl copied)
  | r :: learned =>
      if negb (learned_for w r) then copy_learned w learned copied
      else
        failed ← act (ReconcileTableRoute (bgp_spec (wn_TableID w) r)) (RRoute (bgp_spec (wn_TableID w) r));
        match failed with
        | Some e => mret (inr (ke_text e))
        | None => copy_learned w learned (bgpTableRouteKey r :: copied)
        end
  end.

Definition stale_copy (w : WAN) (copied : list string) (r : CurrentRoute) : bool :=
  bool_decide (cr_Dev r = wan_iface w) && negb (cr_Type r =? RTN_UNREACHABLE) && negb (bool_decide (bgpTableRouteKey r ∈ copied)).

Fixpoint remove_stale (w : WAN) (copied : list string) (installed : list CurrentRoute) : RM (option error) :=
  match installed with
  | [] => mret None
  | r :: installed =>
      if negb (stale_copy w copied r) then remove_stale w copied installed
      else
        failed ← act (DeleteTableRoute (bgp_spec (wn_TableID w) r)) (RDelete (bgp_spec (wn_TableID w) r));
        match failed with
        | Some e => mret (Some (ke_text e))
        | None => remove_stale w copied installed
        end
  end.

Definition reconcileBGPTable (w : WAN) (ready : bool) : RM (option error) :=
  copied ← (if negb ready then mret (inl [])
            else
              learned ← ask (ListProtocolRoutes familyV6 RT_TABLE_MAIN RTPROT_BGP);
              match learned with
              | inr e => mret (inr (ke_text e))
              | inl learned => copy_learned w learned []
              end);
  match copied with
  | inr e => mret (Some e)
  | inl copied =>
      installed ← ask (ListProtocolRoutes familyV6 (wn_TableID w) RTPROT_BGP);
      match installed with
      | inr e => mret (Some (ke_text e))
      | inl installed => remove_stale w copied installed
      end
  end.

Fixpoint set_halves (table : Z) (wanted : bool) (halves : list string) : RM (option error) :=
  match halves with
  | [] => mret None
  | half :: halves =>
      failed ← act (if wanted then UnreachableReplace table half else UnreachableDel table half) (RUnreachable table half wanted);
      match failed with
      | Some e => if negb wanted && nl_absent e then set_halves table wanted halves else mret (Some (nl_text e))
      | None => set_halves table wanted halves
      end
  end.

Definition setUnreachableRoutes (table : Z) (wanted : bool) : RM (option error) := set_halves table wanted unreachableHalves.

Definition reconcile_bgp_wan (health : HealthStates) (t : translations) (acc : gateways * list error) (w : WAN) : RM (gateways * list error) :=
  let '(current, errs) := acc in
  if negb (familyConfigured w familyV6) then mret acc
  else
    let g := gateways_of current (wan_key w) in
    let ready := requiresBGP w && familyReady w g health (translation_of t (wan_key w)) familyV6 in
    ws ← wans;
    failed ← reconcileBGPTable w ready;
    failed ← (match failed with Some e => mret (Some e) | None => setUnreachableRoutes (wn_TableID w) (ready && is_empty (gs_V6 g)) end);
    mret match failed with
         | Some e => (excludeRouteFamily ws (wn_TableID w) familyV6 current, errs ++ [e])
         | None => acc
         end.

Definition reconcileBGPTables (health : HealthStates) (t : translations) (acc : gateways * list error) : RM (gateways * list error) :=
  ws ← wans; foldM (reconcile_bgp_wan health t) acc ws.

(** *** Rules *)

Definition is_catch_all (r : DesiredRule) : bool := dru_Priority r =? catchAllPriority.

Definition reconcile_rule (acc : gateways * list error) (r : DesiredRule) : RM (gateways * list error) :=
  let '(current, errs) := acc in
  if is_catch_all r then mret acc
  else
    ws ← wans;
    failed ← act (ReconcileRules [r]) (RRule r);
    mret match failed with
         | Some e => (excludeRouteFamily ws (dru_TableID r) (dru_Family r) current, errs ++ [e])
         | None => acc
         end.

Definition reconcile_fallback (acc : gateways * list error) (r : DesiredRule) : RM (gateways * list error) :=
  let '(current, errs) := acc in
  if negb (is_catch_all r) then mret acc
  else
    ws ← wans;
    failed ← act (ReconcileRules [r]) (RRule r);
    mret match failed with
         | Some e => (fold_left (fun c w => excludeRouteFamily ws (wn_TableID w) (dru_Family r) c) ws current, errs ++ [e])
         | None => acc
         end.

Definition remove_slot (desired : list ruleSlot) (errs : list error) (slot : ruleSlot) : RM (list error) :=
  if bool_decide (slot ∈ desired) then mret errs
  else
    failed ← act (RemoveRuleAtPriority slot.1 slot.2) (RRemoveRule slot.1 slot.2);
    mret (errs ++ option_list failed).

Definition removeDisabledRuleSlots (rules : list DesiredRule) : RM (list error) :=
  cfg ← getM rm_cfg; foldM (remove_slot (rule_slot <$> rules)) [] (ownedRuleSlots cfg).

Definition checkNextHopLocked : RM unit :=
  cfg ← getM rm_cfg;
  resolved ← ask (NextHopResolves (rc_InternalIface cfg) (rc_OpnsenseEdgeV6 cfg));
  match resolved with
  | Err _ => mret tt
  | Ok true => setM (set_nextHopMisses 0)
  | Ok false => setM (fun m => set_nextHopMisses (incr (nextHopMisses m)) m)
  end.

(** *** Publication *)

Definition probeReasonV6 (m : routesModule) (key : string) : string :=
  let reason := default ""%string (tunnelReasons m !! key) in
  if is_empty reason then fp_v6 (default no_probe_reasons (probeReasons m !! key)) else reason.

Definition member_routing (m : routesModule) (current : gateways) (health : HealthStates) (t : translations)
    (v4 v6 : Z * bool) (w : WAN) : MemberRouting :=
  let key := wan_key w in
  let g := gateways_of current key in
  let tr := translation_of t key in
  let v4Ready := familyReady w g health tr familyV4 in
  let v6Ready := familyReady w g health tr familyV6 in
  let probed := fp_v4 (default no_probe_reasons (probeReasons m !! key)) in
  let v4Reason := if negb (is_empty probed) && familyConfigured w familyV4 then probed
                  else familyReason w g health tr familyV4 "" in
  let v6Reason := familyReason w g health tr familyV6 (probeReasonV6 m key) in
  mkMemberRouting
    (selection_enabled w && ((v4.2 && (wn_Tier w =? v4.1) && v4Ready) || (v6.2 && (wn_Tier w =? v6.1) && v6Ready)))
    (selection_enabled w) v4Ready v6Ready v4Reason v6Reason
    (familyDependencies w familyV4 v4Reason) (familyDependencies w familyV6 v6Reason)
    (default [] (ownedAddresses m !! key)).

Definition published_tier (v4 v6 : Z * bool) : Z :=
  if negb v4.2 || (v6.2 && (v6.1 <? v4.1)) then v6.1 else v4.1.

Definition members_of (m : routesModule) (current : gateways) (health : HealthStates) (t : translations) : Z * gmap string MemberRouting :=
  let ws := rc_WANs (rm_cfg m) in
  let v4 := ActiveTier (familyMembers ws current health t familyV4) health in
  let v6 := ActiveTier (familyMembers ws current health t familyV6) health in
  (published_tier v4 v6, fold_left (fun acc w => <[wan_key w := member_routing m current health t v4 v6 w]> acc) ws ∅).

Definition publishLiveState (current : gateways) (health : HealthStates) (t : translations) : RM unit :=
  live ← getM (fun m => en_LiveState (rm_env m));
  if negb live then mret tt
  else
    '(reasons, current) ← excludeUnreadyTunnelFamilies current health t;
    setM (set_tunnelReasons reasons) ;;
    '(tier, members) ← getM (fun m => members_of m current health t);
    emit (RPublish tier members).

(** *** The module's operations *)

Definition reconcile_with (health : HealthStates) (t : translations) (errs : list error) (current : gateways) : RM (list error) :=
  '(current, (_, routes)) ← desiredStateForPass current health t;
  '(current, errs) ← foldM reconcile_route (current, errs) routes;
  '(current, errs) ← reconcileBGPTables health t (current, errs);
  '(current, (rules, _)) ← desiredStateForPass current health t;
  '(current, errs) ← foldM reconcile_rule (current, errs) rules;
  '(current, (rules, _)) ← desiredStateForPass current health t;
  '(current, errs) ← foldM reconcile_fallback (current, errs) rules;
  '(current, (rules, _)) ← desiredStateForPass current health t;
  removeErrs ← removeDisabledRuleSlots rules;
  checkNextHopLocked ;;
  publishLiveState (if nonempty removeErrs then ∅ else current) health t ;;
  mret (errs ++ removeErrs).

Definition reconcile_tables (health : HealthStates) (missing : list error) (current : gateways) : RM (list error) :=
  t ← translationState;
  endpointErrs ← reconcileEndpointRoutes current;
  reconcile_with health t (missing ++ endpointErrs) current.

Definition reconcile_body : RM (list error) :=
  ownMappedAddressesLocked ;;
  d ← discoverGateways;
  if nonempty (di_failed d) then mret (di_missing d ++ di_failed d)
  else
    current ← excludeUnreadyOwnedFamilies (di_gateways d);
    ws ← wans;
    legs ← familyHealth;
    let reasons := probeExclusions ws legs in
    setM (set_probeReasons reasons) ;;
    let current := withoutExcludedFamilies current reasons in
    cfg ← getM rm_cfg;
    file ← ask (OpenHealthState (rc_HealthStateFile cfg));
    match ReadHealthState file with
    | Err e => mret (di_missing d ++ [e])
    | Ok health => reconcile_tables health (di_missing d) current
    end.

Definition Reconcile : RM (list error) :=
  refused ← act BeginForwardingChange RBegin;
  match refused with
  | Some e => mret [("prepare WAN routing change: " +:+ e)%string]
  | None => errs ← reconcile_body; act (fun w => (tt, FinishForwardingChange w)) (fun _ => RFinish) ;; mret errs
  end.

Definition Init : RM init_outcome :=
  m ← getM id;
  let ws := rc_WANs (rm_cfg m) in
  if negb (nonempty ws) then mret (InitDisabled "wan.routes: no [ifmgr.modules.wan.routes] section")
  else match validateConfig (rm_cfg m) with
       | Err e => mret (InitFailed e)
       | Ok _ =>
           if existsb (fun w => is_some (wn_Tunnel w)) ws && negb (en_EndpointJournal (rm_env m))
           then mret (InitFailed "wan.routes: tunnel provider requires the addresses module state_file")
           else
             failed ← ask StartRuleMonitor;
             mret match failed with
                  | Some e => InitFailed ("start policy-rule monitor: " +:+ e)
                  | None => Initialised
                  end
       end.

Definition EvaluateAlerts : RM unit :=
  m ← getM id;
  if negb (en_Alerts (rm_env m)) then mret tt
  else emit (if nextHopAlertThreshold <=? nextHopMisses m
             then RNotify alertKindNextHopUnresolved (rc_OpnsenseEdgeV6 (rm_cfg m))
             else RResolve alertKindNextHopUnresolved (rc_OpnsenseEdgeV6 (rm_cfg m))).

Definition requestRepair (reason : string) : RM unit :=
  here ← getM (fun m => en_RequestReconcile (rm_env m)); whenM here (emit (RRequest reason)).

Definition kernel_protocol (r : RouteSpec) : Z := if rs_Protocol r =? 0 then RTPROT_BOOT else rs_Protocol r.

Definition is_deletion_of (event : KernelEvent) (r : RouteSpec) : bool :=
  bool_decide (ev_Family event = rs_Family r) && bool_decide (ev_Dest event = rs_Dest r) && bool_decide (ev_Via event = rs_Via r)
  && (ev_TableID event =? rs_TableID r) && (ev_Metric event =? rs_Metric r) && (ev_Protocol event =? kernel_protocol r).

Definition ownsInternalRouteDeletion (cfg : RoutesConfig) (event : KernelEvent) : bool :=
  bool_decide (ev_Iface event = rc_InternalIface cfg) && negb (bool_decide (ev_Dest event = "default"%string))
  && existsb (is_deletion_of event) (w ← rc_WANs cfg; wanInternalRoutes cfg w).

Definition ownsEndpointRouteDeletion (watched : gmap string RouteSpec) (event : KernelEvent) : bool :=
  bool_decide (ev_Family event = familyV4) && (ev_Protocol event =? TunnelEndpointRouteProtocol)
  && existsb (fun e => bool_decide (ev_Iface event = rs_Dev e.2) && (ev_TableID event =? rs_TableID e.2) && bool_decide (ev_Dest event = rs_Dest e.2)
                       && bool_decide (ev_Via event = rs_Via e.2) && (ev_Metric event =? rs_Metric e.2)) (map_to_list watched).

Definition isDefaultRouteEvent (event : KernelEvent) : bool :=
  bool_decide (ev_Dest event = "default"%string)
  && (bool_decide (ev_Kind event = EvRouteAdded) || bool_decide (ev_Kind event = EvRouteDeleted)).

Definition onMonitorEvent (event : KernelEvent) : RM unit :=
  m ← getM id;
  if bool_decide (ev_Kind event = EvResync) then requestRepair "interface monitor resubscribed"
  else if bool_decide (ev_Kind event = EvRouteDeleted) && ownsInternalRouteDeletion (rm_cfg m) event
       then requestRepair "owned return route deleted"
  else if bool_decide (ev_Kind event = EvRouteDeleted) && ownsEndpointRouteDeletion (endpointWatch m) event
       then requestRepair "owned tunnel endpoint route deleted"
  else if negb (isDefaultRouteEvent event) then mret tt
  else Reconcile ;; whenM (ev_TableID event =? RT_TABLE_MAIN) (requestRepair "provider main default route changed").

Record RuleEvent := mkRuleEvent { re_Resync : bool; re_rule : DesiredRule }.

(** A deleted rule is compared on everything but the name of its table. *)
Definition same_rule (a b : DesiredRule) : bool :=
  bool_decide (dru_Family a = dru_Family b) && (dru_Priority a =? dru_Priority b) && (dru_TableID a =? dru_TableID b)
  && bool_decide (dru_From a = dru_From b) && (dru_Mark a =? dru_Mark b) && bool_decide (dru_IifName a = dru_IifName b)
  && bool_decide (dru_UIDRange a = dru_UIDRange b).

Definition ownsDesiredRuleDeletion (rule : DesiredRule) : RM bool :=
  d ← discoverGateways;
  if nonempty (di_failed d) then mret false
  else
    cfg ← getM rm_cfg;
    file ← ask (OpenHealthState (rc_HealthStateFile cfg));
    match ReadHealthState file with
    | Err _ => mret false
    | Ok health =>
        t ← translationState;
        legs ← familyHealth;
        let current := withoutExcludedFamilies (di_gateways d) (probeExclusions (rc_WANs cfg) legs) in
        '(_, current) ← excludeUnreadyTunnelFamilies current health t;
        mret (existsb (same_rule rule) (desiredRules cfg current health t))
    end.

Definition onRuleEvent (event : RuleEvent) : RM unit :=
  if re_Resync event then requestRepair "policy rule monitor resubscribed"
  else owns ← ownsDesiredRuleDeletion (re_rule event); whenM owns (requestRepair "owned policy rule deleted").
End Pass.
