(* ===== verification/WanRoutesProps.v ===== *)
(** * What a routing pass establishes (gateway/internal/ifmgr/modules/wanroutes)

    A pass only ever takes families out of the set of gateways it found: [shrinks].  Every
    stage of the pass establishes a fact about the families it left in, and a fact of this
    kind survives further shrinking, so at the end a family that is still in has all of
    them. *)

From S2P Require Import Prelude GoStrings Effects NptPolicy Intent Observation BgpConfig Tier Notify Health.
From S2P Require Import BgpFib NetWire NetLink NetProvider WanState WanRoutes.

Local Open Scope Z_scope.

(** ** Gateways *)

(** What the gateways say about one family. *)
Definition part (family : string) (g : gatewaySet) : string * bool :=
  if bool_decide (family = familyV6) then (gs_V6 g, gs_V6Routed g) else (gs_V4 g, false).

Definition nothing : string * bool := (""%string, false).

Definition shrinks (c c' : gateways) : Prop :=
  forall key family, family ∈ families ->
    part family (gateways_of c' key) = part family (gateways_of c key) \/ part family (gateways_of c' key) = nothing.

#[export] Instance shrinks_preorder : PreOrder shrinks.
Proof.
  split; [intros c key family _; by left|].
  intros a b c H1 H2 key family Hf. destruct (H2 key family Hf) as [->| ->]; [|by right]. by apply H1.
Qed.

Definition cut_off (c : gateways) (family : string) (w : WAN) : Prop := part family (gateways_of c (wan_key w)) = nothing.

#[export] Instance cut_off_dec c family w : Decision (cut_off c family w).
Proof. unfold cut_off. apply _. Defined.

Lemma known_part family g : gateway_known family g = negb (is_empty (part family g).1) || (part family g).2.
Proof. unfold gateway_known, part. case_bool_decide; cbn; [done|]. by rewrite orb_false_r. Qed.

Lemma gateways_of_insert c k g key : gateways_of (<[k := g]> c) key = if decide (k = key) then g else gateways_of c key.
Proof. unfold gateways_of. rewrite lookup_insert. by case_decide. Qed.

Lemma family_cases family : family ∈ families -> family = familyV4 \/ family = familyV6.
Proof. set_solver. Qed.

Lemma v4_family : familyV4 ∈ families.
Proof. left. Qed.
Lemma v6_family : familyV6 ∈ families.
Proof. right. left. Qed.

Lemma part_without f family g : f ∈ families -> family ∈ families ->
  part family (without_family f g) = if decide (f = family) then nothing else part family g.
Proof. intros [-> | ->]%family_cases [-> | ->]%family_cases; reflexivity. Qed.

Lemma shrinks_insert c k g : (forall family, family ∈ families -> part family g = part family (gateways_of c k) \/ part family g = nothing) ->
  shrinks c (<[k := g]> c).
Proof. intros H key family Hf. rewrite gateways_of_insert. case_decide as E; [subst; by apply H|by left]. Qed.

Lemma shrinks_without c k f : f ∈ families -> shrinks c (<[k := without_family f (gateways_of c k)]> c).
Proof. intros Hf. apply shrinks_insert. intros family Hg. rewrite part_without by done. case_decide; auto. Qed.

Lemma cut_shrinks c c' family w : family ∈ families -> shrinks c c' -> cut_off c family w -> cut_off c' family w.
Proof. intros Hf Hs Hc. unfold cut_off. destruct (Hs (wan_key w) family Hf) as [->| ->]; done. Qed.

Lemma exclude_shrinks ws table f c : f ∈ families -> shrinks c (excludeRouteFamily ws table f c).
Proof.
  intros Hf. unfold excludeRouteFamily. revert c. induction ws as [|w ws IH]; intros c; cbn; [reflexivity|].
  etransitivity; [|apply IH]. destruct (_ =? _); [by apply shrinks_without|reflexivity].
Qed.

Lemma exclude_cut ws table f c w : f ∈ families -> w ∈ ws -> wn_TableID w = table -> cut_off (excludeRouteFamily ws table f c) f w.
Proof.
  intros Hf Hw Ht. unfold excludeRouteFamily. revert c. induction ws as [|v ws IH]; intros c; [by apply not_elem_of_nil in Hw|].
  cbn. apply elem_of_cons in Hw as [<-|Hw]; [|by apply IH].
  apply (cut_shrinks _ _ _ _ Hf (exclude_shrinks ws table f _ Hf)). unfold cut_off. rewrite Ht, Z.eqb_refl, gateways_of_insert, decide_True by done.
  by rewrite part_without, decide_True by done.
Qed.

Lemma excluded_shrinks c exclusions : shrinks c (withoutExcludedFamilies c exclusions).
Proof.
  intros key family Hf. unfold gateways_of, withoutExcludedFamilies. rewrite map_lookup_imap. destruct (c !! key) as [g|]; cbn; [|by left].
  unfold excluded_gateways. destruct (is_empty _), (is_empty _); apply family_cases in Hf as [-> | ->]; cbn; auto.
Qed.

(** ** The plan depends on a family's part only *)

Section Plan.
Context `{PT : !PrefixText} `{NT : !NetText}.

Lemma condition_part w g g' health t family condition : part family g = part family g' ->
  condition_met w g health t family condition = condition_met w g' health t family condition.
Proof. intros H. unfold condition_met. by rewrite !known_part, H. Qed.

Lemma conditions_part conditions w g g' health t family : part family g = part family g' ->
  conditionsMet conditions w g health t family = conditionsMet conditions w g' health t family.
Proof. intros H. unfold conditionsMet. induction conditions as [|c cs IH]; cbn; [done|]. by rewrite (condition_part w g g'), IH. Qed.

Lemma conditions_gateway conditions w g health t family : PolicyConditionGateway ∈ conditions ->
  conditionsMet conditions w g health t family = true -> part family g <> nothing.
Proof.
  intros Hin H E. unfold conditionsMet in H. rewrite forallb_forall in H. specialize (H _ (proj1 (list_elem_of_In _ _) Hin)).
  unfold condition_met in H. rewrite bool_decide_false, bool_decide_true, known_part, E in H by done. done.
Qed.

Lemma ready_gateway w g health t family : familyReady w g health t family = true -> part family g <> nothing.
Proof. unfold familyReady. intros [_ H]%andb_true_iff. eapply conditions_gateway, H. set_solver. Qed.

(** A family still ready was ready before, with the same gateway. *)
Lemma shrinks_part c c' family w : shrinks c c' -> family ∈ families -> part family (gateways_of c' (wan_key w)) <> nothing ->
  part family (gateways_of c' (wan_key w)) = part family (gateways_of c (wan_key w)).
Proof. intros Hs Hf Hn. by destruct (Hs (wan_key w) family Hf). Qed.

Lemma ready_back c c' health t family w : shrinks c c' -> family ∈ families ->
  family_ready_in c' health t family w = true ->
  family_ready_in c health t family w = true /\
  part family (gateways_of c' (wan_key w)) = part family (gateways_of c (wan_key w)).
Proof.
  intros Hs Hf Hr. pose proof (shrinks_part c c' family w Hs Hf (ready_gateway _ _ _ _ _ Hr)) as Hp. split; [|done].
  unfold family_ready_in, familyReady in *. by rewrite (conditions_part _ w _ _ _ _ _ (eq_sym Hp)).
Qed.

(** The shape of a provider's policy rules. *)
Lemma policy_rule_gateway p intent : intent ∈ ConfiguredPolicyRules p ->
  PolicyConditionGateway ∈ ActivationConditions intent /\ kernel_family (pr_Family intent) ∈ families.
Proof.
  unfold ConfiguredPolicyRules, family_policy_rules. rewrite elem_of_app.
  intros [H|H]; [destruct (pp_IPv4 p) as [s|]|destruct (pp_IPv6 p) as [s|] ]; try by apply not_elem_of_nil in H.
  all: apply elem_of_cons in H as [->|H]; [cbn; split; set_solver|].
  all: destruct (_ || _); [|by apply not_elem_of_nil in H].
  all: apply list_elem_of_singleton in H as ->; cbn; split; set_solver.
Qed.

Lemma wan_rule_back c c' health t w r : shrinks c c' ->
  r ∈ wan_state wanRules c' health t w -> r ∈ wan_state wanRules c health t w.
Proof.
  intros Hs. unfold wan_state, wanRules. rewrite !list_elem_of_omap. intros (intent & Hi & H). exists intent. split; [done|].
  destruct (policy_rule_gateway _ _ Hi) as [Hg Hf]. unfold wan_rule in *.
  destruct (conditionsMet _ w (gateways_of c' _) _ _ _) eqn:E; [|done].
  rewrite (conditions_part _ w _ (gateways_of c' (wan_key w))), E; [done|].
  symmetry. apply (shrinks_part c c'); [done|done|]. by eapply conditions_gateway.
Qed.

Lemma wan_rule_ready c health t w r : r ∈ wan_state wanRules c health t w ->
  dru_Family r ∈ families /\ dru_TableID r = wn_TableID w /\ part (dru_Family r) (gateways_of c (wan_key w)) <> nothing.
Proof.
  unfold wan_state, wanRules. rewrite list_elem_of_omap. intros (intent & Hi & H).
  destruct (policy_rule_gateway _ _ Hi) as [Hg Hf]. unfold wan_rule in H. destruct (conditionsMet _ _ _ _ _ _) eqn:E; [|done].
  injection H as <-. cbn. split_and!; [done| |by eapply conditions_gateway].
  clear -Hi. unfold ConfiguredPolicyRules, family_policy_rules, policy_provider in Hi.
  destruct (IPv6Translation_PolicySource _) as [[pt ec] ext]. rewrite elem_of_app in Hi. cbn in Hi.
  destruct Hi as [H|H]; [destruct (is_some (wn_TranslationV4 w))|destruct (is_some (wn_TranslationV6 w))]; try by apply not_elem_of_nil in H.
  all: apply elem_of_cons in H as [->|H]; [done|].
  all: destruct (_ || _); [|by apply not_elem_of_nil in H].
  all: by apply list_elem_of_singleton in H as ->.
Qed.
End Plan.

(** ** Steps of the pass *)

Definition is_publication (e : revent) : bool := match e with RPublish _ _ => true | _ => false end.

Section Pass.
Context {W : Type} `{PT : !PrefixText} `{NT : !NetText} `{RW : !RouteWriter W} `{MO : !MapOrder W}
  `{RK : !RouteKernel W} `{RE : !RoutesEnv W}.

Abbreviation RM := (M (rsys W)).

(** A step that publishes nothing: the configuration and the probe reasons stay, the log grows. *)
Definition quiet (s s' : rsys W) : Prop :=
  rm_cfg (rmod s') = rm_cfg (rmod s) /\ rm_env (rmod s') = rm_env (rmod s) /\ probeReasons (rmod s') = probeReasons (rmod s) /\
  exists evs, rlog s' = rlog s ++ evs /\ Forall (fun e => is_publication e = false) evs.

#[local] Instance quiet_preorder : PreOrder quiet.
Proof.
  split.
  - intros s. split_and!; [done..|]. exists []. by rewrite app_nil_r.
  - intros a b c (H1 & H2 & H3 & e1 & E1 & F1) (H4 & H5 & H6 & e2 & E2 & F2). split_and!; [congruence..|].
    exists (e1 ++ e2). rewrite E2, E1, app_assoc. split; [done|by apply Forall_app].
Qed.

Lemma quiet_cfg s s' : quiet s s' -> rm_cfg (rmod s') = rm_cfg (rmod s).
Proof. by intros []. Qed.

Lemma quiet_log s s' e : quiet s s' -> e ∈ rlog s -> e ∈ rlog s'.
Proof. intros (_ & _ & _ & evs & -> & _). set_solver. Qed.

Lemma quiet_getM {A} (f : routesModule -> A) : sat (getM (W:=W) f) quiet.
Proof. intros s. cbn. reflexivity. Qed.

Lemma quiet_ask {A} (f : W -> A * W) : sat (ask f) quiet.
Proof. intros s. unfold ask. destruct (f (rworld s)). cbn. split_and!; [done..|]. exists []. by rewrite app_nil_r. Qed.

Lemma quiet_act {A} (f : W -> A * W) event : (forall a, is_publication (event a) = false) -> sat (act f event) quiet.
Proof.
  intros H s. unfold act. destruct (f (rworld s)) as [a w]. cbn. split_and!; [done..|]. exists [event a]. split; [done|]. by constructor.
Qed.

Lemma quiet_setM f : (forall m, rm_cfg (f m) = rm_cfg m /\ rm_env (f m) = rm_env m /\ probeReasons (f m) = probeReasons m) ->
  sat (setM (W:=W) f) quiet.
Proof. intros H s. destruct (H (rmod s)) as (H1 & H2 & H3). split_and!; [done..|]. exists []. cbn. by rewrite app_nil_r. Qed.

#[local] Hint Resolve quiet_getM quiet_ask : wanroutes.
#[local] Hint Extern 1 (sat (act _ _) quiet) => apply quiet_act; done : wanroutes.
#[local] Hint Extern 1 (sat (setM _) quiet) => apply quiet_setM; done : wanroutes.
Ltac quiet_steps := sat_steps ltac:(solve [auto 2 with wanroutes nocore]).

Lemma quiet_service {A} present (none : A) f : sat (service present none f) quiet.
Proof. unfold service. quiet_steps. Qed.
#[local] Hint Resolve quiet_service : wanroutes.

Lemma quiet_wans : sat (wans (W:=W)) quiet.
Proof. apply quiet_getM. Qed.
#[local] Hint Resolve quiet_wans : wanroutes.

Lemma quiet_sessions w : sat (bgpSessionStates w) quiet.
Proof. apply quiet_service. Qed.
#[local] Hint Resolve quiet_sessions : wanroutes.

Lemma quiet_own : sat ownMappedAddressesLocked quiet.
Proof. unfold ownMappedAddressesLocked, own_wan, own_address. quiet_steps. Qed.

Lemma quiet_discover : sat discoverGateways quiet.
Proof. unfold discoverGateways, discover_wan, discover_family. quiet_steps. Qed.

Lemma quiet_owned c : sat (excludeUnreadyOwnedFamilies c) quiet.
Proof. unfold excludeUnreadyOwnedFamilies, exclude_owned. quiet_steps. Qed.

Lemma quiet_unready c health t w : sat (unready_reason c health t w) quiet.
Proof. unfold unready_reason, tunnelPathReason, tunnelLinkApplied, endpointRouteInstalled. quiet_steps. Qed.
#[local] Hint Resolve quiet_unready : wanroutes.

Lemma quiet_tunnels c health t : sat (excludeUnreadyTunnelFamilies c health t) quiet.
Proof. unfold excludeUnreadyTunnelFamilies, exclude_tunnel. quiet_steps. Qed.
#[local] Hint Resolve quiet_tunnels : wanroutes.

Lemma quiet_desired c health t : sat (desiredStateForPass c health t) quiet.
Proof. unfold desiredStateForPass. quiet_steps. Qed.

Lemma quiet_endpoints c : sat (reconcileEndpointRoutes c) quiet.
Proof.
  unfold reconcileEndpointRoutes, ensure_endpoint. quiet_steps.
Qed.

Lemma quiet_default r : sat (reconcileTableDefault r) quiet.
Proof. unfold reconcileTableDefault. quiet_steps. Qed.
#[local] Hint Resolve quiet_default : wanroutes.

Lemma quiet_route acc r : sat (reconcile_route acc r) quiet.
Proof. unfold reconcile_route. quiet_steps. Qed.

Lemma quiet_copy w learned copied : sat (copy_learned w learned copied) quiet.
Proof. revert copied. induction learned as [|r learned IH]; intros copied; cbn; quiet_steps; apply IH. Qed.
#[local] Hint Resolve quiet_copy : wanroutes.

Lemma quiet_stale w copied installed : sat (remove_stale w copied installed) quiet.
Proof. induction installed as [|r installed IH]; cbn; quiet_steps; apply IH. Qed.
#[local] Hint Resolve quiet_stale : wanroutes.

Lemma quiet_bgp_table w ready : sat (reconcileBGPTable w ready) quiet.
Proof. unfold reconcileBGPTable. quiet_steps. Qed.

Lemma quiet_halves table wanted halves : sat (set_halves table wanted halves) quiet.
Proof. induction halves as [|half halves IH]; cbn; quiet_steps; apply IH. Qed.
#[local] Hint Resolve quiet_bgp_table quiet_halves : wanroutes.

Lemma quiet_bgp_wan health t acc w : sat (reconcile_bgp_wan health t acc w) quiet.
Proof. unfold reconcile_bgp_wan, setUnreachableRoutes. quiet_steps. Qed.

Lemma quiet_rule acc r : sat (reconcile_rule acc r) quiet.
Proof. unfold reconcile_rule. quiet_steps. Qed.

Lemma quiet_fallback acc r : sat (reconcile_fallback acc r) quiet.
Proof. unfold reconcile_fallback. quiet_steps. Qed.

Lemma quiet_remove rules : sat (removeDisabledRuleSlots rules) quiet.
Proof. unfold removeDisabledRuleSlots, remove_slot. quiet_steps. Qed.

Lemma quiet_next_hop : sat checkNextHopLocked quiet.
Proof. unfold checkNextHopLocked. quiet_steps. Qed.

Lemma wp_quiet {A} (m : RM A) Q s : sat m quiet -> wp m (fun a s' => quiet s s' -> Q a s') s -> wp m Q s.
Proof. apply wp_sat. Qed.

Lemma wp_getM {A} (f : routesModule -> A) Q (s : rsys W) : Q (f (rmod s)) s -> wp (getM f) Q s.
Proof. done. Qed.

Lemma wp_act {A} (f : W -> A * W) event Q s :
  (forall a w, Q a (mkRsys (rmod s) w (rlog s ++ [event a]))) -> wp (act f event) Q s.
Proof. intros H. unfold wp, act. destruct (f (rworld s)) as [a w]. apply H. Qed.

Lemma wp_any {A} (m : RM A) (Q : A -> rsys W -> Prop) s : (forall a s', Q a s') -> wp m Q s.
Proof. intros H. apply H. Qed.

Lemma wp_wans Q (s : rsys W) : Q (rc_WANs (rm_cfg (rmod s))) s -> wp wans Q s.
Proof. done. Qed.

(** *** Tunnels and sessions *)

Section Stages.
Context (cfg : RoutesConfig) (health : HealthStates) (t : translations).
Abbreviation ws := (rc_WANs cfg).
Abbreviation ready c family w := (family_ready_in c health t family w = true).

(** Why a provider's IPv6 may be held back. *)
Definition v6_reasons (w : WAN) : list string :=
  (if is_some (wn_Tunnel w)
   then [reasonTunnelLinkAbsent; reasonUnderlayNotReady; reasonEndpointRouteAbsent; reasonProbeFailed; reasonProbePending] else []) ++
  (if requiresBGP w then [reasonBGPNotEstablished; reasonBGPNoAcceptedRoute] else []).

Lemma bgpReason_cases sessions : bgpReason sessions ∈ [""%string; reasonBGPNotEstablished; reasonBGPNoAcceptedRoute].
Proof. unfold bgpReason. destruct sessions; [set_solver|]. destruct (existsb _ _); [set_solver|]. destruct (_ =? _)%nat; set_solver. Qed.

Lemma unready_cases c w (s : rsys W) : wp (unready_reason c health t w) (fun r _ => r <> ""%string -> r ∈ v6_reasons w) s.
Proof.
  unfold unready_reason. apply wp_bind. eapply (wp_mono _ (fun path _ => path <> ""%string -> path ∈ v6_reasons w)).
  - unfold tunnelPathReason, v6_reasons. destruct (wn_Tunnel w); cbn; [|by apply wp_ret].
    apply wp_bind, wp_any. intros applied s1. apply wp_bind, wp_wans, wp_bind, wp_getM, wp_ret. destruct applied; cbn; [|set_solver].
    destruct (underlay_ready _ _ _ _ _); cbn; [|set_solver]. destruct (is_some _); cbn; set_solver.
  - intros path s1 Hp. apply wp_bind. eapply (wp_mono _ (fun r _ => r <> ""%string -> r ∈ v6_reasons w)).
    + destruct (is_empty path && requiresBGP w) eqn:E; [|by apply wp_ret].
      apply andb_true_iff in E as [_ Eb]. apply wp_bind, wp_any. intros sessions s2. apply wp_ret. intros Hne. unfold v6_reasons. rewrite Eb.
      pose proof (bgpReason_cases sessions). apply elem_of_app. right. set_solver.
    + intros r s2 Hr. apply wp_ret. destruct (is_empty r && _) eqn:E; [|done].
      apply andb_true_iff in E as [_ Et]. unfold tunnelProbeReason, v6_reasons. rewrite Et.
      case_bool_decide; [set_solver|]. case_bool_decide; cbn; set_solver.
Qed.

(** What the exclusion of tunnels and sessions returns: every reason is one of the provider's and
    its IPv6 is cut off. *)
Definition reasons_sound (done_ : list WAN) (reasons : gmap string string) (c : gateways) : Prop :=
  forall key r, reasons !! key = Some r -> r <> ""%string /\
    exists w, w ∈ done_ /\ wan_key w = key /\ r ∈ v6_reasons w /\ cut_off c familyV6 w.

Lemma without_v6_family g : withoutV6 g = without_family familyV6 g.
Proof. reflexivity. Qed.

Lemma tunnels_excluded c s : rm_cfg (rmod s) = cfg ->
  wp (excludeUnreadyTunnelFamilies c health t) (fun r s' => quiet s s' /\ shrinks c r.2 /\ reasons_sound ws r.1 r.2) s.
Proof.
  intros Hcfg. apply wp_quiet; [apply quiet_tunnels|]. unfold excludeUnreadyTunnelFamilies. apply wp_bind, wp_wans. rewrite Hcfg.
  eapply wp_mono; [apply (wp_foldM _ (fun done_ r _ => shrinks c r.2 /\ reasons_sound done_ r.1 r.2))|].
  - split; [reflexivity|]. intros key r H. cbn in H. by rewrite lookup_empty in H.
  - intros dn w todo [reasons c'] s1 _ [Hs Hr]. cbn in *. unfold exclude_tunnel.
    assert (reasons_sound (dn ++ [w]) reasons c') as Hkeep.
    { intros key r H. destruct (Hr key r H) as (? & v & Hv & ?). split; [done|]. exists v. split; [by apply elem_of_app; left|done]. }
    destruct (_ && _); [by apply wp_ret|]. apply wp_bind. eapply wp_mono; [apply unready_cases|]. intros r s2 Hc. apply wp_ret.
    destruct (is_empty r) eqn:E; [done|]. apply is_empty_false in E. cbn. rewrite without_v6_family.
    assert (shrinks c' (<[wan_key w:=without_family familyV6 (gateways_of c' (wan_key w))]> c')) as Hsh by (apply shrinks_without, v6_family).
    split; [by etransitivity|]. intros key r'. rewrite lookup_insert. case_decide as Ek.
    + intros [= <-]. split; [done|]. exists w. split_and!; [set_solver|done|by apply Hc|].
      unfold cut_off. rewrite gateways_of_insert, decide_True by done. reflexivity.
    + intros H. destruct (Hkeep key r' H) as (? & v & Hv & Hkv & Hrv & Hcut). split; [done|]. exists v. split_and!; [done..|].
      eapply cut_shrinks; [exact v6_family|exact Hsh|done].
  - intros [reasons c'] s1 H Hq. by split.
Qed.

Lemma desired_for_pass c s : rm_cfg (rmod s) = cfg ->
  wp (desiredStateForPass c health t) (fun r s' => quiet s s' /\ shrinks c r.1 /\ r.2 = desiredState cfg r.1 health t) s.
Proof.
  intros Hcfg. apply wp_quiet; [apply quiet_desired|]. unfold desiredStateForPass. apply wp_bind.
  eapply wp_mono; [by apply tunnels_excluded|]. intros [reasons c'] s1 (Hq & Hs & _). cbn in *.
  apply wp_bind, wp_modify, wp_bind, wp_getM, wp_ret. intros Hq'. cbn. rewrite (quiet_cfg _ _ Hq), Hcfg. done.
Qed.

(** *** Facts about the families that are left *)

Abbreviation log := (list revent).

Definition default_installed (l : log) (r : RouteSpec) : Prop :=
  RDefault r None ∈ l /\ exists routes, RReadBack (rs_Family r) (rs_TableID r) (Ok routes) ∈ l /\ readback_error r routes = None.

Definition route_done (l : log) (r : RouteSpec) : Prop := if is_default r then default_installed l r else RRoute r None ∈ l.

Definition routes_in (l : log) (c : gateways) : Prop := forall w family, w ∈ ws -> family ∈ families -> ready c family w ->
  default_installed l (default_route family (part family (gateways_of c (wan_key w))).1 w) /\
  forall r, r ∈ wanInternalRoutes cfg w -> rs_Family r = family -> is_default r = false -> RRoute r None ∈ l.

Definition half_set (l : log) (table : Z) (wanted : bool) (half : string) : Prop :=
  exists e, RUnreachable table half wanted e ∈ l /\ (e = None \/ wanted = false /\ (nl_absent <$> e) = Some true).

Definition halves_in (l : log) (c : gateways) : Prop := forall w, w ∈ ws -> requiresBGP w = true -> ready c familyV6 w ->
  Forall (half_set l (wn_TableID w) (is_empty (gs_V6 (gateways_of c (wan_key w))))) unreachableHalves.

Definition rules_in (l : log) (c : gateways) : Prop := forall w r, w ∈ ws -> r ∈ wan_state wanRules c health t w -> is_catch_all r = false ->
  RRule r None ∈ l.

Definition extends (l l' : log) : Prop := forall e, e ∈ l -> e ∈ l'.

Lemma quiet_extends s s' : quiet s s' -> extends (rlog s) (rlog s').
Proof. intros H e. by apply quiet_log. Qed.

Lemma routes_carry l l' c c' : extends l l' -> shrinks c c' -> routes_in l c -> routes_in l' c'.
Proof.
  intros Hl Hs H w family Hw Hf Hr. destruct (ready_back c c' _ _ _ _ Hs Hf Hr) as [Hr' ->].
  destruct (H w family Hw Hf Hr') as [[Hd (routes & Hrb & He)] Hi]. split; [split; [by apply Hl|]|].
  - exists routes. split; [by apply Hl|done].
  - intros r ???. apply Hl. by apply Hi.
Qed.

Lemma halves_carry l l' c c' : extends l l' -> shrinks c c' -> halves_in l c -> halves_in l' c'.
Proof.
  intros Hl Hs H w Hw Hb Hr. destruct (ready_back c c' _ _ _ _ Hs v6_family Hr) as [Hr' Hp].
  specialize (H w Hw Hb Hr'). injection Hp as -> _. eapply Forall_impl; [exact H|].
  intros half (e & He & Ho). exists e. split; [by apply Hl|done].
Qed.

Lemma rules_carry l l' c c' : extends l l' -> shrinks c c' -> rules_in l c -> rules_in l' c'.
Proof. intros Hl Hs H w r Hw Hr Hc. apply Hl, (H w); [done| |done]. by eapply wan_rule_back. Qed.

(** A loop that takes a family out when its element fails leaves, at its end, only families whose
    elements all succeeded. *)
Lemma fails_closed {A} (body : gateways * list error -> A -> RM (gateways * list error)) (fails : A -> WAN -> string -> Prop)
    (achieved : log -> A -> Prop) (xs : list A) c errs s :
  (forall l l' x, extends l l' -> achieved l x -> achieved l' x) ->
  (forall x w family, fails x w family -> family ∈ families) ->
  (forall acc x, sat (body acc x) quiet) ->
  (forall c1 errs x s, shrinks c c1 -> x ∈ xs -> rm_cfg (rmod s) = cfg ->
     wp (body (c1, errs) x) (fun r s' => shrinks c1 r.1 /\ (achieved (rlog s') x \/ forall w family, w ∈ ws -> fails x w family -> cut_off r.1 family w)) s) ->
  rm_cfg (rmod s) = cfg ->
  wp (foldM body (c, errs) xs) (fun r s' => quiet s s' /\ shrinks c r.1 /\
    forall x, x ∈ xs -> achieved (rlog s') x \/ forall w family, w ∈ ws -> fails x w family -> cut_off r.1 family w) s.
Proof.
  intros Hmono Hfam Hq Hbody Hcfg.
  apply (wp_foldM _ (fun done_ r s' => quiet s s' /\ shrinks c r.1 /\
    forall x, x ∈ done_ -> achieved (rlog s') x \/ forall w family, w ∈ ws -> fails x w family -> cut_off r.1 family w)).
  - split_and!; [reflexivity..|]. intros x Hx. by apply not_elem_of_nil in Hx.
  - intros dn x todo [c1 e1] s1 Hxs (Hq1 & Hs1 & Hdone). apply wp_quiet; [apply Hq|]. eapply wp_mono.
    + apply Hbody; [done|rewrite Hxs; set_solver|]. by rewrite (quiet_cfg _ _ Hq1).
    + intros [c2 e2] s2 [Hs2 Hx] Hq2. cbn in *. split_and!; [by etransitivity..|].
      intros y [Hy| ->%list_elem_of_singleton]%elem_of_app; [|done].
      destruct (Hdone y Hy) as [H|H]; [left; eapply Hmono; [by apply quiet_extends|done]|right].
      intros w family Hw Hfl. eapply cut_shrinks; [by eapply Hfam|done|by apply H].
Qed.

(** *** The stages *)

Lemma default_reconciled r (s : rsys W) : wp (reconcileTableDefault r) (fun e s' => e = None -> default_installed (rlog s') r) s.
Proof.
  unfold reconcileTableDefault. apply wp_bind, wp_act. intros [e|] w1; [by apply wp_ret|].
  apply wp_bind, wp_act. intros routes w2. apply wp_ret. cbn. destruct routes as [routes|e]; [|done]. intros He.
  split; [set_solver|]. exists routes. split; [set_solver|done].
Qed.

Definition route_fails (r : RouteSpec) (w : WAN) (family : string) : Prop :=
  family ∈ families /\ family = rs_Family r /\ wn_TableID w = rs_TableID r.

Lemma route_step c errs r s : rm_cfg (rmod s) = cfg -> rs_Family r ∈ families ->
  wp (reconcile_route (c, errs) r) (fun a s' => shrinks c a.1 /\
    (route_done (rlog s') r \/ forall w family, w ∈ ws -> route_fails r w family -> cut_off a.1 family w)) s.
Proof.
  intros Hcfg Hf. unfold reconcile_route. apply wp_bind, wp_wans, wp_bind. rewrite Hcfg.
  eapply (wp_mono _ (fun e s' => e = None -> route_done (rlog s') r)).
  - unfold route_done. destruct (is_default r); [apply default_reconciled|].
    apply wp_bind, wp_act. intros e w1. apply wp_ret. destruct e; cbn; [done|]. intros _. set_solver.
  - intros [e|] s1 H; apply wp_ret; cbn; [|split; [reflexivity|left; by apply H] ]. split; [by apply exclude_shrinks|right].
    intros w family Hw (Hf' & -> & Ht). by apply exclude_cut.
Qed.

Lemma route_done_extends l l' r : extends l l' -> route_done l r -> route_done l' r.
Proof.
  intros Hl. unfold route_done, default_installed. destruct (is_default r); [|apply Hl].
  intros [H1 (routes & H2 & H3)]. split; [by apply Hl|]. exists routes. split; [by apply Hl|done].
Qed.

Lemma desired_route_family c r : r ∈ desiredRoutes cfg c health t -> rs_Family r ∈ families.
Proof.
  unfold desiredRoutes. rewrite list_elem_of_bind. intros (w & [H|H]%elem_of_app & _).
  - unfold wan_state, wanDefaultRoutes in H. apply list_elem_of_fmap in H as (family & -> & H). done.
  - unfold wanInternalRoutes in H. destruct (is_some (wn_TranslationV4 w)), (is_some (wn_TranslationV6 w));
      cbn in H; repeat (apply elem_of_cons in H as [->|H]; [cbn; set_solver|]); by apply not_elem_of_nil in H.
Qed.

Lemma family_gateway_part family g : family_gateway family g = (part family g).1.
Proof. unfold family_gateway, part. by case_bool_decide. Qed.

Lemma routes_stage c errs s : rm_cfg (rmod s) = cfg ->
  wp (foldM reconcile_route (c, errs) (desiredRoutes cfg c health t))
    (fun a s' => quiet s s' /\ shrinks c a.1 /\ routes_in (rlog s') a.1) s.
Proof.
  intros Hcfg. eapply wp_mono.
  - apply (fails_closed _ route_fails route_done); [apply route_done_extends|by intros ??? []|apply quiet_route| |done].
    intros c1 e1 r s1 _ Hr Hs1. apply route_step; [done|]. by eapply desired_route_family.
  - intros [c' e'] s' (Hq & Hs & H). cbn in *. split_and!; [done..|]. intros w family Hw Hf Hr.
    pose proof (ready_gateway _ _ _ _ _ Hr) as Hn. destruct (ready_back c c' _ _ _ _ Hs Hf Hr) as [Hr' Hp].
    assert (forall r, r ∈ desiredRoutes cfg c health t -> rs_Family r = family -> rs_TableID r = wn_TableID w -> route_done (rlog s') r) as Hdone.
    { intros r Hin <- Ht. destruct (H r Hin) as [|Hcut]; [done|]. exfalso. apply Hn, (Hcut w (rs_Family r) Hw). by split. }
    split.
    + rewrite Hp, <- family_gateway_part. apply (Hdone (default_route family _ w)); [|done|done].
      unfold desiredRoutes. apply list_elem_of_bind. exists w. split; [|done]. apply elem_of_app. left.
      unfold wan_state, wanDefaultRoutes. apply list_elem_of_fmap. exists family. unfold family_ready_in in Hr'. by rewrite Hr'.
    + intros r Hi <- Hd. assert (route_done (rlog s') r) as Hrd; [|unfold route_done in Hrd; by rewrite Hd in Hrd].
      apply Hdone; [unfold desiredRoutes; apply list_elem_of_bind; exists w; split; [by apply elem_of_app; right|done]|done|].
      unfold wanInternalRoutes in Hi. destruct (is_some (wn_TranslationV4 w)), (is_some (wn_TranslationV6 w));
        cbn in Hi; repeat (apply elem_of_cons in Hi as [->|Hi]; [done|]); by apply not_elem_of_nil in Hi.
Qed.

Lemma halves_set table wanted halves (s : rsys W) :
  wp (set_halves table wanted halves) (fun e s' => e = None -> Forall (half_set (rlog s') table wanted) halves) s.
Proof.
  revert s. induction halves as [|half halves IH]; intros s; cbn [set_halves]; [by apply wp_ret|].
  apply wp_bind, wp_act. intros e w1.
  assert (e = None \/ wanted = false /\ (nl_absent <$> e) = Some true ->
    wp (set_halves table wanted halves) (fun e0 s' => e0 = None -> Forall (half_set (rlog s') table wanted) (half :: halves))
      (mkRsys (rmod s) w1 (rlog s ++ [RUnreachable table half wanted e]))) as Hgo.
  { intros He. apply wp_quiet; [apply quiet_halves|]. eapply wp_mono; [apply IH|]. intros e0 s' H Hq Hn. constructor; [|by apply H].
    exists e. split; [|done]. eapply quiet_log; [exact Hq|]. cbn. set_solver. }
  destruct e as [e|]; [|apply Hgo; by left]. destruct (negb wanted && nl_absent e) eqn:E; [|by apply wp_ret].
  apply Hgo. right. apply andb_true_iff in E as [E1%negb_true_iff E2]. split; [done|]. cbn. by rewrite E2.
Qed.

Definition bgp_fails (w v : WAN) (family : string) : Prop := v = w /\ family = familyV6.

Definition bgp_done (c : gateways) (l : log) (w : WAN) : Prop :=
  requiresBGP w = true -> ready c familyV6 w ->
  Forall (half_set l (wn_TableID w) (is_empty (gs_V6 (gateways_of c (wan_key w))))) unreachableHalves.

Lemma bgp_step c c1 errs w s : shrinks c c1 -> w ∈ ws -> rm_cfg (rmod s) = cfg ->
  wp (reconcile_bgp_wan health t (c1, errs) w) (fun a s' => shrinks c1 a.1 /\
    (bgp_done c (rlog s') w \/ forall v family, v ∈ ws -> bgp_fails w v family -> cut_off a.1 family v)) s.
Proof.
  intros Hs Hw Hcfg. unfold reconcile_bgp_wan. destruct (familyConfigured w familyV6) eqn:Ec; cbn [negb].
  2: { apply wp_ret. split; [reflexivity|left]. intros _ Hr. unfold family_ready_in, familyReady in Hr. by rewrite Ec in Hr. }
  apply wp_bind, wp_wans, wp_bind. rewrite Hcfg. apply wp_any. intros failed s1. apply wp_bind.
  set (g := gateways_of c1 (wan_key w)). set (rdy := requiresBGP w && _).
  eapply (wp_mono _ (fun e s' => e = None -> Forall (half_set (rlog s') (wn_TableID w) (rdy && is_empty (gs_V6 g))) unreachableHalves)).
  - destruct failed; [by apply wp_ret|]. apply halves_set.
  - intros [e|] s2 H; apply wp_ret; cbn.
    + split; [by apply exclude_shrinks, v6_family|right]. intros v family Hv [-> ->]. apply exclude_cut; [exact v6_family|exact Hv|reflexivity].
    + split; [reflexivity|]. destruct (decide (cut_off c1 familyV6 w)) as [Hcut|Hn]; [right; by intros v family _ [-> ->]|left].
      intros Hb Hr. pose proof (shrinks_part c c1 familyV6 w Hs v6_family Hn) as Hp. specialize (H eq_refl).
      assert (rdy = true) as Hrdy.
      { unfold rdy. rewrite Hb. cbn. unfold family_ready_in, familyReady in Hr |- *. by rewrite (conditions_part _ w g _ _ _ _ Hp). }
      rewrite Hrdy in H. cbn in H. unfold g in H. injection Hp as E _. by rewrite E in H.
Qed.

Lemma bgp_stage c errs s : rm_cfg (rmod s) = cfg ->
  wp (reconcileBGPTables health t (c, errs)) (fun a s' => quiet s s' /\ shrinks c a.1 /\ halves_in (rlog s') a.1) s.
Proof.
  intros Hcfg. unfold reconcileBGPTables. apply wp_bind, wp_wans. rewrite Hcfg. eapply wp_mono.
  - apply (fails_closed _ bgp_fails (bgp_done c)); [|intros ??? [_ ->]; apply v6_family|apply quiet_bgp_wan| |done].
    + intros l l' w Hl H Hb Hr. eapply Forall_impl; [by apply H|]. intros half (e & He & Ho). exists e. split; [by apply Hl|done].
    + intros c1 e1 w s1 Hs Hw Hs1. by apply bgp_step.
  - intros [c' e'] s' (Hq & Hs & H). cbn in *. split_and!; [done..|]. intros w Hw Hb Hr.
    pose proof (ready_gateway _ _ _ _ _ Hr) as Hn. destruct (ready_back c c' _ _ _ _ Hs v6_family Hr) as [Hr' Hp].
    destruct (H w Hw) as [Hd|Hcut]; [|exfalso; by apply Hn, (Hcut w familyV6 Hw)].
    injection Hp as -> _. by apply Hd.
Qed.

Lemma desired_rule_family c r : r ∈ desiredRules cfg c health t -> dru_Family r ∈ families.
Proof.
  unfold desiredRules. rewrite elem_of_app. intros [(w & Hr & _)%list_elem_of_bind|(family & Hf & Hr)%list_elem_of_omap].
  - by apply wan_rule_ready in Hr as [].
  - by apply fmap_Some in Hr as (w & _ & ->).
Qed.

Definition rule_fails (r : DesiredRule) (w : WAN) (family : string) : Prop :=
  family ∈ families /\ family = dru_Family r /\ wn_TableID w = dru_TableID r.

Lemma rules_stage c errs s : rm_cfg (rmod s) = cfg ->
  wp (foldM reconcile_rule (c, errs) (desiredRules cfg c health t))
    (fun a s' => quiet s s' /\ shrinks c a.1 /\ rules_in (rlog s') a.1) s.
Proof.
  intros Hcfg. eapply wp_mono.
  - apply (fails_closed _ rule_fails (fun l r => is_catch_all r = false -> dru_Family r ∈ families -> RRule r None ∈ l));
      [intros l l' r Hl H ??; apply Hl; by apply H|by intros ??? []|apply quiet_rule| |done].
    intros c1 e1 r s1 _ Hr Hs1. unfold reconcile_rule. destruct (is_catch_all r) eqn:E; [apply wp_ret; split; [reflexivity|by left]|].
    apply wp_bind, wp_wans, wp_bind, wp_act. rewrite Hs1. intros [e|] w1; apply wp_ret; cbn;
      [|split; [reflexivity|left; intros _ _; set_solver] ].
    apply desired_rule_family in Hr. split; [by apply exclude_shrinks|right]. intros w family Hw (Hf' & -> & Ht). by apply exclude_cut.
  - intros [c' e'] s' (Hq & Hs & H). cbn in *. split_and!; [done..|]. intros w r Hw Hr Hc.
    destruct (wan_rule_ready _ _ _ _ _ Hr) as (Hf & Ht & Hn).
    destruct (H r) as [Hd|Hcut]; [|by apply Hd|exfalso; apply Hn, (Hcut w _ Hw); by split].
    unfold desiredRules. apply elem_of_app. left. apply list_elem_of_bind. exists w. split; [by eapply wan_rule_back|done].
Qed.

Lemma fallback_shrinks family c : family ∈ families ->
  shrinks c (fold_left (fun c w => excludeRouteFamily ws (wn_TableID w) family c) ws c).
Proof.
  intros Hf. generalize ws at 2 as l. intros l. revert c. induction l as [|w l IH]; intros c; cbn; [reflexivity|].
  etransitivity; [by apply exclude_shrinks|apply IH].
Qed.

Lemma fallback_stage c errs s : rm_cfg (rmod s) = cfg ->
  wp (foldM reconcile_fallback (c, errs) (desiredRules cfg c health t)) (fun a s' => quiet s s' /\ shrinks c a.1) s.
Proof.
  intros Hcfg. eapply wp_mono.
  - apply (fails_closed _ (fun _ _ _ => False) (fun _ _ => True)); [done|done|apply quiet_fallback| |done].
    intros c1 e1 r s1 _ Hr Hs1. unfold reconcile_fallback. destruct (is_catch_all r) eqn:E; cbn [negb]; [|apply wp_ret; split; [reflexivity|by left] ].
    apply wp_bind, wp_wans, wp_bind, wp_act. rewrite Hs1. intros [e|] w1; apply wp_ret; cbn; [|split; [reflexivity|by left] ].
    split; [|by left]. by eapply fallback_shrinks, desired_rule_family.
  - by intros [c' e'] s' (Hq & Hs & _).
Qed.

Lemma removal_stage rules s : rm_cfg (rmod s) = cfg ->
  wp (removeDisabledRuleSlots rules) (fun errs s' => quiet s s' /\ (errs = [] -> forall slot, slot ∈ ownedRuleSlots cfg ->
    slot ∈ rule_slot <$> rules \/ RRemoveRule slot.1 slot.2 None ∈ rlog s')) s.
Proof.
  intros Hcfg. apply wp_quiet; [apply quiet_remove|]. unfold removeDisabledRuleSlots. apply wp_bind, wp_getM. rewrite Hcfg.
  eapply wp_mono; [apply (wp_foldM _ (fun done_ errs s' => errs = [] -> forall slot, slot ∈ done_ ->
    slot ∈ rule_slot <$> rules \/ RRemoveRule slot.1 slot.2 None ∈ rlog s'))|].
  - intros _ slot H. by apply not_elem_of_nil in H.
  - intros dn slot todo errs s1 _ H. unfold remove_slot. case_bool_decide as E.
    + apply wp_ret. intros He x [Hx| ->%list_elem_of_singleton]%elem_of_app; [by apply H|by left].
    + apply wp_bind, wp_act. intros e w1. apply wp_ret. intros [He Ho]%app_nil x Hx. destruct e; [done|]. cbn.
      apply elem_of_app in Hx as [Hx| ->%list_elem_of_singleton]; [|right; set_solver].
      destruct (H He x Hx); [by left|right; set_solver].
  - intros errs s1 H Hq. by split.
Qed.

(** *** The whole pass *)

Definition slots_in (l : log) (c : gateways) : Prop := (exists w family, w ∈ ws /\ family ∈ families /\ ready c family w) ->
  forall slot, slot ∈ ownedRuleSlots cfg -> slot.2 <> catchAllPriority ->
    RRemoveRule slot.1 slot.2 None ∈ l \/ exists r, rule_slot r = slot /\ RRule r None ∈ l.

(** What holds of the families in [c] after the events [l]. *)
Record backed (l : log) (c : gateways) : Prop := mkBacked {
  bk_routes : routes_in l c;
  bk_halves : halves_in l c;
  bk_rules : rules_in l c;
  bk_slots : slots_in l c;
}.

Lemma backed_carry l l' c c' : extends l l' -> shrinks c c' -> backed l c -> backed l' c'.
Proof.
  intros Hl Hs [H1 H2 H3 H4]. split; [by eapply routes_carry|by eapply halves_carry|by eapply rules_carry|].
  intros (w & family & Hw & Hf & Hr) slot Ho Hn. destruct (ready_back c c' _ _ _ _ Hs Hf Hr) as [Hr' _].
  destruct (H4 ltac:(eauto) slot Ho Hn) as [H|(r & Hr1 & Hr2)]; [left; by apply Hl|right]. exists r. split; [done|by apply Hl].
Qed.

Lemma unready_empty family w : ~ ready ∅ family w.
Proof. intros H. apply ready_gateway in H. apply H. unfold gateways_of. rewrite lookup_empty. cbn. unfold part. by case_bool_decide. Qed.

Lemma empty_shrinks c : shrinks c ∅.
Proof.
  intros key family _. right. unfold gateways_of. rewrite lookup_empty. unfold part. by case_bool_decide.
Qed.

Lemma backed_empty l : backed l ∅.
Proof.
  split.
  - intros w family _ _ []%unready_empty.
  - intros w _ _ []%unready_empty.
  - intros w r _ Hr _. apply wan_rule_ready in Hr as (_ & _ & Hn). exfalso. apply Hn. unfold gateways_of. rewrite lookup_empty.
    unfold part. by case_bool_decide.
  - intros (w & family & _ & _ & []%unready_empty).
Qed.

(** What a publication says, and what backs it. *)
Definition published_ok (m0 : routesModule) (c0 : gateways) (l : log) (tier : Z) (members : gmap string MemberRouting) : Prop :=
  exists m c, rm_cfg m = cfg /\ probeReasons m = probeReasons m0 /\ shrinks c0 c /\ reasons_sound ws (tunnelReasons m) c /\
    members_of m c health t = (tier, members) /\ backed l c.

Definition publications_ok (m0 : routesModule) (c0 : gateways) (l : log) : Prop :=
  forall tier members, RPublish tier members ∈ l -> published_ok m0 c0 l tier members.

Definition silent (l : log) : Prop := Forall (fun e => is_publication e = false) l.

Lemma quiet_silent s s' : quiet s s' -> silent (rlog s) -> silent (rlog s').
Proof. intros (_ & _ & _ & evs & -> & H) Hs. by apply Forall_app. Qed.

Lemma silent_publications m0 c0 l : silent l -> publications_ok m0 c0 l.
Proof. intros H tier members Hin. unfold silent in H. rewrite Forall_forall in H. by specialize (H _ Hin). Qed.

Lemma publish_stage m0 c0 c s : rm_cfg (rmod s) = cfg -> probeReasons (rmod s) = probeReasons m0 -> silent (rlog s) -> shrinks c0 c ->
  backed (rlog s) c -> wp (publishLiveState c health t) (fun _ s' => publications_ok m0 c0 (rlog s')) s.
Proof.
  intros Hcfg Hpr Hsil Hs0 Hb. unfold publishLiveState. apply wp_bind, wp_getM. destruct (negb _); [by apply wp_ret, silent_publications|].
  apply wp_bind. eapply wp_mono; [by apply tunnels_excluded|]. intros [reasons c'] s1 (Hq & Hs & Hr). cbn in Hs, Hr.
  apply wp_bind, wp_modify, wp_bind, wp_getM.
  destruct (members_of _ c' health t) as [tier members] eqn:E. apply wp_modify. cbn. intros tier' members' Hin.
  apply elem_of_app in Hin as [Hin|Hin].
  { pose proof (quiet_silent _ _ Hq Hsil) as Hsil1. unfold silent in Hsil1. rewrite Forall_forall in Hsil1. by specialize (Hsil1 _ Hin). }
  apply list_elem_of_singleton in Hin as [= -> ->]. exists (set_tunnelReasons reasons (rmod s1)), c'. cbn.
  destruct Hq as (H1 & H2 & H3 & H4) eqn:Eq. split_and!; [congruence|congruence|by etransitivity|done|done|].
  eapply backed_carry; [|exact Hs|exact Hb]. intros e He. apply elem_of_app. left. eapply quiet_log; [exact Hq|done].
Qed.

Lemma slots_settled l c rules :
  (forall slot, slot ∈ ownedRuleSlots cfg -> slot ∈ rule_slot <$> rules \/ RRemoveRule slot.1 slot.2 None ∈ l) ->
  rules = desiredRules cfg c health t -> rules_in l c -> slots_in l c.
Proof.
  intros H -> Hr _ slot Ho Hn. destruct (H slot Ho) as [(r & -> & Hin)%list_elem_of_fmap|]; [right|by left].
  exists r. split; [done|]. unfold desiredRules in Hin. rewrite elem_of_app in Hin.
  destruct Hin as [(w & Hin & Hw)%list_elem_of_bind|(family & _ & Hin)%list_elem_of_omap].
  - apply (Hr w); [done|done|]. unfold is_catch_all. by apply Z.eqb_neq.
  - apply fmap_Some in Hin as (w & _ & ->). done.
Qed.

(** Run the next stage with [lem]; [Q] says that the pass was quiet up to here. *)
Ltac stage lem Q := apply wp_bind; eapply wp_mono; [apply lem; by etransitivity; [apply (quiet_cfg _ _ Q)|]|].
Ltac settle Q Q' := let H := fresh in pose proof (transitivity Q Q') as H; clear Q; rename H into Q; cbn [fst snd] in *.

Lemma tables_passed errs c0 m0 s : rm_cfg (rmod s) = cfg -> probeReasons (rmod s) = probeReasons m0 -> silent (rlog s) ->
  wp (reconcile_with health t errs c0) (fun _ s' => publications_ok m0 c0 (rlog s')) s.
Proof.
  intros Hcfg Hpr Hsil. unfold reconcile_with. assert (quiet s s) as Q by reflexivity.
  stage desired_for_pass Q. intros [c1 [rules1 routes1]] s1 (Q1 & S1 & [= -> ->]). settle Q Q1.
  stage routes_stage Q. intros [c2 errs2] s2 (Q2 & S2 & R2). settle Q Q2.
  stage bgp_stage Q. intros [c3 errs3] s3 (Q3 & S3 & R3). settle Q Q3.
  stage desired_for_pass Q. intros [c4 [rules4 routes4]] s4 (Q4 & S4 & [= -> ->]). settle Q Q4.
  stage rules_stage Q. intros [c5 errs5] s5 (Q5 & S5 & R5). settle Q Q5.
  stage desired_for_pass Q. intros [c6 [rules6 routes6]] s6 (Q6 & S6 & [= -> ->]). settle Q Q6.
  stage fallback_stage Q. intros [c7 errs7] s7 (Q7 & S7). settle Q Q7.
  stage desired_for_pass Q. intros [c8 [rules8 routes8]] s8 (Q8 & S8 & [= -> ->]). settle Q Q8.
  stage removal_stage Q. intros errs9 s9 (Q9 & R9). settle Q Q9.
  apply wp_bind, wp_quiet; [apply quiet_next_hop|]. apply wp_any. intros _ s10 Q10. settle Q Q10.
  pose proof (transitivity (transitivity Q6 Q7) (transitivity Q8 (transitivity Q9 Q10))) as Qrules.
  pose proof (transitivity (transitivity Q4 Q5) Qrules) as Qhalves.
  assert (shrinks c5 c8) as Srules by (etransitivity; [exact S6|etransitivity; [exact S7|exact S8] ]).
  assert (shrinks c3 c8) as Shalves by (etransitivity; [exact S4|etransitivity; [exact S5|exact Srules] ]).
  assert (shrinks c0 c8) as S0 by (etransitivity; [exact S1|etransitivity; [exact S2|etransitivity; [exact S3|exact Shalves] ] ]).
  pose proof (rules_carry _ _ _ _ (quiet_extends _ _ Qrules) Srules R5) as Rrules.
  assert (backed (rlog s10) (if nonempty errs9 then ∅ else c8)) as Hb.
  { destruct errs9; [|apply backed_empty]. cbn. split.
    - eapply routes_carry; [apply quiet_extends; etransitivity; [exact Q3|exact Qhalves]|etransitivity; [exact S3|exact Shalves]|exact R2].
    - by eapply halves_carry; [apply quiet_extends; exact Qhalves|exact Shalves|].
    - exact Rrules.
    - eapply slots_settled; [|reflexivity|exact Rrules]. intros slot Ho. destruct (R9 eq_refl slot Ho) as [H|H]; [by left|right].
      by apply (quiet_log _ _ _ Q10). }
  apply wp_bind. eapply wp_mono; [apply (publish_stage m0 c0)|].
  - by rewrite (quiet_cfg _ _ Q).
  - rewrite <- Hpr. apply Q.
  - by apply (quiet_silent _ _ Q).
  - destruct (nonempty errs9); [|exact S0]. apply empty_shrinks.
  - exact Hb.
  - intros ? s11 H. by apply wp_ret.
Qed.
End Stages.

Lemma tables_reconciled cfg health missing c0 s : rm_cfg (rmod s) = cfg -> silent (rlog s) ->
  wp (reconcile_tables health missing c0) (fun _ s' => exists t, publications_ok cfg health t (rmod s) c0 (rlog s')) s.
Proof.
  intros Hcfg Hsil. unfold reconcile_tables. apply wp_bind, wp_quiet; [apply quiet_service|]. apply wp_any. intros t s1 Q1.
  apply wp_bind, wp_quiet; [apply quiet_endpoints|]. apply wp_any. intros errs s2 Q2. pose proof (transitivity Q1 Q2) as Q.
  eapply wp_mono; [apply (tables_passed cfg health t _ c0 (rmod s))|by exists t].
  - by rewrite (quiet_cfg _ _ Q).
  - apply Q.
  - by apply (quiet_silent _ _ Q).
Qed.

(** *** Probes *)

(** A family whose probe held it back is cut off, and the reason is one of a probe. *)
Definition probe_sound (reasons : gmap string familyProbeReasons) (c : gateways) : Prop :=
  forall w, let r := default no_probe_reasons (reasons !! wan_key w) in
    (fp_v4 r <> ""%string -> fp_v4 r ∈ [reasonProbeFailed; reasonProbePending] /\ cut_off c familyV4 w) /\
    (fp_v6 r <> ""%string -> fp_v6 r ∈ [reasonProbeFailed; reasonProbePending] /\ cut_off c familyV6 w).

Lemma probe_reason_cases result verdict : familyProbeReason result verdict <> ""%string ->
  familyProbeReason result verdict ∈ [reasonProbeFailed; reasonProbePending].
Proof. unfold familyProbeReason. intros H. destruct (_ && _); [done|]. repeat case_bool_decide; set_solver. Qed.

Lemma exclusions_cases ws health key : exists m, default no_probe_reasons (probeExclusions ws health !! key) = probe_reasons m \/
  probeExclusions ws health !! key = None.
Proof.
  unfold probeExclusions. exists (default MemberHealth_zero (health !! key)).
  assert (forall acc : gmap string familyProbeReasons, acc !! key = None \/ acc !! key = Some (probe_reasons (default MemberHealth_zero (health !! key))) ->
    let acc' := fold_left (fun m w => <[wan_key w := probe_reasons (default MemberHealth_zero (health !! wan_key w))]> m) ws acc in
    acc' !! key = None \/ acc' !! key = Some (probe_reasons (default MemberHealth_zero (health !! key)))) as H.
  { induction ws as [|w ws IH]; intros acc Ha; [done|]. cbn. apply IH. rewrite lookup_insert. case_decide as E; [subst; by right|done]. }
  destruct (H ∅) as [->| ->]; [by left|by right|by left].
Qed.

Lemma exclusions_sound ws health c : probe_sound (probeExclusions ws health) (withoutExcludedFamilies c (probeExclusions ws health)).
Proof.
  intros w. destruct (exclusions_cases ws health (wan_key w)) as [m [H|H]]; cbv zeta; [|rewrite H; by cbn].
  rewrite H. unfold cut_off, gateways_of, withoutExcludedFamilies. rewrite map_lookup_imap.
  split; intros Hn; (split; [by apply probe_reason_cases|]); destruct (c !! wan_key w) as [g|]; cbn; try reflexivity; rewrite H;
    unfold excluded_gateways; apply is_empty_false in Hn; rewrite Hn; [destruct (is_empty (fp_v6 _))|]; reflexivity.
Qed.

Lemma probe_shrinks reasons c c' : shrinks c c' -> probe_sound reasons c -> probe_sound reasons c'.
Proof.
  intros Hs H w. destruct (H w) as [H4 H6]. split; intros Hn.
  - destruct (H4 Hn). split; [done|]. by eapply cut_shrinks; [apply v4_family|exact Hs|].
  - destruct (H6 Hn). split; [done|]. by eapply cut_shrinks; [apply v6_family|exact Hs|].
Qed.

(** *** Gateways found *)

(** IPv6 counts as routed without a gateway only for a provider that requires BGP. *)
Definition routed_ok (ws : list WAN) (c : gateways) : Prop :=
  forall w, w ∈ ws -> gs_V6Routed (gateways_of c (wan_key w)) = true -> requiresBGP w = true.

Lemma routed_shrinks ws c c' : shrinks c c' -> routed_ok ws c -> routed_ok ws c'.
Proof.
  intros Hs H w Hw Hr. apply (H w Hw). destruct (Hs (wan_key w) familyV6 v6_family) as [[= _ E]|[= _ E] ]; [by rewrite <- E|congruence].
Qed.

Lemma family_routed w acc family (s : rsys W) : wp (discover_family w acc family) (fun a _ => gs_V6Routed a.1.1 = gs_V6Routed acc.1.1) s.
Proof.
  destruct acc as [[g missing] failed]. unfold discover_family. destruct (negb _); [by apply wp_ret|].
  apply wp_bind, wp_any. intros [gateway|e] s1; apply wp_ret; [unfold set_family_gateway; by case_bool_decide|by destruct (nl_absent e)].
Qed.

Lemma discovered_routed s : NoDup (wan_key <$> rc_WANs (rm_cfg (rmod s))) ->
  wp discoverGateways (fun d _ => routed_ok (rc_WANs (rm_cfg (rmod s))) (di_gateways d)) s.
Proof.
  intros Hnd. unfold discoverGateways. apply wp_bind, wp_wans.
  apply (wp_foldM _ (fun dn d _ => routed_ok dn (di_gateways d))); [intros w Hw; by apply not_elem_of_nil in Hw|].
  intros dn w todo d s1 E H. rewrite E, fmap_app, fmap_cons in Hnd. unfold discover_wan. apply wp_bind.
  eapply (wp_mono _ (fun routed _ => routed = true -> requiresBGP w = true)).
  { destruct (requiresBGP w); [by apply wp_any|by apply wp_ret]. }
  intros routed s2 Hr. apply wp_bind. eapply wp_mono.
  { apply (wp_foldM _ (fun _ a _ => gs_V6Routed a.1.1 = routed)); [done|]. intros ???? s3 _ <-. apply family_routed. }
  intros [[g missing] failed] s3 Hg. apply wp_ret. cbn in *. intros v Hv. rewrite gateways_of_insert. case_decide as Ek.
  - apply elem_of_app in Hv as [Hv| ->%list_elem_of_singleton]; [|rewrite Hg; exact Hr].
    exfalso. apply NoDup_app in Hnd as (_ & Hd & _). apply (Hd (wan_key v)); [by apply list_elem_of_fmap_2|rewrite Ek; left].
  - apply elem_of_app in Hv as [Hv| ->%list_elem_of_singleton]; [by apply H|done].
Qed.

Lemma owned_shrinks c s : wp (excludeUnreadyOwnedFamilies c) (fun c' _ => shrinks c c') s.
Proof.
  unfold excludeUnreadyOwnedFamilies. apply wp_bind, wp_wans.
  apply (wp_foldM _ (fun _ c' _ => shrinks c c')); [reflexivity|]. intros _ w _ c' s1 _ H. unfold exclude_owned.
  destruct (negb _); [by apply wp_ret|]. apply wp_bind, wp_any. intros v4 s2. apply wp_bind, wp_any. intros v6 s3. apply wp_ret.
  etransitivity; [exact H|]. apply shrinks_insert. intros family [-> | ->]%family_cases; destruct v4, v6; cbn; auto.
Qed.

(** What backs a publication at the end of a pass. *)
Definition publication_backed (cfg : RoutesConfig) (l : list revent) (tier : Z) (members : gmap string MemberRouting) : Prop :=
  exists health t m c, rm_cfg m = cfg /\ routed_ok (rc_WANs cfg) c /\ probe_sound (probeReasons m) c /\ reasons_sound (rc_WANs cfg) (tunnelReasons m) c /\
    members_of m c health t = (tier, members) /\ backed cfg health t l c.

Definition all_backed (cfg : RoutesConfig) (l : list revent) : Prop :=
  forall tier members, RPublish tier members ∈ l -> publication_backed cfg l tier members.

Lemma silent_backed cfg l : silent l -> all_backed cfg l.
Proof. intros H tier members Hin. unfold silent in H. rewrite Forall_forall in H. by specialize (H _ Hin). Qed.

Lemma body_backed s : NoDup (wan_key <$> rc_WANs (rm_cfg (rmod s))) -> silent (rlog s) ->
  wp reconcile_body (fun _ s' => all_backed (rm_cfg (rmod s)) (rlog s')) s.
Proof.
  intros Hnd Hsil. unfold reconcile_body. apply wp_bind, wp_quiet; [apply quiet_own|]. apply wp_any. intros _ s1 Q1.
  rewrite <- (quiet_cfg _ _ Q1) in Hnd.
  apply wp_bind, wp_quiet; [apply quiet_discover|]. eapply wp_mono; [by apply discovered_routed|]. intros d s2 Hd Q2.
  rewrite (quiet_cfg _ _ Q1) in Hd. pose proof (transitivity Q1 Q2) as Q.
  destruct (nonempty _); [apply wp_ret, silent_backed, (quiet_silent _ _ Q Hsil)|].
  apply wp_bind, wp_quiet; [apply quiet_owned|]. eapply wp_mono; [apply owned_shrinks|]. intros c s3 Hc Q3. pose proof (transitivity Q Q3) as Q'.
  apply wp_bind, wp_wans, wp_bind, wp_quiet; [apply quiet_service|]. apply wp_any. intros legs s4 Q4. pose proof (transitivity Q' Q4) as Q''.
  apply wp_bind, wp_modify, wp_bind, wp_getM, wp_bind, wp_quiet; [apply quiet_ask|]. apply wp_any. intros file s5 Q5. cbn in *.
  assert (silent (rlog s5)) as Hsil5 by (apply (quiet_silent _ _ Q5); cbn; apply (quiet_silent _ _ Q'' Hsil)).
  destruct (ReadHealthState file) as [health|e]; [|by apply wp_ret, silent_backed].
  destruct Q5 as (Hcfg & _ & Hp & _). cbn in Hcfg, Hp. rewrite (quiet_cfg _ _ Q'') in Hcfg.
  eapply wp_mono; [by apply tables_reconciled|]. intros errs s6 [t H] tier members Hin.
  destruct (H tier members Hin) as (m & c' & H1 & H2 & H3 & H4 & H5 & H6). exists health, t, m, c'. split_and!; [done| | |done..].
  { eapply routed_shrinks; [|exact Hd]. etransitivity; [exact Hc|]. etransitivity; [apply excluded_shrinks|exact H3]. }
  rewrite H2, Hp. eapply probe_shrinks; [exact H3|]. apply exclusions_sound.
Qed.

Lemma pass_backed m w : NoDup (wan_key <$> rc_WANs (rm_cfg m)) -> all_backed (rm_cfg m) (rlog (Reconcile (mkRsys m w [])).2).
Proof.
  intros Hnd. change (wp Reconcile (fun _ s' => all_backed (rm_cfg m) (rlog s')) (mkRsys m w [])). unfold Reconcile. apply wp_bind, wp_act. intros [e|] w1.
  { apply wp_ret, silent_backed. by repeat constructor. }
  apply wp_bind. eapply wp_mono; [apply body_backed; [done|by repeat constructor]|]. intros errs s1 H. apply wp_bind, wp_act. intros [] w2.
  apply wp_ret. cbn in *. intros tier members Hin. apply elem_of_app in Hin as [Hin|Hin]; [|by apply list_elem_of_singleton in Hin].
  destruct (H tier members Hin) as (health & t & m' & c & H1 & H2 & H3 & H4 & H5 & H6). exists health, t, m', c. split_and!; [done..|].
  eapply backed_carry; [|reflexivity|exact H6]. intros e He. apply elem_of_app. by left.
Qed.
End Pass.
