(* ===== verification/WanRoutesClaims.v ===== *)
(** * What the routing module promises (gateway/internal/ifmgr/modules/wanroutes)

    The configuration the module accepts, the rule slots it owns, and the members it
    publishes, against the stages of the pass of [WanRoutesProps]. *)

From S2P Require Import Prelude GoStrings Effects NptPolicy Intent Observation BgpConfig Tier Notify Health.
From S2P Require Import BgpFib NetWire NetLink NetGraph NetProvider WanState WanRoutes WanRoutesProps.

Local Open Scope Z_scope.

(** ** Validated configurations *)

Record valid_wans (ws : list WAN) : Prop := mkValidWans {
  vw_keys : NoDup (wan_key <$> ws);
  vw_slots : NoDup (w ← ws; wanRuleSlots w);
  vw_each : forall w, w ∈ ws -> wn_FwMarkPrio w <> catchAllPriority /\ wn_FromPrio w <> catchAllPriority;
}.

Lemma slots_taken seen slots r : NoDup seen -> fold_res take_slot seen slots = Ok r -> NoDup r /\ r = reverse slots ++ seen.
Proof. apply take_keys_ok. Qed.

Lemma validateWAN_priorities w u : validateWAN w = Ok u -> wn_FwMarkPrio w <> catchAllPriority /\ wn_FromPrio w <> catchAllPriority.
Proof.
  unfold validateWAN. intros H. repeat apply res_bind_ok in H as (_ & _ & H). apply reject_if_ok, orb_false_iff in H.
  by rewrite !Z.eqb_neq in H.
Qed.

Lemma valid_config cfg u : validateConfig cfg = Ok u -> valid_wans (rc_WANs cfg).
Proof.
  unfold validateConfig. intros (_ & _ & (_ & _ & (_ & _ & ([keys slots] & H & _)%res_bind_ok)%res_bind_ok)%res_bind_ok)%res_bind_ok.
  assert ((NoDup keys /\ keys = reverse (wan_key <$> rc_WANs cfg)) /\
    (NoDup slots /\ slots = reverse (rc_WANs cfg ≫= wanRuleSlots)) /\
    Forall (fun w => wn_FwMarkPrio w <> catchAllPriority /\ wn_FromPrio w <> catchAllPriority) (rc_WANs cfg)) as ([K1 ->] & [S1 ->] & F).
  { revert H. apply (fold_res_ind _ (fun dn (b : list string * list ruleSlot) => (NoDup b.1 /\ b.1 = reverse (wan_key <$> dn)) /\
      (NoDup b.2 /\ b.2 = reverse (dn ≫= wanRuleSlots)) /\ Forall _ dn)); [by repeat constructor|].
    intros dn w todo [bk bs] b' _. cbn. intros ([Kb ->] & [Sb ->] & F). unfold validate_wan. rewrite res_bind_ok.
    intros (u1 & Hw%validateWAN_priorities & (_ & _ & (_ & Hk%reject_if_ok & (s' & Hs & [= <-])%res_bind_ok)%res_bind_ok)%res_bind_ok).
    apply slots_taken in Hs as [Hs ->]; [|done]. cbn in *. apply bool_decide_eq_false in Hk.
    split_and!; [by constructor|by rewrite fmap_app, reverse_app|done| |by apply Forall_app_2; [|constructor] ].
    rewrite bind_app, reverse_app. cbn. reflexivity. }
  split; [by rewrite reverse_Permutation in K1|by rewrite reverse_Permutation in S1|].
  rewrite Forall_forall in F. exact F.
Qed.

(** ** The slots of the desired rules *)

Section Plan.
Context `{PT : !PrefixText} `{NT : !NetText}.

Definition intent_slot (intent : PolicyRule) : ruleSlot := (kernel_family (pr_Family intent), pr_Priority intent).

Lemma wan_rules_slots w g health tr : (rule_slot <$> wanRules w g health tr) `sublist_of` (intent_slot <$> ConfiguredPolicyRules (policy_provider w)).
Proof.
  unfold wanRules. induction (ConfiguredPolicyRules _) as [|intent intents IH]; cbn; [constructor|].
  unfold wan_rule at 1. destruct (negb _); cbn; by constructor.
Qed.

Lemma intent_slots w : (intent_slot <$> ConfiguredPolicyRules (policy_provider w)) `sublist_of`
   [(familyV4, wn_FwMarkPrio w); (familyV4, wn_FromPrio w); (familyV6, wn_FwMarkPrio w); (familyV6, wn_FromPrio w)].
Proof.
  unfold ConfiguredPolicyRules, family_policy_rules, policy_provider.
  destruct (IPv6Translation_PolicySource _) as [[pt ec] ext]. rewrite fmap_app. cbn [NewPolicyProvider pp_IPv4 pp_IPv6].
  change [(familyV4, wn_FwMarkPrio w); (familyV4, wn_FromPrio w); (familyV6, wn_FwMarkPrio w); (familyV6, wn_FromPrio w)]
    with ([(familyV4, wn_FwMarkPrio w); (familyV4, wn_FromPrio w)] ++ [(familyV6, wn_FwMarkPrio w); (familyV6, wn_FromPrio w)]).
  apply sublist_app; [destruct (is_some (wn_TranslationV4 w))|destruct (is_some (wn_TranslationV6 w))]; try apply sublist_nil_l.
  all: cbn; destruct (_ || _); cbn; apply sublist_skip; repeat constructor.
Qed.

Lemma wan_rules_slots_of w g health tr : (rule_slot <$> wanRules w g health tr) ⊆+ wanRuleSlots w.
Proof.
  etransitivity; [apply sublist_submseteq, wan_rules_slots|]. etransitivity; [apply sublist_submseteq, intent_slots|]. apply Permutation_submseteq. unfold wanRuleSlots. constructor. apply Permutation_swap.
Qed.

Lemma bind_submseteq {A B} (f g : A -> list B) xs : (forall x, f x ⊆+ g x) -> (xs ≫= f) ⊆+ (xs ≫= g).
Proof. intros H. induction xs as [|x xs IH]; cbn; [constructor|by apply submseteq_app]. Qed.

Lemma submseteq_NoDup {A} (xs ys : list A) : xs ⊆+ ys -> NoDup ys -> NoDup xs.
Proof. intros (zs & ->)%submseteq_Permutation. by intros [? _]%NoDup_app. Qed.

Lemma fmap_bind_list {A B C} (f : B -> C) (g : A -> list B) xs : f <$> (xs ≫= g) = xs ≫= (fun x => f <$> g x).
Proof. induction xs as [|x xs IH]; cbn; [done|]. by rewrite fmap_app, IH. Qed.

(** The provider rules of a pass have different slots, and none of them is a fallback slot. *)
Lemma provider_slots cfg c health t : valid_wans (rc_WANs cfg) ->
  NoDup (rule_slot <$> (w ← rc_WANs cfg; wan_state wanRules c health t w)) /\
  forall r, r ∈ (w ← rc_WANs cfg; wan_state wanRules c health t w) -> is_catch_all r = false.
Proof.
  intros [Hk Hs He]. split.
  - eapply submseteq_NoDup; [|exact Hs]. rewrite fmap_bind_list. apply bind_submseteq. intros w. apply wan_rules_slots_of.
  - intros r (w & Hr & Hw)%list_elem_of_bind. destruct (He w Hw) as [H1 H2]. apply (list_elem_of_fmap_2 rule_slot) in Hr.
    apply (fun H => elem_of_submseteq _ _ _ H (wan_rules_slots_of _ _ _ _)) in Hr. unfold is_catch_all. apply Z.eqb_neq. intros E.
    unfold wanRuleSlots in Hr. repeat (apply elem_of_cons in Hr as [[= _ Hr]|Hr]; [congruence|]). by apply not_elem_of_nil in Hr.
Qed.

Lemma owned_slots cfg slot : slot ∈ ownedRuleSlots cfg <->
  slot ∈ [(familyV4, catchAllPriority); (familyV6, catchAllPriority)] \/ exists w, w ∈ rc_WANs cfg /\ slot ∈ wanRuleSlots w.
Proof.
  unfold ownedRuleSlots. generalize [(familyV4, catchAllPriority); (familyV6, catchAllPriority)]. intros fallback.
  assert (forall xs acc, slot ∈ fold_left append_new xs acc <-> slot ∈ acc \/ slot ∈ xs) as H.
  { induction xs as [|x xs IH]; intros acc; cbn; [set_solver|]. rewrite IH. unfold append_new. case_bool_decide; set_solver. }
  rewrite H, elem_of_app, list_elem_of_bind. set_solver.
Qed.

Definition is_fallback (cfg : RoutesConfig) (r : DesiredRule) : Prop := exists family w, family ∈ families /\ r = catch_all_rule cfg family w.

Lemma fallback_slots cfg c health t :
  (rule_slot <$> omap (fun family => catch_all_rule cfg family <$> catchAllCarrier (rc_WANs cfg) c health t family) families)
    `sublist_of` [(familyV4, catchAllPriority); (familyV6, catchAllPriority)].
Proof.
  unfold families. cbn. destruct (catchAllCarrier _ _ _ _ familyV4), (catchAllCarrier _ _ _ _ familyV6); cbn; repeat constructor.
Qed.

(** Every desired rule has a slot of its own, one the module owns. *)
Lemma desired_slots cfg c health t : validateConfig cfg = Ok tt ->
  NoDup (rule_slot <$> desiredRules cfg c health t) /\ forall r, r ∈ desiredRules cfg c health t -> rule_slot r ∈ ownedRuleSlots cfg.
Proof.
  intros Hv%valid_config. destruct (provider_slots cfg c health t Hv) as [Hn Hc]. unfold desiredRules. rewrite fmap_app. split.
  - apply NoDup_app. split_and!; [done| |].
    + intros slot (r & -> & Hr)%list_elem_of_fmap Hf. apply Hc, Z.eqb_neq in Hr.
      apply (sublist_subseteq _ _ (fallback_slots _ _ _ _)) in Hf. unfold rule_slot in Hf. set_solver.
    + eapply sublist_NoDup; [|apply fallback_slots]. by apply (bool_decide_unpack (NoDup _)).
  - intros r. rewrite elem_of_app, owned_slots. intros [(w & Hr & Hw)%list_elem_of_bind|Hr]; [right|left].
    + exists w. split; [done|]. eapply elem_of_submseteq; [by apply list_elem_of_fmap_2|apply wan_rules_slots_of].
    + apply (sublist_subseteq _ _ (fallback_slots cfg c health t)). by apply list_elem_of_fmap_2.
Qed.
End Plan.

(** ** Published members *)

Definition member_ready (family : string) (mr : MemberRouting) : bool :=
  if bool_decide (family = familyV6) then V6Ready mr else V4Ready mr.
Definition member_reason (family : string) (mr : MemberRouting) : string :=
  if bool_decide (family = familyV6) then V6Reason mr else V4Reason mr.
Definition member_dependencies (family : string) (mr : MemberRouting) : list DependencyResult :=
  if bool_decide (family = familyV6) then V6Dependencies mr else V4Dependencies mr.

Section Members.
Context `{PT : !PrefixText} `{NT : !NetText}.

(** A map filled by a loop over elements with different keys. *)
Lemma fold_insert_lookup {A V} (key : A -> string) (value : A -> V) xs (acc : gmap string V) x : NoDup (key <$> xs) -> x ∈ xs ->
  fold_left (fun acc x => <[key x := value x]> acc) xs acc !! key x = Some (value x).
Proof.
  induction xs as [|y xs IH] using rev_ind; intros Hnd Hx; [by apply not_elem_of_nil in Hx|].
  rewrite fmap_app in Hnd. apply NoDup_app in Hnd as (Hnd & Hd & _). rewrite fold_left_snoc, lookup_insert.
  apply elem_of_app in Hx as [Hx| ->%list_elem_of_singleton]; [|by rewrite decide_True].
  rewrite decide_False; [by apply IH|]. intros E. apply (Hd (key x)); [by apply list_elem_of_fmap_2|rewrite <- E; left].
Qed.

Lemma same_key {A K} (key : A -> K) xs x y : NoDup (key <$> xs) -> x ∈ xs -> y ∈ xs -> key x = key y -> x = y.
Proof.
  intros Hnd (i & Hi)%list_elem_of_lookup_1 (j & Hj)%list_elem_of_lookup_1 E.
  enough (i = j) by congruence. eapply (NoDup_lookup (key <$> xs)); [done|by rewrite list_lookup_fmap, Hi|by rewrite list_lookup_fmap, Hj, E].
Qed.

Lemma members_lookup m c health t w : NoDup (wan_key <$> rc_WANs (rm_cfg m)) -> w ∈ rc_WANs (rm_cfg m) ->
  let v4 := ActiveTier (familyMembers (rc_WANs (rm_cfg m)) c health t familyV4) health in
  let v6 := ActiveTier (familyMembers (rc_WANs (rm_cfg m)) c health t familyV6) health in
  (members_of m c health t).2 !! wan_key w = Some (member_routing m c health t v4 v6 w).
Proof.
  intros Hnd Hw v4 v6. by apply (fold_insert_lookup wan_key (member_routing m c health t v4 v6)).
Qed.

Lemma member_routing_ready m c health t v4 v6 w family : family ∈ families ->
  member_ready family (member_routing m c health t v4 v6 w) = family_ready_in c health t family w.
Proof. by intros [-> | ->]%family_cases. Qed.

(** *** Readiness and its reason *)

Lemma ready_iff w g health tr family : familyReady w g health tr family = true <->
  familyConfigured w family = true /\ translation_ready family tr = true /\ gateway_known family g = true /\
  HealthIsHealthy (State health (wan_key w)) = true.
Proof.
  unfold familyReady, conditionsMet, PolicyFamilyConditions. cbn [forallb]. rewrite !andb_true_iff. unfold condition_met.
  repeat (first [rewrite bool_decide_true by done | rewrite bool_decide_false by done]). naive_solver.
Qed.

Lemma reason_empty w g health tr family held : familyConfigured w family = true ->
  familyReason w g health tr family held = ""%string <-> (family = familyV6 -> held = ""%string) /\ familyReady w g health tr family = true.
Proof.
  intros Hc. rewrite ready_iff. unfold familyReason. rewrite Hc. cbn [negb].
  destruct (bool_decide (family = familyV6) && negb (is_empty held)) eqn:E.
  - apply andb_true_iff in E as [->%bool_decide_eq_true E%negb_true_iff%is_empty_false]. naive_solver.
  - assert (family = familyV6 -> held = ""%string) as Hh.
    { intros ->. rewrite bool_decide_true in E by done. cbn in E. apply negb_false_iff in E. by apply is_empty_true in E. }
    destruct (HealthIsHealthy _), (translation_ready _ _), (gateway_known _ _); cbn; naive_solver.
Qed.

Definition plain_reasons : list string := [reasonProbePending; reasonProbeFailed; reasonTranslationNotReady; reasonGatewayUnavailable].

Lemma reason_cases w g health tr family held :
  let r := familyReason w g health tr family held in r <> ""%string -> r ∈ plain_reasons \/ family = familyV6 /\ r = held.
Proof.
  cbv zeta. unfold familyReason, plain_reasons. destruct (negb (familyConfigured w family)); [done|].
  destruct (bool_decide (family = familyV6) && _) eqn:E; [apply andb_true_iff in E as [E%bool_decide_eq_true _]; intros; by right|].
  destruct (HealthIsHealthy _), (translation_ready _ _), (gateway_known _ _); cbn; intros Hn; try done; left; set_solver.
Qed.
End Members.

(** *** Dependencies *)

Definition dep_met (d : DependencyResult) : bool := bool_decide (dep_State d = DependencyMet) && is_empty (dep_Reason d).
Definition dep_skipped (d : DependencyResult) : bool := bool_decide (dep_State d = DependencyNotEvaluated) && is_empty (dep_Reason d).
Definition dep_open (reason : string) (d : DependencyResult) : bool :=
  bool_decide (dep_State d ∈ [DependencyPending; DependencyUnmet]) && bool_decide (dep_Reason d = reason).

(** One open dependency with the reason, those before it met, those after it not evaluated. *)
Definition attributed (reason : string) (deps : list DependencyResult) : Prop :=
  exists before d after, deps = before ++ d :: after /\ Forall (fun d => dep_met d = true) before /\
    dep_open reason d = true /\ Forall (fun d => dep_skipped d = true) after.

Fixpoint attributed_bool (reason : string) (deps : list DependencyResult) : bool :=
  match deps with
  | [] => false
  | d :: deps => if dep_met d then attributed_bool reason deps else dep_open reason d && forallb dep_skipped deps
  end.

Lemma attributed_intro reason deps : attributed_bool reason deps = true -> attributed reason deps.
Proof.
  induction deps as [|d deps IH]; cbn; [done|]. destruct (dep_met d) eqn:E.
  - intros (before & x & after & -> & H1 & H2 & H3)%IH. exists (d :: before), x, after. split_and!; [done|by constructor|done..].
  - intros [H1 H2%forallb_Forall]%andb_true_iff. exists [], d, deps. by split_and!; [|constructor|..].
Qed.

Lemma dependencies_met w family : familyConfigured w family = true -> Forall (fun d => dep_met d = true) (familyDependencies w family "").
Proof.
  intros Hc. unfold familyDependencies, dependencyRules. rewrite Hc. cbn [negb fold_left]. unfold dependency_step.
  cbn [du_applies du_states]. unfold appliesAlways. destruct (appliesV6Tunnel w family), (appliesV6BGP w family); cbn; by repeat constructor.
Qed.

Lemma dependencies_attributed w family reason : familyConfigured w family = true ->
  reason ∈ plain_reasons \/ family = familyV6 /\ reason ∈ v6_reasons w -> attributed reason (familyDependencies w family reason).
Proof.
  intros Hc Hr. apply attributed_intro. unfold familyDependencies, dependencyRules. rewrite Hc. cbn [negb fold_left]. unfold dependency_step.
  cbn [du_applies du_states]. unfold appliesAlways. destruct Hr as [Hr|[-> Hr] ].
  - destruct (appliesV6Tunnel w family), (appliesV6BGP w family); unfold plain_reasons in Hr;
      repeat (apply elem_of_cons in Hr as [->|Hr]; [reflexivity|]); by apply not_elem_of_nil in Hr.
  - unfold appliesV6Tunnel, appliesV6BGP. rewrite bool_decide_true by done. cbn [andb]. unfold v6_reasons in Hr.
    destruct (is_some (wn_Tunnel w)), (requiresBGP w); cbn [app] in Hr;
      repeat (apply elem_of_cons in Hr as [->|Hr]; [reflexivity|]); by apply not_elem_of_nil in Hr.
Qed.

(** *** The carrying tier *)

Section Carrying.
Context `{PT : !PrefixText} `{NT : !NetText}.
Context (ws : list WAN) (c : gateways) (health : HealthStates) (t : translations) (family : string).

Definition eligible (w : WAN) : Prop := w ∈ ws /\ selection_enabled w = true /\ family_ready_in c health t family w = true.

Lemma family_members m : m ∈ familyMembers ws c health t family <-> exists w, eligible w /\ m = mkTierMember (wan_key w) (wn_Tier w).
Proof.
  unfold familyMembers, eligible. rewrite list_elem_of_omap. split.
  - intros (w & Hw & H). destruct (_ && _) eqn:E; [|done]. apply andb_true_iff in E as []. injection H as <-. by exists w.
  - intros (w & (Hw & H1 & H2) & ->). exists w. by rewrite H1, H2.
Qed.

Lemma eligible_usable w : eligible w -> usable health (mkTierMember (wan_key w) (wn_Tier w)).
Proof. intros (_ & _ & H). apply ready_iff in H as (_ & _ & _ & H). exact H. Qed.

Definition carried (active : Z * bool) (w : WAN) : bool := active.2 && (wn_Tier w =? active.1) && family_ready_in c health t family w.

Lemma carried_iff w : w ∈ ws -> selection_enabled w = true ->
  carried (ActiveTier (familyMembers ws c health t family) health) w = true <->
  family_ready_in c health t family w = true /\ forall v, eligible v -> wn_Tier w <= wn_Tier v.
Proof.
  intros Hw He. pose proof (ActiveTier_spec (familyMembers ws c health t family) health) as H.
  unfold carried. destruct (ActiveTier _ _) as [tier []]; cbn [fst snd andb].
  - destruct H as [(m & (v & Hv & ->)%family_members & _ & Ht) Hmin]. cbn in Ht. rewrite andb_true_iff, Z.eqb_eq. split.
    + intros [-> Hr]. split; [done|]. intros v' Hv'. apply (Hmin (mkTierMember (wan_key v') (wn_Tier v'))); [apply family_members; eauto|].
      by apply eligible_usable.
    + intros [Hr Hle]. split; [|done]. assert (eligible w) as Hew by done. specialize (Hle v Hv).
      specialize (Hmin (mkTierMember (wan_key w) (wn_Tier w)) ltac:(apply family_members; eauto) (eligible_usable w Hew)). cbn in Hmin. lia.
  - destruct H as [_ H]. split; [done|]. intros [Hr _]. exfalso. assert (eligible w) as Hew by done.
    apply (H (mkTierMember (wan_key w) (wn_Tier w))); [apply family_members; eauto|by apply eligible_usable].
Qed.
End Carrying.

(** ** A published pass *)

Definition mark_rule (family : string) (w : WAN) : DesiredRule :=
  mkDesiredRule family (wn_FwMarkPrio w) "" (wn_FwMark w) "" "" "" (wn_TableID w).
Definition source_rule (w : WAN) : DesiredRule :=
  mkDesiredRule familyV4 (wn_FromPrio w) (wn_V4Source w) 0 "" "" "" (wn_TableID w).

Section Plan.
Context `{PT : !PrefixText} `{NT : !NetText}.

Lemma configured_v4 w : familyConfigured w familyV4 = is_some (wn_TranslationV4 w).
Proof. reflexivity. Qed.
Lemma configured_v6 w : familyConfigured w familyV6 = is_some (wn_TranslationV6 w).
Proof. reflexivity. Qed.

Lemma part_v4 g : part familyV4 g = (gs_V4 g, false).
Proof. reflexivity. Qed.
Lemma part_v6 g : part familyV6 g = (gs_V6 g, gs_V6Routed g).
Proof. reflexivity. Qed.

(** The rules of a ready family. *)
Lemma ready_mark_rule c health t family w : family ∈ families -> family_ready_in c health t family w = true ->
  mark_rule family w ∈ wan_state wanRules c health t w.
Proof.
  intros Hf Hr. pose proof Hr as Hr'. unfold family_ready_in, familyReady in Hr'. apply andb_true_iff in Hr' as [Hc Hm].
  unfold wan_state, wanRules. apply list_elem_of_omap.
  set (name := if bool_decide (family = familyV6) then PolicyFamilyIPv6 else PolicyFamilyIPv4).
  exists (mkPolicyRule (wan_key w) name PolicyRuleFwmark (wn_FwMarkPrio w) (wn_TableID w) (wn_FwMark w) no_prefix PolicySourceNone PolicyFamilyConditions).
  assert (kernel_family name = family) as Hk by (by apply family_cases in Hf as [-> | ->]). split.
  - unfold ConfiguredPolicyRules, family_policy_rules, policy_provider. destruct (IPv6Translation_PolicySource _) as [[pt ec] ext].
    apply elem_of_app. subst name. apply family_cases in Hf as [-> | ->]; [left; rewrite configured_v4 in Hc|right; rewrite configured_v6 in Hc];
      cbn [NewPolicyProvider pp_IPv4 pp_IPv6]; rewrite Hc; left.
  - unfold wan_rule. cbn [pr_Family ActivationConditions pr_Kind pr_Priority pr_Mark pr_TableID]. rewrite Hk, Hm. done.
Qed.

Lemma ready_source_rule c health t w : family_ready_in c health t familyV4 w = true -> wn_V4Source w <> ""%string ->
  source_rule w ∈ wan_state wanRules c health t w.
Proof.
  intros Hr Hs. pose proof Hr as Hr'. unfold family_ready_in, familyReady in Hr'. apply andb_true_iff in Hr' as [Hc Hm].
  unfold wan_state, wanRules. apply list_elem_of_omap.
  unfold ConfiguredPolicyRules, family_policy_rules, policy_provider. destruct (IPv6Translation_PolicySource _) as [[pt ec] ext].
  rewrite configured_v4 in Hc. cbn [NewPolicyProvider pp_IPv4]. rewrite Hc. unfold IPv4PolicySource.
  rewrite (bool_decide_false _ Hs). cbn [ps_Kind ps_Prefix]. eexists. split; [apply elem_of_app; left; right; left|].
  unfold wan_rule. cbn [pr_Family ActivationConditions pr_Kind pr_Priority pr_Mark pr_TableID].
  rewrite (bool_decide_false (PolicyFamilyIPv4 = PolicyFamilyIPv6)) by done. rewrite app_nil_r.
  change (kernel_family PolicyFamilyIPv4) with familyV4. rewrite Hm. done.
Qed.
End Plan.

Section Claims.
Context {W : Type} `{PT : !PrefixText} `{NT : !NetText} `{RW : !RouteWriter W} `{MO : !MapOrder W}
  `{RK : !RouteKernel W} `{RE : !RoutesEnv W}.

Definition pass_log (m : routesModule) (w : W) : list revent := rlog (Reconcile (mkRsys m w [])).2.

(** A member of a publication, with the gateways behind it. *)
Lemma published_member m w tier members : validateConfig (rm_cfg m) = Ok tt -> RPublish tier members ∈ pass_log m w ->
  exists health t m' c, rm_cfg m' = rm_cfg m /\ routed_ok (rc_WANs (rm_cfg m)) c /\ probe_sound (probeReasons m') c /\
    reasons_sound (rc_WANs (rm_cfg m)) (tunnelReasons m') c /\ backed (rm_cfg m) health t (pass_log m w) c /\
    forall wan, wan ∈ rc_WANs (rm_cfg m) -> members !! wan_key wan = Some (member_routing m' c health t
      (ActiveTier (familyMembers (rc_WANs (rm_cfg m)) c health t familyV4) health)
      (ActiveTier (familyMembers (rc_WANs (rm_cfg m)) c health t familyV6) health) wan).
Proof.
  intros Hv%valid_config Hp. destruct (pass_backed m w (vw_keys _ Hv) tier members Hp) as (health & t & m' & c & Hm & H1 & H2 & H3 & H4 & H5).
  exists health, t, m', c. split_and!; [done..|]. intros wan Hw.
  change members with ((tier, members).2). rewrite <- H4, <- Hm. apply members_lookup; rewrite Hm; [apply Hv|done].
Qed.


Lemma cut_not_ready c health t family w : cut_off c family w -> family_ready_in c health t family w = false.
Proof. intros Hc. apply not_true_iff_false. intros H%ready_gateway. by apply H. Qed.

(** What an IPv6 family is held back for. *)
Lemma held_v6 ws m c w : NoDup (wan_key <$> ws) -> w ∈ ws -> probe_sound (probeReasons m) c -> reasons_sound ws (tunnelReasons m) c ->
  probeReasonV6 m (wan_key w) <> ""%string -> cut_off c familyV6 w /\
    (probeReasonV6 m (wan_key w) ∈ plain_reasons \/ probeReasonV6 m (wan_key w) ∈ v6_reasons w).
Proof.
  intros Hnd Hw Hp Hr. unfold probeReasonV6. destruct (tunnelReasons m !! wan_key w) as [r|] eqn:E; cbn.
  - destruct (Hr _ _ E) as (Hn & v & Hv & Hk & Hin & Hcut). rewrite (proj2 (is_empty_false r) Hn). intros _.
    assert (v = w) as -> by (by eapply (same_key wan_key)). by split; [|right].
  - intros Hn. destruct (proj2 (Hp w) Hn) as [Hin Hc]. split; [done|left]. unfold plain_reasons. set_solver.
Qed.

Lemma reason_spec ws m c health t v4 v6 w family : NoDup (wan_key <$> ws) -> w ∈ ws -> probe_sound (probeReasons m) c ->
  reasons_sound ws (tunnelReasons m) c -> family ∈ families -> familyConfigured w family = true ->
  let reason := member_reason family (member_routing m c health t v4 v6 w) in
  (reason = ""%string <-> family_ready_in c health t family w = true) /\
  (reason <> ""%string -> reason ∈ plain_reasons \/ family = familyV6 /\ reason ∈ v6_reasons w).
Proof.
  intros Hnd Hw Hp Hr Hf Hc. apply family_cases in Hf as [-> | ->]; unfold member_reason.
  - rewrite bool_decide_false by done. cbn [member_routing V4Reason]. rewrite Hc, andb_true_r.
    destruct (is_empty (fp_v4 _)) eqn:E; cbn [negb].
    + split; [rewrite reason_empty by done; naive_solver|]. intros Hn. destruct (reason_cases _ _ _ _ _ _ Hn) as [|[? _] ]; [by left|done].
    + apply is_empty_false in E. destruct (proj1 (Hp w) E) as [Hin Hcut]. rewrite cut_not_ready by done.
      split; [split; done|]. intros _. left. unfold plain_reasons. set_solver.
  - rewrite bool_decide_true by done. cbn [member_routing V6Reason].
    destruct (decide (probeReasonV6 m (wan_key w) = ""%string)) as [E|E].
    + rewrite E. split; [rewrite reason_empty by done; naive_solver|]. intros Hn. destruct (reason_cases _ _ _ _ _ _ Hn) as [|[_ ?] ]; [by left|done].
    + destruct (held_v6 ws m c w Hnd Hw Hp Hr E) as [Hcut Hin].
      split; [rewrite reason_empty by done; split; [intros [H _]; by specialize (H eq_refl)|by rewrite cut_not_ready by done]|].
      intros Hn. destruct (reason_cases _ _ _ _ _ _ Hn) as [|[_ ->] ]; [by left|]. destruct Hin; [by left|by right].
Qed.

Lemma routing_dependencies m c health t v4 v6 w family : family ∈ families ->
  member_dependencies family (member_routing m c health t v4 v6 w)
  = familyDependencies w family (member_reason family (member_routing m c health t v4 v6 w)).
Proof. by intros [-> | ->]%family_cases. Qed.

(** The published reason explains the published readiness: a configured family is ready
    exactly when its reason is empty, and then all its dependencies are met; otherwise the reason
    belongs to exactly one dependency, which is pending or unmet, those before it are met and
    those after it are not evaluated.  A family that is not configured is never ready. *)
Lemma members_explained m w tier members wan mr family :
  validateConfig (rm_cfg m) = Ok tt -> RPublish tier members ∈ pass_log m w ->
  wan ∈ rc_WANs (rm_cfg m) -> members !! wan_key wan = Some mr -> family ∈ families ->
  if familyConfigured wan family then
    (member_ready family mr = true <-> member_reason family mr = ""%string) /\
    (if member_ready family mr then Forall (fun d => dep_met d = true) (member_dependencies family mr)
     else attributed (member_reason family mr) (member_dependencies family mr))
  else member_ready family mr = false /\ member_reason family mr = ""%string /\
       member_dependencies family mr = [mkDependency "configuration" DependencyUnmet reasonFamilyNotRouted].
Proof.
  intros Hv Hp Hw Hmr Hf. destruct (published_member m w tier members Hv Hp) as (health & t & m' & c & _ & _ & Hps & Hrs & _ & Hm).
  rewrite (Hm wan Hw) in Hmr. injection Hmr as <-. set (v4 := ActiveTier _ _). set (v6 := ActiveTier _ _).
  rewrite routing_dependencies, member_routing_ready by done. destruct (familyConfigured wan family) eqn:Ec.
  - destruct (reason_spec _ m' c health t v4 v6 wan family (vw_keys _ (valid_config _ _ Hv)) Hw Hps Hrs Hf Ec) as [H1 H2].
    split; [by rewrite H1|]. destruct (family_ready_in c health t family wan) eqn:Er.
    + rewrite (proj2 H1 eq_refl). by apply dependencies_met.
    + apply dependencies_attributed; [done|]. apply H2. intros E. by apply H1 in E.
  - split; [unfold family_ready_in, familyReady; by rewrite Ec|]. unfold familyDependencies. rewrite Ec. cbn [negb]. split; [|done].
    apply family_cases in Hf as [-> | ->]; unfold member_reason; cbn [member_routing V4Reason V6Reason].
    + rewrite bool_decide_false, Ec, andb_false_r by done. unfold familyReason. by rewrite Ec.
    + rewrite bool_decide_true by done. unfold familyReason. by rewrite Ec.
Qed.

(** A provider is published as carrying exactly when it may be selected and, in a family it
    is ready in, no provider that may be selected and is ready has a lower tier. *)
Lemma carrying_is_least_tier m w tier members wan mr :
  validateConfig (rm_cfg m) = Ok tt -> RPublish tier members ∈ pass_log m w ->
  wan ∈ rc_WANs (rm_cfg m) -> members !! wan_key wan = Some mr ->
  Carrying mr = true <-> selection_enabled wan = true /\ exists family, family ∈ families /\ member_ready family mr = true /\
    forall other mr', other ∈ rc_WANs (rm_cfg m) -> members !! wan_key other = Some mr' -> selection_enabled other = true ->
      member_ready family mr' = true -> wn_Tier wan <= wn_Tier other.
Proof.
  intros Hv Hp Hw Hmr. destruct (published_member m w tier members Hv Hp) as (health & t & m' & c & _ & _ & _ & _ & _ & Hm).
  assert (forall family v mr', family ∈ families -> v ∈ rc_WANs (rm_cfg m) -> members !! wan_key v = Some mr' ->
    member_ready family mr' = family_ready_in c health t family v) as Hready.
  { intros family v mr' Hf Hv' H. rewrite (Hm v Hv') in H. injection H as <-. by apply member_routing_ready. }
  assert (forall family, family ∈ families -> selection_enabled wan = true ->
    carried c health t family (ActiveTier (familyMembers (rc_WANs (rm_cfg m)) c health t family) health) wan = true <->
    member_ready family mr = true /\ forall other mr', other ∈ rc_WANs (rm_cfg m) -> members !! wan_key other = Some mr' ->
      selection_enabled other = true -> member_ready family mr' = true -> wn_Tier wan <= wn_Tier other) as Hfam.
  { intros family Hf He. rewrite carried_iff, (Hready family wan mr) by done. split; intros [Hr H]; (split; [done|]).
    - intros other mr' Ho Hmo Heo Hro. apply H. split_and!; [done..|]. by rewrite <- (Hready family other mr').
    - intros v (Hv1 & Hv2 & Hv3). eapply H; [done|by apply Hm|done|]. by rewrite (Hready family v _ Hf Hv1 (Hm v Hv1)). }
  rewrite (Hm wan Hw) in Hmr. injection Hmr as Emr. rewrite <- Emr at 1. cbn [member_routing Carrying]. rewrite andb_true_iff, orb_true_iff.
  split; intros [He H]; (split; [done|]).
  - destruct H as [H|H]; [exists familyV4; split; [apply v4_family|exact (proj1 (Hfam _ v4_family He) H)]|].
    exists familyV6. split; [apply v6_family|exact (proj1 (Hfam _ v6_family He) H)].
  - destruct H as (family & Hf & H). apply Hfam in H; [|done..]. apply family_cases in Hf as [-> | ->]; [by left|by right].
Qed.
End Claims.
