(* ===== verification/GatewayRoutes.v ===== *)
(** * From the loaded document to the WAN routes module
      (cmd/mwan/{ifmgr_module_configs,ifmgr_mapped_externals}.go)

    The configuration the command hands to the routes module, and what a loaded document
    guarantees of it: the module accepts it, and the rules of every pass are rules of the
    published plan. *)

From S2P Require Import Prelude GoStrings Effects NptPolicy Intent BgpConfig BgpFib Tier Health BgpModule.
From S2P Require Import NetWire NetLink NetConn NetGraph NetBgp NetProvider NetClaims Firewall NetFirewall NetDocument NetProps GatewayBgp.
From S2P Require Import WanState WanRoutes WanRoutesProps WanRoutesClaims.

Local Open Scope Z_scope.

Definition externals_with (delivery : string) (t : option IPv4Translation) : list Addr :=
  omap (fun m => if bool_decide (sm_Delivery m = delivery) then Some (sm_External m) else None) (from_option t4_StaticMappings [] t).

Definition mappedExternals (t : option IPv4Translation) : list Addr := externals_with "" t.
Definition localMappedExternals (t : option IPv4Translation) : list Addr := externals_with DeliveryLocal t.

Definition routes_wan (w : sharedWAN) : res WAN :=
  (mark <-? wanFwMark w ;;
   Ok (mkRouteWAN (sw_ref w) (sw_SelectionEnabled w) (sw_Owned w) (sw_TableID w) mark (sw_FwMarkPrio w) (sw_FromPrio w)
         (sw_TranslationV4 w) (sw_TranslationV6 w) (sw_V4Source w) (sw_Tier w) (sw_Weight w)
         (mappedExternals (sw_TranslationV4 w)) (localMappedExternals (sw_TranslationV4 w)) (sw_Tunnel w)
         (bgpRouteMetrics (sw_BGPSessions w))))%go.

Definition buildWANRoutesConfig (shared : sharedWANInputs) (section : option WANRoutesSection) : res RoutesConfig :=
  match section with
  | None => Ok (mkRoutesConfig "" "" "" "" [])
  | Some s =>
      (ws <-? map_res routes_wan (si_WANs shared) ;;
       Ok (mkRoutesConfig (wr_InternalIface s) (si_OpnsenseEdgeV6 shared) (wr_InternalNetV4 s) (wr_HealthStateFile s) ws))%go
  end.

(** ** What the module's validation accepts *)

Lemma or_iff_compat (A B C D : Prop) : (A <-> B) -> (C <-> D) -> (A \/ C <-> B \/ D).
Proof. tauto. Qed.

Lemma slots_free seen slots : NoDup (reverse slots ++ seen) -> fold_res take_slot seen slots = Ok (reverse slots ++ seen).
Proof.
  revert seen. induction slots as [|x slots IH]; intros seen Hnd; [done|].
  rewrite reverse_cons, <- app_assoc in Hnd |- *. cbn in Hnd |- *. unfold take_slot.
  rewrite bool_decide_false; [cbn; by apply IH|]. apply NoDup_app in Hnd as (_ & _ & Hnd). by apply NoDup_cons in Hnd as [].
Qed.

Lemma wans_accepted all ws keys slots :
  Forall (fun w => validateWAN w = Ok tt /\ validateTunnelWAN all w = Ok tt) ws ->
  NoDup (reverse (wan_key <$> ws) ++ keys) -> NoDup (reverse (w ← ws; wanRuleSlots w) ++ slots) ->
  exists r, fold_res (validate_wan all) (keys, slots) ws = Ok r.
Proof.
  intros Hws. revert keys slots. induction Hws as [|w ws [H1 H2] _ IH]; intros keys slots Hk Hs; [by eexists|].
  rewrite fmap_cons, reverse_cons, <- app_assoc in Hk.
  rewrite bind_cons, reverse_app, <- app_assoc in Hs. cbn [fold_res]. unfold validate_wan at 1. rewrite H1, H2. cbn [res_bind fst snd].
  rewrite bool_decide_false; [cbn [reject_if res_bind]|apply NoDup_app in Hk as (_ & _ & Hk); by apply NoDup_cons in Hk as [] ].
  rewrite slots_free by (by apply NoDup_app in Hs as (_ & _ & Hs)). cbn [res_bind]. by apply IH.
Qed.

(** ** Entries, connections and providers *)

Section Document.
Context `{NT : NetText}.

(** What a connection keeps of its entry. *)
Record made_of (entry : ifaceEntry) (c : Connection) : Prop := mkMadeOf {
  mo_name : conn_Name c = e_Name entry;
  mo_role : has_role (conn_Roles c) RoleProvider = is_some (e_WAN entry);
  mo_ipv4 : is_some (conn_IPv4 c) = is_some (e_IPv4 entry);
  mo_wired : is_some (conn_tunnel c) = is_some (link ← e_Link entry; li_Tunnel link);
  mo_tunnel : forall link t, conn_Link c = Some link -> link_Tunnel link = Some t ->
    link_Kind link = KindTunnel /\ Is4 (tun_Remote t) = true /\
    (is_some (e_WAN entry) = true -> tun_Protocol t = TunnelProtocol6in4 -> e_IPv4 entry = None);
}.

Lemma endpoint_v4 name leaf raw a : parseTunnelEndpoint name leaf raw = Ok a -> Is4 a = true.
Proof.
  unfold parseTunnelEndpoint. intros (a' & _ & (? & H%reject_if_ok & [= <-])%res_bind_ok)%res_bind_ok.
  apply orb_false_iff in H as [H _]. by apply negb_false_iff in H.
Qed.

Lemma tunnel_made entry link wire t : buildIntentTunnel entry link wire = Ok t ->
  Is4 (tun_Remote t) = true /\ (is_some (e_WAN entry) = true -> tun_Protocol t = TunnelProtocol6in4 -> e_IPv4 entry = None).
Proof.
  unfold buildIntentTunnel. intros (? & _ & H)%res_bind_ok. apply res_bind_ok in H as (? & _ & H). apply res_bind_ok in H as (vxlan & _ & H).
  apply res_bind_ok in H as (? & _ & H). apply res_bind_ok in H as (? & _ & H). apply res_bind_ok in H as (remote & Hr%endpoint_v4 & H).
  apply res_bind_ok in H as (local & _ & H). apply res_bind_ok in H as (? & _ & H). apply res_bind_ok in H as (? & _ & H).
  apply res_bind_ok in H as (? & Hp & [= <-]). cbn. split; [done|]. intros Hw E. rewrite bool_decide_true in Hp by done.
  apply res_bind_ok in Hp as (? & _ & Hp). destruct (e_WAN entry) as [w|]; [|done]. unfold validateTunnelProvider in Hp.
  apply res_bind_ok in Hp as (? & Hp%reject_if_ok & _). by destruct (e_IPv4 entry).
Qed.

Lemma link_made entry wire link t : buildIntentLink entry wire = Ok link -> link_Tunnel link = Some t ->
  link_Kind link = KindTunnel /\ Is4 (tun_Remote t) = true /\
  (is_some (e_WAN entry) = true -> tun_Protocol t = TunnelProtocol6in4 -> e_IPv4 entry = None).
Proof.
  unfold buildIntentLink. intros (binding & _ & H)%res_bind_ok Ht. apply res_bind_ok in H as (? & _ & H).
  destruct (li_Tunnel wire) as [tw|].
  - apply res_bind_ok in H as (tun & Htun%tunnel_made & [= <-]). cbn in Ht |- *. injection Ht as <-. by split.
  - exfalso. apply res_bind_ok in H as (vlan & _ & H). apply res_bind_ok in H as (? & _ & H). apply res_bind_ok in H as (? & _ & [= <-]). done.
Qed.

Lemma link_wired entry wire link : buildIntentLink entry wire = Ok link -> is_some (link_Tunnel link) = is_some (li_Tunnel wire).
Proof.
  unfold buildIntentLink. intros (binding & _ & H)%res_bind_ok. apply res_bind_ok in H as (? & _ & H). destruct (li_Tunnel wire) as [tw|].
  - by apply res_bind_ok in H as (tun & _ & [= <-]).
  - apply res_bind_ok in H as (vlan & _ & H). apply res_bind_ok in H as (? & _ & H). by apply res_bind_ok in H as (? & _ & [= <-]).
Qed.

Lemma connection_made entry id c : buildConnection entry id = Ok c -> made_of entry c.
Proof.
  unfold buildConnection. intros (owner & _ & H)%res_bind_ok. apply res_bind_ok in H as (link & Hl & H). apply res_bind_ok in H as (v4 & H4 & H).
  apply res_bind_ok in H as (v6 & _ & H). apply res_bind_ok in H as (files & _ & H). apply res_bind_ok in H as (? & _ & H).
  apply res_bind_ok in H as (? & _ & [= <-]). split; cbn.
  - done.
  - by destruct (e_WAN entry).
  - unfold opt_res in H4. destruct (e_IPv4 entry); [|by injection H4 as <-]. by apply res_bind_ok in H4 as (? & _ & [= <-]).
  - unfold conn_tunnel. cbn. unfold opt_res in Hl. destruct (e_Link entry) as [wire|]; [|by injection Hl as <-].
    apply res_bind_ok in Hl as (l & Hl & [= <-]). cbn. by apply link_wired in Hl.
  - intros l t -> Ht. unfold opt_res in Hl. destruct (e_Link entry) as [wire|]; [|done].
    apply res_bind_ok in Hl as (? & Hl & [= ->]). by eapply link_made.
Qed.

Lemma made_view entry c c' : view c' = view c -> made_of entry c -> made_of entry c'.
Proof.
  intros [= E1 E2 E3 E4] [H1 H2 H3 H4 H5]. split; [congruence..| |]; unfold conn_tunnel in *; rewrite E2; [exact H4|exact H5].
Qed.

Lemma add_other_role role c : Z.land role RoleProvider = 0 -> view (add_roles role c) = view c.
Proof. intros H. unfold view, has_role. cbn. by rewrite Z.land_lor_distr_l, H, Z.lor_0_r. Qed.

Lemma entries_made entries ids internal management acc : fold_res (compile_entry ids internal management) ([], []) entries = Ok acc ->
  Forall (fun c => exists entry, entry ∈ entries /\ made_of entry c) acc.1.
Proof.
  apply (fold_res_ind _ (fun dn acc => Forall (fun c => exists entry, entry ∈ dn /\ made_of entry c) acc.1)); [constructor|].
  intros dn entry todo b b' _ Hb. assert (Forall (fun c => exists e, e ∈ dn ++ [entry] /\ made_of e c) b.1) as Hb'.
  { eapply Forall_impl; [exact Hb|]. intros c (e & He & Hm). exists e. split; [by apply elem_of_app; left|done]. }
  unfold compile_entry. destruct (buildConnection _ _) as [c|e] eqn:E.
  - intros [= <-]. cbn. apply Forall_app. split; [done|]. constructor; [|constructor]. exists entry. split; [apply elem_of_app; right; left|].
    apply connection_made in E. repeat case_bool_decide; repeat (eapply made_view; [by apply add_other_role|]); done.
  - destruct (must_build entry); [done|]. by intros [= <-].
Qed.

Lemma compiled_made entries ids internal management r : compileConnections entries ids internal management = Ok r ->
  Forall (fun c => exists entry, entry ∈ entries /\ made_of entry c) r.1 /\ set_ok r.1.
Proof.
  unfold compileConnections. intros (? & _ & H)%res_bind_ok. apply res_bind_ok in H as (? & _ & H). apply res_bind_ok in H as (acc & Ha%entries_made & H).
  apply res_bind_ok in H as (cs & Hcs & [= <-]). cbn. split; [|by apply accepted_set_ok in Hcs as []].
  apply (dependencies_keep view) in Hcs; [|intros c; by apply add_other_role]. rewrite Forall_forall in *. intros c Hc.
  destruct (view_elem _ _ Hcs c Hc) as (c0 & Hc0 & E). destruct (Ha c0 Hc0) as (entry & He & Hm). exists entry. split; [done|]. by eapply made_view.
Qed.

(** A projected provider and its entry. *)
Definition provider_of (entries : list ifaceEntry) (ids : gmap string string) (id : string) (a : IfMgrWANEntry) : Prop :=
  exists entry, entry ∈ entries /\ is_some (e_WAN entry) = true /\ we_Iface a = e_Name entry /\
    id = default ""%string (ids !! e_Name entry) /\ is_some (we_TranslationV4 a) = is_some (e_IPv4 entry).

Lemma buildProvider_v4 entry w r : buildProvider entry w = Ok r -> is_some (we_TranslationV4 r.1) = is_some (e_IPv4 entry).
Proof.
  unfold buildProvider. destruct (is_empty _); [done|]. intros (? & _ & H)%res_bind_ok. apply res_bind_ok in H as (? & _ & H).
  apply res_bind_ok in H as (? & _ & H). apply res_bind_ok in H as (v4 & H4 & H). apply res_bind_ok in H as (? & _ & H). apply res_bind_ok in H as (? & _ & H).
  assert (is_some v4 = is_some (e_IPv4 entry)) as Hv.
  { unfold buildTranslationV4 in H4. destruct (e_IPv4 entry) as [f|]; [|by injection H4 as <-]. destruct (fw_Translation _); [|done].
    do 5 apply res_bind_ok in H4 as (? & _ & H4). by injection H4 as <-. }
  destruct (ww_Health w); [apply res_bind_ok in H as (? & _ & [= <-])|injection H as <-]; done.
Qed.

Lemma providers_made entries connections ids rejected p : compileProviderProjections entries connections ids rejected = Ok p ->
  forall id a, pj_WAN p !! id = Some a -> provider_of entries ids id a.
Proof.
  unfold compileProviderProjections. intros (? & _ & H)%res_bind_ok. revert H.
  apply (fold_res_ind _ (fun _ p => forall id a, pj_WAN p !! id = Some a -> provider_of entries ids id a)); [intros id a; cbn; by rewrite lookup_empty|].
  intros dn entry todo b b' Hl Hb. unfold compile_provider. destruct (e_WAN entry) as [w|] eqn:Ew; [|by intros [= <-]].
  destruct (by_name connections !! e_Name entry) as [c|]; [|by intros [= <-]].
  destruct (buildProvider entry w) as [[routing probe]|e] eqn:Hp.
  - intros (owners & _ & [= <-])%res_bind_ok. cbn. intros id a. rewrite lookup_insert_Some. intros [[<- <-]|[_ H]]; [|by apply Hb].
    exists entry. split_and!; [rewrite Hl; apply elem_of_app; right; left|by rewrite Ew|by apply buildProvider_iface in Hp|done|].
    by apply buildProvider_v4 in Hp.
  - case_bool_decide; [done|]. by intros [= <-].
Qed.

(** Different names have different identifiers, none of them empty. *)
Record ids_ok (entries : list ifaceEntry) (ids : gmap string string) : Prop := mkIdsOk {
  io_some : forall entry, entry ∈ entries -> is_Some (ids !! e_Name entry);
  io_nonempty : forall n id, ids !! n = Some id -> id <> ""%string;
  io_inj : forall n n' id, ids !! n = Some id -> ids !! n' = Some id -> n = n';
}.

Lemma normalized entries r : NoDup (e_Name <$> entries) -> normalizeConnectionIDs entries = Ok r -> ids_ok entries r.1.
Proof.
  intros Hnd. unfold normalizeConnectionIDs. intros (m & H & [= <-])%res_bind_ok. cbn. revert H.
  cut (fold_res normalize_entry (mkIdMaps ∅ ∅ []) entries = Ok m -> ids_ok entries (im_ids m) /\ forall n id, im_ids m !! n = Some id -> id ∈ im_seen m).
  { by intros H []%H. }
  apply (fold_res_ind _ (fun dn m => ids_ok dn (im_ids m) /\ forall n id, im_ids m !! n = Some id -> id ∈ im_seen m)).
  - split; [split|]; cbn; [intros ? []%not_elem_of_nil|intros n id; by rewrite lookup_empty..].
  - intros dn entry todo b b' Hl [[H1 H2 H3] Hs]. unfold normalize_entry. set (id := Resolve _ _ _).
    intros (? & Hv%reject_if_ok & (? & Hf%reject_if_ok & [= <-])%res_bind_ok)%res_bind_ok. cbn.
    apply bool_decide_eq_false in Hf. unfold invalid_id in Hv. apply orb_false_iff in Hv as [[Hne%is_empty_false _]%orb_false_iff _].
    split; [split|].
    + intros e [He| ->%list_elem_of_singleton]%elem_of_app; [|rewrite lookup_insert_eq; by eexists].
      destruct (decide (e_Name entry = e_Name e)) as [->|Hn]; [rewrite lookup_insert_eq; by eexists|rewrite lookup_insert_ne by done; by apply H1].
    + intros n i. rewrite lookup_insert_Some. intros [[_ <-]|[_ H]]; [done|by eapply H2].
    + intros n n' i. rewrite !lookup_insert_Some. intros [[<- <-]|[Hn H]] [[<- E]|[Hn' H']]; [done| | |by eapply H3].
      * exfalso. by apply Hf, (Hs n').
      * subst i. exfalso. by apply Hf, (Hs n).
    + intros n i. rewrite lookup_insert_Some. intros [[_ <-]|[_ H]]; [left|right; by eapply Hs].
Qed.

Lemma tunnel_ids_in connections id t : tunnel_ids connections !! id = Some t -> exists c, c ∈ connections /\ conn_ID c = id /\ conn_tunnel c = Some t.
Proof.
  unfold tunnel_ids. induction connections as [|c cs IH] using rev_ind; cbn; [by rewrite lookup_empty|]. rewrite fold_left_snoc.
  destruct (conn_tunnel c) as [t'|] eqn:E.
  - rewrite lookup_insert_Some. intros [[<- <-]|[_ H]]; [exists c; split; [apply elem_of_app; right; left|done]|].
    destruct (IH H) as (c' & Hc & H'). exists c'. split; [by apply elem_of_app; left|done].
  - intros H. destruct (IH H) as (c' & Hc & H'). exists c'. split; [by apply elem_of_app; left|done].
Qed.

(** ** A loaded document *)

(** What the steps of [build] establish for the routes module. *)
Record loaded_parts (doc : document) (c : Config) : Prop := mkLoadedParts {
  lp_leaves : cfg_InternalIface c <> ""%string /\ cfg_OpnsenseEdgeV6 c <> ""%string /\ cfg_InternalNetV4 c <> ""%string;
  lp_set : provider_set_ok (cfg_ReservedTables c) (cfg_Connections c) (cfg_WAN c);
  lp_ids : NoDup (e_Name <$> doc_Interface doc) -> ids_ok (doc_Interface doc) (cfg_ConnectionIDs c);
  lp_providers : forall id a, cfg_WAN c !! id = Some a -> provider_of (doc_Interface doc) (cfg_ConnectionIDs c) id a;
  lp_connections : exists built, cfg_Connections c = List.filter (is_active (cfg_WAN c)) built /\ set_ok built /\
    Forall (identified (cfg_ConnectionIDs c)) built /\ Forall (fun conn => exists entry, entry ∈ doc_Interface doc /\ made_of entry conn) built;
  lp_active : exists u, validateActiveDependencies (cfg_Connections c) = Ok u;
}.

Lemma build_parts doc c : build doc = Ok c -> loaded_parts doc c.
Proof.
  unfold build. intros (loaded & _ & H)%res_bind_ok. apply res_bind_ok in H as (? & Hleaves & H). destruct (sg_ProbeTimeout _); [|done].
  apply res_bind_ok in H as (ids & Hids & H). apply res_bind_ok in H as (built & Hbuilt & H).
  apply res_bind_ok in H as (p & Hp & H). apply res_bind_ok in H as (? & Hact & H). apply res_bind_ok in H as (? & _ & H).
  apply res_bind_ok in H as (? & Hset%provider_set_checked & H). apply res_bind_ok in H as (claims & _ & H). apply res_bind_ok in H as (fw & _ & [= <-]).
  rewrite check_all_ok in Hleaves. unfold required_leaves in Hleaves.
  split; cbn; [|exact Hset| |exact (providers_made _ _ _ _ _ Hp)| |by eexists].
  - repeat (apply Forall_cons in Hleaves as [?%reject_if_ok%is_empty_false Hleaves]). by split_and!.
  - intros Hnd. by apply normalized.
  - exists built.1. split; [done|]. pose proof (compileConnections_identified _ _ _ _ _ Hbuilt). by apply compiled_made in Hbuilt as [].
Qed.

Section Loaded.
Context (doc : document) (c : Config) (Hparts : loaded_parts doc c) (Hnames : NoDup (e_Name <$> doc_Interface doc))
  (Hnonempty : forall e, e ∈ doc_Interface doc -> e_Name e <> ""%string).
Abbreviation entries := (doc_Interface doc).
Abbreviation ids := (cfg_ConnectionIDs c).

Lemma same_entry e e' : e ∈ entries -> e' ∈ entries -> e_Name e = e_Name e' -> e = e'.
Proof. by apply (same_key e_Name). Qed.

Lemma id_name e n : e ∈ entries -> default ""%string (ids !! e_Name e) = default ""%string (ids !! n) -> e_Name e = n.
Proof.
  intros He E. destruct (lp_ids _ _ Hparts Hnames) as [H1 H2 H3]. destruct (H1 e He) as [id Hid]. rewrite Hid in E. cbn in E.
  destruct (ids !! n) as [id'|] eqn:En; cbn in E; [subst; by eapply H3|]. by apply H2 in Hid.
Qed.

(** An active connection, its entry, and the entry's identifier. *)
Lemma active_entry conn : conn ∈ cfg_Connections c -> exists entry, entry ∈ entries /\ made_of entry conn /\
  conn_ID conn = default ""%string (ids !! e_Name entry).
Proof.
  destruct (lp_connections _ _ Hparts) as (built & E & _ & Hid & Hm). rewrite E. intros [Hc _]%list_elem_of_In%filter_In.
  apply list_elem_of_In in Hc. rewrite Forall_forall in Hid, Hm. destruct (Hm _ Hc) as (entry & He & Hmade). exists entry.
  split_and!; [done..|]. rewrite <- (mo_name _ _ Hmade). by apply Hid.
Qed.

(** The connection of a provider. *)
Lemma provider_connection id a conn : cfg_WAN c !! id = Some a -> conn ∈ cfg_Connections c -> conn_ID conn = id ->
  exists entry, entry ∈ entries /\ made_of entry conn /\ is_some (e_WAN entry) = true /\ we_Iface a = e_Name entry /\
    is_some (we_TranslationV4 a) = is_some (e_IPv4 entry).
Proof.
  intros Ha Hc Hid. destruct (lp_providers _ _ Hparts id a Ha) as (e & He & Hw & Hi & Hid' & H4). destruct (active_entry conn Hc) as (e' & He' & Hm & Hid'').
  assert (e = e') as <-; [|by exists e]. apply same_entry; [done..|]. apply id_name; [done|congruence].
Qed.

(** The underlay of a provider's tunnel is a provider with IPv4 and no tunnel. *)
Lemma underlay_provider id a t : cfg_WAN c !! id = Some a -> tunnel_ids (cfg_Connections c) !! id = Some t ->
  exists uid ua, cfg_WAN c !! uid = Some ua /\ we_Iface ua = Underlay t /\ is_some (we_TranslationV4 ua) = true /\
    tunnel_ids (cfg_Connections c) !! uid = None.
Proof.
  intros Ha Ht. destruct (tunnel_ids_in _ _ _ Ht) as (conn & Hc & Hid & Htun). destruct (provider_connection id a conn Ha Hc Hid) as (e & He & Hm & Hw & Hi & H4).
  unfold conn_tunnel in Htun. destruct (conn_Link conn) as [link|] eqn:El; [|done]. cbn in Htun.
  destruct (lp_connections _ _ Hparts) as (built & E & Hok & Hidb & Hmb). rewrite Forall_forall in Hmb.
  pose proof Hc as Hc'. rewrite E in Hc'. apply list_elem_of_In, filter_In in Hc' as [Hcb%list_elem_of_In _].
  destruct (so_carried _ Hok conn link t Hcb El Htun) as (u & Hu & Hun & _ & Hkind & Hprov). rewrite (mo_role _ _ Hm) in Hprov. destruct (Hprov Hw) as [Hur Hu4].
  destruct (Hmb u Hu) as (eu & Heu & Hmu). rewrite (mo_role _ _ Hmu) in Hur. apply is_some_true in Hu4. rewrite (mo_ipv4 _ _ Hmu) in Hu4.
  destruct (lp_active _ _ Hparts) as [x Hact]. unfold validateActiveDependencies in Hact. apply res_bind_ok in Hact as (? & _ & Hact).
  rewrite check_all_ok, Forall_forall in Hact. specialize (Hact conn Hc). rewrite El, check_all_ok, Forall_forall in Hact.
  specialize (Hact (Underlay t)). rewrite reject_if_ok in Hact. specialize (Hact ltac:(unfold linkDependencies, NetGraph.tunnelUnderlay; rewrite Htun; set_solver)).
  rewrite (proj2 (is_empty_false (Underlay t))) in Hact by (rewrite <- Hun, (mo_name _ _ Hmu); by apply Hnonempty).
  apply negb_false_iff, bool_decide_eq_true, list_elem_of_fmap in Hact as (u' & Hn' & Hu').
  destruct (active_entry u' Hu') as (eu' & Heu' & Hmu' & Hid').
  assert (eu' = eu) as ->. { apply same_entry; [done..|]. rewrite <- (mo_name _ _ Hmu'), <- (mo_name _ _ Hmu). congruence. }
  pose proof Hu' as Hu''. rewrite E in Hu''. apply list_elem_of_In, filter_In in Hu'' as [_ Hact]. unfold is_active in Hact.
  rewrite (mo_role _ _ Hmu'), Hur in Hact. cbn in Hact. apply is_some_true in Hact as [ua Hua].
  destruct (provider_connection _ ua u' Hua Hu' eq_refl) as (e2 & He2 & Hm2 & _ & Hi2 & H42).
  assert (e2 = eu) as ->. { apply same_entry; [done..|]. rewrite <- (mo_name _ _ Hm2), <- (mo_name _ _ Hmu'). done. }
  exists (conn_ID u'), ua. split_and!; [done|rewrite Hi2, <- (mo_name _ _ Hmu); done|by rewrite H42|].
  destruct (tunnel_ids (cfg_Connections c) !! conn_ID u') as [t2|] eqn:E2; [|done]. exfalso.
  destruct (tunnel_ids_in _ _ _ E2) as (c2 & Hc2 & Hid2 & Ht2). destruct (provider_connection _ ua c2 Hua Hc2 Hid2) as (e3 & He3 & Hm3 & _ & Hi3 & _).
  assert (e3 = eu) as ->. { apply same_entry; [done..|]. congruence. }
  pose proof (mo_wired _ _ Hm3) as Hw3. rewrite Ht2, <- (mo_wired _ _ Hmu) in Hw3. unfold conn_tunnel in Hw3.
  destruct (conn_Link u) as [ul|] eqn:Eul; [|done]. cbn in Hw3. destruct (link_Tunnel ul) as [tu|] eqn:Etu; [|done].
  destruct (mo_tunnel _ _ Hmu ul tu Eul Etu) as [Hk _]. by destruct (Hkind ul eq_refl) as [Hne _].
Qed.

(** The provider the module runs for an entry. *)
Definition route_of (e : string * IfMgrWANEntry) : WAN :=
  let w := shared_wan (cfg_Connections c) e in
  mkRouteWAN (sw_ref w) (sw_SelectionEnabled w) (sw_Owned w) (sw_TableID w) (sw_FwMark w) (sw_FwMarkPrio w) (sw_FromPrio w)
    (sw_TranslationV4 w) (sw_TranslationV6 w) (sw_V4Source w) (sw_Tier w) (sw_Weight w)
    (mappedExternals (sw_TranslationV4 w)) (localMappedExternals (sw_TranslationV4 w)) (sw_Tunnel w) (bgpRouteMetrics (sw_BGPSessions w)).

(** Numbers in range, no priority of the fallback rules, and only 6in4 tunnels as providers. *)
Definition routable : Prop := forall id a, cfg_WAN c !! id = Some a ->
  0 < we_TableID a /\ 0 < we_FwMark a <= max_uint32 /\ 0 < we_FwMarkPrio a /\ 0 < we_FromPrio a /\
  we_FwMarkPrio a <> catchAllPriority /\ we_FromPrio a <> catchAllPriority /\
  forall t, tunnel_ids (cfg_Connections c) !! id = Some t -> tun_Protocol t = TunnelProtocol6in4.

Context (Hroutable : routable).
Abbreviation sorted := (sorted_wans (cfg_WAN c)).
Abbreviation ws := (route_of <$> sorted).

Lemma sorted_route w : w ∈ ws -> exists id a, cfg_WAN c !! id = Some a /\ w = route_of (id, a).
Proof. intros ([id a] & -> & H)%list_elem_of_fmap. apply sorted_wans_in in H. by exists id, a. Qed.

Lemma routes_built : map_res routes_wan (shared_wan (cfg_Connections c) <$> sorted) = Ok ws.
Proof.
  apply map_res_ok. rewrite Forall2_fmap_l, Forall2_fmap_r. apply Forall_Forall2_diag, Forall_forall. intros [id a] H%sorted_wans_in.
  destruct (Hroutable id a H) as (_ & Hm & _). unfold compose, routes_wan, wanFwMark. change (sw_FwMark (shared_wan (cfg_Connections c) (id, a))) with (we_FwMark a).
  destruct (Z.ltb_spec (we_FwMark a) 0) as [|_]; [lia|]. destruct (Z.ltb_spec max_uint32 (we_FwMark a)) as [|_]; [lia|]. done.
Qed.

Lemma key_of id a : cfg_WAN c !! id = Some a -> wan_key (route_of (id, a)) = id /\ id <> ""%string.
Proof.
  intros Ha. destruct (lp_providers _ _ Hparts id a Ha) as (e & He & _ & _ & Hid & _). destruct (lp_ids _ _ Hparts Hnames) as [H1 H2 _].
  destruct (H1 e He) as [i Hi]. assert (id <> ""%string) as Hn by (rewrite Hid, Hi; by eapply H2). split; [|done].
  unfold wan_key, route_of, shared_wan, Key. cbn. by rewrite bool_decide_true.
Qed.

Lemma keys_sorted : wan_key <$> ws = sorted.*1.
Proof.
  rewrite <- list_fmap_compose. apply list_fmap_ext. intros i [id a] H%list_elem_of_lookup_2%sorted_wans_in. by apply key_of in H as [].
Qed.

Lemma keys_distinct : NoDup (wan_key <$> ws).
Proof. rewrite keys_sorted, sorted_wans_perm. apply NoDup_fst_map_to_list. Qed.

Lemma route_slots e slot : slot ∈ wanRuleSlots (route_of e) -> slot.2 ∈ entry_priorities e.2.
Proof. destruct e as [id a]. unfold wanRuleSlots, entry_priorities. cbn. set_solver. Qed.

Lemma slots_distinct : NoDup (w ← ws; wanRuleSlots w).
Proof.
  destruct (ps_priorities _ _ _ (lp_set _ _ Hparts)) as [Hone Hown].
  apply NoDup_bind; [| |apply (NoDup_fmap_1 wan_key), keys_distinct].
  - intros w1 w2 slot (i & a & Ha & ->)%sorted_route (k & b & Hb & ->)%sorted_route H1 H2.
    assert (i = k) as ->; [|congruence]. apply (Hone i k a b slot.2 Ha Hb); [apply route_slots in H1|apply route_slots in H2]; done.
  - intros w (i & a & Ha & ->)%sorted_route. pose proof (Hown i a Ha) as Hne. unfold wanRuleSlots. cbn.
    repeat (apply NoDup_cons; split; [set_solver|]). constructor.
Qed.

Lemma wan_valid id a : cfg_WAN c !! id = Some a -> validateWAN (route_of (id, a)) = Ok tt.
Proof.
  intros Ha. destruct (Hroutable id a Ha) as (H1 & H2 & H3 & H4 & H5 & H6 & _). destruct (key_of id a Ha) as [Hk Hn].
  destruct (lp_providers _ _ Hparts id a Ha) as (e & He & _ & Hi & _). unfold validateWAN. rewrite Hk, (proj2 (is_empty_false _) Hn).
  change (wan_iface (route_of (id, a))) with (we_Iface a). rewrite Hi, (proj2 (is_empty_false _) (Hnonempty e He)).
  change (wn_TableID (route_of (id, a))) with (we_TableID a). change (wn_FwMark (route_of (id, a))) with (we_FwMark a).
  change (wn_FwMarkPrio (route_of (id, a))) with (we_FwMarkPrio a). change (wn_FromPrio (route_of (id, a))) with (we_FromPrio a).
  rewrite (proj2 (Z.leb_gt _ _) H1), (proj2 (Z.eqb_neq (we_FwMark a) 0)), (proj2 (Z.leb_gt _ _) H3), (proj2 (Z.leb_gt _ _) H4) by lia.
  by rewrite (proj2 (Z.eqb_neq _ _) H5), (proj2 (Z.eqb_neq _ _) H6).
Qed.

Lemma underlay_found id a t : cfg_WAN c !! id = Some a -> tunnel_ids (cfg_Connections c) !! id = Some t ->
  exists u, tunnelUnderlay ws (route_of (id, a)) = Some u /\ wn_Tunnel u = None /\ is_some (wn_TranslationV4 u) = true.
Proof.
  intros Ha Ht. destruct (underlay_provider id a t Ha Ht) as (uid & ua & Hua & Hui & Hu4 & Hut).
  unfold tunnelUnderlay. change (wn_Tunnel (route_of (id, a))) with (tunnel_ids (cfg_Connections c) !! id). rewrite Ht. cbn [mbind option_bind].
  destruct (List.find _ ws) as [u|] eqn:E.
  - apply find_some in E as [Hin E%bool_decide_eq_true]. apply list_elem_of_In, sorted_route in Hin as (i & b & Hb & ->).
    change (wan_iface (route_of (i, b))) with (we_Iface b) in E. destruct (lp_providers _ _ Hparts _ _ Hb) as (e & He & _ & Hi & Hid & _).
    destruct (lp_providers _ _ Hparts _ _ Hua) as (e' & He' & _ & Hi' & Hid' & _). assert (e = e') as -> by (apply same_entry; [done..|congruence]).
    assert (i = uid) as -> by congruence. assert (b = ua) as -> by congruence. exists (route_of (uid, ua)). by split_and!.
  - exfalso. assert (route_of (uid, ua) ∈ ws) as Hin by (apply (list_elem_of_fmap_2 route_of), sorted_wans_in; done).
    apply list_elem_of_In in Hin. apply (find_none _ _ E) in Hin. apply bool_decide_eq_false in Hin. by apply Hin.
Qed.

Lemma tunnel_valid id a : cfg_WAN c !! id = Some a -> validateTunnelWAN ws (route_of (id, a)) = Ok tt.
Proof.
  intros Ha. unfold validateTunnelWAN. change (wn_Tunnel (route_of (id, a))) with (tunnel_ids (cfg_Connections c) !! id).
  destruct (tunnel_ids (cfg_Connections c) !! id) as [t|] eqn:Et; [|done]. destruct (Hroutable id a Ha) as (_ & _ & _ & _ & _ & _ & Hp).
  destruct (tunnel_ids_in _ _ _ Et) as (conn & Hc & Hid & Htun). destruct (provider_connection id a conn Ha Hc Hid) as (e & He & Hm & Hw & Hi & H4).
  unfold conn_tunnel in Htun. destruct (conn_Link conn) as [link|] eqn:El; [|done]. destruct (mo_tunnel _ _ Hm link t El Htun) as (_ & Hr & Hnone).
  rewrite Hr. cbn [negb reject_if res_bind]. change (wn_TranslationV4 (route_of (id, a))) with (we_TranslationV4 a).
  rewrite H4, (Hnone Hw (Hp t Et)). cbn [is_some reject_if res_bind].
  destruct (underlay_found id a t Ha Et) as (u & -> & -> & Hu4). by destruct (wn_TranslationV4 u).
Qed.
End Loaded.

(** ** Theorems *)

(** The command's configuration of the routes module for a loaded document is accepted by the
    module's own validation, and names every provider of the document: the keys and rule slots
    are distinct, and the underlay of a tunnel is a provider with IPv4 and no tunnel.  The
    document's interfaces have different names, as the key of a list does, its numbers are in
    the ranges of the schema, no priority is that of the fallback rules, and a provider over a
    tunnel uses 6in4. *)
Lemma loaded_routes_accepted doc c section :
  build doc = Ok c -> NoDup (e_Name <$> doc_Interface doc) -> (forall e, e ∈ doc_Interface doc -> e_Name e <> ""%string) -> routable c ->
  exists cfg, buildWANRoutesConfig (buildWANRefs (Apply_network c section)) (im_Routes (Apply_network c section)) = Ok cfg /\
    validateConfig cfg = Ok tt /\ wan_key <$> rc_WANs cfg = (sorted_wans (cfg_WAN c)).*1.
Proof.
  intros Hparts%build_parts Hnames Hne Hr. destruct (lp_leaves _ _ Hparts) as (L1 & L2 & L3).
  exists (mkRoutesConfig (cfg_InternalIface c) (cfg_OpnsenseEdgeV6 c) (cfg_InternalNetV4 c)
           (from_option wr_HealthStateFile ""%string (im_Routes section)) (route_of c <$> sorted_wans (cfg_WAN c))).
  split; [|split; [|by apply (keys_sorted doc)] ].
  - unfold buildWANRoutesConfig, buildWANRefs, Apply_network. cbn -[route_of]. by rewrite (routes_built c Hr).
  - unfold validateConfig. cbn [rc_InternalIface rc_OpnsenseEdgeV6 rc_InternalNetV4 rc_WANs].
    rewrite (proj2 (is_empty_false _) L1), (proj2 (is_empty_false _) L2), (proj2 (is_empty_false _) L3). cbn [reject_if res_bind].
    destruct (wans_accepted (route_of c <$> sorted_wans (cfg_WAN c)) (route_of c <$> sorted_wans (cfg_WAN c)) [] []) as [r ->]; [..|done].
    + apply Forall_forall. intros w (id & a & Ha & ->)%sorted_route. split; [by apply (wan_valid doc)|by apply (tunnel_valid doc)].
    + rewrite app_nil_r, reverse_Permutation. by apply (keys_distinct doc).
    + rewrite app_nil_r, reverse_Permutation. by apply (slots_distinct doc).
Qed.

(** ** The published plan of rules *)

Definition plan_key (r : PolicyRule) : PolicyRuleKey := (pr_ConnectionID r, pr_Family r, pr_Kind r).
Definition rules_of (e : string * IfMgrWANEntry) : list PolicyRule := ConfiguredPolicyRules (provider_policy e.1 e.2 (we_FwMark e.2)).

Lemma family_by_kind p name source r r' : r ∈ family_policy_rules p name source -> r' ∈ family_policy_rules p name source ->
  pr_Kind r = pr_Kind r' -> r = r'.
Proof.
  unfold family_policy_rules. destruct source as [src|]; [|by intros ?%not_elem_of_nil]. rewrite !elem_of_cons.
  destruct (_ || _); rewrite ?list_elem_of_singleton, ?elem_of_nil; intros [->|H] [->|H']; subst; done.
Qed.

Lemma rule_by_kind e r r' : r ∈ rules_of e -> r' ∈ rules_of e -> plan_key r = plan_key r' -> r = r'.
Proof.
  unfold rules_of, ConfiguredPolicyRules. rewrite !elem_of_app. intros H1 H2 [= _ Ef Ek].
  destruct H1 as [H1|H1], H2 as [H2|H2]; try (by eapply family_by_kind);
    apply family_rule_shape in H1 as (_ & E1 & _); apply family_rule_shape in H2 as (_ & E2 & _); rewrite E1, E2 in Ef; done.
Qed.

(** Once planned, a rule stays: a rule with the same key is the same rule. *)
Lemma rules_planned e rules rules' : fold_res add_policy_rule rules (rules_of e) = Ok rules' ->
  (forall r, r ∈ rules_of e -> rules' !! plan_key r = Some r) /\
  (forall k, (forall r, r ∈ rules_of e -> plan_key r <> k) -> rules' !! k = rules !! k).
Proof.
  apply (fold_res_ind _ (fun dn rules' => (forall r, r ∈ dn -> rules' !! plan_key r = Some r) /\
    (forall k, (forall r, r ∈ rules_of e -> plan_key r <> k) -> rules' !! k = rules !! k))); [split; [by intros r ?%not_elem_of_nil|done]|].
  intros dn rule todo b b' Hl [H1 H2]. unfold add_policy_rule. intros (? & _ & [= <-])%res_bind_ok.
  assert (rule ∈ rules_of e) as Hrule by (rewrite Hl; apply elem_of_app; right; left). split.
  - intros r Hr. destruct (decide (plan_key rule = plan_key r)) as [E|Hne].
    + assert (rule = r) as <-; [|by rewrite lookup_insert_eq]. apply elem_of_app in Hr as [Hr|Hr%list_elem_of_singleton]; [|done].
      eapply rule_by_kind; [exact Hrule| |done]. rewrite Hl. apply elem_of_app. by left.
    + rewrite lookup_insert_ne by done. apply H1. apply elem_of_app in Hr as [Hr| ->%list_elem_of_singleton]; done.
  - intros k Hk. rewrite lookup_insert_ne by (by apply Hk). by apply H2.
Qed.

Lemma rule_connection e r : r ∈ rules_of e -> pr_ConnectionID r = e.1.
Proof. intros H. by apply provider_rule_shape in H as []. Qed.

Lemma plan_exact c plan : PolicyRules c = Ok plan -> forall id a r, cfg_WAN c !! id = Some a -> r ∈ rules_of (id, a) -> plan !! plan_key r = Some r.
Proof.
  unfold PolicyRules. intros H id a r Ha Hr. apply elem_of_map_to_list in Ha. revert Ha.
  assert (NoDup (map_to_list (cfg_WAN c)).*1) as Hnd by apply NoDup_fst_map_to_list. revert H Hnd. generalize (map_to_list (cfg_WAN c)) as l. intros l H Hnd. revert H.
  cut (fold_res add_policy_rules ∅ l = Ok plan -> forall e r, e ∈ l -> r ∈ rules_of e -> plan !! plan_key r = Some r); [intros Hc H Hin; exact (Hc H (id, a) r Hin Hr)|].
  apply (fold_res_ind _ (fun dn plan => forall e r, e ∈ dn -> r ∈ rules_of e -> plan !! plan_key r = Some r)); [by intros e ? ?%not_elem_of_nil|].
  intros dn e todo b b' Hl Hb. unfold add_policy_rules. intros (? & _ & H)%res_bind_ok. apply res_bind_ok in H as (mark & Hm & H).
  apply res_bind_ok in H as (? & _ & H). apply res_bind_ok in H as (? & _ & H). unfold routingNumber in Hm. destruct (_ || _); [done|].
  injection Hm as <-. apply rules_planned in H as [H1 H2]. intros e' r' [He| ->%list_elem_of_singleton]%elem_of_app Hr'; [|by apply H1].
  rewrite H2; [by eapply Hb|]. intros r2 Hr2 [= E _ _]. rewrite (rule_connection _ _ Hr2), (rule_connection _ _ Hr') in E.
  rewrite Hl, fmap_app in Hnd. apply NoDup_app in Hnd as (_ & Hd & _). apply (Hd e'.1); [by apply list_elem_of_fmap_2|rewrite <- E; left].
Qed.

Lemma plan_of c plan : PolicyRules c = Ok plan -> forall r k, plan !! k = Some r -> exists id a, cfg_WAN c !! id = Some a /\ r ∈ rules_of (id, a).
Proof.
  unfold PolicyRules. apply (fold_res_ind _ (fun _ plan => forall r k, plan !! k = Some r -> exists id a, cfg_WAN c !! id = Some a /\ r ∈ rules_of (id, a))).
  { intros r k. by rewrite lookup_empty. }
  intros dn [id a] todo b b' Hl Hb. assert (cfg_WAN c !! id = Some a) as Ha by (apply elem_of_map_to_list; rewrite Hl; apply elem_of_app; right; left).
  unfold add_policy_rules. cbn [fst snd]. intros (? & _ & H)%res_bind_ok. apply res_bind_ok in H as (mark & Hm & H).
  apply res_bind_ok in H as (? & _ & H). apply res_bind_ok in H as (? & _ & H). unfold routingNumber in Hm. destruct (_ || _); [done|].
  injection Hm as <-. revert H. apply (fold_res_ind _ (fun _ plan => forall r k, plan !! k = Some r -> exists id a, cfg_WAN c !! id = Some a /\ r ∈ rules_of (id, a))); [done|].
  intros dn' rule todo' b1 b2 Hrules Hb1. unfold add_policy_rule. intros (? & _ & [= <-])%res_bind_ok r k.
  rewrite lookup_insert_Some. intros [[_ <-]|[_ H]]; [|by eapply Hb1]. exists id, a. split; [done|].
  unfold rules_of. cbn. rewrite Hrules. apply elem_of_app. right. left.
Qed.

Lemma routes_wan_of c e w : routes_wan (shared_wan (cfg_Connections c) e) = Ok w -> w = route_of c e.
Proof.
  unfold routes_wan, wanFwMark. intros (mark & Hm & [= <-])%res_bind_ok. apply res_bind_ok in Hm as (? & _ & Hm).
  apply res_bind_ok in Hm as (? & _ & [= <-]). done.
Qed.

Lemma routes_config c section cfg :
  buildWANRoutesConfig (buildWANRefs (Apply_network c section)) (im_Routes (Apply_network c section)) = Ok cfg ->
  rc_WANs cfg = route_of c <$> sorted_wans (cfg_WAN c).
Proof.
  unfold buildWANRoutesConfig. cbn [Apply_network im_Routes]. intros (ws & Hws & [= <-])%res_bind_ok. cbn in *. apply map_res_ok in Hws.
  rewrite Forall2_fmap_l in Hws. symmetry. apply list_eq. intros i. rewrite list_lookup_fmap.
  pose proof (Forall2_length _ _ _ Hws) as Hlen. destruct (sorted_wans (cfg_WAN c) !! i) as [e|] eqn:E.
  - destruct (Forall2_lookup_l _ _ _ _ _ Hws E) as (w & -> & H). by apply routes_wan_of in H as ->.
  - cbn. symmetry. apply lookup_ge_None. apply lookup_ge_None in E. lia.
Qed.

Lemma routes_policy doc c id a : loaded_parts doc c -> NoDup (e_Name <$> doc_Interface doc) -> cfg_WAN c !! id = Some a ->
  ConfiguredPolicyRules (policy_provider (route_of c (id, a))) = rules_of (id, a).
Proof.
  intros Hp Hn Ha. unfold policy_provider. rewrite (proj1 (key_of doc c Hp Hn id a Ha)). reflexivity.
Qed.

End Document.
