(* ===== verification/WanRoutesDemo.v ===== *)
(** * A pass over two providers

    A wired provider with a gateway in both families, and a 6in4 tunnel over it whose IPv6 is
    routed by the prefixes learned over BGP.  The kernel is the list of routes written. *)

From S2P Require Import Prelude GoStrings Effects NptPolicy Intent Observation BgpConfig Tier Notify Health BgpDemo.
From S2P Require Import BgpFib NetWire NetLink NetGraph NetProvider Firewall NetFirewall NetDocument NetProps GatewayBgp NetDemo WanState WanRoutes WanRoutesProps WanRoutesClaims GatewayRoutes.

Local Open Scope Z_scope.

#[local] Existing Instance demo_text.
#[local] Existing Instance net_text.

Abbreviation kernel := (list CurrentRoute).

Definition written (r : RouteSpec) : CurrentRoute :=
  mkCurrentRoute (rs_Family r) (rs_Dest r) (rs_Via r) (rs_Dev r) (rs_TableID r) (rs_Protocol r) (rs_Metric r) 0 1 [].

Definition in_table (family : string) (table : Z) (r : CurrentRoute) : bool := bool_decide (cr_Family r = family) && (cr_TableID r =? table).

Definition write_default (r : RouteSpec) (k : kernel) : kernel :=
  let rest := List.filter (fun c => negb (in_table (rs_Family r) (rs_TableID r) c && bool_decide (cr_Dest c = "default"%string))) k in
  if is_empty (rs_Via r) then rest else written r :: rest.

#[local] Instance kernel_writer : RouteWriter kernel := {
  ReconcileTableRoute r k := (None, written r :: k); DeleteTableRoute _ k := (None, k);
  ListProtocolRoutes family table protocol k := (inl (List.filter (fun r => in_table family table r && (cr_Protocol r =? protocol)) k), k);
  RouteMatch _ _ _ k := (inl None, k) }.

#[local] Instance kernel_routes : RouteKernel kernel := {
  IfaceDefaultGateway family iface k :=
    (inl (if bool_decide (iface = "wan0"%string) then (if bool_decide (family = familyV4) then "203.0.113.1" else "fe80::1") else "")%string, k);
  ReconcileTableDefault r k := (None, write_default r k);
  ListTableRoutes family table k := (Ok (List.filter (in_table family table) k), k);
  ReconcileRules _ k := (None, k); RemoveRuleAtPriority _ _ k := (None, k);
  UnreachableReplace _ _ k := (None, k); UnreachableDel _ _ k := (Some (mkNlerr "no such process" true), k);
  NextHopResolves _ _ k := (Ok true, k) }.

Definition ready_translation : MemberTranslation :=
  mkMemberTranslation (mkFamilyTranslation TranslationNAPT44 true "" no_prefix no_prefix)
    (mkFamilyTranslation TranslationNative true "" no_prefix no_prefix).

Definition learned_prefix : Prefix := mkPrefix (Addr6 (v6_bytes 0) "") 48.

(** The health file; at the path [pending] it says nothing of the tunnel. *)
Definition both_healthy : string := "fiber: healthy" +:+ String newline "he: healthy".

#[local] Instance kernel_env : RoutesEnv kernel := {
  StartRuleMonitor k := (None, k); BeginForwardingChange k := (None, k); FinishForwardingChange k := k;
  OpenHealthState path k := (FileData (if bool_decide (path = "pending"%string) then "fiber: healthy" else both_healthy), k);
  LiveTranslation k := (<["fiber"%string := ready_translation]> (<["he"%string := ready_translation]> ∅), k);
  LiveHealth k := (∅, k);
  LiveBGPSessions key k := ((if bool_decide (key = "he"%string) then [mkSessionState "transit" "established" true 1 [learned_prefix] [] [] []] else []), k);
  HasOwnedAddress _ _ k := (true, k); FamilyRoutable _ _ k := (true, k); GetOwnedLink _ k := (Some OwnedLinkReady, k);
  EnsureTunnelEndpointRoute _ _ k := (None, k); ReleaseTunnelEndpointRoutes _ k := (None, k) }.

#[local] Instance kernel_order : MapOrder kernel := {| range_order A _ l := l; range_perm A w l := reflexivity l |}.

Definition napt : option IPv4Translation := Some (mkIPv4Translation TranslationNAPT44 []).
Definition native6 : option IPv6Translation := Some (mkIPv6Translation TranslationNative None).

Definition fiber : WAN :=
  mkRouteWAN (mkWANRef "fiber" "fiber" "wan0") None false 101 1 10001 11001 napt native6 (v4 203 0 113 2) 0 2 [] [] None [].
Definition he : WAN :=
  mkRouteWAN (mkWANRef "he" "he" "tun0") None true 102 2 10002 11002 None native6 "" 1 1 [] []
    (Some (mkTunnel TunnelProtocol6in4 "wan0" (Addr4 [198; 51; 100; 7]) AddrNone None None)) [512].

Definition two_wans (healthFile : string) : RoutesConfig := mkRoutesConfig "lan0" "2001:db8::5" "10.0.0.0/24" healthFile [fiber; he].
Definition full_env : routesEnv := mkRoutesEnv [] true true true true true true.
Definition demo_routes : routesModule := New (two_wans "") full_env.
Definition pending_routes : routesModule := New (two_wans "pending") full_env.

Definition publication (l : list revent) : option (Z * gmap string MemberRouting) :=
  head (omap (fun e => match e with RPublish tier members => Some (tier, members) | _ => None end) l).

Lemma publication_in l tier members : publication l = Some (tier, members) -> RPublish tier members ∈ l.
Proof.
  intros H%head_Some_elem_of. apply list_elem_of_omap in H as (e & He & H). destruct e; try discriminate H. by injection H as <- <-.
Qed.

Definition published (m : routesModule) (key : string) (ok : MemberRouting -> bool) : bool :=
  match publication (pass_log m []) with
  | Some (_, members) => match members !! key with Some mr => ok mr | None => false end
  | None => false
  end.

(** The member [key] of the pass of [m], for which [ok] holds. *)
Ltac published_as m key ok tier members mr Hp Hm Hok :=
  let H := fresh in assert (published m key ok = true) as H by (vm_compute; reflexivity);
  unfold published in H; destruct (publication (pass_log m [])) as [[tier members]|] eqn:Hp; [|discriminate H];
  destruct (members !! key) as [mr|] eqn:Hm; [|discriminate H]; apply publication_in in Hp; rename H into Hok.


(** ** The document of [NetDemo] *)

Definition routable_bool (c : Config) : bool :=
  forallb (fun e : string * IfMgrWANEntry =>
    (0 <? we_TableID e.2) && (0 <? we_FwMark e.2) && (we_FwMark e.2 <=? max_uint32) && (0 <? we_FwMarkPrio e.2) && (0 <? we_FromPrio e.2)
    && negb (we_FwMarkPrio e.2 =? catchAllPriority) && negb (we_FromPrio e.2 =? catchAllPriority)
    && match tunnel_ids (cfg_Connections c) !! e.1 with Some t => bool_decide (tun_Protocol t = TunnelProtocol6in4) | None => true end)
    (map_to_list (cfg_WAN c)).

Lemma routable_decided c : routable_bool c = true -> routable c.
Proof.
  unfold routable_bool. rewrite forallb_Forall, Forall_forall. intros H id a Ha. apply elem_of_map_to_list in Ha. specialize (H _ Ha). cbn in H.
  rewrite !andb_true_iff, !negb_true_iff, !Z.ltb_lt, Z.leb_le, !Z.eqb_neq in H. destruct H as [H Ht].
  split_and!; try lia. intros t Et. rewrite Et in Ht. by apply bool_decide_eq_true in Ht.
Qed.

Ltac loaded_doc doc c E Hr :=
  let H := fresh in assert (match build doc with Ok c => routable_bool c | Err _ => false end = true) as H by (vm_compute; reflexivity);
  destruct (build doc) as [c|?] eqn:E; [apply routable_decided in H as Hr|discriminate H].

Lemma demo_names : NoDup (e_Name <$> doc_Interface demo_document) /\ forall e, e ∈ doc_Interface demo_document -> e_Name e <> ""%string.
Proof.
  split; [by apply (bool_decide_unpack (NoDup _))|]. intros e He. cbn in He.
  repeat (apply elem_of_cons in He as [->|He]; [done|]). by apply not_elem_of_nil in He.
Qed.


(** ** Documents that load and are refused later *)

(** The configuration the module refuses, for a document that loads. *)
Definition refused (doc : document) : bool :=
  is_ok (build doc) && negb (is_ok (c <-? build doc ;;
    cfg <-? buildWANRoutesConfig (buildWANRefs (Apply_network c no_section)) (im_Routes (Apply_network c no_section)) ;; validateConfig cfg)%go).

Definition with_interfaces (entries : list ifaceEntry) : document := mkDocument "" entries (doc_SteeringGroup demo_document).

(** The priority of the fallback rules. *)
Definition at_fallback : ifaceEntry :=
  mkIfaceEntry "wan0" "" None "" "" "" "" (e_Link wired) None (e_IPv4 wired) (e_IPv6 wired)
    (Some (mkWanWire "fiber" (Some 101) (Some 1) (Some 50) (Some 11001) "" (Some 10) None [])) (e_Steering wired).

(** A VXLAN tunnel with IPv4. *)
Definition vxlan_provider : ifaceEntry :=
  mkIfaceEntry "vx0" "" None "vx" OwnerMWAN "" ""
    (Some (mkLinkIdentity None "" (Some 1400) None ""
       (Some (mkLinkTunnel TunnelProtocolVXLAN "wan0" (v4 198 51 100 7) "" None (Some (mkLinkVXLAN (Some 7) (Some 1000) (Some 2000) (Some 4789) (Some 0))))) None)) None
    (Some (mkFamilyV4 (plain_family (Some (NetWire.mkFamilyTranslation TranslationNAPT44 [] None)) [mkIpAddress (v4 192 0 2 2) (Some 24)] (v4 192 0 2 1) (Some 300)) [] None))
    None
    (Some (mkWanWire "vx" (Some 103) (Some 3) (Some 10003) (Some 11003) "" None None []))
    (Some (mkSteering None (Some 2) (Some 1))).

(** The loader accepts a provider at the fallback priority, and a provider over VXLAN with IPv4,
    which the routes module refuses: its initialisation fails. *)
Lemma loaded_but_refused :
  refused (with_interfaces [plain_entry "lan0"; plain_entry "mgmt0"; at_fallback]) = true /\
  refused (with_interfaces [plain_entry "lan0"; plain_entry "mgmt0"; wired; vxlan_provider]) = true.
Proof. split; vm_compute; reflexivity. Qed.
