(* ===== verification/Nftables.v ===== *)
(** * Netfilter rules

    The expressions a rule of the steering table consists of, as the nftables library encodes
    them, and their documented meaning: a rule's expressions run in order over a file of
    registers, a comparison that fails ends the rule, and a rule without a verdict leads on to
    the next.  What the number generator and the hash of the kernel compute is the class
    [NftKernel]; only their range is used. *)

From Stdlib Require Import Ascii.
From S2P Require Import Prelude GoStrings NptPolicy.

Local Open Scope Z_scope.

(** ** Bytes *)

(** A 32-bit word in the byte order of the host, here the little-endian one. *)
Definition le32 (v : Z) : list Z := [v mod 256; v / 256 mod 256; v / 65536 mod 256; v / 16777216 mod 256].
Definition word32 (b : list Z) : Z :=
  match b with [b0; b1; b2; b3] => b0 + 256 * b1 + 65536 * b2 + 16777216 * b3 | _ => 0 end.

Lemma word32_le32 v : 0 <= v < 2 ^ 32 -> word32 (le32 v) = v.
Proof. intros H. unfold word32, le32. div_lia. Qed.

Lemma le32_inj v w : 0 <= v < 2 ^ 32 -> 0 <= w < 2 ^ 32 -> le32 v = le32 w -> v = w.
Proof. intros Hv Hw E. by rewrite <- (word32_le32 v), <- (word32_le32 w), E. Qed.

Fixpoint name_bytes (s : string) : list Z :=
  match s with EmptyString => [] | String c s => byte_val c :: name_bytes s end.

(** An interface name as the kernel keeps it, in a field of 16 bytes. *)
Definition name_field (s : string) : list Z := take 16 (name_bytes s ++ repeat 0 16).

Definition plain_name (s : string) : Prop := Forall (fun b => b <> 0) (name_bytes s) /\ (length (name_bytes s) <= 15)%nat.

Lemma name_bytes_inj s t : name_bytes s = name_bytes t -> s = t.
Proof.
  revert t. induction s as [|c s IH]; intros [|d t]; cbn; intros H; try done. injection H as Hc Hs.
  f_equal; [|by apply IH]. apply (f_equal Z.to_N) in Hc. unfold byte_val in Hc. rewrite !N2Z.id in Hc.
  by rewrite <- (ascii_N_embedding c), <- (ascii_N_embedding d), Hc.
Qed.

(** A zero ends both lists. *)
Lemma padded_eq (a b : list Z) n : Forall (fun x => x <> 0) a -> Forall (fun x => x <> 0) b ->
  take (length b + 1) (a ++ repeat 0 (S n)) = b ++ [0] -> a = b.
Proof.
  revert b. induction a as [|x a IH]; intros [|y b] Ha Hb H; cbn in H; [done| | |].
  - injection H as H _. apply Forall_cons in Hb as [Hb _]. congruence.
  - injection H as H. apply Forall_cons in Ha as [Ha _]. congruence.
  - injection H as -> H. apply Forall_cons in Ha as [_ Ha], Hb as [_ Hb]. f_equal. by apply IH.
Qed.

Lemma name_field_match s t : plain_name s -> plain_name t ->
  take (length (name_bytes t) + 1) (name_field s) = name_bytes t ++ [0] <-> s = t.
Proof.
  intros [Hs Ls] [Ht Lt]. unfold name_field. rewrite take_take, Nat.min_l by lia. split.
  - intros H. apply name_bytes_inj. by apply (padded_eq _ _ 15).
  - intros ->. rewrite take_app_ge by lia. by replace (_ - _)%nat with 1%nat by lia.
Qed.

Lemma byte_land v w k : 0 <= k -> Z.land (v / 2 ^ k mod 256) (w / 2 ^ k mod 256) = Z.land v w / 2 ^ k mod 256.
Proof.
  intros Hk. change 256 with (2 ^ 8). rewrite <- !Z.land_ones, <- !Z.shiftr_div_pow2 by lia. rewrite Z.shiftr_land. bits_solve.
Qed.

Lemma le32_land v w : zip_with Z.land (le32 v) (le32 w) = le32 (Z.land v w).
Proof.
  unfold le32. cbn [zip_with]. pose proof (byte_land v w 8) as H1. pose proof (byte_land v w 16) as H2. pose proof (byte_land v w 24) as H3.
  change (2 ^ 8) with 256 in *. change (2 ^ 16) with 65536 in *. change (2 ^ 24) with 16777216 in *.
  rewrite H1, H2, H3 by lia. f_equal. pose proof (byte_land v w 0 ltac:(lia)) as H. by rewrite !Z.div_1_r in H.
Qed.

Lemma land_word v w : 0 <= w < 2 ^ 32 -> 0 <= Z.land v w < 2 ^ 32.
Proof.
  intros H. split; [apply Z.land_nonneg; lia|]. destruct (decide (w = 0)) as [->|Hn]; [by rewrite Z.land_0_r|].
  rewrite <- (Z.mod_small w (2 ^ 32)), <- Z.land_ones, Z.land_assoc, Z.land_ones by lia. apply Z.mod_pos_bound. lia.
Qed.

Lemma xor_zeros (b : list Z) : zip_with Z.lxor b (repeat 0 (length b)) = b.
Proof. induction b as [|x b IH]; cbn; [done|]. by rewrite Z.lxor_0_r, IH. Qed.

(** [net.CIDRMask] *)
Definition CIDRMask (bits total : Z) : list Z :=
  if (bits <? 0) || (total <? bits) then [] else byte_mask bits <$> seq 0 (Z.to_nat (total / 8)).

Lemma land_masks bits (src : list Z) n : length src = n -> zip_with Z.land src (byte_mask bits <$> seq 0 n) = mask_bytes bits src.
Proof.
  intros <-. apply list_eq. intros i. rewrite lookup_zip_with, list_lookup_fmap. unfold mask_bytes. rewrite list_lookup_imap.
  destruct (src !! i) as [x|] eqn:E; cbn; [|done]. by rewrite lookup_seq_lt by by eapply lookup_lt_Some.
Qed.

Lemma mask_full bits (src : list Z) : 8 * Z.of_nat (length src) <= bits -> Forall is_byte src -> mask_bytes bits src = src.
Proof.
  intros Hb Hs. apply list_eq. intros i. unfold mask_bytes. rewrite list_lookup_imap. destruct (src !! i) as [x|] eqn:E; cbn; [|done].
  pose proof (lookup_lt_Some _ _ _ E) as Hi. rewrite Forall_lookup in Hs. specialize (Hs i x E). unfold byte_mask, bits_in.
  rewrite Z.max_r, Z.min_l by lia. change (mask 8) with (Z.ones 8). rewrite Z.land_ones by lia. by rewrite Z.mod_small.
Qed.

(** ** Expressions *)

Inductive MetaKey := MetaKeyIIFNAME | MetaKeyOIFNAME | MetaKeyNFPROTO | MetaKeyMARK | MetaKeyPRIORITY.
Inductive CmpOp := CmpOpEq | CmpOpNeq.

Inductive expr :=
| Meta (key : MetaKey) (sourceRegister : bool) (register : Z)
| Cmp (op : CmpOp) (register : Z) (data : list Z)
| Bitwise (source dest len : Z) (mask xor : list Z)
| Payload (dest offset len : Z)
| CtState (register : Z)
| Immediate (register : Z) (data : list Z)
| Lookup (source dest set : Z)
| Numgen (register modulus : Z)
| Hash (source dest len modulus seed : Z)
| VerdictDrop.

(** ** Packets *)

Record packet := mkPacket {
  p_iif : string;
  p_oif : string;
  p_proto : Z;
  p_header : list Z;
  p_mark : Z;
  p_priority : Z;
  p_ctstate : Z;
}.

Definition set_mark (v : Z) (p : packet) : packet :=
  mkPacket (p_iif p) (p_oif p) (p_proto p) (p_header p) v (p_priority p) (p_ctstate p).

Definition NFPROTO_IPV4 : Z := 2.
Definition NFPROTO_IPV6 : Z := 10.

Definition meta_value (key : MetaKey) (p : packet) : list Z :=
  match key with
  | MetaKeyIIFNAME => name_field (p_iif p)
  | MetaKeyOIFNAME => name_field (p_oif p)
  | MetaKeyNFPROTO => [p_proto p]
  | MetaKeyMARK => le32 (p_mark p)
  | MetaKeyPRIORITY => le32 (p_priority p)
  end.

(** What the kernel computes: a number below the modulus. *)
Class NftKernel := {
  random_slot : packet -> Z -> Z;
  hash_slot : list Z -> Z -> Z -> Z;
  random_range p modulus : 0 < modulus -> 0 <= random_slot p modulus < modulus;
  hash_range key seed modulus : 0 < modulus -> 0 <= hash_slot key seed modulus < modulus;
}.

(** ** Registers

    Registers 1 to 4 have 16 bytes; the 32-bit registers, numbered from 8, are the same
    bytes four at a time. *)

Definition registers := Z -> Z.

Definition reg_offset (register : Z) : Z := if register <? 8 then (register - 1) * 16 else (register - 8) * 4.

Definition reg_write (register : Z) (b : list Z) (r : registers) : registers := fun i =>
  let o := reg_offset register in
  if (o <=? i) && (i <? o + Z.of_nat (length b)) then default 0 (b !! Z.to_nat (i - o)) else r i.

Definition reg_read (register : Z) (len : nat) (r : registers) : list Z :=
  (fun k => r (reg_offset register + Z.of_nat k)) <$> seq 0 len.

Lemma read_written register b r : reg_read register (length b) (reg_write register b r) = b.
Proof.
  apply list_eq. intros i. unfold reg_read. rewrite list_lookup_fmap. destruct (decide (i < length b)%nat) as [H|H].
  - rewrite lookup_seq_lt by done. cbn. unfold reg_write.
    rewrite (proj2 (Z.leb_le _ _)), (proj2 (Z.ltb_lt _ _)) by lia. cbn. replace (Z.to_nat _) with i by lia.
    destruct (lookup_lt_is_Some_2 b i H) as [x ->]. done.
  - rewrite lookup_seq_ge by lia. cbn. symmetry. apply lookup_ge_None. lia.
Qed.

(** Two loads into adjacent registers read as one. *)
Lemma read_adjacent r1 r2 a b r : reg_offset r2 = reg_offset r1 + Z.of_nat (length a) ->
  reg_read r1 (length a + length b) (reg_write r2 b (reg_write r1 a r)) = a ++ b.
Proof.
  intros E. apply list_eq. intros i. unfold reg_read. rewrite list_lookup_fmap. destruct (decide (i < length a + length b)%nat) as [H|H].
  - rewrite lookup_seq_lt by done. cbn. unfold reg_write. rewrite E. destruct (decide (i < length a)%nat) as [Ha|Ha].
    + rewrite (proj2 (Z.leb_gt _ _)) by lia. cbn. rewrite (proj2 (Z.leb_le _ _)), (proj2 (Z.ltb_lt _ _)) by lia. cbn.
      replace (Z.to_nat _) with i by lia. rewrite lookup_app_l by done. by destruct (lookup_lt_is_Some_2 a i Ha) as [x ->].
    + rewrite (proj2 (Z.leb_le _ _)), (proj2 (Z.ltb_lt _ _)) by lia. cbn. replace (Z.to_nat _) with (i - length a)%nat by lia.
      rewrite lookup_app_r by lia. by destruct (lookup_lt_is_Some_2 b (i - length a)%nat ltac:(lia)) as [x ->].
  - rewrite lookup_seq_ge by lia. cbn. symmetry. apply lookup_ge_None. rewrite length_app. lia.
Qed.

(** ** Evaluation *)

(** The elements of a map, from key to value. *)
Abbreviation elements := (list (list Z * list Z)).

Inductive outcome := Passed (r : registers) (p : packet) | Dropped.

Section Run.
Context `{NK : !NftKernel} (sets : Z -> elements).

(** An expression leaves registers and packet, ends its rule, or drops the packet. *)
Inductive step := Continue (r : registers) (p : packet) | Break | Drop.

Definition cmp_holds (op : CmpOp) (found data : list Z) : bool :=
  match op with CmpOpEq => bool_decide (found = data) | CmpOpNeq => negb (bool_decide (found = data)) end.

Definition exec (e : expr) (r : registers) (p : packet) : step :=
  match e with
  | Meta key sourceRegister register =>
      if sourceRegister
      then match key with MetaKeyMARK => Continue r (set_mark (word32 (reg_read register 4 r)) p) | _ => Break end
      else Continue (reg_write register (meta_value key p) r) p
  | Cmp op register data => if cmp_holds op (reg_read register (length data) r) data then Continue r p else Break
  | Bitwise source dest len mask xor =>
      Continue (reg_write dest (zip_with Z.lxor (zip_with Z.land (reg_read source (Z.to_nat len) r) mask) xor) r) p
  | Payload dest offset len =>
      if offset + len <=? Z.of_nat (length (p_header p))
      then Continue (reg_write dest (take (Z.to_nat len) (drop (Z.to_nat offset) (p_header p))) r) p
      else Break
  | CtState register => Continue (reg_write register (le32 (p_ctstate p)) r) p
  | Immediate register data => Continue (reg_write register data r) p
  | Lookup source dest set =>
      match List.find (fun e => bool_decide (e.1 = reg_read source 4 r)) (sets set) with
      | Some e => Continue (reg_write dest e.2 r) p
      | None => Break
      end
  | Numgen register modulus => Continue (reg_write register (le32 (random_slot p modulus)) r) p
  | Hash source dest len modulus seed =>
      Continue (reg_write dest (le32 (hash_slot (reg_read source (Z.to_nat len) r) seed modulus)) r) p
  | VerdictDrop => Drop
  end.

(** A rule that breaks keeps the marks it set. *)
Fixpoint run_rule (es : list expr) (r : registers) (p : packet) : outcome :=
  match es with
  | [] => Passed r p
  | e :: es =>
      match exec e r p with
      | Continue r' p' => run_rule es r' p'
      | Break => Passed r p
      | Drop => Dropped
      end
  end.

Fixpoint run_chain (rules : list (list expr)) (r : registers) (p : packet) : outcome :=
  match rules with
  | [] => Passed r p
  | rule :: rules => match run_rule rule r p with Passed r' p' => run_chain rules r' p' | Dropped => Dropped end
  end.
End Run.

(** ** Segments of a rule *)

Section Segments.
Context `{NK : !NftKernel} (sets : Z -> elements).

(** The segment lets a packet through to the rest of its rule when the test holds, and ends
    the rule otherwise. *)
Definition tests (P : packet -> Prop) (es : list expr) (test : packet -> bool) : Prop := forall rest r p, P p ->
  exists r', run_rule sets (es ++ rest) r p = if test p then run_rule sets rest r' p else Passed r' p.

Lemma tests_nil P : tests P [] (fun _ => true).
Proof. intros rest r p _. by exists r. Qed.

Lemma tests_app P es es' f g : tests P es f -> tests P es' g -> tests P (es ++ es') (fun p => f p && g p).
Proof.
  intros H1 H2 rest r p HP. rewrite <- app_assoc. destruct (H1 (es' ++ rest) r p HP) as [r1 ->].
  destruct (f p); cbn; [|by exists r1]. by apply H2.
Qed.

Lemma tests_if P (b : bool) es f : tests P es f -> tests P (if b then es else []) (fun p => negb b || f p).
Proof. destruct b; [done|]. intros _. apply tests_nil. Qed.

Lemma tests_unless P (b : bool) es f : tests P es f -> tests P (if b then [] else es) (fun p => b || f p).
Proof. destruct b; [|done]. intros _. apply tests_nil. Qed.

Lemma tests_mono P Q es f : (forall p, Q p -> P p) -> tests P es f -> tests Q es f.
Proof. intros H Ht rest r p HQ. apply Ht, H, HQ. Qed.

Lemma tests_ext P es f g : (forall p, P p -> f p = g p) -> tests P es f -> tests P es g.
Proof. intros E H rest r p HP. rewrite <- E by done. by apply H. Qed.

(** A test that precedes makes its condition available. *)
Lemma tests_then P Q es es' f g : tests P es f -> (forall p, P p -> f p = true -> Q p) -> tests Q es' g ->
  tests P (es ++ es') (fun p => f p && g p).
Proof.
  intros H1 HQ H2 rest r p HP. rewrite <- app_assoc. destruct (H1 (es' ++ rest) r p HP) as [r1 ->].
  destruct (f p) eqn:E; cbn; [|by exists r1]. by apply H2, HQ.
Qed.

(** What a register holds, compared at the width of the data. *)
Lemma reg_read_take register n b r : (n <= length b)%nat -> reg_read register n (reg_write register b r) = take n b.
Proof.
  intros H. rewrite <- (read_written register b r) at 2. unfold reg_read. rewrite <- fmap_take, take_seq. do 2 f_equal. lia.
Qed.

Lemma reg_read_all register b r n : n = length b -> reg_read register n (reg_write register b r) = b.
Proof. intros ->. apply read_written. Qed.

Lemma tests_meta P key op data : (forall p, P p -> length data <= length (meta_value key p))%nat ->
  tests P [Meta key false 1; Cmp op 1 data] (fun p => cmp_holds op (take (length data) (meta_value key p)) data).
Proof.
  intros H rest r p HP. cbn [app run_rule exec]. rewrite reg_read_take by by apply H. destruct (cmp_holds _ _ _); by eexists.
Qed.

Lemma masked_test (value mask : list Z) op data r p rest : length value = 4%nat -> length mask = 4%nat -> length data = 4%nat ->
  exists r', run_rule sets (Bitwise 1 1 4 mask (le32 0) :: Cmp op 1 data :: rest) (reg_write 1 value r) p
    = if cmp_holds op (zip_with Z.land value mask) data then run_rule sets rest r' p else Passed r' p.
Proof.
  intros Hv Hm Hd. cbn [run_rule exec]. rewrite (reg_read_all 1 value) by done.
  assert (length (zip_with Z.land value mask) = 4%nat) as Hz by (rewrite length_zip_with; lia).
  replace (le32 0) with (repeat 0 (length (zip_with Z.land value mask))) by (by rewrite Hz). rewrite xor_zeros, reg_read_all by congruence.
  destruct (cmp_holds _ _ _); by eexists.
Qed.

Lemma tests_meta_mask P key op mask data : (forall p, length (meta_value key p) = 4%nat) -> length mask = 4%nat -> length data = 4%nat ->
  tests P [Meta key false 1; Bitwise 1 1 4 mask (le32 0); Cmp op 1 data]
    (fun p => cmp_holds op (zip_with Z.land (meta_value key p) mask) data).
Proof. intros Hk Hm Hd rest r p _. by apply masked_test. Qed.

Lemma tests_ctstate P op mask data : length mask = 4%nat -> length data = 4%nat ->
  tests P [CtState 1; Bitwise 1 1 4 mask (le32 0); Cmp op 1 data] (fun p => cmp_holds op (zip_with Z.land (le32 (p_ctstate p)) mask) data).
Proof. intros Hm Hd rest r p _. by apply masked_test. Qed.
End Segments.
