(* ===== verification/Steering.v ===== *)
(** * Steering of new connections (gateway/internal/ifmgr/modules/steering)

    The rules of a pass, a function of the verdicts and the live state; their translation to
    nftables expressions; and the transaction that replaces the module's chains with them. *)

From stdpp Require Import sorting.
From S2P Require Import Prelude GoStrings Effects NptPolicy Intent Tier Health BgpFib NetWire WanState WanRoutes Nftables.

Local Open Scope Z_scope.

(** ** Configuration (steering.go) *)

Definition maxSlots : Z := 1024.
Definition hashModeRandom : string := "random".
Definition hashModeSource : string := "source".
Definition hashModeSourceDestination : string := "source-destination".

Record Member := mkMember {
  mb_ref : WANRef;
  mb_SelectionEnabled : option bool;
  mb_Mark : Z;
  mb_Tier : Z;
  mb_Weight : Z;
}.

Definition mb_key (m : Member) : string := Key (mb_ref m).
Definition mb_Iface (m : Member) : string := ref_Iface (mb_ref m).
Definition mb_enabled (m : Member) : bool := ConnectionSelectionEnabled (mb_SelectionEnabled m).

Record SteeringConfig := mkSteeringConfig {
  sc_InternalIface : string;
  sc_InternalNetV4 : string;
  sc_InternalPrefix : string;
  sc_OpnsenseEdgeV6 : string;
  sc_HashMode : string;
  sc_HealthStateFile : string;
  sc_Members : list Member;
}.

Definition known_mode (mode : string) : bool :=
  bool_decide (mode ∈ [hashModeRandom; hashModeSource; hashModeSourceDestination]).

Definition validate_member (acc : list string * Z) (m : Member) : res (list string * Z) :=
  (check reject_if (is_empty (mb_key m)) "steering: connection ID is required" ;;
   check reject_if (is_empty (mb_Iface m)) "steering: iface is required" ;;
   check reject_if (bool_decide (mb_key m ∈ acc.1)) "steering: duplicate connection ID" ;;
   check reject_if (mb_Mark m =? 0) "steering: mark must be > 0" ;;
   check reject_if (mb_Weight m <? 1) "steering: weight must be >= 1" ;;
   Ok (mb_key m :: acc.1, wrap64 (acc.2 + mb_Weight m)))%go.

Definition validateConfig (cfg : SteeringConfig) : res unit :=
  (check reject_if (is_empty (sc_InternalIface cfg)) "steering: internal_iface is required" ;;
   check reject_if (negb (known_mode (sc_HashMode cfg))) "steering: hash_mode is not one of random, source, source-destination" ;;
   acc <-? fold_res validate_member ([], 0) (sc_Members cfg) ;;
   reject_if (maxSlots <? acc.2) "steering: weights sum above what the balancer programs")%go.

(** What [Init] parses. *)
Record parsed := mkParsed { pa_NetV4 : Prefix; pa_Prefix : Prefix; pa_Edge : Addr; pa_Mode : string }.

Definition no_parsed : parsed := mkParsed (mkPrefix AddrNone 0) (mkPrefix AddrNone 0) AddrNone "".

Definition parse `{NT : NetText} (cfg : SteeringConfig) : res parsed :=
  (check validateConfig cfg ;;
   match ParsePrefix (sc_InternalNetV4 cfg) with
   | None => Err "steering: internal_net_v4"
   | Some net =>
       (check reject_if (negb (Is4 (pfx_addr net))) "steering: internal_net_v4 is not IPv4" ;;
        match ParsePrefix (sc_InternalPrefix cfg) with
        | None => Err "steering: internal_prefix"
        | Some prefix =>
            (check reject_if (Is4 (pfx_addr prefix)) "steering: internal_prefix is not IPv6" ;;
             match ParseAddr (sc_OpnsenseEdgeV6 cfg) with
             | None => Err "steering: opnsense_edge_v6"
             | Some edge =>
                 (check reject_if (Is4 edge) "steering: opnsense_edge_v6 is not IPv6" ;;
                  Ok (mkParsed (Masked net) (Masked prefix) edge (sc_HashMode cfg)))
             end)
        end)
   end)%go.

(** ** Rules (rules.go) *)

Record balancer := mkBalancer { bal_Mark : Z; bal_Modulus : Z; bal_Slots : list Z }.
Definition no_balancer : balancer := mkBalancer 0 0 [].

Record steerRule := mkSteerRule {
  sr_IifName : string;
  sr_Source : Prefix;
  sr_Mode : string;
  sr_Assign : balancer;
  sr_MatchMark : Z;
  sr_DropIface : string;
  sr_AllowedMarks : list Z;
}.

Record ruleInput := mkRuleInput {
  in_InternalIface : string;
  in_parsed : parsed;
  in_AssignV4 : balancer;
  in_AssignV6 : balancer;
  in_Members : list Member;
  in_EligibleV4 : gmap Z bool;
  in_EligibleV6 : gmap Z bool;
}.

Definition is_eligible (eligible : gmap Z bool) (mark : Z) : bool := default false (eligible !! mark).

Definition shouldAppendMemberRule (hasAssignment selectionEnabled eligible : bool) : bool :=
  if selectionEnabled && eligible then false
  else if hasAssignment then true
  else negb selectionEnabled && eligible.

Definition has_assignment (b : balancer) : bool := negb (bal_Mark b =? 0) || nonempty (bal_Slots b).

(** The rules of one source: for unmarked packets, and for the marks to replace. *)
Definition source_rules (iif : string) (source : Prefix) (mode : string) (assign : balancer) (members : list Member) (eligible : gmap Z bool)
    : list steerRule :=
  let rule mark := mkSteerRule iif source mode assign mark "" [] in
  (if has_assignment assign then [rule 0] else []) ++
  omap (fun m => if shouldAppendMemberRule (has_assignment assign) (mb_enabled m) (is_eligible eligible (mb_Mark m))
                 then Some (rule (mb_Mark m)) else None) members.

Definition eligibleMarks (eligible : gmap Z bool) : list Z :=
  merge_sort Z.le (omap (fun e : Z * bool => if e.2 then Some e.1 else None) (map_to_list eligible)).

Definition any_v4 : Prefix := mkPrefix (Addr4 (repeat 0 4)) 0.
Definition any_v6 : Prefix := mkPrefix (Addr6 (repeat 0 16) "") 0.

Definition guard_rule (internal : string) (source : Prefix) (eligible : gmap Z bool) (m : Member) : steerRule :=
  mkSteerRule internal source "" no_balancer 0 (mb_Iface m) (if is_eligible eligible (mb_Mark m) then eligibleMarks eligible else []).

Definition guard_rules (i : ruleInput) : list steerRule :=
  m ← in_Members i; [guard_rule (in_InternalIface i) any_v4 (in_EligibleV4 i) m; guard_rule (in_InternalIface i) any_v6 (in_EligibleV6 i) m].

Definition buildRules (i : ruleInput) : list steerRule :=
  let p := in_parsed i in
  source_rules (in_InternalIface i) (pa_NetV4 p) (pa_Mode p) (in_AssignV4 i) (in_Members i) (in_EligibleV4 i) ++
  source_rules "" (PrefixFrom (pa_Edge p) 128) (pa_Mode p) (in_AssignV6 i) (in_Members i) (in_EligibleV6 i) ++
  source_rules "" (pa_Prefix p) (pa_Mode p) (in_AssignV6 i) (in_Members i) (in_EligibleV6 i) ++
  guard_rules i.

Definition tierMembers (members : list Member) : list TierMember := (fun m => mkTierMember (mb_key m) (mb_Tier m)) <$> members.

Definition mark_le (a b : Member) : Prop := mb_Mark a <= mb_Mark b.
#[export] Instance mark_le_dec a b : Decision (mark_le a b).
Proof. unfold mark_le. apply _. Defined.

(** Members of the active tier, by ascending mark. *)
Definition carrying (members : list Member) (health : HealthStates) (tier : Z) : list Member :=
  merge_sort mark_le (List.filter (fun m => (mb_Tier m =? tier) && HealthIsHealthy (State health (mb_key m))) members).

Definition slots_of (members : list Member) : list Z := m ← members; repeat (mb_Mark m) (Z.to_nat (mb_Weight m)).

Definition balancerFor (members : list Member) (health : HealthStates) : balancer * bool :=
  let '(tier, anyHealthy) := ActiveTier (tierMembers members) health in
  if negb anyHealthy then (no_balancer, false)
  else match carrying members health tier with
       | [] => (no_balancer, false)
       | [m] => (mkBalancer (mb_Mark m) 0 [], true)
       | ms => (mkBalancer 0 (Z.of_nat (length (slots_of ms)) mod 2 ^ 32) (slots_of ms), true)
       end.

(** ** A pass (steering.go) *)

Definition routing_of (s : Snapshot) (key : string) : MemberRouting := default MemberRouting_zero (Routing s !! key).
Definition routed (family : string) (r : MemberRouting) : bool := if bool_decide (family = familyV6) then V6Ready r else V4Ready r.

Definition member_eligible (family : string) (health : HealthStates) (s : Snapshot) (m : Member) : bool :=
  routed family (routing_of s (mb_key m)) && translation_ready family (translation_of (Translation s) (mb_key m))
  && HealthIsHealthy (State health (mb_key m)).

Definition eligible_marks (family : string) (health : HealthStates) (s : Snapshot) (members : list Member) : gmap Z bool :=
  fold_left (fun acc m => if member_eligible family health s m then <[mb_Mark m := true]> acc else acc) members ∅.

Definition selectable (family : string) (health : HealthStates) (s : Snapshot) (members : list Member) : list Member :=
  List.filter (fun m => member_eligible family health s m && mb_enabled m) members.

Definition rulesForSnapshot (cfg : SteeringConfig) (p : parsed) (health : HealthStates) (s : Snapshot) : list steerRule :=
  let members := sc_Members cfg in
  buildRules (mkRuleInput (sc_InternalIface cfg) p
    (balancerFor (selectable familyV4 health s members) health).1 (balancerFor (selectable familyV6 health s members) health).1
    members (eligible_marks familyV4 health s members) (eligible_marks familyV6 health s members)).

(** ** Expressions (applier.go) *)

Definition steerTableName : string := "mwan_steer".
Definition steerChainName : string := "prerouting".
Definition guardChainName : string := "forward".
Definition steerChainPriority : Z := -99.
Definition guardChainPriority : Z := 1.
Definition ipv4SaddrOffset : Z := 12.
Definition ipv4DaddrOffset : Z := 16.
Definition ipv4AddrLen : Z := 4.
Definition ipv4AddrBits : Z := 32.
Definition ipv6SaddrOffset : Z := 8.
Definition ipv6DaddrOffset : Z := 24.
Definition ipv6AddrLen : Z := 16.
Definition ipv6AddrBits : Z := 128.
Definition ctStateNew : Z := 8.
Definition ctStateLen : Z := 4.
Definition hairpinPriorityMask : Z := 0xffff0000.
Definition hairpinPriorityTag : Z := 0x4e500000.
Definition hashSeed : Z := 0x6d77616e.
Definition hashKeyRegister : Z := 8.
Definition hashKeyRegisterV4Second : Z := 9.
Definition hashKeyRegisterV6Second : Z := 12.

Definition ifname (name : string) : list Z := name_bytes name ++ [0].
Definition addrBytes (a : Addr) : list Z := match a with Addr4 b => b | _ => As16 a end.
Definition familyMatchExprs (source : Prefix) : list expr :=
  [Meta MetaKeyNFPROTO false 1; Cmp CmpOpEq 1 [if Is4 (pfx_addr source) then NFPROTO_IPV4 else NFPROTO_IPV6]].

Definition guardExprs (rule : steerRule) : list expr :=
  [Meta MetaKeyIIFNAME false 1; Cmp CmpOpEq 1 (ifname (sr_IifName rule));
   Meta MetaKeyOIFNAME false 1; Cmp CmpOpEq 1 (ifname (sr_DropIface rule))] ++
  familyMatchExprs (sr_Source rule) ++
  (if nonempty (sr_AllowedMarks rule)
   then Meta MetaKeyMARK false 1 :: ((fun mark => Cmp CmpOpNeq 1 (le32 mark)) <$> sr_AllowedMarks rule) else []) ++
  [VerdictDrop].

Definition sourceMatchExprs (source : Prefix) : list expr :=
  let source := Masked source in
  let '(offset, len, bits) := if Is4 (pfx_addr source) then (ipv4SaddrOffset, ipv4AddrLen, ipv4AddrBits)
                              else (ipv6SaddrOffset, ipv6AddrLen, ipv6AddrBits) in
  let network := addrBytes (pfx_addr source) in
  if pfx_bits source =? bits then [Payload 1 offset len; Cmp CmpOpEq 1 network]
  else [Payload 1 offset len; Bitwise 1 1 len (CIDRMask (pfx_bits source) bits) (repeat 0 (Z.to_nat len)); Cmp CmpOpEq 1 network].

Definition markMatchExprs (mark : Z) : list expr := [Meta MetaKeyMARK false 1; Cmp CmpOpEq 1 (le32 mark)].

Definition nonHairpinGuardExprs : list expr :=
  [Meta MetaKeyPRIORITY false 1; Bitwise 1 1 4 (le32 hairpinPriorityMask) (le32 0); Cmp CmpOpNeq 1 (le32 hairpinPriorityTag)].

Definition ctStateNewExprs : list expr := [CtState 1; Bitwise 1 1 ctStateLen (le32 ctStateNew) (le32 0); Cmp CmpOpNeq 1 (le32 0)].

Definition hashExprs (source : Prefix) (modulus : Z) (withDestination : bool) : list expr :=
  let '(saddr, daddr, len, second) :=
    if Is4 (pfx_addr source) then (ipv4SaddrOffset, ipv4DaddrOffset, ipv4AddrLen, hashKeyRegisterV4Second)
    else (ipv6SaddrOffset, ipv6DaddrOffset, ipv6AddrLen, hashKeyRegisterV6Second) in
  Payload hashKeyRegister saddr len ::
  (if withDestination then [Payload second daddr len] else []) ++
  [Hash hashKeyRegister 1 (if withDestination then len * 2 else len) modulus hashSeed].

Definition generatorExprs (rule : steerRule) : res (list expr) :=
  let modulus := bal_Modulus (sr_Assign rule) in
  if bool_decide (sr_Mode rule = hashModeRandom) then Ok [Numgen 1 modulus]
  else if bool_decide (sr_Mode rule = hashModeSource) then Ok (hashExprs (sr_Source rule) modulus false)
  else if bool_decide (sr_Mode rule = hashModeSourceDestination) then Ok (hashExprs (sr_Source rule) modulus true)
  else Err "steering: unknown hash mode".

Definition slot_elements (slots : list Z) : elements := imap (fun i mark => (le32 (Z.of_nat i mod 2 ^ 32), le32 mark)) slots.

(** The expressions before the assignment. *)
Definition matchExprs (rule : steerRule) : list expr :=
  (if is_empty (sr_IifName rule) then [] else [Meta MetaKeyIIFNAME false 1; Cmp CmpOpEq 1 (ifname (sr_IifName rule))]) ++
  familyMatchExprs (sr_Source rule) ++ sourceMatchExprs (sr_Source rule) ++ markMatchExprs (sr_MatchMark rule) ++
  (if Is6 (pfx_addr (sr_Source rule)) then nonHairpinGuardExprs else []) ++ ctStateNewExprs.

(** ** The transaction *)

Record NftChain := mkNftChain { nc_Table : option string; nc_Name : string; nc_Priority : option Z }.

Inductive nftop :=
| AddTable (name : string)
| AddChain (name hook : string) (priority : Z)
| DelChain (name : string)
| FlushChain (name : string)
| AddSet (id : Z) (elems : elements)
| AddRule (chain : string) (exprs : list expr).

Definition set_ids (batch : list nftop) : list Z := omap (fun op => match op with AddSet id _ => Some id | _ => None end) batch.

(** The nftables library: a connection, the chains of the kernel, and the commit of a batch.
    A set is named by an identifier that is new in its batch. *)
Class NftConn (W : Type) := {
  newConn : W -> option error * W;
  ListChains : W -> res (list NftChain) * W;
  AddSetErr : elements -> W -> option error * W;
  FlushBatch : list nftop -> W -> option error * W;
  set_id : list nftop -> Z;
  set_id_fresh batch : set_id batch ∉ set_ids batch;
}.

Class SteeringEnv (W : Type) := {
  se_Begin : W -> option error * W;
  se_Finish : W -> W;
  se_ReadHealth : string -> W -> res HealthStates * W;
  se_Snapshot : W -> Snapshot * W;
}.

(** The world, the batch so far, and the batches committed or refused. *)
Record ssys (W : Type) := mkSsys { sworld : W; sbatch : list nftop; slog : list (list nftop * option error) }.
Arguments mkSsys {W}.
Arguments sworld {W}.
Arguments sbatch {W}.
Arguments slog {W}.

Section Apply.
Context {W : Type} `{NC : !NftConn W}.
Abbreviation SM := (M (ssys W)).

Definition sask {A} (f : W -> A * W) : SM A := fun s => let '(a, w) := f (sworld s) in (a, mkSsys w (sbatch s) (slog s)).
Definition push (ops : list nftop) : SM unit := modify (fun s => mkSsys (sworld s) (sbatch s ++ ops) (slog s)).

Definition slotMapSet (slots : list Z) : SM (res Z) :=
  failed ← sask (AddSetErr (slot_elements slots));
  match failed with
  | Some e => mret (Err ("add slot map: " +:+ e))
  | None => id ← gets (fun s => set_id (sbatch s)); push [AddSet id (slot_elements slots)] ;; mret (Ok id)
  end.

Definition assignExprs (rule : steerRule) : SM (res (list expr)) :=
  if negb (nonempty (bal_Slots (sr_Assign rule)))
  then mret (Ok [Immediate 1 (le32 (bal_Mark (sr_Assign rule))); Meta MetaKeyMARK true 1])
  else match generatorExprs rule with
       | Err e => mret (Err e)
       | Ok generator =>
           set ← slotMapSet (bal_Slots (sr_Assign rule));
           mret match set with
                | Err e => Err e
                | Ok id => Ok (generator ++ [Lookup 1 1 id; Meta MetaKeyMARK true 1])
                end
       end.

Definition ruleExprs (rule : steerRule) : SM (res (list expr)) :=
  if negb (is_empty (sr_DropIface rule)) then mret (Ok (guardExprs rule))
  else assign ← assignExprs rule; mret (match assign with Err e => Err e | Ok es => Ok (matchExprs rule ++ es) end).

Definition rule_chain (rule : steerRule) : string := if is_empty (sr_DropIface rule) then steerChainName else guardChainName.

Fixpoint add_rules (rules : list steerRule) : SM (option error) :=
  match rules with
  | [] => mret None
  | rule :: rules =>
      exprs ← ruleExprs rule;
      match exprs with
      | Err e => mret (Some ("build steering rule: " +:+ e))
      | Ok es => push [AddRule (rule_chain rule) es] ;; add_rules rules
      end
  end.

Definition is_steer_chain (c : NftChain) : bool :=
  bool_decide (nc_Table c = Some steerTableName) && bool_decide (nc_Name c = steerChainName).

(** The first chain of that name decides. *)
Definition stale_chain (existing : list NftChain) : list nftop :=
  match List.find is_steer_chain existing with
  | Some old => if bool_decide (nc_Priority old = Some steerChainPriority) then [] else [FlushChain (nc_Name old); DelChain (nc_Name old)]
  | None => []
  end.

Definition flush_batch : SM (option error) := fun s =>
  let '(e, w) := FlushBatch (sbatch s) (sworld s) in (e, mkSsys w (sbatch s) (slog s ++ [(sbatch s, e)])).

Definition Apply (desired : list steerRule) : SM (option error) :=
  modify (fun s => mkSsys (sworld s) [] (slog s)) ;;
  failed ← sask newConn;
  match failed with
  | Some e => mret (Some e)
  | None =>
      push [AddTable steerTableName] ;;
      existing ← sask ListChains;
      match existing with
      | Err e => mret (Some ("list inet chains: " +:+ e))
      | Ok existing =>
          push (stale_chain existing) ;;
          push [AddChain steerChainName "prerouting" steerChainPriority; AddChain guardChainName "forward" guardChainPriority;
                FlushChain steerChainName; FlushChain guardChainName] ;;
          failed ← add_rules desired;
          match failed with
          | Some e => mret (Some e)
          | None => failed ← flush_batch; mret ((fun e => "nft flush: " +:+ e) <$> failed)
          end
      end
  end.

(** *** The module's operations *)

Context `{SE : !SteeringEnv W}.

(** [live]: whether the environment has a live state. *)
Definition desiredRules (cfg : SteeringConfig) (p : parsed) (live : bool) (health : HealthStates) : SM (list steerRule) :=
  if negb live then mret []
  else s ← sask se_Snapshot; mret (rulesForSnapshot cfg p health s).

Definition Reconcile (cfg : SteeringConfig) (p : parsed) (live : bool) : SM (option error) :=
  refused ← sask se_Begin;
  match refused with
  | Some e => mret (Some ("prepare steering forwarding change: " +:+ e))
  | None =>
      read ← sask (se_ReadHealth (sc_HealthStateFile cfg));
      failed ← match read with
               | Err e => mret (Some ("read health state: " +:+ e))
               | Ok health =>
                   desired ← desiredRules cfg p live health;
                   failed ← Apply desired;
                   mret ((fun e => "apply: " +:+ e) <$> failed)
               end;
      sask (fun w => (tt, se_Finish w)) ;;
      mret failed
  end.

Definition onMonitorEvent (cfg : SteeringConfig) (p : parsed) (live : bool) (event : KernelEvent) : SM unit :=
  if negb (bool_decide (ev_Kind event = EvLinkUp) || bool_decide (ev_Kind event = EvLinkDown)) then mret tt
  else Reconcile cfg p live ;; mret tt.
End Apply.

(** [newConfiguredModule] *)
Definition newConfiguredModule (cfg : SteeringConfig) : SteeringConfig :=
  let file := if is_empty (sc_HealthStateFile cfg) && nonempty (sc_Members cfg) then DefaultHealthStatePath else sc_HealthStateFile cfg in
  mkSteeringConfig (sc_InternalIface cfg) (sc_InternalNetV4 cfg) (sc_InternalPrefix cfg) (sc_OpnsenseEdgeV6 cfg) (sc_HashMode cfg) file (sc_Members cfg).

(** The outcome, and what was parsed when the module starts. *)
Definition Init `{NT : NetText} (cfg : SteeringConfig) : init_outcome * parsed :=
  if negb (nonempty (sc_Members cfg)) then (InitDisabled "steering: no providers", no_parsed)
  else match parse cfg with
       | Err e => (InitFailed e, no_parsed)
       | Ok p => (Initialised, p)
       end.

(** ** Deleted structures (nftwatch.go) *)

Record NftTable := mkNftTable { nt_INet : bool; nt_Name : string }.

Inductive MonitorEventType := MonitorEventTypeDelTable | MonitorEventTypeDelChain | MonitorEventTypeOther.
Inductive MonitorData := DataTable (table : option NftTable) | DataChain (table : option NftTable) | DataOther.
Record MonitorEvent := mkMonitorEvent { me_Type : MonitorEventType; me_Data : MonitorData; me_Error : option error }.

#[export] Instance MonitorEventType_eq_dec : EqDecision MonitorEventType.
Proof. solve_decision. Defined.

Definition isSteerTable (table : option NftTable) : bool :=
  match table with Some t => nt_INet t && bool_decide (nt_Name t = steerTableName) | None => false end.

Definition nftEventWipesSteering (event : option MonitorEvent) : bool :=
  match event with
  | None => false
  | Some event =>
      match me_Data event with
      | DataTable table => bool_decide (me_Type event = MonitorEventTypeDelTable) && isSteerTable table
      | DataChain table => bool_decide (me_Type event = MonitorEventTypeDelChain) && isSteerTable table
      | DataOther => false
      end
  end.

(** The reconcile requested, if any; [hook]: whether the environment takes requests. *)
Definition handleNFTEvent (hook : bool) (event : option MonitorEvent) : option string :=
  match event with
  | None => None
  | Some e =>
      if is_some (me_Error e) then None
      else if negb (nftEventWipesSteering event) then None
      else if hook then Some "steering: table change"%string else None
  end.
