(* ===== verification/SteeringExec.v ===== *)
(** * What the programmed rules do (gateway/internal/ifmgr/modules/steering/applier.go)

    The meaning of a typed rule on a packet, and that the expressions the applier builds for
    it have this meaning; then the chains a committed transaction leaves behind. *)

From stdpp Require Import sorting.
From S2P Require Import Prelude GoStrings Effects NptPolicy Intent Tier Health BgpFib NetWire WanState WanRoutes Nftables Steering.

Local Open Scope Z_scope.

(** ** Packets *)

Definition address_bytes (p : packet) (v4_offset v6_offset : nat) : list Z :=
  if p_proto p =? NFPROTO_IPV4 then take 4 (drop v4_offset (p_header p)) else take 16 (drop v6_offset (p_header p)).
Definition source_bytes (p : packet) : list Z := address_bytes p 12 8.
Definition destination_bytes (p : packet) : list Z := address_bytes p 16 24.

Definition p_source (p : packet) : Addr :=
  if p_proto p =? NFPROTO_IPV4 then Addr4 (source_bytes p) else Addr6 (source_bytes p) "".

Definition word (v : Z) : Prop := 0 <= v < 2 ^ 32.

Record wf_packet (p : packet) : Prop := mkWfPacket {
  wp_iif : plain_name (p_iif p);
  wp_oif : plain_name (p_oif p);
  wp_header : Forall is_byte (p_header p);
  wp_mark : word (p_mark p);
  wp_priority : word (p_priority p);
  wp_ctstate : word (p_ctstate p);
  wp_v4 : p_proto p = NFPROTO_IPV4 -> (20 <= length (p_header p))%nat;
  wp_v6 : p_proto p = NFPROTO_IPV6 -> (40 <= length (p_header p))%nat;
}.

Definition is_new (p : packet) : bool := negb (Z.land (p_ctstate p) ctStateNew =? 0).
Definition hairpin (p : packet) : bool := Z.land (p_priority p) hairpinPriorityMask =? hairpinPriorityTag.

(** ** Rules *)

Definition rule_proto (source : Prefix) : Z := if Is4 (pfx_addr source) then NFPROTO_IPV4 else NFPROTO_IPV6.

Definition rule_matches (rule : steerRule) (p : packet) : bool :=
  (is_empty (sr_IifName rule) || bool_decide (p_iif p = sr_IifName rule)) && (p_proto p =? rule_proto (sr_Source rule))
  && Contains (sr_Source rule) (p_source p) && (p_mark p =? sr_MatchMark rule)
  && negb (Is6 (pfx_addr (sr_Source rule)) && hairpin p) && is_new p.

Definition guard_drops (rule : steerRule) (p : packet) : bool :=
  bool_decide (p_iif p = sr_IifName rule) && bool_decide (p_oif p = sr_DropIface rule)
  && (p_proto p =? rule_proto (sr_Source rule)) && negb (bool_decide (p_mark p ∈ sr_AllowedMarks rule)).

Section Meaning.
Context `{NK : !NftKernel}.

Definition slot_drawn (rule : steerRule) (p : packet) : Z :=
  let modulus := bal_Modulus (sr_Assign rule) in
  if bool_decide (sr_Mode rule = hashModeRandom) then random_slot p modulus
  else if bool_decide (sr_Mode rule = hashModeSource) then hash_slot (source_bytes p) hashSeed modulus
  else hash_slot (source_bytes p ++ destination_bytes p) hashSeed modulus.

Definition assigned_mark (rule : steerRule) (p : packet) : option Z :=
  if nonempty (bal_Slots (sr_Assign rule)) then bal_Slots (sr_Assign rule) !! Z.to_nat (slot_drawn rule p)
  else Some (bal_Mark (sr_Assign rule)).

Definition steer_rule (rule : steerRule) (p : packet) : packet :=
  if rule_matches rule p then match assigned_mark rule p with Some mark => set_mark mark p | None => p end else p.

(** The prerouting chain: each rule in turn. *)
Definition steer (rules : list steerRule) (p : packet) : packet := fold_left (fun p rule => steer_rule rule p) rules p.
End Meaning.

(** A rule the builder produces. *)
Record wf_rule (rule : steerRule) : Prop := mkWfRule {
  wr_source : wf_prefix (sr_Source rule);
  wr_valid : IsValid (sr_Source rule) = true;
  wr_family : Is4 (pfx_addr (sr_Source rule)) = true \/ Is6 (pfx_addr (sr_Source rule)) = true;
  wr_iif : plain_name (sr_IifName rule);
  wr_oif : plain_name (sr_DropIface rule);
  wr_match : word (sr_MatchMark rule);
  wr_allowed : Forall word (sr_AllowedMarks rule);
  wr_mark : word (bal_Mark (sr_Assign rule));
  wr_slots : Forall word (bal_Slots (sr_Assign rule)) /\ Z.of_nat (length (bal_Slots (sr_Assign rule))) < 2 ^ 32;
  wr_modulus : bal_Modulus (sr_Assign rule) = Z.of_nat (length (bal_Slots (sr_Assign rule)));
}.

(** ** The segments *)

Lemma cmp_eq found data (P : Prop) `{!Decision P} : (found = data <-> P) -> cmp_holds CmpOpEq found data = bool_decide P.
Proof. intros H. cbn. by apply bool_decide_ext. Qed.

Lemma word_eqb v w : word v -> word w -> bool_decide (le32 v = le32 w) = (v =? w).
Proof.
  intros Hv Hw. destruct (Z.eqb_spec v w) as [->|Hn]; [by apply bool_decide_true|].
  apply bool_decide_false. intros E. by apply Hn, le32_inj.
Qed.

Lemma word_mask mask : word mask -> forall v, word (Z.land v mask).
Proof. intros H v. by apply land_word. Qed.

Section Segments.
Context `{NK : !NftKernel} (sets : Z -> elements).
Abbreviation tests := (tests sets wf_packet).

Lemma tests_name key (name_of : packet -> string) name : (forall p, meta_value key p = name_field (name_of p)) ->
  (forall p, wf_packet p -> plain_name (name_of p)) -> plain_name name ->
  tests [Meta key false 1; Cmp CmpOpEq 1 (ifname name)] (fun p => bool_decide (name_of p = name)).
Proof.
  intros Hk Hp Hn. eapply tests_ext, tests_meta.
  - intros p H. unfold ifname. rewrite length_app, Hk. apply cmp_eq. by apply name_field_match; [apply Hp|].
  - intros p H. rewrite Hk. unfold ifname, name_field. rewrite length_take, !length_app, repeat_length. change (length [0]) with 1%nat. destruct Hn. lia.
Qed.

Lemma tests_family source : tests (familyMatchExprs source) (fun p => p_proto p =? rule_proto source).
Proof.
  eapply tests_ext, tests_meta; [|done]. intros p _. cbn. unfold rule_proto.
  destruct (Z.eqb_spec (p_proto p) (if Is4 (pfx_addr source) then NFPROTO_IPV4 else NFPROTO_IPV6)) as [->|Hn]; [by apply bool_decide_true|].
  apply bool_decide_false. congruence.
Qed.

Lemma tests_mark mark : word mark -> tests (markMatchExprs mark) (fun p => p_mark p =? mark).
Proof.
  intros Hm. eapply tests_ext, tests_meta; [|done]. intros p Hp. cbn [cmp_holds meta_value].
  rewrite take_ge by done. apply word_eqb; [apply Hp|done].
Qed.

Lemma tests_hairpin : tests nonHairpinGuardExprs (fun p => negb (hairpin p)).
Proof.
  eapply tests_ext, tests_meta_mask; [|done..]. intros p Hp. cbn [cmp_holds meta_value]. rewrite le32_land, word_eqb; [done| |done].
  by apply word_mask.
Qed.

Lemma tests_new : tests ctStateNewExprs is_new.
Proof.
  eapply tests_ext, tests_ctstate; [|done..]. intros p Hp. cbn [cmp_holds]. rewrite le32_land, word_eqb; [done| |done].
  by apply word_mask.
Qed.

(** The marks the guard accepts. *)
Lemma tests_not_marks marks : Forall word marks -> forall rest r p, wf_packet p ->
  exists r', run_rule sets (((fun mark => Cmp CmpOpNeq 1 (le32 mark)) <$> marks) ++ rest) (reg_write 1 (le32 (p_mark p)) r) p
    = if negb (bool_decide (p_mark p ∈ marks)) then run_rule sets rest r' p else Passed r' p.
Proof.
  intros Hm rest r p Hp. exists (reg_write 1 (le32 (p_mark p)) r). induction Hm as [|mark marks Hw _ IH]; cbn [fmap list_fmap app].
  - by rewrite bool_decide_false by apply not_elem_of_nil.
  - cbn [run_rule exec]. rewrite reg_read_all by done. cbn [cmp_holds]. rewrite word_eqb by (first [done|apply Hp]).
    destruct (Z.eqb_spec (p_mark p) mark) as [->|Hn]; cbn [negb]; [by rewrite bool_decide_true by left|].
    rewrite IH. erewrite (bool_decide_ext (p_mark p ∈ mark :: marks)); [done|]. set_solver.
Qed.
End Segments.

(** *** The source address *)

Definition loads (offset len : nat) (p : packet) : Prop := (offset + len <= length (p_header p))%nat /\ Forall is_byte (p_header p).

Section Source.
Context `{NK : !NftKernel} (sets : Z -> elements).

Lemma exec_payload dest offset len r p : loads offset len p ->
  exec sets (Payload dest (Z.of_nat offset) (Z.of_nat len)) r p = Continue (reg_write dest (take len (drop offset (p_header p))) r) p.
Proof. intros [H _]. cbn. rewrite (proj2 (Z.leb_le _ _)) by lia. by rewrite !Nat2Z.id. Qed.

Lemma loaded_length offset len p : loads offset len p -> length (take len (drop offset (p_header p))) = len.
Proof. intros [H _]. rewrite length_take, length_drop. lia. Qed.

Lemma loaded_bytes offset len p : loads offset len p -> Forall is_byte (take len (drop offset (p_header p))).
Proof. intros [_ H]. by apply Forall_take, Forall_drop. Qed.

Lemma tests_source_at (offset len : nat) bits b : 0 <= bits <= 8 * Z.of_nat len -> length b = len ->
  tests sets (loads offset len)
    (if bits =? 8 * Z.of_nat len then [Payload 1 (Z.of_nat offset) (Z.of_nat len); Cmp CmpOpEq 1 (mask_bytes bits b)]
     else [Payload 1 (Z.of_nat offset) (Z.of_nat len);
           Bitwise 1 1 (Z.of_nat len) (CIDRMask bits (8 * Z.of_nat len)) (repeat 0 (Z.to_nat (Z.of_nat len)));
           Cmp CmpOpEq 1 (mask_bytes bits b)])
    (fun p => bool_decide (mask_bytes bits b = mask_bytes bits (take len (drop offset (p_header p))))).
Proof.
  intros Hbits Hb rest r p Hp. set (src := take len (drop offset (p_header p))).
  assert (length src = len) as Hl by by apply loaded_length. assert (length (mask_bytes bits b) = len) as Hlm by (unfold mask_bytes; by rewrite length_imap).
  destruct (Z.eqb_spec bits (8 * Z.of_nat len)) as [E|E]; cbn [app run_rule]; rewrite exec_payload by done; fold src; cbn [exec].
  - rewrite reg_read_all by congruence. cbn [cmp_holds]. rewrite (mask_full bits src); [|lia|by apply loaded_bytes].
    rewrite (bool_decide_ext (src = mask_bytes bits b) (mask_bytes bits b = src)) by done. case_bool_decide; by eexists.
  - rewrite Nat2Z.id, (reg_read_all 1 src) by congruence. unfold CIDRMask.
    rewrite (proj2 (Z.ltb_ge _ _)), (proj2 (Z.ltb_ge _ _)) by lia. cbn [orb].
    replace (8 * Z.of_nat len / 8) with (Z.of_nat len) by div_lia. rewrite Nat2Z.id, land_masks by done.
    replace (repeat 0 len) with (repeat 0 (length (mask_bytes bits src))) by (unfold mask_bytes; by rewrite length_imap, Hl).
    rewrite xor_zeros, Hlm, reg_read_all by (unfold mask_bytes; by rewrite length_imap). cbn [cmp_holds].
    rewrite (bool_decide_ext (mask_bytes bits src = mask_bytes bits b) (mask_bytes bits b = mask_bytes bits src)) by done. case_bool_decide; by eexists.
Qed.

Lemma loads_family source p : wf_packet p -> (p_proto p =? rule_proto source) = true ->
  if Is4 (pfx_addr source) then p_proto p = NFPROTO_IPV4 /\ loads 12 4 p /\ loads 16 4 p
  else p_proto p = NFPROTO_IPV6 /\ loads 8 16 p /\ loads 24 16 p.
Proof.
  intros Hp E%Z.eqb_eq. unfold rule_proto in E. destruct Hp as [_ _ Hh _ _ _ H4 H6].
  destruct (Is4 _); split; try done; unfold loads; [specialize (H4 E)|specialize (H6 E)]; split_and!; try done; lia.
Qed.

Lemma tests_source source : wf_prefix source -> IsValid source = true -> Is4 (pfx_addr source) = true \/ Is6 (pfx_addr source) = true ->
  tests sets (fun p => wf_packet p /\ (p_proto p =? rule_proto source) = true) (sourceMatchExprs source) (fun p => Contains source (p_source p)).
Proof.
  intros (Ha & _ & Hbits) Hv Hf. pose proof Hv as Hv'. apply Z.leb_le in Hv'.
  unfold sourceMatchExprs, Masked, Contains. rewrite Hv. destruct (pfx_addr source) as [|b|b z] eqn:E; [by destruct Hf| |]; cbn in Ha, Hbits.
  - cbn [Is4 pfx_addr pfx_bits]. eapply tests_ext, tests_mono, (tests_source_at 12 4 (pfx_bits source) b); [| |lia|by destruct Ha].
    + intros p [Hp Hpr]. apply (loads_family source) in Hpr as Hl; [|done]. rewrite E in Hl. destruct Hl as (Hpro & _).
      unfold p_source, source_bytes, address_bytes. rewrite Hpro. done.
    + intros p [Hp Hpr]. apply (loads_family source) in Hpr as Hl; [|done]. rewrite E in Hl. apply Hl.
  - cbn [Is4 pfx_addr pfx_bits]. eapply tests_ext, tests_mono, (tests_source_at 8 16 (pfx_bits source) b); [| |lia|by destruct Ha].
    + intros p [Hp Hpr]. apply (loads_family source) in Hpr as Hl; [|done]. rewrite E in Hl. destruct Hl as (Hpro & _).
      unfold p_source, source_bytes, address_bytes. rewrite Hpro. done.
    + intros p [Hp Hpr]. apply (loads_family source) in Hpr as Hl; [|done]. rewrite E in Hl. apply Hl.
Qed.

(** *** Whole rules *)

Lemma tests_match rule : wf_rule rule -> tests sets wf_packet (matchExprs rule) (rule_matches rule).
Proof.
  intros [H1 H2 H3 H4 H5 H6 H7 H8 H9 H10]. unfold matchExprs. set (source := sr_Source rule) in *.
  assert (forall p, wf_packet p /\ (p_proto p =? rule_proto source) = true -> wf_packet p) as Hw by tauto.
  eapply tests_ext.
  2: { apply tests_app; [apply tests_unless, (tests_name sets _ p_iif); [done|by intros p []|done]|].
       apply (tests_then _ wf_packet (fun p => wf_packet p /\ (p_proto p =? rule_proto source) = true)); [apply tests_family|done|].
       apply tests_app; [by apply tests_source|]. eapply tests_mono; [exact Hw|].
       apply tests_app; [by apply tests_mark|]. apply tests_app; [apply tests_if, tests_hairpin|apply tests_new]. }
  intros p _. unfold rule_matches. fold source. cbv beta. by rewrite negb_andb, !andb_assoc.
Qed.

Lemma guard_runs rule r p : wf_rule rule -> wf_packet p ->
  exists r', run_rule sets (guardExprs rule) r p = if guard_drops rule p then Dropped else Passed r' p.
Proof.
  intros [H1 H2 H3 H4 H5 H6 H7 H8 H9 H10] Hp. unfold guardExprs.
  assert (tests sets wf_packet ([Meta MetaKeyIIFNAME false 1; Cmp CmpOpEq 1 (ifname (sr_IifName rule));
     Meta MetaKeyOIFNAME false 1; Cmp CmpOpEq 1 (ifname (sr_DropIface rule))] ++ familyMatchExprs (sr_Source rule))
     (fun p => bool_decide (p_iif p = sr_IifName rule) && bool_decide (p_oif p = sr_DropIface rule) && (p_proto p =? rule_proto (sr_Source rule)))) as Ht.
  { apply tests_app; [|apply tests_family].
    apply (tests_app sets wf_packet [Meta MetaKeyIIFNAME false 1; Cmp CmpOpEq 1 (ifname (sr_IifName rule))]);
      [apply (tests_name sets _ p_iif)|apply (tests_name sets _ p_oif)]; try done; by intros q []. }
  rewrite app_assoc. destruct (Ht ((if nonempty (sr_AllowedMarks rule)
    then Meta MetaKeyMARK false 1 :: ((fun mark => Cmp CmpOpNeq 1 (le32 mark)) <$> sr_AllowedMarks rule) else []) ++ [VerdictDrop]) r p Hp) as [r1 ->].
  unfold guard_drops. destruct (_ && _ && _); cbn [andb]; [|by exists r1].
  destruct (sr_AllowedMarks rule) as [|mark marks] eqn:E.
  - exists r1. cbn. by rewrite bool_decide_false by apply not_elem_of_nil.
  - cbn [nonempty]. destruct (tests_not_marks sets (mark :: marks) H7 [VerdictDrop] r1 p Hp) as [r2 H].
    exists r2. cbn [app run_rule exec] in H |- *. cbn [meta_value]. rewrite H. by destruct (negb _).
Qed.

(** *** Assignments *)

Lemma find_slot slots slot (k : nat) : word slot -> Z.of_nat k <= slot -> Z.of_nat k + Z.of_nat (length slots) < 2 ^ 32 ->
  List.find (fun e : list Z * list Z => bool_decide (e.1 = le32 slot)) (imap (fun i mark => (le32 (Z.of_nat (k + i) mod 2 ^ 32), le32 mark)) slots)
  = (fun mark => (le32 slot, le32 mark)) <$> slots !! Z.to_nat (slot - Z.of_nat k).
Proof.
  intros Hs. revert k. induction slots as [|mark slots IH]; intros k Hk Hl; [done|].
  rewrite imap_cons. cbn [List.find fst]. cbn [length] in Hl. rewrite Nat.add_0_r, Z.mod_small, word_eqb by (unfold word in *; lia).
  destruct (Z.eqb_spec (Z.of_nat k) slot) as [E|Hn].
  - by rewrite E, Z.sub_diag.
  - rewrite (imap_ext _ (fun i mark => (le32 (Z.of_nat (S k + i) mod 2 ^ 32), le32 mark))) by (intros; cbn; do 3 f_equal; lia).
    rewrite IH by lia. replace (Z.to_nat (slot - Z.of_nat k)) with (S (Z.to_nat (slot - Z.of_nat (S k)))) by lia. done.
Qed.

Lemma drawn_range rule p : wf_rule rule -> nonempty (bal_Slots (sr_Assign rule)) = true ->
  0 <= slot_drawn rule p < Z.of_nat (length (bal_Slots (sr_Assign rule))).
Proof.
  intros Hr Hs. rewrite <- (wr_modulus _ Hr). assert (0 < bal_Modulus (sr_Assign rule)).
  { rewrite (wr_modulus _ Hr). destruct (bal_Slots _); [done|cbn; lia]. }
  unfold slot_drawn. destruct (bool_decide _); [by apply random_range|]. destruct (bool_decide _); by apply hash_range.
Qed.

(** One address hashed, and two in adjacent registers. *)
Lemma hash_runs (s len : nat) modulus rest r p : loads s len p -> exists r',
  run_rule sets ([Payload hashKeyRegister (Z.of_nat s) (Z.of_nat len); Hash hashKeyRegister 1 (Z.of_nat len) modulus hashSeed] ++ rest) r p
  = run_rule sets rest (reg_write 1 (le32 (hash_slot (take len (drop s (p_header p))) hashSeed modulus)) r') p.
Proof.
  intros Hs. eexists. cbn [app run_rule]. rewrite exec_payload by done. cbn [exec].
  rewrite Nat2Z.id, reg_read_all by (by rewrite loaded_length). done.
Qed.

Lemma hash_pair_runs (s d len : nat) second modulus rest r p : loads s len p -> loads d len p ->
  reg_offset second = reg_offset hashKeyRegister + Z.of_nat len -> exists r',
  run_rule sets ([Payload hashKeyRegister (Z.of_nat s) (Z.of_nat len); Payload second (Z.of_nat d) (Z.of_nat len);
                  Hash hashKeyRegister 1 (Z.of_nat len * 2) modulus hashSeed] ++ rest) r p
  = run_rule sets rest (reg_write 1 (le32 (hash_slot (take len (drop s (p_header p)) ++ take len (drop d (p_header p))) hashSeed modulus)) r') p.
Proof.
  intros Hs Hd Hoff. eexists. cbn [app run_rule]. rewrite !exec_payload by done. cbn [exec].
  replace (Z.to_nat (Z.of_nat len * 2)) with (length (take len (drop s (p_header p))) + length (take len (drop d (p_header p))))%nat
    by (rewrite !loaded_length by done; lia).
  rewrite read_adjacent by (by rewrite loaded_length). done.
Qed.

(** The generator leaves the slot in register 1. *)
Lemma generator_runs rule gen rest r p : wf_packet p -> (p_proto p =? rule_proto (sr_Source rule)) = true -> generatorExprs rule = Ok gen ->
  exists r', run_rule sets (gen ++ rest) r p = run_rule sets rest (reg_write 1 (le32 (slot_drawn rule p)) r') p.
Proof.
  intros Hp Hpro. apply loads_family in Hpro; [|done]. unfold generatorExprs, slot_drawn, hashExprs.
  unfold source_bytes, destination_bytes, address_bytes.
  destruct (bool_decide (sr_Mode rule = hashModeRandom)); [intros [= <-]; by eexists|].
  destruct (bool_decide (sr_Mode rule = hashModeSource)).
  - intros [= <-]. destruct (Is4 _); destruct Hpro as (-> & Hs & Hd); [by apply (hash_runs 12 4)|by apply (hash_runs 8 16)].
  - destruct (bool_decide (sr_Mode rule = hashModeSourceDestination)); [|done].
    intros [= <-]. destruct (Is4 _); destruct Hpro as (-> & Hs & Hd); [by apply (hash_pair_runs 12 16 4 9)|by apply (hash_pair_runs 8 24 16 12)].
Qed.

Lemma set_from_register mark r p : word mark ->
  run_rule sets [Meta MetaKeyMARK true 1] (reg_write 1 (le32 mark) r) p = Passed (reg_write 1 (le32 mark) r) (set_mark mark p).
Proof. intros H. cbn [run_rule exec]. by rewrite reg_read_all, word32_le32. Qed.

(** The expressions of an assigning rule. *)
Definition compiled (rule : steerRule) (es : list expr) : Prop :=
  if nonempty (bal_Slots (sr_Assign rule))
  then exists gen id, generatorExprs rule = Ok gen /\ sets id = slot_elements (bal_Slots (sr_Assign rule)) /\
         es = matchExprs rule ++ gen ++ [Lookup 1 1 id; Meta MetaKeyMARK true 1]
  else es = matchExprs rule ++ [Immediate 1 (le32 (bal_Mark (sr_Assign rule))); Meta MetaKeyMARK true 1].

Lemma compiled_runs rule es r p : wf_rule rule -> wf_packet p -> compiled rule es ->
  exists r', run_rule sets es r p = Passed r' (steer_rule rule p).
Proof.
  intros Hr Hp. unfold compiled, steer_rule, assigned_mark. destruct (nonempty _) eqn:Hs.
  - intros (gen & id & Hg & Hset & ->). destruct (tests_match rule Hr (gen ++ [Lookup 1 1 id; Meta MetaKeyMARK true 1]) r p Hp) as [r1 ->].
    destruct (rule_matches rule p) eqn:Hm; [|by eexists].
    assert ((p_proto p =? rule_proto (sr_Source rule)) = true) as Hpro by (unfold rule_matches in Hm; rewrite !andb_true_iff in Hm; tauto).
    destruct (generator_runs rule gen [Lookup 1 1 id; Meta MetaKeyMARK true 1] r1 p Hp Hpro Hg) as [r2 ->].
    pose proof (drawn_range rule p Hr Hs) as Hd. destruct (wr_slots _ Hr) as [Hw Hlen].
    cbn [run_rule exec]. rewrite reg_read_all by done. rewrite Hset. unfold slot_elements.
    rewrite (find_slot _ _ 0) by (unfold word; lia). rewrite Z.sub_0_r. destruct (_ !! Z.to_nat _) as [mark|] eqn:E; cbn [fmap option_fmap option_map snd].
    + rewrite reg_read_all, word32_le32; [by eexists| |done]. rewrite Forall_lookup in Hw. by eapply Hw.
    + by eexists.
  - intros ->. destruct (tests_match rule Hr [Immediate 1 (le32 (bal_Mark (sr_Assign rule))); Meta MetaKeyMARK true 1] r p Hp) as [r1 ->].
    destruct (rule_matches rule p); [|by eexists]. eexists. cbn [run_rule exec]. rewrite reg_read_all, word32_le32; [done|apply Hr|done].
Qed.
End Source.

(** ** The committed transaction *)

(** The rules of a chain after a batch, and the elements of its sets. *)
Definition replay_op (chain : string) (rules : list (list expr)) (op : nftop) : list (list expr) :=
  match op with
  | FlushChain name | DelChain name => if bool_decide (name = chain) then [] else rules
  | AddRule name es => if bool_decide (name = chain) then rules ++ [es] else rules
  | _ => rules
  end.
Definition replay (chain : string) (old : list (list expr)) (batch : list nftop) : list (list expr) := fold_left (replay_op chain) batch old.

Definition batch_sets (batch : list nftop) (id : Z) : elements :=
  default [] (head (omap (fun op => match op with AddSet i elems => if i =? id then Some elems else None | _ => None end) batch)).

Lemma set_ids_app b b' : set_ids (b ++ b') = set_ids b ++ set_ids b'.
Proof. unfold set_ids. apply omap_app. Qed.

Lemma batch_sets_in batch id elems : NoDup (set_ids batch) -> AddSet id elems ∈ batch -> batch_sets batch id = elems.
Proof.
  unfold batch_sets. induction batch as [|op batch IH]; intros Hnd Hin; [by apply not_elem_of_nil in Hin|].
  apply elem_of_cons in Hin as [<-|Hin]; [cbn; by rewrite Z.eqb_refl|].
  destruct op as [| | | |i es|]; cbn in Hnd |- *; try by apply IH.
  apply NoDup_cons in Hnd as [Hi Hnd]. destruct (Z.eqb_spec i id) as [->|Hn]; [|by apply IH].
  exfalso. apply Hi. unfold set_ids. apply list_elem_of_omap. by exists (AddSet id elems).
Qed.

(** One built rule, given the sets of the batch. *)
Definition built (batch : list nftop) (rule : steerRule) (added : string * list expr) : Prop :=
  added.1 = rule_chain rule /\
  if is_empty (sr_DropIface rule) then compiled (batch_sets batch) rule added.2 else added.2 = guardExprs rule.

Definition added_rules (ops : list nftop) : list (string * list expr) :=
  omap (fun op => match op with AddRule chain es => Some (chain, es) | _ => None end) ops.
Definition adds_only (op : nftop) : bool := match op with AddSet _ _ | AddRule _ _ => true | _ => false end.

Lemma replay_adds chain ops old : Forall (fun op => adds_only op = true) ops ->
  replay chain old ops = old ++ omap (fun a : string * list expr => if bool_decide (a.1 = chain) then Some a.2 else None) (added_rules ops).
Proof.
  intros H. revert old. induction H as [|op ops Hop _ IH]; intros old; [by rewrite app_nil_r|].
  cbn [replay fold_left]. fold (replay chain (replay_op chain old op) ops). rewrite IH.
  destruct op; try done. cbn. destruct (bool_decide (_ = chain)); [by rewrite <- app_assoc|done].
Qed.

Section Committed.
Context {W : Type} `{NC : !NftConn W}.

(** What a step of the builder leaves: the log as it was, the batch extended by additions. *)
Record extends (s s' : ssys W) (ops : list nftop) : Prop := mkExtends {
  ext_log : slog s' = slog s;
  ext_batch : sbatch s' = sbatch s ++ ops;
  ext_adds : Forall (fun op => adds_only op = true) ops;
  ext_ids : NoDup (set_ids (sbatch s'));
}.

Lemma extends_refl s : NoDup (set_ids (sbatch s)) -> extends s s [].
Proof. intros H. split; [done|by rewrite app_nil_r|done|done]. Qed.

Lemma extends_trans s s1 s2 ops ops' : extends s s1 ops -> extends s1 s2 ops' -> extends s s2 (ops ++ ops').
Proof.
  intros [L1 B1 A1 _] [L2 B2 A2 N2]. split; [congruence|by rewrite B2, B1, app_assoc|by apply Forall_app|done].
Qed.

Lemma slot_map_added slots s : NoDup (set_ids (sbatch s)) -> exists ops, let '(r, s') := slotMapSet slots s in
  extends s s' ops /\ added_rules ops = [] /\ forall id, r = Ok id -> AddSet id (slot_elements slots) ∈ sbatch s'.
Proof.
  intros Hnd. unfold slotMapSet, mbind, M_bind, sask. destruct (AddSetErr _ _) as [[e|] w].
  - exists []. cbn. split_and!; [split; cbn; [done|by rewrite app_nil_r|done|done]|done|done].
  - eexists. cbn. split_and!; [split; cbn; [done|done|by repeat constructor|]|done|].
    + rewrite set_ids_app. apply NoDup_app. split_and!; [done| |cbn; apply NoDup_singleton].
      intros id Hid H. cbn in H. apply list_elem_of_singleton in H as ->. by eapply set_id_fresh.
    + intros id [= <-]. set_solver.
Qed.

Lemma rule_built rule s : NoDup (set_ids (sbatch s)) -> exists ops, let '(r, s') := ruleExprs rule s in
  extends s s' ops /\ added_rules ops = [] /\
  forall es, r = Ok es -> forall B, sbatch s' ⊆ B -> NoDup (set_ids B) -> built B rule (rule_chain rule, es).
Proof.
  intros Hnd. unfold ruleExprs, built. cbn [fst snd]. destruct (is_empty (sr_DropIface rule)) eqn:Hd; cbn [negb].
  2: { exists []. cbn. split_and!; [by apply extends_refl|done|by intros es [= <-]]. }
  unfold mbind, M_bind, assignExprs, compiled. destruct (nonempty (bal_Slots (sr_Assign rule))) eqn:Hs; cbn [negb].
  2: { exists []. cbn. split_and!; [by apply extends_refl|done|by intros es [= <-]]. }
  destruct (generatorExprs rule) as [gen|e] eqn:Hg.
  2: { exists []. cbn. split_and!; [by apply extends_refl|done|done]. }
  destruct (slot_map_added (bal_Slots (sr_Assign rule)) s Hnd) as [ops H]. exists ops. unfold mbind, M_bind.
  destruct (slotMapSet _ s) as [[id|e] s'] eqn:E; cbn; destruct H as (H1 & H2 & H3); split_and!; try done.
  intros es [= <-] B HB HndB. split; [done|]. exists gen, id. split_and!; [done| |done].
  apply batch_sets_in; [done|]. by apply HB, H3.
Qed.

Lemma add_rules_built rules s : NoDup (set_ids (sbatch s)) -> exists ops, let '(e, s') := add_rules rules s in
  extends s s' ops /\ (e = None -> forall B, sbatch s' ⊆ B -> NoDup (set_ids B) -> Forall2 (built B) rules (added_rules ops)).
Proof.
  revert s. induction rules as [|rule rules IH]; intros s Hnd.
  - exists []. cbn. split; [by apply extends_refl|by constructor].
  - cbn [add_rules]. unfold mbind, M_bind. destruct (rule_built rule s Hnd) as [ops H]. destruct (ruleExprs rule s) as [[es|e] s1].
    2: { exists ops. cbn. destruct H as (H1 & _). by split. }
    destruct H as (H1 & H2 & H3). set (s2 := mkSsys (sworld s1) (sbatch s1 ++ [AddRule (rule_chain rule) es]) (slog s1)).
    assert (extends s1 s2 [AddRule (rule_chain rule) es]) as E2.
    { split; cbn; [done|done|by repeat constructor|]. rewrite set_ids_app. cbn. rewrite app_nil_r. apply H1. }
    destruct (IH s2 ltac:(apply E2)) as [ops' H']. cbn [push modify]. fold s2. exists (ops ++ [AddRule (rule_chain rule) es] ++ ops').
    destruct (add_rules rules s2) as [e s3]. destruct H' as (H4 & H5). split; [by eapply extends_trans, extends_trans|].
    intros -> B HB HndB. unfold added_rules. rewrite !omap_app. fold (added_rules ops) (added_rules ops'). rewrite H2. cbn.
    constructor; [|by apply H5]. apply H3; [done| |done]. intros op Hop. apply HB. rewrite (ext_batch _ _ _ H4). cbn. set_solver.
Qed.
End Committed.

(** *** The chains it leaves *)

Definition assigns (rule : steerRule) : bool := is_empty (sr_DropIface rule).

Definition chain_of (chain : string) (added : list (string * list expr)) : list (list expr) :=
  omap (fun a : string * list expr => if bool_decide (a.1 = chain) then Some a.2 else None) added.

Section Chains.
Context `{NK : !NftKernel}.

Lemma steer_rule_wf rule p : wf_rule rule -> wf_packet p -> wf_packet (steer_rule rule p).
Proof.
  intros Hr Hp. unfold steer_rule. destruct (rule_matches rule p); [|done]. destruct (assigned_mark rule p) as [mark|] eqn:E; [|done].
  assert (word mark) as Hm; [|destruct Hp; by split].
  unfold assigned_mark in E. destruct (nonempty _); [|injection E as <-; apply Hr].
  destruct (wr_slots _ Hr) as [H _]. rewrite Forall_lookup in H. by eapply H.
Qed.

Lemma prerouting_runs B rules added r p : Forall2 (built B) rules added -> Forall wf_rule rules -> wf_packet p ->
  exists r', run_chain (batch_sets B) (chain_of steerChainName added) r p = Passed r' (steer (List.filter assigns rules) p).
Proof.
  intros H. revert r p. induction H as [|rule [chain es] rules added [Hc Hb] _ IH]; intros r p Hw Hp; [by exists r|].
  apply Forall_cons in Hw as [Hr Hw]. cbn [fst snd] in Hc, Hb. subst chain. unfold rule_chain in *.
  unfold chain_of. cbn [omap list_omap fst snd List.filter]. fold (chain_of steerChainName added). unfold assigns at 1.
  destruct (is_empty (sr_DropIface rule)).
  - rewrite bool_decide_true by done. cbn [run_chain]. destruct (compiled_runs (batch_sets B) rule es r p Hr Hp Hb) as [r1 ->].
    by apply IH, steer_rule_wf.
  - rewrite bool_decide_false by done. by apply IH.
Qed.

Lemma forward_runs B rules added r p : Forall2 (built B) rules added -> Forall wf_rule rules -> wf_packet p ->
  exists r', run_chain (batch_sets B) (chain_of guardChainName added) r p
    = if existsb (fun rule => negb (assigns rule) && guard_drops rule p) rules then Dropped else Passed r' p.
Proof.
  intros H. revert r. induction H as [|rule [chain es] rules added [Hc Hb] _ IH]; intros r Hw Hp; [by exists r|].
  apply Forall_cons in Hw as [Hr Hw]. cbn [fst snd] in Hc, Hb. subst chain. unfold rule_chain in *.
  unfold chain_of. cbn [omap list_omap fst snd existsb]. fold (chain_of guardChainName added). unfold assigns at 1.
  destruct (is_empty (sr_DropIface rule)); cbn [negb andb orb].
  - rewrite bool_decide_false by done. by apply IH.
  - rewrite bool_decide_true by done. subst es. cbn [run_chain]. destruct (guard_runs (batch_sets B) rule r p Hr Hp) as [r1 ->].
    destruct (guard_drops rule p); cbn [orb]; [by exists r1|]. by apply IH.
Qed.
End Chains.

Section Applied.
Context {W : Type} `{NC : !NftConn W} `{NK : !NftKernel}.

(** The batch before the rules empties both chains. *)
Lemma emptied chain old existing : chain = steerChainName \/ chain = guardChainName ->
  replay chain old (([AddTable steerTableName] ++ stale_chain existing) ++
    [AddChain steerChainName "prerouting" steerChainPriority; AddChain guardChainName "forward" guardChainPriority;
     FlushChain steerChainName; FlushChain guardChainName]) = [].
Proof.
  intros Hc. unfold replay. rewrite fold_left_app. cbn [fold_left replay_op]. destruct Hc as [-> | ->].
  - rewrite (bool_decide_true (steerChainName = _)) by done. by destruct (bool_decide _).
  - by rewrite (bool_decide_true (guardChainName = _)) by done.
Qed.

(** What a batch does to packets: the chains' contents before it do not matter. *)
Definition implements (batch : list nftop) (rules : list steerRule) : Prop := forall old r p, wf_packet p ->
  (exists r', run_chain (batch_sets batch) (replay steerChainName old batch) r p = Passed r' (steer (List.filter assigns rules) p)) /\
  (exists r', run_chain (batch_sets batch) (replay guardChainName old batch) r p
     = if existsb (fun rule => negb (assigns rule) && guard_drops rule p) rules then Dropped else Passed r' p).

Lemma Apply_spec desired s : let '(e, s') := Apply desired s in
  match e with
  | None => exists batch, slog s' = slog s ++ [(batch, None)] /\ (Forall wf_rule desired -> implements batch desired)
  | Some _ => slog s' = slog s \/ exists batch refused, slog s' = slog s ++ [(batch, Some refused)]
  end.
Proof.
  unfold Apply, mbind, M_bind, modify, sask, push. cbn [sworld sbatch slog]. destruct (newConn _) as [[e|] w]; [by left|].
  cbn [sworld sbatch slog app]. unfold modify. cbn [sworld sbatch slog]. destruct (ListChains _) as [[existing|e] w']; [|by left].
  cbn [sworld sbatch slog].
  match goal with |- context [add_rules desired ?st] => set (s1 := st) end.
  assert (NoDup (set_ids (sbatch s1))) as Hnd.
  { cbn. rewrite !set_ids_app. unfold stale_chain. destruct (List.find _ _); [destruct (bool_decide _)|]; cbn; constructor. }
  destruct (add_rules_built desired s1 Hnd) as [ops H]. destruct (add_rules desired s1) as [[e|] s2]; destruct H as [H1 H2].
  { left. apply (ext_log _ _ _ H1). }
  unfold flush_batch. destruct (FlushBatch _ _) as [[e|] w'']; cbn.
  { right. do 2 eexists. by rewrite (ext_log _ _ _ H1). }
  exists (sbatch s2). rewrite (ext_log _ _ _ H1). split; [done|]. intros Hw old r p Hp.
  specialize (H2 eq_refl (sbatch s2) ltac:(done) (ext_ids _ _ _ H1)).
  assert (forall chain, chain = steerChainName \/ chain = guardChainName -> replay chain old (sbatch s2) = chain_of chain (added_rules ops)) as Hre.
  { intros chain Hc. rewrite (ext_batch _ _ _ H1). unfold replay. rewrite fold_left_app.
    pose proof (emptied chain old existing Hc) as He. unfold replay in He. cbn [app] in He |- *. unfold s1. cbn [sbatch app]. rewrite He.
    apply replay_adds, (ext_adds _ _ _ H1). }
  rewrite !Hre by auto. split; [by apply prerouting_runs|by apply forward_runs].
Qed.
End Applied.
