(* ===== verification/SteeringProps.v ===== *)
(** * Where new connections go (gateway/internal/ifmgr/modules/steering)

    The shares of the active tier, the mark a new flow takes under the rules of a pass, and
    the traffic the guard lets out. *)

From Stdlib Require Import Btauto.
From stdpp Require Import sorting.
From S2P Require Import Prelude GoStrings Effects NptPolicy Intent Tier Health BgpFib NetWire WanState WanRoutes WanRoutesProps WanRoutesClaims Nftables Steering SteeringExec.

Local Open Scope Z_scope.

(** ** Validated configurations *)

Fixpoint total_weight (ms : list Member) : Z := match ms with [] => 0 | m :: ms => mb_Weight m + total_weight ms end.

Lemma total_weight_app a b : total_weight (a ++ b) = total_weight a + total_weight b.
Proof. induction a as [|m a IH]; cbn; lia. Qed.

Lemma total_weight_nonneg ms : Forall (fun m => 1 <= mb_Weight m) ms -> 0 <= total_weight ms.
Proof. induction 1; cbn; lia. Qed.

Record valid_members (ms : list Member) : Prop := mkValidMembers {
  vm_keys : NoDup (mb_key <$> ms);
  vm_each : Forall (fun m => mb_Iface m <> ""%string /\ mb_Mark m <> 0 /\ 1 <= mb_Weight m) ms;
  vm_total : total_weight ms <= maxSlots;
}.

Definition member_fit (m : Member) : Prop := mb_Iface m <> ""%string /\ mb_Mark m <> 0 /\ 1 <= mb_Weight m.

Lemma members_valid ms acc : fold_res validate_member ([], 0) ms = Ok acc ->
  (NoDup acc.1 /\ acc.1 = reverse (mb_key <$> ms)) /\ Forall member_fit ms /\ (total_weight ms < 2 ^ 63 -> acc.2 = total_weight ms).
Proof.
  apply (fold_res_ind _ (fun dn (acc : list string * Z) => (NoDup acc.1 /\ acc.1 = reverse (mb_key <$> dn)) /\ Forall member_fit dn /\
    (total_weight dn < 2 ^ 63 -> acc.2 = total_weight dn))); [split_and!; by constructor|].
  intros dn m todo [keys sum] acc' _. cbn [fst snd]. intros ([Hk ->] & Hf & Hs). unfold validate_member.
  intros (_ & _ & (_ & Hi%reject_if_ok & (_ & Hd%reject_if_ok & (_ & Hm%reject_if_ok & (_ & Hw%reject_if_ok & [= <-])%res_bind_ok)%res_bind_ok)%res_bind_ok)%res_bind_ok)%res_bind_ok.
  cbn [fst snd] in *. apply bool_decide_eq_false in Hd. apply Z.eqb_neq in Hm. apply Z.ltb_ge in Hw. apply is_empty_false in Hi.
  split_and!.
  - by constructor.
  - by rewrite fmap_app, reverse_app.
  - apply Forall_app. split; [done|]. by repeat constructor.
  - rewrite total_weight_app. cbn. assert (0 <= total_weight dn) as H0.
    { apply total_weight_nonneg. eapply Forall_impl; [exact Hf|]. by intros ? (_ & _ & ?). }
    intros Hb. rewrite Hs by lia. rewrite wrap64_small; [lia|]. unfold in_int64, int64_min, int64_max. lia.
Qed.

Lemma steering_config_valid cfg : validateConfig cfg = Ok tt -> total_weight (sc_Members cfg) < 2 ^ 63 ->
  sc_InternalIface cfg <> ""%string /\ valid_members (sc_Members cfg).
Proof.
  unfold validateConfig.
  intros (_ & Hi%reject_if_ok & (_ & _ & ([keys sum] & Hf%members_valid & Hs%reject_if_ok)%res_bind_ok)%res_bind_ok)%res_bind_ok Hb.
  cbn [fst snd] in *. destruct Hf as ([Hk ->] & Hf & Ht). apply Z.ltb_ge in Hs. rewrite Ht in Hs by done.
  split; [by apply is_empty_false|]. split; [by rewrite reverse_Permutation in Hk|done|done].
Qed.

(** A configuration the kernel and the rules can express. *)
Record config_fit (cfg : SteeringConfig) (pa : parsed) : Prop := mkConfigFit {
  cf_valid : validateConfig cfg = Ok tt;
  cf_total : total_weight (sc_Members cfg) < 2 ^ 63;
  cf_marks : NoDup (mb_Mark <$> sc_Members cfg);
  cf_words : Forall (fun m => word (mb_Mark m)) (sc_Members cfg);
  cf_names : plain_name (sc_InternalIface cfg) /\ Forall (fun m => plain_name (mb_Iface m)) (sc_Members cfg);
  cf_v4 : wf_prefix (pa_NetV4 pa) /\ IsValid (pa_NetV4 pa) = true /\ Is4 (pfx_addr (pa_NetV4 pa)) = true;
  cf_v6 : wf_prefix (pa_Prefix pa) /\ IsValid (pa_Prefix pa) = true /\ Is6 (pfx_addr (pa_Prefix pa)) = true;
  cf_edge : wf_addr (pa_Edge pa) /\ Is6 (pa_Edge pa) = true;
}.

Lemma config_members cfg pa : config_fit cfg pa -> valid_members (sc_Members cfg).
Proof. intros H. by apply steering_config_valid; [apply H|apply (cf_total _ _ H)]. Qed.

(** ** Shares *)

Lemma slots_in ms mark : mark ∈ slots_of ms -> exists m, m ∈ ms /\ mb_Mark m = mark.
Proof.
  unfold slots_of. intros (m & H & Hm)%list_elem_of_bind. exists m. split; [done|].
  apply list_elem_of_In, repeat_spec in H. done.
Qed.

Lemma slots_length ms : Forall (fun m => 1 <= mb_Weight m) ms -> Z.of_nat (length (slots_of ms)) = total_weight ms.
Proof.
  induction 1 as [|m ms Hm _ IH]; [done|]. change (slots_of (m :: ms)) with (repeat (mb_Mark m) (Z.to_nat (mb_Weight m)) ++ slots_of ms).
  rewrite length_app, repeat_length, Nat2Z.inj_add, IH. cbn. lia.
Qed.

Lemma total_weight_perm a b : a ≡ₚ b -> total_weight a = total_weight b.
Proof. induction 1; cbn in *; lia. Qed.

Lemma total_weight_sublist a b : Forall (fun m => 1 <= mb_Weight m) b -> a `sublist_of` b -> total_weight a <= total_weight b.
Proof.
  intros Hb Hs. induction Hs as [|x a b Hs IH|x a b Hs IH]; [done| |]; apply Forall_cons in Hb as [H1 H2]; cbn; specialize (IH H2); lia.
Qed.

Lemma filter_sublist {A} (f : A -> bool) xs : List.filter f xs `sublist_of` xs.
Proof. induction xs as [|x xs IH]; cbn; [done|]. destruct (f x); by constructor. Qed.

Section Balancer.
Context (ms : list Member) (health : HealthStates).
Hypothesis Hhealthy : forall m, m ∈ ms -> HealthIsHealthy (State health (mb_key m)) = true.
Hypothesis Hfit : Forall member_fit ms.

(** The members that carry: those of the least tier. *)
Definition carries (m : Member) : Prop := m ∈ ms /\ forall m', m' ∈ ms -> mb_Tier m <= mb_Tier m'.

Lemma active_tier : let '(tier, any) := ActiveTier (tierMembers ms) health in
  any = nonempty ms /\ (any = true -> (exists m, carries m) /\ forall m, m ∈ carrying ms health tier <-> carries m).
Proof.
  pose proof (ActiveTier_spec (tierMembers ms) health) as H. destruct (ActiveTier _ _) as [tier []].
  - destruct H as [(t & (m0 & -> & Hm0)%list_elem_of_fmap & _ & Ht) Hmin]. cbn in Ht.
    assert (forall m', m' ∈ ms -> tier <= mb_Tier m') as Hle.
    { intros m' Hm'. apply (Hmin (mkTierMember (mb_key m') (mb_Tier m'))); [|by apply Hhealthy].
      by apply (list_elem_of_fmap_2 (fun m => mkTierMember (mb_key m) (mb_Tier m))). }
    split; [by destruct ms; [apply not_elem_of_nil in Hm0|]|]. intros _. unfold carrying, carries.
    split; [exists m0; split; [done|]; by rewrite Ht|]. intros m.
    rewrite merge_sort_Permutation, list_elem_of_In, filter_In, <- list_elem_of_In, andb_true_iff, Z.eqb_eq.
    split; [intros (Hm & E & _); split; [done|]; rewrite E; done|].
    intros (Hm & Hl). split_and!; [done| |by apply Hhealthy]. specialize (Hl m0 Hm0). specialize (Hle m Hm). lia.
  - split; [|done]. destruct H as [_ H]. destruct ms as [|m rest]; [done|]. exfalso.
    apply (H (mkTierMember (mb_key m) (mb_Tier m))); [left|]. apply Hhealthy. left.
Qed.

Lemma carrying_total tier : total_weight (carrying ms health tier) <= total_weight ms.
Proof.
  unfold carrying. rewrite (total_weight_perm _ _ (merge_sort_Permutation _ _)). apply total_weight_sublist; [|apply filter_sublist].
  eapply Forall_impl; [exact Hfit|]. by intros m (_ & _ & ?).
Qed.

Lemma carrying_weights tier : Forall (fun m => 1 <= mb_Weight m) (carrying ms health tier).
Proof.
  unfold carrying. rewrite merge_sort_Permutation. apply Forall_forall. intros m Hm.
  apply list_elem_of_In, filter_In in Hm as [Hm%list_elem_of_In _]. rewrite Forall_forall in Hfit. by apply Hfit.
Qed.

(** The shape of the assignment: none, one carrying member, or the slots of several. *)
Lemma balancer_cases :
  (ms = [] /\ balancerFor ms health = (no_balancer, false)) \/
  (exists m, carries m /\ (forall m', carries m' -> m' = m) /\ balancerFor ms health = (mkBalancer (mb_Mark m) 0 [], true)) \/
  (exists cs, (forall m, m ∈ cs <-> carries m) /\ (2 <= length cs)%nat /\ Forall (fun m => 1 <= mb_Weight m) cs /\ total_weight cs <= total_weight ms /\
     (exists tier, cs = carrying ms health tier) /\
     balancerFor ms health = (mkBalancer 0 (total_weight cs mod 2 ^ 32) (slots_of cs), true)).
Proof.
  unfold balancerFor. pose proof active_tier as H. destruct (ActiveTier _ _) as [tier any]. destruct H as [-> Hc].
  destruct (nonempty ms) eqn:Hn; cbn [negb]; [|left; by destruct ms]. destruct (Hc eq_refl) as [[m0 H0] Hin].
  pose proof (carrying_total tier) as Ht. pose proof (carrying_weights tier) as Hw.
  destruct (carrying ms health tier) as [|m [|m' rest]] eqn:E.
  - by apply Hin, not_elem_of_nil in H0.
  - right; left. exists m. split_and!; [apply Hin; left|intros m' Hm'%Hin; by apply list_elem_of_singleton in Hm'|done].
  - right; right. exists (m :: m' :: rest). rewrite slots_length by done. split_and!; [done|cbn; lia|done|done|by exists tier|done].
Qed.
End Balancer.

(** ** Eligibility *)

Section Eligible.
Context (family : string) (health : HealthStates) (s : Snapshot) (ms : list Member).

Lemma eligible_marks_in mark : eligible_marks family health s ms !! mark =
  if existsb (fun m => (mb_Mark m =? mark) && member_eligible family health s m) ms then Some true else None.
Proof.
  unfold eligible_marks. induction ms as [|m rest IH] using rev_ind; [done|]. rewrite fold_left_snoc, existsb_app. cbn [existsb]. rewrite orb_false_r.
  destruct (member_eligible family health s m); [|by rewrite andb_false_r, orb_false_r]. rewrite andb_true_r.
  destruct (Z.eqb_spec (mb_Mark m) mark) as [->|Hn]; [by rewrite lookup_insert_eq, orb_true_r|]. by rewrite lookup_insert_ne, orb_false_r.
Qed.

Lemma is_eligible_iff mark : is_eligible (eligible_marks family health s ms) mark = true <->
  exists m, m ∈ ms /\ mb_Mark m = mark /\ member_eligible family health s m = true.
Proof.
  unfold is_eligible. rewrite eligible_marks_in. destruct (existsb _ ms) eqn:E; cbn.
  - apply existsb_exists in E as (m & Hm & [E1%Z.eqb_eq E2]%andb_true_iff). split; [|done]. intros _. exists m. by rewrite list_elem_of_In.
  - split; [done|]. intros (m & Hm & <- & He). apply not_true_iff_false in E. destruct E. apply existsb_exists.
    exists m. rewrite list_elem_of_In in Hm. by rewrite Z.eqb_refl, He.
Qed.

Lemma eligibleMarks_iff mark : mark ∈ eligibleMarks (eligible_marks family health s ms) <->
  exists m, m ∈ ms /\ mb_Mark m = mark /\ member_eligible family health s m = true.
Proof.
  rewrite <- is_eligible_iff. unfold eligibleMarks, is_eligible. rewrite merge_sort_Permutation, list_elem_of_omap. split.
  - intros ([k []] & Hk%elem_of_map_to_list & E); cbn in E; [|done]. injection E as <-. by rewrite Hk.
  - destruct (_ !! mark) as [[]|] eqn:E; cbn; [|done|done]. intros _. exists (mark, true). by rewrite elem_of_map_to_list.
Qed.

Lemma is_eligible_member m : NoDup (mb_Mark <$> ms) -> m ∈ ms ->
  is_eligible (eligible_marks family health s ms) (mb_Mark m) = member_eligible family health s m.
Proof.
  intros Hnd Hm. apply eq_true_iff_eq. rewrite is_eligible_iff. split; [|by exists m].
  intros (m' & Hm' & E & He). assert (m' = m) as -> by (by eapply (same_key mb_Mark)). done.
Qed.

Lemma selectable_iff m : m ∈ selectable family health s ms <-> m ∈ ms /\ member_eligible family health s m = true /\ mb_enabled m = true.
Proof. unfold selectable. rewrite list_elem_of_In, filter_In, <- list_elem_of_In, andb_true_iff. done. Qed.

Lemma selectable_healthy m : m ∈ selectable family health s ms -> HealthIsHealthy (State health (mb_key m)) = true.
Proof. intros (_ & H & _)%selectable_iff. unfold member_eligible in H. rewrite !andb_true_iff in H. tauto. Qed.

Lemma selectable_fit : Forall member_fit ms -> Forall member_fit (selectable family health s ms).
Proof. rewrite !Forall_forall. intros H m (Hm & _)%selectable_iff. by apply H. Qed.

Lemma selectable_total : Forall member_fit ms -> total_weight (selectable family health s ms) <= total_weight ms.
Proof.
  intros H. apply total_weight_sublist; [|apply filter_sublist]. eapply Forall_impl; [exact H|]. by intros m (_ & _ & ?).
Qed.
End Eligible.

(** ** The assignment of a family *)

Section Assignment.
Context `{NK : !NftKernel}.
Context (cfg : SteeringConfig) (pa : parsed) (health : HealthStates) (s : Snapshot) (family : string).
Hypothesis Hcfg : config_fit cfg pa.

Definition family_balancer : balancer := (balancerFor (selectable family health s (sc_Members cfg)) health).1.
Definition selected : list Member := selectable family health s (sc_Members cfg).
(** A selectable member of the least tier. *)
Definition carrier (m : Member) : Prop := carries selected m.

Lemma family_cases_balancer :
  (selected = [] /\ family_balancer = no_balancer) \/
  (exists m, carrier m /\ family_balancer = mkBalancer (mb_Mark m) 0 []) \/
  (exists cs, (forall m, m ∈ cs <-> carrier m) /\ slots_of cs <> [] /\ Z.of_nat (length (slots_of cs)) <= maxSlots /\
     family_balancer = mkBalancer 0 (Z.of_nat (length (slots_of cs))) (slots_of cs)).
Proof.
  pose proof (config_members _ _ Hcfg) as [_ He Ht]. pose proof (selectable_fit family health s _ He) as Hfit.
  pose proof (selectable_total family health s _ He) as Htot. unfold family_balancer, carrier, selected.
  destruct (balancer_cases _ health (selectable_healthy family health s (sc_Members cfg)) Hfit) as [[H ->]|[(m & Hm & _ & ->)|(cs & Hin & H2 & Hw & Hle & _ & ->)]].
  - by left.
  - right; left. by exists m.
  - right; right. exists cs. rewrite slots_length by done. unfold maxSlots in *.
    pose proof (total_weight_nonneg cs Hw) as H0. rewrite Z.mod_small by lia. split_and!; [done| |lia|done].
    intros E. apply (f_equal (fun l => Z.of_nat (length l))) in E. rewrite slots_length in E by done.
    destruct cs as [|m cs]; [cbn in H2; lia|]. apply Forall_cons in Hw as [H1 Hw]. cbn in E. pose proof (total_weight_nonneg cs Hw). lia.
Qed.

Lemma carrier_mark m : carrier m -> word (mb_Mark m) /\ mb_Mark m <> 0.
Proof.
  intros [(Hm & _)%selectable_iff _]. destruct Hcfg as [_ _ _ Hw _ _ _ _]. rewrite Forall_forall in Hw. split; [by apply Hw|].
  pose proof (vm_each _ (config_members _ _ Hcfg)) as He. rewrite Forall_forall in He. by apply He.
Qed.

Lemma has_assignment_iff : has_assignment family_balancer = nonempty selected.
Proof.
  destruct family_cases_balancer as [[-> ->]|[(m & Hm & ->)|(cs & Hin & Hs & _ & ->)]]; [done| |].
  - unfold has_assignment. cbn [bal_Mark bal_Slots nonempty]. rewrite orb_false_r. destruct (carrier_mark m Hm) as [_ Hn].
    rewrite (proj2 (Z.eqb_neq _ _) Hn). destruct Hm as [Hm _]. fold selected in Hm. destruct selected; [by apply not_elem_of_nil in Hm|done].
  - unfold has_assignment. cbn [bal_Mark bal_Slots]. destruct (slots_of cs) as [|mark rest] eqn:E; [done|].
    destruct (slots_in cs mark) as (m & Hm%Hin & _); [rewrite E; left|]. destruct Hm as [Hm _]. fold selected in Hm.
    destruct selected; [by apply not_elem_of_nil in Hm|done].
Qed.

(** What a rule of the family assigns. *)
Lemma assigned_spec rule p : wf_rule rule -> sr_Assign rule = family_balancer ->
  if nonempty selected then exists m, carrier m /\ assigned_mark rule p = Some (mb_Mark m) else assigned_mark rule p = Some 0.
Proof.
  intros Hr Ha. rewrite <- has_assignment_iff. unfold assigned_mark. rewrite Ha.
  destruct family_cases_balancer as [[_ E]|[(m & Hm & E)|(cs & Hin & Hs & _ & E)]]; rewrite E; unfold has_assignment; cbn [bal_Mark bal_Slots nonempty].
  - done.
  - rewrite orb_false_r. destruct (carrier_mark m Hm) as [_ Hn]. rewrite (proj2 (Z.eqb_neq _ _) Hn). cbn. by exists m.
  - assert (nonempty (slots_of cs) = true) as Hne by (by destruct (slots_of cs)). rewrite Hne, orb_true_r.
    assert (nonempty (bal_Slots (sr_Assign rule)) = true) as Hne' by (by rewrite Ha, E).
    pose proof (drawn_range rule p Hr Hne') as Hd. rewrite Ha, E in Hd. cbn [bal_Slots] in Hd.
    destruct (lookup_lt_is_Some_2 (slots_of cs) (Z.to_nat (slot_drawn rule p))) as [mark Hmark]; [lia|]. rewrite Hmark.
    destruct (slots_in cs mark) as (m & Hm%Hin & <-); [by eapply list_elem_of_lookup_2|]. by exists m.
Qed.
End Assignment.

(** ** The rules of a pass *)

Definition sources (cfg : SteeringConfig) (pa : parsed) (family : string) : list (string * Prefix) :=
  if bool_decide (family = familyV6) then [(""%string, PrefixFrom (pa_Edge pa) 128); (""%string, pa_Prefix pa)]
  else [(sc_InternalIface cfg, pa_NetV4 pa)].

Definition family_rules (cfg : SteeringConfig) (pa : parsed) (health : HealthStates) (s : Snapshot) (family : string) : list steerRule :=
  src ← sources cfg pa family;
  source_rules src.1 src.2 (pa_Mode pa) (family_balancer cfg health s family) (sc_Members cfg) (eligible_marks family health s (sc_Members cfg)).

Definition family_guard (cfg : SteeringConfig) (health : HealthStates) (s : Snapshot) (family : string) (m : Member) : steerRule :=
  guard_rule (sc_InternalIface cfg) (if bool_decide (family = familyV6) then any_v6 else any_v4)
    (eligible_marks family health s (sc_Members cfg)) m.

Definition guards (cfg : SteeringConfig) (health : HealthStates) (s : Snapshot) : list steerRule :=
  m ← sc_Members cfg; [family_guard cfg health s familyV4 m; family_guard cfg health s familyV6 m].

Lemma rules_split cfg pa health s :
  rulesForSnapshot cfg pa health s = family_rules cfg pa health s familyV4 ++ family_rules cfg pa health s familyV6 ++ guards cfg health s.
Proof.
  unfold rulesForSnapshot, buildRules, family_rules, guard_rules, guards, sources. cbn [in_InternalIface in_parsed in_AssignV4 in_AssignV6 in_Members in_EligibleV4 in_EligibleV6].
  rewrite (bool_decide_false (familyV4 = familyV6)), (bool_decide_true (familyV6 = familyV6)) by done. cbn [mbind list_bind fst snd].
  by rewrite !app_nil_r, <- !app_assoc.
Qed.

(** The marks the rules of a family replace. *)
Definition replaces (cfg : SteeringConfig) (health : HealthStates) (s : Snapshot) (family : string) (mark : Z) : Prop :=
  let any := nonempty (selected cfg health s family) in
  (any = true /\ mark = 0) \/
  exists m, m ∈ sc_Members cfg /\ mb_Mark m = mark /\ shouldAppendMemberRule any (mb_enabled m) (member_eligible family health s m) = true.

Definition family_rule (cfg : SteeringConfig) (pa : parsed) (health : HealthStates) (s : Snapshot) (family : string) (src : string * Prefix) (mark : Z) : steerRule :=
  mkSteerRule src.1 src.2 (pa_Mode pa) (family_balancer cfg health s family) mark "" [].

Lemma filter_kept {A} (f : A -> bool) xs : (forall x, x ∈ xs -> f x = true) -> List.filter f xs = xs.
Proof.
  induction xs as [|x xs IH]; intros H; [done|]. cbn. rewrite (H x) by left. f_equal. apply IH. intros y Hy. apply H. by right.
Qed.

Section Rules.
Context (cfg : SteeringConfig) (pa : parsed) (health : HealthStates) (s : Snapshot).
Hypothesis Hcfg : config_fit cfg pa.

Lemma family_rule_in family rule : rule ∈ family_rules cfg pa health s family <->
  exists src mark, src ∈ sources cfg pa family /\ replaces cfg health s family mark /\ rule = family_rule cfg pa health s family src mark.
Proof.
  unfold family_rules. rewrite list_elem_of_bind.
  assert (forall src r, r ∈ source_rules src.1 src.2 (pa_Mode pa) (family_balancer cfg health s family) (sc_Members cfg) (eligible_marks family health s (sc_Members cfg))
    <-> exists mark, replaces cfg health s family mark /\ r = family_rule cfg pa health s family src mark) as H; [|setoid_rewrite H; naive_solver].
  intros src r. unfold source_rules, replaces. rewrite elem_of_app, (has_assignment_iff _ pa _ _ _ Hcfg), list_elem_of_omap. cbv zeta.
  set (any := nonempty (selected cfg health s family)). split.
  - intros [H|(m & Hm & H)].
    + destruct any eqn:E; [|by apply not_elem_of_nil in H]. apply list_elem_of_singleton in H as ->. exists 0. by split; [left|].
    + rewrite is_eligible_member in H by (first [done|apply (cf_marks _ _ Hcfg)]). destruct (shouldAppendMemberRule _ _ _) eqn:E; [|done].
      injection H as <-. exists (mb_Mark m). split; [right; by exists m|done].
  - intros (mark & [[Ha ->]|(m & Hm & <- & E)] & ->); [left; rewrite Ha; by left|right].
    exists m. rewrite is_eligible_member by (first [done|apply (cf_marks _ _ Hcfg)]). by rewrite E.
Qed.

Lemma sources_wf family src : src ∈ sources cfg pa family -> wf_prefix src.2 /\ IsValid src.2 = true /\
  plain_name src.1 /\ (if bool_decide (family = familyV6) then Is6 (pfx_addr src.2) = true else Is4 (pfx_addr src.2) = true).
Proof.
  destruct Hcfg as [_ _ _ _ [Hn _] H4 H6 [He H6e]]. unfold sources. assert (plain_name "") as Hemp by (split; [constructor|cbn; lia]).
  case_bool_decide as Hf.
  - intros [->|[->|H]%elem_of_cons]%elem_of_cons; [| |by apply not_elem_of_nil in H]; cbn [fst snd]; [|by destruct H6 as (? & ? & ?)].
    by destruct (pa_Edge pa) as [| |b z]; try done; split_and!.
  - intros ->%list_elem_of_singleton. cbn [fst snd]. by destruct H4 as (? & ? & ?).
Qed.

Lemma balancer_wf family : word (bal_Mark (family_balancer cfg health s family)) /\
  (Forall word (bal_Slots (family_balancer cfg health s family)) /\ Z.of_nat (length (bal_Slots (family_balancer cfg health s family))) < 2 ^ 32) /\
  bal_Modulus (family_balancer cfg health s family) = Z.of_nat (length (bal_Slots (family_balancer cfg health s family))).
Proof.
  destruct (family_cases_balancer cfg pa health s family Hcfg) as [[_ ->]|[(m & Hm & ->)|(cs & Hin & _ & Hl & ->)]]; cbn [bal_Mark bal_Slots bal_Modulus].
  - done.
  - split_and!; [by apply (carrier_mark cfg pa health s family Hcfg)|constructor|done|done].
  - unfold maxSlots in Hl. split_and!; [done| |lia|done]. apply Forall_forall. intros mark (m & Hm%Hin & <-)%slots_in.
    by apply (carrier_mark cfg pa health s family Hcfg).
Qed.

Lemma member_word m : m ∈ sc_Members cfg -> word (mb_Mark m).
Proof. pose proof (cf_words _ _ Hcfg) as H. rewrite Forall_forall in H. apply H. Qed.

Lemma family_rule_wf family src mark : src ∈ sources cfg pa family -> replaces cfg health s family mark -> wf_rule (family_rule cfg pa health s family src mark).
Proof.
  intros Hsrc Hm. destruct (sources_wf family src Hsrc) as (H1 & H2 & H3 & H4). destruct (balancer_wf family) as (B1 & B2 & B3).
  split; cbn [family_rule sr_Source sr_IifName sr_DropIface sr_MatchMark sr_AllowedMarks sr_Assign]; try done.
  - destruct (bool_decide _); auto.
  - split; [constructor|cbn; lia].
  - destruct Hm as [[_ ->]|(m & Hin & <- & _)]; [done|by apply member_word].
Qed.

Lemma any_wf : wf_prefix any_v4 /\ wf_prefix any_v6.
Proof.
  assert (forall n, Forall is_byte (repeat 0 n)) as H; [|by repeat split].
  intros n. induction n; constructor; [by unfold is_byte|done].
Qed.

Lemma guard_wf family m : m ∈ sc_Members cfg -> wf_rule (family_guard cfg health s family m).
Proof.
  intros Hm. destruct (cf_names _ _ Hcfg) as [Hn Hns]. rewrite Forall_forall in Hns. unfold family_guard, guard_rule.
  split; cbn [sr_Source sr_IifName sr_DropIface sr_MatchMark sr_AllowedMarks sr_Assign no_balancer bal_Mark bal_Slots bal_Modulus]; try done.
  - destruct (bool_decide _); [apply any_wf|apply any_wf].
  - by destruct (bool_decide _).
  - destruct (bool_decide _); [by right|by left].
  - by apply Hns.
  - destruct (is_eligible _ _); [|constructor]. apply Forall_forall. intros mark (m' & Hm' & <- & _)%eligibleMarks_iff. by apply member_word.
Qed.

(** Every rule of a pass can be programmed. *)
Lemma rules_wf : Forall wf_rule (rulesForSnapshot cfg pa health s).
Proof.
  rewrite rules_split, Forall_forall. intros rule [H|[H|H]%elem_of_app]%elem_of_app.
  1,2: apply family_rule_in in H as (src & mark & Hs & Hm & ->); by apply family_rule_wf.
  unfold guards in H. apply list_elem_of_bind in H as (m & H & Hm). apply elem_of_cons in H as [->|H]; [by apply guard_wf|].
  apply list_elem_of_singleton in H as ->. by apply guard_wf.
Qed.

Lemma guards_assign_nothing : List.filter assigns (guards cfg health s) = [].
Proof.
  pose proof (vm_each _ (config_members _ _ Hcfg)) as He. unfold guards. induction He as [|m ms (Hi & _) _ IH]; [done|].
  rewrite bind_cons, List.filter_app, IH, app_nil_r. cbn [List.filter]. unfold assigns. cbn [family_guard guard_rule sr_DropIface].
  apply is_empty_false in Hi. by rewrite Hi.
Qed.

Lemma assigning_rules : List.filter assigns (rulesForSnapshot cfg pa health s) = family_rules cfg pa health s familyV4 ++ family_rules cfg pa health s familyV6.
Proof.
  rewrite rules_split, !List.filter_app, guards_assign_nothing, app_nil_r.
  assert (forall family, List.filter assigns (family_rules cfg pa health s family) = family_rules cfg pa health s family) as H; [|by rewrite !H].
  intros family. apply filter_kept. intros r (src & mark & _ & _ & ->)%family_rule_in. done.
Qed.
End Rules.

(** ** Flows *)

(** A packet of the family that opens a flow from a steered source. *)
Definition from_source (family : string) (src : string * Prefix) (p : packet) : bool :=
  (is_empty src.1 || bool_decide (p_iif p = src.1)) && Contains src.2 (p_source p) && negb (bool_decide (family = familyV6) && hairpin p).
Definition flow (cfg : SteeringConfig) (pa : parsed) (family : string) (p : packet) : bool :=
  (p_proto p =? (if bool_decide (family = familyV6) then NFPROTO_IPV6 else NFPROTO_IPV4)) && is_new p
  && existsb (fun src => from_source family src p) (sources cfg pa family).

Section Flows.
Context `{NK : !NftKernel}.
Context (cfg : SteeringConfig) (pa : parsed) (health : HealthStates) (s : Snapshot).
Hypothesis Hcfg : config_fit cfg pa.

Lemma family_rule_matches family src mark p : src ∈ sources cfg pa family ->
  rule_matches (family_rule cfg pa health s family src mark) p =
  (p_proto p =? (if bool_decide (family = familyV6) then NFPROTO_IPV6 else NFPROTO_IPV4)) && is_new p && from_source family src p && (p_mark p =? mark).
Proof.
  intros Hs. destruct (sources_wf cfg pa Hcfg family src Hs) as (_ & _ & _ & Hf). unfold rule_matches, from_source, rule_proto.
  cbn [family_rule sr_Source sr_IifName sr_MatchMark]. destruct (bool_decide (family = familyV6)).
  - rewrite Hf. assert (Is4 (pfx_addr src.2) = false) as -> by by destruct (pfx_addr src.2). btauto.
  - rewrite Hf. assert (Is6 (pfx_addr src.2) = false) as -> by by destruct (pfx_addr src.2). btauto.
Qed.

(** Rules whose assignments none of them replaces change a packet at most once. *)
Lemma steer_once rules p (Q : Z -> Prop) :
  (forall rule p, rule ∈ rules -> exists a, assigned_mark rule p = Some a /\ Q a) ->
  (forall rule a, rule ∈ rules -> Q a -> sr_MatchMark rule <> a) ->
  if existsb (fun rule => rule_matches rule p) rules then exists a, Q a /\ steer rules p = set_mark a p else steer rules p = p.
Proof.
  intros Ha Hq. induction rules as [|rule rules IH]; [done|]. cbn [existsb]. unfold steer. cbn [fold_left]. fold (steer rules (steer_rule rule p)).
  assert (forall a, Q a -> steer rules (set_mark a p) = set_mark a p) as Hstop.
  { intros a HQ. assert (forall r, r ∈ rule :: rules -> sr_MatchMark r <> a) as Hn by (intros r Hr; by apply Hq). clear -Hn.
    induction rules as [|r rules IH]; [done|]. unfold steer. cbn [fold_left]. assert (steer_rule r (set_mark a p) = set_mark a p) as ->.
    { unfold steer_rule, rule_matches. cbn [set_mark p_mark]. rewrite (proj2 (Z.eqb_neq a _)) by (intros E; apply (Hn r); [right; left|done]).
      by rewrite !andb_false_r. }
    apply IH. intros r' Hr'. apply Hn. apply elem_of_cons in Hr' as [->|Hr']; [left|right; by right]. }
  destruct (rule_matches rule p) eqn:E; cbn [orb].
  - destruct (Ha rule p ltac:(left)) as (a & Has & HQ). exists a. split; [done|]. unfold steer_rule. rewrite E, Has. by apply Hstop.
  - unfold steer_rule. rewrite E. apply IH; intros; [apply Ha; by right|apply Hq; [by right|done]].
Qed.

Lemma steer_app a b p : steer (a ++ b) p = steer b (steer a p).
Proof. unfold steer. apply fold_left_app. Qed.

Lemma steer_none rules p : (forall rule, rule ∈ rules -> rule_matches rule p = false) -> steer rules p = p.
Proof.
  intros H. induction rules as [|rule rules IH]; [done|]. unfold steer. cbn [fold_left]. unfold steer_rule. rewrite H by left.
  apply IH. intros r Hr. apply H. by right.
Qed.

(** The marks a family assigns are not among those it replaces. *)
Definition assignable (family : string) (mark : Z) : Prop :=
  if nonempty (selected cfg health s family) then exists m, carrier cfg health s family m /\ mb_Mark m = mark else mark = 0.

Lemma assignable_kept family mark : assignable family mark -> ~ replaces cfg health s family mark.
Proof.
  unfold assignable, replaces. destruct (nonempty _); cbv zeta.
  - intros (m & Hm & <-) [[_ E]|(m' & Hm' & E & H)]; [by apply (carrier_mark cfg pa health s family Hcfg m Hm)|].
    destruct Hm as [(Hin & He & Hen)%selectable_iff _]. assert (m' = m) as -> by (eapply (same_key mb_Mark); [apply (cf_marks _ _ Hcfg)|done..]).
    unfold shouldAppendMemberRule in H. by rewrite He, Hen in H.
  - intros -> [[? _]|(m & Hm & E & _)]; [done|]. pose proof (vm_each _ (config_members _ _ Hcfg)) as Hf. rewrite Forall_forall in Hf.
    by destruct (Hf m Hm) as (_ & ? & _).
Qed.

Lemma family_steer family p : let out := steer (family_rules cfg pa health s family) p in
  (flow cfg pa family p = true /\ replaces cfg health s family (p_mark p) -> exists a, assignable family a /\ out = set_mark a p) /\
  (flow cfg pa family p = false \/ ~ replaces cfg health s family (p_mark p) -> out = p).
Proof.
  intros out.
  pose proof (steer_once (family_rules cfg pa health s family) p (assignable family)) as H.
  destruct (existsb _ _) eqn:E.
  - apply existsb_exists in E as (rule & Hr%list_elem_of_In & E). apply (family_rule_in _ _ _ _ Hcfg) in Hr as (src & mark & Hs & Hm & ->).
    rewrite family_rule_matches in E by done. rewrite !andb_true_iff in E. destruct E as [[[E1 E2] E3] E4%Z.eqb_eq].
    assert (flow cfg pa family p = true) as Hfl.
    { unfold flow. rewrite E1, E2. cbn [andb]. apply existsb_exists. exists src. by rewrite <- list_elem_of_In. }
    split; [|rewrite Hfl, E4; intros [|Hno]; [done|by destruct Hno] ]. intros _. apply H.
    + intros r q Hr. apply (family_rule_in _ _ _ _ Hcfg) in Hr as (src' & mark' & Hs' & Hm' & ->).
      pose proof (assigned_spec cfg pa health s family Hcfg (family_rule cfg pa health s family src' mark') q (family_rule_wf _ _ _ _ Hcfg _ _ _ Hs' Hm') eq_refl) as Ha.
      unfold assignable. destruct (nonempty _); [destruct Ha as (m & ? & ?); eauto|eauto].
    + intros r a Hr Ha E. apply (family_rule_in _ _ _ _ Hcfg) in Hr as (src' & mark' & Hs' & Hm' & ->). cbn in E. subst a. by eapply assignable_kept.
  - assert (forall rule, rule ∈ family_rules cfg pa health s family -> rule_matches rule p = false) as Hno.
    { intros rule Hr. apply not_true_iff_false. intros Hm. apply not_true_iff_false in E. apply E, existsb_exists. exists rule. by rewrite <- list_elem_of_In. }
    split; [|intros _; by apply steer_none]. intros [Hfl Hm]. exfalso. unfold flow in Hfl. rewrite !andb_true_iff, existsb_exists in Hfl.
    destruct Hfl as [[H1 H2] (src & Hsrc%list_elem_of_In & H3)].
    assert (family_rule cfg pa health s family src (p_mark p) ∈ family_rules cfg pa health s family) as Hin%Hno.
    { apply family_rule_in; [done|]. by exists src, (p_mark p). }
    rewrite family_rule_matches, H1, H2, H3, Z.eqb_refl in Hin by done. done.
Qed.
End Flows.
