(* ===== verification/SteeringClaims.v ===== *)
(** * What the steering module promises (gateway/internal/ifmgr/modules/steering)

    The committed chains implement the rules of a pass; new flows take the mark of a carrying
    provider; only eligible traffic leaves; the split follows the weights and depends on the
    set of providers alone. *)

From stdpp Require Import sorting.
From S2P Require Import Prelude GoStrings Effects NptPolicy Intent Tier Health BgpFib NetWire WanState WanRoutes WanRoutesProps WanRoutesClaims GatewayRoutes.
From S2P Require Import Nftables Steering SteeringExec SteeringProps.

Local Open Scope Z_scope.

(** ** The transaction *)

Section Pass.
Context {W : Type} `{NC : !NftConn W} `{SE : !SteeringEnv W} `{NK : !NftKernel}.

(** The verdicts a pass reads, and the live state it reads after them. *)
Definition pass_health (cfg : SteeringConfig) (w : W) : res HealthStates * W := se_ReadHealth (sc_HealthStateFile cfg) (se_Begin w).2.
Definition pass_snapshot (cfg : SteeringConfig) (w : W) : Snapshot := (se_Snapshot (pass_health cfg w).2).1.

Lemma Reconcile_spec cfg pa s : let '(e, s') := Reconcile cfg pa true s in
  match e with
  | None => exists health batch, (pass_health cfg (sworld s)).1 = Ok health /\ slog s' = slog s ++ [(batch, None)] /\
      (config_fit cfg pa -> implements batch (rulesForSnapshot cfg pa health (pass_snapshot cfg (sworld s))))
  | Some _ => slog s' = slog s \/ exists batch refused, slog s' = slog s ++ [(batch, Some refused)]
  end.
Proof.
  unfold Reconcile, pass_snapshot, pass_health, desiredRules, mbind, M_bind, mret, M_ret, sask. cbn [negb sworld slog sbatch].
  destruct (se_Begin (sworld s)) as [[e|] w1]; [cbn; by left|]. cbn [sworld slog sbatch snd].
  destruct (se_ReadHealth _ w1) as [[health|e] w2]; [|cbn; by left]. cbn [sworld slog sbatch fst snd].
  destruct (se_Snapshot w2) as [snap w3]. cbn [sworld slog sbatch fst].
  pose proof (Apply_spec (rulesForSnapshot cfg pa health snap) (mkSsys w3 (sbatch s) (slog s))) as H.
  revert H. destruct (Apply (rulesForSnapshot cfg pa health snap) (mkSsys w3 (sbatch s) (slog s))) as [[e|] s3]; cbn; intros H; [exact H|].
  destruct H as (batch & Hl & Hi). exists health, batch. split_and!; [done|done|]. intros Hc. by apply Hi, rules_wf.
Qed.

(** C28. A pass that reports no error committed one transaction, and whatever the chains held
    before, they now do to every packet what the typed rules of the pass say, for the verdicts
    and the live state the pass read: the prerouting chain applies the assigning rules in
    order, each map of slots read by the rule it belongs to, and the forward chain drops
    exactly what a guard drops.  A pass that reports an error committed nothing. *)
Theorem pass_implements_rules cfg pa s : config_fit cfg pa -> let '(e, s') := Reconcile cfg pa true s in
  match e with
  | None => exists health batch, (pass_health cfg (sworld s)).1 = Ok health /\ slog s' = slog s ++ [(batch, None)] /\
      let rules := rulesForSnapshot cfg pa health (pass_snapshot cfg (sworld s)) in
      forall old r p, wf_packet p ->
      (exists r', run_chain (batch_sets batch) (replay steerChainName old batch) r p = Passed r' (steer (List.filter assigns rules) p)) /\
      (exists r', run_chain (batch_sets batch) (replay guardChainName old batch) r p
         = if existsb (fun rule => negb (assigns rule) && guard_drops rule p) rules then Dropped else Passed r' p)
  | Some _ => slog s' = slog s \/ exists batch refused, slog s' = slog s ++ [(batch, Some refused)]
  end.
Proof.
  intros Hc. pose proof (Reconcile_spec cfg pa s) as H. destruct (Reconcile cfg pa true s) as [[e|] s']; [done|].
  destruct H as (health & batch & H1 & H2 & H3). exists health, batch. split_and!; [done|done|]. intros rules old r p Hp. by apply H3.
Qed.
End Pass.

(** ** Flows *)

Section Flows.
Context `{NK : !NftKernel}.
Context (cfg : SteeringConfig) (pa : parsed) (health : HealthStates) (s : Snapshot).

Lemma flow_v4_proto p : flow cfg pa familyV4 p = true -> p_proto p = NFPROTO_IPV4.
Proof. unfold flow. rewrite bool_decide_false by done. rewrite !andb_true_iff, Z.eqb_eq. tauto. Qed.

Lemma flow_v6_proto p : flow cfg pa familyV6 p = true -> p_proto p = NFPROTO_IPV6.
Proof. unfold flow. rewrite bool_decide_true by done. rewrite !andb_true_iff, Z.eqb_eq. tauto. Qed.

(** Steering changes nothing but the mark. *)
Lemma flow_kept family rules p : flow cfg pa family (steer rules p) = flow cfg pa family p.
Proof.
  revert p. induction rules as [|rule rules IH]; intros p; [done|]. unfold steer. cbn [fold_left]. fold (steer rules (steer_rule rule p)).
  rewrite IH. unfold steer_rule. destruct (rule_matches rule p); [|done]. by destruct (assigned_mark rule p).
Qed.

Lemma one_family family family' p : family ∈ families -> family' ∈ families -> flow cfg pa family p = true -> family' <> family ->
  flow cfg pa family' p = false.
Proof.
  intros [-> | ->]%family_cases [-> | ->]%family_cases H Hn; try done; apply not_true_iff_false; intros H';
    [apply flow_v4_proto in H; apply flow_v6_proto in H'|apply flow_v6_proto in H; apply flow_v4_proto in H']; by rewrite H in H'.
Qed.

Definition steered (p : packet) : packet := steer (List.filter assigns (rulesForSnapshot cfg pa health s)) p.

Lemma steered_flow family p : config_fit cfg pa -> family ∈ families -> flow cfg pa family p = true ->
  steered p = steer (family_rules cfg pa health s family) p.
Proof.
  intros Hc Hf Hfl. unfold steered. rewrite assigning_rules, steer_app by done.
  pose proof Hf as Hf'. apply family_cases in Hf' as [-> | ->].
  - assert (flow cfg pa familyV6 p = false) as H6 by (apply (one_family familyV4); [apply v4_family|apply v6_family|done|done]).
    apply (family_steer cfg pa health s Hc familyV6). left. by rewrite flow_kept.
  - assert (flow cfg pa familyV4 p = false) as H4 by (apply (one_family familyV6); [apply v6_family|apply v4_family|done|done]).
    f_equal. apply (family_steer cfg pa health s Hc familyV4 p). by left.
Qed.

Lemma not_flow p : config_fit cfg pa -> flow cfg pa familyV4 p = false -> flow cfg pa familyV6 p = false -> steered p = p.
Proof.
  intros Hc H4 H6. unfold steered. rewrite assigning_rules, steer_app by done.
  rewrite (proj2 (family_steer cfg pa health s Hc familyV4 p)) by (by left). apply (family_steer cfg pa health s Hc familyV6). by left.
Qed.

Definition usable_member (family : string) (m : Member) : Prop :=
  m ∈ sc_Members cfg /\ mb_enabled m = true /\ member_eligible family health s m = true.

Lemma replaces_iff family mark : config_fit cfg pa -> selected cfg health s family <> [] ->
  replaces cfg health s family mark <-> mark = 0 \/ exists m, m ∈ sc_Members cfg /\ mb_Mark m = mark /\ ~ usable_member family m.
Proof.
  intros Hc Hs. unfold replaces. replace (nonempty (selected cfg health s family)) with true by (by destruct (selected _ _ _ _)). cbv zeta.
  apply or_iff_compat; [naive_solver|]. unfold shouldAppendMemberRule, usable_member. split; intros (m & Hm & E & H); exists m; (split_and!; [done..|]).
  - intros (_ & H1 & H2). by rewrite H1, H2 in H.
  - destruct (mb_enabled m), (member_eligible family health s m); try done. naive_solver.
Qed.

(** C27. The mark a pass gives a new flow.  When some provider is enabled and eligible for the
    family, a packet that opens a flow without a mark, or with the mark of a provider that is
    not, takes the mark of an enabled and eligible provider of the least tier among those; the
    mark of one that is stays.  When none is, the mark of an eligible provider that selection
    excludes is cleared, and every other mark stays.  A packet that opens no flow from a
    steered source, such as a hairpin or a packet of an open connection, is left alone. *)
Theorem new_flows_carried family p : config_fit cfg pa -> family ∈ families ->
  let out := steered p in
  (flow cfg pa family p = true -> selected cfg health s family <> [] ->
     p_mark p = 0 \/ (exists m, m ∈ sc_Members cfg /\ mb_Mark m = p_mark p /\ ~ usable_member family m) ->
     exists m, usable_member family m /\ (forall m', usable_member family m' -> mb_Tier m <= mb_Tier m') /\ out = set_mark (mb_Mark m) p) /\
  (forall m, flow cfg pa family p = true -> usable_member family m -> p_mark p = mb_Mark m -> out = p) /\
  (flow cfg pa family p = true -> selected cfg health s family = [] ->
     out = if existsb (fun m => (mb_Mark m =? p_mark p) && negb (mb_enabled m) && member_eligible family health s m) (sc_Members cfg)
           then set_mark 0 p else p) /\
  (flow cfg pa familyV4 p = false -> flow cfg pa familyV6 p = false -> out = p).
Proof.
  intros Hc Hf out. split_and!; [intros Hfl Hs Hm|intros m Hfl Hu Hm|intros Hfl Hs|by apply not_flow].
  all: unfold out; rewrite (steered_flow family) by done; destruct (family_steer cfg pa health s Hc family p) as [H1 H2].
  - apply (replaces_iff family) in Hm as Hr; [|done|done]. destruct (H1 (conj Hfl Hr)) as (a & Ha & ->). unfold assignable in Ha.
    replace (nonempty (selected cfg health s family)) with true in Ha by (by destruct (selected _ _ _ _)).
    destruct Ha as (m & [Hin Hle] & <-). exists m. apply selectable_iff in Hin as (? & ? & ?). split_and!; [done| |done].
    intros m' (? & ? & ?). apply Hle, selectable_iff. done.
  - apply H2. right. assert (selected cfg health s family <> []) as Hs.
    { destruct Hu as (? & ? & ?). assert (m ∈ selected cfg health s family) as Hin by (by apply selectable_iff). intros E. rewrite E in Hin. by apply not_elem_of_nil in Hin. }
    rewrite replaces_iff, Hm by done. intros [E|(m' & Hm' & E & Hn)].
    + pose proof (vm_each _ (config_members _ _ Hc)) as Hfit. rewrite Forall_forall in Hfit. destruct Hu as [Hu _]. by destruct (Hfit m Hu) as (_ & ? & _).
    + apply Hn. destruct Hu as [Hu Hrest]. by rewrite (same_key mb_Mark _ m' m (cf_marks _ _ Hc) Hm' Hu E).
  - destruct (existsb _ _) eqn:E.
    + apply existsb_exists in E as (m & Hm%list_elem_of_In & E). rewrite !andb_true_iff, Z.eqb_eq, negb_true_iff in E. destruct E as [[E1 E2] E3].
      destruct H1 as (a & Ha & ->); [|unfold assignable in Ha; rewrite Hs in Ha; by cbn in Ha; subst a].
      split; [done|]. right. exists m. unfold shouldAppendMemberRule. by rewrite Hs, E2, E3.
    + apply H2. right. intros [[Hn _]|(m & Hm & Em & Hsh)]; [by rewrite Hs in Hn|]. apply not_true_iff_false in E. apply E, existsb_exists.
      exists m. rewrite Hs in Hsh. unfold shouldAppendMemberRule in Hsh. rewrite <- list_elem_of_In, Em, Z.eqb_refl.
      by destruct (mb_enabled m), (member_eligible family health s m).
Qed.

(** ** The guard *)

Definition family_proto (family : string) : Z := if bool_decide (family = familyV6) then NFPROTO_IPV6 else NFPROTO_IPV4.

Definition dropped (p : packet) : bool :=
  existsb (fun rule => negb (assigns rule) && guard_drops rule p) (rulesForSnapshot cfg pa health s).

Lemma guard_in rule : rule ∈ guards cfg health s <->
  exists family m, family ∈ families /\ m ∈ sc_Members cfg /\ rule = family_guard cfg health s family m.
Proof.
  unfold guards. rewrite list_elem_of_bind. split.
  - intros (m & H & Hm). apply elem_of_cons in H as [->|H]; [exists familyV4, m; split_and!; [apply v4_family|done|done]|].
    apply list_elem_of_singleton in H as ->. exists familyV6, m. split_and!; [apply v6_family|done|done].
  - intros (family & m & [-> | ->]%family_cases & Hm & ->); exists m; (split; [|done]); [left|right; left].
Qed.

Definition eligible_mark (family : string) (mark : Z) : Prop :=
  exists m, m ∈ sc_Members cfg /\ mb_Mark m = mark /\ member_eligible family health s m = true.

Lemma family_guard_drops family m p : config_fit cfg pa -> m ∈ sc_Members cfg -> family ∈ families -> guard_drops (family_guard cfg health s family m) p = true <->
  p_iif p = sc_InternalIface cfg /\ p_oif p = mb_Iface m /\ p_proto p = family_proto family /\
  ~ (member_eligible family health s m = true /\ eligible_mark family (p_mark p)).
Proof.
  intros Hc Hm Hf. unfold guard_drops, family_guard, guard_rule, rule_proto, family_proto. cbn [sr_IifName sr_DropIface sr_Source sr_AllowedMarks].
  rewrite !andb_true_iff, !bool_decide_eq_true, Z.eqb_eq, negb_true_iff, bool_decide_eq_false.
  rewrite is_eligible_member by (first [done|apply (cf_marks _ _ Hc)]).
  assert (p_mark p ∉ (if member_eligible family health s m then eligibleMarks (eligible_marks family health s (sc_Members cfg)) else []) <->
    ~ (member_eligible family health s m = true /\ eligible_mark family (p_mark p))) as ->.
  { destruct (member_eligible family health s m); [rewrite eligibleMarks_iff; fold (eligible_mark family (p_mark p)); tauto|].
    split; [by intros _ [? _]|]. intros _. apply not_elem_of_nil. }
  apply family_cases in Hf as [-> | ->]; cbn; tauto.
Qed.

Lemma dropped_intro p : config_fit cfg pa ->
  (exists family m, family ∈ families /\ m ∈ sc_Members cfg /\ guard_drops (family_guard cfg health s family m) p = true) <-> dropped p = true.
Proof.
  intros Hc. unfold dropped. rewrite existsb_exists. split.
  - intros (family & m & Hf & Hm & Hg). exists (family_guard cfg health s family m). split.
    + apply list_elem_of_In. rewrite rules_split. do 2 (apply elem_of_app; right). apply guard_in. by exists family, m.
    + rewrite Hg, andb_true_r. unfold assigns. cbn.
      pose proof (vm_each _ (config_members _ _ Hc)) as Hfit. rewrite Forall_forall in Hfit. destruct (Hfit m Hm) as (Hi & _).
      apply negb_true_iff. by apply is_empty_false.
  - intros (rule & Hr%list_elem_of_In & [Ha Hd]%andb_true_iff). rewrite rules_split in Hr.
    apply elem_of_app in Hr as [Hr|Hr]; [|apply elem_of_app in Hr as [Hr|Hr] ].
    1,2: apply (family_rule_in _ _ _ _ Hc) in Hr as (src & mark & _ & _ & ->); done.
    apply guard_in in Hr as (family & m & Hf & Hm & ->). by exists family, m.
Qed.

(** C26. What the guard of a pass drops: exactly the packets that come from the internal link, leave
    by a provider's interface, and do so for a provider that is not eligible in the packet's
    family (routed, translated and healthy) or with a mark that is no eligible provider's.
    Every other packet passes. *)
Theorem only_eligible_leaves p : config_fit cfg pa ->
  dropped p = true <->
  p_iif p = sc_InternalIface cfg /\ exists family m, family ∈ families /\ p_proto p = family_proto family /\ m ∈ sc_Members cfg /\ p_oif p = mb_Iface m /\
    ~ (member_eligible family health s m = true /\ eligible_mark family (p_mark p)).
Proof.
  intros Hc. rewrite <- dropped_intro by done. split.
  - intros (family & m & Hf & Hm & Hd). apply family_guard_drops in Hd as (H1 & H2 & H3 & H4); [|done..]. split; [done|]. by exists family, m.
  - intros (H1 & family & m & Hf & H3 & Hm & H2 & H4). exists family, m. split_and!; [done..|]. by apply family_guard_drops.
Qed.
End Flows.

(** ** The split *)

Lemma slots_count ms mark : count_occ Z.eq_dec (slots_of ms) mark =
  foldr (fun m acc => ((if (mb_Mark m =? mark)%Z then Z.to_nat (mb_Weight m) else 0) + acc)%nat) 0%nat ms.
Proof.
  induction ms as [|m ms IH]; [done|]. change (slots_of (m :: ms)) with (repeat (mb_Mark m) (Z.to_nat (mb_Weight m)) ++ slots_of ms).
  rewrite count_occ_app, IH. cbn [foldr]. f_equal. destruct (Z.eqb_spec (mb_Mark m) mark) as [->|Hn].
  - apply count_occ_repeat_eq. done.
  - apply count_occ_repeat_neq. done.
Qed.

Lemma slots_share ms m : NoDup (mb_Mark <$> ms) -> m ∈ ms -> count_occ Z.eq_dec (slots_of ms) (mb_Mark m) = Z.to_nat (mb_Weight m).
Proof.
  rewrite slots_count. intros Hnd Hm. induction ms as [|x ms IH]; [by apply not_elem_of_nil in Hm|].
  cbn [fmap list_fmap] in Hnd. apply NoDup_cons in Hnd as [Hx Hnd]. cbn [foldr]. apply elem_of_cons in Hm as [->|Hm].
  - rewrite Z.eqb_refl. rewrite <- slots_count, (proj1 (count_occ_not_In Z.eq_dec _ _)); [lia|].
    intros (m' & Hm' & E)%list_elem_of_In%slots_in. apply Hx. rewrite <- E. by apply list_elem_of_fmap_2.
  - rewrite (proj2 (Z.eqb_neq _ _)); [by apply IH|]. intros E. apply Hx. rewrite E. by apply list_elem_of_fmap_2.
Qed.

Lemma carrying_incl ms health tier : carrying ms health tier ⊆+ ms.
Proof. unfold carrying. rewrite merge_sort_Permutation. apply sublist_submseteq, filter_sublist. Qed.

Lemma selected_incl cfg health s family : selected cfg health s family ⊆+ sc_Members cfg.
Proof. apply sublist_submseteq, filter_sublist. Qed.


(** *** The order of the providers *)

Definition mark_lt (a b : Member) : Prop := mb_Mark a < mb_Mark b.

Lemma strictly_sorted ms : StronglySorted mark_le ms -> NoDup (mb_Mark <$> ms) -> StronglySorted mark_lt ms.
Proof.
  induction 1 as [|m ms Hs IH Hm]; [constructor|]. cbn [fmap list_fmap]. intros [Hn Hnd]%NoDup_cons. constructor; [by apply IH|].
  rewrite Forall_forall in Hm |- *. intros x Hx. specialize (Hm x Hx). unfold mark_le, mark_lt in *.
  assert (mb_Mark m <> mb_Mark x); [|lia]. intros E. apply Hn. rewrite E. by apply list_elem_of_fmap_2.
Qed.

Lemma sort_unique ms ms' : ms ≡ₚ ms' -> NoDup (mb_Mark <$> ms) -> merge_sort mark_le ms = merge_sort mark_le ms'.
Proof.
  intros Hp Hnd. assert (Total mark_le) as Htot by (intros a b; unfold mark_le; lia).
  assert (Transitive mark_le) as Htr by (intros a b c; unfold mark_le; lia).
  assert (AntiSymm (=) mark_lt) as Has by (intros a b; unfold mark_lt; lia).
  apply (StronglySorted_unique mark_lt).
  - apply strictly_sorted; [by apply StronglySorted_merge_sort|]. by rewrite merge_sort_Permutation.
  - apply strictly_sorted; [by apply StronglySorted_merge_sort|]. by rewrite merge_sort_Permutation, <- Hp.
  - by rewrite !merge_sort_Permutation.
Qed.

Lemma active_tier_perm ms ms' health : ms ≡ₚ ms' -> ActiveTier (tierMembers ms) health = ActiveTier (tierMembers ms') health.
Proof.
  intros Hp. assert (forall m, m ∈ tierMembers ms <-> m ∈ tierMembers ms') as Hin.
  { intros m. unfold tierMembers. by rewrite Hp. }
  pose proof (ActiveTier_spec (tierMembers ms) health) as H. pose proof (ActiveTier_spec (tierMembers ms') health) as H'.
  destruct (ActiveTier (tierMembers ms) health) as [t []], (ActiveTier (tierMembers ms') health) as [t' []].
  - destruct H as [(m & Hm & Hu & <-) Hmin], H' as [(m' & Hm' & Hu' & <-) Hmin']. f_equal. apply Z.le_antisymm.
    + apply Hmin; [by apply Hin|done].
    + apply Hmin'; [by apply Hin|done].
  - destruct H as [(m & Hm & Hu & _) _], H' as [_ H']. exfalso. by eapply H'; [apply Hin|].
  - destruct H' as [(m & Hm & Hu & _) _], H as [_ H]. exfalso. by eapply H; [apply Hin|].
  - by destruct H as [-> _], H' as [-> _].
Qed.

Lemma filter_perm {A} (f : A -> bool) xs ys : xs ≡ₚ ys -> List.filter f xs ≡ₚ List.filter f ys.
Proof.
  induction 1 as [|x xs ys _ IH|x y xs|xs ys zs _ IH1 _ IH2]; cbn; [done| | |by etransitivity].
  - destruct (f x); [by constructor|done].
  - destruct (f x), (f y); try done. constructor.
Qed.

(** The split depends on the set of carrying providers, not on the order they are listed in: two
    lists of the same providers give the same assignment, so that under the source mode one
    host keeps its provider from pass to pass while providers, weights and verdicts stand. *)
Lemma split_order_independent `{NK : !NftKernel} ms ms' health : ms ≡ₚ ms' -> NoDup (mb_Mark <$> ms) ->
  balancerFor ms health = balancerFor ms' health /\
  forall rule rule' p p', sr_Mode rule = hashModeSource -> sr_Mode rule' = hashModeSource ->
    sr_Assign rule = (balancerFor ms health).1 -> sr_Assign rule' = (balancerFor ms' health).1 ->
    source_bytes p = source_bytes p' -> assigned_mark rule p = assigned_mark rule' p'.
Proof.
  intros Hp Hnd. assert (balancerFor ms health = balancerFor ms' health) as E.
  { unfold balancerFor. rewrite (active_tier_perm _ _ _ Hp). destruct (ActiveTier _ _) as [tier any].
    assert (carrying ms health tier = carrying ms' health tier) as ->; [|done].
    unfold carrying. apply sort_unique; [by apply filter_perm|]. eapply submseteq_NoDup; [|exact Hnd].
    apply fmap_submseteq, sublist_submseteq, filter_sublist. }
  split; [done|]. intros rule rule' p p' Hm Hm' Ha Ha' Hs. unfold assigned_mark, slot_drawn. by rewrite Ha, Ha', Hm, Hm', Hs, E.
Qed.
