(* ===== verification/GatewaySteering.v ===== *)
(** * From the shared providers to the steering module (cmd/mwan/ifmgr_module_configs.go)

    The configuration the command hands to the steering module, which names the same marks as
    the one it hands to the routes module; and the two modules together: what the guard lets
    out has a rule and a default route. *)

From S2P Require Import Prelude GoStrings Effects NptPolicy Intent Observation BgpConfig Tier Notify Health BgpFib BgpModule.
From S2P Require Import NetWire NetLink NetConn NetGraph NetProvider NetDocument GatewayBgp WanState WanRoutes WanRoutesProps WanRoutesClaims GatewayRoutes.
From S2P Require Import Nftables Steering SteeringExec SteeringProps SteeringClaims.

Local Open Scope Z_scope.

Definition steering_member (w : sharedWAN) : res Member :=
  (mark <-? wanFwMark w ;; Ok (mkMember (sw_ref w) (sw_SelectionEnabled w) mark (sw_Tier w) (sw_Weight w)))%go.

(** [hashMode] is the section's. *)
Definition buildSteeringConfig (shared : sharedWANInputs) (hashMode : string) (section : option WANRoutesSection) : res SteeringConfig :=
  match section with
  | None => Ok (mkSteeringConfig "" "" (si_InternalPrefix shared) (si_OpnsenseEdgeV6 shared) hashMode "" [])
  | Some s =>
      (ms <-? map_res steering_member (si_WANs shared) ;;
       Ok (mkSteeringConfig (wr_InternalIface s) (wr_InternalNetV4 s) (si_InternalPrefix shared) (si_OpnsenseEdgeV6 shared) hashMode
             (wr_HealthStateFile s) ms))%go
  end.

(** ** The two configurations *)

Lemma map_res_in {A B} (f : A -> res B) xs ys y : map_res f xs = Ok ys -> y ∈ ys -> exists x, x ∈ xs /\ f x = Ok y.
Proof.
  intros H%map_res_ok Hy. induction H as [|x y' xs ys H _ IH]; [by apply not_elem_of_nil in Hy|].
  apply elem_of_cons in Hy as [->|Hy]; [exists x; split; [left|done]|]. destruct (IH Hy) as (x' & Hx & E). exists x'. split; [by right|done].
Qed.

Lemma map_res_to {A B} (f : A -> res B) xs ys x : map_res f xs = Ok ys -> x ∈ xs -> exists y, y ∈ ys /\ f x = Ok y.
Proof.
  intros H%map_res_ok Hx. induction H as [|x' y' xs ys H _ IH]; [by apply not_elem_of_nil in Hx|].
  apply elem_of_cons in Hx as [->|Hx]; [exists y'; split; [left|done]|]. destruct (IH Hx) as (y & Hy & E). exists y. split; [by right|done].
Qed.

(** A member and the provider of the routes module have one key, one mark and one interface. *)
Definition same_provider (m : Member) (w : WAN) : Prop := mb_key m = wan_key w /\ mb_Mark m = wn_FwMark w /\ mb_Iface m = wan_iface w.

Lemma member_route shared mode section scfg rcfg m : buildSteeringConfig shared mode section = Ok scfg ->
  buildWANRoutesConfig shared section = Ok rcfg -> m ∈ sc_Members scfg -> exists w, w ∈ rc_WANs rcfg /\ same_provider m w.
Proof.
  unfold buildSteeringConfig, buildWANRoutesConfig. destruct section as [sec|]; [|intros [= <-] _ H; by apply not_elem_of_nil in H].
  intros (ms & Hms & [= <-])%res_bind_ok (ws & Hws & [= <-])%res_bind_ok Hm. cbn in Hm |- *.
  destruct (map_res_in _ _ _ _ Hms Hm) as (x & Hx & E). destruct (map_res_to _ _ _ _ Hws Hx) as (w & Hw & E'). exists w. split; [done|].
  unfold steering_member in E. unfold routes_wan in E'. apply res_bind_ok in E as (mark & E1 & [= <-]). apply res_bind_ok in E' as (mark' & E2 & [= <-]).
  assert (mark = mark') as -> by congruence. done.
Qed.

(** What the guard lets out of a provider's interface leaves by an eligible provider, with the mark of one. *)
Lemma leaving_eligible scfg pa health s family member p : config_fit scfg pa -> family ∈ families -> p_iif p = sc_InternalIface scfg ->
  p_proto p = family_proto family -> member ∈ sc_Members scfg -> p_oif p = mb_Iface member -> dropped scfg pa health s p = false ->
  member_eligible family health s member = true /\ eligible_mark scfg health s family (p_mark p).
Proof.
  intros Hc Hf Hi Hpro Hin Ho Hd. destruct (decide (guard_drops (family_guard scfg health s family member) p = true)) as [Hg|Hg].
  - exfalso. apply not_true_iff_false in Hd. apply Hd. apply dropped_intro; [done|]. by exists family, member.
  - rewrite (family_guard_drops _ pa) in Hg by done. unfold eligible_mark in *.
    destruct (member_eligible family health s member) eqn:E1; [|exfalso; naive_solver].
    destruct (is_eligible (eligible_marks family health s (sc_Members scfg)) (p_mark p)) eqn:E2; [by apply is_eligible_iff in E2|].
    exfalso. apply Hg. split_and!; [done..|]. intros [_ H%is_eligible_iff]. congruence.
Qed.

Section Together.
Context {W : Type} `{PT : !PrefixText} `{NT : !NetText} `{RW : !RouteWriter W} `{MO : !MapOrder W}
  `{RK : !RouteKernel W} `{RE : !RoutesEnv W}.

(** The provider's rule and default route are among what a pass wrote. *)
Definition routed_by (l : list revent) (family : string) (w : WAN) : Prop :=
  RRule (mark_rule family w) None ∈ l /\ exists via, default_installed l (default_route family via w).

Lemma eligible_routed m w tier members shared mode section scfg health s family member :
  buildSteeringConfig shared mode section = Ok scfg -> buildWANRoutesConfig shared section = Ok (rm_cfg m) ->
  WanRoutes.validateConfig (rm_cfg m) = Ok tt -> RPublish tier members ∈ pass_log m w -> Routing s = members -> family ∈ families ->
  member ∈ sc_Members scfg -> member_eligible family health s member = true ->
  exists wan, wan ∈ rc_WANs (rm_cfg m) /\ same_provider member wan /\ routed_by (pass_log m w) family wan.
Proof.
  intros Hs Hr Hv Hp Hm Hf Hin He. destruct (member_route _ _ _ _ _ _ Hs Hr Hin) as (wan & Hw & Hsame). exists wan. split_and!; [done..|].
  destruct (published_member m w tier members Hv Hp) as (hl & t & m' & c & _ & _ & _ & _ & [B1 B2 B3 B4] & Hmem).
  assert (family_ready_in c hl t family wan = true) as Hready.
  { unfold member_eligible in He. rewrite !andb_true_iff in He. destruct He as [[He _] _]. unfold routing_of in He.
    rewrite Hm, (proj1 Hsame), (Hmem wan Hw) in He. cbn [default] in He. change (member_ready family (member_routing m' c hl t
      (ActiveTier (familyMembers (rc_WANs (rm_cfg m)) c hl t familyV4) hl) (ActiveTier (familyMembers (rc_WANs (rm_cfg m)) c hl t familyV6) hl) wan) = true) in He.
    by rewrite member_routing_ready in He. }
  destruct (vw_each _ (valid_config _ _ Hv) wan Hw) as [Hpm _]. split.
  - apply (B3 wan); [done|by apply ready_mark_rule|by apply Z.eqb_neq].
  - eexists. by apply B1.
Qed.

(** C24. The routes module and the steering module together, configured by the command from the same
    providers: when steering decides on the routing state a pass of the routes module
    published, a packet that comes from the internal link and that the guard lets out of a
    provider's interface carries the mark of a provider for which that pass had written the
    policy rule of the mark and installed the default route of the packet's family; and the
    provider whose interface it leaves by has its rule and route too. *)
Theorem leaving_traffic_routed m w tier members shared mode section scfg pa health s family member p :
  buildWANRoutesConfig shared section = Ok (rm_cfg m) -> WanRoutes.validateConfig (rm_cfg m) = Ok tt ->
  buildSteeringConfig shared mode section = Ok scfg -> config_fit scfg pa ->
  RPublish tier members ∈ pass_log m w -> Routing s = members ->
  family ∈ families -> p_iif p = sc_InternalIface scfg -> p_proto p = family_proto family ->
  member ∈ sc_Members scfg -> p_oif p = mb_Iface member -> dropped scfg pa health s p = false ->
  (exists wan, wan ∈ rc_WANs (rm_cfg m) /\ wn_FwMark wan = p_mark p /\ routed_by (pass_log m w) family wan) /\
  (exists wan, wan ∈ rc_WANs (rm_cfg m) /\ wan_iface wan = p_oif p /\ routed_by (pass_log m w) family wan).
Proof.
  intros Hr Hv Hs Hc Hp Hm Hf Hi Hpro Hin Ho Hd.
  destruct (leaving_eligible _ _ _ _ _ _ _ Hc Hf Hi Hpro Hin Ho Hd) as [He (m' & Hin' & Hmk & He')].
  destruct (eligible_routed _ _ _ _ _ _ _ _ _ _ _ _ Hs Hr Hv Hp Hm Hf Hin He) as (wan & Hw & Hsame & Hrt).
  destruct (eligible_routed _ _ _ _ _ _ _ _ _ _ _ _ Hs Hr Hv Hp Hm Hf Hin' He') as (wan' & Hw' & Hsame' & Hrt').
  split; [exists wan'|exists wan]; split_and!; try done; [destruct Hsame' as (_ & <- & _)|destruct Hsame as (_ & _ & <-)]; done.
Qed.
End Together.
