(* ===== verification/SteeringDemo.v ===== *)
(** * Steering over three providers

    Two providers of the first tier with weights 2 and 1, and one of the second. *)

From stdpp Require Import sorting.
From S2P Require Import Prelude GoStrings Effects NptPolicy Intent Observation BgpConfig Tier Notify Health BgpDemo BgpFib NetWire NetLink NetProvider GatewayBgp NetDemo.
From S2P Require Import WanState WanRoutes WanRoutesProps WanRoutesClaims GatewayRoutes WanRoutesDemo Nftables Steering SteeringExec SteeringProps SteeringClaims GatewaySteering.

Local Open Scope Z_scope.

#[local] Existing Instance demo_text.
#[local] Existing Instance net_text.
#[local] Existing Instance kernel_writer.
#[local] Existing Instance kernel_routes.
#[local] Existing Instance kernel_env.
#[local] Existing Instance kernel_order.

Definition member (key iface : string) (enabled : option bool) (mark tier weight : Z) : Member := mkMember (mkWANRef key key iface) enabled mark tier weight.

Definition m_fiber : Member := member "fiber" "wan0" None 1 0 2.
Definition m_cable : Member := member "cable" "wan1" None 2 0 1.
Definition m_he : Member := member "he" "tun0" (Some false) 3 1 1.

Definition three (members : list Member) : SteeringConfig :=
  mkSteeringConfig "lan0" "10.0.0.0/24" "2001:db8::/48" "2001:db8::5" hashModeSource "" members.
Definition demo_steering : SteeringConfig := three [m_fiber; m_cable; m_he].

Definition demo_parsed : parsed :=
  mkParsed (mkPrefix (Addr4 [10; 0; 0; 0]) 24) (mkPrefix (Addr6 (v6_bytes 0) "") 48) (Addr6 (v6_bytes 5) "") hashModeSource.

Lemma plain_decided s : forallb (fun b => negb (b =? 0)) (name_bytes s) && (length (name_bytes s) <=? 15)%nat = true -> plain_name s.
Proof.
  intros [H1 H2]%andb_true_iff. split; [|by apply Nat.leb_le]. apply Forall_forall. intros b Hb. rewrite forallb_Forall, Forall_forall in H1.
  specialize (H1 b Hb). by apply negb_true_iff, Z.eqb_neq in H1.
Qed.

Lemma bytes_decided b : forallb (fun x => (0 <=? x) && (x <? 256)) b = true -> Forall is_byte b.
Proof. rewrite forallb_Forall. intros H. eapply Forall_impl; [exact H|]. cbn. intros x. rewrite andb_true_iff. unfold is_byte. lia. Qed.

Ltac each tac := repeat (apply List.Forall_cons; [tac|]); apply List.Forall_nil.

Ltac fit_config :=
  split; [vm_compute; reflexivity | vm_compute; reflexivity | apply (bool_decide_unpack (NoDup _)); vm_compute; exact I
         | each ltac:(unfold word; cbn; lia)
         | split; [apply plain_decided; reflexivity|each ltac:(apply plain_decided; reflexivity)]
         | (split; [|split]); [|reflexivity|reflexivity]; split; [split; [reflexivity|apply bytes_decided; reflexivity]|split; [reflexivity|cbn; lia]]
         | (split; [|split]); [|reflexivity|reflexivity]; split; [split; [reflexivity|apply bytes_decided; reflexivity]|split; [reflexivity|cbn; lia]]
         | split; [split; [reflexivity|apply bytes_decided; reflexivity]|reflexivity] ].

Lemma demo_fit : config_fit demo_steering demo_parsed.
Proof. fit_config. Qed.

Definition ready_routing : MemberRouting := mkMemberRouting false true true true "" "" [] [] [].
Definition demo_snapshot (routing : gmap string MemberRouting) : Snapshot :=
  mkSnapshot ∅ ∅ ∅ routing 0 (<["fiber"%string := ready_translation]> (<["cable"%string := ready_translation]> (<["he"%string := ready_translation]> ∅)))
    ∅ 0 0 true (mkBGP [] 0 false) ∅ ∅.
Definition all_ready : gmap string MemberRouting :=
  <["fiber"%string := ready_routing]> (<["cable"%string := ready_routing]> (<["he"%string := ready_routing]> ∅)).
Definition demo_health : HealthStates :=
  <["fiber"%string := HealthStateHealthy]> (<["cable"%string := HealthStateHealthy]> (<["he"%string := HealthStateHealthy]> ∅)).

(** The first packet of a connection from 10.0.0.7 to 192.0.2.9. *)
Definition first_packet (mark : Z) (oif : string) : packet :=
  mkPacket "lan0" oif NFPROTO_IPV4 ([69; 0; 0; 40; 0; 0; 0; 0; 64; 6; 0; 0] ++ [10; 0; 0; 7] ++ [192; 0; 2; 9]) mark 0 ctStateNew.

Lemma first_packet_wf mark oif : word mark -> plain_name oif -> wf_packet (first_packet mark oif).
Proof.
  intros Hm Ho. split; [apply plain_decided; reflexivity|exact Ho|apply bytes_decided; reflexivity|exact Hm|done|done|intros _; cbn; lia|done].
Qed.

#[local] Instance demo_nft : NftKernel := {
  random_slot p modulus := p_mark p mod modulus;
  hash_slot key seed modulus := (fold_left Z.add key seed) mod modulus;
  random_range p modulus H := Z.mod_pos_bound _ _ H;
  hash_range key seed modulus H := Z.mod_pos_bound _ _ H }.

Abbreviation demo_steered := (steered demo_steering demo_parsed demo_health (demo_snapshot all_ready)).

(** Without a mark, and with that of the provider selection excludes. *)
Lemma new_flows_carried_witness : exists m m',
  demo_steered (first_packet 0 "") = set_mark (mb_Mark m) (first_packet 0 "") /\ mb_Tier m <= 0 /\
  demo_steered (first_packet 3 "") = set_mark (mb_Mark m') (first_packet 3 "") /\ mb_Tier m' <= 0.
Proof.
  destruct (new_flows_carried demo_steering demo_parsed demo_health (demo_snapshot all_ready) familyV4 (first_packet 0 "") demo_fit v4_family) as (H & _ & _ & _).
  destruct (new_flows_carried demo_steering demo_parsed demo_health (demo_snapshot all_ready) familyV4 (first_packet 3 "") demo_fit v4_family) as (H' & _ & _ & _).
  assert (usable_member demo_steering demo_health (demo_snapshot all_ready) familyV4 m_fiber) as Hu.
  { split; [left|split; vm_compute; reflexivity]. }
  assert (selected demo_steering demo_health (demo_snapshot all_ready) familyV4 <> []) as Hs by (vm_compute; discriminate).
  destruct (H ltac:(vm_compute; reflexivity) Hs (or_introl eq_refl)) as (m & _ & Hle & Hm).
  destruct (H' ltac:(vm_compute; reflexivity) Hs) as (m' & _ & Hle' & Hm').
  { right. exists m_he. split; [right; right; left|split; [reflexivity|]]. intros (_ & He & _). discriminate He. }
  exists m, m'. split; [exact Hm|]. split; [exact (Hle m_fiber Hu)|]. split; [exact Hm'|exact (Hle' m_fiber Hu)].
Defined.

(** An unmarked packet towards the fiber interface is dropped. *)
Lemma only_eligible_leaves_witness : dropped demo_steering demo_parsed demo_health (demo_snapshot all_ready) (first_packet 0 "wan0") = true.
Proof.
  apply (only_eligible_leaves demo_steering demo_parsed demo_health (demo_snapshot all_ready) (first_packet 0 "wan0") demo_fit).
  split; [reflexivity|]. exists familyV4, m_fiber. split; [exact v4_family|]. split; [reflexivity|]. split; [left|]. split; [reflexivity|].
  intros [_ (m & Hm & Hk & _)]. cbn in Hm. repeat (apply elem_of_cons in Hm as [->|Hm]; [discriminate Hk|]). apply not_elem_of_nil in Hm. exact Hm.
Defined.

Lemma demo_carrier m : m = m_fiber \/ m = m_cable -> carrier demo_steering demo_health (demo_snapshot all_ready) familyV4 m.
Proof.
  intros H. assert (selected demo_steering demo_health (demo_snapshot all_ready) familyV4 = [m_fiber; m_cable]) as E by (vm_compute; reflexivity).
  unfold carrier, carries. rewrite E. split; [destruct H as [-> | ->]; [left|right; left]|]. intros m' Hm'.
  repeat (apply elem_of_cons in Hm' as [->|Hm']; [by destruct H as [-> | ->]|]). by apply not_elem_of_nil in Hm'.
Qed.


(** ** A pass *)

Definition fresh_id (batch : list nftop) : Z := 1 + foldr Z.max 0 (set_ids batch).

Lemma fresh_id_new batch : fresh_id batch ∉ set_ids batch.
Proof.
  assert (forall ids id, id ∈ ids -> id <= foldr Z.max 0 ids) as H.
  { intros ids id. induction ids as [|x ids IH]; [by intros ?%not_elem_of_nil|]. cbn. intros [->|Hin%IH]%elem_of_cons; lia. }
  intros Hin%H. unfold fresh_id in Hin. lia.
Qed.

#[local] Instance demo_conn : NftConn unit := {
  newConn w := (None, w); ListChains w := (Ok [], w); AddSetErr _ w := (None, w); FlushBatch _ w := (None, w);
  set_id := fresh_id; set_id_fresh := fresh_id_new }.

#[local] Instance demo_env : SteeringEnv unit := {
  se_Begin w := (None, w); se_Finish w := w; se_ReadHealth _ w := (Ok demo_health, w); se_Snapshot w := (demo_snapshot all_ready, w) }.

Definition idle : ssys unit := mkSsys tt [] [].

Lemma pass_implements_rules_witness : exists batch, slog (Reconcile demo_steering demo_parsed true idle).2 = [(batch, None)] /\
  forall p, wf_packet p -> exists r', run_chain (batch_sets batch) (replay steerChainName [] batch) (fun _ => 0) p = Passed r' (demo_steered p).
Proof.
  pose proof (pass_implements_rules demo_steering demo_parsed idle demo_fit) as H.
  assert ((Reconcile demo_steering demo_parsed true idle).1 = None) as E by (vm_compute; reflexivity).
  destruct (Reconcile demo_steering demo_parsed true idle) as [e s']. cbn [fst snd] in E |- *. subst e.
  destruct H as (health & batch & H1 & H2 & H3). injection H1 as <-. exists batch. split; [exact H2|]. intros p Hp.
  destruct (H3 [] (fun _ => 0) p Hp) as [[r' Hr] _]. exists r'. exact Hr.
Defined.

(** ** Both modules *)

Definition shared_fiber : sharedWANInputs :=
  mkSharedWANInputs "lan0" "10.0.0.0/24"
    [mkSharedWAN None (mkWANRef "fiber" "fiber" "wan0") false 101 1 10001 11001 napt native6 (v4 203 0 113 2) 0 2 None []]
    "2001:db8::/48" "2001:db8::5" "".
Definition fiber_section : option WANRoutesSection := Some (mkRoutesSection "lan0" "10.0.0.0/24" "/run/health").
Definition fiber_routes : routesModule :=
  New (mkRoutesConfig "lan0" "2001:db8::5" "10.0.0.0/24" "/run/health" [fiber]) full_env.
Definition fiber_steering : SteeringConfig :=
  mkSteeringConfig "lan0" "10.0.0.0/24" "2001:db8::/48" "2001:db8::5" hashModeSource "/run/health" [m_fiber].

Lemma fiber_fit : config_fit fiber_steering demo_parsed.
Proof. fit_config. Qed.

(** A packet with the mark of the one provider leaves by its interface. *)
Lemma leaving_traffic_routed_witness : exists wan, wn_FwMark wan = 1 /\ routed_by (pass_log fiber_routes []) familyV4 wan.
Proof.
  assert (match publication (pass_log fiber_routes []) with
          | Some (_, members) => negb (dropped fiber_steering demo_parsed demo_health (demo_snapshot members) (first_packet 1 "wan0"))
          | None => false end = true) as H by (vm_compute; reflexivity).
  destruct (publication (pass_log fiber_routes [])) as [[tier members]|] eqn:Hp; [|discriminate H].
  apply publication_in in Hp. apply negb_true_iff in H.
  destruct (leaving_traffic_routed fiber_routes [] tier members shared_fiber hashModeSource fiber_section fiber_steering demo_parsed demo_health
    (demo_snapshot members) familyV4 m_fiber (first_packet 1 "wan0") eq_refl eq_refl eq_refl fiber_fit Hp eq_refl v4_family eq_refl eq_refl
    (list_elem_of_here _ _) eq_refl H) as [(wan & _ & Hm & Hr) _].
  exists wan. exact (conj Hm Hr).
Defined.

(** ** What the validation lets through *)

(** Four weights of 2^62 add up to zero in 64 bits: the bound on the slots does not see them. *)
Definition heavy : SteeringConfig :=
  three [member "a" "wan0" None 1 0 (2 ^ 62); member "b" "wan1" None 2 0 (2 ^ 62); member "c" "wan2" None 3 0 (2 ^ 62); member "d" "wan3" None 4 0 (2 ^ 62)].

Lemma weights_wrap : validateConfig heavy = Ok tt /\ maxSlots < total_weight (sc_Members heavy).
Proof. split; vm_compute; reflexivity. Qed.

(** A chain of an earlier priority is deleted by the module's own batch, and the deletion is one
    the watch answers with another reconcile. *)
Lemma own_deletion_requests :
  DelChain steerChainName ∈ stale_chain [mkNftChain (Some steerTableName) steerChainName (Some (-150))] /\
  handleNFTEvent true (Some (mkMonitorEvent MonitorEventTypeDelChain (DataChain (Some (mkNftTable true steerTableName))) None))
  = Some "steering: table change"%string.
Proof. split; [right; left|reflexivity]. Qed.
