(* ===== verification/NatRules.v ===== *)
(** * The ip6 nat rules of the NPT module (gateway/internal/ifmgr/modules/npt/{rules,applier,inspect}.go)

    Typed rules, the nftables expressions they are written as, the decoder that reads the
    rules back, and the transaction that replaces the two chains. *)

From Stdlib Require Import Ascii.
From S2P Require Import Prelude GoStrings Effects NptPolicy Intent BgpFib NetWire NetGraph Firewall Nftables.

Local Open Scope Z_scope.

(** ** Typed rules (rules.go) *)

Inductive natOp := opGuard | opSNAT | opDNAT | opSNATPrefix | opDNATPrefix | opMasquerade.
Inductive ruleChain := chainPostrouting | chainPrerouting.

#[export] Instance natOp_eq_dec : EqDecision natOp.
Proof. solve_decision. Defined.
#[export] Instance ruleChain_eq_dec : EqDecision ruleChain.
Proof. solve_decision. Defined.

Definition natOp_String (o : natOp) : string :=
  match o with
  | opGuard => "guard" | opSNAT => "snat" | opDNAT => "dnat" | opSNATPrefix => "snat-prefix" | opDNATPrefix => "dnat-prefix"
  | opMasquerade => "masquerade"
  end.
Definition ruleChain_String (c : ruleChain) : string := match c with chainPrerouting => "prerouting" | chainPostrouting => "postrouting" end.

Record natRule := mkNatRule {
  nr_Chain : ruleChain;
  nr_Iface : string;
  nr_Match : Prefix;
  nr_Op : natOp;
  nr_ToAddr : Addr;
  nr_ToPfx : Prefix;
}.

#[export] Instance natRule_eq_dec : EqDecision natRule.
Proof. solve_decision. Defined.

Record wanRuleInput := mkWanRuleInput {
  wi_Iface : string;
  wi_External : Prefix;
  wi_OpnsenseEdge : Addr;
  wi_MwanbrEdge : Addr;
  wi_ExtraDNAT : list Addr;
}.

Definition externalHostOne (externalPrefix : Prefix) : Addr := AddrFrom16 (<[15%nat := 1]> (As16 (pfx_addr (Masked externalPrefix)))).

Definition dnat_rule (iface : string) (addr edge : Addr) : natRule :=
  mkNatRule chainPrerouting iface (PrefixFrom addr 128) opDNAT edge no_prefix.

Definition buildWANRules (i : wanRuleInput) : list natRule :=
  let pd1 := externalHostOne (Masked (wi_External i)) in
  let edge128 := PrefixFrom (wi_OpnsenseEdge i) 128 in
  let mwanbr128 := PrefixFrom (wi_MwanbrEdge i) 128 in
  [mkNatRule chainPostrouting (wi_Iface i) edge128 opGuard AddrNone no_prefix;
   mkNatRule chainPostrouting (wi_Iface i) edge128 opSNAT pd1 no_prefix;
   mkNatRule chainPostrouting (wi_Iface i) mwanbr128 opSNAT pd1 no_prefix;
   dnat_rule (wi_Iface i) pd1 (wi_OpnsenseEdge i)] ++
  ((fun addr => dnat_rule (wi_Iface i) addr (wi_OpnsenseEdge i)) <$> wi_ExtraDNAT i).

(** [::/0] is the match. *)
Definition masqueradeRule (iface : string) : natRule :=
  mkNatRule chainPostrouting iface (mkPrefix (Addr6 (repeat 0 16) ""%string) 0) opMasquerade AddrNone no_prefix.

Record desiredRules := mkDesiredRules { dr_Postrouting : list natRule; dr_Prerouting : list natRule }.
Definition no_rules : desiredRules := mkDesiredRules [] [].

Definition add_rule (d : desiredRules) (rule : natRule) : desiredRules :=
  match nr_Chain rule with
  | chainPrerouting => mkDesiredRules (dr_Postrouting d) (dr_Prerouting d ++ [rule])
  | chainPostrouting => mkDesiredRules (dr_Postrouting d ++ [rule]) (dr_Prerouting d)
  end.
Definition desired_add (d : desiredRules) (rules : list natRule) : desiredRules := fold_left add_rule rules d.

(** ** Expressions *)

Inductive NatMetaKey := KeyIIFNAME | KeyOIFNAME | KeyIIF | KeyOIF | KeyMARK | KeyOther.
Inductive PayloadAccess := NetworkLoad | OtherLoad | PayloadWrite.
Inductive NatCtKey := CtKeySTATUS | CtKeyOther.
Inductive NatVerdict := VerdictReturn | VerdictOther.
Inductive NATType := NATTypeSourceNAT | NATTypeDestNAT | NATTypeOther.

#[export] Instance NatMetaKey_eq_dec : EqDecision NatMetaKey.
Proof. solve_decision. Defined.
#[export] Instance PayloadAccess_eq_dec : EqDecision PayloadAccess.
Proof. solve_decision. Defined.
#[export] Instance NatCtKey_eq_dec : EqDecision NatCtKey.
Proof. solve_decision. Defined.
#[export] Instance NatVerdict_eq_dec : EqDecision NatVerdict.
Proof. solve_decision. Defined.
#[export] Instance NATType_eq_dec : EqDecision NATType.
Proof. solve_decision. Defined.
#[export] Instance CmpOp_eq_dec : EqDecision CmpOp.
Proof. solve_decision. Defined.

Record NAT := mkNAT {
  nat_Type : NATType;
  nat_Family : Z;
  nat_RegAddrMin : Z;
  nat_RegAddrMax : Z;
  nat_RegProtoMin : Z;
  nat_RegProtoMax : Z;
  nat_Random : bool;
  nat_FullyRandom : bool;
  nat_Persistent : bool;
  nat_Prefix : bool;
  nat_Specified : bool;
}.

(** A payload expression loads from the network header, loads from elsewhere, or writes. *)
Inductive natExpr :=
| NMeta (key : NatMetaKey) (sourceRegister : bool) (register : Z)
| NCmp (op : CmpOp) (register : Z) (data : list Z)
| NPayload (access : PayloadAccess) (dest offset len : Z)
| NBitwise (source dest len : Z) (mask xor : list Z)
| NCt (key : NatCtKey) (sourceRegister : bool) (register : Z)
| NImmediate (register : Z) (data : list Z)
| NNat (nat : NAT)
| NMasq (toPorts : bool) (regProtoMin regProtoMax : Z)
| NCounter
| NVerdict (kind : NatVerdict)
| NOther.

Definition natTableName : string := "nat".
Definition postroutingChain : string := "postrouting".
Definition preroutingChain : string := "prerouting".
Definition ipsDstNat : Z := 0x20.
Definition ip6SaddrOffset : Z := 8.
Definition ip6DaddrOffset : Z := 24.
Definition ip6AddrLen : Z := 16.
Definition ctStatusLen : Z := 4.

Definition addr_offset (c : ruleChain) : Z := match c with chainPrerouting => ip6DaddrOffset | chainPostrouting => ip6SaddrOffset end.

Definition nat_ifname (name : string) : list Z := name_bytes name ++ [0].

Definition ifaceMatchExprs (rule : natRule) : list natExpr :=
  [NMeta (match nr_Chain rule with chainPrerouting => KeyIIFNAME | chainPostrouting => KeyOIFNAME end) false 1;
   NCmp CmpOpEq 1 (nat_ifname (nr_Iface rule))].

Definition addrMatchExprs (p : Prefix) (offset : Z) : list natExpr :=
  let p := Masked p in
  let load := NPayload NetworkLoad 1 offset ip6AddrLen in
  if pfx_bits p =? 128 then [load; NCmp CmpOpEq 1 (As16 (pfx_addr p))]
  else [load; NBitwise 1 1 ip6AddrLen (CIDRMask (pfx_bits p) 128) (repeat 0 16); NCmp CmpOpEq 1 (As16 (pfx_addr p))].

Definition nat_guardExprs : list natExpr :=
  [NCt CtKeySTATUS false 1; NBitwise 1 1 ctStatusLen (le32 ipsDstNat) (le32 0); NCmp CmpOpNeq 1 (le32 0); NVerdict VerdictReturn].

Definition plain_nat (t : NATType) (max : Z) (prefix : bool) : NAT := mkNAT t NFPROTO_IPV6 1 max 0 0 false false false prefix false.

Definition singleNATExprs (t : NATType) (addr : Addr) : list natExpr := [NImmediate 1 (As16 addr); NNat (plain_nat t 0 false)].

Definition lastAddr (pfx : Prefix) : Addr :=
  AddrFrom16 (zip_with (fun x m => Z.lor x (255 - m)) (As16 (pfx_addr (Masked pfx))) (CIDRMask (pfx_bits pfx) 128)).

Definition prefixNATExprs (t : NATType) (pfx : Prefix) : list natExpr :=
  let pfx := Masked pfx in
  [NImmediate 1 (As16 (pfx_addr pfx)); NImmediate 2 (As16 (lastAddr pfx)); NNat (plain_nat t 2 true)].

Definition actionExprs (rule : natRule) : list natExpr :=
  match nr_Op rule with
  | opGuard => nat_guardExprs
  | opSNAT => singleNATExprs NATTypeSourceNAT (nr_ToAddr rule)
  | opDNAT => singleNATExprs NATTypeDestNAT (nr_ToAddr rule)
  | opSNATPrefix => prefixNATExprs NATTypeSourceNAT (nr_ToPfx rule)
  | opDNATPrefix => prefixNATExprs NATTypeDestNAT (nr_ToPfx rule)
  | opMasquerade => [NMasq false 0 0]
  end.

Definition nat_ruleExprs (rule : natRule) : list natExpr :=
  ifaceMatchExprs rule ++ addrMatchExprs (nr_Match rule) (addr_offset (nr_Chain rule)) ++ actionExprs rule.

(** ** The decoder (inspect.go) *)

Definition allZero (data : list Z) : bool := forallb (fun v => v =? 0) data.

Fixpoint bytes_string (b : list Z) : string := match b with [] => EmptyString | x :: b => String (of_val x) (bytes_string b) end.

(** The bytes before the first zero, and the rest from it on. *)
Fixpoint cut_zero (data : list Z) : option (list Z * list Z) :=
  match data with
  | [] => None
  | x :: rest => if x =? 0 then Some ([], data) else match cut_zero rest with Some (a, b) => Some (x :: a, b) | None => None end
  end.

Definition decodeInterfaceName (data : list Z) : option string :=
  match cut_zero data with
  | Some (name, rest) => if negb (nonempty name) || negb (allZero rest) then None else Some (bytes_string name)
  | None => None
  end.

Definition decodeInterfaceIndex (ifaceName : Z -> option string) (data : list Z) : option string :=
  if negb (length data =? 4)%nat then None
  else let index := word32 data in
       if index =? 0 then None
       else match ifaceName index with Some name => Some name | None => Some ("index " +:+ itoa index)%string end.

Definition chainForMetaKey (key : NatMetaKey) : option (ruleChain * bool) :=
  match key with
  | KeyIIFNAME => Some (chainPrerouting, true)
  | KeyOIFNAME => Some (chainPostrouting, true)
  | KeyIIF => Some (chainPrerouting, false)
  | KeyOIF => Some (chainPostrouting, false)
  | KeyMARK | KeyOther => None
  end.

Definition decodeInterfaceMatch (ifaceName : Z -> option string) (expressions : list natExpr) : option (ruleChain * string) :=
  match expressions with
  | NMeta key source register :: NCmp op register' data :: _ =>
      if source || negb (bool_decide (op = CmpOpEq)) || negb (register' =? register) then None
      else match chainForMetaKey key with
           | None => None
           | Some (chain, byName) =>
               match (if byName then decodeInterfaceName data else decodeInterfaceIndex ifaceName data) with
               | Some iface => Some (chain, iface)
               | None => None
               end
           end
  | _ => None
  end.

Definition knownAddressPayload (access : PayloadAccess) (offset len : Z) (chain : ruleChain) : bool :=
  bool_decide (access = NetworkLoad) && (offset =? addr_offset chain) && (len =? ip6AddrLen).

(** [net.IPMask.Size]: the leading ones of the first byte that is not full, the rest zero. *)
Fixpoint leading_ones (fuel : nat) (v n : Z) : option Z :=
  match fuel with
  | O => None
  | S fuel => if negb (Z.land v 128 =? 0) then leading_ones fuel (v * 2 mod 256) (n + 1) else if v =? 0 then Some n else None
  end.

Fixpoint simpleMaskLength (m : list Z) : option Z :=
  match m with
  | [] => Some 0
  | v :: m =>
      if v =? 255 then (fun n => 8 + n) <$> simpleMaskLength m
      else match leading_ones 9 v 0 with Some n => if allZero m then Some n else None | None => None end
  end.

Definition mask_Size (m : list Z) : Z * Z :=
  match simpleMaskLength m with Some ones => (ones, 8 * Z.of_nat (length m)) | None => (0, 0) end.

Definition decodePrefixMask (source dest len : Z) (mask xor : list Z) (register : Z) : option Z :=
  if negb (source =? register) || negb (dest =? register) || negb (len =? ip6AddrLen) || negb (length xor =? 16)%nat || negb (allZero xor) then None
  else let '(ones, bits) := mask_Size mask in if negb (bits =? 128) || (ones =? 128) then None else Some ones.

Definition decodeIPv6Address (data : list Z) : option Addr := if (length data =? 16)%nat then Some (AddrFrom16 data) else None.

(** The comparison that ends an address match, and the number of expressions read. *)
Definition decode_compare (register bits : Z) (consumed : nat) (e : natExpr) : option (Prefix * nat) :=
  match e with
  | NCmp op register' data =>
      if negb (bool_decide (op = CmpOpEq)) || negb (register' =? register) then None
      else match decodeIPv6Address data with
           | None => None
           | Some address =>
               let prefix := Masked (PrefixFrom address bits) in
               if bool_decide (pfx_addr prefix = address) then Some (prefix, consumed) else None
           end
  | _ => None
  end.

Definition decodeAddressMatch (expressions : list natExpr) (chain : ruleChain) : option (Prefix * nat) :=
  match expressions with
  | NPayload access dest offset len :: e :: rest =>
      if negb (knownAddressPayload access offset len chain) then None
      else match e with
           | NBitwise source dest' len' mask xor =>
               match decodePrefixMask source dest' len' mask xor dest, rest with
               | Some bits, e' :: _ => decode_compare dest bits 3 e'
               | _, _ => None
               end
           | _ => decode_compare dest 128 2 e
           end
  | _ => None
  end.

Definition isGuardAction (expressions : list natExpr) : bool :=
  match expressions with
  | [NCt key source register; NBitwise source' dest len mask xor; NCmp op register' data; NVerdict kind] =>
      negb source && bool_decide (key = CtKeySTATUS) && (source' =? register) && (dest =? register) && (len =? ctStatusLen)
      && bool_decide (mask = le32 ipsDstNat) && bool_decide (xor = le32 0) && bool_decide (op = CmpOpNeq) && (register' =? register)
      && bool_decide (data = le32 0) && bool_decide (kind = VerdictReturn)
  | _ => false
  end.

Definition natHasNoExtraFlags (n : NAT) : bool :=
  negb (nat_Random n) && negb (nat_FullyRandom n) && negb (nat_Persistent n) && negb (nat_Specified n) && (nat_RegProtoMin n =? 0) && (nat_RegProtoMax n =? 0).

Definition decodeNATType (t : NATType) (prefix : bool) : option natOp :=
  match t with
  | NATTypeSourceNAT => Some (if prefix then opSNATPrefix else opSNAT)
  | NATTypeDestNAT => Some (if prefix then opDNATPrefix else opDNAT)
  | NATTypeOther => None
  end.

Definition decoded_action := (natOp * Addr * Prefix)%type.

Definition decodeSingleNAT (expressions : list natExpr) : option decoded_action :=
  match expressions with
  | [NImmediate register data; NNat n] =>
      if negb (nat_Family n =? NFPROTO_IPV6) || nat_Prefix n || negb (nat_RegAddrMin n =? register)
         || (negb (nat_RegAddrMax n =? 0) && negb (nat_RegAddrMax n =? nat_RegAddrMin n)) || negb (natHasNoExtraFlags n) then None
      else match decodeNATType (nat_Type n) false, decodeIPv6Address data with
           | Some op, Some address => Some (op, address, no_prefix)
           | _, _ => None
           end
  | _ => None
  end.

(** The leading bits in which two addresses agree, over the bytes of their difference. *)
Fixpoint high_zeros (bits : list Z) (difference : Z) : Z :=
  match bits with
  | [] => 0
  | bit :: bits => if negb (Z.land difference (2 ^ bit) =? 0) then 0 else 1 + high_zeros bits difference
  end.

Fixpoint common_bits (differences : list Z) : Z :=
  match differences with
  | [] => 0
  | d :: rest => if d =? 0 then 8 + common_bits rest else high_zeros [7; 6; 5; 4; 3; 2; 1; 0] d
  end.

Definition prefixFromRange (minimum maximum : Addr) : option Prefix :=
  let bits := common_bits (zip_with Z.lxor (As16 minimum) (As16 maximum)) in
  let prefix := Masked (PrefixFrom minimum bits) in
  if bool_decide (pfx_addr prefix = minimum) && bool_decide (lastAddr prefix = maximum) then Some prefix else None.

Definition decodePrefixNAT (expressions : list natExpr) : option decoded_action :=
  match expressions with
  | [NImmediate r1 d1; NImmediate r2 d2; NNat n] =>
      if negb (nat_Family n =? NFPROTO_IPV6) || negb (nat_Prefix n) || (r1 =? r2) || negb (nat_RegAddrMin n =? r1) || negb (nat_RegAddrMax n =? r2)
         || negb (natHasNoExtraFlags n) then None
      else match decodeNATType (nat_Type n) true, decodeIPv6Address d1, decodeIPv6Address d2 with
           | Some op, Some minimum, Some maximum =>
               match prefixFromRange minimum maximum with Some prefix => Some (op, AddrNone, prefix) | None => None end
           | _, _, _ => None
           end
  | _ => None
  end.

Definition decodeAction (expressions : list natExpr) : option decoded_action :=
  match expressions with
  | [NMasq _ _ _] => Some (opMasquerade, AddrNone, no_prefix)
  | _ =>
      if isGuardAction expressions then Some (opGuard, AddrNone, no_prefix)
      else if (length expressions =? 2)%nat then decodeSingleNAT expressions
      else if (length expressions =? 3)%nat then decodePrefixNAT expressions
      else None
  end.

Definition decodeRule (ifaceName : Z -> option string) (expressions : list natExpr) : option natRule :=
  match decodeInterfaceMatch ifaceName expressions with
  | None => None
  | Some (chain, iface) =>
      match decodeAddressMatch (drop 2 expressions) chain with
      | None => None
      | Some (match_, consumed) =>
          match decodeAction (drop (2 + consumed) expressions) with
          | None => None
          | Some (op, toAddr, toPfx) => Some (mkNatRule chain iface match_ op toAddr toPfx)
          end
      end
  end.

(** ** Text *)

Section Text.
Context `{PT : !PrefixText}.

Definition formatRule (rule : natRule) : string :=
  let '(ifaceKeyword, addressKeyword) := match nr_Chain rule with chainPrerouting => ("iif", "daddr") | chainPostrouting => ("oif", "saddr") end%string in
  let match_ := if pfx_bits (nr_Match rule) =? 128 then addr_String (pfx_addr (nr_Match rule)) else prefix_String (nr_Match rule) in
  let action := match nr_Op rule with
                | opGuard => "ct status dnat return"
                | opSNAT => "snat to " +:+ addr_String (nr_ToAddr rule)
                | opDNAT => "dnat to " +:+ addr_String (nr_ToAddr rule)
                | opSNATPrefix => "snat prefix to " +:+ prefix_String (nr_ToPfx rule)
                | opDNATPrefix => "dnat prefix to " +:+ prefix_String (nr_ToPfx rule)
                | opMasquerade => "masquerade"
                end%string in
  (ifaceKeyword +:+ " " +:+ Quote (nr_Iface rule) +:+ " ip6 " +:+ addressKeyword +:+ " " +:+ match_ +:+ " " +:+ action)%string.

Definition intended_lines (rules : list natRule) : string :=
  concat_strings ((fun rule => "  " +:+ formatRule rule +:+ String newline "")%string <$> rules).

Definition renderIntended (d : desiredRules) : string :=
  ("chain prerouting:" +:+ String newline (intended_lines (dr_Prerouting d)) +:+
   "chain postrouting:" +:+ String newline (intended_lines (dr_Postrouting d)))%string.

Record RenderedTable := mkRenderedTable { rt_Prerouting : list string; rt_Postrouting : list string; rt_unrecognized : list string }.
Definition emptyRenderedTable : RenderedTable := mkRenderedTable [] [] [].

Definition HasInterface (table : RenderedTable) (iface : string) : bool :=
  existsb (contains ("iif " +:+ Quote iface)%string) (rt_Prerouting table) || existsb (contains ("oif " +:+ Quote iface)%string) (rt_Postrouting table).

Definition interfaceAbsent (table : RenderedTable) (iface : string) : bool :=
  negb (HasInterface table iface) && negb (existsb (fun u => is_empty u || bool_decide (u = iface)) (rt_unrecognized table)).

(** A rule is unreadable when the library returned none for it. *)
Definition render_rule (ifaceName : Z -> option string) (rule : option (list natExpr)) : string :=
  match rule ≫= decodeRule ifaceName with
  | Some decoded => formatRule decoded
  | None => ("# unrecognized rule (" +:+ itoa (Z.of_nat (length (default [] rule))) +:+ " exprs)")%string
  end.
Definition renderRules (ifaceName : Z -> option string) (rules : list (option (list natExpr))) : list string := render_rule ifaceName <$> rules.

Definition unrecognized_iface (ifaceName : Z -> option string) (rule : option (list natExpr)) : option string :=
  match rule with
  | None => Some ""%string
  | Some es => match decodeRule ifaceName es with
               | Some _ => None
               | None => Some (from_option snd ""%string (decodeInterfaceMatch ifaceName es))
               end
  end.

Record nft_read_error := mkNftReadError { nre_text : error; nre_missing : bool }.

(** [isNFTObjectMissing] *)
Definition isNFTObjectMissing (e : nft_read_error) : bool :=
  nre_missing e || contains "no such file or directory" (ToLower (nre_text e)) || contains "file does not exist" (ToLower (nre_text e))
  || contains "enoent" (ToLower (nre_text e)).

(** The rules of a chain as the library returned them. *)
Definition chain_read := (list (option (list natExpr)) + nft_read_error)%type.

Definition readChain (ifaceName : Z -> option string) (name : string) (read : chain_read) : res (list string * list string) :=
  match read with
  | inr e => if isNFTObjectMissing e then Ok ([], []) else Err ("get rules for " +:+ name +:+ ": " +:+ nre_text e)%string
  | inl rules => Ok (renderRules ifaceName rules, omap (unrecognized_iface ifaceName) rules)
  end.
(** ** Reading (inspect.go, legacy_transition.go, edge_release.go) *)

Class NatReader (W : Type) := {
  nat_ctx_err : W -> option error;
  nat_readConn : W -> option error * W;
  GetRules : string -> W -> chain_read * W;
  ifaceNameByIndex : W -> Z -> option string;
}.

Section Read.
Context {W : Type} `{NR : !NatReader W}.

Definition nat_renderTable : M W (res RenderedTable) :=
  canceled ← gets nat_ctx_err;
  match canceled with
  | Some e => mret (Err ("inspect ip6 nat table: " +:+ e)%string)
  | None =>
      failed ← nat_readConn;
      match failed with
      | Some e => mret (Err ("open nftables read connection: " +:+ e)%string)
      | None =>
          pre ← GetRules preroutingChain;
          names ← gets ifaceNameByIndex;
          match readChain names preroutingChain pre with
          | Err e => mret (Err e)
          | Ok (prerouting, unknownPre) =>
              canceled ← gets nat_ctx_err;
              match canceled with
              | Some e => mret (Err ("inspect ip6 nat table: " +:+ e)%string)
              | None =>
                  post ← GetRules postroutingChain;
                  names ← gets ifaceNameByIndex;
                  mret match readChain names postroutingChain post with
                       | Err e => Err e
                       | Ok (postrouting, unknownPost) => Ok (mkRenderedTable prerouting postrouting (unknownPre ++ unknownPost))
                       end
              end
          end
      end
  end.

(** Whether a rule of the chain keeps the edge address in use; [None]: it does not. *)
Definition rule_uses_edge (names : Z -> option string) (name iface : string) (address : Addr) (rule : option (list natExpr)) : option error :=
  match rule with
  | None => Some ("managed NPT chain " +:+ name +:+ " contains an unreadable rule")%string
  | Some es =>
      if match decodeInterfaceMatch names es with Some (_, i) => negb (bool_decide (i = iface)) | None => false end then None
      else match decodeRule names es with
           | None => Some ("managed NPT chain " +:+ name +:+ " contains an unrecognized relevant rule")%string
           | Some d =>
               if Contains (nr_Match d) address || bool_decide (nr_ToAddr d = address) || Contains (nr_ToPfx d) address
               then Some ("managed NPT chain " +:+ name +:+ " still uses edge " +:+ addr_String address)%string
               else None
           end
  end.

Definition edge_chain (iface : string) (address : Addr) (found : option error) (name : string) : M W (option error) :=
  match found with
  | Some e => mret (Some e)
  | None =>
      read ← GetRules name;
      names ← gets ifaceNameByIndex;
      mret match read with
           | inr e => if isNFTObjectMissing e then None else Some ("inspect managed NPT chain " +:+ name +:+ ": " +:+ nre_text e)%string
           | inl rules => first_error (rule_uses_edge names name iface address) rules
           end
  end.

(** [None]: no rule of the two chains uses the edge. *)
Definition verifyNFTEdgeUnused (iface : string) (address : Addr) : M W (option error) :=
  canceled ← gets nat_ctx_err;
  match canceled with
  | Some e => mret (Some ("inspect NPT edge translation: " +:+ e)%string)
  | None =>
      failed ← nat_readConn;
      match failed with
      | Some e => mret (Some ("open NPT edge translation inspection: " +:+ e)%string)
      | None => foldM (edge_chain iface address) None [preroutingChain; postroutingChain]
      end
  end.

(** ** Reverse DNAT (applier.go) *)

Definition reverse_dnat (names : Z -> option string) (iface : string) (local : list Addr) (rule : option (list natExpr)) : option Addr :=
  match rule ≫= decodeRule names with
  | Some d =>
      if bool_decide (nr_Chain d = chainPrerouting) && bool_decide (nr_Iface d = iface) && bool_decide (nr_Op d = opDNAT)
         && (pfx_bits (nr_Match d) =? 128) && bool_decide (pfx_addr (nr_Match d) ∈ local)
      then Some (pfx_addr (nr_Match d)) else None
  | None => None
  end.

(** [DelRule] takes a rule by its position in what [GetRules] returned. *)
Definition remove_rule (DelRule : nat -> W -> option error * W) (names : Z -> option string) (iface : string) (local : list Addr)
    (acc : option error * bool) (entry : nat * option (list natExpr)) : M W (option error * bool) :=
  match acc.1, reverse_dnat names iface local entry.2 with
  | None, Some address =>
      failed ← DelRule entry.1;
      mret match failed with
           | Some e => (Some ("delete reverse DNAT for " +:+ addr_String address +:+ " on " +:+ iface +:+ ": " +:+ e)%string, acc.2)
           | None => (None, true)
           end
  | _, _ => mret acc
  end.

Definition removeReverseDNATRules (DelRule : nat -> W -> option error * W) (Flush : W -> option error * W) (iface : string) (local : list Addr) :
    M W (option error) :=
  canceled ← gets nat_ctx_err;
  match canceled with
  | Some e => mret (Some ("remove reverse DNAT: " +:+ e)%string)
  | None =>
      read ← GetRules preroutingChain;
      names ← gets ifaceNameByIndex;
      match read with
      | inr e => mret (if isNFTObjectMissing e then None else Some ("read NPT prerouting rules: " +:+ nre_text e)%string)
      | inl rules =>
          acc ← foldM (remove_rule DelRule names iface local) (None, false) (imap pair rules);
          match acc with
          | (Some e, _) => mret (Some e)
          | (None, false) => mret None
          | (None, true) =>
              failed ← Flush;
              mret match failed with Some e => Some ("commit reverse DNAT removal: " +:+ e)%string | None => None end
          end
      end
  end.

Definition legacy_rule (names : Z -> option string) (name : string) (rule : option (list natExpr)) : res natRule :=
  match rule with
  | None => Err "unreadable legacy NPT rule"
  | Some es => match decodeRule names es with Some d => Ok d | None => Err ("unrecognized legacy NPT rule in " +:+ name)%string end
  end.

Definition legacy_chain (installed : res (list natRule)) (name : string) : M W (res (list natRule)) :=
  match installed with
  | Err e => mret (Err e)
  | Ok installed =>
      read ← GetRules name;
      names ← gets ifaceNameByIndex;
      mret match read with
           | inr e => Err ("read legacy NPT chain " +:+ name +:+ ": " +:+ nre_text e)%string
           | inl rules => fold_res (fun acc rule => (d <-? legacy_rule names name rule ;; Ok (acc ++ [d]))%go) installed rules
           end
  end.

Definition ReadLegacyNPTRules : M W (res (list natRule)) :=
  failed ← nat_readConn;
  match failed with
  | Some e => mret (Err ("open legacy NPT rules: " +:+ e)%string)
  | None => foldM legacy_chain (Ok []) [preroutingChain; postroutingChain]
  end.
End Read.
End Text.

(** ** The transaction (applier.go) *)

(** A base chain: its type, hook, priority and policy are one value [Some kind] when the kernel
    reports them all. *)
Record NatChain := mkNatChain { ncn_Table : option string; ncn_Name : string; ncn_Kind : option (string * string * Z * bool) }.

Inductive natop :=
| NatAddTable
| NatAddChain (name : string)
| NatFlushChain (name : string)
| NatAddRule (chain : string) (exprs : list natExpr).

(** The kind the module requires: type, hook, priority, and an accepting policy. *)
Definition nat_kind (name : string) : string * string * Z * bool :=
  if bool_decide (name = preroutingChain) then ("nat", "prerouting", -100, true)%string else ("nat", "postrouting", 100, true)%string.

Definition sameNATChain (current : NatChain) (wanted : string) : bool := bool_decide (ncn_Kind current = Some (nat_kind wanted)).

Definition ensure_chain (existing : list NatChain) (ops : list natop) (wanted : string) : res (list natop) :=
  match List.find (fun c => bool_decide (ncn_Table c = Some natTableName) && bool_decide (ncn_Name c = wanted)) existing with
  | Some current =>
      if sameNATChain current wanted then Ok ops
      else Err ("ip6 nat chain " +:+ wanted +:+ " has incompatible type, hook, priority, or policy")%string
  | None => Ok (ops ++ [NatAddChain wanted])
  end.

Class NatConn (W : Type) := {
  nat_newConn : W -> option error * W;
  ListTables : W -> res (list string) * W;
  nat_ListChains : W -> res (list NatChain) * W;
  nat_Flush : list natop -> W -> option error * W;
}.

Section Apply.
Context {W : Type} `{NC : !NatConn W}.

Definition ensureNATStructure : M W (res (list natop)) :=
  tables ← ListTables;
  match tables with
  | Err e => mret (Err ("list IPv6 tables: " +:+ e))
  | Ok tables =>
      let ops := if bool_decide (natTableName ∈ tables) then [] else [NatAddTable] in
      existing ← nat_ListChains;
      mret match existing with
           | Err e => Err ("list IPv6 chains: " +:+ e)
           | Ok existing => fold_res (ensure_chain existing) ops [preroutingChain; postroutingChain]
           end
  end.

Definition chain_ops (chain : string) (rules : list natRule) : list natop := NatFlushChain chain :: (NatAddRule chain ∘ nat_ruleExprs <$> rules).

(** The outcome, and the batch that was committed. *)
Definition nat_Apply (desired : desiredRules) : M W (option error * list natop) :=
  failed ← nat_newConn;
  match failed with
  | Some e => mret (Some e, [])
  | None =>
      structure ← ensureNATStructure;
      match structure with
      | Err e => mret (Some e, [])
      | Ok ops =>
          let batch := ops ++ chain_ops postroutingChain (dr_Postrouting desired) ++ chain_ops preroutingChain (dr_Prerouting desired) in
          failed ← nat_Flush batch;
          mret match failed with Some e => (Some ("nft flush: " +:+ e)%string, []) | None => (None, batch) end
      end
  end.
End Apply.
