(* ===== verification/NatExec.v ===== *)
(** * The NPT module's nat rules: reading them back, and what they do to a packet

    First that the expressions of a rule read back as the rule, then the documented meaning of
    the nat expressions over the registers of [Nftables], the meaning of a typed rule, and what
    the rules of a set of WANs do: the gateway's own addresses are translated at the edge,
    replies to translated destinations are spared, and one WAN's rules never touch another's
    traffic. *)

From Stdlib Require Import Ascii.
From S2P Require Import Prelude GoStrings Effects NptPolicy Intent BgpFib NetWire Firewall Nftables NatRules.

Local Open Scope Z_scope.

(** ** Masks *)

Definition host_masks (bits : Z) : list Z := (fun m => 255 - m) <$> CIDRMask bits 128.

Lemma mask_enumeration :
  forallb (fun n => bool_decide (simpleMaskLength (CIDRMask (Z.of_nat n) 128) = Some (Z.of_nat n))
                    && (common_bits (host_masks (Z.of_nat n)) =? Z.of_nat n)
                    && (length (CIDRMask (Z.of_nat n) 128) =? 16)%nat) (seq 0 129) = true.
Proof. vm_compute. reflexivity. Qed.

Lemma masks_at bits : 0 <= bits <= 128 ->
  simpleMaskLength (CIDRMask bits 128) = Some bits /\ common_bits (host_masks bits) = bits /\ length (CIDRMask bits 128) = 16%nat.
Proof.
  intros H. pose proof mask_enumeration as E. rewrite forallb_forall in E. specialize (E (Z.to_nat bits)).
  rewrite in_seq, Z2Nat.id in E by lia. specialize (E ltac:(lia)). apply andb_true_iff in E as [E E3]. apply andb_true_iff in E as [E1 E2].
  split_and!; [by apply bool_decide_eq_true in E1|by apply Z.eqb_eq|by apply Nat.eqb_eq].
Qed.

Lemma byte_mask_host bits i : Z.land (byte_mask bits i) (255 - byte_mask bits i) = 0.
Proof.
  unfold byte_mask, bits_in. set (k := Z.max 0 (Z.min 8 _)). assert (0 <= k <= 8) as Hk by lia. clearbody k.
  destruct (decide (k = 8)) as [->|]; [done|]. assert (k ∈ [0; 1; 2; 3; 4; 5; 6; 7]) as Hin by (rewrite !elem_of_cons; lia).
  repeat (apply elem_of_cons in Hin as [->|Hin]; [done|]). by apply elem_of_nil in Hin.
Qed.

Lemma CIDRMask_masks bits : 0 <= bits <= 128 -> CIDRMask bits 128 = byte_mask bits <$> seq 0 16.
Proof. intros H. unfold CIDRMask. by rewrite (proj2 (Z.ltb_ge _ _)), (proj2 (Z.ltb_ge _ _)) by lia. Qed.

(** The bits in which the first and the last address of a prefix differ are its host bits. *)
Lemma range_difference bits b : 0 <= bits <= 128 -> length b = 16%nat ->
  zip_with Z.lxor (mask_bytes bits b) (zip_with (fun x m => Z.lor x (255 - m)) (mask_bytes bits b) (CIDRMask bits 128)) = host_masks bits.
Proof.
  intros Hb Hl. unfold host_masks. rewrite CIDRMask_masks by done. apply list_eq. intros i.
  rewrite !lookup_zip_with, !list_lookup_fmap. unfold mask_bytes. rewrite list_lookup_imap.
  destruct (decide (i < 16)%nat) as [Hi|Hi].
  - rewrite lookup_seq_lt by done. destruct (lookup_lt_is_Some_2 b i) as [x ->]; [lia|]. cbn. f_equal.
    set (a := Z.land x (byte_mask bits i)). set (h := 255 - byte_mask bits i).
    assert (Z.land a h = 0) as Ha by (unfold a, h; by rewrite <- Z.land_assoc, byte_mask_host, Z.land_0_r).
    rewrite <- Z.lxor_lor, <- Z.lxor_assoc, Z.lxor_nilpotent by done. apply Z.lxor_0_l.
  - rewrite (lookup_ge_None_2 (seq 0 16)) by (rewrite length_seq; lia). by destruct (b !! i).
Qed.

(** ** Well-formed rules *)

Definition addr6 (a : Addr) : Prop := exists b, a = AddrFrom16 b /\ length b = 16%nat.
Definition prefix6 (p : Prefix) : Prop := addr6 (pfx_addr p) /\ 0 <= pfx_bits p <= 128 /\ Masked p = p.

Definition wf_target (rule : natRule) : Prop :=
  match nr_Op rule with
  | opGuard | opMasquerade => nr_ToAddr rule = AddrNone /\ nr_ToPfx rule = no_prefix
  | opSNAT | opDNAT => addr6 (nr_ToAddr rule) /\ nr_ToPfx rule = no_prefix
  | opSNATPrefix | opDNATPrefix => nr_ToAddr rule = AddrNone /\ prefix6 (nr_ToPfx rule)
  end.

Record wf_nat_rule (rule : natRule) : Prop := {
  nwr_iface : nr_Iface rule <> ""%string;
  nwr_name : plain_name (nr_Iface rule);
  nwr_match : prefix6 (nr_Match rule);
  nwr_target : wf_target rule;
}.

(** A rule as a kernel returns it: the name may be padded with zeros, and a NAT of one address
    may have its upper register set to the lower one. *)
Definition echo_nat (ranged : bool) (e : natExpr) : natExpr :=
  match e with
  | NNat n => NNat (mkNAT (nat_Type n) (nat_Family n) (nat_RegAddrMin n)
                      (if ranged && (nat_RegAddrMax n =? 0) then nat_RegAddrMin n else nat_RegAddrMax n)
                      (nat_RegProtoMin n) (nat_RegProtoMax n) (nat_Random n) (nat_FullyRandom n) (nat_Persistent n) (nat_Prefix n) (nat_Specified n))
  | _ => e
  end.
Definition echo (padding : nat) (ranged : bool) (rule : natRule) : list natExpr :=
  [NMeta (match nr_Chain rule with chainPrerouting => KeyIIFNAME | chainPostrouting => KeyOIFNAME end) false 1;
   NCmp CmpOpEq 1 (nat_ifname (nr_Iface rule) ++ repeat 0 padding)]
  ++ addrMatchExprs (nr_Match rule) (addr_offset (nr_Chain rule)) ++ (echo_nat ranged <$> actionExprs rule).

(** ** The interface match *)

Lemma cut_zero_app a b : Forall (fun x => x <> 0) a -> cut_zero (a ++ 0 :: b) = Some (a, 0 :: b).
Proof. induction 1 as [|x a Hx _ IH]; cbn; [done|]. rewrite (proj2 (Z.eqb_neq x 0)) by done. by rewrite IH. Qed.

Lemma bytes_string_name s : bytes_string (name_bytes s) = s.
Proof. induction s as [|c s IH]; cbn; [done|]. rewrite IH. unfold of_val, byte_val. by rewrite N2Z.id, ascii_N_embedding. Qed.

Lemma allZero_zeros n : allZero (repeat 0 n) = true.
Proof. induction n as [|n IH]; cbn; [done|]. exact IH. Qed.

Lemma decode_name s n : s <> ""%string -> plain_name s -> decodeInterfaceName (nat_ifname s ++ repeat 0 n) = Some s.
Proof.
  intros Hs [Hn _]. unfold decodeInterfaceName, nat_ifname. rewrite <- app_assoc. cbn [app].
  rewrite cut_zero_app by done. change (0 :: repeat 0 n) with (repeat 0 (S n)).
  rewrite allZero_zeros, bytes_string_name. by destruct s.
Qed.

Lemma decode_interface names padding ranged rule : wf_nat_rule rule ->
  decodeInterfaceMatch names (echo padding ranged rule) = Some (nr_Chain rule, nr_Iface rule).
Proof. intros [Hi Hn _ _]. unfold echo. cbn. destruct (nr_Chain rule); cbn; by rewrite decode_name. Qed.

(** ** The address match *)

Lemma Masked_fix a bits : addr6 a -> Masked (mkPrefix a bits) = mkPrefix a bits -> 0 <= bits <= 128 -> Masked (PrefixFrom a bits) = mkPrefix a bits.
Proof.
  intros (b & -> & _) Hm Hb. unfold PrefixFrom, BitLen. cbn -[Masked]. rewrite !(proj2 (Z.leb_le _ _)) by lia. done.
Qed.

Lemma As16_6 a : addr6 a -> length (As16 a) = 16%nat /\ AddrFrom16 (As16 a) = a.
Proof. by intros (b & -> & Hl). Qed.

Lemma decode_address a : addr6 a -> decodeIPv6Address (As16 a) = Some a.
Proof. intros [Hl Hr]%As16_6. unfold decodeIPv6Address. by rewrite Hl, Hr. Qed.

Lemma decode_compare_ok p consumed : prefix6 p -> decode_compare 1 (pfx_bits p) consumed (NCmp CmpOpEq 1 (As16 (pfx_addr p))) = Some (p, consumed).
Proof.
  destruct p as [a bits]. intros (Ha & Hb & Hm). unfold decode_compare. cbn [pfx_addr pfx_bits] in *.
  rewrite decode_address, Masked_fix by done. rewrite !bool_decide_true by done. done.
Qed.

Lemma decode_mask bits : 0 <= bits < 128 -> decodePrefixMask 1 1 ip6AddrLen (CIDRMask bits 128) (repeat 0 16) 1 = Some bits.
Proof.
  intros H. unfold decodePrefixMask. cbn [Z.eqb Pos.eqb]. destruct (masks_at bits) as (Hs & _ & Hl); [lia|].
  change (negb (1 =? 1) || negb (1 =? 1) || negb (ip6AddrLen =? ip6AddrLen) || negb (length (repeat 0 16) =? 16)%nat || negb (allZero (repeat 0 16))) with false.
  unfold mask_Size. rewrite Hs, Hl. cbn [negb orb]. by rewrite (proj2 (Z.eqb_neq bits 128)) by lia.
Qed.

Lemma decode_match p chain rest : prefix6 p ->
  let exprs := addrMatchExprs p (addr_offset chain) in decodeAddressMatch (exprs ++ rest) chain = Some (p, length exprs).
Proof.
  intros Hp. pose proof Hp as (Ha & Hb & Hm). unfold addrMatchExprs. rewrite Hm.
  assert (knownAddressPayload NetworkLoad (addr_offset chain) ip6AddrLen chain = true) as Hk by by destruct chain.
  destruct (Z.eqb_spec (pfx_bits p) 128) as [E|E]; cbn [app decodeAddressMatch]; rewrite Hk; cbn [negb].
  - rewrite <- E. by apply decode_compare_ok.
  - rewrite decode_mask by lia. by apply decode_compare_ok.
Qed.

(** ** The action *)

Lemma decode_range p : prefix6 p -> prefixFromRange (pfx_addr p) (lastAddr p) = Some p.
Proof.
  destruct p as [a bits]. intros (Ha & Hb & Hm). unfold prefixFromRange. cbn [pfx_addr pfx_bits] in *. pose proof Ha as (b & -> & Hl).
  assert (mask_bytes bits b = b) as Hmask.
  { unfold Masked, IsValid, AddrFrom16 in Hm. cbn [pfx_bits pfx_addr] in Hm, Hb. rewrite (proj2 (Z.leb_le 0 bits)) in Hm by lia. congruence. }
  assert (common_bits (zip_with Z.lxor (As16 (AddrFrom16 b)) (As16 (lastAddr (mkPrefix (AddrFrom16 b) bits)))) = bits) as Hc.
  { unfold lastAddr. rewrite Hm. cbn [As16 AddrFrom16 pfx_addr pfx_bits]. rewrite <- Hmask at 1 2. rewrite range_difference by done. by apply masks_at. }
  cbn [pfx_addr]. rewrite Hc, Masked_fix by done. by rewrite !bool_decide_true by done.
Qed.

Lemma lastAddr_6 p : prefix6 p -> addr6 (lastAddr p).
Proof.
  intros (Ha & Hb & Hm). unfold lastAddr. rewrite Hm. eexists; split; [done|].
  by rewrite length_zip_with, (proj1 (As16_6 _ Ha)), (proj2 (proj2 (masks_at _ Hb))).
Qed.

Lemma decode_action ranged rule : wf_nat_rule rule ->
  decodeAction (echo_nat ranged <$> actionExprs rule) = Some (nr_Op rule, nr_ToAddr rule, nr_ToPfx rule).
Proof.
  intros [_ _ _ Ht]. unfold wf_target in Ht. unfold actionExprs.
  destruct (nr_Op rule); destruct Ht as [Ha Hp]; rewrite ?Ha, ?Hp; try reflexivity; try (destruct ranged; cbn; by rewrite decode_address).
  all: unfold prefixNATExprs; rewrite (proj2 (proj2 Hp)); cbn -[prefixFromRange lastAddr decodeIPv6Address];
    rewrite andb_false_r; cbn -[prefixFromRange lastAddr decodeIPv6Address];
    rewrite !decode_address by (by apply Hp || by apply lastAddr_6);
    by rewrite decode_range.
Qed.

(** ** The rule *)

Lemma rule_reads_back names padding ranged rule : wf_nat_rule rule -> decodeRule names (echo padding ranged rule) = Some rule.
Proof.
  intros Hwf. unfold decodeRule. rewrite decode_interface by done. unfold echo at 1. cbn [app skipn]. rewrite drop_0.
  rewrite decode_match by apply Hwf. unfold echo. cbn [app skipn plus]. rewrite drop_app_length, decode_action by done. by destruct rule.
Qed.

(** ** What the NPT module's nat chains do to a packet

    The documented meaning of the nat expressions over the registers of [Nftables], the meaning
    of a typed rule, that the expressions of a rule have it, and what the rules of a set of WANs
    do: the gateway's own addresses are translated at the edge, replies to translated
    destinations are spared, and one WAN's rules never touch another's traffic. *)

(** ** The machine *)

(** The first packet of a flow in a chain of the ip6 nat table. *)
Record nat_packet := mkNatPacket {
  np_iif : string;
  np_oif : string;
  np_iifindex : Z;
  np_oifindex : Z;
  np_header : list Z;
  np_status : Z;
}.

Inductive nat_result := Untranslated | Translated (t : NATType) (first last : list Z) (netmap : bool) | Masqueraded.

#[export] Instance nat_result_eq_dec : EqDecision nat_result.
Proof. solve_decision. Defined.

(** [NatUnknown]: an expression whose meaning is not stated here. *)
Inductive nat_step := NatContinue (r : registers) | NatBreak | NatDone (result : nat_result) | NatUnknown.
Inductive nat_run := NatNext (r : registers) | NatEnd (result : nat_result) | NatStuck.

Definition nat_meta (key : NatMetaKey) (p : nat_packet) : option (list Z) :=
  match key with
  | KeyIIFNAME => Some (name_field (np_iif p))
  | KeyOIFNAME => Some (name_field (np_oif p))
  | KeyIIF => Some (le32 (np_iifindex p))
  | KeyOIF => Some (le32 (np_oifindex p))
  | KeyMARK | KeyOther => None
  end.

Definition nat_exec (e : natExpr) (r : registers) (p : nat_packet) : nat_step :=
  match e with
  | NMeta key false register => match nat_meta key p with Some b => NatContinue (reg_write register b r) | None => NatUnknown end
  | NCmp op register data => if cmp_holds op (reg_read register (length data) r) data then NatContinue r else NatBreak
  | NPayload NetworkLoad dest offset len =>
      if offset + len <=? Z.of_nat (length (np_header p))
      then NatContinue (reg_write dest (take (Z.to_nat len) (drop (Z.to_nat offset) (np_header p))) r)
      else NatBreak
  | NBitwise source dest len mask xor =>
      NatContinue (reg_write dest (zip_with Z.lxor (zip_with Z.land (reg_read source (Z.to_nat len) r) mask) xor) r)
  | NCt CtKeySTATUS false register => NatContinue (reg_write register (le32 (np_status p)) r)
  | NImmediate register data => NatContinue (reg_write register data r)
  | NNat n =>
      NatDone (Translated (nat_Type n) (reg_read (nat_RegAddrMin n) 16 r)
                 (reg_read (if nat_RegAddrMax n =? 0 then nat_RegAddrMin n else nat_RegAddrMax n) 16 r) (nat_Prefix n))
  | NMasq _ _ _ => NatDone Masqueraded
  | NCounter => NatContinue r
  | NVerdict VerdictReturn => NatDone Untranslated
  | _ => NatUnknown
  end.

Fixpoint run_nat_rule (es : list natExpr) (r : registers) (p : nat_packet) : nat_run :=
  match es with
  | [] => NatNext r
  | e :: es =>
      match nat_exec e r p with
      | NatContinue r' => run_nat_rule es r' p
      | NatBreak => NatNext r
      | NatDone result => NatEnd result
      | NatUnknown => NatStuck
      end
  end.

(** A base chain that ends without a verdict accepts the packet as it is. *)
Fixpoint run_nat_chain (rules : list (list natExpr)) (r : registers) (p : nat_packet) : option nat_result :=
  match rules with
  | [] => Some Untranslated
  | rule :: rules =>
      match run_nat_rule rule r p with NatNext r' => run_nat_chain rules r' p | NatEnd result => Some result | NatStuck => None end
  end.

(** ** Typed rules *)

Definition nat_address (c : ruleChain) (p : nat_packet) : Addr := AddrFrom16 (take 16 (drop (Z.to_nat (addr_offset c)) (np_header p))).
Definition nat_iface (c : ruleChain) (p : nat_packet) : string := match c with chainPrerouting => np_iif p | chainPostrouting => np_oif p end.

Definition nat_matches (rule : natRule) (p : nat_packet) : bool :=
  bool_decide (nat_iface (nr_Chain rule) p = nr_Iface rule) && Contains (nr_Match rule) (nat_address (nr_Chain rule) p).

(** The flow's destination was translated. *)
Definition was_dnat (p : nat_packet) : bool := negb (Z.land (np_status p) ipsDstNat =? 0).

Definition nat_effect (rule : natRule) (p : nat_packet) : option nat_result :=
  let single t := Some (Translated t (As16 (nr_ToAddr rule)) (As16 (nr_ToAddr rule)) false) in
  let netmap t := Some (Translated t (As16 (pfx_addr (nr_ToPfx rule))) (As16 (lastAddr (nr_ToPfx rule))) true) in
  match nr_Op rule with
  | opGuard => if was_dnat p then Some Untranslated else None
  | opSNAT => single NATTypeSourceNAT
  | opDNAT => single NATTypeDestNAT
  | opSNATPrefix => netmap NATTypeSourceNAT
  | opDNATPrefix => netmap NATTypeDestNAT
  | opMasquerade => Some Masqueraded
  end.

Definition rule_verdict (p : nat_packet) (rule : natRule) : option nat_result := if nat_matches rule p then nat_effect rule p else None.

Fixpoint first_verdict (p : nat_packet) (rules : list natRule) : option nat_result :=
  match rules with
  | [] => None
  | rule :: rules => match rule_verdict p rule with Some v => Some v | None => first_verdict p rules end
  end.
Definition translate (rules : list natRule) (p : nat_packet) : nat_result := default Untranslated (first_verdict p rules).

(** ** Rules have their meaning *)

Record wf_nat_packet (p : nat_packet) : Prop := {
  wnp_iif : plain_name (np_iif p);
  wnp_oif : plain_name (np_oif p);
  wnp_header : Forall is_byte (np_header p) /\ (40 <= length (np_header p))%nat;
  wnp_status : 0 <= np_status p < 2 ^ 32;
}.

Definition nat_tests (es : list natExpr) (test : nat_packet -> bool) : Prop := forall rest r p, wf_nat_packet p ->
  exists r', run_nat_rule (es ++ rest) r p = if test p then run_nat_rule rest r' p else NatNext r'.

Lemma nat_tests_app es es' f g : nat_tests es f -> nat_tests es' g -> nat_tests (es ++ es') (fun p => f p && g p).
Proof.
  intros H1 H2 rest r p Hp. rewrite <- app_assoc. destruct (H1 (es' ++ rest) r p Hp) as [r1 ->].
  destruct (f p); cbn; [|by exists r1]. by apply H2.
Qed.

Lemma nat_tests_iface rule : plain_name (nr_Iface rule) ->
  nat_tests (ifaceMatchExprs rule) (fun p => bool_decide (nat_iface (nr_Chain rule) p = nr_Iface rule)).
Proof.
  intros Hn rest r p Hp. assert (plain_name (nat_iface (nr_Chain rule) p)) as Hi by (destruct (nr_Chain rule); apply Hp).
  assert (run_nat_rule (ifaceMatchExprs rule ++ rest) r p
          = run_nat_rule (NCmp CmpOpEq 1 (nat_ifname (nr_Iface rule)) :: rest) (reg_write 1 (name_field (nat_iface (nr_Chain rule) p)) r) p) as ->
    by (unfold ifaceMatchExprs; by destruct (nr_Chain rule)).
  cbn [run_nat_rule nat_exec]. rewrite reg_read_take.
  - cbn [cmp_holds]. unfold nat_ifname. rewrite length_app. change (length [0]) with 1%nat.
    rewrite (bool_decide_ext _ _ (name_field_match _ _ Hi Hn)). case_bool_decide; by eexists.
  - unfold nat_ifname, name_field. rewrite length_take, !length_app, repeat_length. change (length [0]) with 1%nat. destruct Hn. lia.
Qed.

Lemma Contains6 p b : prefix6 p -> Contains p (AddrFrom16 b) = bool_decide (mask_bytes (pfx_bits p) b = As16 (pfx_addr p)).
Proof.
  destruct p as [a bits]. intros ((c & Ha & Hl) & Hb & Hm). cbn [pfx_addr pfx_bits] in Ha, Hb. subst a. unfold Contains, IsValid.
  unfold Masked, IsValid in Hm. cbn [pfx_bits pfx_addr AddrFrom16 As16 addr_bytes has_zone BitLen] in *. rewrite (proj2 (Z.leb_le 0 bits)) in Hm |- * by lia.
  injection Hm as ->. cbn. by apply bool_decide_ext.
Qed.

Lemma nat_tests_addr m c : prefix6 m -> nat_tests (addrMatchExprs m (addr_offset c)) (fun p => Contains m (nat_address c p)).
Proof.
  intros Hm rest r p [_ _ [Hb Hl] _]. pose proof Hm as (Ha & Hbits & Hfix). destruct (As16_6 _ Ha) as [La _].
  unfold nat_address. rewrite Contains6 by done. set (src := take 16 (drop (Z.to_nat (addr_offset c)) (np_header p))).
  assert (0 <= addr_offset c <= 24) as Hoff by (destruct c; unfold addr_offset, ip6DaddrOffset, ip6SaddrOffset; lia).
  assert (length src = 16%nat) as Hs by (unfold src; rewrite length_take, length_drop; lia).
  assert (Forall is_byte src) as Hbs by by apply Forall_take, Forall_drop.
  assert (forall r rest, run_nat_rule (NPayload NetworkLoad 1 (addr_offset c) ip6AddrLen :: rest) r p = run_nat_rule rest (reg_write 1 src r) p) as Hload.
  { intros r' rest'. cbn [run_nat_rule nat_exec]. rewrite (proj2 (Z.leb_le _ _)) by (unfold ip6AddrLen; lia). done. }
  unfold addrMatchExprs. rewrite Hfix. destruct (Z.eqb_spec (pfx_bits m) 128) as [E|E]; cbn [app]; rewrite Hload; cbn [run_nat_rule nat_exec].
  - rewrite La, reg_read_all by done. cbn [cmp_holds]. rewrite (mask_full (pfx_bits m) src) by (rewrite ?Hs, ?E; done). case_bool_decide; by eexists.
  - change (Z.to_nat ip6AddrLen) with 16%nat. rewrite (reg_read_all 1 src) by done. rewrite CIDRMask_masks, land_masks by (done || lia).
    replace (repeat 0 16) with (repeat 0 (length (mask_bytes (pfx_bits m) src))) by (unfold mask_bytes; by rewrite length_imap, Hs).
    rewrite xor_zeros, reg_read_all by (unfold mask_bytes; by rewrite length_imap, La). cbn [cmp_holds]. case_bool_decide; by eexists.
Qed.

Lemma nat_tests_guard rest r p : wf_nat_packet p ->
  exists r', run_nat_rule (nat_guardExprs ++ rest) r p = if was_dnat p then NatEnd Untranslated else NatNext r'.
Proof.
  intros [_ _ _ Hs]. unfold nat_guardExprs. cbn [app run_nat_rule nat_exec]. change (Z.to_nat ctStatusLen) with 4%nat.
  rewrite (reg_read_all 1 (le32 (np_status p))), le32_land by done. replace (le32 0) with (repeat 0 (length (le32 (Z.land (np_status p) ipsDstNat)))) at 1 by done.
  rewrite xor_zeros, reg_read_all by done. cbn [cmp_holds]. unfold was_dnat. destruct (Z.eqb_spec (Z.land (np_status p) ipsDstNat) 0) as [->|Hn].
  - rewrite bool_decide_true by done. by eexists.
  - rewrite bool_decide_false by (intros E; apply Hn, le32_inj; [by apply land_word| |]; done). cbn. by eexists.
Qed.

(** A load into the second register leaves the first. *)
Lemma reg_read_first b r : reg_read 1 16 (reg_write 2 b r) = reg_read 1 16 r.
Proof.
  unfold reg_read. apply list_fmap_ext. intros k x Hx%lookup_seq. unfold reg_write. rewrite (proj2 (Z.leb_gt _ _)); [done|].
  unfold reg_offset. cbn. lia.
Qed.

Lemma single_meaning t a r p : addr6 a -> run_nat_rule (singleNATExprs t a) r p = NatEnd (Translated t (As16 a) (As16 a) false).
Proof. intros [La _]%As16_6. cbn -[reg_read reg_write As16]. by rewrite reg_read_all. Qed.

Lemma netmap_meaning t pfx r p : prefix6 pfx ->
  run_nat_rule (prefixNATExprs t pfx) r p = NatEnd (Translated t (As16 (pfx_addr pfx)) (As16 (lastAddr pfx)) true).
Proof.
  intros Hp. pose proof Hp as (Ha & _ & Hm). destruct (As16_6 _ Ha) as [La _]. destruct (As16_6 _ (lastAddr_6 _ Hp)) as [Ll _].
  unfold prefixNATExprs. rewrite Hm. cbn -[reg_read reg_write lastAddr]. do 2 f_equal; [|by apply reg_read_all].
  rewrite reg_read_first. by apply reg_read_all.
Qed.

Lemma action_meaning rule r p : wf_nat_rule rule -> wf_nat_packet p ->
  match nat_effect rule p with
  | Some v => run_nat_rule (actionExprs rule) r p = NatEnd v
  | None => exists r', run_nat_rule (actionExprs rule) r p = NatNext r'
  end.
Proof.
  intros [_ _ _ Ht] Hp. unfold nat_effect, actionExprs, wf_target in *. destruct (nr_Op rule).
  - destruct (nat_tests_guard [] r p Hp) as [r' H]. rewrite app_nil_r in H. destruct (was_dnat p); [done|by exists r'].
  - destruct Ht as [Ht _]. by apply single_meaning.
  - destruct Ht as [Ht _]. by apply single_meaning.
  - destruct Ht as [_ Ht]. by apply netmap_meaning.
  - destruct Ht as [_ Ht]. by apply netmap_meaning.
  - done.
Qed.

Lemma rule_meaning rule r p : wf_nat_rule rule -> wf_nat_packet p ->
  match rule_verdict p rule with
  | Some v => run_nat_rule (nat_ruleExprs rule) r p = NatEnd v
  | None => exists r', run_nat_rule (nat_ruleExprs rule) r p = NatNext r'
  end.
Proof.
  intros Hr Hp. pose proof (nat_tests_app _ _ _ _ (nat_tests_iface rule (nwr_name _ Hr)) (nat_tests_addr _ (nr_Chain rule) (nwr_match _ Hr))) as Ht.
  destruct (Ht (actionExprs rule) r p Hp) as [r' E]. rewrite <- app_assoc in E. fold (nat_ruleExprs rule) in E. rewrite E.
  unfold rule_verdict, nat_matches. destruct (_ && _); [by apply action_meaning|by exists r'].
Qed.

(** The expressions of a chain do what its typed rules say, the first verdict deciding. *)
Lemma chain_meaning rules r p : Forall wf_nat_rule rules -> wf_nat_packet p -> run_nat_chain (nat_ruleExprs <$> rules) r p = Some (translate rules p).
Proof.
  intros Hr Hp. revert r. induction Hr as [|rule rules Hrule _ IH]; intros r; [done|]. cbn [fmap list_fmap run_nat_chain].
  pose proof (rule_meaning rule r p Hrule Hp) as H. unfold translate. cbn [first_verdict].
  destruct (rule_verdict p rule) as [v|]; [by rewrite H|]. destruct H as [r' ->]. by rewrite IH.
Qed.

(** ** The rules of a set of WANs *)

Definition chain_rules (c : ruleChain) (d : desiredRules) : list natRule :=
  match c with chainPrerouting => dr_Prerouting d | chainPostrouting => dr_Postrouting d end.
Definition of_chain (c : ruleChain) (rules : list natRule) : list natRule := List.filter (fun rule => bool_decide (nr_Chain rule = c)) rules.

Lemma desired_add_chain c rules d : chain_rules c (desired_add d rules) = chain_rules c d ++ of_chain c rules.
Proof.
  unfold desired_add. revert d. induction rules as [|rule rules IH]; intros d; cbn; [by rewrite app_nil_r|].
  rewrite IH. unfold add_rule. destruct (nr_Chain rule) eqn:E, c; cbn; rewrite ?E; cbn; by rewrite <- ?app_assoc.
Qed.

(** Each WAN contributes the rules of its interface. *)
Definition program (wans : list (string * list natRule)) : desiredRules := fold_left desired_add (snd <$> wans) no_rules.

Lemma program_chain c wans : chain_rules c (program wans) = of_chain c (concat (snd <$> wans)).
Proof.
  unfold program. assert (forall d, chain_rules c (fold_left desired_add (snd <$> wans) d) = chain_rules c d ++ of_chain c (concat (snd <$> wans))) as H.
  { induction wans as [|[i rules] wans IH]; intros d; [by rewrite app_nil_r|].
    cbn [fmap list_fmap snd fold_left concat]. rewrite IH, desired_add_chain. unfold of_chain. by rewrite List.filter_app, <- app_assoc. }
  rewrite H. by destruct c.
Qed.

Definition own_rules (wan : string * list natRule) : Prop := Forall (fun rule => nr_Iface rule = wan.1) wan.2.

Lemma first_verdict_app p a b : first_verdict p (a ++ b) = match first_verdict p a with Some v => Some v | None => first_verdict p b end.
Proof. induction a as [|rule a IH]; cbn; [done|]. destruct (rule_verdict p rule); [done|]. exact IH. Qed.

Lemma other_iface c wan p : own_rules wan -> nat_iface c p <> wan.1 -> first_verdict p (of_chain c wan.2) = None.
Proof.
  destruct wan as [i rules]. unfold own_rules, of_chain. cbn. intros Hr Hi. induction Hr as [|rule rules Hown _ IH]; cbn; [done|].
  case_bool_decide as Hc; [|done]. cbn. unfold rule_verdict, nat_matches. rewrite Hc, bool_decide_false by congruence. done.
Qed.

Lemma others_silent c wans p : Forall own_rules wans -> (forall wan, wan ∈ wans -> nat_iface c p <> wan.1) ->
  first_verdict p (of_chain c (concat (snd <$> wans))) = None.
Proof.
  intros Ho. induction Ho as [|wan wans Hw _ IH]; intros H; cbn; [done|]. unfold of_chain. rewrite List.filter_app, first_verdict_app.
  fold (of_chain c wan.2). rewrite other_iface by (done || by apply H; left). apply IH. intros w Hin. apply H. by right.
Qed.

(** A packet is translated by the rules of its own WAN. *)
Lemma own_wan c wans wan p : Forall own_rules wans -> NoDup wans.*1 -> wan ∈ wans -> nat_iface c p = wan.1 ->
  translate (chain_rules c (program wans)) p = translate (of_chain c wan.2) p.
Proof.
  intros Ho Hd Hin Hi. unfold translate. rewrite program_chain. f_equal.
  apply list_elem_of_split in Hin as (l1 & l2 & ->). apply Forall_app in Ho as [H1 H2]. apply Forall_cons in H2 as [_ H2].
  rewrite fmap_app, fmap_cons in Hd. apply NoDup_app in Hd as (_ & Hd1 & Hd2). apply NoDup_cons in Hd2 as [Hd2 _].
  rewrite fmap_app, concat_app. unfold of_chain. rewrite List.filter_app, first_verdict_app. fold (of_chain c (concat l1.*2)).
  rewrite others_silent; [|done|].
  - cbn. rewrite List.filter_app, first_verdict_app. fold (of_chain c wan.2) (of_chain c (concat l2.*2)).
    destruct (first_verdict p (of_chain c wan.2)); [done|]. apply others_silent; [done|].
    intros w Hw E. apply Hd2. rewrite <- Hi, E. by apply list_elem_of_fmap_2.
  - intros w Hw E. apply (Hd1 w.1); [by apply list_elem_of_fmap_2|]. rewrite <- E, Hi. by left.
Qed.

Lemma no_wan c wans p : Forall own_rules wans -> nat_iface c p ∉ wans.*1 -> translate (chain_rules c (program wans)) p = Untranslated.
Proof.
  intros Ho Hi. unfold translate. rewrite program_chain, others_silent; [done..|]. intros w Hw E. apply Hi. rewrite E. by apply list_elem_of_fmap_2.
Qed.

(** ** The edge exceptions of one WAN *)

Definition edge6 (a : Addr) : Prop := addr6 a /\ Forall is_byte (As16 a).

Record wf_wan_input (i : wanRuleInput) : Prop := {
  wwi_iface : wi_Iface i <> ""%string;
  wwi_name : plain_name (wi_Iface i);
  wwi_external : prefix6 (wi_External i) /\ Forall is_byte (As16 (pfx_addr (wi_External i)));
  wwi_edge : edge6 (wi_OpnsenseEdge i);
  wwi_mwanbr : edge6 (wi_MwanbrEdge i);
  wwi_extra : Forall edge6 (wi_ExtraDNAT i);
}.

Lemma Masked6 a bits : edge6 a -> bits = 128 -> Masked (mkPrefix a bits) = mkPrefix a bits.
Proof. intros [(b & -> & Hl) Hb] ->. unfold Masked. cbn -[mask_bytes]. rewrite mask_full; [done| |done]. cbn [As16 AddrFrom16] in *. lia. Qed.

Lemma PrefixFrom6 a : edge6 a -> PrefixFrom a 128 = mkPrefix a 128.
Proof. by intros [(b & -> & _) _]. Qed.

Lemma host_prefix6 a : edge6 a -> prefix6 (PrefixFrom a 128).
Proof. intros H. rewrite PrefixFrom6 by done. split_and!; [apply H|done..|by apply Masked6]. Qed.

Lemma host_contains a b : edge6 a -> length b = 16%nat -> Forall is_byte b -> Contains (PrefixFrom a 128) (AddrFrom16 b) = bool_decide (AddrFrom16 b = a).
Proof.
  intros Ha Hl Hb. rewrite Contains6 by by apply host_prefix6. rewrite PrefixFrom6 by done. cbn [pfx_bits pfx_addr].
  rewrite mask_full by (done || lia). destruct Ha as [(c & -> & _) _]. apply bool_decide_ext. cbn. split; [by intros ->|by intros [= ->]].
Qed.

Lemma host_one6 i : wf_wan_input i -> edge6 (externalHostOne (Masked (wi_External i))).
Proof.
  intros [_ _ [(Ha & _ & Hm) Hb] _ _ _]. unfold externalHostOne. rewrite !Hm. destruct (As16_6 _ Ha) as [Hl _]. split.
  - eexists. split; [done|]. by rewrite length_insert.
  - cbn [As16 AddrFrom16]. apply Forall_insert; [done|]. unfold is_byte. lia.
Qed.

Lemma built_wf i : wf_wan_input i -> Forall wf_nat_rule (buildWANRules i).
Proof.
  intros Hi. pose proof (host_one6 i Hi) as Hpd. destruct Hi as [Hne Hpl _ He Hm Hx]. unfold buildWANRules.
  assert (forall a, edge6 a -> wf_nat_rule (dnat_rule (wi_Iface i) a (wi_OpnsenseEdge i))) as Hd.
  { intros a Ha. constructor; cbn; [done|done|by apply host_prefix6|]. split; [apply He|done]. }
  apply Forall_app. split; [|apply Forall_fmap, (Forall_impl _ _ _ Hx); intros a Ha; by apply Hd].
  repeat (apply Forall_cons; split); [..|by apply Hd|by apply Forall_nil]; constructor; cbn; try done; try (by apply host_prefix6); split; try done; apply Hpd.
Qed.

Lemma built_own i : own_rules (wi_Iface i, buildWANRules i).
Proof. unfold own_rules, buildWANRules. cbn [fst snd]. apply Forall_app. split; [by repeat constructor|]. by apply Forall_fmap, Forall_true. Qed.

Definition single (t : NATType) (a : Addr) : nat_result := Translated t (As16 a) (As16 a) false.

(** What the exceptions are for. *)
Definition edge_translation (i : wanRuleInput) (c : ruleChain) (p : nat_packet) : nat_result :=
  let hostOne := externalHostOne (wi_External i) in
  let a := nat_address c p in
  match c with
  | chainPostrouting =>
      if bool_decide (a = wi_OpnsenseEdge i) then if was_dnat p then Untranslated else single NATTypeSourceNAT hostOne
      else if bool_decide (a = wi_MwanbrEdge i) then single NATTypeSourceNAT hostOne else Untranslated
  | chainPrerouting => if bool_decide (a ∈ hostOne :: wi_ExtraDNAT i) then single NATTypeDestNAT (wi_OpnsenseEdge i) else Untranslated
  end.

Lemma loaded6 c p : wf_nat_packet p -> exists b, nat_address c p = AddrFrom16 b /\ length b = 16%nat /\ Forall is_byte b.
Proof.
  intros [_ _ [Hb Hl] _]. eexists. split; [done|]. split; [|by apply Forall_take, Forall_drop].
  rewrite length_take, length_drop. destruct c; unfold addr_offset, ip6DaddrOffset, ip6SaddrOffset; lia.
Qed.

Lemma dnat_verdict iface edge p addrs : wf_nat_packet p -> Forall edge6 addrs -> np_iif p = iface ->
  first_verdict p ((fun a => dnat_rule iface a edge) <$> addrs) = if bool_decide (nat_address chainPrerouting p ∈ addrs) then Some (single NATTypeDestNAT edge) else None.
Proof.
  intros Hp Ha Hi. destruct (loaded6 chainPrerouting p Hp) as (b & Hb & Hl & Hbytes). induction Ha as [|a addrs Ha _ IH].
  - by rewrite bool_decide_false by apply not_elem_of_nil.
  - cbn [fmap list_fmap first_verdict]. unfold rule_verdict, nat_matches. cbn [nr_Chain nr_Iface nr_Match nat_iface dnat_rule].
    rewrite (bool_decide_true (np_iif p = iface)), Hb, host_contains by done. cbn [andb]. destruct (decide (AddrFrom16 b = a)) as [E|E].
    + rewrite !bool_decide_true by (done || by rewrite E; left). done.
    + rewrite (bool_decide_false (AddrFrom16 b = a)), IH, Hb by done. erewrite bool_decide_ext; [done|]. set_solver.
Qed.

Lemma built_translation i c p : wf_wan_input i -> wf_nat_packet p -> nat_iface c p = wi_Iface i ->
  translate (of_chain c (buildWANRules i)) p = edge_translation i c p.
Proof.
  intros Hi Hp Hif. pose proof (host_one6 i Hi) as Hpd. assert (Masked (wi_External i) = wi_External i) as Hext by apply Hi.
  destruct (loaded6 c p Hp) as (b & Hb & Hl & Hbytes). pose proof (wwi_edge i Hi) as He. pose proof (wwi_mwanbr i Hi) as Hm.
  unfold translate, edge_translation, buildWANRules. rewrite Hext in *. unfold of_chain. rewrite List.filter_app. destruct c; cbn [nat_iface] in Hif.
  - assert (List.filter (fun rule => bool_decide (nr_Chain rule = chainPostrouting)) ((fun a => dnat_rule (wi_Iface i) a (wi_OpnsenseEdge i)) <$> wi_ExtraDNAT i) = []) as ->
      by (induction (wi_ExtraDNAT i) as [|x l IH]; [done|exact IH]).
    rewrite app_nil_r. cbn [List.filter nr_Chain dnat_rule].
    rewrite !(bool_decide_true (chainPostrouting = chainPostrouting)), (bool_decide_false (chainPrerouting = chainPostrouting)) by done. cbn [first_verdict].
    unfold rule_verdict, nat_matches. cbn [nr_Chain nr_Iface nr_Match nat_iface nr_Op nat_effect nr_ToAddr].
    rewrite (bool_decide_true (np_oif p = wi_Iface i)), Hb, !host_contains by done. cbn [andb].
    repeat case_bool_decide; try done; destruct (was_dnat p); done.
  - assert (List.filter (fun rule => bool_decide (nr_Chain rule = chainPrerouting)) ((fun a => dnat_rule (wi_Iface i) a (wi_OpnsenseEdge i)) <$> wi_ExtraDNAT i)
            = (fun a => dnat_rule (wi_Iface i) a (wi_OpnsenseEdge i)) <$> wi_ExtraDNAT i) as ->
      by (induction (wi_ExtraDNAT i) as [|x l IH]; [done|cbn; f_equal; exact IH]).
    change (List.filter _ _ ++ _) with ((fun a => dnat_rule (wi_Iface i) a (wi_OpnsenseEdge i)) <$> (externalHostOne (wi_External i) :: wi_ExtraDNAT i)).
    rewrite dnat_verdict by (done || by apply Forall_cons_2, Hi). case_bool_decide; done.
Qed.
