(* ===== verification/NatApply.v ===== *)
(** * Committing and reading back the nat chains of the NPT module

    What a kernel promises about the ip6 nat table is the class [NatKernel].  Against it: a
    transaction replaces both chains or changes nothing, the chains it leaves do what the typed
    rules say, the listing read back is the text of the rules written, and an edge address found
    unused is in no rule of its interface. *)

From S2P Require Import Prelude GoStrings Effects NptPolicy Intent BgpFib NetWire NetGraph Firewall Nftables NatRules NatExec.

Local Open Scope Z_scope.

(** ** The kernel *)

Definition chains := string -> option (list (list natExpr)).

(** A batch that flushes a missing chain does not commit. *)
Definition apply_natop (s : chains) (op : natop) : chains :=
  match op with
  | NatAddTable => s
  | NatAddChain name => fun c => if bool_decide (c = name) then Some (default [] (s c)) else s c
  | NatFlushChain name => fun c => if bool_decide (c = name) then Some [] else s c
  | NatAddRule name es => fun c => if bool_decide (c = name) then (fun rules => rules ++ [es]) <$> s c else s c
  end.

(** What a listing returns for the expressions of a chain. *)
Definition listed (ranged : bool) (es : list (list natExpr)) : list (option (list natExpr)) := (fun e : list natExpr => Some (echo_nat ranged <$> e)) <$> es.

Class NatKernel (W : Type) `{NC : !NatConn W, NR : !NatReader W} := {
  nat_contents : W -> chains;
  kernel_ranged : bool;
  newConn_keeps w : nat_contents (nat_newConn w).2 = nat_contents w;
  ListTables_keeps w : nat_contents (ListTables w).2 = nat_contents w;
  ListChains_keeps w : nat_contents (nat_ListChains w).2 = nat_contents w;
  (** a transaction is applied in order and whole, or not at all *)
  Flush_commits batch w w' c : nat_Flush batch w = (None, w') -> nat_contents w' c = fold_left apply_natop batch (nat_contents w) c;
  Flush_fails batch e w w' : nat_Flush batch w = (Some e, w') -> nat_contents w' = nat_contents w;
  readConn_keeps w : nat_contents (nat_readConn w).2 = nat_contents w;
  (** a listed chain has the expressions it holds, a NAT of one address perhaps with both registers *)
  GetRules_reads name w : nat_contents (GetRules name w).2 = nat_contents w /\
    forall rules es, (GetRules name w).1 = inl rules -> nat_contents w name = Some es -> rules = listed kernel_ranged es;
  (** and is found *)
  GetRules_found name w e es : nat_contents w name = Some es -> (GetRules name w).1 = inr e -> isNFTObjectMissing e = false;
}.

(** ** The transaction *)

Lemma fold_adds name rules s c : fold_left apply_natop (NatAddRule name ∘ nat_ruleExprs <$> rules) s c
  = if bool_decide (c = name) then (fun l => l ++ (nat_ruleExprs <$> rules)) <$> s c else s c.
Proof.
  revert s. induction rules as [|rule rules IH]; intros s; cbn.
  - case_bool_decide; [|done]. destruct (s c); cbn; by rewrite ?app_nil_r.
  - rewrite IH. cbn. case_bool_decide; [|done]. destruct (s c); cbn; by rewrite <- ?app_assoc.
Qed.

Lemma fold_chain name rules s c : fold_left apply_natop (chain_ops name rules) s c = if bool_decide (c = name) then Some (nat_ruleExprs <$> rules) else s c.
Proof. unfold chain_ops. cbn [fold_left]. rewrite fold_adds. cbn. by case_bool_decide. Qed.

Section Apply.
Context {W : Type} `{NK : NatKernel W}.

Definition chain_name (c : ruleChain) : string := match c with chainPrerouting => preroutingChain | chainPostrouting => postroutingChain end.

Lemma ensure_keeps w : nat_contents (ensureNATStructure w).2 = nat_contents w.
Proof.
  unfold ensureNATStructure, mbind, M_bind, mret, M_ret. pose proof (ListTables_keeps w) as H1. destruct (ListTables w) as [[tables|e] w1]; [|done].
  pose proof (ListChains_keeps w1) as H2. destruct (nat_ListChains w1) as [existing w2]. cbn in *. congruence.
Qed.

Lemma apply_outcome desired w :
  let '((failed, _), w') := nat_Apply desired w in
  match failed with
  | None => forall c, nat_contents w' (chain_name c) = Some (nat_ruleExprs <$> chain_rules c desired)
  | Some _ => nat_contents w' = nat_contents w
  end.
Proof.
  unfold nat_Apply, mbind, M_bind, mret, M_ret. pose proof (newConn_keeps w) as H1. destruct (nat_newConn w) as [[e|] w1]; [done|].
  pose proof (ensure_keeps w1) as H2. destruct (ensureNATStructure w1) as [[ops|e] w2]; cbn [snd] in *; [|congruence].
  destruct (nat_Flush _ w2) as [[e|] w3] eqn:Ef; [apply Flush_fails in Ef; congruence|].
  intros c. rewrite (Flush_commits _ _ _ _ Ef), !fold_left_app, !fold_chain. destruct c; cbn; by rewrite ?bool_decide_true, ?bool_decide_false by done.
Qed.
End Apply.

(** ** Reading back *)

Section Read.
Context {W : Type} `{NK : NatKernel W} `{PT : !PrefixText}.

Lemma echo_is_read rule : echo 0 kernel_ranged rule = echo_nat kernel_ranged <$> nat_ruleExprs rule.
Proof.
  unfold echo, nat_ruleExprs. rewrite !fmap_app. cbn [repeat]. rewrite app_nil_r. do 2 f_equal.
  unfold addrMatchExprs. by destruct (_ =? _).
Qed.

Lemma renderRules_wf names rules : Forall wf_nat_rule rules ->
  renderRules names (listed kernel_ranged (nat_ruleExprs <$> rules)) = formatRule <$> rules
  /\ omap (unrecognized_iface names) (listed kernel_ranged (nat_ruleExprs <$> rules)) = [].
Proof.
  intros H. unfold renderRules. induction H as [|rule rules Hr _ [IH1 IH2]]; [done|]. unfold listed in *. cbn [fmap list_fmap omap list_omap].
  unfold render_rule at 1, unrecognized_iface at 1. cbn [compose mbind option_bind].
  rewrite <- echo_is_read, rule_reads_back, IH1 by done. by rewrite IH2.
Qed.
End Read.

(** ** The properties *)

(** What one WAN asks of the chains: its edge exceptions, or masquerading. *)
Inductive wan_kind := Edges (i : wanRuleInput) | Masquerades (iface : string).

Definition kind_iface (k : wan_kind) : string := match k with Edges i => wi_Iface i | Masquerades iface => iface end.
Definition kind_rules (k : wan_kind) : list natRule := match k with Edges i => buildWANRules i | Masquerades iface => [masqueradeRule iface] end.
Definition wf_kind (k : wan_kind) : Prop := match k with Edges i => wf_wan_input i | Masquerades iface => iface <> ""%string /\ plain_name iface end.
Definition kind_translation (k : wan_kind) (c : ruleChain) (p : nat_packet) : nat_result :=
  match k with
  | Edges i => edge_translation i c p
  | Masquerades _ => match c with chainPostrouting => Masqueraded | chainPrerouting => Untranslated end
  end.

Definition wan_program (kinds : list wan_kind) : desiredRules := program ((fun k => (kind_iface k, kind_rules k)) <$> kinds).

Lemma everything : prefix6 (mkPrefix (Addr6 (repeat 0 16) ""%string) 0).
Proof. split; [by exists (repeat 0 16)|]. by split; [cbn; lia|]. Qed.

Lemma kind_wf k : wf_kind k -> Forall wf_nat_rule (kind_rules k).
Proof. destruct k as [i|iface]; cbn; [apply built_wf|]. intros [Hn Hp]. apply Forall_singleton. constructor; try done. apply everything. Qed.

Lemma kind_own k : own_rules (kind_iface k, kind_rules k).
Proof. destruct k as [i|iface]; [apply built_own|]. by repeat constructor. Qed.

Lemma kind_meaning k c p : wf_kind k -> wf_nat_packet p -> nat_iface c p = kind_iface k -> translate (of_chain c (kind_rules k)) p = kind_translation k c p.
Proof.
  destruct k as [i|iface]; [apply built_translation|]. intros _ Hp Hi. destruct c; [|done]. destruct (loaded6 chainPostrouting p Hp) as (b & Hb & Hl & _).
  cbn in Hi. unfold translate, of_chain. cbn [kind_rules List.filter masqueradeRule nr_Chain]. rewrite bool_decide_true by done. cbn [first_verdict].
  unfold rule_verdict, nat_matches. cbn [nr_Chain nr_Iface nr_Match nat_iface masqueradeRule]. rewrite bool_decide_true by done.
  rewrite Hb, Contains6 by apply everything. cbn [pfx_bits pfx_addr As16]. rewrite bool_decide_true; [done|].
  apply list_eq. intros j. unfold mask_bytes. rewrite list_lookup_imap. destruct (decide (j < 16)%nat) as [Hj|Hj].
  - destruct (lookup_lt_is_Some_2 b j) as [x ->]; [lia|]. change (repeat 0 16) with (replicate 16 0). rewrite lookup_replicate_2 by done. cbn. rewrite byte_mask_0 by lia. by rewrite Z.land_0_r.
  - rewrite !lookup_ge_None_2 by (rewrite ?repeat_length; lia). done.
Qed.

Section Properties.
Context {W : Type} `{NK : NatKernel W} `{PT : !PrefixText}.

Lemma program_wf kinds c : Forall wf_kind kinds -> Forall wf_nat_rule (chain_rules c (wan_program kinds)).
Proof.
  intros H. unfold wan_program. rewrite program_chain. unfold of_chain. rewrite Forall_forall. intros rule Hin.
  apply list_elem_of_In, filter_In in Hin as [Hin%list_elem_of_In _]. revert rule Hin. rewrite <- Forall_forall. apply Forall_concat, Forall_fmap, Forall_fmap, (Forall_impl _ _ _ H).
  intros k Hk. by apply kind_wf.
Qed.

(** C31. A transaction of the NPT module commits both nat chains whole or changes neither, and
    once it commits, a flow through a WAN's interface is translated as that WAN asks and by no
    other WAN's rules: the gateway's own edge addresses leave as the first host of the WAN's
    external prefix unless the flow's destination was translated, that host and the extra
    addresses are delivered to the OPNsense edge, a masquerading WAN masquerades everything
    that leaves, and a flow on no WAN's interface is left alone. *)
Theorem edge_traffic_translated kinds w c p r : Forall wf_kind kinds -> NoDup (kind_iface <$> kinds) -> wf_nat_packet p ->
  let '((failed, _), w') := nat_Apply (wan_program kinds) w in
  match failed with
  | Some _ => nat_contents w' = nat_contents w
  | None =>
      exists es, nat_contents w' (chain_name c) = Some es /\
        (forall k, k ∈ kinds -> nat_iface c p = kind_iface k -> run_nat_chain es r p = Some (kind_translation k c p)) /\
        (nat_iface c p ∉ kind_iface <$> kinds -> run_nat_chain es r p = Some Untranslated)
  end.
Proof.
  intros Hk Hd Hp. pose proof (apply_outcome (wan_program kinds) w) as H. destruct (nat_Apply _ _) as [[[e|] batch] w']; [done|].
  eexists. split; [apply H|]. pose proof (program_wf kinds c Hk) as Hwf.
  assert (Forall own_rules ((fun k => (kind_iface k, kind_rules k)) <$> kinds)) as Hown by (apply Forall_fmap, Forall_true; intros k; apply kind_own).
  assert (((fun k => (kind_iface k, kind_rules k)) <$> kinds).*1 = kind_iface <$> kinds) as Hfst by (rewrite <- list_fmap_compose; done).
  split.
  - intros k Hin Hi. rewrite chain_meaning by done. f_equal. unfold wan_program. rewrite Forall_forall in Hk.
    rewrite (own_wan c _ (kind_iface k, kind_rules k)); [by apply kind_meaning; [apply Hk|..]|done|by rewrite Hfst|apply list_elem_of_fmap; by exists k|done].
  - intros Hi. rewrite chain_meaning by done. f_equal. unfold wan_program. apply no_wan; [done|by rewrite Hfst].
Qed.

Lemma read_back_chain c rules w : nat_contents w (chain_name c) = Some (nat_ruleExprs <$> rules) -> Forall wf_nat_rule rules ->
  let '(read, w') := GetRules (chain_name c) w in
  nat_contents w' = nat_contents w /\
  forall names lines, readChain names (chain_name c) read = Ok lines -> read = inl (listed kernel_ranged (nat_ruleExprs <$> rules)) /\ lines = (formatRule <$> rules, []).
Proof.
  intros Hc Hwf. destruct (GetRules_reads (chain_name c) w) as [Hk Hr]. pose proof (fun e => GetRules_found (chain_name c) w e _ Hc) as Hf.
  destruct (GetRules _ w) as [[read|e] w']; cbn [fst snd] in *; (split; [done|]); intros names lines H.
  - specialize (Hr _ _ eq_refl Hc) as ->. destruct (renderRules_wf names rules Hwf) as [E1 E2]. unfold readChain in H. rewrite E1, E2 in H. by injection H as <-.
  - unfold readChain in H. by rewrite Hf in H.
Qed.

(** The served intent and the live listing read alike: after a committed transaction, a
    listing that succeeds shows exactly the lines of the rules committed, in order, with none
    unrecognized, and the intended ruleset is these lines under their chain headings. *)
Lemma intent_matches_listing d w w' batch : Forall wf_nat_rule (dr_Postrouting d) -> Forall wf_nat_rule (dr_Prerouting d) ->
  nat_Apply d w = ((None, batch), w') -> forall table w'', nat_renderTable w' = (Ok table, w'') ->
  rt_unrecognized table = [] /\
  renderIntended d = ("chain prerouting:" +:+ String newline (concat_strings ((fun l => "  " +:+ l +:+ String newline "") <$> rt_Prerouting table)) +:+
                      "chain postrouting:" +:+ String newline (concat_strings ((fun l => "  " +:+ l +:+ String newline "") <$> rt_Postrouting table)))%string.
Proof.
  intros Hpost Hpre Ha table w'' Hr. pose proof (apply_outcome d w) as H. rewrite Ha in H.
  assert (rt_unrecognized table = [] /\ rt_Prerouting table = formatRule <$> dr_Prerouting d /\ rt_Postrouting table = formatRule <$> dr_Postrouting d) as (E1 & E2 & E3).
  { unfold nat_renderTable, mbind, M_bind, mret, M_ret, gets in Hr. destruct (nat_ctx_err w'); [done|]. pose proof (readConn_keeps w') as H1.
    destruct (nat_readConn w') as [[e|] w1]; [done|]. cbn [snd] in H1. pose proof (H chainPrerouting) as Hc. rewrite <- H1 in Hc.
    pose proof (read_back_chain chainPrerouting _ w1 Hc Hpre) as Hr1. change (chain_name chainPrerouting) with preroutingChain in Hr1.
    destruct (GetRules preroutingChain w1) as [r1 w2]. destruct Hr1 as [K1 Hr1]. destruct (readChain _ preroutingChain r1) as [[l1 u1]|e] eqn:Er1; [|done].
    apply Hr1 in Er1 as [_ [= -> ->]]. destruct (nat_ctx_err w2); [done|]. pose proof (H chainPostrouting) as Hc2. rewrite <- H1, <- K1 in Hc2.
    pose proof (read_back_chain chainPostrouting _ w2 Hc2 Hpost) as Hr2. change (chain_name chainPostrouting) with postroutingChain in Hr2.
    destruct (GetRules postroutingChain w2) as [r2 w3]. destruct Hr2 as [_ Hr2]. destruct (readChain _ postroutingChain r2) as [[l2 u2]|e] eqn:Er2; [|done].
    apply Hr2 in Er2 as [_ [= -> ->]]. by injection Hr as <- _. }
  split; [done|]. unfold renderIntended, intended_lines. rewrite E2, E3, <- !list_fmap_compose. done.
Qed.

(** A rule keeps an address in use. *)
Definition uses (rule : natRule) (a : Addr) : bool := Contains (nr_Match rule) a || bool_decide (nr_ToAddr rule = a) || Contains (nr_ToPfx rule) a.

Lemma unused_in_chain c rules iface address w w' : nat_contents w (chain_name c) = Some (nat_ruleExprs <$> rules) -> Forall wf_nat_rule rules ->
  edge_chain iface address None (chain_name c) w = (None, w') ->
  nat_contents w' = nat_contents w /\ Forall (fun rule => nr_Iface rule = iface -> uses rule address = false) rules.
Proof.
  intros Hc Hwf H. unfold edge_chain, mbind, M_bind, mret, M_ret, gets in H. destruct (GetRules_reads (chain_name c) w) as [Hk Hr].
  pose proof (fun e => GetRules_found (chain_name c) w e _ Hc) as Hf. destruct (GetRules _ w) as [[read|e] w1]; cbn [fst snd] in *.
  - specialize (Hr _ _ eq_refl Hc) as ->. injection H as H ->. split; [done|]. apply first_error_none in H. unfold listed in H.
    rewrite !Forall_fmap in H. rewrite Forall_forall in H. rewrite Forall_forall in Hwf. rewrite Forall_forall. intros rule Hin Hi. specialize (H rule Hin). unfold compose, rule_uses_edge in H. cbv beta iota in H.
    rewrite <- echo_is_read, decode_interface, rule_reads_back in H by by apply Hwf. rewrite bool_decide_true in H by done. cbn in H.
    fold (uses rule address) in H. by destruct (uses rule address).
  - rewrite Hf in H by done. by injection H.
Qed.

(** An edge address is released only when nothing uses it: when the inspection before a
    release finds no user, no rule of either chain on the edge's interface matches the address or
    translates to it. *)
Lemma released_edge_unused post pre iface address w w' :
  nat_contents w postroutingChain = Some (nat_ruleExprs <$> post) -> nat_contents w preroutingChain = Some (nat_ruleExprs <$> pre) ->
  Forall wf_nat_rule post -> Forall wf_nat_rule pre -> verifyNFTEdgeUnused iface address w = (None, w') ->
  Forall (fun rule => nr_Iface rule = iface -> uses rule address = false) (post ++ pre).
Proof.
  intros Hcpost Hcpre Hpost Hpre H. unfold verifyNFTEdgeUnused, mbind, M_bind, mret, M_ret, gets in H. destruct (nat_ctx_err w); [done|].
  pose proof (readConn_keeps w) as H1. destruct (nat_readConn w) as [[e|] w1]; [done|]. cbn [snd] in H1.
  cbn [foldM] in H. unfold mbind, M_bind, mret, M_ret in H. destruct (edge_chain iface address None preroutingChain w1) as [found w2] eqn:E1.
  destruct found as [e|]; [done|]. destruct (edge_chain iface address None postroutingChain w2) as [found w3] eqn:E2. injection H as -> _.
  apply (unused_in_chain chainPrerouting pre) in E1 as [K1 Hp1]; [|by rewrite H1|done].
  apply (unused_in_chain chainPostrouting post) in E2 as [_ Hp2]; [|by rewrite K1, H1|done]. by apply Forall_app.
Qed.
End Properties.

(** A nat rule reads back as it was written: the decoder recovers exactly the typed rule from
    the expressions the applier writes for it, also when the kernel pads the interface name and
    sets both address registers of a NAT to one address. *)
Lemma nat_rule_roundtrip names padding ranged rule : wf_nat_rule rule ->
  decodeRule names (nat_ruleExprs rule) = Some rule /\ decodeRule names (echo padding ranged rule) = Some rule.
Proof.
  intros H. split; [|by apply rule_reads_back]. pose proof (rule_reads_back names 0 false rule H) as E.
  assert (echo 0 false rule = nat_ruleExprs rule) as <-; [|done]. unfold echo, nat_ruleExprs. cbn [repeat]. rewrite app_nil_r. do 2 f_equal.
  rewrite <- (list_fmap_id (actionExprs rule)) at 2. apply list_fmap_ext. intros _ [] _; try done. by destruct nat.
Qed.
