(* ===== verification/BpfProgram.v ===== *)
(** * The prefix translator's packet program (gateway/internal/ifmgr/modules/npt/bpf)

    The policy values the module stores for each interface ([pairValue], [policyValue] of
    translator.go) and the program the kernel runs with them on every packet (npt.c), byte for
    byte: the bytes of a packet are a list, a failed load or store drops the packet, and the
    arithmetic is at the width of the C types. *)

From S2P Require Import Prelude GoStrings NptPolicy Firewall.

Local Open Scope Z_scope.

(** ** Policies (policy.go, objects_bpfel.go) *)

Definition HairpinMask : Z := 0xffff0000.
Definition HairpinTag : Z := 0x4e500000.
Definition MaxPairs : nat := 64.

Record InterfacePolicy := mkInterfacePolicy { ip_IfIndex : Z; ip_Internal : bool; ip_Pairs : list PrefixPair }.

Inductive Direction := Ingress | Egress.
Record AttachmentState := mkAttachmentState { as_IfIndex : Z; as_Direction : Direction; as_Ready : bool; as_Reason : string }.

#[export] Instance Direction_eq_dec : EqDecision Direction.
Proof. solve_decision. Defined.

Record nptPair := mkNptPair {
  bp_Internal : list Z;
  bp_External : list Z;
  bp_Mask : list Z;
  bp_SourceExceptions : list (list Z);
  bp_DestinationExceptions : list (list Z);
  bp_ID : Z;
  bp_ForwardAdjustment : Z;
  bp_ReverseAdjustment : Z;
  bp_InternalBits : Z;
  bp_ExternalBits : Z;
  bp_SourceCount : Z;
  bp_DestinationCount : Z;
}.

Record nptPolicy := mkNptPolicy {
  bo_Internal : Z;
  bo_Count : Z;
  bo_Ethernet : Z;
  bo_IngressOrder : list Z;
  bo_EgressOrder : list Z;
  bo_Pairs : list nptPair;
}.

#[export] Instance nptPair_eq_dec : EqDecision nptPair.
Proof. solve_decision. Defined.
#[export] Instance nptPolicy_eq_dec : EqDecision nptPolicy.
Proof. solve_decision. Defined.

Definition zero_pair : nptPair :=
  mkNptPair (repeat 0 16) (repeat 0 16) (repeat 0 8) (repeat (repeat 0 16) 16) (repeat (repeat 0 16) 16) 0 0 0 0 0 0 0.

(** A fixed-size array whose first elements are set. *)
Definition array {A} (zero : A) (size : nat) (l : list A) : list A := l ++ repeat zero (size - length l).

(** [mapped.Mask[bit/8] |= 1 << (7 - bit%8)] *)
Definition mask_bit (m : list Z) (bit : nat) : list Z := <[(bit / 8)%nat := Z.lor (byte_at m (bit / 8)) (2 ^ (7 - Z.of_nat bit mod 8))]> m.

Definition encode_pair (pair : PrefixPair) : nptPair :=
  mkNptPair (As16 (pfx_addr (Internal pair))) (As16 (pfx_addr (External pair)))
    (fold_left mask_bit (seq 0 (Z.to_nat (Z.max (pfx_bits (Internal pair)) (pfx_bits (External pair))))) (repeat 0 8))
    (array (repeat 0 16) 16 (As16 <$> SourceExceptions pair)) (array (repeat 0 16) 16 (As16 <$> DestinationExceptions pair))
    (ID pair)
    (Adjustment (Internal pair) (External pair)) (Adjustment (External pair) (Internal pair))
    (pfx_bits (Internal pair)) (pfx_bits (External pair))
    (Z.of_nat (length (SourceExceptions pair))) (Z.of_nat (length (DestinationExceptions pair))).

Definition pairValue (pair : PrefixPair) : res nptPair :=
  (check ValidatePair pair ;;
   check reject_if ((pfx_bits (Internal pair) <? 0) || (64 <? pfx_bits (Internal pair)) || (pfx_bits (External pair) <? 0) || (64 <? pfx_bits (External pair)))
     ("pair " +:+ itoa (ID pair) +:+ " has an unencodable prefix length") ;;
   Ok (encode_pair pair))%go.

(** [sort.SliceStable] by decreasing key. *)
Fixpoint insert_desc (key : nat -> Z) (x : nat) (l : list nat) : list nat :=
  match l with
  | [] => [x]
  | y :: l' => if key y <=? key x then x :: l else y :: insert_desc key x l'
  end.
Definition sort_desc (key : nat -> Z) (l : list nat) : list nat := foldr (insert_desc key) [] l.

Definition header_ethernet (index : Z) (encap : string) : res bool :=
  if bool_decide (encap ∈ ["ether"; "loopback"]%string) then Ok true
  else if bool_decide (encap ∈ ["none"; "tunnel"; "tunnel6"; "sit"; "ipip"; "ppp"; "rawip"]%string) then Ok false
  else Err ("interface " +:+ itoa index +:+ " has unsupported packet header " +:+ Quote encap)%string.

Definition policy_pair (index : Z) (acc : list Z * list nptPair) (pair : PrefixPair) : res (list Z * list nptPair) :=
  (check reject_if (bool_decide (ID pair ∈ acc.1)) ("interface " +:+ itoa index +:+ " repeats pair " +:+ itoa (ID pair)) ;;
   mapped <-? pairValue pair ;;
   Ok (acc.1 ++ [ID pair], acc.2 ++ [mapped]))%go.

Definition pair_at (pairs : list nptPair) (i : nat) : nptPair := nth i pairs zero_pair.

Definition policyValue (policy : InterfacePolicy) (encap : string) : res nptPolicy :=
  (check reject_if (bool_decide (MaxPairs < length (ip_Pairs policy))%nat) ("interface " +:+ itoa (ip_IfIndex policy) +:+ " exceeds 64 prefix pairs") ;;
   ethernet <-? header_ethernet (ip_IfIndex policy) encap ;;
   acc <-? fold_res (policy_pair (ip_IfIndex policy)) ([], []) (ip_Pairs policy) ;;
   let n := length (ip_Pairs policy) in
   let order (key : nptPair -> Z) := array 0 MaxPairs (Z.of_nat <$> sort_desc (fun i => key (pair_at acc.2 i)) (seq 0 n)) in
   Ok (mkNptPolicy (if ip_Internal policy then 1 else 0) (Z.of_nat n) (if ethernet : bool then 1 else 0)
         (order bp_ExternalBits) (order bp_InternalBits) (array zero_pair MaxPairs acc.2)))%go.

(** ** Addresses in the program (npt.c) *)

Definition c_mask (bits : Z) (i : nat) : Z :=
  let used := if Z.of_nat i * 8 <? bits then bits - Z.of_nat i * 8 else 0 in
  let used := if 8 <? used then 8 else used in
  if used =? 0 then 0 else Z.shiftl 255 (8 - used) mod 256.

Definition c_contains (address prefix : list Z) (bits : Z) : bool :=
  if 64 <? bits then false
  else forallb (fun i => Z.land (byte_at address i) (c_mask bits i) =? Z.land (byte_at prefix i) (c_mask bits i)) (seq 0 8).

Definition c_equal (a b : list Z) : bool := forallb (fun i => byte_at a i =? byte_at b i) (seq 0 16).

(** The scan over at most 16 exceptions, ended by the count. *)
Fixpoint c_excepted (address : list Z) (exceptions : list (list Z)) (count : Z) (i : nat) (fuel : nat) : bool :=
  match fuel with
  | O => false
  | S fuel => if count <=? Z.of_nat i then false
              else if c_equal address (nth i exceptions []) then true else c_excepted address exceptions count (S i) fuel
  end.
Definition excepted (pair : nptPair) (address : list Z) (source : bool) : bool :=
  if source then c_excepted address (bp_SourceExceptions pair) (bp_SourceCount pair) 0 16
  else c_excepted address (bp_DestinationExceptions pair) (bp_DestinationCount pair) 0 16.

Definition full_word (a : list Z) (w : nat) : bool := (byte_at a (2 * w) =? 255) && (byte_at a (2 * w + 1) =? 255).

Fixpoint first_word (a : list Z) (words : list nat) : nat :=
  match words with [] => 8%nat | w :: words => if negb (full_word a w) then w else first_word a words end.

Definition c_word (bits : Z) (a : list Z) : option nat :=
  if 48 <? bits
  then if fold_left (fun nonzero i => Z.lor nonzero (byte_at a i)) (seq 8 8) 0 =? 0 then None else Some (first_word a [4; 5; 6; 7]%nat)
  else Some 3%nat.

(** [sum = (sum & 0xffff) + (sum >> 16)] *)
Definition c_fold (sum : Z) : Z := (Z.land sum 65535 + Z.shiftr sum 16) mod 2 ^ 32.

Definition c_replace (mask to : list Z) (a : list Z) : list Z :=
  imap (fun i x => if (i <? 8)%nat then Z.lor (Z.land x (Z.lnot (byte_at mask i))) (Z.land (byte_at to i) (byte_at mask i)) else x) a.

Definition c_translate (pair : nptPair) (outbound : bool) (a : list Z) : option (list Z) :=
  let from := if outbound then bp_Internal pair else bp_External pair in
  let to := if outbound then bp_External pair else bp_Internal pair in
  let bits := if bp_ExternalBits pair <? bp_InternalBits pair then bp_InternalBits pair else bp_ExternalBits pair in
  if negb (c_contains a from bits) then None
  else match c_word bits a with
       | None => None
       | Some word =>
           if (8 <=? word)%nat || full_word a word then None
           else let a := c_replace (bp_Mask pair) to a in
                let sum := Z.lor (Z.shiftl (byte_at a (2 * word)) 8) (byte_at a (2 * word + 1)) in
                let sum := (sum + if outbound then bp_ForwardAdjustment pair else bp_ReverseAdjustment pair) mod 2 ^ 32 in
                let sum := c_fold (c_fold sum) in
                let sum := if sum =? 65535 then 0 else sum in
                Some (<[(2 * word + 1)%nat := sum mod 256]> (<[(2 * word)%nat := Z.shiftr sum 8 mod 256]> a))
       end.

(** ** Packets *)

Record sk_buff := mkSkb { sk_ifindex : Z; sk_data : list Z; sk_priority : Z; sk_mark : Z }.

Definition set_data (v : list Z) (s : sk_buff) : sk_buff := mkSkb (sk_ifindex s) v (sk_priority s) (sk_mark s).
Definition set_priority (v : Z) (s : sk_buff) : sk_buff := mkSkb (sk_ifindex s) (sk_data s) v (sk_mark s).
Definition clear_mark (s : sk_buff) : sk_buff := mkSkb (sk_ifindex s) (sk_data s) (sk_priority s) 0.

Definition load_bytes (s : sk_buff) (offset len : nat) : option (list Z) :=
  if (offset + len <=? length (sk_data s))%nat then Some (take len (drop offset (sk_data s))) else None.
Definition splice (offset : nat) (b data : list Z) : list Z := take offset data ++ b ++ drop (offset + length b) data.
Definition store_bytes (s : sk_buff) (offset : nat) (b : list Z) : option sk_buff :=
  if (offset + length b <=? length (sk_data s))%nat then Some (set_data (splice offset b (sk_data s)) s) else None.

Definition be16 (h : list Z) (i : nat) : Z := Z.lor (Z.shiftl (byte_at h i) 8) (byte_at h (i + 1)).

Definition vlan (protocol : Z) : bool := (protocol =? 0x8100) || (protocol =? 0x88a8).

Definition ipv6_offset (s : sk_buff) (ethernet : bool) : option nat :=
  match load_bytes s 0 22 with
  | None => None
  | Some h =>
      if negb ethernet then if Z.shiftr (byte_at h 0) 4 =? 6 then Some 0%nat else None
      else if be16 h 12 =? 0x86dd then Some 14%nat
      else if negb (vlan (be16 h 12)) then None
      else if be16 h 16 =? 0x86dd then Some 18%nat
      else if vlan (be16 h 16) && (byte_at h 20 =? 0x86) && (byte_at h 21 =? 0xdd) then Some 22%nat else None
  end.

(** The walk over the extension headers: [Some None] when there is no ICMPv6 header to
    inspect, [None] when the packet is too short. *)
Fixpoint extension_headers (depth : nat) (s : sk_buff) (next : Z) (position : nat) : option (option nat) :=
  match depth with
  | O => Some (if next =? 58 then Some position else None)
  | S depth =>
      if next =? 58 then Some (Some position)
      else if negb (bool_decide (next ∈ [0; 43; 60; 44; 51])) then Some None
      else match load_bytes s position 4 with
           | None => None
           | Some x =>
               if (next =? 44) && (negb (byte_at x 2 =? 0) || negb (Z.land (byte_at x 3) 0xf8 =? 0)) then Some None
               else let step := if next =? 44 then 8 else if next =? 51 then (byte_at x 1 + 2) * 4 else (byte_at x 1 + 1) * 8 in
                    extension_headers depth s (byte_at x 0) (position + Z.to_nat step)
           end
  end.

Definition side_prefix (pair : nptPair) (internal : bool) : list Z * Z :=
  if internal then (bp_Internal pair, bp_InternalBits pair) else (bp_External pair, bp_ExternalBits pair).

Definition in_side (pair : nptPair) (internal : bool) (a : list Z) : bool :=
  let '(prefix, bits) := side_prefix pair internal in c_contains a prefix bits.

Definition quoted_field (pair : nptPair) (outbound : bool) (position : nat) (found : option sk_buff) (field : nat) : option sk_buff :=
  match found with
  | None => None
  | Some s =>
      let offset := (position + 16 + field * 16)%nat in
      match load_bytes s offset 16 with
      | None => None
      | Some quoted =>
          if negb (in_side pair outbound quoted) then Some s
          else if excepted pair quoted outbound then Some s
          else match c_translate pair outbound quoted with
               | None => None
               | Some quoted => store_bytes s offset quoted
               end
      end
  end.

(** [None]: the packet is dropped. *)
Definition translate_icmp_error (s : sk_buff) (pair : nptPair) (offset : nat) (outbound : bool) : option sk_buff :=
  match load_bytes s (offset + 6) 1 with
  | None => None
  | Some next =>
      match extension_headers 16 s (byte_at next 0) (offset + 40) with
      | None => None
      | Some None => Some s
      | Some (Some position) =>
          match load_bytes s position 1 with
          | None => None
          | Some type =>
              if 128 <=? byte_at type 0 then Some s
              else match load_bytes s (position + 8) 1 with
                   | None => None
                   | Some version =>
                       if negb (Z.shiftr (byte_at version 0) 4 =? 6) then Some s
                       else fold_left (quoted_field pair outbound position) [0; 1]%nat (Some s)
                   end
          end
      end
  end.

(** ** The program *)

Inductive tc_action := TC_ACT_OK (s : sk_buff) | TC_ACT_SHOT.
Inductive selection := NoPair | Selected (index : nat) | BadIndex.

Definition tagged (s : sk_buff) : bool := Z.land (sk_priority s) HairpinMask =? HairpinTag.

Definition selects (policy : nptPolicy) (s : sk_buff) (ingress : bool) (address : list Z) (pair : nptPair) : bool :=
  if negb (bo_Internal policy =? 0) && negb ingress then tagged s && (Z.land (sk_priority s) 0xffff =? bp_ID pair)
  else in_side pair (negb ingress) address.

Fixpoint select_pair (policy : nptPolicy) (s : sk_buff) (ingress : bool) (address : list Z) (order : list Z) : selection :=
  match order with
  | [] => NoPair
  | index :: order =>
      if Z.of_nat MaxPairs <=? index then BadIndex
      else if selects policy s ingress address (pair_at (bo_Pairs policy) (Z.to_nat index)) then Selected (Z.to_nat index)
      else select_pair policy s ingress address order
  end.

Definition untag (policy : nptPolicy) (cond : bool) (s : sk_buff) : sk_buff := if negb (bo_Internal policy =? 0) && cond then set_priority 0 s else s.

(** What a translated packet is left with. *)
Definition finish_packet (policy : nptPolicy) (ingress : bool) (pair : nptPair) (s : sk_buff) : sk_buff :=
  if bo_Internal policy =? 0 then s
  else if ingress then clear_mark (set_priority (Z.lor HairpinTag (bp_ID pair)) s) else set_priority 0 s.

Definition process_policy (policy : nptPolicy) (s : sk_buff) (ingress : bool) : tc_action :=
  match ipv6_offset s (negb (bo_Ethernet policy =? 0)) with
  | None => TC_ACT_OK s
  | Some offset =>
      let source := negb ingress in
      let address_offset := (offset + if source then 8 else 24)%nat in
      match load_bytes s address_offset 16 with
      | None => TC_ACT_SHOT
      | Some address =>
          let order := take (Z.to_nat (bo_Count policy)) (take MaxPairs (if source then bo_EgressOrder policy else bo_IngressOrder policy)) in
          match select_pair policy s ingress address order with
          | BadIndex => TC_ACT_SHOT
          | NoPair => TC_ACT_OK (untag policy (ingress && tagged s) s)
          | Selected index =>
              let s := untag policy (ingress && tagged s) s in
              let pair := pair_at (bo_Pairs policy) index in
              if excepted pair address source then TC_ACT_OK (untag policy (negb ingress) s)
              else match c_translate pair source address with
                   | None => TC_ACT_SHOT
                   | Some address =>
                       match store_bytes s address_offset address with
                       | None => TC_ACT_SHOT
                       | Some s =>
                           match translate_icmp_error s pair offset source with
                           | None => TC_ACT_SHOT
                           | Some s => TC_ACT_OK (finish_packet policy ingress pair s)
                           end
                       end
                   end
          end
      end
  end.

(** [policies]: the map of the loaded programs, by interface index. *)
Definition process (policies : Z -> option nptPolicy) (s : sk_buff) (ingress : bool) : tc_action :=
  match policies (sk_ifindex s) with None => TC_ACT_OK s | Some policy => process_policy policy s ingress end.
