(* ===== verification/BpfProps.v ===== *)
(** * The packet program translates as the policy says (npt.c against nptpolicy) *)

From S2P Require Import Prelude GoStrings NptPolicy BpfProgram.

Local Open Scope Z_scope.

(** ** Masks *)

Lemma c_mask_eq bits i : c_mask bits i = byte_mask bits i.
Proof.
  unfold c_mask, byte_mask, bits_in. set (k := Z.max 0 (Z.min 8 _)).
  assert ((if 8 <? (if Z.of_nat i * 8 <? bits then bits - Z.of_nat i * 8 else 0) then 8
           else if Z.of_nat i * 8 <? bits then bits - Z.of_nat i * 8 else 0) = k) as ->.
  { subst k. destruct (Z.ltb_spec (Z.of_nat i * 8) bits); repeat match goal with |- context [Z.ltb ?x ?y] => destruct (Z.ltb_spec x y) end; lia. }
  assert (k = 0 \/ k = 1 \/ k = 2 \/ k = 3 \/ k = 4 \/ k = 5 \/ k = 6 \/ k = 7 \/ k = 8) as H by lia.
  by repeat destruct H as [->|H]; [..|rewrite H].
Qed.

Definition agrees (bits : Z) (a p : list Z) : Prop :=
  forall i, (i < 16)%nat -> Z.land (byte_at a i) (byte_mask bits i) = Z.land (byte_at p i) (byte_mask bits i).

Lemma c_contains_spec a p bits : bits <= 64 -> c_contains a p bits = true <-> agrees bits a p.
Proof.
  intros Hb. unfold c_contains, agrees. rewrite (proj2 (Z.ltb_ge 64 bits)) by lia. rewrite forallb_forall. setoid_rewrite in_seq. setoid_rewrite Z.eqb_eq.
  split.
  - intros H i Hi. destruct (decide (i < 8)%nat) as [H8|H8]; [rewrite <- c_mask_eq; apply H; lia|]. by rewrite byte_mask_0, !Z.land_0_r by lia.
  - intros H i Hi. rewrite c_mask_eq. apply H. lia.
Qed.

Lemma mask_bits_spec n : (n <= 64)%nat ->
  length (fold_left mask_bit (seq 0 n) (repeat 0 8)) = 8%nat /\
  forall i, (i < 8)%nat -> byte_at (fold_left mask_bit (seq 0 n) (repeat 0 8)) i = byte_mask (Z.of_nat n) i.
Proof.
  induction n as [|n IH]; intros Hn.
  - split; [done|]. intros i Hi. rewrite byte_mask_0 by lia. unfold byte_at. do 8 (destruct i as [|i]; [done|]). lia.
  - destruct IH as [Hl IH]; [lia|]. rewrite seq_S, fold_left_snoc, Nat.add_0_l. set (m := fold_left _ _ _) in *.
    assert (n / 8 < 8)%nat as Hd by (apply Nat.Div0.div_lt_upper_bound; lia).
    split; [unfold mask_bit; by rewrite length_insert|]. intros i Hi. unfold mask_bit.
    rewrite byte_at_insert, byte_mask_succ by lia. case_bool_decide as E; [|by apply IH]. rewrite E, IH by done. done.
Qed.

(** ** The pieces of a translation *)

Section Pieces.
Context (bits : Z) (Hbits : 0 <= bits <= 64) (a : list Z) (Ha : wf_bytes a).

Lemma c_replace_spec to : c_replace (fold_left mask_bit (seq 0 (Z.to_nat bits)) (repeat 0 8)) to a = fold_left (copy_bit to) (seq 0 (Z.to_nat bits)) a.
Proof.
  destruct (copied_bytes to bits a (proj1 Ha) Hbits) as [Hl Hc]. destruct (mask_bits_spec (Z.to_nat bits)) as [_ Hm]; [lia|]. rewrite Z2Nat.id in Hm by lia.
  apply bytes_ext; [unfold c_replace; rewrite length_imap; apply Ha|done|]. intros i Hi. rewrite Hc by done.
  unfold c_replace, byte_at at 1. rewrite nth_lookup, list_lookup_imap.
  destruct (lookup_lt_is_Some_2 a i) as [x Hx]; [rewrite (proj1 Ha); lia|]. assert (byte_at a i = x) as Hax by (unfold byte_at; by rewrite nth_lookup, Hx).
  rewrite Hx. cbn [fmap option_fmap option_map default]. rewrite Hax. destruct (Nat.ltb_spec i 8).
  - rewrite Hm by done. unfold overlay. by rewrite Z.ldiff_land.
  - by rewrite byte_mask_0, overlay_0 by lia.
Qed.

Lemma full_word_spec w : full_word a w = (word_at a w =? 65535).
Proof.
  unfold full_word, word_at. pose proof (byte_at_range a (2 * w) (proj2 Ha)). pose proof (byte_at_range a (2 * w + 1) (proj2 Ha)).
  destruct (Z.eqb_spec (byte_at a (2 * w)) 255), (Z.eqb_spec (byte_at a (2 * w + 1)) 255), (Z.eqb_spec (256 * byte_at a (2 * w) + byte_at a (2 * w + 1)) 65535); cbn; lia || done.
Qed.

Lemma first_word_spec : first_word a [4; 5; 6; 7]%nat = skip_full 4 a 4.
Proof.
  cbn [first_word skip_full]. rewrite !full_word_spec. repeat (rewrite bool_decide_true by lia; cbn [andb]).
  by destruct (word_at a 4 =? 65535), (word_at a 5 =? 65535), (word_at a 6 =? 65535), (word_at a 7 =? 65535).
Qed.

Lemma nonzero_spec : (fold_left (fun nonzero i => Z.lor nonzero (byte_at a i)) (seq 8 8) 0 =? 0) = iid_zero a.
Proof.
  unfold iid_zero. assert (forall l acc, (fold_left (fun nonzero i => Z.lor nonzero (byte_at a i)) l acc =? 0)
    = fold_left (fun z i => z && (byte_at a i =? 0)) l (acc =? 0)) as H; [|apply (H _ 0)].
  induction l as [|i l IH]; intros acc; cbn; [done|]. rewrite IH. f_equal.
  destruct (Z.eqb_spec (Z.lor acc (byte_at a i)) 0) as [E|E], (Z.eqb_spec acc 0), (Z.eqb_spec (byte_at a i) 0); cbn; try done;
    try (apply Z.lor_eq_0_iff in E; lia); exfalso; apply E; subst; rewrite ?Z.lor_0_l; congruence.
Qed.

Lemma c_word_spec : c_word bits a = match correction_word bits a with Ok w => Some w | Err _ => None end.
Proof. unfold c_word, correction_word. rewrite nonzero_spec, first_word_spec. destruct (48 <? bits); [|done]. by destruct (iid_zero a). Qed.
End Pieces.

Lemma shift_or x y : 0 <= y < 256 -> Z.lor (Z.shiftl x 8) y = 256 * x + y.
Proof.
  intros Hy. rewrite Z.shiftl_mul_pow2 by lia. pose proof (Z.add_lor_land (x * 2 ^ 8) y) as H.
  assert (Z.land (x * 2 ^ 8) y = 0) as Hz; [|rewrite Hz in H; lia]. clear H. apply Z.bits_inj'. intros n Hn. rewrite Z.land_spec, Z.bits_0. destruct (Z.ltb_spec n 8).
  - by rewrite Z.mul_pow2_bits_low by lia.
  - rewrite <- (Z.mod_small y (2 ^ 8)) by lia. rewrite <- Z.land_ones, Z.land_spec, Z.ones_spec_high by lia. by rewrite !andb_false_r.
Qed.

Lemma c_fold_step v : 0 <= v < 2 ^ 32 -> c_fold v = v mod 65536 + v / 65536.
Proof. intros Hv. unfold c_fold. rewrite fold_step by lia. apply Z.mod_small. div_lia. Qed.

(** Two rounds of folding are enough, and agree with the loop. *)
Lemma c_fold_spec v : 0 <= v <= 131070 -> c_fold (c_fold v) = fold v.
Proof.
  intros Hv. assert (0 <= v mod 65536 + v / 65536 <= 65535) as H1 by div_lia.
  rewrite (c_fold_step v) by lia. rewrite c_fold_step by lia. unfold fold. cbn [fold_loop].
  destruct (Z.ltb_spec 65535 v); [rewrite fold_step by lia; rewrite (proj2 (Z.ltb_ge 65535 _)) by lia|]; rewrite (Z.mod_small _ (2 ^ 16)) by lia; div_lia.
Qed.

(** ** The program and the policy agree *)

Lemma pairValue_ok pair m : pairValue pair = Ok m ->
  ValidatePair pair = Ok tt /\ 0 <= pfx_bits (Internal pair) <= 64 /\ 0 <= pfx_bits (External pair) <= 64 /\ m = encode_pair pair.
Proof.
  unfold pairValue. intros H. apply res_bind_ok in H as ([] & Hv & H). split; [done|]. apply res_bind_ok in H as ([] & H & [= <-]).
  apply reject_if_ok in H. repeat (apply orb_false_iff in H as [H ?]). bool_prop. split_and!; done || lia.
Qed.

Lemma valid_pairValue pair : wf_pair pair -> ValidatePair pair = Ok tt -> pairValue pair = Ok (encode_pair pair).
Proof.
  intros Hwf Hv. destruct (validated_prefixes pair tt Hwf Hv) as (i & e & Hi & He). pose proof (can_bits _ _ Hi). pose proof (can_bits _ _ He).
  unfold pairValue. rewrite Hv. cbn [res_bind]. rewrite !(proj2 (Z.ltb_ge _ _)) by lia. done.
Qed.

Lemma correction_word_le bits r w : correction_word bits r = Ok w -> (w <= 8)%nat.
Proof.
  unfold correction_word. pose proof (proj1 (proj2 (proj2 (skip_full_spec 4 r 4)))) as H. destruct (48 <? bits); [|by intros [= <-]; lia].
  destruct (iid_zero r); [done|]. intros [= <-]. exact H.
Qed.

Lemma c_translate_spec pair m out r : wf_pair pair -> pairValue pair = Ok m -> wf_bytes r ->
  c_translate m out r = match TranslateAddress pair (AddrFrom16 r) out with Ok a' => Some (As16 a') | Err _ => None end.
Proof.
  unfold AddrFrom16 at 1. intros Hwf Hm Hr. destruct (pairValue_ok _ _ Hm) as (Hv & Hbi & Hbe & ->). destruct (canonical_directions pair out Hwf Hv) as (f & t & Hf & Ht).
  set (bits := Z.max (pfx_bits (Internal pair)) (pfx_bits (External pair))). assert (0 <= bits <= 64) as Hb by lia.
  assert (Z.max (pfx_bits (direction pair out).1) (pfx_bits (direction pair out).2) = bits) as Eb by (destruct out; cbn; lia).
  unfold TranslateAddress. rewrite Hv. fold (direction pair out). cbn [res_bind].
  destruct (Adjustment_spec _ _ f t (can_addr _ _ Hf) (can_addr _ _ Ht) (proj2 (can_bytes _ _ Hf)) (proj2 (can_bytes _ _ Ht))) as [Hadj _].
  unfold c_translate. cbn [encode_pair bp_Internal bp_External bp_Mask bp_InternalBits bp_ExternalBits bp_ForwardAdjustment bp_ReverseAdjustment]. fold bits.
  replace (if pfx_bits (External pair) <? pfx_bits (Internal pair) then _ else _) with bits by (subst bits; destruct (Z.ltb_spec (pfx_bits (External pair)) (pfx_bits (Internal pair))); lia).
  replace (if out then As16 (pfx_addr (Internal pair)) else As16 (pfx_addr (External pair))) with f by (by destruct out; cbn in Hf; rewrite (can_addr _ _ Hf)).
  replace (if out then As16 (pfx_addr (External pair)) else As16 (pfx_addr (Internal pair))) with t by (by destruct out; cbn in Ht; rewrite (can_addr _ _ Ht)).
  replace (if out then Adjustment (Internal pair) (External pair) else _) with (Adjustment (direction pair out).1 (direction pair out).2) by by destruct out.
  destruct (direction pair out) as [from to]. cbn [fst snd] in *. rewrite Eb, (can_addr _ _ Ht).
  assert (c_contains r f bits = Contains (PrefixFrom (pfx_addr from) bits) (Addr6 r "")) as ->.
  { apply eq_true_iff_eq. rewrite c_contains_spec by lia. rewrite (contains_bytes from f) by done. unfold agrees.
    split; [intros H; by exists r|intros (r' & [= <-] & H); done]. }
  destruct (Contains _ _); cbn [negb reject_if res_bind As16]; [|done].
  rewrite c_word_spec by done. destruct (correction_word bits r) as [w|e] eqn:Ew; cbn [res_bind]; [|done].
  rewrite full_word_spec by done.
  destruct (Nat.leb_spec 8 w) as [H8|H8].
  { pose proof (correction_word_le bits r w Ew). assert (w = 8%nat) as -> by lia. by rewrite bool_decide_true. }
  rewrite (bool_decide_false (w = 8%nat)) by lia. cbn [orb]. destruct (word_at r w =? 65535) eqn:Efull; [done|]. cbn [reject_if res_bind].
  assert (free_word bits w) as Hfree by (eapply correction_word_free; [lia|done|lia]).
  rewrite c_replace_spec by done. set (c := fold_left (copy_bit t) (seq 0 (Z.to_nat bits)) r).
  assert (word_at c w = word_at r w) as Hcw by (apply copied_word; [apply Hr|done..]).
  pose proof (word_at_range r w (proj2 Hr)) as Hrange.
  pose proof (proj2 (copied_bytes t bits r (proj1 Hr) Hb)) as Hcb. fold c in Hcb.
  destruct Hfree as [_ Hfw].
  rewrite shift_or by (rewrite Hcb, byte_mask_0, overlay_0 by lia; apply byte_at_range, Hr). fold (word_at c w). rewrite Hcw.
  rewrite (Z.mod_small (word_at r w + _)) by lia. rewrite c_fold_spec by lia. fold (normalize (fold (word_at r w + Adjustment from to))).
  destruct (fold_spec (word_at r w + Adjustment from to)) as [Hfr _]; [lia|]. destruct (normalize_spec _ Hfr) as [Hn _].
  set (v := normalize _) in *. f_equal. unfold put_word. rewrite Z.shiftr_div_pow2 by lia. rewrite (Z.mod_small (v / 2 ^ 8)) by div_lia.
  by rewrite list_insert_insert_ne by lia.
Qed.

(** ** Exceptions *)

Lemma c_equal_spec a b : length a = 16%nat -> length b = 16%nat -> c_equal a b = bool_decide (a = b).
Proof.
  intros Ha Hb. apply eq_true_iff_eq. rewrite bool_decide_eq_true. unfold c_equal. rewrite forallb_forall. setoid_rewrite in_seq. setoid_rewrite Z.eqb_eq.
  split; [|by intros ->]. intros H. apply bytes_ext; [done..|]. intros i Hi. apply H. lia.
Qed.

Lemma c_excepted_spec a l : length a = 16%nat -> Forall (fun x => length x = 16%nat) l -> (length l <= 16)%nat ->
  c_excepted a (array (repeat 0 16) 16 l) (Z.of_nat (length l)) 0 16 = bool_decide (a ∈ l).
Proof.
  intros Ha Hl Hn.
  assert (forall fuel i, (i + fuel = 16)%nat -> c_excepted a (array (repeat 0 16) 16 l) (Z.of_nat (length l)) i fuel = bool_decide (a ∈ drop i l)) as H;
    [|by rewrite H].
  induction fuel as [|fuel IH]; intros i Hi; cbn [c_excepted].
  - rewrite drop_ge by lia. by rewrite bool_decide_false by apply not_elem_of_nil.
  - destruct (Z.leb_spec (Z.of_nat (length l)) (Z.of_nat i)) as [Hle|Hlt].
    + rewrite drop_ge by lia. by rewrite bool_decide_false by apply not_elem_of_nil.
    + destruct (lookup_lt_is_Some_2 l i) as [x Hx]; [lia|]. rewrite (drop_S l x i Hx).
      assert (nth i (array (repeat 0 16) 16 l) [] = x) as -> by (unfold array; rewrite app_nth1 by lia; by apply nth_lookup_Some).
      rewrite c_equal_spec; [|done|by eapply (Forall_lookup_1 _ _ _ _ Hl)]. case_bool_decide as E.
      * subst x. by rewrite bool_decide_true by left.
      * rewrite IH by lia. apply bool_decide_ext. set_solver.
Qed.

Definition side_exceptions (pair : PrefixPair) (source : bool) : list Addr := if source then SourceExceptions pair else DestinationExceptions pair.

Lemma valid_exceptions pair source : ValidatePair pair = Ok tt -> Forall (fun a => Is6 a = true) (side_exceptions pair source) /\ (length (side_exceptions pair source) <= 16)%nat.
Proof.
  unfold ValidatePair. intros H. apply res_bind_ok in H as (_ & _ & H). apply res_bind_ok in H as (_ & _ & H). apply res_bind_ok in H as ([] & Hn & H).
  apply reject_if_ok, orb_false_iff in Hn as [H1 H2]. bool_prop. apply check_all_ok in H. rewrite !Forall_cons in H. destruct H as (Hs & Hd & _).
  assert (forall l, check_all (fun a => reject_if (negb (Is6 a) || Is4In6 a) "NPTv6 pair exception is not IPv6") l = Ok tt -> Forall (fun a => Is6 a = true) l) as Hl.
  { intros l Hl%check_all_ok. eapply Forall_impl; [done|]. intros e He%reject_if_ok. apply orb_false_iff in He as [He _]. by apply negb_false_iff in He. }
  unfold MaxExceptions in *. destruct source; cbn; split; auto with lia.
Qed.

(** The addresses a pair leaves alone have sixteen bytes. *)
Definition wf_exceptions (pair : PrefixPair) : Prop := Forall wf_addr (SourceExceptions pair) /\ Forall wf_addr (DestinationExceptions pair).

Lemma excepted_spec pair m source a : pairValue pair = Ok m -> wf_exceptions pair -> length a = 16%nat ->
  excepted m a source = bool_decide (a ∈ As16 <$> side_exceptions pair source).
Proof.
  intros Hm [Hs Hd] Ha. destruct (pairValue_ok _ _ Hm) as (Hv & _ & _ & ->). destruct (valid_exceptions pair source Hv) as [H6 Hn].
  assert (Forall wf_addr (side_exceptions pair source)) as Hw by by destruct source.
  assert (Forall (fun x => length x = 16%nat) (As16 <$> side_exceptions pair source)) as Hl.
  { apply Forall_fmap. rewrite Forall_forall in Hw, H6 |- *. intros x Hx. specialize (Hw x Hx). specialize (H6 x Hx). destruct x; try done. apply Hw. }
  unfold excepted. destruct source; cbn [encode_pair bp_SourceExceptions bp_SourceCount bp_DestinationExceptions bp_DestinationCount side_exceptions] in *;
    rewrite <- (c_excepted_spec a _ Ha Hl) by (by rewrite length_fmap); by rewrite length_fmap.
Qed.
