(* ===== verification/BpfClaims.v ===== *)
(** * The packet program keeps what the prefix policy promises *)

From S2P Require Import Prelude GoStrings NptPolicy BpfProgram BpfProps BpfPolicy.

Local Open Scope Z_scope.

(** The header of the packet before the payload, except the translated address. *)
Definition header_kept (offset : nat) (source : bool) (s s' : sk_buff) : Prop :=
  length (sk_data s') = length (sk_data s) /\
  forall i, (i < offset + 40)%nat -> ~ (addr_at offset source <= i < addr_at offset source + 16)%nat -> sk_data s' !! i = sk_data s !! i.

Definition next_header (s : sk_buff) (offset : nat) : Z := default 0 (sk_data s !! (offset + 6)%nat).

Definition in_exceptions (pair : PrefixPair) (source : bool) (a : list Z) : Prop := a ∈ As16 <$> side_exceptions pair source.

Lemma next_header_lookup v s offset : wf_skb v s offset -> sk_data s !! (offset + 6)%nat = Some (next_header s offset).
Proof. intros Hs. unfold next_header. destruct (lookup_lt_is_Some_2 (sk_data s) (offset + 6)) as [x ->]; [pose proof (ws_header _ _ _ Hs); lia|done]. Qed.

Lemma not_internal v : negb (bo_Internal v =? 0) = false -> forall s ingress a m, selects v s ingress a m = in_side m (negb ingress) a.
Proof. intros H s ingress a m. unfold selects. by rewrite H. Qed.

Lemma untag_wan v c s : negb (bo_Internal v =? 0) = false -> untag v c s = s.
Proof. intros H. unfold untag. by rewrite H. Qed.

(** One selected pair, in a packet that was not excepted. *)
Lemma translate_step pair m s0 s offset ingress b : pairValue pair = Ok m -> wf_pair pair -> wf_bytes (addr_of s offset (negb ingress)) ->
  sk_data s0 = sk_data s -> (offset + 40 <= length (sk_data s))%nat ->
  TranslateAddress pair (AddrFrom16 (addr_of s offset (negb ingress))) (negb ingress) = Ok b ->
  exists s1, store_bytes s0 (addr_at offset (negb ingress)) (As16 b) = Some s1 /\ c_translate m (negb ingress) (addr_of s offset (negb ingress)) = Some (As16 b) /\
    length (As16 b) = 16%nat /\ (next_header s offset ∉ inspected -> translate_icmp_error s1 m offset (negb ingress) = Some s1).
Proof.
  intros Hm Hwf Ha Hd Hl Ht. pose proof (c_translate_spec pair m (negb ingress) _ Hwf Hm Ha) as Hc. rewrite Ht in Hc.
  assert (length (As16 b) = 16%nat) as Hb by (apply c_translate_length in Hc; by rewrite Hc, (proj1 Ha)).
  assert (addr_at offset (negb ingress) + length (As16 b) <= length (sk_data s0))%nat as Hfit by (rewrite Hd, Hb; unfold addr_at; destruct ingress; cbn; lia).
  eexists. split; [unfold store_bytes; by rewrite (proj2 (Nat.leb_le _ _))|]. split_and!; [done..|]. intros Hn. apply (icmp_plain _ _ _ _ (next_header s offset)); [|done].
  cbn [sk_data set_data]. rewrite splice_lookup by done. rewrite bool_decide_false by (unfold addr_at; destruct ingress; cbn; lia). rewrite Hd.
  unfold next_header. destruct (lookup_lt_is_Some_2 (sk_data s) (offset + 6)) as [x ->]; [lia|done].
Qed.

(** What the program does on a WAN interface, by the outcome. *)
Lemma wan_packet_outcome policy encap v s offset ingress :
  policyValue policy encap = Ok v -> ip_Internal policy = false -> wf_pairs (ip_Pairs policy) -> wf_skb v s offset ->
  let source := negb ingress in let a := addr_of s offset source in
  match process_policy v s ingress with
  | TC_ACT_OK s' =>
      s' = s /\ (forall pair, pair ∈ ip_Pairs policy -> Contains (side pair source) (AddrFrom16 a) = false) \/
      exists pair, longest policy s offset ingress pair /\
        (s' = s /\ in_exceptions pair source a \/
         ~ in_exceptions pair source a /\ header_kept offset source s s' /\
         exists b, TranslateAddress pair (AddrFrom16 a) source = Ok b /\ addr_of s' offset source = As16 b)
  | TC_ACT_SHOT =>
      exists pair, longest policy s offset ingress pair /\ ~ in_exceptions pair source a /\
        ((exists e, TranslateAddress pair (AddrFrom16 a) source = Err e) \/ next_header s offset ∈ inspected)
  end.
Proof.
  intros Hpv Hint Hw Hs source a. destruct (policyValue_ok _ _ _ Hpv) as [mapped Hv]. pose proof (pv_internal _ _ _ Hv) as Hi. rewrite Hint in Hi.
  pose proof (addr_wf v s offset Hs ingress) as Ha.
  rewrite (process_unfold policy v mapped Hv s offset Hs ingress). rewrite !(untag_wan v _ _ Hi).
  destruct (List.find _ _) as [i|] eqn:Ef; [|left; split; [done|]; by apply (none_selected policy v mapped Hv Hw s offset Hs ingress (not_internal v Hi s ingress a))].
  destruct (found_pair policy v mapped Hv Hw s offset ingress i Ef) as (pair & Hp & Hm & Wp & We).
  pose proof (selected_longest policy v mapped Hv Hw s offset Hs ingress (not_internal v Hi s ingress a) i pair Ef Hp) as Hlong.
  cbv zeta. fold source. fold a. rewrite (excepted_spec pair _ source a Hm We (proj1 Ha)). case_bool_decide as Hex; [rewrite (untag_wan v _ _ Hi); right; exists pair; by auto|].
  pose proof (c_translate_spec pair _ source a Wp Hm Ha) as Hc.
  destruct (TranslateAddress pair (AddrFrom16 a) source) as [b|e] eqn:Ht; fold source a; rewrite Hc; [|exists pair; split_and!; [done..|left; by eexists]].
  destruct (translate_step pair _ s s offset ingress b Hm Wp Ha eq_refl (ws_header _ _ _ Hs) Ht) as (s1 & Hst & _ & Hb & Hplain). fold source in Hst, Hplain. rewrite Hst.
  destruct (translate_icmp_error s1 _ offset source) as [s2|] eqn:Ei.
  - right. exists pair. split; [done|]. right. split; [done|].
    destruct (store_translated s offset ingress s (As16 b) s1 s2 _ eq_refl Hb Hst Ei) as (E1 & E2 & E3 & _).
    assert (finish_packet v ingress (pair_at mapped i) s2 = s2) as -> by (unfold finish_packet; apply negb_false_iff in Hi; by rewrite Hi).
    split; [by split|]. by exists b.
  - exists pair. split_and!; [done..|]. right. destruct (decide (next_header s offset ∈ inspected)) as [|Hn]; [done|]. by specialize (Hplain Hn).
Qed.

(** C5. On a WAN interface a packet leaves with its source, and arrives with its destination,
    translated as the policy of the longest matching prefix says, and nothing else of its header
    changed; a packet no prefix contains and an excepted address pass unchanged; a packet whose
    address has no translation is dropped, never passed with the wrong address, and a packet with
    a translation is dropped only if it carries ICMPv6 or extension headers. *)
Theorem wan_packets_translated policy encap v s offset ingress :
  policyValue policy encap = Ok v -> ip_Internal policy = false -> wf_pairs (ip_Pairs policy) -> wf_skb v s offset ->
  let source := negb ingress in let a := addr_of s offset source in
  match process_policy v s ingress with
  | TC_ACT_OK s' =>
      s' = s /\ (forall pair, pair ∈ ip_Pairs policy -> Contains (side pair source) (AddrFrom16 a) = false) \/
      exists pair, longest policy s offset ingress pair /\
        (s' = s /\ in_exceptions pair source a \/
         ~ in_exceptions pair source a /\ header_kept offset source s s' /\
         exists b, TranslateAddress pair (AddrFrom16 a) source = Ok b /\ addr_of s' offset source = As16 b)
  | TC_ACT_SHOT =>
      exists pair, longest policy s offset ingress pair /\ ~ in_exceptions pair source a /\
        ((exists e, TranslateAddress pair (AddrFrom16 a) source = Err e) \/ next_header s offset ∈ inspected)
  end.
Proof. apply wan_packet_outcome. Qed.

(** ** Replies *)

Lemma agrees_mono bits bits' a p : bits <= bits' -> agrees bits' a p -> agrees bits a p.
Proof.
  intros Hle H i Hi. specialize (H i Hi). assert (byte_mask bits i = Z.land (byte_mask bits' i) (byte_mask bits i)) as ->.
  { rewrite Z.land_comm. unfold byte_mask. rewrite mask_mono; [done| |]; unfold bits_in; lia. }
  by rewrite !Z.land_assoc, H.
Qed.

(** A translated address lies in the prefix it is translated from, and its translation in the other. *)
Lemma translated_in_side pair r out b : wf_pair pair -> wf_bytes r -> TranslateAddress pair (AddrFrom16 r) out = Ok b -> Contains (side pair out) (AddrFrom16 r) = true.
Proof.
  intros Hwf Hr Ht. pose proof (TranslateAddress_validates _ _ _ _ Ht) as Hv. destruct (canonical_directions pair out Hwf Hv) as (f & t & Hf & Htt).
  pose proof (valid_pairValue pair Hwf Hv) as Hm.
  rewrite <- (in_side_spec pair _ out r Hwf Hm Hr). pose proof (c_translate_spec pair _ out r Hwf Hm Hr) as Hc. rewrite Ht in Hc.
  pose proof (can_bits _ _ Hf) as B1. pose proof (can_bits _ _ Htt) as B2.
  unfold c_translate in Hc. cbn [encode_pair bp_Internal bp_External bp_InternalBits bp_ExternalBits] in Hc. destruct (c_contains r _ _) eqn:Ec; [|done]. clear Hc.
  unfold in_side. destruct out; cbn in *; (apply c_contains_spec; [lia|]; apply c_contains_spec in Ec; [|destruct (_ <? _); lia]; eapply agrees_mono, Ec);
    destruct (Z.ltb_spec (pfx_bits (External pair)) (pfx_bits (Internal pair))); lia.
Qed.

(** A translated address lies in the prefix of the other side. *)
Lemma translated_to_side pr r out b : wf_pair pr -> wf_bytes r -> TranslateAddress pr (AddrFrom16 r) out = Ok b -> Contains (side pr (negb out)) b = true.
Proof.
  intros Hwf Hr Ht. assert (wf_addr (AddrFrom16 r)) as Hwa by done. destruct (translation_of _ _ _ _ Hwf Hwa Ht) as (bits & adj & adj' & f & t & r0 & r' & w & _ & -> & T).
  pose proof (tr_wf f t adj bits w r0 r' (tl_t T) (tl_r T) (tl_bits T) (tl_adj T) (tl_tr T)) as Hr'.
  pose proof (tr_in_target f t adj bits w r0 r' (tl_r T) (tl_bits T) (tl_tr T)) as Hin. pose proof (TranslateAddress_validates _ _ _ _ Ht) as Hv.
  pose proof (valid_pairValue pr Hwf Hv) as Hm. change (Addr6 r' "") with (AddrFrom16 r'). rewrite <- (in_side_spec pr _ (negb out) r' Hwf Hm Hr').
  pose proof (tl_to _ _ _ _ _ _ _ _ _ _ T) as Ht'. pose proof (can_addr _ _ Ht') as Ea. pose proof (can_bits _ _ Ht') as Hb. pose proof (tl_bits_eq T) as Eb.
  unfold in_side. destruct out; cbn in Ea, Hb |- *; rewrite Ea; cbn; (apply c_contains_spec; [lia|]; apply (agrees_mono _ bits); [lia|exact Hin]).
Qed.

(** With one pair, what leaves from inside its prefix and is not excepted leaves from the outside
    prefix, with the same checksum, or not at all: without a translation, or for what it carries. *)
Definition leaves_translated (v : nptPolicy) (pr : PrefixPair) (sk : sk_buff) (offset : nat) : Prop :=
  let a := addr_of sk offset true in
  match process_policy v sk false with
  | TC_ACT_OK sk' =>
      let a' := addr_of sk' offset true in
      Contains (External pr) (AddrFrom16 a') = true /\ word_sum a' mod 65535 = word_sum a mod 65535 /\ header_kept offset true sk sk'
  | TC_ACT_SHOT => (exists e, TranslateAddress pr (AddrFrom16 a) true = Err e) \/ next_header sk offset ∈ inspected
  end.

Lemma line_translates index pr encap v sk offset : policyValue (mkInterfacePolicy index false [pr]) encap = Ok v -> wf_pairs [pr] -> wf_skb v sk offset ->
  Contains (Internal pr) (AddrFrom16 (addr_of sk offset true)) = true -> ~ in_exceptions pr true (addr_of sk offset true) -> leaves_translated v pr sk offset.
Proof.
  intros Hv Hw Hs Hin Hex. pose proof (wan_packet_outcome _ encap v sk offset false Hv eq_refl Hw Hs) as H. cbn [negb] in H.
  pose proof (addr_wf v sk offset Hs false) as Ha. cbn [negb] in Ha. destruct (proj1 (Forall_singleton _ _) Hw) as [Wp _]. unfold leaves_translated. cbv zeta.
  destruct (process_policy v sk false) as [sk'|].
  - destruct H as [[_ H]|(pr' & [Hl _] & H)]; [specialize (H pr ltac:(left)); cbn [side] in H; congruence|].
    apply list_elem_of_singleton in Hl as ->. destruct H as [[_ H]|(_ & Hk & b & Ht & E)]; [done|]. rewrite E.
    assert (wf_addr (AddrFrom16 (addr_of sk offset true))) as Hwa by done.
    pose proof (translated_to_side pr _ true b Wp Ha Ht) as Hc. pose proof (translate_checksum_neutral pr _ true b Wp Hwa Ht) as Hsum.
    destruct (translation_of _ _ _ _ Wp Hwa Ht) as (? & ? & ? & ? & ? & ? & r' & ? & ? & -> & _). by split_and!.
  - destruct H as (pr' & [Hl _] & _ & H). apply list_elem_of_singleton in Hl as ->. exact H.
Qed.

Lemma single_value index pair encap v : policyValue (mkInterfacePolicy index false [pair]) encap = Ok v ->
  exists m, policy_value (mkInterfacePolicy index false [pair]) v [m] /\ pairValue pair = Ok m /\ negb (bo_Internal v =? 0) = false.
Proof.
  intros H. apply policyValue_ok in H as [mapped Hv]. pose proof (pv_mapped _ _ _ Hv) as Hm. cbn [ip_Pairs] in Hm.
  apply Forall2_cons_inv_l in Hm as (m & l & Hp & Hl & ->). apply Forall2_nil_inv_l in Hl as ->. exists m. split_and!; [done..|]. apply (pv_internal _ _ _ Hv).
Qed.

(** With one pair, the program translates what lies in its prefix. *)
Lemma single_packet index pair encap v s offset ingress b : policyValue (mkInterfacePolicy index false [pair]) encap = Ok v -> wf_pairs [pair] -> wf_skb v s offset ->
  let source := negb ingress in let a := addr_of s offset source in
  ~ in_exceptions pair source a -> TranslateAddress pair (AddrFrom16 a) source = Ok b -> next_header s offset ∉ inspected ->
  exists s', process_policy v s ingress = TC_ACT_OK s' /\ addr_of s' offset source = As16 b /\ header_kept offset source s s'.
Proof.
  intros Hpv Hw Hs source a Hex Ht Hn. destruct (single_value _ _ _ _ Hpv) as (m & Hv & Hm & Hi). pose proof (addr_wf v s offset Hs ingress) as Ha.
  destruct (proj1 (Forall_singleton _ _) Hw) as [Wp We].
  rewrite (process_unfold _ v [m] Hv s offset Hs ingress). unfold program_order, order_of. cbn [length seq sort_desc foldr insert_desc List.find].
  rewrite (not_internal v Hi). change (pair_at [m] 0) with m. fold source. fold a.
  rewrite (in_side_spec pair m source a Wp Hm Ha), (translated_in_side pair a source b Wp Ha Ht). cbv beta iota zeta. change (pair_at [m] 0) with m. fold source. fold a. rewrite !(untag_wan v _ _ Hi).
  rewrite (excepted_spec pair m source a Hm We (proj1 Ha)), bool_decide_false by done.
  destruct (translate_step pair m s s offset ingress b Hm Wp Ha eq_refl (ws_header _ _ _ Hs) Ht) as (s1 & Hst & Hc & Hb & Hplain). fold source a in Hst, Hc, Hplain.
  specialize (Hplain Hn). rewrite Hc, Hst, Hplain. eexists. split; [done|].
  destruct (store_translated s offset ingress s (As16 b) s1 s1 _ eq_refl Hb Hst Hplain) as (E1 & E2 & E3 & _).
  unfold finish_packet. apply negb_false_iff in Hi. rewrite Hi. done.
Qed.


(** ** Hairpinned traffic *)

Lemma tag_bits id : 0 <= id < 65536 -> Z.land (Z.lor HairpinTag id) HairpinMask = HairpinTag /\ Z.land (Z.lor HairpinTag id) 65535 = id.
Proof.
  intros Hid. assert (Z.land id (Z.ones 16) = id) as Ei by (rewrite Z.land_ones by lia; by apply Z.mod_small).
  rewrite !Z.land_lor_distr_l. split.
  - change (Z.land HairpinTag HairpinMask) with HairpinTag. rewrite <- Ei, <- Z.land_assoc. change (Z.land (Z.ones 16) HairpinMask) with 0.
    by rewrite Z.land_0_r, Z.lor_0_r.
  - change (Z.land HairpinTag 65535) with 0. change 65535 with (Z.ones 16). by rewrite Ei.
Qed.

Section Hairpin.
Context (policy : InterfacePolicy) (v : nptPolicy) (mapped : list nptPair) (Hv : policy_value policy v mapped) (Hw : wf_pairs (ip_Pairs policy)).
Context (Hint : ip_Internal policy = true) (Hids : Forall (fun pair => 0 <= ID pair < 65536) (ip_Pairs policy)).

Lemma is_internal : negb (bo_Internal v =? 0) = true.
Proof. by rewrite (pv_internal _ _ _ Hv). Qed.

Lemma ingress_selection s a m : selects v s true a m = in_side m false a.
Proof. unfold selects. by rewrite andb_false_r. Qed.

Lemma untagged s : tagged s = true -> tagged (untag v true s) = false.
Proof. intros _. unfold untag. by rewrite is_internal. Qed.

Lemma mapped_id i pair : ip_Pairs policy !! i = Some pair -> bp_ID (pair_at mapped i) = ID pair.
Proof. intros Hi. destruct (mapped_pair policy v mapped Hv i pair Hi) as [_ Hm]. by destruct (pairValue_ok _ _ Hm) as (_ & _ & _ & ->). Qed.

(** A packet that enters tagged was translated, by the pair its tag names. *)
Lemma ingress_tagged s offset s1 : wf_skb v s offset -> process_policy v s true = TC_ACT_OK s1 -> tagged s1 = true ->
  exists pair b, longest policy s offset true pair /\ TranslateAddress pair (AddrFrom16 (addr_of s offset false)) false = Ok b /\
    addr_of s1 offset false = As16 b /\ sk_priority s1 = Z.lor HairpinTag (ID pair) /\ sk_mark s1 = 0.
Proof.
  intros Hs Hp Ht. pose proof (addr_wf v s offset Hs true) as Ha. cbn [negb] in Ha. set (s0 := untag v (true && tagged s) s).
  assert (tagged s0 = false) as Hs0.
  { unfold s0. cbn [andb]. destruct (tagged s) eqn:E; [by apply untagged|]. unfold untag. by rewrite andb_false_r. }
  assert (sk_data s0 = sk_data s) as Hd by (unfold s0, untag; by destruct (negb (bo_Internal v =? 0) && _)).
  rewrite (process_unfold policy v mapped Hv s offset Hs true) in Hp. fold s0 in Hp.
  destruct (List.find _ _) as [i|] eqn:Ef; [|injection Hp as <-; congruence]. cbv zeta in Hp. fold s0 in Hp.
  destruct (found_pair policy v mapped Hv Hw s offset true i Ef) as (pair & Hi & Hm & Wp & We).
  pose proof (selected_longest policy v mapped Hv Hw s offset Hs true (ingress_selection s _) i pair Ef Hi) as Hlong. cbn [negb] in Hp.
  destruct (excepted _ _ _); [injection Hp as <-; unfold untag in Ht; rewrite andb_false_r in Ht; congruence|].
  pose proof (c_translate_spec pair _ false _ Wp Hm Ha) as Hc. destruct (TranslateAddress pair _ false) as [b|e] eqn:Et; rewrite Hc in Hp; [|done].
  destruct (store_bytes s0 _ (As16 b)) as [s2|] eqn:Hst; [|done]. destruct (translate_icmp_error s2 _ offset false) as [s3|] eqn:Ei; [|done].
  assert (length (As16 b) = 16%nat) as Hb by (apply c_translate_length in Hc; by rewrite Hc, (proj1 Ha)).
  destruct (store_translated s offset true s0 (As16 b) s2 s3 _ Hd Hb Hst Ei) as (E1 & _). cbn [negb] in E1.
  exists pair, b. injection Hp as <-. unfold finish_packet. pose proof is_internal as Hn. apply negb_true_iff in Hn. rewrite Hn. split_and!; try done.
  cbn. by rewrite (mapped_id i pair Hi).
Qed.

(** On the way out the tag names the pair again. *)
Lemma egress_selected s offset pair i : wf_skb v s offset -> ip_Pairs policy !! i = Some pair -> sk_priority s = Z.lor HairpinTag (ID pair) ->
  List.find (fun j => selects v s false (addr_of s offset true) (pair_at mapped j)) (program_order mapped false) = Some i.
Proof.
  intros Hs Hi Hpr. rewrite Forall_forall in Hids. assert (0 <= ID pair < 65536) as Hid by by apply Hids; eapply list_elem_of_lookup_2.
  destruct (tag_bits _ Hid) as [Ht Hlow].
  assert (forall j q, ip_Pairs policy !! j = Some q -> selects v s false (addr_of s offset true) (pair_at mapped j) = (ID pair =? ID q)) as Hsel.
  { intros j q Hj. unfold selects, tagged. rewrite is_internal, Hpr, Ht, Hlow, (mapped_id j q Hj). cbn [negb andb]. by rewrite Z.eqb_refl. }
  destruct (List.find _ _) as [j|] eqn:Ef.
  - apply List.find_some in Ef as [Hj%list_elem_of_In Hs']. apply order_of_elem in Hj. destruct (mapped_inv policy v mapped Hv j Hj) as (q & Hq & _).
    rewrite (Hsel j q Hq) in Hs'. apply Z.eqb_eq in Hs'. f_equal. pose proof (pv_ids _ _ _ Hv) as Hd.
    apply (NoDup_lookup _ _ _ (ID pair) Hd); rewrite list_lookup_fmap; [by rewrite Hq, Hs'|by rewrite Hi].
  - pose proof (find_none _ _ Ef i) as Hno. cbv beta in Hno. rewrite (Hsel i pair Hi), Z.eqb_refl in Hno. exfalso. assert (true = false); [|done]. apply Hno.
    apply order_of_elem. by apply (mapped_pair policy v mapped Hv i pair).
Qed.
End Hairpin.

(** C30. Hairpinned traffic is translated on both sides and by one pair: a packet the internal
    interface lets in with the hairpin tag had its destination translated by the longest matching
    pair and its mark cleared, so that no tag a sender chose survives; when it leaves by the
    internal interface its tag is removed, and its source is translated by that same pair, is one
    of its exceptions, or the packet is dropped. *)
Theorem hairpin_both_sides policy encap v s offset s1 s2 offset' :
  policyValue policy encap = Ok v -> ip_Internal policy = true -> wf_pairs (ip_Pairs policy) -> Forall (fun pair => 0 <= ID pair < 65536) (ip_Pairs policy) ->
  wf_skb v s offset -> process_policy v s true = TC_ACT_OK s1 -> tagged s1 = true -> wf_skb v s2 offset' -> sk_priority s2 = sk_priority s1 ->
  let a := addr_of s2 offset' true in
  exists pair b, longest policy s offset true pair /\ TranslateAddress pair (AddrFrom16 (addr_of s offset false)) false = Ok b /\
    addr_of s1 offset false = As16 b /\ sk_mark s1 = 0 /\
    match process_policy v s2 false with
    | TC_ACT_OK s3 =>
        sk_priority s3 = 0 /\
        (in_exceptions pair true a /\ sk_data s3 = sk_data s2 \/
         ~ in_exceptions pair true a /\ exists c, TranslateAddress pair (AddrFrom16 a) true = Ok c /\ addr_of s3 offset' true = As16 c)
    | TC_ACT_SHOT =>
        ~ in_exceptions pair true a /\ ((exists e, TranslateAddress pair (AddrFrom16 a) true = Err e) \/ next_header s2 offset' ∈ inspected)
    end.
Proof.
  intros Hpv Hint Hw Hids Hs Hp Ht Hs2 Hpr a. destruct (policyValue_ok _ _ _ Hpv) as [mapped Hv].
  destruct (ingress_tagged policy v mapped Hv Hw Hint s offset s1 Hs Hp Ht) as (pair & b & Hlong & Htr & Had & Hpri & Hmark).
  exists pair, b. split_and!; [done..|]. destruct (list_elem_of_lookup_1 _ _ (proj1 Hlong)) as [i Hi].
  destruct (mapped_pair policy v mapped Hv i pair Hi) as [_ Hm]. pose proof (addr_wf v s2 offset' Hs2 false) as Ha. cbn [negb] in Ha. fold a in Ha.
  destruct (proj1 (Forall_forall _ _) Hw pair (proj1 Hlong)) as [Wp We]. pose proof (is_internal policy v mapped Hv Hint) as Hi'.
  rewrite (process_unfold policy v mapped Hv s2 offset' Hs2 false). cbn [negb andb].
  rewrite (egress_selected policy v mapped Hv Hint Hids s2 offset' pair i Hs2 Hi) by congruence. cbv zeta. fold a.
  assert (untag v false s2 = s2) as -> by (unfold untag; by rewrite andb_false_r).
  rewrite (excepted_spec pair _ true a Hm We (proj1 Ha)). case_bool_decide as Hex.
  { unfold untag. rewrite Hi'. cbn. auto. }
  pose proof (c_translate_spec pair _ true a Wp Hm Ha) as Hc. destruct (TranslateAddress pair (AddrFrom16 a) true) as [c|e] eqn:Et; rewrite Hc; [|split; [done|left; by eexists]].
  destruct (translate_step pair _ s2 s2 offset' false c Hm Wp Ha eq_refl (ws_header _ _ _ Hs2) Et) as (s4 & Hst & _ & Hb & Hplain). cbn [negb] in Hst, Hplain. rewrite Hst.
  destruct (translate_icmp_error s4 _ offset' true) as [s5|] eqn:Ei.
  - destruct (store_translated s2 offset' false s2 (As16 c) s4 s5 _ eq_refl Hb Hst Ei) as (E1 & _). cbn [negb] in E1.
    unfold finish_packet. apply negb_true_iff in Hi'. rewrite Hi'. split; [done|]. right. split; [done|]. by exists c.
  - split; [done|]. right. destruct (decide (next_header s2 offset' ∈ inspected)) as [|Hn]; [done|]. by specialize (Hplain Hn).
Qed.

(** C7. The packet program and the policy package agree: on every address, and in both
    directions, the program run with the encoding of an accepted pair produces the address
    [TranslateAddress] gives, and drops exactly the addresses it refuses. *)
Theorem program_matches_policy pair m out r : wf_pair pair -> pairValue pair = Ok m -> wf_bytes r ->
  c_translate m out r = match TranslateAddress pair (AddrFrom16 r) out with Ok a => Some (As16 a) | Err _ => None end.
Proof. apply c_translate_spec. Qed.
