(* ===== verification/BpfTranslator.v ===== *)
(** * The prefix translator (gateway/internal/ifmgr/modules/npt/bpf/translator.go, pins.go, native_policy.go, edge_inspect.go, edge_stale_inspect.go)

    What installs the packet program: the policy map and the traffic-control filters of the
    kernel are the class [TcKernel], and [Translator_Reconcile] brings them to the policies of a
    pass. *)

From S2P Require Import Prelude GoStrings Effects NptPolicy BgpFib NetWire Firewall BpfProgram.

Local Open Scope Z_scope.

(** ** Filters *)

Definition filterPriority : Z := 45010.
Definition filterHandle : Z := 0x4e50.
Definition ETH_P_ALL : Z := 3.

(** [tf_Bpf]: the filter is a BPF classifier, with the fields that follow. *)
Record tc_filter := mkTcFilter {
  tf_Priority : Z;
  tf_Handle : Z;
  tf_Protocol : Z;
  tf_Bpf : bool;
  tf_Name : string;
  tf_Id : Z;
  tf_DirectAction : bool;
  tf_ClassId : Z;
  tf_Chain : option Z;
}.

#[export] Instance tc_filter_eq_dec : EqDecision tc_filter.
Proof. solve_decision. Defined.

Definition direction_String (d : Direction) : string := match d with Ingress => "ingress" | Egress => "egress" end.
Definition filterName (d : Direction) : string := "mwan-npt-" +:+ direction_String d.

Definition ownedFilter (f : tc_filter) (d : Direction) : bool :=
  tf_Bpf f && bool_decide (tf_Name f = filterName d) && (tf_Handle f =? filterHandle) && (tf_Priority f =? filterPriority).

(** What the kernel reports of a loaded program and of a policy map. *)
Definition SchedCLS : string := "SchedCLS".
Record program_info := mkProgramInfo { pi_ID : option Z; pi_Type : string; pi_Name : string; pi_MapIDs : option (list Z) }.
Record map_info := mkMapInfo { mi_ID : option Z; mi_Name : string; mi_Type : string; mi_KeySize : Z; mi_ValueSize : Z }.

Inductive map_lookup := Found (value : nptPolicy) | KeyNotExist (e : error) | LookupFailed (e : error).

(** An error and whether it says that the object does not exist. *)
Record absent_error := mkAbsentError { ae_text : error; ae_absent : bool }.

(** The objects of one generation: the two programs and their map. *)
Inductive generation := Current | Previous.

Inductive pin_name := PinIngress | PinEgress | PinPolicies.
Definition pinIngressName : string := "npt_ingress".
Definition pinEgressName : string := "npt_egress".
Definition pinPoliciesName : string := "policies".
Definition pin_String (p : pin_name) : string := match p with PinIngress => pinIngressName | PinEgress => pinEgressName | PinPolicies => pinPoliciesName end.
Definition defaultPinDirectory : string := "/sys/fs/bpf/mwan/npt".
Definition pin_path (p : pin_name) : string := defaultPinDirectory +:+ "/" +:+ pin_String p.
Definition program_pin (d : Direction) : pin_name := match d with Ingress => PinIngress | Egress => PinEgress end.

(** The translator's own fields: whether a previous generation is open, and the two flags. *)
Record translator := mkTranslator { tr_previous : bool; tr_pinsReplaced : bool; tr_closed : bool }.

(** The BPF and netlink libraries, the pin directory, and where the translator's fields are kept. *)
Class TcKernel (W : Type) := {
  get_translator : W -> translator;
  put_translator : translator -> W -> W;
  program_Info : generation -> Direction -> W -> res program_info * W;
  policies_Info : generation -> W -> res map_info * W;
  Policies_Lookup : generation -> Z -> W -> map_lookup * W;
  Policies_Update : Z -> nptPolicy -> W -> option error * W;
  Policies_Delete : Z -> W -> option absent_error * W;
  Policies_Iterate : W -> (list (Z * nptPolicy) * option error) * W;
  FilterList : Z -> Direction -> W -> res (list tc_filter) * W;
  FilterReplace : Z -> Direction -> W -> option error * W;
  FilterDel : Z -> Direction -> tc_filter -> W -> option error * W;
  QdiscList : Z -> W -> res (list string) * W;
  QdiscAdd : Z -> W -> option error * W;
  (** the link's encapsulation *)
  LinkByIndex : Z -> W -> (string + absent_error) * W;
  LinkList : W -> res (list Z) * W;
  loadNptObjects : W -> option error * W;
  LoadPinned : pin_name -> W -> option absent_error * W;
  MkdirAll : W -> option error * W;
  RemovePin : pin_name -> W -> option absent_error * W;
  Pin : pin_name -> W -> option error * W;
  Close_objects : generation -> W -> option error * W;
}.

(** [errors.Join]: the texts on lines of their own. *)
Definition joined (errs : list error) : error := String.concat (String newline EmptyString) errs.

Section Translator.
Context {W : Type} `{TK : !TcKernel W}.

Definition ReadNativeProgramID (d : Direction) : M W (res Z) :=
  info ← program_Info Current d;
  match info with
  | Err e => mret (Err ("inspect current NPTv6 program: " +:+ e)%string)
  | Ok info =>
      match pi_ID info with
      | Some identity =>
          if negb (bool_decide (pi_Type info = SchedCLS)) then mret (Err "current NPTv6 program lacks a classifier identity")
          else mapInfo ← policies_Info Current;
               mret match mapInfo with
                    | Err e => Err ("inspect current NPTv6 policy map: " +:+ e)%string
                    | Ok mapInfo =>
                        match mi_ID mapInfo with
                        | None => Err "current NPTv6 policy map lacks an identity"
                        | Some mapID =>
                            if bool_decide (pi_MapIDs info = Some [mapID]) then Ok identity
                            else Err "current NPTv6 program does not reference its exact policy map"
                        end
                    end
      | None => mret (Err "current NPTv6 program lacks a classifier identity")
      end
  end.

(** The filter the translator attaches for a program. *)
Definition exact_filter (identity : Z) (d : Direction) (f : tc_filter) : bool :=
  tf_Bpf f && ownedFilter f d && (tf_Id f =? identity) && tf_DirectAction f && (tf_Protocol f =? ETH_P_ALL) && (tf_ClassId f =? 0)
  && match tf_Chain f with None => true | Some c => c =? 0 end.

(** The scan over the filters: an error, or whether the exact filter is already there. *)
Fixpoint install_scan (index identity : Z) (d : Direction) (filters : list tc_filter) : res bool :=
  match filters with
  | [] => Ok false
  | f :: filters =>
      if (tf_Priority f =? filterPriority) && negb (ownedFilter f d)
      then Err ("interface " +:+ itoa index +:+ " " +:+ direction_String d +:+ " priority 45010 is already used")%string
      else if exact_filter identity d f then Ok true else install_scan index identity d filters
  end.

Definition installFilter (index : Z) (d : Direction) : M W (option error) :=
  identity ← ReadNativeProgramID d;
  match identity with
  | Err e => mret (Some e)
  | Ok identity =>
      filters ← FilterList index d;
      match filters with
      | Err e => mret (Some ("list NPTv6 filters: " +:+ e)%string)
      | Ok filters =>
          match install_scan index identity d filters with
          | Err e => mret (Some e)
          | Ok true => mret None
          | Ok false =>
              failed ← FilterReplace index d;
              mret match failed with Some e => Some ("replace NPTv6 filter: " +:+ e)%string | None => None end
          end
      end
  end.

Fixpoint read_scan (index expectedID : Z) (d : Direction) (filters : list tc_filter) : option error :=
  match filters with
  | [] => Some ("interface " +:+ itoa index +:+ " " +:+ direction_String d +:+ " NPTv6 attachment is absent")%string
  | f :: filters =>
      if ownedFilter f d
      then if negb (tf_Id f =? expectedID) || negb (tf_DirectAction f) || negb (tf_Protocol f =? ETH_P_ALL)
           then Some ("interface " +:+ itoa index +:+ " " +:+ direction_String d +:+ " NPTv6 program differs from desired program")%string
           else None
      else read_scan index expectedID d filters
  end.

Definition readFilter (index : Z) (d : Direction) : M W (option error) :=
  info ← program_Info Current d;
  match info with
  | Err e => mret (Some ("read NPTv6 program identity: " +:+ e)%string)
  | Ok info =>
      match pi_ID info with
      | None => mret (Some "kernel did not report NPTv6 program identity"%string)
      | Some expectedID =>
          filters ← FilterList index d;
          mret match filters with
               | Err e => Some ("list NPTv6 filters: " +:+ e)%string
               | Ok filters => read_scan index expectedID d filters
               end
      end
  end.

Definition ensureClsact (index : Z) : M W (option error) :=
  qdiscs ← QdiscList index;
  match qdiscs with
  | Err e => mret (Some ("list queue disciplines: " +:+ e)%string)
  | Ok qdiscs =>
      if bool_decide ("clsact"%string ∈ qdiscs) then mret None
      else failed ← QdiscAdd index;
           mret match failed with Some e => Some ("add clsact queue discipline: " +:+ e)%string | None => None end
  end.

Definition remove_filter (index : Z) (d : Direction) (failures : list error) (f : tc_filter) : M W (list error) :=
  if ownedFilter f d then failed ← FilterDel index d f; mret (failures ++ option_list failed) else mret failures.

Definition remove_direction (index : Z) (failures : list error) (d : Direction) : M W (list error) :=
  filters ← FilterList index d;
  match filters with
  | Err e => mret (failures ++ [e])
  | Ok filters => foldM (remove_filter index d) failures filters
  end.

Definition removeFilters (index : Z) : M W (list error) := foldM (remove_direction index) [] [Ingress; Egress].

(** ** Policies *)

Record preparedPolicy := mkPrepared { pr_Key : Z; pr_Value : nptPolicy }.

Definition interfaceKey (index : Z) : res Z :=
  if (index <? 1) || (2147483647 <? index) then Err ("interface index " +:+ itoa index +:+ " is outside the Linux interface index range")%string else Ok index.

Definition prepare_policy (acc : res (gmap Z preparedPolicy * list Z)) (policy : InterfacePolicy) : M W (res (gmap Z preparedPolicy * list Z)) :=
  match acc with
  | Err e => mret (Err e)
  | Ok (desired, seen) =>
      if bool_decide (ip_IfIndex policy ∈ seen) then mret (Err ("duplicate interface " +:+ itoa (ip_IfIndex policy))%string)
      else match interfaceKey (ip_IfIndex policy) with
           | Err e => mret (Err e)
           | Ok key =>
               link ← LinkByIndex (ip_IfIndex policy);
               mret match link with
                    | inr e => Err ("read interface " +:+ itoa (ip_IfIndex policy) +:+ ": " +:+ ae_text e)%string
                    | inl encap =>
                        match policyValue policy encap with
                        | Err e => Err e
                        | Ok value =>
                            Ok (if nonempty (ip_Pairs policy) then <[ip_IfIndex policy := mkPrepared key value]> desired else desired, seen ++ [ip_IfIndex policy])
                        end
                    end
           end
  end.

Definition preparePolicies (policies : list InterfacePolicy) : M W (res (gmap Z preparedPolicy)) :=
  acc ← foldM prepare_policy (Ok (∅, [])) policies;
  mret match acc with Err e => Err e | Ok (desired, _) => Ok desired end.

(** The policy the map holds is compared with the one written. *)
Definition verify_policy (policy : preparedPolicy) : M W (option error) :=
  actual ← Policies_Lookup Current (pr_Key policy);
  mret match actual with
       | Found value => if bool_decide (value = pr_Value policy) then None
                        else Some ("interface " +:+ itoa (pr_Key policy) +:+ " policy map differs from desired policy")%string
       | KeyNotExist e | LookupFailed e => Some e
       end.

(** [if err == nil { err = next }] *)
Definition and_then (err : option error) (next : M W (option error)) : M W (option error) :=
  match err with None => next | Some e => mret (Some e) end.

Definition attach_direction (policy : preparedPolicy) (updateErr : option error) (acc : list AttachmentState * list error) (d : Direction) :
    M W (list AttachmentState * list error) :=
  err ← and_then updateErr (installFilter (pr_Key policy) d);
  err ← and_then err (readFilter (pr_Key policy) d);
  err ← and_then err (verify_policy policy);
  mret match err with
       | Some e => (acc.1 ++ [mkAttachmentState (pr_Key policy) d false e],
                    acc.2 ++ [("interface " +:+ itoa (pr_Key policy) +:+ " " +:+ direction_String d +:+ ": " +:+ e)%string])
       | None => (acc.1 ++ [mkAttachmentState (pr_Key policy) d true ""], acc.2)
       end.

Definition reconcileInterface (policy : preparedPolicy) : M W (list AttachmentState * list error) :=
  updateErr ← ensureClsact (pr_Key policy);
  updateErr ← and_then updateErr (Policies_Update (pr_Key policy) (pr_Value policy));
  updateErr ← and_then updateErr (verify_policy policy);
  foldM (attach_direction policy updateErr) ([], []) [Ingress; Egress].

Definition remove_key (found : option error) (key : Z) : M W (option error) :=
  match found with
  | Some e => mret (Some e)
  | None =>
      deleted ← Policies_Delete key;
      match deleted with
      | Some (mkAbsentError e false) => mret (Some ("delete obsolete NPTv6 policy " +:+ itoa key +:+ ": " +:+ e)%string)
      | _ =>
          actual ← Policies_Lookup Current key;
          mret match actual with
               | Found _ => Some ("obsolete NPTv6 policy " +:+ itoa key +:+ " remains installed")%string
               | KeyNotExist _ => None
               | LookupFailed e => Some ("verify obsolete NPTv6 policy " +:+ itoa key +:+ " removal: " +:+ e)%string
               end
      end
  end.

Definition removeStaleMapEntries (desired : gmap Z preparedPolicy) : M W (option error) :=
  '(entries, failed) ← Policies_Iterate;
  match failed with
  | Some e => mret (Some ("inspect NPTv6 policy keys for removal: " +:+ e)%string)
  | None => foldM remove_key None (List.filter (fun k => bool_decide (desired !! k = None)) entries.*1)
  end.

Definition remove_link (desired : gmap Z preparedPolicy) (failures : list error) (index : Z) : M W (list error) :=
  match desired !! index with
  | Some _ => mret failures
  | None =>
      failed ← removeFilters index;
      mret (if nonempty failed then failures ++ [("remove interface " +:+ itoa index +:+ " NPTv6: " +:+ joined failed)%string] else failures)
  end.

Definition removeStalePolicies (desired : gmap Z preparedPolicy) : M W (list error) :=
  links ← LinkList;
  match links with
  | Err e => mret [("list interfaces for stale policy cleanup: " +:+ e)%string]
  | Ok links =>
      failures ← foldM (remove_link desired) [] links;
      failed ← removeStaleMapEntries desired;
      mret (failures ++ option_list failed)
  end.

Definition reconcile_interface (desired : gmap Z preparedPolicy) (acc : list AttachmentState * list error) (policy : InterfacePolicy) :
    M W (list AttachmentState * list error) :=
  match desired !! ip_IfIndex policy with
  | None => mret acc
  | Some prepared =>
      result ← reconcileInterface prepared;
      mret (acc.1 ++ result.1, acc.2 ++ (if nonempty result.2 then [joined result.2] else []))
  end.

(** ** Pins (pins.go) *)

Definition pin_targets : list pin_name := [PinIngress; PinEgress; PinPolicies].

Definition remove_pin (failures : list error) (target : pin_name) : M W (list error) :=
  failed ← RemovePin target;
  mret match failed with Some (mkAbsentError e false) => failures ++ [e] | _ => failures end.

Definition removePins (targets : list pin_name) : M W (list error) := foldM remove_pin [] targets.

Definition remove_earlier (failed : option error) (target : pin_name) : M W (option error) :=
  match failed with
  | Some e => mret (Some e)
  | None =>
      removed ← RemovePin target;
      mret match removed with Some (mkAbsentError e false) => Some ("remove earlier pin: " +:+ e)%string | _ => None end
  end.

Definition pin_target (failed : option error) (target : pin_name) : M W (option error) :=
  match failed with
  | Some e => mret (Some e)
  | None =>
      refused ← Pin target;
      match refused with
      | None => mret None
      | Some e => remains ← removePins pin_targets; mret (Some (joined (("pin " +:+ pin_path target +:+ ": " +:+ e)%string :: remains)))
      end
  end.

Definition pinObjects : M W (option error) :=
  failed ← MkdirAll;
  match failed with
  | Some e => mret (Some ("create pin directory: " +:+ e)%string)
  | None =>
      failed ← foldM remove_earlier None pin_targets;
      match failed with
      | Some e => mret (Some e)
      | None => foldM pin_target None pin_targets
      end
  end.

Definition set_translator (f : translator -> translator) : M W unit := modify (fun w => put_translator (f (get_translator w)) w).

Definition closePrevious : M W (option error) :=
  t ← gets get_translator;
  if negb (tr_previous t) then mret None
  else set_translator (fun t => mkTranslator false (tr_pinsReplaced t) (tr_closed t)) ;; Close_objects Previous.

Definition replacePins : M W unit :=
  t ← gets get_translator;
  if tr_pinsReplaced t then mret tt
  else
    failed ← pinObjects;
    match failed with
    | Some _ => mret tt
    | None => set_translator (fun t => mkTranslator (tr_previous t) true (tr_closed t)) ;; closePrevious ;; mret tt
    end.

(** [Some] of an error, or whether the three pins were opened. *)
Definition openPinnedObjects : M W (res bool) :=
  ingress ← LoadPinned PinIngress;
  match ingress with
  | Some (mkAbsentError _ true) => mret (Ok false)
  | Some (mkAbsentError e false) => mret (Err ("open pinned " +:+ pinIngressName +:+ ": " +:+ e)%string)
  | None =>
      egress ← LoadPinned PinEgress;
      match egress with
      | Some e => closed ← Close_objects Previous; mret (Err (joined (("open pinned " +:+ pinEgressName +:+ ": " +:+ ae_text e)%string :: option_list closed)))
      | None =>
          policies ← LoadPinned PinPolicies;
          match policies with
          | Some e => closed ← Close_objects Previous; mret (Err (joined (("open pinned " +:+ pinPoliciesName +:+ ": " +:+ ae_text e)%string :: option_list closed)))
          | None => mret (Ok true)
          end
      end
  end.

Definition validate_program (failed : option error) (d : Direction) : M W (option error) :=
  match failed with
  | Some e => mret (Some e)
  | None =>
      let name := pin_String (program_pin d) in
      info ← program_Info Previous d;
      mret match info with
           | Err e => Some ("inspect pinned " +:+ name +:+ ": " +:+ e)%string
           | Ok info =>
               if negb (bool_decide (pi_Type info = SchedCLS)) || negb (bool_decide (pi_Name info = name))
               then Some ("pinned " +:+ name +:+ " is a " +:+ pi_Type info +:+ " program named " +:+ Quote (pi_Name info))%string else None
           end
  end.

(** The code goes through the programs in the order of a Go map; either order decides the same. *)
Definition validatePinnedObjects (expected : map_info) : M W (option error) :=
  failed ← foldM validate_program None [Ingress; Egress];
  match failed with
  | Some e => mret (Some e)
  | None =>
      info ← policies_Info Previous;
      mret match info with
           | Err e => Some ("inspect pinned " +:+ pinPoliciesName +:+ ": " +:+ e)%string
           | Ok info =>
               if negb (bool_decide (mi_Name info = mi_Name expected)) || negb (bool_decide (mi_Type info = mi_Type expected))
                  || negb (mi_KeySize info =? mi_KeySize expected) || negb (mi_ValueSize info =? mi_ValueSize expected)
               then Some ("pinned " +:+ pinPoliciesName +:+ " has a different schema")%string else None
           end
  end.

Definition adoptPinnedObjects : M W unit :=
  opened ← openPinnedObjects;
  match opened with
  | Ok true =>
      expected ← policies_Info Current;
      failed ← match expected with Err e => mret (Some e) | Ok expected => validatePinnedObjects expected end;
      match failed with
      | Some _ => Close_objects Previous ;; mret tt
      | None => set_translator (fun t => mkTranslator true (tr_pinsReplaced t) (tr_closed t))
      end
  | _ => mret tt
  end.

Definition newTranslator : M W (option error) :=
  set_translator (fun _ => mkTranslator false false false) ;;
  failed ← loadNptObjects;
  match failed with
  | Some e => mret (Some ("load NPTv6 programs: " +:+ e)%string)
  | None => adoptPinnedObjects ;; mret None
  end.

Definition Translator_Close : M W (list error) :=
  t ← gets get_translator;
  if tr_closed t then mret []
  else
    set_translator (fun t => mkTranslator (tr_previous t) (tr_pinsReplaced t) true) ;;
    e1 ← Close_objects Current; e2 ← closePrevious; mret (option_list e1 ++ option_list e2).

(** ** The pass *)

(** The states of the attachments, and the errors of the pass. *)
Definition Translator_Reconcile (policies : list InterfacePolicy) : M W (list AttachmentState * list error) :=
  t ← gets get_translator;
  if tr_closed t then mret ([], ["NPTv6 translator is closed"%string])
  else
    desired ← preparePolicies policies;
    match desired with
    | Err e => mret ([], [e])
    | Ok desired =>
        acc ← foldM (reconcile_interface desired) ([], []) policies;
        if nonempty acc.2 then mret acc
        else stale ← removeStalePolicies desired;
             if nonempty stale then mret (acc.1, stale)
             else replacePins ;; mret (acc.1, [])
    end.

(** ** Edge addresses (edge_inspect.go, edge_stale_inspect.go) *)

Context `{PT : !PrefixText}.

Definition pair_error (address : Addr) (pair : nptPair) : option error :=
  if (128 <? bp_ExternalBits pair) || (128 <? bp_InternalBits pair) || (16 <? bp_SourceCount pair) || (16 <? bp_DestinationCount pair)
  then Some "NPTv6 policy contains an invalid pair"%string
  else if bool_decide (address ∈ AddrFrom16 <$> take (Z.to_nat (bp_SourceCount pair)) (bp_SourceExceptions pair))
  then Some ("NPTv6 source exception still uses edge " +:+ addr_String address)%string
  else if bool_decide (address ∈ AddrFrom16 <$> take (Z.to_nat (bp_DestinationCount pair)) (bp_DestinationExceptions pair))
  then Some ("NPTv6 destination exception still uses edge " +:+ addr_String address)%string
  else None.

Definition live_pairs (policy : nptPolicy) : list nptPair := take (Z.to_nat (bo_Count policy)) (bo_Pairs policy).

Definition policyDoesNotUseEdge (policy : nptPolicy) (address : Addr) : option error :=
  if 64 <? bo_Count policy then Some "NPTv6 policy has an invalid pair count"%string
  else first_error (pair_error address) (live_pairs policy).

Definition verifyEdgePolicy (desired : gmap Z preparedPolicy) (address : Addr) (index : Z) : M W (option error) :=
  match interfaceKey index with
  | Err e => mret (Some e)
  | Ok key =>
      actual ← Policies_Lookup Current key;
      mret match actual, desired !! index with
           | LookupFailed e, _ => Some ("read NPTv6 policy for interface " +:+ itoa index +:+ ": " +:+ e)%string
           | KeyNotExist _, Some _ => Some ("interface " +:+ itoa index +:+ " desired NPTv6 policy is absent")%string
           | KeyNotExist _, None => None
           | Found policy, expected =>
               if match expected with Some expected => negb (bool_decide (policy = pr_Value expected)) | None => true end
               then Some ("interface " +:+ itoa index +:+ " NPTv6 policy differs from desired policy")%string
               else match policyDoesNotUseEdge policy address with Some e => Some ("interface " +:+ itoa index +:+ ": " +:+ e)%string | None => None end
           end
  end.

Definition verifySurvivingEdgePolicy (desired : gmap Z preparedPolicy) (address : Addr) (index : Z) (policy : nptPolicy) : option error :=
  if match desired !! index with Some expected => bool_decide (policy = pr_Value expected) | None => false end
  then policyDoesNotUseEdge policy address
  else match policyDoesNotUseEdge policy address with
       | Some e => Some ("interface " +:+ itoa index +:+ " surviving policy: " +:+ e)%string
       | None =>
           first_error (fun pair => if Contains (PrefixFrom (AddrFrom16 (bp_External pair)) (bp_ExternalBits pair)) address
                                      then Some ("interface " +:+ itoa index +:+ " obsolete NPTv6 prefix still uses edge " +:+ addr_String address)%string
                                      else None) (live_pairs policy)
       end.

(** The filters of a hook that the translator owns, in turn. *)
Definition edge_filter (index : Z) (configured : bool) (d : Direction) (failed : option error) (f : tc_filter) : M W (option error) :=
  match failed with
  | Some e => mret (Some e)
  | None =>
      if negb (ownedFilter f d) then mret None
      else if negb configured then mret (Some ("interface " +:+ itoa index +:+ " retains an obsolete NPTv6 attachment")%string)
      else failed ← readFilter index d;
           mret match failed with Some e => Some ("verify relevant NPTv6 attachment: " +:+ e)%string | None => None end
  end.

Definition edge_direction (index : Z) (configured : bool) (failed : option error) (d : Direction) : M W (option error) :=
  match failed with
  | Some e => mret (Some e)
  | None =>
      filters ← FilterList index d;
      match filters with
      | Err e => mret (Some ("inspect NPTv6 edge attachments: " +:+ e)%string)
      | Ok filters => foldM (edge_filter index configured d) None filters
      end
  end.

Definition verifyEdgeAttachments (index : Z) (configured : bool) : M W (option error) :=
  link ← LinkByIndex index;
  match link with
  | inr (mkAbsentError _ true) => mret None
  | inr (mkAbsentError e false) => mret (Some ("read NPTv6 edge interface " +:+ itoa index +:+ ": " +:+ e)%string)
  | inl _ => foldM (edge_direction index configured) None [Ingress; Egress]
  end.

(** The generation whose program has the identity; an error ends the search. *)
Definition match_program (programID : Z) (found : res (option generation)) (p : generation * Direction) : M W (res (option generation)) :=
  match found with
  | Ok None =>
      info ← program_Info p.1 p.2;
      mret match info with
           | Err e => Err ("inspect known NPTv6 program: " +:+ e)%string
           | Ok info =>
               match pi_ID info with
               | None => Err "kernel did not report a known NPTv6 program identity"
               | Some knownID => Ok (if knownID =? programID then Some p.1 else None)
               end
           end
  | _ => mret found
  end.

Definition policiesForProgram (programID : Z) : M W (res generation) :=
  t ← gets get_translator;
  found ← foldM (match_program programID) (Ok None)
    ([(Current, Ingress); (Current, Egress)] ++ if tr_previous t then [(Previous, Ingress); (Previous, Egress)] else []);
  mret match found with
       | Err e => Err e
       | Ok (Some g) => Ok g
       | Ok None => Err ("owned NPTv6 filter program " +:+ itoa programID +:+ " matches no program this translator or its pinned predecessor loaded")%string
       end.

Definition verifyAttachedEdgePolicy (desired : gmap Z preparedPolicy) (address : Addr) (index programID : Z) : M W (option error) :=
  policies ← policiesForProgram programID;
  match policies with
  | Err e => mret (Some ("interface " +:+ itoa index +:+ ": " +:+ e)%string)
  | Ok policies =>
      match interfaceKey index with
      | Err e => mret (Some e)
      | Ok key =>
          policy ← Policies_Lookup policies key;
          mret match policy with
               | KeyNotExist _ => None
               | LookupFailed e => Some ("read attached NPTv6 policy on interface " +:+ itoa index +:+ ": " +:+ e)%string
               | Found policy => verifySurvivingEdgePolicy desired address index policy
               end
      end
  end.

(** An owned filter is a BPF filter. *)
Definition surviving_filter (desired : gmap Z preparedPolicy) (address : Addr) (index : Z) (d : Direction) (failed : option error) (f : tc_filter) : M W (option error) :=
  match failed with
  | Some e => mret (Some e)
  | None => if negb (ownedFilter f d) then mret None else verifyAttachedEdgePolicy desired address index (tf_Id f)
  end.

Definition surviving_hook (desired : gmap Z preparedPolicy) (address : Addr) (failed : option error) (hook : Z * Direction) : M W (option error) :=
  match failed with
  | Some e => mret (Some e)
  | None =>
      filters ← FilterList hook.1 hook.2;
      match filters with
      | Err e => mret (Some ("inspect surviving NPTv6 attachments on interface " +:+ itoa hook.1 +:+ ": " +:+ e)%string)
      | Ok filters => foldM (surviving_filter desired address hook.1 hook.2) None filters
      end
  end.

Definition hooks_of (links : list Z) : list (Z * Direction) := link ← links; [(link, Ingress); (link, Egress)].

Definition verifySurvivingEdgeReferences (indices : list Z) (address : Addr) (desired : gmap Z preparedPolicy) : M W (option error) :=
  '(entries, failed) ← Policies_Iterate;
  match first_error (fun e => if bool_decide (e.1 ∈ indices) then None else verifySurvivingEdgePolicy desired address e.1 e.2) entries with
  | Some e => mret (Some e)
  | None =>
      match failed with
      | Some e => mret (Some ("inspect surviving NPTv6 policy keys: " +:+ e)%string)
      | None =>
          links ← LinkList;
          match links with
          | Err e => mret (Some ("inspect surviving NPTv6 interfaces: " +:+ e)%string)
          | Ok links => foldM (surviving_hook desired address) None (hooks_of links)
          end
      end
  end.

Definition verify_index (desired : gmap Z preparedPolicy) (address : Addr) (failed : option error) (index : Z) : M W (option error) :=
  match failed with
  | Some e => mret (Some e)
  | None =>
      failed ← verifyEdgePolicy desired address index;
      match failed with
      | Some e => mret (Some e)
      | None => verifyEdgeAttachments index (bool_decide (is_Some (desired !! index)))
      end
  end.

Definition VerifyUnused (indices : list Z) (address : Addr) (policies : list InterfacePolicy) : M W (option error) :=
  t ← gets get_translator;
  if tr_closed t then mret (Some "NPTv6 translator is closed"%string)
  else
    desired ← preparePolicies policies;
    match desired with
    | Err e => mret (Some e)
    | Ok desired =>
        failed ← foldM (verify_index desired address) None indices;
        match failed with
        | Some e => mret (Some e)
        | None => verifySurvivingEdgeReferences indices address desired
        end
    end.
End Translator.
