(* ===== verification/BpfTranslatorProps.v ===== *)
(** * What a pass of the prefix translator leaves in the kernel

    The behaviour of the kernel the translator relies on is the classes [TcState] and
    [TcBehaves].  Against them: an attachment reported ready has its policy in the map and its
    program on the hook at the end of the pass, a pass without errors leaves exactly the
    policies asked for, and a pass in which an active policy failed removes nothing. *)

From S2P Require Import Prelude GoStrings Effects NptPolicy BgpFib NetWire BpfProgram BpfTranslator.

Local Open Scope Z_scope.

(** ** The kernel *)

Class TcState (W : Type) := {
  map_of : W -> Z -> option nptPolicy;
  filters_of : W -> Z -> Direction -> list tc_filter;
  (** the map of the previous generation *)
  previous_of : W -> Z -> option nptPolicy;
  (** the identity of the loaded program of a direction *)
  program_at : generation -> Direction -> Z;
}.

Definition program_of {W} `{TS : !TcState W} (d : Direction) : Z := program_at Current d.
Definition map_at {W} `{TS : !TcState W} (g : generation) (w : W) : Z -> option nptPolicy := match g with Current => map_of w | Previous => previous_of w end.

(** Nothing changed but entries and hooks of the two sets. *)
Definition kernel_frame {W} `{TS : !TcState W} (K : Z -> Prop) (H : Z -> Direction -> Prop) (w w' : W) : Prop :=
  (forall k, ~ K k -> map_of w' k = map_of w k) /\ (forall i d, ~ H i d -> filters_of w' i d = filters_of w i d).

Definition no_key : Z -> Prop := fun _ => False.
Definition no_hook : Z -> Direction -> Prop := fun _ _ => False.
Definition one_key (k : Z) : Z -> Prop := fun k' => k' = k.
Definition one_hook (i : Z) (d : Direction) : Z -> Direction -> Prop := fun i' d' => i' = i /\ d' = d.
Definition one_link (i : Z) : Z -> Direction -> Prop := fun i' _ => i' = i.

Definition observes {W} `{TS : !TcState W} (w w' : W) : Prop := kernel_frame no_key no_hook w w' /\ forall k, previous_of w' k = previous_of w k.

Class TcBehaves (W : Type) `{TK : !TcKernel W, TS : !TcState W} : Prop := {
  info_observes g d : sat (program_Info g d) observes;
  info_identity g d w info id : (program_Info g d w).1 = Ok info -> pi_ID info = Some id -> id = program_at g d;
  map_info_observes g : sat (policies_Info g) observes;
  FilterList_observes i d : sat (FilterList i d) observes;
  FilterList_reads i d w fs : (FilterList i d w).1 = Ok fs -> fs = filters_of w i d;
  FilterReplace_only i d : sat (FilterReplace i d) (kernel_frame no_key (one_hook i d));
  FilterDel_only i d f : sat (FilterDel i d f) (kernel_frame no_key (one_hook i d));
  QdiscList_keeps i : sat (QdiscList i) (kernel_frame no_key no_hook);
  QdiscAdd_keeps i : sat (QdiscAdd i) (kernel_frame no_key no_hook);
  Update_only k v : sat (Policies_Update k v) (kernel_frame (one_key k) no_hook);
  Lookup_observes g k : sat (Policies_Lookup g k) observes;
  Lookup_found g k w v : (Policies_Lookup g k w).1 = Found v -> map_at g w k = Some v;
  Lookup_absent g k w e : (Policies_Lookup g k w).1 = KeyNotExist e -> map_at g w k = None;
  Delete_only k : sat (Policies_Delete k) (kernel_frame (one_key k) no_hook);
  Iterate_observes : sat Policies_Iterate observes;
  Iterate_complete w entries k v : (Policies_Iterate w).1 = (entries, None) -> map_of w k = Some v -> (k, v) ∈ entries;
  LinkByIndex_observes i : sat (LinkByIndex i) observes;
  LinkList_observes : sat LinkList observes;
  LinkList_complete w links i d : (LinkList w).1 = Ok links -> filters_of w i d <> [] -> i ∈ links;
  MkdirAll_keeps : sat MkdirAll (kernel_frame no_key no_hook);
  RemovePin_keeps p : sat (RemovePin p) (kernel_frame no_key no_hook);
  Pin_keeps p : sat (Pin p) (kernel_frame no_key no_hook);
  Close_keeps g : sat (Close_objects g) (kernel_frame no_key no_hook);
  put_keeps t : sat (modify (put_translator t)) (kernel_frame no_key no_hook);
}.

Lemma not_key k : ~ no_key k.
Proof. by intros []. Qed.
Lemma not_hook i d : ~ no_hook i d.
Proof. by intros []. Qed.
#[export] Hint Resolve not_key not_hook : core.

Section Props.
Context {W : Type} `{TB : TcBehaves W}.

#[local] Instance kernel_frame_preorder K H : PreOrder (@kernel_frame W _ K H).
Proof.
  split.
  - intros w. split; done.
  - intros w1 w2 w3 [A1 B1] [A2 B2]. split; [intros k Hk; by rewrite A2, A1|intros i d Hd; by rewrite B2, B1].
Qed.

Lemma frame_mono K K' H H' w w' : (forall k, K k -> K' k) -> (forall i d, H i d -> H' i d) -> kernel_frame K H w w' -> kernel_frame K' H' w w'.
Proof. intros HK HH [A B]. split; [intros k Hk; apply A; auto|intros i d Hd; apply B; auto]. Qed.

Lemma frame_weaken K H w w' : kernel_frame no_key no_hook w w' -> kernel_frame K H w w'.
Proof. by apply frame_mono. Qed.

Lemma sat_frame {A} (m : M W A) K H : sat m (kernel_frame no_key no_hook) -> sat m (kernel_frame K H).
Proof. intros Hm w. eapply frame_mono, Hm; done. Qed.

Lemma sat_frame_mono {A} (m : M W A) K K' H H' : (forall k, K k -> K' k) -> (forall i d, H i d -> H' i d) -> sat m (kernel_frame K H) -> sat m (kernel_frame K' H').
Proof. intros HK HH Hm w. eapply frame_mono, Hm; done. Qed.

Lemma sat_observes {A} (m : M W A) : sat m observes -> sat m (kernel_frame no_key no_hook).
Proof. intros Hm w. apply Hm. Qed.

Definition info_keeps g d := sat_observes _ (info_observes (W := W) g d).
Definition map_info_keeps g := sat_observes _ (map_info_observes (W := W) g).
Definition FilterList_keeps i d := sat_observes _ (FilterList_observes (W := W) i d).
Definition Lookup_keeps g k := sat_observes _ (Lookup_observes (W := W) g k).
Definition Iterate_keeps := sat_observes _ (Iterate_observes (W := W)).
Definition LinkByIndex_keeps i := sat_observes _ (LinkByIndex_observes (W := W) i).
Definition LinkList_keeps := sat_observes _ (LinkList_observes (W := W)).

Lemma set_translator_keeps f : sat (set_translator f) (kernel_frame no_key no_hook).
Proof. intros w. apply (put_keeps (f (get_translator w)) w). Qed.

(** Follow the text of a program whose primitive actions keep the frame. *)
Ltac frames :=
  repeat first
    [ apply (sat_bind _); [|intros ?]
    | apply (sat_ret _) | apply (sat_gets _)
    | apply (sat_foldM _); intros ? ?
    | match goal with |- sat (match ?x with _ => _ end) _ => destruct x end
    | progress (apply sat_frame; first [apply info_keeps|apply map_info_keeps|apply FilterList_keeps|apply QdiscList_keeps|apply QdiscAdd_keeps|apply Lookup_keeps|apply Iterate_keeps|apply LinkByIndex_keeps|apply LinkList_keeps|apply MkdirAll_keeps|apply RemovePin_keeps|apply Pin_keeps|apply Close_keeps|apply set_translator_keeps]) ].

Lemma program_id_keeps d : sat (ReadNativeProgramID d) (kernel_frame no_key no_hook).
Proof. unfold ReadNativeProgramID. frames. Qed.

Lemma install_frame i d : sat (installFilter i d) (kernel_frame no_key (one_hook i d)).
Proof. unfold installFilter. frames. apply FilterReplace_only. Qed.

Lemma read_frame i d : sat (readFilter i d) (kernel_frame no_key no_hook).
Proof. unfold readFilter. frames. Qed.

Lemma clsact_frame i : sat (ensureClsact i) (kernel_frame no_key no_hook).
Proof. unfold ensureClsact. frames. Qed.

Lemma verify_frame p : sat (verify_policy p) (kernel_frame no_key no_hook).
Proof. unfold verify_policy. frames. Qed.

Lemma replacePins_keeps : sat replacePins (kernel_frame no_key no_hook).
Proof. unfold replacePins, pinObjects, closePrevious, remove_earlier, pin_target, removePins, remove_pin. frames. Qed.

Lemma remove_filters_frame i : sat (removeFilters i) (kernel_frame no_key (one_link i)).
Proof.
  unfold removeFilters, remove_direction, remove_filter. frames; (eapply sat_frame_mono, FilterDel_only; [done|]; by intros i' d' [-> _]).
Qed.

(** The program of the direction is on the hook. *)
Definition runs (w : W) (i : Z) (d : Direction) : Prop :=
  exists f, f ∈ filters_of w i d /\ ownedFilter f d = true /\ tf_Id f = program_of d /\ tf_DirectAction f = true /\ tf_Protocol f = ETH_P_ALL.

Lemma frame_runs K H w w' i d : kernel_frame K H w w' -> ~ H i d -> runs w i d -> runs w' i d.
Proof. intros [_ B] Hd (f & Hf & Hr). exists f. by rewrite B. Qed.

Lemma read_scan_none i id d fs : read_scan i id d fs = None ->
  exists f, f ∈ fs /\ ownedFilter f d = true /\ tf_Id f = id /\ tf_DirectAction f = true /\ tf_Protocol f = ETH_P_ALL.
Proof.
  induction fs as [|f fs IH]; cbn; [done|]. destruct (ownedFilter f d) eqn:E.
  - destruct (_ || _) eqn:Eb; [done|]. intros _. repeat (apply orb_false_iff in Eb as [Eb ?]). bool_prop. exists f. split_and!; try done; [by left|lia..].
  - intros (g & Hg & Hr)%IH. exists g. split; [by right|done].
Qed.

Lemma read_runs i d w w' : readFilter i d w = (None, w') -> runs w' i d.
Proof.
  intros H. pose proof (read_frame i d w) as Hf. rewrite H in Hf. unfold readFilter, mbind, M_bind, mret, M_ret in H.
  pose proof (info_keeps Current d w) as K1. pose proof (info_identity Current d w) as Hid. destruct (program_Info Current d w) as [[info|e] w1]; [|done].
  destruct (pi_ID info) as [id|] eqn:Eid; [|done]. pose proof (FilterList_keeps i d w1) as K2. pose proof (FilterList_reads i d w1) as Hr.
  destruct (FilterList i d w1) as [[fs|e] w2]; [|done]. cbn [fst snd] in *. injection H as H ->. apply read_scan_none in H as (f & Hin & Ho & Hi & Hrest).
  exists f. rewrite (Hr fs eq_refl) in Hin. destruct K2 as [_ B]. rewrite B by done. split_and!; try done; [|apply Hrest..]. rewrite Hi. by eapply Hid.
Qed.

Lemma verify_holds p w w' : verify_policy p w = (None, w') -> map_of w' (pr_Key p) = Some (pr_Value p).
Proof.
  intros H. unfold verify_policy, mbind, M_bind, mret, M_ret in H. pose proof (Lookup_keeps Current (pr_Key p) w) as [A _]. pose proof (Lookup_found Current (pr_Key p) w) as Hf.
  destruct (Policies_Lookup Current (pr_Key p) w) as [[v|e|e] w1]; cbn [fst snd] in *; [|done..]. case_bool_decide as E; [|done]. injection H as ->. subst v.
  rewrite A by done. by apply Hf.
Qed.

(** ** One interface *)

Lemma attach_outcome p updateErr acc d w :
  let '(acc', w') := attach_direction p updateErr acc d w in
  kernel_frame no_key (one_hook (pr_Key p) d) w w' /\
  ((exists e e', acc' = (acc.1 ++ [mkAttachmentState (pr_Key p) d false e], acc.2 ++ [e'])) \/
   acc' = (acc.1 ++ [mkAttachmentState (pr_Key p) d true ""], acc.2) /\ runs w' (pr_Key p) d /\ map_of w' (pr_Key p) = Some (pr_Value p)).
Proof.
  unfold attach_direction, mbind, M_bind, mret, M_ret, and_then.
  destruct updateErr as [e|]; [cbn; split; [reflexivity|left; eauto]|].
  pose proof (install_frame (pr_Key p) d w) as F1. destruct (installFilter (pr_Key p) d w) as [[e|] w1]; [cbn; split; [done|left; eauto]|].
  pose proof (read_frame (pr_Key p) d w1) as F2. apply (frame_weaken no_key (one_hook (pr_Key p) d)) in F2.
  destruct (readFilter (pr_Key p) d w1) as [[e|] w2] eqn:Er; cbn [fst snd] in *; [split; [by etransitivity|left; eauto]|].
  pose proof (verify_frame p w2) as F3'. pose proof (frame_weaken no_key (one_hook (pr_Key p) d) _ _ F3') as F3.
  destruct (verify_policy p w2) as [[e|] w3] eqn:Ev; cbn [fst snd] in *; (split; [by do 2 (etransitivity; [done|])|]); [left; eauto|].
  right. split_and!; [done| |by eapply verify_holds]. eapply frame_runs; [exact F3'|done|]. by eapply read_runs.
Qed.

(** The attachments reported ready are what the kernel has. *)
Definition ready_sound (p : preparedPolicy) (states : list AttachmentState) (w : W) : Prop :=
  forall st, st ∈ states -> as_IfIndex st = pr_Key p /\ (as_Ready st = true -> runs w (pr_Key p) (as_Direction st) /\ map_of w (pr_Key p) = Some (pr_Value p)).

Definition both_ready (i : Z) (states : list AttachmentState) : Prop :=
  forall d, exists st, st ∈ states /\ as_IfIndex st = i /\ as_Direction st = d /\ as_Ready st = true.

Lemma interface_outcome p w :
  let '((states, errs), w') := reconcileInterface p w in
  kernel_frame (one_key (pr_Key p)) (one_link (pr_Key p)) w w' /\ ready_sound p states w' /\ (errs = [] -> both_ready (pr_Key p) states /\ Forall (fun st => as_Ready st = true) states).
Proof.
  unfold reconcileInterface, mbind, M_bind.
  pose proof (clsact_frame (pr_Key p) w) as F1. destruct (ensureClsact (pr_Key p) w) as [e1 w1].
  assert (sat (and_then e1 (Policies_Update (pr_Key p) (pr_Value p))) (kernel_frame (one_key (pr_Key p)) no_hook)) as F2
    by (destruct e1; [apply (sat_ret _)|apply Update_only]). specialize (F2 w1). destruct (and_then e1 _ w1) as [e2 w2].
  assert (sat (and_then e2 (verify_policy p)) (kernel_frame no_key no_hook)) as F3 by (destruct e2; [apply (sat_ret _)|apply verify_frame]).
  specialize (F3 w2). destruct (and_then e2 _ w2) as [e3 w3]. cbn [foldM fst snd] in *. unfold mbind, M_bind.
  pose proof (attach_outcome p e3 ([], []) Ingress w3) as HA. destruct (attach_direction p e3 ([], []) Ingress w3) as [accA w4]. destruct HA as [F4 HA].
  pose proof (attach_outcome p e3 accA Egress w4) as HB. destruct (attach_direction p e3 accA Egress w4) as [accB w5]. destruct HB as [F5 HB].
  unfold mret, M_ret. assert (kernel_frame (one_key (pr_Key p)) (one_link (pr_Key p)) w w5) as F.
  { assert (forall d, forall i' d', one_hook (pr_Key p) d i' d' -> one_link (pr_Key p) i' d') as Hl by by intros d i' d' [-> _].
    transitivity w1; [by apply frame_weaken|]. transitivity w2; [eapply frame_mono, F2; [done|by intros ? ? []]|]. transitivity w3; [by apply frame_weaken|].
    transitivity w4; [eapply frame_mono, F4; [by intros ? []|apply Hl]|eapply frame_mono, F5; [by intros ? []|apply Hl]]. }
  assert (runs w4 (pr_Key p) Ingress /\ map_of w4 (pr_Key p) = Some (pr_Value p) -> runs w5 (pr_Key p) Ingress /\ map_of w5 (pr_Key p) = Some (pr_Value p)) as Hlift.
  { intros [Hr Hm]. split; [|destruct F5 as [A _]; by rewrite A]. eapply frame_runs; [exact F5| |done]. by intros [_ ?]. }
  destruct accB as [statesB errsB]. split; [done|].
  destruct HA as [(ea & ea' & ->)|(-> & HA)], HB as [(eb & eb' & HB)|(HB & Hrb)]; injection HB as -> ->; cbn [fst snd app] in *; split.
  all: try (intros [=]; fail).
  all: try (intros st Hst; repeat (apply elem_of_cons in Hst as [->|Hst]; [split; [done|]; cbn; try done; auto|]); by apply elem_of_nil in Hst).
  intros _. split; [|by repeat constructor]. intros d. destruct d; [exists (mkAttachmentState (pr_Key p) Ingress true "")|exists (mkAttachmentState (pr_Key p) Egress true "")]; split_and!; try done; set_solver.
Qed.

(** ** The policies of a pass *)

Record prepared_from (policies : list InterfacePolicy) (desired : gmap Z preparedPolicy) : Prop := {
  pf_value i p : desired !! i = Some p -> pr_Key p = i /\ exists policy encap, policy ∈ policies /\ ip_IfIndex policy = i /\ policyValue policy encap = Ok (pr_Value p);
  pf_all policy : policy ∈ policies -> ip_Pairs policy <> [] -> is_Some (desired !! ip_IfIndex policy);
  pf_distinct : NoDup (ip_IfIndex <$> policies);
}.

Lemma prepare_frame policies : sat (preparePolicies policies) (kernel_frame no_key no_hook).
Proof. unfold preparePolicies, prepare_policy. frames. Qed.

Lemma interfaceKey_ok i k : interfaceKey i = Ok k -> k = i.
Proof. unfold interfaceKey. destruct (_ || _); [done|]. by intros [= <-]. Qed.

Definition prepared_upto (policies : list InterfacePolicy) (acc : res (gmap Z preparedPolicy * list Z)) : Prop :=
  match acc with Err _ => True | Ok (desired, seen) => seen = ip_IfIndex <$> policies /\ prepared_from policies desired end.

Lemma prepare_step dn policy desired encap v : prepared_from dn desired -> ip_IfIndex policy ∉ ip_IfIndex <$> dn -> policyValue policy encap = Ok v ->
  prepared_from (dn ++ [policy]) (if nonempty (ip_Pairs policy) then <[ip_IfIndex policy := mkPrepared (ip_IfIndex policy) v]> desired else desired).
Proof.
  intros [H1 H2 H3] Hn Hv. constructor.
  - intros i p Hp. assert (desired !! i = Some p \/ i = ip_IfIndex policy /\ p = mkPrepared (ip_IfIndex policy) v) as [Hp'|[-> ->]].
    { destruct (nonempty _); [|by left]. destruct (decide (i = ip_IfIndex policy)) as [->|Hne].
      - rewrite lookup_insert_eq in Hp. injection Hp as <-. by right.
      - rewrite lookup_insert_ne in Hp by done. by left. }
    + destruct (H1 i p Hp') as [Hk (q & en & Hq & Hrest)]. split; [done|]. exists q, en. split; [apply elem_of_app; by left|done].
    + split; [done|]. exists policy, encap. split_and!; [apply elem_of_app; right; by left|done..].
  - intros q [Hq|Hq%list_elem_of_singleton]%elem_of_app Hne; [|subst q].
    + destruct (nonempty _); [|by apply H2]. destruct (decide (ip_IfIndex q = ip_IfIndex policy)) as [->|Hn']; [rewrite lookup_insert_eq; by eexists|].
      rewrite lookup_insert_ne by done. by apply H2.
    + destruct (ip_Pairs policy) eqn:E; [done|]. cbn. rewrite lookup_insert_eq. by eexists.
  - rewrite fmap_app. apply NoDup_app. split_and!; [done| |apply NoDup_singleton]. intros x Hx Hx'%list_elem_of_singleton. by subst x.
Qed.

Lemma prepare_ok policies w desired w' : preparePolicies policies w = (Ok desired, w') -> prepared_from policies desired.
Proof.
  intros H. unfold preparePolicies, mbind, M_bind, mret, M_ret in H.
  pose proof (wp_foldM prepare_policy (fun dn acc _ => prepared_upto dn acc) policies (Ok (∅, [])) w) as Hf. unfold wp in Hf.
  destruct (foldM prepare_policy (Ok (∅, [])) policies w) as [acc w1]. cbn [fst snd] in Hf. destruct acc as [[d seen]|e]; [|done]. injection H as -> ->.
  apply Hf.
  - split; [done|]. constructor; [intros i p; by rewrite lookup_empty|intros policy Hin; by apply elem_of_nil in Hin|constructor].
  - clear. intros dn policy todo acc w _ Hacc. destruct acc as [[d seen]|e]; [|done]. destruct Hacc as [-> Hp]. unfold prepare_policy, wp.
    case_bool_decide as Hseen; [done|]. destruct (interfaceKey _) as [key|] eqn:Ek; [|done]. apply interfaceKey_ok in Ek as ->. unfold mbind, M_bind, mret, M_ret.
    destruct (LinkByIndex _ w) as [[encap|e] w1]; [|done]. cbn [fst snd]. destruct (policyValue policy encap) as [v|e] eqn:Ev; [|done]. cbn.
    split; [by rewrite fmap_app|]. by eapply prepare_step.
Qed.

(** ** The loop over the interfaces *)

Section Loop.
Context (policies : list InterfacePolicy) (desired : gmap Z preparedPolicy) (Hp : prepared_from policies desired).

Definition state_holds (w : W) (st : AttachmentState) : Prop :=
  exists p, desired !! as_IfIndex st = Some p /\ (as_Ready st = true -> runs w (as_IfIndex st) (as_Direction st) /\ map_of w (as_IfIndex st) = Some (pr_Value p)).

Lemma state_holds_frame K H w w' st : kernel_frame K H w w' -> ~ K (as_IfIndex st) -> (forall d, ~ H (as_IfIndex st) d) -> state_holds w st -> state_holds w' st.
Proof.
  intros F HK HH (p & Hd & Hr). exists p. split; [done|]. intros [R Mp]%Hr. split; [by eapply frame_runs|]. destruct F as [A _]. by rewrite A.
Qed.

Record loop_inv (w0 : W) (dn : list InterfacePolicy) (acc : list AttachmentState * list error) (w : W) : Prop := {
  li_frame : kernel_frame (fun k => k ∈ ip_IfIndex <$> dn) (fun i _ => i ∈ ip_IfIndex <$> dn) w0 w;
  li_states st : st ∈ acc.1 -> as_IfIndex st ∈ ip_IfIndex <$> dn /\ state_holds w st;
  li_clean : acc.2 = [] -> Forall (fun st => as_Ready st = true) acc.1 /\
    forall policy, policy ∈ dn -> is_Some (desired !! ip_IfIndex policy) -> both_ready (ip_IfIndex policy) acc.1;
}.

Lemma loop_start w : loop_inv w [] ([], []) w.
Proof.
  constructor; [reflexivity|intros st Hst; by apply elem_of_nil in Hst|]. intros _. split; [constructor|]. intros policy Hin. by apply elem_of_nil in Hin.
Qed.

Lemma loop_step w0 dn policy todo acc w : policies = dn ++ policy :: todo -> loop_inv w0 dn acc w ->
  wp (reconcile_interface desired acc policy) (loop_inv w0 (dn ++ [policy])) w.
Proof.
  intros Hpol [Hf Hs Hc]. assert (ip_IfIndex policy ∉ ip_IfIndex <$> dn) as Hfresh.
  { pose proof (pf_distinct _ _ Hp) as Hd. rewrite Hpol, fmap_app, fmap_cons in Hd. apply NoDup_app in Hd as (_ & Hd & _). intros Hin. apply (Hd _ Hin). by left. }
  assert (forall K : Z -> Prop, (forall k, K k -> k = ip_IfIndex policy) -> forall k, K k -> k ∈ ip_IfIndex <$> dn ++ [policy]) as Hin
    by (intros K HK k Hk; rewrite fmap_app, elem_of_app; right; rewrite (HK k Hk); by left).
  unfold reconcile_interface, wp. destruct (desired !! ip_IfIndex policy) as [p|] eqn:Ed.
  - destruct (pf_value _ _ Hp _ _ Ed) as [Hk _]. unfold mbind, M_bind, mret, M_ret. pose proof (interface_outcome p w) as Ho.
    destruct (reconcileInterface p w) as [[states errs] w']. destruct Ho as (Ff & Hsound & Hready). rewrite Hk in Ff, Hready. cbn [fst snd] in *. constructor; cbn [fst snd].
    + transitivity w; [eapply frame_mono, Hf; intros; rewrite fmap_app, elem_of_app; by left|]. eapply frame_mono, Ff; [by apply Hin|intros i d ->; by apply (Hin (one_key (ip_IfIndex policy)))].
    + intros st [Hst|Hst]%elem_of_app.
      * destruct (Hs st Hst) as [Hi Hh]. split; [rewrite fmap_app, elem_of_app; by left|].
        eapply state_holds_frame; [exact Ff|intros E; by rewrite E in Hi|intros d E; by rewrite E in Hi|done].
      * destruct (Hsound st Hst) as [Hi Hr]. rewrite Hk in Hi. split; [rewrite fmap_app, elem_of_app; right; rewrite Hi; by left|]. exists p. rewrite Hi. split; [done|].
        rewrite Hk in Hr. exact Hr.
    + intros Hnil. apply app_eq_nil in Hnil as [Hnil He]. destruct errs as [|e errs]; [|done]. destruct (Hready eq_refl) as [Hb Hall]. destruct (Hc Hnil) as [Hc1 Hc2].
      split; [by apply Forall_app|]. intros q [Hq|Hq%list_elem_of_singleton]%elem_of_app Hsome d; [|subst q].
      * destruct (Hc2 q Hq Hsome d) as (st & Hst & Hrest). exists st. split; [apply elem_of_app; by left|done].
      * destruct (Hb d) as (st & Hst & Hrest). exists st. split; [apply elem_of_app; by right|done].
  - cbn. constructor.
    + eapply frame_mono, Hf; intros; rewrite fmap_app, elem_of_app; by left.
    + intros st Hst. destruct (Hs st Hst) as [Hi Hh]. split; [rewrite fmap_app, elem_of_app; by left|done].
    + intros Hnil. destruct (Hc Hnil) as [Hc1 Hc2]. split; [done|]. intros q [Hq|Hq%list_elem_of_singleton]%elem_of_app Hsome; [by apply Hc2|subst q]. rewrite Ed in Hsome. by destruct Hsome.
Qed.

Lemma loop_end w : wp (foldM (reconcile_interface desired) ([], []) policies) (loop_inv w policies) w.
Proof. apply wp_foldM; [apply loop_start|]. intros dn policy todo acc s. apply loop_step. Qed.
End Loop.

(** ** Stale policies *)

Definition stale_key (desired : gmap Z preparedPolicy) : Z -> Prop := fun k => desired !! k = None.
Definition stale_hook (desired : gmap Z preparedPolicy) : Z -> Direction -> Prop := fun i _ => desired !! i = None.

Lemma remove_key_frame found key : sat (remove_key found key) (kernel_frame (one_key key) no_hook).
Proof. unfold remove_key. frames; apply Delete_only. Qed.

Lemma stale_entries_frame desired : sat (removeStaleMapEntries desired) (kernel_frame (stale_key desired) (stale_hook desired)).
Proof.
  unfold removeStaleMapEntries. apply (sat_bind _); [apply sat_frame, Iterate_keeps|]. intros [entries [e|]]; [apply (sat_ret _)|].
  apply (sat_foldM_in _). intros found key Hin. apply list_elem_of_In, filter_In in Hin as [_ Hk].
  apply bool_decide_eq_true in Hk. eapply sat_frame_mono, remove_key_frame; [by intros k ->|by intros ? ? []].
Qed.

Lemma remove_link_frame desired failures i : sat (remove_link desired failures i) (kernel_frame (stale_key desired) (stale_hook desired)).
Proof.
  unfold remove_link. destruct (desired !! i) eqn:E; [apply (sat_ret _)|]. apply (sat_bind _); [|intros; apply (sat_ret _)].
  eapply sat_frame_mono, remove_filters_frame; [by intros ? []|by intros i' d ->].
Qed.

Lemma stale_frame desired : sat (removeStalePolicies desired) (kernel_frame (stale_key desired) (stale_hook desired)).
Proof.
  unfold removeStalePolicies. apply (sat_bind _); [apply sat_frame, LinkList_keeps|]. intros [links|e]; [|apply (sat_ret _)].
  apply (sat_bind _); [apply (sat_foldM _); intros; apply remove_link_frame|]. intros failures. apply (sat_bind _); [apply stale_entries_frame|]. intros; apply (sat_ret _).
Qed.

(** Keys that were all removed are absent. *)
Lemma remove_keys_absent keys w w' : foldM remove_key None keys w = (None, w') -> forall k, k ∈ keys -> map_of w' k = None.
Proof.
  assert (forall e keys w, (foldM remove_key (Some e) keys w).1 = Some e) as Herr by (clear; intros e keys; induction keys as [|k keys IH]; intros w; cbn; [done|apply IH]).
  revert w. induction keys as [|key keys IH]; intros w H k Hk; [by apply elem_of_nil in Hk|]. cbn [foldM] in H. unfold mbind, M_bind in H.
  destruct (remove_key None key w) as [[e|] w1] eqn:E1; [specialize (Herr e keys w1); rewrite H in Herr; done|].
  destruct (decide (k ∈ keys)) as [Hin|Hin]; [by eapply IH|]. apply elem_of_cons in Hk as [->|Hk]; [|done].
  assert (kernel_frame (fun x => x ∈ keys) no_hook w1 w') as [A _].
  { pose proof (sat_foldM_in (kernel_frame (fun x => x ∈ keys) no_hook) remove_key None keys) as Hf. specialize (Hf ltac:(intros acc x Hx; eapply sat_frame_mono, remove_key_frame; [by intros ? ->|done])).
    specialize (Hf w1). by rewrite H in Hf. }
  rewrite A by done. unfold remove_key, mbind, M_bind, mret, M_ret in E1.
  assert (forall w2, (let '(a, s') := Policies_Lookup Current key w2 in (match a with Found _ => Some ("obsolete NPTv6 policy " +:+ itoa key +:+ " remains installed")%string
    | KeyNotExist _ => None | LookupFailed e => Some ("verify obsolete NPTv6 policy " +:+ itoa key +:+ " removal: " +:+ e)%string end, s')) = (None, w1) -> map_of w1 key = None) as Hl.
  { intros w2 H2. pose proof (Lookup_keeps Current key w2) as [B _]. pose proof (Lookup_absent Current key w2) as Ha. destruct (Policies_Lookup Current key w2) as [[v|e|e] w3]; try done.
    injection H2 as <-. cbn [fst snd] in *. rewrite B by done. by eapply Ha. }
  destruct (Policies_Delete key w) as [[[e []]|] w2]; [by eapply Hl|done|by eapply Hl].
Qed.

Lemma stale_entries_gone desired w w' : removeStaleMapEntries desired w = (None, w') -> forall k, desired !! k = None -> map_of w' k = None.
Proof.
  intros H k Hk. unfold removeStaleMapEntries, mbind, M_bind in H. pose proof (Iterate_keeps w) as [A _]. pose proof (Iterate_complete w) as Hc.
  destruct (Policies_Iterate w) as [[entries [e|]] w1]; [done|]. cbn [fst snd] in *. set (obsolete := List.filter _ _) in H.
  destruct (decide (k ∈ obsolete)) as [Hin|Hin]; [by eapply remove_keys_absent|].
  pose proof (sat_foldM_in (kernel_frame (fun x => x ∈ obsolete) no_hook) remove_key None obsolete) as Hf.
  specialize (Hf ltac:(intros acc x Hx; eapply sat_frame_mono, remove_key_frame; [by intros ? ->|done])). specialize (Hf w1). rewrite H in Hf. destruct Hf as [B _].
  rewrite B, A by done. destruct (map_of w k) as [v|] eqn:E; [|done]. exfalso. apply Hin. apply list_elem_of_In, filter_In. split; [|by apply bool_decide_eq_true].
  apply list_elem_of_In, list_elem_of_fmap. exists (k, v). split; [done|by eapply Hc].
Qed.

(** A value of one of the policies, for the packet header of its interface. *)
Definition installed (policies : list InterfacePolicy) (i : Z) (v : nptPolicy) : Prop :=
  exists policy encap, policy ∈ policies /\ ip_IfIndex policy = i /\ policyValue policy encap = Ok v.

(** What a pass from [w] to [w'] that returned these states and errors has done. *)
Record pass_outcome (policies : list InterfacePolicy) (w : W) (states : list AttachmentState) (errs : list error) (w' : W) : Prop := {
  po_distinct : states <> [] -> NoDup (ip_IfIndex <$> policies);
  po_ready st : st ∈ states -> as_Ready st = true ->
    exists v, installed policies (as_IfIndex st) v /\ map_of w' (as_IfIndex st) = Some v /\ runs w' (as_IfIndex st) (as_Direction st);
  po_complete : errs = [] ->
    (forall policy, policy ∈ policies -> ip_Pairs policy <> [] -> both_ready (ip_IfIndex policy) states) /\ forall k v, map_of w' k = Some v -> installed policies k v;
  po_failed : (exists st, st ∈ states /\ as_Ready st = false) ->
    errs <> [] /\ kernel_frame (fun k => k ∈ ip_IfIndex <$> policies) (fun i _ => i ∈ ip_IfIndex <$> policies) w w';
}.

Lemma empty_outcome policies w errs w' : errs <> [] -> pass_outcome policies w [] errs w'.
Proof.
  intros He. constructor; [done|intros st Hst; by apply elem_of_nil in Hst|done|]. intros (st & Hst & _). by apply elem_of_nil in Hst.
Qed.

Lemma translator_pass policies w states errs w' : Translator_Reconcile policies w = ((states, errs), w') -> pass_outcome policies w states errs w'.
Proof.
  intros H. unfold Translator_Reconcile, mbind, M_bind, mret, M_ret, gets in H. destruct (tr_closed (get_translator w)).
  { injection H as <- <- <-. by apply empty_outcome. }
  pose proof (prepare_frame policies w) as F1. pose proof (prepare_ok policies w) as Hok. destruct (preparePolicies policies w) as [[desired|e] w1].
  2:{ injection H as <- <- <-. by apply empty_outcome. }
  specialize (Hok _ _ eq_refl). pose proof (loop_end policies desired Hok w1) as Hl. unfold wp in Hl.
  destruct (foldM (reconcile_interface desired) ([], []) policies w1) as [acc w2]. cbn [fst snd] in *. destruct Hl as [Hf Hs Hc].
  assert (forall w3, kernel_frame (stale_key desired) (stale_hook desired) w2 w3 -> forall st, st ∈ acc.1 -> as_Ready st = true ->
    exists v, installed policies (as_IfIndex st) v /\ map_of w3 (as_IfIndex st) = Some v /\ runs w3 (as_IfIndex st) (as_Direction st)) as Hgood.
  { intros w3 F st Hst Hr. destruct (Hs st Hst) as [_ (p & Hd & Hh)]. destruct (Hh Hr) as [R Mp]. destruct (pf_value _ _ Hok _ _ Hd) as [_ Hv]. exists (pr_Value p).
    split; [exact Hv|]. split; [destruct F as [A _]; rewrite A; [done|unfold stale_key; congruence]|]. eapply frame_runs; [exact F|unfold stale_hook; congruence|done]. }
  destruct acc as [st0 errs0]. cbn [fst snd] in *. destruct errs0 as [|e errs0]; cbn [nonempty] in H.
  - destruct (Hc eq_refl) as [Hall Hboth]. pose proof (stale_frame desired w2) as F2. destruct (removeStalePolicies desired w2) as [stale w3] eqn:Es. cbn [fst snd] in *.
    assert (forall st, st ∈ st0 -> as_Ready st = false -> False) as Hno by (intros st Hst Hr; rewrite Forall_forall in Hall; specialize (Hall st Hst); congruence).
    destruct stale as [|e stale]; cbn [nonempty] in H.
    + pose proof (replacePins_keeps w3) as F3. destruct (replacePins w3) as [u w4]. cbn [fst snd] in *. injection H as <- <- <-.
      assert (kernel_frame (stale_key desired) (stale_hook desired) w2 w4) as F by (etransitivity; [exact F2|by apply frame_weaken]).
      constructor; [intros _; apply (pf_distinct _ _ Hok)|by apply Hgood| |intros (st & Hst & Hr); by destruct (Hno st Hst Hr)]. intros _. split.
      * intros policy Hin Hne. apply Hboth; [done|]. by apply (pf_all _ _ Hok).
      * intros k v Hm. destruct (desired !! k) as [p|] eqn:Ed.
        -- destruct (pf_value _ _ Hok _ _ Ed) as [_ (policy & encap & Hin & Hi & Hv)]. destruct (Hboth policy Hin) with (d := Ingress) as (st & Hst & Hi' & _ & Hr); [rewrite Hi; by eexists|].
           destruct (Hs st Hst) as [_ (q & Hq & Hh)]. destruct (Hh Hr) as [_ Mq]. rewrite Hi', Hi in Mq, Hq. assert (q = p) as -> by congruence.
           destruct F as [A _]. rewrite A, Mq in Hm by (unfold stale_key; congruence). injection Hm as <-. by exists policy, encap.
        -- exfalso. unfold removeStalePolicies, mbind, M_bind, mret, M_ret in Es. destruct (LinkList w2) as [[links|e] w5]; [|done]. destruct (foldM (remove_link desired) [] links w5) as [fl w6].
           destruct (removeStaleMapEntries desired w6) as [[e|] w7] eqn:Er; injection Es as Es <-; [by destruct fl|]. pose proof (stale_entries_gone desired w6 w7 Er k Ed) as Hg.
           destruct F3 as [A _]. rewrite A in Hm by done. congruence.
    + injection H as <- <- <-. constructor; [intros _; apply (pf_distinct _ _ Hok)|by apply Hgood|done|intros (st & Hst & Hr); by destruct (Hno st Hst Hr)].
  - injection H as <- <- <-. constructor; [intros _; apply (pf_distinct _ _ Hok)|apply Hgood; reflexivity|done|]. intros _. split; [done|]. etransitivity; [by apply frame_weaken|exact Hf].
Qed.
(** C33. What the translator reports is what the kernel has.  At the end of a pass every attachment
    reported ready has the value of its interface's policy in the map and the translator's own
    program on its hook; when the pass reports no error, both hooks of every interface with pairs
    are ready and the map holds the values of these policies and nothing else; and when an
    attachment is not ready, nothing of any other interface was removed. *)
Theorem translator_pass_sound policies w states errs w' : Translator_Reconcile policies w = ((states, errs), w') ->
  (forall st, st ∈ states -> as_Ready st = true ->
     exists v, installed policies (as_IfIndex st) v /\ map_of w' (as_IfIndex st) = Some v /\ runs w' (as_IfIndex st) (as_Direction st)) /\
  (errs = [] ->
     (forall policy, policy ∈ policies -> ip_Pairs policy <> [] -> both_ready (ip_IfIndex policy) states) /\
     forall k v, map_of w' k = Some v -> installed policies k v) /\
  ((exists st, st ∈ states /\ as_Ready st = false) ->
     errs <> [] /\ kernel_frame (fun k => k ∈ ip_IfIndex <$> policies) (fun i _ => i ∈ ip_IfIndex <$> policies) w w').
Proof. by intros [_ ? ? ?]%translator_pass. Qed.
End Props.
