(* ===== verification/BpfEdge.v ===== *)
(** * Edge addresses the translator no longer uses

    [VerifyUnused] is asked before an edge address is taken from an interface.  It only reads, and
    when it finds nothing, no policy a packet can meet has the address among its exceptions. *)

From S2P Require Import Prelude GoStrings Effects NptPolicy BgpFib NetWire BpfProgram BpfTranslator BpfTranslatorProps.

Local Open Scope Z_scope.

(** No live pair has the address as an exception. *)
Definition policy_free (v : nptPolicy) (address : Addr) : Prop :=
  Forall (fun pair => address ∉ AddrFrom16 <$> take (Z.to_nat (bp_SourceCount pair)) (bp_SourceExceptions pair) /\
                      address ∉ AddrFrom16 <$> take (Z.to_nat (bp_DestinationCount pair)) (bp_DestinationExceptions pair)) (live_pairs v).

(** Nor does the outside prefix of one hold it. *)
Definition outside_free (v : nptPolicy) (address : Addr) : Prop :=
  Forall (fun pair => Contains (PrefixFrom (AddrFrom16 (bp_External pair)) (bp_ExternalBits pair)) address = false) (live_pairs v).

Section Edge.
Context {W : Type} `{PT : !PrefixText} `{TB : TcBehaves W}.

#[local] Instance observes_preorder : PreOrder (@observes W _).
Proof.
  split.
  - intros w. split; [split|]; done.
  - intros w1 w2 w3 [[A1 B1] C1] [[A2 B2] C2]. split; [split|].
    + intros k Hk. by rewrite A2, A1.
    + intros i d Hd. by rewrite B2, B1.
    + intros k. by rewrite C2.
Qed.

Lemma observes_map w w' g k : observes w w' -> map_at g w' k = map_at g w k.
Proof. intros [[A _] C]. destruct g; [by apply A|apply C]. Qed.

Lemma observes_filters w w' i d : observes w w' -> filters_of w' i d = filters_of w i d.
Proof. intros [[_ B] _]. by apply B. Qed.

Ltac observing :=
  repeat first
    [ apply (sat_bind _); [|intros ?]
    | apply (sat_ret _) | apply (sat_gets _)
    | apply (sat_foldM _); intros ? ?
    | match goal with |- sat (match ?x with _ => _ end) _ => destruct x end
    | progress first [apply info_observes|apply map_info_observes|apply FilterList_observes|apply Lookup_observes|apply Iterate_observes|apply LinkByIndex_observes|apply LinkList_observes] ].

Lemma prepare_observes policies : sat (preparePolicies policies) observes.
Proof. unfold preparePolicies, prepare_policy. observing. Qed.

Lemma read_observes i d : sat (readFilter i d) observes.
Proof. unfold readFilter. observing. Qed.

Lemma edge_policy_observes desired a i : sat (verifyEdgePolicy desired a i) observes.
Proof. unfold verifyEdgePolicy. observing. Qed.

Lemma edge_attachments_observes i c : sat (verifyEdgeAttachments i c) observes.
Proof. unfold verifyEdgeAttachments, edge_direction, edge_filter. observing; apply read_observes. Qed.

Lemma for_program_observes id : sat (policiesForProgram id) observes.
Proof. unfold policiesForProgram, match_program. observing. Qed.

Lemma attached_observes desired a i id : sat (verifyAttachedEdgePolicy desired a i id) observes.
Proof. unfold verifyAttachedEdgePolicy. apply (sat_bind _); [apply for_program_observes|]. intros p. observing. Qed.

Lemma surviving_filter_observes desired a i d failed f : sat (surviving_filter desired a i d failed f) observes.
Proof. unfold surviving_filter. destruct failed; [apply (sat_ret _)|]. destruct (negb _); [apply (sat_ret _)|apply attached_observes]. Qed.

Lemma surviving_hook_observes desired a failed h : sat (surviving_hook desired a failed h) observes.
Proof. unfold surviving_hook. observing. apply surviving_filter_observes. Qed.

Lemma index_observes desired a failed i : sat (verify_index desired a failed i) observes.
Proof.
  unfold verify_index. destruct failed; [apply (sat_ret _)|]. apply (sat_bind _); [apply edge_policy_observes|]. intros []; [apply (sat_ret _)|apply edge_attachments_observes].
Qed.

Lemma references_observes indices a desired : sat (verifySurvivingEdgeReferences indices a desired) observes.
Proof. unfold verifySurvivingEdgeReferences. observing. apply surviving_hook_observes. Qed.

(** A loop of reads that ends without an error passed on every element. *)
Lemma fold_none {A} (step : option error -> A -> M W (option error)) xs w w' :
  (forall e x w, step (Some e) x w = (Some e, w)) -> (forall failed x, sat (step failed x) observes) -> foldM step None xs w = (None, w') ->
  forall x, x ∈ xs -> exists w1 w2, step None x w1 = (None, w2) /\ observes w1 w' /\ observes w2 w'.
Proof.
  intros Hskip Hobs. assert (forall e xs w, (foldM step (Some e) xs w).1 = Some e) as Herr.
  { intros e ys. induction ys as [|y ys IH]; intros u; cbn [foldM]; [done|]. unfold mbind, M_bind. rewrite Hskip. apply IH. }
  revert w. induction xs as [|y xs IH]; intros w H x Hx; [by apply elem_of_nil in Hx|]. cbn [foldM] in H. unfold mbind, M_bind in H.
  pose proof (Hobs None y w) as Ho. destruct (step None y w) as [[e|] w1] eqn:E; cbn [snd] in Ho; [specialize (Herr e xs w1); by rewrite H in Herr|].
  apply elem_of_cons in Hx as [->|Hx]; [|by eapply IH]. pose proof (sat_foldM _ step None xs ltac:(intros; apply Hobs) w1) as Ho2. rewrite H in Ho2.
  exists w, w1. split; [done|]. split; [by etransitivity|done].
Qed.

Lemma unused_free v a : policyDoesNotUseEdge v a = None -> policy_free v a.
Proof.
  unfold policyDoesNotUseEdge, policy_free. destruct (64 <? bo_Count v); [done|]. intros H%first_error_none. eapply Forall_impl; [exact H|]. intros pair. unfold pair_error.
  destruct (_ || _); [done|]. case_bool_decide; [done|]. by case_bool_decide.
Qed.

Lemma surviving_free desired policies a i v : prepared_from policies desired -> verifySurvivingEdgePolicy desired a i v = None ->
  policy_free v a /\ (installed policies i v \/ outside_free v a).
Proof.
  intros Hp. unfold verifySurvivingEdgePolicy. destruct (desired !! i) as [p|] eqn:Ed; [case_bool_decide as E|].
  1: { intros H. split; [by apply unused_free|left]. subst v. apply (pf_value _ _ Hp _ _ Ed). }
  all: destruct (policyDoesNotUseEdge v a) eqn:Eu; [done|]; intros H%first_error_none; split; [by apply unused_free|right].
  all: eapply Forall_impl; [exact H|]; intros pair; cbn beta; by destruct (Contains _ _).
Qed.

Lemma edge_policy_free desired policies a i w w' v : prepared_from policies desired -> verifyEdgePolicy desired a i w = (None, w') -> map_of w i = Some v ->
  policy_free v a /\ installed policies i v.
Proof.
  intros Hp H Hm. unfold verifyEdgePolicy, mbind, M_bind, mret, M_ret in H. destruct (interfaceKey i) as [key|] eqn:Ek; [|done]. apply interfaceKey_ok in Ek as ->.
  pose proof (Lookup_found Current i w) as Hf. pose proof (Lookup_absent Current i w) as Ha. destruct (Policies_Lookup Current i w) as [[u|e|e] w1]; cbn [fst] in *.
  - specialize (Hf u eq_refl). cbn in Hf. assert (u = v) as -> by congruence. destruct (desired !! i) as [p|] eqn:Ed; [|done].
    case_bool_decide as E; cbn [negb] in H; [|done]. destruct (policyDoesNotUseEdge v a) eqn:Eu; [done|]. split; [by apply unused_free|]. subst v. apply (pf_value _ _ Hp _ _ Ed).
  - specialize (Ha e eq_refl). cbn in Ha. congruence.
  - done.
Qed.

Lemma index_free desired policies a i w w' v : prepared_from policies desired -> verify_index desired a None i w = (None, w') -> map_of w i = Some v ->
  policy_free v a /\ installed policies i v.
Proof.
  intros Hp H. unfold verify_index, mbind, M_bind in H. destruct (verifyEdgePolicy desired a i w) as [[e|] w1] eqn:E; [done|]. by eapply edge_policy_free.
Qed.

(** The program is one of the two generations'. *)
Lemma program_known id w g w' : policiesForProgram id w = (Ok g, w') -> exists d, program_at g d = id.
Proof.
  unfold policiesForProgram, mbind, M_bind, mret, M_ret, gets.
  pose proof (wp_foldM (match_program id) (fun _ (found : res (option generation)) _ => match found with Ok (Some g) => exists d, program_at g d = id | _ => True end)
    ([(Current, Ingress); (Current, Egress)] ++ if tr_previous (get_translator w) then [(Previous, Ingress); (Previous, Egress)] else []) (Ok None) w I) as Hf.
  assert (forall found p s, (match found : res (option generation) with Ok (Some g) => exists d, program_at g d = id | _ => True end) ->
    wp (match_program id found p) (fun found _ => match found with Ok (Some g) => exists d, program_at g d = id | _ => True end) s) as Hstep.
  { intros [[g0|]|e] p s Hi; [done| |done]. unfold match_program, wp, mbind, M_bind, mret, M_ret. pose proof (info_identity p.1 p.2 s) as Hid.
    destruct (program_Info p.1 p.2 s) as [[info|e] s']; [|done]. cbn [fst] in *. destruct (pi_ID info) as [known|] eqn:Ek; [|done].
    destruct (Z.eqb_spec known id) as [->|]; [|done]. exists p.2. symmetry. by eapply Hid. }
  specialize (Hf ltac:(intros dn x todo acc s _ HI; by apply Hstep)). unfold wp in Hf.
  destruct (foldM _ _ _ w) as [found w1]. cbn [fst] in Hf. destruct found as [[g0|]|e]; intros [=]. by subst g0.
Qed.

Lemma attached_free desired policies a i id w w' : prepared_from policies desired -> verifyAttachedEdgePolicy desired a i id w = (None, w') ->
  exists g d, id = program_at g d /\ forall v, map_at g w i = Some v -> policy_free v a.
Proof.
  intros Hp H. unfold verifyAttachedEdgePolicy, mbind, M_bind, mret, M_ret in H. pose proof (for_program_observes id w) as Ho. destruct (policiesForProgram id w) as [[g|e] w1] eqn:E; [|done].
  apply program_known in E as [d <-]. exists g, d. split; [done|]. intros v Hv. destruct (interfaceKey i) as [key|] eqn:Ek; [|done]. apply interfaceKey_ok in Ek as ->.
  rewrite <- (observes_map _ _ g i Ho) in Hv. pose proof (Lookup_found g i w1) as Hf. pose proof (Lookup_absent g i w1) as Ha. destruct (Policies_Lookup g i w1) as [[u|e|e] w2]; cbn [fst snd] in *.
  - specialize (Hf u eq_refl). assert (u = v) as -> by congruence. injection H as H _. by eapply surviving_free.
  - specialize (Ha e eq_refl). congruence.
  - done.
Qed.

Lemma hook_free desired policies a i d w w' f : prepared_from policies desired -> surviving_hook desired a None (i, d) w = (None, w') ->
  f ∈ filters_of w' i d -> ownedFilter f d = true -> exists g d', tf_Id f = program_at g d' /\ forall v, map_at g w' i = Some v -> policy_free v a.
Proof.
  intros Hp H Hin Ho. unfold surviving_hook, mbind, M_bind, mret, M_ret in H. cbn [fst snd] in H. pose proof (FilterList_observes i d w) as O1. pose proof (FilterList_reads i d w) as Hr.
  destruct (FilterList i d w) as [[fs|e] w1]; cbn [fst snd] in *; [|done]. rewrite (Hr fs eq_refl) in H.
  pose proof (sat_foldM _ (surviving_filter desired a i d) None (filters_of w i d) ltac:(intros; apply surviving_filter_observes) w1) as O2. rewrite H in O2. cbn [snd] in O2.
  rewrite (observes_filters _ _ i d O2), (observes_filters _ _ i d O1) in Hin.
  destruct (fold_none (surviving_filter desired a i d) _ _ _ ltac:(done) ltac:(intros; apply surviving_filter_observes) H f Hin) as (w2 & w3 & Hs & O3 & _).
  unfold surviving_filter in Hs. rewrite Ho in Hs. apply attached_free with (policies := policies) in Hs as (g & d' & Hid & Hf); [|done]. exists g, d'. split; [done|].
  intros v Hv. apply Hf. by rewrite <- (observes_map _ _ g i O3).
Qed.

(** What the inspection found. *)
Record edge_unused (policies : list InterfacePolicy) (a : Addr) (w : W) : Prop := {
  eu_map k v : map_of w k = Some v -> policy_free v a /\ (installed policies k v \/ outside_free v a);
  eu_attached i d f : f ∈ filters_of w i d -> ownedFilter f d = true ->
    exists g d', tf_Id f = program_at g d' /\ forall v, map_at g w i = Some v -> policy_free v a;
}.

Lemma references_free desired policies indices a w w' : prepared_from policies desired -> verifySurvivingEdgeReferences indices a desired w = (None, w') ->
  (forall k v, k ∉ indices -> map_of w' k = Some v -> policy_free v a /\ (installed policies k v \/ outside_free v a)) /\
  forall i d f, f ∈ filters_of w' i d -> ownedFilter f d = true -> exists g d', tf_Id f = program_at g d' /\ forall v, map_at g w' i = Some v -> policy_free v a.
Proof.
  intros Hp H. pose proof (references_observes indices a desired w) as O. rewrite H in O. cbn [snd] in O. unfold verifySurvivingEdgeReferences, mbind, M_bind, mret, M_ret in H.
  pose proof (Iterate_observes w) as O1. pose proof (Iterate_complete w) as Hc. destruct (Policies_Iterate w) as [[entries failed] w1]. cbn [fst snd] in *.
  destruct (first_error _ entries) eqn:Ef; [done|]. destruct failed as [e|]; [done|]. apply first_error_none in Ef. split.
  - intros k v Hk Hm. rewrite (observes_map _ _ Current k O : map_of w' k = map_of w k) in Hm. rewrite Forall_forall in Ef. specialize (Ef (k, v) (Hc _ k v eq_refl Hm)). cbn in Ef.
    rewrite bool_decide_false in Ef by done. by eapply surviving_free.
  - intros i d f Hin Ho. pose proof (LinkList_observes w1) as O2. pose proof (LinkList_complete w1) as Hl. destruct (LinkList w1) as [[links|e] w2]; cbn [fst snd] in *; [|done].
    assert (observes w w2) as O12 by by etransitivity. assert (i ∈ links) as Hi.
    { eapply (Hl links i d); [done|]. intros Hnil. rewrite (observes_filters _ _ i d O), <- (observes_filters _ _ i d O1), Hnil in Hin. by apply elem_of_nil in Hin. }
    destruct (fold_none (surviving_hook desired a) (hooks_of links) w2 w' ltac:(done) ltac:(intros; apply surviving_hook_observes) H (i, d)) as (w3 & w4 & Hs & _ & O4).
    { apply list_elem_of_bind. exists i. split; [|done]. destruct d; set_solver. }
    rewrite (observes_filters _ _ i d O4) in Hin. destruct (hook_free _ _ _ _ _ _ _ f Hp Hs Hin Ho) as (g & d' & Hid & Hf). exists g, d'. split; [done|]. intros v Hv. apply Hf.
    by rewrite <- (observes_map _ _ g i O4).
Qed.

Lemma verify_unused_observes indices a policies : sat (VerifyUnused indices a policies) observes.
Proof.
  unfold VerifyUnused. apply (sat_bind _); [apply (sat_gets _)|]. intros t. destruct (tr_closed t); [apply (sat_ret _)|].
  apply (sat_bind _); [apply prepare_observes|]. intros [desired|e]; [|apply (sat_ret _)].
  apply (sat_bind _); [apply (sat_foldM _); intros; apply index_observes|]. intros []; [apply (sat_ret _)|apply references_observes].
Qed.

Lemma verify_unused indices a policies w w' : VerifyUnused indices a policies w = (None, w') -> observes w w' /\ edge_unused policies a w'.
Proof.
  intros H. unfold VerifyUnused, mbind, M_bind, mret, M_ret, gets in H. destruct (tr_closed _); [done|]. pose proof (prepare_observes policies w) as O1.
  pose proof (prepare_ok policies w) as Hok. destruct (preparePolicies policies w) as [[desired|e] w1]; [|done]. specialize (Hok _ _ eq_refl). cbn [snd] in O1.
  pose proof (sat_foldM _ (verify_index desired a) None indices ltac:(intros; apply index_observes) w1) as O2.
  destruct (foldM (verify_index desired a) None indices w1) as [[e|] w2] eqn:Ei; [done|]. cbn [snd] in O2.
  pose proof (references_observes indices a desired w2) as O3. rewrite H in O3. cbn [snd] in O3. destruct (references_free _ _ _ _ _ _ Hok H) as [Hm Ha].
  split; [by do 2 (etransitivity; [done|])|]. constructor; [|done]. intros k v Hv. destruct (decide (k ∈ indices)) as [Hin|Hin]; [|by apply Hm].
  destruct (fold_none (verify_index desired a) indices w1 w2 ltac:(done) ltac:(intros; apply index_observes) Ei k Hin) as (w3 & w4 & Hs & O4 & _).
  assert (map_of w3 k = Some v) as Hv3.
  { assert (observes w3 w') as O5 by by etransitivity. pose proof (observes_map _ _ Current k O5) as E. cbn in E. congruence. }
  destruct (index_free _ _ _ _ _ _ _ Hok Hs Hv3) as [Hf Hi]. split; [done|by left].
Qed.
End Edge.
