(* ===== verification/NatReadiness.v ===== *)
(** * Whether a line's IPv4 translation is in the kernel (gateway/internal/ifmgr/modules/npt/ipv4_readiness.go)

    The rules of the ip nat table are written elsewhere; the NPT module reads them back, decodes
    the ones that can touch a line, and calls the family ready only when it understands them all
    and they translate as configured.  What an IPv4 rule does is that of [NatExec]'s machine. *)

From S2P Require Import Prelude GoStrings Effects NptPolicy Intent BgpFib NetWire NetProvider Firewall Health WanState Nftables NatRules.

Local Open Scope Z_scope.

(** One provider and its translation policy (npt.go). *)
Record NptWAN := mkNptWAN {
  nw_ref : WANRef;
  nw_Owned : bool;
  nw_TranslationV4 : option IPv4Translation;
  nw_Translation : option IPv6Translation;
}.
Definition nw_Key (w : NptWAN) : string := Key (nw_ref w).
Definition nw_Iface (w : NptWAN) : string := ref_Iface (nw_ref w).

Record ipv4NATRule := mkIpv4NATRule { r4_match : Prefix; r4_target : Addr; r4_kind : NATType; r4_masquerade : bool }.

Definition ipv4MappingReady (rules : list ipv4NATRule) (source target : Addr) (kind : NATType) : bool :=
  match List.find (fun rule => Contains (r4_match rule) source) rules with
  | Some rule =>
      negb (r4_masquerade rule) && bool_decide (r4_kind rule = kind) && (pfx_bits (r4_match rule) =? 32)
      && bool_decide (pfx_addr (r4_match rule) = source) && bool_decide (r4_target rule = target)
  | None => false
  end.

Definition mark_only (e : natExpr) : bool :=
  match e with
  | NMeta key source _ => negb (source && negb (bool_decide (key = KeyMARK)))
  | NPayload access _ _ _ => negb (bool_decide (access = PayloadWrite))
  | NCt _ source _ => negb source
  | NCmp _ _ _ | NBitwise _ _ _ _ _ | NImmediate _ _ => true
  | _ => false
  end.
Definition ipv4MarkOnlyRule (expressions : list natExpr) : bool := forallb mark_only expressions.

Definition addr4_offset (c : ruleChain) : Z := match c with chainPrerouting => 16 | chainPostrouting => 12 end.

(** The comparison of an address match: its prefix and the number of expressions before the action. *)
Definition compare4 (dest len bits : Z) (index : nat) (expressions : list natExpr) : option (Prefix * nat) :=
  if (length expressions <=? index + 1)%nat then None
  else match expressions !! index with
       | Some (NCmp op register data) =>
           if negb (bool_decide (op = CmpOpEq)) || negb (register =? dest) || negb (Z.of_nat (length data) =? len) then None
           else let prefix := PrefixFrom (Addr4 (take 4 (data ++ repeat 0 4))) bits in
                if bool_decide (prefix = Masked prefix) then Some (prefix, index + 1)%nat else None
       | _ => None
       end.

Definition decodeIPv4AddressMatch (expressions : list natExpr) (direction : ruleChain) : option (Prefix * nat) :=
  if (length expressions <? 3)%nat then None
  else match expressions with
       | NPayload access dest offset len :: e :: _ =>
           if negb (bool_decide (access = NetworkLoad)) || negb (offset =? addr4_offset direction) || (len <? 1) || (4 <? len) then None
           else match e with
                | NBitwise source dest' len' mask xor =>
                    if negb (source =? dest) || negb (dest' =? dest) || negb (len' =? len) || negb (Z.of_nat (length xor) =? len) || negb (allZero xor) then None
                    else let '(ones, width) := mask_Size mask in
                         if negb (width =? len * 8) then None else compare4 dest len ones 2 expressions
                | _ => compare4 dest len (len * 8) 1 expressions
                end
       | _ => None
       end.

Definition expected_kind (direction : ruleChain) : NATType := match direction with chainPrerouting => NATTypeDestNAT | chainPostrouting => NATTypeSourceNAT end.

Definition decodeIPv4NATRule (expressions : list natExpr) (direction : ruleChain) : option ipv4NATRule :=
  match decodeIPv4AddressMatch expressions direction with
  | None => None
  | Some (prefix, consumed) =>
      match drop consumed expressions with
      | [NMasq toPorts regMin regMax] =>
          if negb (bool_decide (direction = chainPostrouting)) || toPorts || negb (regMin =? 0) || negb (regMax =? 0) then None
          else Some (mkIpv4NATRule prefix AddrNone NATTypeSourceNAT true)
      | [NImmediate register data; NNat n] =>
          if negb (length data =? 4)%nat || negb (nat_Family n =? NFPROTO_IPV4) || nat_Prefix n || negb (natHasNoExtraFlags n) || negb (nat_RegAddrMin n =? register)
             || (negb (nat_RegAddrMax n =? 0) && negb (nat_RegAddrMax n =? register)) || negb (bool_decide (nat_Type n = expected_kind direction)) then None
          else Some (mkIpv4NATRule prefix (Addr4 data) (nat_Type n) false)
      | _ => None
      end
  end.

Definition is_counter (e : natExpr) : bool := match e with NCounter => true | _ => false end.

Definition without_counters (rule : list natExpr) : list natExpr := List.filter (fun e => negb (is_counter e)) rule.

(** What one rule adds to the rules of the line, or the error that ends the reading. *)
Definition read_rule4 (names : Z -> option string) (direction : ruleChain) (iface : string) (decoded : list ipv4NATRule) (rule : list natExpr) : res (list ipv4NATRule) :=
  let expressions := without_counters rule in
  let matched := decodeInterfaceMatch names expressions in
  if negb (nonempty expressions) then Ok decoded
  else if match matched with Some (d, i) => bool_decide (d = direction) && negb (bool_decide (i = iface)) | None => false end then Ok decoded
  else if bool_decide (direction = chainPrerouting) && ipv4MarkOnlyRule expressions then Ok decoded
  else if match matched with Some (d, _) => bool_decide (d = direction) | None => false end
  then match decodeIPv4NATRule (drop 2 expressions) direction with
       | Some entry => Ok (decoded ++ [entry])
       | None => Err ("IPv4 " +:+ ruleChain_String direction +:+ " contains an unsupported translation rule for " +:+ iface)%string
       end
  else Err ("IPv4 " +:+ ruleChain_String direction +:+ " contains a rule whose effect on " +:+ iface +:+ " cannot be verified")%string.

(** The ip nat table: the kind of a chain, and its rules. *)
Class Nat4Reader (W : Type) := {
  nat4_ListChain : ruleChain -> W -> res (option (string * string * Z * bool)) * W;
  nat4_GetRules : ruleChain -> W -> res (list (list natExpr)) * W;
}.

Definition no_translation : FamilyTranslation := mkFamilyTranslation "" false "" no_prefix no_prefix.

Section Readiness.
Context {W : Type} `{PT : !PrefixText} `{NR : !NatReader W} `{N4 : !Nat4Reader W}.

Definition readIPv4NATChain (direction : ruleChain) (iface : string) : M W (res (list ipv4NATRule)) :=
  chain ← nat4_ListChain direction;
  match chain with
  | Err e => mret (Err ("IPv4 " +:+ ruleChain_String direction +:+ " chain could not be read: " +:+ e)%string)
  | Ok kind =>
      if negb (bool_decide (kind = Some (nat_kind (ruleChain_String direction)))) then mret (Err ("IPv4 " +:+ ruleChain_String direction +:+ " is not the required NAT base chain")%string)
      else
        rules ← nat4_GetRules direction;
        names ← gets ifaceNameByIndex;
        mret match rules with
             | Err e => Err ("IPv4 " +:+ ruleChain_String direction +:+ " rules could not be read: " +:+ e)%string
             | Ok rules => fold_res (read_rule4 names direction iface) [] rules
             end
  end.

Definition unready (mode reason : string) : FamilyTranslation := mkFamilyTranslation mode false reason no_prefix no_prefix.

Definition mapping_text (kind : string) (from to : Addr) (iface : string) : string :=
  "IPv4 " +:+ kind +:+ " mapping " +:+ addr_String from +:+ " to " +:+ addr_String to +:+ " on " +:+ iface +:+ " is absent or overridden".

Definition last_check (mode : string) : M W FamilyTranslation :=
  canceled ← gets nat_ctx_err;
  mret match canceled with
       | Some _ => unready mode "IPv4 translation readback was canceled"
       | None => mkFamilyTranslation mode true "" no_prefix no_prefix
       end.

(** The static mappings, in both directions. *)
Definition mappings_ready (mode iface : string) (mappings : list StaticMapping) (post : list ipv4NATRule) : M W FamilyTranslation :=
  match List.find (fun m => negb (ipv4MappingReady post (sm_Internal m) (sm_External m) NATTypeSourceNAT)) mappings with
  | Some m => mret (unready mode (mapping_text "source" (sm_Internal m) (sm_External m) iface))
  | None =>
      if nonempty mappings
      then
        pre ← readIPv4NATChain chainPrerouting iface;
        match pre with
        | Err e => mret (unready mode e)
        | Ok pre =>
            match List.find (fun m => negb (ipv4MappingReady pre (sm_External m) (sm_Internal m) NATTypeDestNAT)) mappings with
            | Some m => mret (unready mode (mapping_text "destination" (sm_External m) (sm_Internal m) iface))
            | None => last_check mode
            end
        end
      else last_check mode
  end.

Definition IPv4TranslationReadiness (wan : NptWAN) (internal : Prefix) : M W FamilyTranslation :=
  match nw_TranslationV4 wan with
  | None => mret no_translation
  | Some t =>
      let mode := t4_Mode t in
      if bool_decide (mode = TranslationNative) then mret (mkFamilyTranslation mode true "" no_prefix no_prefix)
      else if negb (bool_decide (mode = TranslationNAPT44)) then mret (unready mode "IPv4 translation mode is unsupported")
      else if negb (IsValid internal) || negb (Is4 (pfx_addr internal)) then mret (unready mode "internal IPv4 source network is unavailable")
      else
        canceled ← gets nat_ctx_err;
        match canceled with
        | Some _ => mret (unready mode "IPv4 translation readback was canceled")
        | None =>
            failed ← nat_readConn;
            match failed with
            | Some e => mret (unready mode ("IPv4 translation rules could not be read: " +:+ e))
            | None =>
                post ← readIPv4NATChain chainPostrouting (nw_Iface wan);
                match post with
                | Err e => mret (unready mode e)
                | Ok post =>
                    if negb (existsb (fun rule => r4_masquerade rule && bool_decide (r4_match rule = Masked internal)) post)
                    then mret (unready mode ("IPv4 masquerade for " +:+ nw_Iface wan +:+ " from " +:+ prefix_String (Masked internal) +:+ " is absent"))
                    else mappings_ready mode (nw_Iface wan) (t4_StaticMappings t) post
                end
            end
        end
  end.
End Readiness.
