(* ===== verification/NptModule.v ===== *)
(** * The NPT module (gateway/internal/ifmgr/modules/npt/npt.go, applied_policy.go, edge_release.go, wanstate/npt.go)

    Per WAN the module resolves the outside prefix, owns the edge address, and derives the nat
    rules and the prefix pair; a pass commits the rules, hands the pairs to the translator,
    releases edges no longer used and publishes which families translate.  The module's state is
    [nptModule]; the live state store is [WanState]'s; the kernel, the translator and the address
    authority are the world, and every call that changes something is logged with the world it was
    made in. *)

From S2P Require Import Prelude GoStrings Effects NptPolicy Intent BgpFib NetWire NetProvider Health Observation WanState Firewall Nftables NatRules NatReadiness BpfProgram BpfTranslator.

Local Open Scope Z_scope.

(** ** Configuration *)

Record NptConfig := mkNptConfig {
  nc_InternalIface : string;
  nc_InternalNetV4 : string;
  nc_InternalPrefix : string;
  nc_OpnsenseEdgeV6 : string;
  nc_MwanbrEdgeV6 : string;
  nc_WANs : list NptWAN;
}.

Definition expectsDelegation (w : NptWAN) : bool :=
  match nw_Translation w with
  | Some t => bool_decide (t6_Mode t = TranslationNPTv6)
              && match t6_NPT t with Some n => bool_decide (npt_ExternalSource n = PrefixDelegated) | None => false end
  | None => false
  end.

Definition translates (w : NptWAN) : bool := match nw_Translation w with Some t => bool_decide (t6_Mode t = TranslationNPTv6) | None => false end.
Definition isMasquerade (w : NptWAN) : bool := match nw_Translation w with Some t => bool_decide (t6_Mode t = TranslationMasquerade) | None => false end.

Definition validate_npt_wan (acc : res (list string)) (e : nat * NptWAN) : res (list string) :=
  match acc with
  | Err e => Err e
  | Ok seen =>
      let at_ := ("npt: wan[" +:+ itoa (Z.of_nat e.1) +:+ "]")%string in
      if is_empty (nw_Key e.2) then Err (at_ +:+ ": connection ID is required")%string
      else if is_empty (nw_Iface e.2) then Err (at_ +:+ " (" +:+ nw_Key e.2 +:+ "): iface is required")%string
      else if bool_decide (nw_Iface e.2 ∈ seen) then Err (at_ +:+ ": duplicate iface " +:+ nw_Iface e.2)%string
      else Ok (nw_Iface e.2 :: seen)
  end.

Definition validateWANs (wans : list NptWAN) : res unit :=
  match fold_left validate_npt_wan (imap pair wans) (Ok []) with Err e => Err e | Ok _ => Ok tt end.

Definition watchedIfaces (cfg : NptConfig) : list string :=
  fold_left (fun ifaces w => if is_empty (nw_Iface w) || bool_decide (nw_Iface w ∈ ifaces) then ifaces else ifaces ++ [nw_Iface w]) (nc_WANs cfg) [].

(** FNV-1a over the name, the low half, never zero. *)
Definition fnv1a (name : string) : Z := fold_left (fun h b => Z.lxor h b * 16777619 mod 2 ^ 32) (name_bytes name) 2166136261.
Definition pairID (name : string) : Z := let id := Z.land (fnv1a name) 0xffff in if id =? 0 then 1 else id.

(** ** The world *)

Record NPTEdgeRecord := mkEdgeRecord {
  er_ConnectionID : string;
  er_Interface : string;
  er_InterfaceIndex : Z;
  er_LinkIdentity : string;
  er_Prefix : Prefix;
}.

#[export] Instance NPTEdgeRecord_eq_dec : EqDecision NPTEdgeRecord.
Proof. solve_decision. Defined.

Record NPTEdgeRequest := mkEdgeRequest { eq_ConnectionID : string; eq_Interface : string; eq_Prefix : Prefix }.

(** An error and whether it wraps [ErrOwnedLinkPending]. *)
Record edge_error := mkEdgeError { ee_text : error; ee_pending : bool }.

Class NPTAddressAuthority (W : Type) := {
  Edge_Ensure : NPTEdgeRequest -> W -> option edge_error * W;
  Edge_Recorded : W -> list NPTEdgeRecord * W;
  Edge_RetainDuringRecovery : NPTEdgeRecord -> W -> bool * W;
  Edge_Release : NPTEdgeRecord -> W -> option error * W;
}.

Record link_attrs := mkLinkAttrs { la_Name : string; la_Index : Z; la_Alias : string; la_PermHWAddr : string; la_HardwareAddr : string }.

Definition LinkOwnershipIdentity (l : link_attrs) : string :=
  if negb (is_empty (la_Alias l)) then "alias:" +:+ la_Alias l
  else if negb (is_empty (la_PermHWAddr l)) then "mac:" +:+ la_PermHWAddr l
  else "mac:" +:+ la_HardwareAddr l.
Definition LinkMatchesIdentity (l : link_attrs) (index : Z) (identity : string) : bool :=
  (la_Index l =? index) && bool_decide (LinkOwnershipIdentity l = identity).

(** The delegated prefixes, the addresses and links of the kernel, the daemon's shared results, the
    clock, and the guard another module registers around policy changes. *)
Class NptHost (W : Type) := {
  Source_Prefix : string -> W -> res (option Prefix) * W;
  ListAddrs : string -> W -> res (list CurrentAddr) * W;
  npt_LinkByName : string -> W -> res Z * W;
  npt_LinkByIndex : Z -> W -> option link_attrs * W;
  (** the interfaces of the main-table routes to the prefix *)
  RouteListFiltered : Prefix -> W -> res (list Z) * W;
  npt_FamilyApplied : string -> string -> W -> bool * W;
  npt_FamilyReady : string -> string -> W -> bool * W;
  (** the leased addresses and when they end *)
  Delegations_Get : string -> W -> option (list (Addr * Z)) * W;
  npt_Now : W -> Z * W;
  nptGuard_registered : W -> bool;
  (** the guard's error, and whether it gave a completion function *)
  nptGuard_call : list string -> W -> (option error * bool) * W;
  nptGuard_release : W -> W;
  (** the rule at a position of the last listing *)
  npt_DelRule : nat -> W -> option error * W;
  npt_FlushRemovals : W -> option error * W;
  Alerts_Active : string -> string -> W -> bool * W;
}.

(** ** State *)

(** Which of the daemon's services exist. *)
Record nptEnv := mkNptEnv {
  ne_LiveState : bool;
  ne_NPTAddresses : bool;
  ne_OwnedAddresses : bool;
  ne_Delegations : bool;
  ne_RequestReconcile : bool;
  ne_Alerts : bool;
}.

(** Sets of a Go map are lists; [nm_translator]: the translator was loaded. *)
Record nptModule := mkNptModule {
  nm_cfg : NptConfig;
  nm_env : nptEnv;
  nm_internal : Prefix;
  opnsenseEdge : Addr;
  mwanbrEdge : Addr;
  nm_translator : bool;
  pdMissing : list string;
  previousLocal : gmap string (list Addr);
  activePairs : gmap string PrefixPair;
  activeRules : gmap string (list natRule);
}.

(** A completed change of the outside, or a publication. *)
Inductive nevent :=
| NApply (desired : desiredRules) (e : option error)
| NTranslate (policies : list InterfacePolicy) (states : list AttachmentState) (errs : list error)
| NEnsure (request : NPTEdgeRequest) (e : option edge_error)
| NRelease (record : NPTEdgeRecord) (policies : list InterfacePolicy)
| NGuard (changed : list string) (e : option error)
| NFinish
| NPublish (members : gmap string MemberTranslation) (pairs : gmap string PrefixPair)
| NRequest (reason : string)
| NNotify (kind key : string)
| NResolve (kind key : string).

Section Module.
Context `{DT : !DistributionTypes} {W : Type} `{PT : !PrefixText} `{AT : !NetText}.
Context `{NC : !NatConn W, NR : !NatReader W, N4 : !Nat4Reader W, TK : !TcKernel W, AA : !NPTAddressAuthority W, NH : !NptHost W}.

Record nsys := mkNsys { nmod : nptModule; nstore : Store; nworld : W; nlog : list (nevent * W) }.

Abbreviation NM := (M nsys).

Definition getN {A} (f : nptModule -> A) : NM A := gets (fun s => f (nmod s)).
Definition setN (f : nptModule -> nptModule) : NM unit := modify (fun s => mkNsys (f (nmod s)) (nstore s) (nworld s) (nlog s)).
Definition askN {A} (f : M W A) : NM A := fun s => let '(a, w) := f (nworld s) in (a, mkNsys (nmod s) (nstore s) w (nlog s)).
Definition emitN (e : nevent) : NM unit := modify (fun s => mkNsys (nmod s) (nstore s) (nworld s) (nlog s ++ [(e, nworld s)])).
(** A call, logged with its outcome and the world after it. *)
Definition actN {A} (f : M W A) (event : A -> nevent) : NM A := a ← askN f; emitN (event a) ;; mret a.
Definition storeN {A} (f : M (ssys W) A) : NM A := fun s =>
  let '(a, x) := f (mkSsys (nstore s) (nworld s) []) in (a, mkNsys (nmod s) (store_ x) (sworld x) (nlog s)).

Definition cfgN : NM NptConfig := getN nm_cfg.
Definition wansN : NM (list NptWAN) := getN (fun m => nc_WANs (nm_cfg m)).

Definition set_active (pairs : gmap string PrefixPair) (m : nptModule) : nptModule :=
  mkNptModule (nm_cfg m) (nm_env m) (nm_internal m) (opnsenseEdge m) (mwanbrEdge m) (nm_translator m) (pdMissing m) (previousLocal m) pairs (activeRules m).
Definition set_rules (rules : gmap string (list natRule)) (m : nptModule) : nptModule :=
  mkNptModule (nm_cfg m) (nm_env m) (nm_internal m) (opnsenseEdge m) (mwanbrEdge m) (nm_translator m) (pdMissing m) (previousLocal m) (activePairs m) rules.
Definition set_missing (missing : list string) (m : nptModule) : nptModule :=
  mkNptModule (nm_cfg m) (nm_env m) (nm_internal m) (opnsenseEdge m) (mwanbrEdge m) (nm_translator m) missing (previousLocal m) (activePairs m) (activeRules m).
Definition set_local (local : gmap string (list Addr)) (m : nptModule) : nptModule :=
  mkNptModule (nm_cfg m) (nm_env m) (nm_internal m) (opnsenseEdge m) (mwanbrEdge m) (nm_translator m) (pdMissing m) local (activePairs m) (activeRules m).
Definition set_parsed (internal : Prefix) (edge mwanbr : Addr) (m : nptModule) : nptModule :=
  mkNptModule (nm_cfg m) (nm_env m) internal edge mwanbr (nm_translator m) (pdMissing m) (previousLocal m) (activePairs m) (activeRules m).
Definition set_loaded (m : nptModule) : nptModule :=
  mkNptModule (nm_cfg m) (nm_env m) (nm_internal m) (opnsenseEdge m) (mwanbrEdge m) true (pdMissing m) (previousLocal m) (activePairs m) (activeRules m).

Definition requestN (reason : string) : NM unit :=
  here ← getN (fun m => ne_RequestReconcile (nm_env m)); whenM here (emitN (NRequest reason)).

(** ** Edges (edge_release.go) *)

Definition recordedN : NM (list NPTEdgeRecord) :=
  here ← getN (fun m => ne_NPTAddresses (nm_env m)); if negb here then mret [] else askN Edge_Recorded.

Definition edgeLinkCurrent (record : NPTEdgeRecord) : NM bool :=
  link ← askN (npt_LinkByIndex (er_InterfaceIndex record));
  mret match link with
       | Some l => bool_decide (la_Name l = er_Interface record) && LinkMatchesIdentity l (er_InterfaceIndex record) (er_LinkIdentity record)
       | None => false
       end.

Definition mark_edge (wan : NptWAN) (cidr : string) (desired : list NPTEdgeRecord) (record : NPTEdgeRecord) : NM (list NPTEdgeRecord) :=
  if bool_decide (er_ConnectionID record = ref_ID (nw_ref wan)) && bool_decide (er_Interface record = nw_Iface wan)
     && (is_empty cidr || bool_decide (prefix_String (er_Prefix record) = cidr))
  then current ← edgeLinkCurrent record; mret (if (current : bool) then desired ++ [record] else desired)
  else mret desired.

Definition markDesiredEdges (desired : list NPTEdgeRecord) (wan : NptWAN) (cidr : string) : NM (list NPTEdgeRecord) :=
  records ← recordedN; foldM (mark_edge wan cidr) desired records.

Definition mark_recovering (wan : NptWAN) (desired : list NPTEdgeRecord) (record : NPTEdgeRecord) : NM (list NPTEdgeRecord) :=
  if bool_decide (er_ConnectionID record = ref_ID (nw_ref wan)) && bool_decide (er_Interface record = nw_Iface wan)
  then retained ← askN (Edge_RetainDuringRecovery record); mret (if (retained : bool) then desired ++ [record] else desired)
  else mret desired.

Definition markRecoveringEdges (desired : list NPTEdgeRecord) (wan : NptWAN) : NM (list NPTEdgeRecord) :=
  records ← recordedN; foldM (mark_recovering wan) desired records.

Definition journaledEdge (iface : string) (address : Addr) : NM bool :=
  records ← recordedN;
  mret (existsb (fun r => bool_decide (er_Interface r = iface) && bool_decide (pfx_addr (er_Prefix r) = address)) records).

(** ** One WAN *)

Definition global128Address (current : CurrentAddr) (pd1 : Addr) : option Addr :=
  if negb (bool_decide (ca_Family current = "inet6"%string)) then None
  else match ParsePrefix (ca_CIDR current) with
       | None => None
       | Some p => if negb (pfx_bits p =? 128) || negb (IsGlobalUnicast (pfx_addr p)) || bool_decide (pfx_addr p = pd1) then None else Some (pfx_addr p)
       end.

Definition localAssignmentSet (wan : NptWAN) : NM (list Addr) :=
  local ← getN (fun m => default [] (previousLocal m !! nw_Iface wan));
  here ← getN (fun m => ne_Delegations (nm_env m));
  if negb (nw_Owned wan) || negb here then mret local
  else
    lease ← askN (Delegations_Get (nw_Iface wan));
    match lease with
    | None => mret local
    | Some addresses => now ← askN npt_Now; mret (local ++ (List.filter (fun a => now <? a.2) addresses).*1)
    end.

Definition classify_address (wan : NptWAN) (pd1 : Addr) (assigned : list Addr) (acc : list Addr * list Addr) (current : CurrentAddr) : NM (list Addr * list Addr) :=
  match global128Address current pd1 with
  | None => mret acc
  | Some addr =>
      journaled ← journaledEdge (nw_Iface wan) addr;
      mret (if (journaled : bool) then acc
            else if bool_decide (addr ∈ assigned) then (acc.1, acc.2 ++ [addr]) else (acc.1 ++ [addr], acc.2))
  end.

(** The addresses to forward and the local ones. *)
Definition extraGlobal128s (wan : NptWAN) (pd1 : Addr) (finalized : bool) : NM (res (list Addr * list Addr)) :=
  addrs ← askN (ListAddrs (nw_Iface wan));
  match addrs with
  | Err e => mret (Err e)
  | Ok addrs =>
      assigned ← localAssignmentSet wan;
      acc ← foldM (classify_address wan pd1 assigned) ([], []) addrs;
      whenM (finalized && nw_Owned wan) (setN (fun m => set_local (<[nw_Iface wan := acc.2]> (previousLocal m)) m)) ;;
      mret (Ok acc)
  end.

Record wanDesired := mkWanDesired { wd_rules : list natRule; wd_ensure : string; wd_pair : PrefixPair; wd_externalPrefix : Prefix }.

(** The outside prefix: [Ok None] when no prefix is delegated. *)
Definition external_prefix (wan : NptWAN) (policy : NPTv6Translation) : NM (res (option Prefix)) :=
  if bool_decide (npt_ExternalSource policy = PrefixConfigured) then mret (Ok (Some (Masked (npt_ExternalPrefix policy))))
  else
    answer ← askN (Source_Prefix (nw_Iface wan));
    mret match answer with
         | Err _ | Ok None => Ok None
         | Ok (Some pfx) =>
             let bits := if IsValid (npt_ExpectedPrefix policy) then pfx_bits (npt_ExpectedPrefix policy) else pfx_bits (npt_InternalPrefix policy) in
             if bits <? pfx_bits pfx
             then Err ("npt: " +:+ nw_Key wan +:+ " delegated " +:+ prefix_String pfx +:+ " is longer than required /" +:+ itoa bits)%string
             else Ok (Some (Masked (PrefixFrom (pfx_addr pfx) bits)))
         end.

Definition wan_pair (m : nptModule) (wan : NptWAN) (policy : NPTv6Translation) (external : Prefix) (extra local : list Addr) : PrefixPair :=
  mkPair (pairID (nw_Key wan)) (Masked (npt_InternalPrefix policy)) external [opnsenseEdge m; mwanbrEdge m]
    (externalHostOne external :: extra ++ List.filter (Contains external) local).

Definition wan_desired (m : nptModule) (wan : NptWAN) (policy : NPTv6Translation) (external : Prefix) (extra local : list Addr) : res wanDesired :=
  let pr := wan_pair m wan policy external extra local in
  match ValidatePair pr with
  | Err e => Err ("npt: " +:+ nw_Key wan +:+ ": " +:+ e)%string
  | Ok _ => Ok (mkWanDesired (buildWANRules (mkWanRuleInput (nw_Iface wan) external (opnsenseEdge m) (mwanbrEdge m) extra))
                  (prefix_String (PrefixFrom (externalHostOne external) 128)) pr external)
  end.

Definition buildWANDesired (wan : NptWAN) (finalized : bool) : NM (res (option wanDesired)) :=
  match nw_Translation wan with
  | None => mret (Ok None)
  | Some t =>
      if bool_decide (t6_Mode t = TranslationNative) then mret (Ok None)
      else match t6_NPT t with
           | None => mret (Err ("npt: " +:+ nw_Key wan +:+ " has no NPTv6 policy")%string)
           | Some policy =>
               external ← external_prefix wan policy;
               match external with
               | Err e => mret (Err e)
               | Ok None => mret (Ok None)
               | Ok (Some external) =>
                   found ← extraGlobal128s wan (externalHostOne external) finalized;
                   match found with
                   | Err e => mret (Err ("enumerate extra /128 on " +:+ nw_Iface wan +:+ ": " +:+ e)%string)
                   | Ok (extra, local) =>
                       m ← getN id;
                       mret match wan_desired m wan policy external extra local with Err e => Err e | Ok d => Ok (Some d) end
                   end
               end
           end
  end.

Definition ensureExternalAddress (wan : NptWAN) (cidr : string) : NM (option edge_error) :=
  here ← getN (fun m => ne_NPTAddresses (nm_env m));
  if negb here then mret (Some (mkEdgeError "NPT edge address authority is unavailable" false))
  else match ParsePrefix cidr with
       | None => mret (Some (mkEdgeError ("parse NPT edge: " +:+ cidr) false))
       | Some prefix =>
           let request := mkEdgeRequest (ref_ID (nw_ref wan)) (nw_Iface wan) prefix in
           failed ← actN (Edge_Ensure request) (NEnsure request);
           mret match failed with Some e => Some (mkEdgeError ("ensure authorized NPT edge: " +:+ ee_text e) (ee_pending e)) | None => None end
       end.

(** ** What a pass collects *)

Record pass := mkPass {
  ps_desired : desiredRules;
  ps_missing : list string;
  ps_delegated : gmap string Prefix;
  ps_pairs : gmap string PrefixPair;
  ps_rules : gmap string (list natRule);
  ps_edges : list NPTEdgeRecord;
  ps_errs : list error;
}.

Definition no_pass : pass := mkPass no_rules [] ∅ ∅ ∅ [] [].

Definition fail_wan (e : error) (a : pass) : pass := mkPass (ps_desired a) (ps_missing a) (ps_delegated a) (ps_pairs a) (ps_rules a) (ps_edges a) (ps_errs a ++ [e]).
Definition miss_wan (wan : NptWAN) (a : pass) : pass := mkPass (ps_desired a) (nw_Iface wan :: ps_missing a) (ps_delegated a) (ps_pairs a) (ps_rules a) (ps_edges a) (ps_errs a).
Definition with_edges (edges : list NPTEdgeRecord) (a : pass) : pass := mkPass (ps_desired a) (ps_missing a) (ps_delegated a) (ps_pairs a) (ps_rules a) edges (ps_errs a).
Definition with_rules (wan : NptWAN) (rules : list natRule) (a : pass) : pass :=
  mkPass (desired_add (ps_desired a) rules) (ps_missing a) (ps_delegated a) (ps_pairs a) (<[nw_Key wan := rules]> (ps_rules a)) (ps_edges a) (ps_errs a).
Definition with_pair (wan : NptWAN) (pr : PrefixPair) (external : Prefix) (a : pass) : pass :=
  mkPass (ps_desired a) (ps_missing a) (<[nw_Key wan := external]> (ps_delegated a)) (<[nw_Key wan := pr]> (ps_pairs a)) (ps_rules a) (ps_edges a) (ps_errs a).

(** Whether the WAN masquerades, and its rules then. *)
Definition addMasqueradeRules (wan : NptWAN) (a : pass) : bool * pass :=
  if isMasquerade wan then (true, with_rules wan [masqueradeRule (nw_Iface wan)] a) else (false, with_rules wan [] a).

Definition addressesNotApplied (wan : NptWAN) : NM bool :=
  here ← getN (fun m => ne_OwnedAddresses (nm_env m));
  if negb (nw_Owned wan && translates wan) then mret false
  else if negb here then mret true
  else applied ← askN (npt_FamilyApplied (nw_Key wan) "ipv6"); mret (negb applied).

Definition retainCurrentTranslation (wan : NptWAN) (a : pass) : NM pass :=
  edges ← markDesiredEdges (ps_edges a) wan "";
  m ← getN id;
  let a := with_rules wan (default [] (activeRules m !! nw_Key wan)) (with_edges edges a) in
  mret match activePairs m !! nw_Key wan with Some pr => with_pair wan pr (External pr) a | None => a end.

Definition unapplied_text (wan : NptWAN) : error := ("npt: " +:+ nw_Key wan +:+ " IPv6 addresses are not ready; retaining current translation")%string.

Definition check_unapplied (failed : option error) (wan : NptWAN) : NM (option error) :=
  match failed with
  | Some e => mret (Some e)
  | None =>
      unapplied ← addressesNotApplied wan;
      m ← getN id;
      mret (if negb unapplied then None
            else match activeRules m !! nw_Key wan with
                 | None => Some (unapplied_text wan)
                 | Some previous => if nonempty previous && negb (is_some (activePairs m !! nw_Key wan)) then Some (unapplied_text wan) else None
                 end)
  end.

Definition checkUnappliedWANs : NM (option error) := ws ← wansN; foldM check_unapplied None ws.

Definition reconcile_built (wan : NptWAN) (built : wanDesired) (a : pass) : NM pass :=
  ensured ← ensureExternalAddress wan (wd_ensure built);
  match ensured with
  | Some (mkEdgeError e true) =>
      a ← retainCurrentTranslation wan a;
      mret (fail_wan ("npt: " +:+ nw_Key wan +:+ " owned link result is pending; retaining current translation: " +:+ e)%string a)
  | _ =>
      edges ← markDesiredEdges (ps_edges a) wan (wd_ensure built);
      let a := with_edges edges a in
      mret match ensured with
           | Some e => miss_wan wan (fail_wan ("ensure " +:+ wd_ensure built +:+ " on " +:+ nw_Iface wan +:+ ": " +:+ ee_text e)%string a)
           | None => with_rules wan (wd_rules built) (with_pair wan (wd_pair built) (wd_externalPrefix built) a)
           end
  end.

Definition reconcile_wan (a : pass) (wan : NptWAN) : NM pass :=
  let '(masquerades, a) := addMasqueradeRules wan a in
  if masquerades then mret a
  else
    unapplied ← addressesNotApplied wan;
    if (unapplied : bool) then a ← retainCurrentTranslation wan a; mret (fail_wan (unapplied_text wan) a)
    else
      built ← buildWANDesired wan true;
      match built with
      | Err e => mret (miss_wan wan (fail_wan e a))
      | Ok None =>
          if expectsDelegation wan then edges ← markRecoveringEdges (ps_edges a) wan; mret (miss_wan wan (with_edges edges a))
          else mret a
      | Ok (Some built) => reconcile_built wan built a
      end.

(** ** The guard around a change of policies (wanstate/npt.go, applied_policy.go) *)

(** [Ok None]: nothing changes; [Ok (Some changed)]: the fence is held. *)
Definition BeginNPTChange (next : gmap string PrefixPair) : NM (res (option (list string)) * list string) :=
  previous ← storeN (getStore nptPolicies);
  let changed := changedNPTPolicies previous next in
  if negb (nonempty changed) then mret (Ok None, [])
  else
    canceled ← askN (gets nat_ctx_err);
    match canceled with
    | Some e => mret (Err ("begin NPT policy change: " +:+ e)%string, changed)
    | None =>
        registered ← askN (gets nptGuard_registered);
        guarded ← (if (registered : bool)
                   then answer ← askN (nptGuard_call changed);
                        match answer with
                        | (Some e, supplied) => whenM supplied (askN (modify nptGuard_release)) ;; mret (Some ("prepare NPT policy change: " +:+ e)%string)
                        | (None, false) => mret (Some "NPT mutation guard did not supply its completion function"%string)
                        | (None, true) => mret None
                        end
                   else mret None);
        match guarded with
        | Some e => mret (Err e, changed)
        | None =>
            canceled ← askN (gets nat_ctx_err);
            match canceled with
            | Some e => whenM registered (askN (modify nptGuard_release)) ;; mret (Err ("prepare NPT policy change: " +:+ e)%string, changed)
            | None => mret (Ok (Some changed), changed)
            end
        end
    end.

(** The changed connections when a fence is held. *)
Definition beginPolicyChange (pairs : gmap string PrefixPair) : NM (res (option (list string))) :=
  here ← getN (fun m => ne_LiveState (nm_env m));
  if negb here then mret (Ok None)
  else
    '(answer, changed) ← BeginNPTChange pairs;
    emitN (NGuard changed (match answer with Err e => Some e | Ok _ => None end)) ;;
    mret match answer with Err e => Err ("guard NPT policy change: " +:+ e)%string | Ok changed => Ok changed end.

Definition publish (members : gmap string MemberTranslation) (pairs : gmap string PrefixPair) (reason : string) : NM unit :=
  changed ← storeN (SetNPTTranslation members pairs);
  emitN (NPublish members pairs) ;;
  whenM changed (requestN reason).

Definition no_member : MemberTranslation := mkMemberTranslation no_translation no_translation.

Definition unready_member (reason : string) (m : MemberTranslation) : MemberTranslation :=
  mkMemberTranslation (tr_V4 m) (mkFamilyTranslation (ft_Mode (tr_V6 m)) false reason (InternalPrefix (tr_V6 m)) (ExternalPrefix (tr_V6 m))).

Definition fail_policy (s : gmap string MemberTranslation * gmap string PrefixPair) (id : string) : gmap string MemberTranslation * gmap string PrefixPair :=
  (<[id := unready_member "NPT policy mutation did not complete" (default no_member (s.1 !! id))]> s.1, delete id s.2).

Definition failAppliedPolicy (changed : list string) : NM unit :=
  here ← getN (fun m => ne_LiveState (nm_env m));
  if negb here || negb (nonempty changed) then mret tt
  else
    snapshot ← storeN TakeSnapshot;
    let s := fold_left fail_policy changed (Translation snapshot, NPTPolicies snapshot) in
    publish s.1 s.2 "NPT applied policy became unavailable".

Definition finishPolicyChange (fence : option (list string)) (published : bool) : NM unit :=
  match fence with
  | None => mret tt
  | Some changed =>
      whenM (negb published) (failAppliedPolicy changed) ;;
      registered ← askN (gets nptGuard_registered);
      whenM registered (askN (modify nptGuard_release)) ;;
      emitN NFinish
  end.

(** ** The translator *)

Definition attachmentsReady (states : list AttachmentState) (index : Z) : bool :=
  let has d := existsb (fun st => (as_IfIndex st =? index) && as_Ready st && bool_decide (as_Direction st = d)) states in
  negb (index =? 0) && has Ingress && has Egress.

Definition internalPrefixRouteReady (prefix : Prefix) (internalIndex : Z) : NM (option error) :=
  routes ← askN (RouteListFiltered (Masked prefix));
  mret match routes with
       | Err e => Some ("list IPv6 routes for " +:+ prefix_String prefix +:+ ": " +:+ e)%string
       | Ok routes =>
           if bool_decide (internalIndex ∈ routes) then None
           else Some ("main-table route for " +:+ prefix_String prefix +:+ " does not use internal interface index " +:+ itoa internalIndex)%string
       end.

(** The policies of the WANs, the pairs of the internal interface, the indices, the identities seen and the errors. *)
Record policy_set := mkPolicySet {
  pl_wans : list InterfacePolicy;
  pl_internal : list PrefixPair;
  pl_indices : list (string * Z);
  pl_identities : list (Z * string);
  pl_errs : list error;
}.

Definition policy_failed (e : error) (a : policy_set) : policy_set := mkPolicySet (pl_wans a) (pl_internal a) (pl_indices a) (pl_identities a) (pl_errs a ++ [e]).
Definition policy_seen (id : Z) (key : string) (a : policy_set) : policy_set := mkPolicySet (pl_wans a) (pl_internal a) (pl_indices a) ((id, key) :: pl_identities a) (pl_errs a).
Definition policy_added (key : string) (index : Z) (pr : PrefixPair) (a : policy_set) : policy_set :=
  mkPolicySet (pl_wans a ++ [mkInterfacePolicy index false [pr]]) (pl_internal a ++ [pr]) (pl_indices a ++ [(key, index)]) (pl_identities a) (pl_errs a).

Definition wan_policy_for (pairs : gmap string PrefixPair) (internalIndex : Z) (a : policy_set) (wan : NptWAN) : NM policy_set :=
  match pairs !! nw_Key wan with
  | None => mret a
  | Some pr =>
      match List.find (fun e => e.1 =? ID pr) (pl_identities a) with
      | Some (_, previous) => mret (policy_failed ("npt: " +:+ previous +:+ " and " +:+ nw_Key wan +:+ " have colliding prefix-pair IDs")%string a)
      | None =>
          let a := policy_seen (ID pr) (nw_Key wan) a in
          unready ← internalPrefixRouteReady (Internal pr) internalIndex;
          match unready with
          | Some e => mret (policy_failed ("npt: " +:+ nw_Key wan +:+ " hairpin route: " +:+ e)%string a)
          | None =>
              link ← askN (npt_LinkByName (nw_Iface wan));
              mret match link with
                   | Err e => policy_failed ("npt: WAN interface " +:+ nw_Iface wan +:+ ": " +:+ e)%string a
                   | Ok index => policy_added (nw_Key wan) index pr a
                   end
          end
      end
  end.

Record interface_policies := mkPolicies { ip_policies : list InterfacePolicy; ip_indices : list (string * Z); ip_internal : Z; ip_errs : list error }.

Definition interfacePolicies (pairs : gmap string PrefixPair) : NM interface_policies :=
  if bool_decide (pairs = ∅) then mret (mkPolicies [] [] 0 [])
  else
    cfg ← cfgN;
    internal ← askN (npt_LinkByName (nc_InternalIface cfg));
    match internal with
    | Err e => mret (mkPolicies [] [] 0 [("npt: internal interface " +:+ nc_InternalIface cfg +:+ ": " +:+ e)%string])
    | Ok internal =>
        a ← foldM (wan_policy_for pairs internal) (mkPolicySet [] [] [] [] []) (nc_WANs cfg);
        mret (mkPolicies (pl_wans a ++ if nonempty (pl_internal a) then [mkInterfacePolicy internal true (pl_internal a)] else []) (pl_indices a) internal (pl_errs a))
    end.

Definition translateN (policies : list InterfacePolicy) : NM (list AttachmentState * list error) :=
  actN (Translator_Reconcile policies) (fun r => NTranslate policies r.1 r.2).

(** Which connections are ready, whether the translator had no error, the policies and the errors. *)
Definition reconcileTranslator (pairs : gmap string PrefixPair) : NM (gmap string bool * bool * list InterfacePolicy * list error) :=
  loaded ← getN nm_translator;
  if negb loaded then mret (∅, false, [], [])
  else
    p ← interfacePolicies pairs;
    '(states, errs) ← translateN (ip_policies p);
    whenM (negb (nonempty errs) && negb (nonempty (ip_errs p))) (setN (set_active pairs)) ;;
    let internalReady := attachmentsReady states (ip_internal p) in
    let ready := fold_left (fun ready e => <[e.1 := internalReady && attachmentsReady states e.2]> ready) (ip_indices p) ∅ in
    mret (ready, negb (nonempty errs), ip_policies p,
          ip_errs p ++ if nonempty errs then [("reconcile NPTv6 programs: " +:+ joined errs)%string] else []).

(** ** Releasing edges *)

Definition unready_edge (record : NPTEdgeRecord) (e : error) (acc : gmap string bool * list error) : gmap string bool * list error :=
  (<[er_ConnectionID record := false]> acc.1, acc.2 ++ [e]).

Definition release_edge (desired : list NPTEdgeRecord) (policies : list InterfacePolicy) (acc : gmap string bool * list error) (record : NPTEdgeRecord) :
    NM (gmap string bool * list error) :=
  if bool_decide (record ∈ desired) then mret acc
  else
    let address := pfx_addr (er_Prefix record) in
    used ← askN (verifyNFTEdgeUnused (er_Interface record) address);
    match used with
    | Some e => mret (unready_edge record e acc)
    | None =>
        cfg ← cfgN;
        internal ← askN (npt_LinkByName (nc_InternalIface cfg));
        match internal with
        | Err e => mret (unready_edge record ("inspect NPT internal link before edge release: " +:+ e)%string acc)
        | Ok internal =>
            loaded ← getN nm_translator;
            if negb loaded then mret (unready_edge record "NPT translator cannot verify edge release" acc)
            else
              used ← askN (VerifyUnused [er_InterfaceIndex record; internal] address policies);
              match used with
              | Some e => mret (unready_edge record ("inspect NPT policies before releasing " +:+ prefix_String (er_Prefix record) +:+ ": " +:+ e)%string acc)
              | None =>
                  emitN (NRelease record policies) ;;
                  failed ← askN (Edge_Release record);
                  match failed with
                  | Some e => mret (unready_edge record e acc)
                  | None => requestN "NPT edge journal cleanup completed" ;; mret acc
                  end
              end
        end
    end.

Definition releaseObsoleteEdges (desired : list NPTEdgeRecord) (ready : gmap string bool) (policies : list InterfacePolicy) : NM (gmap string bool * list error) :=
  records ← recordedN; foldM (release_edge desired policies) (ready, []) records.

(** ** Publication *)

Definition ipv6TranslationReadiness (wan : NptWAN) (external : Prefix) (kernelReady bpfReady nativeReady : bool) : FamilyTranslation :=
  match nw_Translation wan with
  | None => no_translation
  | Some t =>
      if bool_decide (t6_Mode t = TranslationNative)
      then mkFamilyTranslation (t6_Mode t) nativeReady (if nativeReady then "" else "stale IPv6 translation cleanup is unverified") no_prefix no_prefix
      else match t6_NPT t with
           | None => mkFamilyTranslation (t6_Mode t) false "" no_prefix no_prefix
           | Some npt =>
               mkFamilyTranslation (t6_Mode t) (kernelReady && bpfReady) (if kernelReady && bpfReady then "" else "required IPv6 translation is unavailable")
                 (npt_InternalPrefix npt) external
           end
  end.

(** The family is not ready, for this reason. *)
Definition not_ready (reason : string) (f : FamilyTranslation) : FamilyTranslation :=
  mkFamilyTranslation (ft_Mode f) false reason (InternalPrefix f) (ExternalPrefix f).

Definition family_ready (wan : NptWAN) (family : string) : NM bool :=
  here ← getN (fun m => ne_OwnedAddresses (nm_env m));
  if negb (nw_Owned wan) then mret true else if negb here then mret false else askN (npt_FamilyReady (nw_Key wan) family).

Definition updateMasqueradeReadiness (wan : NptWAN) (state : FamilyTranslation) (rendered : RenderedTable) (verified : bool) : NM FamilyTranslation :=
  if negb (isMasquerade wan) then mret state
  else
    let ready := verified && bool_decide (formatRule (masqueradeRule (nw_Iface wan)) ∈ rt_Postrouting rendered) in
    let state := mkFamilyTranslation (ft_Mode state) ready (if ready then ft_Reason state else "IPv6 masquerade is not verified") (InternalPrefix state) (ExternalPrefix state) in
    addressed ← family_ready wan "ipv6";
    mret (if (addressed : bool) then state else not_ready "MWAN-owned IPv6 addresses are not verified" state).

Definition ipv4_member (wan : NptWAN) (internalV4 : option Prefix) : NM FamilyTranslation :=
  match nw_TranslationV4 wan with
  | None => mret no_translation
  | Some t =>
      v4 ← askN (IPv4TranslationReadiness wan (default no_prefix internalV4));
      let v4 := if negb (is_some internalV4) && bool_decide (t4_Mode t = TranslationNAPT44) then not_ready "internal IPv4 source network is unavailable" v4 else v4 in
      addressed ← family_ready wan "ipv4";
      mret (if (addressed : bool) then v4 else not_ready "MWAN-owned IPv4 addresses are not verified" v4)
  end.

(** What the pass found, for the publication. *)
Record outcome := mkOutcome {
  oc_applied : bool;
  oc_bpfReady : gmap string bool;
  oc_nativeReady : bool;
}.

Definition publish_wan (a : pass) (o : outcome) (internalV4 : option Prefix) (rendered : res RenderedTable)
    (acc : gmap string MemberTranslation * gmap string PrefixPair) (wan : NptWAN) : NM (gmap string MemberTranslation * gmap string PrefixPair) :=
  let table := match rendered with Ok t => t | Err _ => emptyRenderedTable end in
  let inspected := match rendered with Ok _ => true | Err _ => false end in
  v4 ← ipv4_member wan internalV4;
  let v6 := ipv6TranslationReadiness wan (default no_prefix (ps_delegated a !! nw_Key wan)) (oc_applied o && HasInterface table (nw_Iface wan))
              (default false (oc_bpfReady o !! nw_Key wan)) (oc_nativeReady o && inspected && interfaceAbsent table (nw_Iface wan)) in
  v6 ← updateMasqueradeReadiness wan v6 table (oc_applied o && inspected && oc_nativeReady o);
  mret match ps_pairs a !! nw_Key wan with
       | Some pr =>
           if ft_Ready v6
           then if bool_decide (Internal pr = InternalPrefix v6) && bool_decide (External pr = ExternalPrefix v6)
                then (<[nw_Key wan := mkMemberTranslation v4 v6]> acc.1, <[nw_Key wan := pr]> acc.2)
                else (<[nw_Key wan := mkMemberTranslation v4 (not_ready "NPT prefixes differ from the verified policy" v6)]> acc.1, acc.2)
           else (<[nw_Key wan := mkMemberTranslation v4 v6]> acc.1, acc.2)
       | None => (<[nw_Key wan := mkMemberTranslation v4 v6]> acc.1, acc.2)
       end.

Definition npt_publishLiveState (a : pass) (o : outcome) : NM unit :=
  here ← getN (fun m => ne_LiveState (nm_env m));
  if negb here then mret tt
  else
    storeN (SetIntendedRuleset (renderIntended (ps_desired a))) ;;
    rendered ← askN nat_renderTable;
    cfg ← cfgN;
    acc ← foldM (publish_wan a o (ParsePrefix (nc_InternalNetV4 cfg)) rendered) (∅, ∅) (nc_WANs cfg);
    publish acc.1 acc.2 "NPT translation readiness changed".

(** ** The pass *)

(** The part of a pass behind the guard. *)
Definition reconcile_guarded (a : pass) : NM (list error) :=
  '(applyErr, _) ← actN (nat_Apply (ps_desired a)) (fun r => NApply (ps_desired a) r.1);
  whenM (negb (is_some applyErr)) (setN (set_rules (ps_rules a))) ;;
  '(ready, nativeReady, policies, policyErrs) ← reconcileTranslator (ps_pairs a);
  '(ready, releaseErrs) ← releaseObsoleteEdges (ps_edges a) ready policies;
  npt_publishLiveState a (mkOutcome (negb (is_some applyErr)) ready nativeReady) ;;
  mret (match applyErr with Some e => [("apply: " +:+ e)%string] | None => [] end ++ policyErrs ++ releaseErrs).

Definition npt_Reconcile : NM (list error) :=
  unapplied ← checkUnappliedWANs;
  match unapplied with
  | Some e => mret [e]
  | None =>
      ws ← wansN;
      a ← foldM reconcile_wan no_pass ws;
      setN (set_missing (ps_missing a)) ;;
      fence ← beginPolicyChange (ps_pairs a);
      match fence with
      | Err e => mret [e]
      | Ok fence =>
          errs ← reconcile_guarded a;
          finishPolicyChange fence true ;;
          mret (ps_errs a ++ errs)
      end
  end.

(** ** Local addresses before they are installed *)

Definition ownsTranslatedIface (wans : list NptWAN) (iface : string) : bool :=
  existsb (fun w => bool_decide (nw_Iface w = iface) && nw_Owned w && translates w) wans.

Definition add_pending (acc : res PrefixPair) (address : Addr) : res PrefixPair :=
  match acc with
  | Err e => Err e
  | Ok pr =>
      if negb (Is6 address) || Is4In6 address || negb (IsGlobalUnicast address) then Err ("npt: invalid local IPv6 address " +:+ addr_String address)%string
      else if bool_decide (address = externalHostOne (External pr))
      then Err ("npt: local IPv6 address " +:+ addr_String address +:+ " conflicts with the NPT edge address")%string
      else Ok (if Contains (External pr) address && negb (bool_decide (address ∈ DestinationExceptions pr))
               then mkPair (ID pr) (Internal pr) (External pr) (SourceExceptions pr) (DestinationExceptions pr ++ [address])
               else pr)
  end.

Definition addPendingExceptions (pr : PrefixPair) (local : list Addr) : res PrefixPair := fold_left add_pending local (Ok pr).

Definition prepared_pair (wan : NptWAN) (iface : string) (local : list Addr) (pr : PrefixPair) : res PrefixPair :=
  if bool_decide (nw_Iface wan = iface)
  then match addPendingExceptions pr local with
       | Err e => Err e
       | Ok pr => match ValidatePair pr with
                    | Err e => Err ("npt: " +:+ nw_Key wan +:+ " local IPv6 preparation: " +:+ e)%string
                    | Ok _ => Ok pr
                    end
       end
  else Ok pr.

Definition preparation_pair (iface : string) (local : list Addr) (acc : res (gmap string PrefixPair)) (wan : NptWAN) : NM (res (gmap string PrefixPair)) :=
  match acc with
  | Err e => mret (Err e)
  | Ok pairs =>
      built ← buildWANDesired wan false;
      m ← getN id;
      mret match built with
           | Err e => Err e
           | Ok None =>
               if bool_decide (nw_Iface wan = iface) then Err ("npt: " +:+ nw_Key wan +:+ " has no external prefix for local IPv6 preparation")%string
               else Ok (match activePairs m !! nw_Key wan with Some previous => <[nw_Key wan := previous]> pairs | None => pairs end)
           | Ok (Some built) =>
               match prepared_pair wan iface local (wd_pair built) with
               | Err e => Err e
               | Ok pr => Ok (<[nw_Key wan := pr]> pairs)
               end
           end
  end.

Definition preparationPairs (iface : string) (local : list Addr) : NM (res (gmap string PrefixPair)) :=
  ws ← wansN; foldM (preparation_pair iface local) (Ok ∅) ws.

Definition rememberLocal (iface : string) (addresses : list Addr) : NM unit :=
  setN (fun m => set_local (<[iface := default [] (previousLocal m !! iface) ++ addresses]> (previousLocal m)) m).

Definition samePreparedPolicyBase (previous next : PrefixPair) : bool :=
  let base p := mkPair (ID p) (Internal p) (External p) (SourceExceptions p) [] in EqualPair (base previous) (base next).

Definition prepared_policy (wans : list NptWAN) (iface : string) (pairs : gmap string PrefixPair)
    (s : gmap string MemberTranslation * gmap string PrefixPair) (id : string) : gmap string MemberTranslation * gmap string PrefixPair :=
  let sameInterface := existsb (fun w => bool_decide (nw_Key w = id) && bool_decide (nw_Iface w = iface)) wans in
  let member := default no_member (s.1 !! id) in
  let failed := (<[id := unready_member "NPT policy requires complete reconciliation" member]> s.1, delete id s.2) in
  match s.2 !! id, pairs !! id with
  | Some previous, Some next =>
      if sameInterface && ft_Ready (tr_V6 member) && samePreparedPolicyBase previous next then (s.1, <[id := next]> s.2) else failed
  | _, _ => failed
  end.

Definition publishPreparedPolicy (iface : string) (pairs : gmap string PrefixPair) (changed : list string) : NM unit :=
  here ← getN (fun m => ne_LiveState (nm_env m));
  if negb here then mret tt
  else
    snapshot ← storeN TakeSnapshot;
    ws ← wansN;
    let s := fold_left (prepared_policy ws iface pairs) changed (Translation snapshot, NPTPolicies snapshot) in
    publish s.1 s.2 "NPT applied exceptions changed".

Definition removeReverseDNAT (iface : string) (local : list Addr) : NM (option error) :=
  failed ← askN nat_readConn;
  match failed with
  | Some e => mret (Some ("open nftables netlink connection: " +:+ e)%string)
  | None => askN (removeReverseDNATRules npt_DelRule npt_FlushRemovals iface local)
  end.

Definition keeps_rule (local : list Addr) (rule : natRule) : bool := negb (bool_decide (nr_Op rule = opDNAT)) || negb (bool_decide (pfx_addr (nr_Match rule) ∈ local)).

(** The rules of the interface's first WAN, less the reverse DNAT of the local addresses. *)
Definition retain_rules (iface : string) (local : list Addr) (m : nptModule) : nptModule :=
  match List.find (fun w => bool_decide (nw_Iface w = iface)) (nc_WANs (nm_cfg m)) with
  | Some wan =>
      match activeRules m !! nw_Key wan with
      | Some previous => set_rules (<[nw_Key wan := List.filter (keeps_rule local) previous]> (activeRules m)) m
      | None => m
      end
  | None => m
  end.

Definition forget_rules (iface : string) (m : nptModule) : nptModule :=
  set_rules (fold_left (fun rules w => if bool_decide (nw_Iface w = iface) then delete (nw_Key w) rules else rules) (nc_WANs (nm_cfg m)) (activeRules m)) m.

(** The part of the preparation behind the guard; the flag: the result was published. *)
Definition prepare_guarded (iface : string) (local : list Addr) (pairs : gmap string PrefixPair) (policies : list InterfacePolicy) (changed : list string) : NM (option error * bool) :=
  '(_, errs) ← translateN policies;
  if nonempty errs then mret (Some ("prepare NPTv6 exceptions: " +:+ joined errs)%string, false)
  else
    setN (set_active pairs) ;;
    rememberLocal iface local ;;
    failed ← removeReverseDNAT iface local;
    match failed with
    | Some e => setN (forget_rules iface) ;; mret (Some ("prepare reverse DNAT for " +:+ iface +:+ ": " +:+ e)%string, false)
    | None =>
        setN (retain_rules iface local) ;;
        publishPreparedPolicy iface pairs changed ;;
        mret (None, true)
    end.

Definition prepareLocalIPv6 (iface : string) (local : list Addr) : NM (option error) :=
  ws ← wansN;
  if negb (nonempty local) || negb (ownsTranslatedIface ws iface) then mret None
  else
    pairs ← preparationPairs iface local;
    match pairs with
    | Err e => mret (Some e)
    | Ok pairs =>
        p ← interfacePolicies pairs;
        if nonempty (ip_errs p) then mret (Some (joined (ip_errs p)))
        else
          fence ← beginPolicyChange pairs;
          match fence with
          | Err e => mret (Some e)
          | Ok fence =>
              '(failed, published) ← prepare_guarded iface local pairs (ip_policies p) (default [] fence);
              finishPolicyChange fence published ;;
              mret failed
          end
    end.

(** ** The module's other operations *)

Definition parse : NM (option error) :=
  cfg ← cfgN;
  match validateWANs (nc_WANs cfg) with
  | Err e => mret (Some e)
  | Ok _ =>
      match ParsePrefix (nc_InternalPrefix cfg), ParseAddr (nc_OpnsenseEdgeV6 cfg), ParseAddr (nc_MwanbrEdgeV6 cfg) with
      | None, _, _ => mret (Some ("npt: internal_prefix " +:+ nc_InternalPrefix cfg)%string)
      | Some _, None, _ => mret (Some ("npt: opnsense_edge_v6 " +:+ nc_OpnsenseEdgeV6 cfg)%string)
      | Some _, Some _, None => mret (Some ("npt: mwanbr_edge_v6 " +:+ nc_MwanbrEdgeV6 cfg)%string)
      | Some internal, Some edge, Some mwanbr => setN (set_parsed (Masked internal) edge mwanbr) ;; mret None
      end
  end.

Inductive npt_init := NptReady | NptDisabled | NptFailed (e : error).

(** [Init] up to the monitors it starts. *)
Definition npt_Init : NM npt_init :=
  ws ← wansN;
  records ← recordedN;
  if negb (nonempty ws) && negb (nonempty records) then mret NptDisabled
  else
    failed ← parse;
    match failed with
    | Some e => mret (NptFailed e)
    | None =>
        failed ← askN newTranslator;
        match failed with
        | Some e => mret (NptFailed ("load NPTv6 translator: " +:+ e)%string)
        | None => setN set_loaded ;; mret NptReady
        end
    end.

Definition alertKindPDMissing : string := "npt_pd_missing".

Definition evaluate_wan (missing : list string) (_ : unit) (wan : NptWAN) : NM unit :=
  if negb (expectsDelegation wan)
  then active ← askN (Alerts_Active alertKindPDMissing (nw_Iface wan)); whenM active (emitN (NResolve alertKindPDMissing (nw_Iface wan)))
  else emitN (if bool_decide (nw_Iface wan ∈ missing) then NNotify alertKindPDMissing (nw_Iface wan) else NResolve alertKindPDMissing (nw_Iface wan)).

Definition npt_EvaluateAlerts : NM unit :=
  here ← getN (fun m => ne_Alerts (nm_env m));
  if negb here then mret tt
  else missing ← getN pdMissing; ws ← wansN; foldM (evaluate_wan missing) tt ws.

Definition isAddrEvent (event : KernelEvent) : bool := bool_decide (ev_Kind event = EvAddrAdded) || bool_decide (ev_Kind event = EvAddrDeleted).

Definition npt_onMonitorEvent (event : KernelEvent) : NM unit := if negb (isAddrEvent event) then mret tt else npt_Reconcile ;; mret tt.
End Module.
