(* ===== verification/NptModuleProps.v ===== *)
(** * What the NPT module publishes and releases

    The laws of the outside are the classes below: reads and address changes touch neither the nat
    table nor the translator's objects, and the two kernels do not touch each other.  Against them
    every publication of a pass and every released edge is accounted for. *)

From S2P Require Import Prelude GoStrings Effects NptPolicy Intent BgpFib NetWire NetProvider Health Observation WanState Firewall Nftables NatRules NatExec NatApply NatReadiness.
From S2P Require Import BpfProgram BpfTranslator BpfTranslatorProps BpfEdge NptModule.

Local Open Scope Z_scope.

(** ** The outside *)

(** The translator's objects are as they were. *)
Definition tc_same {W} `{TS : !TcState W} (w w' : W) : Prop := kernel_frame no_key no_hook w w'.
Definition nat_same {W} `{NK : NatKernel W} (w w' : W) : Prop := nat_contents w' = nat_contents w.
Definition quiet {W} `{TS : !TcState W} `{NK : NatKernel W} (w w' : W) : Prop := tc_same w w' /\ nat_same w w'.

(** The nat table and the translator's objects are apart. *)
Class KernelsApart (W : Type) `{TB : TcBehaves W} `{NK : NatKernel W} : Prop := {
  nat_conn_tc : sat nat_newConn tc_same;
  nat_tables_tc : sat ListTables tc_same;
  nat_chains_tc : sat nat_ListChains tc_same;
  nat_flush_tc batch : sat (nat_Flush batch) tc_same;
  nat_read_tc : sat nat_readConn tc_same;
  nat_rules_tc name : sat (GetRules name) tc_same;
  tc_nat_info g d : sat (program_Info g d) nat_same;
  tc_nat_map g : sat (policies_Info g) nat_same;
  tc_nat_lookup g k : sat (Policies_Lookup g k) nat_same;
  tc_nat_update k v : sat (Policies_Update k v) nat_same;
  tc_nat_delete k : sat (Policies_Delete k) nat_same;
  tc_nat_iterate : sat Policies_Iterate nat_same;
  tc_nat_filters i d : sat (FilterList i d) nat_same;
  tc_nat_replace i d : sat (FilterReplace i d) nat_same;
  tc_nat_del i d f : sat (FilterDel i d f) nat_same;
  tc_nat_qdiscs i : sat (QdiscList i) nat_same;
  tc_nat_qdisc i : sat (QdiscAdd i) nat_same;
  tc_nat_link i : sat (LinkByIndex i) nat_same;
  tc_nat_links : sat LinkList nat_same;
  tc_nat_mkdir : sat MkdirAll nat_same;
  tc_nat_unpin p : sat (RemovePin p) nat_same;
  tc_nat_pin p : sat (Pin p) nat_same;
  tc_nat_close g : sat (Close_objects g) nat_same;
  tc_nat_put t : sat (modify (put_translator t)) nat_same;
}.

(** The rest of the host is apart from both; an interface keeps its index. *)
Class HostApart (W : Type) `{TB : TcBehaves W} `{NK : NatKernel W} `{N4 : !Nat4Reader W, AA : !NPTAddressAuthority W, NH : !NptHost W} := {
  link_index : string -> Z;
  LinkByName_index name w i : (npt_LinkByName name w).1 = Ok i -> i = link_index name;
  host_prefix i : sat (Source_Prefix i) quiet;
  host_addrs i : sat (ListAddrs i) quiet;
  host_name n : sat (npt_LinkByName n) quiet;
  host_index i : sat (npt_LinkByIndex i) quiet;
  host_routes p : sat (RouteListFiltered p) quiet;
  host_applied k f : sat (npt_FamilyApplied k f) quiet;
  host_ready k f : sat (npt_FamilyReady k f) quiet;
  host_lease i : sat (Delegations_Get i) quiet;
  host_now : sat npt_Now quiet;
  host_guard ids : sat (nptGuard_call ids) quiet;
  host_unguard : sat (modify nptGuard_release) quiet;
  host_alert k i : sat (Alerts_Active k i) quiet;
  host_ensure r : sat (Edge_Ensure r) quiet;
  host_recorded : sat Edge_Recorded quiet;
  host_retain r : sat (Edge_RetainDuringRecovery r) quiet;
  host_release r : sat (Edge_Release r) quiet;
  host_chain4 c : sat (nat4_ListChain c) quiet;
  host_rules4 c : sat (nat4_GetRules c) quiet;
  (** removing rules is a change of the nat table alone *)
  host_delrule n : sat (npt_DelRule n) tc_same;
  host_flush : sat npt_FlushRemovals tc_same;
}.

Section Props.
Context `{DT : !DistributionTypes} {W : Type} `{PT : !PrefixText} `{AT : !NetText}.
Context `{TK : !TcKernel W, TS : !TcState W, TB : !TcBehaves W, NC : !NatConn W, NR : !NatReader W, NK : !NatKernel W}.
Context `{KA : !KernelsApart W} `{N4 : !Nat4Reader W, AA : !NPTAddressAuthority W, NH : !NptHost W, HA : !HostApart W}.

#[export] Instance tc_same_preorder : PreOrder (@tc_same W _).
Proof.
  split.
  - intros w. split; done.
  - intros w1 w2 w3 [A1 B1] [A2 B2]. split; [intros k Hk; by rewrite A2, A1|intros i d Hd; by rewrite B2, B1].
Qed.

#[export] Instance nat_same_preorder : PreOrder (@nat_same W _ _ _).
Proof. split; [done|]. intros w1 w2 w3 H1 H2. unfold nat_same in *. congruence. Qed.

#[export] Instance quiet_preorder : PreOrder (@quiet W _ _ _ _).
Proof. split; [split; reflexivity|]. intros w1 w2 w3 [] []. split; by etransitivity. Qed.

Lemma sat_quiet {A} (m : M W A) : sat m tc_same -> sat m nat_same -> sat m quiet.
Proof. intros H1 H2 w. split; [apply H1|apply H2]. Qed.

(** Follow the text of a world program. *)
Ltac world_steps leaf :=
  repeat first
    [ apply (sat_bind _); [|intros ?]
    | apply (sat_ret _) | apply (sat_gets _)
    | apply (sat_foldM _); intros ? ?
    | match goal with |- sat (match ?x with _ => _ end) _ => destruct x end
    | progress leaf ].

Lemma set_translator_nat f : sat (set_translator f) nat_same.
Proof. intros w. apply (tc_nat_put (f (get_translator w)) w). Qed.

Ltac tc_leaf := first [apply tc_nat_info|apply tc_nat_map|apply tc_nat_lookup|apply tc_nat_update|apply tc_nat_delete|apply tc_nat_iterate|apply tc_nat_filters
  |apply tc_nat_replace|apply tc_nat_del|apply tc_nat_qdiscs|apply tc_nat_qdisc|apply tc_nat_link|apply tc_nat_links|apply tc_nat_mkdir|apply tc_nat_unpin|apply tc_nat_pin
  |apply tc_nat_close|apply set_translator_nat].

Lemma translator_keeps_nat policies : sat (Translator_Reconcile policies) nat_same.
Proof.
  unfold Translator_Reconcile, preparePolicies, prepare_policy, reconcile_interface, reconcileInterface, attach_direction, and_then, ensureClsact, verify_policy, installFilter,
    ReadNativeProgramID, readFilter, removeStalePolicies, remove_link, removeFilters, remove_direction, remove_filter, removeStaleMapEntries, remove_key, replacePins, pinObjects,
    closePrevious, remove_earlier, pin_target, removePins, remove_pin.
  world_steps tc_leaf.
Qed.

Lemma verify_unused_quiet indices a policies : sat (VerifyUnused indices a policies) quiet.
Proof.
  apply sat_quiet.
  - intros w. pose proof (verify_unused_observes indices a policies w) as [H _]. exact H.
  - unfold VerifyUnused, preparePolicies, prepare_policy, verify_index, verifyEdgePolicy, verifyEdgeAttachments, edge_direction, edge_filter, readFilter, verifySurvivingEdgeReferences,
      surviving_hook, surviving_filter, verifyAttachedEdgePolicy, policiesForProgram, match_program. world_steps tc_leaf.
Qed.

Ltac nat_leaf := first [apply nat_conn_tc|apply nat_tables_tc|apply nat_chains_tc|apply nat_flush_tc|apply nat_read_tc|apply nat_rules_tc].

Lemma apply_keeps_tc desired : sat (nat_Apply desired) tc_same.
Proof. unfold nat_Apply, ensureNATStructure. world_steps nat_leaf. Qed.

Lemma rules_read name : sat (GetRules name) quiet.
Proof. apply sat_quiet; [apply nat_rules_tc|]. intros w. apply (GetRules_reads name w). Qed.

Lemma conn_read : sat nat_readConn quiet.
Proof. apply sat_quiet; [apply nat_read_tc|]. intros w. apply readConn_keeps. Qed.

Ltac read_leaf := first [apply rules_read|apply conn_read|apply host_chain4|apply host_rules4].

Lemma render_quiet : sat nat_renderTable quiet.
Proof. unfold nat_renderTable. world_steps read_leaf. Qed.

Lemma unused_quiet iface a : sat (verifyNFTEdgeUnused iface a) quiet.
Proof. unfold verifyNFTEdgeUnused, edge_chain. world_steps read_leaf. Qed.

Lemma readiness4_quiet wan p : sat (IPv4TranslationReadiness wan p) quiet.
Proof. unfold IPv4TranslationReadiness, mappings_ready, last_check, readIPv4NATChain. world_steps read_leaf. Qed.

Lemma remove_dnat_tc iface local : sat (removeReverseDNATRules npt_DelRule npt_FlushRemovals iface local) tc_same.
Proof. unfold removeReverseDNATRules, remove_rule. world_steps ltac:(first [nat_leaf|apply host_delrule|apply host_flush]). Qed.

(** ** What may be logged *)

(** The map holds the value of these pairs for the interface, and the programs run on its hooks. *)
Definition serves (w : W) (i : Z) (internal : bool) (ps : list PrefixPair) : Prop :=
  exists encap v, policyValue (mkInterfacePolicy i internal ps) encap = Ok v /\ map_of w i = Some v /\ forall d, runs w i d.

(** The pair is served on the WAN's interface and, among others, on the internal one. *)
Definition translated (cfg : NptConfig) (wan : NptWAN) (p : PrefixPair) (w : W) : Prop :=
  serves w (link_index (nw_Iface wan)) false [p] /\ exists ps, p ∈ ps /\ serves w (link_index (nc_InternalIface cfg)) true ps.

Definition chains_hold (w : W) (d : desiredRules) : Prop := forall c, nat_contents w (chain_name c) = Some (nat_ruleExprs <$> chain_rules c d).

Definition publication_sound (cfg : NptConfig) (members : gmap string MemberTranslation) (pairs : gmap string PrefixPair) (w : W) : Prop :=
  forall wan m, wan ∈ nc_WANs cfg -> translates wan = true -> members !! nw_Key wan = Some m -> ft_Ready (tr_V6 m) = true ->
  exists p, pairs !! nw_Key wan = Some p /\ Internal p = InternalPrefix (tr_V6 m) /\ External p = ExternalPrefix (tr_V6 m) /\
    translated cfg wan p w /\ exists d, chains_hold w d.

Definition release_sound (record : NPTEdgeRecord) (policies : list InterfacePolicy) (w : W) : Prop :=
  let a := pfx_addr (er_Prefix record) in
  edge_unused policies a w /\
  forall post pre, nat_contents w postroutingChain = Some (nat_ruleExprs <$> post) -> nat_contents w preroutingChain = Some (nat_ruleExprs <$> pre) ->
    Forall wf_nat_rule post -> Forall wf_nat_rule pre -> Forall (fun rule => nr_Iface rule = er_Interface record -> uses rule a = false) (post ++ pre).

Definition event_sound (cfg : NptConfig) (e : nevent * W) : Prop :=
  match e.1 with
  | NPublish members pairs => publication_sound cfg members pairs e.2
  | NRelease record policies => release_sound record policies e.2
  | _ => True
  end.

Record step (s s' : nsys) : Prop := {
  step_cfg : nm_cfg (nmod s') = nm_cfg (nmod s);
  step_log e : e ∈ nlog s' -> e ∈ nlog s \/ event_sound (nm_cfg (nmod s)) e;
}.

Definition still (s s' : nsys) : Prop := step s s' /\ quiet (nworld s) (nworld s').

#[export] Instance step_preorder : PreOrder step.
Proof.
  split.
  - intros s. split; [done|by left].
  - intros s1 s2 s3 [C1 L1] [C2 L2]. split; [congruence|]. intros e [He|He]%L2; [by apply L1|right]. by rewrite C1 in He.
Qed.

#[export] Instance still_preorder : PreOrder still.
Proof. split; [split; reflexivity|]. intros s1 s2 s3 [] []. split; by etransitivity. Qed.

Lemma still_step {A} (m : M nsys A) : sat m still -> sat m step.
Proof. intros H s. apply (H s). Qed.

Lemma still_ask {A} (f : M W A) : sat f quiet -> sat (askN f) still.
Proof. intros H s. unfold askN. specialize (H (nworld s)). destruct (f (nworld s)) as [a w]. split; [split; [done|by left]|done]. Qed.

Lemma step_ask {A} (f : M W A) : sat (askN f) step.
Proof. intros s. unfold askN. destruct (f (nworld s)) as [a w]. split; [done|by left]. Qed.

Lemma still_set f : (forall m, nm_cfg (f m) = nm_cfg m) -> sat (setN f) still.
Proof. intros H s. split; [split; [apply H|by left]|reflexivity]. Qed.

Definition neutral (e : nevent) : Prop := forall cfg w, event_sound cfg (e, w).

Lemma still_emit e : neutral e -> sat (emitN e) still.
Proof. intros H s. split; [|reflexivity]. split; [done|]. cbn. intros x [Hx|Hx%list_elem_of_singleton]%elem_of_app; [by left|right]. subst x. apply H. Qed.

Lemma still_store {A} (f : M (ssys W) A) : (forall x, sworld (f x).2 = sworld x) -> sat (storeN f) still.
Proof.
  intros H s. unfold storeN. specialize (H (mkSsys (nstore s) (nworld s) [])). destruct (f _) as [a x]. cbn in *. split; [split; [done|by left]|]. rewrite H. reflexivity.
Qed.

Lemma still_get {A} (f : nptModule -> A) : sat (getN f) still.
Proof. apply (sat_gets _). Qed.

Ltac still_leaf := first
  [ apply still_get | apply still_set; intros; done | apply still_emit; intros ? ?; exact I
  | apply still_store; intros ?; reflexivity
  | apply still_ask; first [apply host_prefix|apply host_addrs|apply host_name|apply host_index|apply host_routes|apply host_applied|apply host_ready|apply host_lease|apply host_now|apply host_guard
      |apply host_unguard|apply host_alert|apply host_ensure|apply host_recorded|apply host_retain|apply host_release|apply conn_read|apply render_quiet|apply readiness4_quiet|apply (sat_gets _)] ].

Ltac stills :=
  repeat first
    [ apply (sat_bind _); [|intros ?]
    | apply (sat_ret _) | apply (sat_gets _) | apply (sat_whenM _)
    | apply (sat_foldM _); intros ? ?
    | match goal with |- sat (match ?x with _ => _ end) _ => destruct x end
    | progress still_leaf ].

Lemma request_still reason : sat (requestN reason) still.
Proof. unfold requestN. stills. Qed.

Lemma recorded_still : sat recordedN still.
Proof. unfold recordedN. stills. Qed.

Lemma mark_still desired wan cidr : sat (markDesiredEdges desired wan cidr) still.
Proof. unfold markDesiredEdges, recordedN, mark_edge, edgeLinkCurrent. stills. Qed.

Lemma recovering_still desired wan : sat (markRecoveringEdges desired wan) still.
Proof. unfold markRecoveringEdges, recordedN, mark_recovering. stills. Qed.

Lemma extra_still wan pd1 finalized : sat (extraGlobal128s wan pd1 finalized) still.
Proof. unfold extraGlobal128s, localAssignmentSet, classify_address, journaledEdge, recordedN. stills. Qed.

Lemma built_still wan finalized : sat (buildWANDesired wan finalized) still.
Proof.
  unfold buildWANDesired, external_prefix. destruct (nw_Translation wan) as [t|]; [|apply (sat_ret _)]. destruct (bool_decide _); [apply (sat_ret _)|].
  destruct (t6_NPT t) as [policy|]; [|apply (sat_ret _)]. apply (sat_bind _); [stills|]. intros [[external|]|e]; [|apply (sat_ret _)..].
  apply (sat_bind _); [apply extra_still|]. intros [[extra local]|e]; [|apply (sat_ret _)]. stills.
Qed.

Lemma retain_still wan a : sat (retainCurrentTranslation wan a) still.
Proof. unfold retainCurrentTranslation. apply (sat_bind _); [apply mark_still|]. intros edges. stills. Qed.

Lemma unapplied_still wan : sat (addressesNotApplied wan) still.
Proof. unfold addressesNotApplied. stills. Qed.

Lemma wan_still a wan : sat (reconcile_wan a wan) still.
Proof.
  unfold reconcile_wan. destruct (addMasqueradeRules wan a) as [[] a']; [apply (sat_ret _)|]. apply (sat_bind _); [apply unapplied_still|]. intros [].
  - apply (sat_bind _); [apply retain_still|]. intros. apply (sat_ret _).
  - apply (sat_bind _); [apply built_still|]. intros [[built|]|e]; [|destruct (expectsDelegation wan); [|apply (sat_ret _)]|apply (sat_ret _)].
    + unfold reconcile_built, ensureExternalAddress, actN. apply (sat_bind _); [stills|]. intros [[e []]|]; (apply (sat_bind _); [first [apply retain_still|apply mark_still]|intros; apply (sat_ret _)]).
    + apply (sat_bind _); [apply recovering_still|]. intros. apply (sat_ret _).
Qed.

Lemma begin_still pairs : sat (beginPolicyChange pairs) still.
Proof. unfold beginPolicyChange, BeginNPTChange. stills. Qed.

(** ** The policies of the pairs *)

Definition index_explained (cfg : NptConfig) (pairs : gmap string PrefixPair) (wans : list InterfacePolicy) (internal : list PrefixPair) (e : string * Z) : Prop :=
  exists wan p, wan ∈ nc_WANs cfg /\ e.1 = nw_Key wan /\ e.2 = link_index (nw_Iface wan) /\ pairs !! nw_Key wan = Some p /\ mkInterfacePolicy e.2 false [p] ∈ wans /\ p ∈ internal.

Lemma explained_grows cfg pairs wans internal i p e : index_explained cfg pairs wans internal e ->
  index_explained cfg pairs (wans ++ [i]) (internal ++ [p]) e.
Proof. intros (wan & q & ? & ? & ? & ? & ? & ?). exists wan, q. rewrite !elem_of_app. naive_solver. Qed.

Definition set_explained (cfg : NptConfig) (pairs : gmap string PrefixPair) (a : policy_set) : Prop :=
  Forall (index_explained cfg pairs (pl_wans a) (pl_internal a)) (pl_indices a).

Lemma route_still p i : sat (internalPrefixRouteReady p i) still.
Proof. unfold internalPrefixRouteReady. stills. Qed.

Lemma wan_policy_explained cfg pairs internal a wan s : wan ∈ nc_WANs cfg -> set_explained cfg pairs a ->
  wp (wan_policy_for pairs internal a wan) (fun a' s' => still s s' /\ set_explained cfg pairs a') s.
Proof.
  intros Hin Ha. unfold wan_policy_for. destruct (pairs !! nw_Key wan) as [p|] eqn:Ep; [|split; [reflexivity|done]].
  destruct (List.find _ _) as [[id previous]|]; [split; [reflexivity|done]|]. apply wp_bind. pose proof (route_still (Internal p) internal s) as S1. unfold wp at 1.
  destruct (internalPrefixRouteReady (Internal p) internal s) as [[e|] s1]; cbn [fst snd] in *; [split; done|].
  apply wp_bind. unfold wp at 1, askN. pose proof (host_name (nw_Iface wan) (nworld s1)) as Hq. pose proof (LinkByName_index (nw_Iface wan) (nworld s1)) as Hi.
  destruct (npt_LinkByName (nw_Iface wan) (nworld s1)) as [[index|e] w2]; cbn [fst snd] in *.
  all: assert (still s (mkNsys (nmod s1) (nstore s1) w2 (nlog s1))) as S2 by (etransitivity; [exact S1|split; [split; [done|by left]|exact Hq]]).
  all: split; [exact S2|].
  - unfold set_explained, policy_added. cbn. apply Forall_app. split; [eapply Forall_impl; [exact Ha|intros; by apply explained_grows]|]. apply Forall_singleton.
    exists wan, p. cbn. split_and!; try done; [by apply Hi|..]; apply elem_of_app; right; by left.
  - exact Ha.
Qed.

Record policies_explained (cfg : NptConfig) (pairs : gmap string PrefixPair) (p : interface_policies) : Prop := {
  pe_index key i : (key, i) ∈ ip_indices p -> ip_internal p = link_index (nc_InternalIface cfg) /\
    exists wan q ps, wan ∈ nc_WANs cfg /\ key = nw_Key wan /\ i = link_index (nw_Iface wan) /\ pairs !! key = Some q /\
      mkInterfacePolicy i false [q] ∈ ip_policies p /\ q ∈ ps /\ mkInterfacePolicy (ip_internal p) true ps ∈ ip_policies p;
}.

Lemma policies_outcome pairs s : wp (interfacePolicies pairs) (fun p s' => still s s' /\ policies_explained (nm_cfg (nmod s)) pairs p) s.
Proof.
  unfold interfacePolicies. case_bool_decide; [split; [reflexivity|]; constructor; cbn; intros key i H'; by apply elem_of_nil in H'|].
  apply wp_bind, wp_gets, wp_bind. unfold wp at 1, askN. pose proof (host_name (nc_InternalIface (nm_cfg (nmod s))) (nworld s)) as Hq.
  pose proof (LinkByName_index (nc_InternalIface (nm_cfg (nmod s))) (nworld s)) as Hi. destruct (npt_LinkByName _ _) as [[internal|e] w1]; cbn [fst snd] in *.
  2:{ split; [split; [split; [done|by left]|exact Hq]|]. constructor. intros key i H'. by apply elem_of_nil in H'. }
  specialize (Hi _ eq_refl). set (s1 := mkNsys (nmod s) (nstore s) w1 (nlog s)). assert (still s s1) as S1 by (split; [split; [done|by left]|exact Hq]).
  apply wp_bind. eapply wp_mono.
  { apply (wp_foldM _ (fun _ a s' => still s s' /\ set_explained (nm_cfg (nmod s)) pairs a)); [split; [exact S1|constructor]|].
    intros dn wan todo a s2 Hxs [S2 Ha]. eapply wp_mono; [apply (wan_policy_explained (nm_cfg (nmod s)))|].
    - rewrite Hxs. apply elem_of_app. right. by left.
    - exact Ha.
    - intros a' s3 [S3 Ha']. split; [by etransitivity|done]. }
  intros a s2 [S2 Ha]. apply wp_ret. split; [done|]. constructor. intros key i Hin. cbn in *. split; [done|]. unfold set_explained in Ha. rewrite Forall_forall in Ha.
  destruct (Ha _ Hin) as (wan & q & Hw & Hk & Hl & Hp & Hpol & Hint). cbn in *. exists wan, q, (pl_internal a). subst key.
  destruct (pl_internal a) eqn:E; [by apply elem_of_nil in Hint|]. cbn. rewrite !elem_of_app. split_and!; try done; [by left|right; by left].
Qed.

(** ** The translator's report *)

Lemma attachments_ready states i : attachmentsReady states i = true -> both_ready i states.
Proof.
  unfold attachmentsReady. rewrite !andb_true_iff. intros [[_ Hi] He] d. assert (existsb (fun st => (as_IfIndex st =? i) && as_Ready st && bool_decide (as_Direction st = d)) states = true) as H by by destruct d.
  apply existsb_exists in H as (st & Hst & Hb). rewrite !andb_true_iff, bool_decide_eq_true in Hb. exists st. rewrite list_elem_of_In. split_and!; try tauto; [lia|tauto..].
Qed.

Lemma distinct_policy (policies : list InterfacePolicy) x y : NoDup (ip_IfIndex <$> policies) -> x ∈ policies -> y ∈ policies -> ip_IfIndex x = ip_IfIndex y -> x = y.
Proof.
  intros Hd Hx Hy Hi. apply list_elem_of_lookup in Hx as [n Hx], Hy as [m Hy].
  assert (n = m) as ->; [|congruence]. eapply NoDup_lookup; [exact Hd|..]; rewrite list_lookup_fmap, ?Hx, ?Hy; cbn; by rewrite ?Hi.
Qed.

(** A policy whose interface is ready is served. *)
Lemma both_serves policies w states errs w' i internal ps : pass_outcome policies w states errs w' -> mkInterfacePolicy i internal ps ∈ policies ->
  both_ready i states -> serves w' i internal ps.
Proof.
  intros Ho Hin Hd. destruct (Hd Ingress) as (st & Hst & Hi & _ & Hready).
  assert (NoDup (ip_IfIndex <$> policies)) as Hn by (apply (po_distinct _ _ _ _ _ Ho); intros ->; by apply elem_of_nil in Hst).
  destruct (po_ready _ _ _ _ _ Ho st Hst Hready) as (v & (policy & encap & Hp & Hpi & Hv) & Hm & _). rewrite Hi in Hm, Hpi.
  assert (policy = mkInterfacePolicy i internal ps) as -> by (eapply distinct_policy; done). exists encap, v. split_and!; [done..|].
  intros d. destruct (Hd d) as (st' & Hst' & Hi' & Hd' & Hready'). destruct (po_ready _ _ _ _ _ Ho st' Hst' Hready') as (_ & _ & _ & R). by rewrite Hi', Hd' in R.
Qed.

Lemma ready_lookup {A} (l : list (string * A)) (f : string * A -> bool) (m : gmap string bool) key b : fold_left (fun m e => <[e.1 := f e]> m) l m !! key = Some b ->
  m !! key = Some b \/ exists e, e ∈ l /\ e.1 = key /\ b = f e.
Proof.
  revert m. induction l as [|e l IH]; intros m; cbn; [by left|]. intros [H|(e' & He & Hk & Hb)]%IH.
  - destruct (decide (e.1 = key)) as [<-|Hne]; [rewrite lookup_insert_eq in H; injection H as <-; right; exists e; split_and!; [by left|done..]|].
    rewrite lookup_insert_ne in H by done. by left.
  - right. exists e'. split; [by right|done].
Qed.

(** What holds of the world when a connection is called ready. *)
Definition bpf_sound (cfg : NptConfig) (pairs : gmap string PrefixPair) (ready : gmap string bool) (w : W) : Prop :=
  forall key, ready !! key = Some true -> exists wan p, wan ∈ nc_WANs cfg /\ key = nw_Key wan /\ pairs !! key = Some p /\ translated cfg wan p w.

Lemma serves_same w w' i b ps : tc_same w w' -> serves w i b ps -> serves w' i b ps.
Proof.
  intros [A B] (encap & v & Hv & Hm & Hr). exists encap, v. split_and!; [done|by rewrite A|]. intros d. by eapply frame_runs; [split; [exact A|exact B]| |].
Qed.

Lemma translated_quiet cfg wan p w w' : quiet w w' -> translated cfg wan p w -> translated cfg wan p w'.
Proof. intros Hq [H1 (ps & Hp & H2)]. destruct Hq as [Hq _]. split; [by eapply serves_same|]. exists ps. split; [done|by eapply serves_same]. Qed.

Lemma bpf_sound_quiet cfg pairs ready w w' : quiet w w' -> bpf_sound cfg pairs ready w -> bpf_sound cfg pairs ready w'.
Proof. intros Hq H key (wan & p & ? & ? & ? & Ht)%H. exists wan, p. split_and!; try done. by eapply translated_quiet. Qed.

Lemma translate_outcome policies s : wp (translateN policies) (fun r s' => step s s' /\ nat_same (nworld s) (nworld s') /\ pass_outcome policies (nworld s) r.1 r.2 (nworld s')) s.
Proof.
  unfold translateN, actN. apply wp_bind. unfold wp at 1, askN. pose proof (translator_keeps_nat policies (nworld s)) as Hn. pose proof (translator_pass policies (nworld s)) as Ho.
  destruct (Translator_Reconcile policies (nworld s)) as [[states errs] w1]. cbn [fst snd] in *. apply wp_bind, wp_modify, wp_ret. cbn. split_and!; [|done|by apply Ho].
  split; [done|]. cbn. intros e [He|He%list_elem_of_singleton]%elem_of_app; [by left|right]. by subst e.
Qed.

Lemma translator_outcome pairs s :
  wp (reconcileTranslator pairs) (fun r s' => step s s' /\ nat_same (nworld s) (nworld s') /\ bpf_sound (nm_cfg (nmod s)) pairs r.1.1.1 (nworld s')) s.
Proof.
  unfold reconcileTranslator. apply wp_bind, wp_gets. destruct (negb _); [apply wp_ret; split_and!; [reflexivity..|intros key Hk; cbn [fst] in Hk; by rewrite lookup_empty in Hk]|].
  apply wp_bind. eapply wp_mono; [apply policies_outcome|]. intros p s1 [[S1 [Q1 N1]] Hp]. apply wp_bind. eapply wp_mono; [apply translate_outcome|].
  intros [states errs] s2 (S2 & N2 & Ho). cbn [fst snd] in *. apply wp_bind. set (body := whenM _ _).
  assert (sat body still) as Hb by (apply (sat_whenM _), still_set; intros; done). pose proof (Hb s2) as [S3 [Q3 N3]]. unfold wp at 1. destruct (body s2) as [u s3]. cbn [fst snd] in *.
  apply wp_ret. cbn [fst snd]. split_and!; [by do 2 (etransitivity; [done|])|by do 2 (etransitivity; [done|])|].
  intros key [Hk|([key' i] & He & Hk & Hready)]%(ready_lookup (ip_indices p)); [by rewrite lookup_empty in Hk|]. cbn in Hk, Hready. subst key'.
  symmetry in Hready. apply andb_true_iff in Hready as [Hri Hrw]. destruct (pe_index _ _ _ Hp key i He) as (Hint & wan & q & ps & Hw & Hkey & Hi & Hq & Hpol & Hqs & Hpi).
  exists wan, q. split_and!; [done..|]. eapply translated_quiet; [split; [exact Q3|exact N3]|]. split; [rewrite <- Hi; eapply both_serves; [done..|by apply attachments_ready]|].
  exists ps. split; [done|]. rewrite <- Hint. eapply both_serves; [done..|by apply attachments_ready].
Qed.

(** ** Releasing *)

Lemma release_outcome desired policies acc record s :
  wp (release_edge desired policies acc record) (fun acc' s' => still s s' /\ forall key, acc'.1 !! key = Some true -> acc.1 !! key = Some true) s.
Proof.
  assert (forall e key, (unready_edge record e acc).1 !! key = Some true -> acc.1 !! key = Some true) as Hmono.
  { intros e key. cbn. destruct (decide (er_ConnectionID record = key)) as [<-|Hne]; [by rewrite lookup_insert_eq|by rewrite lookup_insert_ne]. }
  unfold release_edge. case_bool_decide; [split; [reflexivity|done]|]. set (a := pfx_addr (er_Prefix record)).
  apply wp_bind. unfold wp at 1, askN. pose proof (unused_quiet (er_Interface record) a (nworld s)) as Q1. pose proof (released_edge_unused (W := W)) as Hnat.
  destruct (verifyNFTEdgeUnused (er_Interface record) a (nworld s)) as [used w1] eqn:E1. cbn [fst snd] in *. set (s1 := mkNsys (nmod s) (nstore s) w1 (nlog s)).
  assert (still s s1) as S1 by (split; [split; [done|by left]|exact Q1]). destruct used as [e|]; [split; [exact S1|apply Hmono]|].
  apply wp_bind, wp_gets, wp_bind. unfold wp at 1, askN. pose proof (host_name (nc_InternalIface (nm_cfg (nmod s1))) (nworld s1)) as Q2.
  destruct (npt_LinkByName _ (nworld s1)) as [internal w2]. cbn [fst snd] in *. set (s2 := mkNsys (nmod s1) (nstore s1) w2 (nlog s1)).
  assert (still s s2) as S2 by (etransitivity; [exact S1|split; [split; [done|by left]|exact Q2]]). destruct internal as [internal|e]; [|split; [exact S2|apply Hmono]].
  apply wp_bind, wp_gets. destruct (negb _); [split; [exact S2|apply Hmono]|]. apply wp_bind. unfold wp at 1, askN.
  pose proof (verify_unused_quiet [er_InterfaceIndex record; internal] a policies (nworld s2)) as Q3. pose proof (verify_unused [er_InterfaceIndex record; internal] a policies (nworld s2)) as Hv.
  destruct (VerifyUnused _ a policies (nworld s2)) as [used w3]. cbn [fst snd] in *. set (s3 := mkNsys (nmod s2) (nstore s2) w3 (nlog s2)).
  assert (still s s3) as S3 by (etransitivity; [exact S2|split; [split; [done|by left]|exact Q3]]). destruct used as [e|]; [split; [exact S3|apply Hmono]|].
  destruct (Hv _ eq_refl) as [_ Hu]. apply wp_bind, wp_modify. set (s4 := mkNsys (nmod s3) (nstore s3) (nworld s3) (nlog s3 ++ [(NRelease record policies, nworld s3)])).
  assert (still s s4) as S4.
  { etransitivity; [exact S3|]. split; [|split; reflexivity]. split; [done|]. cbn. intros x [Hx|Hx%list_elem_of_singleton]%elem_of_app; [by left|right]. subst x. split; [exact Hu|].
    intros post pre Hpost Hpre Hw1 Hw2. destruct S3 as [_ [_ N3]]. unfold nat_same in N3. cbn in N3. cbn [fst snd] in *. rewrite N3 in Hpost, Hpre. by eapply Hnat. }
  apply wp_bind. unfold wp at 1, askN. pose proof (host_release record (nworld s4)) as Q5. destruct (Edge_Release record (nworld s4)) as [failed w5]. cbn [fst snd] in *.
  set (s5 := mkNsys (nmod s4) (nstore s4) w5 (nlog s4)). assert (still s s5) as S5 by (etransitivity; [exact S4|split; [split; [done|by left]|exact Q5]]).
  destruct failed as [e|]; [split; [exact S5|apply Hmono]|]. apply wp_bind. unfold wp at 1. pose proof (request_still "NPT edge journal cleanup completed" s5) as S6.
  destruct (requestN _ s5) as [u s6]. split; [by etransitivity|done].
Qed.

Lemma release_all desired ready policies s :
  wp (releaseObsoleteEdges desired ready policies) (fun r s' => still s s' /\ forall key, r.1 !! key = Some true -> ready !! key = Some true) s.
Proof.
  unfold releaseObsoleteEdges. apply wp_bind. unfold wp at 1. pose proof (recorded_still s) as S1. destruct (recordedN s) as [records s1]. cbn [fst snd] in *.
  eapply wp_mono; [apply (wp_foldM _ (fun _ acc s' => still s s' /\ forall key, acc.1 !! key = Some true -> ready !! key = Some true))|by intros].
  - split; [exact S1|done].
  - intros dn record todo acc s2 _ [S2 Hr]. eapply wp_mono; [apply release_outcome|]. intros acc' s3 [S3 Hr']. split; [by etransitivity|auto].
Qed.

(** ** Publishing *)

(** What the members and pairs collected so far say. *)
Definition collected (a : pass) (o : outcome) (dn : list NptWAN) (acc : gmap string MemberTranslation * gmap string PrefixPair) : Prop :=
  forall wan m, wan ∈ dn -> translates wan = true -> acc.1 !! nw_Key wan = Some m -> ft_Ready (tr_V6 m) = true ->
  oc_applied o = true /\ oc_bpfReady o !! nw_Key wan = Some true /\
  forall p, ps_pairs a !! nw_Key wan = Some p -> acc.2 !! nw_Key wan = Some p /\ Internal p = InternalPrefix (tr_V6 m) /\ External p = ExternalPrefix (tr_V6 m).

Lemma family_ready_still wan family : sat (family_ready wan family) still.
Proof. unfold family_ready. stills. Qed.

Lemma ipv4_still wan v4 : sat (ipv4_member wan v4) still.
Proof.
  unfold ipv4_member. destruct (nw_TranslationV4 wan); [|apply (sat_ret _)]. apply (sat_bind _); [stills|]. intros. apply (sat_bind _); [apply family_ready_still|]. intros. apply (sat_ret _).
Qed.

Lemma masquerade_still wan state rendered verified : sat (updateMasqueradeReadiness wan state rendered verified) still.
Proof. unfold updateMasqueradeReadiness. destruct (negb _); [apply (sat_ret _)|]. apply (sat_bind _); [apply family_ready_still|]. intros. apply (sat_ret _). Qed.

(** The line of a WAN that translates is ready only when its rules and its programs are. *)
Lemma ready_line wan external kernelReady bpfReady nativeReady : translates wan = true ->
  ft_Ready (ipv6TranslationReadiness wan external kernelReady bpfReady nativeReady) = true -> kernelReady = true /\ bpfReady = true.
Proof.
  unfold translates, ipv6TranslationReadiness. destruct (nw_Translation wan) as [t|]; [|done]. intros Hm%bool_decide_eq_true. rewrite bool_decide_false by (rewrite Hm; done).
  destruct (t6_NPT t); [|done]. by intros [? ?]%andb_true_iff.
Qed.

Lemma translates_not_masquerade wan : translates wan = true -> isMasquerade wan = false.
Proof. unfold translates, isMasquerade. destruct (nw_Translation wan) as [t|]; [|done]. intros Hm%bool_decide_eq_true. rewrite bool_decide_false; [done|]. by rewrite Hm. Qed.

Lemma collected_one a o v4 v6 wan dn acc : nw_Key wan ∉ nw_Key <$> dn -> collected a o dn acc ->
  (translates wan = true -> ft_Ready v6 = true -> oc_applied o = true /\ oc_bpfReady o !! nw_Key wan = Some true) ->
  collected a o (dn ++ [wan])
    (match ps_pairs a !! nw_Key wan with
     | Some pr =>
         if ft_Ready v6
         then if bool_decide (Internal pr = InternalPrefix v6) && bool_decide (External pr = ExternalPrefix v6)
              then (<[nw_Key wan := mkMemberTranslation v4 v6]> acc.1, <[nw_Key wan := pr]> acc.2)
              else (<[nw_Key wan := mkMemberTranslation v4 (not_ready "NPT prefixes differ from the verified policy" v6)]> acc.1, acc.2)
         else (<[nw_Key wan := mkMemberTranslation v4 v6]> acc.1, acc.2)
     | None => (<[nw_Key wan := mkMemberTranslation v4 v6]> acc.1, acc.2)
     end).
Proof.
  intros Hn Hc Hv6 wan' m [Hin|Hin%list_elem_of_singleton]%elem_of_app Ht Hm Hr.
  - assert (nw_Key wan <> nw_Key wan') as Hne by (intros E; apply Hn; rewrite E; apply list_elem_of_fmap; by exists wan').
    assert (acc.1 !! nw_Key wan' = Some m) as Hm'.
    { destruct (ps_pairs a !! nw_Key wan); [destruct (ft_Ready v6); [destruct (_ && _)|]|]; cbn in Hm; by rewrite lookup_insert_ne in Hm. }
    destruct (Hc wan' m Hin Ht Hm' Hr) as (H1 & H2 & H3). split_and!; [done..|]. intros p (Hp & Hi & He)%H3. split_and!; [|done..].
    destruct (ps_pairs a !! nw_Key wan); [destruct (ft_Ready v6); [destruct (_ && _)|]|]; cbn; by rewrite ?lookup_insert_ne.
  - subst wan'. destruct (ps_pairs a !! nw_Key wan) as [pr|] eqn:Ep.
    + destruct (ft_Ready v6) eqn:E6; [|cbn in Hm; rewrite lookup_insert_eq in Hm; injection Hm as <-; cbn in Hr; congruence].
      destruct (_ && _) eqn:Eb; cbn in Hm; rewrite lookup_insert_eq in Hm; injection Hm as <-; [|done]. destruct (Hv6 Ht eq_refl) as [H1 H2]. split_and!; [done..|].
      intros p [= <-]. apply andb_true_iff in Eb as [Ei Ee]. bool_prop. cbn. rewrite lookup_insert_eq. by split_and!.
    + cbn in Hm. rewrite lookup_insert_eq in Hm. injection Hm as <-. destruct (Hv6 Ht Hr). by split_and!.
Qed.

Lemma publish_wan_outcome a o internalV4 rendered dn acc wan s : nw_Key wan ∉ nw_Key <$> dn -> collected a o dn acc ->
  wp (publish_wan a o internalV4 rendered acc wan) (fun acc' s' => still s s' /\ collected a o (dn ++ [wan]) acc') s.
Proof.
  intros Hn Hc. unfold publish_wan. apply wp_bind. unfold wp at 1. pose proof (ipv4_still wan internalV4 s) as S1. destruct (ipv4_member wan internalV4 s) as [v4 s1]. cbn [fst snd] in *.
  set (v6 := ipv6TranslationReadiness _ _ _ _ _). apply wp_bind. unfold wp at 1. set (upd := updateMasqueradeReadiness _ _ _ _).
  pose proof (masquerade_still wan v6 _ _ s1 : still s1 (upd s1).2) as S2. assert (translates wan = true -> (upd s1).1 = v6) as Hv.
  { intros Ht. unfold upd, updateMasqueradeReadiness. by rewrite (translates_not_masquerade wan Ht). }
  destruct (upd s1) as [v6' s2]. cbn [fst snd] in *. apply wp_ret. split; [by etransitivity|]. apply collected_one; [done..|].
  intros Ht Hr. rewrite (Hv Ht) in Hr. apply ready_line in Hr as [Hk Hb]; [|done]. apply andb_true_iff in Hk as [Hk _]. split; [done|].
  destruct (oc_bpfReady o !! nw_Key wan) as [b|]; [|done]. cbn in Hb. by subst b.
Qed.

Lemma set_world members pairs (x : ssys W) : sworld (SetNPTTranslation members pairs x).2 = sworld x.
Proof.
  unfold SetNPTTranslation, mbind, M_bind, getStore, gets. set (b := negb (bool_decide (changedNPTPolicies _ _ = []))). by destruct b.
Qed.

Lemma publish_log members pairs reason s : publication_sound (nm_cfg (nmod s)) members pairs (nworld s) -> wp (publish members pairs reason) (fun _ s' => still s s') s.
Proof.
  intros Hp. unfold publish. apply wp_bind. unfold wp at 1. assert (sat (storeN (SetNPTTranslation members pairs)) still) as Hs.
  { apply still_store. intros x. apply set_world. }
  assert ((nworld (storeN (SetNPTTranslation members pairs) s).2 = nworld s) /\ nmod (storeN (SetNPTTranslation members pairs) s).2 = nmod s) as [Hw Hm].
  { unfold storeN. pose proof (set_world members pairs (mkSsys (nstore s) (nworld s) [])) as E. by destruct (SetNPTTranslation _ _ _) as [changed x]. }
  specialize (Hs s). destruct (storeN _ s) as [changed s1]. cbn [fst snd] in *. apply wp_bind, wp_modify.
  set (s2 := mkNsys (nmod s1) (nstore s1) (nworld s1) (nlog s1 ++ [(NPublish members pairs, nworld s1)])). assert (still s s2) as S2.
  { etransitivity; [exact Hs|]. split; [|split; reflexivity]. split; [done|]. cbn. intros x [Hx|Hx%list_elem_of_singleton]%elem_of_app; [by left|right]. subst x. cbn. by rewrite Hw, Hm. }
  assert (sat (whenM changed (requestN reason)) still) as H3 by (apply (sat_whenM _), request_still). specialize (H3 s2). unfold wp. by etransitivity.
Qed.

Lemma chains_quiet w w' d : nat_same w w' -> chains_hold w d -> chains_hold w' d.
Proof. intros Hn H c. unfold nat_same in Hn. rewrite Hn. apply H. Qed.

Lemma publish_outcome a o s : NoDup (nw_Key <$> nc_WANs (nm_cfg (nmod s))) -> (oc_applied o = true -> chains_hold (nworld s) (ps_desired a)) ->
  bpf_sound (nm_cfg (nmod s)) (ps_pairs a) (oc_bpfReady o) (nworld s) -> wp (npt_publishLiveState a o) (fun _ s' => still s s') s.
Proof.
  intros Hd Happ Hbpf. unfold npt_publishLiveState. apply wp_bind, wp_gets. destruct (negb _); [apply wp_ret; reflexivity|].
  apply wp_bind. assert (sat (storeN (SetIntendedRuleset (renderIntended (ps_desired a)))) still) as H1 by (apply still_store; intros; done).
  specialize (H1 s). unfold wp at 1. destruct (storeN _ s) as [u s1]. cbn [fst snd] in *. apply wp_bind. unfold wp at 1, askN. pose proof (render_quiet (nworld s1)) as Q2.
  destruct (nat_renderTable (nworld s1)) as [rendered w2]. cbn [fst snd] in *. set (s2 := mkNsys (nmod s1) (nstore s1) w2 (nlog s1)).
  assert (still s s2) as S2 by (etransitivity; [exact H1|split; [split; [done|by left]|exact Q2]]). clearbody s2. apply wp_bind, wp_gets, wp_bind. cbv beta.
  assert (nm_cfg (nmod s2) = nm_cfg (nmod s)) as Hcfg by apply S2. rewrite Hcfg.
  eapply wp_mono; [apply (wp_foldM _ (fun dn acc s' => still s s' /\ collected a o dn acc))|].
  - split; [exact S2|]. intros wan m Hin. by apply elem_of_nil in Hin.
  - intros dn wan todo acc s3 Hxs [S3 Hc]. eapply wp_mono; [apply publish_wan_outcome; [|exact Hc]|].
    + rewrite Hxs, fmap_app in Hd. apply NoDup_app in Hd as (_ & Hd & _). intros Hin. apply (Hd _ Hin). cbn. by left.
    + intros acc' s4 [S4 Hc']. split; [by etransitivity|done].
  - intros [members pairs] s3 [S3 Hc]. eapply wp_mono; [apply publish_log|intros u4 s4 S4; by etransitivity].
    assert (nm_cfg (nmod s3) = nm_cfg (nmod s)) as Hcfg3 by apply S3. rewrite Hcfg3. destruct S3 as [_ Q3]. intros wan m Hin Ht Hm Hr.
    destruct (Hc wan m Hin Ht Hm Hr) as (Ha & Hb & Hp). destruct (Hbpf _ Hb) as (wan' & p & Hin' & Hk & Hpair & Htr). destruct (Hp p Hpair) as (Hpp & Hi & He).
    assert (wan' = wan) as ->.
    { apply list_elem_of_lookup in Hin as [n Hn'], Hin' as [k Hk']. assert (n = k) as ->; [|congruence].
      eapply NoDup_lookup; [exact Hd|..]; rewrite list_lookup_fmap, ?Hn', ?Hk'; cbn; by rewrite ?Hk. }
    exists p. split_and!; [done..|by eapply translated_quiet|]. exists (ps_desired a). eapply chains_quiet; [apply Q3|by apply Happ].
Qed.

(** ** The pass *)

Lemma guarded_outcome a s : NoDup (nw_Key <$> nc_WANs (nm_cfg (nmod s))) -> wp (reconcile_guarded a) (fun _ s' => step s s') s.
Proof.
  intros Hd. unfold reconcile_guarded, actN. apply wp_bind, wp_bind. unfold wp at 1, askN. pose proof (apply_outcome (ps_desired a) (nworld s)) as Ho. 
  destruct (nat_Apply (ps_desired a) (nworld s)) as [[applyErr batch] w1]. cbn [fst snd] in *. apply wp_bind, wp_modify, wp_ret. cbn [fst snd].
  set (s1 := mkNsys (nmod s) (nstore s) w1 (nlog s ++ [(NApply (ps_desired a) applyErr, w1)])). assert (step s s1) as S1.
  { split; [done|]. cbn. intros x [Hx|Hx%list_elem_of_singleton]%elem_of_app; [by left|right]. by subst x. }
  match goal with |- wp ?m ?Q _ => change (wp m Q s1) end. assert (match applyErr with None => chains_hold (nworld s1) (ps_desired a) | Some _ => True end) as Ho1 by by destruct applyErr.
  clearbody s1. apply wp_bind. set (body := whenM _ _). assert (sat body still) as Hb by (apply (sat_whenM _), still_set; intros; done). specialize (Hb s1). unfold wp at 1.
  destruct (body s1) as [u s2]. cbn [fst snd] in *. destruct Hb as [S2 [_ N2]]. apply wp_bind. eapply wp_mono; [apply translator_outcome|].
  intros [[[ready nativeReady] policies] policyErrs] s3 (S3 & N3 & Hbpf). cbn [fst snd] in *. apply wp_bind. eapply wp_mono; [apply release_all|].
  intros [ready' releaseErrs] s4 [[S4 Q4] Hr]. cbn [fst snd] in *. assert (step s s4) as S by (transitivity s1; [exact S1|]; transitivity s2; [exact S2|]; transitivity s3; [exact S3|exact S4]). apply wp_bind.
  assert (nm_cfg (nmod s4) = nm_cfg (nmod s)) as Hcfg by apply S. assert (nm_cfg (nmod s2) = nm_cfg (nmod s)) as Hcfg2 by (etransitivity; [apply S2|apply S1]).
  eapply wp_mono; [apply publish_outcome|intros u5 s5 [S5 _]; apply wp_ret; by etransitivity].
  - by rewrite Hcfg.
  - cbn. destruct applyErr as [e|]; [done|]. intros _. eapply chains_quiet; [|exact Ho1]. etransitivity; [exact N2|]. etransitivity; [exact N3|apply Q4].
  - cbn. rewrite Hcfg, <- Hcfg2. eapply bpf_sound_quiet; [exact Q4|]. intros key Hk. by apply Hbpf, Hr.
Qed.

Lemma finish_published fence : sat (finishPolicyChange fence true) still.
Proof. unfold finishPolicyChange. cbn [negb]. destruct fence; [|apply (sat_ret _)]. apply (sat_bind _); [apply (sat_ret _)|]. intros. stills. Qed.

Lemma reconcile_step s : NoDup (nw_Key <$> nc_WANs (nm_cfg (nmod s))) -> wp npt_Reconcile (fun _ s' => step s s') s.
Proof.
  intros Hd. unfold npt_Reconcile. apply wp_bind. unfold wp at 1. assert (sat checkUnappliedWANs still) as H1.
  { unfold checkUnappliedWANs. apply (sat_bind _); [apply still_get|]. intros ws. apply (sat_foldM _). intros failed wan. unfold check_unapplied. destruct failed; [apply (sat_ret _)|].
    apply (sat_bind _); [apply unapplied_still|]. intros. stills. }
  specialize (H1 s) as [S1 _]. destruct (checkUnappliedWANs s) as [[e|] s1]; cbn [fst snd] in *; [done|].
  apply wp_bind, wp_gets, wp_bind. unfold wp at 1. pose proof (sat_foldM _ reconcile_wan no_pass (nc_WANs (nm_cfg (nmod s1))) ltac:(intros; apply wan_still) s1) as [S2 _].
  destruct (foldM reconcile_wan no_pass _ s1) as [a s2]. cbn [fst snd] in *. apply wp_bind. unfold wp at 1. pose proof (still_set (set_missing (ps_missing a)) ltac:(done) s2) as [S3 _].
  destruct (setN _ s2) as [u s3]. cbn [fst snd] in *. apply wp_bind. unfold wp at 1. pose proof (begin_still (ps_pairs a) s3) as [S4 _]. destruct (beginPolicyChange (ps_pairs a) s3) as [fence s4].
  cbn [fst snd] in *. assert (step s s4) as S by (transitivity s1; [exact S1|]; transitivity s2; [exact S2|]; transitivity s3; [exact S3|exact S4]). destruct fence as [fence|e]; [|done]. apply wp_bind. eapply wp_mono; [apply guarded_outcome|].
  - by rewrite (step_cfg _ _ S).
  - intros errs s5 S5. apply wp_bind. unfold wp at 1. pose proof (finish_published fence s5) as [S6 _]. destruct (finishPolicyChange fence true s5) as [u6 s6]. cbn [fst snd] in *. 
    unfold wp. cbn. transitivity s4; [exact S|]. transitivity s5; [exact S5|exact S6].
Qed.
End Props.
