(* ===== verification/NptClaims.v ===== *)
(** * What the NPT module guarantees

    Whatever the outside answers: a line published as translating is translating, an edge address
    leaves its interface only when nothing uses it, and a local address is spared by the packet
    program before it is installed, unless some line masquerades. *)

From S2P Require Import Prelude GoStrings Effects NptPolicy Intent BgpFib NetWire NetProvider Health Observation WanState Firewall Nftables NatRules NatExec NatApply NatReadiness.
From S2P Require Import BpfProgram BpfTranslator BpfTranslatorProps BpfEdge NptModule NptModuleProps.

Local Open Scope Z_scope.

Section Claims.
Context `{DT : !DistributionTypes} {W : Type} `{PT : !PrefixText} `{AT : !NetText}.
Context `{TK : !TcKernel W, TS : !TcState W, TB : !TcBehaves W, NC : !NatConn W, NR : !NatReader W, NK : !NatKernel W}.
Context `{KA : !KernelsApart W} `{N4 : !Nat4Reader W, AA : !NPTAddressAuthority W, NH : !NptHost W, HA : !HostApart W}.

Abbreviation wan_keys s := (nw_Key <$> nc_WANs (nm_cfg (nmod s))).



(** ** Local addresses *)

(** The steps of the preparation up to the translator do not touch the programs, and the rest neither. *)
Definition tc_still (s s' : nsys) : Prop := nm_cfg (nmod s') = nm_cfg (nmod s) /\ tc_same (nworld s) (nworld s').

#[local] Instance tc_still_preorder : PreOrder tc_still.
Proof.
  split; [intros s; split; [done|split; done]|]. intros s1 s2 s3 [C1 [A1 B1]] [C2 [A2 B2]]. split; [congruence|].
  split; [intros k Hk; by rewrite A2, A1|intros i d Hd; by rewrite B2, B1].
Qed.

Lemma still_tc {A} (m : M nsys A) : sat m still -> sat m tc_still.
Proof. intros H s. destruct (H s) as [[] []]. by split. Qed.

Lemma pending_spared pr local pr' : addPendingExceptions pr local = Ok pr' ->
  External pr' = External pr /\ (forall a, a ∈ DestinationExceptions pr -> a ∈ DestinationExceptions pr') /\
  forall a, a ∈ local -> Contains (External pr) a = true -> a ∈ DestinationExceptions pr'.
Proof.
  unfold addPendingExceptions. revert pr. induction local as [|a local IH]; intros pr; cbn [fold_left].
  { intros [= <-]. split_and!; [done..|]. intros a Ha. by apply elem_of_nil in Ha. }
  assert (forall e, fold_left add_pending local (Err e) = Err e) as Herr by (clear; induction local; done).
  unfold add_pending at 2. destruct (_ || _ || _); [by rewrite Herr|]. case_bool_decide; [by rewrite Herr|]. intros (E & Hk & Hs)%IH.
  destruct (Contains (External pr) a && negb (bool_decide (a ∈ DestinationExceptions pr))) eqn:Eb; cbn [External DestinationExceptions] in *.
  - split_and!; [done|intros b Hb; apply Hk, elem_of_app; by left|]. intros b [->|Hb]%elem_of_cons Hc; [apply Hk, elem_of_app; right; by left|by apply Hs].
  - split_and!; [done..|]. intros b [->|Hb]%elem_of_cons Hc; [|by apply Hs]. rewrite Hc in Eb. cbn in Eb. apply negb_false_iff, bool_decide_eq_true in Eb. by apply Hk.
Qed.

(** The pairs the preparation collects for the interface spare the addresses. *)
Definition prepared_spare (iface : string) (local : list Addr) (dn : list NptWAN) (acc : res (gmap string PrefixPair)) : Prop :=
  match acc with
  | Err _ => True
  | Ok pairs => forall wan, wan ∈ dn -> nw_Iface wan = iface -> exists p, pairs !! nw_Key wan = Some p /\ forall a, a ∈ local -> Contains (External p) a = true -> a ∈ DestinationExceptions p
  end.

Lemma preparation_step iface local dn acc wan s : nw_Key wan ∉ nw_Key <$> dn -> prepared_spare iface local dn acc ->
  wp (preparation_pair iface local acc wan) (fun acc' s' => still s s' /\ prepared_spare iface local (dn ++ [wan]) acc') s.
Proof.
  intros Hn Hp. unfold preparation_pair. destruct acc as [pairs|e]; [|split; [reflexivity|done]]. apply wp_bind. unfold wp at 1.
  pose proof (built_still wan false s) as S1. destruct (buildWANDesired wan false s) as [built s1]. cbn [fst snd] in *. apply wp_bind, wp_gets, wp_ret. split; [done|].
  assert (forall pairs', (forall key, key <> nw_Key wan -> pairs' !! key = pairs !! key) ->
    (nw_Iface wan = iface -> exists p, pairs' !! nw_Key wan = Some p /\ forall a, a ∈ local -> Contains (External p) a = true -> a ∈ DestinationExceptions p) ->
    prepared_spare iface local (dn ++ [wan]) (Ok pairs')) as Hext.
  { intros pairs' Hkeep Hnew wan' [Hin|Hin%list_elem_of_singleton]%elem_of_app Hi; [|subst wan'; by apply Hnew]. destruct (Hp wan' Hin Hi) as (p & Hpl & Hs). exists p. split; [|done].
    rewrite Hkeep; [done|]. intros E. apply Hn. rewrite <- E. apply list_elem_of_fmap. by exists wan'. }
  destruct built as [[built|]|e]; [..|done].
  - destruct (prepared_pair wan iface local (wd_pair built)) as [pr|e] eqn:Epr; [|done]. apply Hext; [intros key Hk; by rewrite lookup_insert_ne|]. intros Hi. exists pr. rewrite lookup_insert_eq. split; [done|].
    unfold prepared_pair in Epr. rewrite bool_decide_true in Epr by done. destruct (addPendingExceptions _ local) as [pr0|] eqn:Ea; [|done]. destruct (ValidatePair pr0); [|done]. injection Epr as ->.
    apply pending_spared in Ea as (E & _ & Hs). intros b Hb Hc. apply Hs; [done|]. by rewrite <- E.
  - case_bool_decide as Hi; [done|]. cbv beta. destruct (activePairs _ !! nw_Key wan) as [previous|]; apply Hext; try done. intros key Hk. by rewrite lookup_insert_ne.
Qed.

(** When no WAN failed, each WAN with a pair has its policy. *)
Definition set_complete (pairs : gmap string PrefixPair) (dn : list NptWAN) (a : policy_set) : Prop :=
  pl_errs a = [] -> forall wan p, wan ∈ dn -> pairs !! nw_Key wan = Some p -> mkInterfacePolicy (link_index (nw_Iface wan)) false [p] ∈ pl_wans a.

Lemma policy_complete_step pairs internal dn a wan s : set_complete pairs dn a -> wp (wan_policy_for pairs internal a wan) (fun a' _ => set_complete pairs (dn ++ [wan]) a') s.
Proof.
  intros Ha. assert (forall e a', pl_errs a' = pl_errs a ++ [e] -> set_complete pairs (dn ++ [wan]) a') as Hfail by (intros e a' E Hn; rewrite E in Hn; by destruct (pl_errs a)).
  unfold wan_policy_for. destruct (pairs !! nw_Key wan) as [p|] eqn:Ep.
  2:{ intros Hn wan' p' [Hin|Hin%list_elem_of_singleton]%elem_of_app Hp'; [by apply Ha|]. subst wan'. congruence. }
  destruct (List.find _ _) as [[id previous]|]; [by eapply Hfail|]. apply wp_bind. unfold wp at 1. destruct (internalPrefixRouteReady (Internal p) internal s) as [[e|] s1]; cbn [fst snd]; [by eapply Hfail|].
  apply wp_bind. unfold wp at 1, askN. pose proof (LinkByName_index (nw_Iface wan) (nworld s1)) as Hi. destruct (npt_LinkByName (nw_Iface wan) (nworld s1)) as [[index|e] w2]; cbn [fst snd] in *; apply wp_ret; [|by eapply Hfail].
  specialize (Hi _ eq_refl). subst index. intros Hn wan' p' [Hin|Hin%list_elem_of_singleton]%elem_of_app Hp'; cbn; apply elem_of_app; [left; by apply Ha|right].
  subst wan'. assert (p' = p) as -> by congruence. by left.
Qed.

Lemma policies_complete pairs s p s' : interfacePolicies pairs s = (p, s') -> ip_errs p = [] ->
  forall wan q, wan ∈ nc_WANs (nm_cfg (nmod s)) -> pairs !! nw_Key wan = Some q -> mkInterfacePolicy (link_index (nw_Iface wan)) false [q] ∈ ip_policies p.
Proof.
  intros H Herr wan q Hin Hq. cut (wp (interfacePolicies pairs) (fun p _ => ip_errs p = [] -> mkInterfacePolicy (link_index (nw_Iface wan)) false [q] ∈ ip_policies p) s).
  { unfold wp. rewrite H. cbn [fst]. auto. }
  clear p s' H Herr. unfold interfacePolicies. rewrite bool_decide_false by (intros ->; by rewrite lookup_empty in Hq). apply wp_bind, wp_gets, wp_bind. unfold wp at 1, askN.
  destruct (npt_LinkByName _ _) as [[internal|e] w1]; cbn [fst snd]; [|done]. apply wp_bind. eapply wp_mono; [apply (wp_foldM _ (fun dn a _ => set_complete pairs dn a))|].
  - intros _ wan' p' Hn. by apply elem_of_nil in Hn.
  - intros dn wan' todo a s1 _ Ha. by apply policy_complete_step.
  - intros a s1 Ha. apply wp_ret. cbn. intros He. apply elem_of_app. left. by apply Ha.
Qed.

Lemma preparation_outcome iface local s : NoDup (wan_keys s) ->
  wp (preparationPairs iface local) (fun r s' => still s s' /\ prepared_spare iface local (nc_WANs (nm_cfg (nmod s))) r) s.
Proof.
  intros Hd. unfold preparationPairs. apply wp_bind, wp_gets. apply (wp_foldM _ (fun dn r s' => still s s' /\ prepared_spare iface local dn r)).
  - split; [reflexivity|]. intros wan Hin. by apply elem_of_nil in Hin.
  - intros dn wan todo acc s1 Hxs [S1 Hp]. eapply wp_mono; [apply preparation_step; [|exact Hp]|intros acc' s2 [S2 Hp']; split; [by etransitivity|done]].
    rewrite Hxs, fmap_app in Hd. apply NoDup_app in Hd as (_ & Hd & _). intros Hin. apply (Hd _ Hin). cbn. by left.
Qed.

Lemma publish_tc members pairs reason : sat (publish members pairs reason) tc_still.
Proof.
  unfold publish. apply (sat_bind _); [apply still_tc, still_store; intros; apply set_world|]. intros changed.
  apply (sat_bind _); [intros s; split; [done|reflexivity]|]. intros u. apply still_tc, (sat_whenM _), request_still.
Qed.

Lemma ask_tc {A} (f : M W A) : sat f tc_same -> sat (askN f) tc_still.
Proof. intros H s. unfold askN. specialize (H (nworld s)). by destruct (f (nworld s)). Qed.

Lemma finish_tc fence published : sat (finishPolicyChange fence published) tc_still.
Proof.
  unfold finishPolicyChange. destruct fence as [changed|]; [|apply (sat_ret _)]. apply (sat_bind _); [apply (sat_whenM _)|intros].
  - unfold failAppliedPolicy. apply (sat_bind _); [apply (sat_gets _)|]. intros here. destruct (_ || _); [apply (sat_ret _)|].
    apply (sat_bind _); [apply still_tc, still_store; intros; done|]. intros. apply publish_tc.
  - apply (sat_bind _); [apply still_tc, still_ask, (sat_gets _)|]. intros registered. apply (sat_bind _); [apply (sat_whenM _), still_tc, still_ask, host_unguard|].
    intros. apply still_tc, still_emit. by intros ? ?.
Qed.

(** After the translator the preparation leaves its objects alone. *)
Lemma prepare_served iface local pairs policies changed s wan q : mkInterfacePolicy (link_index (nw_Iface wan)) false [q] ∈ policies ->
  let '((failed, _), s') := prepare_guarded iface local pairs policies changed s in failed = None -> serves (nworld s') (link_index (nw_Iface wan)) false [q].
Proof.
  intros Hpol. cut (wp (prepare_guarded iface local pairs policies changed) (fun r s' => r.1 = None -> serves (nworld s') (link_index (nw_Iface wan)) false [q]) s).
  { unfold wp. by destruct (prepare_guarded _ _ _ _ _ s) as [[failed b] s']. }
  unfold prepare_guarded. apply wp_bind. eapply wp_mono; [apply translate_outcome|]. intros [states errs] s1 (_ & _ & Ho). cbn [fst snd] in *.
  destruct errs as [|e errs]; cbn [nonempty]; [|done]. destruct (po_complete _ _ _ _ _ Ho eq_refl) as [Hb _]. specialize (Hb _ Hpol ltac:(done)). cbn in Hb.
  assert (serves (nworld s1) (link_index (nw_Iface wan)) false [q]) as Hs by by eapply both_serves.
  match goal with |- wp ?m _ _ => assert (sat m tc_still) as Hrest end.
  { apply (sat_bind _); [apply still_tc, still_set; intros; done|intros]. apply (sat_bind _); [apply still_tc, still_set; intros; done|intros].
    apply (sat_bind _); [|intros [e|]].
    - unfold removeReverseDNAT. apply (sat_bind _); [apply still_tc, still_ask, conn_read|]. intros []; [apply (sat_ret _)|apply ask_tc, remove_dnat_tc].
    - apply (sat_bind _); [apply still_tc, still_set; intros; done|intros]. apply (sat_ret _).
    - apply (sat_bind _); [|intros; apply (sat_bind _); [|intros; apply (sat_ret _)]].
      + apply still_tc, still_set. intros m. unfold retain_rules. by repeat case_match.
      + unfold publishPreparedPolicy. apply (sat_bind _); [apply (sat_gets _)|]. intros here. destruct (negb here); [apply (sat_ret _)|].
        apply (sat_bind _); [apply still_tc, still_store; intros; done|]. intros. apply (sat_bind _); [apply (sat_gets _)|]. intros. apply publish_tc. }
  unfold wp. intros _. destruct (Hrest s1) as [_ Hq]. by eapply serves_same.
Qed.

(** C32. Local addresses are spared before they are installed: when the preparation of addresses on
    an interface the module translates succeeds, the packet program already serves on that
    interface a pair with every one of the addresses its outside prefix holds among its
    destination exceptions, so no reply to them is translated away. *)
Theorem local_addresses_spared iface local s s' : NoDup (wan_keys s) -> local <> [] -> ownsTranslatedIface (nc_WANs (nm_cfg (nmod s))) iface = true ->
  prepareLocalIPv6 iface local s = (None, s') ->
  forall wan, wan ∈ nc_WANs (nm_cfg (nmod s)) -> nw_Iface wan = iface ->
  exists p, serves (nworld s') (link_index iface) false [p] /\ forall a, a ∈ local -> Contains (External p) a = true -> a ∈ DestinationExceptions p.
Proof.
  intros Hd Hl Ho H wan Hin Hi. unfold prepareLocalIPv6, wansN, getN, gets, mbind, M_bind, mret, M_ret in H. rewrite Ho in H. destruct local as [|a0 local']; [done|].
  cbn [nonempty negb orb] in H. set (local := a0 :: local') in *. clearbody local. pose proof (preparation_outcome iface local s Hd) as Hp. unfold wp in Hp.
  destruct (preparationPairs iface local s) as [[pairs|e] s1]; [|done]. cbn [fst snd] in *. destruct Hp as [[S1 _] Hp]. destruct (Hp wan Hin Hi) as (p & Hpl & Hs).
  destruct (interfacePolicies pairs s1) as [ps s2] eqn:Eps. destruct (nonempty (ip_errs ps)) eqn:En; [done|]. assert (ip_errs ps = []) as Hnil by by destruct (ip_errs ps).
  assert (mkInterfacePolicy (link_index (nw_Iface wan)) false [p] ∈ ip_policies ps) as Hpol by (eapply policies_complete; [done..|by rewrite (step_cfg _ _ S1)|done]).
  destruct (beginPolicyChange pairs s2) as [[fence|e] s3]; [|done]. pose proof (prepare_served iface local pairs (ip_policies ps) (default [] fence) s3 wan p Hpol) as Hv.
  destruct (prepare_guarded iface local pairs (ip_policies ps) (default [] fence) s3) as [[failed published] s4]. destruct (finish_tc fence published s4) as [_ Hq].
  destruct (finishPolicyChange fence published s4) as [u s5]. injection H as -> <-. exists p. rewrite <- Hi. split; [eapply serves_same; [exact Hq|by apply Hv]|done].
Qed.

(** A line that masquerades keeps local addresses of every other line from being prepared: as
    soon as one WAN masquerades, the preparation of local IPv6 addresses of a translated interface
    fails, whatever the rest of the system is in. *)
Lemma masquerade_blocks_preparation iface local s wan : local <> [] -> ownsTranslatedIface (nc_WANs (nm_cfg (nmod s))) iface = true ->
  wan ∈ nc_WANs (nm_cfg (nmod s)) -> nw_Translation wan = Some (mkIPv6Translation TranslationMasquerade None) -> exists e, (prepareLocalIPv6 iface local s).1 = Some e.
Proof.
  intros Hl Ho Hin Hm. unfold prepareLocalIPv6, wansN, getN, gets, mbind, M_bind, mret, M_ret. rewrite Ho. destruct local as [|a0 local']; [done|].
  cbn [nonempty negb orb]. set (local := a0 :: local') in *. clearbody local. unfold preparationPairs, wansN, getN, gets, mbind, M_bind.
  pose proof (wp_foldM (preparation_pair iface local) (fun dn (acc : res (gmap string PrefixPair)) _ => wan ∈ dn -> exists e, acc = Err e) (nc_WANs (nm_cfg (nmod s))) (Ok ∅) s
    ltac:(intros Hn; by apply elem_of_nil in Hn)) as Hf. unfold wp in Hf. cbn beta.
  destruct (foldM (preparation_pair iface local) (Ok ∅) (nc_WANs (nm_cfg (nmod s))) s) as [pairs s1]. cbn [fst snd] in *. destruct Hf as [e ->]; [|done|by exists e].
  intros dn x todo acc s2 Hxs Hi [Hx|Hx%list_elem_of_singleton]%elem_of_app.
  - destruct (Hi Hx) as [e ->]. by exists e.
  - subst x. destruct acc as [acc|e]; [|by exists e]. unfold preparation_pair, buildWANDesired. rewrite Hm. unfold mbind, M_bind, mret, M_ret. cbn. by eexists.
Qed.
End Claims.
