(* ===== verification/GatewayNpt.v ===== *)
(** * From the shared providers to the NPT module (cmd/mwan/ifmgr_module_configs.go)

    The configuration the command hands to the NPT module, which names the same lines as the one
    it hands to the steering module; and the two modules with the packet program: what the guard
    lets out of a translated line leaves with an address of the line's outside prefix. *)

From S2P Require Import Prelude GoStrings Effects NptPolicy Intent Observation BgpConfig Tier Notify Health BgpFib BgpModule WanState.
From S2P Require Import NetWire NetLink NetConn NetGraph NetProvider NetDocument GatewayBgp WanRoutes GatewayRoutes.
From S2P Require Import Nftables Steering SteeringExec SteeringProps SteeringClaims GatewaySteering.
From S2P Require Import NatRules NatExec NatApply NatReadiness BpfProgram BpfProps BpfPolicy BpfClaims BpfTranslator BpfTranslatorProps BpfEdge NptModule NptModuleProps.

Local Open Scope Z_scope.

Definition npt_wan (w : sharedWAN) : NptWAN := mkNptWAN (sw_ref w) (sw_Owned w) (sw_TranslationV4 w) (sw_TranslationV6 w).
Definition nptWANs (shared : sharedWANInputs) : list NptWAN := npt_wan <$> si_WANs shared.

Definition buildNPTConfig (shared : sharedWANInputs) : NptConfig :=
  mkNptConfig (si_InternalIface shared) (si_InternalNetV4 shared) (si_InternalPrefix shared) (si_OpnsenseEdgeV6 shared) (si_MwanbrEdgeV6 shared)
    (nptWANs shared).

(** ** The configuration *)

(** Lines are told apart by their connection identifiers. *)
Lemma npt_keys_distinct ifmgr : im_WAN ifmgr !! ""%string = None -> NoDup (nw_Key <$> nptWANs (buildWANRefs ifmgr)).
Proof.
  intros He. assert (nw_Key <$> nptWANs (buildWANRefs ifmgr) = (sorted_wans (im_WAN ifmgr)).*1) as ->.
  { unfold nptWANs, buildWANRefs. cbn [si_WANs]. rewrite <- !list_fmap_compose. apply list_fmap_ext. intros i [id a] H%list_elem_of_lookup_2%sorted_wans_in.
    unfold nw_Key, Key. cbn. rewrite bool_decide_true; [done|]. intros ->. congruence. }
  rewrite sorted_wans_perm. apply NoDup_fst_map_to_list.
Qed.

(** Each line is a member of the steering module too, with its key and interface. *)
Lemma line_member shared mode section scfg wan : buildSteeringConfig shared mode (Some section) = Ok scfg -> wan ∈ nptWANs shared ->
  exists m, m ∈ sc_Members scfg /\ mb_key m = nw_Key wan /\ mb_Iface m = nw_Iface wan.
Proof.
  intros (ms & Hms & [= <-])%res_bind_ok (w & -> & Hw)%list_elem_of_fmap. destruct (map_res_to _ _ _ _ Hms Hw) as (m & Hm & E). exists m. split; [done|].
  apply res_bind_ok in E as (mark & _ & [= <-]). done.
Qed.

(** ** Both modules *)

Section Together.
Context `{DT : !DistributionTypes} {W : Type} `{PT : !PrefixText} `{NT : !NetText}.
Context `{TK : !TcKernel W, TS : !TcState W, TB : !TcBehaves W, NC : !NatConn W, NR : !NatReader W, NK : !NatKernel W}.
Context `{KA : !KernelsApart W} `{N4 : !Nat4Reader W, AA : !NPTAddressAuthority W, NH : !NptHost W, HA : !HostApart W}.

(** C25. The NPT module, the steering module and the packet program together, configured by the
    command from the same providers: when steering decides on the translation state a pass of the
    NPT module published, and the guard lets an IPv6 packet from the internal link out of a line
    that translates, then at that publication the translator's programs ran on both hooks of the
    line, with the value of a pair of exactly the published prefixes; and by that value every
    packet that leaves the line from the inside prefix leaves from the outside prefix with the
    same checksum and an otherwise unchanged header, unless its address is excepted, or not at
    all, when its address has no translation or it carries ICMPv6 or extension headers that
    cannot be translated. *)
Theorem leaving_traffic_translated ifmgr mode section scfg pa health s ns members pairs w wan p :
  let shared := buildWANRefs ifmgr in
  im_WAN ifmgr !! ""%string = None -> im_Routes ifmgr = Some section ->
  buildSteeringConfig shared mode (im_Routes ifmgr) = Ok scfg -> config_fit scfg pa -> nm_cfg (nmod ns) = buildNPTConfig shared ->
  (NPublish members pairs, w) ∈ nlog (npt_Reconcile ns).2 -> (NPublish members pairs, w) ∉ nlog ns -> Translation s = members ->
  p_iif p = sc_InternalIface scfg -> p_proto p = family_proto familyV6 ->
  wan ∈ nptWANs shared -> translates wan = true -> p_oif p = nw_Iface wan -> dropped scfg pa health s p = false ->
  exists m pr v, members !! nw_Key wan = Some m /\ Internal pr = InternalPrefix (tr_V6 m) /\ External pr = ExternalPrefix (tr_V6 m) /\
    map_of w (link_index (p_oif p)) = Some v /\ (forall d, runs w (link_index (p_oif p)) d) /\
    (exists ps, pr ∈ ps /\ serves w (link_index (p_iif p)) true ps) /\
    forall sk offset, wf_pairs [pr] -> wf_skb v sk offset -> Contains (Internal pr) (AddrFrom16 (addr_of sk offset true)) = true ->
      ~ in_exceptions pr true (addr_of sk offset true) -> leaves_translated v pr sk offset.
Proof.
  intros shared He Hsec Hs Hc Hcfg Hin Hnew Ht Hi Hpro Hw Htr Ho Hd. rewrite Hsec in Hs.
  assert (sc_InternalIface scfg = si_InternalIface shared) as Hint.
  { apply res_bind_ok in Hs as (ms & _ & [= <-]). unfold shared. cbn. by rewrite Hsec. }
  destruct (line_member _ _ _ _ _ Hs Hw) as (member & Hm & Hk & Hf).
  destruct (leaving_eligible scfg pa health s familyV6 member p) as [Hel _]; [done|right; left|done..|by rewrite Hf|done|].
  unfold member_eligible in Hel. rewrite !andb_true_iff in Hel. destruct Hel as [[_ Hready] _]. rewrite Hk, Ht in Hready. unfold translation_of in Hready.
  destruct (members !! nw_Key wan) as [m|] eqn:Em; [|done]. cbn [default] in Hready. change (ft_Ready (tr_V6 m) = true) in Hready.
  assert (NoDup (nw_Key <$> nc_WANs (nm_cfg (nmod ns)))) as Hnd by (rewrite Hcfg; by apply npt_keys_distinct).
  pose proof (reconcile_step ns Hnd) as [_ Hl]. destruct (Hl _ Hin) as [H|H]; [done|]. rewrite Hcfg in H.
  destruct (H wan m Hw Htr Em Hready) as (pr & _ & E1 & E2 & [(encap & v & Hv & Hmap & Hruns) Hserve] & _).
  exists m, pr, v. rewrite Ho, Hi, Hint. split_and!; try done. intros sk offset Hwf Hsk Hc' Hex. by eapply line_translates.
Qed.
End Together.
