(* ===== verification/NptDemo.v ===== *)
(** * Prefix translation over two WANs

    A nat table that commits every transaction, a fiber line with edge exceptions, a line that
    masquerades, and packets of a host behind the fiber line; then a pass of the
    translator over two interfaces, and a pass of the module over both kernels. *)

From S2P Require Import Prelude GoStrings Effects NptPolicy Health Observation Intent WanState BgpFib BgpDemo NetWire NetGraph NetProvider Firewall Nftables SteeringDemo NatRules NatExec.
From S2P Require Import NatApply BpfProgram BpfProps BpfPolicy BpfClaims BpfTranslator BpfTranslatorProps BpfEdge NatReadiness NptModule NptModuleProps NptClaims.
From S2P Require Import GatewayBgp GatewaySteering GatewayNpt.

Local Open Scope Z_scope.

#[local] Existing Instance demo_text.

(** ** The nat table *)

#[export] Instance table_conn : NatConn chains := {
  nat_newConn w := (None, w);
  ListTables w := (Ok [natTableName], w);
  nat_ListChains w := (Ok (if w preroutingChain then [mkNatChain (Some natTableName) preroutingChain (Some (nat_kind preroutingChain))] else []), w);
  nat_Flush batch w := (None, fold_left apply_natop batch w);
}.

#[export] Instance table_reader : NatReader chains := {
  nat_ctx_err _ := None;
  nat_readConn w := (None, w);
  GetRules name w := (match w name with Some es => inl (listed true es) | None => inr (mkNftReadError "no such file or directory" true) end, w);
  ifaceNameByIndex _ _ := None;
}.

#[export] Instance table_kernel : NatKernel chains.
Proof.
  refine {| nat_contents w := w; kernel_ranged := true |}; try done.
  - intros batch w w' c [= <-]. done.
  - intros name w. split; [done|]. cbn. intros rules es H E. rewrite E in H. by injection H.
  - intros name w e es E. cbn. by rewrite E.
Defined.

(** ** The lines *)

Definition v6 (h1 h2 h3 last : Z) : list Z := [32; 1; 13; 184; h1; h2; h3; 0; 0; 0; 0; 0; 0; 0; 0; last].
Definition opnsense : Addr := AddrFrom16 (v6 255 0 0 1).
Definition mwanbr : Addr := AddrFrom16 (v6 255 0 0 2).
Definition fiber_prefix : Prefix := mkPrefix (AddrFrom16 (v6 0 1 0 0)) 56.
Definition fiber_input : wanRuleInput := mkWanRuleInput "wan0" fiber_prefix opnsense mwanbr [AddrFrom16 (v6 0 9 0 9)].
Definition demo_kinds : list wan_kind := [Edges fiber_input; Masquerades "wan1"].

Lemma edge_decided b : (length b =? 16)%nat && forallb (fun x => (0 <=? x) && (x <? 256)) b = true -> edge6 (AddrFrom16 b).
Proof. intros [H1%Nat.eqb_eq H2]%andb_true_iff. split; [by exists b|by apply bytes_decided]. Qed.

Lemma fiber_wf : wf_wan_input fiber_input.
Proof.
  constructor; cbn; try (by apply edge_decided); [done|by apply plain_decided| |by apply Forall_singleton, edge_decided].
  split; [|by apply bytes_decided]. split; [by eexists|]. split; [cbn; lia|reflexivity].
Qed.

Lemma kinds_wf : Forall wf_kind demo_kinds.
Proof. apply Forall_cons. split; [apply fiber_wf|]. apply Forall_singleton. cbn. split; [done|by apply plain_decided]. Qed.

Definition ip6 (source destination : list Z) (next : Z) : list Z := [96; 0; 0; 0; 0; 8; next; 64] ++ source ++ destination.
Definition nat_demo_packet : nat_packet := mkNatPacket "lan0" "wan0" 1 2 (ip6 (v6 255 0 0 1) (v6 7 7 7 7) 17) 0.

Lemma nat_demo_wf : wf_nat_packet nat_demo_packet.
Proof. constructor; cbn; [by apply plain_decided..|split; [by apply bytes_decided|lia]|lia]. Qed.

(** The gateway's own packet leaves the fiber line as the first host of the line's prefix. *)
Lemma edge_traffic_translated_witness : exists (w : chains) es, w postroutingChain = Some es /\
  run_nat_chain es (fun _ => 0) nat_demo_packet = Some (single NATTypeSourceNAT (AddrFrom16 (v6 0 1 0 1))).
Proof.
  assert (NoDup (kind_iface <$> demo_kinds)) as Hd by (apply NoDup_cons; split; [set_solver|apply NoDup_singleton]).
  pose proof (edge_traffic_translated demo_kinds (fun _ => None) chainPostrouting nat_demo_packet (fun _ => 0) kinds_wf Hd nat_demo_wf) as H.
  destruct (nat_Apply _ _) as [[[e|] batch] w] eqn:E; [apply (f_equal (fun x => x.1.1)) in E; vm_compute in E; discriminate E|].
  destruct H as (es & Hes & H & _). exists w, es. split; [exact Hes|]. rewrite (H (Edges fiber_input)); [reflexivity|left|reflexivity].
Defined.

Definition empty_table : chains := fun _ => None.
Definition demo_desired : desiredRules := wan_program demo_kinds.
Definition demo_table : chains := (nat_Apply demo_desired empty_table).2.
Definition demo_batch : list natop := (nat_Apply demo_desired empty_table).1.2.

(** ** Packets *)

Definition demo_pair : PrefixPair :=
  mkPair 7 (mkPrefix (AddrFrom16 [253; 0; 0; 1; 0; 2; 0; 0; 0; 0; 0; 0; 0; 0; 0; 0]) 48) (mkPrefix (AddrFrom16 (v6 0 1 0 0)) 48) [opnsense; mwanbr] [AddrFrom16 (v6 0 1 0 1)].
Definition host : list Z := [253; 0; 0; 1; 0; 2; 0; 9; 0; 0; 0; 0; 0; 0; 0; 5].
Definition host2 : list Z := [253; 0; 0; 1; 0; 2; 0; 8; 0; 0; 0; 0; 0; 0; 0; 6].

Definition wan_policy : InterfacePolicy := mkInterfacePolicy 2 false [demo_pair].
Definition lan_policy : InterfacePolicy := mkInterfacePolicy 1 true [demo_pair].
Definition value_of (p : InterfacePolicy) : nptPolicy := match policyValue p "ether" with Ok v => v | Err _ => mkNptPolicy 0 0 0 [] [] [] end.
Definition frame (source destination : list Z) : list Z := repeat 2 12 ++ [134; 221] ++ ip6 source destination 17 ++ repeat 0 8.
Definition skb (source destination : list Z) : sk_buff := mkSkb 2 (frame source destination) 0 3.
Definition passed (a : tc_action) (s : sk_buff) : sk_buff := match a with TC_ACT_OK s' => s' | TC_ACT_SHOT => s end.

Lemma demo_pairs_wf : wf_pairs [demo_pair].
Proof.
  apply Forall_singleton. split; [split|split].
  1,2: split; [split; [reflexivity|by apply bytes_decided]|split; [reflexivity|cbn; lia]].
  - repeat (apply Forall_cons; split; [split; [reflexivity|by apply bytes_decided]|]). apply Forall_nil, I.
  - apply Forall_singleton. split; [reflexivity|by apply bytes_decided].
Qed.

Definition outbound_skb : sk_buff := skb host (v6 7 7 7 7).
Definition left_skb : sk_buff := passed (process_policy (value_of wan_policy) outbound_skb false) outbound_skb.
Definition reply_skb : sk_buff := skb (v6 7 7 7 7) (addr_of left_skb 14 true).

Lemma skb_wf p s : ipv6_offset s (negb (bo_Ethernet (value_of p) =? 0)) = Some 14%nat -> forallb (fun x => (0 <=? x) && (x <? 256)) (sk_data s) = true ->
  (54 <=? length (sk_data s))%nat = true -> wf_skb (value_of p) s 14.
Proof. intros H1 H2 H3%Nat.leb_le. constructor; [done|by apply bytes_decided|lia]. Qed.

(** The host's packet leaves with the address the policy gives. *)
Lemma wan_packets_translated_witness : exists b, TranslateAddress demo_pair (AddrFrom16 host) true = Ok b /\ addr_of left_skb 14 true = As16 b.
Proof.
  pose proof (wan_packets_translated wan_policy "ether" (value_of wan_policy) outbound_skb 14 false ltac:(vm_compute; reflexivity) eq_refl demo_pairs_wf
                ltac:(apply skb_wf; vm_compute; reflexivity)) as H. cbv zeta in H.
  assert (process_policy (value_of wan_policy) outbound_skb false = TC_ACT_OK left_skb) as E by (vm_compute; reflexivity). rewrite E in H.
  destruct H as [[Hs _]|(pair & [Hp _] & [[Hs _]|(_ & _ & b & Ht & Hb)])];
    [apply (f_equal sk_data) in Hs; vm_compute in Hs; discriminate Hs..|].
  exists b. apply list_elem_of_singleton in Hp. subst pair. split; [exact Ht|exact Hb].
Defined.


(** A host that reaches another by its outside address. *)
Definition hairpin_in : sk_buff := skb host (As16 (match TranslateAddress demo_pair (AddrFrom16 host2) true with Ok b => b | Err _ => AddrNone end)).
Definition hairpin_mid : sk_buff := passed (process_policy (value_of lan_policy) hairpin_in true) hairpin_in.

Lemma hairpin_both_sides_witness : exists pair b, pair ∈ [demo_pair] /\
  TranslateAddress pair (AddrFrom16 (addr_of hairpin_in 14 false)) false = Ok b /\ addr_of hairpin_mid 14 false = As16 b /\ sk_mark hairpin_mid = 0.
Proof.
  destruct (hairpin_both_sides lan_policy "ether" (value_of lan_policy) hairpin_in 14 hairpin_mid hairpin_mid 14 ltac:(vm_compute; reflexivity) eq_refl demo_pairs_wf
              ltac:(apply Forall_singleton; cbn; lia) ltac:(apply skb_wf; vm_compute; reflexivity) ltac:(vm_compute; reflexivity) ltac:(vm_compute; reflexivity)
              ltac:(apply skb_wf; vm_compute; reflexivity) eq_refl) as (pair & b & [Hp _] & H1 & H2 & H3 & _).
  exists pair, b. split_and!; [exact Hp|exact H1|exact H2|exact H3].
Defined.

Lemma program_matches_policy_witness : exists b, TranslateAddress demo_pair (AddrFrom16 host) true = Ok b /\ c_translate (encode_pair demo_pair) true host = Some (As16 b).
Proof.
  eexists. split; [vm_compute; reflexivity|].
  rewrite (program_matches_policy demo_pair (encode_pair demo_pair) true host (proj1 (proj1 (Forall_singleton _ _) demo_pairs_wf)) ltac:(vm_compute; reflexivity)
             ltac:(split; [reflexivity|by apply bytes_decided])).
  vm_compute. reflexivity.
Defined.

(** ** A pass of the translator over two interfaces

    A kernel with an empty policy map and no filters, on which every request succeeds; the
    demonstration pair on the line and on the internal side. *)

Record tc_world := mkTcWorld { tw_map : gmap Z nptPolicy; tw_filters : Z -> Direction -> list tc_filter; tw_translator : translator }.

Definition demo_program (d : Direction) : Z := match d with Ingress => 1 | Egress => 2 end.
Definition demo_filter (d : Direction) : tc_filter := mkTcFilter filterPriority filterHandle ETH_P_ALL true (filterName d) (demo_program d) true 0 None.
Definition set_filters (w : tc_world) (i : Z) (d : Direction) (fs : list tc_filter) : tc_world :=
  mkTcWorld (tw_map w) (fun i' d' => if (i' =? i) && bool_decide (d' = d) then fs else tw_filters w i' d') (tw_translator w).
Definition set_map (w : tc_world) (m : gmap Z nptPolicy) : tc_world := mkTcWorld m (tw_filters w) (tw_translator w).

(** The interfaces are 1 to 3, and no other has filters. *)
Definition on_links (w : tc_world) (i : Z) (d : Direction) : list tc_filter := if bool_decide (i ∈ [1; 2; 3]) then tw_filters w i d else [].

#[export] Instance demo_tc : TcKernel tc_world := {
  get_translator := tw_translator;
  put_translator t w := mkTcWorld (tw_map w) (tw_filters w) t;
  program_Info g d w := (Ok (mkProgramInfo (Some (demo_program d)) SchedCLS (pin_String (program_pin d)) (Some [9])), w);
  policies_Info g w := (Ok (mkMapInfo (Some 9) "policies" "Hash" 4 9000), w);
  Policies_Lookup g k w := (match tw_map w !! k with Some v => Found v | None => KeyNotExist "key does not exist" end, w);
  Policies_Update k v w := (None, set_map w (<[k := v]> (tw_map w)));
  Policies_Delete k w := (match tw_map w !! k with Some _ => None | None => Some (mkAbsentError "key does not exist" true) end, set_map w (delete k (tw_map w)));
  Policies_Iterate w := ((map_to_list (tw_map w), None), w);
  FilterList i d w := (Ok (on_links w i d), w);
  FilterReplace i d w := (None, set_filters w i d [demo_filter d]);
  FilterDel i d f w := (None, set_filters w i d []);
  QdiscList i w := (Ok [], w);
  QdiscAdd i w := (None, w);
  LinkByIndex i w := (inl "ether"%string, w);
  LinkList w := (Ok [1; 2; 3], w);
  loadNptObjects w := (None, w);
  LoadPinned p w := (Some (mkAbsentError "file does not exist" true), w);
  MkdirAll w := (None, w);
  RemovePin p w := (Some (mkAbsentError "file does not exist" true), w);
  Pin p w := (None, w);
  Close_objects g w := (None, w);
}.

#[export] Instance demo_tc_state : TcState tc_world := {
  map_of w k := tw_map w !! k;
  filters_of := on_links;
  previous_of w k := tw_map w !! k;
  program_at _ := demo_program;
}.

Lemma set_filters_frame w i d fs : kernel_frame no_key (one_hook i d) w (set_filters w i d fs).
Proof.
  split; [done|]. intros i' d' Hn. cbn. unfold on_links. cbn. destruct (Z.eqb_spec i' i) as [->|]; [|done]. case_bool_decide as E; [|done]. case_bool_decide as E'; [|done].
  subst d'. by destruct Hn.
Qed.

#[export] Instance demo_tc_behaves : TcBehaves tc_world.
Proof.
  constructor; try (intros; intros w; split; [split|]; done); try (intros; intros w; split; done).
  - intros g d w info id [= <-] [= <-]. done.
  - by intros i d w fs [= <-].
  - intros i d w. apply set_filters_frame.
  - intros i d f w. apply set_filters_frame.
  - intros k v w. split; [|done]. intros k' Hk. cbn. by rewrite lookup_insert_ne.
  - intros [] k w v; cbn; (destruct (tw_map w !! k); [by intros [= <-]|done]).
  - intros [] k w e; cbn; by destruct (tw_map w !! k).
  - intros k w. split; [|done]. intros k' Hk. cbn. by rewrite lookup_delete_ne.
  - intros w entries k v [= <-] Hv. by apply elem_of_map_to_list.
  - intros w links i d [= <-]. cbn. unfold on_links. by case_bool_decide.
Qed.

(** A policy of an interface that is no longer configured. *)
Definition stale_world : tc_world := mkTcWorld {[ 3 := value_of wan_policy ]} (fun i d => if i =? 3 then [demo_filter d] else []) (mkTranslator false false false).
Definition demo_pass : (list AttachmentState * list error) * tc_world := Translator_Reconcile [wan_policy; lan_policy] stale_world.

(** Both lines are ready, and the old policy is gone. *)
Lemma translator_pass_sound_witness : both_ready 2 demo_pass.1.1 /\ both_ready 1 demo_pass.1.1 /\ runs demo_pass.2 2 Egress /\ map_of demo_pass.2 3 = None.
Proof.
  assert (Translator_Reconcile [wan_policy; lan_policy] stale_world = ((demo_pass.1.1, []), demo_pass.2)) as E.
  { change (demo_pass = ((demo_pass.1.1, []), demo_pass.2)). assert (demo_pass.1.2 = []) as E2 by (vm_compute; reflexivity). destruct demo_pass as [[st es] w]. cbn in *. by rewrite E2. }
  destruct (translator_pass_sound _ _ _ _ _ E) as (H1 & H2 & _). destruct (H2 eq_refl) as [Hb Hm].
  assert (both_ready 2 demo_pass.1.1) as B2 by (apply (Hb wan_policy); [left|done]).
  split_and!; [exact B2|apply (Hb lan_policy); [right; left|done]| |].
  - destruct (B2 Egress) as (st & Hin & Hi & Hd & Hr). destruct (H1 st Hin Hr) as (v & _ & _ & R). by rewrite Hi, Hd in R.
  - destruct (map_of demo_pass.2 3) as [v|] eqn:Em; [|done]. destruct (Hm 3 v Em) as (policy & encap & Hin & Hi & _).
    apply elem_of_cons in Hin as [->|Hin%list_elem_of_singleton]; [done|]. by subst policy.
Defined.

(** ** A pass of the NPT module over one line

    The demonstration kernels side by side, a host that answers for two interfaces, an edge
    address recorded for a line that is gone, and a configuration that translates the fiber line. *)

#[local] Existing Instance demo_text.
#[local] Instance npt_types : DistributionTypes := { DistributionPlan := unit; DistributionEvidence := unit }.

(** ** Both kernels *)

Definition both : Type := chains * tc_world.
Definition inL {A} (f : M chains A) : M both A := fun w => let '(a, c) := f w.1 in (a, (c, w.2)).
Definition inR {A} (f : M tc_world A) : M both A := fun w => let '(a, t) := f w.2 in (a, (w.1, t)).

#[export] Instance both_conn : NatConn both := {
  nat_newConn := inL nat_newConn; ListTables := inL ListTables; nat_ListChains := inL nat_ListChains; nat_Flush batch := inL (nat_Flush batch);
}.

#[export] Instance both_reader : NatReader both := {
  nat_ctx_err w := nat_ctx_err w.1; nat_readConn := inL nat_readConn; GetRules name := inL (GetRules name); ifaceNameByIndex w := ifaceNameByIndex w.1;
}.

#[export] Instance both_nat : NatKernel both.
Proof.
  refine {| nat_contents w := w.1; kernel_ranged := true |}; try done.
  - intros batch w w' c [= <-]. done.
  - intros name w. split; [done|]. cbn. intros rules es H E. rewrite E in H. by injection H.
  - intros name w e es E. cbn. by rewrite E.
Defined.

#[export] Instance both_tc : TcKernel both := {
  get_translator w := get_translator w.2; put_translator t w := (w.1, put_translator t w.2);
  program_Info g d := inR (program_Info g d); policies_Info g := inR (policies_Info g); Policies_Lookup g k := inR (Policies_Lookup g k);
  Policies_Update k v := inR (Policies_Update k v); Policies_Delete k := inR (Policies_Delete k); Policies_Iterate := inR Policies_Iterate;
  FilterList i d := inR (FilterList i d); FilterReplace i d := inR (FilterReplace i d); FilterDel i d f := inR (FilterDel i d f);
  QdiscList i := inR (QdiscList i); QdiscAdd i := inR (QdiscAdd i); LinkByIndex i := inR (LinkByIndex i); LinkList := inR LinkList;
  loadNptObjects := inR loadNptObjects; LoadPinned p := inR (LoadPinned p); MkdirAll := inR MkdirAll; RemovePin p := inR (RemovePin p); Pin p := inR (Pin p);
  Close_objects g := inR (Close_objects g);
}.

#[export] Instance both_tc_state : TcState both := { map_of w := map_of w.2; filters_of w := filters_of w.2; previous_of w := previous_of w.2; program_at := program_at }.

#[export] Instance both_tc_behaves : TcBehaves both.
Proof.
  destruct demo_tc_behaves as [H1 H2 H3 H4 H5 H6 H7 H8 H9 H10 H11 H12 H13 H14 H15 H16 H17 H18 H19 H20 H21 H22 H23 H24].
  constructor; intros; try (intros [c t]).
  - apply (H1 g d t).
  - by eapply (H2 g d w.2).
  - apply (H3 g t).
  - apply (H4 i d t).
  - by apply (H5 i d w.2).
  - apply (H6 i d t).
  - apply (H7 i d f t).
  - apply (H8 i t).
  - apply (H9 i t).
  - apply (H10 k v t).
  - apply (H11 g k t).
  - destruct g; by apply (H12 Current k w.2).
  - destruct g; by eapply (H13 Current k w.2).
  - apply (H14 k t).
  - apply (H15 t).
  - by apply (H16 w.2).
  - apply (H17 i t).
  - apply (H18 t).
  - by apply (H19 w.2 links i d).
  - apply (H20 t).
  - apply (H21 p t).
  - apply (H22 p t).
  - apply (H23 g t).
  - intros [c t']. apply (H24 t t').
Qed.

#[export] Instance both_apart : KernelsApart both.
Proof. constructor; intros; intros [c t']; try reflexivity; split; done. Qed.

(** ** The host *)

Definition demo_links (name : string) : Z := if bool_decide (name = "lan0"%string) then 1 else if bool_decide (name = "wan0"%string) then 2 else 0.
Definition old_edge : NPTEdgeRecord := mkEdgeRecord "old" "wan9" 3 "mac:" (mkPrefix (AddrFrom16 (v6 0 9 0 1)) 128).

#[export] Instance demo_authority : NPTAddressAuthority both := {
  Edge_Ensure _ w := (None, w); Edge_Recorded w := ([old_edge], w); Edge_RetainDuringRecovery _ w := (false, w); Edge_Release _ w := (None, w);
}.

#[export] Instance demo_nat4 : Nat4Reader both := { nat4_ListChain _ w := (Err "no ip nat table", w); nat4_GetRules _ w := (Ok [], w) }.

#[export] Instance demo_host : NptHost both := {
  Source_Prefix _ w := (Ok None, w);
  ListAddrs _ w := (Ok [], w);
  npt_LinkByName name w := (Ok (demo_links name), w);
  npt_LinkByIndex _ w := (None, w);
  RouteListFiltered _ w := (Ok [1], w);
  npt_FamilyApplied _ _ w := (true, w);
  npt_FamilyReady _ _ w := (true, w);
  Delegations_Get _ w := (None, w);
  npt_Now w := (0, w);
  nptGuard_registered _ := true;
  nptGuard_call _ w := ((None, true), w);
  nptGuard_release w := w;
  npt_DelRule _ w := (None, w);
  npt_FlushRemovals w := (None, w);
  Alerts_Active _ _ w := (false, w);
}.

#[export] Instance demo_host_apart : HostApart both.
Proof.
  refine {| link_index := demo_links |}; intros; try (intros w; split; [split; done|done]); try (intros w; split; done). by injection H.
Defined.

(** ** The module *)

Definition fiber : NptWAN := mkNptWAN (mkWANRef "fiber" "fiber" "wan0") true None
  (Some (mkIPv6Translation TranslationNPTv6 (Some (mkNPTv6Translation (mkPrefix (AddrFrom16 [253; 0; 0; 1; 0; 2; 0; 0; 0; 0; 0; 0; 0; 0; 0; 0]) 48) PrefixConfigured
    (mkPrefix (AddrFrom16 (v6 0 1 0 0)) 48) no_prefix)))).
Definition demo_npt_config : NptConfig := mkNptConfig "lan0" "" "" "" "" [fiber].
Definition demo_npt : nptModule := mkNptModule demo_npt_config (mkNptEnv true true true false true false) no_prefix opnsense mwanbr true [] ∅ ∅ ∅.
Definition demo_start : nsys (W := both) := mkNsys demo_npt NewStore (empty_table, stale_world) [].
Definition demo_end : nsys (W := both) := (npt_Reconcile demo_start).2.

(** The kind of the event at a position, and its contents. *)
Definition publication (log : list (nevent * both)) (n : nat) : option (gmap string MemberTranslation * gmap string PrefixPair * both) :=
  match log !! n with Some (NPublish members pairs, w) => Some (members, pairs, w) | _ => None end.
Definition release (log : list (nevent * both)) (n : nat) : option (NPTEdgeRecord * list InterfacePolicy * both) :=
  match log !! n with Some (NRelease record policies, w) => Some (record, policies, w) | _ => None end.

Definition fiber_ready (log : list (nevent * both)) (n : nat) : bool :=
  match publication log n with Some (members, pairs, _) => match members !! "fiber"%string with Some m => ft_Ready (tr_V6 m) | None => false end | None => false end.

Lemma publication_logged log n members pairs w : publication log n = Some (members, pairs, w) -> (NPublish members pairs, w) ∈ log.
Proof.
  unfold publication. intros H. destruct (log !! n) as [[[] w']|] eqn:E; try done. injection H as -> -> ->. by eapply list_elem_of_lookup_2.
Qed.

Lemma release_logged log n record policies w : release log n = Some (record, policies, w) -> (NRelease record policies, w) ∈ log.
Proof.
  unfold release. intros H. destruct (log !! n) as [[[] w']|] eqn:E; try done. injection H as -> -> ->. by eapply list_elem_of_lookup_2.
Qed.

Lemma demo_keys : NoDup (nw_Key <$> nc_WANs (nm_cfg (nmod demo_start))).
Proof. apply NoDup_singleton. Qed.



(** A local address of the fiber line. *)
Definition demo_local : list Addr := [AddrFrom16 (v6 0 1 0 32)].

Lemma local_addresses_spared_witness : exists (s' : nsys (W := both)) p, serves (nworld s') 2 false [p] /\
  (Contains (External p) (AddrFrom16 (v6 0 1 0 32)) = true -> AddrFrom16 (v6 0 1 0 32) ∈ DestinationExceptions p).
Proof.
  assert ((prepareLocalIPv6 "wan0" demo_local demo_start).1 = None) as Hn by (vm_compute; reflexivity).
  destruct (prepareLocalIPv6 "wan0" demo_local demo_start) as [failed s'] eqn:E. cbn [fst] in Hn. subst failed.
  destruct (local_addresses_spared "wan0" demo_local demo_start s' demo_keys ltac:(discriminate) eq_refl E fiber ltac:(left) eq_refl) as (p & Hs & Ha).
  exists s', p. split; [exact Hs|]. apply Ha. left.
Defined.

(** ** With the steering module *)

Definition wired : IfMgrSection :=
  mkIfMgrSection {["fiber"%string := mkWANEntry None "fiber" "wan0" 101 1 10001 11001 None (nw_Translation fiber) "" "" 0 0 2 []]}
    [mkConnection "fiber" "wan0" "" None RoleProvider OwnerMWAN None None None "" []]
    "2001:db8::/48" "2001:db8::5" "" (Some (mkRoutesSection "lan0" "10.0.0.0/24" "/run/health")).
Definition wired_npt : nptModule := mkNptModule (buildNPTConfig (buildWANRefs wired)) (nm_env demo_npt) no_prefix opnsense mwanbr true [] ∅ ∅ ∅.
Definition wired_start : nsys (W := both) := mkNsys wired_npt NewStore (empty_table, stale_world) [].

(** An IPv6 packet with the mark of the fiber line that leaves by it, and what steering knows. *)
Definition leaving : Nftables.packet := Nftables.mkPacket "lan0" "wan0" Nftables.NFPROTO_IPV6 (repeat 0 40) 1 0 Steering.ctStateNew.
Definition wired_snapshot (members : gmap string MemberTranslation) : Snapshot :=
  mkSnapshot ∅ ∅ ∅ SteeringDemo.all_ready 0 members ∅ 0 0 true (mkBGP [] 0 false) ∅ ∅.

Lemma leaving_traffic_translated_witness : exists (w : both) pr v, map_of w 2 = Some v /\ (forall d, runs w 2 d) /\
  forall sk offset, wf_pairs [pr] -> wf_skb v sk offset -> Contains (Internal pr) (AddrFrom16 (addr_of sk offset true)) = true ->
    ~ in_exceptions pr true (addr_of sk offset true) -> leaves_translated v pr sk offset.
Proof.
  assert (match publication (nlog (npt_Reconcile wired_start).2) 6 with
          | Some (members, _, _) => negb (SteeringClaims.dropped SteeringDemo.fiber_steering SteeringDemo.demo_parsed SteeringDemo.demo_health (wired_snapshot members) leaving)
          | None => false end = true) as Hd by (vm_compute; reflexivity).
  destruct (publication (nlog (npt_Reconcile wired_start).2) 6) as [[[members pairs] w]|] eqn:E; [|discriminate Hd]. apply negb_true_iff in Hd.
  destruct (leaving_traffic_translated wired Steering.hashModeSource (mkRoutesSection "lan0" "10.0.0.0/24" "/run/health") SteeringDemo.fiber_steering SteeringDemo.demo_parsed
    SteeringDemo.demo_health (wired_snapshot members) wired_start members pairs w fiber leaving eq_refl eq_refl eq_refl SteeringDemo.fiber_fit eq_refl
    (publication_logged _ 6 _ _ _ E) ltac:(intros H; by apply elem_of_nil in H) eq_refl eq_refl eq_refl ltac:(left) eq_refl eq_refl Hd)
    as (m & pr & v & _ & _ & _ & Hv & Hr & _ & Hl).
  exists w, pr, v. split; [exact Hv|]. split; [exact Hr|exact Hl].
Defined.
